(* ===== verification/_CoqProject ===== *)
-Q . S2P
Prelude.v
Effects.v
Conditions.v
Dag.v
Provision.v
Gates.v
Unstructured.v
Namespaces.v
Monitor.v
Precondition.v
ModuleBase.v
ModuleRegistry.v
ModuleActions.v
ModuleTheorems.v
ModuleStatusTheorems.v
EnvInject.v
PlatformConfig.v
SharedPlatform.v
DscController.v
Conversion.v
ConversionTheorems.v
Admission.v
Workload.v
Kueue.v
KueueController.v
KueueTheorems.v
HardwareProfile.v
HardwareProfileTheorems.v
Serving.v
ServingTheorems.v
Sha256.v
Secrets.v
Gateway.v
GatewayTheorems.v
GatewayStatus.v
GatewayStatusTheorems.v
GatewayAuth.v
GatewayActions.v
GatewayAuthTheorems.v
HandlerInterface.v
ModuleHandlers.v
BuiltinModules.v
BuiltinModulesTheorems.v
ApiVersions.v
Services.v
MonitoringInjection.v
ScopeRules.v
Startup.v
StartupTheorems.v
CloudManager.v
CloudManagerTheorems.v
CertManager.v
Watches.v
StorageMigration.v
StorageMigrationTheorems.v
FailureClassifier.v
ClusterHealth.v
HealthSections.v
HealthReport.v
HealthTheorems.v
HealthFormat.v
HealthFormatTheorems.v
Params.v
Deploy.v
Logger.v
Dsci.v
DsciController.v
DsciTheorems.v
Uninstall.v
UninstallTheorems.v
HwpMigration.v
HwpMigrationTheorems.v
Upgrade.v
UpgradeTheorems.v
