(* ===== verification/Prelude.v ===== *)
(** * Verification of the RHOAI / ODH operator

    The operator turns three custom resources into a running AI platform. A user writes a
    DataScienceCluster (DSC) and a DSCInitialization (DSCI); their controllers project which
    modules are wanted into one shared Platform CR and create the CRs of components and
    modules. The platform controller reads the Platform CR and deploys the module operators,
    runlevel by runlevel, behind admin gates and readiness gates; component controllers hold
    back until the walk has reached their runlevel. Around this core stand the admission
    webhooks, the conversion between API versions, the gateway service, which exposes the
    platform's applications behind authentication proxies, the cloud manager, which installs
    dependencies on managed Kubernetes, and storage migration. This development models the
    core and these parts.

    ** Parts and files (below [src/])

    - [Prelude]: errors, results, Go strings, sorting, lists; the [operator] hint database.
    - [Effects]: programs over calls to the outside, and their proof rules.
    - [Conditions]: conditions and constants ([internal/controller/status/status.go],
      [api/common/types.go]).
    - [Dag]: runlevel graph, policies, stuck tracker ([pkg/controller/dag/dag.go]).
    - [Provision]: unified registry, runlevel tracker and the gated walk
      ([pkg/controller/provision/unified.go], [runlevel_tracker.go], [gating.go]).
    - [Gates]: upgrade gates ([pkg/controller/gates/gates.go],
      [pkg/controller/provision/gates_action.go]).
    - [Unstructured]: dynamic Kubernetes objects and their accessors.
    - [Namespaces]: namespace resolution ([pkg/cluster/resources.go],
      [internal/controller/modules/otel_namespace.go]).
    - [Monitor], [Precondition]: health of dependencies and the checks before a
      reconciliation ([pkg/controller/monitor], [pkg/controller/precondition]).
    - [ModuleBase]: module handlers ([internal/controller/modules/base.go], [types.go]).
    - [ModuleRegistry]: module and component registries and readiness checkers
      ([internal/controller/modules/registry.go], [readiness.go],
      [internal/controller/components/registry]).
    - [ModuleActions]: the platform controller
      ([internal/controller/modules/modules_controller_actions.go]); its theorems are in
      [ModuleTheorems] (cleanup, finalizer, provisioning) and [ModuleStatusTheorems]
      (status reporting, the modules of the Platform CR).
    - [EnvInject], [PlatformConfig]: its two actions on rendered resources
      ([modules_controller_actions_inject_env.go],
      [modules_controller_actions_platform_config.go]).
    - [SharedPlatform]: metadata and owner references of the Platform CR.
    - [DscController]: the DSC controller ([internal/controller/datasciencecluster]).
    - [Conversion], [ConversionTheorems]: the v2 and v3 DataScienceCluster
      ([api/datasciencecluster/v2/datasciencecluster_conversion.go],
      [api/datasciencecluster/v3/maas_conversion.go]).
    - [Admission]: validating and defaulting webhooks ([internal/webhook/datasciencecluster],
      [dscinitialization], [deprecation], [pkg/webhook/utils.go]).
    - [Workload], [HardwareProfile], [HardwareProfileTheorems]: injection of hardware profiles
      into workloads ([internal/webhook/hardwareprofile]).
    - [Serving], [ServingTheorems]: connections of inference services
      ([internal/webhook/serving]).
    - [Sha256], [Secrets]: hashes and generated secrets ([pkg/cluster/secret.go]).
    - [Gateway], [GatewayTheorems]: configuration, validation, names and hosts of the gateway
      ([api/services/v1alpha1/gateway_types.go], [pkg/gatewayconfig],
      [internal/webhook/gateway]); [GatewayStatus], [GatewayStatusTheorems]: readiness of
      additional ingresses ([gateway_ingress_status.go], [gateway_auth_readiness.go]);
      [GatewayAuth]: authentication proxies ([gateway_auth_targets.go]); [GatewayActions]:
      Gateways, certificates, Routes, redirects and status; the theorems of both are in
      [GatewayAuthTheorems]. All are below [internal/controller/services/gateway].
    - [HandlerInterface], [ModuleHandlers]: the interface of module handlers and the sixteen
      built-in handlers, one Module each ([internal/controller/modules/*/handler.go]);
      [BuiltinModules], [BuiltinModulesTheorems]: their table and its registration
      ([internal/controller/modules/builtin], [registerModules] of [cmd/main.go]).
    - [ApiVersions]: conversion and admission of the older versions of the Platform and the
      DSCInitialization ([api/config/v1alpha1], [api/dscinitialization/v1],
      [internal/webhook/dscinitialization/v1]), deprecated dashboard types.
    - [Services]: the service registry, the auth service and the trusted CA bundle, one Module
      each ([internal/controller/services/registry], [auth], [certconfigmapgenerator]).
    - [MonitoringInjection]: the webhook for ServiceMonitors and PodMonitors
      ([internal/webhook/monitoring]).
    - [ScopeRules]: which tests a changed file selects ([pkg/scoperules]).
    - [Startup], [StartupTheorems]: suppression flags, what the operator finds out about its
      cluster, registration of everything that is built in, validation of the settings,
      cached namespaces and webhooks ([pkg/utils/flags], [pkg/cluster/cluster_config.go],
      [cmd/main.go], [internal/webhook/webhook.go]).
    - [CloudManager], [CloudManagerTheorems]: charts, hooks, reconcile, cleanup, monitoring,
      garbage collection and finalizer ([internal/controller/cloudmanager/common],
      [pkg/controller/cloudmanager]).
    - [CertManager]: the trust chain that the cloud manager bootstraps, its preconditions and
      watches ([pkg/controller/actions/dependency/certmanager]).
    - [Watches]: which events reach the gateway, DSC and platform controllers
      ([pkg/controller/predicates/resources], [gateway_controller.go], [modules_controller.go]).
    - [StorageMigration], [StorageMigrationTheorems]: the migration of stored objects to a
      new storage version and its events.
    - [FailureClassifier]: from a cluster-health report to a failure category
      ([pkg/failureclassifier]).
    - [ClusterHealth], [HealthSections], [HealthReport], [HealthTheorems]: how that report is
      collected: its types, one part per section, custom resources, components and the run
      ([pkg/clusterhealth]); [HealthFormat], [HealthFormatTheorems]: the report as Prometheus
      metrics and as a table ([metrics_export.go], [format.go]).
    - [Kueue], [KueueController], [KueueTheorems]: the Kueue component: conversion of its
      configuration, preconditions, default queues, status
      ([internal/controller/components/kueue]).
    - [Params], [Deploy], [Logger]: parameter files, manifests applied to the cluster, log
      levels ([pkg/deploy], [pkg/plugins], [pkg/logger]).
    - [Dsci], [DsciController], [DsciTheorems]: the DSCI controller with its namespaces,
      defaults, status updates and modules ([internal/controller/dscinitialization],
      [internal/controller/status]).
    - [Uninstall], [UninstallTheorems]: the setup controller and the removal of the operator
      ([internal/controller/services/setup], [pkg/upgrade/uninstallation.go]).
    - [HwpMigration], [HwpMigrationTheorems]: the migration of AcceleratorProfiles, container
      sizes and Notebooks to hardware profiles ([pkg/upgrade/upgrade_utils.go] and its part of
      [upgrade.go]); [Upgrade], [UpgradeTheorems]: what a new leader does: cleanup, migrations,
      default instances ([pkg/upgrade], [pkg/bootstrap], [pkg/initialinstall]).

    ** How they interact

    At start-up [configure] reads the cluster and checks the settings, and [register_all] fills
    the registries of components, services and modules, which [RegisterAllWebhooks] asks.
    [registerModules] puts the built-in handlers into the module registry and the
    unified registry; [module_handler] is what the registry keeps of a handler, and the
    theorems on the Platform CR that assume a registry's handlers to write their own field
    hold for them ([deletion_takes_own]). Registrations fill the module and the component registry and, through them, the unified
    registry, whose cache both invalidate. [provisionModules] resolves its batches, runs
    [WalkBatches] with a checker composed of both registries ([platform_checker]) and adds
    what each cleared module contributes to the request; [injectModuleEnv] and
    [injectPlatformConfig] then work on the rendered resources. The walk marks the runlevel
    tracker, which [runlevelGateAction] reads on behalf of component controllers.
    [cleanupDisabledModules] and the DSC controller's cleanup use the reverse batches.
    [updateModuleStatus] and the DSC's [updateStatus] report through conditions. Kueue's
    preconditions run through [RunAll] of [Precondition] with the monitor of [Monitor]. The
    classifier reads the report that [Run] of [HealthReport] collects, through [view].

    The DSCI controller deploys manifests through [Deploy], takes the modules that it
    configures from the module registry, shares the Platform CR with the DSC controller
    through [SharedPlatform] and reads the conditions of Monitoring with [ParseConditions] of
    [ModuleBase]. The setup controller writes the marker with the DSCI's status operations;
    [isUninstallInProgress] and the DSC's [uninstalling] look for it. The events of a callee
    are one constructor of its caller's ([DsciDeploy], [UDsci], [UpMigrate]), and [wp_lift] carries its
    theorems over.

    The actions of the gateway share one state, [GwState]: the GatewayConfig with its
    statuses, the results of authentication, the template data and what was collected for
    deployment. [gateway_controller.go] registers them in this order:
    [reportDeprecatedNetworkPolicyConfig], [syncAdditionalIngressStatus],
    [createGatewayInfrastructure], [createKubeAuthProxyInfrastructure],
    [cleanupKubeAuthProxyResources], [createOCPRoutes], [createDashboardRedirectsAction],
    rendering and deployment (framework), [syncAdditionalIngressReadiness],
    [syncGatewayConfigStatus], garbage collection with [gatewayAuthResourceCollectable], and
    [syncAdditionalIngressReadyStatuses] after the status was written.

    ** How code becomes Rocq

    - A Go function is a Definition of the same name; a loop is a fold or a Fixpoint on the
      list it ranges over; guards and early returns are kept in order. Two loops need fuel:
      [swap_loop] of [Dag], which is given the length of the list ([swap_loop_spec] shows that
      this is enough), and [list_event_pages] of [HealthSections], one unit per page that the
      server sends; [listRecentEvents_terminates] shows that it ends exactly when the
      server's pages do, and how much fuel is enough.
    - Effects are programs ([prog E]): one constructor of [E] per call that leaves the model
      (API server, clock, condition manager, interface values), with its answer type. A
      theorem [wp p tr Q] speaks of all answers and of the trace of calls made, so error
      paths and races with the cluster are covered. [run] executes programs in examples.
      What may happen when is a predicate of the events so far and the next one; [lawful],
      [leads], [step_from] and [triple] are its rules.
    - The retries of client-go and the polling of apimachinery are parameters: all that is
      assumed is that invariants of the retried function are kept and that the result is that
      of its last run. The instances for witnesses make a fixed number of attempts.
    - Go errors are [goerr]: the text and the classes that [errors.Is] and the API-error
      predicates find through wrapping. What an action returns is an [action_error].
    - A Go map is a [gmap] where its order does not matter. Where the code ranges over a map,
      the order is either an explicit list or a parameter that any permutation satisfies.
    - Durations and times are [Z] nanoseconds; the code only compares, subtracts and formats
      them. Log lines are left out.
    - Shared state under a mutex is passed explicitly, one critical section being one step;
      [ResolvedBatches] of the unified registry has two, and [ResolvedBatches_linearizable]
      lets other methods run between them.
    - Code that is not in the repository (framework, controller-runtime, apimachinery,
      multierror, YAML) is an event or a parameter; what a theorem needs of it is a
      hypothesis with its documented behaviour, and the theorem's witness has an instance.

    ** What the theorems show

    - Walk: no module of a runlevel is processed before every earlier entry was ready or
      timed out; outcomes, requeues and progress conditions are as specified; it processes
      every batch when all answers are ready; only passed runlevels are marked.
    - Registries: batches are the registered nodes by ascending runlevel and name, whatever
      the map order; the cache never serves stale batches; iterations are complete.
    - Platform controller: two-phase cleanup, the finalizer, provisioning as a refinement of
      the walk, [ModulesReady] exactly when all enabled modules are healthy, what is injected.
    - Built-in modules: the Platform CR enables exactly what the DSC demands, both registries
      start alike, the CRs that handlers build are those the base handler looks for, the
      database module deletes the shared SCC only on evidence of ownership, the Monitoring CR
      keeps what is in use and its replicas stay in bounds.
    - Start: registries and webhooks follow the suppression flags, a start is accepted only
      with settings that fit together, and the namespaces it then works with are cached, but
      for a monitoring namespace that is not the default one; a setting with spaces is read in
      two ways.
    - Services: only the groups that the Auth CR names become administrators, the CA bundle
      follows the DSCI in every namespace in scope, an iteration over the registry is
      complete; monitors are labelled on evidence only; a changed file gets one kind.
    - DSC controller and Platform CR: cleanup stays in its scope, status and provisioning
      survive failing components, no owner reference is dropped.
    - Gates, monitors, preconditions: acknowledgments are never overwritten, unacknowledged
      gates block, verdicts are the documented function of the answers.
    - Conversion and admission: what the round trip of a stored object through the other
      version keeps and the few settings it changes, markers of legacy settings cannot be forged, admitted writes keep the
      DataScienceCluster unique and free of what was retired.
    - Workload webhooks: a hardware profile and a connection are taken off again without a
      trace; where the code loses data instead, a theorem says so.
    - Gateway: admission keeps ingresses and their identities apart, readiness is exactly what
      the conditions of the current generation say, session keys survive, cleanup and garbage
      collection touch only the operator's own proxies, a Gateway is only recreated when its
      mode changes; generated secrets have their length and alphabet.
    - Cloud manager: only charts that are wanted are deployed and only owned objects that are
      excluded are deleted, in two passes; the finalizer waits for its targets.
    - Storage migration: the history of a CRD is pruned only after the migration was seen to
      succeed for the unchanged CRD; every step is reported.
    - Failure classifier and health reports: completeness, confidence, ranges, independence
      of map order; collection and classification compose: an unknown failure means that
      no node, pod, deployment, quota or recent event that was read showed trouble (events only
      if their section had no error, dependent operators not at all); reading events terminates exactly when the
      pages do; exported metrics are one line each and can be read back; the table agrees
      with the verdict.
    - Kueue: the default queues fit together and to the nodes, only supported frameworks are
      configured, the preconditions stop exactly when they should.
    - DSCI controller: the phase Ready has everything set up behind it, an instance that goes
      away is left alone, labels, mirrored conditions, the watch that is added once, and the
      modules touched are as specified.
    - Uninstallation: nothing is deleted before every instance carries the marker; the
      deletions are requested in one order, each after the former was accepted, found nothing
      or does not apply to the platform; only for DataScienceClusters to be gone is waited.
    - Start of the leader: what is removed is either of a fixed name or was read to be a
      leftover of an earlier version; every task is tried, whatever happens to the others; the
      default instances are there in the end and pass the webhooks; the
      migration of hardware profiles only adds, and the counts of a profile bound all sizes.
    - Manifests and parameters: every write of a deployment is that of a resource that was
      rendered and just read, tuned fields of
      unmanaged resources survive, a parameter file is replaced whole or not at all and reads
      back as written; log levels do not wrap around.
    - Certificates and watches: nothing or a whole trust chain is deployed, what the modules
      are told of it is right, and dependencies are reported as they were read; updates that
      are filtered out change nothing for the reconciliations that read the object; on
      Kubernetes the gateway waits for cert-manager. Two
      events reach the wrong place or none: a new module CRD and a changed OIDC issuer.

    ** Not modelled

    Wiring to controller-runtime, rendering, deployment and garbage collection (framework
    code the sources only call), the builders that register watches and the framework's event
    filters, the issuing of certificates, the detection of the platform, binding of flags to
    the environment, and tooling. The manifest lists them all. What could follow: the controllers of the cloud manager's providers, the
    debugging tools, and the composition of the gateway's actions into one reconciliation. *)

From stdpp Require Export base tactics option list gmap fin_maps strings sorting pretty.
From Stdlib Require Export ZArith Lia.

#[global] Set Default Goal Selector "!".

(** ** Scope and notations *)

Declare Scope operator_scope.
Delimit Scope operator_scope with op.

(** ** Errors and results

    A Go [error] value is its text together with the classes it answers to: the
    sentinels and API-error reasons that [errors.Is] and the [k8serr.Is...] and
    [meta.Is...] predicates look for through a chain of wrapped errors. *)

Inductive err_tag :=
| TagNotFound
| TagNoMatch
| TagAlreadyExists
| TagConflict
| TagUnknownNode
| TagOperatorCRNotFound
| TagCanceled
| TagDomainRequired
| TagInvalidAuthenticationConfig
| TagAlreadyOwned
| TagOperatorNotInstalled
| TagForbidden
| TagNotExist
| TagInternal.

#[export] Instance err_tag_eq_dec : EqDecision err_tag.
Proof. solve_decision. Defined.

Record goerr := Goerr { err_text : string; err_tags : list err_tag }.

#[export] Instance goerr_eq_dec : EqDecision goerr.
Proof. solve_decision. Defined.

(** [errors.New] / [fmt.Errorf] without a wrapped error. *)
Definition errorf (msg : string) : goerr := Goerr msg [].

(** [fmt.Errorf("...: %w", err)]: the text is extended, the classes are kept. *)
Definition wrapf (prefix : string) (e : goerr) : goerr :=
  Goerr (prefix +:+ ": " +:+ err_text e) (err_tags e).

Definition err_is (t : err_tag) (e : goerr) : bool := bool_decide (t ∈ err_tags e).

(** A function returning [(T, error)] whose first component is unused on error. *)
Inductive result (A : Type) :=
| Ok (a : A)
| Err (e : goerr).
Arguments Ok {A} a.
Arguments Err {A} e.

#[export] Instance result_ret : MRet result := @Ok.
#[export] Instance result_bind : MBind result := λ A B f m,
  match m with Ok a => f a | Err e => Err e end.
#[export] Instance result_fmap : FMap result := λ A B f m,
  match m with Ok a => Ok (f a) | Err e => Err e end.

Definition is_ok {A} (r : result A) : bool :=
  match r with Ok _ => true | Err _ => false end.

(** [if err != nil { return ..., fmt.Errorf("prefix: %w", err) }]. *)
Definition wrap_result {A} (prefix : string) (r : result A) : result A :=
  match r with Ok a => Ok a | Err e => Err (wrapf prefix e) end.

Lemma exists_ok {A} (a : A) (P : A → Prop) : (∃ a', Ok a = Ok a' ∧ P a') ↔ P a.
Proof. split; [intros (a' & [= <-] & Ha); exact Ha|eauto]. Qed.

(** What an action of a controller returns besides [nil]: a plain error, or one of two
    kinds of the framework: [StopError], and [RequeueAfterError], after which the remaining
    actions still run. *)
Inductive action_error :=
| ActionErr (e : goerr)
| StopError (msg : string)
| RequeueAfterError (d : Z).

#[export] Instance action_error_eq_dec : EqDecision action_error.
Proof. solve_decision. Defined.

(** ** Strings, as the Go standard library treats them (bytes) *)

(** [strings.Join]. *)
Definition join (sep : string) (l : list string) : string := String.concat sep l.

(** [strings.HasPrefix s p], [strings.HasSuffix]. *)
Definition has_prefix (s p : string) : bool := String.prefix p s.

(** [strings.HasSuffix]. *)
Definition has_suffix (s suffix : string) : bool :=
  (String.length suffix <=? String.length s)%nat &&
  String.eqb (String.substring (String.length s - String.length suffix) (String.length suffix) s) suffix.

(** [strings.ReplaceAll] of one character. *)
Fixpoint replace_char (c : Ascii.ascii) (by_ : string) (s : string) : string :=
  match s with
  | EmptyString => ""
  | String a s => (if Ascii.eqb a c then by_ else String a EmptyString) +:+ replace_char c by_ s
  end.

(** [strings.Contains s sub]. *)
Fixpoint contains (s sub : string) : bool :=
  String.prefix sub s ||
  match s with
  | EmptyString => false
  | String _ s' => contains s' sub
  end.

Definition ascii_to_lower (a : Ascii.ascii) : Ascii.ascii :=
  let n := Ascii.nat_of_ascii a in
  if (65 <=? n)%nat && (n <=? 90)%nat then Ascii.ascii_of_nat (n + 32) else a.

(** [strings.ToLower] on ASCII letters (other bytes are unchanged). *)
Fixpoint to_lower (s : string) : string :=
  match s with
  | EmptyString => EmptyString
  | String a s' => String (ascii_to_lower a) (to_lower s')
  end.

(** [%q]: the double quote and the backslash are escaped, other bytes are copied;
    the strings the program quotes are Kubernetes names and enum values. *)
Definition dquote : string := String (Ascii.ascii_of_nat 34) EmptyString.
Definition backslash : string := String (Ascii.ascii_of_nat 92) EmptyString.

Fixpoint quote_body (s : string) : string :=
  match s with
  | EmptyString => EmptyString
  | String a s' =>
      let n := Ascii.nat_of_ascii a in
      (if (n =? 34)%nat || (n =? 92)%nat then backslash else EmptyString)
        +:+ String a (quote_body s')
  end.

Definition quote (s : string) : string := dquote +:+ quote_body s +:+ dquote.

(** [%d]. *)
Definition itoa (z : Z) : string := pretty z.

Definition nonempty_str (s : string) : bool := negb (String.eqb s "").

Lemma String_append_empty_r s : s +:+ "" = s.
Proof. induction s as [|a s IH]; [done|]. exact (f_equal (String a) IH). Qed.

Lemma append_assoc s t u : (s +:+ t) +:+ u = s +:+ (t +:+ u).
Proof. induction s as [|a s IH]; [done|]. exact (f_equal (String a) IH). Qed.

Lemma length_append s t : String.length (s +:+ t) = (String.length s + String.length t)%nat.
Proof. induction s as [|a s IH]; [done|]. exact (f_equal S IH). Qed.

Lemma substring_all s : String.substring 0 (String.length s) s = s.
Proof. induction s as [|a s IH]; [done|]. change (String a (String.substring 0 (String.length s) s) = String a s). by f_equal. Qed.

Lemma substring_app p s : String.substring (String.length p) (String.length s) (p +:+ s) = s.
Proof. induction p as [|a p IH]; [apply substring_all|exact IH]. Qed.

Lemma substring_skip n s : (n ≤ String.length s)%nat →
  s = String.substring 0 n s +:+ String.substring n (String.length s - n) s.
Proof.
  revert s. induction n as [|n IH]; intros s Hn.
  - rewrite Nat.sub_0_r, substring_all. by destruct s.
  - destruct s as [|a s]; [simpl in Hn; lia|]. change (String a s = String a (String.substring 0 n s +:+
      String.substring n (String.length s - n) s)). f_equal. apply IH. simpl in Hn. lia.
Qed.

Lemma has_suffix_iff s suffix : has_suffix s suffix = true ↔ ∃ p, s = p +:+ suffix.
Proof.
  unfold has_suffix. rewrite andb_true_iff, Nat.leb_le, String.eqb_eq. split.
  - intros [Hlen Hs]. exists (String.substring 0 (String.length s - String.length suffix) s).
    rewrite <-Hs at 2. rewrite (substring_skip (String.length s - String.length suffix) s) at 1 by lia.
    by replace (String.length s - (String.length s - String.length suffix))%nat with (String.length suffix) by lia.
  - intros [p ->]. rewrite length_append. split; [lia|].
    replace (String.length p + String.length suffix - String.length suffix)%nat with (String.length p) by lia.
    apply substring_app.
Qed.

(** ** Sorting

    [sort.Strings], [sort.Ints], [slices.Sort] and [sort.Slice] by a string key.
    [sort.Slice] is not stable; the program only uses it on lists whose keys are
    pairwise distinct, where the sorted list is unique ([sort_by_unique]). *)

Definition key_le {A} (key : A → string) (x y : A) : Prop := String.le (key x) (key y).

#[export] Instance key_le_dec {A} (key : A → string) : RelDecision (key_le key).
Proof. intros x y. unfold key_le. apply _. Defined.
#[export] Instance key_le_trans {A} (key : A → string) : Transitive (key_le key).
Proof. intros x y z. unfold key_le. apply transitivity. Qed.
#[export] Instance key_le_total {A} (key : A → string) : Total (key_le key).
Proof. intros x y. unfold key_le. apply total, _. Qed.

Definition sort_by {A} (key : A → string) (l : list A) : list A := merge_sort (key_le key) l.
Definition sort_strings (l : list string) : list string := merge_sort String.le l.
Definition sort_ints (l : list Z) : list Z := merge_sort Z.le l.

Lemma sort_by_perm {A} (key : A → string) l : sort_by key l ≡ₚ l.
Proof. apply merge_sort_Permutation. Qed.

Lemma sort_by_sorted {A} (key : A → string) l : StronglySorted (key_le key) (sort_by key l).
Proof. apply StronglySorted_merge_sort; apply _. Qed.

Lemma NoDup_fmap_inj {A B} (f : A → B) (l : list A) x y :
  NoDup (f <$> l) → x ∈ l → y ∈ l → f x = f y → x = y.
Proof.
  intros Hnd [i Hi]%list_elem_of_lookup [j Hj]%list_elem_of_lookup Hf.
  assert (i = j) as ->; [|congruence].
  eapply NoDup_lookup; [done| |]; rewrite list_lookup_fmap.
  - by rewrite Hi.
  - by rewrite Hj, Hf.
Qed.

Lemma sort_by_unique {A} (key : A → string) l1 l2 :
  NoDup (key <$> l1) → l1 ≡ₚ l2 → sort_by key l1 = sort_by key l2.
Proof.
  intros Hnd Hp.
  eapply (StronglySorted_unique_strong (key_le key)); [|apply sort_by_sorted..|].
  - intros x y Hx Hy Hxy Hyx.
    rewrite (sort_by_perm key l1) in Hx. rewrite (sort_by_perm key l2), <-Hp in Hy.
    eapply NoDup_fmap_inj; [done..|]. unfold key_le in *. by apply (anti_symm String.le).
  - by rewrite !sort_by_perm.
Qed.

Lemma sort_strings_perm l : sort_strings l ≡ₚ l.
Proof. apply merge_sort_Permutation. Qed.

Lemma sort_strings_unique l1 l2 : l1 ≡ₚ l2 → sort_strings l1 = sort_strings l2.
Proof.
  intros Hp. eapply (StronglySorted_unique String.le).
  - apply StronglySorted_merge_sort; apply _.
  - apply StronglySorted_merge_sort; apply _.
  - by rewrite !sort_strings_perm.
Qed.

Lemma sort_ints_perm l : sort_ints l ≡ₚ l.
Proof. apply merge_sort_Permutation. Qed.

Lemma sort_ints_sorted l : StronglySorted Z.le (sort_ints l).
Proof. apply StronglySorted_merge_sort; apply _. Qed.

Lemma sort_ints_unique l1 l2 : l1 ≡ₚ l2 → sort_ints l1 = sort_ints l2.
Proof.
  intros Hp. eapply (StronglySorted_unique Z.le); [apply sort_ints_sorted..|].
  by rewrite !sort_ints_perm.
Qed.

#[export] Instance sort_strings_proper : Proper ((≡ₚ) ==> (=)) sort_strings.
Proof. intros l1 l2. apply sort_strings_unique. Qed.
#[export] Instance sort_ints_proper : Proper ((≡ₚ) ==> (=)) sort_ints.
Proof. intros l1 l2. apply sort_ints_unique. Qed.

(** A sorted list without duplicates is strictly sorted. *)
Lemma sort_ints_strict l : NoDup l → StronglySorted Z.lt (sort_ints l).
Proof.
  intros Hnd. rewrite <-(sort_ints_perm l) in Hnd.
  pose proof (sort_ints_sorted l) as Hs. induction Hs as [|x k Hs IH Hall]; constructor.
  - apply IH. by inversion Hnd.
  - inversion_clear Hnd as [|?? Hnotin _]. rewrite Forall_forall in Hall |- *.
    intros y Hy. specialize (Hall y Hy). assert (x ≠ y); [by intros ->|lia].
Qed.

(** ** Lists and maps *)

(** [P] holds of every element and of what comes before it: the shape of the statements
    about traces of events. *)
Definition each_after {A} (P : list A → A → Prop) (l : list A) : Prop :=
  ∀ l1 x l2, l = l1 ++ x :: l2 → P l1 x.

Lemma each_after_nil {A} (P : list A → A → Prop) : each_after P [].
Proof. by intros [|??] x l2. Qed.

Lemma each_after_snoc {A} (P : list A → A → Prop) l x :
  each_after P l → P l x → each_after P (l ++ [x]).
Proof.
  intros Hl Hx l1 y l2 Heq. destruct l2 as [|z l2 _] using rev_ind.
  - by apply app_inj_tail in Heq as [-> ->].
  - rewrite app_comm_cons, app_assoc in Heq. apply app_inj_tail in Heq as [-> _]. by eapply Hl.
Qed.

Lemma each_after_app_inv {A} (P : list A → A → Prop) l l' :
  each_after P (l ++ l') → each_after P l.
Proof. intros Hl l1 x l2 ->. apply (Hl l1 x (l2 ++ l')). by rewrite <-app_assoc. Qed.

Lemma omap_nil_iff {A B} (f : A → option B) (l : list A) : omap f l = [] ↔ ∀ x, x ∈ l → f x = None.
Proof.
  split.
  - intros Hnil x Hx. destruct (f x) as [y|] eqn:Hf; [|done].
    assert (y ∈ omap f l) as Hy; [apply list_elem_of_omap; eauto|].
    rewrite Hnil in Hy. by apply elem_of_nil in Hy.
  - intros Hall. destruct (omap f l) as [|y ys] eqn:Hf; [done|].
    assert (y ∈ omap f l) as (x & Hx & Hy)%list_elem_of_omap; [rewrite Hf; by left|].
    by rewrite Hall in Hy.
Qed.

Lemma bool_elem_snoc_ne {A} `{EqDecision A} (x y : A) (l : list A) :
  x ≠ y → bool_decide (x ∈ l ++ [y]) = bool_decide (x ∈ l).
Proof.
  intros Hne. apply bool_decide_ext. rewrite elem_of_app, list_elem_of_singleton.
  split; [by intros [?|?]|by left].
Qed.

Lemma bool_elem_snoc_eq {A} `{EqDecision A} (x : A) (l : list A) :
  bool_decide (x ∈ l ++ [x]) = true.
Proof. apply bool_decide_eq_true_2, elem_of_app. right. by left. Qed.

Lemma elem_of_concat {A} (x : A) (ls : list (list A)) : x ∈ concat ls ↔ ∃ l, x ∈ l ∧ l ∈ ls.
Proof.
  induction ls as [|l ls IH]; simpl.
  - split; [by intros []%elem_of_nil|by intros (? & _ & []%elem_of_nil)].
  - rewrite elem_of_app, IH. setoid_rewrite elem_of_cons. split.
    + intros [?|(l' & ? & ?)]; eauto.
    + intros (l' & ? & [->|?]); eauto.
Qed.

Lemma elem_of_map_values {A} (m : gmap string A) x :
  x ∈ (map_to_list m).*2 ↔ ∃ k, m !! k = Some x.
Proof.
  rewrite list_elem_of_fmap. split.
  - intros ([k y] & -> & Hin%elem_of_map_to_list). eauto.
  - intros [k Hk]. exists (k, x). by rewrite elem_of_map_to_list.
Qed.

(** ** Automation *)

Create HintDb operator discriminated.

#[export] Hint Resolve sort_by_perm sort_strings_perm sort_ints_perm : operator.
#[export] Hint Resolve each_after_nil each_after_snoc : operator.
#[export] Hint Resolve sort_by_sorted sort_ints_sorted : operator.

(** Split every [match]/[if] of the goal and close what is immediate. *)
Ltac split_matches := repeat (case_match; simplify_eq/=; try done).

(** Case analysis on the boolean tests of the code. *)
Ltac destruct_tests :=
  repeat match goal with
  | |- context [if ?b then _ else _] => destruct b eqn:?; simplify_eq/=
  | H : context [if ?b then _ else _] |- _ => destruct b eqn:?; simplify_eq/=
  end.

(** Inserting a list under distinct keys. *)
Lemma lookup_insert_all {A B} (key : A → string) (f : A → B) (l : list A) (m : gmap string B) k :
  NoDup (key <$> l) →
  (∀ a, a ∈ l → foldl (λ m a, <[key a := f a]> m) m l !! key a = Some (f a)) ∧
  (k ∉ key <$> l → foldl (λ m a, <[key a := f a]> m) m l !! k = m !! k).
Proof.
  intros Hnd. revert m k. induction l as [|b l IH]; intros m k; [by split; [intros ? ?%elem_of_nil|]|].
  apply NoDup_cons in Hnd as [Hb Hnd]. split.
  - intros a [->|Ha]%elem_of_cons; simpl; [|by apply IH; [|apply k|]].
    destruct (IH Hnd (<[key b := f b]> m) (key b)) as [_ ->]; [by rewrite lookup_insert_eq|done].
  - rewrite fmap_cons, not_elem_of_cons. intros [Hk Hkl]. simpl.
    destruct (IH Hnd (<[key b := f b]> m) k) as [_ ->]; [|done]. by rewrite lookup_insert_ne.
Qed.

(** Filtering before and after a map. *)
Lemma fmap_filter {A B} (f : A → B) (P : A → Prop) (Q : B → Prop) `{∀ a, Decision (P a), ∀ b, Decision (Q b)} (l : list A) :
  (∀ a, a ∈ l → P a ↔ Q (f a)) → f <$> filter P l = filter Q (f <$> l).
Proof.
  induction l as [|a l IH]; intros HPQ; [done|]. rewrite fmap_cons, !filter_cons.
  specialize (HPQ a) as Ha. assert (f <$> filter P l = filter Q (f <$> l)) as <-.
  { apply IH. intros b Hb. apply HPQ. by right. }
  destruct (decide (P a)), (decide (Q (f a))); try done; exfalso; set_solver.
Qed.
