(* ===== verification/Effects.v ===== *)
(** * Effects: programs that call out of the model

    The operator's handlers talk to the API server, to the clock, to the
    condition manager and to interface values (readiness checkers, module
    handlers). Such code is a [prog E A]: a finite tree whose nodes are calls of
    the signature [E] and whose branches are the possible answers.

    - [wp p tr Φ] says that whatever the environment answers, a run of [p] that
      starts after the calls [tr] ends in [Φ] of all calls made and the result:
      the proof rules are [wp_ret], [wp_call], [wp_bind] and [wp_mono];
    - [run h p w] executes a program against a handler, so examples compute;
    - [run_wp] says a [wp] fact holds of every execution. *)

From S2P Require Import Prelude.

Inductive prog (E : Type → Type) (A : Type) : Type :=
| Ret (a : A)
| Vis {X : Type} (e : E X) (k : X → prog E A).
Arguments Ret {E A} a.
Arguments Vis {E A X} e k.

(** A call together with its answer. *)
Inductive call (E : Type → Type) : Type :=
| Call {X : Type} (e : E X) (x : X).
Arguments Call {E X} e x.

#[export] Instance prog_ret (E : Type → Type) : MRet (prog E) := λ A a, Ret a.

#[export] Instance prog_bind (E : Type → Type) : MBind (prog E) := λ A B f,
  fix go p := match p with
              | Ret a => f a
              | Vis e k => Vis e (λ x, go (k x))
              end.

(** One call. *)
Definition trigger {E : Type → Type} {X : Type} (e : E X) : prog E X := Vis e Ret.

(** Weakest precondition: all answers, the trace being accumulated. *)
Fixpoint wp {E A} (p : prog E A) (tr : list (call E))
    (Φ : list (call E) → A → Prop) : Prop :=
  match p with
  | Ret a => Φ tr a
  | Vis e k => ∀ x, wp (k x) (tr ++ [Call e x]) Φ
  end.

(** Execution against a handler with state [W]. *)
Fixpoint run {E W A} (h : ∀ X, E X → W → X * W) (p : prog E A) (w : W)
    (tr : list (call E)) : A * W * list (call E) :=
  match p with
  | Ret a => (a, w, tr)
  | Vis e k => let xw := h _ e w in run h (k xw.1) xw.2 (tr ++ [Call e xw.1])
  end.

(** Replace every call of [E] by a program over [F]. *)
Fixpoint interp {E F : Type → Type} {A} (h : ∀ X, E X → prog F X) (p : prog E A) : prog F A :=
  match p with
  | Ret a => Ret a
  | Vis e k => x ← h _ e; interp h (k x)
  end.

(** The same with a state that the interpretation of the calls changes: the variables a
    callback captures. *)
Fixpoint interp_state {E F : Type → Type} {S A} (h : ∀ X, E X → S → prog F (X * S))
    (p : prog E A) (s : S) : prog F (A * S) :=
  match p with
  | Ret a => Ret (a, s)
  | Vis e k => xs ← h _ e s; interp_state h (k xs.1) xs.2
  end.

(** A program that calls nothing is a value. *)
Inductive NoE : Type → Type := .

Definition pure_value {A} (p : prog NoE A) : A :=
  match p with
  | Ret a => a
  | Vis e _ => match e in NoE _ with end
  end.

(** The calls of one signature as calls of another. *)
Definition lift {E F : Type → Type} {A} (f : ∀ X, E X → F X) (p : prog E A) : prog F A :=
  interp (λ X e, trigger (f X e)) p.

(** A finished run of a program: its calls with their answers, and its result. *)
Fixpoint exec {E A} (p : prog E A) (calls : list (call E)) (a : A) : Prop :=
  match p with
  | Ret b => calls = [] ∧ a = b
  | Vis e k => ∃ x calls', calls = Call e x :: calls' ∧ exec (k x) calls' a
  end.

(** The calls of a lifted program. *)
Definition lift_calls {E F : Type → Type} (f : ∀ X, E X → F X) (calls : list (call E)) : list (call F) :=
  (λ c : call E, match c with Call e x => Call (f _ e) x end) <$> calls.

(** A loop over a list that threads a state. *)
Fixpoint prog_foldl {E S B} (f : S → B → prog E S) (s : S) (l : list B) : prog E S :=
  match l with
  | [] => Ret s
  | b :: l => s' ← f s b; prog_foldl f s' l
  end.

Section wp_rules.
Context {E : Type → Type}.
Implicit Types (tr : list (call E)).

Lemma wp_ret {A} (a : A) tr (Φ : list (call E) → A → Prop) : Φ tr a → wp (Ret a) tr Φ.
Proof. done. Qed.

Lemma wp_call {X} (e : E X) tr (Φ : list (call E) → X → Prop) :
  (∀ x, Φ (tr ++ [Call e x]) x) → wp (trigger e) tr Φ.
Proof. done. Qed.

Lemma wp_mono {A} (p : prog E A) tr (Φ Ψ : list (call E) → A → Prop) :
  (∀ tr' a, Φ tr' a → Ψ tr' a) → wp p tr Φ → wp p tr Ψ.
Proof.
  intros Himp. revert tr. induction p as [a|X e k IH]; intros tr; simpl; [by auto|].
  intros H x. apply IH, H.
Qed.

Lemma wp_bind {A B} (p : prog E A) (f : A → prog E B) tr Φ :
  wp p tr (λ tr' a, wp (f a) tr' Φ) → wp (p ≫= f) tr Φ.
Proof.
  revert tr. induction p as [a|X e k IH]; intros tr; simpl; [done|].
  intros H x. apply IH, H.
Qed.

Lemma wp_bind_inv {A B} (p : prog E A) (f : A → prog E B) tr Φ :
  wp (p ≫= f) tr Φ → wp p tr (λ tr' a, wp (f a) tr' Φ).
Proof.
  revert tr. induction p as [a|X e k IH]; intros tr; simpl; [done|].
  intros H x. apply IH, H.
Qed.

Lemma wp_and {A} (p : prog E A) tr (Φ Ψ : list (call E) → A → Prop) :
  wp p tr Φ → wp p tr Ψ → wp p tr (λ tr' a, Φ tr' a ∧ Ψ tr' a).
Proof.
  revert tr. induction p as [a|X e k IH]; intros tr; simpl; [done|].
  intros H1 H2 x. apply IH; [apply H1|apply H2].
Qed.

(** The trace only grows. *)
Lemma wp_prefix {A} (p : prog E A) tr : wp p tr (λ tr' _, ∃ new, tr' = tr ++ new).
Proof.
  revert tr. induction p as [a|X e k IH]; intros tr; simpl; [by exists []; rewrite app_nil_r|].
  intros x. eapply wp_mono; [|apply IH].
  intros tr' _ [new ->]. exists (Call e x :: new). by rewrite <-app_assoc.
Qed.

(** Loop rule: an invariant of the processed prefix. *)
Lemma wp_foldl {S B} (f : S → B → prog E S) (l : list B) (s : S) tr
    (I : list B → list (call E) → S → Prop) :
  I [] tr s →
  (∀ done b todo tr' s', l = done ++ b :: todo → I done tr' s' →
    wp (f s' b) tr' (λ tr'' s'', I (done ++ [b]) tr'' s'')) →
  wp (prog_foldl f s l) tr (λ tr' s', I l tr' s').
Proof.
  intros HI Hstep.
  assert (∀ pre todo tr' s', l = pre ++ todo → I pre tr' s' →
            wp (prog_foldl f s' todo) tr' (λ tr'' s'', I l tr'' s'')) as Hgen;
    [|exact (Hgen [] l tr s eq_refl HI)].
  intros pre todo. revert pre. induction todo as [|b todo IH]; intros pre tr' s' -> Hpre; simpl.
  - by rewrite app_nil_r.
  - apply wp_bind. eapply wp_mono; [|by apply (Hstep pre b todo)]. simpl. intros tr'' s'' HI'.
    apply (IH (pre ++ [b])); [by rewrite <-app_assoc|done].
Qed.

Lemma run_wp {W A} (h : ∀ X, E X → W → X * W) (p : prog E A) w tr Φ :
  wp p tr Φ → Φ (run h p w tr).2 (run h p w tr).1.1.
Proof.
  revert w tr. induction p as [a|X e k IH]; intros w tr; simpl; [done|].
  intros H. apply IH, H.
Qed.

Lemma pure_value_wp {A} (p : prog NoE A) (Φ : list (call NoE) → A → Prop) :
  wp p [] Φ → Φ [] (pure_value p).
Proof. by destruct p as [a|X []]. Qed.

Lemma bind_ret_l {A B} (a : A) (f : A → prog E B) : (Ret a ≫= f) = f a.
Proof. done. Qed.

End wp_rules.

(** What holds of a program for all answers holds of its interpretation, for the calls it
    stands for; [J] relates the calls on both sides and the state. *)
Lemma wp_interp_state {E F : Type → Type} {S A} (h : ∀ X, E X → S → prog F (X * S))
    (J : list (call E) → list (call F) → S → Prop) (p : prog E A) s trE trF Φ :
  (∀ X (e : E X) s trE trF, J trE trF s →
     wp (h X e s) trF (λ trF' xs, J (trE ++ [Call e xs.1]) trF' xs.2)) →
  wp p trE Φ → J trE trF s →
  wp (interp_state h p s) trF (λ trF' r, ∃ trE', Φ trE' r.1 ∧ J trE' trF' r.2).
Proof.
  intros Hh. revert s trE trF. induction p as [a|X e k IH]; intros s trE trF Hp HJ; simpl.
  - eauto.
  - apply wp_bind. eapply wp_mono; [|by apply Hh]. intros trF' [x s'] HJ'. by apply (IH x _ (trE ++ [Call e x])).
Qed.

(** The same without a state. *)
Lemma wp_interp {E F : Type → Type} {A} (h : ∀ X, E X → prog F X) (J : list (call E) → list (call F) → Prop)
    (p : prog E A) trE trF Φ :
  (∀ X (e : E X) trE trF, J trE trF → wp (h X e) trF (λ trF' x, J (trE ++ [Call e x]) trF')) →
  wp p trE Φ → J trE trF →
  wp (interp h p) trF (λ trF' a, ∃ trE', Φ trE' a ∧ J trE' trF').
Proof.
  intros Hh. revert trE trF. induction p as [a|X e k IH]; intros trE trF Hp HJ; simpl; [eauto|].
  apply wp_bind. eapply wp_mono; [|by apply Hh]. intros trF' x HJ'. by apply (IH x (trE ++ [Call e x])).
Qed.

(** A lifted program: its calls are those of the original. *)
Lemma wp_lift {E F : Type → Type} {A} (f : ∀ X, E X → F X) (p : prog E A) trE trF
    (Φ : list (call E) → A → Prop) :
  wp p trE Φ →
  wp (lift f p) trF (λ trF' a, ∃ new : list (call E), Φ (trE ++ new) a ∧
    trF' = trF ++ ((λ c : call E, match c with Call e x => Call (f _ e) x end) <$> new)).
Proof.
  unfold lift. revert trE trF. induction p as [a|X e k IH]; intros trE trF; simpl.
  - intros Ha. exists []. by rewrite !app_nil_r.
  - intros Hp x. eapply wp_mono; [|apply (IH x (trE ++ [Call e x])), Hp].
    intros tr' a (new & Ha & ->). exists (Call e x :: new). simpl. by rewrite <-!app_assoc in *.
Qed.

(** Where every call has an answer, a program that always ends well can end well. *)
Lemma wp_final {E : Type → Type} {A} (answer : ∀ X, E X → X) (p : prog E A) tr (Φ : list (call E) → A → Prop) :
  wp p tr Φ → ∃ new a, Φ (tr ++ new) a.
Proof.
  revert tr. induction p as [a|X e k IH]; intros tr; simpl.
  - intros Ha. exists [], a. by rewrite app_nil_r.
  - intros Hp. destruct (IH (answer X e) _ (Hp (answer X e))) as (new & a & Hn). eexists _, a. by rewrite <-app_assoc in Hn.
Qed.

(** ** Programs whose calls are all of a kind *)

Section calls.
Context {E : Type → Type} (Q : call E → Prop).

Fixpoint all_calls {A} (p : prog E A) : Prop :=
  match p with
  | Ret _ => True
  | Vis e k => ∀ x, Q (Call e x) ∧ all_calls (k x)
  end.

Lemma all_calls_bind {A B} (p : prog E A) (f : A → prog E B) :
  all_calls p → (∀ a, all_calls (f a)) → all_calls (p ≫= f).
Proof. intros Hp Hf. induction p as [a|X e k IH]; simpl; [by apply Hf|]. intros x. split; [apply Hp|apply IH, Hp]. Qed.

Lemma all_calls_foldl {S B} (f : S → B → prog E S) (l : list B) s :
  (∀ s b, all_calls (f s b)) → all_calls (prog_foldl f s l).
Proof. intros Hf. revert s. induction l as [|b l IH]; intros s; simpl; [done|]. by apply all_calls_bind. Qed.

Lemma all_calls_lift {F : Type → Type} (f : ∀ X, F X → E X) {A} (p : prog F A) :
  (∀ X (e : F X) x, Q (Call (f X e) x)) → all_calls (lift f p).
Proof. intros Hf. unfold lift. induction p as [a|X e k IH]; simpl; [done|]. intros x. split; [apply Hf|apply IH]. Qed.

(** Such a program appends such calls. *)
Lemma wp_all_calls {A} (p : prog E A) tr : all_calls p → wp p tr (λ tr' _, ∃ new, tr' = tr ++ new ∧ Forall Q new).
Proof.
  revert tr. induction p as [a|X e k IH]; intros tr; simpl; [intros _; exists []; by rewrite app_nil_r|].
  intros Hp x. destruct (Hp x) as [Hx Hk]. eapply wp_mono; [|by apply IH]. intros tr' _ (new & -> & Hnew).
  exists (Call e x :: new). rewrite <-app_assoc. split; [done|]. by constructor.
Qed.
End calls.

(** ** Traces as events

    A trace is read as the events [ev_of] of its calls, and a property of a program that says
    when which call may happen is a predicate [P] of the events before a call and the call's. *)

Section events.
Context {E : Type → Type} {Ev : Type} (ev_of : call E → Ev).

Definition events (tr : list (call E)) : list Ev := ev_of <$> tr.

Lemma events_app tr tr' : events (tr ++ tr') = events tr ++ events tr'.
Proof. unfold events. by rewrite fmap_app. Qed.

Lemma events_snoc tr c : events (tr ++ [c]) = events tr ++ [ev_of c].
Proof. apply events_app. Qed.

Lemma last_event tr c : ev_of c ∈ events (tr ++ [c]).
Proof. rewrite events_snoc, elem_of_app. right. by left. Qed.

Lemma later_event ev tr tr' : ev ∈ events tr → ev ∈ events (tr ++ tr').
Proof. rewrite events_app, elem_of_app. by left. Qed.

Context (P : list Ev → Ev → Prop).

(** Every call of the trace is allowed. *)
Definition lawful (tr : list (call E)) : Prop := each_after P (events tr).

(** A run goes on lawfully from [tr] to [tr']. *)
Definition leads (tr tr' : list (call E)) : Prop := lawful tr' ∧ ∃ new, tr' = tr ++ new.

(** A call that is always allowed. *)
Definition harmless (c : call E) : Prop := ∀ evs, P evs (ev_of c).

Lemma lawful_nil : lawful [].
Proof. apply each_after_nil. Qed.

Lemma lawful_snoc tr c : lawful tr → P (events tr) (ev_of c) → lawful (tr ++ [c]).
Proof. intros Htr Hc. unfold lawful. rewrite events_snoc. by apply each_after_snoc. Qed.

Lemma lawful_app tr new : lawful tr → Forall harmless new → lawful (tr ++ new).
Proof.
  intros Htr Hnew. revert tr Htr. induction Hnew as [|c new Hc _ IH]; intros tr Htr; [by rewrite app_nil_r|].
  change (c :: new) with ([c] ++ new). rewrite app_assoc. by apply IH, lawful_snoc.
Qed.

Lemma leads_refl tr : lawful tr → leads tr tr.
Proof. split; [done|]. exists []. by rewrite app_nil_r. Qed.

Lemma leads_trans tr1 tr2 tr3 : leads tr1 tr2 → leads tr2 tr3 → leads tr1 tr3.
Proof. intros [_ [n1 ->]] [? [n2 ->]]. split; [done|]. exists (n1 ++ n2). by rewrite app_assoc. Qed.

Lemma leads_snoc tr c : lawful tr → P (events tr) (ev_of c) → leads tr (tr ++ [c]).
Proof. intros Htr Hc. split; [by apply lawful_snoc|by exists [c]]. Qed.

Lemma leads_step tr tr' c : leads tr tr' → P (events tr') (ev_of c) → leads tr (tr' ++ [c]).
Proof. intros [? ?] Hc. eapply leads_trans; [by split|]. by apply leads_snoc. Qed.

Lemma wp_harmless {A} (p : prog E A) tr : all_calls harmless p → lawful tr → wp p tr (λ tr' _, leads tr tr').
Proof.
  intros Hp Htr. eapply wp_mono; [|by apply wp_all_calls]. intros tr' _ (new & -> & Hnew).
  split; [by apply lawful_app|by exists new].
Qed.

(** A fact about the events so far that stays true. *)
Definition monotone (F : list Ev → Prop) : Prop := ∀ evs evs', F evs → F (evs ++ evs').

(** Calls that are allowed once such a fact holds. *)
Lemma wp_harmless_after {A} (F : list Ev → Prop) (p : prog E A) tr :
  monotone F → all_calls (λ c, ∀ evs, F evs → P evs (ev_of c)) p → lawful tr → F (events tr) →
  wp p tr (λ tr' _, leads tr tr').
Proof.
  intros HF Hp Htr Hf. eapply wp_mono; [|by apply wp_all_calls]. intros tr' _ (new & -> & Hnew).
  split; [|by exists new]. revert tr Htr Hf. induction Hnew as [|c new Hc _ IH]; intros tr Htr Hf; [by rewrite app_nil_r|].
  change (c :: new) with ([c] ++ new). rewrite app_assoc. apply IH; [apply lawful_snoc; auto|].
  rewrite events_app. by apply HF.
Qed.

Lemma monotone_leads F tr tr' : monotone F → leads tr tr' → F (events tr) → F (events tr').
Proof. intros HF [_ [new ->]] Hev. rewrite events_app. by apply HF. Qed.

(** A step that may fail: it goes on lawfully and, unless it fails, establishes [F]. *)
Definition step_ok {Err} (p : prog E (option Err)) (F : list Ev → Prop) : Prop :=
  ∀ tr, lawful tr → wp p tr (λ tr' err, leads tr tr' ∧ (err = None → F (events tr'))).

Lemma step_harmless {Err} (p : prog E (option Err)) F :
  all_calls harmless p → (∀ tr, wp p tr (λ tr' err, err = None → F (events tr'))) → step_ok p F.
Proof. intros Hq HF tr Htr. apply wp_and; [by apply wp_harmless|done]. Qed.

Lemma step_none {Err} (F : list Ev → Prop) : (∀ evs, F evs) → step_ok (mret None : prog E (option Err)) F.
Proof. intros HF tr Htr. apply wp_ret. split; [by apply leads_refl|auto]. Qed.
End events.

(** A step that starts when [Pre] holds. *)
Section steps.
Context {E : Type → Type} {Ev : Type} (ev_of : call E → Ev) (P : list Ev → Ev → Prop).

Definition step_from {Err} (Pre : list Ev → Prop) (p : prog E (option Err)) (Post : list Ev → Prop) : Prop :=
  ∀ tr, lawful ev_of P tr → Pre (events ev_of tr) →
    wp p tr (λ tr' err, leads ev_of P tr tr' ∧ (err = None → Post (events ev_of tr'))).

(** One step after another, unless the first fails; its error may be wrapped. *)
Lemma step_seq {Err} (g : Err → Err) Pre Mid Post (p q : prog E (option Err)) :
  step_from Pre p Mid → step_from Mid q Post →
  step_from Pre (err ← p; match err with Some err => mret (Some (g err)) | None => q end) Post.
Proof.
  intros Hp Hq tr Htr Hpre. apply wp_bind. eapply wp_mono; [|by apply Hp].
  intros tr1 [err|] [Hl Hmid]; [by apply wp_ret|]. eapply wp_mono; [|apply Hq; [apply Hl|by apply Hmid]].
  intros tr2 err [Hl2 Hpost]. split; [by eapply leads_trans|done].
Qed.

(** What held before and stays true. *)
Lemma step_frame {Err} (F : list Ev → Prop) Pre Post (p : prog E (option Err)) :
  monotone F → step_from Pre p Post → step_from (λ evs, F evs ∧ Pre evs) p (λ evs, F evs ∧ Post evs).
Proof.
  intros HF Hp tr Htr [Hf Hpre]. eapply wp_mono; [|by apply Hp]. intros tr' err [Hl Hpost].
  split; [done|]. intros He. split; [by eapply monotone_leads|by apply Hpost].
Qed.

Lemma step_weaken {Err} (Pre Pre' Post Post' : list Ev → Prop) (p : prog E (option Err)) :
  (∀ evs, Pre' evs → Pre evs) → (∀ evs, Post evs → Post' evs) → step_from Pre p Post → step_from Pre' p Post'.
Proof. intros H1 H2 Hp tr Htr Hpre. eapply wp_mono; [|by apply Hp; auto]. intros tr' err [? ?]. auto. Qed.

Lemma step_done {Err} (Pre Post : list Ev → Prop) :
  (∀ evs, Pre evs → Post evs) → step_from Pre (mret None : prog E (option Err)) Post.
Proof. intros Hp tr Htr Hpre. apply wp_ret. split; [by apply leads_refl|auto]. Qed.

Lemma step_fail {Err} (err : Err) Pre Post : step_from Pre (mret (Some err) : prog E (option Err)) Post.
Proof. intros tr Htr Hpre. apply wp_ret. split; [by apply leads_refl|done]. Qed.

(** A call, and what follows for each answer; the continuation may use that it came last. *)
Lemma step_call {Err X} (e : E X) (k : X → prog E (option Err)) Pre Post :
  (∀ evs x, Pre evs → P evs (ev_of (Call e x))) →
  (∀ x, step_from (λ evs, ∃ evs', evs = evs' ++ [ev_of (Call e x)] ∧ Pre evs') (k x) Post) →
  step_from Pre (x ← trigger e; k x) Post.
Proof.
  intros He Hk tr Htr Hpre. apply wp_bind, wp_call. intros x.
  assert (leads ev_of P tr (tr ++ [Call e x])) as Hl by (apply leads_snoc; auto).
  eapply wp_mono; [|apply Hk; [apply Hl|]].
  - intros tr' err [Hl2 Hpost]. split; [by eapply leads_trans|done].
  - exists (events ev_of tr). split; [apply events_snoc|done].
Qed.
End steps.

(** The same for any result: a step that starts when [Pre] holds goes on lawfully, and [Post]
    holds of its result. *)
Section triples.
Context {E : Type → Type} {Ev : Type} (ev_of : call E → Ev) (P : list Ev → Ev → Prop).

Definition triple {A} (Pre : list Ev → Prop) (p : prog E A) (Post : A → list Ev → Prop) : Prop :=
  ∀ tr, lawful ev_of P tr → Pre (events ev_of tr) →
    wp p tr (λ tr' a, leads ev_of P tr tr' ∧ Post a (events ev_of tr')).

Lemma triple_ret {A} (a : A) (Pre : list Ev → Prop) (Post : A → list Ev → Prop) :
  (∀ evs, Pre evs → Post a evs) → triple Pre (mret a) Post.
Proof. intros Hp tr Htr Hpre. apply wp_ret. split; [by apply leads_refl|auto]. Qed.

Lemma triple_bind {A B} (p : prog E A) (f : A → prog E B) Pre Mid Post :
  triple Pre p Mid → (∀ a, triple (Mid a) (f a) Post) → triple Pre (p ≫= f) Post.
Proof.
  intros Hp Hf tr Htr Hpre. apply wp_bind. eapply wp_mono; [|by apply Hp]. intros tr1 a [Hl Hmid].
  eapply wp_mono; [|by apply Hf; [apply Hl|]]. intros tr2 b [Hl2 Hpost]. split; [by eapply leads_trans|done].
Qed.

Lemma triple_weaken {A} (p : prog E A) (Pre Pre' : list Ev → Prop) (Post Post' : A → list Ev → Prop) :
  (∀ evs, Pre' evs → Pre evs) → (∀ a evs, Post a evs → Post' a evs) → triple Pre p Post → triple Pre' p Post'.
Proof. intros H1 H2 Hp tr Htr Hpre. eapply wp_mono; [|by apply Hp; auto]. intros tr' a [? ?]. auto. Qed.

(** What held before and stays true. *)
Lemma triple_frame {A} (F : list Ev → Prop) (p : prog E A) Pre Post :
  monotone F → triple Pre p Post → triple (λ evs, F evs ∧ Pre evs) p (λ a evs, F evs ∧ Post a evs).
Proof.
  intros HF Hp tr Htr [Hf Hpre]. eapply wp_mono; [|by apply Hp]. intros tr' a [Hl Hpost].
  split; [done|]. split; [by apply (monotone_leads ev_of P F tr tr')|done].
Qed.

(** A fact that is no matter of the events. *)
Lemma triple_pure {A} (φ : Prop) (p : prog E A) (Pre : list Ev → Prop) Post :
  (φ → triple Pre p Post) → triple (λ evs, φ ∧ Pre evs) p Post.
Proof. intros Hp tr Htr [? ?]. by apply Hp. Qed.

(** A call: it happened, and what was known still holds. *)
Lemma triple_call {X} (e : E X) (F : list Ev → Prop) (Post : X → list Ev → Prop) :
  monotone F → (∀ evs x, F evs → P evs (ev_of (Call e x))) →
  (∀ x evs, F evs → ev_of (Call e x) ∈ evs → Post x evs) → triple F (trigger e) Post.
Proof.
  intros HF He Hpost tr Htr Hpre. apply wp_call. intros x. split; [apply leads_snoc; auto|].
  apply Hpost; [rewrite events_snoc; by apply HF|apply last_event].
Qed.

Lemma triple_foldl {S B} (f : S → B → prog E S) (l : list B) s (I : list Ev → Prop) :
  (∀ s b, b ∈ l → triple I (f s b) (λ _, I)) → triple I (prog_foldl f s l) (λ _, I).
Proof.
  revert s. induction l as [|b l IH]; intros s Hf; simpl; [by apply triple_ret|].
  eapply triple_bind; [apply Hf; by left|]. intros s'. apply IH. intros. apply Hf. by right.
Qed.

(** Calls that are all allowed while [F] holds. *)
Lemma triple_calls {A} (p : prog E A) (F : list Ev → Prop) :
  monotone F → all_calls (λ c, ∀ evs, F evs → P evs (ev_of c)) p → triple F p (λ _, F).
Proof.
  intros HF Hp tr Htr Hpre. eapply wp_mono; [|by apply (wp_harmless_after ev_of P F)]. intros tr' a Hl.
  split; [done|]. by apply (monotone_leads ev_of P F tr tr').
Qed.

(** A whole run. *)
Lemma triple_run {A} (p : prog E A) (Pre : list Ev → Prop) Post :
  triple Pre p Post → Pre [] → wp p [] (λ tr a, lawful ev_of P tr ∧ Post a (events ev_of tr)).
Proof.
  intros Hp Hpre. eapply wp_mono; [|apply Hp; [apply lawful_nil|done]]. intros tr a [[Hl _] ?]. done.
Qed.
(** What is repeated by a combinator that keeps what each run keeps, until it is good. *)
Lemma triple_repeat {A B} (p : prog E A) (q : prog E B) (ga : A → Prop) (gb : B → Prop) (F J : list Ev → Prop) :
  (∀ tr (I K : list (call E) → Prop), (∀ tr, I tr → wp p tr (λ tr' a, I tr' ∧ (ga a → K tr'))) → I tr →
     wp q tr (λ tr' b, I tr' ∧ (gb b → K tr'))) →
  triple F p (λ a evs, F evs ∧ (ga a → J evs)) → triple F q (λ b evs, F evs ∧ (gb b → J evs)).
Proof.
  intros Hq Hp tr Htr Hpre.
  eapply wp_mono; [|apply (Hq tr (λ tr', leads ev_of P tr tr' ∧ F (events ev_of tr')) (λ tr', J (events ev_of tr')))].
  - by intros tr' b [[? ?] ?].
  - intros tr' [Hl Hf]. eapply wp_mono; [|by apply Hp; [apply Hl|]]. intros tr'' a (? & ? & ?).
    split; [|done]. split; [by eapply leads_trans|done].
  - split; [by apply leads_refl|done].
Qed.

(** The same when the result is that of the last run. *)
Lemma triple_last {A} (p q : prog E A) (F : list Ev → Prop) Post :
  (∀ tr (I : list (call E) → Prop) (J : list (call E) → A → Prop),
     (∀ tr, I tr → wp p tr (λ tr' a, I tr' ∧ J tr' a)) → I tr → wp q tr (λ tr' a, I tr' ∧ J tr' a)) →
  triple F p (λ a evs, F evs ∧ Post a evs) → triple F q (λ a evs, F evs ∧ Post a evs).
Proof.
  intros Hq Hp tr Htr Hpre.
  eapply wp_mono; [|apply (Hq tr (λ tr', leads ev_of P tr tr' ∧ F (events ev_of tr')) (λ tr' a, Post a (events ev_of tr')))].
  - by intros tr' b [[? ?] ?].
  - intros tr' [Hl Hf]. eapply wp_mono; [|by apply Hp; [apply Hl|]]. intros tr'' a (? & ? & ?).
    split; [|done]. split; [by eapply leads_trans|done].
  - split; [by apply leads_refl|done].
Qed.

(** A lifted program, whose calls obey [P'] of the events before them: they do so among the
    events [sub] that stand for them, when [P'] only asks for what has happened. *)
Lemma triple_lift {F : Type → Type} {Ev' A} (f : ∀ X, F X → E X) (ev_of' : call F → Ev') (P' : list Ev' → Ev' → Prop)
    (sub : list Ev → list Ev') (G : list Ev → Prop) (answer : ∀ X, F X → X) (p : prog F A) :
  (∀ X (e : F X) x evs, sub (evs ++ [ev_of (Call (f X e) x)]) = sub evs ++ [ev_of' (Call e x)]) →
  (∀ pre evs ev, P' evs ev → P' (pre ++ evs) ev) → monotone G →
  (∀ X (e : F X) x evs, G evs → P' (sub evs) (ev_of' (Call e x)) → P evs (ev_of (Call (f X e) x))) →
  wp p [] (λ tr _, each_after P' (events ev_of' tr)) →
  triple G (lift f p) (λ a evs, G evs ∧ ∃ calls before, exec p calls a ∧ evs = before ++ events ev_of (lift_calls f calls)).
Proof.
  intros Hsub HP' HG HP Hp tr Htr Hpre.
  assert (∀ (p : prog F A) trF tr, wp p trF (λ tr _, each_after P' (events ev_of' tr)) → lawful ev_of P tr →
    G (events ev_of tr) → (∃ pre, sub (events ev_of tr) = pre ++ events ev_of' trF) →
    wp (lift f p) tr (λ tr' a, leads ev_of P tr tr' ∧ G (events ev_of tr') ∧
      ∃ calls, exec p calls a ∧ tr' = tr ++ lift_calls f calls)) as Hgen.
  { clear p Hp tr Htr Hpre. intros p. unfold lift. induction p as [a|X e k IH]; intros trF tr Hp Htr Hg [pre Hpre]; simpl.
    { split; [by apply leads_refl|]. split; [done|]. exists []. by rewrite app_nil_r. }
    intros x. simpl in Hp.
    assert (P (events ev_of tr) (ev_of (Call (f X e) x))) as Hev.
    { apply HP; [done|]. rewrite Hpre. apply HP'. destruct (wp_final answer _ _ _ (Hp x)) as (new & a & Hall).
      rewrite !events_app, <-app_assoc in Hall. exact (Hall _ _ _ eq_refl). }
    eapply wp_mono; [|apply (IH x (trF ++ [Call e x])); [apply Hp|by apply lawful_snoc| |]].
    - intros tr' a (Hl & Hg' & calls & Hx & ->). split; [|split; [done|]].
      + eapply leads_trans; [|exact Hl]. by apply leads_snoc.
      + exists (Call e x :: calls). split; [by exists x, calls|]. by rewrite <-app_assoc.
    - rewrite events_snoc. by apply HG.
    - exists pre. by rewrite events_snoc, Hsub, Hpre, events_snoc, app_assoc. }
  eapply wp_mono; [|apply (Hgen p [] tr Hp Htr Hpre)].
  - intros tr' a (Hl & Hg & calls & Hx & ->). split; [done|]. split; [done|].
    exists calls, (events ev_of tr). by rewrite events_app.
  - exists (sub (events ev_of tr)). by rewrite app_nil_r.
Qed.

(** A triple from its meaning. *)
Lemma triple_intro {A} (p : prog E A) (Pre : list Ev → Prop) Post :
  (∀ tr, lawful ev_of P tr → Pre (events ev_of tr) → wp p tr (λ tr' a, leads ev_of P tr tr' ∧ Post a (events ev_of tr'))) →
  triple Pre p Post.
Proof. done. Qed.
End triples.

#[global] Opaque triple.

(** ** Facts of events that stay true *)

(** [b] happened after [a]. *)
Definition then_after {Ev} (a b : Ev) (evs : list Ev) : Prop := ∃ e1 e2 e3, evs = e1 ++ a :: e2 ++ b :: e3.

Lemma then_after_mono {Ev} (a b : Ev) : monotone (then_after a b).
Proof. intros evs evs' (e1 & e2 & e3 & ->). exists e1, e2, (e3 ++ evs'). by rewrite <-!app_assoc; simpl; rewrite <-app_assoc. Qed.

Lemma elem_mono {Ev} (a : Ev) : monotone (λ evs, a ∈ evs).
Proof. intros evs evs' Ha. apply elem_of_app. by left. Qed.

Lemma both_mono {Ev} (F G : list Ev → Prop) : monotone F → monotone G → monotone (λ evs, F evs ∧ G evs).
Proof. intros HF HG evs evs' [? ?]. split; auto. Qed.

(** What follows only adds calls. *)
Lemma wp_grows {E : Type → Type} {A} (p : prog E A) tr Φ :
  wp p tr Φ → wp p tr (λ tr' a, Φ tr' a ∧ ∃ new, tr' = tr ++ new).
Proof. intros Hp. apply wp_and; [done|apply wp_prefix]. Qed.

(** [wp] steps through binds and calls. *)
Ltac wp_step :=
  lazymatch goal with
  | |- wp (Ret _) _ _ => apply wp_ret
  | |- wp (mret _) _ _ => apply wp_ret
  | |- wp (trigger _) _ _ => apply wp_call; intros ?
  | |- wp (mbind _ _) _ _ => apply wp_bind
  | |- wp (match ?x with _ => _ end) _ _ => destruct x eqn:?
  end.

#[export] Hint Resolve wp_ret : operator.
