(* ===== verification/Conditions.v ===== *)
(** * Conditions: the data every controller reports through

    Models the condition record of [api/common/types.go] and the constants of
    [internal/controller/status/status.go]. The condition manager itself belongs
    to the framework module the repository imports, so controllers only ever
    issue writes to it: a write is a [Condition] ([SetCondition]) or a
    [mark] ([Mark], [MarkTrue], [MarkFalse] with their options). *)

From S2P Require Import Prelude.

(** [common.ConditionSeverity]: unset, the two labels the code names, or the label
    a module CR reported. *)
Inductive severity :=
| SeverityUnset
| SeverityError
| SeverityInfo
| SeverityLabel (s : string).

#[export] Instance severity_eq_dec : EqDecision severity.
Proof. solve_decision. Defined.

(** [common.Condition]; the status is the string the API carries. *)
Record Condition := MkCondition {
  c_type : string;
  c_status : string;
  c_reason : string;
  c_message : string;
  c_severity : severity;
  c_observedGeneration : Z;
  c_lastTransitionTime : Z;
}.

#[export] Instance Condition_eq_dec : EqDecision Condition.
Proof. solve_decision. Defined.

(** A condition literal that leaves severity, generation and time at zero. *)
Definition condition (ty st reason msg : string) : Condition :=
  MkCondition ty st reason msg SeverityUnset 0 0.

(** A condition literal with [Severity] set. *)
Definition condition_sev (ty st reason msg : string) (sev : severity) : Condition :=
  MkCondition ty st reason msg sev 0 0.

(** [metav1.ConditionTrue], [ConditionFalse], [ConditionUnknown]. *)
Definition ConditionTrue : string := "True".
Definition ConditionFalse : string := "False".
Definition ConditionUnknown : string := "Unknown".

(** [conditions.Manager.Mark...] with the options the code passes. *)
Record mark := MkMark {
  m_type : string;
  m_status : string;
  m_reason : option string;
  m_message : option string;
  m_severity : option severity;
  m_observedGeneration : option Z;
}.

#[export] Instance mark_eq_dec : EqDecision mark.
Proof. solve_decision. Defined.

(** ** Condition types *)

Definition ConditionTypeDegraded : string := "Degraded".
Definition ConditionTypeReady : string := "Ready".
Definition ConditionDependenciesAvailable : string := "DependenciesAvailable".
Definition ConditionTypeComponentsReady : string := "ComponentsReady".
Definition ConditionTypeProvisioningProgress : string := "ProvisioningProgress".
Definition ConditionTypeModulesReady : string := "ModulesReady".

(** ** Reasons and messages *)

Definition RemovedReason : string := "Removed".
Definition NoManagedComponentsReason : string := "NoManagedComponents".
Definition NoManagedModulesReason : string := "NoManagedModules".
Definition NotReadyReason : string := "NotReady".
Definition DeletingReason : string := "Deleting".
Definition DeletingMessage : string := "Component CR is being deleted".
Definition ProvisioningFailedReason : string := "ProvisioningFailed".
Definition UninstallInProgressReason : string := "UninstallInProgress".
Definition UninstallInProgressMessage : string := "Operator uninstall is in progress".
Definition AwaitingReadinessReason : string := "AwaitingReadiness".
Definition DAGResolutionFailedReason : string := "DAGResolutionFailed".
Definition RunlevelTimeoutExceededReason : string := "RunlevelTimeoutExceeded".
Definition AdminAckRequiredReason : string := "AdminAckRequired".
Definition ReadySuffix : string := "Ready".

(** [common.PlatformReleaseName]. *)
Definition PlatformReleaseName : string := "platform".
