(* ===== verification/Dag.v ===== *)
(** * Dag: runlevel-grouped batches ([pkg/controller/dag/dag.go])

    [Graph.Resolve] groups the nodes of a map by runlevel and returns the batches in
    ascending order, each sorted by name. Both the map iteration of Go and
    [sort.Slice] are unspecified up to order, so the code is modelled on an explicit
    iteration order ([Resolve_in]) and [resolve_in_order_irrelevant] shows that the
    order does not matter.

    The second part holds the per-runlevel timeout policies, the stuck tracker, the
    duration formatter and the composite readiness checker. *)

From S2P Require Import Prelude Effects.

(** ** Nodes and graphs *)

Record Runlevel := RL { Order : Z }.

#[export] Instance Runlevel_eq_dec : EqDecision Runlevel.
Proof. solve_decision. Defined.

(** [fmt.Sprintf("%02d", r.Order)]. *)
Definition Runlevel_String (r : Runlevel) : string :=
  let s := itoa (Order r) in
  if (String.length s <? 2)%nat then "0" +:+ s else s.

Class Node (T : Type) := {
  GetName : T → string;
  GetRunlevel : T → Runlevel;
}.

Module Graph.
Section graph.
Context {T : Type} `{Node T}.

Record t := Mk { nodes : gmap string T }.

Definition NewGraph : t := Mk ∅.

Definition Add (g : t) (node : T) : t := Mk (<[GetName node := node]> (nodes g)).

(** One iteration of the loop of [groupByRunlevel]. *)
Definition group_step (groups : gmap Z (list T)) (node : T) : gmap Z (list T) :=
  let key := Order (GetRunlevel node) in
  <[key := default [] (groups !! key) ++ [node]]> groups.

Definition groupByRunlevel (order : list T) : gmap Z (list T) :=
  foldl group_step ∅ order.

(** [Resolve], the nodes being visited in the given order. *)
Definition Resolve_in (order : list T) : result (list (list T)) :=
  match order with
  | [] => Ok []
  | _ =>
      let groups := groupByRunlevel order in
      let keys := sort_ints (map_to_list groups).*1 in
      Ok ((λ key, sort_by GetName (default [] (groups !! key))) <$> keys)
  end.

(** The values of the node map, in the order the map is ranged over. *)
Definition iteration_order (g : t) : list T := (map_to_list (nodes g)).*2.

Definition Resolve (g : t) : result (list (list T)) := Resolve_in (iteration_order g).

(** [for i, j := 0, len-1; i < j; i, j = i+1, j-1 { swap }]; an index out of range
    would panic, which the [_] branch stands for and [reverse_in_place_spec]
    excludes. [fuel] bounds the iterations. *)
Fixpoint swap_loop {X} (fuel i j : nat) (l : list X) : list X :=
  match fuel with
  | O => l
  | S fuel =>
      if (i <? j)%nat then
        match l !! i, l !! j with
        | Some x, Some y => swap_loop fuel (S i) (pred j) (<[i:=y]> (<[j:=x]> l))
        | _, _ => []
        end
      else l
  end.

Definition reverse_in_place {X} (l : list X) : list X :=
  swap_loop (length l) 0 (pred (length l)) l.

Definition ReverseBatches (g : t) : result (list (list T)) :=
  batches ← Resolve g;
  Ok (reverse_in_place <$> reverse_in_place batches).

End graph.
Arguments t T : clear implicits.
End Graph.

(** ** Durations ([time.Duration], in nanoseconds) *)

Section durations.
Local Open Scope Z_scope.

Definition Second : Z := 1000000000.
Definition Minute : Z := 60 * Second.
Definition Hour : Z := 60 * Minute.

(** [Duration.String] of a whole number of seconds. *)
Definition duration_string (d : Z) : string :=
  let secs := Z.abs d `quot` Second in
  let h := secs `quot` 3600 in
  let m := (secs `quot` 60) `rem` 60 in
  let s := secs `rem` 60 in
  (if d <? 0 then "-" else "") +:+
  (if h >? 0 then itoa h +:+ "h" +:+ itoa m +:+ "m"
   else if m >? 0 then itoa m +:+ "m" else "") +:+ itoa s +:+ "s".

(** [Duration.Truncate]. *)
Definition truncate (d m : Z) : Z := if (m <=? 0) then d else (d - d `rem` m).

Definition FormatDuration (d : Z) : string :=
  if (d =? 0) then "indefinitely"
  else if (d `rem` Hour =? 0) && (d `quot` Hour =? 1) then "1 hour"
  else if (d `rem` Minute =? 0) then
    let m := d `quot` Minute in
    if (m =? 1) then "1 minute" else itoa m +:+ " minutes"
  else duration_string (truncate d Second).
End durations.

(** ** Runlevel policies *)

Record RunlevelPolicy := MkPolicy { Timeout : Z }.

#[export] Instance RunlevelPolicy_eq_dec : EqDecision RunlevelPolicy.
Proof. solve_decision. Defined.

Definition DefaultTimeout : Z := 10 * Minute.

(** The package variable [runlevelPolicyOverrides] is passed explicitly. *)
Definition SetRunlevelPolicy (overrides : gmap Z RunlevelPolicy) (order : Z)
    (policy : RunlevelPolicy) : gmap Z RunlevelPolicy := <[order := policy]> overrides.

Definition ClearRunlevelPolicy (overrides : gmap Z RunlevelPolicy) (order : Z)
    : gmap Z RunlevelPolicy := delete order overrides.

Definition GetRunlevelPolicy (overrides : gmap Z RunlevelPolicy) (order : Z) : RunlevelPolicy :=
  match overrides !! order with
  | Some p => p
  | None => MkPolicy DefaultTimeout
  end.

(** ** Stuck tracker: when each (instance, runlevel) first got stuck *)

Module StuckTracker.
Record t := Mk { timestamps : gmap (string * Z) Z }.

Definition New : t := Mk ∅.

(** [time.Now] is only called when the key has no timestamp yet. *)
Definition Since {E : Type → Type} (now : prog E Z) (tr : t) (instanceID : string) (order : Z)
    : prog E (t * Z) :=
  match timestamps tr !! (instanceID, order) with
  | Some ts => Ret (tr, ts)
  | None => ts ← now; Ret (Mk (<[(instanceID, order) := ts]> (timestamps tr)), ts)
  end.

Definition Clear (tr : t) (instanceID : string) (order : Z) : t :=
  Mk (delete (instanceID, order) (timestamps tr)).
End StuckTracker.

(** ** Readiness checkers *)

(** [ReadinessChecker.IsReady]; the error comes with a boolean. *)
Definition ReadinessChecker (E : Type → Type) : Type := string → prog E (bool * option goerr).

Definition unknown_node_error (name : string) : goerr :=
  Goerr ("no checker recognizes node " +:+ quote name +:+ ": unknown node") [TagUnknownNode].

Fixpoint CompositeChecker_IsReady {E} (c : list (ReadinessChecker E)) (name : string)
    : prog E (bool * option goerr) :=
  match c with
  | [] => Ret (false, Some (unknown_node_error name))
  | checker :: rest =>
      r ← checker name;
      match r.2 with
      | Some err =>
          if err_is TagUnknownNode err then CompositeChecker_IsReady rest name
          else Ret (false, Some err)
      | None => Ret (r.1, None)
      end
  end.

(** ** Theorems: batches *)

(** What a batch list promises: every batch is non-empty, holds one runlevel and is
    sorted by name; runlevels strictly ascend from batch to batch. *)
Definition batch_ok {T} `{Node T} (batch : list T) : Prop :=
  batch ≠ [] ∧
  StronglySorted (key_le GetName) batch ∧
  ∀ x y, x ∈ batch → y ∈ batch → GetRunlevel x = GetRunlevel y.

Definition batch_before {T} `{Node T} (b1 b2 : list T) : Prop :=
  ∀ x y, x ∈ b1 → y ∈ b2 → (Order (GetRunlevel x) < Order (GetRunlevel y))%Z.

Definition batches_ok {T} `{Node T} (batches : list (list T)) : Prop :=
  Forall batch_ok batches ∧ StronglySorted batch_before batches.

Section graph_theorems.
Context {T : Type} `{Node T}.
Implicit Types (order batch : list T) (g : Graph.t T).

Definition at_level (key : Z) (order : list T) : list T :=
  filter (λ n, Order (GetRunlevel n) = key) order.

Lemma groupByRunlevel_lookup order key :
  Graph.groupByRunlevel order !! key =
    match at_level key order with [] => None | ns => Some ns end.
Proof.
  unfold Graph.groupByRunlevel, at_level.
  induction order as [|n order IH] using rev_ind; [done|].
  rewrite foldl_snoc, filter_app, filter_cons, filter_nil. unfold Graph.group_step at 1.
  destruct (decide (Order (GetRunlevel n) = key)) as [->|Hne].
  - rewrite lookup_insert_eq, IH. by destruct (filter _ order).
  - by rewrite lookup_insert_ne, app_nil_r.
Qed.

Lemma groupByRunlevel_keys order key :
  key ∈ (map_to_list (Graph.groupByRunlevel order)).*1 ↔
  ∃ n, n ∈ order ∧ Order (GetRunlevel n) = key.
Proof.
  rewrite list_elem_of_fmap. split.
  - intros ([k ns] & -> & Hin%elem_of_map_to_list). simpl.
    rewrite groupByRunlevel_lookup in Hin.
    destruct (at_level k order) as [|n ns'] eqn:Heq; simplify_eq.
    assert (n ∈ at_level k order) as Hn; [rewrite Heq; by left|].
    apply list_elem_of_filter in Hn as [??]. eauto.
  - intros (n & Hn & <-). pose proof (groupByRunlevel_lookup order (Order (GetRunlevel n))) as Hl.
    assert (n ∈ at_level (Order (GetRunlevel n)) order) as Hin; [by apply list_elem_of_filter|].
    destruct (at_level _ order) as [|x ns] eqn:Heq; [by apply elem_of_nil in Hin|].
    eexists (_, _). split; [|by apply elem_of_map_to_list]. done.
Qed.

(** The keys the loop of [Resolve] runs over, and the batch of each. *)
Definition level_keys order : list Z :=
  sort_ints (map_to_list (Graph.groupByRunlevel order)).*1.
Definition level_batch order (key : Z) : list T := sort_by GetName (at_level key order).

Lemma Resolve_in_levels order :
  Graph.Resolve_in order = Ok (level_batch order <$> level_keys order).
Proof.
  destruct order as [|n order]; [done|].
  unfold Graph.Resolve_in, level_keys. f_equal. apply list_fmap_ext. intros i key _.
  rewrite groupByRunlevel_lookup. unfold level_batch. by destruct (at_level _ _).
Qed.

Lemma level_keys_strict order : StronglySorted Z.lt (level_keys order).
Proof. apply sort_ints_strict, NoDup_fst_map_to_list. Qed.

Lemma elem_of_level_keys order key :
  key ∈ level_keys order ↔ ∃ n, n ∈ order ∧ Order (GetRunlevel n) = key.
Proof. unfold level_keys. by rewrite sort_ints_perm, groupByRunlevel_keys. Qed.

Lemma elem_of_level_batch order key n :
  n ∈ level_batch order key ↔ n ∈ order ∧ Order (GetRunlevel n) = key.
Proof.
  unfold level_batch, at_level. rewrite sort_by_perm, list_elem_of_filter. tauto.
Qed.

Lemma level_batch_ok order key : key ∈ level_keys order → batch_ok (level_batch order key).
Proof.
  intros (n & Hn & Hkey)%elem_of_level_keys. split_and!.
  - intros Hnil. assert (n ∈ level_batch order key) as Hin; [by apply elem_of_level_batch|].
    rewrite Hnil in Hin. by apply elem_of_nil in Hin.
  - apply sort_by_sorted.
  - intros x y [_ Hx]%elem_of_level_batch [_ Hy]%elem_of_level_batch.
    destruct (GetRunlevel x), (GetRunlevel y). simpl in *. by subst.
Qed.

Lemma levels_ok order : batches_ok (level_batch order <$> level_keys order).
Proof.
  split.
  - apply Forall_fmap, Forall_forall. intros key. apply level_batch_ok.
  - pose proof (level_keys_strict order) as Hs.
    induction Hs as [|key keys Hs IH Hall]; simpl; constructor; [done|].
    rewrite Forall_fmap. eapply Forall_impl; [done|]. intros key' Hlt x y.
    rewrite !elem_of_level_batch. intros [_ ->] [_ ->]. done.
Qed.

(** Filtering by every key in turn loses nothing and repeats nothing. *)
Lemma levels_concat keys order :
  NoDup keys → (∀ n, n ∈ order → Order (GetRunlevel n) ∈ keys) →
  concat (level_batch order <$> keys) ≡ₚ order.
Proof.
  revert order. induction keys as [|key keys IH]; intros order Hnd Hall.
  - simpl. destruct order as [|n order]; [done|]. destruct (elem_of_nil (Order (GetRunlevel n))) as [Hf _].
    destruct Hf. apply Hall. by left.
  - rewrite fmap_cons. cbn [concat]. apply NoDup_cons in Hnd as [Hnotin Hnd]. set (rest := filter (λ n, Order (GetRunlevel n) ≠ key) order).
    assert (level_batch order <$> keys = level_batch rest <$> keys) as ->.
    { apply list_fmap_ext. intros i key' Hi%list_elem_of_lookup_2. unfold level_batch, at_level, rest.
      f_equal. rewrite list_filter_filter. apply list_filter_iff. intros n. split; [intros <-|tauto].
      split; [done|congruence]. }
    rewrite IH; [|done|].
    + unfold level_batch. rewrite sort_by_perm. unfold at_level, rest.
      clear. induction order as [|n order IH]; [done|]. rewrite !filter_cons.
      destruct (decide (Order (GetRunlevel n) = key)); [rewrite decide_False by tauto|rewrite decide_True by done].
      * simpl. by f_equiv.
      * rewrite <-Permutation_middle. by f_equiv.
    + intros n [Hne Hn]%list_elem_of_filter. apply Hall, elem_of_cons in Hn as [|]; done.
Qed.

Lemma levels_perm order : concat (level_batch order <$> level_keys order) ≡ₚ order.
Proof.
  apply levels_concat.
  - unfold level_keys. rewrite sort_ints_perm. apply NoDup_fst_map_to_list.
  - intros n Hn. apply elem_of_level_keys. eauto.
Qed.

Lemma level_keys_proper order1 order2 :
  order1 ≡ₚ order2 → level_keys order1 = level_keys order2.
Proof.
  intros Hp. apply sort_ints_unique, NoDup_Permutation; [apply NoDup_fst_map_to_list..|].
  intros key. rewrite !groupByRunlevel_keys. by setoid_rewrite Hp.
Qed.

Lemma level_batch_proper order1 order2 key :
  NoDup (GetName <$> order1) → order1 ≡ₚ order2 → level_batch order1 key = level_batch order2 key.
Proof.
  intros Hnd Hp. apply sort_by_unique.
  - eapply sublist_NoDup; [done|]. apply fmap_sublist, sublist_filter.
  - unfold at_level. by rewrite Hp.
Qed.

(** A graph whose keys are the names of its nodes; [Add] keeps it so. *)
Definition graph_ok g : Prop := map_Forall (λ name n, GetName n = name) (Graph.nodes g).

Lemma graph_ok_new : graph_ok Graph.NewGraph.
Proof. apply map_Forall_empty. Qed.

Lemma graph_ok_add g n : graph_ok g → graph_ok (Graph.Add g n).
Proof. intros Hg. by apply map_Forall_insert_2. Qed.

Lemma iteration_order_names g : graph_ok g → NoDup (GetName <$> Graph.iteration_order g).
Proof.
  intros Hg. unfold Graph.iteration_order.
  assert (GetName <$> (map_to_list (Graph.nodes g)).*2 = (map_to_list (Graph.nodes g)).*1) as ->;
    [|apply NoDup_fst_map_to_list].
  rewrite <-list_fmap_compose. apply list_fmap_ext. intros i [name n] Hi. simpl.
  apply (Hg name n), elem_of_map_to_list, list_elem_of_lookup. eauto.
Qed.

(** ** Reversal in place *)

Lemma insert_middle {X} (l1 l2 : list X) x y : <[length l1 := y]> (l1 ++ x :: l2) = l1 ++ y :: l2.
Proof. induction l1 as [|z l1 IH]; [done|]. simpl. by rewrite IH. Qed.

(** One swap moves the two ends of the middle part into place. *)
Lemma swap_ends {X} (pre mid suf : list X) x y :
  let l := pre ++ x :: mid ++ y :: suf in
  let i := length pre in
  let j := length (pre ++ x :: mid) in
  l !! i = Some x ∧ l !! j = Some y ∧
  <[i := y]> (<[j := x]> l) = pre ++ y :: mid ++ x :: suf.
Proof.
  intros l i j. assert (l = (pre ++ x :: mid) ++ y :: suf) as Hl; [unfold l; by rewrite <-app_assoc|].
  split_and!.
  - by apply list_lookup_middle.
  - rewrite Hl. by apply list_lookup_middle.
  - rewrite Hl. unfold i, j. rewrite insert_middle, <-app_assoc. simpl. apply insert_middle.
Qed.

Lemma swap_loop_spec {X} fuel (pre mid suf : list X) i j :
  (length mid ≤ fuel)%nat → i = length pre → j = pred (length pre + length mid) →
  Graph.swap_loop fuel i j (pre ++ mid ++ suf) = pre ++ reverse mid ++ suf.
Proof.
  revert pre mid suf i j. induction fuel as [|fuel IH]; intros pre mid suf i j Hlen -> ->.
  { destruct mid; [done|simpl in *; lia]. }
  simpl. destruct (Nat.ltb_spec (length pre) (pred (length pre + length mid))) as [Hlt|Hge].
  2:{ destruct mid as [|x [|y mid]]; [done..|]. simpl in *. lia. }
  destruct mid as [|x mid]; [simpl in *; lia|].
  destruct mid as [|y mid _] using rev_ind; [simpl in *; lia|].
  rewrite <-app_comm_cons, <-app_assoc. cbn [app].
  destruct (swap_ends pre mid suf x y) as (Hi & Hj & Hswap).
  assert (pred (length pre + length (x :: mid ++ [y])) = length (pre ++ x :: mid)) as ->.
  { rewrite !length_app. simpl. rewrite length_app. simpl. lia. }
  rewrite Hi, Hj, Hswap.
  replace (pre ++ y :: mid ++ x :: suf) with ((pre ++ [y]) ++ mid ++ x :: suf)
    by (by rewrite <-app_assoc).
  simpl in Hlen. rewrite length_app in Hlen. simpl in Hlen.
  rewrite IH.
  - by rewrite reverse_cons, reverse_snoc, <-!app_assoc.
  - lia.
  - rewrite length_app. simpl. lia.
  - rewrite !length_app. simpl. lia.
Qed.

Lemma reverse_in_place_spec {X} (l : list X) : Graph.reverse_in_place l = reverse l.
Proof.
  unfold Graph.reverse_in_place.
  pose proof (swap_loop_spec (length l) [] l [] 0 (pred (length l))) as Hs.
  rewrite !app_nil_r in Hs. by apply Hs.
Qed.

End graph_theorems.

#[export] Hint Resolve graph_ok_new graph_ok_add : operator.

Section graph_properties.
Context {T : Type} `{Node T}.
Implicit Types (order l : list T) (g : Graph.t T).

(** The node a sequence of [Add]s leaves under a name is the last one added. *)
Definition last_added l (n : T) : Prop :=
  ∃ l1 l2, l = l1 ++ n :: l2 ∧ GetName n ∉ GetName <$> l2.

Definition graph_of l : Graph.t T := foldl Graph.Add Graph.NewGraph l.

Lemma graph_of_lookup l name n :
  Graph.nodes (graph_of l) !! name = Some n ↔ GetName n = name ∧ last_added l n.
Proof.
  unfold graph_of, last_added. induction l as [|m l IH] using rev_ind; simpl.
  { rewrite lookup_empty. split; [done|]. intros (_ & [|??] & l2 & ? & _); simplify_eq/=. }
  rewrite foldl_snoc. simpl. split.
  - intros [[<- ->]|[Hne Hl]]%lookup_insert_Some.
    + split; [done|]. exists l, []. split; [done|]. apply not_elem_of_nil.
    + apply IH in Hl as (<- & l1 & l2 & -> & Hnot). split; [done|].
      exists l1, (l2 ++ [m]). rewrite <-app_assoc. split; [done|].
      rewrite fmap_app, elem_of_app. intros [?|Hin%list_elem_of_singleton]; [done|]. by destruct Hne.
  - intros (<- & l1 & l2 & Heq & Hnot). destruct l2 as [|m' l2 _] using rev_ind.
    + apply app_inj_tail in Heq as [-> ->]. apply lookup_insert_eq.
    + rewrite app_comm_cons, app_assoc in Heq. apply app_inj_tail in Heq as [-> ->].
      rewrite fmap_app, elem_of_app in Hnot. rewrite lookup_insert_ne.
      * apply IH. split; [reflexivity|]. exists l1, l2. split; [reflexivity|]. intros Hin. apply Hnot. by left.
      * intros Heq. apply Hnot. right. by apply list_elem_of_singleton.
Qed.

Lemma graph_of_ok l : graph_ok (graph_of l).
Proof. intros name n. by intros [? _]%graph_of_lookup. Qed.

Lemma Resolve_levels l :
  ∃ batches, Graph.Resolve (graph_of l) = Ok batches ∧ batches_ok batches ∧
    NoDup (GetName <$> concat batches) ∧
    ∀ n, n ∈ concat batches ↔ last_added l n.
Proof.
  eexists. split; [apply Resolve_in_levels|]. split; [apply levels_ok|]. split.
  - rewrite levels_perm. apply iteration_order_names, graph_of_ok.
  - intros n. rewrite levels_perm. unfold Graph.iteration_order. rewrite elem_of_map_values.
    setoid_rewrite graph_of_lookup. split; [by intros (? & _ & ?)|by eauto].
Qed.

(** C32: the batches of a graph built by any sequence of [Add]s are non-empty, hold one
    runlevel each, are sorted by name, come in strictly ascending runlevel order, and
    hold each name exactly once, with the node added last under it. *)
Theorem Resolve_batches l :
  ∃ batches, Graph.Resolve (graph_of l) = Ok batches ∧ batches_ok batches ∧
    NoDup (GetName <$> concat batches) ∧
    ∀ n, n ∈ concat batches ↔ last_added l n.
Proof. apply Resolve_levels. Qed.

(** Neither the order in which Go ranges over the node map nor the instability of
    [sort.Slice] shows: any two orders of the same nodes give the same batches. *)
Theorem Resolve_in_order_irrelevant order1 order2 :
  NoDup (GetName <$> order1) → order1 ≡ₚ order2 →
  Graph.Resolve_in order1 = Graph.Resolve_in order2.
Proof.
  intros Hnd Hp. rewrite !Resolve_in_levels. f_equal.
  rewrite (level_keys_proper _ _ Hp). apply list_fmap_ext. intros i key _.
  by apply level_batch_proper.
Qed.

Lemma ReverseBatches_levels g :
  ∃ batches rbatches, Graph.Resolve g = Ok batches ∧ Graph.ReverseBatches g = Ok rbatches ∧
    rbatches = reverse (reverse <$> batches) ∧ concat rbatches = reverse (concat batches).
Proof.
  eexists _, _. split; [apply Resolve_in_levels|]. unfold Graph.ReverseBatches, Graph.Resolve.
  rewrite Resolve_in_levels. split; [done|].
  set (bs := level_batch _ <$> _). rewrite reverse_in_place_spec.
  assert (Graph.reverse_in_place <$> reverse bs = reverse (reverse <$> bs)) as ->.
  { rewrite fmap_reverse. f_equal. apply list_fmap_ext. intros. apply reverse_in_place_spec. }
  split; [done|]. clear. induction bs as [|b bs IH]; [done|].
  rewrite fmap_cons, reverse_cons, concat_app, IH. cbn [concat]. by rewrite reverse_app, app_nil_r.
Qed.

(** The in-place swaps of [ReverseBatches] give the batches of [Resolve] in reverse
    order, each reversed: cleanup visits the nodes in exactly the opposite order. *)
Theorem ReverseBatches_reverses g :
  ∃ batches rbatches, Graph.Resolve g = Ok batches ∧ Graph.ReverseBatches g = Ok rbatches ∧
    rbatches = reverse (reverse <$> batches) ∧ concat rbatches = reverse (concat batches).
Proof. apply ReverseBatches_levels. Qed.

End graph_properties.

#[export] Instance pair_node : Node (string * Z) := {
  GetName := fst;
  GetRunlevel n := RL n.2;
}.

Lemma Resolve_in_order_irrelevant_witness :
  let order1 := [("kserve", 20); ("dashboard", 20); ("operator", 0)]%Z in
  let order2 := [("operator", 0); ("kserve", 20); ("dashboard", 20)]%Z in
  Graph.Resolve_in order1 = Ok [[("operator", 0)]; [("dashboard", 20); ("kserve", 20)]]%Z ∧
  Graph.Resolve_in order1 = Graph.Resolve_in order2.
Proof.
  split; [by vm_compute|]. apply Resolve_in_order_irrelevant.
  - by apply (bool_decide_eq_true_1 (NoDup _)).
  - by apply (bool_decide_eq_true_1 (_ ≡ₚ _)).
Defined.

(** ** Theorems: the composite checker *)

(** The answers of a list of checkers that are asked in order. *)
Fixpoint first_recognising (answers : list (bool * option goerr)) (name : string)
    : bool * option goerr :=
  match answers with
  | [] => (false, Some (unknown_node_error name))
  | (ready, None) :: _ => (ready, None)
  | (_, Some err) :: rest =>
      if err_is TagUnknownNode err then first_recognising rest name else (false, Some err)
  end.

Lemma CompositeChecker_pure {E : Type → Type} (answers : list (bool * option goerr)) name :
  CompositeChecker_IsReady (E := E) ((λ a _, Ret a) <$> answers) name =
  Ret (first_recognising answers name).
Proof.
  induction answers as [|[ready [err|]] answers IH]; simpl; [done| |done].
  by destruct (err_is TagUnknownNode err).
Qed.

(** The doc comment of [FormatDuration] promises 1h30m here. *)
Lemma FormatDuration_90_minutes : FormatDuration (90 * Minute) = "90 minutes".
Proof. by vm_compute. Qed.

Example FormatDuration_samples :
  FormatDuration <$> [0; Hour; Minute; 10 * Minute; 90 * Second; 25 * Hour + Second]%Z =
  ["indefinitely"; "1 hour"; "1 minute"; "10 minutes"; "1m30s"; "25h0m1s"].
Proof. by vm_compute. Qed.
