(* ===== verification/Provision.v ===== *)
(** * Provision: the unified registry and the gated walk ([pkg/controller/provision])

    - Module [UnifiedRegistry] models [unified.go]: nodes, registration order and the
      cache of resolved batches. A Go [nil] cache is the empty list, because
      [Graph.Resolve] never returns an empty non-nil slice. Every method runs under the
      mutex; only [ResolvedBatches] has two critical sections, modelled one by one
      ([ResolvedBatches_read], [ResolvedBatches_write]) so that other methods may run
      between them.
    - Module [RunlevelTracker] models [runlevel_tracker.go].
    - Module [Walk] models [WalkBatches] of [gating.go] as a program over the signature
      [WalkE]: readiness checks, clock reads, condition writes, tracker marks and the
      batch callback. Log lines are left out. *)

From S2P Require Import Prelude Effects Conditions Dag.

Inductive NodeKind := KindComponent | KindModule.

#[export] Instance NodeKind_eq_dec : EqDecision NodeKind.
Proof. solve_decision. Defined.

Record UnifiedNode := MkNode {
  un_name : string;
  un_kind : NodeKind;
  un_runlevel : Runlevel;
  un_enabled : bool;
}.

#[export] Instance UnifiedNode_eq_dec : EqDecision UnifiedNode.
Proof. solve_decision. Defined.

#[export] Instance UnifiedNode_node : Node UnifiedNode := {
  GetName := un_name;
  GetRunlevel := un_runlevel;
}.

Definition GetKind (n : UnifiedNode) : NodeKind := un_kind n.

Module UnifiedRegistry.

Record t := Mk {
  nodes : gmap string UnifiedNode;
  order : list string;
  resolvedCache : list (list UnifiedNode);
}.

Definition NewRegistry : t := Mk ∅ [] [].

Definition Add (r : t) (name : string) (kind : NodeKind) (runlevel : Runlevel) : t :=
  let node := MkNode name kind runlevel true in
  let order' := match nodes r !! name with
                | None => order r ++ [name]
                | Some _ => order r
                end in
  Mk (<[name := node]> (nodes r)) order' [].

Definition setEnabledLocked (r : t) (name : string) (enabled : bool) : t :=
  match nodes r !! name with
  | Some n => Mk (<[name := MkNode (un_name n) (un_kind n) (un_runlevel n) enabled]> (nodes r))
                 (order r) []
  | None => r
  end.

Definition Enable (r : t) (name : string) : t := setEnabledLocked r name true.
Definition Disable (r : t) (name : string) : t := setEnabledLocked r name false.

Definition Reset (r : t) : t := Mk ∅ [] [].

(** The pair [(order, ok)] of the code as an option. *)
Definition LookupOrder (r : t) (name : string) : option Z :=
  (λ n, Order (un_runlevel n)) <$> nodes r !! name.

Definition InvalidateCache (r : t) : t := Mk (nodes r) (order r) [].

(** [r.nodes[name]] gives the zero node for a name that is not registered. *)
Definition zero_node : UnifiedNode := MkNode "" KindComponent (RL 0) false.
Definition node_at (r : t) (name : string) : UnifiedNode := default zero_node (nodes r !! name).

(** The loop over [r.order] that fills a fresh graph with the enabled nodes. *)
Definition enabled_graph (r : t) : Graph.t UnifiedNode :=
  foldl (λ g name, let n := node_at r name in if negb (un_enabled n) then g else Graph.Add g n)
    Graph.NewGraph (order r).

Definition full_graph (r : t) : Graph.t UnifiedNode :=
  foldl (λ g name, Graph.Add g (node_at r name)) Graph.NewGraph (order r).

(** First critical section: a hit returns the cache. *)
Definition ResolvedBatches_read (r : t) : option (list (list UnifiedNode)) :=
  match resolvedCache r with [] => None | c => Some c end.

(** Second critical section: the double check, the resolution and the cache write. *)
Definition ResolvedBatches_write (r : t) : result (list (list UnifiedNode)) * t :=
  match resolvedCache r with
  | [] =>
      match Graph.Resolve (enabled_graph r) with
      | Err e => (Err e, r)
      | Ok batches => (Ok batches, Mk (nodes r) (order r) batches)
      end
  | c => (Ok c, r)
  end.

Definition ResolvedBatches (r : t) : result (list (list UnifiedNode)) * t :=
  match ResolvedBatches_read r with
  | Some c => (Ok c, r)
  | None => ResolvedBatches_write r
  end.

Definition ReverseBatches (r : t) : result (list (list UnifiedNode)) :=
  Graph.ReverseBatches (enabled_graph r).

Definition ReverseBatchesAll (r : t) : result (list (list UnifiedNode)) :=
  Graph.ReverseBatches (full_graph r).

(** The state-changing methods, as steps. *)
Inductive op :=
| OpAdd (name : string) (kind : NodeKind) (runlevel : Runlevel)
| OpEnable (name : string)
| OpDisable (name : string)
| OpReset
| OpInvalidate
| OpResolved.

Definition apply_op (r : t) (o : op) : t :=
  match o with
  | OpAdd name kind runlevel => Add r name kind runlevel
  | OpEnable name => Enable r name
  | OpDisable name => Disable r name
  | OpReset => Reset r
  | OpInvalidate => InvalidateCache r
  | OpResolved => (ResolvedBatches r).2
  end.

(** [ResolvedBatches] on [r] with [ops] by other goroutines between the read unlock and
    the write lock. *)
Definition ResolvedBatches_interleaved (r : t) (ops : list op)
    : result (list (list UnifiedNode)) * t :=
  match ResolvedBatches_read r with
  | Some c => (Ok c, foldl apply_op r ops)
  | None => ResolvedBatches_write (foldl apply_op r ops)
  end.

End UnifiedRegistry.

Definition filterBatch (batch : list UnifiedNode) (kind : NodeKind) : list UnifiedNode :=
  filter (λ n, un_kind n = kind) batch.

Definition ComponentsInBatch (batch : list UnifiedNode) := filterBatch batch KindComponent.
Definition ModulesInBatch (batch : list UnifiedNode) := filterBatch batch KindModule.

(** ** The runlevel tracker *)

Module RunlevelTracker.

Record t := Mk { version : string; clearedUpTo : Z }.

Definition empty : t := Mk "" 0.

Definition MarkCleared (tr : t) (v : string) (order : Z) : t :=
  if negb (String.eqb (version tr) v) then Mk v order
  else if (order >? clearedUpTo tr)%Z then Mk (version tr) order
  else tr.

Definition IsCleared (tr : t) (v : string) (order : Z) : bool :=
  String.eqb (version tr) v && (order <=? clearedUpTo tr)%Z.

Definition Reset (tr : t) : t := Mk "" 0.

End RunlevelTracker.

(** ** The gated walk *)

(** What [WalkBatches] calls. *)
Inductive WalkE : Type → Type :=
| IsReady (name : string) : WalkE (bool * option goerr)
| Now : WalkE Z
| SetCondition (c : Condition) : WalkE unit
| MarkCleared (version : string) (order : Z) : WalkE unit
| ProcessBatch (batch : list UnifiedNode) : WalkE (option goerr).

Module Walk.

Record state := MkState {
  progressBlocked : bool;
  timedOut : gset string;
  requeueAfter : Z;
  stuck : StuckTracker.t;
}.

(** How one iteration of the batch loop ends. *)
Inductive step :=
| Continue (s : state)
| Break (s : state)
| Return (e : goerr) (s : state)
| Panic.

Inductive outcome :=
| WalkRet (requeue : Z)
| WalkErr (e : goerr)
| WalkPanic.

Section walk.
Variables (disabled : bool) (policies : gmap Z RunlevelPolicy) (instanceID version : string).

(** The two inner loops over [batches[:batchIdx]]; the accumulator is
    [(allReady, notReadyInPrev)]. *)
Definition check_entry (timed : gset string) (acc : bool * list string) (entry : UnifiedNode)
    : prog WalkE (bool * list string) :=
  if bool_decide (GetName entry ∈ timed) then mret acc
  else
    r ← trigger (IsReady (GetName entry));
    mret (if r.1 : bool then acc else (false, acc.2 ++ [GetName entry])).

Definition check_prior (timed : gset string) (prior : list (list UnifiedNode))
    : prog WalkE (bool * list string) :=
  prog_foldl (check_entry timed) (true, []) (concat prior).

Definition timeout_condition (policy : RunlevelPolicy) (notReady : list string) : Condition :=
  condition ConditionTypeProvisioningProgress ConditionFalse RunlevelTimeoutExceededReason
    ("Timed out after " +:+ FormatDuration (Timeout policy) +:+ "; not ready: "
       +:+ join ", " notReady).

Definition awaiting_condition (policy : RunlevelPolicy) (notReady : list string) : Condition :=
  condition ConditionTypeProvisioningProgress ConditionFalse AwaitingReadinessReason
    ("Waiting up to " +:+ FormatDuration (Timeout policy) +:+ " on " +:+ join ", " notReady).

(** The body of [if !allReady]: [true] when the walk goes on with the batch. *)
Definition gate (order : Z) (notReady : list string) (s : state) : prog WalkE (bool * state) :=
  let policy := GetRunlevelPolicy policies order in
  '(stuck', stuckSince) ← StuckTracker.Since (trigger Now) (stuck s) instanceID order;
  now ← trigger Now;
  let elapsed := (now - stuckSince)%Z in
  if (Timeout policy >? 0)%Z && (elapsed >=? Timeout policy)%Z then
    trigger (SetCondition (timeout_condition policy notReady)) ;;
    mret (true, MkState true (list_to_set notReady ∪ timedOut s) (requeueAfter s) stuck')
  else
    let remaining := (Timeout policy - elapsed)%Z in
    trigger (SetCondition (awaiting_condition policy notReady)) ;;
    mret (false, MkState true (timedOut s) remaining stuck').

(** [MarkCleared], the callback and [tracker.Clear]. *)
Definition process (first : bool) (order : Z) (batch : list UnifiedNode) (s : state)
    : prog WalkE step :=
  trigger (MarkCleared version order) ;;
  err ← trigger (ProcessBatch batch);
  match err with
  | Some e => mret (Return e s)
  | None =>
      mret (Continue (if first then s
                      else MkState (progressBlocked s) (timedOut s) (requeueAfter s)
                             (StuckTracker.Clear (stuck s) instanceID order)))
  end.

(** One iteration: [prior] is [batches[:batchIdx]]; [batch[0]] panics on an empty batch. *)
Definition walk_batch (prior : list (list UnifiedNode)) (batch : list UnifiedNode) (s : state)
    : prog WalkE step :=
  let first := match prior with [] => true | _ => false end in
  match head batch with
  | None =>
      if negb first && negb disabled
      then check_prior (timedOut s) prior ;; mret Panic else mret Panic
  | Some n0 =>
      let order := Order (GetRunlevel n0) in
      if negb first && negb disabled then
        '(allReady, notReady) ← check_prior (timedOut s) prior;
        if negb allReady then
          '(go_on, s') ← gate order notReady s;
          if go_on : bool then process first order batch s' else mret (Break s')
        else process first order batch s
      else process first order batch s
  end.

Fixpoint walk_loop (prior todo : list (list UnifiedNode)) (s : state) : prog WalkE step :=
  match todo with
  | [] => mret (Continue s)
  | batch :: todo =>
      o ← walk_batch prior batch s;
      match o with
      | Continue s' => walk_loop (prior ++ [batch]) todo s'
      | _ => mret o
      end
  end.

Definition progress_condition : Condition :=
  condition ConditionTypeProvisioningProgress ConditionTrue "" "".

Definition finish (s : state) : prog WalkE (outcome * StuckTracker.t) :=
  (if negb (progressBlocked s) then trigger (SetCondition progress_condition) else mret ()) ;;
  mret (WalkRet (requeueAfter s), stuck s).

Definition resolution_failed (err : goerr) : Condition :=
  condition ConditionTypeProvisioningProgress ConditionFalse DAGResolutionFailedReason
    ("Unified DAG resolution failed: " +:+ err_text err).

(** [batches] is what [DefaultRegistry().ResolvedBatches()] returned; a panic leaves the
    tracker it was reached with, which no caller observes. *)
Definition WalkBatches (batches : result (list (list UnifiedNode))) (tracker : StuckTracker.t)
    : prog WalkE (outcome * StuckTracker.t) :=
  match batches with
  | Err err =>
      trigger (SetCondition (resolution_failed err)) ;;
      mret (WalkErr (wrapf "unified DAG resolution failed" err), tracker)
  | Ok batches =>
      o ← walk_loop [] batches (MkState false ∅ 0 tracker);
      match o with
      | Continue s | Break s => finish s
      | Return e s => mret (WalkErr e, stuck s)
      | Panic => mret (WalkPanic, tracker)
      end
  end.

End walk.
End Walk.

(** ** Theorems: the registry *)

Section registry_theorems.
Import UnifiedRegistry.
Implicit Types (r : UnifiedRegistry.t) (o : op).

(** Well-formedness: the order lists the registered names once each, nodes sit under their
    own name, and a filled cache is what a fresh resolution would give. *)
Record registry_ok r : Prop := {
  ok_nodup : NoDup (order r);
  ok_order name : name ∈ order r ↔ is_Some (nodes r !! name);
  ok_names name n : nodes r !! name = Some n → un_name n = name;
  ok_cache : resolvedCache r ≠ [] → Graph.Resolve (enabled_graph r) = Ok (resolvedCache r);
}.

Lemma registry_ok_new : registry_ok NewRegistry.
Proof.
  split; simpl; [by apply NoDup_nil|..|done].
  - intros name. rewrite lookup_empty, is_Some_alt. split; [by intros ?%elem_of_nil|done].
  - intros name n. by rewrite lookup_empty.
Qed.

Lemma registry_ok_add r name kind rl : registry_ok r → registry_ok (Add r name kind rl).
Proof.
  intros [Hnd Hord Hnm _]. unfold Add. split; simpl; [| | |done].
  - destruct (nodes r !! name) eqn:Hl; [done|].
    apply NoDup_app. split; [done|]. split; [|apply NoDup_singleton].
    intros x Hx ->%list_elem_of_singleton. apply Hord in Hx. rewrite Hl in Hx. by destruct Hx.
  - intros x. destruct (decide (x = name)) as [->|Hne].
    + rewrite lookup_insert_eq. split; [eauto|intros _].
      destruct (nodes r !! name) eqn:Hl; [apply Hord; eauto|].
      apply elem_of_app. right. by apply list_elem_of_singleton.
    + rewrite lookup_insert_ne, <-Hord by done.
      destruct (nodes r !! name); [done|]. rewrite elem_of_app, list_elem_of_singleton. tauto.
  - intros x n [[<- <-]|[_ Hn]]%lookup_insert_Some; [done|by apply Hnm].
Qed.

Lemma registry_ok_set_enabled r name b : registry_ok r → registry_ok (setEnabledLocked r name b).
Proof.
  intros [Hnd Hord Hnm Hc]. unfold setEnabledLocked.
  destruct (nodes r !! name) as [n|] eqn:Hl; [|by split]. split; simpl; [done| | |done].
  - intros x. destruct (decide (x = name)) as [->|Hne].
    + rewrite lookup_insert_eq, Hord, Hl. split; eauto.
    + by rewrite lookup_insert_ne.
  - intros x m [[<- <-]|[_ Hn]]%lookup_insert_Some; simpl; by eapply Hnm.
Qed.

Lemma registry_ok_invalidate r : registry_ok r → registry_ok (InvalidateCache r).
Proof. by intros []. Qed.

Lemma registry_ok_write r : registry_ok r → registry_ok (ResolvedBatches_write r).2.
Proof.
  intros Hok. unfold ResolvedBatches_write. destruct (resolvedCache r) eqn:Hc; [|done].
  destruct (Graph.Resolve (enabled_graph r)) eqn:Hr; [|done].
  destruct Hok as [Hnd Hord Hnm _]. by split.
Qed.

Lemma registry_ok_op r o : registry_ok r → registry_ok (apply_op r o).
Proof.
  destruct o; simpl; intros Hok.
  - by apply registry_ok_add.
  - by apply registry_ok_set_enabled.
  - by apply registry_ok_set_enabled.
  - apply registry_ok_new.
  - by apply registry_ok_invalidate.
  - unfold ResolvedBatches. destruct (ResolvedBatches_read r); [done|by apply registry_ok_write].
Qed.

Lemma registry_ok_ops r ops : registry_ok r → registry_ok (foldl apply_op r ops).
Proof.
  intros Hok. induction ops as [|o ops IH] using rev_ind; [done|].
  rewrite foldl_snoc. by apply registry_ok_op.
Qed.

(** The graph built by the loop over [r.order] is the graph of the enabled nodes. *)
Lemma enabled_graph_alt r :
  enabled_graph r = graph_of (filter (λ n, un_enabled n = true) (node_at r <$> order r)).
Proof.
  unfold enabled_graph, graph_of. generalize (Graph.NewGraph (T := UnifiedNode)).
  induction (order r) as [|name l IH]; intros g; [done|]. rewrite fmap_cons, filter_cons. cbn [foldl].
  destruct (un_enabled (node_at r name)); simpl; apply IH.
Qed.

Lemma full_graph_alt r : full_graph r = graph_of (node_at r <$> order r).
Proof.
  unfold full_graph, graph_of. generalize (Graph.NewGraph (T := UnifiedNode)).
  induction (order r) as [|name l IH]; intros g; [done|]. apply IH.
Qed.

Lemma elem_of_registered r n :
  registry_ok r → n ∈ node_at r <$> order r ↔ nodes r !! un_name n = Some n.
Proof.
  intros [_ Hord Hnm _]. rewrite list_elem_of_fmap. unfold node_at. split.
  - intros (name & -> & [m Hm]%Hord). rewrite Hm. simpl. by rewrite (Hnm _ _ Hm).
  - intros Hn. exists (un_name n). rewrite Hn. split; [done|]. apply Hord. eauto.
Qed.

Lemma registered_names r : registry_ok r → un_name <$> (node_at r <$> order r) = order r.
Proof.
  intros [_ Hord Hnm _]. rewrite <-list_fmap_compose. rewrite <-(list_fmap_id (order r)) at 2.
  apply list_fmap_ext. intros i name Hi%list_elem_of_lookup_2. simpl. unfold node_at.
  apply Hord in Hi as [m Hm]. rewrite Hm. by apply Hnm.
Qed.

(** With distinct names every added node is the last of its name. *)
Lemma last_added_distinct l (n : UnifiedNode) : NoDup (un_name <$> l) → last_added l n ↔ n ∈ l.
Proof.
  intros Hnd. split.
  - intros (l1 & l2 & -> & _). apply elem_of_app. right. by left.
  - intros (l1 & l2 & ->)%list_elem_of_split. exists l1, l2. split; [done|].
    rewrite fmap_app, NoDup_app, fmap_cons, NoDup_cons in Hnd. tauto.
Qed.

Lemma fmap_filter_NoDup {A} (f : A → string) (P : A → Prop) `{!∀ x, Decision (P x)} l :
  NoDup (f <$> l) → NoDup (f <$> filter P l).
Proof. intros Hnd. eapply sublist_NoDup; [done|]. apply fmap_sublist, sublist_filter. Qed.

(** What a resolution of registry [r] must contain. *)
Definition resolves_enabled r (batches : list (list UnifiedNode)) : Prop :=
  batches_ok batches ∧ NoDup (un_name <$> concat batches) ∧
  ∀ n, n ∈ concat batches ↔ nodes r !! un_name n = Some n ∧ un_enabled n = true.

Lemma resolve_enabled r :
  registry_ok r →
  ∃ batches, Graph.Resolve (enabled_graph r) = Ok batches ∧ resolves_enabled r batches.
Proof.
  intros Hok. rewrite enabled_graph_alt.
  destruct (Resolve_levels (filter (λ n, un_enabled n = true) (node_at r <$> order r)))
    as (batches & Hr & Hb & Hnd & Hin).
  exists batches. split; [done|]. split; [done|]. split; [done|]. intros n. rewrite Hin.
  rewrite last_added_distinct, list_elem_of_filter, elem_of_registered by
    (try apply fmap_filter_NoDup; try rewrite registered_names; by try apply ok_nodup).
  tauto.
Qed.

Lemma write_fresh r :
  registry_ok r → (ResolvedBatches_write r).1 = Graph.Resolve (enabled_graph r).
Proof.
  intros Hok. unfold ResolvedBatches_write. destruct (resolvedCache r) as [|b bs] eqn:Hc.
  - destruct (Graph.Resolve (enabled_graph r)) eqn:Hr; by rewrite ?Hr.
  - rewrite <-Hc. symmetry. apply ok_cache; [done|]. by rewrite Hc.
Qed.

Lemma read_fresh r batches :
  registry_ok r → ResolvedBatches_read r = Some batches →
  Graph.Resolve (enabled_graph r) = Ok batches.
Proof.
  intros Hok. unfold ResolvedBatches_read. destruct (resolvedCache r) eqn:Hc; [done|].
  intros [= <-]. rewrite (ok_cache _ Hok); by rewrite Hc.
Qed.

End registry_theorems.

#[export] Hint Resolve registry_ok_new registry_ok_ops registry_ok_op : operator.

Section registry_properties.
Import UnifiedRegistry.

(** C23: whatever methods ran before and whatever methods other goroutines run between the
    two critical sections, [ResolvedBatches] returns batches of exactly the enabled
    registered nodes, in ascending runlevels: those of the registry it read the cache of,
    or those of the registry it took the write lock on. It leaves a coherent cache. *)
Theorem ResolvedBatches_linearizable (before between : list op) :
  let r := foldl apply_op NewRegistry before in
  let r' := foldl apply_op r between in
  let res := ResolvedBatches_interleaved r between in
  ∃ batches, res.1 = Ok batches ∧
    resolves_enabled (match ResolvedBatches_read r with Some _ => r | None => r' end) batches ∧ registry_ok res.2.
Proof.
  intros r r' res.
  assert (registry_ok r) as Hr; [apply registry_ok_ops, registry_ok_new|].
  assert (registry_ok r') as Hr'; [by apply registry_ok_ops|].
  unfold res, ResolvedBatches_interleaved. destruct (ResolvedBatches_read r) as [bs|] eqn:Hread.
  - exists bs. split; [done|]. split; [|done].
    destruct (resolve_enabled r Hr) as (bs' & Hbs & Hspec).
    rewrite (read_fresh _ _ Hr Hread) in Hbs. by injection Hbs as ->.
  - destruct (resolve_enabled r' Hr') as (bs & Hbs & Hspec). exists bs. rewrite write_fresh by done.
    split; [done|]. split; [done|]. by apply registry_ok_write.
Qed.

(** The cleanup order covers every registered node, disabled or not, and is the exact
    reverse of an ascending, name-sorted resolution. *)
Theorem ReverseBatchesAll_covers (ops : list op) :
  let r := foldl apply_op NewRegistry ops in
  ∃ batches, ReverseBatchesAll r = Ok (reverse (reverse <$> batches)) ∧ batches_ok batches ∧
    ∀ n, n ∈ concat (reverse (reverse <$> batches)) ↔ nodes r !! un_name n = Some n.
Proof.
  intros r. assert (registry_ok r) as Hr; [apply registry_ok_ops, registry_ok_new|].
  unfold ReverseBatchesAll. rewrite full_graph_alt.
  destruct (ReverseBatches_levels (graph_of (node_at r <$> order r)))
    as (bs & rbs & Hbs & Hrev & -> & Hconcat).
  destruct (Resolve_levels (node_at r <$> order r)) as (bs' & Hbs' & Hok & _ & Hin).
  rewrite Hbs in Hbs'. injection Hbs' as <-. exists bs. split; [done|]. split; [done|].
  intros n. rewrite Hconcat, elem_of_reverse, Hin, last_added_distinct, elem_of_registered; [done..|].
  rewrite registered_names by done. apply Hr.
Qed.

End registry_properties.

Section tracker_properties.
Import RunlevelTracker.

Definition mark_all (calls : list (string * Z)) : t :=
  foldl (λ tr c, MarkCleared tr c.1 c.2) empty calls.

Lemma mark_run tr v orders o :
  version tr = v →
  let tr' := foldl (λ tr o, MarkCleared tr v o) tr orders in
  version tr' = v ∧ ((o <= clearedUpTo tr')%Z ↔ (o <= clearedUpTo tr)%Z ∨ ∃ o', o' ∈ orders ∧ (o <= o')%Z).
Proof.
  revert tr. induction orders as [|o1 orders IH]; intros tr Hv; simpl.
  { split; [done|]. split; [tauto|]. intros [?|(? & []%elem_of_nil & _)]; done. }
  destruct (IH (MarkCleared tr v o1)) as [Hv' Hiff].
  { unfold MarkCleared. rewrite Hv, String.eqb_refl. simpl. by destruct (_ >? _)%Z. }
  split; [done|]. rewrite Hiff. unfold MarkCleared. rewrite Hv, String.eqb_refl. simpl.
  setoid_rewrite elem_of_cons. destruct (Z.gtb_spec o1 (clearedUpTo tr)); simpl; split.
  - intros [?|(o' & ? & ?)]; [right; exists o1|right; exists o']; eauto.
  - intros [?|(o' & [->|?] & ?)]; [left; lia|by left|right; eauto].
  - intros [?|(o' & ? & ?)]; [by left|right; exists o'; eauto].
  - intros [?|(o' & [->|?] & ?)]; [by left|left; lia|right; eauto].
Qed.

Lemma IsCleared_after before v orders o :
  orders ≠ [] → (∀ w o', last before = Some (w, o') → w ≠ v) → (before = [] → v ≠ "") →
  IsCleared (mark_all (before ++ ((λ o', (v, o')) <$> orders))) v o = true ↔
  ∃ o', o' ∈ orders ∧ (o <= o')%Z.
Proof.
  intros Hne Hlast Hempty. unfold mark_all. rewrite foldl_app.
  set (tr := foldl _ empty before).
  assert (version tr ≠ v) as Hv.
  { unfold tr. destruct before as [|[w o'] before _] using rev_ind; [intros <-; by apply Hempty|].
    specialize (Hlast w o'). rewrite last_snoc in Hlast. rewrite foldl_snoc. unfold MarkCleared at 1.
    simpl. set (tr0 := foldl _ _ _).
    destruct (String.eqb_spec (version tr0) w); simpl; [|by apply Hlast].
    subst w. destruct (_ >? _)%Z; simpl; by apply Hlast. }
  destruct orders as [|o1 orders]; [done|]. simpl. unfold MarkCleared at 2.
  destruct (String.eqb_spec (version tr) v) as [|_]; [done|]. simpl.
  destruct (mark_run (Mk v o1) v orders o eq_refl) as [Hv' Hiff].
  assert (∀ l t0, foldl (λ tr c, MarkCleared tr c.1 c.2) t0 ((λ o', (v, o')) <$> l) =
                  foldl (λ tr o, MarkCleared tr v o) t0 l) as Hmap.
  { intros l. induction l as [|x l IH]; intros t0; [done|]. simpl. apply IH. }
  rewrite Hmap. unfold IsCleared. rewrite Hv', String.eqb_refl. simpl. rewrite Z.leb_le, Hiff. simpl.
  setoid_rewrite elem_of_cons. split.
  - intros [?|(o' & ? & ?)]; [exists o1|exists o']; eauto.
  - intros (o' & [->|?] & ?); [by left|right; eauto].
Qed.

Lemma IsCleared_run v orders o :
  v ≠ "" → orders ≠ [] → IsCleared (mark_all ((λ o', (v, o')) <$> orders)) v o = true →
  ∃ o', o' ∈ orders ∧ (o <= o')%Z.
Proof. intros Hv Hne Hc. by apply (IsCleared_after [] v orders o). Qed.

(** After any calls of [MarkCleared], a runlevel counts as cleared at a version exactly
    when the uninterrupted run of marks made last, all at that version, reached it: marks of
    another version are forgotten and a lower mark never takes clearance back. *)
Theorem IsCleared_iff (before : list (string * Z)) (v : string) (orders : list Z) (o : Z) :
  orders ≠ [] → (∀ w o', last before = Some (w, o') → w ≠ v) → (before = [] → v ≠ "") →
  IsCleared (mark_all (before ++ ((λ o', (v, o')) <$> orders))) v o = true ↔
  ∃ o', o' ∈ orders ∧ (o <= o')%Z.
Proof. apply IsCleared_after. Qed.

Lemma IsCleared_iff_witness :
  let calls := [("2.9", 40)]%Z ++ ((λ o', ("3.0", o')) <$> [0; 20; 10]%Z) in
  (IsCleared (mark_all calls) "3.0" 20 = true ↔ ∃ o', o' ∈ [0; 20; 10]%Z ∧ (20 <= o')%Z) ∧
  IsCleared (mark_all calls) "3.0" 40 = false ∧ IsCleared (mark_all calls) "2.9" 40 = false.
Proof.
  split; [|split; reflexivity]. apply IsCleared_iff.
  - discriminate.
  - simpl. intros w o' Heq. injection Heq as <- _. discriminate.
  - discriminate.
Defined.

End tracker_properties.

(** ** The abstract gate

    The walk promises: batches are taken in order, and a batch is marked cleared and
    processed only when every node of every earlier batch passed: its last readiness answer
    was true, or a runlevel waiting on it timed out. [walk_spec] is this promise as a
    transition system over the visible events. *)

Inductive event :=
| EvReady (name : string) (ready : bool)
| EvNow (t : Z)
| EvCond (c : Condition)
| EvMark (v : string) (o : Z)
| EvProcess (batch : list UnifiedNode) (err : option goerr).

Definition event_of (c : call WalkE) : event :=
  match c with
  | @Call _ X e x =>
      match e in WalkE X return X → event with
      | IsReady name => λ r, EvReady name r.1
      | Now => EvNow
      | SetCondition c => λ _, EvCond c
      | MarkCleared v o => λ _, EvMark v o
      | ProcessBatch batch => EvProcess batch
      end x
  end.

Definition events (tr : list (call WalkE)) : list event := event_of <$> tr.

Lemma walk_events_snoc tr c : events (tr ++ [c]) = events tr ++ [event_of c].
Proof. unfold events. by rewrite fmap_app. Qed.

Definition last_answer (name : string) (acc : option bool) (ev : event) : option bool :=
  match ev with
  | EvReady n r => if String.eqb n name then Some r else acc
  | _ => acc
  end.
Definition last_ready (evs : list event) (name : string) : option bool :=
  foldl (last_answer name) None evs.

Definition observation (ev : event) : Prop :=
  match ev with EvReady _ _ | EvNow _ | EvCond _ => True | _ => False end.

Section gate_spec.
Variables (disabled : bool) (policies : gmap Z RunlevelPolicy) (instanceID version : string).
Variable tracker0 : StuckTracker.t.
Implicit Types (evs : list event) (prior batches : list (list UnifiedNode)).

(** [since] is when runlevel [o] got stuck: before the walk, or at a clock read of it. *)
Definition stuck_since evs (o since : Z) : Prop :=
  StuckTracker.timestamps tracker0 !! (instanceID, o) = Some since ∨ EvNow since ∈ evs.

(** A runlevel that had been stuck for its whole, non-zero timeout gave up on [names],
    each of which had answered not ready. *)
Definition gave_up evs (names : list string) : Prop :=
  ∃ e1 t e2 o since, let policy := GetRunlevelPolicy policies o in
    evs = e1 ++ EvNow t :: EvCond (Walk.timeout_condition policy names) :: e2 ∧
    stuck_since (e1 ++ [EvNow t]) o since ∧
    (0 < Timeout policy <= t - since)%Z ∧ ∀ x, x ∈ names → EvReady x false ∈ e1.

Definition passed evs (name : string) : Prop :=
  last_ready evs name = Some true ∨ ∃ names, gave_up evs names ∧ name ∈ names.

Inductive walk_spec : list (list UnifiedNode) → list event → Prop :=
| spec_start : walk_spec [] []
| spec_observe prior evs ev :
    walk_spec prior evs → observation ev → walk_spec prior (evs ++ [ev])
| spec_advance prior evs batch n err :
    walk_spec prior evs → head batch = Some n →
    (disabled = false → ∀ m, m ∈ concat prior → passed evs (GetName m)) →
    walk_spec (prior ++ [batch])
      (evs ++ [EvMark version (Order (GetRunlevel n)); EvProcess batch err]).

Lemma walk_spec_observe prior evs new :
  walk_spec prior evs → Forall observation new → walk_spec prior (evs ++ new).
Proof.
  intros Hs Hf. induction new as [|ev new IH] using rev_ind; [by rewrite app_nil_r|].
  apply Forall_app in Hf as [Hf Hev]. rewrite app_assoc. constructor; [by apply IH|].
  by inversion_clear Hev.
Qed.

Lemma gave_up_app evs new names : gave_up evs names → gave_up (evs ++ new) names.
Proof.
  intros (e1 & t & e2 & o & since & -> & Hg). exists e1, t, (e2 ++ new), o, since.
  split; [by rewrite <-!app_assoc|done].
Qed.

(** ** The walk against the gate *)

(** Loop invariant after the batches [prior]. *)
Record walk_inv prior evs (s : Walk.state) : Prop := {
  inv_spec : walk_spec prior evs;
  inv_timedOut name : name ∈ Walk.timedOut s → ∃ names, gave_up evs names ∧ name ∈ names;
  inv_requeue : Walk.requeueAfter s = 0%Z;
  inv_stuck o since :
    StuckTracker.timestamps (Walk.stuck s) !! (instanceID, o) = Some since → stuck_since evs o since;
  inv_blocked : Walk.progressBlocked s = true → ∃ name, EvReady name false ∈ evs;
  inv_answers batch err : EvProcess batch err ∈ evs → err = None;
}.

(** Observations without effect on the walk's variables keep the invariant. *)
Lemma walk_inv_observe prior evs s new :
  walk_inv prior evs s → Forall observation new → walk_inv prior (evs ++ new) s.
Proof.
  intros [Hs Ht Hr Hst Hb Ha] Hnew. split; [by apply walk_spec_observe| |done| | |].
  - intros name (names & ? & ?)%Ht. exists names. split; [by apply gave_up_app|done].
  - intros o since [?|?]%Hst; [by left|right; apply elem_of_app; by left].
  - intros (name & ?)%Hb. exists name. apply elem_of_app. by left.
  - intros batch err [?|Hin]%elem_of_app; [by eapply Ha|].
    rewrite Forall_forall in Hnew. by apply Hnew in Hin.
Qed.

Lemma last_ready_snoc evs ev name :
  last_ready (evs ++ [ev]) name = last_answer name (last_ready evs name) ev.
Proof. apply foldl_snoc. Qed.

(** What the two inner loops report of the entries they went through. *)
Definition check_post (entries : list UnifiedNode) (timed : gset string) evs evs'
    (r : bool * list string) : Prop :=
  r.1 = bool_decide (r.2 = []) ∧
  (∃ new, evs' = evs ++ new ∧ Forall observation new) ∧
  (∀ x, x ∈ r.2 → EvReady x false ∈ evs') ∧
  (∀ n, n ∈ entries →
     GetName n ∈ timed ∨ GetName n ∈ r.2 ∨ last_ready evs' (GetName n) = Some true).

Lemma check_post_answer entries timed evs evs' r b (ready : bool) :
  check_post entries timed evs evs' r →
  check_post (entries ++ [b]) timed evs (evs' ++ [EvReady (GetName b) ready])
    (if ready then r else (false, r.2 ++ [GetName b])).
Proof.
  intros (Hr & (new & -> & Hobs) & Hnot & Hall).
  assert (∀ x, EvReady x false ∈ evs ++ new → EvReady x false ∈ (evs ++ new) ++ [EvReady (GetName b) ready])
    as Hkeep; [intros x ?; apply elem_of_app; by left|].
  assert (∃ new', (evs ++ new) ++ [EvReady (GetName b) ready] = evs ++ new' ∧ Forall observation new') as Hnew.
  { eexists. rewrite <-app_assoc. split; [done|]. apply Forall_app. by repeat constructor. }
  destruct ready; (split; [|split; [done|split]]).
  - done.
  - auto.
  - intros n Hn. rewrite last_ready_snoc. simpl. destruct (String.eqb_spec (un_name b) (un_name n)); [by auto|].
    apply elem_of_app in Hn as [Hn| ->%list_elem_of_singleton]; [by apply Hall|done].
  - rewrite bool_decide_eq_false_2; [done|]. simpl. by destruct (r.2).
  - simpl. intros x [?| ->%list_elem_of_singleton]%elem_of_app; [by auto|]. apply elem_of_app. right. by left.
  - intros n Hn. rewrite last_ready_snoc. simpl. rewrite elem_of_app.
    destruct (String.eqb_spec (un_name b) (un_name n)) as [Heq|Hne].
    + right. left. right. rewrite Heq. by left.
    + apply elem_of_app in Hn as [[?|[?|?]]%Hall| ->%list_elem_of_singleton]; [tauto..|done].
Qed.

Lemma wp_check_prior timed prior tr :
  wp (Walk.check_prior timed prior) tr (λ tr' r, check_post (concat prior) timed (events tr) (events tr') r).
Proof.
  unfold Walk.check_prior.
  apply (wp_foldl _ _ _ _ (λ pre tr' r, check_post pre timed (events tr) (events tr') r)).
  - split; [done|]. split; [exists []; by rewrite app_nil_r|]. split; by intros ? []%elem_of_nil.
  - intros pre b todo tr' r _ Hpost. unfold Walk.check_entry. case_bool_decide as Hin.
    + apply wp_ret. destruct Hpost as (? & ? & ? & Hall). split_and!; [done..|].
      intros n [?| ->%list_elem_of_singleton]%elem_of_app; [by apply Hall|by left].
    + apply wp_bind, wp_call. intros [ready err]. apply wp_ret. rewrite walk_events_snoc. by apply check_post_answer.
Qed.

(** The walk stops in front of runlevel [o]: [d] is what is left of its timeout. *)
Definition waiting evs (o : Z) (names : list string) (d : Z) : Prop :=
  ∃ e1 t since, let policy := GetRunlevelPolicy policies o in
    evs = e1 ++ [EvNow t; EvCond (Walk.awaiting_condition policy names)] ∧
    stuck_since (e1 ++ [EvNow t]) o since ∧
    ¬ (0 < Timeout policy <= t - since)%Z ∧ names ≠ [] ∧
    (∀ x, x ∈ names → EvReady x false ∈ e1) ∧ d = (Timeout policy - (t - since))%Z.

Definition all_answers_nil evs : Prop := ∀ batch err, EvProcess batch err ∈ evs → err = None.

(** How the gate of a batch of runlevel [o] ends. *)
Definition gate_post prior (o : Z) (names : list string) evs0 evs (r : bool * Walk.state) : Prop :=
  if r.1 then walk_inv prior evs r.2 ∧ gave_up evs names ∧
              (∀ x, last_ready evs x = last_ready evs0 x) ∧ (∀ xs, gave_up evs0 xs → gave_up evs xs)
  else walk_spec prior evs ∧ all_answers_nil evs ∧ Walk.progressBlocked r.2 = true ∧
       waiting evs o names (Walk.requeueAfter r.2).

(** Recording when a runlevel got stuck. *)
Lemma wp_since prior s o tr :
  walk_inv prior (events tr) s →
  wp (StuckTracker.Since (trigger Now) (Walk.stuck s) instanceID o) tr (λ tr' r,
    walk_inv prior (events tr')
      (Walk.MkState (Walk.progressBlocked s) (Walk.timedOut s) (Walk.requeueAfter s) r.1) ∧
    stuck_since (events tr') o r.2 ∧
    ∃ new, events tr' = events tr ++ new ∧ ∀ x, last_ready (events tr') x = last_ready (events tr) x).
Proof.
  intros Hinv. unfold StuckTracker.Since. destruct (_ !! _) as [ts|] eqn:Hts.
  - apply wp_ret. split; [by destruct s|]. split; [by eapply inv_stuck|].
    exists []. by rewrite app_nil_r.
  - apply wp_bind, wp_call. intros t. apply wp_ret. rewrite walk_events_snoc. simpl.
    assert (EvNow t ∈ events tr ++ [EvNow t]) as Hin; [apply elem_of_app; right; by left|].
    apply (walk_inv_observe _ _ _ [EvNow t]) in Hinv; [|by repeat constructor].
    split; [|split; [by right|eexists; split; [done|intros x; apply last_ready_snoc]]].
    destruct Hinv as [Hs Ht Hr Hst Hb Ha].
    split; simpl; [done..| |done|done].
    intros o' since [[[= <-] <-]|[_ Hl]]%lookup_insert_Some; [by right|by apply Hst].
Qed.

Lemma wp_gate prior s o names tr :
  walk_inv prior (events tr) s → names ≠ [] → (∀ x, x ∈ names → EvReady x false ∈ events tr) →
  wp (Walk.gate policies instanceID o names s) tr (λ tr' r, gate_post prior o names (events tr) (events tr') r).
Proof.
  intros Hinv Hne Hnames. unfold Walk.gate. apply wp_bind.
  eapply wp_mono; [|by apply wp_since]. intros tr1 [stuck' since] (Hinv1 & Hsince & new & Hnew & Hlast).
  cbn [fst snd] in Hinv1, Hsince. cbv beta iota.
  assert (∀ x, x ∈ names → EvReady x false ∈ events tr1) as Hnames1.
  { intros x Hx%Hnames. rewrite Hnew. apply elem_of_app. by left. }
  apply wp_bind, wp_call. intros t.
  assert (stuck_since (events tr1 ++ [EvNow t]) o since) as Hsince1.
  { destruct Hsince; [by left|right; apply elem_of_app; by left]. }
  set (policy := GetRunlevelPolicy policies o).
  assert (∀ c, walk_inv prior ((events tr1 ++ [EvNow t]) ++ [EvCond c])
            (Walk.MkState (Walk.progressBlocked s) (Walk.timedOut s) (Walk.requeueAfter s) stuck'))
    as Hinv2.
  { intros c. rewrite <-app_assoc. apply walk_inv_observe; [done|by repeat constructor]. }
  destruct (_ && _) eqn:Htest; apply wp_bind, wp_call; intros []; apply wp_ret;
    unfold gate_post; cbn [fst snd]; rewrite !walk_events_snoc; cbn [event_of].
  - apply andb_prop in Htest as [?%Z.gtb_lt ?%Z.geb_le].
    assert (gave_up ((events tr1 ++ [EvNow t]) ++ [EvCond (Walk.timeout_condition policy names)]) names)
      as Hgave.
    { exists (events tr1), t, [], o, since. split; [by rewrite <-app_assoc|]. by split. }
    split; [|split; [done|]].
    2:{ split; [intros x; rewrite !last_ready_snoc; apply Hlast|]. intros xs Hxs.
      apply gave_up_app, gave_up_app. rewrite Hnew. by apply gave_up_app. }
    destruct (Hinv2 (Walk.timeout_condition policy names)) as [Hs Ht Hr Hst Hb Ha].
    simpl in *. split; simpl; [done| |done|done| |done].
    + intros name [Hin%elem_of_list_to_set|Hin]%elem_of_union; [eauto|by apply Ht].
    + intros _. destruct names as [|x names]; [done|]. exists x.
      rewrite !elem_of_app. left. left. apply Hnames1. by left.
  - destruct (Hinv2 (Walk.awaiting_condition policy names)) as [Hs Ht Hr Hst Hb Ha].
    split; [done|]. split; [done|]. split; [done|]. simpl.
    exists (events tr1), t, since. split; [by rewrite <-app_assoc|]. split; [done|]. split; [|done].
    intros [??]. subst policy. apply andb_false_iff in Htest as [?|?]; lia.
Qed.

(** How [process] and a whole iteration end. *)
Definition batch_post prior batch evs (o : Walk.step) : Prop :=
  match o with
  | Walk.Continue s => walk_inv (prior ++ [batch]) evs s
  | Walk.Break s =>
      walk_spec prior evs ∧ all_answers_nil evs ∧ Walk.progressBlocked s = true ∧
      ∃ n names, head batch = Some n ∧
        waiting evs (Order (GetRunlevel n)) names (Walk.requeueAfter s)
  | Walk.Return e _ =>
      walk_spec (prior ++ [batch]) evs ∧ ∃ evs0, evs = evs0 ++ [EvProcess batch (Some e)]
  | Walk.Panic => False
  end.

Lemma wp_process prior first batch n s tr :
  walk_inv prior (events tr) s → head batch = Some n →
  (disabled = false → ∀ m, m ∈ concat prior → passed (events tr) (GetName m)) →
  wp (Walk.process instanceID version first (Order (GetRunlevel n)) batch s) tr
    (λ tr' o, batch_post prior batch (events tr') o).
Proof.
  intros Hinv Hhead Hgate. unfold Walk.process. apply wp_bind, wp_call. intros [].
  apply wp_bind, wp_call. intros err.
  assert (∀ err', walk_spec (prior ++ [batch])
    ((events tr ++ [EvMark version (Order (GetRunlevel n))]) ++ [EvProcess batch err'])) as Hspec.
  { intros err'. rewrite <-app_assoc. eapply spec_advance; [apply Hinv|done|done]. }
  destruct err as [e|]; apply wp_ret; simpl; rewrite !walk_events_snoc; simpl.
  - split; [done|]. by eexists.
  - destruct Hinv as [Hs Ht Hr Hst Hb Ha].
    assert (walk_inv (prior ++ [batch])
      ((events tr ++ [EvMark version (Order (GetRunlevel n))]) ++ [EvProcess batch None]) s) as Hinv'.
    { split; [done| |done| | |].
      - intros name (names & ? & ?)%Ht. exists names. split; [|done]. by do 2 apply gave_up_app.
      - intros o since [?|?]%Hst; [by left|right]. rewrite !elem_of_app. tauto.
      - intros (name & ?)%Hb. exists name. rewrite !elem_of_app. tauto.
      - intros b err. rewrite !elem_of_app, !list_elem_of_singleton.
        intros [[?|?]|?]; [by eapply Ha|done|congruence]. }
    destruct first; [done|]. destruct Hinv' as [Hs' Ht' Hr' Hst' Hb' Ha'].
    split; simpl; [done..| |done|done].
    intros o since [_ Hl]%lookup_delete_Some. by apply Hst'.
Qed.

Lemma prior_empty prior :
  match prior with [] => true | _ => false end = true → concat prior = ([] : list UnifiedNode).
Proof. by destruct prior. Qed.

(** Entries that answered not ready while their runlevel gave up have passed. *)
Lemma gate_passes prior timed evs0 evs1 evs2 r s' o s :
  check_post (concat prior) timed evs0 evs1 r → walk_inv prior evs1 s → timed = Walk.timedOut s →
  gate_post prior o r.2 evs1 evs2 (true, s') →
  ∀ m, m ∈ concat prior → passed evs2 (GetName m).
Proof.
  intros (_ & _ & _ & Hall) Hinv -> (_ & Hgave & Hlast & Hkeep) m Hm.
  destruct (Hall m Hm) as [Hin|[Hin|Hin]].
  - right. destruct (inv_timedOut _ _ _ Hinv _ Hin) as (names & ? & ?). eauto.
  - right. eauto.
  - left. by rewrite Hlast.
Qed.

Lemma wp_walk_batch prior batch n s tr :
  walk_inv prior (events tr) s → head batch = Some n →
  wp (Walk.walk_batch disabled policies instanceID version prior batch s) tr
    (λ tr' o, batch_post prior batch (events tr') o).
Proof.
  intros Hinv Hhead. unfold Walk.walk_batch. rewrite Hhead.
  destruct (match prior with [] => true | _ => false end) eqn:Hfirst; cbn [negb andb].
  { apply wp_process; [done..|]. intros _ m. rewrite (prior_empty _ Hfirst). by intros []%elem_of_nil. }
  destruct (negb disabled) eqn:Hdis.
  2:{ apply wp_process; [done..|]. intros Hd. by rewrite Hd in Hdis. }
  apply wp_bind. eapply wp_mono; [|apply wp_check_prior].
  intros tr1 [allReady notReady] Hcheck. cbv beta iota.
  pose proof Hcheck as (Hr & (new & Hnew & Hobs) & Hnot & Hall). cbn [fst snd] in *.
  apply (walk_inv_observe _ _ _ _ Hinv) in Hobs as Hinv1. rewrite <-Hnew in Hinv1. subst allReady.
  case_bool_decide as Hnil; cbn [negb].
  - subst notReady. apply wp_process; [done..|]. intros _ m Hm.
    destruct (Hall m Hm) as [Hin|[[]%elem_of_nil|Hin]]; [right|by left].
    by eapply inv_timedOut.
  - apply wp_bind. eapply wp_mono; [|by apply wp_gate].
    intros tr2 [go_on s'] Hgate. cbv beta iota. destruct go_on.
    + apply wp_process; [by destruct Hgate|done|]. intros _.
      by apply (gate_passes _ _ _ _ _ _ s' _ s Hcheck Hinv1 eq_refl Hgate).
    + apply wp_ret. destruct Hgate as (? & ? & ? & ?). simpl. split_and!; [done..|]. eauto.
Qed.

(** How the walk over [batches] ends, relative to the batches done so far. *)
Definition stops_waiting batches evs (d : Z) : Prop :=
  ∃ pre b n post names, batches = pre ++ b :: post ∧ head b = Some n ∧ walk_spec pre evs ∧
    all_answers_nil evs ∧ waiting evs (Order (GetRunlevel n)) names d.

Definition fails batches evs (e : goerr) : Prop :=
  ∃ pre b post evs0, batches = pre ++ b :: post ∧ walk_spec (pre ++ [b]) evs ∧
    evs = evs0 ++ [EvProcess b (Some e)].

Definition loop_post batches evs (o : Walk.step) : Prop :=
  match o with
  | Walk.Continue s => walk_inv batches evs s
  | Walk.Break s => Walk.progressBlocked s = true ∧ stops_waiting batches evs (Walk.requeueAfter s)
  | Walk.Return e _ => fails batches evs e
  | Walk.Panic => False
  end.

Lemma wp_walk_loop prior todo s tr :
  walk_inv prior (events tr) s → Forall (λ b, b ≠ []) todo →
  wp (Walk.walk_loop disabled policies instanceID version prior todo s) tr
    (λ tr' o, loop_post (prior ++ todo) (events tr') o).
Proof.
  revert prior s tr. induction todo as [|batch todo IH]; intros prior s tr Hinv Hne; cbn [Walk.walk_loop].
  { apply wp_ret. by rewrite app_nil_r. }
  inversion_clear Hne as [|?? Hb Htodo]. destruct batch as [|n batch]; [done|].
  apply wp_bind. eapply wp_mono; [|by apply (wp_walk_batch _ _ n)].
  intros tr1 [s1|s1|e s1|] Hpost; simpl in Hpost.
  - specialize (IH (prior ++ [n :: batch]) s1 tr1 Hpost Htodo). by rewrite <-app_assoc in IH.
  - apply wp_ret. destruct Hpost as (Hs & Ha & Hblk & m & names & Hm & Hw). split; [done|].
    by exists prior, (n :: batch), m, todo, names.
  - apply wp_ret. destruct Hpost as (Hs & evs0 & Hevs). by exists prior, (n :: batch), todo, evs0.
  - done.
Qed.

(** The outcomes of [WalkBatches]: everything processed, waiting in front of a batch, or
    the error of the callback. *)
Definition walk_outcome batches evs (o : Walk.outcome) : Prop :=
  match o with
  | Walk.WalkRet d =>
      all_answers_nil evs ∧
      (walk_spec batches evs ∧ d = 0%Z ∧
         ((∃ name, EvReady name false ∈ evs) ∨ last evs = Some (EvCond Walk.progress_condition)) ∨
       stops_waiting batches evs d)
  | Walk.WalkErr e => fails batches evs e
  | Walk.WalkPanic => False
  end.

Lemma wp_finish batches s tr :
  walk_inv batches (events tr) s ∨
    Walk.progressBlocked s = true ∧ stops_waiting batches (events tr) (Walk.requeueAfter s) →
  wp (Walk.finish s) tr (λ tr' r, walk_outcome batches (events tr') r.1).
Proof.
  intros Hs. unfold Walk.finish. apply wp_bind. destruct (Walk.progressBlocked s) eqn:Hblk; cbn [negb].
  - do 2 apply wp_ret. simpl. destruct Hs as [Hinv|[_ Hw]].
    + destruct Hinv as [Hs _ Hr _ Hb Ha]. split; [done|]. left. rewrite Hr. auto.
    + split; [|by right]. by destruct Hw as (pre & b & n & post & names & _ & _ & _ & ? & _).
  - destruct Hs as [Hinv|[? _]]; [|done]. apply wp_call. intros []. apply wp_ret. simpl.
    rewrite walk_events_snoc. apply (walk_inv_observe _ _ _ [EvCond Walk.progress_condition]) in Hinv as
      [Hs _ Hr _ Hb Ha]; [|by repeat constructor].
    split; [done|]. left. split; [done|]. split; [done|]. right. apply last_snoc.
Qed.

Lemma wp_WalkBatches batches :
  Forall (λ b, b ≠ []) batches →
  wp (Walk.WalkBatches disabled policies instanceID version (Ok batches) tracker0) []
    (λ tr r, walk_outcome batches (events tr) r.1).
Proof.
  intros Hne. unfold Walk.WalkBatches. apply wp_bind.
  eapply wp_mono; [|apply wp_walk_loop; [|done]].
  - simpl. intros tr [s|s|e s|] Hpost; simpl in Hpost.
    + apply wp_finish. by left.
    + apply wp_finish. by right.
    + by apply wp_ret.
    + done.
  - split; simpl; [constructor|done|done| |done|].
    + intros o since ?. by left.
    + intros b err []%elem_of_nil.
Qed.

(** In a run of the gate, every mark is of the version and in front of the processing of a
    batch all of whose predecessors passed. *)
Lemma walk_spec_marks prior evs e1 v o e2 :
  walk_spec prior evs → evs = e1 ++ EvMark v o :: e2 →
  v = version ∧ ∃ pre b n post err e3, prior = pre ++ b :: post ∧ head b = Some n ∧
    o = Order (GetRunlevel n) ∧ e2 = EvProcess b err :: e3 ∧
    (disabled = false → ∀ m, m ∈ concat pre → passed e1 (GetName m)).
Proof.
  intros Hs. revert e2. induction Hs as [|prior evs ev Hs IH Hobs|prior evs batch n err Hs IH Hhead Hgate];
    intros e2 Heq.
  - by destruct e1.
  - destruct e2 as [|x e2 _] using rev_ind; [apply app_inj_tail in Heq as [_ ->]; done|].
    rewrite app_comm_cons, app_assoc in Heq. apply app_inj_tail in Heq as [Heq <-].
    destruct (IH _ Heq) as (-> & pre & b & n & post & err & e3 & -> & ? & ? & -> & ?).
    split; [done|]. by exists pre, b, n, post, err, (e3 ++ [ev]).
  - destruct e2 as [|x e2 _] using rev_ind.
    { rewrite (cons_middle (EvMark version _) evs), app_assoc in Heq. by apply app_inj_tail in Heq as [_ ?]. }
    rewrite (cons_middle (EvMark version _) evs), (app_assoc evs), app_comm_cons, (app_assoc e1) in Heq.
    apply app_inj_tail in Heq as [Heq <-]. destruct e2 as [|y e2 _] using rev_ind.
    + apply app_inj_tail in Heq as [<- [= <- <-]]. split; [done|].
      by exists prior, batch, n, [], err, [].
    + rewrite app_comm_cons, app_assoc in Heq. apply app_inj_tail in Heq as [Heq <-].
      destruct (IH _ Heq) as (-> & pre & b & m & post & err' & e3 & -> & ? & ? & -> & ?).
      split; [done|]. exists pre, b, m, (post ++ [batch]), err'. eexists.
      by rewrite <-!app_assoc.
Qed.

End gate_spec.

#[export] Hint Resolve walk_inv_observe : operator.

(** ** Properties of the walk *)

Definition processed (evs : list event) : list (list UnifiedNode) :=
  omap (λ ev, match ev with EvProcess batch _ => Some batch | _ => None end) evs.

Definition marks (evs : list event) : list (string * Z) :=
  omap (λ ev, match ev with EvMark v o => Some (v, o) | _ => None end) evs.

Lemma walk_spec_processed disabled policies inst version tracker0 prior evs :
  walk_spec disabled policies inst version tracker0 prior evs → processed evs = prior.
Proof.
  induction 1 as [|prior evs ev _ IH Hobs|prior evs batch n err _ IH]; [done|..];
    unfold processed in *; rewrite omap_app, IH; simpl.
  - destruct ev; try done; apply app_nil_r.
  - done.
Qed.

Lemma resolved_batches ops :
  let r := foldl UnifiedRegistry.apply_op UnifiedRegistry.NewRegistry ops in
  ∃ batches, (UnifiedRegistry.ResolvedBatches r).1 = Ok batches ∧ resolves_enabled r batches ∧
    Forall (λ b, b ≠ []) batches.
Proof.
  intros r. assert (registry_ok r) as Hr; [apply registry_ok_ops, registry_ok_new|].
  destruct (resolve_enabled r Hr) as (bs & Hbs & Hspec). exists bs.
  assert ((UnifiedRegistry.ResolvedBatches r).1 = Ok bs) as ->.
  { unfold UnifiedRegistry.ResolvedBatches. destruct (UnifiedRegistry.ResolvedBatches_read r) eqn:Hread.
    - apply read_fresh in Hread; [|done]. simpl. by rewrite <-Hread, Hbs.
    - by rewrite write_fresh. }
  split; [done|]. split; [done|]. destruct Hspec as ((Hok & _) & _ & _).
  eapply Forall_impl; [done|]. by intros b (? & _).
Qed.

(** Without a not-ready answer and without a callback error the walk completes. *)
Lemma walk_outcome_complete disabled policies inst version tracker0 batches evs o :
  walk_outcome disabled policies inst version tracker0 batches evs o →
  (∀ name, EvReady name false ∉ evs) → (∀ b e, EvProcess b (Some e) ∉ evs) →
  o = Walk.WalkRet 0 ∧ processed evs = batches ∧ last evs = Some (EvCond Walk.progress_condition).
Proof.
  intros Ho Hready Herr. destruct o as [d|e|]; [| |done].
  - destruct Ho as [_ [(Hs & -> & Hlast)|Hw]].
    + split; [done|]. split; [by eapply walk_spec_processed|].
      destruct Hlast as [[name Hin]|?]; [by apply Hready in Hin|done].
    + destruct Hw as (pre & b & n & post & names & _ & _ & _ & _ & Hwait).
      destruct Hwait as (e1 & t & since & -> & _ & _ & Hne & Hnames & _).
      destruct names as [|x names]; [done|]. destruct (Hready x). apply elem_of_app. left.
      apply Hnames. by left.
  - destruct Ho as (pre & b & post & evs0 & _ & _ & ->). destruct (Herr b e).
    apply elem_of_app. right. by left.
Qed.

Lemma walk_outcome_spec disabled policies inst version tracker0 batches evs o :
  walk_outcome disabled policies inst version tracker0 batches evs o →
  ∃ pre, pre `prefix_of` batches ∧ walk_spec disabled policies inst version tracker0 pre evs.
Proof.
  destruct o as [d|e|]; [intros [_ [[Hs _]|Hw]]|intros Hf|done].
  - by exists batches.
  - destruct Hw as (pre & b & n & post & names & -> & _ & Hs & _). exists pre.
    split; [by apply prefix_app_r|done].
  - destruct Hf as (pre & b & post & evs0 & -> & Hs & _). exists (pre ++ [b]).
    split; [exists post; by rewrite <-app_assoc|done].
Qed.

(** In resolved batches, the nodes below the runlevel of a batch are in earlier batches. *)
Lemma batches_before_mem (pre post : list (list UnifiedNode)) b n m :
  batches_ok (pre ++ b :: post) → m ∈ concat (pre ++ b :: post) → head b = Some n →
  (Order (un_runlevel m) < Order (un_runlevel n))%Z → m ∈ concat pre.
Proof.
  intros [Hall Hsort] Hm Hn Hlt. rewrite concat_app, elem_of_app in Hm.
  destruct Hm as [|Hm]; [done|exfalso]. cbn [concat] in Hm.
  destruct b as [|n' b]; simplify_eq/=. apply Forall_app in Hall as [_ Hall].
  inversion_clear Hall as [|?? (_ & _ & Hlevel) _].
  apply StronglySorted_app in Hsort as (_ & _ & [_ Hbefore]%StronglySorted_inv).
  rewrite (app_comm_cons b), elem_of_app in Hm. destruct Hm as [Hm|Hm].
  - specialize (Hlevel m n Hm). simpl in Hlevel. rewrite Hlevel in Hlt; [lia|by left].
  - apply elem_of_concat in Hm as (b' & Hmb & Hb'). rewrite Forall_forall in Hbefore.
    specialize (Hbefore b' Hb' n m). simpl in Hbefore. specialize (Hbefore (list_elem_of_here _ _) Hmb). lia.
Qed.

(** With ordering disabled no readiness check is made. *)
Lemma wp_disabled_no_checks policies inst version prior todo s tr :
  (∀ name r, EvReady name r ∉ events tr) →
  wp (Walk.walk_loop true policies inst version prior todo s) tr
    (λ tr' _, ∀ name r, EvReady name r ∉ events tr').
Proof.
  revert prior s tr. induction todo as [|batch todo IH]; intros prior s tr Htr; cbn [Walk.walk_loop].
  { by apply wp_ret. }
  apply wp_bind. unfold Walk.walk_batch. cbn [negb]. rewrite !andb_false_r.
  destruct (head batch) as [n|]; [|by apply wp_ret, wp_ret].
  unfold Walk.process. apply wp_bind, wp_call. intros []. apply wp_bind, wp_call. intros err.
  set (evs' := (tr ++ _) ++ _). assert (∀ name r, EvReady name r ∉ events evs') as Htr'.
  { intros name r. unfold evs'. rewrite !walk_events_snoc, !elem_of_app, !list_elem_of_singleton.
    intros [[?|?]|?]; [by eapply Htr|done|done]. }
  destruct err; apply wp_ret; [by apply wp_ret|by apply IH].
Qed.

Lemma wp_disabled_walk policies inst version batches tracker :
  wp (Walk.WalkBatches true policies inst version (Ok batches) tracker) []
    (λ tr _, ∀ name r, EvReady name r ∉ events tr).
Proof.
  unfold Walk.WalkBatches. apply wp_bind. eapply wp_mono; [|apply wp_disabled_no_checks].
  2:{ by intros ?? []%elem_of_nil. }
  assert (∀ s tr, (∀ name r, EvReady name r ∉ events tr) →
    wp (Walk.finish s) tr (λ tr' _, ∀ name r, EvReady name r ∉ events tr')) as Hfinish.
  { intros s tr Htr. unfold Walk.finish. apply wp_bind. destruct (negb _).
    - apply wp_call. intros []. apply wp_ret. intros name r. rewrite walk_events_snoc.
      intros [?|?%list_elem_of_singleton]%elem_of_app; [by eapply Htr|done].
    - by apply wp_ret, wp_ret. }
  intros tr [s|s|e s|] Htr; [by apply Hfinish..|by apply wp_ret|by apply wp_ret].
Qed.

Section walk_properties.
Variables (policies : gmap Z RunlevelPolicy) (instanceID version : string).
Variables (tracker0 : StuckTracker.t) (ops : list UnifiedRegistry.op).

Let r := foldl UnifiedRegistry.apply_op UnifiedRegistry.NewRegistry ops.

(** [WalkBatches] on a registry any calls have led to. *)
Definition walk_of (disabled : bool) : prog WalkE (Walk.outcome * StuckTracker.t) :=
  Walk.WalkBatches disabled policies instanceID version (UnifiedRegistry.ResolvedBatches r).1 tracker0.

Lemma walk_gates :
  wp (walk_of false) [] (λ tr _, ∀ e1 v o e2, events tr = e1 ++ EvMark v o :: e2 →
    v = version ∧ ∃ b err e3, e2 = EvProcess b err :: e3 ∧
      ∀ m, UnifiedRegistry.nodes r !! un_name m = Some m → un_enabled m = true →
        (Order (un_runlevel m) < o)%Z → passed policies instanceID tracker0 e1 (un_name m)).
Proof.
  unfold walk_of, r. destruct (resolved_batches ops) as (bs & -> & (Hok & _ & Hin) & Hne).
  eapply wp_mono; [|by apply wp_WalkBatches]. intros tr [o d] Ho e1 v o1 e2 Heq.
  apply walk_outcome_spec in Ho as (pre & [post Hpre] & Hs). destruct (walk_spec_marks _ _ _ _ _ _ _ _ _ _ _ Hs Heq)
    as (-> & pre1 & b & n & post1 & err & e3 & Hpre1 & Hhead & -> & -> & Hpass).
  split; [done|]. exists b, err, e3. split; [done|]. intros m Hm Hen Hlt.
  apply Hpass; [done|]. subst pre. rewrite <-app_assoc in Hpre. subst bs.
  eapply batches_before_mem; [done|by apply Hin|done|done].
Qed.

(** C1: whatever the readiness checks, the clock and the callback answer, a runlevel is
    marked cleared (and its batch processed, right after) only when every node of every
    earlier batch passed: its last readiness answer was true, or a runlevel waiting on it
    had been stuck for its whole non-zero timeout. *)
Theorem WalkBatches_gates :
  wp (walk_of false) [] (λ tr _, ∀ e1 v o e2, events tr = e1 ++ EvMark v o :: e2 →
    v = version ∧ ∃ b err e3, e2 = EvProcess b err :: e3 ∧
      ∀ m, UnifiedRegistry.nodes r !! un_name m = Some m → un_enabled m = true →
        (Order (un_runlevel m) < o)%Z → passed policies instanceID tracker0 e1 (un_name m)).
Proof. apply walk_gates. Qed.

(** The walk never panics, and ends in one of three ways: every batch was processed (no
    requeue; progress is reported True unless some node was found not ready); the callback
    failed on a batch, which is the last thing that happened; or it stops in front of a
    batch after announcing the nodes it waits on, asking to be requeued after exactly what
    is left of that runlevel's timeout. *)
Theorem WalkBatches_outcomes (disabled : bool) :
  ∃ batches, (UnifiedRegistry.ResolvedBatches r).1 = Ok batches ∧
    wp (walk_of disabled) [] (λ tr res,
      walk_outcome disabled policies instanceID version tracker0 batches (events tr) res.1).
Proof.
  unfold walk_of, r. destruct (resolved_batches ops) as (bs & -> & _ & Hne).
  exists bs. split; [done|]. by apply wp_WalkBatches.
Qed.

(** C40: the walk completes when nothing holds it back: if no readiness check answers not
    ready and the callback never fails, every batch is processed, in order and once, the
    last write reports progress True and no requeue is asked for. *)
Theorem WalkBatches_completes (disabled : bool) :
  ∃ batches, (UnifiedRegistry.ResolvedBatches r).1 = Ok batches ∧
    wp (walk_of disabled) [] (λ tr res,
      (∀ name, EvReady name false ∉ events tr) → (∀ b e, EvProcess b (Some e) ∉ events tr) →
      res.1 = Walk.WalkRet 0 ∧ processed (events tr) = batches ∧
      last (events tr) = Some (EvCond Walk.progress_condition)).
Proof.
  unfold walk_of, r. destruct (resolved_batches ops) as (bs & -> & _ & Hne).
  exists bs. split; [done|]. eapply wp_mono; [|by apply wp_WalkBatches].
  intros tr res Ho Hready Herr. eapply walk_outcome_complete; [exact Ho|done|done].
Qed.

(** With DAG ordering disabled nothing is gated: no readiness check is made and every
    batch is processed unless the callback fails. *)
Theorem WalkBatches_disabled :
  ∃ batches, (UnifiedRegistry.ResolvedBatches r).1 = Ok batches ∧
    wp (walk_of true) [] (λ tr res,
      (∀ name ready, EvReady name ready ∉ events tr) ∧
      ((∀ b e, EvProcess b (Some e) ∉ events tr) →
       res.1 = Walk.WalkRet 0 ∧ processed (events tr) = batches)).
Proof.
  unfold walk_of, r. destruct (resolved_batches ops) as (bs & -> & _ & Hne).
  exists bs. split; [done|]. eapply wp_mono; [|apply wp_and; [by apply wp_WalkBatches|apply wp_disabled_walk]].
  intros tr res [Ho Hno]. split; [done|]. intros Herr.
  destruct (walk_outcome_complete _ _ _ _ _ _ _ _ Ho (λ name, Hno name false) Herr) as (? & ? & _). done.
Qed.

End walk_properties.

(** ** The walk and the runlevel tracker together *)

Lemma elem_of_marks evs v o : (v, o) ∈ marks evs → ∃ e1 e2, evs = e1 ++ EvMark v o :: e2.
Proof.
  unfold marks. intros (ev & Hev & Hin)%list_elem_of_omap.
  destruct ev; simplify_eq. by apply list_elem_of_split.
Qed.

Lemma mark_all_reached v l o :
  v ≠ "" → (∀ w o', (w, o') ∈ l → w = v) → RunlevelTracker.IsCleared (mark_all l) v o = true →
  ∃ o', (v, o') ∈ l ∧ (o <= o')%Z.
Proof.
  intros Hv Hall Hc. assert (l = (λ o', (v, o')) <$> l.*2) as Hl.
  { clear Hc. induction l as [|[w o'] l IH]; [done|]. rewrite !fmap_cons. f_equal.
    - by rewrite (Hall w o' (list_elem_of_here _ _)).
    - apply IH. intros w' o'' Hin. eapply Hall. by right. }
  destruct (decide (l = [])) as [->|Hne].
  { apply andb_prop in Hc as [Hc _]. apply String.eqb_eq in Hc. by destruct Hv. }
  rewrite Hl in Hc. apply (IsCleared_run v l.*2 o) in Hc as (o' & Hin & Hle).
  - exists o'. split; [|done]. rewrite Hl, list_elem_of_fmap. eauto.
  - done.
  - intros Hnil. by apply fmap_nil_inv in Hnil.
Qed.

(** The promise the in-tree component controllers rely on. After a walk at a version on
    an empty tracker, a runlevel counts as cleared only if every enabled node of a lower
    runlevel passed at some moment of the walk. *)
Theorem WalkBatches_clears_only_passed policies instanceID version tracker0 ops :
  version ≠ "" →
  wp (walk_of policies instanceID version tracker0 ops false) [] (λ tr _,
    ∀ o, RunlevelTracker.IsCleared (mark_all (marks (events tr))) version o = true →
    ∀ m, UnifiedRegistry.nodes (foldl UnifiedRegistry.apply_op UnifiedRegistry.NewRegistry ops)
           !! un_name m = Some m →
      un_enabled m = true → (Order (un_runlevel m) < o)%Z →
      ∃ e1, e1 `prefix_of` events tr ∧ passed policies instanceID tracker0 e1 (un_name m)).
Proof.
  intros Hv. eapply wp_mono; [|apply walk_gates]. cbv beta. intros tr _ Hgate o Hc m Hm Hen Hlt.
  apply mark_all_reached in Hc as (o' & (e1 & e2 & Heq)%elem_of_marks & Hle); [|done|].
  - destruct (Hgate _ _ _ _ Heq) as (_ & b & err & e3 & _ & Hpass). exists e1. split.
    + rewrite Heq. by apply prefix_app_r.
    + apply Hpass; [done..|lia].
  - intros w o' (e1 & e2 & Heq)%elem_of_marks. by destruct (Hgate _ _ _ _ Heq).
Qed.

Lemma WalkBatches_clears_only_passed_witness :
  let ops := [UnifiedRegistry.OpAdd "kserve" KindModule (RL 20);
              UnifiedRegistry.OpAdd "operator" KindComponent (RL 10)] in
  wp (walk_of ∅ "default" "3.0" StuckTracker.New ops false) [] (λ tr _,
    ∀ o, RunlevelTracker.IsCleared (mark_all (marks (events tr))) "3.0" o = true →
    ∀ m, UnifiedRegistry.nodes (foldl UnifiedRegistry.apply_op UnifiedRegistry.NewRegistry ops)
           !! un_name m = Some m →
      un_enabled m = true → (Order (un_runlevel m) < o)%Z →
      ∃ e1, e1 `prefix_of` events tr ∧ passed ∅ "default" StuckTracker.New e1 (un_name m)).
Proof. apply WalkBatches_clears_only_passed. discriminate. Defined.

(** ** Runs *)

Module WalkRuns.
(** An environment with a fixed set of ready nodes and a clock that advances one minute per
    reading; the callback succeeds. *)
Definition env (ready : list string) (X : Type) (e : WalkE X) (clock : Z) : X * Z :=
  match e in WalkE X return X * Z with
  | IsReady name => ((bool_decide (name ∈ ready), None), clock)
  | Now => (clock, (clock + Minute)%Z)
  | SetCondition _ => (tt, clock)
  | MarkCleared _ _ => (tt, clock)
  | ProcessBatch _ => (None, clock)
  end.

Definition registry : list UnifiedRegistry.op :=
  [UnifiedRegistry.OpAdd "kserve" KindModule (RL 20);
   UnifiedRegistry.OpAdd "operator" KindComponent (RL 10);
   UnifiedRegistry.OpAdd "dashboard" KindModule (RL 20);
   UnifiedRegistry.OpAdd "extra" KindModule (RL 30);
   UnifiedRegistry.OpAdd "off" KindModule (RL 5);
   UnifiedRegistry.OpDisable "off"].

Definition run_walk (policies : gmap Z RunlevelPolicy) (ready : list string) (tracker : StuckTracker.t)
    : Walk.outcome * list (list string) * option event :=
  let '(res, _, tr) := run (env ready) (walk_of policies "default" "3.0" tracker registry false) 0%Z [] in
  (res.1, map (map un_name) (processed (events tr)), last (events tr)).

Example everything_ready :
  run_walk ∅ ["operator"; "kserve"; "dashboard"] StuckTracker.New =
  (Walk.WalkRet 0, [["operator"]; ["dashboard"; "kserve"]; ["extra"]],
   Some (EvCond Walk.progress_condition)).
Proof. by vm_compute. Qed.

Example waits_for_kserve :
  run_walk ∅ ["operator"; "dashboard"] StuckTracker.New =
  (Walk.WalkRet (9 * Minute), [["operator"]; ["dashboard"; "kserve"]],
   Some (EvCond (condition ConditionTypeProvisioningProgress ConditionFalse AwaitingReadinessReason
     "Waiting up to 10 minutes on kserve"))).
Proof. by vm_compute. Qed.

(** Stuck since before the walk: the runlevel gives up and its entries count as passed. *)
Example times_out :
  run_walk {[20%Z := MkPolicy Minute; 30%Z := MkPolicy Hour]} ["dashboard"; "kserve"]
    (StuckTracker.Mk {[("default", 20%Z) := (- Minute)%Z]}) =
  (Walk.WalkRet 0, [["operator"]; ["dashboard"; "kserve"]; ["extra"]],
   Some (EvProcess [MkNode "extra" KindModule (RL 30) true] None)).
Proof. by vm_compute. Qed.

(** A zero timeout means to block forever; the requeue that is asked for is negative. *)
Example zero_timeout_requeue :
  run_walk {[20%Z := MkPolicy 0]} [] StuckTracker.New =
  (Walk.WalkRet (- Minute), [["operator"]],
   Some (EvCond (condition ConditionTypeProvisioningProgress ConditionFalse AwaitingReadinessReason
     "Waiting up to indefinitely on operator"))).
Proof. by vm_compute. Qed.
End WalkRuns.
