(* ===== verification/Gates.v ===== *)
(** * Gates: admin acknowledgment of upgrades

    Models [pkg/controller/gates/gates.go] (Module [GateChecker]) and
    [pkg/controller/provision/gates_action.go]. Client calls are events of [GateE]. A
    successful [Get], [Create] or [Update] answers with the object the client leaves in the
    variable, which need not be what was sent. The embedded YAML files are a list whose
    contents the decoder (third-party code) has turned into documents. *)

From S2P Require Import Prelude Effects Conditions.

Definition UpgradeGateLabel : string := "platform.opendatahub.io/upgrade-gate".
Definition AcksConfigMap : string := "odh-upgrade-acks".
Definition ManagedByAnnotation : string := "platform.opendatahub.io/managed-by".

Notation StringMap := (gmap string string).

(** [m[k]] of a Go string map. *)
Definition get_str (m : StringMap) (k : string) : string := default "" (m !! k).

(** [maps.Copy dst src]. *)
Definition maps_Copy (dst src : StringMap) : StringMap := src ∪ dst.

(** The parts of a [corev1.ConfigMap] the code touches; nil maps are [None]. *)
Record ConfigMap := MkConfigMap {
  cm_name : string;
  cm_namespace : string;
  cm_annotations : StringMap;
  cm_labels : option StringMap;
  cm_data : option StringMap;
}.

Inductive GateE : Type → Type :=
| GetConfigMap (namespace name : string) : GateE (result ConfigMap)
| CreateConfigMap (cm : ConfigMap) : GateE (result ConfigMap)
| UpdateConfigMap (cm : ConfigMap) : GateE (result ConfigMap)
| ListConfigMaps (namespace : string) (labels : StringMap) : GateE (result (list ConfigMap))
| SetGateCondition (c : Condition) : GateE unit.

Record UnackedGate := MkGate { Key : string; Message : string }.

#[export] Instance UnackedGate_eq_dec : EqDecision UnackedGate.
Proof. solve_decision. Defined.

Definition version_prefix (version : string) : string := "ack-" +:+ version +:+ "-".

(** The loop that keeps the entries of a version. *)
Definition filter_version (entries : StringMap) (version : string) : StringMap :=
  filter (λ kv, has_prefix kv.1 (version_prefix version) = true) entries.

Definition data_of (cm : ConfigMap) : StringMap := default ∅ (cm_data cm).

Definition set_data (cm : ConfigMap) (data : StringMap) : ConfigMap :=
  MkConfigMap (cm_name cm) (cm_namespace cm) (cm_annotations cm) (cm_labels cm) (Some data).

(** One iteration of the loop that writes descriptions; the pair is [(cm.Data, dirty)]. *)
Definition describe (acc : StringMap * bool) (kv : string * string) : StringMap * bool :=
  if String.eqb (get_str acc.1 kv.1) "true" then acc
  else if negb (String.eqb (get_str acc.1 kv.1) kv.2) then (<[kv.1 := kv.2]> acc.1, true)
  else acc.

Module GateChecker.
Section checker.
Variable namespace : string.

Definition collectUnacked (cm : ConfigMap) (filtered : StringMap) : list UnackedGate :=
  sort_by Key
    (omap (λ kv, if negb (String.eqb (get_str (data_of cm) kv.1) "true")
                 then Some (MkGate kv.1 kv.2) else None) (map_to_list filtered)).

(** The ConfigMap created when there is none. *)
Definition new_acks (filtered : StringMap) : ConfigMap :=
  MkConfigMap AcksConfigMap namespace {[ManagedByAnnotation := "opendatahub-operator"]} None
    (Some (maps_Copy ∅ filtered)).

(** The part of [EnsureGates] after the ConfigMap was read. *)
Definition update_acks (cm : ConfigMap) (filtered : StringMap)
    : prog GateE (result (list UnackedGate)) :=
  let '(data, dirty) := foldl describe (data_of cm, false) (map_to_list filtered) in
  let cm' := set_data cm data in
  if dirty : bool then
    res ← trigger (UpdateConfigMap cm');
    match res with
    | Err err => mret (Err (wrapf "failed to update odh-upgrade-acks ConfigMap" err))
    | Ok cm'' => mret (Ok (collectUnacked cm'' filtered))
    end
  else mret (Ok (collectUnacked cm' filtered)).

(** The branch taken when there is no ConfigMap; another writer may win the race. *)
Definition create_acks (filtered : StringMap) : prog GateE (result (list UnackedGate)) :=
  created ← trigger (CreateConfigMap (new_acks filtered));
  match created with
  | Ok cm => mret (Ok (collectUnacked cm filtered))
  | Err createErr =>
      if negb (err_is TagAlreadyExists createErr) then
        mret (Err (wrapf "failed to create odh-upgrade-acks ConfigMap" createErr))
      else
        again ← trigger (GetConfigMap namespace AcksConfigMap);
        match again with
        | Err err' => mret (Err (wrapf "failed to get odh-upgrade-acks ConfigMap after race" err'))
        | Ok cm => update_acks cm filtered
        end
  end.

Definition EnsureGates (gateEntries : StringMap) (version : string)
    : prog GateE (result (list UnackedGate)) :=
  if String.eqb version "" then mret (Err (errorf "version must not be empty"))
  else
    let filtered := filter_version gateEntries version in
    if bool_decide (filtered = ∅) then mret (Ok [])
    else
      got ← trigger (GetConfigMap namespace AcksConfigMap);
      match got with
      | Ok cm => update_acks cm filtered
      | Err err =>
          if err_is TagNotFound err then create_acks filtered
          else mret (Err (wrapf "failed to get odh-upgrade-acks ConfigMap" err))
      end.

Definition DiscoverGates : prog GateE (result StringMap) :=
  listed ← trigger (ListConfigMaps namespace {[UpgradeGateLabel := "true"]});
  match listed with
  | Err err => mret (Err (wrapf "failed to list gate ConfigMaps" err))
  | Ok items => mret (Ok (foldl (λ res cm, maps_Copy res (data_of cm)) ∅ items))
  end.

End checker.
End GateChecker.

Definition IsGateConfigMap (cm : option ConfigMap) : bool :=
  match cm with
  | None => false
  | Some cm =>
      match cm_labels cm with
      | None => false
      | Some labels => String.eqb (get_str labels UpgradeGateLabel) "true"
      end
  end.

(** ** In-tree gates *)

(** What the YAML decoder yields from a file: documents up to the end or an error. *)
Inductive yaml_stream :=
| YamlEOF
| YamlError (e : goerr)
| YamlDoc (data : StringMap) (rest : yaml_stream).

Record dir_entry := MkEntry {
  de_name : string;
  de_isDir : bool;
  de_content : result yaml_stream;
}.

(** The decoding loop of one file. *)
Fixpoint decode_gates (prefix name : string) (s : yaml_stream) (acc : StringMap) : result StringMap :=
  match s with
  | YamlEOF => Ok acc
  | YamlError e => Err (wrapf ("failed to decode gate file " +:+ name) e)
  | YamlDoc data rest =>
      decode_gates prefix name rest (filter (λ kv, has_prefix kv.1 prefix = true) data ∪ acc)
  end.

Fixpoint load_entries (prefix : string) (entries : list dir_entry) (acc : StringMap) : result StringMap :=
  match entries with
  | [] => Ok acc
  | entry :: entries =>
      if de_isDir entry then load_entries prefix entries acc
      else
        match de_content entry with
        | Err e => Err (wrapf ("failed to read gate file " +:+ de_name entry) e)
        | Ok s =>
            acc' ← decode_gates prefix (de_name entry) s acc;
            load_entries prefix entries acc'
        end
  end.

Definition LoadInTreeGates (resources : result (list dir_entry)) (version : string) : result StringMap :=
  match resources with
  | Err e => Err (wrapf "failed to read embedded gate resources" e)
  | Ok entries => load_entries (version_prefix version) entries ∅
  end.

(** ** The actions ([gates_action.go]) *)

(** What the code uses of [unstructured.Unstructured], a third-party type. *)
Class RenderedResource (U : Type) := {
  res_GetKind : U → string;
  res_GetLabels : U → StringMap;
  res_NestedStringMap_data : U → result (option StringMap);
}.

Section extract.
Context {U : Type} `{RenderedResource U}.

Definition is_gate_resource (res : U) : bool :=
  String.eqb (res_GetKind res) "ConfigMap" &&
  String.eqb (get_str (res_GetLabels res) UpgradeGateLabel) "true".

(** One iteration; the pair is [(kept, rr.GateEntries)]. *)
Definition extract_step (acc : list U * option StringMap) (res : U) : list U * option StringMap :=
  if negb (is_gate_resource res) then (acc.1 ++ [res], acc.2)
  else
    let entries := default ∅ acc.2 in
    match res_NestedStringMap_data res with
    | Err _ => (acc.1 ++ [res], Some entries)
    | Ok None => (acc.1, Some entries)
    | Ok (Some data) => (acc.1, Some (maps_Copy entries data))
    end.

(** On [(rr.Resources, rr.GateEntries)]. *)
Definition ExtractUpgradeGates (resources : list U) (gateEntries : option StringMap)
    : list U * option StringMap :=
  let '(kept, entries) := foldl extract_step ([], gateEntries) resources in
  match entries with
  | Some _ => (kept, entries)
  | None => (resources, None)
  end.
End extract.

Definition gates_condition (keys : list string) : Condition :=
  condition ConditionTypeProvisioningProgress ConditionFalse AdminAckRequiredReason
    ("Upgrade gates not acknowledged: " +:+ join ", " keys).

(** The end of the check, on what [EnsureGates] returned. *)
Definition finish_gates (version : string) (unacked : result (list UnackedGate))
    : prog GateE (option action_error) :=
  match unacked with
  | Err err => mret (Some (ActionErr (wrapf "failed to ensure upgrade gates" err)))
  | Ok [] => mret None
  | Ok unacked =>
      let keys : list string := Key <$> unacked in
      trigger (SetGateCondition (gates_condition keys)) ;;
      mret (Some (StopError ("provisioning blocked: " +:+ itoa (Z.of_nat (length unacked)) +:+
        " unacknowledged upgrade gate(s) for version " +:+ version)))
  end.

Definition CheckUpgradeGatesInNamespace (resources : result (list dir_entry))
    (namespace version : string) (chartGates : StringMap) : prog GateE (option action_error) :=
  match LoadInTreeGates resources version with
  | Err err => mret (Some (ActionErr (wrapf "failed to load in-tree gates" err)))
  | Ok intreeGates =>
      let allGates := maps_Copy ∅ intreeGates in
      clusterGates ← GateChecker.DiscoverGates namespace;
      match clusterGates with
      | Err err => mret (Some (ActionErr (wrapf "failed to discover cluster gates" err)))
      | Ok clusterGates =>
          let allGates := maps_Copy (maps_Copy allGates clusterGates) chartGates in
          unacked ← GateChecker.EnsureGates namespace allGates version;
          finish_gates version unacked
      end
  end.

(** [cluster.GetOperatorNamespace]: the configured namespace, an error when it is empty. *)
Definition GetOperatorNamespace (configured : string) : result string :=
  if String.eqb configured "" then Err (errorf "unable to find operator namespace") else Ok configured.

Definition CheckUpgradeGates (resources : result (list dir_entry)) (configured version : string)
    (chartGates : StringMap) : prog GateE (option action_error) :=
  match GetOperatorNamespace configured with
  | Err err => mret (Some (ActionErr (wrapf "cannot check upgrade gates" err)))
  | Ok ns => CheckUpgradeGatesInNamespace resources ns version chartGates
  end.

(** ** What the client sees *)

Inductive gate_event :=
| EvGot (answer : result ConfigMap)
| EvCreated (sent : ConfigMap) (answer : result ConfigMap)
| EvUpdated (sent : ConfigMap) (answer : result ConfigMap)
| EvListed (answer : result (list ConfigMap))
| EvGateCond (c : Condition).

Definition gate_event_of (c : call GateE) : gate_event :=
  match c with
  | @Call _ X e x =>
      match e in GateE X return X → gate_event with
      | GetConfigMap _ _ => EvGot
      | CreateConfigMap sent => EvCreated sent
      | UpdateConfigMap sent => EvUpdated sent
      | ListConfigMaps _ _ => EvListed
      | SetGateCondition c => λ _, EvGateCond c
      end x
  end.

Definition gate_events (tr : list (call GateE)) : list gate_event := gate_event_of <$> tr.

Lemma gate_events_snoc tr c : gate_events (tr ++ [c]) = gate_events tr ++ [gate_event_of c].
Proof. unfold gate_events. by rewrite fmap_app. Qed.

(** The acks ConfigMap as the code last saw it. *)
Definition see_object (acc : option ConfigMap) (ev : gate_event) : option ConfigMap :=
  match ev with
  | EvGot (Ok cm) | EvCreated _ (Ok cm) | EvUpdated _ (Ok cm) => Some cm
  | _ => acc
  end.
Definition last_object (evs : list gate_event) : option ConfigMap := foldl see_object None evs.

Lemma last_object_snoc evs ev : last_object (evs ++ [ev]) = see_object (last_object evs) ev.
Proof. apply foldl_snoc. Qed.

Definition acked (cm : ConfigMap) (k : string) : Prop := get_str (data_of cm) k = "true".

#[export] Instance acked_dec cm k : Decision (acked cm k).
Proof. unfold acked. apply _. Defined.

(** The description a write leaves under [k]: acknowledged entries and entries of other
    versions or owners are untouched, the rest carry the gate's message. *)
Definition described (seen : ConfigMap) (filtered : StringMap) (k : string) : option string :=
  match filtered !! k with
  | None => data_of seen !! k
  | Some v => if bool_decide (acked seen k) then data_of seen !! k
              else if bool_decide (get_str (data_of seen) k = v) then data_of seen !! k
              else Some v
  end.

(** [sent] is a legitimate update of [seen]. *)
Definition updates (seen : ConfigMap) (filtered : StringMap) (sent : ConfigMap) : Prop :=
  sent = set_data seen (data_of sent) ∧ ∀ k, data_of sent !! k = described seen filtered k.

Lemma describe_fold (l : list (string * string)) data dirty k :
  NoDup l.*1 →
  (foldl describe (data, dirty) l).1 !! k =
    match (list_to_map l : StringMap) !! k with
    | None => data !! k
    | Some v => if bool_decide (get_str data k = "true") then data !! k
                else if bool_decide (get_str data k = v) then data !! k else Some v
    end.
Proof.
  revert data dirty. induction l as [|[k1 v1] l IH]; intros data dirty; [done|].
  rewrite fmap_cons, NoDup_cons. intros [Hnotin Hnd]. cbn [foldl fst] in *.
  rewrite (surjective_pairing (describe (data, dirty) (k1, v1))), IH by done.
  set (acc := describe (data, dirty) (k1, v1)).
  assert (∀ k2, k2 ≠ k1 → acc.1 !! k2 = data !! k2) as Hother.
  { intros k2 Hne. unfold acc, describe. cbn [fst snd]. repeat case_match; try done;
      simpl; by rewrite ?lookup_insert_ne. }
  cbn [list_to_map foldr curry uncurry]. destruct (decide (k = k1)) as [->|Hne].
  - rewrite lookup_insert_eq. rewrite (proj1 (not_elem_of_list_to_map _ _) Hnotin).
    unfold acc, describe. cbn [fst snd].
    destruct (String.eqb_spec (get_str data k1) "true"), (String.eqb_spec (get_str data k1) v1);
      cbn [negb fst]; repeat case_bool_decide; try done. apply lookup_insert_eq.
  - rewrite lookup_insert_ne by done. unfold get_str. by rewrite Hother.
Qed.

Lemma describe_clean l data :
  (foldl describe (data, false) l).2 = false → (foldl describe (data, false) l).1 = data.
Proof.
  assert (∀ l acc, (foldl describe acc l).2 = false → acc.2 = false) as Hmono.
  { clear. intros l. induction l as [|kv l IH]; intros acc Hl; [done|]. apply IH in Hl. unfold describe in Hl.
    by repeat case_match. }
  revert data. induction l as [|kv l IH]; intros data; [done|]. cbn [foldl]. intros Hl.
  pose proof (Hmono _ _ Hl) as Hl2. unfold describe in Hl2 at 1. cbn [fst snd] in Hl2.
  assert (describe (data, false) kv = (data, false)) as Hkv.
  { unfold describe. cbn [fst snd] in *. by repeat case_match. }
  rewrite Hkv in *. by apply IH.
Qed.

Section ensure.
Import GateChecker.
Variable namespace : string.

Lemma elem_of_collectUnacked cm filtered g :
  g ∈ collectUnacked cm filtered ↔ filtered !! Key g = Some (Message g) ∧ ¬ acked cm (Key g).
Proof.
  unfold collectUnacked, acked. rewrite sort_by_perm, list_elem_of_omap. split.
  - intros ([k v] & Hin%elem_of_map_to_list & Hg). simpl in Hg.
    destruct (String.eqb_spec (get_str (data_of cm) k) "true"); simplify_eq/=. done.
  - intros [Hf Hna]. exists (Key g, Message g). split; [by apply elem_of_map_to_list|]. simpl.
    destruct (String.eqb_spec (get_str (data_of cm) (Key g)) "true"); [done|]. by destruct g.
Qed.

Lemma collectUnacked_sorted cm filtered : StronglySorted (key_le Key) (collectUnacked cm filtered).
Proof. apply sort_by_sorted. Qed.

Lemma collectUnacked_ext cm cm' filtered :
  data_of cm = data_of cm' → collectUnacked cm filtered = collectUnacked cm' filtered.
Proof. unfold collectUnacked. by intros ->. Qed.

(** A write follows the rules: a creation only when the read just before found no
    ConfigMap, with exactly the descriptions; an update only of the object just read. *)
Definition write_ok (filtered : StringMap) (before : list gate_event) (ev : gate_event) : Prop :=
  match ev with
  | EvUpdated sent _ => ∃ seen, last before = Some (EvGot (Ok seen)) ∧ updates seen filtered sent
  | EvCreated sent _ =>
      ∃ err, last before = Some (EvGot (Err err)) ∧ err_is TagNotFound err = true ∧
        sent = new_acks namespace filtered
  | EvGateCond _ => False
  | _ => True
  end.

Definition trace_ok (filtered : StringMap) (evs : list gate_event) : Prop :=
  each_after (write_ok filtered) evs.

(** The answer of [EnsureGates] once the filtered entries are not empty. *)
Definition ensure_post (filtered : StringMap) (evs : list gate_event)
    (res : result (list UnackedGate)) : Prop :=
  trace_ok filtered evs ∧
  match res with
  | Err _ => True
  | Ok unacked =>
      filtered = ∅ ∧ unacked = [] ∨
      ∃ cm, last_object evs = Some cm ∧ unacked = collectUnacked cm filtered
  end.

Lemma update_acks_spec cm filtered :
  let '(data, dirty) := foldl describe (data_of cm, false) (map_to_list filtered) in
  updates cm filtered (set_data cm data) ∧ (dirty = false → data = data_of cm).
Proof.
  destruct (foldl describe _ _) as [data dirty] eqn:Hfold. split.
  - split; [done|]. intros k. unfold described. simpl.
    pose proof (describe_fold (map_to_list filtered) (data_of cm) false k) as Hk.
    rewrite Hfold, list_to_map_to_list in Hk. apply Hk, NoDup_fst_map_to_list.
  - intros ->. pose proof (describe_clean (map_to_list filtered) (data_of cm)) as Hc.
    rewrite Hfold in Hc. by apply Hc.
Qed.

Lemma trace_ok_no_condition filtered evs c : trace_ok filtered evs → EvGateCond c ∉ evs.
Proof. intros Hok (e1 & e2 & ->)%list_elem_of_split. by apply (Hok e1 (EvGateCond c) e2). Qed.

Lemma wp_update_acks cm filtered tr :
  trace_ok filtered (gate_events tr) → last (gate_events tr) = Some (EvGot (Ok cm)) →
  last_object (gate_events tr) = Some cm →
  wp (update_acks cm filtered) tr (λ tr' res, ensure_post filtered (gate_events tr') res).
Proof.
  intros Hok Hlast Hobj. unfold update_acks. pose proof (update_acks_spec cm filtered) as Hspec.
  destruct (foldl describe _ _) as [data dirty]. destruct Hspec as [Hup Hclean]. destruct dirty.
  - apply wp_bind, wp_call. intros r.
    assert (trace_ok filtered (gate_events tr ++ [EvUpdated (set_data cm data) r])) as Hok'.
    { apply each_after_snoc; [done|]. simpl. eauto. }
    destruct r as [cm''|err]; apply wp_ret; rewrite gate_events_snoc; (split; [done|]); [|done].
    right. exists cm''. by rewrite last_object_snoc.
  - apply wp_ret. split; [done|]. right. exists cm. split; [done|].
    apply collectUnacked_ext. by rewrite Hclean.
Qed.

(** The branch that found no ConfigMap. *)
Lemma wp_create_acks filtered err tr :
  trace_ok filtered (gate_events tr) → last (gate_events tr) = Some (EvGot (Err err)) →
  err_is TagNotFound err = true →
  wp (create_acks namespace filtered) tr (λ tr' res, ensure_post filtered (gate_events tr') res).
Proof.
  intros Hok Hlast Herr. apply wp_bind, wp_call. intros created.
  set (tr1 := tr ++ _). assert (trace_ok filtered (gate_events tr1)) as Hok1.
  { unfold tr1. rewrite gate_events_snoc. apply each_after_snoc; [done|]. simpl. eauto. }
  destruct created as [cm|createErr].
  { apply wp_ret. split; [done|]. right. exists cm. unfold tr1. by rewrite gate_events_snoc, last_object_snoc. }
  destruct (negb _); [by apply wp_ret|]. apply wp_bind, wp_call. intros again.
  assert (trace_ok filtered (gate_events tr1 ++ [EvGot again])) as Hok2; [by apply each_after_snoc|].
  destruct again as [cm|err'].
  - apply wp_update_acks; rewrite gate_events_snoc; [done|apply last_snoc|apply last_object_snoc].
  - apply wp_ret. by rewrite gate_events_snoc.
Qed.

Lemma wp_EnsureGates entries version tr :
  trace_ok (filter_version entries version) (gate_events tr) →
  wp (EnsureGates namespace entries version) tr (λ tr' res,
    ensure_post (filter_version entries version) (gate_events tr') res).
Proof.
  intros Hok. unfold EnsureGates. destruct (String.eqb version ""); [by apply wp_ret|].
  case_bool_decide as Hempty; [apply wp_ret; split; [done|by left]|].
  apply wp_bind, wp_call. intros got.
  assert (trace_ok (filter_version entries version) (gate_events tr ++ [EvGot got])) as Hok1;
    [by apply each_after_snoc|].
  destruct got as [cm|err].
  - apply wp_update_acks; rewrite gate_events_snoc; [done|apply last_snoc|apply last_object_snoc].
  - destruct (err_is TagNotFound err) eqn:Hnf.
    + eapply wp_create_acks; [by rewrite gate_events_snoc|rewrite gate_events_snoc; apply last_snoc|done].
    + apply wp_ret. by rewrite gate_events_snoc.
Qed.

End ensure.

(** ** Properties of the gates *)

(** C16: the admin's acknowledgments are safe. Every write [EnsureGates] makes is either the
    creation of a ConfigMap the read just before did not find, holding exactly the version's
    descriptions, or an update of the object just read that keeps every acknowledged entry
    and every entry that is not a gate of this version, and sets the others to the gate's
    message. *)
Theorem EnsureGates_preserves_acks namespace entries version :
  wp (GateChecker.EnsureGates namespace entries version) [] (λ tr _,
    ∀ e1 sent answer e2,
      (gate_events tr = e1 ++ EvUpdated sent answer :: e2 →
         ∃ seen, last e1 = Some (EvGot (Ok seen)) ∧
           sent = set_data seen (data_of sent) ∧
           (∀ k, acked seen k → acked sent k) ∧
           (∀ k, filter_version entries version !! k = None → data_of sent !! k = data_of seen !! k) ∧
           (∀ k v, filter_version entries version !! k = Some v → ¬ acked seen k →
              get_str (data_of sent) k = v)) ∧
      (gate_events tr = e1 ++ EvCreated sent answer :: e2 →
         (∃ err, last e1 = Some (EvGot (Err err)) ∧ err_is TagNotFound err = true) ∧
         data_of sent = filter_version entries version)).
Proof.
  eapply wp_mono; [|apply wp_EnsureGates, each_after_nil].
  intros tr res [Hok _] e1 sent answer e2. split; intros Heq; apply Hok in Heq as Hev; simpl in Hev.
  - destruct Hev as (seen & Hlast & Hsent & Hk). exists seen. split; [done|]. split; [done|].
    unfold described in Hk. split_and!.
    + intros k Ha. change (default "" (data_of sent !! k) = "true"). rewrite Hk.
      destruct (filter_version entries version !! k); [rewrite bool_decide_eq_true_2 by done|]; exact Ha.
    + intros k Hnone. by rewrite Hk, Hnone.
    + intros k v Hv Hna. unfold get_str at 1. rewrite Hk, Hv, bool_decide_eq_false_2 by done.
      by case_bool_decide.
  - destruct Hev as (err & Hlast & Herr & ->). split; [eauto|]. simpl. apply map_union_empty.
Qed.

(** What [EnsureGates] reports is exact: the returned gates are the entries of the
    version whose value, in the ConfigMap as it was last read or written, is not the string
    true; they are sorted by key. *)
Theorem EnsureGates_reports namespace entries version :
  wp (GateChecker.EnsureGates namespace entries version) [] (λ tr res,
    match res with
    | Err _ => True
    | Ok unacked =>
        StronglySorted (key_le Key) unacked ∧
        (filter_version entries version ≠ ∅ → ∃ cm, last_object (gate_events tr) = Some cm ∧
         ∀ g, g ∈ unacked ↔
           filter_version entries version !! Key g = Some (Message g) ∧ ¬ acked cm (Key g)) ∧
        (filter_version entries version = ∅ → unacked = [])
    end).
Proof.
  eapply wp_mono; [|apply wp_EnsureGates, each_after_nil].
  intros tr [unacked|err] [_ Hres]; [|done]. destruct Hres as [[Hempty ->]|(cm & Hobj & ->)].
  - split; [constructor|]. by split.
  - split; [apply collectUnacked_sorted|]. split.
    + intros _. exists cm. split; [done|]. intros g. apply elem_of_collectUnacked.
    + intros Hempty. destruct (GateChecker.collectUnacked cm _) as [|g gs] eqn:Hc; [done|].
      assert (g ∈ GateChecker.collectUnacked cm (filter_version entries version)) as Hg;
        [rewrite Hc; by left|].
      apply elem_of_collectUnacked in Hg as [Hg _]. by rewrite Hempty, lookup_empty in Hg.
Qed.

(** The gates of all sources; charts win over the cluster, the cluster over the tree. *)
Definition merged_gates (intree : StringMap) (items : list ConfigMap) (chart : StringMap) : StringMap :=
  chart ∪ (foldl (λ res cm, data_of cm ∪ res) ∅ items ∪ intree).

(** How the gate check ends: [None] lets provisioning go on. *)
Definition gate_check_post (resources : result (list dir_entry)) (version : string)
    (chartGates : StringMap) (evs : list gate_event) (res : option action_error) : Prop :=
  match res with
  | None =>
      ∃ intree items, LoadInTreeGates resources version = Ok intree ∧ EvListed (Ok items) ∈ evs ∧
        (∀ c, EvGateCond c ∉ evs) ∧
        (filter_version (merged_gates intree items chartGates) version = ∅ ∨
         ∃ cm, last_object evs = Some cm ∧
           ∀ k, is_Some (filter_version (merged_gates intree items chartGates) version !! k) → acked cm k)
  | Some (StopError _) =>
      ∃ intree items keys cm, LoadInTreeGates resources version = Ok intree ∧
        EvListed (Ok items) ∈ evs ∧ keys ≠ [] ∧ last evs = Some (EvGateCond (gates_condition keys)) ∧
        last_object evs = Some cm ∧
        ∀ k, k ∈ keys ↔
          is_Some (filter_version (merged_gates intree items chartGates) version !! k) ∧ ¬ acked cm k
  | Some (ActionErr _) => ∀ c, EvGateCond c ∉ evs
  | Some (RequeueAfterError _) => False
  end.

Lemma elem_of_unacked_keys cm filtered k :
  k ∈ Key <$> GateChecker.collectUnacked cm filtered ↔ is_Some (filtered !! k) ∧ ¬ acked cm k.
Proof.
  rewrite list_elem_of_fmap. split.
  - intros (g & -> & [Hf Hna]%elem_of_collectUnacked). split; [by eexists|done].
  - intros [[v Hv] Hna]. exists (MkGate k v). split; [done|]. by apply elem_of_collectUnacked.
Qed.

Lemma wp_after_discovery resources namespace version chartGates intree items tr :
  LoadInTreeGates resources version = Ok intree → gate_events tr = [EvListed (Ok items)] →
  wp (unacked ← GateChecker.EnsureGates namespace (merged_gates intree items chartGates) version;
      finish_gates version unacked) tr
    (λ tr' res, gate_check_post resources version chartGates (gate_events tr') res).
Proof.
  intros Hload Htr. set (filtered := filter_version (merged_gates intree items chartGates) version).
  apply wp_bind. eapply wp_mono; [|apply wp_and; [apply (wp_EnsureGates namespace)|apply wp_prefix]].
  2:{ rewrite Htr. apply (each_after_snoc _ []); [apply each_after_nil|done]. }
  intros tr' res [[Hok Hres] [new Hnew]].
  assert (EvListed (Ok items) ∈ gate_events tr') as Hlisted.
  { rewrite Hnew. unfold gate_events. rewrite fmap_app. apply elem_of_app. left.
    change (EvListed (Ok items) ∈ gate_events tr). rewrite Htr. by left. }
  assert (∀ c, EvGateCond c ∉ gate_events tr') as Hno; [intros c; by eapply trace_ok_no_condition|].
  destruct res as [[|g gs]|err]; cbn [finish_gates].
  - apply wp_ret. exists intree, items. split; [done|]. split; [done|]. split; [done|].
    destruct Hres as [[? _]|(cm & Hobj & Hc)]; [by left|right]. exists cm. split; [done|].
    intros k Hk. destruct (decide (acked cm k)) as [|Hna]; [done|].
    assert (k ∈ Key <$> GateChecker.collectUnacked cm filtered) as Hin; [by apply elem_of_unacked_keys|].
    unfold filtered in Hin. rewrite <-Hc in Hin. by apply elem_of_nil in Hin.
  - apply wp_bind, wp_call. intros []. apply wp_ret. rewrite gate_events_snoc.
    destruct Hres as [[_ ?]|(cm & Hobj & Hc)]; [done|].
    exists intree, items, (Key <$> g :: gs), cm. split; [done|]. split; [apply elem_of_app; by left|].
    split; [done|]. split; [apply last_snoc|]. split; [by rewrite last_object_snoc|].
    intros k. rewrite Hc. apply elem_of_unacked_keys.
  - by apply wp_ret.
Qed.

(** C17: an upgrade is let through exactly when it was acknowledged. The check returns without
    an error only if every gate of this version, merged from the tree, the labelled
    ConfigMaps and the charts, reads true in the acks ConfigMap; it stops the reconciliation
    only for gates that do not, after writing the condition that lists precisely those; no
    condition is written in the other cases. *)
Theorem CheckUpgradeGates_blocks resources namespace version chartGates :
  wp (CheckUpgradeGatesInNamespace resources namespace version chartGates) [] (λ tr res,
    gate_check_post resources version chartGates (gate_events tr) res).
Proof.
  unfold CheckUpgradeGatesInNamespace. destruct (LoadInTreeGates resources version) as [intree|err] eqn:Hload.
  2:{ apply wp_ret. by intros c []%elem_of_nil. }
  apply wp_bind. unfold GateChecker.DiscoverGates. apply wp_bind, wp_call.
  intros [items|err]; apply wp_ret.
  - replace (maps_Copy _ chartGates) with (merged_gates intree items chartGates);
      [by eapply wp_after_discovery|].
    unfold merged_gates, maps_Copy. by rewrite (map_union_empty intree).
  - apply wp_ret. intros c [?|?]%elem_of_cons; [done|by eapply elem_of_nil].
Qed.

Section extract_properties.
Context {U : Type} `{RenderedResource U}.

(** Gate ConfigMaps whose data can be read leave the rendered resources. *)
Definition kept_resource (res : U) : bool :=
  negb (is_gate_resource res) || negb (is_ok (res_NestedStringMap_data res)).

Definition gate_data (res : U) : option StringMap :=
  if is_gate_resource res then
    match res_NestedStringMap_data res with Ok data => data | Err _ => None end
  else None.

Lemma extract_fold_kept (resources : list U) acc :
  (foldl extract_step acc resources).1 = acc.1 ++ filter (λ r, kept_resource r = true) resources.
Proof.
  revert acc. induction resources as [|r rs IH]; intros acc; [by rewrite app_nil_r|].
  cbn [foldl]. rewrite IH, filter_cons. unfold extract_step, kept_resource.
  destruct (is_gate_resource r), (res_NestedStringMap_data r) as [[data|]|e]; simpl;
    by rewrite <-?app_assoc.
Qed.

Lemma extract_fold_entries (resources : list U) acc :
  default ∅ (foldl extract_step acc resources).2 =
  foldl maps_Copy (default ∅ acc.2) (omap gate_data resources).
Proof.
  revert acc. induction resources as [|r rs IH]; intros acc; [done|].
  cbn [foldl omap list_omap]. rewrite IH. unfold extract_step, gate_data.
  by destruct (is_gate_resource r), (res_NestedStringMap_data r) as [[data|]|e].
Qed.

Lemma extract_fold_none (resources : list U) acc :
  (foldl extract_step acc resources).2 = None ↔
  acc.2 = None ∧ Forall (λ r, is_gate_resource r = false) resources.
Proof.
  revert acc. induction resources as [|r rs IH]; intros acc; cbn [foldl].
  - split; [by intros ->|by intros []].
  - rewrite IH, Forall_cons. unfold extract_step.
    destruct (is_gate_resource r), (res_NestedStringMap_data r) as [[data|]|e]; simpl;
      (split; [intros [??]|intros (?&?&?)]); try done.
Qed.

(** Extraction is a partition. The resources left to deploy are the ones that are not
    gate ConfigMaps with readable data, in their order; the gate entries are the previous
    ones overridden by the data of the extracted ConfigMaps, later ones winning; without
    previous entries and without gate ConfigMaps nothing is recorded. *)
Theorem ExtractUpgradeGates_partitions (resources : list U) (entries : option StringMap) :
  let res := ExtractUpgradeGates resources entries in
  res.1 = filter (λ r, kept_resource r = true) resources ∧
  default ∅ res.2 = foldl maps_Copy (default ∅ entries) (omap gate_data resources) ∧
  (res.2 = None ↔ entries = None ∧ Forall (λ r, is_gate_resource r = false) resources).
Proof.
  intros res. unfold res, ExtractUpgradeGates.
  pose proof (extract_fold_kept resources ([], entries)) as Hkept.
  pose proof (extract_fold_entries resources ([], entries)) as Hentries.
  pose proof (extract_fold_none resources ([], entries)) as Hnone.
  destruct (foldl extract_step _ _) as [kept out]. simpl in *. destruct out as [m|]; [done|].
  split; [|done]. subst kept. destruct Hnone as [[_ Hall] _]; [done|]. clear -Hall.
  induction Hall as [|r rs Hr _ IH]; [done|]. rewrite filter_cons, decide_True by (unfold kept_resource; by rewrite Hr).
  cbn [fst] in *. by rewrite <-IH.
Qed.

End extract_properties.

(** ** An API server with one ConfigMap *)

(** [Create] refuses an existing object; everything else succeeds. *)
Definition store (X : Type) (e : GateE X) (st : option ConfigMap) : X * option ConfigMap :=
  match e in GateE X return X * option ConfigMap with
  | GetConfigMap _ _ =>
      (match st with Some cm => Ok cm | None => Err (Goerr "not found" [TagNotFound]) end, st)
  | CreateConfigMap cm =>
      match st with
      | None => (Ok cm, Some cm)
      | Some _ => (Err (Goerr "already exists" [TagAlreadyExists]), st)
      end
  | UpdateConfigMap cm => (Ok cm, Some cm)
  | ListConfigMaps _ _ => (Ok [], st)
  | SetGateCondition _ => (tt, st)
  end.

Definition writes (evs : list gate_event) : list gate_event :=
  filter (λ ev, match ev with EvCreated _ _ | EvUpdated _ _ => true | _ => false end = true) evs.

Lemma described_clean (l : list (string * string)) data :
  (∀ k v, (k, v) ∈ l → get_str data k = "true" ∨ get_str data k = v) →
  foldl describe (data, false) l = (data, false).
Proof.
  induction l as [|[k v] l IH]; intros Hl; [done|]. cbn [foldl].
  assert (describe (data, false) (k, v) = (data, false)) as ->.
  { unfold describe. cbn [fst snd]. destruct (Hl k v) as [->| ->]; [by left|done|].
    rewrite String.eqb_refl. by case_match. }
  apply IH. intros k' v' ?. apply Hl. by right.
Qed.

(** A ConfigMap on which [EnsureGates] has nothing to write. *)
Definition settled (filtered : StringMap) (cm : ConfigMap) : Prop :=
  ∀ k v, filtered !! k = Some v → acked cm k ∨ get_str (data_of cm) k = v.

Lemma updates_settled seen filtered sent :
  (∀ k, data_of sent !! k = described seen filtered k) → settled filtered sent.
Proof.
  intros Hk k v Hv. unfold acked, get_str. rewrite Hk. unfold described.
  rewrite Hv. case_bool_decide as Ha; [by left|]. case_bool_decide; by right.
Qed.

Section idempotence.
Import GateChecker.
Variables (namespace version : string) (entries : StringMap).

Let filtered := filter_version entries version.
Let ensure := EnsureGates namespace entries version.

(** What one run on the store leads to. *)
Lemma ensure_settles st :
  version ≠ "" → filtered ≠ ∅ →
  ∃ cm tr, run store ensure st [] = (Ok (collectUnacked cm filtered), Some cm, tr) ∧
    settled filtered cm.
Proof.
  intros Hv Hne. unfold ensure, EnsureGates. rewrite (proj2 (String.eqb_neq _ _) Hv).
  fold filtered. rewrite bool_decide_eq_false_2 by done. destruct st as [seen|]; simpl.
  - unfold update_acks. pose proof (update_acks_spec seen filtered) as Hspec.
    destruct (foldl describe _ _) as [data dirty]. destruct Hspec as [[_ Hup] Hclean]. destruct dirty; simpl.
    + eexists _, _. split; [done|]. by apply (updates_settled seen).
    + eexists seen, _. rewrite (Hclean eq_refl) in *. split; [|by apply (updates_settled seen)].
      do 3 f_equal.
  - eexists _, _. split; [done|]. intros k v Hk. right.
    change (default "" ((filtered ∪ ∅) !! k) = v). by rewrite map_union_empty, Hk.
Qed.

(** What a run on a settled ConfigMap does: one read. *)
Lemma ensure_settled cm :
  version ≠ "" → filtered ≠ ∅ → settled filtered cm →
  run store ensure (Some cm) [] =
    (Ok (collectUnacked cm filtered), Some cm, [Call (GetConfigMap namespace AcksConfigMap) (Ok cm)]).
Proof.
  intros Hv Hne Hs. unfold ensure, EnsureGates. rewrite (proj2 (String.eqb_neq _ _) Hv).
  fold filtered. rewrite bool_decide_eq_false_2 by done. simpl. unfold update_acks.
  rewrite described_clean by (intros k v Hin%elem_of_map_to_list; by apply Hs).
  simpl. do 3 f_equal.
Qed.
End idempotence.

(** A second check right after the first changes nothing: on an API server without other
    writers it makes no write, leaves the ConfigMap as it is and reports the same gates. *)
Theorem EnsureGates_idempotent namespace entries version (st : option ConfigMap) :
  let ensure := GateChecker.EnsureGates namespace entries version in
  let '(res1, st1, _) := run store ensure st [] in
  let '(res2, st2, tr2) := run store ensure st1 [] in
  res2 = res1 ∧ st2 = st1 ∧ writes (gate_events tr2) = [].
Proof.
  intros ensure. destruct (decide (version = "")) as [->|Hv]; [done|].
  destruct (decide (filter_version entries version = ∅)) as [Hempty|Hne].
  - unfold ensure, GateChecker.EnsureGates. rewrite (proj2 (String.eqb_neq _ _) Hv).
    by rewrite bool_decide_eq_true_2.
  - destruct (ensure_settles namespace version entries st Hv Hne) as (cm & tr & Hrun & Hs).
    unfold ensure. rewrite Hrun. by rewrite ensure_settled.
Qed.

Example gate_run :
  let '(res, st, _) := run store (GateChecker.EnsureGates "ns"
    {["ack-3.0-a" := "drop the old CRDs"; "ack-3.0-b" := "back up"; "ack-2.9-c" := "old"]} "3.0")
    (Some (MkConfigMap AcksConfigMap "ns" ∅ None (Some {["ack-3.0-b" := "true"; "x" := "y"]}))) [] in
  res = Ok [MkGate "ack-3.0-a" "drop the old CRDs"] ∧
  data_of <$> st = Some {["ack-3.0-a" := "drop the old CRDs"; "ack-3.0-b" := "true"; "x" := "y"]}.
Proof. by vm_compute. Qed.
