(* ===== verification/Unstructured.v ===== *)
(** * Unstructured: dynamic Kubernetes objects as the code reads them

    Go's [any] values are [value]. The accessors [unstructured.NestedString] and so on
    belong to the apimachinery library, so they are the fields of the class [Nested]; the
    instance [nested_documented] follows their documentation and is what examples and
    witnesses use. The metadata getters are fields of [Unstructured]. *)

From S2P Require Import Prelude.

(** [any], as decoded from JSON. A float is represented by its conversion to [int64], the
    only use the code makes of one. *)
Inductive value :=
| VNull
| VBool (b : bool)
| VInt (z : Z)
| VFloat (trunc : Z)
| VString (s : string)
| VSlice (l : list value)
| VMap (m : list (string * value)).

(** [map[string]any]; keys are distinct. *)
Notation value_map := (list (string * value)).

(** [m[k]]: [nil] when absent. *)
Fixpoint map_get (m : value_map) (k : string) : value :=
  match m with
  | [] => VNull
  | (k', v) :: m => if String.eqb k' k then v else map_get m k
  end.

(** [_, ok := m[k]]. *)
Definition map_has (m : value_map) (k : string) : bool := existsb (λ kv, String.eqb kv.1 k) m.

(** [m[k] = v]. *)
Fixpoint map_set (m : value_map) (k : string) (v : value) : value_map :=
  match m with
  | [] => [(k, v)]
  | (k', v') :: m => if String.eqb k' k then (k, v) :: m else (k', v') :: map_set m k v
  end.

(** [delete(m, k)]. *)
Definition map_delete (m : value_map) (k : string) : value_map := filter (λ kv, kv.1 ≠ k) m.

(** [v, ok := m[k].(string)], as the value or nothing. *)
Definition as_string (v : value) : option string :=
  match v with VString s => Some s | _ => None end.

(** [v, ok := v.(map[string]any)]. *)
Definition as_map (v : value) : option value_map :=
  match v with VMap m => Some m | _ => None end.

Record GroupVersionKind := MkGVK { gvk_Group : string; gvk_Version : string; gvk_Kind : string }.

#[export] Instance GroupVersionKind_eq_dec : EqDecision GroupVersionKind.
Proof. solve_decision. Defined.

Record Unstructured := MkUnstructured {
  u_gvk : GroupVersionKind;
  u_name : string;
  u_namespace : string;
  u_generation : Z;
  u_deleting : bool;
  u_object : value_map;
}.

(** [None]: not found; an error: a value on the path has another type. *)
Class Nested := {
  NestedSlice : value_map → list string → result (option (list value));
  NestedString : value_map → list string → result (option string);
  NestedInt64 : value_map → list string → result (option Z);
}.

(** The setters. An error leaves the object as it was; the values are deep copies. *)
Class NestedWrite := {
  SetNestedSlice : value_map → list value → list string → result value_map;
  NestedStringMap : value_map → list string → result (option (gmap string string));
  SetNestedStringMap : value_map → gmap string string → list string → result value_map;
}.

(** What the code relies on: a slice or a map that was found can be replaced, what was set
    is found, and siblings are left alone. *)
Class NestedLaws `{Nested, NestedWrite} := {
  slice_found_set m path l l' :
    NestedSlice m path = Ok (Some l) → ∃ m', SetNestedSlice m l' path = Ok m';
  slice_set_get m path l m' : SetNestedSlice m l path = Ok m' → NestedSlice m' path = Ok (Some l);
  slice_set_other m path k k' l m' : k ≠ k' →
    SetNestedSlice m l (path ++ [k]) = Ok m' → NestedSlice m' (path ++ [k']) = NestedSlice m (path ++ [k']);
  string_map_set m k d : ∃ m', SetNestedStringMap m d [k] = Ok m' ∧ NestedStringMap m' [k] = Ok (Some d);
}.

(** [s, _, _ := unstructured.NestedString(...)]: the zero value unless found. *)
Definition nested_string `{Nested} (m : value_map) (path : list string) : string :=
  match NestedString m path with Ok (Some s) => s | _ => "" end.

Definition nested_int64 `{Nested} (m : value_map) (path : list string) : Z :=
  match NestedInt64 m path with Ok (Some z) => z | _ => 0%Z end.

(** ** The documented behaviour *)

Fixpoint nested_field (m : value_map) (path : list string) : result (option value) :=
  match path with
  | [] => Ok (Some (VMap m))
  | [k] => match map_get m k with VNull => Ok None | v => Ok (Some v) end
  | k :: path =>
      match map_get m k with
      | VNull => Ok None
      | VMap m' => nested_field m' path
      | _ => Err (errorf "accessor error: the value is not a map")
      end
  end.

Definition nested_typed {A} (get : value → option A) (m : value_map) (path : list string)
    : result (option A) :=
  found ← nested_field m path;
  match found with
  | None => Ok None
  | Some v => match get v with
              | Some a => Ok (Some a)
              | None => Err (errorf "accessor error: the value has another type")
              end
  end.

Definition nested_documented : Nested := {|
  NestedSlice := nested_typed (λ v, match v with VSlice l => Some l | _ => None end);
  NestedString := nested_typed as_string;
  NestedInt64 := nested_typed (λ v, match v with VInt z => Some z | _ => None end);
|}.

Fixpoint set_nested (m : value_map) (path : list string) (v : value) : result value_map :=
  match path with
  | [] => Err (errorf "no field")
  | [k] => Ok (map_set m k v)
  | k :: path =>
      match map_get m k with
      | VMap m' => m'' ← set_nested m' path v; Ok (map_set m k (VMap m''))
      | _ => if map_has m k then Err (errorf "value cannot be set because the field is not a map")
             else m'' ← set_nested [] path v; Ok (map_set m k (VMap m''))
      end
  end.

Definition string_map_of (v : value) : option (gmap string string) :=
  m ← as_map v;
  l ← mapM (λ kv : string * value, s ← as_string kv.2; Some (kv.1, s)) m;
  Some (list_to_map l).

Definition nested_write_documented : NestedWrite := {|
  SetNestedSlice m l path := set_nested m path (VSlice l);
  NestedStringMap := nested_typed string_map_of;
  SetNestedStringMap m d path := set_nested m path (VMap (prod_map id VString <$> map_to_list d));
|}.

(** ** Lemmas *)

Lemma map_get_set m k v k' : map_get (map_set m k v) k' = if String.eqb k k' then v else map_get m k'.
Proof.
  induction m as [|[j w] m IH]; simpl; [done|].
  destruct (String.eqb_spec j k) as [->|Hjk]; simpl; [by destruct (String.eqb k k')|].
  rewrite IH. destruct (String.eqb_spec j k') as [->|]; [|done].
  by destruct (String.eqb_spec k k') as [->|].
Qed.

Lemma map_has_set m k v k' : map_has (map_set m k v) k' = String.eqb k k' || map_has m k'.
Proof.
  unfold map_has. induction m as [|[j w] m IH]; simpl; [done|].
  destruct (String.eqb_spec j k) as [->|Hjk]; simpl; [by destruct (String.eqb k k')|].
  rewrite IH. destruct (String.eqb j k'), (String.eqb k k'); done.
Qed.

Lemma map_get_delete m k k' : k ≠ k' → map_get (map_delete m k) k' = map_get m k'.
Proof.
  intros Hk. unfold map_delete. induction m as [|[j w] m IH]; simpl; [done|].
  rewrite filter_cons. destruct (String.eqb_spec j k) as [->|Hj].
  - rewrite decide_False by naive_solver. by rewrite IH, (proj2 (String.eqb_neq k k') Hk).
  - rewrite decide_True by done. simpl. by rewrite IH.
Qed.

Lemma map_has_delete m k : map_has (map_delete m k) k = false.
Proof.
  unfold map_has, map_delete. induction m as [|[j w] m IH]; simpl; [done|].
  rewrite filter_cons. destruct (String.eqb_spec j k) as [->|Hj].
  - by rewrite decide_False by naive_solver.
  - rewrite decide_True by done. simpl. by rewrite IH, (proj2 (String.eqb_neq j k) Hj).
Qed.

Lemma set_nested_cons m k k2 path v m' :
  set_nested m (k :: k2 :: path) v = Ok m' →
  ∃ m1 m2, set_nested m1 (k2 :: path) v = Ok m2 ∧ m' = map_set m k (VMap m2) ∧
    (map_get m k = VMap m1 ∨ m1 = [] ∧ map_get m k = VNull).
Proof.
  assert (∀ m1, (m'' ← set_nested m1 (k2 :: path) v; Ok (map_set m k (VMap m''))) = Ok m' →
            ∃ m2, set_nested m1 (k2 :: path) v = Ok m2 ∧ m' = map_set m k (VMap m2)) as Hm1.
  { intros m1. destruct (set_nested m1 (k2 :: path) v) as [m2|e]; [|done]. intros [= <-]. eauto. }
  assert (map_has m k = false → map_get m k = VNull) as Hnone.
  { clear Hm1. unfold map_has. induction m as [|[j w] m IH]; simpl; [done|]. destruct (String.eqb j k); [done|]. apply IH. }
  change (set_nested m (k :: k2 :: path) v) with (match map_get m k with
    | VMap m1 => m'' ← set_nested m1 (k2 :: path) v; Ok (map_set m k (VMap m''))
    | _ => if map_has m k then Err (errorf "value cannot be set because the field is not a map")
           else m'' ← set_nested [] (k2 :: path) v; Ok (map_set m k (VMap m''))
    end).
  destruct (map_get m k) as [| | | | | |m1] eqn:Hget;
    [..|intros (m2 & ? & ?)%Hm1; exists m1, m2; auto];
    destruct (map_has m k); try done; specialize (Hnone eq_refl) as [=];
    intros (m2 & ? & ?)%Hm1; exists [], m2; auto.
Qed.

Lemma nested_field_set m path v m' :
  v ≠ VNull → set_nested m path v = Ok m' → nested_field m' path = Ok (Some v).
Proof.
  intros Hv. revert m m'. induction path as [|k path IH]; intros m m'; [done|].
  destruct path as [|k2 path].
  - intros [= <-]. simpl. rewrite map_get_set, String.eqb_refl. by destruct v.
  - intros (m1 & m2 & Hm2 & -> & _)%set_nested_cons.
    change (match map_get (map_set m k (VMap m2)) k with
            | VNull => Ok None | VMap m3 => nested_field m3 (k2 :: path)
            | _ => Err (errorf "accessor error: the value is not a map") end = Ok (Some v)).
    rewrite map_get_set, String.eqb_refl. by apply (IH m1).
Qed.

Lemma nested_field_cons m k k2 path :
  nested_field m (k :: k2 :: path) =
  match map_get m k with
  | VNull => Ok None | VMap m' => nested_field m' (k2 :: path)
  | _ => Err (errorf "accessor error: the value is not a map")
  end.
Proof. done. Qed.

Lemma nested_field_empty k path : nested_field [] (k :: path) = Ok None.
Proof. by destruct path. Qed.

Lemma nested_field_set_other m path k k' v m' :
  k ≠ k' → set_nested m (path ++ [k]) v = Ok m' →
  nested_field m' (path ++ [k']) = nested_field m (path ++ [k']).
Proof.
  intros Hk. revert m m'. induction path as [|j path IH]; intros m m'; simpl app.
  - intros [= <-]. simpl. by rewrite map_get_set, (proj2 (String.eqb_neq k k') Hk).
  - destruct (path ++ [k]) as [|k2 path2] eqn:Hp; [by destruct path|].
    destruct (path ++ [k']) as [|k3 path3] eqn:Hp'; [by destruct path|].
    intros (m1 & m2 & Hm2 & -> & Hget)%set_nested_cons. rewrite !nested_field_cons.
    rewrite map_get_set, String.eqb_refl, (IH _ _ Hm2).
    destruct Hget as [->|[-> ->]]; [done|]. apply nested_field_empty.
Qed.

Lemma set_nested_found m path v v' :
  nested_field m path = Ok (Some v) → path ≠ [] → ∃ m', set_nested m path v' = Ok m'.
Proof.
  revert m. induction path as [|k path IH]; intros m Hm Hne; [done|].
  destruct path as [|k2 path]; [by eexists|]. rewrite nested_field_cons in Hm.
  destruct (map_get m k) as [| | | | | |m1] eqn:Hk; try done.
  destruct (IH m1 Hm) as [m' Hm']; [done|].
  exists (map_set m k (VMap m')). change (set_nested m (k :: k2 :: path) v') with (match map_get m k with
    | VMap m1 => m'' ← set_nested m1 (k2 :: path) v'; Ok (map_set m k (VMap m''))
    | _ => if map_has m k then Err (errorf "value cannot be set because the field is not a map")
           else m'' ← set_nested [] (k2 :: path) v'; Ok (map_set m k (VMap m''))
    end). by rewrite Hk, Hm'.
Qed.

Lemma string_map_of_strings (d : gmap string string) :
  string_map_of (VMap (prod_map id VString <$> map_to_list d)) = Some d.
Proof.
  assert (∀ l : list (string * string),
    mapM (λ kv : string * value, s ← as_string kv.2; Some (kv.1, s)) (prod_map id VString <$> l) = Some l) as Hl.
  { induction l as [|[k s] l IH]; [done|]. rewrite fmap_cons. simpl. by rewrite IH. }
  unfold string_map_of. cbn [as_map mbind option_bind]. rewrite Hl. cbn. by rewrite list_to_map_to_list.
Qed.

#[export] Instance nested_documented_laws : @NestedLaws nested_documented nested_write_documented.
Proof.
  split; simpl; unfold nested_typed.
  - intros m path l l'. destruct (nested_field m path) as [[v|]|] eqn:Hf; simpl; try done. intros Hl.
    destruct path as [|k path]; [simplify_eq/=|]. by eapply set_nested_found.
  - intros m path l m' Hset. by rewrite (nested_field_set m path (VSlice l) m').
  - intros m path k k' l m' Hk Hset. by rewrite (nested_field_set_other m path k k' _ m' Hk Hset).
  - intros m k d. exists (map_set m k (VMap (prod_map id VString <$> map_to_list d))). split; [done|].
    rewrite (nested_field_set m [k] (VMap (prod_map id VString <$> map_to_list d))) by done. simpl.
    by rewrite string_map_of_strings.
Qed.
