(* ===== verification/Namespaces.v ===== *)
(** * Namespaces: where the platform's parts run

    The namespace resolution of [pkg/cluster/resources.go] ([GetDSCI],
    [ApplicationNamespace], [MonitoringNamespace]) and of
    [internal/controller/modules/otel_namespace.go]. The two list calls are events of
    [ClusterE]; the texts that the apimachinery library produces ([GroupVersionKind.String],
    [errors.NewNotFound]) are parameters. *)

From S2P Require Import Prelude Effects Unstructured.

Record DSCInitialization := MkDSCI { dsci_ApplicationsNamespace : string; dsci_MonitoringNamespace : string }.

Record ServiceReference := MkService { svc_Namespace : string; svc_Name : string }.
Record RuleWithOperations := MkRule { rule_APIGroups : list string; rule_Resources : list string }.
Record ValidatingWebhook := MkWebhook {
  wh_Service : option ServiceReference;
  wh_Rules : list RuleWithOperations;
}.
(** A [ValidatingWebhookConfiguration] is the list of its webhooks. *)
Notation WebhookConfiguration := (list ValidatingWebhook).

Inductive ClusterE : Type → Type :=
| ListDSCI : ClusterE (result (list DSCInitialization))
| ListWebhookConfigurations : ClusterE (result (list WebhookConfiguration)).

Definition DSCInitializationGVK : GroupVersionKind :=
  MkGVK "dscinitialization.opendatahub.io" "v2" "DSCInitialization".

Section cluster.
Variable gvk_String : GroupVersionKind → string.
Variable NotFound_text : string → string → string → string.

(** [k8serr.NewNotFound]. *)
Definition NewNotFound (group resource name : string) : goerr :=
  Goerr (NotFound_text group resource name) [TagNotFound].

Definition GetDSCI : prog ClusterE (result DSCInitialization) :=
  listed ← trigger ListDSCI;
  match listed with
  | Err err => mret (Err (wrapf ("failed to list resources of type " +:+ gvk_String DSCInitializationGVK) err))
  | Ok [dsci] => mret (Ok dsci)
  | Ok [] => mret (Err (NewNotFound (gvk_Group DSCInitializationGVK) "dscinitializations" ""))
  | Ok items =>
      mret (Err (errorf ("failed to get a valid " +:+ gvk_String DSCInitializationGVK +:+
        " instance, expected to find 1 instance, found " +:+ itoa (Z.of_nat (length items)))))
  end.

(** [configured] is the operator's [rhai-applications-namespace] setting. *)
Definition ApplicationNamespace (configured : string) : prog ClusterE (result string) :=
  if nonempty_str configured then mret (Ok configured)
  else
    dsci ← GetDSCI;
    match dsci with
    | Err err => mret (Err (wrapf "failed to get DSCInitialization" err))
    | Ok dsci => mret (Ok (dsci_ApplicationsNamespace dsci))
    end.

(** The namespace is the empty string on error, which one caller goes on with. *)
Definition MonitoringNamespace : prog ClusterE (string * option goerr) :=
  dsci ← GetDSCI;
  match dsci with
  | Err err =>
      if err_is TagNotFound err
      then mret ("", Some (wrapf "MonitoringNamespace not available, DSCI not found" err))
      else mret ("", Some (wrapf "failed to get DSCInitialization" err))
  | Ok dsci => mret (dsci_MonitoringNamespace dsci, None)
  end.
End cluster.

(** ** The OpenTelemetry operator *)

Definition mem_string (s : string) (l : list string) : bool := bool_decide (s ∈ l).

Definition covers_collectors (rule : RuleWithOperations) : bool :=
  (mem_string "opentelemetry.io" (rule_APIGroups rule) || mem_string "*" (rule_APIGroups rule)) &&
  (mem_string "opentelemetrycollectors" (rule_Resources rule) || mem_string "*" (rule_Resources rule)).

Definition isOTelCollectorWebhook (webhook : ValidatingWebhook) : bool :=
  match wh_Service webhook with
  | None => false
  | Some service =>
      if String.eqb (svc_Namespace service) "" ||
         negb (String.eqb (svc_Name service) "opentelemetry-operator-webhook-service")
      then false else existsb covers_collectors (wh_Rules webhook)
  end.

Definition isOTelCollectorWebhookConfiguration (configuration : WebhookConfiguration) : bool :=
  existsb isOTelCollectorWebhook configuration.

(** The events a watch lets through. *)
Inductive watch_event :=
| CreateEvent (object : WebhookConfiguration)
| DeleteEvent (object : WebhookConfiguration)
| UpdateEvent (old new : WebhookConfiguration).

Definition otelCollectorWebhookPredicate (ev : watch_event) : bool :=
  match ev with
  | CreateEvent c | DeleteEvent c => isOTelCollectorWebhookConfiguration c
  | UpdateEvent old new =>
      isOTelCollectorWebhookConfiguration old || isOTelCollectorWebhookConfiguration new
  end.

(** The set [namespaces] that the two loops fill. *)
Definition add_namespace (namespaces : gset string) (webhook : ValidatingWebhook) : gset string :=
  if negb (isOTelCollectorWebhook webhook) then namespaces
  else match wh_Service webhook with
       | Some service => {[svc_Namespace service]} ∪ namespaces
       | None => namespaces
       end.

Definition otel_namespaces (configurations : list WebhookConfiguration) : gset string :=
  foldl add_namespace ∅ (concat configurations).

Definition resolveOTelOperatorNamespace : prog ClusterE (result string) :=
  listed ← trigger ListWebhookConfigurations;
  match listed with
  | Err err => mret (Err (wrapf "listing validating webhooks" err))
  | Ok configurations =>
      let namespaces := otel_namespaces configurations in
      match elements namespaces with
      | [] => mret (Ok "")
      | [namespace] => mret (Ok namespace)
      | found => mret (Err (errorf ("collector admission webhooks target multiple namespaces: " +:+
                   join ", " (sort_strings found))))
      end
  end.

(** ** Theorems *)

(** A configured webhook that serves collectors from [namespace]. *)
Definition serves_collectors (configurations : list WebhookConfiguration) (namespace : string) : Prop :=
  ∃ configuration webhook service, configuration ∈ configurations ∧ webhook ∈ configuration ∧
    isOTelCollectorWebhook webhook = true ∧ wh_Service webhook = Some service ∧
    svc_Namespace service = namespace.

Lemma isOTelCollectorWebhook_service webhook :
  isOTelCollectorWebhook webhook = true → ∃ service, wh_Service webhook = Some service ∧ svc_Namespace service ≠ "".
Proof.
  unfold isOTelCollectorWebhook. destruct (wh_Service webhook) as [service|]; [|done].
  intros Hw. exists service. split; [done|]. intros Hns. by rewrite Hns in Hw.
Qed.

Lemma elem_of_otel_namespaces configurations namespace :
  namespace ∈ otel_namespaces configurations ↔ serves_collectors configurations namespace.
Proof.
  assert (∀ l s, namespace ∈ foldl add_namespace s l ↔ namespace ∈ s ∨
    ∃ webhook service, webhook ∈ l ∧ isOTelCollectorWebhook webhook = true ∧
      wh_Service webhook = Some service ∧ svc_Namespace service = namespace) as Hgen.
  { intros l. induction l as [|w l IH]; intros s; simpl.
    - split; [by left|]. intros [?|(? & ? & Hin & _)]; [done|]. by apply elem_of_nil in Hin.
    - rewrite IH. unfold add_namespace. setoid_rewrite elem_of_cons.
      destruct (isOTelCollectorWebhook w) eqn:Hw; cbn [negb].
      + destruct (isOTelCollectorWebhook_service w Hw) as (service & Hs & _). rewrite Hs.
        rewrite elem_of_union, elem_of_singleton. split.
        * intros [[->|?]|(w' & s' & ? & ?)].
          -- right. exists w, service. auto.
          -- by left.
          -- right. exists w', s'. auto.
        * intros [?|(w' & s' & [->|?] & ? & ? & <-)].
          -- by left; right.
          -- left; left. congruence.
          -- right. exists w', s'. auto.
      + split; [intros [?|(w' & s' & ? & ?)]; [by left|right; exists w', s'; auto]|].
        intros [?|(w' & s' & [->|?] & ? & ?)]; [by left|congruence|right; eauto]. }
  unfold otel_namespaces, serves_collectors. rewrite Hgen. setoid_rewrite elem_of_concat. split.
  - intros [[]%elem_of_empty|(w & s & (c & ? & ?) & ?)]. by exists c, w, s.
  - intros (c & w & s & ? & ? & ?). right. exists w, s. split; [by exists c|done].
Qed.

(** The OpenTelemetry operator's namespace is resolved only when it is unambiguous: the
    answer [ns] is non-empty exactly when all webhooks that serve collectors run in [ns];
    it is empty when there are none; two namespaces are an error, as is a failed list. *)
Theorem resolveOTelOperatorNamespace_unambiguous :
  wp resolveOTelOperatorNamespace [] (λ tr res,
    (∃ err, tr = [Call ListWebhookConfigurations (Err err)] ∧ is_ok res = false) ∨
    ∃ configurations, tr = [Call ListWebhookConfigurations (Ok configurations)] ∧
      match res with
      | Ok ns =>
          (ns = "" ∧ ∀ ns', ¬ serves_collectors configurations ns') ∨
          (ns ≠ "" ∧ ∀ ns', serves_collectors configurations ns' ↔ ns' = ns)
      | Err _ =>
          ∃ ns ns', ns ≠ ns' ∧ serves_collectors configurations ns ∧ serves_collectors configurations ns'
      end).
Proof.
  unfold resolveOTelOperatorNamespace. apply wp_bind, wp_call. intros [configurations|err];
    [|apply wp_ret; eauto].
  pose proof (elem_of_otel_namespaces configurations) as Hin. setoid_rewrite <-elem_of_elements in Hin.
  pose proof (NoDup_elements (otel_namespaces configurations)) as Hnd.
  destruct (elements (otel_namespaces configurations)) as [|ns [|ns' rest]]; apply wp_ret; right;
    exists configurations; (split; [done|]).
  - left. split; [done|]. intros ns' Hs. apply Hin in Hs. by apply elem_of_nil in Hs.
  - right. assert (serves_collectors configurations ns) as Hserves; [apply Hin; by left|].
    split.
    + destruct Hserves as (c & w & s & _ & _ & Hw & Hs & <-).
      destruct (isOTelCollectorWebhook_service w Hw) as (s' & Hs' & ?). by simplify_eq.
    + intros ns'. by rewrite <-Hin, list_elem_of_singleton.
  - exists ns, ns'. rewrite <-!Hin. split; [|split; [by left|right; by left]].
    intros ->. rewrite NoDup_cons in Hnd. destruct Hnd as [Hnot _]. apply Hnot. by left.
Qed.
