(* ===== verification/Monitor.v ===== *)
(** * Monitor: health of external operators and APIs ([pkg/controller/monitor])

    - [CheckResult] and its constructors ([result.go]);
    - [CheckOperatorHealth] ([operator.go]): the status conditions of an operator's CR
      against a filter of unhealthy conditions and a list of required ones;
    - [CheckRequiredAPIs] ([crd.go]): presence, lifecycle and served version of CRDs.

    Reads are events of [MonitorE]. [multierror] (hashicorp) is the parameter
    [multierror_error], the error a non-empty accumulator turns into. *)

From S2P Require Import Prelude Effects Conditions Unstructured.

(** ** Results *)

Record CheckResult := MkCheckResult { Pass : bool; cr_Message : string; Status : string }.

#[export] Instance CheckResult_eq_dec : EqDecision CheckResult.
Proof. solve_decision. Defined.

Definition ConditionStatus (r : CheckResult) : string :=
  if String.eqb (Status r) "" then if Pass r then ConditionTrue else ConditionFalse
  else if String.eqb (Status r) ConditionTrue then
    if Pass r then ConditionTrue else ConditionUnknown
  else if String.eqb (Status r) ConditionFalse then
    if negb (Pass r) then ConditionFalse else ConditionUnknown
  else if String.eqb (Status r) ConditionUnknown then ConditionUnknown
  else ConditionUnknown.

Definition Passed : CheckResult := MkCheckResult true "" ConditionTrue.
Definition Failed (msg : string) : CheckResult := MkCheckResult false msg ConditionFalse.
Definition Indeterminate (msg : string) : CheckResult := MkCheckResult false msg ConditionUnknown.

(** ** Reads *)

(** A [CustomResourceDefinition]: the names of its versions with their served flag, and what
    [apihelpers.IsCRDConditionTrue] answers for a condition type. *)
Record CRD := MkCRD {
  crd_versions : list (string * bool);
  crd_IsConditionTrue : string → bool;
}.

Inductive MonitorE : Type → Type :=
| GetCRD (name : string) : MonitorE (result CRD)
| GetCR (gvk : GroupVersionKind) (namespace name : string) : MonitorE (result Unstructured)
| ListCRs (gvk : GroupVersionKind) (namespace : string) (limit : Z)
    : MonitorE (result (list Unstructured)).

(** ** Operator health *)

Record RequiredCondition := MkRequired { rc_Type : string; rc_Status : string }.

Record OperatorConfig := MkOperatorConfig {
  OperatorGVK : GroupVersionKind;
  CRName : string;
  CRNamespace : string;
  Filter : option (string → string → bool);
  RequiredConditions : list RequiredCondition;
  RequireCR : bool;
  NoMatchAsUnknown : bool;
}.

Definition errOperatorCRNotFound : goerr := Goerr "operator CR not found" [TagOperatorCRNotFound].

Definition operatorIdentifier (config : OperatorConfig) : string :=
  let id := gvk_Kind (OperatorGVK config) in
  if nonempty_str (CRName config) then
    if nonempty_str (CRNamespace config)
    then id +:+ " " +:+ CRNamespace config +:+ "/" +:+ CRName config
    else id +:+ " " +:+ CRName config
  else id.

Definition getFirstCR (config : OperatorConfig) : prog MonitorE (result Unstructured) :=
  listed ← trigger (ListCRs (OperatorGVK config) (CRNamespace config) 2);
  match listed with
  | Err err => mret (Err err)
  | Ok [] => mret (Err errOperatorCRNotFound)
  | Ok (cr :: _) => mret (Ok cr)
  end.

Definition fetchOperatorCR (config : OperatorConfig) : prog MonitorE (result Unstructured) :=
  if nonempty_str (CRName config)
  then trigger (GetCR (OperatorGVK config) (CRNamespace config) (CRName config))
  else getFirstCR config.

Record crCondition := MkCrCondition { cond_status : string; cond_reason : string; cond_message : string }.

Definition crPrefix (cr : Unstructured) (config : OperatorConfig) : string :=
  let crIdentifier :=
    if nonempty_str (CRNamespace config) then CRNamespace config +:+ "/" +:+ u_name cr else u_name cr in
  if String.eqb crIdentifier "" then gvk_Kind (OperatorGVK config)
  else gvk_Kind (OperatorGVK config) +:+ " " +:+ crIdentifier.

Definition conditionDetail (cr : Unstructured) (config : OperatorConfig) (condType : string)
    (cond : crCondition) : string :=
  crPrefix cr config +:+ ": " +:+ condType +:+ "=" +:+ cond_status cond +:+
  (if nonempty_str (cond_reason cond) then " (" +:+ cond_reason cond +:+ ")" else "") +:+
  (if nonempty_str (cond_message cond) then ": " +:+ cond_message cond else "").

Section health.
Context `{Nested}.

(** One entry of the loop of [readConditions]: skipped, or a typed condition. *)
Definition read_entry (c : value) : option (string * crCondition) :=
  match as_map c with
  | None => None
  | Some condMap =>
      let condType := nested_string condMap ["type"] in
      let condStatus := nested_string condMap ["status"] in
      if String.eqb condType "" || String.eqb condStatus "" then None
      else Some (condType, MkCrCondition condStatus (nested_string condMap ["reason"])
                             (nested_string condMap ["message"]))
  end.

Fixpoint read_entries (entries : list value) (parsed : gmap string crCondition)
    : result (gmap string crCondition) :=
  match entries with
  | [] => Ok parsed
  | c :: entries =>
      match read_entry c with
      | None => read_entries entries parsed
      | Some (condType, cond) =>
          match parsed !! condType with
          | Some _ => Err (errorf ("duplicate condition type " +:+ quote condType))
          | None => read_entries entries (<[condType := cond]> parsed)
          end
      end
  end.

Definition readConditions (cr : Unstructured) : result (gmap string crCondition) :=
  found ← NestedSlice (u_object cr) ["status"; "conditions"];
  match found with
  | None => Ok ∅
  | Some conditions => read_entries conditions ∅
  end.

Definition collectDegradedConditions (cr : Unstructured) (config : OperatorConfig)
    (conditions : gmap string crCondition) : list string :=
  match Filter config with
  | None => []
  | Some flt =>
      omap (λ condType,
              cond ← conditions !! condType;
              if flt condType (cond_status cond) then Some (conditionDetail cr config condType cond) else None)
        (sort_strings (map_to_list conditions).*1)
  end.

(** One iteration; the pair is [(unmet, indeterminate)]. *)
Definition evaluate_required (cr : Unstructured) (config : OperatorConfig)
    (conditions : gmap string crCondition) (acc : list string * list string) (rc : RequiredCondition)
    : list string * list string :=
  match conditions !! rc_Type rc with
  | None => (acc.1, acc.2 ++ [crPrefix cr config +:+ ": required condition " +:+ rc_Type rc +:+ " not found"])
  | Some cond =>
      if negb (String.eqb (cond_status cond) ConditionTrue) &&
         negb (String.eqb (cond_status cond) ConditionFalse)
      then (acc.1, acc.2 ++ [conditionDetail cr config (rc_Type rc) cond])
      else if negb (String.eqb (cond_status cond) (rc_Status rc))
      then (acc.1 ++ [conditionDetail cr config (rc_Type rc) cond +:+ " (expected " +:+
                        rc_Type rc +:+ "=" +:+ rc_Status rc +:+ ")"], acc.2)
      else acc
  end.

Definition evaluateRequiredConditions (cr : Unstructured) (config : OperatorConfig)
    (conditions : gmap string crCondition) : list string * list string :=
  foldl (evaluate_required cr config conditions) ([], []) (RequiredConditions config).

(** The end of [CheckOperatorHealth], on the fetched CR. *)
Definition evaluate_cr (config : OperatorConfig) (cr : Unstructured) : CheckResult :=
  match readConditions cr with
  | Err err => Indeterminate (operatorIdentifier config +:+ ": failed to parse status conditions: "
                                +:+ err_text err)
  | Ok conditions =>
      let '(unmet, indeterminate) := evaluateRequiredConditions cr config conditions in
      let failed := collectDegradedConditions cr config conditions ++ unmet in
      match failed, indeterminate with
      | _ :: _, _ => Failed (join "; " (failed ++ indeterminate))
      | [], _ :: _ => Indeterminate (join "; " indeterminate)
      | [], [] => Passed
      end
  end.

(** The checks on the configuration. *)
Definition config_error (config : OperatorConfig) : option goerr :=
  if bool_decide (OperatorGVK config = MkGVK "" "" "") then
    Some (errorf "CheckOperatorHealth: OperatorGVK must not be empty")
  else if (match Filter config with None => true | Some _ => false end) &&
          bool_decide (length (RequiredConditions config) = 0)%nat then
    Some (errorf "CheckOperatorHealth: at least one of Filter or RequiredConditions must be set")
  else if existsb (λ rc, String.eqb (rc_Type rc) "" || String.eqb (rc_Status rc) "")
            (RequiredConditions config) then
    Some (errorf "CheckOperatorHealth: RequiredCondition Type and Status must not be empty")
  else None.

Definition CheckOperatorHealth (config : OperatorConfig) : prog MonitorE (result CheckResult) :=
  match config_error config with
  | Some err => mret (Err err)
  | None =>
      fetched ← fetchOperatorCR config;
      match fetched with
      | Err err =>
          if err_is TagNoMatch err then
            mret (Ok (if NoMatchAsUnknown config
                      then Indeterminate (operatorIdentifier config +:+
                             ": operator API not yet available in discovery")
                      else Passed))
          else if err_is TagNotFound err || err_is TagOperatorCRNotFound err then
            mret (Ok (if RequireCR config
                      then Failed (operatorIdentifier config +:+ ": operator CR not found")
                      else Passed))
          else mret (Err (wrapf (operatorIdentifier config +:+ ": failed to get operator CR") err))
      | Ok cr => mret (Ok (evaluate_cr config cr))
      end
  end.

End health.

(** ** Required APIs *)

Record RequiredAPI := MkAPI { CRDName : string; api_GVK : GroupVersionKind }.

Definition Terminating : string := "Terminating".
Definition Established : string := "Established".

Fixpoint servesVersion (versions : list (string * bool)) (version : string) : bool :=
  match versions with
  | [] => false
  | (name, served) :: versions => if String.eqb name version then served else servesVersion versions version
  end.

(** [checkRequiredAPI] on the answer of the read. *)
Definition judge_api (api : RequiredAPI) (got : result CRD) : result CheckResult :=
  match got with
  | Err err =>
      if err_is TagNotFound err then Ok (Failed (CRDName api +:+ ": CRD not found"))
      else Err (wrapf (CRDName api +:+ ": failed to check CRD presence") err)
  | Ok crd =>
      if crd_IsConditionTrue crd Terminating then Ok (Failed (CRDName api +:+ ": CRD is terminating"))
      else
        let version := gvk_Version (api_GVK api) in
        if nonempty_str version && negb (servesVersion (crd_versions crd) version) then
          Ok (Failed (CRDName api +:+ ": CRD does not serve version " +:+ version))
        else if negb (crd_IsConditionTrue crd Established) then
          Ok (Indeterminate (CRDName api +:+ ": CRD is not established"))
        else Ok Passed
  end.

Definition checkRequiredAPI (api : RequiredAPI) : prog MonitorE (result CheckResult) :=
  got ← trigger (GetCRD (CRDName api));
  mret (judge_api api got).

Record api_acc := MkApiAcc {
  unusable : list string;
  indeterminates : list string;
  readErrors : list goerr;
}.

(** The [switch] over a result. *)
Definition record_api (acc : api_acc) (r : result CheckResult) : api_acc :=
  match r with
  | Err err => MkApiAcc (unusable acc) (indeterminates acc) (readErrors acc ++ [err])
  | Ok result =>
      let st := ConditionStatus result in
      if String.eqb st ConditionFalse then
        MkApiAcc (unusable acc ++ [cr_Message result]) (indeterminates acc) (readErrors acc)
      else if String.eqb st ConditionUnknown then
        MkApiAcc (unusable acc) (indeterminates acc ++ [cr_Message result]) (readErrors acc)
      else acc
  end.

Section required_apis.
Variable multierror_error : list goerr → goerr.

Fixpoint check_apis (apis : list RequiredAPI) (acc : api_acc) : prog MonitorE (result api_acc) :=
  match apis with
  | [] => mret (Ok acc)
  | api :: apis =>
      if String.eqb (CRDName api) "" then
        mret (Err (errorf "CheckRequiredAPIs: RequiredAPI.CRDName must not be empty"))
      else
        r ← checkRequiredAPI api;
        check_apis apis (record_api acc r)
  end.

(** What the accumulated findings amount to. *)
Definition conclude (acc : api_acc) : result CheckResult :=
  match unusable acc with
  | _ :: _ =>
      Ok (Failed (join "; " (unusable acc ++ indeterminates acc ++ map err_text (readErrors acc))))
  | [] =>
      match readErrors acc with
      | _ :: _ => Err (multierror_error (readErrors acc))
      | [] =>
          match indeterminates acc with
          | _ :: _ => Ok (Indeterminate (join "; " (indeterminates acc)))
          | [] => Ok Passed
          end
      end
  end.

Definition CheckRequiredAPIs (apis : list RequiredAPI) : prog MonitorE (result CheckResult) :=
  match apis with
  | [] => mret (Err (errorf "CheckRequiredAPIs: called with an empty required API list"))
  | _ =>
      acc ← check_apis apis (MkApiAcc [] [] []);
      mret (acc ← acc; conclude acc)
  end.

End required_apis.

(** ** Theorems: required APIs *)

(** The condition status a verdict stands for; [None] for a read error. *)
Definition verdict_status (v : result CheckResult) : option string :=
  match v with Ok r => Some (ConditionStatus r) | Err _ => None end.

Lemma ConditionStatus_cases r :
  ConditionStatus r = ConditionTrue ∨ ConditionStatus r = ConditionFalse ∨
  ConditionStatus r = ConditionUnknown.
Proof. unfold ConditionStatus. repeat case_match; auto. Qed.

Definition statuses (vs : list (result CheckResult)) : list (option string) := verdict_status <$> vs.

Definition empty_acc : api_acc := MkApiAcc [] [] [].

Lemma app_singleton_ne {A} (l : list A) x : l ++ [x] ≠ [].
Proof. by destruct l. Qed.

Lemma record_api_empty (vs : list (result CheckResult)) :
  let acc := foldl record_api empty_acc vs in
  (unusable acc = [] ↔ Some ConditionFalse ∉ statuses vs) ∧
  (indeterminates acc = [] ↔ Some ConditionUnknown ∉ statuses vs) ∧
  (readErrors acc = [] ↔ None ∉ statuses vs).
Proof.
  induction vs as [|v vs IH] using rev_ind.
  { split_and!; (split; [by intros _ ?%elem_of_nil|done]). }
  unfold statuses in IH |- *. rewrite foldl_snoc, fmap_app. fold (statuses vs) (statuses [v]) in IH |- *. cbn zeta in *. set (acc := foldl record_api empty_acc vs) in *.
  assert (∀ st, st ∉ statuses vs ++ statuses [v] ↔
                (st ∉ statuses vs) ∧ st ≠ verdict_status v) as Hsplit.
  { intros st. unfold statuses. rewrite not_elem_of_app, fmap_cons, fmap_nil, not_elem_of_cons.
    pose proof (not_elem_of_nil (A := option string) st). tauto. }
  rewrite !Hsplit. destruct IH as (<- & <- & <-). clear Hsplit.
  destruct v as [r|e]; cbn [verdict_status record_api].
  - destruct (ConditionStatus_cases r) as [Hst|[Hst|Hst]]; rewrite Hst; simpl;
      split_and!; split; try done; try tauto; (by intros ?%app_singleton_ne) || (by intros [? []]).
  - simpl. split_and!; split; try done; try tauto; (by intros ?%app_singleton_ne) || (by intros [? []]).
Qed.

(** The answers to the CRD reads of a trace. *)
Definition crd_answer (c : call MonitorE) : option (result CRD) :=
  match c with
  | @Call _ X e x =>
      match e in MonitorE X return X → option (result CRD) with
      | GetCRD _ => Some
      | _ => λ _, None
      end x
  end.
Definition crd_answers (tr : list (call MonitorE)) : list (result CRD) := omap crd_answer tr.

Lemma crd_answers_snoc tr name got : crd_answers (tr ++ [Call (GetCRD name) got]) = crd_answers tr ++ [got].
Proof. unfold crd_answers. by rewrite omap_app. Qed.

Lemma wp_check_apis apis acc tr :
  Forall (λ api, CRDName api ≠ "") apis →
  wp (check_apis apis acc) tr (λ tr' res, ∃ answers,
    crd_answers tr' = crd_answers tr ++ answers ∧ length answers = length apis ∧
    res = Ok (foldl record_api acc (zip_with judge_api apis answers))).
Proof.
  intros Hall. revert acc tr. induction Hall as [|api apis Hne _ IH]; intros acc tr; cbn [check_apis].
  { apply wp_ret. exists []. by rewrite app_nil_r. }
  rewrite (proj2 (String.eqb_neq _ _) Hne). apply wp_bind, wp_bind, wp_call. intros got. apply wp_ret.
  eapply wp_mono; [|apply IH]. intros tr' res (answers & Htr & Hlen & ->).
  exists (got :: answers). rewrite Htr, crd_answers_snoc, <-app_assoc. split; [done|]. simpl. by rewrite Hlen.
Qed.

Section required_theorems.
Variable multierror_error : list goerr → goerr.

Lemma conclude_status vs :
  let res := conclude multierror_error (foldl record_api empty_acc vs) in
  match verdict_status res with
  | Some st =>
      (st = ConditionFalse ↔ Some ConditionFalse ∈ statuses vs) ∧
      (st = ConditionTrue ↔ Forall (λ v, verdict_status v = Some ConditionTrue) vs)
  | None => None ∈ statuses vs ∧ Some ConditionFalse ∉ statuses vs
  end.
Proof.
  destruct (record_api_empty vs) as (Hf & Hu & He). cbn zeta in *.
  set (acc := foldl record_api empty_acc vs) in *. unfold conclude.
  assert (Forall (λ v, verdict_status v = Some ConditionTrue) vs ↔
    (Some ConditionFalse ∉ statuses vs) ∧ (Some ConditionUnknown ∉ statuses vs) ∧
    (None ∉ statuses vs)) as Hall.
  { clear. unfold statuses. induction vs as [|v vs IH].
    { split; [intros _; split_and!; apply not_elem_of_nil|constructor]. }
    rewrite Forall_cons, fmap_cons, !not_elem_of_cons, IH. destruct v as [r|e]; simpl; [|naive_solver].
    destruct (ConditionStatus_cases r) as [-> |[-> | ->]]; naive_solver. }
  destruct (unusable acc) as [|u us].
  - destruct (readErrors acc) as [|e es].
    + destruct (indeterminates acc) as [|i is_]; simpl; rewrite Hall; naive_solver.
    + simpl. destruct (decide (None ∈ statuses vs)) as [|Hn]; [naive_solver|].
      apply He in Hn. done.
  - simpl. rewrite Hall. assert (Some ConditionFalse ∈ statuses vs) as Hin.
    { destruct (decide (Some ConditionFalse ∈ statuses vs)) as [|Hn]; [done|].
      by apply Hf in Hn. }
    split; [done|]. split; [done|]. naive_solver.
Qed.
End required_theorems.

(** ** Theorems: operator health *)

Definition definite (c : crCondition) : Prop := cond_status c = ConditionTrue ∨ cond_status c = ConditionFalse.

#[export] Instance definite_dec c : Decision (definite c).
Proof. unfold definite. apply _. Defined.

(** The filter reports the condition. *)
Definition flagged (config : OperatorConfig) (condType : string) (c : crCondition) : Prop :=
  match Filter config with Some flt => flt condType (cond_status c) = true | None => False end.

(** The required condition is reported with another definite status. *)
Definition contradicted (conds : gmap string crCondition) (rc : RequiredCondition) : Prop :=
  ∃ c, conds !! rc_Type rc = Some c ∧ definite c ∧ cond_status c ≠ rc_Status rc.

#[export] Instance contradicted_dec conds rc : Decision (contradicted conds rc).
Proof.
  unfold contradicted. destruct (conds !! rc_Type rc) as [c|] eqn:Hc.
  - destruct (decide (definite c ∧ cond_status c ≠ rc_Status rc)) as [Hd|Hn]; [left; eauto|right].
    intros (c' & [= <-] & Hd). by apply Hn.
  - right. by intros (c & ? & _).
Defined.

#[export] Instance flagged_dec config t c : Decision (flagged config t c).
Proof. unfold flagged. destruct (Filter config); apply _. Defined.

Definition known (conds : gmap string crCondition) (rc : RequiredCondition) : Prop :=
  ∃ c, conds !! rc_Type rc = Some c ∧ definite c.

(** Positive evidence: nothing flagged, every required condition reported as required. *)
Definition healthy (config : OperatorConfig) (conds : gmap string crCondition) : Prop :=
  (∀ t c, conds !! t = Some c → ¬ flagged config t c) ∧
  Forall (λ rc, ∃ c, conds !! rc_Type rc = Some c ∧ definite c ∧ cond_status c = rc_Status rc)
    (RequiredConditions config).

(** Direct evidence of failure. *)
Definition broken (config : OperatorConfig) (conds : gmap string crCondition) : Prop :=
  (∃ t c, conds !! t = Some c ∧ flagged config t c) ∨
  Exists (contradicted conds) (RequiredConditions config).

Section health_theorems.
Context `{Nested}.

Lemma evaluate_required_empty cr config conds acc rc :
  let acc' := evaluate_required cr config conds acc rc in
  (acc'.1 = [] ↔ acc.1 = [] ∧ ¬ contradicted conds rc) ∧ (acc'.2 = [] ↔ acc.2 = [] ∧ known conds rc).
Proof.
  unfold evaluate_required, contradicted, known. destruct (conds !! rc_Type rc) as [c|] eqn:Hc; simpl.
  - destruct (decide (definite c)) as [Hd|Hd].
    + assert (negb (String.eqb (cond_status c) ConditionTrue) &&
              negb (String.eqb (cond_status c) ConditionFalse) = false) as ->.
      { apply andb_false_iff. destruct Hd as [-> | ->]; auto. }
      destruct (String.eqb_spec (cond_status c) (rc_Status rc)) as [Heq|Hne]; simpl; split; split; try naive_solver.
      by intros ?%app_singleton_ne.
    + assert (negb (String.eqb (cond_status c) ConditionTrue) &&
              negb (String.eqb (cond_status c) ConditionFalse) = true) as ->.
      { unfold definite in Hd. destruct (String.eqb_spec (cond_status c) ConditionTrue); [tauto|].
        destruct (String.eqb_spec (cond_status c) ConditionFalse); [tauto|done]. }
      simpl. split; split; try naive_solver. by intros ?%app_singleton_ne.
  - split; split; try naive_solver. by intros ?%app_singleton_ne.
Qed.

Lemma evaluateRequired_empty cr config conds :
  let r := evaluateRequiredConditions cr config conds in
  (r.1 = [] ↔ Forall (λ rc, ¬ contradicted conds rc) (RequiredConditions config)) ∧
  (r.2 = [] ↔ Forall (known conds) (RequiredConditions config)).
Proof.
  unfold evaluateRequiredConditions. induction (RequiredConditions config) as [|rc rcs IH] using rev_ind.
  { by split. }
  rewrite foldl_snoc, !Forall_app, !Forall_singleton. cbn zeta in *.
  destruct (evaluate_required_empty cr config conds
    (foldl (evaluate_required cr config conds) ([], []) rcs) rc) as [-> ->].
  by destruct IH as [-> ->].
Qed.

Lemma collectDegraded_empty cr config conds :
  collectDegradedConditions cr config conds = [] ↔ ∀ t c, conds !! t = Some c → ¬ flagged config t c.
Proof.
  unfold collectDegradedConditions, flagged. destruct (Filter config) as [flt|]; [|naive_solver].
  rewrite omap_nil_iff. setoid_rewrite sort_strings_perm. split.
  - intros Hall t c Hc Hflt. specialize (Hall t). rewrite Hc in Hall. simpl in Hall.
    rewrite Hflt in Hall. assert (t ∈ (map_to_list conds).*1) as Ht; [|by apply Hall in Ht].
    apply list_elem_of_fmap. exists (t, c). split; [done|]. by apply elem_of_map_to_list.
  - intros Hall t ([t' c] & -> & Hin%elem_of_map_to_list)%list_elem_of_fmap. simpl.
    rewrite Hin. simpl. destruct (flt t' (cond_status c)) eqn:Hflt; [|done]. by destruct (Hall _ _ Hin).
Qed.

(** The three outcomes on a fetched CR. *)
Lemma evaluate_cr_status config cr :
  let st := ConditionStatus (evaluate_cr config cr) in
  (st = ConditionTrue ↔ ∃ conds, readConditions cr = Ok conds ∧ healthy config conds) ∧
  (st = ConditionFalse ↔ ∃ conds, readConditions cr = Ok conds ∧ broken config conds).
Proof.
  unfold evaluate_cr. destruct (readConditions cr) as [conds|err]; [|split; split; [done|naive_solver..]].
  destruct (evaluateRequired_empty cr config conds) as [Hunmet Hind].
  pose proof (collectDegraded_empty cr config conds) as Hdeg. cbn zeta in *.
  destruct (evaluateRequiredConditions cr config conds) as [unmet ind]. cbn [fst snd] in *.
  assert (broken config conds ↔ collectDegradedConditions cr config conds ++ unmet ≠ []) as Hbroken.
  { rewrite app_nil, Hdeg, Hunmet, Forall_forall. unfold broken. rewrite Exists_exists.
    destruct (decide (Exists (contradicted conds) (RequiredConditions config))) as [He|Hne].
    { rewrite Exists_exists in He. naive_solver. }
    rewrite Exists_exists in Hne. destruct (decide (map_Exists (flagged config) conds)) as [Hm|Hm].
    - unfold map_Exists in Hm. naive_solver.
    - unfold map_Exists in Hm. naive_solver. }
  assert (healthy config conds ↔ collectDegradedConditions cr config conds ++ unmet = [] ∧ ind = []) as Hhealthy.
  { rewrite app_nil, Hdeg, Hunmet, Hind. unfold healthy. rewrite !Forall_forall.
    unfold contradicted, known. split; [naive_solver|]. intros [[Hf Hc] Hk]. split; [done|].
    intros rc Hrc. destruct (Hk rc Hrc) as (c & ? & ?). exists c. split_and!; [done..|].
    destruct (decide (cond_status c = rc_Status rc)); [done|]. destruct (Hc rc Hrc). eauto. }
  rewrite !exists_ok, Hhealthy, Hbroken. clear.
  destruct (collectDegradedConditions cr config conds ++ unmet) as [|d ds]; [destruct ind|];
    simpl; split; split; try done; by intros [? ?].
Qed.

End health_theorems.

(** ** Properties *)

(** The verdict on required APIs is the strongest one the reads support. For a non-empty
    list of named APIs every CRD is read once; the result is False exactly when some API is
    definitely unusable, even if other reads failed; otherwise a read error is returned if
    there was one; otherwise True exactly when every API is usable, and Unknown else. *)
Theorem CheckRequiredAPIs_verdict multierror_error apis :
  apis ≠ [] → Forall (λ api, CRDName api ≠ "") apis →
  wp (CheckRequiredAPIs multierror_error apis) [] (λ tr res,
    ∃ vs, vs = zip_with judge_api apis (crd_answers tr) ∧ length vs = length apis ∧
    match verdict_status res with
    | Some st =>
        (st = ConditionFalse ↔ Some ConditionFalse ∈ statuses vs) ∧
        (st = ConditionTrue ↔ Forall (λ v, verdict_status v = Some ConditionTrue) vs)
    | None => None ∈ statuses vs ∧ Some ConditionFalse ∉ statuses vs
    end).
Proof.
  intros Hne Hall. unfold CheckRequiredAPIs. destruct apis as [|api apis]; [done|].
  apply wp_bind. eapply wp_mono; [|by apply wp_check_apis].
  intros tr res (answers & Htr & Hlen & ->). apply wp_ret. eexists. split; [done|]. rewrite Htr. split.
  - rewrite length_zip_with, <-Hlen. simpl. lia.
  - apply conclude_status.
Qed.

(** The CR a trace fetched. *)
Definition cr_answer (c : call MonitorE) : option (result Unstructured) :=
  match c with
  | @Call _ X e x =>
      match e in MonitorE X return X → option (result Unstructured) with
      | GetCR _ _ _ => Some
      | ListCRs _ _ _ => λ listed,
          Some (match listed with
                | Err err => Err err
                | Ok [] => Err errOperatorCRNotFound
                | Ok (cr :: _) => Ok cr
                end)
      | GetCRD _ => λ _, None
      end x
  end.

(** An operator is never reported healthy without positive evidence. With a valid
    configuration the CR is read once; on a CR the result is True exactly when no reported
    condition is flagged and every required condition has its required status, False exactly
    when some condition is flagged or some required one has another definite status, and
    Unknown else, duplicates and unreadable conditions included. A missing CR or CRD passes
    only where the configuration allows it; other read errors are returned. *)
Theorem CheckOperatorHealth_verdict `{Nested} config :
  config_error config = None →
  wp (CheckOperatorHealth config) [] (λ tr res, ∃ answer, omap cr_answer tr = [answer] ∧
    match answer with
    | Ok cr => ∃ r, res = Ok r ∧
        (ConditionStatus r = ConditionTrue ↔ ∃ conds, readConditions cr = Ok conds ∧ healthy config conds) ∧
        (ConditionStatus r = ConditionFalse ↔ ∃ conds, readConditions cr = Ok conds ∧ broken config conds)
    | Err err =>
        if err_is TagNoMatch err then ∃ r, res = Ok r ∧
          ConditionStatus r = if NoMatchAsUnknown config then ConditionUnknown else ConditionTrue
        else if err_is TagNotFound err || err_is TagOperatorCRNotFound err then ∃ r, res = Ok r ∧
          ConditionStatus r = if RequireCR config then ConditionFalse else ConditionTrue
        else ∃ e, res = Err e ∧ err_tags e = err_tags err
    end).
Proof.
  intros Hconf. unfold CheckOperatorHealth. rewrite Hconf. apply wp_bind.
  apply (wp_mono _ _ (λ tr answer, omap cr_answer tr = [answer])).
  - intros tr answer Htr. destruct answer as [cr|err].
    + apply wp_ret. exists (Ok cr). split; [done|]. eexists. split; [done|]. apply evaluate_cr_status.
    + destruct (err_is TagNoMatch err) eqn:Hnm.
      { apply wp_ret. exists (Err err). split; [done|]. rewrite Hnm. eexists. split; [done|].
        by destruct (NoMatchAsUnknown config). }
      destruct (err_is TagNotFound err || err_is TagOperatorCRNotFound err) eqn:Hnf;
        apply wp_ret; exists (Err err); rewrite Hnm, Hnf; (split; [done|]); eexists; split; try done.
      by destruct (RequireCR config).
  - unfold fetchOperatorCR. destruct (nonempty_str (CRName config)).
    + apply wp_call. by intros [cr|err].
    + apply wp_bind, wp_call. by intros [[|cr crs]|err]; apply wp_ret.
Qed.

Definition sample_config : OperatorConfig :=
  MkOperatorConfig (MkGVK "kueue.openshift.io" "v1" "Kueue") "cluster" ""
    (Some (λ t st, String.eqb t "Degraded" && String.eqb st "True")) [MkRequired "Available" "True"] true false.

Lemma CheckOperatorHealth_verdict_witness :
  config_error sample_config = None ∧
  wp (CheckOperatorHealth (H := nested_documented) sample_config) [] (λ tr res,
    ∃ answer, omap cr_answer tr = [answer] ∧
    match answer with
    | Ok cr => ∃ r, res = Ok r ∧
        (ConditionStatus r = ConditionTrue ↔
           ∃ conds, readConditions (H := nested_documented) cr = Ok conds ∧ healthy sample_config conds) ∧
        (ConditionStatus r = ConditionFalse ↔
           ∃ conds, readConditions (H := nested_documented) cr = Ok conds ∧ broken sample_config conds)
    | Err err =>
        if err_is TagNoMatch err then ∃ r, res = Ok r ∧
          ConditionStatus r = if NoMatchAsUnknown sample_config then ConditionUnknown else ConditionTrue
        else if err_is TagNotFound err || err_is TagOperatorCRNotFound err then ∃ r, res = Ok r ∧
          ConditionStatus r = if RequireCR sample_config then ConditionFalse else ConditionTrue
        else ∃ e, res = Err e ∧ err_tags e = err_tags err
    end).
Proof. split; [reflexivity|]. apply CheckOperatorHealth_verdict. reflexivity. Defined.

Lemma CheckRequiredAPIs_verdict_witness :
  let apis := [MkAPI "kueues.kueue.x-k8s.io" (MkGVK "" "v1" ""); MkAPI "jobs.batch" (MkGVK "" "" "")] in
  let multierror_error := λ errs, errorf (join "; " (map err_text errs)) in
  wp (CheckRequiredAPIs multierror_error apis) [] (λ tr res,
    ∃ vs, vs = zip_with judge_api apis (crd_answers tr) ∧ length vs = length apis ∧
    match verdict_status res with
    | Some st =>
        (st = ConditionFalse ↔ Some ConditionFalse ∈ statuses vs) ∧
        (st = ConditionTrue ↔ Forall (λ v, verdict_status v = Some ConditionTrue) vs)
    | None => None ∈ statuses vs ∧ Some ConditionFalse ∉ statuses vs
    end).
Proof. apply CheckRequiredAPIs_verdict; [discriminate|]. repeat constructor; discriminate. Defined.

Definition sample_cr (conditions : list value) : Unstructured :=
  MkUnstructured (MkGVK "kueue.openshift.io" "v1" "Kueue") "cluster" "" 1 false
    [("status", VMap [("conditions", VSlice conditions)])].

Example health_samples :
  ConditionStatus <$> (evaluate_cr (H := nested_documented) sample_config ∘ sample_cr <$>
    [ [VMap [("type", VString "Available"); ("status", VString "True")]];
      [VMap [("type", VString "Available"); ("status", VString "False")]];
      [VMap [("type", VString "Available"); ("status", VString "True")];
       VMap [("type", VString "Degraded"); ("status", VString "True")]];
      [VString "noise"];
      [VMap [("type", VString "Available"); ("status", VString "True")];
       VMap [("type", VString "Available"); ("status", VString "False")]] ]) =
  [ConditionTrue; ConditionFalse; ConditionFalse; ConditionUnknown; ConditionUnknown].
Proof. by vm_compute. Qed.
