(* ===== verification/Precondition.v ===== *)
(** * Precondition: checks that run before a reconciliation ([pkg/controller/precondition])

    A [PreCondition] carries a check and its options; [RunAll] runs a list of them and
    aggregates the results into one condition per condition type. The checks are programs
    over an arbitrary signature [E], so the same definitions cover the monitors and the
    components' own checks. [rr.Conditions.Mark] is a [mark] of the result: the result map
    is ranged over in an unspecified order, here that of [map_to_list].

    The second part is the action that holds a component back until the platform's walk
    has reached its runlevel ([runlevel_gate.go]). *)

From S2P Require Import Prelude Effects Conditions Dag Provision Unstructured Monitor.

Definition PreConditionFailedReason : string := "PreConditionFailed".

Record PreCondition (E : Type → Type) := MkPreCondition {
  pc_check : option (prog E (result CheckResult));
  pc_conditionType : string;
  pc_severity : severity;
  pc_stopReconciliation : bool;
  pc_clusterTypes : list string;
  pc_message : string;
  pc_skipFunc : option (prog E (result bool));
}.
Arguments MkPreCondition {E} _ _ _ _ _ _ _.
Arguments pc_check {E} _.
Arguments pc_conditionType {E} _.
Arguments pc_severity {E} _.
Arguments pc_stopReconciliation {E} _.
Arguments pc_clusterTypes {E} _.
Arguments pc_message {E} _.
Arguments pc_skipFunc {E} _.

Record conditionAggregate := MkAggregate {
  agg_status : string;
  agg_severity : severity;
  agg_messages : list string;
  agg_shouldStop : bool;
}.

Section preconditions.
Context {E : Type → Type}.
Implicit Types (pc : PreCondition E).

Definition Option : Type := PreCondition E → PreCondition E.

Definition WithConditionType (t : string) : Option := λ pc,
  if nonempty_str t
  then MkPreCondition (pc_check pc) t (pc_severity pc) (pc_stopReconciliation pc)
         (pc_clusterTypes pc) (pc_message pc) (pc_skipFunc pc)
  else pc.

Definition WithSeverity (s : severity) : Option := λ pc,
  MkPreCondition (pc_check pc) (pc_conditionType pc) s (pc_stopReconciliation pc)
    (pc_clusterTypes pc) (pc_message pc) (pc_skipFunc pc).

Definition WithStopReconciliation : Option := λ pc,
  MkPreCondition (pc_check pc) (pc_conditionType pc) (pc_severity pc) true
    (pc_clusterTypes pc) (pc_message pc) (pc_skipFunc pc).

Definition WithClusterTypes (types : list string) : Option := λ pc,
  MkPreCondition (pc_check pc) (pc_conditionType pc) (pc_severity pc) (pc_stopReconciliation pc)
    types (pc_message pc) (pc_skipFunc pc).

Definition WithMessage (msg : string) : Option := λ pc,
  MkPreCondition (pc_check pc) (pc_conditionType pc) (pc_severity pc) (pc_stopReconciliation pc)
    (pc_clusterTypes pc) msg (pc_skipFunc pc).

Definition WithSkipFunc (fn : prog E (result bool)) : Option := λ pc,
  MkPreCondition (pc_check pc) (pc_conditionType pc) (pc_severity pc) (pc_stopReconciliation pc)
    (pc_clusterTypes pc) (pc_message pc) (Some fn).

Definition newPreCondition (check : option (prog E (result CheckResult))) (opts : list Option)
    : PreCondition E :=
  foldl (λ pc opt, opt pc)
    (MkPreCondition check ConditionDependenciesAvailable SeverityError false [] "" None) opts.

Definition Custom := newPreCondition.

Definition new_aggregate : conditionAggregate := MkAggregate ConditionTrue SeverityInfo [] false.

(** The map is updated where the code updates it through the returned pointer. *)
Definition initAggregate (results : gmap string conditionAggregate) (conditionType : string)
    : gmap string conditionAggregate :=
  match results !! conditionType with
  | None => <[conditionType := new_aggregate]> results
  | Some _ => results
  end.

Definition record (agg : conditionAggregate) (s message : string) (pc : PreCondition E)
    : conditionAggregate :=
  MkAggregate
    (if String.eqb s ConditionFalse then ConditionFalse
     else if String.eqb s ConditionUnknown && negb (String.eqb (agg_status agg) ConditionFalse)
     then ConditionUnknown else agg_status agg)
    (if bool_decide (pc_severity pc = SeverityError) then SeverityError else agg_severity agg)
    (agg_messages agg ++ [message])
    (if pc_stopReconciliation pc then true else agg_shouldStop agg).

(** [initAggregate(results, type).record(s, message, pc)]. *)
Definition record_at (results : gmap string conditionAggregate) (pc : PreCondition E)
    (s message : string) : gmap string conditionAggregate :=
  let results := initAggregate results (pc_conditionType pc) in
  alter (λ agg, record agg s message pc) (pc_conditionType pc) results.

(** What one precondition reports: nothing (satisfied, skipped or not applicable) or the
    status and message to record. *)
Definition run_check (pc : PreCondition E) : prog E (option (string * string)) :=
  match pc_check pc with
  | None => mret (Some (ConditionUnknown, "precondition check function is nil"))
  | Some check =>
      res ← check;
      match res with
      | Err err => mret (Some (ConditionUnknown, err_text err))
      | Ok result =>
          let resultStatus := ConditionStatus result in
          if negb (String.eqb resultStatus ConditionTrue)
          then mret (Some (resultStatus,
                 if nonempty_str (pc_message pc) then pc_message pc else cr_Message result))
          else mret None
      end
  end.

Definition run_one (clusterType : string) (pc : PreCondition E) : prog E (option (string * string)) :=
  if negb (bool_decide (pc_clusterTypes pc = [])) && negb (bool_decide (clusterType ∈ pc_clusterTypes pc))
  then mret None
  else
    match pc_skipFunc pc with
    | None => run_check pc
    | Some skipFunc =>
        skip ← skipFunc;
        match skip with
        | Err skipErr => mret (Some (ConditionUnknown, err_text skipErr))
        | Ok true => mret None
        | Ok false => run_check pc
        end
    end.

(** The effect of a report on the aggregates. *)
Definition apply_report (results : gmap string conditionAggregate)
    (r : PreCondition E * option (string * string)) : gmap string conditionAggregate :=
  match r.2 with
  | None => initAggregate results (pc_conditionType r.1)
  | Some (s, message) => record_at results r.1 s message
  end.

(** One write of the last loop. *)
Definition aggregate_mark (generation : Z) (ct : string) (agg : conditionAggregate) : mark :=
  if negb (String.eqb (agg_status agg) ConditionTrue) then
    MkMark ct (agg_status agg) (Some PreConditionFailedReason)
      (Some (join "; " (agg_messages agg))) (Some (agg_severity agg)) (Some generation)
  else MkMark ct (agg_status agg) None None None (Some generation).

Definition write_results (generation : Z) (results : gmap string conditionAggregate)
    : list mark * bool :=
  ((λ r, aggregate_mark generation r.1 r.2) <$> map_to_list results,
   existsb (λ r, agg_shouldStop r.2) (map_to_list results)).

Definition run_step (clusterType : string) (results : gmap string conditionAggregate)
    (pc : PreCondition E) : prog E (gmap string conditionAggregate) :=
  report ← run_one clusterType pc;
  mret (apply_report results (pc, report)).

(** The marks written and whether to stop. *)
Definition RunAll (clusterType : string) (generation : Z) (preConditions : list (PreCondition E))
    : prog E (list mark * bool) :=
  match preConditions with
  | [] => mret ([], false)
  | _ =>
      results ← prog_foldl (run_step clusterType) ∅ preConditions;
      mret (write_results generation results)
  end.

End preconditions.
Arguments Option E : clear implicits.

(** ** The monitors as preconditions *)

Section monitors.
Context `{Nested}.
Variable multierror_error : list goerr → goerr.

Definition MonitorAPIs (apis : list RequiredAPI) (opts : list (Option MonitorE)) : PreCondition MonitorE :=
  newPreCondition (Some (CheckRequiredAPIs multierror_error apis)) opts.

Definition MonitorCRDs (crdNames : list string) (opts : list (Option MonitorE)) : PreCondition MonitorE :=
  MonitorAPIs ((λ name, MkAPI name (MkGVK "" "" "")) <$> crdNames) opts.

Definition MonitorCRD (crdName : string) (opts : list (Option MonitorE)) : PreCondition MonitorE :=
  MonitorCRDs [crdName] opts.

Definition MonitorOperator (config : OperatorConfig) (opts : list (Option MonitorE)) : PreCondition MonitorE :=
  newPreCondition (Some (CheckOperatorHealth config)) opts.

Definition SkipIfCRDAbsent (crdName : string) : prog MonitorE (result bool) :=
  got ← trigger (GetCRD crdName);
  match got with
  | Err err =>
      if err_is TagNotFound err then mret (Ok true)
      else mret (Err (wrapf (crdName +:+ ": failed to check CRD presence") err))
  | Ok _ => mret (Ok false)
  end.
End monitors.

(** ** The runlevel gate of the component controllers *)

Definition PlatformReadyConditionType : string := "PlatformReady".

(** [rr.Conditions.MarkTrue] and [MarkFalse] with the informational severity. *)
Definition platform_ready : mark :=
  MkMark PlatformReadyConditionType ConditionTrue None None (Some SeverityInfo) None.
Definition platform_not_ready (msg : string) : mark :=
  MkMark PlatformReadyConditionType ConditionFalse (Some "RunlevelNotCleared") (Some msg)
    (Some SeverityInfo) None.

(** The marks written, the new [rr.SkipDeploy] and the returned error. *)
Definition runlevelGateAction (disabled : bool) (registry : UnifiedRegistry.t)
    (tracker : RunlevelTracker.t) (kind version : string) (skipDeploy : bool)
    : list mark * bool * option action_error :=
  if disabled then ([], skipDeploy, None)
  else
    match UnifiedRegistry.LookupOrder registry (to_lower kind) with
    | None => ([platform_ready], skipDeploy, None)
    | Some order =>
        if negb (RunlevelTracker.IsCleared tracker version order) then
          ([platform_not_ready ("provisioning order " +:+ itoa order +:+ " not yet reached at version "
              +:+ version +:+ "; waiting for platform orchestrator")],
           true, Some (RequeueAfterError (30 * Second)))
        else ([platform_ready], skipDeploy, None)
    end.

(** ** Theorems *)

Section aggregation.
Context {E : Type → Type}.
Implicit Types (pc : PreCondition E) (rs : list (PreCondition E * option (string * string))).

(** The reports recorded under a condition type, in order. *)
Definition records_of (ct : string) rs : list (PreCondition E * (string * string)) :=
  omap (λ r, if bool_decide (pc_conditionType r.1 = ct) then pair r.1 <$> r.2 else None) rs.

(** False over Unknown over True. *)
Definition worst (statuses : list string) : string :=
  if bool_decide (ConditionFalse ∈ statuses) then ConditionFalse
  else if bool_decide (ConditionUnknown ∈ statuses) then ConditionUnknown
  else ConditionTrue.

Definition aggregate_of (recs : list (PreCondition E * (string * string))) : conditionAggregate :=
  MkAggregate (worst (map (λ r, r.2.1) recs))
    (if existsb (λ r, bool_decide (pc_severity r.1 = SeverityError)) recs then SeverityError else SeverityInfo)
    (map (λ r, r.2.2) recs)
    (existsb (λ r, pc_stopReconciliation r.1) recs).

Lemma worst_snoc l s :
  worst (l ++ [s]) =
  if String.eqb s ConditionFalse then ConditionFalse
  else if String.eqb s ConditionUnknown && negb (String.eqb (worst l) ConditionFalse)
  then ConditionUnknown else worst l.
Proof.
  unfold worst. destruct (String.eqb_spec s ConditionFalse) as [->|Hf].
  - by rewrite bool_elem_snoc_eq.
  - rewrite (bool_elem_snoc_ne ConditionFalse) by congruence.
    destruct (String.eqb_spec s ConditionUnknown) as [->|Hu]; simpl.
    + rewrite bool_elem_snoc_eq. do 2 (case_bool_decide; try done).
    + by rewrite bool_elem_snoc_ne by congruence.
Qed.

Lemma aggregate_snoc recs pc s msg :
  aggregate_of (recs ++ [(pc, (s, msg))]) = record (aggregate_of recs) s msg pc.
Proof.
  unfold aggregate_of, record. simpl. rewrite !map_app, !existsb_app. simpl. rewrite worst_snoc, !orb_false_r.
  f_equal.
  - destruct (existsb _ recs), (bool_decide (pc_severity pc = SeverityError)); done.
  - destruct (existsb _ recs), (pc_stopReconciliation pc); done.
Qed.

(** The map the loop builds: an aggregate for every condition type met, of its records. *)
Lemma apply_reports_lookup rs ct :
  foldl apply_report ∅ rs !! ct =
  if bool_decide (ct ∈ map (λ r, pc_conditionType r.1) rs) then Some (aggregate_of (records_of ct rs)) else None.
Proof.
  induction rs as [|[pc rep] rs IH] using rev_ind; [done|]. rewrite foldl_snoc.
  set (results := foldl apply_report ∅ rs) in *. unfold records_of in *. rewrite omap_app, map_app. cbn [omap list_omap].
  cbn [map fst snd].
  assert (∀ k, initAggregate results (pc_conditionType pc) !! k =
    if decide (k = pc_conditionType pc) then Some (default new_aggregate (results !! k)) else results !! k) as Hinit.
  { intros k. unfold initAggregate. destruct (decide (k = pc_conditionType pc)) as [->|Hne].
    - destruct (results !! pc_conditionType pc) eqn:Hl; [done|apply lookup_insert_eq].
    - destruct (results !! pc_conditionType pc); [done|]. by rewrite lookup_insert_ne. }
  destruct (decide (ct = pc_conditionType pc)) as [->|Hne].
  - rewrite bool_elem_snoc_eq,  (bool_decide_eq_true_2 (_ = _)) by done.
    assert (default new_aggregate (results !! pc_conditionType pc) =
      aggregate_of (omap (λ r, if bool_decide (pc_conditionType r.1 = pc_conditionType pc)
                               then pair r.1 <$> r.2 else None) rs)) as Hdef.
    { rewrite IH. case_bool_decide as Hin; [done|]. simpl.
      assert (omap (λ r, if bool_decide (pc_conditionType r.1 = pc_conditionType pc)
                               then pair r.1 <$> r.2 else None) rs = []) as ->; [|done].
      apply omap_nil_iff. intros [pc' r'] Hr. simpl. rewrite bool_decide_eq_false_2; [done|].
      intros Heq. apply Hin. apply list_elem_of_fmap. by exists (pc', r'). }
    destruct rep as [[s msg]|]; simpl.
    + unfold apply_report, record_at. simpl. rewrite lookup_alter_eq, Hinit, decide_True, Hdef by done.
      simpl. by rewrite aggregate_snoc.
    + unfold apply_report. simpl. by rewrite Hinit, decide_True, Hdef, app_nil_r.
  - rewrite (bool_decide_eq_false_2 (pc_conditionType pc = ct)) by done. rewrite app_nil_r.
    rewrite bool_elem_snoc_ne by done. rewrite <-IH.
    destruct rep as [[s msg]|]; unfold apply_report; simpl; unfold record_at;
      rewrite ?lookup_alter_ne by done; by rewrite Hinit, decide_False.
Qed.

End aggregation.

Section run_all.
Context {E : Type → Type}.
Implicit Types (pc : PreCondition E) (rs : list (PreCondition E * option (string * string))).

(** The written marks and the verdict, in terms of the reports alone. *)
Definition aggregated (generation : Z) rs (res : list mark * bool) : Prop :=
  NoDup (m_type <$> res.1) ∧
  (∀ ct, ct ∈ m_type <$> res.1 ↔ ct ∈ map (λ r, pc_conditionType r.1) rs) ∧
  (∀ m, m ∈ res.1 → m = aggregate_mark generation (m_type m) (aggregate_of (records_of (m_type m) rs))) ∧
  (res.2 = true ↔ ∃ pc s msg, (pc, Some (s, msg)) ∈ rs ∧ pc_stopReconciliation pc = true).

Lemma aggregate_mark_type generation ct agg : m_type (aggregate_mark generation ct agg) = ct.
Proof. unfold aggregate_mark. by case_match. Qed.

Lemma should_stop_iff rs :
  (∃ ct agg, foldl apply_report ∅ rs !! ct = Some agg ∧ agg_shouldStop agg = true) ↔
  ∃ pc s msg, (pc, Some (s, msg)) ∈ rs ∧ pc_stopReconciliation pc = true.
Proof.
  split.
  - intros (ct & agg & Hagg & Hstop). rewrite apply_reports_lookup in Hagg. case_bool_decide; simplify_eq.
    simpl in Hstop. apply existsb_exists in Hstop as ([pc [s msg]] & Hin & Hstop).
    apply list_elem_of_In, list_elem_of_omap in Hin as ([pc' [[s' msg']|]] & Hin & Heq);
      simpl in Heq; case_bool_decide; simplify_eq/=. eauto 6.
  - intros (pc & s & msg & Hin & Hstop).
    exists (pc_conditionType pc), (aggregate_of (records_of (pc_conditionType pc) rs)).
    rewrite apply_reports_lookup, bool_decide_eq_true_2.
    + split; [done|]. apply existsb_exists. exists (pc, (s, msg)). split; [|done].
      apply list_elem_of_In, list_elem_of_omap. exists (pc, Some (s, msg)). split; [done|]. simpl.
      by rewrite bool_decide_eq_true_2.
    + apply (list_elem_of_fmap_2 (λ r : PreCondition E * option (string * string), pc_conditionType r.1) _ _ Hin).
Qed.

Lemma write_results_aggregated generation rs :
  aggregated generation rs (write_results generation (foldl apply_report ∅ rs)).
Proof.
  set (results := foldl apply_report ∅ rs).
  assert (m_type <$> (write_results generation results).1 = (map_to_list results).*1) as Htypes.
  { simpl. rewrite <-list_fmap_compose. apply list_fmap_ext. intros i [ct agg] _. apply aggregate_mark_type. }
  split; [rewrite Htypes; apply NoDup_fst_map_to_list|]. split; [|split].
  - intros ct. rewrite Htypes, list_elem_of_fmap. split.
    + intros ([ct' agg] & -> & Hin%elem_of_map_to_list). unfold results in Hin.
      rewrite apply_reports_lookup in Hin. by case_bool_decide.
    + intros Hin. exists (ct, aggregate_of (records_of ct rs)). split; [done|].
      apply elem_of_map_to_list. unfold results. by rewrite apply_reports_lookup, bool_decide_eq_true_2.
  - simpl. intros m ([ct agg] & -> & Hin%elem_of_map_to_list)%list_elem_of_fmap. simpl.
    rewrite aggregate_mark_type. f_equal. unfold results in Hin. rewrite apply_reports_lookup in Hin.
    case_bool_decide; congruence.
  - rewrite <-should_stop_iff. simpl. rewrite existsb_exists. split.
    + intros ([ct agg] & Hin%list_elem_of_In%elem_of_map_to_list & Hstop). eauto.
    + intros (ct & agg & Hin%elem_of_map_to_list & Hstop). exists (ct, agg).
      split; [by apply list_elem_of_In|done].
Qed.

Lemma wp_run_steps clusterType (Q : PreCondition E → option (string * string) → Prop) pcs tr :
  (∀ pc tr, pc ∈ pcs → wp (run_one clusterType pc) tr (λ _ rep, Q pc rep)) →
  wp (prog_foldl (run_step clusterType) ∅ pcs) tr (λ _ results, ∃ reports,
    Forall2 Q pcs reports ∧ results = foldl apply_report ∅ (zip pcs reports)).
Proof.
  intros HQ. apply (wp_foldl _ _ _ _ (λ pre _ results, ∃ reports,
    Forall2 Q pre reports ∧ results = foldl apply_report ∅ (zip pre reports))).
  - by exists [].
  - intros pre pc todo tr' results Heq (reports & Hf & ->). unfold run_step. apply wp_bind.
    eapply wp_mono; [|apply HQ; rewrite Heq; apply elem_of_app; right; by left].
    intros tr'' rep Hrep. apply wp_ret. exists (reports ++ [rep]). split; [by apply Forall2_app; [|constructor]|].
    rewrite zip_with_app by (by eapply Forall2_length).
    change (zip_with pair [pc] [rep]) with [(pc, rep)]. by rewrite foldl_snoc.
Qed.

(** One condition per condition type, with False over Unknown over True. For whatever
    the individual preconditions are known to report ([Q]), the marks are exactly one per
    condition type that occurs; each carries the worst status recorded for its type, and if
    that is not True the joined messages in order, the failure reason and the error severity
    if a recorded precondition has it. Reconciliation stops exactly when some precondition
    that stops it was recorded. *)
Theorem RunAll_aggregates clusterType generation (Q : PreCondition E → option (string * string) → Prop) pcs :
  (∀ pc tr, pc ∈ pcs → wp (run_one clusterType pc) tr (λ _ rep, Q pc rep)) →
  wp (RunAll clusterType generation pcs) [] (λ _ res,
    ∃ reports, Forall2 Q pcs reports ∧ aggregated generation (zip pcs reports) res).
Proof.
  intros HQ. unfold RunAll. destruct pcs as [|pc pcs].
  - apply wp_ret. exists []. split; [done|]. apply (write_results_aggregated generation []).
  - apply wp_bind. eapply wp_mono; [|by apply wp_run_steps].
    intros tr results (reports & Hf & ->). apply wp_ret. exists reports. split; [done|].
    apply write_results_aggregated.
Qed.

(** Only failures and unknowns are ever recorded. *)
Lemma run_one_reports clusterType pc tr :
  wp (run_one clusterType pc) tr (λ _ rep,
    match rep with Some (s, _) => s = ConditionFalse ∨ s = ConditionUnknown | None => True end).
Proof.
  unfold run_one. destruct (_ && _); [by apply wp_ret|].
  assert (∀ tr, wp (run_check pc) tr (λ _ rep, match rep with
    | Some (s, _) => s = ConditionFalse ∨ s = ConditionUnknown | None => True end)) as Hcheck.
  { intros tr'. unfold run_check. destruct (pc_check pc) as [check|]; [|apply wp_ret; by right].
    apply wp_bind. eapply wp_mono; [|apply wp_prefix]. intros tr'' [r|err] _; [|apply wp_ret; by right].
    destruct (ConditionStatus_cases r) as [Hst|[Hst|Hst]]; rewrite Hst; apply wp_ret; auto. }
  destruct (pc_skipFunc pc) as [skip|]; [|apply Hcheck].
  apply wp_bind. eapply wp_mono; [|apply wp_prefix].
  intros tr' [[|]|err] _; [by apply wp_ret|apply Hcheck|apply wp_ret; by right].
Qed.

End run_all.

(** Checks that answer without reading anything. *)
Definition fixed_check (r : result CheckResult) : option (prog MonitorE (result CheckResult)) := Some (Ret r).

Definition sample_preconditions : list (PreCondition MonitorE) :=
  [Custom (fixed_check (Ok (Indeterminate "discovery lags"))) [];
   Custom (fixed_check (Ok (Failed "CRD missing"))) [WithSeverity SeverityInfo; WithStopReconciliation];
   Custom (fixed_check (Ok Passed)) [WithConditionType "LicenseReady"];
   Custom (fixed_check (Err (errorf "boom"))) [WithClusterTypes ["OpenShift"]]].

Example RunAll_sample :
  run (W := unit) (λ X (e : MonitorE X) w, match e with
        | GetCRD _ => (Err (errorf ""), w) | GetCR _ _ _ => (Err (errorf ""), w)
        | ListCRs _ _ _ => (Err (errorf ""), w) end)
    (RunAll "Kubernetes" 7 sample_preconditions) tt [] =
  ([MkMark "LicenseReady" ConditionTrue None None None (Some 7%Z);
    MkMark ConditionDependenciesAvailable ConditionFalse (Some PreConditionFailedReason)
      (Some "discovery lags; CRD missing") (Some SeverityError) (Some 7%Z)], true, tt, []).
Proof. by vm_compute. Qed.

Lemma RunAll_aggregates_witness :
  let Q := λ (pc : PreCondition MonitorE) (rep : option (string * string)),
    match rep with Some (s, _) => s = ConditionFalse ∨ s = ConditionUnknown | None => True end in
  wp (RunAll "Kubernetes" 7 sample_preconditions) [] (λ _ res,
    ∃ reports, Forall2 Q sample_preconditions reports ∧
      aggregated 7 (zip sample_preconditions reports) res).
Proof. apply RunAll_aggregates. intros pc tr _. apply run_one_reports. Defined.

(** A component is held back exactly when ordering is on, its lower-cased kind is a
    registered node and the walk has not cleared its runlevel at this version; it then skips
    deployment, reports PlatformReady False and asks to be requeued in 30 seconds. In every
    other case deployment goes on as before and no error is returned. *)
Theorem runlevelGateAction_holds disabled registry tracker kind version skipDeploy :
  let '(marks, skip, err) := runlevelGateAction disabled registry tracker kind version skipDeploy in
  let held := disabled = false ∧ ∃ n, UnifiedRegistry.nodes registry !! to_lower kind = Some n ∧
    RunlevelTracker.IsCleared tracker version (Order (un_runlevel n)) = false in
  (held → skip = true ∧ err = Some (RequeueAfterError (30 * Second)) ∧
     ∃ msg, marks = [platform_not_ready msg]) ∧
  (¬ held → skip = skipDeploy ∧ err = None ∧ marks = if disabled then [] else [platform_ready]).
Proof.
  unfold runlevelGateAction, UnifiedRegistry.LookupOrder. destruct disabled; [split; [by intros [? _]|done]|].
  destruct (UnifiedRegistry.nodes registry !! to_lower kind) as [n|] eqn:Hn; simpl.
  - destruct (RunlevelTracker.IsCleared tracker version (Order (un_runlevel n))) eqn:Hc; simpl.
    + split; [|done]. intros (_ & n' & [= <-] & Hc'). congruence.
    + split; [by eauto|]. intros Hnot. destruct Hnot. eauto.
  - split; [|done]. by intros (_ & n' & ? & _).
Qed.
