(* ===== verification/ModuleBase.v ===== *)
(** * ModuleBase: module handlers ([internal/controller/modules/base.go], [types.go])

    The data of a module handler and the default implementation of its operations. Client
    calls, the delete filter and the two renderers (helm and kustomize, third-party) are
    events of [ClientE]. The fields of [dsc.Status.Components] that the code reaches by
    reflection are a map from field name to [ComponentField]. [time.Parse] of RFC 3339 is
    the parameter [parse_RFC3339]. *)

From S2P Require Import Prelude Effects Conditions Unstructured.

(** ** Paths: [filepath.Join] and [filepath.Clean] *)

Definition slash : Ascii.ascii := Ascii.ascii_of_nat 47.

Fixpoint split_slash (s acc : string) : list string :=
  match s with
  | EmptyString => [acc]
  | String a s => if Ascii.eqb a slash then acc :: split_slash s "" else split_slash s (acc +:+ String a "")
  end.

(** The stack of cleaned components, innermost first. *)
Definition clean_step (rooted : bool) (stack : list string) (c : string) : list string :=
  if String.eqb c "" || String.eqb c "." then stack
  else if String.eqb c ".." then
    match stack with
    | top :: rest => if String.eqb top ".." then c :: stack else rest
    | [] => if rooted then [] else [c]
    end
  else c :: stack.

Definition filepath_Clean (s : string) : string :=
  if String.eqb s "" then "."
  else
    let rooted := has_prefix s "/" in
    let body := join "/" (reverse (foldl (clean_step rooted) [] (split_slash s ""))) in
    if rooted then "/" +:+ body else if String.eqb body "" then "." else body.

Definition filepath_Join (elems : list string) : string :=
  match filter (λ e, nonempty_str e = true) elems with
  | [] => ""
  | elems => filepath_Clean (join "/" elems)
  end.

(** ** Data *)

Inductive CRState := CRStateAbsent | CRStateAlive | CRStateDeleting.

#[export] Instance CRState_eq_dec : EqDecision CRState.
Proof. solve_decision. Defined.

Inductive ConfigSource := ConfigFromDSC | ConfigFromDSCI.

#[export] Instance ConfigSource_eq_dec : EqDecision ConfigSource.
Proof. solve_decision. Defined.

(** [operatorv1.ManagementState], a string. *)
Definition Managed : string := "Managed".
Definition Removed : string := "Removed".

(** [configApi.PlatformModules]: the management state of each of its fields. *)
Notation PlatformModules := (gmap string string).

Record ComponentRelease := MkRelease { r_Name : string; r_Version : string; r_RepoURL : string }.

#[export] Instance ComponentRelease_eq_dec : EqDecision ComponentRelease.
Proof. solve_decision. Defined.

Record HelmChartInfo := MkChart {
  Chart : string;
  ReleaseName : string;
  ReleaseNamespace : string;
  Values : gmap string value;
}.

Record ManifestInfo := MkManifest {
  Path : string;
  ContextDir : string;
  SourcePath : string;
  Namespace : string;
}.

Record OperatorManifests := MkManifests {
  HelmCharts : list HelmChartInfo;
  Manifests : list ManifestInfo;
}.

Record PlatformContext := MkPlatform {
  p_ApplicationsNamespace : string;
  p_MonitoringNamespace : string;
  p_OTelOperatorNamespace : string;
  p_ReleaseName : string;
  p_ReleaseVersion : string;
  p_Modules : PlatformModules;
  p_ChartsBasePath : string;
  p_ManifestsBasePath : string;
}.

(** One field of [dsc.Status.Components]: its management state if it has that field, and
    its pointer to the common status if it has one ([Some None]: a nil pointer). *)
Record ComponentField := MkField {
  f_ManagementState : option string;
  f_Releases : option (option (list ComponentRelease));
}.

#[export] Instance ComponentField_eq_dec : EqDecision ComponentField.
Proof. solve_decision. Defined.

Notation ComponentsStatus := (gmap string ComponentField).

(** [DSCT] stands for [*DSCContext], which only callbacks look into. *)
Record SubmoduleCondition (DSCT : Type) := MkSubmodule {
  SourceConditionType : string;
  DSCConditionType : string;
  StatusFieldName : string;
  sub_IsEnabled : option (DSCT → bool);
}.
Arguments MkSubmodule {DSCT} _ _ _ _.
Arguments SourceConditionType {DSCT} _.
Arguments DSCConditionType {DSCT} _.
Arguments StatusFieldName {DSCT} _.
Arguments sub_IsEnabled {DSCT} _.

Record ModuleConfig (DSCT : Type) := MkConfig {
  c_Name : string;
  c_GVK : GroupVersionKind;
  c_CRName : string;
  c_ReleaseName : string;
  c_ChartDir : string;
  c_Values : gmap string value;
  c_NamespaceValueKey : string;
  c_ManifestDir : string;
  c_ContextDir : string;
  c_SourcePath : string;
  c_SourcePathByPlatform : gmap string string;
  c_Namespace : string;
  c_ContainerName : string;
  c_DeploymentName : string;
  c_ControllerImage : string;
  c_InitContainerName : string;
  c_RelatedImages : list string;
  c_SubmoduleConditions : list (SubmoduleCondition DSCT);
  c_ExtraEnv : gmap string string;
}.
Arguments c_Name {DSCT} _.
Arguments c_GVK {DSCT} _.
Arguments c_CRName {DSCT} _.
Arguments c_ReleaseName {DSCT} _.
Arguments c_ChartDir {DSCT} _.
Arguments c_Values {DSCT} _.
Arguments c_NamespaceValueKey {DSCT} _.
Arguments c_ManifestDir {DSCT} _.
Arguments c_ContextDir {DSCT} _.
Arguments c_SourcePath {DSCT} _.
Arguments c_SourcePathByPlatform {DSCT} _.
Arguments c_Namespace {DSCT} _.
Arguments c_ContainerName {DSCT} _.
Arguments c_DeploymentName {DSCT} _.
Arguments c_ControllerImage {DSCT} _.
Arguments c_InitContainerName {DSCT} _.
Arguments c_RelatedImages {DSCT} _.
Arguments c_SubmoduleConditions {DSCT} _.
Arguments c_ExtraEnv {DSCT} _.

Record ModuleStatus := MkModuleStatus {
  ms_Conditions : list Condition;
  ms_ObservedGeneration : Z;
  ms_Generation : Z;
  ms_ReleaseVersion : string;
  ms_Releases : list ComponentRelease;
}.

(** ** DSC status fields *)

(** [setReleasesOnDSCField]; nothing happens without a common-status pointer. *)
Definition setReleasesOnDSCField (field : ComponentField) (releases : list ComponentRelease)
    : ComponentField :=
  match f_Releases field with
  | None => field
  | Some None =>
      match releases with
      | [] => field
      | _ => MkField (f_ManagementState field) (Some (Some releases))
      end
  | Some (Some _) => MkField (f_ManagementState field) (Some (Some releases))
  end.

(** [None] for a nil [dsc]. *)
Definition setDSCComponentField (dsc : option ComponentsStatus) (fieldName : string) (enabled : bool)
    (releases : list ComponentRelease) : option ComponentsStatus :=
  match dsc with
  | None => None
  | Some comps =>
      if String.eqb fieldName "" then Some comps
      else
        match comps !! fieldName with
        | None => Some comps
        | Some field =>
            let ms := if enabled then Managed else Removed in
            let field := match f_ManagementState field with
                         | Some _ => MkField (Some ms) (f_Releases field)
                         | None => field
                         end in
            Some (<[fieldName := setReleasesOnDSCField field releases]> comps)
        end
  end.

(** ** Reading module CRs *)

Definition extractReleases `{Nested} (object : value_map) : list ComponentRelease :=
  match NestedSlice object ["status"; "releases"] with
  | Ok (Some items) =>
      omap (λ item,
        match as_map item with
        | None => None
        | Some entry =>
            let name := nested_string entry ["name"] in
            if String.eqb name "" then None
            else Some (MkRelease name (nested_string entry ["version"]) (nested_string entry ["repoUrl"]))
        end) items
  | _ => []
  end.

Fixpoint platformReleaseVersion (releases : list ComponentRelease) : string :=
  match releases with
  | [] => ""
  | r :: releases => if String.eqb (r_Name r) PlatformReleaseName then r_Version r
                     else platformReleaseVersion releases
  end.

Section parse.
Context `{Nested}.
Variable parse_RFC3339 : string → option Z.

(** [v, ok := cm[k].(string)] with the zero value otherwise. *)
Definition field_string (cm : value_map) (k : string) : string :=
  default "" (as_string (map_get cm k)).

(** The severity labels the code compares with are [Error] and [Info]. *)
Definition severity_of (s : string) : severity :=
  if String.eqb s "" then SeverityUnset
  else if String.eqb s "Error" then SeverityError
  else if String.eqb s "Info" then SeverityInfo
  else SeverityLabel s.

Definition parse_condition (raw : value) : option Condition :=
  match as_map raw with
  | None => None
  | Some cm =>
      let c := MkCondition (field_string cm "type") (field_string cm "status") (field_string cm "reason")
        (field_string cm "message") (severity_of (field_string cm "severity"))
        (match map_get cm "observedGeneration" with VInt z => z | VFloat z => z | _ => 0%Z end)
        (match as_string (map_get cm "lastTransitionTime") with
         | Some v => default 0%Z (parse_RFC3339 v)
         | None => 0%Z
         end) in
      if String.eqb (c_type c) "" || String.eqb (c_status c) "" then None else Some c
  end.

Definition ParseConditions (object : value_map) : result (list Condition) :=
  match NestedSlice object ["status"; "conditions"] with
  | Err err => Err err
  | Ok None => Ok []
  | Ok (Some rawConditions) => Ok (omap parse_condition rawConditions)
  end.
End parse.

(** ** The default handler *)

Inductive ClientE : Type → Type :=
| CliGet (gvk : GroupVersionKind) (namespace name : string) : ClientE (result Unstructured)
| CliDelete (res : Unstructured) : ClientE (option goerr)
| FilterResource (res : Unstructured) : ClientE (bool * option goerr)
| HelmNew (chart : HelmChartInfo) : ClientE (option goerr)
| HelmProcess (chart : HelmChartInfo) : ClientE (result (list Unstructured))
| KustomizeRender (manifest : ManifestInfo) (namespace : option string)
    : ClientE (result (list Unstructured)).

Definition CustomResourceDefinition : GroupVersionKind :=
  MkGVK "apiextensions.k8s.io" "v1" "CustomResourceDefinition".

(** [k8serr.IsNotFound(err) || meta.IsNoMatchError(err)]. *)
Definition is_absent (err : goerr) : bool := err_is TagNotFound err || err_is TagNoMatch err.

Module BaseHandler.
Section base.
Context `{Nested} {DSCT : Type}.
Variable parse_RFC3339 : string → option Z.
Variable b : ModuleConfig DSCT.

Definition GetReadyConditionType : string := gvk_Kind (c_GVK b) +:+ ReadySuffix.

Definition GetContainerName : string :=
  if nonempty_str (c_ContainerName b) then c_ContainerName b else "manager".

(** [nil] for an empty map. *)
Definition GetExtraEnv : option (gmap string string) :=
  if bool_decide (c_ExtraEnv b = ∅) then None else Some (c_ExtraEnv b).

Definition WriteDSCComponentStatus (dsc : option ComponentsStatus) (enabled : bool)
    (releases : list ComponentRelease) : option ComponentsStatus :=
  setDSCComponentField dsc (gvk_Kind (c_GVK b)) enabled releases.

Definition helm_values (platform : PlatformContext) : gmap string value :=
  if nonempty_str (c_NamespaceValueKey b) && nonempty_str (p_ApplicationsNamespace platform)
  then <[c_NamespaceValueKey b := VString (p_ApplicationsNamespace platform)]> (c_Values b)
  else c_Values b.

Definition GetOperatorManifests (platform : option PlatformContext) : OperatorManifests :=
  let charts :=
    match platform with
    | Some p =>
        if nonempty_str (c_ChartDir b) then
          [MkChart (filepath_Join [p_ChartsBasePath p; c_ChartDir b]) (c_ReleaseName b)
             (p_ApplicationsNamespace p) (helm_values p)]
        else []
    | None => []
    end in
  let manifests :=
    if nonempty_str (c_ManifestDir b) then
      let manifestPath :=
        match platform with
        | Some p => if nonempty_str (p_ManifestsBasePath p)
                    then filepath_Join [p_ManifestsBasePath p; c_ManifestDir b] else c_ManifestDir b
        | None => c_ManifestDir b
        end in
      let sourcePath :=
        match platform with
        | Some p => default (c_SourcePath b) (c_SourcePathByPlatform b !! p_ReleaseName p)
        | None => c_SourcePath b
        end in
      [MkManifest manifestPath (c_ContextDir b) sourcePath (c_Namespace b)]
    else [] in
  MkManifests charts manifests.

Definition GetModuleStatus : prog ClientE (result ModuleStatus) :=
  got ← trigger (CliGet (c_GVK b) "" (c_CRName b));
  match got with
  | Err err => mret (Err err)
  | Ok u =>
      match ParseConditions parse_RFC3339 (u_object u) with
      | Err err => mret (Err err)
      | Ok conditions =>
          let releases := extractReleases (u_object u) in
          mret (Ok (MkModuleStatus conditions (nested_int64 (u_object u) ["status"; "observedGeneration"])
                      (u_generation u) (platformReleaseVersion releases) releases))
      end
  end.

(** The state comes with an error, which callers may ignore. *)
Definition GetModuleCRState : prog ClientE (CRState * option goerr) :=
  got ← trigger (CliGet (c_GVK b) "" (c_CRName b));
  match got with
  | Err err => if is_absent err then mret (CRStateAbsent, None) else mret (CRStateAbsent, Some err)
  | Ok u => if u_deleting u then mret (CRStateDeleting, None) else mret (CRStateAlive, None)
  end.

(** The object sent with a delete: only its kind and name are set. *)
Definition module_cr : Unstructured := MkUnstructured (c_GVK b) (c_CRName b) "" 0 false [].

Definition DeleteModuleCR : prog ClientE (option goerr) :=
  err ← trigger (CliDelete module_cr);
  match err with
  | Some e =>
      if is_absent e then mret None
      else mret (Some (wrapf ("deleting module CR " +:+ gvk_Kind (c_GVK b) +:+ "/" +:+ c_CRName b) e))
  | None => mret None
  end.

(** CRDs and namespaces are never deleted. *)
Definition protected (res : Unstructured) : bool :=
  bool_decide (u_gvk res = CustomResourceDefinition) || String.eqb (gvk_Kind (u_gvk res)) "Namespace".

Definition describe_resource (res : Unstructured) : string :=
  gvk_Kind (u_gvk res) +:+ " " +:+ u_namespace res +:+ "/" +:+ u_name res.

(** The delete of one resource and its error handling. *)
Definition delete_one (res : Unstructured) : prog ClientE (option goerr) :=
  err ← trigger (CliDelete res);
  match err with
  | Some e =>
      if negb (err_is TagNotFound e) && negb (err_is TagNoMatch e)
      then mret (Some (wrapf ("deleting " +:+ describe_resource res +:+ " for module " +:+ c_Name b) e))
      else mret None
  | None => mret None
  end.

(** One iteration. *)
Definition delete_resource (filter : bool) (res : Unstructured) : prog ClientE (option goerr) :=
  if protected res then mret None
  else if filter then
    r ← trigger (FilterResource res);
    match r.2 with
    | Some err => mret (Some (wrapf ("evaluating delete filter for " +:+ describe_resource res) err))
    | None => if negb r.1 then mret None else delete_one res
    end
  else delete_one res.

(** [filter] says whether a filter is configured; its answers are events. *)
Fixpoint deleteRenderedResources (resources : list Unstructured) (filter : bool)
    : prog ClientE (option goerr) :=
  match resources with
  | [] => mret None
  | res :: resources =>
      err ← delete_resource filter res;
      match err with
      | Some e => mret (Some e)
      | None => deleteRenderedResources resources filter
      end
  end.

Fixpoint delete_charts (charts : list HelmChartInfo) (filter : bool) : prog ClientE (option goerr) :=
  match charts with
  | [] => mret None
  | chartInfo :: charts =>
      err ← trigger (HelmNew chartInfo);
      match err with
      | Some e => mret (Some (wrapf ("creating helm renderer for " +:+ c_Name b) e))
      | None =>
          resources ← trigger (HelmProcess chartInfo);
          match resources with
          | Err e => mret (Some (wrapf ("rendering chart for " +:+ c_Name b) e))
          | Ok resources =>
              err ← deleteRenderedResources resources filter;
              match err with
              | Some e => mret (Some e)
              | None => delete_charts charts filter
              end
          end
      end
  end.

(** The namespace option of the kustomize renderer; none when it is empty. *)
Definition render_namespace (platform : option PlatformContext) (m : ManifestInfo) : option string :=
  let ns := match platform with Some p => p_ApplicationsNamespace p | None => "" end in
  let ns := if nonempty_str (Namespace m) then Namespace m else ns in
  if nonempty_str ns then Some ns else None.

Fixpoint delete_manifests (platform : option PlatformContext) (manifests : list ManifestInfo) (filter : bool)
    : prog ClientE (option goerr) :=
  match manifests with
  | [] => mret None
  | m :: manifests =>
      resources ← trigger (KustomizeRender m (render_namespace platform m));
      match resources with
      | Err e => mret (Some (wrapf ("rendering kustomize manifests for " +:+ c_Name b) e))
      | Ok resources =>
          err ← deleteRenderedResources resources filter;
          match err with
          | Some e => mret (Some e)
          | None => delete_manifests platform manifests filter
          end
      end
  end.

Definition DeleteOperatorManifests (platform : option PlatformContext) (manifests : OperatorManifests)
    (filter : bool) : prog ClientE (option goerr) :=
  err ← delete_charts (HelmCharts manifests) filter;
  match err with
  | Some e => mret (Some e)
  | None => delete_manifests platform (Manifests manifests) filter
  end.

Definition DeleteOperatorResources (platform : option PlatformContext) : prog ClientE (option goerr) :=
  DeleteOperatorManifests platform (GetOperatorManifests platform) false.

End base.
End BaseHandler.

Example filepath_samples :
  filepath_Join <$> [["/opt/charts"; "kserve"]; ["/opt/charts/"; "../x"]; [""; "a"]; [""; ""]; ["a/b"; "../../.."]] =
  ["/opt/charts/kserve"; "/opt/x"; "a"; ""; ".."].
Proof. by vm_compute. Qed.

(** ** Theorems *)

Section base_theorems.
Context {DSCT : Type}.
Variable b : ModuleConfig DSCT.
Import BaseHandler.

Inductive client_event :=
| EvDelete (res : Unstructured) (err : option goerr)
| EvFilter (res : Unstructured) (allowed : bool) (err : option goerr)
| EvOther.

Definition client_event_of (c : call ClientE) : client_event :=
  match c with
  | @Call _ X e x =>
      match e in ClientE X return X → client_event with
      | CliDelete res => EvDelete res
      | FilterResource res => λ r, EvFilter res r.1 r.2
      | _ => λ _, EvOther
      end x
  end.

Definition client_events (tr : list (call ClientE)) : list client_event := client_event_of <$> tr.

Lemma client_events_snoc tr c : client_events (tr ++ [c]) = client_events tr ++ [client_event_of c].
Proof. unfold client_events. by rewrite fmap_app. Qed.

(** CRDs and namespaces. *)
Definition spared_kind (res : Unstructured) : Prop :=
  u_gvk res = CustomResourceDefinition ∨ gvk_Kind (u_gvk res) = "Namespace".

Lemma protected_true res : protected res = true ↔ spared_kind res.
Proof. unfold protected, spared_kind. by rewrite orb_true_iff, bool_decide_eq_true, String.eqb_eq. Qed.

Lemma protected_false res : protected res = false ↔ ¬ spared_kind res.
Proof. rewrite <-protected_true. by destruct (protected res). Qed.

(** A delete is authorized when the resource was rendered, is no CRD or namespace and, with a
    filter, was let through by the filter call just before. *)
Definition authorized (resources : list Unstructured) (filter : bool)
    (before : list client_event) (ev : client_event) : Prop :=
  match ev with
  | EvDelete res _ => res ∈ resources ∧ ¬ spared_kind res ∧
      (filter = true → last before = Some (EvFilter res true None))
  | _ => True
  end.

(** A resource is settled when it was spared or its delete succeeded or found nothing. *)
Definition settled_resource (filter : bool) (evs : list client_event) (res : Unstructured) : Prop :=
  spared_kind res ∨ (filter = true ∧ EvFilter res false None ∈ evs) ∨
  ∃ err, EvDelete res err ∈ evs ∧ match err with None => True | Some e => is_absent e = true end.

Lemma settled_mono filter evs new res :
  settled_resource filter evs res → settled_resource filter (evs ++ new) res.
Proof.
  intros [?|[[? ?]|(err & ? & ?)]]; [by left|right; left|right; right].
  - split; [done|]. apply elem_of_app. by left.
  - exists err. split; [|done]. apply elem_of_app. by left.
Qed.

Lemma wp_delete_one filter resources res tr :
  each_after (authorized resources filter) (client_events tr) → res ∈ resources → ¬ spared_kind res →
  (filter = true → last (client_events tr) = Some (EvFilter res true None)) →
  wp (delete_one b res) tr (λ tr' err,
    each_after (authorized resources filter) (client_events tr') ∧
    (∃ new, client_events tr' = client_events tr ++ new) ∧
    (err = None → settled_resource filter (client_events tr') res)).
Proof.
  intros Hok Hin Hprot Hflt. unfold delete_one. apply wp_bind, wp_call. intros err.
  assert (each_after (authorized resources filter) (client_events tr ++ [EvDelete res err])) as Hok';
    [by apply each_after_snoc|].
  assert (∀ e, err = e → match e with None => True | Some e => is_absent e = true end →
    settled_resource filter (client_events tr ++ [EvDelete res err]) res) as Hsettled.
  { intros e -> He. right. right. exists e. split; [apply elem_of_app; right; by left|done]. }
  destruct err as [e|]; [destruct (_ && _) eqn:Htest|]; apply wp_ret; rewrite client_events_snoc;
    (split; [done|]; split; [by eexists|]); [done| |]; intros _.
  - apply (Hsettled _ eq_refl). unfold is_absent. by destruct (err_is TagNotFound e), (err_is TagNoMatch e).
  - by apply (Hsettled _ eq_refl).
Qed.

Lemma wp_delete_resource filter resources res tr :
  each_after (authorized resources filter) (client_events tr) → res ∈ resources →
  wp (delete_resource b filter res) tr (λ tr' err,
    each_after (authorized resources filter) (client_events tr') ∧
    (∃ new, client_events tr' = client_events tr ++ new) ∧
    (err = None → settled_resource filter (client_events tr') res)).
Proof.
  intros Hok Hin. unfold delete_resource. destruct (protected res) eqn:Hprot.
  { apply wp_ret. split; [done|]. split; [exists []; by rewrite app_nil_r|]. left. by apply protected_true. }
  apply protected_false in Hprot.
  destruct filter; [|by apply wp_delete_one].
  apply wp_bind, wp_call. intros [allowed err].
  set (tr1 := tr ++ _). assert (client_events tr1 = client_events tr ++ [EvFilter res allowed err]) as Htr1;
    [apply client_events_snoc|].
  assert (each_after (authorized resources true) (client_events tr1)) as Hok1;
    [rewrite Htr1; by apply each_after_snoc|].
  cbn [fst snd]. destruct err as [e|]; [apply wp_ret; split; [done|]; split; [by eexists|done]|].
  destruct allowed; cbn [negb].
  - eapply wp_mono; [|apply (wp_delete_one true resources); [done..|]].
    + intros tr2 err (? & [new Hnew] & ?). split; [done|]. split; [|done].
      exists ([EvFilter res true None] ++ new). by rewrite Hnew, Htr1, <-app_assoc.
    + intros _. rewrite Htr1. apply last_snoc.
  - apply wp_ret. split; [done|]. split; [by eexists|]. intros _. right. left.
    split; [done|]. rewrite Htr1. apply elem_of_app. right. by left.
Qed.

Lemma wp_deleteRenderedResources filter pre todo tr :
  each_after (authorized (pre ++ todo) filter) (client_events tr) →
  Forall (settled_resource filter (client_events tr)) pre →
  wp (deleteRenderedResources b todo filter) tr (λ tr' err,
    each_after (authorized (pre ++ todo) filter) (client_events tr') ∧
    (err = None → Forall (settled_resource filter (client_events tr')) (pre ++ todo))).
Proof.
  revert pre tr. induction todo as [|res todo IH]; intros pre tr Hok Hpre; cbn [deleteRenderedResources].
  { apply wp_ret. by rewrite app_nil_r in *. }
  apply wp_bind. eapply wp_mono; [|apply (wp_delete_resource filter (pre ++ res :: todo)); [done|]].
  2:{ apply elem_of_app. right. by left. }
  intros tr1 [e|] (Hok1 & [new Hnew] & Hset); [by apply wp_ret|].
  rewrite (cons_middle res), app_assoc in Hok1 |- *. apply IH; [done|].
  apply Forall_app. split; [|by apply Forall_singleton, Hset].
  eapply Forall_impl; [done|]. intros r Hr. rewrite Hnew. by apply settled_mono.
Qed.

End base_theorems.

(** Cleanup deletes nothing it must spare. Every delete is of a rendered resource that is
    neither a CRD nor a namespace and, when a filter is configured, that the filter let
    through in the call just before; and cleanup reports success only when every rendered
    resource was spared on purpose, deleted, or found absent. *)
Theorem deleteRenderedResources_spares {DSCT} (b : ModuleConfig DSCT) resources (filter : bool) :
  wp (BaseHandler.deleteRenderedResources b resources filter) [] (λ tr err,
    each_after (λ before ev, match ev with
      | EvDelete res _ =>
          res ∈ resources ∧ u_gvk res ≠ CustomResourceDefinition ∧ gvk_Kind (u_gvk res) ≠ "Namespace" ∧
          (filter = true → last before = Some (EvFilter res true None))
      | _ => True
      end) (client_events tr) ∧
    (err = None → Forall (settled_resource filter (client_events tr)) resources)).
Proof.
  eapply wp_mono; [|apply (wp_deleteRenderedResources b filter [])]; [|apply each_after_nil|done].
  intros tr err [Hok Hset]. split; [|done]. intros l1 ev l2 Heq. specialize (Hok l1 ev l2 Heq).
  destruct ev as [res e| |]; [|done..]. simpl in Hok. destruct Hok as (? & Hprot & ?).
  unfold spared_kind in Hprot. tauto.
Qed.
