(* ===== verification/ModuleRegistry.v ===== *)
(** * ModuleRegistry: module and component registries and their readiness checkers

    - Module [ModuleRegistry] models [internal/controller/modules/registry.go], Module
      [ComponentRegistry] models [internal/controller/components/registry/registry.go].
      Both also invalidate the cache of the unified registry, which is therefore part of
      their state-changing methods. Iterations take a callback program, so that what the
      callbacks call is visible.
    - [module_IsReady] and [component_IsReady] model the two [readiness.go].

    [multierror] (hashicorp) is the parameter [multierror_error]; [nil] errors are not
    appended and an empty accumulator is [nil]. *)

From S2P Require Import Prelude Effects Conditions Dag Provision Gates Unstructured Namespaces ModuleBase.

(** The interface value of a module; the optional interfaces it may implement are options
    of what they return. Its effectful methods are events, by the module's name. *)
Record ModuleHandler (DSCT : Type) := MkHandler {
  h_GetName : string;
  h_IsEnabled : PlatformModules → bool;
  h_GetGVK : GroupVersionKind;
  h_GetOperatorManifests : option PlatformContext → OperatorManifests;
  h_PopulatePlatformModule : PlatformModules → DSCT → PlatformModules;
  h_GetRelatedImages : list string;
  h_ReadyConditionTyper : option string;
  h_ContainerNamer : option string;
  h_ControllerImager : option string;
  h_InitContainerNamer : option string;
  h_DeploymentNamer : option string;
  h_SubmoduleConditionProvider : option (list (SubmoduleCondition DSCT));
  h_ExtraEnvProvider : option (option (gmap string string));
  h_LegacyWriter : bool;
}.
Arguments MkHandler {DSCT} _ _ _ _ _ _ _ _ _ _ _ _ _ _.
Arguments h_GetName {DSCT} _.
Arguments h_IsEnabled {DSCT} _ _.
Arguments h_GetGVK {DSCT} _.
Arguments h_GetOperatorManifests {DSCT} _ _.
Arguments h_PopulatePlatformModule {DSCT} _ _ _.
Arguments h_GetRelatedImages {DSCT} _.
Arguments h_ReadyConditionTyper {DSCT} _.
Arguments h_ContainerNamer {DSCT} _.
Arguments h_ControllerImager {DSCT} _.
Arguments h_InitContainerNamer {DSCT} _.
Arguments h_DeploymentNamer {DSCT} _.
Arguments h_SubmoduleConditionProvider {DSCT} _.
Arguments h_ExtraEnvProvider {DSCT} _.
Arguments h_LegacyWriter {DSCT} _.

(** ** Error accumulation *)

Definition append_error (errs : list goerr) (err : option goerr) : list goerr :=
  match err with Some e => errs ++ [e] | None => errs end.

Definition ErrorOrNil (multierror_error : list goerr → goerr) (errs : list goerr) : option goerr :=
  match errs with [] => None | _ => Some (multierror_error errs) end.

Module ModuleRegistry.
Section registry.
Context {DSCT : Type}.
Variable multierror_error : list goerr → goerr.

Record registryEntry := MkEntry {
  handler : ModuleHandler DSCT;
  enabled : bool;
  runlevel : Runlevel;
  configSource : ConfigSource;
}.

#[global] Instance registryEntry_node : Node registryEntry := {
  GetName e := h_GetName (handler e);
  GetRunlevel := runlevel;
}.

Definition RegistrationOption : Type := registryEntry → registryEntry.

Definition WithRunlevel (level : Runlevel) : RegistrationOption := λ e,
  MkEntry (handler e) (enabled e) level (configSource e).
Definition WithConfigSource (source : ConfigSource) : RegistrationOption := λ e,
  MkEntry (handler e) (enabled e) (runlevel e) source.

Record t := Mk {
  entries : gmap string registryEntry;
  order : list string;
  resolvedCache : list (list registryEntry);
}.

Definition empty : t := Mk ∅ [] [].

(** The registry and the unified registry, whose cache is invalidated. *)
Definition Add (r : t) (u : UnifiedRegistry.t) (h : ModuleHandler DSCT)
    (opts : list RegistrationOption) : t * UnifiedRegistry.t :=
  let name := h_GetName h in
  let e := foldl (λ e opt, opt e) (MkEntry h true (RL 99) ConfigFromDSC) opts in
  let order' := match entries r !! name with None => order r ++ [name] | Some _ => order r end in
  (Mk (<[name := e]> (entries r)) order' [], UnifiedRegistry.InvalidateCache u).

Definition setEnabledLocked (r : t) (u : UnifiedRegistry.t) (name : string) (b : bool)
    : t * UnifiedRegistry.t :=
  match entries r !! name with
  | Some e => (Mk (<[name := MkEntry (handler e) b (runlevel e) (configSource e)]> (entries r))
                  (order r) [], UnifiedRegistry.InvalidateCache u)
  | None => (r, u)
  end.

Definition Enable (r : t) (u : UnifiedRegistry.t) (name : string) := setEnabledLocked r u name true.
Definition Disable (r : t) (u : UnifiedRegistry.t) (name : string) := setEnabledLocked r u name false.

Definition IsEnabled (r : t) (name : string) : bool :=
  match entries r !! name with Some e => enabled e | None => false end.

Definition sortedNames (r : t) : list string := sort_strings (map_to_list (entries r)).*1.

(** The loop shared by the iterations: [keep] selects the entries that are not skipped. The
    variables the callback captures and changes are the state [S]. *)
Definition for_entries {E S} (r : t) (keep : registryEntry → bool)
    (f : S → registryEntry → prog E (S * option goerr)) (s : S) : prog E (S * option goerr) :=
  acc ← prog_foldl (λ acc name,
    match entries r !! name with
    | Some e =>
        if keep e then res ← f acc.1 e; mret (res.1, append_error acc.2 res.2) else mret acc
    | None => mret acc
    end) (s, []) (sortedNames r);
  mret (acc.1, ErrorOrNil multierror_error acc.2).

Definition ForEach {E S} (r : t) (f : S → ModuleHandler DSCT → prog E (S * option goerr)) (s : S)
    : prog E (S * option goerr) :=
  for_entries r enabled (λ s e, f s (handler e)) s.

Definition ForEachEnabled {E S} (r : t) (f : S → ModuleHandler DSCT → prog E S) (s : S) : prog E S :=
  prog_foldl (λ s name,
    match entries r !! name with
    | Some e => if negb (enabled e) then mret s else f s (handler e)
    | None => mret s
    end) s (sortedNames r).

Definition ForAll {E S} (r : t) (f : S → ModuleHandler DSCT → bool → prog E (S * option goerr)) (s : S)
    : prog E (S * option goerr) :=
  for_entries r (λ _, true) (λ s e, f s (handler e) (enabled e)) s.

Definition ForConfigSource {E S} (r : t) (source : ConfigSource)
    (f : S → ModuleHandler DSCT → bool → prog E (S * option goerr)) (s : S) : prog E (S * option goerr) :=
  for_entries r (λ e, bool_decide (configSource e = source)) (λ s e, f s (handler e) (enabled e)) s.

Definition IsModuleEnabled (r : t) (name : string) (modules : PlatformModules) : bool :=
  match entries r !! name with
  | Some e => enabled e && h_IsEnabled (handler e) modules
  | None => false
  end.

Definition enabled_graph (r : t) : Graph.t registryEntry :=
  foldl (λ g name, match entries r !! name with
                   | Some e => if negb (enabled e) then g else Graph.Add g e
                   | None => g
                   end) Graph.NewGraph (order r).

Definition ResolvedBatches (r : t) : result (list (list registryEntry)) * t :=
  match resolvedCache r with
  | [] =>
      match Graph.Resolve (enabled_graph r) with
      | Err e => (Err e, r)
      | Ok batches => (Ok batches, Mk (entries r) (order r) batches)
      end
  | c => (Ok c, r)
  end.

Definition ReverseBatches (r : t) : result (list (list registryEntry)) :=
  Graph.ReverseBatches (enabled_graph r).

Definition Lookup (r : t) (name : string) : option (ModuleHandler DSCT) :=
  handler <$> entries r !! name.

Definition HasEntries (r : t) : bool := negb (bool_decide (entries r = ∅)).

(** The iteration order does not matter to the answer. *)
Definition AnyEnabled (r : t) (modules : PlatformModules) : bool :=
  existsb (λ ne, enabled ne.2 && h_IsEnabled (handler ne.2) modules) (map_to_list (entries r)).

End registry.
Arguments t DSCT : clear implicits.
Arguments registryEntry DSCT : clear implicits.
End ModuleRegistry.

(** ** Components *)

(** What the registry and the readiness checker use of a [ComponentHandler]. *)
Record ComponentHandler (DSC : Type) := MkComponent {
  ch_GetName : string;
  ch_GroupVersionKind : GroupVersionKind;
  ch_IsEnabled : DSC → bool;
}.
Arguments MkComponent {DSC} _ _ _.
Arguments ch_GetName {DSC} _.
Arguments ch_GroupVersionKind {DSC} _.
Arguments ch_IsEnabled {DSC} _ _.

Module ComponentRegistry.
Section registry.
Context {DSC : Type}.
Variable multierror_error : list goerr → goerr.

Record HandlerEntry := MkEntry {
  handler : ComponentHandler DSC;
  enabled : bool;
  runlevel : Runlevel;
}.

#[global] Instance HandlerEntry_node : Node HandlerEntry := {
  GetName e := ch_GetName (handler e);
  GetRunlevel := runlevel;
}.

Definition RegistrationOption : Type := HandlerEntry → HandlerEntry.

Definition WithRunlevel (level : Runlevel) : RegistrationOption := λ e,
  MkEntry (handler e) (enabled e) level.

Record t := Mk {
  entries : gmap string HandlerEntry;
  order : list string;
  resolvedCache : list (list HandlerEntry);
}.

Definition empty : t := Mk ∅ [] [].

Definition Add (r : t) (u : UnifiedRegistry.t) (ch : ComponentHandler DSC)
    (opts : list RegistrationOption) : t * UnifiedRegistry.t :=
  let name := ch_GetName ch in
  let e := foldl (λ e opt, opt e) (MkEntry ch true (RL 99)) opts in
  let order' := match entries r !! name with None => order r ++ [name] | Some _ => order r end in
  (Mk (<[name := e]> (entries r)) order' [], UnifiedRegistry.InvalidateCache u).

Definition setEnabledLocked (r : t) (u : UnifiedRegistry.t) (name : string) (b : bool)
    : t * UnifiedRegistry.t :=
  match entries r !! name with
  | Some e => (Mk (<[name := MkEntry (handler e) b (runlevel e)]> (entries r)) (order r) [],
               UnifiedRegistry.InvalidateCache u)
  | None => (r, u)
  end.

Definition Enable (r : t) (u : UnifiedRegistry.t) (name : string) := setEnabledLocked r u name true.
Definition Disable (r : t) (u : UnifiedRegistry.t) (name : string) := setEnabledLocked r u name false.

Definition IsEnabled (r : t) (name : string) : bool :=
  match entries r !! name with Some e => enabled e | None => false end.

Definition sortedNames (r : t) : list string := sort_strings (map_to_list (entries r)).*1.

Definition enabled_graph (r : t) : Graph.t HandlerEntry :=
  foldl (λ g name, match entries r !! name with
                   | Some e => if negb (enabled e) then g else Graph.Add g e
                   | None => g
                   end) Graph.NewGraph (order r).

Definition resolvedBatchesLocked (r : t) : result (list (list HandlerEntry)) * t :=
  match resolvedCache r with
  | [] =>
      match Graph.Resolve (enabled_graph r) with
      | Err e => (Err e, r)
      | Ok batches => (Ok batches, Mk (entries r) (order r) batches)
      end
  | c => (Ok c, r)
  end.

Definition ResolvedBatches (r : t) : result (list (list HandlerEntry)) * t :=
  match resolvedCache r with
  | [] => resolvedBatchesLocked r
  | c => (Ok c, r)
  end.

Definition ReverseBatches (r : t) : result (list (list HandlerEntry)) :=
  Graph.ReverseBatches (enabled_graph r).

(** The variables [S] that the callback captures, the error, and the registry, whose cache
    the default resolver may fill. *)
Definition ForEach {E S} (resolveBatches : t → result (list (list HandlerEntry)) * t) (r : t)
    (f : S → ComponentHandler DSC → prog E (S * option goerr)) (s : S) : prog E (S * option goerr * t) :=
  let '(resolved, r') := resolveBatches r in
  match resolved with
  | Err _ =>
      acc ← prog_foldl (λ acc name,
        match entries r' !! name with
        | Some e => if negb (enabled e) then mret acc
                    else res ← f acc.1 (handler e); mret (res.1, append_error acc.2 res.2)
        | None => mret acc
        end) (s, []) (sortedNames r');
      mret (acc.1, ErrorOrNil multierror_error acc.2, r')
  | Ok batches =>
      acc ← prog_foldl (λ acc e, res ← f acc.1 (handler e); mret (res.1, append_error acc.2 res.2))
              (s, []) (concat batches);
      mret (acc.1, ErrorOrNil multierror_error acc.2, r')
  end.

Definition ForAll {E} (r : t) (f : ComponentHandler DSC → bool → prog E (option goerr))
    : prog E (option goerr) :=
  errs ← prog_foldl (λ errs name,
    match entries r !! name with
    | Some e => err ← f (handler e) (enabled e); mret (append_error errs err)
    | None => mret errs
    end) [] (sortedNames r);
  mret (ErrorOrNil multierror_error errs).

Definition Lookup (r : t) (name : string) : option (ComponentHandler DSC) :=
  handler <$> entries r !! name.

Definition AnyComponentEnabled (r : t) (dsc : DSC) : bool :=
  existsb (λ ne, enabled ne.2 && ch_IsEnabled (handler ne.2) dsc) (map_to_list (entries r)).

Definition IsComponentEnabled (r : t) (name : string) (dsc : DSC) : bool :=
  match entries r !! name with
  | Some e => enabled e && ch_IsEnabled (handler e) dsc
  | None => false
  end.

Definition HasEntries (r : t) : bool := negb (bool_decide (entries r = ∅)).

End registry.
Arguments t DSC : clear implicits.
Arguments HandlerEntry DSC : clear implicits.
End ComponentRegistry.

(** ** Readiness *)

(** What the actions of the platform controller call: methods of the module handlers (by
    module name; the two that write DSC status answer with the status they leave), the client's list of component CRs, the clock, the condition manager, and the calls of
    namespace resolution and of the upgrade gates. *)
Inductive ModE : Type → Type :=
| GetModuleStatus (module : string) : ModE (result ModuleStatus)
| GetModuleCRState (module : string) : ModE (CRState * option goerr)
| DeleteModuleCR (module : string) : ModE (option goerr)
| DeleteOperatorResources (module : string) : ModE (option goerr)
| WriteDSCComponentStatus (module : string) (comps : ComponentsStatus) (enabled : bool)
    (releases : list ComponentRelease) : ModE ComponentsStatus
| WriteLegacyStatusFields (module : string) (comps : ComponentsStatus) (enabled : bool)
    : ModE (ComponentsStatus * option goerr)
| ListComponentCRs (gvk : GroupVersionKind) : ModE (result (list Unstructured))
| ModNow : ModE Z
| SetModCondition (c : Condition) : ModE unit
| MarkModTrue (ty : string) : ModE unit
| ModMarkCleared (version : string) (order : Z) : ModE unit
| ClusterCall {X : Type} (e : ClusterE X) : ModE X
| GateCall {X : Type} (e : GateE X) : ModE X.

Definition unknown_module (kind name : string) : goerr :=
  Goerr (kind +:+ " " +:+ quote name +:+ ": unknown node") [TagUnknownNode].

(** The first condition of type [Ready] decides. *)
Fixpoint conditions_ready (conds : list Condition) : bool :=
  match conds with
  | [] => false
  | c :: conds => if String.eqb (c_type c) ConditionTypeReady then String.eqb (c_status c) ConditionTrue
                  else conditions_ready conds
  end.

(** The verdict on a module's status. *)
Definition status_ready (platformVersion : string) (st : ModuleStatus) : bool :=
  if nonempty_str platformVersion then
    String.eqb (ms_ReleaseVersion st) "" || String.eqb (ms_ReleaseVersion st) platformVersion
  else conditions_ready (ms_Conditions st).

Definition module_IsReady {DSCT} (reg : ModuleRegistry.t DSCT) (platformVersion : string)
    (modules : option PlatformModules) : ReadinessChecker ModE := λ name,
  match ModuleRegistry.Lookup reg name with
  | None => mret (false, Some (unknown_module "module" name))
  | Some h =>
      if negb (ModuleRegistry.IsEnabled reg name) then mret (true, None)
      else if match modules with Some m => negb (h_IsEnabled h m) | None => false end then mret (true, None)
      else
        st ← trigger (GetModuleStatus name);
        match st with
        | Err err => mret (false, Some err)
        | Ok st => mret (status_ready platformVersion st, None)
        end
  end.

(** The releases are searched for the platform's entry; the first one counts. *)
Fixpoint find_platform_version `{Nested} (items : list value) : string :=
  match items with
  | [] => ""
  | item :: items =>
      match as_map item with
      | None => find_platform_version items
      | Some entry =>
          if String.eqb (nested_string entry ["name"]) PlatformReleaseName
          then nested_string entry ["version"] else find_platform_version items
      end
  end.

Definition extractPlatformReleaseVersion `{Nested} (u : Unstructured) : string :=
  match NestedSlice (u_object u) ["status"; "releases"] with
  | Ok (Some releases) => find_platform_version releases
  | _ => ""
  end.

(** [cond["type"] == "Ready" && cond["status"] == "True"] for some condition. *)
Definition isUnstructuredReady `{Nested} (u : Unstructured) : bool :=
  match NestedSlice (u_object u) ["status"; "conditions"] with
  | Ok (Some conditions) =>
      existsb (λ c, match as_map c with
                    | None => false
                    | Some cond =>
                        bool_decide (as_string (map_get cond "type") = Some ConditionTypeReady) &&
                        bool_decide (as_string (map_get cond "status") = Some ConditionTrue)
                    end) conditions
  | _ => false
  end.

Definition object_ready `{Nested} (targetVersion : string) (u : Unstructured) : bool :=
  if nonempty_str targetVersion then
    let rv := extractPlatformReleaseVersion u in
    String.eqb rv "" || String.eqb rv targetVersion
  else isUnstructuredReady u.

Definition component_IsReady `{Nested} {DSC} (reg : ComponentRegistry.t DSC) (targetVersion : string)
    : ReadinessChecker ModE := λ name,
  match ComponentRegistry.Lookup reg name with
  | None => mret (false, Some (unknown_module "component" name))
  | Some h =>
      listed ← trigger (ListComponentCRs (ch_GroupVersionKind h));
      match listed with
      | Err err =>
          if err_is TagNotFound err then mret (true, None)
          else mret (false, Some (wrapf ("component " +:+ quote name +:+ ": failed to list CRs") err))
      | Ok [] => mret (true, None)
      | Ok (obj :: _) => mret (object_ready targetVersion obj, None)
      end
  end.

(** [provision.NewCompositeChecker] of the two. *)
Definition platform_checker `{Nested} {DSC DSCT} (components : ComponentRegistry.t DSC)
    (reg : ModuleRegistry.t DSCT) (version : string) (modules : PlatformModules) : ReadinessChecker ModE :=
  CompositeChecker_IsReady
    [component_IsReady components version; module_IsReady reg version (Some modules)].

(** ** Theorems *)

Section registry_iteration.
Context {DSCT : Type}.
Implicit Types (r : ModuleRegistry.t DSCT).
Import ModuleRegistry.

(** The entries in the order of the iterations. *)
Definition sorted_entries r : list (registryEntry DSCT) := omap (λ name, entries r !! name) (sortedNames r).

Lemma omap_map_to_list_keys {A} (m : gmap string A) :
  omap (λ k, m !! k) (map_to_list m).*1 = (map_to_list m).*2.
Proof.
  assert (∀ l, (∀ k x, (k, x) ∈ l → m !! k = Some x) → omap (λ k, m !! k) l.*1 = l.*2) as Hgen.
  { induction l as [|[k x] l IH]; intros Hl; [done|]. cbn. rewrite (Hl k x) by (by left).
    f_equal. apply IH. intros k' x' ?. apply Hl. by right. }
  apply Hgen. intros k x. apply elem_of_map_to_list.
Qed.

Lemma sorted_entries_perm r : sorted_entries r ≡ₚ (map_to_list (entries r)).*2.
Proof.
  unfold sorted_entries, sortedNames. rewrite <-omap_map_to_list_keys.
  by rewrite sort_strings_perm.
Qed.

Lemma elem_of_sorted_entries r e : e ∈ sorted_entries r ↔ ∃ name, entries r !! name = Some e.
Proof. rewrite sorted_entries_perm. apply elem_of_map_values. Qed.

(** The loop over the names as a loop over the entries that are kept. *)
Lemma wp_for_entries {E S} multierror_error r (keep : registryEntry DSCT → bool)
    (f : S → registryEntry DSCT → prog E (S * option goerr)) s tr
    (I : list (registryEntry DSCT) → list (call E) → S → list goerr → Prop) :
  I [] tr s [] →
  (∀ pre e todo tr' s' errs, filter (λ e, keep e = true) (sorted_entries r) = pre ++ e :: todo →
     I pre tr' s' errs →
     wp (f s' e) tr' (λ tr'' res, I (pre ++ [e]) tr'' res.1 (append_error errs res.2))) →
  wp (for_entries multierror_error r keep f s) tr (λ tr' res, ∃ errs,
    I (filter (λ e, keep e = true) (sorted_entries r)) tr' res.1 errs ∧
    res.2 = ErrorOrNil multierror_error errs).
Proof.
  intros HI Hstep. unfold for_entries. apply wp_bind.
  pose (kept := λ names : list string, filter (λ e, keep e = true) (omap (λ name, entries r !! name) names)).
  eapply wp_mono; [|apply (wp_foldl _ _ _ _ (λ names tr' acc, I (kept names) tr' acc.1 acc.2))].
  - intros tr' acc Hacc. apply wp_ret. exists acc.2. by split.
  - done.
  - intros names name todo tr' acc Heq Hacc. simpl.
    assert (kept (names ++ [name]) = kept names ++
      match entries r !! name with Some e => if keep e then [e] else [] | None => [] end) as Hkept.
    { unfold kept. rewrite omap_app, filter_app. f_equal. simpl. destruct (entries r !! name) as [e|]; [|done].
      rewrite filter_cons, filter_nil. by destruct (keep e). }
    rewrite Hkept. destruct (entries r !! name) as [e|] eqn:He; [|apply wp_ret; by rewrite app_nil_r].
    destruct (keep e) eqn:Hkeep; [|apply wp_ret; by rewrite app_nil_r].
    apply wp_bind. eapply wp_mono; [|apply (Hstep (kept names) e (kept todo)); [|done]].
    + intros tr'' res Hres. by apply wp_ret.
    + unfold sorted_entries. rewrite Heq. unfold kept. rewrite omap_app, filter_app. f_equal. cbn.
      rewrite He, filter_cons. by rewrite decide_True.
Qed.

End registry_iteration.

(** The entries that an iteration over the components visits: those of the batches, or the
    enabled ones in name order when the batches cannot be resolved. *)
Definition visited_components {DSC} resolveBatches (r : ComponentRegistry.t DSC)
    : list (ComponentRegistry.HandlerEntry DSC) :=
  match resolveBatches r with
  | (Ok batches, _) => concat batches
  | (Err _, r') => filter (λ e, ComponentRegistry.enabled e = true)
      (omap (λ name, ComponentRegistry.entries r' !! name) (ComponentRegistry.sortedNames r'))
  end.

Lemma wp_ComponentForEach {DSC S} {E : Type → Type} multierror_error resolveBatches (r : ComponentRegistry.t DSC)
    (f : S → ComponentHandler DSC → prog E (S * option goerr)) s tr
    (I : list (ComponentRegistry.HandlerEntry DSC) → list (call E) → S → list goerr → Prop) :
  I [] tr s [] →
  (∀ pre e todo tr' s' errs, visited_components resolveBatches r = pre ++ e :: todo → I pre tr' s' errs →
     wp (f s' (ComponentRegistry.handler e)) tr' (λ tr'' res, I (pre ++ [e]) tr'' res.1 (append_error errs res.2))) →
  wp (ComponentRegistry.ForEach multierror_error resolveBatches r f s) tr (λ tr' res, ∃ errs,
    I (visited_components resolveBatches r) tr' res.1.1 errs ∧ res.1.2 = ErrorOrNil multierror_error errs).
Proof.
  intros HI Hstep. unfold ComponentRegistry.ForEach, visited_components in *.
  destruct (resolveBatches r) as [[batches|err] r']; apply wp_bind.
  - eapply wp_mono; [|apply (wp_foldl _ _ _ _ (λ pre tr' acc, I pre tr' acc.1 acc.2))].
    + intros tr' acc Hacc. apply wp_ret. by exists acc.2.
    + done.
    + intros pre e todo tr' acc Heq Hacc. apply wp_bind. eapply wp_mono; [|by apply (Hstep pre e todo)].
      intros tr'' res Hres. by apply wp_ret.
  - pose (kept := λ names : list string, filter (λ e, ComponentRegistry.enabled e = true)
      (omap (λ name, ComponentRegistry.entries r' !! name) names)).
    eapply wp_mono; [|apply (wp_foldl _ _ _ _ (λ names tr' acc, I (kept names) tr' acc.1 acc.2))].
    + intros tr' acc Hacc. apply wp_ret. by exists acc.2.
    + done.
    + intros names name todo tr' acc Heq Hacc.
      assert (kept (names ++ [name]) = kept names ++ match ComponentRegistry.entries r' !! name with
        | Some e => if ComponentRegistry.enabled e then [e] else [] | None => [] end) as Hkept.
      { unfold kept. rewrite omap_app, filter_app. f_equal. simpl.
        destruct (ComponentRegistry.entries r' !! name) as [e|]; [|done].
        rewrite filter_cons, filter_nil. by destruct (ComponentRegistry.enabled e). }
      rewrite Hkept. destruct (ComponentRegistry.entries r' !! name) as [e|] eqn:He; [|apply wp_ret; by rewrite app_nil_r].
      destruct (ComponentRegistry.enabled e) eqn:Hen; [|apply wp_ret; by rewrite app_nil_r].
      apply wp_bind. eapply wp_mono; [|apply (Hstep (kept names) e (kept todo)); [|done]].
      * intros tr'' res Hres. by apply wp_ret.
      * rewrite Heq. unfold kept. rewrite omap_app, filter_app. f_equal. cbn.
        rewrite He, filter_cons. by rewrite decide_True.
Qed.

(** An iteration over all modules reaches every registered module exactly once, in name
    order, whatever the callbacks return: errors are collected, never short-circuited, and
    the result is [nil] exactly when no callback failed. [Q] is anything the callback is
    known to ensure of the entry and its error. *)
Theorem ForAll_visits_all {DSCT S} {E : Type → Type} multierror_error (r : ModuleRegistry.t DSCT)
    (f : S → ModuleHandler DSCT → bool → prog E (S * option goerr)) (s : S)
    (Q : ModuleRegistry.registryEntry DSCT → option goerr → Prop) :
  (∀ e s tr, wp (f s (ModuleRegistry.handler e) (ModuleRegistry.enabled e)) tr (λ _ res, Q e res.2)) →
  wp (ModuleRegistry.ForAll multierror_error r f s) [] (λ _ res,
    ∃ visited answers, visited ≡ₚ (map_to_list (ModuleRegistry.entries r)).*2 ∧
      visited = omap (λ name, ModuleRegistry.entries r !! name) (ModuleRegistry.sortedNames r) ∧
      Forall2 Q visited answers ∧ (res.2 = None ↔ Forall (λ err, err = None) answers)).
Proof.
  intros HQ. unfold ModuleRegistry.ForAll.
  assert (∀ l : list (ModuleRegistry.registryEntry DSCT), filter (λ _, true = true) l = l) as Hfilter.
  { intros l. induction l as [|e l IH]; [done|]. by rewrite filter_cons, decide_True, IH. }
  eapply wp_mono; [|apply (wp_for_entries multierror_error r (λ _, true) _ s []
    (λ visited _ _ errs, ∃ answers, Forall2 Q visited answers ∧ errs = omap id answers))].
  - intros tr res (errs & (answers & Hf & ->) & Hres). rewrite Hfilter in Hf.
    exists (sorted_entries r), answers. split; [apply sorted_entries_perm|]. split; [done|]. split; [done|].
    rewrite Hres. unfold ErrorOrNil. rewrite Forall_forall. rewrite <-(omap_nil_iff id).
    by destruct (omap id answers).
  - by exists [].
  - intros pre e todo tr' s' errs _ (answers & Hf & ->). eapply wp_mono; [|apply HQ].
    intros tr'' [s'' err] Hq. exists (answers ++ [err]). split; [by apply Forall2_app; [|constructor]|].
    rewrite omap_app. simpl in *. destruct err; simpl; by rewrite ?app_nil_r.
Qed.

Definition sample_handler (name : string) : ModuleHandler unit :=
  MkHandler name (λ modules, bool_decide (modules !! name = Some Managed)) (MkGVK "" "v1" name)
    (λ _, MkManifests [] []) (λ pm _, pm) [] None None None None None None None false.

Definition sample_modules : ModuleRegistry.t unit :=
  (ModuleRegistry.Add (ModuleRegistry.Add ModuleRegistry.empty UnifiedRegistry.NewRegistry
    (sample_handler "ray") []).1 UnifiedRegistry.NewRegistry (sample_handler "kserve") []).1.

Lemma ForAll_visits_all_witness :
  let multierror_error := λ errs, errorf (join "; " (map err_text errs)) in
  let f := λ (seen : list string) (h : ModuleHandler unit) (_ : bool),
    (Ret (seen ++ [h_GetName h], Some (errorf (h_GetName h))) : prog ModE (list string * option goerr)) in
  let Q := λ (e : ModuleRegistry.registryEntry unit) (err : option goerr),
    err = Some (errorf (h_GetName (ModuleRegistry.handler e))) in
  (∃ visited answers,
    visited ≡ₚ (map_to_list (ModuleRegistry.entries sample_modules)).*2 ∧
    visited = omap (λ name, ModuleRegistry.entries sample_modules !! name) (ModuleRegistry.sortedNames sample_modules) ∧
    Forall2 Q visited answers ∧
    (Some (multierror_error [errorf "kserve"; errorf "ray"]) = None ↔ Forall (λ err, err = None) answers)) ∧
  ModuleRegistry.ForAll multierror_error sample_modules f [] =
    Ret (["kserve"; "ray"], Some (errorf "kserve; ray")).
Proof.
  intros multierror_error f Q. split; [|reflexivity].
  exact (ForAll_visits_all multierror_error sample_modules f [] Q (λ e s tr, eq_refl)).
Defined.

(** What makes the platform checker answer that [name] is ready. *)
Definition ready_evidence `{Nested} {DSC DSCT} (components : ComponentRegistry.t DSC)
    (reg : ModuleRegistry.t DSCT) (version : string) (modules : PlatformModules) (name : string)
    (tr : list (call ModE)) : Prop :=
  (∃ h answer, ComponentRegistry.Lookup components name = Some h ∧
     last tr = Some (Call (ListComponentCRs (ch_GroupVersionKind h)) answer) ∧
     ((∃ err, answer = Err err ∧ err_is TagNotFound err = true) ∨ answer = Ok [] ∨
      ∃ obj rest, answer = Ok (obj :: rest) ∧ object_ready version obj = true)) ∨
  (∃ h, ModuleRegistry.Lookup reg name = Some h ∧
     (ModuleRegistry.IsEnabled reg name = false ∨ h_IsEnabled h modules = false ∨
      ∃ st, last tr = Some (Call (GetModuleStatus name) (Ok st)) ∧ status_ready version st = true)).

Section readiness_theorems.
Context `{Nested} {DSC DSCT : Type}.
Variables (components : ComponentRegistry.t DSC) (reg : ModuleRegistry.t DSCT).
Variables (version : string) (modules : PlatformModules) (name : string).

Lemma wp_module_IsReady tr :
  wp (module_IsReady reg version (Some modules) name) tr (λ tr' r,
    (r.1 = true → r.2 = None ∧ ready_evidence components reg version modules name tr') ∧
    (ModuleRegistry.Lookup reg name = None → tr' = tr ∧ r = (false, Some (unknown_module "module" name)))).
Proof.
  unfold module_IsReady. destruct (ModuleRegistry.Lookup reg name) as [h|] eqn:Hl; [|by apply wp_ret].
  destruct (ModuleRegistry.IsEnabled reg name) eqn:Hen; cbn [negb].
  - destruct (h_IsEnabled h modules) eqn:Hm; cbn [negb].
    + apply wp_bind, wp_call. intros [st|err]; apply wp_ret; [|done].
      split; [|done]. intros Hr. split; [done|]. right. exists h. split; [done|]. right. right.
      exists st. split; [apply last_snoc|done].
    + apply wp_ret. split; [|done]. intros _. split; [done|]. right. eauto.
  - apply wp_ret. split; [|done]. intros _. split; [done|]. right. eauto.
Qed.

Lemma wp_component_IsReady tr :
  wp (component_IsReady components version name) tr (λ tr' r,
    (r.1 = true → ready_evidence components reg version modules name tr') ∧
    (ComponentRegistry.Lookup components name = None →
       tr' = tr ∧ r = (false, Some (unknown_module "component" name)))).
Proof.
  unfold component_IsReady. destruct (ComponentRegistry.Lookup components name) as [h|] eqn:Hl; [|by apply wp_ret].
  apply wp_bind, wp_call. intros listed.
  assert (∀ P, (P : Prop) → ((∃ err, listed = Err err ∧ err_is TagNotFound err = true) ∨ listed = Ok [] ∨
      ∃ obj rest, listed = Ok (obj :: rest) ∧ object_ready version obj = true) →
    ready_evidence components reg version modules name
      (tr ++ [Call (ListComponentCRs (ch_GroupVersionKind h)) listed])) as Hev.
  { intros P _ Hl'. left. exists h, listed. split; [done|]. split; [apply last_snoc|done]. }
  destruct listed as [[|obj rest]|err]; [| |destruct (err_is TagNotFound err) eqn:Hnf]; apply wp_ret;
    (split; [|done]); simpl; intros Hr; [|..|done]; apply (Hev True I); eauto 6.
Qed.

End readiness_theorems.

Lemma wp_platform_checker `{Nested} {DSC DSCT} (components : ComponentRegistry.t DSC)
    (reg : ModuleRegistry.t DSCT) version modules name tr0 :
  wp (platform_checker components reg version modules name) tr0 (λ tr r,
    (r.1 = true → ready_evidence components reg version modules name tr) ∧
    (ComponentRegistry.Lookup components name = None → ModuleRegistry.Lookup reg name = None →
       tr = tr0 ∧ r.1 = false ∧ ∃ e, r.2 = Some e ∧ err_is TagUnknownNode e = true)).
Proof.
  unfold platform_checker. cbn [CompositeChecker_IsReady]. apply wp_bind.
  eapply wp_mono; [|apply (wp_component_IsReady components reg version modules)].
  intros tr [ready err] [Hready Hunknown]. cbn [fst snd] in *. destruct err as [e|].
  - destruct (err_is TagUnknownNode e) eqn:He.
    + apply wp_bind. eapply wp_mono; [|apply (wp_module_IsReady components)].
      intros tr' [ready' err'] [Hready' Hunknown']. cbn [fst snd] in *. destruct err' as [e'|].
      * destruct (err_is TagUnknownNode e') eqn:He'; apply wp_ret; (split; [done|]); intros Hc Hm;
          destruct (Hunknown Hc) as [-> _], (Hunknown' Hm) as [-> Heq]; injection Heq as _ Heq.
        -- by eauto.
        -- by rewrite Heq in He'.
      * apply wp_ret. split; [intros ?; by apply Hready'|]. intros _ Hm. by destruct (Hunknown' Hm) as [_ ?].
    + apply wp_ret. split; [done|]. intros Hc. destruct (Hunknown Hc) as [_ [= _ ->]]. done.
  - apply wp_ret. split; [done|]. intros Hc. by destruct (Hunknown Hc) as [_ ?].
Qed.

(** The checker that gates the walk answers ready only with a reason. For a component:
    the list call just made found no CR, or a first CR whose platform release is absent or
    the current one (whose Ready condition is true, without a version). For a module: it is
    disabled in the registry or by the platform configuration, or the status just read has
    such a release. A name that neither registry knows is answered with the unknown-node
    error without any call. *)
Theorem platform_checker_sound `{Nested} {DSC DSCT} (components : ComponentRegistry.t DSC)
    (reg : ModuleRegistry.t DSCT) version modules name :
  wp (platform_checker components reg version modules name) [] (λ tr r,
    (r.1 = true → ready_evidence components reg version modules name tr) ∧
    (ComponentRegistry.Lookup components name = None → ModuleRegistry.Lookup reg name = None →
       tr = [] ∧ r.1 = false ∧ ∃ e, r.2 = Some e ∧ err_is TagUnknownNode e = true)).
Proof. apply wp_platform_checker. Qed.
