(* ===== verification/ModuleActions.v ===== *)
(** * ModuleActions: the actions of the platform controller

    Models [internal/controller/modules/modules_controller_actions.go] (and the
    env-injection data of [pkg/controller/types/types.go] they fill): the gate check, the
    derivation of the Platform CR's modules, two-phase cleanup, the finalizer, provisioning
    over the gated walk, and the evaluation and reporting of module status.

    The reconciliation request is split into what the actions read
    ([ReconciliationRequest]) and what they append to ([outputs]). [DSCT] stands for
    [*DSCContext], whose spec only callbacks read; the status part that the actions write,
    [dsc.Status.Components], is threaded explicitly. *)

From S2P Require Import Prelude Effects Conditions Dag Provision Gates Unstructured Namespaces ModuleBase ModuleRegistry.

(** ** Data *)

Record ModuleImages := MkImages {
  DeploymentName : string;
  ContainerName : string;
  ControllerImage : string;
  InitContainerName : string;
  Images : list string;
  ExtraEnv : option (gmap string string);
}.

Record ModuleEnvInjection := MkInjection {
  PerModuleImages : list ModuleImages;
  i_ApplicationsNamespace : string;
  i_MonitoringNamespace : string;
  i_PlatformType : string;
}.

(** The reconcile instance, by its dynamic type. *)
Inductive Instance (DSCT : Type) :=
| InstPlatform (modules : PlatformModules)
| InstDSC (dsc : DSCT)
| InstOther (type_name : string).
Arguments InstPlatform {DSCT} modules.
Arguments InstDSC {DSCT} dsc.
Arguments InstOther {DSCT} type_name.

(** [%T]. *)
Definition instance_type {DSCT} (i : Instance DSCT) : string :=
  match i with
  | InstPlatform _ => "*v1alpha2.Platform"
  | InstDSC _ => "*v3.DataScienceCluster"
  | InstOther t => t
  end.

Record ReconciliationRequest (DSCT : Type) := MkRR {
  rr_Instance : Instance DSCT;
  rr_UID : string;
  rr_ReleaseName : string;
  rr_ReleaseVersion : string;
  rr_GateEntries : gmap string string;
  rr_ChartsBasePath : string;
  rr_ManifestsBasePath : string;
}.
Arguments MkRR {DSCT} _ _ _ _ _ _ _.
Arguments rr_Instance {DSCT} _.
Arguments rr_UID {DSCT} _.
Arguments rr_ReleaseName {DSCT} _.
Arguments rr_ReleaseVersion {DSCT} _.
Arguments rr_GateEntries {DSCT} _.
Arguments rr_ChartsBasePath {DSCT} _.
Arguments rr_ManifestsBasePath {DSCT} _.

(** The fields of the request the actions append to; [o_EnvInjection] is the extension
    [ExtKeyModuleEnvInjection], [None] when it was never set. *)
Record outputs := MkOutputs {
  o_HelmCharts : list HelmChartInfo;
  o_Manifests : list ManifestInfo;
  o_EnvInjection : option ModuleEnvInjection;
}.

Definition GetModuleEnvInjection (rr : outputs) : option ModuleEnvInjection := o_EnvInjection rr.

Definition SetModuleEnvInjection (rr : outputs) (mei : ModuleEnvInjection) : outputs :=
  MkOutputs (o_HelmCharts rr) (o_Manifests rr) (Some mei).

(** ** The modules of the Platform CR *)

(** The fields of [configApi.PlatformModules]; all are structs with a management state. *)
Definition module_fields : list string :=
  ["AIPipelines"; "AIGateway"; "MLflowOperator"; "Monitoring"; "MCPLifecycleOperator";
   "DatabaseService"; "Kserve"; "Trainer"; "Workbenches"; "OGX"; "Data"; "Dashboard";
   "SparkOperator"; "Ray"; "TrustyAI"; "AIHub"].

(** [var pm configApi.PlatformModules]. *)
Definition zero_PlatformModules : PlatformModules := list_to_map ((λ f, (f, "")) <$> module_fields).

Definition forceManagementStateRemoved (pm : PlatformModules) : PlatformModules :=
  (λ ms : string, if nonempty_str ms then Removed else ms) <$> pm.

Definition normalizePlatformModules (pm : PlatformModules) : PlatformModules :=
  (λ ms : string, if String.eqb ms "" then Removed else ms) <$> pm.

Section modules.
Context {DSCT : Type}.
Variable multierror_error : list goerr → goerr.
Implicit Types (reg : ModuleRegistry.t DSCT) (h : ModuleHandler DSCT).

(** The callback of the two loops; the errors of the iteration are dropped by the code. *)
Definition populate (dscCtx : DSCT) (pm : PlatformModules) h (_ : bool)
    : prog NoE (PlatformModules * option goerr) :=
  Ret (h_PopulatePlatformModule h pm dscCtx, None).

Definition BuildPlatformModules reg (dscCtx : DSCT) : PlatformModules :=
  normalizePlatformModules
    (pure_value (ModuleRegistry.ForAll multierror_error reg (populate dscCtx) zero_PlatformModules)).1.

Definition BuildPlatformModulesForSource reg (dscCtx : DSCT) (source : ConfigSource) : PlatformModules :=
  (pure_value (ModuleRegistry.ForConfigSource multierror_error reg source (populate dscCtx)
     zero_PlatformModules)).1.

(** The spec of the Platform CR; its name and kind are constants. *)
Definition NewPlatformCR reg (dscCtx : DSCT) (source : ConfigSource) : PlatformModules :=
  BuildPlatformModulesForSource reg dscCtx source.

Definition NewPlatformCRRemovedForSource reg (dscCtx : DSCT) (source : ConfigSource) : PlatformModules :=
  forceManagementStateRemoved (NewPlatformCR reg dscCtx source).

Definition modulesFromInstance reg (rr : ReconciliationRequest DSCT) : result PlatformModules :=
  match rr_Instance rr with
  | InstPlatform modules => Ok modules
  | InstDSC dsc => Ok (BuildPlatformModulesForSource reg dsc ConfigFromDSC)
  | InstOther t => Err (errorf ("cannot derive PlatformModules from instance type " +:+ t))
  end.

(** ** What a module contributes to the request *)

Definition defaultContainerName : string := "manager".

Definition containerNameFor h : string := default defaultContainerName (h_ContainerNamer h).
Definition readyConditionTypeFor h : string :=
  default (gvk_Kind (h_GetGVK h) +:+ ReadySuffix) (h_ReadyConditionTyper h).
Definition controllerImageFor h : string := default "" (h_ControllerImager h).
Definition initContainerNameFor h : string := default "" (h_InitContainerNamer h).
Definition extraEnvFor h : option (gmap string string) := default None (h_ExtraEnvProvider h).
Definition submoduleConditionsFor h : list (SubmoduleCondition DSCT) :=
  default [] (h_SubmoduleConditionProvider h).

Fixpoint first_release_name (charts : list HelmChartInfo) : option string :=
  match charts with
  | [] => None
  | chart :: charts => if nonempty_str (ReleaseName chart) then Some (ReleaseName chart)
                       else first_release_name charts
  end.

Definition deploymentNameFor h (manifests : OperatorManifests) : string :=
  let fallback := default (h_GetName h) (first_release_name (HelmCharts manifests)) in
  match h_DeploymentNamer h with
  | Some deploymentName => if nonempty_str deploymentName then deploymentName else fallback
  | None => fallback
  end.

Definition moduleImagesFor h (manifests : OperatorManifests) : ModuleImages :=
  MkImages (deploymentNameFor h manifests) (containerNameFor h) (controllerImageFor h)
    (initContainerNameFor h) (h_GetRelatedImages h) (extraEnvFor h).

(** [if s == "" { s = d }]. *)
Definition or_default (s d : string) : string := if String.eqb s "" then d else s.

Definition appendModuleEnvInjection (rr : outputs)
    (applicationsNamespace monitoringNamespace platformType : string) (moduleImages : ModuleImages)
    : outputs :=
  let mei := match GetModuleEnvInjection rr with
             | None => MkInjection [] applicationsNamespace monitoringNamespace platformType
             | Some mei =>
                 MkInjection (PerModuleImages mei) (or_default (i_ApplicationsNamespace mei) applicationsNamespace)
                   (i_MonitoringNamespace mei) (i_PlatformType mei)
             end in
  SetModuleEnvInjection rr
    (MkInjection (PerModuleImages mei ++ [moduleImages]) (i_ApplicationsNamespace mei)
       (or_default (i_MonitoringNamespace mei) monitoringNamespace)
       (or_default (i_PlatformType mei) platformType)).

(** The operator manifests and the env injection of one module: the closure
    [appendOperatorManifests] and the body of the walk's callback. *)
Definition appendOperatorManifests (platformCtx : PlatformContext) (rr : outputs) h : outputs :=
  let operatorManifests := h_GetOperatorManifests h (Some platformCtx) in
  let rr := appendModuleEnvInjection rr (p_ApplicationsNamespace platformCtx)
              (p_MonitoringNamespace platformCtx) (p_ReleaseName platformCtx)
              (moduleImagesFor h operatorManifests) in
  MkOutputs (o_HelmCharts rr ++ HelmCharts operatorManifests)
    (o_Manifests rr ++ Manifests operatorManifests) (o_EnvInjection rr).

End modules.

(** ** The actions *)

Section actions.
Context `{Nested} {DSCT : Type}.
Variable multierror_error : list goerr → goerr.
Variable gvk_String : GroupVersionKind → string.
Variable NotFound_text : string → string → string → string.
(** The operator's settings: the embedded gate files, the operator namespace and the
    [rhai-applications-namespace]. *)
Variables (gate_files : result (list dir_entry)) (operatorNS configuredAppNS : string).
Variable reg : ModuleRegistry.t DSCT.
Variable rr : ReconciliationRequest DSCT.
Implicit Types (h : ModuleHandler DSCT) (out : outputs).

Definition monitoring_managed (modules : PlatformModules) : bool :=
  bool_decide (modules !! "Monitoring" = Some Managed).

Definition buildPlatformContext : prog ModE (result PlatformContext) :=
  appNS ← lift (@ClusterCall) (ApplicationNamespace gvk_String NotFound_text configuredAppNS);
  match appNS with
  | Err err => mret (Err (wrapf "failed to resolve application namespace" err))
  | Ok appNS =>
      monitoring ← lift (@ClusterCall) (MonitoringNamespace gvk_String NotFound_text);
      match modulesFromInstance multierror_error reg rr with
      | Err err => mret (Err err)
      | Ok modules =>
          otel ← (if monitoring_managed modules then lift (@ClusterCall) resolveOTelOperatorNamespace
                  else mret (Ok ""));
          match otel with
          | Err err => mret (Err (wrapf "failed to resolve OpenTelemetry Operator namespace" err))
          | Ok otelOperatorNS =>
              mret (Ok (MkPlatform appNS monitoring.1 otelOperatorNS (rr_ReleaseName rr)
                (rr_ReleaseVersion rr) modules (rr_ChartsBasePath rr) (rr_ManifestsBasePath rr)))
          end
      end
  end.

Definition checkUpgradeGates : prog ModE (option action_error) :=
  if negb (ModuleRegistry.HasEntries reg) then mret None
  else
    platformCtx ← buildPlatformContext;
    match platformCtx with
    | Err err => mret (Some (ActionErr err))
    | Ok platformCtx =>
        if negb (ModuleRegistry.AnyEnabled reg (p_Modules platformCtx)) then mret None
        else lift (@GateCall) (CheckUpgradeGates gate_files operatorNS (rr_ReleaseVersion rr)
               (rr_GateEntries rr))
    end.

(** *** Two-phase cleanup *)

Definition cleanupOne (platformCtx : PlatformContext) out h : prog ModE (outputs * option goerr) :=
  if h_IsEnabled h (p_Modules platformCtx) && ModuleRegistry.IsEnabled reg (h_GetName h)
  then mret (out, None)
  else
    state ← trigger (GetModuleCRState (h_GetName h));
    match state.2 with
    | Some err => mret (out, Some err)
    | None =>
        match state.1 with
        | CRStateAbsent =>
            err ← trigger (DeleteOperatorResources (h_GetName h));
            mret (out, err)
        | CRStateAlive => mret (appendOperatorManifests platformCtx out h, None)
        | CRStateDeleting => mret (appendOperatorManifests platformCtx out h, None)
        end
    end.

(** The nested loops over the reverse batches; the first error ends them. *)
Fixpoint cleanup_nodes (platformCtx : PlatformContext) (nodes : list UnifiedNode) out
    : prog ModE (outputs * option goerr) :=
  match nodes with
  | [] => mret (out, None)
  | entry :: nodes =>
      match ModuleRegistry.Lookup reg (GetName entry) with
      | None => cleanup_nodes platformCtx nodes out
      | Some h =>
          res ← cleanupOne platformCtx out h;
          match res.2 with
          | Some err => mret (res.1, Some err)
          | None => cleanup_nodes platformCtx nodes res.1
          end
      end
  end.

(** [reverseBatches] is what the package variable [reverseBatchesAll] returned. *)
Definition cleanupDisabledModules (reverseBatches : result (list (list UnifiedNode))) out
    : prog ModE (outputs * option goerr) :=
  if negb (ModuleRegistry.HasEntries reg) then mret (out, None)
  else
    platformCtx ← buildPlatformContext;
    match platformCtx with
    | Err err => mret (out, Some err)
    | Ok platformCtx =>
        match reverseBatches with
        | Err _ => ModuleRegistry.ForAll multierror_error reg (λ out h _, cleanupOne platformCtx out h) out
        | Ok batches => cleanup_nodes platformCtx (concat (ModulesInBatch <$> batches)) out
        end
    end.

(** *** The finalizer of the Platform CR *)

Definition wait_one (pending : list string) h (_ : bool) : prog ModE (list string * option goerr) :=
  let name := h_GetName h in
  state ← trigger (GetModuleCRState name);
  match state.2 with
  | Some stateErr => mret (pending, Some (wrapf ("getting module CR state for " +:+ name) stateErr))
  | None =>
      match state.1 with
      | CRStateAbsent => mret (pending, None)
      | CRStateAlive =>
          delErr ← trigger (DeleteModuleCR name);
          match delErr with
          | Some e => mret (pending, Some (wrapf ("deleting module CR " +:+ name) e))
          | None => mret (pending ++ [name], None)
          end
      | CRStateDeleting => mret (pending ++ [name], None)
      end
  end.

Definition waitForModuleCRDeletion : prog ModE (option goerr) :=
  if negb (ModuleRegistry.HasEntries reg) then mret None
  else
    res ← ModuleRegistry.ForAll multierror_error reg wait_one [];
    match res.2 with
    | Some err => mret (Some err)
    | None =>
        match res.1 with
        | [] => mret None
        | pending => mret (Some (errorf ("waiting for module CRs to be deleted: " +:+ join ", " pending)))
        end
    end.

(** *** Provisioning *)

(** The callback of the walk; it calls nothing and never fails. *)
Definition provision_module (platformCtx : PlatformContext) out (entry : UnifiedNode) : outputs :=
  match ModuleRegistry.Lookup reg (GetName entry) with
  | None => out
  | Some h => if negb (h_IsEnabled h (p_Modules platformCtx)) then out
              else appendOperatorManifests platformCtx out h
  end.

Definition provision_batch (platformCtx : PlatformContext) out (batch : list UnifiedNode) : outputs :=
  foldl (provision_module platformCtx) out (ModulesInBatch batch).

(** What the calls of [WalkBatches] are: the readiness checker over both registries, the
    clock, the condition manager, the process-wide runlevel tracker and the callback, which
    changes the request. *)
Definition walk_calls {DSC} (components : ComponentRegistry.t DSC) (platformCtx : PlatformContext)
    (X : Type) (e : WalkE X) out : prog ModE (X * outputs) :=
  match e in WalkE X return prog ModE (X * outputs) with
  | IsReady name =>
      r ← platform_checker components reg (rr_ReleaseVersion rr) (p_Modules platformCtx) name; mret (r, out)
  | Now => t ← trigger ModNow; mret (t, out)
  | SetCondition c => trigger (SetModCondition c) ;; mret (tt, out)
  | MarkCleared v o => trigger (ModMarkCleared v o) ;; mret (tt, out)
  | ProcessBatch batch => mret (None, provision_batch platformCtx out batch)
  end.

(** How the action ends; a panic of the walk is not recovered here. *)
Inductive provision_result :=
| PReturn (err : option action_error)
| PPanic.

(** [batches] is the answer of the unified registry, [tracker] is [moduleStuckTracker]. *)
Definition provisionModules {DSC} (components : ComponentRegistry.t DSC) (disabled : bool)
    (policies : gmap Z RunlevelPolicy) (batches : result (list (list UnifiedNode)))
    (tracker : StuckTracker.t) out : prog ModE (provision_result * StuckTracker.t * outputs) :=
  if negb (ModuleRegistry.HasEntries reg) then mret (PReturn None, tracker, out)
  else
    platformCtx ← buildPlatformContext;
    match platformCtx with
    | Err err => mret (PReturn (Some (ActionErr err)), tracker, out)
    | Ok platformCtx =>
        res ← interp_state (walk_calls components platformCtx)
                (Walk.WalkBatches disabled policies (rr_UID rr) (rr_ReleaseVersion rr) batches tracker) out;
        let '(outcome, tracker', out') := res in
        match outcome with
        | Walk.WalkPanic => mret (PPanic, tracker', out')
        | Walk.WalkErr walkErr => mret (PReturn (Some (ActionErr walkErr)), tracker', out')
        | Walk.WalkRet requeueAfter =>
            if (requeueAfter >? 0)%Z
            then mret (PReturn (Some (RequeueAfterError requeueAfter)), tracker', out')
            else mret (PReturn None, tracker', out')
        end
    end.

End actions.

(** ** Module status *)

Record perModuleResult (DSCT : Type) := MkResult {
  pm_handler : ModuleHandler DSCT;
  pm_condition : Condition;
  pm_enabled : bool;
  pm_ready : bool;
  pm_degraded : bool;
  pm_moduleStatus : option ModuleStatus;
  pm_submodules : list (SubmoduleCondition DSCT);
}.
Arguments MkResult {DSCT} _ _ _ _ _ _ _.
Arguments pm_handler {DSCT} _.
Arguments pm_condition {DSCT} _.
Arguments pm_enabled {DSCT} _.
Arguments pm_ready {DSCT} _.
Arguments pm_degraded {DSCT} _.
Arguments pm_moduleStatus {DSCT} _.
Arguments pm_submodules {DSCT} _.

Record modulesEvaluation (DSCT : Type) := MkEval {
  perModule : list (perModuleResult DSCT);
  notReady : list string;
  degraded : list string;
  crdAbsent : list string;
  pendingCleanup : list string;
  enabledCount : Z;
}.
Arguments MkEval {DSCT} _ _ _ _ _ _.
Arguments perModule {DSCT} _.
Arguments notReady {DSCT} _.
Arguments degraded {DSCT} _.
Arguments crdAbsent {DSCT} _.
Arguments pendingCleanup {DSCT} _.
Arguments enabledCount {DSCT} _.

(** The switch of the loop over the module's conditions; [(ready, degraded, readyCond)]. *)
Definition condition_switch (acc : bool * bool * option Condition) (c : Condition)
    : bool * bool * option Condition :=
  let '(ready, degraded, readyCond) := acc in
  if String.eqb (c_type c) ConditionTypeReady
  then (String.eqb (c_status c) ConditionTrue, degraded, Some c)
  else if String.eqb (c_type c) ConditionTypeDegraded
  then (ready, String.eqb (c_status c) ConditionTrue, readyCond)
  else acc.

Definition scan_conditions (conds : list Condition) : bool * bool * option Condition :=
  foldl condition_switch (false, false, None) conds.

Definition is_stale (st : ModuleStatus) : bool :=
  (ms_ObservedGeneration st >? 0)%Z && (ms_ObservedGeneration st <? ms_Generation st)%Z.

Section status.
Context {DSCT : Type}.
Implicit Types (eval : modulesEvaluation DSCT) (h : ModuleHandler DSCT).

Definition empty_evaluation : modulesEvaluation DSCT := MkEval [] [] [] [] [] 0.

(** The appends to the fields of [eval]. *)
Definition add_result (r : perModuleResult DSCT) eval : modulesEvaluation DSCT :=
  MkEval (perModule eval ++ [r]) (notReady eval) (degraded eval) (crdAbsent eval)
    (pendingCleanup eval) (enabledCount eval).
Definition add_notReady (name : string) eval : modulesEvaluation DSCT :=
  MkEval (perModule eval) (notReady eval ++ [name]) (degraded eval) (crdAbsent eval)
    (pendingCleanup eval) (enabledCount eval).
Definition add_degraded (name : string) eval : modulesEvaluation DSCT :=
  MkEval (perModule eval) (notReady eval) (degraded eval ++ [name]) (crdAbsent eval)
    (pendingCleanup eval) (enabledCount eval).
Definition add_crdAbsent (name : string) eval : modulesEvaluation DSCT :=
  MkEval (perModule eval) (notReady eval) (degraded eval) (crdAbsent eval ++ [name])
    (pendingCleanup eval) (enabledCount eval).
Definition add_pendingCleanup (name : string) eval : modulesEvaluation DSCT :=
  MkEval (perModule eval) (notReady eval) (degraded eval) (crdAbsent eval)
    (pendingCleanup eval ++ [name]) (enabledCount eval).
Definition count_enabled eval : modulesEvaluation DSCT :=
  MkEval (perModule eval) (notReady eval) (degraded eval) (crdAbsent eval)
    (pendingCleanup eval) (enabledCount eval + 1).

Definition removed_condition (ty : string) : Condition :=
  condition_sev ty ConditionFalse RemovedReason
    ("Module ManagementState is set to " +:+ RemovedReason) SeverityInfo.

(** The branch [!enabled] of the callback. *)
Definition evaluate_disabled eval h : prog ModE (modulesEvaluation DSCT) :=
  let name := h_GetName h in
  let eval := add_result (MkResult h (removed_condition (readyConditionTypeFor h)) false false false None
                            (submoduleConditionsFor h)) eval in
  state ← trigger (GetModuleCRState name);
  match state.2 with
  | Some _ => mret (add_pendingCleanup name eval)
  | None => if negb (bool_decide (state.1 = CRStateAbsent)) then mret (add_pendingCleanup name eval)
            else mret eval
  end.

Definition unread_result h (err : goerr) : perModuleResult DSCT :=
  MkResult h (condition (readyConditionTypeFor h) ConditionFalse NotReadyReason
                ("Failed to get module status: " +:+ err_text err)) true false false None
    (submoduleConditionsFor h).

Definition stale_result h : perModuleResult DSCT :=
  MkResult h (condition (readyConditionTypeFor h) ConditionFalse NotReadyReason
                "Module status is stale (observedGeneration < generation)") true false false None
    (submoduleConditionsFor h).

(** The condition of a module whose status is current. *)
Definition module_condition (ty : string) (state : CRState) (readyCond : option Condition) : Condition :=
  if bool_decide (state = CRStateDeleting) then condition ty ConditionFalse DeletingReason DeletingMessage
  else match readyCond with
       | Some c => condition ty (c_status c) (c_reason c) (c_message c)
       | None => condition ty ConditionFalse NotReadyReason "Module has not reported a Ready condition yet"
       end.

(** The callback for an enabled module. *)
Definition evaluate_enabled eval h : prog ModE (modulesEvaluation DSCT) :=
  let name := h_GetName h in
  let eval := count_enabled eval in
  got ← trigger (GetModuleStatus name);
  match got with
  | Err err =>
      let eval := add_notReady name eval in
      let eval := if err_is TagNoMatch err then add_crdAbsent name eval else eval in
      mret (add_result (unread_result h err) eval)
  | Ok st =>
      if is_stale st then mret (add_result (stale_result h) (add_notReady (name +:+ " (stale)") eval))
      else
        let '(ready, degr, readyCond) := scan_conditions (ms_Conditions st) in
        state ← trigger (GetModuleCRState name);
        let eval := add_result (MkResult h (module_condition (readyConditionTypeFor h) state.1 readyCond)
                      true ready degr (Some st) (submoduleConditionsFor h)) eval in
        if negb ready then mret (add_notReady name eval)
        else if degr then mret (add_degraded name eval)
        else mret eval
  end.

Variable multierror_error : list goerr → goerr.
Variable reg : ModuleRegistry.t DSCT.

Definition evaluate_one (isEnabled : ModuleHandler DSCT → bool) eval h (_ : bool)
    : prog ModE (modulesEvaluation DSCT * option goerr) :=
  eval' ← (if negb (isEnabled h) then evaluate_disabled eval h else evaluate_enabled eval h);
  mret (eval', None).

Definition evaluateModulesStatus (isEnabled : ModuleHandler DSCT → bool) (source : option ConfigSource)
    : prog ModE (result (modulesEvaluation DSCT)) :=
  if negb (ModuleRegistry.HasEntries reg) then mret (Ok empty_evaluation)
  else
    res ← match source with
          | Some src => ModuleRegistry.ForConfigSource multierror_error reg src (evaluate_one isEnabled)
                          empty_evaluation
          | None => ModuleRegistry.ForAll multierror_error reg (evaluate_one isEnabled) empty_evaluation
          end;
    match res.2 with
    | Some err => mret (Err err)
    | None => mret (Ok res.1)
    end.

Definition cleanup_suffix eval : string :=
  match pendingCleanup eval with
  | [] => ""
  | names => "; pending deletion: " +:+ join ", " names
  end.

Definition degraded_suffix eval : string :=
  match degraded eval with [] => "" | names => "; degraded: " +:+ join ", " names end.

Definition writeAggregateCondition eval : prog ModE unit :=
  match notReady eval, degraded eval, pendingCleanup eval with
  | _ :: _, _, _ =>
      trigger (SetModCondition (condition ConditionTypeModulesReady ConditionFalse NotReadyReason
        ("Some modules are not ready: " +:+ join ", " (notReady eval) +:+ degraded_suffix eval +:+
         cleanup_suffix eval)))
  | [], _ :: _, _ =>
      trigger (SetModCondition (condition ConditionTypeModulesReady ConditionFalse ConditionTypeDegraded
        ("Some modules are degraded: " +:+ join ", " (degraded eval) +:+ cleanup_suffix eval)))
  | [], [], _ :: _ =>
      trigger (SetModCondition (condition_sev ConditionTypeModulesReady ConditionTrue RemovedReason
        ("Modules pending deletion: " +:+ join ", " (pendingCleanup eval)) SeverityInfo))
  | [], [], [] =>
      if (enabledCount eval =? 0)%Z then
        trigger (SetModCondition (condition_sev ConditionTypeModulesReady ConditionTrue
          NoManagedModulesReason "All registered modules have ManagementState Removed or are not configured"
          SeverityInfo))
      else trigger (MarkModTrue ConditionTypeModulesReady)
  end.

Definition computeModulesStatusAggregate (rr : ReconciliationRequest DSCT) : prog ModE (option goerr) :=
  match rr_Instance rr with
  | InstPlatform modules =>
      eval ← evaluateModulesStatus (λ h, h_IsEnabled h modules) None;
      match eval with
      | Err err => mret (Some err)
      | Ok eval => writeAggregateCondition eval ;; mret None
      end
  | i => mret (Some (errorf ("computeModulesStatusAggregate requires Platform instance, got " +:+
           instance_type i)))
  end.

Definition updateModuleStatus := computeModulesStatusAggregate.

(** *** Submodules *)

(** [condByType]: a later condition of the same type replaces an earlier one. *)
Definition cond_by_type (conds : list Condition) : gmap string Condition :=
  foldl (λ m c, <[c_type c := c]> m) ∅ conds.

(** [dsc.Status.Components] after [writeSubmoduleComponentStatus]; the context is not nil
    where the code calls it. *)
Definition writeSubmoduleComponentStatus (comps : ComponentsStatus) (sm : SubmoduleCondition DSCT)
    (enabled : bool) : ComponentsStatus :=
  default comps (setDSCComponentField (Some comps) (StatusFieldName sm) enabled []).

Definition sub_enabled (dscCtx : DSCT) (sm : SubmoduleCondition DSCT) : bool :=
  match sub_IsEnabled sm with None => true | Some f => f dscCtx end.

Definition submodule_removed (sm : SubmoduleCondition DSCT) : Condition :=
  condition_sev (DSCConditionType sm) ConditionFalse RemovedReason
    "Submodule ManagementState is set to Removed" SeverityInfo.

(** The condition mirrored for one submodule. *)
Definition mirrored_condition (dscCtx : DSCT) (conds : list Condition) (sm : SubmoduleCondition DSCT)
    : Condition :=
  if negb (sub_enabled dscCtx sm) then submodule_removed sm
  else match cond_by_type conds !! SourceConditionType sm with
       | None => condition (DSCConditionType sm) ConditionFalse AwaitingReadinessReason
           "Submodule is enabled (Managed) but the module operator has not reported its status yet"
       | Some source => condition_sev (DSCConditionType sm) (c_status source) (c_reason source)
           (c_message source) (c_severity source)
       end.

Definition mirrorSubmoduleConditions (dscCtx : DSCT) (comps : ComponentsStatus) (moduleStatus : ModuleStatus)
    (submodules : list (SubmoduleCondition DSCT)) : prog ModE ComponentsStatus :=
  prog_foldl (λ comps sm,
    let comps := writeSubmoduleComponentStatus comps sm (sub_enabled dscCtx sm) in
    trigger (SetModCondition (mirrored_condition dscCtx (ms_Conditions moduleStatus) sm)) ;;
    mret comps) comps submodules.

Definition setSubmodulesFallback (dscCtx : DSCT) (comps : ComponentsStatus)
    (submodules : list (SubmoduleCondition DSCT)) (parentDisabled : bool)
    (enabledReason enabledMessage : string) : prog ModE ComponentsStatus :=
  prog_foldl (λ comps sm,
    let subEnabled := negb parentDisabled && sub_enabled dscCtx sm in
    let comps := writeSubmoduleComponentStatus comps sm subEnabled in
    trigger (SetModCondition
      (if negb subEnabled then submodule_removed sm
       else condition (DSCConditionType sm) ConditionFalse enabledReason enabledMessage)) ;;
    mret comps) comps submodules.

(** An error of the legacy writer is only logged. *)
Definition writeDSCLegacyStatusFields (comps : ComponentsStatus) h (enabled : bool)
    : prog ModE (ComponentsStatus * option goerr) :=
  if h_LegacyWriter h then trigger (WriteLegacyStatusFields (h_GetName h) comps enabled)
  else mret (comps, None).

(** One iteration over the results. *)
Definition report_module (dscCtx : DSCT) (comps : ComponentsStatus) (r : perModuleResult DSCT)
    : prog ModE ComponentsStatus :=
  trigger (SetModCondition (pm_condition r)) ;;
  let releases := match pm_moduleStatus r with Some st => ms_Releases st | None => [] end in
  comps ← trigger (WriteDSCComponentStatus (h_GetName (pm_handler r)) comps (pm_enabled r) releases);
  legacy ← writeDSCLegacyStatusFields comps (pm_handler r) (pm_enabled r);
  let comps := legacy.1 in
  match pm_submodules r with
  | [] => mret comps
  | submodules =>
      match pm_moduleStatus r with
      | Some st => mirrorSubmoduleConditions dscCtx comps st submodules
      | None => setSubmodulesFallback dscCtx comps submodules (negb (pm_enabled r))
                  (c_reason (pm_condition r)) (c_message (pm_condition r))
      end
  end.

(** 30 seconds. *)
Definition crd_requeue : Z := 30 * 1000000000.

(** [comps] is [dsc.Status.Components]; the result carries it as the action leaves it. *)
Definition ComputeModulesStatusDetailed (rr : ReconciliationRequest DSCT) (comps : ComponentsStatus)
    : prog ModE (option action_error * ComponentsStatus) :=
  match rr_Instance rr with
  | InstDSC dsc =>
      let pm := BuildPlatformModulesForSource multierror_error reg dsc ConfigFromDSC in
      eval ← evaluateModulesStatus (λ h, h_IsEnabled h pm) (Some ConfigFromDSC);
      match eval with
      | Err err => mret (Some (ActionErr err), comps)
      | Ok eval =>
          comps ← prog_foldl (report_module dsc) comps (perModule eval);
          writeAggregateCondition eval ;;
          match crdAbsent eval with
          | [] => mret (None, comps)
          | _ => mret (Some (RequeueAfterError crd_requeue), comps)
          end
      end
  | i => mret (Some (ActionErr (errorf ("ComputeModulesStatusDetailed requires DataScienceCluster instance, got "
           +:+ instance_type i))), comps)
  end.

End status.
