(* ===== verification/ModuleTheorems.v ===== *)
(** * ModuleTheorems: correctness of the actions of the platform controller

    Theorems about [ModuleActions], for all answers of the cluster: cleanup deletes a
    module's operator only after its CR is gone, the finalizer releases the Platform CR only
    then, provisioning refines the gated walk and adds each enabled module once. *)

From S2P Require Import Prelude Effects Conditions Dag Provision Gates Unstructured Namespaces ModuleBase ModuleRegistry ModuleActions.

(** ** What the cluster sees of the actions *)

Inductive mod_event :=
| EvStatus (name : string) (answer : result ModuleStatus)
| EvCRState (name : string) (state : CRState) (err : option goerr)
| EvDeleteCR (name : string) (err : option goerr)
| EvDeleteResources (name : string) (err : option goerr)
| EvCondition (c : Condition)
| EvMarkTrue (ty : string)
| EvCleared (v : string) (o : Z)
| EvOther.

Definition mod_event_of (c : call ModE) : mod_event :=
  match c with
  | @Call _ X e x =>
      match e in ModE X return X → mod_event with
      | GetModuleStatus name => EvStatus name
      | GetModuleCRState name => λ r, EvCRState name r.1 r.2
      | DeleteModuleCR name => EvDeleteCR name
      | DeleteOperatorResources name => EvDeleteResources name
      | SetModCondition c => λ _, EvCondition c
      | MarkModTrue ty => λ _, EvMarkTrue ty
      | ModMarkCleared v o => λ _, EvCleared v o
      | _ => λ _, EvOther
      end x
  end.

Definition mod_events (tr : list (call ModE)) : list mod_event := mod_event_of <$> tr.

Lemma mod_events_snoc tr c : mod_events (tr ++ [c]) = mod_events tr ++ [mod_event_of c].
Proof. unfold mod_events. by rewrite fmap_app. Qed.

Definition registered {DSCT} (reg : ModuleRegistry.t DSCT) (h : ModuleHandler DSCT) : Prop :=
  ∃ k e, ModuleRegistry.entries reg !! k = Some e ∧ ModuleRegistry.handler e = h.

Lemma filter_true {A} (l : list A) : filter (λ _, true = true) l = l.
Proof. induction l as [|x l IH]; [done|]. by rewrite filter_cons, decide_True, IH. Qed.

(** [ForAll] as a loop over the entries in name order. *)
Lemma wp_ForAll {DSCT S} {E : Type → Type} multierror_error (reg : ModuleRegistry.t DSCT)
    (f : S → ModuleHandler DSCT → bool → prog E (S * option goerr)) s tr
    (I : list (ModuleRegistry.registryEntry DSCT) → list (call E) → S → list goerr → Prop) :
  I [] tr s [] →
  (∀ pre e todo tr' s' errs, sorted_entries reg = pre ++ e :: todo → I pre tr' s' errs →
     wp (f s' (ModuleRegistry.handler e) (ModuleRegistry.enabled e)) tr'
       (λ tr'' res, I (pre ++ [e]) tr'' res.1 (append_error errs res.2))) →
  wp (ModuleRegistry.ForAll multierror_error reg f s) tr (λ tr' res, ∃ errs,
    I (sorted_entries reg) tr' res.1 errs ∧ res.2 = ErrorOrNil multierror_error errs).
Proof.
  intros HI Hstep. pose proof (wp_for_entries multierror_error reg (λ _, true)
    (λ s e, f s (ModuleRegistry.handler e) (ModuleRegistry.enabled e)) s tr I) as Hwp.
  rewrite !filter_true in Hwp. by apply Hwp.
Qed.

Lemma registered_mid {DSCT} (reg : ModuleRegistry.t DSCT) pre e todo :
  sorted_entries reg = pre ++ e :: todo → registered reg (ModuleRegistry.handler e).
Proof.
  intros Heq. assert (e ∈ sorted_entries reg) as [k Hk]%elem_of_sorted_entries; [|by exists k, e].
  rewrite Heq. apply elem_of_app. right. by left.
Qed.

Lemma ErrorOrNil_None f errs : ErrorOrNil f errs = None ↔ errs = [].
Proof. by destruct errs. Qed.

(** ** The finalizer *)

(** Requests to delete a CR follow a look at it that found it alive; operator resources are
    not touched. *)
Definition finalizer_event (pre : list mod_event) (ev : mod_event) : Prop :=
  match ev with
  | EvDeleteCR n _ => last pre = Some (EvCRState n CRStateAlive None)
  | EvDeleteResources _ _ => False
  | _ => True
  end.

Section finalizer.
Context {DSCT : Type} (multierror_error : list goerr → goerr) (reg : ModuleRegistry.t DSCT).

Record wait_inv (visited : list (ModuleRegistry.registryEntry DSCT)) (evs : list mod_event)
    (pending : list string) (errs : list goerr) : Prop := {
  wait_gone e : pending = [] → errs = [] → e ∈ visited →
    EvCRState (h_GetName (ModuleRegistry.handler e)) CRStateAbsent None ∈ evs;
  wait_done : (∀ n st err, EvCRState n st err ∈ evs → st = CRStateAbsent ∧ err = None) →
    pending = [] ∧ errs = [];
  wait_order : each_after finalizer_event evs;
  wait_deletes n : EvCRState n CRStateAlive None ∈ evs → ∃ err, EvDeleteCR n err ∈ evs;
}.

Lemma wp_wait_one visited e tr pending errs :
  wait_inv visited (mod_events tr) pending errs →
  wp (wait_one pending (ModuleRegistry.handler e) (ModuleRegistry.enabled e)) tr
    (λ tr' res, wait_inv (visited ++ [e]) (mod_events tr') res.1 (append_error errs res.2)).
Proof.
  intros [Hgone Hdone Horder Hdel]. unfold wait_one. set (name := h_GetName (ModuleRegistry.handler e)).
  apply wp_bind, wp_call. intros [state err]. cbn [fst snd].
  assert (∀ pending' errs', pending' ≠ [] ∨ errs' ≠ [] → state ≠ CRStateAlive ∨ err ≠ None →
    (state ≠ CRStateAbsent ∨ err ≠ None) →
    wait_inv (visited ++ [e]) (mod_events (tr ++ [Call (GetModuleCRState name) (state, err)])) pending' errs')
    as Hblocked.
  { intros pending' errs' Hne Hna Hst. rewrite mod_events_snoc. split.
    - intros e' -> ->. by destruct Hne.
    - intros Hall. destruct (Hall name state err) as [-> ->]; [apply elem_of_app; right; by left|].
      by destruct Hst.
    - by apply each_after_snoc.
    - intros n [Hin|Hin]%elem_of_app.
      + destruct (Hdel n Hin) as [err' ?]. exists err'. apply elem_of_app. by left.
      + apply list_elem_of_singleton in Hin. injection Hin as _ <- <-. by destruct Hna. }
  destruct err as [stateErr|].
  { apply wp_ret. apply Hblocked; [right|by right..]. cbn. by destruct errs. }
  destruct state.
  - apply wp_ret. cbn. rewrite mod_events_snoc. split.
    + intros e' -> -> [Hin|Hin%list_elem_of_singleton]%elem_of_app; apply elem_of_app; [left; by apply Hgone|].
      right. subst e'. by left.
    + intros Hall. apply Hdone. intros n st err Hin. eapply Hall, elem_of_app. by left.
    + by apply each_after_snoc.
    + intros n [Hin|Hin%list_elem_of_singleton]%elem_of_app; [|done].
      destruct (Hdel n Hin) as [err' ?]. exists err'. apply elem_of_app. by left.
  - apply wp_bind, wp_call. intros delErr.
    assert (∀ pending' errs', pending' ≠ [] ∨ errs' ≠ [] → wait_inv (visited ++ [e])
      (mod_events ((tr ++ [Call (GetModuleCRState name) (CRStateAlive, None)]) ++
         [Call (DeleteModuleCR name) delErr])) pending' errs') as Halive.
    { intros pending' errs' Hne. rewrite !mod_events_snoc. split.
      - intros e' -> ->. by destruct Hne.
      - intros Hall. destruct (Hall name CRStateAlive None) as [? _]; [|done].
        apply elem_of_app. left. apply elem_of_app. right. by left.
      - apply each_after_snoc; [by apply each_after_snoc|]. apply last_snoc.
      - intros n [[Hin|Hin%list_elem_of_singleton]%elem_of_app|Hin%list_elem_of_singleton]%elem_of_app; [|..|done].
        + destruct (Hdel n Hin) as [err' ?]. exists err'. apply elem_of_app. left. apply elem_of_app. by left.
        + injection Hin as ->. exists delErr. apply elem_of_app. right. by left. }
    destruct delErr; apply wp_ret, Halive; cbn; [right; by destruct errs|left; by destruct pending].
  - apply wp_ret, Hblocked; [left; cbn; by destruct pending|by left..].
Qed.

(** C8: the finalizer lets the Platform CR go exactly when the module CRs are gone: it
    returns [nil] only after each registered module's CR was seen absent (without error), and does
    return [nil] when every look found that. It asks for the deletion of exactly the CRs it
    saw alive, right after seeing them, and never deletes operator resources. *)
Theorem waitForModuleCRDeletion_releases :
  wp (waitForModuleCRDeletion multierror_error reg) [] (λ tr r,
    let evs := mod_events tr in
    (r = None → ∀ h, registered reg h → EvCRState (h_GetName h) CRStateAbsent None ∈ evs) ∧
    ((∀ n st err, EvCRState n st err ∈ evs → st = CRStateAbsent ∧ err = None) → r = None) ∧
    each_after finalizer_event evs ∧
    (∀ n, EvCRState n CRStateAlive None ∈ evs → ∃ err, EvDeleteCR n err ∈ evs)).
Proof.
  unfold waitForModuleCRDeletion, ModuleRegistry.HasEntries. rewrite negb_involutive.
  case_bool_decide as Hempty.
  - apply wp_ret. split; [|split; [done|split; [apply each_after_nil|by intros n ?%elem_of_nil]]].
    intros _ h (k & e & He & _). by rewrite Hempty, lookup_empty in He.
  - apply wp_bind. eapply wp_mono; [|apply (wp_ForAll multierror_error reg wait_one [] []
      (λ visited tr pending errs, wait_inv visited (mod_events tr) pending errs))].
    + intros tr [pending err] (errs & [Hgone Hdone Horder Hdel] & Herr). cbn [fst snd] in *. subst err.
      destruct errs as [|e errs]; [destruct pending as [|n pending]|]; simpl.
      * split; [|done]. intros _ h (k & e & He & <-). apply Hgone; [done..|].
        apply elem_of_sorted_entries. by exists k.
      * split; [done|]. split; [|done]. intros Hall. by destruct (Hdone Hall).
      * split; [done|]. split; [|done]. intros Hall. by destruct (Hdone Hall).
    + split; [by intros ??? ?%elem_of_nil|done|apply each_after_nil|by intros n ?%elem_of_nil].
    + intros pre e todo tr' s' errs _. apply wp_wait_one.
Qed.

End finalizer.

(** ** Two-phase cleanup *)

Lemma elem_of_snoc {A} (x y : A) l : x ∈ l ++ [y] ↔ x ∈ l ∨ x = y.
Proof. by rewrite elem_of_app, list_elem_of_singleton. Qed.

(** The calls since [tr] are of other services than the modules. *)
Definition other_calls (tr tr' : list (call ModE)) : Prop :=
  ∃ new, mod_events tr' = mod_events tr ++ new ∧ Forall (λ ev, ev = EvOther) new.

Lemma wp_lift_cluster {A} (p : prog ClusterE A) tr tr0 :
  other_calls tr tr0 → wp (lift (@ClusterCall) p) tr0 (λ tr' _, other_calls tr tr').
Proof.
  intros (new & Hev & Hnew). eapply wp_mono; [|apply (wp_lift _ p [] tr0 (λ _ _, True))].
  - intros tr' _ (calls & _ & ->). exists (new ++ ((λ _, EvOther) <$> calls)). split.
    + unfold mod_events in *. rewrite fmap_app, Hev, <-app_assoc. do 2 f_equal.
      clear. induction calls as [|[X e x] calls IH]; [done|]. simpl. by f_equal.
    + apply Forall_app. split; [done|]. clear. by induction calls; constructor.
  - eapply wp_mono; [|apply wp_prefix]. done.
Qed.

Lemma wp_buildPlatformContext `{Nested} {DSCT} multierror_error gvk_String NotFound_text appNS
    (reg : ModuleRegistry.t DSCT) rr tr :
  wp (buildPlatformContext multierror_error gvk_String NotFound_text appNS reg rr) tr (λ tr' r,
    other_calls tr tr' ∧
    match r with
    | Ok ctx => modulesFromInstance multierror_error reg rr = Ok (p_Modules ctx)
    | Err _ => True
    end).
Proof.
  unfold buildPlatformContext. apply wp_bind.
  eapply wp_mono; [|apply (wp_lift_cluster _ tr)]; [|exists []; by rewrite app_nil_r].
  intros tr1 [ns|err] Hev1; [|by apply wp_ret]. apply wp_bind.
  eapply wp_mono; [|by apply (wp_lift_cluster _ tr)]. intros tr2 mon Hev2.
  destruct (modulesFromInstance multierror_error reg rr) as [modules|err]; [|by apply wp_ret].
  apply wp_bind. destruct (monitoring_managed modules); [|by repeat apply wp_ret].
  eapply wp_mono; [|by apply (wp_lift_cluster _ tr)]. intros tr3 [otel|err] Hev3; by apply wp_ret.
Qed.

Section cleanup.
Context `{Nested} {DSCT : Type} (multierror_error : list goerr → goerr).
Context (reg : ModuleRegistry.t DSCT) (modules : PlatformModules).

(** Not to run: disabled by the platform configuration or at operator startup. *)
Definition module_off (h : ModuleHandler DSCT) : Prop :=
  h_IsEnabled h modules = false ∨ ModuleRegistry.IsEnabled reg (h_GetName h) = false.

(** An operator's resources are deleted only right after its CR was found gone, and only for
    a registered module that is off; module CRs are not deleted here. *)
Definition cleanup_event (pre : list mod_event) (ev : mod_event) : Prop :=
  match ev with
  | EvDeleteResources n _ => last pre = Some (EvCRState n CRStateAbsent None) ∧
      ∃ h, registered reg h ∧ h_GetName h = n ∧ module_off h
  | EvDeleteCR _ _ => False
  | _ => True
  end.

(** The operators of the modules [kept] are kept alive: their manifests are in the request. *)
Record cleanup_inv (ctx : PlatformContext) (out0 : outputs) (evs : list mod_event) (out : outputs) : Prop := {
  cleanup_order : each_after cleanup_event evs;
  cleanup_kept : ∃ kept, out = foldl (appendOperatorManifests ctx) out0 kept ∧
    (∀ h, h ∈ kept → registered reg h ∧ module_off h ∧
       ∃ st, st ≠ CRStateAbsent ∧ EvCRState (h_GetName h) st None ∈ evs) ∧
    (∀ n st, EvCRState n st None ∈ evs → st ≠ CRStateAbsent → ∃ h, h ∈ kept ∧ h_GetName h = n);
}.

Definition looked_at (evs : list mod_event) (h : ModuleHandler DSCT) : Prop :=
  module_off h → ∃ st, EvCRState (h_GetName h) st None ∈ evs.

(** Events that neither delete nor look. *)
Lemma cleanup_inv_look ctx out0 evs out n st err :
  cleanup_inv ctx out0 evs out → (err ≠ None ∨ st = CRStateAbsent) →
  cleanup_inv ctx out0 (evs ++ [EvCRState n st err]) out.
Proof.
  intros [Horder (kept & Hout & Hkept & Hall)] Hst. split; [by apply each_after_snoc|].
  exists kept. split; [done|]. split.
  - intros h (? & ? & st' & ? & ?)%Hkept. split; [done|]. split; [done|]. exists st'.
    rewrite elem_of_snoc. auto.
  - intros n' st' [Hin|[= -> -> <-]]%elem_of_snoc Hne; [by eapply Hall|]. by destruct Hst.
Qed.

Lemma cleanup_inv_delete ctx out0 evs out n err :
  cleanup_inv ctx out0 evs out → cleanup_event evs (EvDeleteResources n err) →
  cleanup_inv ctx out0 (evs ++ [EvDeleteResources n err]) out.
Proof.
  intros [Horder (kept & Hout & Hkept & Hall)] Hev. split; [by apply each_after_snoc|].
  exists kept. split; [done|]. split.
  - intros h (? & ? & st' & ? & ?)%Hkept. split; [done|]. split; [done|]. exists st'.
    rewrite elem_of_snoc. auto.
  - intros n' st' [Hin|?]%elem_of_snoc Hne; [by eapply Hall|done].
Qed.

Lemma cleanup_inv_keep ctx out0 evs out h st :
  cleanup_inv ctx out0 evs out → registered reg h → module_off h → st ≠ CRStateAbsent →
  cleanup_inv ctx out0 (evs ++ [EvCRState (h_GetName h) st None]) (appendOperatorManifests ctx out h).
Proof.
  intros [Horder (kept & Hout & Hkept & Hall)] Hreg Hoff Hst. split; [by apply each_after_snoc|].
  exists (kept ++ [h]). split; [by rewrite foldl_snoc, <-Hout|]. split.
  - intros h' [(? & ? & st' & ? & ?)%Hkept| ->]%elem_of_snoc; (split; [done|]; split; [done|]).
    + exists st'. rewrite elem_of_snoc. auto.
    + exists st. rewrite elem_of_snoc. auto.
  - intros n st' [Hin|[= -> _]]%elem_of_snoc Hne.
    + destruct (Hall n st' Hin Hne) as (h' & ? & ?). exists h'. rewrite elem_of_snoc. auto.
    + exists h. rewrite elem_of_snoc. auto.
Qed.

Lemma wp_cleanupOne ctx out0 out h tr :
  p_Modules ctx = modules → registered reg h → cleanup_inv ctx out0 (mod_events tr) out →
  wp (cleanupOne reg ctx out h) tr (λ tr' res, cleanup_inv ctx out0 (mod_events tr') res.1 ∧
    (res.2 = None → looked_at (mod_events tr') h) ∧ ∃ new, tr' = tr ++ new).
Proof.
  intros Hm Hreg Hinv. unfold cleanupOne. rewrite Hm.
  destruct (h_IsEnabled h modules && ModuleRegistry.IsEnabled reg (h_GetName h)) eqn:Hen.
  { apply wp_ret. split; [done|]. split; [|exists []; by rewrite app_nil_r].
    apply andb_true_iff in Hen as [Hen1 Hen2]. intros _ [?|?]; congruence. }
  assert (module_off h) as Hoff; [by apply andb_false_iff in Hen|].
  apply wp_bind, wp_call. intros [state err]. cbn [fst snd].
  assert (∀ r : option goerr, r = None → err = None →
    looked_at (mod_events (tr ++ [Call (GetModuleCRState (h_GetName h)) (state, err)])) h) as Hlook.
  { intros _ _ -> _. exists state. rewrite mod_events_snoc, elem_of_snoc. auto. }
  destruct err as [e|].
  - apply wp_ret. rewrite mod_events_snoc. split; [apply cleanup_inv_look; auto|]. split; [done|eauto].
  - destruct state.
    + apply wp_bind, wp_call. intros err'. apply wp_ret. rewrite !mod_events_snoc. split; [|split].
      * apply cleanup_inv_delete; [apply cleanup_inv_look; auto|]. split; [apply last_snoc|eauto].
      * intros _ _. exists CRStateAbsent. rewrite !elem_of_snoc. auto.
      * eexists. by rewrite <-app_assoc.
    + apply wp_ret. split; [rewrite mod_events_snoc; by apply cleanup_inv_keep|]. split; [eauto|eauto].
    + apply wp_ret. split; [rewrite mod_events_snoc; by apply cleanup_inv_keep|]. split; [eauto|eauto].
Qed.

Lemma looked_at_app evs new h : looked_at evs h → looked_at (evs ++ new) h.
Proof. intros Hl Hoff. destruct (Hl Hoff) as [st ?]. exists st. apply elem_of_app. by left. Qed.

Lemma looked_at_prefix tr new h : looked_at (mod_events tr) h → looked_at (mod_events (tr ++ new)) h.
Proof. unfold mod_events. rewrite fmap_app. apply looked_at_app. Qed.

Lemma Lookup_registered name h : ModuleRegistry.Lookup reg name = Some h → registered reg h.
Proof.
  unfold ModuleRegistry.Lookup. intros (e & He & ->)%fmap_Some. by exists name, e.
Qed.

Lemma wp_cleanup_nodes ctx out0 nodes out tr :
  p_Modules ctx = modules → cleanup_inv ctx out0 (mod_events tr) out →
  wp (cleanup_nodes reg ctx nodes out) tr (λ tr' res, cleanup_inv ctx out0 (mod_events tr') res.1 ∧
    (res.2 = None → ∀ entry h, entry ∈ nodes → ModuleRegistry.Lookup reg (GetName entry) = Some h →
       looked_at (mod_events tr') h) ∧ ∃ new, tr' = tr ++ new).
Proof.
  intros Hm. revert out tr. induction nodes as [|entry nodes IH]; intros out tr Hinv; cbn [cleanup_nodes].
  { apply wp_ret. split; [done|]. split; [by intros _ ?? ?%elem_of_nil|exists []; by rewrite app_nil_r]. }
  destruct (ModuleRegistry.Lookup reg (GetName entry)) as [h|] eqn:Hl.
  - apply wp_bind. eapply wp_mono; [|apply (wp_cleanupOne ctx out0); eauto using Lookup_registered].
    intros tr1 [out1 [e|]] (Hinv1 & Hlook & new & ->); cbn [fst snd] in *.
    + apply wp_ret. split; [done|]. split; [done|eauto].
    + eapply wp_mono; [|by apply IH]. intros tr2 res (Hinv2 & Hlook2 & new2 & ->).
      split; [done|]. split; [|eexists; by rewrite <-app_assoc].
      intros Hres entry' h' [->|Hin]%elem_of_cons Hl'; [|by eapply Hlook2].
      simplify_eq. apply looked_at_prefix; auto.
  - eapply wp_mono; [|by apply IH]. intros tr2 res (Hinv2 & Hlook2 & Hnew). split; [done|].
    split; [|done]. intros Hres entry' h' [->|Hin]%elem_of_cons Hl'; [congruence|by eapply Hlook2].
Qed.

Lemma wp_cleanup_all ctx out tr :
  p_Modules ctx = modules → cleanup_inv ctx out (mod_events tr) out →
  wp (ModuleRegistry.ForAll multierror_error reg (λ out h _, cleanupOne reg ctx out h) out) tr (λ tr' res,
    cleanup_inv ctx out (mod_events tr') res.1 ∧
    (res.2 = None → ∀ h, registered reg h → looked_at (mod_events tr') h)).
Proof.
  intros Hm Hinv. eapply wp_mono; [|apply (wp_ForAll multierror_error reg _ out tr
    (λ visited tr' out' errs, cleanup_inv ctx out (mod_events tr') out' ∧
      (errs = [] → ∀ e, e ∈ visited → looked_at (mod_events tr') (ModuleRegistry.handler e))))].
  - intros tr' res (errs & (Hinv' & Hlook) & Hres). split; [done|]. intros Hnone h (k & e & He & <-).
    rewrite Hnone in Hres. apply Hlook; [by eapply ErrorOrNil_None|]. apply elem_of_sorted_entries. by exists k.
  - split; [done|]. by intros _ e ?%elem_of_nil.
  - intros pre e todo tr' out' errs Heq [Hinv' Hlook].
    eapply wp_mono; [|apply (wp_cleanupOne ctx out); [done|by eapply registered_mid|done]].
    intros tr'' [out'' [err|]] (Hinv'' & Hl & new & ->); (split; [done|]); simpl; intros Herrs e' Hin.
    + by destruct errs.
    + apply elem_of_snoc in Hin as [Hin| ->]; [apply looked_at_prefix; auto|auto].
Qed.

End cleanup.

(** C6: cleanup is two-phase. The resources of a module operator are deleted only right
    after a look at the module's CR found it gone, and only for a registered module that is
    off; no module CR is deleted. A module that is off and whose CR still exists keeps its
    operator: exactly these modules' manifests and env injection are added to the request.
    Without an error every module that is off and covered by the order was looked at. *)
Theorem cleanupDisabledModules_two_phase `{Nested} {DSCT} multierror_error gvk_String NotFound_text appNS
    (reg : ModuleRegistry.t DSCT) rr reverseBatches out :
  wp (cleanupDisabledModules multierror_error gvk_String NotFound_text appNS reg rr reverseBatches out) []
    (λ tr res, let evs := mod_events tr in
      (res.1 = out ∧ Forall (λ ev, ev = EvOther) evs ∧ (res.2 = None → ModuleRegistry.entries reg = ∅)) ∨
      ∃ ctx modules, modulesFromInstance multierror_error reg rr = Ok modules ∧ p_Modules ctx = modules ∧
        cleanup_inv reg modules ctx out evs res.1 ∧
        (res.2 = None → ∀ name h, ModuleRegistry.Lookup reg name = Some h →
           match reverseBatches with
           | Err _ => True
           | Ok batches => ∃ m, m ∈ concat batches ∧ un_kind m = KindModule ∧ un_name m = name
           end → looked_at reg modules evs h)).
Proof.
  unfold cleanupDisabledModules, ModuleRegistry.HasEntries. rewrite negb_involutive.
  case_bool_decide as Hempty; [apply wp_ret; left; by repeat constructor|].
  apply wp_bind. eapply wp_mono; [|apply wp_buildPlatformContext].
  intros tr ctx ((new & Hev & Hother) & Hctx). simpl in Hev. subst new. destruct ctx as [ctx|err].
  - assert (cleanup_inv reg (p_Modules ctx) ctx out (mod_events tr) out) as Hinv.
    { rewrite Forall_forall in Hother. split.
      - intros l1 ev l2 Heq. rewrite (Hother ev); [done|]. rewrite Heq. apply elem_of_app. right. by left.
      - exists []. split; [done|]. split; [by intros h ?%elem_of_nil|]. by intros n st ?%Hother. }
    destruct reverseBatches as [batches|err].
    + eapply wp_mono; [|by eapply wp_cleanup_nodes]. intros tr' res (Hinv' & Hlook & _). right.
      exists ctx, (p_Modules ctx). split; [done|]. split; [done|]. split; [done|].
      intros Hres name h Hl (m & Hm & Hk & <-). eapply Hlook; [done| |exact Hl].
      apply elem_of_concat in Hm as (b & Hmb & Hb). apply elem_of_concat. exists (ModulesInBatch b).
      split; [|by apply list_elem_of_fmap_2]. by apply list_elem_of_filter.
    + eapply wp_mono; [|by eapply wp_cleanup_all]. intros tr' res (Hinv' & Hlook). right.
      exists ctx, (p_Modules ctx). split; [done|]. split; [done|]. split; [done|].
      intros Hres name h Hl _. by eapply Hlook, Lookup_registered.
  - apply wp_ret. by left.
Qed.

(** ** Provisioning *)

(** The runlevels marked cleared on the process-wide tracker. *)
Definition cleared (evs : list mod_event) : list (string * Z) :=
  omap (λ ev, match ev with EvCleared v o => Some (v, o) | _ => None end) evs.

Section provisioning.
Context `{Nested} {DSC DSCT : Type} (components : ComponentRegistry.t DSC).
Context (reg : ModuleRegistry.t DSCT) (rr : ReconciliationRequest DSCT) (ctx : PlatformContext).

(** At some point of the run the checker had a reason to answer that [name] is ready. *)
Definition was_ready (tr : list (call ModE)) (name : string) : Prop :=
  ∃ tr1 tr2, tr = tr1 ++ tr2 ∧
    ready_evidence components reg (rr_ReleaseVersion rr) (p_Modules ctx) name tr1.

(** How a run of the walk and the run of the action that interprets it are related. *)
Record walk_related (out0 : outputs) (trE : list (call WalkE)) (trF : list (call ModE)) (out : outputs)
    : Prop := {
  rel_out : out = foldl (provision_batch reg ctx) out0 (processed (events trE));
  rel_cleared : cleared (mod_events trF) = marks (events trE);
  rel_ready name : EvReady name true ∈ events trE → was_ready trF name;
  rel_answers batch err : EvProcess batch err ∈ events trE → err = None;
}.

Lemma was_ready_app tr new name : was_ready tr name → was_ready (tr ++ new) name.
Proof. intros (tr1 & tr2 & -> & ?). exists tr1, (tr2 ++ new). by rewrite app_assoc. Qed.

Lemma cleared_app evs1 evs2 : cleared (evs1 ++ evs2) = cleared evs1 ++ cleared evs2.
Proof. apply omap_app. Qed.

(** The checker marks nothing. *)
Lemma wp_checker_cleared name tr :
  wp (platform_checker components reg (rr_ReleaseVersion rr) (p_Modules ctx) name) tr
    (λ tr' _, cleared (mod_events tr') = cleared (mod_events tr)).
Proof.
  assert (∀ (l : list (call ModE)) c, match mod_event_of c with EvCleared _ _ => False | _ => True end →
    cleared (mod_events (l ++ [c])) = cleared (mod_events l)) as Hsnoc.
  { intros l c Hc. rewrite mod_events_snoc, cleared_app. destruct (mod_event_of c); try done; apply app_nil_r. }
  unfold platform_checker. cbn [CompositeChecker_IsReady]. apply wp_bind.
  assert (∀ tr0, cleared (mod_events tr0) = cleared (mod_events tr) →
    wp (module_IsReady reg (rr_ReleaseVersion rr) (Some (p_Modules ctx)) name) tr0
      (λ tr' _, cleared (mod_events tr') = cleared (mod_events tr))) as Hmodule.
  { intros tr0 Htr0. unfold module_IsReady. destruct (ModuleRegistry.Lookup reg name) as [h|]; [|done].
    destruct (negb (ModuleRegistry.IsEnabled reg name)); [done|]. destruct (negb (h_IsEnabled h _)); [done|].
    apply wp_bind, wp_call. intros [st|e]; apply wp_ret; by rewrite Hsnoc. }
  eapply (wp_mono _ _ (λ tr' _, cleared (mod_events tr') = cleared (mod_events tr))).
  - intros tr1 [ready [e|]] Htr1; [|by apply wp_ret]. cbn [fst snd]. destruct (err_is TagUnknownNode e); [|by apply wp_ret].
    apply wp_bind. eapply wp_mono; [|by apply Hmodule]. intros tr2 [ready' [e'|]] Htr2; [|done]. cbn [fst snd].
    by destruct (err_is TagUnknownNode e').
  - unfold component_IsReady. destruct (ComponentRegistry.Lookup components name) as [h|]; [|done].
    apply wp_bind, wp_call. intros [[|obj rest]|e]; [| |destruct (err_is TagNotFound e)]; apply wp_ret;
      by rewrite Hsnoc.
Qed.

(** A call of the walk that neither processes, marks nor answers ready. *)
Lemma walk_related_observe out0 trE trF out c new :
  walk_related out0 trE trF out → cleared (mod_events new) = [] →
  match event_of c with EvNow _ | EvCond _ => True | _ => False end →
  walk_related out0 (trE ++ [c]) (trF ++ new) out.
Proof.
  intros [Hout Hcl Hready Hans] Hnew Hc. unfold processed, marks, mod_events in *.
  split; rewrite ?walk_events_snoc.
  - unfold processed. rewrite omap_app, Hout. simpl. destruct (event_of c); try done; by rewrite app_nil_r.
  - unfold marks, mod_events. rewrite fmap_app, cleared_app, Hnew, Hcl, omap_app. f_equal.
    simpl. by destruct (event_of c).
  - intros name [Hin|Heq]%elem_of_snoc; [by apply was_ready_app, Hready|]. rewrite <-Heq in Hc; destruct Hc.
  - intros batch err [Hin|Heq]%elem_of_snoc; [by eapply Hans|]. rewrite <-Heq in Hc; destruct Hc.
Qed.

Lemma wp_walk_calls out0 X (e : WalkE X) out trE trF :
  walk_related out0 trE trF out →
  wp (walk_calls reg rr components ctx X e out) trF (λ trF' xs,
    walk_related out0 (trE ++ [Call e xs.1]) trF' xs.2).
Proof.
  intros Hrel. destruct e as [name| |c|v o|batch]; cbn [walk_calls].
  - apply wp_bind. eapply wp_mono; [|apply wp_and; [apply wp_and|]];
      [|apply wp_platform_checker|apply wp_checker_cleared|apply wp_prefix].
    intros trF' [ready err] [[[Hev _] Hcl] [new ->]]. apply wp_ret. cbn [fst snd] in *.
    destruct Hrel as [Hout Hcl0 Hready Hans]. split; rewrite ?walk_events_snoc.
    + unfold processed. rewrite omap_app. simpl. by rewrite app_nil_r.
    + unfold marks. rewrite Hcl, Hcl0, omap_app. simpl. by rewrite app_nil_r.
    + intros name' [Hin|[= -> <-]]%elem_of_snoc; [by apply was_ready_app, Hready|].
      exists (trF ++ new), []. rewrite app_nil_r. auto.
    + intros batch err' [Hin|?]%elem_of_snoc; [by eapply Hans|done].
  - apply wp_bind, wp_call. intros t. apply wp_ret. by apply walk_related_observe.
  - apply wp_bind, wp_call. intros []. apply wp_ret. by apply walk_related_observe.
  - apply wp_bind, wp_call. intros []. apply wp_ret. destruct Hrel as [Hout Hcl0 Hready Hans].
    split; rewrite ?walk_events_snoc; cbn [fst snd].
    + unfold processed. rewrite omap_app. simpl. by rewrite app_nil_r.
    + unfold marks. rewrite mod_events_snoc, cleared_app, Hcl0, omap_app. done.
    + intros name' [Hin|?]%elem_of_snoc; [by apply was_ready_app, Hready|done].
    + intros batch err' [Hin|?]%elem_of_snoc; [by eapply Hans|done].
  - apply wp_ret. destruct Hrel as [Hout Hcl0 Hready Hans]. split; rewrite ?walk_events_snoc; cbn [fst snd].
    + unfold processed. rewrite omap_app, Hout. simpl. by rewrite foldl_snoc.
    + unfold marks. rewrite Hcl0, omap_app. simpl. by rewrite app_nil_r.
    + intros name' [Hin|?]%elem_of_snoc; [by apply Hready|done].
    + intros batch' err' [Hin|[= -> ->]]%elem_of_snoc; [by eapply Hans|done].
Qed.

End provisioning.

(** C9: provisioning refines the gated walk. Unless the platform context cannot be built (the
    request is then unchanged), what the action does is a walk of the resolved batches:
    the request gets exactly the contributions of the batches the walk processed, in order;
    the runlevels marked cleared are the walk's; every readiness answer the gate relied on
    had evidence in the cluster's answers; the walk neither fails nor panics, and the action
    asks for a requeue after exactly the remaining timeout when that is positive. *)
Theorem provisionModules_refines_walk `{Nested} {DSC DSCT} multierror_error gvk_String NotFound_text appNS
    (reg : ModuleRegistry.t DSCT) rr (components : ComponentRegistry.t DSC) disabled policies
    (ops : list UnifiedRegistry.op) tracker out :
  let resolved := (UnifiedRegistry.ResolvedBatches (foldl UnifiedRegistry.apply_op UnifiedRegistry.NewRegistry ops)).1 in
  wp (provisionModules multierror_error gvk_String NotFound_text appNS reg rr components disabled policies
        resolved tracker out) [] (λ tr res,
    (res.2 = out ∧ cleared (mod_events tr) = [] ∧
       (res.1.1 = PReturn None ∨ ∃ err, res.1.1 = PReturn (Some (ActionErr err)))) ∨
    ∃ ctx batches evs d,
      modulesFromInstance multierror_error reg rr = Ok (p_Modules ctx) ∧ resolved = Ok batches ∧
      walk_outcome disabled policies (rr_UID rr) (rr_ReleaseVersion rr) tracker batches evs (Walk.WalkRet d) ∧
      res.2 = foldl (provision_batch reg ctx) out (processed evs) ∧
      cleared (mod_events tr) = marks evs ∧
      (∀ name, EvReady name true ∈ evs → was_ready components reg rr ctx tr name) ∧
      res.1.1 = PReturn (if (d >? 0)%Z then Some (RequeueAfterError d) else None)).
Proof.
  intros resolved. destruct (resolved_batches ops) as (batches & Hres & _ & Hne). fold resolved in Hres.
  unfold provisionModules. destruct (negb (ModuleRegistry.HasEntries reg)).
  { apply wp_ret. left. by split; [|split; [|left]]. }
  apply wp_bind. eapply wp_mono; [|apply wp_buildPlatformContext].
  intros tr ctx ((new & Hev & Hother) & Hctx). simpl in Hev. subst new.
  assert (cleared (mod_events tr) = []) as Hcl.
  { clear -Hother. induction Hother as [|ev evs -> _ IH]; [done|exact IH]. }
  destruct ctx as [ctx|err]; [|apply wp_ret; left; eauto]. rewrite Hres. apply wp_bind.
  eapply wp_mono; [|eapply (wp_interp_state _ (walk_related components reg rr ctx out));
    [intros; by apply wp_walk_calls|by apply (wp_WalkBatches _ _ _ _ tracker)|]];
    [|split; [done|done|by intros name ?%elem_of_nil|by intros b e ?%elem_of_nil]].
  intros tr' [[o tracker'] out'] (trE & Ho & [Hout Hmarks Hready Hans]). cbn [fst snd] in *.
  destruct o as [d|e|].
  - destruct (d >? 0)%Z eqn:Hd; apply wp_ret; right; exists ctx, batches, (events trE), d; rewrite Hd; by split_and!.
  - destruct Ho as (pre & b & post & evs0 & _ & _ & Heq).
    assert (Some e = None) as [=]. apply (Hans b). rewrite Heq. apply elem_of_app. right. by left.
  - done.
Qed.

(** *** What the request gets *)

(** The enabled modules of some batches, in the order they are provisioned. *)
Definition provisioned {DSCT} (reg : ModuleRegistry.t DSCT) (modules : PlatformModules)
    (batches : list (list UnifiedNode)) : list (ModuleHandler DSCT) :=
  omap (λ m, match un_kind m with
             | KindComponent => None
             | KindModule =>
                 match ModuleRegistry.Lookup reg (un_name m) with
                 | Some h => if h_IsEnabled h modules then Some h else None
                 | None => None
                 end
             end) (concat batches).

Section contributions.
Context {DSCT : Type} (reg : ModuleRegistry.t DSCT) (ctx : PlatformContext).
Implicit Types (h : ModuleHandler DSCT).

Lemma provision_batch_modules out batch :
  provision_batch reg ctx out batch =
    foldl (appendOperatorManifests ctx) out (provisioned reg (p_Modules ctx) [batch]).
Proof.
  unfold provision_batch, provisioned, ModulesInBatch, filterBatch, provision_module. cbn [concat].
  rewrite app_nil_r. revert out. induction batch as [|m batch IH]; intros out; [done|].
  rewrite filter_cons. simpl. destruct (un_kind m) eqn:Hk.
  - rewrite decide_False by done. apply IH.
  - rewrite decide_True by done. simpl. rewrite IH. unfold GetName. simpl.
    destruct (ModuleRegistry.Lookup reg (un_name m)) as [h|]; [|done].
    by destruct (h_IsEnabled h (p_Modules ctx)).
Qed.

Lemma provision_batches_modules out batches :
  foldl (provision_batch reg ctx) out batches =
    foldl (appendOperatorManifests ctx) out (provisioned reg (p_Modules ctx) batches).
Proof.
  revert out. induction batches as [|b batches IH]; intros out; [done|]. simpl.
  rewrite IH, provision_batch_modules. unfold provisioned. cbn [concat]. rewrite app_nil_r.
  by rewrite omap_app, foldl_app.
Qed.

(** The images in the injection, of modules [hs]. *)
Definition module_images (hs : list (ModuleHandler DSCT)) : list ModuleImages :=
  (λ h, moduleImagesFor h (h_GetOperatorManifests h (Some ctx))) <$> hs.

Definition injected_images (out : outputs) : list ModuleImages :=
  match o_EnvInjection out with Some mei => PerModuleImages mei | None => [] end.

Lemma appended_modules out hs :
  let out' := foldl (appendOperatorManifests ctx) out hs in
  let manifests := λ h, h_GetOperatorManifests h (Some ctx) in
  o_HelmCharts out' = o_HelmCharts out ++ concat ((λ h, HelmCharts (manifests h)) <$> hs) ∧
  o_Manifests out' = o_Manifests out ++ concat ((λ h, Manifests (manifests h)) <$> hs) ∧
  injected_images out' = injected_images out ++ module_images hs.
Proof.
  induction hs as [|h hs IH] using rev_ind; [cbn; by rewrite !app_nil_r|].
  unfold module_images in *. rewrite foldl_snoc, !fmap_app, !concat_app. destruct IH as (IHc & IHm & IHi).
  cbn zeta in *. rewrite !app_assoc. rewrite <-IHc, <-IHm, <-IHi. simpl. rewrite !app_nil_r.
  split; [done|]. split; [done|]. generalize (foldl (appendOperatorManifests ctx) out hs). intros rr.
  unfold injected_images, appendOperatorManifests, appendModuleEnvInjection, GetModuleEnvInjection. simpl.
  by destruct (o_EnvInjection rr).
Qed.

End contributions.

(** Each batch contributes each of its enabled modules once, in order, and nothing else:
    after the batches, the charts, the kustomize manifests and the per-module images of the
    request are those it had, followed by those of the enabled modules of the batches. *)
Theorem provision_batch_contributes {DSCT} (reg : ModuleRegistry.t DSCT) ctx out batches :
  let hs := provisioned reg (p_Modules ctx) batches in
  let out' := foldl (provision_batch reg ctx) out batches in
  let manifests := λ h : ModuleHandler DSCT, h_GetOperatorManifests h (Some ctx) in
  o_HelmCharts out' = o_HelmCharts out ++ concat ((λ h, HelmCharts (manifests h)) <$> hs) ∧
  o_Manifests out' = o_Manifests out ++ concat ((λ h, Manifests (manifests h)) <$> hs) ∧
  injected_images out' = injected_images out ++ module_images ctx hs.
Proof. intros hs out' manifests. unfold out'. rewrite provision_batches_modules. apply appended_modules. Qed.
