(* ===== verification/ModuleStatusTheorems.v ===== *)
(** * ModuleStatusTheorems: correctness of module status reporting

    Theorems about the evaluation and reporting part of [ModuleActions], for registries that
    any registrations and switches have led to and for all answers of the cluster, and about
    the modules of the Platform CR. *)

From S2P Require Import Prelude Effects Conditions Dag Provision Gates Unstructured Namespaces ModuleBase ModuleRegistry ModuleActions ModuleTheorems.

(** ** Registries the program can build *)

(** The two registration options. *)
Inductive registration_option :=
| OptRunlevel (level : Runlevel)
| OptConfigSource (source : ConfigSource).

Definition option_fun {DSCT} (o : registration_option) : ModuleRegistry.registryEntry DSCT → ModuleRegistry.registryEntry DSCT :=
  match o with
  | OptRunlevel level => ModuleRegistry.WithRunlevel level
  | OptConfigSource source => ModuleRegistry.WithConfigSource source
  end.

Inductive registry_op (DSCT : Type) :=
| OpAdd (h : ModuleHandler DSCT) (opts : list registration_option)
| OpEnable (name : string)
| OpDisable (name : string).
Arguments OpAdd {DSCT} h opts.
Arguments OpEnable {DSCT} name.
Arguments OpDisable {DSCT} name.

Definition apply_registry_op {DSCT} (r : ModuleRegistry.t DSCT) (o : registry_op DSCT) : ModuleRegistry.t DSCT :=
  match o with
  | OpAdd h opts => (ModuleRegistry.Add r UnifiedRegistry.NewRegistry h (option_fun <$> opts)).1
  | OpEnable name => (ModuleRegistry.Enable r UnifiedRegistry.NewRegistry name).1
  | OpDisable name => (ModuleRegistry.Disable r UnifiedRegistry.NewRegistry name).1
  end.

(** The default registry after [ops]. *)
Definition module_registry {DSCT} (ops : list (registry_op DSCT)) : ModuleRegistry.t DSCT :=
  foldl apply_registry_op ModuleRegistry.empty ops.

(** Entries are kept under the name of their handler. *)
Definition names_match {DSCT} (r : ModuleRegistry.t DSCT) : Prop :=
  ∀ k e, ModuleRegistry.entries r !! k = Some e → h_GetName (ModuleRegistry.handler e) = k.

Lemma options_handler {DSCT} opts (e : ModuleRegistry.registryEntry DSCT) :
  ModuleRegistry.handler (foldl (λ e opt, opt e) e (option_fun <$> opts)) = ModuleRegistry.handler e.
Proof. revert e. induction opts as [|o opts IH]; intros e; [done|]. simpl. rewrite IH. by destruct o. Qed.

Lemma names_match_set_enabled {DSCT} (r : ModuleRegistry.t DSCT) u name b :
  names_match r → names_match (ModuleRegistry.setEnabledLocked r u name b).1.
Proof.
  intros Hr. unfold ModuleRegistry.setEnabledLocked.
  destruct (ModuleRegistry.entries r !! name) as [e|] eqn:He; [|done]. intros k e'. simpl.
  intros [[<- <-]|[_ Hk]]%lookup_insert_Some; [by apply (Hr name e)|by apply Hr].
Qed.

Lemma names_match_registry {DSCT} (ops : list (registry_op DSCT)) : names_match (module_registry ops).
Proof.
  unfold module_registry. assert (∀ r, names_match r → names_match (foldl apply_registry_op r ops)) as Hgen;
    [|apply Hgen; intros k e; simpl; by rewrite lookup_empty].
  induction ops as [|o ops IH]; intros r Hr; [done|]. apply IH.
  destruct o as [h opts|name|name]; simpl; [|by apply names_match_set_enabled..].
  intros k e. simpl. intros [[<- <-]|[_ Hk]]%lookup_insert_Some; [by rewrite options_handler|by apply Hr].
Qed.

Lemma sorted_names_NoDup {DSCT} (r : ModuleRegistry.t DSCT) :
  names_match r → NoDup ((λ e, h_GetName (ModuleRegistry.handler e)) <$> sorted_entries r).
Proof.
  intros Hr. rewrite sorted_entries_perm.
  assert ((λ e, h_GetName (ModuleRegistry.handler e)) <$> (map_to_list (ModuleRegistry.entries r)).*2 =
    (map_to_list (ModuleRegistry.entries r)).*1) as ->; [|apply NoDup_fst_map_to_list].
  rewrite <-list_fmap_compose. apply list_fmap_ext. intros i [k e] Hi.
  simpl. apply Hr, elem_of_map_to_list. by eapply list_elem_of_lookup_2.
Qed.

(** ** What a module reported *)

(** The status read for [name] was current, its last [Ready] condition was True and its last
    [Degraded] condition, if any, was not. *)
Definition healthy (evs : list mod_event) (name : string) : Prop :=
  ∃ st, EvStatus name (Ok st) ∈ evs ∧ is_stale st = false ∧
    (scan_conditions (ms_Conditions st)).1 = (true, false).

(** The CR of [name] was seen to be absent. *)
Definition gone (evs : list mod_event) (name : string) : Prop := EvCRState name CRStateAbsent None ∈ evs.

Definition reads (ev : mod_event) : Prop :=
  match ev with EvStatus _ _ | EvCRState _ _ _ => True | _ => False end.

Definition event_name (ev : mod_event) : option string :=
  match ev with EvStatus n _ | EvCRState n _ _ => Some n | _ => None end.

(** A module's own condition is True only on evidence: its current status said Ready and its
    CR was not being deleted. *)
Definition true_with_reason {DSCT} (evs : list mod_event) (r : perModuleResult DSCT) : Prop :=
  c_type (pm_condition r) = readyConditionTypeFor (pm_handler r) ∧
  (c_status (pm_condition r) = ConditionTrue →
     pm_enabled r = true ∧ ∃ st state err,
       EvStatus (h_GetName (pm_handler r)) (Ok st) ∈ evs ∧ is_stale st = false ∧
       (scan_conditions (ms_Conditions st)).1.1 = true ∧
       EvCRState (h_GetName (pm_handler r)) state err ∈ evs ∧ state ≠ CRStateDeleting).

(** The [Ready] condition kept by the scan is the one the flag was read from. *)
Lemma scan_ready conds ready degr c :
  scan_conditions conds = (ready, degr, Some c) → ready = String.eqb (c_status c) ConditionTrue.
Proof.
  unfold scan_conditions. revert ready degr. induction conds as [|c' conds IH] using rev_ind; intros ready degr; [done|].
  rewrite foldl_snoc. destruct (foldl condition_switch (false, false, None) conds) as [[ready' degr'] cond'].
  unfold condition_switch. destruct (String.eqb (c_type c') ConditionTypeReady); [by intros [= <- _ <-]|].
  destruct (String.eqb (c_type c') ConditionTypeDegraded); intros [= <- <- ->]; by eapply IH.
Qed.

Section evaluation.
Context {DSCT : Type} (isEnabled : ModuleHandler DSCT → bool).
Implicit Types (e : ModuleRegistry.registryEntry DSCT) (evs : list mod_event).

Notation hd e := (ModuleRegistry.handler e).
Notation nm e := (h_GetName (ModuleRegistry.handler e)).

Record eval_inv (visited : list (ModuleRegistry.registryEntry DSCT)) evs (eval : modulesEvaluation DSCT)
    : Prop := {
  ev_reads : Forall reads evs;
  ev_names ev n : ev ∈ evs → event_name ev = Some n → n ∈ (λ e, nm e) <$> visited;
  ev_healthy : notReady eval = [] ∧ degraded eval = [] ↔
    (∀ e, e ∈ visited → isEnabled (hd e) = true → healthy evs (nm e));
  ev_pending : pendingCleanup eval = [] ↔
    (∀ e, e ∈ visited → isEnabled (hd e) = false → gone evs (nm e));
  ev_crd : crdAbsent eval = [] ↔
    (∀ n err, EvStatus n (Err err) ∈ evs → err_is TagNoMatch err = false);
  ev_count : (0 <= enabledCount eval)%Z ∧
    (enabledCount eval = 0%Z ↔ ∀ e, e ∈ visited → isEnabled (hd e) = false);
  ev_handlers : pm_handler <$> perModule eval = (λ e, hd e) <$> visited;
  ev_results r : r ∈ perModule eval → true_with_reason evs r ∧ pm_enabled r = isEnabled (pm_handler r);
}.

Lemma eval_inv_start : eval_inv [] [] empty_evaluation.
Proof.
  split; simpl; try done; try (by intros ? ?%elem_of_nil); try (by intros ?? ?%elem_of_nil).
  - split; [by intros _ ? ?%elem_of_nil|done].
  - split; [by intros _ ? ?%elem_of_nil|done].
  - split; [by intros _ ?? ?%elem_of_nil|done].
  - split; [done|]. split; [by intros _ ? ?%elem_of_nil|done].
Qed.

Lemma true_with_reason_app evs new (r : perModuleResult DSCT) :
  true_with_reason evs r → true_with_reason (evs ++ new) r.
Proof.
  intros [Hty Htrue]. split; [done|].
  intros (Hen & st & state & err & ? & ? & ? & ? & ?)%Htrue. split; [done|]. exists st, state, err.
  rewrite !elem_of_app. auto 10.
Qed.

(** What the events of one more module add: facts about other names are as before. *)
Section step.
Context (visited : list (ModuleRegistry.registryEntry DSCT)) (e : ModuleRegistry.registryEntry DSCT).
Context (evs new : list mod_event) (eval : modulesEvaluation DSCT).
Hypothesis Hinv : eval_inv visited evs eval.
Hypothesis Hfresh : nm e ∉ (λ e, nm e) <$> visited.
Hypothesis Hnew : Forall (λ ev, reads ev ∧ event_name ev = Some (nm e)) new.

Lemma step_event_old ev n :
  n ∈ (λ e, nm e) <$> visited → event_name ev = Some n → ev ∈ evs ++ new → ev ∈ evs.
Proof.
  intros Hn Hev [?|Hin]%elem_of_app; [done|]. rewrite Forall_forall in Hnew.
  destruct (Hnew ev Hin) as [_ Heq]. congruence.
Qed.

Lemma step_event_new ev : event_name ev = Some (nm e) → ev ∈ evs ++ new → ev ∈ new.
Proof.
  intros Hev [Hin|?]%elem_of_app; [|done]. destruct Hfresh. by apply (ev_names _ _ _ Hinv ev).
Qed.

Lemma step_healthy n : n ∈ (λ e, nm e) <$> visited → healthy (evs ++ new) n ↔ healthy evs n.
Proof.
  intros Hn. split; intros (st & Hin & ?); exists st; (split; [|done]).
  - by apply (step_event_old _ n).
  - apply elem_of_app. by left.
Qed.

Lemma step_gone n : n ∈ (λ e, nm e) <$> visited → gone (evs ++ new) n ↔ gone evs n.
Proof.
  intros Hn. split; intros Hin; [by apply (step_event_old _ n)|]. apply elem_of_app. by left.
Qed.

Lemma step_forall (P Q : string → Prop) (b : bool) :
  (∀ n, n ∈ (λ e, nm e) <$> visited → P n ↔ Q n) →
  (∀ e', e' ∈ visited ++ [e] → isEnabled (hd e') = b → P (nm e')) ↔
  (∀ e', e' ∈ visited → isEnabled (hd e') = b → Q (nm e')) ∧ (isEnabled (hd e) = b → P (nm e)).
Proof.
  intros HPQ. assert (∀ e', e' ∈ visited → nm e' ∈ (λ e, nm e) <$> visited) as Hmem.
  { intros e' Hin. apply list_elem_of_fmap. eauto. }
  split.
  - intros Hall. split; [|apply Hall; rewrite elem_of_snoc; by right].
    intros e' Hin Hb. apply HPQ; [auto|]. apply Hall; [rewrite elem_of_snoc; by left|done].
  - intros [Hall He] e' [Hin| ->]%elem_of_snoc Hb; [apply HPQ; auto|auto].
Qed.

(** One more module: what each part of the invariant asks of the new evaluation. *)
Lemma eval_inv_step (eval' : modulesEvaluation DSCT) r :
  (notReady eval' = [] ∧ degraded eval' = [] ↔
     (notReady eval = [] ∧ degraded eval = []) ∧ (isEnabled (hd e) = true → healthy new (nm e))) →
  (pendingCleanup eval' = [] ↔ pendingCleanup eval = [] ∧ (isEnabled (hd e) = false → gone new (nm e))) →
  (crdAbsent eval' = [] ↔ crdAbsent eval = [] ∧
     ∀ n err, EvStatus n (Err err) ∈ new → err_is TagNoMatch err = false) →
  enabledCount eval' = (enabledCount eval + if isEnabled (hd e) then 1 else 0)%Z →
  perModule eval' = perModule eval ++ [r] →
  pm_handler r = hd e → true_with_reason new r → pm_enabled r = isEnabled (hd e) →
  eval_inv (visited ++ [e]) (evs ++ new) eval'.
Proof.
  intros Hh Hp Hc Hn Hm Hr Htrue Hren. destruct Hinv as [Ir In Ih Ip Ic Ico Iha Ire]. split.
  - apply Forall_app. split; [done|]. eapply Forall_impl; [done|]. by intros ev [? _].
  - intros ev n [Hin|Hin]%elem_of_app Hev; rewrite fmap_app; apply elem_of_app; [left; by eapply In|right].
    rewrite Forall_forall in Hnew. destruct (Hnew ev Hin) as [_ Heq]. apply list_elem_of_singleton. congruence.
  - rewrite Hh, Ih, (step_forall (healthy (evs ++ new)) (healthy evs)) by apply step_healthy.
    enough (healthy (evs ++ new) (nm e) ↔ healthy new (nm e)) as -> by done.
    split; intros (st & Hin & ?); exists st; (split; [|done]).
    + by apply step_event_new.
    + apply elem_of_app. by right.
  - rewrite Hp, Ip, (step_forall (gone (evs ++ new)) (gone evs)) by apply step_gone.
    enough (gone (evs ++ new) (nm e) ↔ gone new (nm e)) as -> by done.
    split; intros Hin; [by apply step_event_new|]. apply elem_of_app. by right.
  - rewrite Hc, Ic. setoid_rewrite elem_of_app. naive_solver.
  - rewrite Hn. destruct Ico as [? Ico]. split; [destruct (isEnabled (hd e)); lia|].
    setoid_rewrite elem_of_snoc. destruct (isEnabled (hd e)) eqn:He.
    + split; [lia|]. intros Hall. rewrite Hall in He by (by right). done.
    + rewrite Z.add_0_r, Ico. split; [intros Hall e' [?| ->]; auto|auto].
  - rewrite Hm, !fmap_app, Iha. simpl. by rewrite Hr.
  - rewrite Hm. intros r' [Hin| ->]%elem_of_snoc.
    + destruct (Ire r' Hin). split; [by apply true_with_reason_app|done].
    + rewrite Hr, <-Hren. split; [|done]. destruct Htrue as [Hty Htrue]. split; [done|].
      intros (Hen & st & state & err & ? & ? & ? & ? & ?)%Htrue. split; [done|]. exists st, state, err.
      rewrite !elem_of_app. auto 10.
Qed.
End step.

Section one.
Context (visited : list (ModuleRegistry.registryEntry DSCT)) (e : ModuleRegistry.registryEntry DSCT).
Hypothesis Hfresh : nm e ∉ (λ e, nm e) <$> visited.

Lemma wp_evaluate_disabled eval tr :
  isEnabled (hd e) = false → eval_inv visited (mod_events tr) eval →
  wp (evaluate_disabled eval (hd e)) tr (λ tr' eval', eval_inv (visited ++ [e]) (mod_events tr') eval').
Proof.
  intros He Hinv. unfold evaluate_disabled. apply wp_bind, wp_call. intros [state err]. cbn [fst snd].
  assert (∀ b eval', (b = true ↔ state = CRStateAbsent ∧ err = None) →
    eval' = (if b : bool then add_result (MkResult (hd e) (removed_condition (readyConditionTypeFor (hd e)))
                       false false false None (submoduleConditionsFor (hd e))) eval
             else add_pendingCleanup (nm e) (add_result (MkResult (hd e)
                       (removed_condition (readyConditionTypeFor (hd e))) false false false None
                       (submoduleConditionsFor (hd e))) eval)) →
    eval_inv (visited ++ [e]) (mod_events (tr ++ [Call (GetModuleCRState (nm e)) (state, err)])) eval') as Hstep.
  { intros b eval' Hb ->. rewrite mod_events_snoc. eapply eval_inv_step; [done|done|by repeat constructor|..].
    - rewrite He. split; [intros ?; split; [by destruct b|done]|]. intros [? _]. by destruct b.
    - rewrite He. unfold gone. setoid_rewrite list_elem_of_singleton. simpl. destruct b; simpl.
      + split; [|by intros [? _]]. intros ?. split; [done|]. by destruct Hb as [[-> ->] _].
      + split; [by destruct (pendingCleanup eval)|]. intros [_ Hg].
        destruct Hb as [_ Hb]. specialize (Hg eq_refl). injection Hg as <- <-. by discriminate Hb.
    - transitivity (crdAbsent eval = []); [by destruct b|].
      split; [|by intros [? _]]. intros ?. split; [done|]. by intros n err' ?%list_elem_of_singleton.
    - rewrite He, Z.add_0_r. by destruct b.
    - by destruct b.
    - done.
    - done.
    - by rewrite He. }
  destruct err as [err|]; [apply wp_ret, (Hstep false); [by split; [|intros [_ ?]]|done]|].
  case_bool_decide as Hst; cbn [negb]; apply wp_ret; [by apply (Hstep true)|].
  apply (Hstep false); [by split; [|intros [? _]]|done].
Qed.

(** Evaluations of an enabled module that end in a result whose condition is False. *)
Lemma eval_inv_unhealthy eval tr new (eval' : modulesEvaluation DSCT) r x absent :
  isEnabled (hd e) = true → eval_inv visited (mod_events tr) eval →
  Forall (λ ev, reads ev ∧ event_name ev = Some (nm e)) new →
  ¬ healthy new (nm e) →
  (absent = [] ↔ ∀ n err, EvStatus n (Err err) ∈ new → err_is TagNoMatch err = false) →
  eval' = MkEval (perModule eval ++ [r]) (notReady eval ++ [x]) (degraded eval) (crdAbsent eval ++ absent)
    (pendingCleanup eval) (enabledCount eval + 1) →
  pm_handler r = hd e → true_with_reason new r → pm_enabled r = true →
  eval_inv (visited ++ [e]) (mod_events tr ++ new) eval'.
Proof.
  intros He Hinv Hnew Hun Habs -> Hr Htrue Hren.
  eapply eval_inv_step; try done; rewrite ?He; try done; simpl.
  - split; [intros [? _]; by destruct (notReady eval)|]. intros [_ Hh]. by destruct Hun; apply Hh.
  - split; [done|by intros [? _]].
  - rewrite <-Habs. split; [apply app_nil|intros [-> ->]; done].
Qed.

(** What a current status and a look at the CR say of one module. *)
Section current.
Context (st : ModuleStatus) (state : CRState) (err : option goerr).
Context (ready degr : bool) (readyCond : option Condition).
Hypothesis Hscan : scan_conditions (ms_Conditions st) = (ready, degr, readyCond).
Hypothesis Hstale : is_stale st = false.

Let new : list mod_event := [EvStatus (nm e) (Ok st); EvCRState (nm e) state err].
Let r : perModuleResult DSCT :=
  MkResult (hd e) (module_condition (readyConditionTypeFor (hd e)) state readyCond) true ready degr (Some st)
    (submoduleConditionsFor (hd e)).

Lemma elem_of_look (ev : mod_event) : ev ∈ new ↔ ev = EvStatus (nm e) (Ok st) ∨ ev = EvCRState (nm e) state err.
Proof. unfold new. by rewrite elem_of_cons, list_elem_of_singleton. Qed.

Lemma current_true_with_reason : true_with_reason new r.
Proof.
  split; [unfold r, module_condition; simpl; case_bool_decide; [done|by destruct readyCond]|].
  unfold r, module_condition. simpl. case_bool_decide as Hdel; [done|].
  destruct readyCond as [c|]; simpl; [|done]. intros Hst. split; [done|]. exists st, state, err.
  split; [apply elem_of_look; by left|]. split; [done|]. split; [|split; [apply elem_of_look; by right|done]].
  rewrite Hscan. simpl. by rewrite (scan_ready _ _ _ _ Hscan), Hst.
Qed.

Lemma current_healthy : healthy new (nm e) ↔ ready = true ∧ degr = false.
Proof.
  split.
  - intros (st' & [[= ->]|?]%elem_of_look & _ & Hs); [|done]. rewrite Hscan in Hs. by injection Hs.
  - intros [-> ->]. exists st. split; [apply elem_of_look; by left|]. by rewrite Hscan.
Qed.

Lemma eval_inv_current eval tr :
  isEnabled (hd e) = true → eval_inv visited (mod_events tr) eval →
  eval_inv (visited ++ [e]) (mod_events tr ++ new)
    (let eval := add_result r (count_enabled eval) in
     if negb ready then add_notReady (nm e) eval else if degr then add_degraded (nm e) eval else eval).
Proof.
  intros He Hinv. assert (Forall (λ ev, reads ev ∧ event_name ev = Some (nm e)) new) as Hnew;
    [by repeat constructor|].
  assert (∀ n err', EvStatus n (Err err') ∈ new → err_is TagNoMatch err' = false) as Hcrd
    by (by intros n err' [?|?]%elem_of_look).
  assert (∀ eval' : modulesEvaluation DSCT,
    perModule eval' = perModule eval ++ [r] → crdAbsent eval' = crdAbsent eval →
    pendingCleanup eval' = pendingCleanup eval → enabledCount eval' = (enabledCount eval + 1)%Z →
    (notReady eval' = [] ∧ degraded eval' = [] ↔
      (notReady eval = [] ∧ degraded eval = []) ∧ ready = true ∧ degr = false) →
    eval_inv (visited ++ [e]) (mod_events tr ++ new) eval') as Hstep.
  { intros eval' Hm Hc Hp Hn Hh. eapply (eval_inv_step visited e _ new eval Hinv Hfresh Hnew _ r);
      rewrite ?He; try done; [| | |apply current_true_with_reason].
    - rewrite Hh, <-current_healthy. split; intros [? Hx]; (split; [done|auto]).
    - rewrite Hp. split; [done|by intros [? _]].
    - rewrite Hc. split; [done|by intros [? _]]. }
  apply Hstep; destruct ready, degr; simpl; try done.
  - split; [intros [_ ?]; by destruct (degraded eval)|by intros (_ & _ & ?)].
  - split; [done|by intros [? _]].
  - split; [intros [? _]; by destruct (notReady eval)|by intros (_ & ? & _)].
  - split; [intros [? _]; by destruct (notReady eval)|by intros (_ & ? & _)].
Qed.
End current.

Lemma wp_evaluate_enabled eval tr :
  isEnabled (hd e) = true → eval_inv visited (mod_events tr) eval →
  wp (evaluate_enabled eval (hd e)) tr (λ tr' eval', eval_inv (visited ++ [e]) (mod_events tr') eval').
Proof.
  intros He Hinv. unfold evaluate_enabled. apply wp_bind, wp_call. intros [st|err].
  - destruct (is_stale st) eqn:Hstale.
    { apply wp_ret. rewrite mod_events_snoc. eapply (eval_inv_unhealthy eval tr _ _ (stale_result (hd e)) _ []);
        try done; [by repeat constructor|..].
      - intros (st' & [= ->]%list_elem_of_singleton & ? & _). congruence.
      - split; [|done]. by intros _ n err [=]%list_elem_of_singleton.
      - by rewrite app_nil_r. }
    destruct (scan_conditions (ms_Conditions st)) as [[ready degr] readyCond] eqn:Hscan.
    apply wp_bind, wp_call. intros [state err]. cbn [fst snd].
    pose proof (eval_inv_current st state err ready degr readyCond Hscan Hstale eval tr He Hinv) as Hcur.
    destruct ready, degr; apply wp_ret; rewrite !mod_events_snoc, <-app_assoc; exact Hcur.
  - apply wp_ret. rewrite mod_events_snoc.
    eapply (eval_inv_unhealthy eval tr _ _ (unread_result (hd e) err) (nm e)
      (if err_is TagNoMatch err then [nm e] else [])); try done; [by repeat constructor|..].
    + by intros (st' & ?%list_elem_of_singleton & _).
    + split.
      * intros Habs n err' [= -> ->]%list_elem_of_singleton. by destruct (err_is TagNoMatch err).
      * intros Hall. rewrite (Hall (nm e) err); [done|]. by apply list_elem_of_singleton.
    + destruct (err_is TagNoMatch err); [done|]. by rewrite app_nil_r.
Qed.

End one.

End evaluation.

(** The entries an evaluation covers. *)
Definition covers {DSCT} (source : option ConfigSource) (e : ModuleRegistry.registryEntry DSCT) : bool :=
  match source with
  | Some s => bool_decide (ModuleRegistry.configSource e = s)
  | None => true
  end.

Definition selected {DSCT} (reg : ModuleRegistry.t DSCT) (source : option ConfigSource) :=
  filter (λ e, covers source e = true) (sorted_entries reg).

(** The next entry of an iteration has a name that was not visited. *)
Lemma visited_fresh {DSCT} (reg : ModuleRegistry.t DSCT) (keep : ModuleRegistry.registryEntry DSCT → bool) pre e todo :
  names_match reg → filter (λ e, keep e = true) (sorted_entries reg) = pre ++ e :: todo →
  h_GetName (ModuleRegistry.handler e) ∉ (λ e, h_GetName (ModuleRegistry.handler e)) <$> pre.
Proof.
  intros Hreg Heq. pose proof (fmap_filter_NoDup (λ e, h_GetName (ModuleRegistry.handler e)) (λ e, keep e = true)
    (sorted_entries reg) (sorted_names_NoDup reg Hreg)) as Hnd.
  rewrite Heq, fmap_app, fmap_cons in Hnd. apply NoDup_app in Hnd as (_ & Hdisj & _).
  intros Hin. apply (Hdisj _ Hin). by left.
Qed.

Lemma wp_evaluateModulesStatus {DSCT} multierror_error (reg : ModuleRegistry.t DSCT) isEnabled source :
  names_match reg →
  wp (evaluateModulesStatus multierror_error reg isEnabled source) [] (λ tr res, ∃ eval, res = Ok eval ∧
    eval_inv isEnabled (selected reg source) (mod_events tr) eval).
Proof.
  intros Hreg. unfold evaluateModulesStatus, ModuleRegistry.HasEntries. rewrite negb_involutive.
  case_bool_decide as Hempty.
  { apply wp_ret. exists empty_evaluation. split; [done|].
    assert (sorted_entries reg = []) as Hs.
    { apply Permutation_nil_r. by rewrite sorted_entries_perm, Hempty, map_to_list_empty. }
    unfold selected. rewrite Hs. apply eval_inv_start. }
  assert (∀ f, (∀ s e, f s e = evaluate_one isEnabled s (ModuleRegistry.handler e) (ModuleRegistry.enabled e)) →
    wp (ModuleRegistry.for_entries multierror_error reg (covers source) f empty_evaluation) [] (λ tr res,
      res.2 = None ∧ eval_inv isEnabled (selected reg source) (mod_events tr) res.1)) as Hloop.
  { intros f Hf. eapply wp_mono; [|apply (wp_for_entries _ _ _ _ _ _ (λ visited tr eval errs,
      errs = [] ∧ eval_inv isEnabled visited (mod_events tr) eval))].
    - by intros tr [eval err] (errs & [-> Hinv] & ->).
    - split; [done|]. apply eval_inv_start.
    - intros pre e todo tr eval errs Heq [-> Hinv]. rewrite Hf. unfold evaluate_one.
      assert (h_GetName (ModuleRegistry.handler e) ∉ (λ e, h_GetName (ModuleRegistry.handler e)) <$> pre) as Hfresh.
      { by eapply (visited_fresh reg (covers source)). }
      apply wp_bind. destruct (isEnabled (ModuleRegistry.handler e)) eqn:He; cbn [negb];
        (eapply (wp_mono _ _ (λ tr' eval', eval_inv isEnabled (pre ++ [e]) (mod_events tr') eval'));
          [intros tr' eval' Hinv'; by apply wp_ret|]).
      + by apply wp_evaluate_enabled.
      + by apply wp_evaluate_disabled. }
  apply wp_bind. destruct source as [s|]; (eapply wp_mono; [|by apply Hloop]); intros tr [eval err] [Herr Hinv];
    cbn [fst snd] in *; subst err; apply wp_ret; by exists eval.
Qed.

(** ** The aggregate *)

(** The status a write gives the [ModulesReady] condition. *)
Definition aggregate_status (ev : mod_event) : option string :=
  match ev with
  | EvCondition c => if String.eqb (c_type c) ConditionTypeModulesReady then Some (c_status c) else None
  | EvMarkTrue ty => if String.eqb ty ConditionTypeModulesReady then Some ConditionTrue else None
  | _ => None
  end.

(** Of [b]: True or False. *)
Definition status_of (b : bool) : string := if b then ConditionTrue else ConditionFalse.

Lemma wp_writeAggregateCondition {DSCT} (eval : modulesEvaluation DSCT) tr :
  wp (writeAggregateCondition eval) tr (λ tr' _, ∃ w ready, mod_events tr' = mod_events tr ++ [w] ∧
    aggregate_status w = Some (status_of ready) ∧ (ready = true ↔ notReady eval = [] ∧ degraded eval = [])).
Proof.
  unfold writeAggregateCondition.
  destruct (notReady eval) as [|n ns]; [destruct (degraded eval) as [|d ds];
    [destruct (pendingCleanup eval) as [|p ps]; [destruct (enabledCount eval =? 0)%Z|]|]|];
    apply wp_call; intros []; rewrite mod_events_snoc; eexists _, _; (split; [done|]).
  - split; [by instantiate (1 := true)|done].
  - split; [by instantiate (1 := true)|done].
  - split; [by instantiate (1 := true)|done].
  - split; [by instantiate (1 := false)|by split; [|intros [_ ?]]].
  - split; [by instantiate (1 := false)|by split; [|intros [? _]]].
Qed.

Section aggregate.
Context {DSCT : Type} (multierror_error : list goerr → goerr).
Context (ops : list (registry_op DSCT)).
Notation reg := (module_registry ops).

Lemma selected_all h : (∃ e, e ∈ selected reg None ∧ ModuleRegistry.handler e = h) ↔ registered reg h.
Proof.
  unfold selected. rewrite filter_true. setoid_rewrite elem_of_sorted_entries. unfold registered. naive_solver.
Qed.

(** C15: the Platform CR's [ModulesReady] tells the truth. The action only reads module CRs
    and then writes the aggregate once, as its last step; it is True exactly when every
    registered module that the Platform spec enables was healthy when read: current status,
    last Ready condition True, not Degraded. An instance of another type is an error
    without any call. *)
Theorem ModulesReady_iff_healthy (rr : ReconciliationRequest DSCT) :
  wp (computeModulesStatusAggregate multierror_error reg rr) [] (λ tr r,
    match rr_Instance rr with
    | InstPlatform modules =>
        r = None ∧ ∃ evs w ready, mod_events tr = evs ++ [w] ∧ Forall reads evs ∧
          aggregate_status w = Some (status_of ready) ∧
          (ready = true ↔ ∀ h, registered reg h → h_IsEnabled h modules = true → healthy evs (h_GetName h))
    | _ => tr = [] ∧ is_Some r
    end).
Proof.
  unfold computeModulesStatusAggregate. destruct (rr_Instance rr) as [modules|dsc|t]; [|apply wp_ret; eauto..].
  apply wp_bind. eapply wp_mono; [|apply wp_evaluateModulesStatus, names_match_registry].
  intros tr ? (eval & -> & Hinv). apply wp_bind. eapply wp_mono; [|apply wp_writeAggregateCondition].
  intros tr' [] (w & ready & Htr & Hw & Hready). apply wp_ret. split; [done|].
  exists (mod_events tr), w, ready. split; [done|]. split; [apply Hinv|]. split; [done|].
  rewrite Hready, (ev_healthy _ _ _ _ Hinv). split.
  - intros Hall h (e & Hin & <-)%selected_all. by apply Hall.
  - intros Hall e Hin. apply Hall, selected_all. eauto.
Qed.

End aggregate.

(** ** The detailed report *)

(** The conditions written for one result. *)
Definition submodule_conditions {DSCT} (dsc : DSCT) (r : perModuleResult DSCT) : list Condition :=
  match pm_moduleStatus r with
  | Some st => mirrored_condition dsc (ms_Conditions st) <$> pm_submodules r
  | None =>
      (λ sm, if pm_enabled r && sub_enabled dsc sm
             then condition (DSCConditionType sm) ConditionFalse (c_reason (pm_condition r)) (c_message (pm_condition r))
             else submodule_removed sm) <$> pm_submodules r
  end.

Definition report_conditions {DSCT} (dsc : DSCT) (r : perModuleResult DSCT) : list Condition :=
  pm_condition r :: submodule_conditions dsc r.

Definition conditions_of (evs : list mod_event) : list Condition :=
  omap (λ ev, match ev with EvCondition c => Some c | _ => None end) evs.

(** The events since [tr] write the conditions [cs]. *)
Definition wrote (tr tr' : list (call ModE)) (cs : list Condition) : Prop :=
  ∃ mid, mod_events tr' = mod_events tr ++ mid ∧ conditions_of mid = cs.

Lemma wrote_nil tr : wrote tr tr [].
Proof. exists []. by rewrite app_nil_r. Qed.

Lemma wrote_trans tr1 tr2 tr3 cs1 cs2 : wrote tr1 tr2 cs1 → wrote tr2 tr3 cs2 → wrote tr1 tr3 (cs1 ++ cs2).
Proof.
  intros (m1 & H1 & <-) (m2 & H2 & <-). exists (m1 ++ m2). rewrite H2, H1. split; [by rewrite <-app_assoc|].
  apply omap_app.
Qed.

Lemma wrote_call tr c : wrote tr (tr ++ [c]) (conditions_of [mod_event_of c]).
Proof. exists [mod_event_of c]. by rewrite mod_events_snoc. Qed.

(** A loop over submodules that writes one condition for each. *)
Lemma wp_submodules {DSCT} (f : SubmoduleCondition DSCT → Condition)
    (update : ComponentsStatus → SubmoduleCondition DSCT → ComponentsStatus) comps submodules tr :
  wp (prog_foldl (λ comps sm, trigger (SetModCondition (f sm)) ;; mret (update comps sm)) comps submodules) tr
    (λ tr' _, wrote tr tr' (f <$> submodules)).
Proof.
  apply (wp_foldl _ _ _ _ (λ visited tr' _, wrote tr tr' (f <$> visited))); [apply wrote_nil|].
  intros visited sm todo tr' comps' _ Hw. apply wp_bind, wp_call. intros []. apply wp_ret.
  rewrite fmap_app. eapply wrote_trans; [done|]. apply (wrote_call tr' (Call (SetModCondition (f sm)) tt)).
Qed.

Lemma wp_report_module {DSCT} (dsc : DSCT) comps r tr :
  wp (report_module dsc comps r) tr (λ tr' _, wrote tr tr' (report_conditions dsc r)).
Proof.
  unfold report_module. apply wp_bind, wp_call. intros []. apply wp_bind, wp_call. intros comps1.
  apply wp_bind. set (tr1 := (tr ++ _) ++ _).
  assert (wrote tr tr1 [pm_condition r]) as Hw1.
  { subst tr1. exists [EvCondition (pm_condition r); EvOther]. by rewrite !mod_events_snoc, <-app_assoc. }
  assert (∀ tr2, wrote tr1 tr2 [] → ∀ comps2 : ComponentsStatus,
    wp (match pm_submodules r with
        | [] => mret comps2
        | submodules =>
            match pm_moduleStatus r with
            | Some st => mirrorSubmoduleConditions dsc comps2 st submodules
            | None => setSubmodulesFallback dsc comps2 submodules (negb (pm_enabled r))
                        (c_reason (pm_condition r)) (c_message (pm_condition r))
            end
        end) tr2 (λ tr' _, wrote tr tr' (report_conditions dsc r))) as Hsub.
  { intros tr2 Hw2 comps2. pose proof (wrote_trans _ _ _ _ _ Hw1 Hw2) as Hw. simpl in Hw.
    unfold report_conditions, submodule_conditions. destruct (pm_submodules r) as [|sm sms].
    - apply wp_ret. by destruct (pm_moduleStatus r).
    - destruct (pm_moduleStatus r) as [st|].
      + eapply wp_mono; [|apply (wp_submodules (mirrored_condition dsc (ms_Conditions st))
          (λ comps sm, writeSubmoduleComponentStatus comps sm (sub_enabled dsc sm)))].
        intros tr3 comps3 Hw3. apply (wrote_trans _ _ _ _ _ Hw Hw3).
      + eapply wp_mono; [|apply (wp_submodules (λ sm, if negb (negb (negb (pm_enabled r)) && sub_enabled dsc sm)
            then submodule_removed sm
            else condition (DSCConditionType sm) ConditionFalse (c_reason (pm_condition r)) (c_message (pm_condition r)))
          (λ comps sm, writeSubmoduleComponentStatus comps sm (negb (negb (pm_enabled r)) && sub_enabled dsc sm)))].
        intros tr3 comps3 Hw3. pose proof (wrote_trans _ _ _ _ _ Hw Hw3) as Hall. rewrite negb_involutive in Hall.
        replace (_ <$> sm :: sms) with ((λ sm, if negb (pm_enabled r && sub_enabled dsc sm)
          then submodule_removed sm else condition (DSCConditionType sm) ConditionFalse
            (c_reason (pm_condition r)) (c_message (pm_condition r))) <$> sm :: sms); [exact Hall|].
        apply list_fmap_ext. intros _ sm' _. simpl. by destruct (pm_enabled r && sub_enabled dsc sm'). }
  unfold writeDSCLegacyStatusFields. destruct (h_LegacyWriter (pm_handler r)).
  - apply wp_call. intros [comps2 err]. apply Hsub. exists [EvOther]. by rewrite mod_events_snoc.
  - apply wp_ret, Hsub, wrote_nil.
Qed.

Section detailed.
Context {DSCT : Type} (multierror_error : list goerr → goerr).
Context (ops : list (registry_op DSCT)).
Notation reg := (module_registry ops).

(** The DSC report. After reading the CRs of the modules configured from the DSC, the
    action writes, for each of these modules in name order, the module's condition and its
    submodules' and nothing else, and last the aggregate: True exactly when all enabled ones
    were healthy. A module's condition is True only when the module is enabled, its current status
    said Ready and its CR was not being deleted. A requeue (30 s) is asked for exactly when
    some status read failed because the module's CRD is not installed. *)
Theorem ComputeModulesStatusDetailed_reports (rr : ReconciliationRequest DSCT) comps :
  wp (ComputeModulesStatusDetailed multierror_error reg rr comps) [] (λ tr res,
    match rr_Instance rr with
    | InstDSC dsc =>
        let pm := BuildPlatformModulesForSource multierror_error reg dsc ConfigFromDSC in
        ∃ evs mid w ready results,
          mod_events tr = evs ++ mid ++ [w] ∧ Forall reads evs ∧
          pm_handler <$> results = ModuleRegistry.handler <$> selected reg (Some ConfigFromDSC) ∧
          (∀ r, r ∈ results → true_with_reason evs r ∧ pm_enabled r = h_IsEnabled (pm_handler r) pm) ∧
          conditions_of mid = concat (report_conditions dsc <$> results) ∧
          aggregate_status w = Some (status_of ready) ∧
          (ready = true ↔ ∀ r, r ∈ results → pm_enabled r = true → healthy evs (h_GetName (pm_handler r))) ∧
          (res.1 = None ∨ res.1 = Some (RequeueAfterError crd_requeue)) ∧
          (res.1 = None ↔ ∀ n err, EvStatus n (Err err) ∈ evs → err_is TagNoMatch err = false)
    | _ => tr = [] ∧ res.2 = comps ∧ is_Some res.1
    end).
Proof.
  unfold ComputeModulesStatusDetailed. destruct (rr_Instance rr) as [modules|dsc|t]; [apply wp_ret; eauto| |apply wp_ret; eauto].
  cbn zeta. set (pm := BuildPlatformModulesForSource multierror_error reg dsc ConfigFromDSC).
  apply wp_bind. eapply wp_mono; [|apply wp_evaluateModulesStatus, names_match_registry].
  intros tr ? (eval & -> & Hinv). apply wp_bind.
  eapply wp_mono; [|apply (wp_foldl _ _ _ _ (λ visited tr' _, wrote tr tr' (concat (report_conditions dsc <$> visited))))].
  2:{ apply wrote_nil. }
  2:{ intros visited r todo tr' comps' _ Hw. eapply wp_mono; [|apply wp_report_module].
      intros tr'' comps'' Hw'. rewrite fmap_app, concat_app. simpl. rewrite app_nil_r. by eapply wrote_trans. }
  intros tr1 comps1 (mid & Htr1 & Hmid). apply wp_bind. eapply wp_mono; [|apply wp_writeAggregateCondition].
  intros tr2 [] (w & ready & Htr2 & Hw & Hready).
  assert (∀ (P : ModuleHandler DSCT → Prop), (∀ r, r ∈ perModule eval → P (pm_handler r)) ↔
    (∀ e, e ∈ selected reg (Some ConfigFromDSC) → P (ModuleRegistry.handler e))) as Hmem.
  { intros P. transitivity (Forall P (pm_handler <$> perModule eval)); [by rewrite Forall_fmap, Forall_forall|].
    by rewrite (ev_handlers _ _ _ _ Hinv), Forall_fmap, Forall_forall. }
  assert (∀ r : option action_error, (r = None ∨ r = Some (RequeueAfterError crd_requeue)) →
    (r = None ↔ crdAbsent eval = []) →
    ∃ evs mid w ready results,
      mod_events tr2 = evs ++ mid ++ [w] ∧ Forall reads evs ∧
      pm_handler <$> results = ModuleRegistry.handler <$> selected reg (Some ConfigFromDSC) ∧
      (∀ r, r ∈ results → true_with_reason evs r ∧ pm_enabled r = h_IsEnabled (pm_handler r) pm) ∧
      conditions_of mid = concat (report_conditions dsc <$> results) ∧
      aggregate_status w = Some (status_of ready) ∧
      (ready = true ↔ ∀ r, r ∈ results → pm_enabled r = true → healthy evs (h_GetName (pm_handler r))) ∧
      (r = None ∨ r = Some (RequeueAfterError crd_requeue)) ∧
      (r = None ↔ ∀ n err, EvStatus n (Err err) ∈ evs → err_is TagNoMatch err = false)) as Hend.
  { intros r Hr Hcrd. exists (mod_events tr), mid, w, ready, (perModule eval).
    split; [by rewrite Htr2, Htr1, <-app_assoc|]. split; [apply Hinv|]. split; [apply Hinv|].
    split; [apply Hinv|]. split; [done|]. split; [done|]. split; [|split; [done|by rewrite Hcrd; apply Hinv]].
    rewrite Hready, (ev_healthy _ _ _ _ Hinv).
    rewrite <-(Hmem (λ h, h_IsEnabled h pm = true → healthy (mod_events tr) (h_GetName h))).
    split; intros Hall r' Hin; specialize (Hall r' Hin); by rewrite (proj2 (ev_results _ _ _ _ Hinv r' Hin)) in *. }
  destruct (crdAbsent eval) as [|n ns]; apply wp_ret, Hend; [by left|done|by right|done].
Qed.

End detailed.

(** What [c] may say of the submodule [sm] whose module reported [conds]. *)
Definition mirrors {DSCT} (dsc : DSCT) (conds : list Condition) (sm : SubmoduleCondition DSCT) (c : Condition) : Prop :=
  c_type c = DSCConditionType sm ∧
  ((sub_enabled dsc sm = false ∧ c_status c = ConditionFalse ∧ c_reason c = RemovedReason) ∨
   (sub_enabled dsc sm = true ∧ (∀ c', c' ∈ conds → c_type c' ≠ SourceConditionType sm) ∧
      c_status c = ConditionFalse ∧ c_reason c = AwaitingReadinessReason) ∨
   (sub_enabled dsc sm = true ∧ ∃ l1 source l2, conds = l1 ++ source :: l2 ∧
      c_type source = SourceConditionType sm ∧ (∀ c', c' ∈ l2 → c_type c' ≠ SourceConditionType sm) ∧
      (c_status c, c_reason c, c_message c, c_severity c) =
      (c_status source, c_reason source, c_message source, c_severity source))).

(** A mirrored submodule condition has the declared type and says Removed when the
    submodule is disabled, awaiting when the module reported no condition of the source
    type, and otherwise what the last such condition of the module said. *)
Theorem mirrored_condition_last {DSCT} (dsc : DSCT) conds sm :
  mirrors dsc conds sm (mirrored_condition dsc conds sm).
Proof.
  unfold mirrors, mirrored_condition. destruct (sub_enabled dsc sm); cbn [negb]; [|by split; [|left]].
  assert (match cond_by_type conds !! SourceConditionType sm with
    | None => ∀ c', c' ∈ conds → c_type c' ≠ SourceConditionType sm
    | Some source => ∃ l1 l2, conds = l1 ++ source :: l2 ∧ c_type source = SourceConditionType sm ∧
        ∀ c', c' ∈ l2 → c_type c' ≠ SourceConditionType sm
    end) as Hlast.
  { unfold cond_by_type. induction conds as [|c' conds IH] using rev_ind; [simpl; rewrite lookup_empty; by intros c' ?%elem_of_nil|].
    rewrite foldl_snoc. destruct (decide (c_type c' = SourceConditionType sm)) as [<-|Hne].
    - rewrite lookup_insert_eq. exists conds, []. split; [done|]. split; [done|]. by intros c'' ?%elem_of_nil.
    - rewrite lookup_insert_ne by done. destruct (foldl _ ∅ conds !! SourceConditionType sm) as [source|].
      + destruct IH as (l1 & l2 & -> & ? & Hl2). exists l1, (l2 ++ [c']). split; [by rewrite <-app_assoc|].
        split; [done|]. intros c'' [?| ->]%elem_of_snoc; auto.
      + intros c'' [?| ->]%elem_of_snoc; auto. }
  destruct (cond_by_type conds !! SourceConditionType sm) as [source|]; (split; [done|]); right.
  - right. destruct Hlast as (l1 & l2 & ? & ? & ?). split; [done|]. by exists l1, source, l2.
  - by left.
Qed.

(** ** The modules of the Platform CR *)

Section platform_modules.
Context {DSCT : Type} (multierror_error : list goerr → goerr).
Context (reg : ModuleRegistry.t DSCT) (dsc : DSCT) (source : ConfigSource).
Context (field : ModuleHandler DSCT → string).

(** [f] is the field of a module that [source] configures. *)
Definition owned (f : string) : Prop :=
  ∃ e, e ∈ selected reg (Some source) ∧ field (ModuleRegistry.handler e) = f.

(** What the handlers that [source] configures promise of [PopulatePlatformModule]: a handler
    writes its own field only, and never leaves it empty. *)
Definition populates_field : Prop := ∀ e pm, e ∈ selected reg (Some source) →
  let h := ModuleRegistry.handler e in
  (∀ f, f ≠ field h → h_PopulatePlatformModule h pm dsc !! f = pm !! f) ∧
  (∃ ms, h_PopulatePlatformModule h pm dsc !! field h = Some ms ∧ ms ≠ "").

Lemma BuildPlatformModulesForSource_fields f :
  populates_field →
  (owned f → ∃ ms, BuildPlatformModulesForSource multierror_error reg dsc source !! f = Some ms ∧ ms ≠ "") ∧
  (¬ owned f → BuildPlatformModulesForSource multierror_error reg dsc source !! f = zero_PlatformModules !! f).
Proof.
  intros Hpop. unfold BuildPlatformModulesForSource, ModuleRegistry.ForConfigSource.
  pose (visited_field := λ visited : list (ModuleRegistry.registryEntry DSCT),
    ∃ e, e ∈ visited ∧ field (ModuleRegistry.handler e) = f).
  apply (pure_value_wp _ (λ _ res, (owned f → ∃ ms, res.1 !! f = Some ms ∧ ms ≠ "") ∧
    (¬ owned f → res.1 !! f = zero_PlatformModules !! f))).
  eapply wp_mono; [|apply (wp_for_entries _ _ _ _ _ _ (λ visited _ pm _,
    (visited_field visited → ∃ ms, pm !! f = Some ms ∧ ms ≠ "") ∧
    (¬ visited_field visited → pm !! f = zero_PlatformModules !! f)))].
  - by intros tr res (errs & Hinv & _).
  - split; [by intros (e & ?%elem_of_nil & _)|done].
  - intros pre e todo tr pm errs Heq [Hset Hunset]. apply wp_ret. cbn [fst snd].
    assert (e ∈ selected reg (Some source)) as Hin.
    { unfold selected, covers. rewrite Heq. apply elem_of_app. right. by left. }
    destruct (Hpop _ pm Hin) as [Hframe (ms & Hms & Hne)].
    destruct (decide (field (ModuleRegistry.handler e) = f)) as [<-|Hf].
    + split; [by exists ms|]. intros Hno. destruct Hno. exists e. rewrite elem_of_snoc. auto.
    + rewrite Hframe by done. unfold visited_field in *. split.
      * intros (e' & [Hin'| ->]%elem_of_snoc & He'); [apply Hset; eauto|done].
      * intros Hno. apply Hunset. intros (e' & Hin' & He'). apply Hno. exists e'. rewrite elem_of_snoc. auto.
Qed.

End platform_modules.

(** Deleting a DSC tears down exactly its own modules. If every handler of the source writes its own
    field only and never leaves it empty, the Platform CR applied by the delete finalizer
    says Removed for every module the source configures and leaves the fields of all
    others unset, so that server-side apply does not take them from their owner. *)
Theorem NewPlatformCRRemovedForSource_owned {DSCT} multierror_error (reg : ModuleRegistry.t DSCT) dsc source field f :
  populates_field reg dsc source field →
  (owned reg source field f → NewPlatformCRRemovedForSource multierror_error reg dsc source !! f = Some Removed) ∧
  (¬ owned reg source field f → f ∈ module_fields →
     NewPlatformCRRemovedForSource multierror_error reg dsc source !! f = Some "").
Proof.
  intros Hpop. unfold NewPlatformCRRemovedForSource, forceManagementStateRemoved, NewPlatformCR.
  rewrite lookup_fmap. destruct (BuildPlatformModulesForSource_fields multierror_error reg dsc source field f Hpop)
    as [Howned Hother]. split.
  - intros (ms & -> & Hne)%Howned. simpl. unfold nonempty_str. by destruct (String.eqb_spec ms "").
  - intros ->%Hother Hin. unfold zero_PlatformModules.
    rewrite (elem_of_list_to_map_1 _ f ""); [done| |by apply list_elem_of_fmap; exists f].
    rewrite <-list_fmap_compose. apply (NoDup_fmap_2 (λ f : string, f)). by apply (bool_decide_unpack _).
Qed.

Definition ray_handler : ModuleHandler unit :=
  MkHandler "ray" (λ modules, bool_decide (modules !! "Ray" = Some Managed)) (MkGVK "" "v1" "Ray")
    (λ _, MkManifests [] []) (λ pm _, <["Ray" := Managed]> pm) [] None None None None None None None false.

Lemma NewPlatformCRRemovedForSource_owned_witness :
  let reg := module_registry [OpAdd ray_handler []] in
  NewPlatformCRRemovedForSource (λ _, errorf "") reg tt ConfigFromDSC !! "Ray" = Some Removed ∧
  NewPlatformCRRemovedForSource (λ _, errorf "") reg tt ConfigFromDSC !! "Monitoring" = Some "".
Proof.
  intros reg.
  assert (selected reg (Some ConfigFromDSC) = [ModuleRegistry.MkEntry ray_handler true (RL 99) ConfigFromDSC]) as Hsel;
    [reflexivity|].
  assert (populates_field reg tt ConfigFromDSC (λ _, "Ray")) as Hpop.
  { intros e pm He. rewrite Hsel in He. apply list_elem_of_singleton in He as ->.
    clear Hsel. cbv zeta. cbn [ModuleRegistry.handler h_PopulatePlatformModule ray_handler].
    split; [intros f Hf; by rewrite lookup_insert_ne|]. exists Managed. by rewrite lookup_insert_eq. }
  split.
  - apply (NewPlatformCRRemovedForSource_owned _ reg tt ConfigFromDSC (λ _, "Ray") "Ray" Hpop).
    exists (ModuleRegistry.MkEntry ray_handler true (RL 99) ConfigFromDSC). rewrite Hsel. split; [by left|done].
  - apply (NewPlatformCRRemovedForSource_owned _ reg tt ConfigFromDSC (λ _, "Ray") "Monitoring" Hpop).
    + by intros (e & _ & ?).
    + by apply (bool_decide_unpack _).
Defined.
