(* ===== verification/EnvInject.v ===== *)
(** * EnvInject: env variables for module operators

    Models [internal/controller/modules/modules_controller_actions_inject_env.go]: the
    action that writes images and env variables into the rendered Deployments of the module
    operators, from the injection data that provisioning collected ([ModuleActions]).

    [os.Getenv] is the parameter [Getenv]; a range over [ExtraEnv] visits the map in the
    order [range_map], any permutation of its entries. [unstructured.NestedSlice] and
    [SetNestedSlice] are those of [Unstructured]. *)

From S2P Require Import Prelude Unstructured ModuleBase ModuleActions.

(** ** Definitions *)

Definition applicationsNamespaceEnv : string := "APPLICATIONS_NAMESPACE".
Definition monitoringNamespaceEnv : string := "MONITORING_NAMESPACE".
Definition platformTypeEnv : string := "ODH_MODULE_OPERATOR_PLATFORM_TYPE".

Definition Deployment : GroupVersionKind := MkGVK "apps" "v1" "Deployment".

Definition isDeployment (obj : Unstructured) : bool := bool_decide (u_gvk obj = Deployment).

(** [m, ok := v.(map[string]any)] and [m["name"]] is the string [name]. *)
Definition named (name : string) (v : value) : bool :=
  match as_map v with
  | Some m => match as_string (map_get m "name") with Some n => String.eqb n name | None => false end
  | None => false
  end.

(** [None] stands for [-1]. *)
Fixpoint findNamedContainer (containers : list value) (targetName : string) : option nat :=
  match containers with
  | [] => None
  | c :: containers => if named targetName c then Some 0%nat
                       else S <$> findNamedContainer containers targetName
  end.

(** [em["value"] == value && !hasValueFrom]. *)
Definition env_current (em : value_map) (val : string) : bool :=
  match map_get em "value" with VString v => String.eqb v val | _ => false end
  && negb (map_has em "valueFrom").

(** [em] is the map of the first entry with the name. *)
Definition override_env (em : value_map) (val : string) : value_map :=
  map_delete (map_set em "value" (VString val)) "valueFrom".

Fixpoint setOrOverrideEnv (envSlice : list value) (name val : string) : list value * bool :=
  match envSlice with
  | [] => ([VMap [("name", VString name); ("value", VString val)]], true)
  | e :: envSlice =>
      match as_map e with
      | Some em =>
          if named name e
          then if env_current em val then (e :: envSlice, false)
               else (VMap (override_env em val) :: envSlice, true)
          else let '(env, changed) := setOrOverrideEnv envSlice name val in (e :: env, changed)
      | None => let '(env, changed) := setOrOverrideEnv envSlice name val in (e :: env, changed)
      end
  end.

(** [if setOrOverrideEnv(&existingEnv, name, value) { injected++ }]. *)
Definition set_env (acc : list value * Z) (name val : string) : list value * Z :=
  let '(env, changed) := setOrOverrideEnv acc.1 name val in
  (env, if changed then (acc.2 + 1)%Z else acc.2).

(** The same unless the value is empty. *)
Definition set_env_nonempty (name val : string) (acc : list value * Z) : list value * Z :=
  if String.eqb val "" then acc else set_env acc name val.

Section injection.
Context `{Nested, NestedWrite}.
Variable Getenv : string → string.
Variable range_map : gmap string string → list (string * string).

Definition containers_path : list string := ["spec"; "template"; "spec"; "containers"].
Definition initContainers_path : list string := ["spec"; "template"; "spec"; "initContainers"].

Definition injectInitContainerImage (obj : value_map) (initContainerName img deployName : string)
    : result (value_map * Z) :=
  if String.eqb initContainerName "" then Ok (obj, 0%Z)
  else
    found ← NestedSlice obj initContainers_path;
    match found with
    | None | Some [] => Ok (obj, 0%Z)
    | Some initContainers =>
        match findNamedContainer initContainers initContainerName with
        | None => Err (errorf ("init container " +:+ quote initContainerName +:+
                    " not found in Deployment " +:+ deployName))
        | Some idx =>
            match (initContainers !! idx) ≫= as_map with
            | None => Ok (obj, 0%Z)
            | Some ic =>
                obj' ← SetNestedSlice obj (<[idx := VMap (map_set ic "image" (VString img))]> initContainers)
                         initContainers_path;
                Ok (obj', 1%Z)
            end
        end
    end.

(** The loops over the images, over [ExtraEnv], and the three settings of the platform. *)
Definition inject_env (injection : ModuleEnvInjection) (mi : ModuleImages) (acc : list value * Z)
    : list value * Z :=
  let acc := foldl (λ acc relImg, set_env_nonempty relImg (Getenv relImg) acc) acc (Images mi) in
  let acc := foldl (λ acc nv, set_env acc nv.1 nv.2) acc (range_map (default ∅ (ExtraEnv mi))) in
  let acc := set_env_nonempty applicationsNamespaceEnv (i_ApplicationsNamespace injection) acc in
  let acc := set_env_nonempty monitoringNamespaceEnv (i_MonitoringNamespace injection) acc in
  set_env_nonempty platformTypeEnv (i_PlatformType injection) acc.

(** [obj.Object], [containers] and [injected]. *)
Definition inject_state : Type := value_map * list value * Z.

(** [targetName]. *)
Definition target_name (mi : ModuleImages) : string := or_default (ContainerName mi) defaultContainerName.

(** The branch on [mi.ControllerImage]: the object, the container and [injected]. *)
Definition override_image (mi : ModuleImages) (deployName : string) (obj container : value_map)
    (injected : Z) : result (value_map * value_map * Z) :=
  if String.eqb (ControllerImage mi) "" then Ok (obj, container, injected)
  else
    let img := Getenv (ControllerImage mi) in
    if String.eqb img "" then Ok (obj, container, injected)
    else
      res ← injectInitContainerImage obj (InitContainerName mi) img deployName;
      Ok (res.1, map_set container "image" (VString img), (injected + 1 + res.2)%Z).

(** [container["env"].([]any)]; [nil] when it is not a slice. *)
Definition existing_env (container : value_map) : list value :=
  match map_get container "env" with VSlice l => l | _ => [] end.

(** The body of the loop over [injection.PerModuleImages]. *)
Definition inject_module (injection : ModuleEnvInjection) (deployName : string) (st : inject_state)
    (mi : ModuleImages) : result inject_state :=
  let '(obj, containers, injected) := st in
  if negb (String.eqb (DeploymentName mi) deployName) then Ok st
  else match findNamedContainer containers (target_name mi) with
       | None => Ok st
       | Some idx =>
           match (containers !! idx) ≫= as_map with
           | None => Ok st
           | Some container =>
               res ← override_image mi deployName obj container injected;
               let '(obj, container, injected) := res in
               let '(existingEnv, injected) := inject_env injection mi (existing_env container, injected) in
               Ok (obj, <[idx := VMap (map_set container "env" (VSlice existingEnv))]> containers, injected)
           end
       end.

Fixpoint inject_modules (injection : ModuleEnvInjection) (deployName : string) (st : inject_state)
    (mis : list ModuleImages) : result inject_state :=
  match mis with
  | [] => Ok st
  | mi :: mis => st ← inject_module injection deployName st mi;
                 inject_modules injection deployName st mis
  end.

(** [obj.Object] as the function leaves it on success; after an error the action ends and
    nothing is deployed. *)
Definition injectEnvVarsIntoDeployment (obj : Unstructured) (injection : ModuleEnvInjection)
    : result value_map :=
  found ← NestedSlice (u_object obj) containers_path;
  match found with
  | None | Some [] => Err (errorf ("deployment " +:+ u_name obj +:+ " has no containers"))
  | Some containers =>
      st ← inject_modules injection (u_name obj) (u_object obj, containers, 0%Z) (PerModuleImages injection);
      let '(obj, containers, injected) := st in
      if (injected =? 0)%Z then Ok obj else SetNestedSlice obj containers containers_path
  end.

(** [obj.Object = m]. *)
Definition with_object (obj : Unstructured) (m : value_map) : Unstructured :=
  MkUnstructured (u_gvk obj) (u_name obj) (u_namespace obj) (u_generation obj) (u_deleting obj) m.

Fixpoint inject_resources (injection : ModuleEnvInjection) (resources : list Unstructured)
    : result (list Unstructured) :=
  match resources with
  | [] => Ok []
  | obj :: resources =>
      obj' ← (if negb (isDeployment obj) then Ok obj
              else with_object obj <$> injectEnvVarsIntoDeployment obj injection);
      resources' ← inject_resources injection resources;
      Ok (obj' :: resources')
  end.

(** [rr.Resources] after the action. *)
Definition injectModuleEnv (rr : outputs) (resources : list Unstructured) : result (list Unstructured) :=
  match GetModuleEnvInjection rr with
  | None => Ok resources
  | Some injection => inject_resources injection resources
  end.

End injection.

(** ** Env entries *)

(** The first entry with the name: the one that [setOrOverrideEnv] maintains. *)
Definition env_entry (env : list value) (name : string) : option value := head (filter (λ e, named name e) env).

(** The entry gives the variable the literal value. *)
Definition env_is (env : list value) (name val : string) : Prop :=
  ∃ em, env_entry env name = Some (VMap em) ∧ map_get em "value" = VString val ∧
    map_has em "valueFrom" = false.

(** The settings [f] are applied to [env], and nothing else changes. *)
Definition sets (env env' : list value) (f : string → option string) : Prop :=
  ∀ n, match f n with
       | Some v => env_is env' n v
       | None => env_entry env' n = env_entry env n
       end.

(** The same with the counter: an unchanged counter means an unchanged list. *)
Definition sets_counting (acc acc' : list value * Z) (f : string → option string) : Prop :=
  sets acc.1 acc'.1 f ∧ (acc.2 ≤ acc'.2)%Z ∧ (acc'.2 = acc.2 → acc'.1 = acc.1).

(** Later settings win. *)
Definition then_settings (f g : string → option string) (n : string) : option string :=
  match g n with Some v => Some v | None => f n end.

Lemma sets_ext env env' f g : (∀ n, f n = g n) → sets env env' f → sets env env' g.
Proof. intros Hfg Hs n. rewrite <-Hfg. apply Hs. Qed.

Lemma sets_then env1 env2 env3 f g :
  sets env1 env2 f → sets env2 env3 g → sets env1 env3 (then_settings f g).
Proof.
  intros Hf Hg n. unfold then_settings. specialize (Hf n). specialize (Hg n).
  destruct (g n); [done|]. unfold env_is in *. rewrite Hg. by destruct (f n).
Qed.

Lemma sets_counting_refl acc : sets_counting acc acc (λ _, None).
Proof. split; [by intros n|]. split; [lia|done]. Qed.

Lemma sets_counting_then acc1 acc2 acc3 f g :
  sets_counting acc1 acc2 f → sets_counting acc2 acc3 g → sets_counting acc1 acc3 (then_settings f g).
Proof.
  intros (Hf & Hle1 & Heq1) (Hg & Hle2 & Heq2). split; [by eapply sets_then|]. split; [lia|].
  intros Heq. rewrite Heq2 by lia. apply Heq1. lia.
Qed.

Lemma sets_counting_ext acc acc' f g :
  (∀ n, f n = g n) → sets_counting acc acc' f → sets_counting acc acc' g.
Proof. intros Hfg (? & ? & ?). split; [by eapply sets_ext|done]. Qed.

Lemma named_override name em val : named name (VMap (override_env em val)) = named name (VMap em).
Proof.
  unfold named, override_env. simpl. rewrite map_get_delete by done. by rewrite map_get_set.
Qed.

Lemma named_inj n1 n2 v : named n1 v = true → named n2 v = true → n1 = n2.
Proof.
  unfold named. destruct (as_map v); [|done]. destruct (as_string _); [|done].
  intros <-%String.eqb_eq <-%String.eqb_eq. done.
Qed.

Lemma env_entry_cons e env n : env_entry (e :: env) n = if named n e then Some e else env_entry env n.
Proof. unfold env_entry. rewrite filter_cons. case_decide as Hn; destruct (named n e); done. Qed.

Definition only (name val n : string) : option string := if String.eqb n name then Some val else None.

(** Replacing the first entry of a name by another entry of that name. *)
Lemma sets_head e e' env name val :
  named name e = true → named name e' = true → env_is (e' :: env) name val →
  sets (e :: env) (e' :: env) (only name val).
Proof.
  intros Hne Hne' Hval n. unfold only. destruct (String.eqb_spec n name) as [->|Hn]; [done|].
  rewrite !env_entry_cons. destruct (named n e) eqn:H1; [by destruct Hn; eapply named_inj|].
  destruct (named n e') eqn:H2; [by destruct Hn; eapply named_inj|done].
Qed.

Lemma sets_tail e env env' name val :
  named name e = false → sets env env' (only name val) → sets (e :: env) (e :: env') (only name val).
Proof.
  intros He Hs n. generalize (Hs n). unfold only, env_is. rewrite !env_entry_cons.
  destruct (String.eqb_spec n name) as [Hn|Hn].
  - by rewrite Hn, He.
  - by intros ->.
Qed.

Lemma setOrOverrideEnv_sets env name val env' changed :
  setOrOverrideEnv env name val = (env', changed) →
  sets env env' (only name val) ∧ (changed = false → env' = env).
Proof.
  revert env' changed. induction env as [|e env IH]; intros env' changed; simpl.
  - intros [= <- <-]. split; [|done]. intros n. unfold only, env_is. rewrite env_entry_cons.
    unfold named. simpl. rewrite (String.eqb_sym name n). destruct (String.eqb n name); [|done].
    by eexists.
  - assert (named name e = false →
      (let '(env2, ch) := setOrOverrideEnv env name val in (e :: env2, ch)) = (env', changed) →
      sets (e :: env) env' (only name val) ∧ (changed = false → env' = e :: env)) as Hskip.
    { intros Hn. destruct (setOrOverrideEnv env name val) as [env2 ch] eqn:Hrec. intros [= <- <-].
      destruct (IH _ _ eq_refl) as [Hs Hch]. split; [by apply sets_tail|]. intros ->. by rewrite Hch. }
    destruct (as_map e) as [em|] eqn:Hem; [|by apply Hskip; unfold named; rewrite Hem].
    destruct (named name e) eqn:Hn; [|by apply Hskip]. destruct e; simplify_eq/=.
    destruct (env_current em val) eqn:Hcur; intros [= <- <-].
    + split; [|done]. apply sets_head; [done..|]. exists em. rewrite env_entry_cons, Hn. split; [done|].
      unfold env_current in Hcur. apply andb_prop in Hcur as [Hv Hf%negb_true_iff].
      destruct (map_get em "value"); try done. by apply String.eqb_eq in Hv as ->.
    + split; [|done]. apply sets_head; [done|by rewrite named_override|].
      exists (override_env em val). rewrite env_entry_cons, named_override, Hn. split; [done|].
      unfold override_env. rewrite map_get_delete, map_get_set, map_has_delete by done. done.
Qed.

Lemma set_env_sets acc name val : sets_counting acc (set_env acc name val) (only name val).
Proof.
  unfold set_env. destruct (setOrOverrideEnv acc.1 name val) as [env ch] eqn:Hset.
  apply setOrOverrideEnv_sets in Hset as [Hs Hch]. split; [done|]. simpl.
  destruct ch; split; try lia; auto.
Qed.

Definition only_nonempty (name val n : string) : option string :=
  if String.eqb val "" then None else only name val n.

Lemma set_env_nonempty_sets acc name val :
  sets_counting acc (set_env_nonempty name val acc) (only_nonempty name val).
Proof.
  unfold set_env_nonempty, only_nonempty. destruct (String.eqb val ""); [apply sets_counting_refl|].
  apply set_env_sets.
Qed.

Section correctness.
Context `{NestedLaws}.
Variable Getenv : string → string.
Variable range_map : gmap string string → list (string * string).
Hypothesis range_map_visits : ∀ m, range_map m ≡ₚ map_to_list m.
Implicit Types (injection : ModuleEnvInjection) (mi : ModuleImages).

Definition from_images mi (n : string) : option string :=
  if bool_decide (n ∈ Images mi) && nonempty_str (Getenv n) then Some (Getenv n) else None.

(** What a module's container gets for the variable [n], if anything: the platform's
    settings come before the module's own, and these before the related images. *)
Definition desired injection mi : string → option string :=
  then_settings (then_settings (then_settings (then_settings (from_images mi)
    (λ n, default ∅ (ExtraEnv mi) !! n))
    (only_nonempty applicationsNamespaceEnv (i_ApplicationsNamespace injection)))
    (only_nonempty monitoringNamespaceEnv (i_MonitoringNamespace injection)))
    (only_nonempty platformTypeEnv (i_PlatformType injection)).

Lemma images_sets mi acc :
  sets_counting acc (foldl (λ acc relImg, set_env_nonempty relImg (Getenv relImg) acc) acc (Images mi))
    (from_images mi).
Proof.
  unfold from_images. revert acc. generalize (Images mi). clear mi.
  induction l as [|i l IH] using rev_ind; intros acc.
  - eapply sets_counting_ext, sets_counting_refl. done.
  - rewrite foldl_app. simpl. eapply sets_counting_ext; [|by eapply sets_counting_then, set_env_nonempty_sets].
    intros n. unfold then_settings, only_nonempty, only, nonempty_str.
    destruct (String.eqb_spec n i) as [->|Hn].
    + rewrite bool_elem_snoc_eq. destruct (String.eqb (Getenv i) "") eqn:Hv; simpl; [|done].
      by rewrite andb_false_r.
    + rewrite bool_elem_snoc_ne by done. by destruct (String.eqb (Getenv i) "").
Qed.

Lemma pairs_set (l : list (string * string)) acc :
  NoDup l.*1 →
  sets_counting acc (foldl (λ acc nv, set_env acc nv.1 nv.2) acc l) (λ n, (list_to_map l : gmap string string) !! n).
Proof.
  revert acc. induction l as [|[k v] l IH]; intros acc Hnd.
  - eapply sets_counting_ext, sets_counting_refl. intros n. symmetry. apply lookup_empty.
  - apply NoDup_cons in Hnd as [Hk Hnd]. simpl in *.
    eapply sets_counting_ext; [|eapply sets_counting_then; [apply set_env_sets|by apply IH]].
    intros n. unfold then_settings, only. destruct (String.eqb_spec n k) as [->|Hn].
    + rewrite not_elem_of_list_to_map_1 by done. by rewrite lookup_insert_eq.
    + rewrite lookup_insert_ne by done. by destruct (list_to_map l !! n).
Qed.

Lemma extra_sets (extra : gmap string string) acc :
  sets_counting acc (foldl (λ acc nv, set_env acc nv.1 nv.2) acc (range_map extra)) (λ n, extra !! n).
Proof.
  assert (NoDup (range_map extra).*1) as Hnd.
  { rewrite range_map_visits. apply NoDup_fst_map_to_list. }
  eapply sets_counting_ext; [|by apply pairs_set]. intros n. simpl.
  rewrite (list_to_map_proper (range_map extra) (map_to_list extra)) by done.
  by rewrite list_to_map_to_list.
Qed.

Lemma inject_env_sets injection mi acc :
  sets_counting acc (inject_env Getenv range_map injection mi acc) (desired injection mi).
Proof.
  unfold inject_env, desired.
  repeat (eapply sets_counting_then; [|apply set_env_nonempty_sets]).
  eapply sets_counting_then; [apply images_sets|apply extra_sets].
Qed.

(** The image that a module's containers get, if any. *)
Definition overridden_image mi : option string :=
  if String.eqb (ControllerImage mi) "" then None
  else if String.eqb (Getenv (ControllerImage mi)) "" then None else Some (Getenv (ControllerImage mi)).

(** [c'] is the container [c] of the module with its image and its env set. *)
Record configured injection mi (c c' : value_map) : Prop := {
  configured_env : sets (existing_env c) (existing_env c') (desired injection mi);
  configured_image : map_get c' "image" =
    match overridden_image mi with Some img => VString img | None => map_get c "image" end;
  configured_rest k : k ≠ "env" → k ≠ "image" → map_get c' k = map_get c k;
}.

Lemma initContainerImage_keeps obj name img deployName obj' k :
  injectInitContainerImage obj name img deployName = Ok (obj', k) →
  NestedSlice obj' containers_path = NestedSlice obj containers_path ∧ (0 ≤ k)%Z.
Proof.
  unfold injectInitContainerImage. destruct (String.eqb name ""); [by intros [= <- <-]|].
  destruct (NestedSlice obj initContainers_path) as [[[|c cs]|]|]; simpl; try by intros [= <- <-].
  destruct (if named name c then _ else _) as [idx|]; [|done].
  destruct ((c :: cs) !! idx ≫= as_map) as [ic|]; [|by intros [= <- <-]].
  destruct (SetNestedSlice _ _ _) as [obj2|] eqn:Hset; [|done]. intros [= <- <-]. split; [|done].
  by eapply (slice_set_other _ ["spec"; "template"; "spec"] "initContainers" "containers").
Qed.

Lemma override_image_configures mi deployName obj c k obj' c' k' :
  override_image Getenv mi deployName obj c k = Ok (obj', c', k') →
  NestedSlice obj' containers_path = NestedSlice obj containers_path ∧ (k ≤ k')%Z ∧
  (k' = k → c' = c ∧ obj' = obj ∧ overridden_image mi = None) ∧
  c' = match overridden_image mi with Some img => map_set c "image" (VString img) | None => c end.
Proof.
  unfold override_image, overridden_image.
  destruct (String.eqb (ControllerImage mi) ""); [by intros [= <- <- <-]|].
  destruct (String.eqb (Getenv (ControllerImage mi)) ""); [by intros [= <- <- <-]|].
  destruct (injectInitContainerImage _ _ _ _) as [[obj2 n]|] eqn:Hinit; [|done]. intros [= <- <- <-].
  apply initContainerImage_keeps in Hinit as [Hobj Hn]. simpl. split; [done|]. split; [lia|]. split; [lia|done].
Qed.

Lemma configured_set injection mi c c1 env' n n' :
  c1 = match overridden_image mi with Some img => map_set c "image" (VString img) | None => c end →
  sets_counting (existing_env c, n) (env', n') (desired injection mi) →
  configured injection mi c (map_set c1 "env" (VSlice env')).
Proof.
  intros -> (Hs & _). split.
  - unfold existing_env at 2. by rewrite map_get_set.
  - rewrite map_get_set. simpl. destruct (overridden_image mi); [by rewrite map_get_set|done].
  - intros k Henv Himg. rewrite map_get_set, (proj2 (String.eqb_neq "env" k)) by done.
    destruct (overridden_image mi); [|done]. by rewrite map_get_set, (proj2 (String.eqb_neq "image" k)).
Qed.

(** When nothing was counted the container was already configured. *)
Lemma configured_already injection mi c n n' env' :
  overridden_image mi = None → env' = existing_env c →
  sets_counting (existing_env c, n) (env', n') (desired injection mi) →
  configured injection mi c c.
Proof. intros Himg -> (Hs & _). split; [done|by rewrite Himg|done]. Qed.

(** [cs'] are the containers [cs] after the modules [done]. *)
Definition progress injection (done : list ModuleImages) (cs cs' : list value) : Prop :=
  length cs' = length cs ∧
  ∀ i c, cs !! i = Some c → ∃ c', cs' !! i = Some c' ∧
    (∀ mi, mi ∈ done → findNamedContainer cs (target_name mi) = Some i →
       ∃ m m', c = VMap m ∧ c' = VMap m' ∧ configured injection mi m m') ∧
    ((∀ mi, mi ∈ done → findNamedContainer cs (target_name mi) ≠ Some i) → c' = c).

Lemma findNamedContainer_named cs n i :
  findNamedContainer cs n = Some i → ∃ m, cs !! i = Some (VMap m) ∧ named n (VMap m) = true.
Proof.
  revert i. induction cs as [|c cs IH]; intros i; simpl; [done|].
  destruct (named n c) eqn:Hn.
  - intros [= <-]. destruct c; try done. by eexists.
  - destruct (findNamedContainer cs n) as [j|]; [|done]. intros [= <-]. by apply IH.
Qed.

Lemma findNamedContainer_ext cs cs' n :
  Forall2 (λ c c', named n c' = named n c) cs cs' → findNamedContainer cs' n = findNamedContainer cs n.
Proof. induction 1 as [|c c' cs cs' Hc _ IH]; simpl; [done|]. by rewrite Hc, IH. Qed.

Lemma configured_named injection mi m m' n :
  configured injection mi m m' → named n (VMap m') = named n (VMap m).
Proof. intros [_ _ Hrest]. unfold named. simpl. by rewrite Hrest. Qed.

Lemma progress_find injection done cs cs' n :
  progress injection done cs cs' → findNamedContainer cs' n = findNamedContainer cs n.
Proof.
  intros [Hlen Hall]. apply findNamedContainer_ext, Forall2_same_length_lookup. split; [done|].
  intros i c c' Hc Hc'. destruct (Hall i c Hc) as (c2 & Hc2 & Hon & Hoff). simplify_eq.
  destruct (decide (Exists (λ mi, findNamedContainer cs (target_name mi) = Some i) done)) as [Hex|Hno].
  - apply Exists_exists in Hex as (mi & Hmi & Hat).
    destruct (Hon mi Hmi Hat) as (m & m' & -> & -> & Hconf). by eapply configured_named.
  - rewrite Hoff; [done|]. intros mi Hmi Hat. apply Hno, Exists_exists. eauto.
Qed.

Lemma progress_none injection done cs cs1 mi :
  progress injection done cs cs1 → findNamedContainer cs (target_name mi) = None →
  progress injection (done ++ [mi]) cs cs1.
Proof.
  intros [Hlen Hall] Hnone. split; [done|]. intros i c Hc.
  destruct (Hall i c Hc) as (c' & Hc' & Hon & Hoff). exists c'. split; [done|]. split.
  - intros mi2 [Hmi2| ->%list_elem_of_singleton]%elem_of_app; [by apply Hon|by rewrite Hnone].
  - intros Hno. apply Hoff. intros mi2 Hmi2. apply Hno. apply elem_of_app. by left.
Qed.

Lemma progress_at injection done cs cs1 mi idx m m' :
  progress injection done cs cs1 → findNamedContainer cs (target_name mi) = Some idx →
  target_name mi ∉ (target_name <$> done) → cs !! idx = Some (VMap m) → configured injection mi m m' →
  cs1 !! idx = Some (VMap m) ∧ progress injection (done ++ [mi]) cs (<[idx := VMap m']> cs1).
Proof.
  intros [Hlen Hall] Hat Hfresh Hm Hconf.
  assert (∀ mi2, mi2 ∈ done → findNamedContainer cs (target_name mi2) ≠ Some idx) as Hothers.
  { intros mi2 Hmi2 Hat2. apply Hfresh, list_elem_of_fmap. exists mi2. split; [|done].
    apply findNamedContainer_named in Hat as (m1 & Hm1 & Hn1).
    apply findNamedContainer_named in Hat2 as (m2 & Hm2 & Hn2). simplify_eq. by eapply named_inj. }
  assert (idx < length cs1)%nat as Hidx by (rewrite Hlen; by eapply lookup_lt_Some).
  split.
  - destruct (Hall idx _ Hm) as (c' & Hc' & _ & Hoff). by rewrite Hc', Hoff.
  - split; [by rewrite length_insert|]. intros i c Hc. destruct (decide (i = idx)) as [->|Hi].
    + simplify_eq. exists (VMap m'). split; [by apply list_lookup_insert_eq|]. split.
      * intros mi2 [Hmi2| ->%list_elem_of_singleton]%elem_of_app Hat2; [by destruct (Hothers mi2)|]. eauto.
      * intros Hno. destruct (Hno mi); [|done]. apply elem_of_app. right. by left.
    + destruct (Hall i c Hc) as (c' & Hc' & Hon & Hoff). exists c'.
      rewrite list_lookup_insert_ne by done. split; [done|]. split.
      * intros mi2 [Hmi2| ->%list_elem_of_singleton]%elem_of_app Hat2; [by apply Hon|congruence].
      * intros Hno. apply Hoff. intros mi2 Hmi2. apply Hno. apply elem_of_app. by left.
Qed.

(** What holds of the state of the loop. *)
Definition loop_inv injection (obj0 : value_map) (cs : list value) (done : list ModuleImages)
    (st : inject_state) : Prop :=
  NestedSlice st.1.1 containers_path = NestedSlice obj0 containers_path ∧
  progress injection done cs st.1.2 ∧ (0 ≤ st.2)%Z ∧
  (st.2 = 0%Z → progress injection done cs cs).

Lemma inject_module_inv injection obj0 cs done mi st st' :
  loop_inv injection obj0 cs done st → target_name mi ∉ (target_name <$> done) →
  inject_module Getenv range_map injection (DeploymentName mi) st mi = Ok st' →
  loop_inv injection obj0 cs (done ++ [mi]) st'.
Proof.
  destruct st as [[obj cs1] k]. intros (Hobj & Hp & Hk & Hzero) Hfresh. simpl in *.
  unfold inject_module. rewrite String.eqb_refl. simpl. rewrite (progress_find _ _ _ _ _ Hp).
  destruct (findNamedContainer cs (target_name mi)) as [idx|] eqn:Hat.
  - pose proof Hat as (m & Hm & _)%findNamedContainer_named.
    pose proof (λ m', progress_at injection done cs cs1 mi idx m m' Hp Hat Hfresh Hm) as Hat1.
    assert (cs1 !! idx = Some (VMap m)) as Hcs1.
    { destruct (Hat1 (map_set match overridden_image mi with Some img => map_set m "image" (VString img) | None => m end
        "env" (VSlice (inject_env Getenv range_map injection mi (existing_env m, 0%Z)).1))) as [? _]; [|done].
      eapply configured_set; [done|]. rewrite <-surjective_pairing. apply inject_env_sets. }
    rewrite Hcs1. simpl. destruct (override_image _ _ _ _ _ _) as [[[obj2 c2] k2]|] eqn:Himg; [|done]. simpl.
    destruct (override_image_configures _ _ _ _ _ _ _ _ Himg) as (Hobj2 & Hk2 & Hsame & Hc2).
    assert (existing_env c2 = existing_env m) as Hce.
    { rewrite Hc2. unfold existing_env. destruct (overridden_image mi); [by rewrite map_get_set|done]. }
    rewrite Hce. pose proof (inject_env_sets injection mi (existing_env m, k2)) as Hs.
    destruct (inject_env _ _ _ _ _) as [env' k3] eqn:Henv. intros [= <-].
    destruct (Hat1 (map_set c2 "env" (VSlice env'))) as [_ Hp'].
    { by eapply configured_set. }
    split; [by rewrite <-Hobj|]. split; [done|]. pose proof Hs as (_ & Hk3 & Hunch). simpl in *. split; [lia|].
    intros ->. assert (k2 = 0%Z ∧ k = 0%Z) as [-> ->] by lia. destruct (Hsame eq_refl) as (_ & _ & Hno).
    destruct (progress_at injection done cs cs mi idx m m (Hzero eq_refl) Hat Hfresh Hm) as [_ Hfin].
    + eapply configured_already; [done| |done]. by apply Hunch.
    + by rewrite list_insert_id in Hfin.
  - intros [= <-]. split; [done|]. split; [by apply progress_none|]. split; [done|].
    intros Hz. by apply progress_none; [apply Hzero|].
Qed.

(** The modules whose operator runs in the Deployment. *)
Definition modules_of injection (deployName : string) : list ModuleImages :=
  filter (λ mi, DeploymentName mi = deployName) (PerModuleImages injection).

Lemma inject_modules_inv injection deployName obj0 cs done mis st st' :
  loop_inv injection obj0 cs done st →
  NoDup (target_name <$> done ++ filter (λ mi, DeploymentName mi = deployName) mis) →
  inject_modules Getenv range_map injection deployName st mis = Ok st' →
  loop_inv injection obj0 cs (done ++ filter (λ mi, DeploymentName mi = deployName) mis) st'.
Proof.
  revert done st. induction mis as [|mi mis IH]; intros done st Hinv; simpl.
  - rewrite app_nil_r. by intros _ [= <-].
  - rewrite filter_cons. case_decide as Hd.
    + intros Hnd. destruct (inject_module _ _ _ _ _ _) as [st1|] eqn:Hstep; [|done]. simpl. intros Hrec.
      rewrite (cons_middle mi). rewrite (cons_middle mi) in Hnd. rewrite app_assoc in Hnd |- *.
      eapply IH; [|done|done]. subst deployName. eapply inject_module_inv; [done| |done].
      rewrite !fmap_app in Hnd. apply NoDup_app in Hnd as [Hnd _]. apply NoDup_app in Hnd as (_ & Hdis & _).
      intros Hin. apply (Hdis _ Hin). simpl. by left.
    + destruct st as [[obj cs1] k]. unfold inject_module at 1.
      rewrite (proj2 (String.eqb_neq _ _) Hd). simpl. by apply IH.
Qed.

(** The object [obj'] is [obj] with the containers of its modules configured. *)
Definition deployment_configured injection (obj obj' : Unstructured) : Prop :=
  obj' = with_object obj (u_object obj') ∧
  ∃ cs cs', NestedSlice (u_object obj) containers_path = Ok (Some cs) ∧
    NestedSlice (u_object obj') containers_path = Ok (Some cs') ∧
    progress injection (modules_of injection (u_name obj)) cs cs'.

Lemma injectEnvVars_configures injection obj m' :
  NoDup (target_name <$> modules_of injection (u_name obj)) →
  injectEnvVarsIntoDeployment Getenv range_map obj injection = Ok m' →
  deployment_configured injection obj (with_object obj m').
Proof.
  intros Hnd. unfold injectEnvVarsIntoDeployment, deployment_configured.
  destruct (NestedSlice (u_object obj) containers_path) as [[cs|]|] eqn:Hcs; simpl; try done.
  assert (loop_inv injection (u_object obj) cs [] (u_object obj, cs, 0%Z)) as Hstart.
  { split; [done|]. simpl. split; [|split; [done|intros _]];
      (split; [done|]; intros i c Hc; exists c; split; [done|]; split; [by intros ? []%elem_of_nil|done]). }
  destruct cs as [|c cs]; [done|].
  destruct (inject_modules _ _ _ _ _ _) as [[[obj1 cs1] k]|] eqn:Hrun; [|done]. simpl.
  eapply (inject_modules_inv _ _ (u_object obj) (c :: cs) []) in Hrun as (Hobj & Hp & Hk & Hzero); [|exact Hstart|exact Hnd].
  simpl in *. destruct (Z.eqb_spec k 0) as [->|Hne].
  - intros [= <-]. split; [done|]. exists (c :: cs), (c :: cs). rewrite Hobj, Hcs.
    split; [done|]. split; [done|]. by apply Hzero.
  - intros Hset%slice_set_get. split; [done|]. by exists (c :: cs), cs1.
Qed.

End correctness.

(** When the env injection succeeds, every resource that is not a Deployment is
    untouched, and in every Deployment exactly the container that a module names for it is
    changed: it has the controller image if one is configured and set; each variable that
    the platform, the module's extra env or its related images give has that literal value,
    the platform's namespaces and type taking precedence, and every other variable and
    field of the container is as rendered. It does not matter in which order the map of
    extra variables is visited. *)
Theorem injectModuleEnv_configures `{NestedLaws} Getenv range_map (rr : outputs) injection resources resources' :
  (∀ m, range_map m ≡ₚ map_to_list m) →
  GetModuleEnvInjection rr = Some injection →
  (∀ deployName, NoDup (target_name <$> modules_of injection deployName)) →
  injectModuleEnv Getenv range_map rr resources = Ok resources' →
  Forall2 (λ obj obj', (isDeployment obj = false → obj' = obj) ∧
                       (isDeployment obj = true → deployment_configured Getenv injection obj obj'))
    resources resources'.
Proof.
  intros Hrange Hinj Hnd. unfold injectModuleEnv. rewrite Hinj.
  revert resources'. induction resources as [|obj resources IH]; intros resources'; simpl.
  { intros [= <-]. constructor. }
  destruct (isDeployment obj) eqn:Hdep; simpl.
  - destruct (injectEnvVarsIntoDeployment _ _ _ _) as [m'|] eqn:Hone; [|done]. simpl.
    destruct (inject_resources _ _ _ _) as [rest|] eqn:Hrest; [|done]. intros [= <-].
    constructor; [split; [by rewrite Hdep|intros _]|by apply IH]. by eapply injectEnvVars_configures.
  - destruct (inject_resources _ _ _ _) as [rest|] eqn:Hrest; [|done]. intros [= <-].
    constructor; [split; [done|by rewrite Hdep]|by apply IH].
Qed.

Definition sample_container (name : string) : value :=
  VMap [("name", VString name); ("image", VString "chart/" );
        ("env", VSlice [VMap [("name", VString "APPLICATIONS_NAMESPACE"); ("valueFrom", VMap [])]])].

Definition sample_deployment : Unstructured :=
  MkUnstructured Deployment "ray" "system" 1 false
    [("spec", VMap [("template", VMap [("spec", VMap [("containers",
       VSlice [sample_container "proxy"; sample_container "manager"])])])])].

Definition sample_injection : ModuleEnvInjection :=
  MkInjection [MkImages "ray" "" "RELATED_IMAGE_CTRL" "" ["RELATED_IMAGE_RAY"] (Some {["MODE" := "x"]})]
    "opendatahub" "" "XKS".

Definition sample_getenv (n : string) : string :=
  if String.eqb n "RELATED_IMAGE_CTRL" then "quay.io/ctrl" else "".

Lemma injectModuleEnv_configures_witness :
  ∃ resources',
    @injectModuleEnv nested_documented nested_write_documented sample_getenv map_to_list
      (MkOutputs [] [] (Some sample_injection)) [sample_deployment] = Ok resources' ∧
    Forall2 (λ obj obj', (isDeployment obj = false → obj' = obj) ∧
      (isDeployment obj = true →
        @deployment_configured nested_documented sample_getenv sample_injection obj obj')) [sample_deployment] resources'.
Proof.
  eexists. split; [vm_compute; reflexivity|].
  apply (@injectModuleEnv_configures nested_documented nested_write_documented nested_documented_laws sample_getenv
    map_to_list (MkOutputs [] [] (Some sample_injection)) sample_injection [sample_deployment]).
  - done.
  - done.
  - intros d. unfold modules_of. simpl. rewrite filter_cons, filter_nil.
    case_decide; [apply NoDup_singleton|apply NoDup_nil_2].
  - vm_compute. reflexivity.
Defined.

(** The sample: the manager's variable now has the literal namespace, the proxy's has not. *)
Example sample_injected :
  (λ r, (λ o, @NestedSlice nested_documented (u_object o) containers_path) <$> head r) <$>
  @injectModuleEnv nested_documented nested_write_documented
    sample_getenv map_to_list
    (MkOutputs [] [] (Some sample_injection)) [sample_deployment] =
  Ok (Some (Ok (Some [sample_container "proxy";
    VMap [("name", VString "manager"); ("image", VString "quay.io/ctrl");
          ("env", VSlice [
             VMap [("name", VString "APPLICATIONS_NAMESPACE"); ("value", VString "opendatahub")];
             VMap [("name", VString "MODE"); ("value", VString "x")];
             VMap [("name", VString "ODH_MODULE_OPERATOR_PLATFORM_TYPE"); ("value", VString "XKS")]])]]))).
Proof. vm_compute. reflexivity. Qed.
