(* ===== verification/PlatformConfig.v ===== *)
(** * PlatformConfig: what the platform hands to module operators

    Models [internal/controller/modules/modules_controller_actions_platform_config.go]: the
    action that creates or completes the ConfigMap a module reads its platform version from,
    with the cert-manager settings of
    [pkg/controller/actions/dependency/certmanager/bootstrap.go] it is filled with.
    [ToUnstructured] is the converter of the apimachinery library, [Getenv] is [os.Getenv]. *)

From S2P Require Import Prelude Effects Conditions Dag Provision Gates Unstructured Namespaces ModuleBase ModuleRegistry ModuleActions EnvInject ModuleTheorems ModuleStatusTheorems.

(** ** The settings of cert-manager *)

Definition GetOrDefault (Getenv : string → string) (envVar defaultValue : string) : string :=
  if String.eqb (Getenv envVar) "" then defaultValue else Getenv envVar.

(** Without the operator certificate, which no option adds here. *)
Record BootstrapConfig := MkBootstrapConfig {
  IssuerName : string;
  CertName : string;
  CertManagerNamespace : string;
  CAIssuerName : string;
  IssuerRefKind : string;
}.

Definition EnvCAIssuerName : string := "RHAI_ISSUER_REF_NAME".
Definition EnvIssuerRefKind : string := "RHAI_ISSUER_REF_KIND".
Definition EnvCertName : string := "RHAI_CA_SECRET_NAME".
Definition EnvCertManagerNS : string := "RHAI_CA_SECRET_NAMESPACE".
Definition EnvIstioCACertPath : string := "RHAI_ISTIO_CA_CERTIFICATE_PATH".
Definition DefaultIssuerRefKind : string := "ClusterIssuer".

(** Called without options. *)
Definition DefaultBootstrapConfig (Getenv : string → string) : BootstrapConfig :=
  let prefix := "opendatahub" in
  MkBootstrapConfig (prefix +:+ "-selfsigned-issuer")
    (GetOrDefault Getenv EnvCertName (prefix +:+ "-ca"))
    (GetOrDefault Getenv EnvCertManagerNS "cert-manager")
    (GetOrDefault Getenv EnvCAIssuerName (prefix +:+ "-ca-issuer"))
    (GetOrDefault Getenv EnvIssuerRefKind DefaultIssuerRefKind).

(** ** The platform ConfigMap *)

Definition PlatformConfigPrefix : string := "odh-".
Definition PlatformConfigSuffix : string := "-config".
Definition PlatformVersionKey : string := "platformVersion".
Definition CertManagerIssuerRefNameKey : string := "CERT_MANAGER_ISSUER_REF_NAME".
Definition CertManagerIssuerRefKindKey : string := "CERT_MANAGER_ISSUER_REF_KIND".
Definition CertManagerCASecretNameKey : string := "CERT_MANAGER_CA_SECRET_NAME".
Definition CertManagerCASecretNamespaceKey : string := "CERT_MANAGER_CA_SECRET_NAMESPACE".
Definition CertManagerIstioCACertPathKey : string := "CERT_MANAGER_ISTIO_CA_CERT_PATH".

Definition platformManagedCertManagerKeys : list string :=
  [CertManagerIssuerRefNameKey; CertManagerIssuerRefKindKey; CertManagerCASecretNameKey;
   CertManagerCASecretNamespaceKey; CertManagerIstioCACertPathKey].

Definition PlatformConfigName (moduleName : string) : string :=
  PlatformConfigPrefix +:+ moduleName +:+ PlatformConfigSuffix.

Definition XKS : string := "XKS".

(** A [nil] map is empty. *)
Definition buildPlatformConfigMap (name namespace platformVersion : string)
    (extraParams : gmap string string) : ConfigMap :=
  MkConfigMap name namespace ∅ None (Some (maps_Copy {[PlatformVersionKey := platformVersion]} extraParams)).

Section config.
Context `{Nested, NestedWrite}.
Variable Getenv : string → string.

Definition merged_data (data : gmap string string) (platformVersion : string)
    (extraParams : gmap string string) : gmap string string :=
  let data := foldl (λ d k, delete k d) data platformManagedCertManagerKeys in
  maps_Copy (<[PlatformVersionKey := platformVersion]> data) extraParams.

(** [data, _, _ := unstructured.NestedStringMap(...)]; [nil] becomes empty. *)
Definition existing_data (u : Unstructured) : gmap string string :=
  match NestedStringMap (u_object u) ["data"] with Ok (Some d) => d | _ => ∅ end.

(** An error of the setter is dropped. *)
Definition mergePlatformKeys (u : Unstructured) (platformVersion : string)
    (extraParams : gmap string string) : Unstructured :=
  match SetNestedStringMap (u_object u) (merged_data (existing_data u) platformVersion extraParams) ["data"] with
  | Ok m => with_object u m
  | Err _ => u
  end.

Definition buildCertManagerConfigParams : gmap string string :=
  let bc := DefaultBootstrapConfig Getenv in
  let params := <[CertManagerIssuerRefNameKey := CAIssuerName bc]>
    (<[CertManagerIssuerRefKindKey := IssuerRefKind bc]>
    (<[CertManagerCASecretNameKey := CertName bc]>
     {[CertManagerCASecretNamespaceKey := CertManagerNamespace bc]})) in
  if String.eqb (Getenv EnvIstioCACertPath) "" then params
  else <[CertManagerIstioCACertPathKey := Getenv EnvIstioCACertPath]> params.

(** The loop from index [i] on. *)
Fixpoint index_from (i : nat) (resources : list Unstructured) (idx : gmap string nat) : gmap string nat :=
  match resources with
  | [] => idx
  | u :: resources =>
      index_from (S i) resources
        (if String.eqb (gvk_Kind (u_gvk u)) "ConfigMap" then <[u_name u := i]> idx else idx)
  end.

Definition indexConfigMapsByName (resources : list Unstructured) : gmap string nat :=
  index_from 0 resources ∅.

Section action.
Context {DSCT : Type}.
Variable multierror_error : list goerr → goerr.
Variable gvk_String : GroupVersionKind → string.
Variable NotFound_text : string → string → string → string.
Variable configuredAppNS : string.
Variable ToUnstructured : ConfigMap → result Unstructured.
Variable reg : ModuleRegistry.t DSCT.
Variable rr : ReconciliationRequest DSCT.

(** [if rr.Release.Name == cluster.XKS]; a [nil] map is empty. *)
Definition extra_params : gmap string string :=
  if String.eqb (rr_ReleaseName rr) XKS then buildCertManagerConfigParams else ∅.

(** The callback: [rr.Resources] and the error. *)
Definition config_module (platformCtx : PlatformContext) (existingCMs : gmap string nat)
    (resources : list Unstructured) (h : ModuleHandler DSCT) : list Unstructured * option goerr :=
  if negb (h_IsEnabled h (p_Modules platformCtx)) then (resources, None)
  else
    let name := h_GetName h in
    let cmName := PlatformConfigName name in
    match existingCMs !! cmName with
    | Some idx =>
        (alter (λ u, mergePlatformKeys u (rr_ReleaseVersion rr) extra_params) idx resources, None)
    | None =>
        let cm := buildPlatformConfigMap cmName (p_ApplicationsNamespace platformCtx)
                    (rr_ReleaseVersion rr) extra_params in
        match ToUnstructured cm with
        | Err err => (resources, Some (wrapf ("converting platform config ConfigMap for " +:+ name) err))
        | Ok u => (resources ++ [u], None)
        end
    end.

Definition injectPlatformConfig (resources : list Unstructured)
    : prog ModE (list Unstructured * option goerr) :=
  if negb (ModuleRegistry.HasEntries reg) then mret (resources, None)
  else
    platformCtx ← buildPlatformContext multierror_error gvk_String NotFound_text configuredAppNS reg rr;
    match platformCtx with
    | Err err => mret (resources, Some err)
    | Ok platformCtx =>
        let existingCMs := indexConfigMapsByName resources in
        ModuleRegistry.ForEach multierror_error reg
          (λ resources h, mret (config_module platformCtx existingCMs resources h)) resources
    end.

End action.
End config.

(** ** What a module finds in its ConfigMap *)

(** The data [d] of the platform ConfigMap, given the data [old] of the one rendered with
    the module: the platform's keys have the platform's values (or are gone), the module's
    own keys are untouched. *)
Definition platform_data (platformVersion : string) (extraParams old d : gmap string string) : Prop :=
  ∀ k, d !! k = if String.eqb k PlatformVersionKey then Some platformVersion
                else if bool_decide (k ∈ platformManagedCertManagerKeys) then extraParams !! k
                else old !! k.

(** Only cert-manager settings are passed on. *)
Definition managed_only (extraParams : gmap string string) : Prop :=
  ∀ k, is_Some (extraParams !! k) → k ∈ platformManagedCertManagerKeys.

Lemma extra_params_managed {DSCT} Getenv (rr : ReconciliationRequest DSCT) : managed_only (extra_params Getenv rr).
Proof.
  unfold extra_params, buildCertManagerConfigParams, managed_only. intros k.
  destruct (String.eqb (rr_ReleaseName rr) XKS); [|by rewrite lookup_empty; intros []].
  destruct (String.eqb _ ""); repeat rewrite lookup_insert_is_Some; rewrite lookup_singleton_is_Some;
    unfold platformManagedCertManagerKeys; rewrite !elem_of_cons; naive_solver.
Qed.

Lemma foldl_delete (keys : list string) (d : gmap string string) k :
  foldl (λ d k, delete k d) d keys !! k = if bool_decide (k ∈ keys) then None else d !! k.
Proof.
  revert d. induction keys as [|k' keys IH]; intros d; simpl; [done|]. rewrite IH.
  destruct (decide (k = k')) as [->|Hk].
  - rewrite lookup_delete_eq. rewrite (bool_decide_eq_true_2 (k' ∈ k' :: keys)) by (by left).
    by destruct (bool_decide _).
  - rewrite lookup_delete_ne by done. by rewrite (bool_decide_ext (k ∈ k' :: keys) (k ∈ keys)) by set_solver.
Qed.

Lemma merged_data_platform old version extra :
  managed_only extra → platform_data version extra old (merged_data old version extra).
Proof.
  intros Hmanaged k. unfold merged_data, maps_Copy. rewrite lookup_union.
  specialize (Hmanaged k). destruct (extra !! k) as [v|] eqn:Hv.
  - specialize (Hmanaged (ex_intro _ v eq_refl)).
    destruct (String.eqb_spec k PlatformVersionKey) as [->|Hk].
    + apply (bool_decide_eq_true_2 _) in Hmanaged. by vm_compute in Hmanaged.
    + rewrite bool_decide_eq_true_2 by done. apply union_Some_l.
  - rewrite (left_id_L None (∪)). destruct (String.eqb_spec k PlatformVersionKey) as [->|Hk].
    + by rewrite lookup_insert_eq.
    + rewrite lookup_insert_ne by done. rewrite foldl_delete. done.
Qed.

Lemma built_data_platform name ns version extra :
  managed_only extra →
  ∃ d, cm_data (buildPlatformConfigMap name ns version extra) = Some d ∧ platform_data version extra ∅ d.
Proof.
  intros Hmanaged. eexists. split; [done|].
  pose proof (merged_data_platform ∅ version extra Hmanaged) as Hd. unfold merged_data in Hd.
  simpl in Hd. rewrite !delete_empty in Hd. by rewrite insert_empty in Hd.
Qed.

(** ** The index of the ConfigMaps *)

Definition is_config_map (name : string) (u : Unstructured) : Prop :=
  gvk_Kind (u_gvk u) = "ConfigMap" ∧ u_name u = name.

Lemma index_from_lookup i resources idx name j :
  index_from i resources idx !! name = Some j →
  idx !! name = Some j ∨ ∃ n u, j = (i + n)%nat ∧ resources !! n = Some u ∧ is_config_map name u.
Proof.
  revert i idx. induction resources as [|u resources IH]; intros i idx; simpl; [by left|].
  intros [Hidx|(n & u' & -> & Hn & Hu')]%IH; [|right; exists (S n), u'; split; [lia|done]].
  destruct (String.eqb_spec (gvk_Kind (u_gvk u)) "ConfigMap") as [Hkind|]; [|by left].
  apply lookup_insert_Some in Hidx as [[<- <-]|[_ ?]]; [|by left].
  right. exists 0%nat, u. split; [lia|done].
Qed.

Lemma indexConfigMaps_lookup resources name j :
  indexConfigMapsByName resources !! name = Some j →
  ∃ u, resources !! j = Some u ∧ is_config_map name u.
Proof. intros [Hidx|(n & u & -> & ? & ?)]%index_from_lookup; [by rewrite lookup_empty in Hidx|eauto]. Qed.

Lemma append_suffix_inj s1 s2 t : s1 +:+ t = s2 +:+ t → s1 = s2.
Proof.
  revert s2. induction s1 as [|a s1 IH]; intros [|b s2]; simpl; intros Heq; try done.
  - apply (f_equal String.length) in Heq. simpl in Heq. rewrite ?length_append in Heq. simpl in Heq. lia.
  - apply (f_equal String.length) in Heq. simpl in Heq. rewrite ?length_append in Heq. simpl in Heq. lia.
  - injection Heq as -> Heq. f_equal. by apply IH.
Qed.

Lemma PlatformConfigName_inj n1 n2 : PlatformConfigName n1 = PlatformConfigName n2 → n1 = n2.
Proof. unfold PlatformConfigName. intros Heq%(inj (String.append _)). by eapply append_suffix_inj. Qed.

(** ** Every enabled module gets its ConfigMap *)

Section delivery.
Context `{NestedLaws} {DSCT : Type}.
Variable Getenv : string → string.
Variable ToUnstructured : ConfigMap → result Unstructured.
(** The converter keeps the kind, the name and the data of a typed object. *)
Hypothesis ToUnstructured_keeps : ∀ cm u, ToUnstructured cm = Ok u →
  is_config_map (cm_name cm) u ∧ NestedStringMap (u_object u) ["data"] = Ok (cm_data cm).
Variables (rr : ReconciliationRequest DSCT) (ctx : PlatformContext) (resources : list Unstructured).
Implicit Types (e : ModuleRegistry.registryEntry DSCT) (cur : list Unstructured).

Notation extra := (extra_params Getenv rr).
Notation cms := (indexConfigMapsByName resources).
Notation merge u := (mergePlatformKeys u (rr_ReleaseVersion rr) extra).

Definition config_name e : string := PlatformConfigName (h_GetName (ModuleRegistry.handler e)).
Definition active e : Prop := h_IsEnabled (ModuleRegistry.handler e) (p_Modules ctx) = true.

(** The resource is the module's ConfigMap with the platform's data in it. *)
Definition delivers e (u : Unstructured) : Prop :=
  is_config_map (config_name e) u ∧
  ∃ old d, NestedStringMap (u_object u) ["data"] = Ok (Some d) ∧
    platform_data (rr_ReleaseVersion rr) extra old d ∧
    (old = ∅ ∨ ∃ u0, u0 ∈ resources ∧ is_config_map (config_name e) u0 ∧ old = existing_data u0).

Lemma merge_delivers e u : u ∈ resources → is_config_map (config_name e) u → delivers e (merge u).
Proof.
  intros Hu Hcm. unfold mergePlatformKeys.
  destruct (string_map_set (u_object u) "data" (merged_data (existing_data u) (rr_ReleaseVersion rr) extra))
    as (m & Hset & Hget). rewrite Hset. split; [done|].
  exists (existing_data u), (merged_data (existing_data u) (rr_ReleaseVersion rr) extra). split; [done|].
  split; [apply merged_data_platform, extra_params_managed|]. right. by exists u.
Qed.

Lemma built_delivers e u :
  ToUnstructured (buildPlatformConfigMap (config_name e) (p_ApplicationsNamespace ctx)
    (rr_ReleaseVersion rr) extra) = Ok u → delivers e u.
Proof.
  intros [Hcm Hdata]%ToUnstructured_keeps.
  destruct (built_data_platform (config_name e) (p_ApplicationsNamespace ctx) (rr_ReleaseVersion rr) extra)
    as (d & Hd & Hp); [apply extra_params_managed|].
  split; [done|]. exists ∅, d. rewrite Hdata, Hd. auto.
Qed.

(** The modules [pre] have been visited without an error. *)
Record configured_so_far (pre : list (ModuleRegistry.registryEntry DSCT)) cur : Prop := {
  so_far_length : (length resources ≤ length cur)%nat;
  so_far_kept i u : resources !! i = Some u →
    (∀ e, e ∈ pre → active e → cms !! config_name e ≠ Some i) → cur !! i = Some u;
  so_far_delivered e : e ∈ pre → active e → ∃ i u, cur !! i = Some u ∧ delivers e u ∧
    (cms !! config_name e = Some i ∨ (length resources ≤ i)%nat);
}.

Lemma configured_step pre e cur cur' :
  (∀ e2, e2 ∈ pre → config_name e2 ≠ config_name e) →
  configured_so_far pre cur →
  config_module Getenv ToUnstructured rr ctx cms cur (ModuleRegistry.handler e) = (cur', None) →
  configured_so_far (pre ++ [e]) cur'.
Proof.
  intros Hfresh [Hlen Hkept Hdel]. unfold config_module.
  destruct (h_IsEnabled _ _) eqn:Hen; simpl.
  2: { intros [= <-]. split; [done| |].
       - intros i u Hu Hno. apply Hkept; [done|]. intros e2 He2. apply Hno, elem_of_app. by left.
       - intros e2 [He2| ->%list_elem_of_singleton]%elem_of_app Hact; [by apply Hdel|by unfold active in Hact; congruence]. }
  fold (config_name e). destruct (cms !! config_name e) as [idx|] eqn:Hidx.
  - pose proof Hidx as (u0 & Hu0 & Hcm)%indexConfigMaps_lookup. intros [= <-].
    assert (∀ e2, e2 ∈ pre → cms !! config_name e2 ≠ Some idx) as Hother.
    { intros e2 He2 (u1 & Hu1 & _ & Hn1)%indexConfigMaps_lookup. destruct Hcm as [_ Hn0].
      apply (Hfresh e2 He2). simplify_eq. congruence. }
    assert (cur !! idx = Some u0) as Hcur by (apply Hkept; [done|]; intros e2 He2 _; by apply Hother).
    split; [by rewrite length_alter| |].
    + intros i u Hu Hno. rewrite list_lookup_alter_ne.
      * apply Hkept; [done|]. intros e2 He2. apply Hno, elem_of_app. by left.
      * intros ->. apply (Hno e); [apply elem_of_app; right; by left|done|done].
    + intros e2 [He2| ->%list_elem_of_singleton]%elem_of_app Hact.
      * destruct (Hdel e2 He2 Hact) as (i & u & Hi & Hdu & Hpos). exists i, u.
        rewrite list_lookup_alter_ne; [done|]. intros <-.
        destruct Hpos as [Hpos|Hge]; [by eapply Hother|]. apply lookup_lt_Some in Hu0. lia.
      * exists idx, (merge u0). rewrite list_lookup_alter, decide_True, Hcur by done. simpl.
        split; [done|]. split; [|by left]. apply merge_delivers; [by eapply list_elem_of_lookup_2|done].
  - destruct (ToUnstructured _) as [u|] eqn:Hconv; [|done]. intros [= <-].
    assert (∀ i x, cur !! i = Some x → (cur ++ [u]) !! i = Some x) as Hmono.
    { intros i x Hi. by apply lookup_app_l_Some. }
    split; [rewrite length_app; lia| |].
    + intros i x Hx Hno. apply Hmono, Hkept; [done|]. intros e2 He2. apply Hno, elem_of_app. by left.
    + intros e2 [He2| ->%list_elem_of_singleton]%elem_of_app Hact.
      * destruct (Hdel e2 He2 Hact) as (i & x & Hi & Hrest). exists i, x. split; [by apply Hmono|done].
      * exists (length cur), u. rewrite lookup_app_r, Nat.sub_diag by done. split; [done|].
        split; [by apply built_delivers|]. by right.
Qed.

End delivery.

(** The module runs: it is enabled at startup and by the platform configuration. *)
Definition runs {DSCT} (reg : ModuleRegistry.t DSCT) (modules : PlatformModules)
    (e : ModuleRegistry.registryEntry DSCT) : Prop :=
  (∃ k, ModuleRegistry.entries reg !! k = Some e) ∧ ModuleRegistry.enabled e = true ∧
  h_IsEnabled (ModuleRegistry.handler e) modules = true.

(** When the platform-config action succeeds, the rendered resources hold for every
    module that runs a ConfigMap [odh-<module>-config] with the platform version (the
    handshake the module's readiness depends on) and, on XKS only, the cert-manager
    settings; stale cert-manager settings are gone and the module's own keys are those its
    manifests were rendered with. Every other resource is untouched. *)
Theorem injectPlatformConfig_delivers `{NestedLaws} {DSCT} Getenv multierror_error gvk_String NotFound_text appNS
    ToUnstructured (ops : list (registry_op DSCT)) rr resources modules :
  (∀ cm u, ToUnstructured cm = Ok u →
     is_config_map (cm_name cm) u ∧ NestedStringMap (u_object u) ["data"] = Ok (cm_data cm)) →
  modulesFromInstance multierror_error (module_registry ops) rr = Ok modules →
  wp (injectPlatformConfig Getenv multierror_error gvk_String NotFound_text appNS ToUnstructured
        (module_registry ops) rr resources) [] (λ _ res, res.2 = None →
    (∀ e, runs (module_registry ops) modules e → ∃ u, u ∈ res.1 ∧ delivers Getenv rr resources e u) ∧
    (∀ i u, resources !! i = Some u →
       (∀ e, runs (module_registry ops) modules e →
          indexConfigMapsByName resources !! config_name e ≠ Some i) →
       res.1 !! i = Some u)).
Proof.
  intros Hconv Hmodules. unfold injectPlatformConfig.
  destruct (ModuleRegistry.HasEntries _) eqn:Hhas; simpl negb; cbv iota.
  2: { apply wp_ret. intros _. split; [|done]. intros e ((k & Hk) & _). unfold ModuleRegistry.HasEntries in Hhas.
       apply negb_false_iff, bool_decide_eq_true in Hhas. by rewrite Hhas, lookup_empty in Hk. }
  apply wp_bind. eapply wp_mono; [|apply wp_buildPlatformContext].
  intros tr1 [ctx|err] (_ & Hctx); [|by apply wp_ret]. rewrite Hmodules in Hctx. injection Hctx as ->.
  unfold ModuleRegistry.ForEach.
  eapply wp_mono; [|apply (wp_for_entries _ _ _ _ _ _ (λ pre _ cur errs,
    errs = [] → configured_so_far Getenv rr ctx resources pre cur))].
  - intros tr res (errs & Hinv & Hres) Hnone. rewrite Hnone in Hres.
    destruct (Hinv (proj1 (ErrorOrNil_None _ _) (eq_sym Hres))) as [_ Hkept Hdel]. split.
    + intros e (Hin & Hen & Hact). destruct (Hdel e) as (i & u & Hi & Hu & _); [|done|].
      * apply list_elem_of_filter. split; [done|]. by apply elem_of_sorted_entries.
      * exists u. split; [by eapply list_elem_of_lookup_2|done].
    + intros i u Hu Hno. apply Hkept; [done|].
      intros e [Hen Hin%elem_of_sorted_entries]%list_elem_of_filter Hact. by apply Hno.
  - intros _. split; [done| |by intros e []%elem_of_nil]. intros i u Hu _. done.
  - intros pre e todo tr cur errs Heq Hinv. apply wp_ret.
    destruct (config_module _ _ _ _ _ _ _) as [cur' [err|]] eqn:Hstep; simpl; [by destruct errs|].
    intros ->. eapply configured_step; [done| |by apply Hinv|done].
    intros e2 He2 Hname%PlatformConfigName_inj.
    apply (visited_fresh _ _ _ _ _ (names_match_registry ops) Heq), list_elem_of_fmap. by exists e2.
Qed.

(** A converter that writes the kind, the name and the data. *)
Definition sample_ToUnstructured (cm : ConfigMap) : result Unstructured :=
  match cm_data cm with
  | Some d => Ok (MkUnstructured (MkGVK "" "v1" "ConfigMap") (cm_name cm) (cm_namespace cm) 0 false
                [("data", VMap (prod_map id VString <$> map_to_list d))])
  | None => Err (errorf "no data")
  end.

Definition sample_config_rr : ReconciliationRequest unit :=
  MkRR (InstPlatform {["ray" := Managed]}) "uid" "XKS" "3.0.0" ∅ "" "".

(** The ConfigMap rendered with the module has its own key and a stale setting. *)
Definition sample_rendered : Unstructured :=
  MkUnstructured (MkGVK "" "v1" "ConfigMap") "odh-ray-config" "ns" 0 false
    [("data", VMap [("LEVEL", VString "debug"); ("CERT_MANAGER_ISTIO_CA_CERT_PATH", VString "/old")])].

Definition sample_config_ops : list (registry_op unit) := [OpAdd (sample_handler "ray") []].

Lemma injectPlatformConfig_delivers_witness :
  wp (@injectPlatformConfig nested_write_documented (λ _, "") unit (λ _, errorf "") (λ _, "")
        (λ _ _ _, "") "" sample_ToUnstructured (module_registry sample_config_ops) sample_config_rr [sample_rendered])
    [] (λ _ res, res.2 = None →
    (∀ e, runs (module_registry sample_config_ops) {["ray" := Managed]} e →
       ∃ u, u ∈ res.1 ∧ @delivers nested_write_documented unit (λ _, "") sample_config_rr [sample_rendered] e u) ∧
    (∀ i u, [sample_rendered] !! i = Some u →
       (∀ e, runs (module_registry sample_config_ops) {["ray" := Managed]} e →
          indexConfigMapsByName [sample_rendered] !! config_name e ≠ Some i) →
       res.1 !! i = Some u)).
Proof.
  apply (@injectPlatformConfig_delivers nested_documented nested_write_documented nested_documented_laws).
  - intros cm u. unfold sample_ToUnstructured. destruct (cm_data cm) as [d|] eqn:Hd; [|done].
    intros [= <-]. split; [done|]. simpl. unfold nested_typed. simpl. by rewrite string_map_of_strings.
  - reflexivity.
Defined.

(** The sample: the module's key stays, the stale setting is gone. *)
Example sample_merged :
  (λ d : option (gmap string string), (λ k, default ∅ d !! k) <$>
     ["LEVEL"; "platformVersion"; "CERT_MANAGER_ISTIO_CA_CERT_PATH"; "CERT_MANAGER_ISSUER_REF_KIND"]) <$>
  @NestedStringMap nested_write_documented
    (u_object (@mergePlatformKeys nested_write_documented sample_rendered "3.0.0"
       (extra_params (λ _, "") sample_config_rr))) ["data"] =
  Ok [Some "debug"; Some "3.0.0"; None; Some "ClusterIssuer"].
Proof. vm_compute. reflexivity. Qed.
