(* ===== verification/SharedPlatform.v ===== *)
(** * SharedPlatform: the Platform CR that two controllers own

    Models [SetPlatformMetadata] and [EnsurePlatformOwnerReference] of
    [internal/controller/modules/modules_controller_actions.go], which the DSC and the DSCI
    controllers apply to the Platform CR, and [NormalizePartOfValue] of
    [pkg/metadata/labels/types.go].

    [SetOwnerReference] of controller-runtime, for the calling controller's owner, and
    [RetryOnConflict] of client-go are parameters. *)

From S2P Require Import Prelude Effects Unstructured.

Notation StringMap := (gmap string string).

Record OwnerReference := MkOwner {
  or_APIVersion : string;
  or_Kind : string;
  or_Name : string;
  or_UID : string;
  or_Controller : option bool;
  or_BlockOwnerDeletion : option bool;
}.

#[export] Instance OwnerReference_eq_dec : EqDecision OwnerReference.
Proof. solve_decision. Defined.

(** The Platform CR as the code below reads and writes it; [pl_rest] is everything else. *)
Record Platform := MkPlatformCR {
  pl_Annotations : StringMap;
  pl_Labels : StringMap;
  pl_OwnerReferences : list OwnerReference;
  pl_Deleting : bool;
  pl_Modules : StringMap;
  pl_rest : string;
}.

(** ** Metadata *)

Definition is_space (a : Ascii.ascii) : bool :=
  let n := Ascii.nat_of_ascii a in (n =? 32)%nat || ((9 <=? n)%nat && (n <=? 13)%nat).

Fixpoint trim_left (s : string) : string :=
  match s with
  | EmptyString => EmptyString
  | String a s' => if is_space a then trim_left s' else s
  end.

(** Drop the spaces at the end. *)
Fixpoint trim_right (s : string) : string :=
  match s with
  | EmptyString => EmptyString
  | String a s' =>
      match trim_right s' with
      | EmptyString => if is_space a then EmptyString else String a EmptyString
      | s'' => String a s''
      end
  end.

(** [strings.TrimSpace] of an ASCII text. *)
Definition TrimSpace (s : string) : string := trim_right (trim_left s).

Definition NormalizePartOfValue (s : string) : string := to_lower (TrimSpace s).

Section metadata.
(** The annotation suffixes of the framework. *)
Variables SuffixVersion SuffixType SuffixInstanceGeneration SuffixInstanceName SuffixInstanceUID : string.

Definition PlatformVersion : string := "platform.opendatahub.io" +:+ SuffixVersion.
Definition PlatformType : string := "platform.opendatahub.io" +:+ SuffixType.
Definition InstanceGeneration : string := "platform.opendatahub.io" +:+ SuffixInstanceGeneration.
Definition InstanceName : string := "platform.opendatahub.io" +:+ SuffixInstanceName.
Definition InstanceUID : string := "platform.opendatahub.io" +:+ SuffixInstanceUID.
Definition PlatformPartOf : string := "platform.opendatahub.io/part-of".

(** The instance is the DSC; a [nil] map is empty. *)
Definition SetPlatformMetadata (platform : Platform) (generation : Z) (name uid releaseName releaseVersion partOf : string)
    : Platform :=
  let annotations := <[PlatformVersion := releaseVersion]> (<[PlatformType := releaseName]>
    (<[InstanceUID := uid]> (<[InstanceName := name]>
    (<[InstanceGeneration := itoa generation]> (pl_Annotations platform))))) in
  let labels := <[PlatformPartOf := NormalizePartOfValue partOf]> (pl_Labels platform) in
  MkPlatformCR annotations labels (pl_OwnerReferences platform) (pl_Deleting platform)
    (pl_Modules platform) (pl_rest platform).

End metadata.

(** ** Owner references *)

Inductive PlatformE : Type → Type :=
| GetPlatform : PlatformE (result Platform)
| UpdatePlatform (platform : Platform) : PlatformE (option goerr).

(** [platform.SetOwnerReferences(refs)]. *)
Definition set_owners (platform : Platform) (refs : list OwnerReference) : Platform :=
  MkPlatformCR (pl_Annotations platform) (pl_Labels platform) refs (pl_Deleting platform)
    (pl_Modules platform) (pl_rest platform).

Section owners.
(** The references after the owner's has been merged in. *)
Variable SetOwnerReference : list OwnerReference → result (list OwnerReference).

(** The function that is retried. *)
Definition ensure_attempt : prog PlatformE (option goerr) :=
  got ← trigger GetPlatform;
  match got with
  | Err err => mret (Some err)
  | Ok platform =>
      if pl_Deleting platform then mret None
      else
        let ownerReferences := pl_OwnerReferences platform in
        match SetOwnerReference ownerReferences with
        | Err err => mret (Some (wrapf "failed to merge Platform owner reference" err))
        | Ok refs =>
            if bool_decide (ownerReferences = refs) then mret None
            else
              err ← trigger (UpdatePlatform (set_owners platform refs));
              match err with
              | Some err => mret (Some err)
              | None => mret None
              end
        end
  end.

Variable RetryOnConflict : prog PlatformE (option goerr) → prog PlatformE (option goerr).

Definition EnsurePlatformOwnerReference : prog PlatformE (option goerr) := RetryOnConflict ensure_attempt.

End owners.

(** What is documented of the retry: the function is run, and run again after a conflict
    while attempts are left; the last error is returned. *)
Fixpoint attempts (steps : nat) (fn : prog PlatformE (option goerr)) : prog PlatformE (option goerr) :=
  match steps with
  | O => fn
  | S steps =>
      err ← fn;
      match err with
      | Some e => if err_is TagConflict e then attempts steps fn else mret (Some e)
      | None => mret None
      end
  end.

(** ** No owner is lost *)

Inductive platform_event :=
| EvGet (r : result Platform)
| EvUpdate (p : Platform) (err : option goerr).

Definition platform_event_of (c : call PlatformE) : platform_event :=
  match c with
  | @Call _ X e x =>
      match e in PlatformE X return X → platform_event with
      | GetPlatform => EvGet
      | UpdatePlatform p => EvUpdate p
      end x
  end.

Definition platform_events (tr : list (call PlatformE)) : list platform_event := platform_event_of <$> tr.

(** The state [p] was written, or it was read and left as it is. *)
Definition settled_at (evs : list platform_event) (p : Platform) : Prop :=
  ∃ evs', evs = evs' ++ [EvUpdate p None] ∨ evs = evs' ++ [EvGet (Ok p)].

Section ownership.
Variable SetOwnerReference : list OwnerReference → result (list OwnerReference).
Variable owner_uid : string.

(** An update writes back the object read just before, which is not being deleted, with
    only its references changed, and keeps those of every other owner. *)
Definition safe_update (before : list platform_event) (ev : platform_event) : Prop :=
  match ev with
  | EvGet _ => True
  | EvUpdate p' _ =>
      ∃ before' p, before = before' ++ [EvGet (Ok p)] ∧ pl_Deleting p = false ∧
        p' = set_owners p (pl_OwnerReferences p') ∧
        (∃ r, r ∈ pl_OwnerReferences p' ∧ or_UID r = owner_uid) ∧
        ∀ r, r ∈ pl_OwnerReferences p → or_UID r ≠ owner_uid → r ∈ pl_OwnerReferences p'
  end.

(** On success the last state seen has the reference, or is being deleted. *)
Definition owner_settled (evs : list platform_event) (res : option goerr) : Prop :=
  res = None → ∃ p, settled_at evs p ∧
    (pl_Deleting p = true ∨ ∃ r, r ∈ pl_OwnerReferences p ∧ or_UID r = owner_uid).

Hypothesis SetOwnerReference_merges : ∀ refs refs', SetOwnerReference refs = Ok refs' →
  (∃ r, r ∈ refs' ∧ or_UID r = owner_uid) ∧ (∀ r, r ∈ refs → or_UID r ≠ owner_uid → r ∈ refs').

Lemma platform_events_snoc tr c : platform_events (tr ++ [c]) = platform_events tr ++ [platform_event_of c].
Proof. unfold platform_events. by rewrite fmap_app. Qed.

Lemma wp_ensure_attempt tr :
  each_after safe_update (platform_events tr) →
  wp (ensure_attempt SetOwnerReference) tr (λ tr' res,
    each_after safe_update (platform_events tr') ∧ owner_settled (platform_events tr') res).
Proof.
  intros Htr. unfold ensure_attempt. apply wp_bind, wp_call. intros got.
  assert (each_after safe_update (platform_events (tr ++ [Call GetPlatform got]))) as Hgot.
  { rewrite platform_events_snoc. by apply each_after_snoc. }
  destruct got as [p|err]; [|by apply wp_ret].
  destruct (pl_Deleting p) eqn:Hdel.
  { apply wp_ret. split; [done|]. intros _. exists p. split; [|by left].
    exists (platform_events tr). right. by rewrite platform_events_snoc. }
  destruct (SetOwnerReference (pl_OwnerReferences p)) as [refs|err] eqn:Hset; [|by apply wp_ret].
  destruct (SetOwnerReference_merges _ _ Hset) as [Howner Hothers]. case_bool_decide as Heq.
  { apply wp_ret. split; [done|]. intros _. exists p. split; [|right; by rewrite Heq].
    exists (platform_events tr). right. by rewrite platform_events_snoc. }
  apply wp_bind, wp_call. intros err.
  assert (each_after safe_update (platform_events ((tr ++ [Call GetPlatform (Ok p)]) ++
            [Call (UpdatePlatform (set_owners p refs)) err]))) as Hupd.
  { rewrite platform_events_snoc. apply each_after_snoc; [done|].
    exists (platform_events tr), p. rewrite platform_events_snoc. done. }
  destruct err as [err|]; apply wp_ret; (split; [done|]); [done|]. intros _. exists (set_owners p refs).
  split; [|by right]. eexists. left. by rewrite platform_events_snoc.
Qed.

Lemma wp_attempts steps tr :
  each_after safe_update (platform_events tr) →
  wp (attempts steps (ensure_attempt SetOwnerReference)) tr (λ tr' res,
    each_after safe_update (platform_events tr') ∧ owner_settled (platform_events tr') res).
Proof.
  revert tr. induction steps as [|steps IH]; intros tr Htr; cbn [attempts]; [by apply wp_ensure_attempt|].
  apply wp_bind. eapply wp_mono; [|by apply wp_ensure_attempt]. intros tr' [e|] [Hsafe Hset]; [|by apply wp_ret].
  destruct (err_is TagConflict e); [by apply IH|by apply wp_ret].
Qed.

End ownership.

(** The controllers of the shared Platform CR do not drop each other's ownership. Whatever
    the API server answers and however often a conflict makes the operation retry, every
    update writes back the object of the read just before it (so a stale one conflicts) with
    nothing but its owner references changed, keeps the references of all other owners and
    never touches a Platform that is being deleted. When the operation succeeds, the last
    state read or written has the controller's reference, or is being deleted. *)
Theorem EnsurePlatformOwnerReference_keeps_owners SetOwnerReference RetryOnConflict owner_uid :
  (∀ refs refs', SetOwnerReference refs = Ok refs' →
     (∃ r, r ∈ refs' ∧ or_UID r = owner_uid) ∧ (∀ r, r ∈ refs → or_UID r ≠ owner_uid → r ∈ refs')) →
  (∀ fn, ∃ steps, RetryOnConflict fn = attempts steps fn) →
  wp (EnsurePlatformOwnerReference SetOwnerReference RetryOnConflict) [] (λ tr res,
    each_after (safe_update owner_uid) (platform_events tr) ∧
    owner_settled owner_uid (platform_events tr) res).
Proof.
  intros Hmerge Hretry. unfold EnsurePlatformOwnerReference.
  destruct (Hretry (ensure_attempt SetOwnerReference)) as [steps ->].
  by apply wp_attempts; [|apply each_after_nil].
Qed.

(** An owner reference that is replaced or appended. *)
Definition sample_owner : OwnerReference := MkOwner "v1" "DSCInitialization" "default-dsci" "dsci" None None.

Definition sample_SetOwnerReference (refs : list OwnerReference) : result (list OwnerReference) :=
  Ok (filter (λ r, or_UID r ≠ "dsci") refs ++ [sample_owner]).

Lemma EnsurePlatformOwnerReference_keeps_owners_witness :
  wp (EnsurePlatformOwnerReference sample_SetOwnerReference (attempts 4)) [] (λ tr res,
    each_after (safe_update "dsci") (platform_events tr) ∧ owner_settled "dsci" (platform_events tr) res).
Proof.
  apply EnsurePlatformOwnerReference_keeps_owners; [|by eexists].
  intros refs refs' [= <-]. split.
  - exists sample_owner. split; [|done]. apply elem_of_app. right. by left.
  - intros r Hr Hne. apply elem_of_app. left. by apply list_elem_of_filter.
Defined.
