(* ===== verification/DscController.v ===== *)
(** * DscController: the controller of the DataScienceCluster

    Models [internal/controller/datasciencecluster/datasciencecluster_controller_actions.go]
    and [datasciencecluster_controller_support.go]: the actions of the DSC controller, in the
    order in which [NewDataScienceClusterReconciler] registers them, with [GetDSC] of
    [pkg/cluster/resources.go] and [EnabledModules] of
    [api/config/v1alpha2/platform_types.go].

    [DSC] is the type of DataScienceCluster objects, [DSCI] that of DSCInitialization. The
    API server, the condition manager and the component and module handlers are events of
    [DscE]. [rr.Resources] is threaded. Every action starts with the type assertion on
    [rr.Instance]: [dr_Instance] is [None] when it fails. *)

From S2P Require Import Prelude Effects Conditions Dag Provision Gates Unstructured Namespaces ModuleBase ModuleRegistry ModuleActions ModuleStatusTheorems SharedPlatform.

(** ** Definitions *)

Definition dscFieldManager : string := "datasciencecluster".

Record DSCContext (DSC DSCI : Type) := MkDSCContext { ctx_DSC : option DSC; ctx_DSCI : option DSCI }.
Arguments MkDSCContext {DSC DSCI} _ _.

Definition buildDSCContext {DSC DSCI} (dsc : DSC) : DSCContext DSC DSCI := MkDSCContext (Some dsc) None.

(** The instance, its metadata and conditions, and the release. [dr_Text] is [%v]. *)
Record DscRequest (DSC : Type) := MkDscRequest {
  dr_Instance : option DSC;
  dr_Text : string;
  dr_Name : string;
  dr_UID : string;
  dr_Generation : Z;
  dr_Conditions : list Condition;
  dr_ReleaseName : string;
  dr_ReleaseVersion : string;
}.
Arguments dr_Instance {DSC} _.
Arguments dr_Text {DSC} _.
Arguments dr_Name {DSC} _.
Arguments dr_UID {DSC} _.
Arguments dr_Generation {DSC} _.
Arguments dr_Conditions {DSC} _.
Arguments dr_ReleaseName {DSC} _.
Arguments dr_ReleaseVersion {DSC} _.

(** An item of a list of component CRs: its name and the UIDs of its owner references. *)
Record ListedCR := MkListed { li_Name : string; li_Owners : list string }.

(** What [NewCRObject] returns besides an error: [nil], a [client.Object] or a value that is
    not one. *)
Inductive NewObject :=
| NilObject
| ClientObject (obj : Unstructured)
| OtherObject.

Inductive DscE : Type → Type :=
| DscCluster {X : Type} (e : ClusterE X) : DscE X
| DscPlatform {X : Type} (e : PlatformE X) : DscE X
| DscMod {X : Type} (e : ModE X) : DscE X
| ListDSC : DscE (result (list string))
| SetStatusRelease (name version : string) : DscE unit
| MarkDsc (m : mark) : DscE unit
| SetDscCondition (c : Condition) : DscE unit
| ApplyPlatform (platform : Platform) : DscE (option goerr)
| ListCRs (gvk : GroupVersionKind) : DscE (result (list ListedCR))
| DeleteCR (gvk : GroupVersionKind) (obj : ListedCR) : DscE (option goerr)
| DeleteDscModuleCR (module : string) : DscE (option goerr)
| NewCRObject (component : string) : DscE (NewObject * option goerr)
| AddResources (obj : Unstructured) : DscE (result Unstructured)
| UpdateDSCStatus (component : string) : DscE (string * option goerr)
| GetGatewayConfig : DscE (result string)
| BuildModuleCR (module appNS gateway : string) : DscE (option Unstructured * option goerr).

(** [errors.Join]: the [nil] errors are dropped. *)
Definition newline : string := String (Ascii.ascii_of_nat 10) EmptyString.

Definition errors_Join (errs : list goerr) : option goerr :=
  match errs with
  | [] => None
  | _ => Some (Goerr (join newline (err_text <$> errs)) (concat (err_tags <$> errs)))
  end.

(** [fmt.Errorf("prefix%w", err)]. *)
Definition prefix_error (prefix : string) (err : goerr) : goerr := Goerr (prefix +:+ err_text err) (err_tags err).

(** The JSON names of the fields. *)
Definition moduleJSONName : list (string * string) :=
  [("AIPipelines", "aipipelines"); ("AIGateway", "aigateway"); ("MLflowOperator", "mlflowoperator");
   ("Monitoring", "monitoring"); ("MCPLifecycleOperator", "mcplifecycleoperator");
   ("DatabaseService", "databaseservice"); ("Kserve", "kserve"); ("Trainer", "trainer");
   ("Workbenches", "workbenches"); ("OGX", "ogx"); ("Data", "data"); ("Dashboard", "dashboard");
   ("SparkOperator", "sparkoperator"); ("Ray", "ray"); ("TrustyAI", "trustyai"); ("AIHub", "aihub")].

Definition EnabledModules (pm : PlatformModules) : list string :=
  sort_strings (snd <$> filter (λ fn, pm !! fn.1 = Some Managed) moduleJSONName).

Section controller.
Context {DSC DSCI : Type}.
Notation DSCT := (DSCContext DSC DSCI).
Variable multierror_error : list goerr → goerr.
Variable gvk_String : GroupVersionKind → string.
Variable NotFound_text : string → string → string → string.
(** [conditions.FindStatusCondition] of the framework. *)
Variable FindStatusCondition : list Condition → string → option Condition.
Variable rr : DscRequest DSC.

Definition DataScienceClusterGVK : GroupVersionKind :=
  MkGVK "datasciencecluster.opendatahub.io" "v3" "DataScienceCluster".

Definition GetDSC : prog DscE (result string) :=
  listed ← trigger ListDSC;
  match listed with
  | Err err => mret (Err (wrapf ("failed to list resources of type " +:+ gvk_String DataScienceClusterGVK) err))
  | Ok [dsc] => mret (Ok dsc)
  | Ok [] => mret (Err (NewNotFound NotFound_text (gvk_Group DataScienceClusterGVK) "datascienceclusters" ""))
  | Ok items =>
      mret (Err (errorf ("failed to get a valid " +:+ gvk_String DataScienceClusterGVK +:+
        " instance, expected to find 1 instance, found " +:+ itoa (Z.of_nat (length items)))))
  end.

Definition not_a_dsc : goerr :=
  errorf ("resource instance " +:+ dr_Text rr +:+ " is not a dscApi.DataScienceCluster)").

Definition uninstalling : bool :=
  match FindStatusCondition (dr_Conditions rr) ConditionTypeReady with
  | Some ready => String.eqb (c_status ready) ConditionFalse && String.eqb (c_reason ready) UninstallInProgressReason
  | None => false
  end.

(** The stop error also asks for a requeue after 30 seconds, which is not modelled. *)
Definition checkPreConditions : prog DscE (option action_error) :=
  dsci ← lift (@DscCluster) (GetDSCI gvk_String NotFound_text);
  match dsci with
  | Err err => mret (Some (ActionErr (prefix_error "failed to get a valid DataScienceCluster instance, " err)))
  | Ok _ =>
      dsc ← GetDSC;
      match dsc with
      | Err err => mret (Some (ActionErr (prefix_error "failed to get a valid DSCInitialization instance, " err)))
      | Ok _ =>
          match dr_Instance rr with
          | None => mret (Some (ActionErr (errorf ("resource instance " +:+ dr_Text rr +:+
                      " is not a dscApi.DataScienceCluster"))))
          | Some _ =>
              if uninstalling then
                trigger (MarkDsc (MkMark ConditionTypeComponentsReady ConditionFalse
                  (Some UninstallInProgressReason) (Some UninstallInProgressMessage) None None)) ;;
                mret (Some (StopError UninstallInProgressMessage))
              else mret None
          end
      end
  end.

(** *** The Platform CR *)

Section platform.
Variables SuffixVersion SuffixType SuffixInstanceGeneration SuffixInstanceName SuffixInstanceUID : string.
Variable SetOwnerReference : list OwnerReference → result (list OwnerReference).
Variable RetryOnConflict : prog PlatformE (option goerr) → prog PlatformE (option goerr).
Variable moduleReg : ModuleRegistry.t DSCT.

(** The object of [NewPlatformCR]: only the modules are set. *)
Definition platform_object (modules : PlatformModules) : Platform := MkPlatformCR ∅ ∅ [] false modules "".

Definition syncPlatformCR : prog DscE (option goerr) :=
  match dr_Instance rr with
  | None => mret (Some not_a_dsc)
  | Some instance =>
      let platform := platform_object (NewPlatformCR multierror_error moduleReg (buildDSCContext instance) ConfigFromDSC) in
      let platform := SetPlatformMetadata SuffixVersion SuffixType SuffixInstanceGeneration SuffixInstanceName
        SuffixInstanceUID platform (dr_Generation rr) (dr_Name rr) (dr_UID rr) (dr_ReleaseName rr)
        (dr_ReleaseVersion rr) dscFieldManager in
      err ← trigger (ApplyPlatform platform);
      match err with
      | Some err => mret (Some (wrapf "failed to apply Platform CR" err))
      | None =>
          err ← lift (@DscPlatform) (EnsurePlatformOwnerReference SetOwnerReference RetryOnConflict);
          match err with
          | Some err => mret (Some (wrapf "failed to update Platform owner reference" err))
          | None => mret None
          end
      end
  end.

Definition disableDSCModulesOnDelete : prog DscE (option goerr) :=
  match dr_Instance rr with
  | None => mret (Some not_a_dsc)
  | Some instance =>
      err ← trigger (ApplyPlatform (platform_object
              (NewPlatformCRRemovedForSource multierror_error moduleReg (buildDSCContext instance) ConfigFromDSC)));
      match err with
      | Some err => mret (Some (wrapf "failed to mark DSC modules Removed on Platform" err))
      | None => mret None
      end
  end.

End platform.

(** *** Cleanup *)

Definition isOwnedBy (obj : ListedCR) (owner_uid : string) : bool :=
  existsb (λ uid, String.eqb uid owner_uid) (li_Owners obj).

(** One item: [client.IgnoreNotFound(cli.Delete(...))]. *)
Definition delete_owned (gvk : GroupVersionKind) (errs : list goerr) (obj : ListedCR) : prog DscE (list goerr) :=
  if negb (isOwnedBy obj (dr_UID rr)) then mret errs
  else
    err ← trigger (DeleteCR gvk obj);
    match err with
    | Some e => if err_is TagNotFound e then mret errs else mret (errs ++ [e])
    | None => mret errs
    end.

Definition deleteComponentCR (handler : ComponentHandler DSC) : prog DscE (option goerr) :=
  let componentGVK := ch_GroupVersionKind handler in
  listed ← trigger (ListCRs componentGVK);
  match listed with
  | Err err => if err_is TagNotFound err || err_is TagNoMatch err then mret None else mret (Some err)
  | Ok items => errs ← prog_foldl (delete_owned componentGVK) [] items; mret (errors_Join errs)
  end.

Definition cleanup_component (instance : DSC) (componentReg : ComponentRegistry.t DSC) (errs : list goerr)
    (entry : UnifiedNode) : prog DscE (list goerr) :=
  match ComponentRegistry.Lookup componentReg (GetName entry) with
  | None => mret errs
  | Some handler =>
      if ch_IsEnabled handler instance then mret errs
      else
        err ← deleteComponentCR handler;
        match err with
        | Some e => mret (errs ++ [e])
        | None => mret errs
        end
  end.

(** [reverseBatches] is what [provisionReg.ReverseBatchesAll] returns. *)
Definition cleanupDisabledComponentsWith (componentReg : ComponentRegistry.t DSC)
    (reverseBatches : result (list (list UnifiedNode))) : prog DscE (option goerr) :=
  match dr_Instance rr with
  | None => mret (Some not_a_dsc)
  | Some instance =>
      match reverseBatches with
      | Err err => mret (Some (wrapf "DAG reverse resolution failed during component cleanup" err))
      | Ok batches =>
          errs ← prog_foldl (cleanup_component instance componentReg) []
                   (concat (ComponentsInBatch <$> batches));
          mret (errors_Join errs)
      end
  end.

(** *** Module CRs *)

Definition dsc_owned_modules (moduleReg : ModuleRegistry.t DSCT) : gset string :=
  (pure_value (ModuleRegistry.ForConfigSource multierror_error moduleReg ConfigFromDSC
     (λ owned h _, Ret ({[h_GetName h]} ∪ owned, None)) ∅)).1.

(** The callback of the alphabetical fallback. *)
Definition delete_disabled (enabledModules : list string) (h : ModuleHandler DSCT)
    : prog DscE (unit * option goerr) :=
  if bool_decide (h_GetName h ∈ enabledModules) then mret (tt, None)
  else err ← trigger (DeleteDscModuleCR (h_GetName h)); mret (tt, err).

Definition cleanup_module (moduleReg : ModuleRegistry.t DSCT) (dscOwned : gset string)
    (enabledModules : list string) (errs : list goerr) (entry : UnifiedNode) : prog DscE (list goerr) :=
  match ModuleRegistry.Lookup moduleReg (GetName entry) with
  | None => mret errs
  | Some h =>
      if negb (bool_decide (h_GetName h ∈ dscOwned)) then mret errs
      else if bool_decide (h_GetName h ∈ enabledModules) then mret errs
      else
        err ← trigger (DeleteDscModuleCR (h_GetName h));
        match err with
        | Some e => mret (errs ++ [e])
        | None => mret errs
        end
  end.

Definition cleanupDisabledModuleCRsWith (moduleReg : ModuleRegistry.t DSCT)
    (reverseBatches : result (list (list UnifiedNode))) : prog DscE (option goerr) :=
  match dr_Instance rr with
  | None => mret (Some not_a_dsc)
  | Some instance =>
      if negb (ModuleRegistry.HasEntries moduleReg) then mret None
      else
        let pm := BuildPlatformModulesForSource multierror_error moduleReg (buildDSCContext instance) ConfigFromDSC in
        let enabledModules := EnabledModules pm in
        let dscOwned := dsc_owned_modules moduleReg in
        match reverseBatches with
        | Err _ =>
            res ← ModuleRegistry.ForConfigSource multierror_error moduleReg ConfigFromDSC
                    (λ _ h _, delete_disabled enabledModules h) tt;
            mret res.2
        | Ok batches =>
            errs ← prog_foldl (cleanup_module moduleReg dscOwned enabledModules) []
                     (concat (ModulesInBatch <$> batches));
            mret (errors_Join errs)
        end
  end.

(** *** Provisioning *)

(** [failedComponents] and [rr.Resources]. *)
Definition provision_component (instance : DSC) (st : list string * list Unstructured)
    (handler : ComponentHandler DSC) : prog DscE (list string * list Unstructured * option goerr) :=
  let '(failedComponents, resources) := st in
  let name := ch_GetName handler in
  if negb (ch_IsEnabled handler instance) then mret (failedComponents, resources, None)
  else
    ci ← trigger (NewCRObject name);
    match ci.2 with
    | Some _ => mret (failedComponents ++ [name], resources, None)
    | None =>
        match ci.1 with
        | NilObject => mret (failedComponents, resources, None)
        | OtherObject => mret (failedComponents ++ [name], resources, None)
        | ClientObject obj =>
            added ← trigger (AddResources obj);
            match added with
            | Err _ => mret (failedComponents ++ [name], resources, None)
            | Ok u => mret (failedComponents, resources ++ [u], None)
            end
        end
    end.

(** [resolveBatches] is the package variable of that name; the result is the error, the
    resources and the registry. *)
Definition provisionComponentsWith resolveBatches (componentReg : ComponentRegistry.t DSC)
    (resources : list Unstructured) : prog DscE (option goerr * list Unstructured * ComponentRegistry.t DSC) :=
  match dr_Instance rr with
  | None => mret (Some not_a_dsc, resources, componentReg)
  | Some instance =>
      res ← ComponentRegistry.ForEach multierror_error resolveBatches componentReg
              (provision_component instance) ([], resources);
      let '(failedComponents, resources, err, componentReg) := res in
      match err with
      | Some err => mret (Some err, resources, componentReg)
      | None =>
          match failedComponents with
          | [] => mret (None, resources, componentReg)
          | _ =>
              trigger (SetDscCondition (condition ConditionTypeComponentsReady ConditionFalse
                ProvisioningFailedReason ("Provisioning failed for: " +:+ join ", " failedComponents))) ;;
              mret (Some (errorf ("provisioning failed for components: " +:+ join ", " failedComponents)),
                    resources, componentReg)
          end
      end
  end.

(** The callback: [rr.Resources]. *)
Definition provision_module_cr (enabledModules : list string) (appNS gateway : string)
    (resources : list Unstructured) (h : ModuleHandler DSCT) : prog DscE (list Unstructured * option goerr) :=
  let name := h_GetName h in
  if negb (bool_decide (name ∈ enabledModules)) then mret (resources, None)
  else
    built ← trigger (BuildModuleCR name appNS gateway);
    match built.2 with
    | Some err => mret (resources, Some (wrapf ("BuildModuleCR failed for module " +:+ name) err))
    | None =>
        match built.1 with
        | Some moduleCR => mret (resources ++ [moduleCR], None)
        | None => mret (resources, None)
        end
    end.

Definition provisionModuleCRsWith (configuredAppNS : string) (moduleReg : ModuleRegistry.t DSCT)
    (resources : list Unstructured) : prog DscE (option goerr * list Unstructured) :=
  match dr_Instance rr with
  | None => mret (Some not_a_dsc, resources)
  | Some instance =>
      if negb (ModuleRegistry.HasEntries moduleReg) then mret (None, resources)
      else
        let pm := BuildPlatformModulesForSource multierror_error moduleReg (buildDSCContext instance) ConfigFromDSC in
        let enabledModules := EnabledModules pm in
        appNS ← lift (@DscCluster) (ApplicationNamespace gvk_String NotFound_text configuredAppNS);
        match appNS with
        | Err err => mret (Some (wrapf "failed to resolve application namespace" err), resources)
        | Ok appNS =>
            gatewayConfig ← trigger GetGatewayConfig;
            match gatewayConfig with
            | Err err => mret (Some (wrapf "get GatewayConfig for module CRs" err), resources)
            | Ok gateway =>
                res ← ModuleRegistry.ForConfigSource multierror_error moduleReg ConfigFromDSC
                        (λ resources h _, provision_module_cr enabledModules appNS gateway resources h) resources;
                mret (res.2, res.1)
            end
        end
  end.

(** *** Status *)

(** [notReadyComponents] and [managedComponent]. *)
Definition component_status (instance : DSC) (st : list string * Z) (component : ComponentHandler DSC)
    : prog DscE (list string * Z * option goerr) :=
  let '(notReadyComponents, managedComponent) := st in
  let name := ch_GetName component in
  cs ← trigger (UpdateDSCStatus name);
  match cs.2 with
  | Some err => mret (notReadyComponents ++ [name], managedComponent, Some err)
  | None =>
      let enabled := ch_IsEnabled component instance in
      if negb enabled && negb (String.eqb cs.1 ConditionFalse) then mret (st, None)
      else
        let managedComponent := if enabled then (managedComponent + 1)%Z else managedComponent in
        if negb (String.eqb cs.1 ConditionTrue)
        then mret (notReadyComponents ++ [name], managedComponent, None)
        else mret (notReadyComponents, managedComponent, None)
  end.

Definition components_condition (notReadyComponents : list string) (managedComponent : Z) : prog DscE unit :=
  match notReadyComponents with
  | _ :: _ =>
      trigger (SetDscCondition (condition ConditionTypeComponentsReady ConditionFalse NotReadyReason
        ("Some components are not ready: " +:+ join ", " notReadyComponents)))
  | [] =>
      if (managedComponent =? 0)%Z then
        trigger (SetDscCondition (condition_sev ConditionTypeComponentsReady ConditionTrue
          NoManagedComponentsReason
          "All registered components have ManagementState Removed or are not configured" SeverityInfo))
      else trigger (MarkDsc (MkMark ConditionTypeComponentsReady ConditionTrue None None None None))
  end.

Definition computeComponentsStatus resolveBatches (reg : ComponentRegistry.t DSC)
    : prog DscE (option goerr * ComponentRegistry.t DSC) :=
  match dr_Instance rr with
  | None => mret (Some (errorf "failed to convert to DataScienceCluster"), reg)
  | Some instance =>
      res ← ComponentRegistry.ForEach multierror_error resolveBatches reg (component_status instance) ([], 0%Z);
      let '(notReadyComponents, managedComponent, err, reg) := res in
      components_condition notReadyComponents managedComponent ;;
      mret (err, reg)
  end.

(** [comps] is [dsc.Status.Components]. *)
Definition updateStatus resolveBatches (reg : ComponentRegistry.t DSC) (moduleReg : ModuleRegistry.t DSCT)
    (comps : ComponentsStatus) : prog DscE (option action_error * ComponentsStatus * ComponentRegistry.t DSC) :=
  match dr_Instance rr with
  | None => mret (Some (ActionErr not_a_dsc), comps, reg)
  | Some instance =>
      trigger (SetStatusRelease (dr_ReleaseName rr) (dr_ReleaseVersion rr)) ;;
      res ← computeComponentsStatus resolveBatches reg;
      let '(err, reg) := res in
      match err with
      | Some err => mret (Some (ActionErr err), comps, reg)
      | None =>
          res ← lift (@DscMod) (ComputeModulesStatusDetailed multierror_error moduleReg
                  (MkRR (InstDSC (buildDSCContext instance)) (dr_UID rr) (dr_ReleaseName rr)
                     (dr_ReleaseVersion rr) ∅ "" "") comps);
          mret (res.1, res.2, reg)
      end
  end.

End controller.

(** ** Theorems *)

Inductive dsc_event :=
| EvListCRs (gvk : GroupVersionKind) (r : result (list ListedCR))
| EvDeleteCR (gvk : GroupVersionKind) (obj : ListedCR) (err : option goerr)
| EvDeleteModule (module : string) (err : option goerr)
| EvDSCStatus (component : string) (status : string) (err : option goerr)
| EvCondition (c : Condition)
| EvMark (m : mark)
| EvNewCR (component : string) (r : NewObject) (err : option goerr)
| EvAdd (obj : Unstructured) (r : result Unstructured)
| EvOther.

Definition dsc_event_of (c : call DscE) : dsc_event :=
  match c with
  | @Call _ X e x =>
      match e in DscE X return X → dsc_event with
      | ListCRs gvk => EvListCRs gvk
      | DeleteCR gvk obj => EvDeleteCR gvk obj
      | DeleteDscModuleCR module => EvDeleteModule module
      | UpdateDSCStatus component => λ r, EvDSCStatus component r.1 r.2
      | SetDscCondition c => λ _, EvCondition c
      | MarkDsc m => λ _, EvMark m
      | NewCRObject component => λ r, EvNewCR component r.1 r.2
      | AddResources obj => EvAdd obj
      | _ => λ _, EvOther
      end x
  end.

Definition dsc_events (tr : list (call DscE)) : list dsc_event := dsc_event_of <$> tr.

Lemma dsc_events_snoc tr c : dsc_events (tr ++ [c]) = dsc_events tr ++ [dsc_event_of c].
Proof. unfold dsc_events. by rewrite fmap_app. Qed.

Lemma errors_Join_None errs : errors_Join errs = None ↔ errs = [].
Proof. by destruct errs. Qed.

(** *** Cleanup of component CRs *)

Section component_cleanup.
Context {DSC : Type} (rr : DscRequest DSC) (instance : DSC) (componentReg : ComponentRegistry.t DSC).
Implicit Types (h : ComponentHandler DSC) (evs : list dsc_event).

(** A delete hits a CR that was listed for a component the DSC disables and that the DSC
    owns. *)
Definition justified_delete (evs : list dsc_event) (ev : dsc_event) : Prop :=
  match ev with
  | EvDeleteCR gvk obj _ => ∃ name h items,
      ComponentRegistry.Lookup componentReg name = Some h ∧ ch_IsEnabled h instance = false ∧
      gvk = ch_GroupVersionKind h ∧ EvListCRs gvk (Ok items) ∈ evs ∧ obj ∈ items ∧
      isOwnedBy obj (dr_UID rr) = true
  | _ => True
  end.

(** The CR was deleted, or was already gone. *)
Definition deleted evs (gvk : GroupVersionKind) (obj : ListedCR) : Prop :=
  ∃ err, EvDeleteCR gvk obj err ∈ evs ∧ match err with Some e => err_is TagNotFound e = true | None => True end.

(** Those of the items that the DSC owns were. *)
Definition all_deleted evs (gvk : GroupVersionKind) (items : list ListedCR) : Prop :=
  ∀ obj, obj ∈ items → isOwnedBy obj (dr_UID rr) = true → deleted evs gvk obj.

(** The component has no CR of the DSC left. *)
Definition component_gone evs h : Prop :=
  ∃ r, EvListCRs (ch_GroupVersionKind h) r ∈ evs ∧
    match r with
    | Ok items => all_deleted evs (ch_GroupVersionKind h) items
    | Err e => err_is TagNotFound e || err_is TagNoMatch e = true
    end.

(** The trace extends [evs] by justified events. *)
Definition cleanup_ok evs tr : Prop :=
  each_after justified_delete (dsc_events tr) ∧ ∃ new, dsc_events tr = evs ++ new.

Lemma cleanup_ok_refl tr : each_after justified_delete (dsc_events tr) → cleanup_ok (dsc_events tr) tr.
Proof. intros Htr. split; [done|]. exists []. by rewrite app_nil_r. Qed.

Lemma cleanup_ok_snoc evs tr c :
  cleanup_ok evs tr → justified_delete (dsc_events tr) (dsc_event_of c) → cleanup_ok evs (tr ++ [c]).
Proof.
  intros [Hall [new Hnew]] Hj. unfold cleanup_ok. rewrite dsc_events_snoc. split; [by apply each_after_snoc|].
  exists (new ++ [dsc_event_of c]). by rewrite Hnew, app_assoc.
Qed.

Lemma cleanup_ok_trans evs tr1 tr2 :
  cleanup_ok evs tr1 → cleanup_ok (dsc_events tr1) tr2 → cleanup_ok evs tr2.
Proof.
  intros [_ [new1 Hnew1]] [Hall [new2 Hnew2]]. split; [done|].
  exists (new1 ++ new2). by rewrite Hnew2, Hnew1, app_assoc.
Qed.

Lemma cleanup_ok_elem evs tr ev : cleanup_ok evs tr → ev ∈ evs → ev ∈ dsc_events tr.
Proof. intros [_ [new ->]] Hev. apply elem_of_app. by left. Qed.

Lemma all_deleted_mono evs evs' gvk items :
  (∀ ev, ev ∈ evs → ev ∈ evs') → all_deleted evs gvk items → all_deleted evs' gvk items.
Proof. intros Hsub Hall obj Hobj Hown. destruct (Hall obj Hobj Hown) as (err & ? & ?). exists err. auto. Qed.

Lemma component_gone_mono evs tr h : cleanup_ok evs tr → component_gone evs h → component_gone (dsc_events tr) h.
Proof.
  intros Hok (r & Hr & Hgone). exists r. split; [by eapply cleanup_ok_elem|].
  destruct r; [|done]. eapply all_deleted_mono; [|done]. intros ev. by apply cleanup_ok_elem.
Qed.

Lemma wp_delete_owned name h items pre obj errs tr :
  ComponentRegistry.Lookup componentReg name = Some h → ch_IsEnabled h instance = false →
  EvListCRs (ch_GroupVersionKind h) (Ok items) ∈ dsc_events tr → obj ∈ items →
  each_after justified_delete (dsc_events tr) →
  (errs = [] → all_deleted (dsc_events tr) (ch_GroupVersionKind h) pre) →
  wp (delete_owned rr (ch_GroupVersionKind h) errs obj) tr (λ tr' errs', cleanup_ok (dsc_events tr) tr' ∧
    (errs' = [] → all_deleted (dsc_events tr') (ch_GroupVersionKind h) (pre ++ [obj]))).
Proof.
  intros Hlook Hdis Hin Hobj Htr Hpre. unfold delete_owned. set (gvk := ch_GroupVersionKind h) in *.
  destruct (isOwnedBy obj (dr_UID rr)) eqn:Hown; simpl negb; cbv iota.
  2: { apply wp_ret. split; [by apply cleanup_ok_refl|]. intros Hnil o [Ho| ->%list_elem_of_singleton]%elem_of_app Hoo;
         [by apply Hpre|congruence]. }
  apply wp_bind, wp_call. intros err. set (tr' := tr ++ _).
  assert (cleanup_ok (dsc_events tr) tr') as Hok.
  { apply cleanup_ok_snoc; [by apply cleanup_ok_refl|]. exists name, h, items. done. }
  assert (errs = [] → match err with Some e => err_is TagNotFound e = true | None => True end →
            all_deleted (dsc_events tr') gvk (pre ++ [obj])) as Hall.
  { intros Hnil Herr o [Ho| ->%list_elem_of_singleton]%elem_of_app Hoo.
    - eapply all_deleted_mono; [|by apply Hpre|done|done]. intros ev. by apply cleanup_ok_elem.
    - exists err. split; [|done]. unfold tr'. rewrite dsc_events_snoc. apply elem_of_app. right. by left. }
  destruct err as [e|]; [|by apply wp_ret; split; [done|intros; apply Hall]].
  destruct (err_is TagNotFound e) eqn:Htag; apply wp_ret; (split; [done|]); [by intros; apply Hall|by destruct errs].
Qed.

Lemma wp_deleteComponentCR name h tr :
  ComponentRegistry.Lookup componentReg name = Some h → ch_IsEnabled h instance = false →
  each_after justified_delete (dsc_events tr) →
  wp (deleteComponentCR rr h) tr (λ tr' err, cleanup_ok (dsc_events tr) tr' ∧
    (err = None → component_gone (dsc_events tr') h)).
Proof.
  intros Hlook Hdis Htr. unfold deleteComponentCR. apply wp_bind, wp_call. intros listed.
  set (gvk := ch_GroupVersionKind h). set (tr1 := tr ++ _).
  assert (cleanup_ok (dsc_events tr) tr1) as Hok1 by (apply cleanup_ok_snoc; [by apply cleanup_ok_refl|done]).
  assert (EvListCRs gvk listed ∈ dsc_events tr1) as Hin.
  { unfold tr1. rewrite dsc_events_snoc. apply elem_of_app. right. by left. }
  destruct listed as [items|err].
  2: { destruct (err_is TagNotFound err || err_is TagNoMatch err) eqn:Htag; apply wp_ret; [|done].
       split; [done|]. intros _. by exists (Err err). }
  apply wp_bind. eapply wp_mono; [|apply (wp_foldl _ _ _ _ (λ pre tr' errs,
    cleanup_ok (dsc_events tr1) tr' ∧ (errs = [] → all_deleted (dsc_events tr') gvk pre)))].
  - intros tr' errs (Hok & Hgone). apply wp_ret. split; [by eapply cleanup_ok_trans|].
    intros Hnil%errors_Join_None. exists (Ok items). split; [by eapply cleanup_ok_elem|by apply Hgone].
  - split; [by apply cleanup_ok_refl, Hok1|]. by intros _ obj ?%elem_of_nil.
  - intros pre obj todo tr' errs Heq (Hok & Hgone). eapply wp_mono; [|eapply (wp_delete_owned name h items pre obj)].
    + intros tr'' errs' [Hok2 Hdel]. split; [by eapply cleanup_ok_trans|done].
    + done.
    + done.
    + by eapply cleanup_ok_elem.
    + rewrite Heq. apply elem_of_app. right. by left.
    + apply Hok.
    + done.
Qed.

Lemma wp_cleanup_component entry errs tr (pre : list UnifiedNode) :
  each_after justified_delete (dsc_events tr) →
  (errs = [] → ∀ n h, n ∈ pre → ComponentRegistry.Lookup componentReg (GetName n) = Some h →
     ch_IsEnabled h instance = false → component_gone (dsc_events tr) h) →
  wp (cleanup_component rr instance componentReg errs entry) tr (λ tr' errs', cleanup_ok (dsc_events tr) tr' ∧
    (errs' = [] → ∀ n h, n ∈ pre ++ [entry] → ComponentRegistry.Lookup componentReg (GetName n) = Some h →
       ch_IsEnabled h instance = false → component_gone (dsc_events tr') h)).
Proof.
  intros Htr Hpre. unfold cleanup_component.
  destruct (ComponentRegistry.Lookup componentReg (GetName entry)) as [h0|] eqn:Hlook.
  2: { apply wp_ret. split; [by apply cleanup_ok_refl|].
       intros Hnil n h [Hn| ->%list_elem_of_singleton]%elem_of_app Hl Hd; [by eapply Hpre|congruence]. }
  destruct (ch_IsEnabled h0 instance) eqn:Hen.
  { apply wp_ret. split; [by apply cleanup_ok_refl|].
    intros Hnil n h [Hn| ->%list_elem_of_singleton]%elem_of_app Hl Hd; [by eapply Hpre|congruence]. }
  apply wp_bind. eapply wp_mono; [|by eapply wp_deleteComponentCR]. intros tr' [e|] [Hok Hgone]; apply wp_ret.
  - split; [done|]. by destruct errs.
  - split; [done|]. intros Hnil n h [Hn| ->%list_elem_of_singleton]%elem_of_app Hl Hd.
    + eapply component_gone_mono; [done|]. by eapply Hpre.
    + simplify_eq. by apply Hgone.
Qed.

End component_cleanup.

(** The DSC controller's component cleanup deletes only CRs that it listed for a component
    the DSC disables and that this DSC owns; enabled components and the CRs of others are
    never touched, whatever fails. If it reports no error, every disabled component of the
    cleanup order has no CR of this DSC left: each was deleted or already gone, or the
    component's CRD is not installed. *)
Theorem cleanupDisabledComponents_owned {DSC} (rr : DscRequest DSC) instance componentReg batches :
  dr_Instance rr = Some instance →
  wp (cleanupDisabledComponentsWith rr componentReg (Ok batches)) [] (λ tr res,
    each_after (justified_delete rr instance componentReg) (dsc_events tr) ∧
    (res = None → ∀ n h, n ∈ concat (ComponentsInBatch <$> batches) →
       ComponentRegistry.Lookup componentReg (GetName n) = Some h → ch_IsEnabled h instance = false →
       component_gone rr (dsc_events tr) h)).
Proof.
  intros Hinst. unfold cleanupDisabledComponentsWith. rewrite Hinst. apply wp_bind.
  eapply wp_mono; [|apply (wp_foldl _ _ _ _ (λ pre tr errs,
    each_after (justified_delete rr instance componentReg) (dsc_events tr) ∧
    (errs = [] → ∀ n h, n ∈ pre → ComponentRegistry.Lookup componentReg (GetName n) = Some h →
       ch_IsEnabled h instance = false → component_gone rr (dsc_events tr) h)))].
  - intros tr errs [Hall Hgone]. apply wp_ret. split; [done|].
    intros Hnil%errors_Join_None. by apply Hgone.
  - split; [apply each_after_nil|]. by intros _ n h ?%elem_of_nil.
  - intros pre n todo tr errs _ [Hall Hgone]. eapply wp_mono; [|by apply (wp_cleanup_component _ _ _ n errs tr pre)].
    intros tr' errs' [Hok Hdel]. split; [apply Hok|done].
Qed.

Definition sample_dsc : DscRequest bool := MkDscRequest _ (Some false) "" "default-dsc" "uid" 1 [] "" "".
Definition sample_component : ComponentHandler bool :=
  MkComponent "kueue" (MkGVK "components" "v1alpha1" "Kueue") (λ enabled, enabled).

Lemma cleanupDisabledComponents_owned_witness :
  wp (cleanupDisabledComponentsWith sample_dsc
        (ComponentRegistry.Add ComponentRegistry.empty UnifiedRegistry.NewRegistry sample_component []).1
        (Ok [[MkNode "kueue" KindComponent (RL 99) true]])) [] (λ tr res,
    each_after (justified_delete sample_dsc false
        (ComponentRegistry.Add ComponentRegistry.empty UnifiedRegistry.NewRegistry sample_component []).1)
      (dsc_events tr) ∧
    (res = None → ∀ n h, n ∈ concat (ComponentsInBatch <$> [[MkNode "kueue" KindComponent (RL 99) true]]) →
       ComponentRegistry.Lookup (ComponentRegistry.Add ComponentRegistry.empty UnifiedRegistry.NewRegistry
         sample_component []).1 (GetName n) = Some h → ch_IsEnabled h false = false →
       component_gone sample_dsc (dsc_events tr) h)).
Proof. apply cleanupDisabledComponents_owned. reflexivity. Defined.

(** *** Status of the components *)

Section component_status.
Context {DSC : Type} (instance : DSC).
Notation entry := (ComponentRegistry.HandlerEntry DSC).

(** The component's name, and what it answered: a status and an error. *)
Definition component_name (e : entry) : string := ch_GetName (ComponentRegistry.handler e).

(** The answer counts against [ComponentsReady]: an error, an enabled component that is not
    True, or a disabled one that is False. *)
Definition component_bad (e : entry) (answer : string * option goerr) : bool :=
  match answer.2 with
  | Some _ => true
  | None => if ch_IsEnabled (ComponentRegistry.handler e) instance then negb (String.eqb answer.1 ConditionTrue)
            else String.eqb answer.1 ConditionFalse
  end.

(** The names of the components that count against it. *)
Definition bad_names (es : list entry) (answers : list (string * option goerr)) : list string :=
  (λ ea, component_name ea.1) <$> filter (λ ea, component_bad ea.1 ea.2 = true) (zip es answers).

Definition status_events (es : list entry) (answers : list (string * option goerr)) : list dsc_event :=
  (λ ea, EvDSCStatus (component_name ea.1) ea.2.1 ea.2.2) <$> zip es answers.

(** The write of [ComponentsReady]: its status and message. *)
Definition components_ready (ev : dsc_event) (st : string) (message : option string) : Prop :=
  match ev with
  | EvCondition c => c_type c = ConditionTypeComponentsReady ∧ c_status c = st ∧
      match message with Some msg => c_message c = msg | None => True end
  | EvMark m => m_type m = ConditionTypeComponentsReady ∧ m_status m = st ∧ m_message m = message
  | _ => False
  end.

Record status_inv (pre : list entry) (evs : list dsc_event) (notReady : list string) (errs : list goerr)
    (answers : list (string * option goerr)) : Prop := {
  status_length : length answers = length pre;
  status_evs : evs = status_events pre answers;
  status_notReady : notReady = bad_names pre answers;
  status_errs : errs = omap snd answers;
}.

Lemma status_inv_step pre evs notReady errs answers e (a : string * option goerr) notReady' :
  status_inv pre evs notReady errs answers →
  notReady' = (if component_bad e a then notReady ++ [component_name e] else notReady) →
  status_inv (pre ++ [e]) (evs ++ [EvDSCStatus (component_name e) a.1 a.2]) notReady' (append_error errs a.2)
    (answers ++ [a]).
Proof.
  intros [Hlen -> -> ->] ->. split.
  - rewrite !length_app. simpl. lia.
  - unfold status_events. rewrite zip_with_app by done. by rewrite fmap_app.
  - unfold bad_names. rewrite zip_with_app by done. rewrite filter_app, fmap_app. simpl.
    rewrite filter_cons, filter_nil. simpl. destruct (component_bad e a); [rewrite decide_True by done; done|].
    rewrite decide_False by done. simpl. by rewrite app_nil_r.
  - rewrite omap_app. simpl. destruct a.2; simpl; by rewrite ?app_nil_r.
Qed.

Lemma wp_component_status pre e st errs answers tr :
  status_inv pre (dsc_events tr) st.1 errs answers →
  wp (component_status instance st (ComponentRegistry.handler e)) tr (λ tr' res, ∃ answers',
    status_inv (pre ++ [e]) (dsc_events tr') res.1.1 (append_error errs res.2) answers').
Proof.
  intros Hinv. destruct st as [notReady managed]. unfold component_status. apply wp_bind, wp_call. intros a.
  pose proof (λ notReady', status_inv_step _ _ _ _ _ e a notReady' Hinv) as Hstep. simpl in Hstep.
  unfold component_bad in Hstep.
  set (tr' := tr ++ _). assert (dsc_events tr' = dsc_events tr ++ [EvDSCStatus (component_name e) a.1 a.2]) as Hev.
  { unfold tr'. by rewrite dsc_events_snoc. }
  rewrite <-Hev in Hstep. destruct a as [cs [err|]]; cbn [fst snd] in *.
  { apply wp_ret. eexists. by apply Hstep. }
  revert Hstep. destruct (ch_IsEnabled (ComponentRegistry.handler e) instance); cbn [negb andb].
  - destruct (String.eqb cs ConditionTrue); cbn [negb]; intros Hstep; apply wp_ret; eexists; by apply Hstep.
  - destruct (String.eqb_spec cs ConditionFalse) as [->|]; cbn [negb]; intros Hstep; apply wp_ret; eexists;
      by apply Hstep.
Qed.

End component_status.

(** The DSC's [ComponentsReady] is written exactly once per status update, after every
    component has been asked. It is True exactly when no component answered with an error,
    every enabled one reports True and no disabled one reports False; otherwise it is False
    and its message names the offenders, in order. The action fails exactly when some
    component answered with an error; a failing component never hides the others. *)
Theorem computeComponentsStatus_verdict {DSC} multierror_error (rr : DscRequest DSC) instance resolveBatches reg :
  dr_Instance rr = Some instance →
  wp (computeComponentsStatus multierror_error rr resolveBatches reg) [] (λ tr res, ∃ answers ev,
    length answers = length (visited_components resolveBatches reg) ∧
    dsc_events tr = status_events (visited_components resolveBatches reg) answers ++ [ev] ∧
    match bad_names instance (visited_components resolveBatches reg) answers with
    | [] => components_ready ev ConditionTrue None
    | names => components_ready ev ConditionFalse
                 (Some ("Some components are not ready: " +:+ join ", " names))
    end ∧
    (res.1 = None ↔ ∀ a, a ∈ answers → a.2 = None)).
Proof.
  intros Hinst. unfold computeComponentsStatus. rewrite Hinst. apply wp_bind.
  eapply wp_mono; [|apply (wp_ComponentForEach _ _ _ _ _ _ (λ pre tr st errs, ∃ answers,
    status_inv instance pre (dsc_events tr) st.1 errs answers))].
  - intros tr [[[notReady managed] err] reg'] (errs & (answers & [Hlen Hev Hbad Herrs]) & Herr).
    cbn [fst snd] in *. apply wp_bind.
    assert (∀ ev, match bad_names instance (visited_components resolveBatches reg) answers with
      | [] => components_ready ev ConditionTrue None
      | names => components_ready ev ConditionFalse (Some ("Some components are not ready: " +:+ join ", " names))
      end → ∀ c, dsc_event_of c = ev → wp (mret (err, reg') : prog DscE _) (tr ++ [c]) (λ tr res, ∃ answers ev,
        length answers = length (visited_components resolveBatches reg) ∧
        dsc_events tr = status_events (visited_components resolveBatches reg) answers ++ [ev] ∧
        match bad_names instance (visited_components resolveBatches reg) answers with
        | [] => components_ready ev ConditionTrue None
        | names => components_ready ev ConditionFalse (Some ("Some components are not ready: " +:+ join ", " names))
        end ∧ (res.1 = None ↔ ∀ a, a ∈ answers → a.2 = None))) as Hfin.
    { intros ev Hready c <-. apply wp_ret. exists answers, (dsc_event_of c). split; [done|].
      split; [by rewrite dsc_events_snoc, Hev|]. split; [done|].
      simpl. rewrite Herr, Herrs. rewrite <-(omap_nil_iff snd). by destruct (omap snd answers). }
    unfold components_condition. destruct notReady as [|n ns].
    + destruct (managed =? 0)%Z; apply wp_call; intros []; (eapply Hfin; [|reflexivity]; by rewrite <-Hbad).
    + apply wp_call; intros []. eapply Hfin; [|reflexivity]. by rewrite <-Hbad.
  - exists []. by split.
  - intros pre e todo tr st errs _ [answers Hinv]. by eapply wp_component_status.
Qed.

Lemma computeComponentsStatus_verdict_witness :
  wp (computeComponentsStatus (λ _, errorf "") sample_dsc ComponentRegistry.resolvedBatchesLocked
        (ComponentRegistry.Add ComponentRegistry.empty UnifiedRegistry.NewRegistry sample_component []).1) []
    (λ tr res, ∃ answers ev,
      length answers = 1%nat ∧
      dsc_events tr = status_events (visited_components ComponentRegistry.resolvedBatchesLocked
        (ComponentRegistry.Add ComponentRegistry.empty UnifiedRegistry.NewRegistry sample_component []).1) answers ++ [ev] ∧
      match bad_names false (visited_components ComponentRegistry.resolvedBatchesLocked
        (ComponentRegistry.Add ComponentRegistry.empty UnifiedRegistry.NewRegistry sample_component []).1) answers with
      | [] => components_ready ev ConditionTrue None
      | names => components_ready ev ConditionFalse
                   (Some ("Some components are not ready: " +:+ join ", " names))
      end ∧
      (res.1 = None ↔ ∀ a, a ∈ answers → a.2 = None)).
Proof. apply computeComponentsStatus_verdict. reflexivity. Defined.

(** *** Provisioning of the components *)

Section component_provisioning.
Context {DSC : Type} (instance : DSC).
Notation entry := (ComponentRegistry.HandlerEntry DSC).

(** What became of a component: nothing to do, a resource, or a failure. *)
Inductive provisioned :=
| Nothing
| Added (u : Unstructured)
| Failed.

(** The calls made for the component, and what became of it. *)
Inductive provisions (e : entry) : list dsc_event → provisioned → Prop :=
| provisions_disabled :
    ch_IsEnabled (ComponentRegistry.handler e) instance = false → provisions e [] Nothing
| provisions_error obj err : ch_IsEnabled (ComponentRegistry.handler e) instance = true →
    provisions e [EvNewCR (component_name e) obj (Some err)] Failed
| provisions_nil : ch_IsEnabled (ComponentRegistry.handler e) instance = true →
    provisions e [EvNewCR (component_name e) NilObject None] Nothing
| provisions_other : ch_IsEnabled (ComponentRegistry.handler e) instance = true →
    provisions e [EvNewCR (component_name e) OtherObject None] Failed
| provisions_unconverted obj err : ch_IsEnabled (ComponentRegistry.handler e) instance = true →
    provisions e [EvNewCR (component_name e) (ClientObject obj) None; EvAdd obj (Err err)] Failed
| provisions_added obj u : ch_IsEnabled (ComponentRegistry.handler e) instance = true →
    provisions e [EvNewCR (component_name e) (ClientObject obj) None; EvAdd obj (Ok u)] (Added u).

Definition added_resources (rs : list provisioned) : list Unstructured :=
  omap (λ r, match r with Added u => Some u | _ => None end) rs.

Definition failed_names (es : list entry) (rs : list provisioned) : list string :=
  omap (λ er, match er.2 with Failed => Some (component_name er.1) | _ => None end) (zip es rs).

(** The components [pre] with the calls and the outcome of each. *)
Definition provision_inv (resources : list Unstructured) (pre : list entry) (evs : list dsc_event)
    (st : list string * list Unstructured) : Prop :=
  ∃ calls rs, Forall3 provisions pre calls rs ∧ evs = concat calls ∧
    st = (failed_names pre rs, resources ++ added_resources rs).

Lemma Forall3_snoc {A B C} (P : A → B → C → Prop) l k m x y z :
  Forall3 P l k m → P x y z → Forall3 P (l ++ [x]) (k ++ [y]) (m ++ [z]).
Proof. intros HP Hxyz. apply Forall3_app; [done|]. by repeat constructor. Qed.

Lemma provision_inv_step resources pre evs st e new r :
  provision_inv resources pre evs st → provisions e new r →
  provision_inv resources (pre ++ [e]) (evs ++ new)
    (st.1 ++ match r with Failed => [component_name e] | _ => [] end,
     st.2 ++ match r with Added u => [u] | _ => [] end).
Proof.
  intros (calls & rs & Hall & -> & ->) Hr. exists (calls ++ [new]), (rs ++ [r]).
  split; [by apply Forall3_snoc|]. split; [by rewrite concat_app; simpl; rewrite app_nil_r|].
  pose proof (Forall3_length_lm _ _ _ _ Hall) as Hl1. pose proof (Forall3_length_lr _ _ _ _ Hall) as Hl2.
  simpl. f_equal.
  - unfold failed_names. rewrite zip_with_app by congruence. rewrite omap_app. by destruct r.
  - unfold added_resources. rewrite omap_app, <-app_assoc. by destruct r.
Qed.

Lemma wp_provision_component resources pre e st tr :
  provision_inv resources pre (dsc_events tr) st →
  wp (provision_component instance st (ComponentRegistry.handler e)) tr (λ tr' res,
    provision_inv resources (pre ++ [e]) (dsc_events tr') res.1 ∧ res.2 = None).
Proof.
  intros Hinv. pose proof (λ new r, provision_inv_step _ _ _ _ e new r Hinv) as Hstep.
  destruct st as [failed res]. cbn [fst snd] in Hstep. unfold provision_component.
  destruct (ch_IsEnabled (ComponentRegistry.handler e) instance) eqn:Hen; cbn [negb].
  2: { apply wp_ret. split; [|done]. specialize (Hstep _ _ (provisions_disabled e Hen)).
       by rewrite !app_nil_r in Hstep. }
  apply wp_bind, wp_call. intros [ci [err|]]; cbn [fst snd].
  { apply wp_ret. split; [|done]. rewrite dsc_events_snoc.
    specialize (Hstep _ _ (provisions_error e ci err Hen)). by rewrite app_nil_r in Hstep. }
  destruct ci as [|obj|].
  - apply wp_ret. split; [|done]. rewrite dsc_events_snoc.
    specialize (Hstep _ _ (provisions_nil e Hen)). by rewrite !app_nil_r in Hstep.
  - apply wp_bind, wp_call. intros [u|err]; apply wp_ret; (split; [|done]);
      rewrite !dsc_events_snoc, <-app_assoc; simpl.
    + specialize (Hstep _ _ (provisions_added e obj u Hen)). by rewrite app_nil_r in Hstep.
    + specialize (Hstep _ _ (provisions_unconverted e obj err Hen)). by rewrite app_nil_r in Hstep.
  - apply wp_ret. split; [|done]. rewrite dsc_events_snoc.
    specialize (Hstep _ _ (provisions_other e Hen)). by rewrite app_nil_r in Hstep.
Qed.

End component_provisioning.

(** A component that fails to provision does not stop the others. Every visited component
    the DSC enables is asked for its CR, the disabled ones are not, and the CRs that were
    built are added to the resources in order. If any component failed, [ComponentsReady] is
    set to False naming all of them and the action returns an error; otherwise the action
    succeeds and writes no condition. *)
Theorem provisionComponents_isolates {DSC} multierror_error (rr : DscRequest DSC) instance resolveBatches reg resources :
  dr_Instance rr = Some instance →
  wp (provisionComponentsWith multierror_error rr resolveBatches reg resources) [] (λ tr res,
    ∃ calls rs, Forall3 (provisions instance) (visited_components resolveBatches reg) calls rs ∧
      res.1.2 = resources ++ added_resources rs ∧
      match failed_names (visited_components resolveBatches reg) rs with
      | [] => res.1.1 = None ∧ dsc_events tr = concat calls
      | names =>
          res.1.1 = Some (errorf ("provisioning failed for components: " +:+ join ", " names)) ∧
          dsc_events tr = concat calls ++ [EvCondition (condition ConditionTypeComponentsReady ConditionFalse
            ProvisioningFailedReason ("Provisioning failed for: " +:+ join ", " names))]
      end).
Proof.
  intros Hinst. unfold provisionComponentsWith. rewrite Hinst. apply wp_bind.
  eapply wp_mono; [|apply (wp_ComponentForEach _ _ _ _ _ _ (λ pre tr st errs,
    provision_inv instance resources pre (dsc_events tr) st ∧ errs = []))].
  - intros tr [[[failed res] err] reg'] (errs & [(calls & rs & Hall & Hev & Hst) ->] & Herr).
    cbn [fst snd] in *. rewrite Herr. injection Hst as -> ->. cbn [ErrorOrNil].
    destruct (failed_names _ rs) as [|n ns] eqn:Hfailed.
    + apply wp_ret. exists calls, rs. rewrite Hfailed. done.
    + apply wp_bind, wp_call. intros []. apply wp_ret. exists calls, rs. rewrite Hfailed, dsc_events_snoc, Hev. done.
  - split; [|done]. exists [], []. split; [constructor|]. split; [done|]. by rewrite app_nil_r.
  - intros pre e todo tr st errs _ [Hinv ->]. eapply wp_mono; [|by apply wp_provision_component].
    intros tr' res [Hinv' ->]. done.
Qed.

Lemma provisionComponents_isolates_witness :
  wp (provisionComponentsWith (λ _, errorf "") sample_dsc ComponentRegistry.resolvedBatchesLocked
        (ComponentRegistry.Add ComponentRegistry.empty UnifiedRegistry.NewRegistry sample_component []).1 []) []
    (λ tr res, ∃ calls rs, Forall3 (provisions false) (visited_components ComponentRegistry.resolvedBatchesLocked
        (ComponentRegistry.Add ComponentRegistry.empty UnifiedRegistry.NewRegistry sample_component []).1) calls rs ∧
      res.1.2 = [] ++ added_resources rs ∧
      match failed_names (visited_components ComponentRegistry.resolvedBatchesLocked
        (ComponentRegistry.Add ComponentRegistry.empty UnifiedRegistry.NewRegistry sample_component []).1) rs with
      | [] => res.1.1 = None ∧ dsc_events tr = concat calls
      | names =>
          res.1.1 = Some (errorf ("provisioning failed for components: " +:+ join ", " names)) ∧
          dsc_events tr = concat calls ++ [EvCondition (condition ConditionTypeComponentsReady ConditionFalse
            ProvisioningFailedReason ("Provisioning failed for: " +:+ join ", " names))]
      end).
Proof. apply provisionComponents_isolates. reflexivity. Defined.

(** *** Cleanup of module CRs *)

Section module_cleanup.
Context {DSC DSCI : Type} (multierror_error : list goerr → goerr).
Context (reg : ModuleRegistry.t (DSCContext DSC DSCI)) (enabledModules : list string).
Implicit Types (evs : list dsc_event).

(** The module is configured by the DSC. *)
Definition dsc_module (name : string) : Prop :=
  ∃ k e, ModuleRegistry.entries reg !! k = Some e ∧ ModuleRegistry.configSource e = ConfigFromDSC ∧
    h_GetName (ModuleRegistry.handler e) = name.

Lemma elem_of_dsc_owned name : name ∈ dsc_owned_modules multierror_error reg ↔ dsc_module name.
Proof.
  unfold dsc_owned_modules, ModuleRegistry.ForConfigSource.
  apply (pure_value_wp _ (λ _ res, name ∈ res.1 ↔ dsc_module name)).
  eapply wp_mono; [|apply (wp_for_entries _ _ _ _ _ _ (λ pre _ (owned : gset string) _,
    name ∈ owned ↔ ∃ e, e ∈ pre ∧ h_GetName (ModuleRegistry.handler e) = name))].
  - intros tr res (errs & Hin & _). rewrite Hin. unfold dsc_module.
    setoid_rewrite list_elem_of_filter. setoid_rewrite bool_decide_eq_true.
    setoid_rewrite elem_of_sorted_entries. naive_solver.
  - split; [by intros ?%elem_of_empty|by intros (e & ?%elem_of_nil & _)].
  - intros pre e todo tr owned errs _ Hin. apply wp_ret. simpl. rewrite elem_of_union, elem_of_singleton, Hin.
    setoid_rewrite elem_of_app. setoid_rewrite list_elem_of_singleton. naive_solver.
Qed.

(** Only CRs of the DSC's own disabled modules are deleted. *)
Definition scoped evs : Prop :=
  ∀ name err, EvDeleteModule name err ∈ evs → dsc_module name ∧ name ∉ enabledModules.

Lemma scoped_snoc evs ev :
  scoped evs → (∀ name err, ev = EvDeleteModule name err → dsc_module name ∧ name ∉ enabledModules) →
  scoped (evs ++ [ev]).
Proof.
  intros Hs Hev name err [Hin| <-%list_elem_of_singleton]%elem_of_app; [by eapply Hs|by eapply Hev].
Qed.

(** One module: skipped, or its CR is deleted. *)
Lemma wp_delete_module (name : string) errs tr (Φ : list (call DscE) → list goerr → Prop) :
  scoped (dsc_events tr) → dsc_module name → name ∉ enabledModules →
  (∀ err, scoped (dsc_events (tr ++ [Call (DeleteDscModuleCR name) err])) →
     Φ (tr ++ [Call (DeleteDscModuleCR name) err]) (append_error errs err)) →
  wp (err ← trigger (DeleteDscModuleCR name);
      match err with Some e => mret (errs ++ [e]) | None => mret errs end) tr Φ.
Proof.
  intros Hs Hmod Hno HΦ. apply wp_bind, wp_call. intros err.
  assert (scoped (dsc_events (tr ++ [Call (DeleteDscModuleCR name) err]))) as Hs'.
  { rewrite dsc_events_snoc. apply scoped_snoc; [done|]. by intros ? ? [= <- <-]. }
  specialize (HΦ err Hs'). by destruct err; apply wp_ret.
Qed.

Lemma wp_cleanup_modules (nodes : list UnifiedNode) :
  (∀ k h, ModuleRegistry.Lookup reg k = Some h → h_GetName h = k) →
  wp (prog_foldl (cleanup_module reg (dsc_owned_modules multierror_error reg) enabledModules) [] nodes) []
    (λ tr errs, scoped (dsc_events tr) ∧ (errs = [] → ∀ n, n ∈ nodes → dsc_module (GetName n) →
       GetName n ∉ enabledModules → EvDeleteModule (GetName n) None ∈ dsc_events tr)).
Proof.
  intros Hnames. apply (wp_foldl _ _ _ _ (λ pre tr errs, scoped (dsc_events tr) ∧
    (errs = [] → ∀ n, n ∈ pre → dsc_module (GetName n) → GetName n ∉ enabledModules →
       EvDeleteModule (GetName n) None ∈ dsc_events tr))).
  - split; [by intros ? ? ?%elem_of_nil|by intros _ n ?%elem_of_nil].
  - intros pre n todo tr errs _ [Hs Hdel].
    assert (¬ dsc_module (GetName n) ∨ GetName n ∈ enabledModules →
      wp (Ret errs : prog DscE _) tr (λ tr errs, scoped (dsc_events tr) ∧ (errs = [] → ∀ m, m ∈ pre ++ [n] →
        dsc_module (GetName m) → GetName m ∉ enabledModules → EvDeleteModule (GetName m) None ∈ dsc_events tr)))
      as Hskip.
    { intros Hno. apply wp_ret. split; [done|].
      intros Hnil m [Hm| ->%list_elem_of_singleton]%elem_of_app Hmod Hdis; [by apply Hdel|by destruct Hno]. }
    unfold cleanup_module. destruct (ModuleRegistry.Lookup reg (GetName n)) as [h|] eqn:Hlook.
    2: { apply Hskip. left. intros (k & e & He & _ & Hname). pose proof (Hnames k (ModuleRegistry.handler e)) as Hk.
         unfold ModuleRegistry.Lookup in *. rewrite He in Hk. specialize (Hk eq_refl).
         rewrite <-Hname, Hk, He in Hlook. done. }
    rewrite (Hnames _ _ Hlook). case_bool_decide as Hown; cbn [negb]; rewrite elem_of_dsc_owned in Hown; [|by apply Hskip; left].
    case_bool_decide as Hen; [by apply Hskip; right|]. apply wp_delete_module; [done..|].
    intros err Hs'. split; [done|]. intros Hnil m [Hm| ->%list_elem_of_singleton]%elem_of_app Hmod Hdis.
    + rewrite dsc_events_snoc. apply elem_of_app. left. apply Hdel; [|done..]. by destruct err, errs.
    + rewrite dsc_events_snoc. apply elem_of_app. right. destruct err; [by destruct errs|by left].
Qed.

Lemma wp_delete_disabled_all (keep : ModuleRegistry.registryEntry (DSCContext DSC DSCI) → bool) :
  (∀ e, keep e = true ↔ ModuleRegistry.configSource e = ConfigFromDSC) →
  wp (ModuleRegistry.for_entries multierror_error reg keep
        (λ _ e, delete_disabled enabledModules (ModuleRegistry.handler e)) tt) []
    (λ tr res, scoped (dsc_events tr) ∧ (res.2 = None → ∀ name, dsc_module name → name ∉ enabledModules →
       EvDeleteModule name None ∈ dsc_events tr)).
Proof.
  intros Hkeep. eapply wp_mono; [|apply (wp_for_entries _ _ _ _ _ _ (λ pre tr _ errs, scoped (dsc_events tr) ∧
    (errs = [] → ∀ e, e ∈ pre → h_GetName (ModuleRegistry.handler e) ∉ enabledModules →
       EvDeleteModule (h_GetName (ModuleRegistry.handler e)) None ∈ dsc_events tr)))].
  - intros tr res (errs & [Hs Hdel] & Hres). split; [done|]. intros Hnone name (k & e & He & Hsrc & <-) Hno.
    rewrite Hnone in Hres. apply Hdel; [by destruct errs| |done].
    apply list_elem_of_filter. split; [by apply Hkeep|]. apply elem_of_sorted_entries. by exists k.
  - split; [by intros ? ? ?%elem_of_nil|by intros _ n ?%elem_of_nil].
  - intros pre e todo tr _ errs Heq [Hs Hdel]. unfold delete_disabled. case_bool_decide as Hen.
    { apply wp_ret. split; [done|]. simpl. intros Hnil e' [He'| ->%list_elem_of_singleton]%elem_of_app Hno;
        [by apply Hdel|done]. }
    apply wp_bind, wp_call. intros err. apply wp_ret. split.
    + rewrite dsc_events_snoc. apply scoped_snoc; [done|]. intros ? ? [= <- <-]. split; [|done].
      assert (e ∈ filter (λ e, keep e = true) (sorted_entries reg)) as [Hk [k Hin]%elem_of_sorted_entries]%list_elem_of_filter.
      { rewrite Heq. apply elem_of_app. right. by left. }
      exists k, e. split; [done|]. split; [by apply Hkeep|done].
    + cbn [snd]. intros Hnil e' [He'| ->%list_elem_of_singleton]%elem_of_app Hno; rewrite dsc_events_snoc; apply elem_of_app.
      * left. apply Hdel; [by destruct err, errs|done..].
      * right. destruct err; [by destruct errs|by left].
Qed.

End module_cleanup.

(** The DSC controller's cleanup of module CRs stays in its scope. In a registry that any
    registrations and switches have led to, it deletes only CRs of modules that the DSC
    configures and disables: those of the DSCI and those the DSC enables are never
    touched, in the reverse order of the DAG and in the alphabetical fallback alike. If it
    reports no error, the CR of every such module in the cleanup order (of every such
    module, in the fallback) was deleted. *)
Theorem cleanupDisabledModuleCRs_scoped {DSC DSCI} multierror_error (rr : DscRequest DSC) instance
    (ops : list (registry_op (DSCContext DSC DSCI))) reverseBatches enabledModules :
  dr_Instance rr = Some instance →
  enabledModules = EnabledModules (BuildPlatformModulesForSource multierror_error (module_registry ops)
                     (buildDSCContext instance) ConfigFromDSC) →
  wp (cleanupDisabledModuleCRsWith multierror_error rr (module_registry ops) reverseBatches) [] (λ tr res,
    scoped (module_registry ops) enabledModules (dsc_events tr) ∧
    (res = None → ∀ name, dsc_module (module_registry ops) name → name ∉ enabledModules →
       match reverseBatches with
       | Ok batches => ∃ n, n ∈ concat (ModulesInBatch <$> batches) ∧ GetName n = name
       | Err _ => True
       end → EvDeleteModule name None ∈ dsc_events tr)).
Proof.
  intros Hinst ->. unfold cleanupDisabledModuleCRsWith. rewrite Hinst.
  assert (∀ k h, ModuleRegistry.Lookup (module_registry ops) k = Some h → h_GetName h = k) as Hnames.
  { intros k h. unfold ModuleRegistry.Lookup. destruct (_ !! k) as [e|] eqn:He; [|done]. intros [= <-].
    by apply (names_match_registry ops). }
  destruct (ModuleRegistry.HasEntries _) eqn:Hhas; cbn [negb].
  2: { apply wp_ret. split; [by intros ? ? ?%elem_of_nil|]. intros _ name (k & e & He & _).
       unfold ModuleRegistry.HasEntries in Hhas. apply negb_false_iff, bool_decide_eq_true in Hhas.
       by rewrite Hhas, lookup_empty in He. }
  destruct reverseBatches as [batches|err]; apply wp_bind.
  - eapply wp_mono; [|by apply wp_cleanup_modules]. intros tr errs [Hs Hdel]. apply wp_ret. split; [done|].
    intros Hnil%errors_Join_None name Hmod Hno (n & Hn & <-). by apply Hdel.
  - eapply wp_mono; [|apply wp_delete_disabled_all].
    + intros tr res [Hs Hdel]. apply wp_ret. split; [done|]. intros Hnone name Hmod Hno _. by apply Hdel.
    + intros e. by rewrite bool_decide_eq_true.
Qed.

Definition sample_dsc_module : ModuleHandler (DSCContext bool unit) :=
  MkHandler "ray" (λ _, false) (MkGVK "" "v1" "Ray") (λ _, MkManifests [] []) (λ pm _, pm) []
    None None None None None None None false.

Lemma cleanupDisabledModuleCRs_scoped_witness :
  wp (cleanupDisabledModuleCRsWith (λ _, errorf "") sample_dsc (module_registry [OpAdd sample_dsc_module []])
        (Err (errorf "cycle"))) [] (λ tr res,
    scoped (module_registry [OpAdd sample_dsc_module []]) [] (dsc_events tr) ∧
    (res = None → ∀ name, dsc_module (module_registry [OpAdd sample_dsc_module []]) name → name ∉ [] →
       True → EvDeleteModule name None ∈ dsc_events tr)).
Proof.
  apply (cleanupDisabledModuleCRs_scoped (λ _, errorf "") sample_dsc false [OpAdd sample_dsc_module []]
    (Err (errorf "cycle")) []); [reflexivity|vm_compute; reflexivity].
Defined.
