(* ===== verification/Conversion.v ===== *)
(** * DataScienceCluster conversion between API versions

    [api/datasciencecluster/v2/datasciencecluster_conversion.go] and
    [api/datasciencecluster/v3/maas_conversion.go]. v3 is the stored version (the hub); v2
    objects are converted to it and back. Settings that one version cannot express travel in
    annotations: the MaaS marker in stored v3 objects, the ModelExpress and KServe markers in
    v2 views.

    [Module V3] and [Module V2] hold the two object types and follow the Go packages. Specs
    and statuses that conversion copies as they are, are opaque [value]s. The object under
    conversion is a deep copy, so no data is shared. TypeMeta is set by the caller. *)

From S2P Require Import Prelude Conditions Unstructured ModuleBase.
Import Unstructured.

(** ** Annotations: a Go map that may be nil *)

Notation annotations := (option (gmap string string)).

(** [a[k]]. *)
Definition ann_get (a : annotations) (k : string) : option string := m ← a; m !! k.

(** [delete(a, k)]. *)
Definition ann_delete (a : annotations) (k : string) : annotations := delete k <$> a.

(** [if a == nil { a = make(map[string]string) }; a[k] = v]. *)
Definition ann_set (a : annotations) (k v : string) : annotations := Some (<[k:=v]> (default ∅ a)).

(** [if len(a) == 0 { a = nil }]. *)
Definition ann_nil_if_empty (a : annotations) : annotations :=
  if decide (default ∅ a = ∅) then None else a.

(** ** Component types that conversion takes apart ([api/components/v1alpha1]) *)

Record DSCAIHub := MkAIHub { ah_ManagementState : string; ah_InstancesNamespace : string }.
Record DSCModelRegistry := MkModelRegistry { mr_ManagementState : string; mr_RegistriesNamespace : string }.

Record AIHubCommonStatus := MkAIHubCommonStatus { ahs_InstancesNamespace : string; ahs_Releases : list value }.
Record DSCAIHubStatus := MkAIHubStatus { ahs_ManagementState : string; ahs_Common : option AIHubCommonStatus }.
Record ModelRegistryCommonStatus :=
  MkModelRegistryCommonStatus { mrs_RegistriesNamespace : string; mrs_Releases : list value }.
Record DSCModelRegistryStatus :=
  MkModelRegistryStatus { mrs_ManagementState : string; mrs_Common : option ModelRegistryCommonStatus }.

(** The data components; their common status is a list of releases. *)
Record DSCFeastOperator := MkFeastOperator { fo_ManagementState : string; fo_DataRegistry : value }.
Record DSCData := MkData { d_FeatureStore : string; d_DataRegistry : value }.
Record DSCFeastOperatorStatus :=
  MkFeastOperatorStatus { fos_ManagementState : string; fos_Releases : option (list value) }.
Record DSCDataStatus := MkDataStatus { ds_ManagementState : string; ds_Releases : option (list value) }.

(** Dashboards: the state of the dashboard and of its MaaS portal. *)
Record DSCDashboard := MkDashboard { db_Standard : string; db_MaaSPortal : string }.
Record DSCDashboardV2 := MkDashboardV2 { dbv2_ManagementState : string; dbv2_MaaSConsumerPortal : string }.

Record NimSpec := MkNim { nim_ManagementState : string; nim_AirGapped : bool }.

Record ConfidentialContainersConfig := MkCC { LUKSResourceID : string; InitData : string }.

#[export] Instance ConfidentialContainersConfig_eq_dec : EqDecision ConfidentialContainersConfig.
Proof. solve_decision. Defined.

Definition AuditProfileRemoved : string := "Removed".
Definition AuditProfileMetadata : string := "Metadata".

(** [BatchGateway] and [AIGrid] are copied as they are. *)
Record DSCAIGateway := MkAIGateway {
  ag_ManagementState : string;
  ag_ModelsAsAService : string;
  ag_BatchGateway : value;
  ag_AIGrid : value;
}.

(** [DSCKueue]: its state and the rest of its configuration. *)
Record DSCKueue := MkKueue { kq_ManagementState : string; kq_Config : value }.

(** [common.Status]. *)
Record Status := MkStatus {
  Phase : string;
  ObservedGeneration : Z;
  StatusConditions : list Condition;
}.

(** [metav1.ObjectMeta]: the annotations and the rest. *)
Record ObjectMeta := MkMeta { MetaRest : value; Annotations : annotations }.

(** ** Version v3 *)

Module V3.

Record DSCKserve := MkKserve {
  ManagementState : string;
  RawDeploymentServiceConfig : string;
  OAuthProxy : value;
  ConfidentialContainers : option ConfidentialContainersConfig;
  NIM : NimSpec;
  ModelExpress : string;
  EnableLLMInferenceServiceTLS : option bool;
  AuditLoggingProfile : string;
  EnableLLMInferenceServiceConsoleDashboards : option bool;
  ModelCache : value;
}.

Record Components := MkComponents {
  Dashboard : DSCDashboard;
  Workbenches : value;
  AIPipelines : value;
  Kserve : DSCKserve;
  Kueue : DSCKueue;
  Ray : value;
  TrustyAI : value;
  AIHub : DSCAIHub;
  Data : DSCData;
  OGX : value;
  MLflowOperator : value;
  Trainer : value;
  SparkOperator : value;
  AIGateway : DSCAIGateway;
  MCPLifecycleOperator : value;
  DatabaseService : value;
}.

Record ComponentsStatus := MkComponentsStatus {
  s_Dashboard : value;
  s_MaaSPortal : value;
  s_Workbenches : value;
  s_WorkbenchesV2 : value;
  s_AIPipelines : value;
  s_Kserve : value;
  s_Kueue : value;
  s_Ray : value;
  s_TrustyAI : value;
  s_AIHub : DSCAIHubStatus;
  s_Data : DSCDataStatus;
  s_OGX : value;
  s_MLflowOperator : value;
  s_Trainer : value;
  s_SparkOperator : value;
  s_AIGateway : value;
  s_ModelsAsAService : value;
  s_BatchGateway : value;
  s_AIGrid : value;
  s_MCPLifecycleOperator : value;
  s_DatabaseService : value;
}.

Record DataScienceClusterStatus := MkDSCStatus {
  st_Status : Status;
  st_RelatedObjects : value;
  st_ErrorMessage : string;
  st_Components : ComponentsStatus;
  st_Release : value;
}.

Record DataScienceCluster := MkDSC {
  meta : ObjectMeta;
  spec : Components;
  status : DataScienceClusterStatus;
}.

(** Assignments to a field of the object. *)
Definition set_annotations (a : annotations) (dsc : DataScienceCluster) : DataScienceCluster :=
  MkDSC (MkMeta (MetaRest (meta dsc)) a) (spec dsc) (status dsc).

Definition anns (dsc : DataScienceCluster) : annotations := Annotations (meta dsc).

Definition set_spec (f : Components → Components) (dsc : DataScienceCluster) : DataScienceCluster :=
  MkDSC (meta dsc) (f (spec dsc)) (status dsc).

Definition set_Kserve (f : DSCKserve → DSCKserve) (c : Components) : Components :=
  MkComponents (Dashboard c) (Workbenches c) (AIPipelines c) (f (Kserve c)) (Kueue c) (Ray c)
    (TrustyAI c) (AIHub c) (Data c) (OGX c) (MLflowOperator c) (Trainer c) (SparkOperator c)
    (AIGateway c) (MCPLifecycleOperator c) (DatabaseService c).

Definition set_AIGateway (f : DSCAIGateway → DSCAIGateway) (c : Components) : Components :=
  MkComponents (Dashboard c) (Workbenches c) (AIPipelines c) (Kserve c) (Kueue c) (Ray c)
    (TrustyAI c) (AIHub c) (Data c) (OGX c) (MLflowOperator c) (Trainer c) (SparkOperator c)
    (f (AIGateway c)) (MCPLifecycleOperator c) (DatabaseService c).

Definition MaaS (dsc : DataScienceCluster) : string := ag_ModelsAsAService (AIGateway (spec dsc)).

(** *** MaaS provenance *)

Definition MaaSV2StateAnnotation : string := "conversion.opendatahub.io/maas-v2-state".
Definition legacyMaaSManaged : string := "legacy-managed".

Definition PreserveMaaSV2State (canonical legacy : string) (dsc : DataScienceCluster) : DataScienceCluster :=
  let dsc := set_annotations (ann_delete (anns dsc) MaaSV2StateAnnotation) dsc in
  if String.eqb canonical Managed || negb (String.eqb legacy Managed) then dsc
  else set_annotations (ann_set (anns dsc) MaaSV2StateAnnotation legacyMaaSManaged) dsc.

Definition ReadMaaSV2State (dsc : DataScienceCluster) : result bool :=
  match ann_get (anns dsc) MaaSV2StateAnnotation with
  | None => Ok false
  | Some val =>
      if negb (String.eqb val legacyMaaSManaged)
      then Err (errorf ("invalid MaaS v2 provenance marker " +:+ quote val))
      else Ok true
  end.

Definition AdmitMaaSV2State (old : option DataScienceCluster) (dsc : DataScienceCluster)
    : result DataScienceCluster :=
  match old with
  | None => Ok (PreserveMaaSV2State (MaaS dsc) Removed dsc)
  | Some old =>
      managed ← ReadMaaSV2State old;
      if managed && String.eqb (MaaS old) (MaaS dsc)
      then Ok (PreserveMaaSV2State Removed Managed dsc)
      else Ok (PreserveMaaSV2State (MaaS dsc) Removed dsc)
  end.

End V3.

(** ** Version v2 *)

Module V2.

Record DSCKserveV2 := MkKserve {
  ManagementState : string;
  RawDeploymentServiceConfig : string;
  OAuthProxy : value;
  NIM : NimSpec;
  ModelsAsService : string;
  WVA : string;
  EnableLLMInferenceServiceTLS : option bool;
  EnableLLMInferenceServiceConsoleDashboards : option bool;
  ModelCache : value;
}.

Record Components := MkComponents {
  Dashboard : DSCDashboardV2;
  Workbenches : value;
  AIPipelines : value;
  Kserve : DSCKserveV2;
  Kueue : DSCKueue;
  Ray : value;
  TrustyAI : value;
  ModelRegistry : DSCModelRegistry;
  TrainingOperator : string;
  FeastOperator : DSCFeastOperator;
  LlamaStackOperator : string;
  OGX : value;
  MLflowOperator : value;
  Trainer : value;
  SparkOperator : value;
  AIGateway : DSCAIGateway;
  MCPLifecycleOperator : value;
  DatabaseService : value;
}.

(** The retired operators' statuses: their state, and nil or the releases. *)
Record ComponentsStatus := MkComponentsStatus {
  s_Dashboard : value;
  s_MaaSConsumerPortal : value;
  s_Workbenches : value;
  s_WorkbenchesV2 : value;
  s_AIPipelines : value;
  s_Kserve : value;
  s_Kueue : value;
  s_Ray : value;
  s_TrustyAI : value;
  s_ModelRegistry : DSCModelRegistryStatus;
  s_TrainingOperator : string * option value;
  s_FeastOperator : DSCFeastOperatorStatus;
  s_LlamaStackOperator : string * option value;
  s_OGX : value;
  s_MLflowOperator : value;
  s_Trainer : value;
  s_SparkOperator : value;
  s_AIGateway : value;
  s_ModelsAsAService : value;
  s_BatchGateway : value;
  s_AIGrid : value;
  s_MCPLifecycleOperator : value;
  s_DatabaseService : value;
}.

Record DataScienceClusterStatus := MkDSCStatus {
  st_Status : Status;
  st_RelatedObjects : value;
  st_ErrorMessage : string;
  st_Components : ComponentsStatus;
  st_Release : value;
}.

Record DataScienceCluster := MkDSC {
  meta : ObjectMeta;
  spec : Components;
  status : DataScienceClusterStatus;
}.

Definition anns (dsc : DataScienceCluster) : annotations := Annotations (meta dsc).

Definition set_annotations (a : annotations) (dsc : DataScienceCluster) : DataScienceCluster :=
  MkDSC (MkMeta (MetaRest (meta dsc)) a) (spec dsc) (status dsc).

Definition set_spec (f : Components → Components) (dsc : DataScienceCluster) : DataScienceCluster :=
  MkDSC (meta dsc) (f (spec dsc)) (status dsc).

(** [Kserve.ModelsAsService.ManagementState = legacy] and
    [AIGateway.ModelsAsAService.ManagementState = canonical]. *)
Definition set_maas (legacy canonical : string) (c : Components) : Components :=
  let k := Kserve c in
  let g := AIGateway c in
  MkComponents (Dashboard c) (Workbenches c) (AIPipelines c)
    (MkKserve (ManagementState k) (RawDeploymentServiceConfig k) (OAuthProxy k) (NIM k) legacy
       (WVA k) (EnableLLMInferenceServiceTLS k) (EnableLLMInferenceServiceConsoleDashboards k)
       (ModelCache k))
    (Kueue c) (Ray c) (TrustyAI c) (ModelRegistry c) (TrainingOperator c) (FeastOperator c)
    (LlamaStackOperator c) (OGX c) (MLflowOperator c) (Trainer c) (SparkOperator c)
    (MkAIGateway (ag_ManagementState g) canonical (ag_BatchGateway g) (ag_AIGrid g))
    (MCPLifecycleOperator c) (DatabaseService c).

End V2.

(** ** Condition types *)

Definition aiHubReadyCondition : string := "AIHubReady".
Definition modelRegistryReadyCondition : string := "ModelRegistryReady".
Definition dataReadyCondition : string := "DataReady".
Definition feastOperatorReadyCondition : string := "FeastOperatorReady".
Definition maasConsumerPortalAvailableCondition : string := "MaaSConsumerPortalAvailable".
Definition maasPortalAvailableCondition : string := "MaaSPortalAvailable".

Definition to_v3_types : gmap string string := list_to_map
  [(modelRegistryReadyCondition, aiHubReadyCondition);
   (feastOperatorReadyCondition, dataReadyCondition);
   (maasConsumerPortalAvailableCondition, maasPortalAvailableCondition)].

Definition to_v2_types : gmap string string := list_to_map
  [(aiHubReadyCondition, modelRegistryReadyCondition);
   (dataReadyCondition, feastOperatorReadyCondition);
   (maasPortalAvailableCondition, maasConsumerPortalAvailableCondition)].

Definition with_type (ty : string) (c : Condition) : Condition :=
  MkCondition ty (c_status c) (c_reason c) (c_message c) (c_severity c) (c_observedGeneration c)
    (c_lastTransitionTime c).

(** The targets of the conditions that will be renamed. *)
Definition mapped_types (mappings : gmap string string) (cs : list Condition) : gset string :=
  list_to_set (omap (λ c, mappings !! c_type c) cs).

(** One iteration of the second loop; the accumulator is the new list and the index of each
    type in it. *)
Definition map_condition (mappings : gmap string string) (mappedTypes : gset string)
    (acc : list Condition * gmap string nat) (c : Condition) : list Condition * gmap string nat :=
  let target := mappings !! c_type c in
  let mapped := bool_decide (is_Some target) in
  let c := match target with Some ty => with_type ty c | None => c end in
  if negb mapped && bool_decide (c_type c ∈ mappedTypes) then acc
  else
    match acc.2 !! c_type c with
    | Some index => if mapped then (<[index:=c]> acc.1, acc.2) else acc
    | None => (acc.1 ++ [c], <[c_type c := length acc.1]> acc.2)
    end.

(** The test for nil conditions is covered: no iteration, no conditions. *)
Definition map_conditions (mappings : gmap string string) (cs : list Condition) : list Condition :=
  (foldl (map_condition mappings (mapped_types mappings cs)) ([], ∅) cs).1.

Definition withConditionTypeMapping (status : Status) (mappings : gmap string string) : Status :=
  MkStatus (Phase status) (ObservedGeneration status) (map_conditions mappings (StatusConditions status)).

(** ** Component conversions *)

Definition modelRegistryToAIHub (src : DSCModelRegistry) : DSCAIHub :=
  MkAIHub (mr_ManagementState src) (mr_RegistriesNamespace src).

Definition aiHubToModelRegistry (src : DSCAIHub) : DSCModelRegistry :=
  MkModelRegistry (ah_ManagementState src) (ah_InstancesNamespace src).

Definition modelRegistryStatusToAIHub (src : DSCModelRegistryStatus) : DSCAIHubStatus :=
  MkAIHubStatus (mrs_ManagementState src)
    (match mrs_Common src with
     | None => None
     | Some common => Some (MkAIHubCommonStatus (mrs_RegistriesNamespace common) (mrs_Releases common))
     end).

Definition aiHubStatusToModelRegistry (src : DSCAIHubStatus) : DSCModelRegistryStatus :=
  MkModelRegistryStatus (ahs_ManagementState src)
    (match ahs_Common src with
     | None => None
     | Some common =>
         Some (MkModelRegistryCommonStatus (ahs_InstancesNamespace common) (ahs_Releases common))
     end).

Definition feastOperatorStatusToData (src : DSCFeastOperatorStatus) : DSCDataStatus :=
  MkDataStatus (fos_ManagementState src) (fos_Releases src).

Definition dataStatusToFeastOperator (src : DSCDataStatus) : DSCFeastOperatorStatus :=
  MkFeastOperatorStatus (ds_ManagementState src) (ds_Releases src).

Definition dashboardV2ToV3 (src : DSCDashboardV2) : DSCDashboard :=
  MkDashboard (dbv2_ManagementState src) (dbv2_MaaSConsumerPortal src).

Definition dashboardV3ToV2 (src : DSCDashboard) : DSCDashboardV2 :=
  MkDashboardV2 (db_Standard src) (db_MaaSPortal src).

(** ** The markers of v2 views *)

Definition ModelExpressV3StateAnnotation : string := "conversion.opendatahub.io/modelexpress-v3-state".
Definition modelExpressManaged : string := "managed".
Definition KserveV3StateAnnotation : string := "conversion.opendatahub.io/kserve-v3-state".

Record kserveV3State := MkKserveV3State {
  ks_ConfidentialContainers : option ConfidentialContainersConfig;
  ks_AuditLoggingProfile : string;
}.

(** [json.Marshal] and [json.Unmarshal] at this type. *)
Class KserveV3StateJSON := {
  Marshal : kserveV3State → result string;
  Unmarshal : string → result kserveV3State;
}.

Definition luksResourceIDMaxLength : Z := 2048.
Definition initDataMaxLength : Z := 8192.

(** *** [utf8.RuneCountInString] and the pattern of resource ids *)

Definition byte_in (lo hi : nat) (a : Ascii.ascii) : bool :=
  let n := Ascii.nat_of_ascii a in (lo <=? n)%nat && (n <=? hi)%nat.

Definition is_cont : Ascii.ascii → bool := byte_in 128 191.

(** The bytes that may follow the first byte of a sequence of three or four. *)
Definition second3 (a b : Ascii.ascii) : bool :=
  if byte_in 224 224 a then byte_in 160 191 b
  else if byte_in 237 237 a then byte_in 128 159 b
  else byte_in 225 239 a && is_cont b.

Definition second4 (a b : Ascii.ascii) : bool :=
  if byte_in 240 240 a then byte_in 144 191 b
  else if byte_in 244 244 a then byte_in 128 143 b
  else byte_in 241 243 a && is_cont b.

(** The runes of a string, each with its validity: a byte that starts no valid sequence is a
    rune of its own. *)
Fixpoint runes (s : string) : list bool :=
  match s with
  | EmptyString => []
  | String a s1 =>
      if byte_in 0 127 a then true :: runes s1
      else
        match s1 with
        | String b s2 =>
            if byte_in 194 223 a && is_cont b then true :: runes s2
            else
              match s2 with
              | String c s3 =>
                  if second3 a b && is_cont c then true :: runes s3
                  else
                    match s3 with
                    | String d s4 =>
                        if second4 a b && is_cont c && is_cont d then true :: runes s4
                        else false :: runes s1
                    | EmptyString => false :: runes s1
                    end
              | EmptyString => false :: runes s1
              end
        | EmptyString => false :: runes s1
        end
  end.

Definition RuneCountInString (s : string) : Z := Z.of_nat (length (runes s)).
Definition utf8_valid (s : string) : bool := forallb id (runes s).

(** A byte of the class [[^/\s?#]]; the slash is the separator of the segments. *)
Definition segment_byte (a : Ascii.ascii) : bool :=
  let n := Ascii.nat_of_ascii a in
  negb (bool_decide (n ∈ [9; 10; 12; 13; 32; 35; 63]%nat)).

Fixpoint all_bytes (p : Ascii.ascii → bool) (s : string) : bool :=
  match s with EmptyString => true | String a s => p a && all_bytes p s end.

(** [luksResourceIDPattern.MatchString]: the prefix and three non-empty segments. *)
Definition luksResourceIDPattern (s : string) : bool :=
  has_prefix s "kbs:///" &&
  (let segments := split_slash (String.substring 7 (String.length s) s) "" in
   bool_decide (length segments = 3%nat) &&
   forallb (λ seg, nonempty_str seg && all_bytes segment_byte seg) segments).

Definition validate_cc (cc : ConfidentialContainersConfig) : option goerr :=
  let id := LUKSResourceID cc in
  if (RuneCountInString id >? luksResourceIDMaxLength)%Z
  then Some (errorf ("luksResourceId exceeds " +:+ itoa luksResourceIDMaxLength +:+ " characters"))
  else if negb (luksResourceIDPattern id) then Some (errorf ("invalid luksResourceId " +:+ quote id))
  else if existsb (λ seg, String.eqb seg "." || String.eqb seg "..") (split_slash id "")
  then Some (errorf ("luksResourceId " +:+ quote id +:+ " must not contain " +:+ dquote +:+ "." +:+ dquote
         +:+ " or " +:+ dquote +:+ ".." +:+ dquote +:+ " path segments"))
  else if (RuneCountInString (InitData cc) >? initDataMaxLength)%Z
  then Some (errorf ("initData exceeds " +:+ itoa initDataMaxLength +:+ " characters"))
  else None.

Definition validate (s : kserveV3State) : option goerr :=
  let profile := ks_AuditLoggingProfile s in
  if bool_decide (ks_ConfidentialContainers s = None) && String.eqb profile ""
  then Some (errorf "carries no settings")
  else if negb (bool_decide (profile ∈ [""; AuditProfileRemoved; AuditProfileMetadata]))
  then Some (errorf ("invalid auditLoggingProfile " +:+ quote profile))
  else match ks_ConfidentialContainers s with
       | Some cc => validate_cc cc
       | None => None
       end.

(** ** From v2 to v3 *)

Definition kserve_to_v3 (k : V2.DSCKserveV2) : V3.DSCKserve :=
  V3.MkKserve (V2.ManagementState k) (V2.RawDeploymentServiceConfig k) (V2.OAuthProxy k) None (V2.NIM k) ""
    (V2.EnableLLMInferenceServiceTLS k) "" (V2.EnableLLMInferenceServiceConsoleDashboards k)
    (V2.ModelCache k).

Definition components_to_v3 (c : V2.Components) : V3.Components :=
  V3.MkComponents
    (dashboardV2ToV3 (V2.Dashboard c)) (V2.Workbenches c) (V2.AIPipelines c) (kserve_to_v3 (V2.Kserve c))
    (V2.Kueue c) (V2.Ray c) (V2.TrustyAI c) (modelRegistryToAIHub (V2.ModelRegistry c))
    (MkData (fo_ManagementState (V2.FeastOperator c)) (fo_DataRegistry (V2.FeastOperator c)))
    (V2.OGX c) (V2.MLflowOperator c) (V2.Trainer c) (V2.SparkOperator c) (V2.AIGateway c)
    (V2.MCPLifecycleOperator c) (V2.DatabaseService c).

Definition statuses_to_v3 (c : V2.ComponentsStatus) : V3.ComponentsStatus :=
  V3.MkComponentsStatus
    (V2.s_Dashboard c) (V2.s_MaaSConsumerPortal c) (V2.s_Workbenches c) (V2.s_WorkbenchesV2 c)
    (V2.s_AIPipelines c) (V2.s_Kserve c) (V2.s_Kueue c) (V2.s_Ray c) (V2.s_TrustyAI c)
    (modelRegistryStatusToAIHub (V2.s_ModelRegistry c)) (feastOperatorStatusToData (V2.s_FeastOperator c))
    (V2.s_OGX c) (V2.s_MLflowOperator c) (V2.s_Trainer c) (V2.s_SparkOperator c) (V2.s_AIGateway c)
    (V2.s_ModelsAsAService c) (V2.s_BatchGateway c) (V2.s_AIGrid c) (V2.s_MCPLifecycleOperator c)
    (V2.s_DatabaseService c).

Definition status_to_v3 (s : V2.DataScienceClusterStatus) : V3.DataScienceClusterStatus :=
  V3.MkDSCStatus (withConditionTypeMapping (V2.st_Status s) to_v3_types) (V2.st_RelatedObjects s)
    (V2.st_ErrorMessage s) (statuses_to_v3 (V2.st_Components s)) (V2.st_Release s).

(** The two switches on the canonical and the legacy MaaS state. *)
Definition migrate_maas (src : V2.Components) (g : DSCAIGateway) : DSCAIGateway :=
  let canonical := ag_ModelsAsAService (V2.AIGateway src) in
  let legacy := V2.ModelsAsService (V2.Kserve src) in
  let effective := String.eqb (V2.ManagementState (V2.Kserve src)) Managed && String.eqb legacy Managed in
  let maas := if String.eqb canonical Managed || effective then Managed else Removed in
  let parent := ag_ManagementState (V2.AIGateway src) in
  let state :=
    if nonempty_str parent then parent
    else if effective then Managed
    else ag_ManagementState g in
  MkAIGateway state maas (ag_BatchGateway g) (ag_AIGrid g).

(** [dst.Annotations] after a marker has been consumed. *)
Definition drop_marker (key : string) (dst : V3.DataScienceCluster) : V3.DataScienceCluster :=
  V3.set_annotations (ann_nil_if_empty (ann_delete (V3.anns dst) key)) dst.

Definition set_ModelExpress (st : string) (k : V3.DSCKserve) : V3.DSCKserve :=
  V3.MkKserve (V3.ManagementState k) (V3.RawDeploymentServiceConfig k) (V3.OAuthProxy k)
    (V3.ConfidentialContainers k) (V3.NIM k) st (V3.EnableLLMInferenceServiceTLS k)
    (V3.AuditLoggingProfile k) (V3.EnableLLMInferenceServiceConsoleDashboards k) (V3.ModelCache k).

Definition set_kserve_state (s : kserveV3State) (k : V3.DSCKserve) : V3.DSCKserve :=
  V3.MkKserve (V3.ManagementState k) (V3.RawDeploymentServiceConfig k) (V3.OAuthProxy k)
    (ks_ConfidentialContainers s) (V3.NIM k) (V3.ModelExpress k) (V3.EnableLLMInferenceServiceTLS k)
    (ks_AuditLoggingProfile s) (V3.EnableLLMInferenceServiceConsoleDashboards k) (V3.ModelCache k).

Definition read_ModelExpress (dst : V3.DataScienceCluster) : result V3.DataScienceCluster :=
  match ann_get (V3.anns dst) ModelExpressV3StateAnnotation with
  | None => Ok dst
  | Some val =>
      if negb (String.eqb val modelExpressManaged)
      then Err (errorf ("invalid ModelExpress v3 state marker " +:+ quote val))
      else
        Ok (drop_marker ModelExpressV3StateAnnotation
              (V3.set_spec (V3.set_Kserve (set_ModelExpress Managed)) dst))
  end.

Section conversion.
Context `{KserveV3StateJSON}.

Definition read_kserve_state (dst : V3.DataScienceCluster) : result V3.DataScienceCluster :=
  match ann_get (V3.anns dst) KserveV3StateAnnotation with
  | None => Ok dst
  | Some val =>
      match Unmarshal val with
      | Err err => Err (wrapf "invalid KServe v3 state marker" err)
      | Ok state =>
          match validate state with
          | Some err => Err (wrapf "invalid KServe v3 state marker" err)
          | None =>
              Ok (drop_marker KserveV3StateAnnotation
                    (V3.set_spec (V3.set_Kserve (set_kserve_state state)) dst))
          end
      end
  end.

Definition ConvertTo (src : V2.DataScienceCluster) : result V3.DataScienceCluster :=
  let dst := V3.MkDSC (V2.meta src) (components_to_v3 (V2.spec src)) (status_to_v3 (V2.status src)) in
  let dst := V3.set_spec (V3.set_AIGateway (migrate_maas (V2.spec src))) dst in
  let dst :=
    V3.PreserveMaaSV2State (ag_ModelsAsAService (V2.AIGateway (V2.spec src)))
      (V2.ModelsAsService (V2.Kserve (V2.spec src))) dst in
  dst ← read_ModelExpress dst;
  read_kserve_state dst.

(** ** From v3 to v2 *)

Definition kserve_to_v2 (k : V3.DSCKserve) : V2.DSCKserveV2 :=
  V2.MkKserve (V3.ManagementState k) (V3.RawDeploymentServiceConfig k) (V3.OAuthProxy k) (V3.NIM k)
    Removed Removed (V3.EnableLLMInferenceServiceTLS k) (V3.EnableLLMInferenceServiceConsoleDashboards k)
    (V3.ModelCache k).

Definition components_to_v2 (c : V3.Components) : V2.Components :=
  V2.MkComponents
    (dashboardV3ToV2 (V3.Dashboard c)) (V3.Workbenches c) (V3.AIPipelines c) (kserve_to_v2 (V3.Kserve c))
    (V3.Kueue c) (V3.Ray c) (V3.TrustyAI c) (aiHubToModelRegistry (V3.AIHub c)) Removed
    (MkFeastOperator (d_FeatureStore (V3.Data c)) (d_DataRegistry (V3.Data c))) Removed
    (V3.OGX c) (V3.MLflowOperator c) (V3.Trainer c) (V3.SparkOperator c) (V3.AIGateway c)
    (V3.MCPLifecycleOperator c) (V3.DatabaseService c).

Definition statuses_to_v2 (c : V3.ComponentsStatus) : V2.ComponentsStatus :=
  V2.MkComponentsStatus
    (V3.s_Dashboard c) (V3.s_MaaSPortal c) (V3.s_Workbenches c) (V3.s_WorkbenchesV2 c)
    (V3.s_AIPipelines c) (V3.s_Kserve c) (V3.s_Kueue c) (V3.s_Ray c) (V3.s_TrustyAI c)
    (aiHubStatusToModelRegistry (V3.s_AIHub c)) (Removed, None) (dataStatusToFeastOperator (V3.s_Data c))
    (Removed, None) (V3.s_OGX c) (V3.s_MLflowOperator c) (V3.s_Trainer c) (V3.s_SparkOperator c)
    (V3.s_AIGateway c) (V3.s_ModelsAsAService c) (V3.s_BatchGateway c) (V3.s_AIGrid c)
    (V3.s_MCPLifecycleOperator c) (V3.s_DatabaseService c).

Definition status_to_v2 (s : V3.DataScienceClusterStatus) : V2.DataScienceClusterStatus :=
  V2.MkDSCStatus (withConditionTypeMapping (V3.st_Status s) to_v2_types) (V3.st_RelatedObjects s)
    (V3.st_ErrorMessage s) (statuses_to_v2 (V3.st_Components s)) (V3.st_Release s).

Definition write_ModelExpress (src : V3.DataScienceCluster) (a : annotations) : annotations :=
  let a := ann_delete a ModelExpressV3StateAnnotation in
  if String.eqb (V3.ModelExpress (V3.Kserve (V3.spec src))) Managed
  then ann_set a ModelExpressV3StateAnnotation modelExpressManaged else a.

(** The settings the KServe marker records. *)
Definition kserve_state (k : V3.DSCKserve) : kserveV3State :=
  let profile := V3.AuditLoggingProfile k in
  MkKserveV3State (V3.ConfidentialContainers k)
    (if nonempty_str profile && negb (String.eqb profile AuditProfileRemoved) then profile else "").

Definition write_kserve_state (src : V3.DataScienceCluster) (a : annotations) : result annotations :=
  let a := ann_delete a KserveV3StateAnnotation in
  let state := kserve_state (V3.Kserve (V3.spec src)) in
  if negb (bool_decide (ks_ConfidentialContainers state = None)) || nonempty_str (ks_AuditLoggingProfile state)
  then
    match Marshal state with
    | Err err => Err (wrapf "encode KServe v3 state marker" err)
    | Ok encoded => Ok (ann_set a KserveV3StateAnnotation encoded)
    end
  else Ok a.

Definition ConvertFrom (src : V3.DataScienceCluster) : result V2.DataScienceCluster :=
  let dst := V2.MkDSC (V3.meta src) (components_to_v2 (V3.spec src)) (status_to_v2 (V3.status src)) in
  legacyManaged ← V3.ReadMaaSV2State src;
  let dst := if legacyManaged : bool then V2.set_spec (V2.set_maas Managed Removed) dst else dst in
  let a := write_ModelExpress src (ann_delete (V2.anns dst) V3.MaaSV2StateAnnotation) in
  a ← write_kserve_state src a;
  Ok (V2.set_annotations (ann_nil_if_empty a) dst).
End conversion.
