(* ===== verification/ConversionTheorems.v ===== *)
(** * Properties of the DataScienceCluster conversion

    Renaming of condition types keeps types unique; what the trip of a stored object
    through the v2 view changes, which is nothing for objects that conversion stored; which v2 settings survive
    the trip through v3; when conversion is refused. *)

From S2P Require Import Prelude Conditions Unstructured ModuleBase Conversion.

(** ** Renaming of condition types *)

Definition find_type (ty : string) (cs : list Condition) : option Condition :=
  head (filter (λ c, c_type c = ty) cs).

(** The last of the conditions renamed to [ty]. *)
Definition last_mapped (mappings : gmap string string) (ty : string) (cs : list Condition) : option Condition :=
  with_type ty <$> last (filter (λ c, mappings !! c_type c = Some ty) cs).

(** The first of the conditions of type [ty] that keep their type. *)
Definition first_kept (mappings : gmap string string) (ty : string) (cs : list Condition) : option Condition :=
  head (filter (λ c, mappings !! c_type c = None ∧ c_type c = ty) cs).

(** What the new list holds for type [ty]. *)
Definition mapped_condition (mappings : gmap string string) (mappedTypes : gset string) (cs : list Condition)
    (ty : string) : option Condition :=
  match last_mapped mappings ty cs with
  | Some c => Some c
  | None => if decide (ty ∈ mappedTypes) then None else first_kept mappings ty cs
  end.

Record map_inv (mappings : gmap string string) (mappedTypes : gset string) (cs : list Condition)
    (acc : list Condition * gmap string nat) : Prop := MapInv {
  mi_index ty i : acc.2 !! ty = Some i ↔ c_type <$> (acc.1 !! i) = Some ty;
  mi_find ty : find_type ty acc.1 = mapped_condition mappings mappedTypes cs ty;
}.

Lemma index_nodup (l : list Condition) (idx : gmap string nat) :
  (∀ ty i, idx !! ty = Some i ↔ c_type <$> (l !! i) = Some ty) → NoDup (c_type <$> l).
Proof.
  intros Hidx. apply NoDup_alt. intros i j ty Hi Hj. rewrite list_lookup_fmap in Hi, Hj.
  apply Hidx in Hi, Hj. congruence.
Qed.

Lemma find_type_lookup ty (l : list Condition) i c :
  NoDup (c_type <$> l) → l !! i = Some c → c_type c = ty → find_type ty l = Some c.
Proof.
  unfold find_type. revert i. induction l as [|x l IH]; intros i Hnd Hi Hty; [done|].
  apply NoDup_cons in Hnd as [Hx Hnd]. destruct i as [|i]; simplify_eq/=.
  - rewrite filter_cons, decide_True by done. done.
  - rewrite filter_cons, decide_False; [by eapply IH|].
    intros Heq. apply Hx. rewrite Heq. apply list_elem_of_fmap. exists c. split; [done|].
    by eapply list_elem_of_lookup_2.
Qed.

Lemma find_type_None ty (l : list Condition) : find_type ty l = None ↔ ty ∉ c_type <$> l.
Proof.
  unfold find_type. induction l as [|x l IH]; simpl; [by split; [intros _ ?%elem_of_nil|]|].
  rewrite filter_cons. destruct (decide (c_type x = ty)) as [<-|Hne]; simpl.
  - rewrite not_elem_of_cons. naive_solver.
  - rewrite IH, not_elem_of_cons. naive_solver.
Qed.

Lemma find_type_snoc ty (l : list Condition) c :
  find_type ty (l ++ [c]) = match find_type ty l with Some x => Some x
                            | None => if decide (c_type c = ty) then Some c else None end.
Proof.
  unfold find_type. rewrite filter_app, head_app, filter_cons.
  destruct (head (filter _ l)); [done|]. by destruct (decide (c_type c = ty)).
Qed.

Lemma find_type_insert ty (l : list Condition) i c c' :
  NoDup (c_type <$> l) → l !! i = Some c → c_type c' = c_type c →
  find_type ty (<[i:=c']> l) = if decide (c_type c' = ty) then Some c' else find_type ty l.
Proof.
  intros Hnd Hi Hty.
  assert (c_type <$> <[i:=c']> l = c_type <$> l) as Htys.
  { rewrite list_fmap_insert. apply list_insert_id. rewrite list_lookup_fmap, Hi, Hty. done. }
  assert (i < length l)%nat as Hlen by (by eapply lookup_lt_Some).
  destruct (decide (c_type c' = ty)) as [Heq|Hne].
  - eapply find_type_lookup; [by rewrite Htys|by apply list_lookup_insert_eq|done].
  - destruct (find_type ty l) as [x|] eqn:Hx.
    + unfold find_type in Hx. assert (x ∈ filter (λ c, c_type c = ty) l) as Hin.
      { destruct (filter _ l); simplify_eq/=. left. }
      apply list_elem_of_filter in Hin as [Hxty [j Hj]%list_elem_of_lookup].
      apply (find_type_lookup ty _ j x); [by rewrite Htys| |done].
      rewrite list_lookup_insert_ne; [done|]. intros ->. simplify_eq.
    + apply find_type_None in Hx. apply find_type_None. by rewrite Htys.
Qed.

Lemma last_mapped_snoc mappings ty cs c :
  last_mapped mappings ty (cs ++ [c]) =
    if decide (mappings !! c_type c = Some ty) then Some (with_type ty c) else last_mapped mappings ty cs.
Proof.
  unfold last_mapped. rewrite filter_app, filter_cons, filter_nil.
  case_decide; [by rewrite last_snoc|by rewrite app_nil_r].
Qed.

Lemma first_kept_snoc mappings ty cs c :
  first_kept mappings ty (cs ++ [c]) =
    match first_kept mappings ty cs with Some x => Some x
    | None => if decide (mappings !! c_type c = None ∧ c_type c = ty) then Some c else None end.
Proof.
  unfold first_kept. rewrite filter_app, head_app, filter_cons.
  destruct (head (filter _ cs)); [done|]. by case_decide.
Qed.

Lemma map_inv_append mappings T cs acc c c' :
  map_inv mappings T cs acc → acc.2 !! c_type c' = None →
  (∀ ty, (match mapped_condition mappings T cs ty with Some x => Some x
          | None => if decide (c_type c' = ty) then Some c' else None end)
         = mapped_condition mappings T (cs ++ [c]) ty) →
  map_inv mappings T (cs ++ [c]) (acc.1 ++ [c'], <[c_type c' := length acc.1]> acc.2).
Proof.
  intros [Hidx Hfind] Hnone Hspec. split; cbn [fst snd].
  - intros ty i. destruct (decide (c_type c' = ty)) as [<-|Hne].
    + rewrite lookup_insert_eq. split.
      * intros [= <-]. by rewrite list_lookup_middle.
      * destruct (decide (i < length acc.1)%nat) as [Hlt|Hge].
        -- rewrite lookup_app_l by done. intros Hi. apply Hidx in Hi. congruence.
        -- intros (x & Hx & _)%fmap_Some. apply lookup_lt_Some in Hx.
           rewrite length_app in Hx. cbn in Hx. f_equal. lia.
    + rewrite lookup_insert_ne by done. rewrite Hidx. split.
      * intros (x & Hx & Hty)%fmap_Some. rewrite lookup_app_l by (by eapply lookup_lt_Some).
        by rewrite Hx, Hty.
      * intros (x & Hx & Hty)%fmap_Some. destruct (decide (i < length acc.1)%nat) as [Hlt|Hge].
        -- rewrite lookup_app_l in Hx by done. by rewrite Hx, Hty.
        -- rewrite lookup_app_r in Hx by lia. apply list_lookup_singleton_Some in Hx as [_ <-].
           congruence.
  - intros ty. rewrite find_type_snoc, Hfind. apply Hspec.
Qed.

Lemma map_inv_replace mappings T cs acc c c' i :
  map_inv mappings T cs acc → acc.2 !! c_type c' = Some i →
  (∀ ty, (if decide (c_type c' = ty) then Some c' else mapped_condition mappings T cs ty)
         = mapped_condition mappings T (cs ++ [c]) ty) →
  map_inv mappings T (cs ++ [c]) (<[i:=c']> acc.1, acc.2).
Proof.
  intros [Hidx Hfind] Hi Hspec. pose proof (index_nodup _ _ Hidx) as Hnd.
  apply Hidx in Hi as Hl. apply fmap_Some in Hl as (x & Hx & Hty).
  split; cbn [fst snd].
  - intros ty j. rewrite Hidx. destruct (decide (i = j)) as [<-|Hne].
    + rewrite list_lookup_insert_eq by (by eapply lookup_lt_Some). rewrite Hx. cbn. by rewrite Hty.
    + by rewrite list_lookup_insert_ne.
  - intros ty. erewrite find_type_insert by eauto. rewrite Hfind. apply Hspec.
Qed.

Lemma mapped_snoc_target mappings T cs c ty t :
  mappings !! c_type c = Some t →
  mapped_condition mappings T (cs ++ [c]) ty =
    if decide (t = ty) then Some (with_type t c) else mapped_condition mappings T cs ty.
Proof.
  intros Ht. unfold mapped_condition. rewrite last_mapped_snoc, first_kept_snoc, Ht.
  destruct (decide (t = ty)) as [->|Hne]; [by rewrite decide_True|].
  rewrite decide_False by congruence.
  destruct (last_mapped mappings ty cs); [done|]. case_decide; [done|].
  destruct (first_kept mappings ty cs); [done|]. by rewrite decide_False by (intros [? _]; congruence).
Qed.

Lemma mapped_snoc_kept mappings T cs c ty :
  mappings !! c_type c = None →
  mapped_condition mappings T (cs ++ [c]) ty =
    match mapped_condition mappings T cs ty with
    | Some x => Some x
    | None => if decide (c_type c = ty ∧ ty ∉ T) then Some c else None
    end.
Proof.
  intros Hn. unfold mapped_condition. rewrite last_mapped_snoc, first_kept_snoc, Hn.
  rewrite decide_False by congruence.
  destruct (last_mapped mappings ty cs); [done|].
  destruct (decide (ty ∈ T)); [by rewrite decide_False by naive_solver|].
  destruct (first_kept mappings ty cs); [done|].
  destruct (decide (c_type c = ty)); [by rewrite !decide_True by done|by rewrite !decide_False by naive_solver].
Qed.

Lemma map_condition_inv mappings T cs acc c :
  map_inv mappings T cs acc → (∀ t, mappings !! c_type c = Some t → t ∈ T) →
  map_inv mappings T (cs ++ [c]) (map_condition mappings T acc c).
Proof.
  intros Hinv HT. pose proof Hinv as [Hidx Hfind].
  assert (∀ ty, acc.2 !! ty = None → mapped_condition mappings T cs ty = None) as Hnone.
  { intros ty Hty. rewrite <-Hfind. apply find_type_None.
    intros [i Hi]%list_elem_of_lookup. rewrite list_lookup_fmap in Hi. apply Hidx in Hi. congruence. }
  unfold map_condition. destruct (mappings !! c_type c) as [t|] eqn:Ht.
  - rewrite (bool_decide_true (is_Some _)) by eauto. cbn [negb andb c_type with_type].
    destruct (acc.2 !! t) as [i|] eqn:Hi.
    + apply map_inv_replace; [done..|]. intros ty. by rewrite (mapped_snoc_target _ _ _ _ _ t Ht).
    + apply map_inv_append; [done..|]. intros ty. rewrite (mapped_snoc_target _ _ _ _ _ t Ht).
      cbn [c_type with_type]. destruct (decide (t = ty)) as [<-|]; [by rewrite Hnone|].
      by destruct (mapped_condition mappings T cs ty).
  - rewrite (bool_decide_false (is_Some _)) by (intros []; congruence). cbn [negb andb].
    case_bool_decide as HinT.
    { split; [done|]. intros ty. rewrite mapped_snoc_kept, Hfind by done.
      rewrite decide_False by naive_solver. by destruct (mapped_condition mappings T cs ty). }
    destruct (acc.2 !! c_type c) as [i|] eqn:Hi.
    + split; [done|]. intros ty. rewrite mapped_snoc_kept, Hfind by done.
      destruct (mapped_condition mappings T cs ty) eqn:Hm; [done|].
      rewrite decide_False; [done|]. intros [<- _].
      rewrite <-Hfind in Hm. apply find_type_None in Hm. apply Hm, list_elem_of_lookup.
      exists i. rewrite list_lookup_fmap. by apply Hidx.
    + apply map_inv_append; [done..|]. intros ty. rewrite mapped_snoc_kept by done.
      destruct (mapped_condition mappings T cs ty); [done|].
      destruct (decide (c_type c = ty)) as [<-|]; [by rewrite decide_True|].
      by rewrite decide_False by naive_solver.
Qed.

Lemma map_conditions_inv mappings cs :
  map_inv mappings (mapped_types mappings cs) cs
    (foldl (map_condition mappings (mapped_types mappings cs)) ([], ∅) cs).
Proof.
  assert (∀ pre, pre `prefix_of` cs →
    map_inv mappings (mapped_types mappings cs) pre
      (foldl (map_condition mappings (mapped_types mappings cs)) ([], ∅) pre)) as Hgen; [|by apply Hgen].
  intros pre. induction pre as [|c pre IH] using rev_ind; intros [post Hpre].
  - split; cbn.
    + intros ty i. by rewrite lookup_empty.
    + intros ty. unfold mapped_condition. cbn. by destruct (decide _).
  - rewrite foldl_snoc. apply map_condition_inv.
    + apply IH. exists (c :: post). by rewrite Hpre, <-app_assoc.
    + intros t Ht. unfold mapped_types. apply elem_of_list_to_set, list_elem_of_omap.
      exists c. split; [|done]. rewrite Hpre. apply elem_of_app. left. apply elem_of_app. right. left.
Qed.

Lemma map_conditions_nodup mappings cs : NoDup (c_type <$> map_conditions mappings cs).
Proof. eapply index_nodup. exact (mi_index _ _ _ _ (map_conditions_inv mappings cs)). Qed.

Lemma map_conditions_find mappings cs ty :
  find_type ty (map_conditions mappings cs) =
    match last_mapped mappings ty cs with Some c => Some c | None => first_kept mappings ty cs end.
Proof.
  pose proof (mi_find _ _ _ _ (map_conditions_inv mappings cs) ty) as Hfind.
  fold (map_conditions mappings cs) in Hfind. rewrite Hfind. unfold mapped_condition.
  destruct (last_mapped mappings ty cs) eqn:Hlast; [done|]. rewrite decide_False; [done|].
  unfold mapped_types. intros (c & Hc & Hty)%elem_of_list_to_set%list_elem_of_omap.
  unfold last_mapped in Hlast. apply fmap_None, last_None in Hlast.
  assert (c ∈ filter (λ c, mappings !! c_type c = Some ty) cs) as Hin by (by apply list_elem_of_filter).
  rewrite Hlast in Hin. by apply elem_of_nil in Hin.
Qed.

(** Renaming condition types yields at most one condition per type: for each type the last
    condition renamed to it, and only when there is none the first condition that already had it. *)
Theorem withConditionTypeMapping_unique st mappings :
  NoDup (c_type <$> StatusConditions (withConditionTypeMapping st mappings)) ∧
  ∀ ty, find_type ty (StatusConditions (withConditionTypeMapping st mappings)) =
    match last_mapped mappings ty (StatusConditions st) with
    | Some c => Some c
    | None => first_kept mappings ty (StatusConditions st)
    end.
Proof. split; [apply map_conditions_nodup|apply map_conditions_find]. Qed.

(** *** Lists whose renamed types are distinct are renamed one by one *)

Definition rename_type (mappings : gmap string string) (ty : string) : string := default ty (mappings !! ty).
Definition rename (mappings : gmap string string) (c : Condition) : Condition :=
  with_type (rename_type mappings (c_type c)) c.

Lemma with_type_id c : with_type (c_type c) c = c.
Proof. by destruct c. Qed.

Lemma rename_types mappings (cs : list Condition) :
  c_type <$> (rename mappings <$> cs) = rename_type mappings <$> (c_type <$> cs).
Proof. by rewrite <-!list_fmap_compose. Qed.

Lemma map_conditions_rename mappings (cs : list Condition) :
  NoDup (c_type <$> (rename mappings <$> cs)) → map_conditions mappings cs = rename mappings <$> cs.
Proof.
  intros Hnd. unfold map_conditions. set (T := mapped_types mappings cs).
  assert (∀ pre, pre `prefix_of` cs →
    map_inv mappings T pre (foldl (map_condition mappings T) ([], ∅) pre) ∧
    (foldl (map_condition mappings T) ([], ∅) pre).1 = rename mappings <$> pre) as Hgen;
    [|by apply Hgen].
  intros pre. induction pre as [|c pre IH] using rev_ind; intros [post Hpre].
  { split; [|done]. split; cbn; [intros ty i; by rewrite lookup_empty|].
    intros ty. unfold mapped_condition. cbn. by destruct (decide _). }
  destruct IH as [Hinv Heq]; [exists (c :: post); by rewrite Hpre, <-app_assoc|].
  assert (c ∈ cs) as Hc by (rewrite Hpre; apply elem_of_app; left; apply elem_of_app; right; left).
  assert (∀ t, mappings !! c_type c = Some t → t ∈ T) as HT.
  { intros t Ht. apply elem_of_list_to_set, list_elem_of_omap. by exists c. }
  rewrite foldl_snoc. split; [by apply map_condition_inv|]. rewrite fmap_app, <-Heq. cbn [fmap list_fmap].
  set (acc := foldl _ _ pre) in *.
  assert (acc.2 !! rename_type mappings (c_type c) = None) as Hfresh.
  { apply eq_None_not_Some. intros [i Hi]. apply (mi_index _ _ _ _ Hinv) in Hi.
    rewrite Heq in Hi. rewrite Hpre, !fmap_app in Hnd. apply NoDup_app in Hnd as [Hnd _].
    apply NoDup_app in Hnd as (_ & Hnd & _). apply (Hnd (rename_type mappings (c_type c))).
    - apply list_elem_of_lookup. exists i. by rewrite list_lookup_fmap.
    - by left. }
  unfold map_condition, rename, rename_type in *. destruct (mappings !! c_type c) as [t|] eqn:Ht.
  - rewrite (bool_decide_true (is_Some _)) by eauto. cbn in *. by rewrite Hfresh.
  - rewrite (bool_decide_false (is_Some _)) by (intros []; congruence). cbn in *.
    rewrite with_type_id, Hfresh. rewrite bool_decide_false; [done|].
    intros (c0 & Hc0 & Ht0)%elem_of_list_to_set%list_elem_of_omap.
    rewrite <-list_fmap_compose in Hnd.
    assert (c = c0) as ->; [|congruence].
    eapply NoDup_fmap_inj; [exact Hnd|done..|]. cbn. by rewrite Ht, Ht0.
Qed.

Lemma rename_back ty : to_v3_types !! ty = None → rename_type to_v3_types (rename_type to_v2_types ty) = ty.
Proof.
  unfold rename_type. intros Hn. destruct (to_v2_types !! ty) as [t|] eqn:Ht; cbn [from_option id]; [|by rewrite Hn].
  apply elem_of_list_to_map_2 in Ht. rewrite !elem_of_cons, elem_of_nil in Ht.
  by destruct Ht as [[= -> ->]|[[= -> ->]|[[= -> ->]|[]]]].
Qed.

(** Conditions of stored objects: one per type, none under a v2 name. *)
Definition canonical_conditions (cs : list Condition) : Prop :=
  NoDup (c_type <$> cs) ∧ Forall (λ c, to_v3_types !! c_type c = None) cs.

Lemma rename_conditions_back (cs : list Condition) :
  canonical_conditions cs → rename to_v3_types <$> (rename to_v2_types <$> cs) = cs.
Proof.
  intros [_ Hcs]. rewrite <-list_fmap_compose. induction Hcs as [|c cs Hc Hcs IH]; [done|].
  cbn. f_equal; [|done]. unfold rename. cbn. rewrite rename_back by done. by destruct c.
Qed.

Lemma map_conditions_back cs :
  canonical_conditions cs → map_conditions to_v3_types (map_conditions to_v2_types cs) = cs.
Proof.
  intros Hcs. pose proof (rename_conditions_back cs Hcs) as Hback. destruct Hcs as [Hnd Hcs].
  assert (NoDup (c_type <$> (rename to_v3_types <$> (rename to_v2_types <$> cs)))) as Hnd3 by (by rewrite Hback).
  rewrite (map_conditions_rename to_v2_types).
  - by rewrite (map_conditions_rename to_v3_types), Hback.
  - rewrite rename_types in Hnd3. by eapply NoDup_fmap_1.
Qed.


Lemma target_not_source ty t : to_v3_types !! ty = Some t → to_v3_types !! t = None.
Proof.
  intros Ht. apply elem_of_list_to_map_2 in Ht. rewrite !elem_of_cons, elem_of_nil in Ht.
  by destruct Ht as [[= -> ->]|[[= -> ->]|[[= -> ->]|[]]]].
Qed.

Lemma map_conditions_canonical cs : canonical_conditions (map_conditions to_v3_types cs).
Proof.
  split; [apply map_conditions_nodup|]. apply Forall_forall. intros c Hc.
  destruct (find_type (c_type c) (map_conditions to_v3_types cs)) as [x|] eqn:Hx.
  - rewrite map_conditions_find in Hx.
    destruct (last_mapped to_v3_types (c_type c) cs) as [y|] eqn:Hlast.
    + unfold last_mapped in Hlast. apply fmap_Some in Hlast as (z & Hz & _).
      apply last_Some_elem_of, list_elem_of_filter in Hz as [Hz _]. by eapply target_not_source.
    + unfold first_kept in Hx. apply head_Some_elem_of, list_elem_of_filter in Hx as [[Hn Heq] _].
      by rewrite Heq in Hn.
  - apply find_type_None in Hx. exfalso. apply Hx, list_elem_of_fmap. by exists c.
Qed.

(** ** Annotations *)

Lemma ann_get_delete a k k' : ann_get (ann_delete a k) k' = if decide (k = k') then None else ann_get a k'.
Proof. destruct a as [m|]; cbn; [apply lookup_delete|by case_decide]. Qed.

Lemma ann_get_set a k v k' : ann_get (ann_set a k v) k' = if decide (k = k') then Some v else ann_get a k'.
Proof.
  unfold ann_set. cbn. rewrite lookup_insert. case_decide; [done|].
  by destruct a; cbn; [|rewrite lookup_empty].
Qed.

Lemma ann_get_nil_if_empty a k : ann_get (ann_nil_if_empty a) k = ann_get a k.
Proof.
  unfold ann_nil_if_empty. case_decide as He; [|done].
  destruct a as [m|]; cbn in *; [by rewrite He, lookup_empty|done].
Qed.

Lemma ann_nil_if_empty_ne a : ann_nil_if_empty a ≠ Some ∅.
Proof. unfold ann_nil_if_empty. case_decide as He; [done|]. by intros ->. Qed.

Lemma ann_set_ne a k v : ann_set a k v ≠ Some ∅.
Proof. unfold ann_set. intros [= He]. by apply insert_non_empty in He. Qed.

Lemma ann_delete_id a k : ann_get a k = None → ann_delete a k = a.
Proof. destruct a as [m|]; cbn; [|done]. intros Hk. by rewrite delete_id. Qed.

Lemma ann_ext a b : a ≠ Some ∅ → b ≠ Some ∅ → (∀ k, ann_get a k = ann_get b k) → a = b.
Proof.
  intros Ha Hb Hk. destruct a as [m|], b as [m'|]; cbn in *.
  - f_equal. by apply map_eq.
  - destruct Ha. f_equal. by apply map_empty.
  - destruct Hb. f_equal. by apply map_empty.
  - done.
Qed.

#[export] Hint Rewrite ann_get_delete ann_get_set ann_get_nil_if_empty : annotations.

(** Solves lookups of annotations whose keys are known. *)
Ltac ann_lookup := autorewrite with annotations; repeat (case_decide; try done); try done.

(** ** Stored objects *)

(** [json.Unmarshal] undoes [json.Marshal], which does not fail, on states whose strings are
    UTF-8 ([json.Marshal] replaces invalid bytes), and [json.Unmarshal] yields UTF-8. *)
Definition state_utf8 (s : kserveV3State) : bool :=
  match ks_ConfidentialContainers s with
  | Some cc => utf8_valid (LUKSResourceID cc) && utf8_valid (InitData cc)
  | None => true
  end.

Class KserveV3StateJSONLaws `{KserveV3StateJSON} : Prop := {
  Unmarshal_Marshal s : state_utf8 s = true → ∃ text, Marshal s = Ok text ∧ Unmarshal text = Ok s;
  Unmarshal_utf8 text s : Unmarshal text = Ok s → state_utf8 s = true;
}.

(** The MaaS marker of a stored object is the one conversion writes, and the object says what
    the legacy state means there. *)
Definition canonical_maas (d : V3.DataScienceCluster) : Prop :=
  match ann_get (V3.anns d) V3.MaaSV2StateAnnotation with
  | None => V3.MaaS d = Managed ∨ V3.MaaS d = Removed
  | Some val =>
      val = V3.legacyMaaSManaged ∧
      (if String.eqb (V3.ManagementState (V3.Kserve (V3.spec d))) Managed
       then V3.MaaS d = Managed ∧ ag_ManagementState (V3.AIGateway (V3.spec d)) ≠ ""
       else V3.MaaS d = Removed)
  end.

Definition canonical_kserve (k : V3.DSCKserve) : Prop :=
  (V3.ModelExpress k = "" ∨ V3.ModelExpress k = Managed) ∧
  (V3.AuditLoggingProfile k = "" ∨ V3.AuditLoggingProfile k = AuditProfileMetadata) ∧
  match V3.ConfidentialContainers k with
  | Some cc => validate_cc cc = None ∧ utf8_valid (LUKSResourceID cc) = true ∧ utf8_valid (InitData cc) = true
  | None => True
  end.

(** What is asked of a stored object: KServe settings that the schema enumerates and
    [Conversion.validate] accepts, one condition per type and none under a v2 name, no marker
    that belongs to v2 objects, and no MaaS marker but the one that conversion and admission
    write. *)
Definition storable_kserve (k : V3.DSCKserve) : Prop :=
  (V3.ModelExpress k = "" ∨ V3.ModelExpress k = Managed ∨ V3.ModelExpress k = Removed) ∧
  (V3.AuditLoggingProfile k = "" ∨ V3.AuditLoggingProfile k = AuditProfileMetadata ∨
   V3.AuditLoggingProfile k = AuditProfileRemoved) ∧
  match V3.ConfidentialContainers k with
  | Some cc => validate_cc cc = None ∧ utf8_valid (LUKSResourceID cc) = true ∧ utf8_valid (InitData cc) = true
  | None => True
  end.

Record storable (d : V3.DataScienceCluster) : Prop := Storable {
  sb_conditions : canonical_conditions (StatusConditions (V3.st_Status (V3.status d)));
  sb_annotations : V3.anns d ≠ Some ∅;
  sb_ModelExpress : ann_get (V3.anns d) ModelExpressV3StateAnnotation = None;
  sb_KserveState : ann_get (V3.anns d) KserveV3StateAnnotation = None;
  sb_kserve : storable_kserve (V3.Kserve (V3.spec d));
  sb_maas : from_option (eq V3.legacyMaaSManaged) True (ann_get (V3.anns d) V3.MaaSV2StateAnnotation);
}.

(** What the round trip makes of the settings that do not survive it: ModelExpress and the
    audit profile come back unset where they were [Removed]; MaaS comes back [Managed] or
    [Removed], and under the legacy marker it follows KServe, which then also decides an
    unset gateway. *)
Definition settled_state (k : V3.DSCKserve) : kserveV3State :=
  MkKserveV3State (V3.ConfidentialContainers k)
    (if String.eqb (V3.AuditLoggingProfile k) AuditProfileRemoved then "" else V3.AuditLoggingProfile k).

Definition settled_kserve (k : V3.DSCKserve) : V3.DSCKserve :=
  set_kserve_state (settled_state k)
    (set_ModelExpress (if String.eqb (V3.ModelExpress k) Managed then Managed else "") k).

Definition settled_gateway (legacy : bool) (kserve : string) (g : DSCAIGateway) : DSCAIGateway :=
  let effective := legacy && String.eqb kserve Managed in
  MkAIGateway
    (if effective && negb (nonempty_str (ag_ManagementState g)) then Managed else ag_ManagementState g)
    (if effective || negb legacy && String.eqb (ag_ModelsAsAService g) Managed then Managed else Removed)
    (ag_BatchGateway g) (ag_AIGrid g).

Definition has_legacy_marker (d : V3.DataScienceCluster) : bool :=
  bool_decide (is_Some (ann_get (V3.anns d) V3.MaaSV2StateAnnotation)).

Definition settled (d : V3.DataScienceCluster) : V3.DataScienceCluster :=
  V3.set_spec (λ c, V3.set_AIGateway (settled_gateway (has_legacy_marker d) (V3.ManagementState (V3.Kserve c)))
                      (V3.set_Kserve settled_kserve c)) d.

(** An object that the round trip does not change. *)
Record canonical (d : V3.DataScienceCluster) : Prop := Canonical {
  ca_conditions : canonical_conditions (StatusConditions (V3.st_Status (V3.status d)));
  ca_annotations : V3.anns d ≠ Some ∅;
  ca_ModelExpress : ann_get (V3.anns d) ModelExpressV3StateAnnotation = None;
  ca_KserveState : ann_get (V3.anns d) KserveV3StateAnnotation = None;
  ca_kserve : canonical_kserve (V3.Kserve (V3.spec d));
  ca_maas : canonical_maas d;
}.

(** ** From v3 to v2 and back *)

Definition strip_kserve (k : V3.DSCKserve) : V3.DSCKserve :=
  set_kserve_state (MkKserveV3State None "") (set_ModelExpress "" k).

Lemma status_back s :
  canonical_conditions (StatusConditions (V3.st_Status s)) → status_to_v3 (status_to_v2 s) = s.
Proof.
  intros Hcs. destruct s as [[ph og cs] ro em comps rel]. unfold status_to_v3, status_to_v2. cbn in *.
  f_equal.
  - unfold withConditionTypeMapping. cbn. by rewrite map_conditions_back.
  - destruct comps as [????????? [? [[]|]] [? ?] ??????????]; done.
Qed.

Lemma spec_back c (legacy : bool) :
  let v := if legacy then V2.set_maas Managed Removed (components_to_v2 c) else components_to_v2 c in
  V3.set_AIGateway (migrate_maas v) (components_to_v3 v) =
    V3.set_AIGateway (settled_gateway legacy (V3.ManagementState (V3.Kserve c))) (V3.set_Kserve strip_kserve c).
Proof.
  destruct c as [[? ?] ?? [????? me ? audit ??] [? ?] ?? [? ?] [? ?] ???? [g m ? ?] ??].
  unfold V3.set_AIGateway, V3.set_Kserve, migrate_maas, settled_gateway.
  destruct legacy; cbn; rewrite ?andb_false_r, ?andb_true_r, ?orb_false_r.
  - destruct (String.eqb _ Managed); by destruct g.
  - by destruct g.
Qed.

Lemma validate_kserve_state k :
  storable_kserve k →
  negb (bool_decide (ks_ConfidentialContainers (kserve_state k) = None)) ||
    nonempty_str (ks_AuditLoggingProfile (kserve_state k)) = true →
  validate (kserve_state k) = None ∧ state_utf8 (kserve_state k) = true.
Proof.
  intros (_ & Haudit & Hcc). unfold validate, state_utf8, kserve_state. cbn.
  destruct (V3.ConfidentialContainers k) as [cc|].
  - destruct Hcc as (-> & -> & ->). rewrite bool_decide_false by done. cbn.
    by destruct Haudit as [->|[-> | ->]].
  - by destruct Haudit as [->|[-> | ->]].
Qed.

Lemma kserve_state_settled k : kserve_state k = settled_state k.
Proof.
  unfold kserve_state, settled_state, nonempty_str. f_equal.
  destruct (String.eqb_spec (V3.AuditLoggingProfile k) "") as [->|], (String.eqb_spec (V3.AuditLoggingProfile k) AuditProfileRemoved); done.
Qed.

Lemma canonical_storable d : canonical d → storable d.
Proof.
  intros [? ? ? ? (? & ? & ?) Hmaas]. split; [done..| |].
  - split; [|split; [|done]]; tauto.
  - unfold canonical_maas in Hmaas. revert Hmaas. destruct (ann_get (V3.anns d) V3.MaaSV2StateAnnotation) as [val|]; cbn.
    + intros [Hv _]. by rewrite Hv.
    + done.
Qed.

Lemma canonical_settled d : canonical d → settled d = d.
Proof.
  intros [_ _ _ _ (Hme & Hau & _) Hmaas]. unfold canonical_maas, settled, has_legacy_marker, V3.MaaS, V3.anns in *.
  destruct d as [[rest a] c st]. cbn -[ann_get] in *.
  unfold V3.set_spec. cbn -[ann_get]. f_equal.
  destruct c as [??? [ks ?? cc ? me ? au ??] ????????? [g m ? ?] ??]. cbn -[ann_get] in *.
  unfold V3.set_AIGateway, V3.set_Kserve, settled_kserve, set_kserve_state, set_ModelExpress, settled_state. cbn -[ann_get].
  f_equal.
  - f_equal; [by destruct Hme as [-> | ->]|by destruct Hau as [-> | ->]].
  - unfold settled_gateway. revert Hmaas. destruct (ann_get a _); cbn.
    + intros [_ Hm]. revert Hm. destruct (String.eqb ks Managed); cbn; [|by intros ->].
      intros [-> Hg]. by destruct g.
    + by intros [-> | ->].
Qed.

(** A second round trip changes nothing more. *)
Lemma settled_idemp d : settled (settled d) = settled d.
Proof.
  destruct d as [[rest a] c st]. unfold settled, V3.set_spec, has_legacy_marker, V3.anns. cbn -[ann_get]. f_equal.
  destruct c as [??? [ks ?? cc ? me ? au ??] ????????? [g m ? ?] ??].
  unfold V3.set_AIGateway, V3.set_Kserve, settled_kserve, set_kserve_state, set_ModelExpress, settled_state. cbn -[ann_get]. f_equal.
  - f_equal.
    + by destruct (String.eqb me Managed).
    + destruct (String.eqb au AuditProfileRemoved) eqn:Hau; [done|by rewrite Hau].
  - unfold settled_gateway. cbn. destruct (bool_decide _), (String.eqb ks Managed); cbn; try by destruct g.
    + by destruct (String.eqb m Managed).
    + by destruct (String.eqb m Managed).
Qed.

Lemma read_ModelExpress_ok dst (me : bool) :
  ann_get (V3.anns dst) ModelExpressV3StateAnnotation = (if me then Some modelExpressManaged else None) →
  read_ModelExpress dst =
    Ok (if me then drop_marker ModelExpressV3StateAnnotation
                     (V3.set_spec (V3.set_Kserve (set_ModelExpress Managed)) dst) else dst).
Proof. intros Hme. unfold read_ModelExpress. rewrite Hme. by destruct me. Qed.

Section roundtrip.
Context `{KserveV3StateJSON}.

Lemma read_kserve_state_ok dst (marker : option (string * kserveV3State)) :
  ann_get (V3.anns dst) KserveV3StateAnnotation = fst <$> marker →
  (∀ text s, marker = Some (text, s) → Unmarshal text = Ok s ∧ validate s = None) →
  read_kserve_state dst =
    Ok (match marker with
        | Some (_, s) => drop_marker KserveV3StateAnnotation
                           (V3.set_spec (V3.set_Kserve (set_kserve_state s)) dst)
        | None => dst
        end).
Proof.
  intros Hm Hs. unfold read_kserve_state. rewrite Hm. destruct marker as [[text s]|]; [|done].
  destruct (Hs text s) as [Hu Hv]; [done|]. cbn. by rewrite Hu, Hv.
Qed.

(** What the KServe marker of a v2 view is. *)
Definition kserve_marker (k : V3.DSCKserve) (text : string) : option (string * kserveV3State) :=
  let s := kserve_state k in
  if negb (bool_decide (ks_ConfidentialContainers s = None)) || nonempty_str (ks_AuditLoggingProfile s)
  then Some (text, s) else None.

Lemma write_kserve_state_ok `{!KserveV3StateJSONLaws} src a :
  storable_kserve (V3.Kserve (V3.spec src)) →
  ∃ text,
    write_kserve_state src a =
      Ok (match kserve_marker (V3.Kserve (V3.spec src)) text with
          | Some (text, _) => ann_set (ann_delete a KserveV3StateAnnotation) KserveV3StateAnnotation text
          | None => ann_delete a KserveV3StateAnnotation
          end) ∧
    ∀ t s, kserve_marker (V3.Kserve (V3.spec src)) text = Some (t, s) → Unmarshal t = Ok s ∧ validate s = None.
Proof.
  intros Hk. unfold write_kserve_state, kserve_marker. case_match eqn:Hneed; [|by exists ""].
  apply validate_kserve_state in Hneed as [Hv Hutf]; [|done].
  destruct (Unmarshal_Marshal _ Hutf) as (text & Hm & Hu). exists text. rewrite Hm.
  split; [done|]. by intros t s [= <- <-].
Qed.

(** The three markers on the way from the v3 annotations [a] through the v2 view and back. *)
Definition view_annotations (me : bool) (kserve : option string) (a : annotations) : annotations :=
  let a := ann_delete (ann_delete a V3.MaaSV2StateAnnotation) ModelExpressV3StateAnnotation in
  let a := if me then ann_set a ModelExpressV3StateAnnotation modelExpressManaged else a in
  let a := ann_delete a KserveV3StateAnnotation in
  ann_nil_if_empty (match kserve with Some text => ann_set a KserveV3StateAnnotation text | None => a end).

Definition preserve_annotations (legacy : bool) (a : annotations) : annotations :=
  let a := ann_delete a V3.MaaSV2StateAnnotation in
  if legacy then ann_set a V3.MaaSV2StateAnnotation V3.legacyMaaSManaged else a.

Definition drop_annotation (b : bool) (key : string) (a : annotations) : annotations :=
  if b then ann_nil_if_empty (ann_delete a key) else a.

Lemma drop_annotation_ne b key a : a ≠ Some ∅ → drop_annotation b key a ≠ Some ∅.
Proof. destruct b; cbn; [intros _; apply ann_nil_if_empty_ne|done]. Qed.

Lemma preserve_annotations_ne legacy a :
  a ≠ Some ∅ → ann_get a V3.MaaSV2StateAnnotation = None → preserve_annotations legacy a ≠ Some ∅.
Proof.
  intros Ha Hm. unfold preserve_annotations. destruct legacy; [apply ann_set_ne|].
  by rewrite ann_delete_id.
Qed.

Lemma view_get_maas me kserve a : ann_get (view_annotations me kserve a) V3.MaaSV2StateAnnotation = None.
Proof. unfold view_annotations. destruct me, kserve; ann_lookup. Qed.

Lemma preserve_get legacy a k :
  k ≠ V3.MaaSV2StateAnnotation → ann_get (preserve_annotations legacy a) k = ann_get a k.
Proof. intros Hk. unfold preserve_annotations. destruct legacy; ann_lookup; congruence. Qed.

Lemma view_get_ModelExpress me kserve a :
  ann_get (view_annotations me kserve a) ModelExpressV3StateAnnotation =
    if me then Some modelExpressManaged else None.
Proof. unfold view_annotations. destruct me, kserve; ann_lookup. Qed.

Lemma view_get_KserveState me kserve a :
  ann_get (view_annotations me kserve a) KserveV3StateAnnotation = kserve.
Proof. unfold view_annotations. destruct me, kserve; ann_lookup. Qed.

Lemma annotations_back (legacy me : bool) kserve a :
  a ≠ Some ∅ →
  ann_get a V3.MaaSV2StateAnnotation = (if legacy then Some V3.legacyMaaSManaged else None) →
  ann_get a ModelExpressV3StateAnnotation = None → ann_get a KserveV3StateAnnotation = None →
  drop_annotation (bool_decide (is_Some kserve)) KserveV3StateAnnotation
    (drop_annotation me ModelExpressV3StateAnnotation
       (preserve_annotations legacy (view_annotations me kserve a))) = a.
Proof.
  intros Ha Hmaas Hme Hks. apply ann_ext; [|done|].
  - apply drop_annotation_ne, drop_annotation_ne, preserve_annotations_ne;
      [apply ann_nil_if_empty_ne|apply view_get_maas].
  - intros k. unfold drop_annotation, preserve_annotations, view_annotations.
    destruct legacy, me, kserve; cbn -[ann_get ann_set ann_delete ann_nil_if_empty];
      autorewrite with annotations; repeat (case_decide; try congruence); congruence.
Qed.

Lemma storable_read_maas d :
  storable d →
  V3.ReadMaaSV2State d = Ok (has_legacy_marker d) ∧
  ann_get (V3.anns d) V3.MaaSV2StateAnnotation = (if has_legacy_marker d then Some V3.legacyMaaSManaged else None).
Proof.
  intros [_ _ _ _ _ Hm]. unfold V3.ReadMaaSV2State, has_legacy_marker. by destruct (ann_get _ _) as [val|]; [cbn in Hm; subst val|].
Qed.

Definition view_of (d : V3.DataScienceCluster) (legacy : bool) (kserve : option string)
    : V2.DataScienceCluster :=
  let v := components_to_v2 (V3.spec d) in
  V2.MkDSC
    (MkMeta (MetaRest (V3.meta d))
       (view_annotations (String.eqb (V3.ModelExpress (V3.Kserve (V3.spec d))) Managed) kserve (V3.anns d)))
    (if legacy then V2.set_maas Managed Removed v else v) (status_to_v2 (V3.status d)).

Lemma ConvertFrom_view `{!KserveV3StateJSONLaws} d legacy :
  storable_kserve (V3.Kserve (V3.spec d)) → V3.ReadMaaSV2State d = Ok legacy →
  ∃ text,
    ConvertFrom d = Ok (view_of d legacy (fst <$> kserve_marker (V3.Kserve (V3.spec d)) text)) ∧
    ∀ t s, kserve_marker (V3.Kserve (V3.spec d)) text = Some (t, s) → Unmarshal t = Ok s ∧ validate s = None.
Proof.
  intros Hk Hlegacy. unfold ConvertFrom. rewrite Hlegacy. cbn [mbind result_bind].
  destruct (write_kserve_state_ok d
    (write_ModelExpress d (ann_delete (V2.anns (if legacy
        then V2.set_spec (V2.set_maas Managed Removed)
          (V2.MkDSC (V3.meta d) (components_to_v2 (V3.spec d)) (status_to_v2 (V3.status d)))
        else V2.MkDSC (V3.meta d) (components_to_v2 (V3.spec d)) (status_to_v2 (V3.status d))))
        V3.MaaSV2StateAnnotation)) Hk) as (text & Hw & Hmark).
  exists text. split; [|done]. rewrite Hw. cbn [mbind result_bind]. do 2 f_equal.
  unfold view_of, V2.set_annotations, view_annotations, write_ModelExpress.
  destruct (kserve_marker _ _) as [[t s]|]; by destruct legacy.
Qed.

(** The object [ConvertTo] builds from a view before it reads the markers. *)
Lemma ConvertTo_view d legacy kserve :
  canonical_conditions (StatusConditions (V3.st_Status (V3.status d))) →
  let me := String.eqb (V3.ModelExpress (V3.Kserve (V3.spec d))) Managed in
  ConvertTo (view_of d legacy kserve) =
    (dst ← read_ModelExpress
             (V3.MkDSC (MkMeta (MetaRest (V3.meta d))
                          (preserve_annotations legacy (view_annotations me kserve (V3.anns d))))
                (V3.set_AIGateway (settled_gateway legacy (V3.ManagementState (V3.Kserve (V3.spec d))))
                   (V3.set_Kserve strip_kserve (V3.spec d))) (V3.status d));
     read_kserve_state dst).
Proof.
  intros Hd me. unfold ConvertTo. f_equal. f_equal.
  assert (∀ canonical legacyState dst,
    String.eqb canonical Managed || negb (String.eqb legacyState Managed) = negb legacy →
    V3.PreserveMaaSV2State canonical legacyState dst =
      V3.set_annotations (preserve_annotations legacy (V3.anns dst)) dst) as Hpreserve.
  { intros ca le dst Hb. unfold V3.PreserveMaaSV2State, preserve_annotations. rewrite Hb. by destruct legacy. }
  rewrite Hpreserve by (by destruct legacy; [|apply orb_true_r]).
  pose proof (spec_back (V3.spec d) legacy) as Hspec. cbn zeta in Hspec.
  pose proof (status_back (V3.status d) Hd) as Hstatus.
  unfold V3.set_annotations, V3.set_spec, view_of. cbn [V2.meta V2.spec V2.status V3.meta V3.spec V3.status].
  by rewrite Hspec, Hstatus.
Qed.

(** The KServe settings between the two markers. *)
Definition half_settled (d : V3.DataScienceCluster) (rest : value) (a : annotations) : V3.DataScienceCluster :=
  V3.MkDSC (MkMeta rest a)
    (V3.set_Kserve (set_kserve_state (MkKserveV3State None "")) (V3.spec (settled d))) (V3.status d).

Lemma set_ModelExpress_back d rest a :
  let me := String.eqb (V3.ModelExpress (V3.Kserve (V3.spec d))) Managed in
  let dst := V3.MkDSC (MkMeta rest a)
    (V3.set_AIGateway (settled_gateway (has_legacy_marker d) (V3.ManagementState (V3.Kserve (V3.spec d))))
       (V3.set_Kserve strip_kserve (V3.spec d))) (V3.status d) in
  (if me then drop_marker ModelExpressV3StateAnnotation
                (V3.set_spec (V3.set_Kserve (set_ModelExpress Managed)) dst) else dst) =
    half_settled d rest (drop_annotation me ModelExpressV3StateAnnotation a).
Proof.
  unfold half_settled, settled, V3.set_spec, V3.set_Kserve, V3.set_AIGateway, settled_kserve, strip_kserve,
    set_kserve_state, set_ModelExpress.
  destruct d as [m c st]. destruct c as [??? [????? me ????] ????????????]. cbn -[ann_get].
  by destruct (String.eqb me Managed).
Qed.

Lemma kserve_back d rest a text :
  let marker := kserve_marker (V3.Kserve (V3.spec d)) text in
  match marker with
  | Some (_, s) => drop_marker KserveV3StateAnnotation
                     (V3.set_spec (V3.set_Kserve (set_kserve_state s)) (half_settled d rest a))
  | None => half_settled d rest a
  end =
    V3.MkDSC (MkMeta rest (drop_annotation (bool_decide (is_Some (fst <$> marker))) KserveV3StateAnnotation a))
      (V3.spec (settled d)) (V3.status d).
Proof.
  unfold half_settled, settled, V3.set_spec, V3.set_Kserve, V3.set_AIGateway, set_kserve_state, set_ModelExpress.
  destruct d as [m c st]. destruct c as [??? [??? cc ??? audit ??] ????????????].
  unfold kserve_marker, settled_kserve. rewrite !kserve_state_settled.
  unfold set_kserve_state, set_ModelExpress, settled_state. cbn -[ann_get]. destruct cc as [cc|]; [done|]. cbn -[ann_get].
  destruct (String.eqb audit AuditProfileRemoved); [done|]. unfold nonempty_str.
  by destruct (String.eqb_spec audit "") as [->|].
Qed.

(** C12: what becomes of a stored v3 object that is read and written back unchanged in v2. For
    an object with one condition per type, none under a v2 name, no marker of v2 objects and
    no other MaaS marker than conversion writes, and with KServe settings the schema allows:
    the v2 view exists, and it converts back into the object with [settled] settings, the
    same in everything but these. ModelExpress and the audit profile are unset where they
    were [Removed], which is their default; MaaS is [Removed] where it was neither [Managed]
    nor [Removed]; under the marker of a legacy setting MaaS is [Managed] exactly if KServe
    is, and an unset gateway is then [Managed], which can change what a v3 user has set since.
    Canonical objects survive unchanged, and a second round trip changes nothing more; that
    conversion from v2 stores canonical objects is [ConvertTo_canonical]. *)
Theorem v3_roundtrip `{!KserveV3StateJSONLaws} d :
  storable d →
  (∃ v, ConvertFrom d = Ok v ∧ ConvertTo v = Ok (settled d)) ∧
  settled (settled d) = settled d ∧ (canonical d → settled d = d).
Proof.
  intros Hd. split; [|split; [apply settled_idemp|apply canonical_settled]].
  destruct (storable_read_maas d Hd) as [Hread Hann]. pose proof Hd as [Hcs Ha Hme Hks Hk _].
  destruct (ConvertFrom_view d _ Hk Hread) as (text & Hfrom & Hmark).
  eexists. split; [exact Hfrom|]. rewrite ConvertTo_view by done.
  set (kserve := fst <$> kserve_marker _ text). set (me := String.eqb _ Managed).
  rewrite (read_ModelExpress_ok _ me)
    by (unfold V3.anns; cbn [V3.meta Annotations]; rewrite preserve_get by done; apply view_get_ModelExpress).
  cbn [mbind result_bind]. unfold me at 1. rewrite set_ModelExpress_back. fold me.
  rewrite (read_kserve_state_ok _ (kserve_marker (V3.Kserve (V3.spec d)) text)); [| |done].
  - f_equal. rewrite kserve_back. fold kserve.
    rewrite (annotations_back (has_legacy_marker d) me kserve (V3.anns d)) by done. by destruct d as [[] ? ?].
  - unfold half_settled, V3.anns. cbn [V3.meta Annotations]. unfold drop_annotation. destruct me.
    + autorewrite with annotations. rewrite decide_False, preserve_get by done. apply view_get_KserveState.
    + rewrite preserve_get by done. apply view_get_KserveState.
Qed.

(** ** What conversion stores *)

Definition effective_maas (c : V2.Components) : bool :=
  String.eqb (V2.ManagementState (V2.Kserve c)) Managed && String.eqb (V2.ModelsAsService (V2.Kserve c)) Managed.

(** Whether the legacy state is what enables MaaS in the v2 object. *)
Definition legacy_maas (c : V2.Components) : bool :=
  negb (String.eqb (ag_ModelsAsAService (V2.AIGateway c)) Managed) &&
  String.eqb (V2.ModelsAsService (V2.Kserve c)) Managed.

Definition stored_base (v : V2.DataScienceCluster) : V3.DataScienceCluster :=
  V3.MkDSC (MkMeta (MetaRest (V2.meta v)) (preserve_annotations (legacy_maas (V2.spec v)) (V2.anns v)))
    (V3.set_AIGateway (migrate_maas (V2.spec v)) (components_to_v3 (V2.spec v))) (status_to_v3 (V2.status v)).

Lemma ConvertTo_base v : ConvertTo v = (dst ← read_ModelExpress (stored_base v); read_kserve_state dst).
Proof.
  unfold ConvertTo, stored_base, V3.PreserveMaaSV2State, preserve_annotations, legacy_maas.
  destruct (String.eqb (ag_ModelsAsAService _) Managed), (String.eqb (V2.ModelsAsService _) Managed); done.
Qed.

(** The markers only change the KServe settings they carry and the annotations. *)
Record marker_change (d d' : V3.DataScienceCluster) : Prop := MarkerChange {
  mc_rest : MetaRest (V3.meta d') = MetaRest (V3.meta d);
  mc_status : V3.status d' = V3.status d;
  mc_spec : ∃ me cc audit,
    V3.spec d' = V3.set_Kserve (λ k, set_kserve_state (MkKserveV3State cc audit) (set_ModelExpress me k)) (V3.spec d);
  mc_maas : ann_get (V3.anns d') V3.MaaSV2StateAnnotation = ann_get (V3.anns d) V3.MaaSV2StateAnnotation;
  mc_ne : V3.anns d ≠ Some ∅ → V3.anns d' ≠ Some ∅;
}.

Lemma marker_change_refl d : marker_change d d.
Proof.
  split; [done..| |done|done]. destruct d as [m c st]. cbn.
  exists (V3.ModelExpress (V3.Kserve c)), (V3.ConfidentialContainers (V3.Kserve c)),
    (V3.AuditLoggingProfile (V3.Kserve c)). by destruct c as [??? [] ????????????].
Qed.

Lemma marker_change_trans d1 d2 d3 : marker_change d1 d2 → marker_change d2 d3 → marker_change d1 d3.
Proof.
  intros [? ? (me & cc & au & Hs) ? ?] [? ? (me' & cc' & au' & Hs') ? ?]. split; [congruence..| |congruence|auto].
  exists me', cc', au'. rewrite Hs', Hs. by destruct (V3.spec d1).
Qed.

Lemma drop_marker_change key f d :
  key ≠ V3.MaaSV2StateAnnotation →
  (∃ me cc audit, ∀ k, f k = set_kserve_state (MkKserveV3State (cc k) (audit k)) (set_ModelExpress (me k) k)) →
  marker_change d (drop_marker key (V3.set_spec (V3.set_Kserve f) d)).
Proof.
  intros Hkey (me & cc & audit & Hf). unfold drop_marker.
  split; cbn -[ann_get ann_nil_if_empty ann_delete].
  - done.
  - done.
  - exists (me (V3.Kserve (V3.spec d))), (cc (V3.Kserve (V3.spec d))), (audit (V3.Kserve (V3.spec d))).
    unfold V3.set_Kserve. by rewrite Hf.
  - unfold V3.anns. cbn [V3.meta Annotations]. autorewrite with annotations. by rewrite decide_False.
  - intros _. apply ann_nil_if_empty_ne.
Qed.

Lemma read_ModelExpress_change d d' :
  read_ModelExpress d = Ok d' →
  marker_change d d' ∧ ann_get (V3.anns d') ModelExpressV3StateAnnotation = None ∧
  ann_get (V3.anns d') KserveV3StateAnnotation = ann_get (V3.anns d) KserveV3StateAnnotation ∧
  (V3.ModelExpress (V3.Kserve (V3.spec d)) = "" → canonical_kserve (V3.Kserve (V3.spec d)) →
   canonical_kserve (V3.Kserve (V3.spec d'))).
Proof.
  unfold read_ModelExpress. destruct (ann_get _ _) as [val|] eqn:Hval.
  - destruct (negb _); [done|]. intros [= <-]. split; [|split; [|split]].
    + apply drop_marker_change; [done|]. exists (λ _, Managed), V3.ConfidentialContainers, V3.AuditLoggingProfile.
      by intros [].
    + unfold drop_marker, V3.anns. cbn [V3.meta V3.set_annotations Annotations]. ann_lookup.
    + unfold drop_marker, V3.anns. cbn [V3.meta V3.set_annotations Annotations]. ann_lookup.
    + intros _ (_ & Haudit & Hcc). split; [by right|done].
  - intros [= <-]. split; [apply marker_change_refl|done].
Qed.

Lemma validate_canonical `{!KserveV3StateJSONLaws} text s :
  Unmarshal text = Ok s → validate s = None → ks_AuditLoggingProfile s ≠ AuditProfileRemoved →
  (ks_AuditLoggingProfile s = "" ∨ ks_AuditLoggingProfile s = AuditProfileMetadata) ∧
  match ks_ConfidentialContainers s with
  | Some cc => validate_cc cc = None ∧ utf8_valid (LUKSResourceID cc) = true ∧ utf8_valid (InitData cc) = true
  | None => True
  end.
Proof.
  intros Hu Hv Hr. apply Unmarshal_utf8 in Hu. unfold validate, state_utf8 in *.
  destruct (_ && _) in Hv; [done|]. case_bool_decide as Hin; [cbn in Hv|done]. split.
  - rewrite !elem_of_cons, elem_of_nil in Hin. naive_solver.
  - destruct (ks_ConfidentialContainers s) as [cc|]; [|done]. by apply andb_true_iff in Hu.
Qed.

Lemma read_kserve_state_marker d d' : read_kserve_state d = Ok d' → marker_change d d'.
Proof.
  unfold read_kserve_state. destruct (ann_get _ KserveV3StateAnnotation) as [text|] eqn:Htext; intros Hok.
  - destruct (Unmarshal text) as [s|] eqn:Hu; [|done]. destruct (validate s) eqn:Hv; [done|].
    injection Hok as <-. apply drop_marker_change; [done|].
    exists V3.ModelExpress, (λ _, ks_ConfidentialContainers s), (λ _, ks_AuditLoggingProfile s). by intros [].
  - injection Hok as <-. apply marker_change_refl.
Qed.

Lemma read_kserve_state_change `{!KserveV3StateJSONLaws} d d' :
  read_kserve_state d = Ok d' →
  (∀ text s, ann_get (V3.anns d) KserveV3StateAnnotation = Some text → Unmarshal text = Ok s →
     ks_AuditLoggingProfile s ≠ AuditProfileRemoved) →
  ann_get (V3.anns d') KserveV3StateAnnotation = None ∧
  (ann_get (V3.anns d) ModelExpressV3StateAnnotation = None →
   ann_get (V3.anns d') ModelExpressV3StateAnnotation = None) ∧
  (canonical_kserve (V3.Kserve (V3.spec d)) → canonical_kserve (V3.Kserve (V3.spec d'))).
Proof.
  unfold read_kserve_state. destruct (ann_get _ KserveV3StateAnnotation) as [text|] eqn:Htext; intros Hok Hr;
    [|by injection Hok as <-].
  destruct (Unmarshal text) as [s|] eqn:Hu; [|done]. destruct (validate s) eqn:Hv; [done|].
  injection Hok as <-. pose proof (validate_canonical text s Hu Hv (Hr _ _ eq_refl Hu)) as [Haudit Hcc].
  unfold drop_marker, V3.anns. cbn [V3.meta V3.set_annotations Annotations]. split; [|split].
  - ann_lookup.
  - intros Hme. autorewrite with annotations. by case_decide.
  - intros (Hme & _ & _). by split.
Qed.

(** A v2 object as a client holds it: the MaaS marker is not shown in v2, an empty map of
    annotations is dropped, and a KServe marker does not record the default audit profile. *)
Record v2_view (v : V2.DataScienceCluster) : Prop := V2View {
  vv_annotations : V2.anns v ≠ Some ∅;
  vv_maas : ann_get (V2.anns v) V3.MaaSV2StateAnnotation = None;
  vv_kserve text s : ann_get (V2.anns v) KserveV3StateAnnotation = Some text → Unmarshal text = Ok s →
    ks_AuditLoggingProfile s ≠ AuditProfileRemoved;
}.

Lemma stored_base_maas v d :
  marker_change (stored_base v) d → canonical_maas d.
Proof.
  intros [_ _ (me & cc & audit & Hspec) Hann _]. unfold canonical_maas, V3.MaaS. rewrite Hann, Hspec.
  unfold stored_base, V3.anns. cbn -[ann_get]. unfold preserve_annotations, migrate_maas, legacy_maas.
  destruct (V2.spec v) as [??? [k ??? l ????] ??????????? [g m ? ?] ??]. cbn -[ann_get].
  destruct (String.eqb m Managed) eqn:Hm, (String.eqb l Managed) eqn:Hl;
    cbn -[ann_get]; autorewrite with annotations; rewrite ?decide_True by done; auto.
  - split; [done|]. destruct (String.eqb k Managed) eqn:Hk; cbn; [|done].
    split; [done|]. by destruct g.
  - rewrite andb_false_r. auto.
Qed.

(** What [ConvertTo] stores of a v2 object is a stored object in the sense of
    [v3_roundtrip], so later conversions change nothing: conditions are unique and under v3
    names, the markers of v2 views are consumed, carried settings are valid, and the MaaS
    marker is present exactly when the legacy field decides. *)
Theorem ConvertTo_canonical `{!KserveV3StateJSONLaws} v d :
  v2_view v → ConvertTo v = Ok d → canonical d.
Proof.
  intros [Hne Hm Hr]. rewrite ConvertTo_base.
  destruct (read_ModelExpress (stored_base v)) as [d1|] eqn:H1; [|done]. cbn [mbind result_bind]. intros H2.
  apply read_ModelExpress_change in H1 as (Hc1 & Hme1 & Hks1 & Hk1).
  pose proof (read_kserve_state_marker _ _ H2) as Hc2.
  apply read_kserve_state_change in H2 as (Hks2 & Hme2 & Hk2).
  2:{ intros text s Ht Hu. apply (Hr text s); [|done]. rewrite Hks1 in Ht.
      unfold stored_base, V3.anns in Ht. cbn [V3.meta Annotations] in Ht. by rewrite preserve_get in Ht. }
  pose proof (marker_change_trans _ _ _ Hc1 Hc2) as Hc. split.
  - rewrite (mc_status _ _ Hc). apply map_conditions_canonical.
  - apply (mc_ne _ _ Hc). apply preserve_annotations_ne; [exact Hne|exact Hm].
  - by apply Hme2.
  - done.
  - apply Hk2, Hk1; [done|]. cbn. unfold canonical_kserve. cbn. auto.
  - by eapply stored_base_maas.
Qed.

(** ** From v2 to v3 and back *)

(** What the trip makes of the components: retired ones are off, exactly one of the two MaaS
    fields may be Managed, and the gateway of a migrated MaaS is on. *)
Definition retired (c : V2.Components) : V2.Components :=
  let k := V2.Kserve c in
  let g := V2.AIGateway c in
  let canonical := String.eqb (ag_ModelsAsAService g) Managed in
  V2.MkComponents (V2.Dashboard c) (V2.Workbenches c) (V2.AIPipelines c)
    (V2.MkKserve (V2.ManagementState k) (V2.RawDeploymentServiceConfig k) (V2.OAuthProxy k) (V2.NIM k)
       (if legacy_maas c then Managed else Removed) Removed
       (V2.EnableLLMInferenceServiceTLS k) (V2.EnableLLMInferenceServiceConsoleDashboards k)
       (V2.ModelCache k))
    (V2.Kueue c) (V2.Ray c) (V2.TrustyAI c) (V2.ModelRegistry c) Removed (V2.FeastOperator c)
    Removed (V2.OGX c) (V2.MLflowOperator c) (V2.Trainer c) (V2.SparkOperator c)
    (MkAIGateway
       (if nonempty_str (ag_ManagementState g) then ag_ManagementState g
        else if effective_maas c then Managed else ag_ManagementState g)
       (if canonical then Managed else Removed) (ag_BatchGateway g) (ag_AIGrid g))
    (V2.MCPLifecycleOperator c) (V2.DatabaseService c).

Lemma marker_components me cc audit c :
  components_to_v2 (V3.set_Kserve (λ k, set_kserve_state (MkKserveV3State cc audit) (set_ModelExpress me k)) c)
    = components_to_v2 c.
Proof. by destruct c. Qed.

Lemma spec_forth c :
  let stored := components_to_v2 (V3.set_AIGateway (migrate_maas c) (components_to_v3 c)) in
  (if legacy_maas c then V2.set_maas Managed Removed stored else stored) = retired c.
Proof.
  unfold retired, legacy_maas, effective_maas, migrate_maas, V3.set_AIGateway.
  destruct c as [[? ?] ?? [k ??? l ????] ??? [? ?] ? [? ?] ????? [g m ? ?] ??]. cbn.
  destruct (String.eqb m Managed) eqn:Hm; cbn; [done|].
  destruct (String.eqb l Managed) eqn:Hl; cbn; [done|]. by rewrite andb_false_r.
Qed.

(** The status: retired operators are reported Removed, condition types are mapped twice. *)
Definition retired_status (s : V2.DataScienceClusterStatus) : V2.DataScienceClusterStatus :=
  let c := V2.st_Components s in
  V2.MkDSCStatus (withConditionTypeMapping (withConditionTypeMapping (V2.st_Status s) to_v3_types) to_v2_types)
    (V2.st_RelatedObjects s) (V2.st_ErrorMessage s)
    (V2.MkComponentsStatus (V2.s_Dashboard c) (V2.s_MaaSConsumerPortal c) (V2.s_Workbenches c)
       (V2.s_WorkbenchesV2 c) (V2.s_AIPipelines c) (V2.s_Kserve c) (V2.s_Kueue c) (V2.s_Ray c)
       (V2.s_TrustyAI c) (V2.s_ModelRegistry c) (Removed, None) (V2.s_FeastOperator c) (Removed, None)
       (V2.s_OGX c) (V2.s_MLflowOperator c) (V2.s_Trainer c) (V2.s_SparkOperator c) (V2.s_AIGateway c)
       (V2.s_ModelsAsAService c) (V2.s_BatchGateway c) (V2.s_AIGrid c) (V2.s_MCPLifecycleOperator c)
       (V2.s_DatabaseService c))
    (V2.st_Release s).

Lemma status_forth s : status_to_v2 (status_to_v3 s) = retired_status s.
Proof.
  destruct s as [st ro em comps rel]. unfold status_to_v2, status_to_v3, retired_status. cbn. f_equal.
  by destruct comps as [????????? [? [[]|]] ? [? ?] ???????????].
Qed.

Lemma stored_base_read v d :
  marker_change (stored_base v) d → V3.ReadMaaSV2State d = Ok (legacy_maas (V2.spec v)).
Proof.
  intros [_ _ _ Hann _]. unfold V3.ReadMaaSV2State. rewrite Hann.
  unfold stored_base, V3.anns. cbn [V3.meta Annotations]. unfold preserve_annotations.
  destruct (legacy_maas _); autorewrite with annotations; by rewrite ?decide_True.
Qed.

(** A v2 object that goes through v3 and comes back keeps its components and its status:
    only the retired operators and WVA are reported Removed, the MaaS fields are normalised,
    and condition types are unique. *)
Theorem v2_roundtrip v d v' :
  ConvertTo v = Ok d → ConvertFrom d = Ok v' →
  V2.spec v' = retired (V2.spec v) ∧ V2.status v' = retired_status (V2.status v) ∧
  MetaRest (V2.meta v') = MetaRest (V2.meta v).
Proof.
  rewrite ConvertTo_base.
  destruct (read_ModelExpress (stored_base v)) as [d1|] eqn:H1; [|done]. cbn [mbind result_bind]. intros H2.
  apply read_ModelExpress_change in H1 as (Hc1 & _). apply read_kserve_state_marker in H2 as Hc2.
  pose proof (marker_change_trans _ _ _ Hc1 Hc2) as Hc. unfold ConvertFrom.
  rewrite (stored_base_read v d Hc). cbn [mbind result_bind].
  destruct (write_kserve_state d _) as [a|]; [|done]. cbn [mbind result_bind]. intros [= <-].
  destruct (mc_spec _ _ Hc) as (me & cc & audit & Hspec).
  destruct (legacy_maas (V2.spec v)) eqn:Hl; cbn -[components_to_v2 status_to_v2];
    rewrite Hspec, marker_components, (mc_status _ _ Hc), (mc_rest _ _ Hc); (split; [|split; [apply status_forth|done]]);
    rewrite <-spec_forth, Hl; done.
Qed.
End roundtrip.

(** ** Admission of v3 writes *)

(** The stored object has the marker and the write leaves the MaaS state as it is. *)
Definition keeps_provenance (old : option V3.DataScienceCluster) (dsc : V3.DataScienceCluster) : bool :=
  match old with
  | Some o =>
      bool_decide (ann_get (V3.anns o) V3.MaaSV2StateAnnotation = Some V3.legacyMaaSManaged) &&
      String.eqb (V3.MaaS o) (V3.MaaS dsc)
  | None => false
  end.

Lemma PreserveMaaSV2State_changes canonical legacy dsc :
  let dsc' := V3.PreserveMaaSV2State canonical legacy dsc in
  (∀ key, key ≠ V3.MaaSV2StateAnnotation → ann_get (V3.anns dsc') key = ann_get (V3.anns dsc) key) ∧
  V3.spec dsc' = V3.spec dsc ∧ V3.status dsc' = V3.status dsc ∧
  ann_get (V3.anns dsc') V3.MaaSV2StateAnnotation =
    if String.eqb canonical Managed || negb (String.eqb legacy Managed) then None else Some V3.legacyMaaSManaged.
Proof.
  unfold V3.PreserveMaaSV2State. destruct (_ || _); unfold V3.anns; cbn [V3.meta V3.set_annotations Annotations].
  - split; [|split; [done|split; [done|]]]; [intros key Hk|]; ann_lookup; congruence.
  - split; [|split; [done|split; [done|]]]; [intros key Hk|]; ann_lookup; congruence.
Qed.

Lemma admit_provenance old dsc :
  match V3.AdmitMaaSV2State old dsc with
  | Ok dsc' =>
      (∀ key, key ≠ V3.MaaSV2StateAnnotation → ann_get (V3.anns dsc') key = ann_get (V3.anns dsc) key) ∧
      V3.spec dsc' = V3.spec dsc ∧ V3.status dsc' = V3.status dsc ∧
      ann_get (V3.anns dsc') V3.MaaSV2StateAnnotation =
        if keeps_provenance old dsc then Some V3.legacyMaaSManaged else None
  | Err _ =>
      ∃ o val, old = Some o ∧ ann_get (V3.anns o) V3.MaaSV2StateAnnotation = Some val ∧
        val ≠ V3.legacyMaaSManaged
  end.
Proof.
  assert (∀ canonical, String.eqb canonical Managed || negb (String.eqb Removed Managed) = true) as Hretire
    by (intros; apply orb_true_r).
  unfold V3.AdmitMaaSV2State. destruct old as [o|].
  - unfold V3.ReadMaaSV2State, keeps_provenance. destruct (ann_get (V3.anns o) _) as [val|] eqn:Hval.
    + destruct (String.eqb_spec val V3.legacyMaaSManaged) as [->|Hne]; cbn [negb mbind result_bind].
      * rewrite bool_decide_true by done. cbn [andb].
        destruct (String.eqb (V3.MaaS o) (V3.MaaS dsc)); [apply (PreserveMaaSV2State_changes Removed Managed)|].
        pose proof (PreserveMaaSV2State_changes (V3.MaaS dsc) Removed dsc) as H.
        cbn zeta in H. by rewrite Hretire in H.
      * by exists o, val.
    + cbn [mbind result_bind andb]. rewrite bool_decide_false by done. cbn [andb].
      pose proof (PreserveMaaSV2State_changes (V3.MaaS dsc) Removed dsc) as H. cbn zeta in H. by rewrite Hretire in H.
  - cbn [keeps_provenance]. pose proof (PreserveMaaSV2State_changes (V3.MaaS dsc) Removed dsc) as H.
    cbn zeta in H. by rewrite Hretire in H.
Qed.

(** No write can forge legacy provenance: after [AdmitMaaSV2State] the marker is there exactly
    when the stored object had it and the write leaves the MaaS state as it is (a creation
    never has it), it has the one legal value, and nothing but the marker changes; only an
    unknown marker in the stored object refuses the write. *)
Theorem AdmitMaaSV2State_provenance old dsc :
  match V3.AdmitMaaSV2State old dsc with
  | Ok dsc' =>
      (∀ key, key ≠ V3.MaaSV2StateAnnotation → ann_get (V3.anns dsc') key = ann_get (V3.anns dsc) key) ∧
      V3.spec dsc' = V3.spec dsc ∧ V3.status dsc' = V3.status dsc ∧
      ann_get (V3.anns dsc') V3.MaaSV2StateAnnotation =
        if keeps_provenance old dsc then Some V3.legacyMaaSManaged else None
  | Err _ =>
      ∃ o val, old = Some o ∧ ann_get (V3.anns o) V3.MaaSV2StateAnnotation = Some val ∧
        val ≠ V3.legacyMaaSManaged
  end.
Proof. exact (admit_provenance old dsc). Qed.

(** A write that changes neither the MaaS state nor KServe's nor the gateway's leaves an object
    that still survives the trip through v2. *)
Lemma AdmitMaaSV2State_canonical o dsc dsc' :
  canonical_maas o → V3.AdmitMaaSV2State (Some o) dsc = Ok dsc' →
  V3.MaaS dsc = Managed ∨ V3.MaaS dsc = Removed →
  V3.ManagementState (V3.Kserve (V3.spec dsc)) = V3.ManagementState (V3.Kserve (V3.spec o)) →
  ag_ManagementState (V3.AIGateway (V3.spec dsc)) = ag_ManagementState (V3.AIGateway (V3.spec o)) →
  canonical_maas dsc'.
Proof.
  intros Ho Hadmit Hm Hk Hg. pose proof (admit_provenance (Some o) dsc) as Hp. rewrite Hadmit in Hp.
  destruct Hp as (_ & Hspec & _ & Hann). unfold canonical_maas, V3.MaaS in *. rewrite Hann, Hspec.
  unfold keeps_provenance, V3.MaaS. case_bool_decide as Ho'; cbn [andb]; [|done].
  destruct (String.eqb_spec (ag_ModelsAsAService (V3.AIGateway (V3.spec o)))
              (ag_ModelsAsAService (V3.AIGateway (V3.spec dsc)))) as [Heq|]; [|done].
  rewrite Ho' in Ho. destruct Ho as [_ Ho]. split; [done|]. by rewrite Hk, Hg, <-Heq.
Qed.

(** ** Examples *)

(** A codec for the KServe marker: states are numbered and numbers written in binary. *)
Module BinaryCodec.

Definition zero : Ascii.ascii := Ascii.ascii_of_nat 48.
Definition one : Ascii.ascii := Ascii.ascii_of_nat 49.

Fixpoint write_bits (p : positive) : string :=
  match p with
  | xH => ""
  | xO p => String zero (write_bits p)
  | xI p => String one (write_bits p)
  end.

Fixpoint read_bits (s : string) : option positive :=
  match s with
  | EmptyString => Some xH
  | String a s =>
      p ← read_bits s;
      if Ascii.eqb a zero then Some (xO p) else if Ascii.eqb a one then Some (xI p) else None
  end.

Lemma read_write_bits p : read_bits (write_bits p) = Some p.
Proof. induction p as [p IH|p IH|]; simpl; rewrite ?IH; reflexivity. Qed.

Definition to_tuple (s : kserveV3State) : option (string * string) * string :=
  ((λ cc, (LUKSResourceID cc, InitData cc)) <$> ks_ConfidentialContainers s, ks_AuditLoggingProfile s).

Definition of_tuple (t : option (string * string) * string) : kserveV3State :=
  MkKserveV3State ((λ p, MkCC p.1 p.2) <$> t.1) t.2.

Lemma of_to_tuple s : of_tuple (to_tuple s) = s.
Proof. by destruct s as [[[]|] ?]. Qed.

#[export] Instance codec : KserveV3StateJSON := {|
  Marshal s := Ok (write_bits (encode (to_tuple s)));
  Unmarshal text :=
    match read_bits text ≫= decode with
    | Some t => if state_utf8 (of_tuple t) then Ok (of_tuple t) else Err (errorf "invalid text")
    | None => Err (errorf "invalid text")
    end
|}.

#[export] Instance codec_laws : KserveV3StateJSONLaws.
Proof.
  split.
  - intros s Hs. eexists. split; [reflexivity|]. cbn. rewrite read_write_bits. cbn.
    by rewrite decode_encode, of_to_tuple, Hs.
  - intros text s. cbn. destruct (read_bits text ≫= decode) as [t|]; [|done].
    destruct (state_utf8 (of_tuple t)) eqn:Ht; [|done]. by intros [= <-].
Qed.

End BinaryCodec.
Import BinaryCodec.

Definition example_cond (ty : string) : Condition := condition ty "True" "Ready" "".

Definition example_components (k : V3.DSCKserve) (g : DSCAIGateway) : V3.Components :=
  V3.MkComponents (MkDashboard Managed Removed) VNull VNull k (MkKueue Removed VNull) VNull VNull
    (MkAIHub Managed "registries") (MkData Managed VNull) VNull VNull VNull VNull g VNull VNull.

Definition example_status (cs : list Condition) : V3.DataScienceClusterStatus :=
  V3.MkDSCStatus (MkStatus "Ready" 3 cs) VNull ""
    (V3.MkComponentsStatus VNull VNull VNull VNull VNull VNull VNull VNull VNull
       (MkAIHubStatus Managed (Some (MkAIHubCommonStatus "registries" [VString "v1"])))
       (MkDataStatus Managed (Some [])) VNull VNull VNull VNull VNull VNull VNull VNull VNull VNull) VNull.

Definition example_kserve (st : string) : V3.DSCKserve :=
  V3.MkKserve st "Headed" VNull (Some (MkCC "kbs:///default/disk/key" "data")) (MkNim Managed false) Managed
    None AuditProfileMetadata (Some true) VNull.

Definition plain_kserve (st : string) : V3.DSCKserve :=
  V3.MkKserve st "Headed" VNull None (MkNim Managed false) "" None "" (Some true) VNull.

(** A migrated object: the marker records that the v2 user enabled MaaS below KServe. *)
Definition example_v3 (k : V3.DSCKserve) (maas : string) : V3.DataScienceCluster :=
  V3.MkDSC
    (MkMeta VNull (Some (<[V3.MaaSV2StateAnnotation := V3.legacyMaaSManaged]> {["team" := "ml"]})))
    (example_components k (MkAIGateway Managed maas VNull VNull))
    (example_status [example_cond "Ready"; example_cond aiHubReadyCondition]).

Definition example_v2 : V2.DataScienceCluster :=
  V2.MkDSC (MkMeta VNull (Some {[ModelExpressV3StateAnnotation := modelExpressManaged]}))
    (V2.MkComponents (MkDashboardV2 Managed Removed) VNull VNull
       (V2.MkKserve Managed "Headed" VNull (MkNim Managed false) Managed Removed None None VNull)
       (MkKueue Removed VNull) VNull VNull (MkModelRegistry Managed "registries") Managed
       (MkFeastOperator Managed VNull) Removed VNull VNull VNull VNull (MkAIGateway "" Removed VNull VNull)
       VNull VNull)
    (V2.MkDSCStatus
       (MkStatus "Ready" 3 [example_cond aiHubReadyCondition; example_cond modelRegistryReadyCondition])
       VNull "" (statuses_to_v2 (V3.st_Components (example_status []))) VNull).

Lemma withConditionTypeMapping_unique_example :
  c_type <$> map_conditions to_v3_types
    [example_cond aiHubReadyCondition; example_cond "Ready"; example_cond modelRegistryReadyCondition]
  = ["Ready"; aiHubReadyCondition].
Proof. reflexivity. Qed.

Lemma example_v3_canonical : canonical (example_v3 (example_kserve Managed) Managed).
Proof.
  split.
  - split; [apply (bool_decide_unpack _); vm_compute; exact I|repeat constructor; vm_compute; reflexivity].
  - discriminate.
  - reflexivity.
  - reflexivity.
  - split; [by right|]. split; [by right|]. vm_compute. auto.
  - vm_compute. split; [reflexivity|]. split; [reflexivity|discriminate].
Defined.

(** An object with the defaults of the schema, whose KServe was enabled under the marker. *)
Definition default_kserve (st : string) : V3.DSCKserve :=
  V3.MkKserve st "Headed" VNull None (MkNim Managed false) Removed None AuditProfileRemoved (Some true) VNull.

Lemma default_v3_storable : storable (example_v3 (default_kserve Managed) Removed).
Proof.
  split.
  - split; [apply (bool_decide_unpack _); vm_compute; exact I|repeat constructor; vm_compute; reflexivity].
  - discriminate.
  - reflexivity.
  - reflexivity.
  - split; [by right; right|]. split; [by right; right|]. exact I.
  - reflexivity.
Defined.

Lemma v3_roundtrip_witness :
  storable (example_v3 (default_kserve Managed) Removed) ∧
  (∃ v, ConvertFrom (example_v3 (default_kserve Managed) Removed) = Ok v ∧
        ConvertTo v = Ok (example_v3 (plain_kserve Managed) Managed)) ∧
  settled (example_v3 (example_kserve Managed) Managed) = example_v3 (example_kserve Managed) Managed.
Proof.
  split; [exact default_v3_storable|]. split.
  - exact (proj1 (v3_roundtrip _ default_v3_storable)).
  - exact (proj2 (proj2 (v3_roundtrip _ (canonical_storable _ example_v3_canonical))) example_v3_canonical).
Defined.

Definition example_stored : V3.DataScienceCluster :=
  Eval vm_compute in match ConvertTo example_v2 with Ok d => d | Err _ => example_v3 (plain_kserve "") "" end.

Definition example_view : V2.DataScienceCluster :=
  Eval vm_compute in match ConvertFrom example_stored with Ok v => v | Err _ => example_v2 end.

Lemma example_v2_stored : ConvertTo example_v2 = Ok example_stored.
Proof. vm_compute. reflexivity. Qed.

Lemma example_stored_view : ConvertFrom example_stored = Ok example_view.
Proof. vm_compute. reflexivity. Qed.

Lemma ConvertTo_canonical_witness :
  v2_view example_v2 ∧ ConvertTo example_v2 = Ok example_stored ∧ canonical example_stored.
Proof.
  assert (v2_view example_v2) as Hv.
  { split; [discriminate|vm_compute; reflexivity|]. intros text s Ht. vm_compute in Ht. discriminate Ht. }
  split; [exact Hv|]. split; [exact example_v2_stored|].
  exact (ConvertTo_canonical example_v2 example_stored Hv example_v2_stored).
Defined.

Lemma v2_roundtrip_witness :
  V2.spec example_view = retired (V2.spec example_v2) ∧
  V2.status example_view = retired_status (V2.status example_v2) ∧
  MetaRest (V2.meta example_view) = MetaRest (V2.meta example_v2).
Proof. exact (v2_roundtrip example_v2 example_stored example_view example_v2_stored example_stored_view). Defined.

(** A v3 write may enable KServe and leave the MaaS state Removed: the marker stays. Reading
    this object as v2 and writing it back unchanged then enables MaaS. *)
Example noop_v2_write_enables_maas :
  ∃ stored dsc v d,
    canonical stored ∧ V3.AdmitMaaSV2State (Some stored) dsc = Ok dsc ∧ V3.MaaS dsc = Removed ∧
    ConvertFrom dsc = Ok v ∧ ConvertTo v = Ok d ∧ V3.MaaS d = Managed.
Proof.
  exists (example_v3 (plain_kserve Removed) Removed), (example_v3 (plain_kserve Managed) Removed).
  eexists _, _. split.
  { split.
    - split; [apply (bool_decide_unpack _); vm_compute; exact I|repeat constructor; vm_compute; reflexivity].
    - discriminate.
    - reflexivity.
    - reflexivity.
    - split; [by left|]. split; [by left|]. exact I.
    - vm_compute. auto. }
  split; [reflexivity|]. split; [reflexivity|]. split; [reflexivity|]. split; reflexivity.
Qed.
