(* ===== verification/Admission.v ===== *)
(** * Admission of the operator's own resources

    [pkg/webhook/utils.go] (responses, singletons), the defaulting and validating webhooks of
    the DataScienceCluster ([internal/webhook/datasciencecluster]), of the DSCInitialization
    ([internal/webhook/dscinitialization/v2]) and of deprecated types
    ([internal/webhook/deprecation]).

    A request carries what the decoder makes of its raw object, so decoding twice gives the
    same; [None] for the old object is an empty raw value. The only calls are lists of objects
    of a kind. *)

From S2P Require Import Prelude Effects Conditions Unstructured Namespaces ModuleBase DscController Conversion.

(** ** Responses and requests *)

(** [admission.Response]; a patch is represented by the object it leads to. *)
Record Response := MkResponse {
  Allowed : bool;
  Code : Z;
  Message : string;
  Warnings : list string;
  Patched : option value_map;
}.

Definition StatusOK : Z := 200.
Definition StatusBadRequest : Z := 400.
Definition StatusForbidden : Z := 403.
Definition StatusInternalServerError : Z := 500.

(** [admission.Allowed], [admission.Denied], [admission.Errored], [admission.PatchResponseFromRaw]. *)
Definition allowed (msg : string) : Response := MkResponse true StatusOK msg [] None.
Definition denied (msg : string) : Response := MkResponse false StatusForbidden msg [] None.
Definition errored (code : Z) (err : goerr) : Response := MkResponse false code (err_text err) [] None.
Definition patch_response (obj : value_map) : Response := MkResponse true StatusOK "" [] (Some obj).

Definition with_warnings (warnings : list string) (r : Response) : Response :=
  MkResponse (Allowed r) (Code r) (Message r) warnings (Patched r).

Inductive Operation := Create | Update | Delete | Connect.

#[export] Instance Operation_eq_dec : EqDecision Operation.
Proof. solve_decision. Defined.

Definition op_text (op : Operation) : string :=
  match op with Create => "CREATE" | Update => "UPDATE" | Delete => "DELETE" | Connect => "CONNECT" end.

Record Request (T : Type) := MkRequest {
  req_Kind : GroupVersionKind;
  req_Operation : Operation;
  req_Namespace : string;
  req_DryRun : bool;
  req_Object : result T;
  req_OldObject : option (result T);
}.
Arguments MkRequest {T}.
Arguments req_Kind {T}.
Arguments req_Operation {T}.
Arguments req_Namespace {T}.
Arguments req_DryRun {T}.
Arguments req_Object {T}.
Arguments req_OldObject {T}.

(** [%v] of a kind. *)
Definition gvk_text (g : GroupVersionKind) : string :=
  gvk_Group g +:+ "/" +:+ gvk_Version g +:+ ", Kind=" +:+ gvk_Kind g.

(** ** Calls: listing *)

Inductive ListE : Type → Type :=
| ListObjects (g : GroupVersionKind) : ListE (result (list Unstructured)).

Definition CountObjects (g : GroupVersionKind) : prog ListE (result Z) :=
  items ← trigger (ListObjects g);
  mret (match items with Err err => Err err | Ok items => Ok (Z.of_nat (length items)) end).

Definition DenyCountGtZero (g : GroupVersionKind) (denyMessage : string) : prog ListE Response :=
  count ← CountObjects g;
  mret (match count with
        | Err err => errored StatusBadRequest err
        | Ok count => if (count >? 0)%Z then denied denyMessage else allowed ""
        end).

Definition ValidateSingletonCreation {T} (req : Request T) (expectedKind : GroupVersionKind)
    : prog ListE Response :=
  let kind := req_Kind req in
  if negb (String.eqb (gvk_Kind kind) (gvk_Kind expectedKind))
     || negb (String.eqb (gvk_Group kind) (gvk_Group expectedKind))
  then mret (errored StatusBadRequest
               (errorf ("unexpected kind: " +:+ gvk_Kind kind +:+ ", group: " +:+ gvk_Group kind)))
  else
    DenyCountGtZero (MkGVK (gvk_Group kind) (gvk_Version expectedKind) (gvk_Kind kind))
      ("Only one instance of " +:+ gvk_Kind kind +:+ " object is allowed").

(** ** Validation as a list of checks *)

Fixpoint validate_from {T} (warnings : list string) (checks : list (Request T → prog ListE Response))
    (allowedMessage : string) (req : Request T) : prog ListE Response :=
  match checks with
  | [] => mret (with_warnings warnings (allowed allowedMessage))
  | check :: checks =>
      resp ← check req;
      if negb (Allowed resp) then mret resp
      else validate_from (warnings ++ Warnings resp) checks allowedMessage req
  end.

Definition validate {T} (checks : list (Request T → prog ListE Response)) (allowedMessage : string)
    (req : Request T) : prog ListE Response := validate_from [] checks allowedMessage req.

(** [dsc := &DataScienceCluster{}; err := v.Decoder.DecodeRaw(req.Object, dsc)]. *)
Definition with_object {T} (req : Request T) (f : T → Response) : Response :=
  match req_Object req with
  | Err err => errored StatusBadRequest err
  | Ok obj => f obj
  end.

Definition kueue_managed : string := "Managed is no longer supported as a managementState".

(** ** DataScienceCluster v2 *)

Module DscV2.

Definition GVK : GroupVersionKind :=
  MkGVK "datasciencecluster.opendatahub.io" "v2" "DataScienceCluster".

Definition denyMultipleDsc (req : Request V2.DataScienceCluster) : prog ListE Response :=
  ValidateSingletonCreation req GVK.

Definition denyKueueManagedState (req : Request V2.DataScienceCluster) : prog ListE Response :=
  mret (with_object req (λ dsc,
    if String.eqb (kq_ManagementState (V2.Kueue (V2.spec dsc))) Managed then denied kueue_managed
    else allowed "")).

Definition DeprecatedWVAWarning : string :=
  "spec.components.kserve.wva is deprecated and WVA is no longer supported; " +:+
  "set it to Removed or remove the field. The operator treats WVA as Removed.".

Definition WVAUnsupportedResponse (st : string) : Response :=
  if String.eqb st Managed
  then denied "spec.components.kserve.wva is no longer supported; set managementState to Removed or remove the field"
  else with_warnings (if nonempty_str st then [DeprecatedWVAWarning] else []) (allowed "").

Definition denyUnsupportedWVA (req : Request V2.DataScienceCluster) : prog ListE Response :=
  mret (with_object req (λ dsc, WVAUnsupportedResponse (V2.WVA (V2.Kserve (V2.spec dsc))))).

(** A retired component: its state in the object, and why it cannot be enabled. *)
Record retiredComponent := MkRetired { managed : V2.DataScienceCluster → bool; message : string }.

Definition retiredComponents : list retiredComponent :=
  [MkRetired (λ dsc, String.eqb (V2.TrainingOperator (V2.spec dsc)) Managed)
     "TrainingOperator v1 is obsolete in RHOAI 3.6. Set managementState to Removed, then delete the TrainingOperator CR to clean up. Use Trainer v2 instead.";
   MkRetired (λ dsc, String.eqb (V2.LlamaStackOperator (V2.spec dsc)) Managed)
     "LlamaStackOperator has been replaced by OGX. Set managementState to Removed."].

(** The first component that the test refuses. *)
Definition first_denied (refused : retiredComponent → bool) : Response :=
  match filter (λ c, refused c = true) retiredComponents with
  | c :: _ => denied (message c)
  | [] => allowed ""
  end.

Definition denyRetiredOperatorManagedState (req : Request V2.DataScienceCluster) : prog ListE Response :=
  mret
    (match req_Object req with
     | Err err => errored StatusBadRequest (wrapf "decode new DSC" err)
     | Ok dsc =>
         if decide (req_Operation req = Create) then first_denied (λ c, managed c dsc)
         else if negb (existsb (λ c, managed c dsc) retiredComponents) then allowed ""
         else
           match req_OldObject req with
           | None => errored StatusBadRequest (errorf "old DSC object is required for update validation")
           | Some (Err err) => errored StatusBadRequest (wrapf "decode old DSC" err)
           | Some (Ok old) => first_denied (λ c, managed c dsc && negb (managed c old))
           end
     end).

Definition Handle (req : Request V2.DataScienceCluster) : prog ListE Response :=
  if negb (bool_decide (req_Kind req = GVK))
  then mret (errored StatusBadRequest
               (errorf ("unexpected gvk: " +:+ gvk_text (req_Kind req) +:+ "; expecting: " +:+ gvk_text GVK)))
  else
    let allowMessage :=
      "Operation " +:+ op_text (req_Operation req) +:+ " on " +:+ gvk_Kind (req_Kind req) +:+ " v2 allowed" in
    match req_Operation req with
    | Create =>
        validate [denyMultipleDsc; denyKueueManagedState; denyRetiredOperatorManagedState; denyUnsupportedWVA]
          allowMessage req
    | Update =>
        validate [denyKueueManagedState; denyRetiredOperatorManagedState; denyUnsupportedWVA] allowMessage req
    | _ => mret (allowed allowMessage)
    end.

(** The defaulter; the default namespace differs between the two builds of the operator. *)
Definition applyDefaults (defaultNamespace : string) (dsc : V2.DataScienceCluster) : V2.DataScienceCluster :=
  V2.set_spec (λ c,
    let mr := V2.ModelRegistry c in
    let k := V2.Kserve c in
    let mr :=
      if String.eqb (mr_ManagementState mr) Managed && String.eqb (mr_RegistriesNamespace mr) ""
      then MkModelRegistry (mr_ManagementState mr) defaultNamespace else mr in
    let nim :=
      if String.eqb (V2.ManagementState k) Managed && String.eqb (nim_ManagementState (V2.NIM k)) ""
      then MkNim Managed (nim_AirGapped (V2.NIM k)) else V2.NIM k in
    V2.MkComponents (V2.Dashboard c) (V2.Workbenches c) (V2.AIPipelines c)
      (V2.MkKserve (V2.ManagementState k) (V2.RawDeploymentServiceConfig k) (V2.OAuthProxy k) nim
         (V2.ModelsAsService k) (V2.WVA k) (V2.EnableLLMInferenceServiceTLS k)
         (V2.EnableLLMInferenceServiceConsoleDashboards k) (V2.ModelCache k))
      (V2.Kueue c) (V2.Ray c) (V2.TrustyAI c) mr (V2.TrainingOperator c) (V2.FeastOperator c)
      (V2.LlamaStackOperator c) (V2.OGX c) (V2.MLflowOperator c) (V2.Trainer c) (V2.SparkOperator c)
      (V2.AIGateway c) (V2.MCPLifecycleOperator c) (V2.DatabaseService c)) dsc.

End DscV2.

(** ** DataScienceCluster v3 *)

Module DscV3.

Definition GVK : GroupVersionKind :=
  MkGVK "datasciencecluster.opendatahub.io" "v3" "DataScienceCluster".

Definition denyMultipleDsc (req : Request V3.DataScienceCluster) : prog ListE Response :=
  ValidateSingletonCreation req GVK.

Definition denyKueueManagedState (req : Request V3.DataScienceCluster) : prog ListE Response :=
  mret (with_object req (λ dsc,
    if String.eqb (kq_ManagementState (V3.Kueue (V3.spec dsc))) Managed then denied kueue_managed
    else allowed "")).

Definition Handle (req : Request V3.DataScienceCluster) : prog ListE Response :=
  if negb (bool_decide (req_Kind req = GVK))
  then mret (errored StatusBadRequest
               (errorf ("unexpected gvk: " +:+ gvk_text (req_Kind req) +:+ "; expecting: " +:+ gvk_text GVK)))
  else
    let allowMessage :=
      "Operation " +:+ op_text (req_Operation req) +:+ " on " +:+ gvk_Kind (req_Kind req) +:+ " v3 allowed" in
    match req_Operation req with
    | Create => validate [denyKueueManagedState; denyMultipleDsc] allowMessage req
    | Update => validate [denyKueueManagedState] allowMessage req
    | _ => mret (allowed allowMessage)
    end.

Definition applyDefaults (defaultNamespace : string) (dsc : V3.DataScienceCluster) : V3.DataScienceCluster :=
  V3.set_spec (λ c,
    let ah := V3.AIHub c in
    let k := V3.Kserve c in
    let ah :=
      if String.eqb (ah_ManagementState ah) Managed && String.eqb (ah_InstancesNamespace ah) ""
      then MkAIHub (ah_ManagementState ah) defaultNamespace else ah in
    let nim :=
      if String.eqb (V3.ManagementState k) Managed && String.eqb (nim_ManagementState (V3.NIM k)) ""
      then MkNim Managed (nim_AirGapped (V3.NIM k)) else V3.NIM k in
    V3.MkComponents (V3.Dashboard c) (V3.Workbenches c) (V3.AIPipelines c)
      (V3.MkKserve (V3.ManagementState k) (V3.RawDeploymentServiceConfig k) (V3.OAuthProxy k)
         (V3.ConfidentialContainers k) nim (V3.ModelExpress k) (V3.EnableLLMInferenceServiceTLS k)
         (V3.AuditLoggingProfile k) (V3.EnableLLMInferenceServiceConsoleDashboards k) (V3.ModelCache k))
      (V3.Kueue c) (V3.Ray c) (V3.TrustyAI c) ah (V3.Data c) (V3.OGX c) (V3.MLflowOperator c)
      (V3.Trainer c) (V3.SparkOperator c) (V3.AIGateway c) (V3.MCPLifecycleOperator c)
      (V3.DatabaseService c)) dsc.

(** [Default]; [None] is a call outside an admission request. The old object is decoded on
    updates only. *)
Definition Default (defaultNamespace : string) (request : option (Request V3.DataScienceCluster))
    (dsc : V3.DataScienceCluster) : result V3.DataScienceCluster :=
  let dsc := applyDefaults defaultNamespace dsc in
  match request with
  | None => V3.AdmitMaaSV2State None dsc
  | Some request =>
      old ← (if decide (req_Operation request = Update)
             then
               match req_OldObject request with
               | None => Err (wrapf "decode old DSC for MaaS compatibility" (errorf "unexpected end of JSON input"))
               | Some (Err err) => Err (wrapf "decode old DSC for MaaS compatibility" err)
               | Some (Ok old) => Ok (Some old)
               end
             else Ok None);
      wrap_result "admit DSC MaaS compatibility" (V3.AdmitMaaSV2State old dsc)
  end.

End DscV3.

(** ** DSCInitialization v2 *)

Module DsciV2.

Record TrustedCABundle := MkBundle { cb_ManagementState : string; cb_CustomCABundle : string }.

(** The part of the object that is validated. *)
Definition DSCInitialization : Type := option TrustedCABundle.

Section validator.
(** [cluster.ValidateCustomCABundle]: the PEM check, crypto/x509. *)
Context (ValidateCustomCABundle : string → option goerr).

Definition validateSpec (req : Request DSCInitialization) (allowMessage : string) : Response :=
  with_object req (λ dsci,
    match dsci with
    | Some bundle =>
        if String.eqb (cb_ManagementState bundle) Managed && nonempty_str (cb_CustomCABundle bundle)
        then
          match ValidateCustomCABundle (cb_CustomCABundle bundle) with
          | Some err => denied ("invalid customCABundle: " +:+ err_text err)
          | None => allowed allowMessage
          end
        else allowed allowMessage
    | None => allowed allowMessage
    end).

Definition Handle (req : Request DSCInitialization) : prog ListE Response :=
  let allowMessage :=
    "Operation " +:+ op_text (req_Operation req) +:+ " on " +:+ gvk_Kind (req_Kind req) +:+ " v2 allowed" in
  match req_Operation req with
  | Create =>
      resp ← ValidateSingletonCreation req DSCInitializationGVK;
      mret (if negb (Allowed resp) then resp else validateSpec req allowMessage)
  | Update => mret (validateSpec req allowMessage)
  | Delete =>
      resp ← DenyCountGtZero DataScienceClusterGVK
               "Cannot delete DSCInitialization v2 object when DataScienceCluster object still exists";
      mret (if negb (Allowed resp) then resp else allowed allowMessage)
  | Connect => mret (allowed allowMessage)
  end.
End validator.

End DsciV2.

(** ** Deprecated types *)

Module Deprecation.

Record TypeMap := MkTypeMap { DeprecatedGVK : GroupVersionKind; ReplacementGVK : GroupVersionKind }.

Definition isExpectedKind (v : TypeMap) (kind : GroupVersionKind) : bool :=
  String.eqb (gvk_Group kind) (gvk_Group (DeprecatedGVK v)) &&
  String.eqb (gvk_Version kind) (gvk_Version (DeprecatedGVK v)) &&
  String.eqb (gvk_Kind kind) (gvk_Kind (DeprecatedGVK v)).

Definition Handle {T} (v : TypeMap) (req : Request T) : Response :=
  if negb (isExpectedKind v (req_Kind req))
  then errored StatusBadRequest (errorf ("unexpected kind: " +:+ gvk_text (req_Kind req)))
  else
    match req_Operation req with
    | Create | Update =>
        denied (gvk_Group (DeprecatedGVK v) +:+ "/" +:+ gvk_Kind (DeprecatedGVK v) +:+
                " is not supported, please use " +:+ gvk_Group (ReplacementGVK v) +:+ "/" +:+
                gvk_Kind (ReplacementGVK v))
    | _ => allowed ("Operation " +:+ op_text (req_Operation req) +:+ " on " +:+ gvk_text (req_Kind req) +:+ " allowed")
    end.

End Deprecation.

(** ** The verdicts *)

Lemma first_denied_iff (refused : DscV2.retiredComponent → bool) :
  Allowed (DscV2.first_denied refused) = true ↔ Forall (λ c, refused c = false) DscV2.retiredComponents.
Proof.
  unfold DscV2.first_denied, DscV2.retiredComponents. rewrite !Forall_cons, Forall_nil, !filter_cons, filter_nil.
  repeat case_decide; cbn; destruct (refused _), (refused _); naive_solver.
Qed.

(** What a v2 object must not have. *)
Definition supported (dsc : V2.DataScienceCluster) : Prop :=
  kq_ManagementState (V2.Kueue (V2.spec dsc)) ≠ Managed ∧ V2.WVA (V2.Kserve (V2.spec dsc)) ≠ Managed.

(** The retired components that the write enables: [old] is what was stored. *)
Definition enables_retired (old : option (result V2.DataScienceCluster)) (dsc : V2.DataScienceCluster) : Prop :=
  ∃ c, c ∈ DscV2.retiredComponents ∧ DscV2.managed c dsc = true ∧
    match old with Some (Ok old) => DscV2.managed c old = false | _ => True end.

Lemma with_warnings_allowed w r : Allowed (with_warnings w r) = Allowed r.
Proof. done. Qed.

Lemma kueue_check (req : Request V2.DataScienceCluster) dsc tr Φ :
  req_Object req = Ok dsc →
  (∀ r, (Allowed r = true ↔ kq_ManagementState (V2.Kueue (V2.spec dsc)) ≠ Managed) → Φ tr r) →
  wp (DscV2.denyKueueManagedState req) tr Φ.
Proof.
  intros Hobj HΦ. apply wp_ret, HΦ. unfold with_object. rewrite Hobj.
  destruct (String.eqb_spec (kq_ManagementState (V2.Kueue (V2.spec dsc))) Managed); cbn; naive_solver.
Qed.

Lemma wva_check (req : Request V2.DataScienceCluster) dsc tr Φ :
  req_Object req = Ok dsc →
  (∀ r, (Allowed r = true ↔ V2.WVA (V2.Kserve (V2.spec dsc)) ≠ Managed) → Φ tr r) →
  wp (DscV2.denyUnsupportedWVA req) tr Φ.
Proof.
  intros Hobj HΦ. apply wp_ret, HΦ. unfold with_object, DscV2.WVAUnsupportedResponse. rewrite Hobj.
  destruct (String.eqb_spec (V2.WVA (V2.Kserve (V2.spec dsc))) Managed); cbn; naive_solver.
Qed.

Lemma retired_check (req : Request V2.DataScienceCluster) dsc tr Φ :
  req_Object req = Ok dsc →
  (∀ r, (Allowed r = true ↔
          ¬ enables_retired (if decide (req_Operation req = Create) then None else req_OldObject req) dsc) → Φ tr r) →
  wp (DscV2.denyRetiredOperatorManagedState req) tr Φ.
Proof.
  intros Hobj HΦ. apply wp_ret, HΦ. rewrite Hobj. unfold enables_retired. case_decide as Hop.
  - rewrite first_denied_iff, Forall_forall. split.
    + intros Hall (c & Hc & Hm & _). by rewrite (Hall c Hc) in Hm.
    + intros Hno c Hc. apply not_true_iff_false. intros Hm. apply Hno. by exists c.
  - destruct (existsb _ _) eqn:Hex; cbn [negb].
    + apply existsb_exists in Hex as (c0 & Hc0 & Hm0). apply list_elem_of_In in Hc0.
      destruct (req_OldObject req) as [[old|err]|]; cbn.
      * rewrite first_denied_iff, Forall_forall. split.
        -- intros Hall (c & Hc & Hm & Ho). specialize (Hall c Hc). by rewrite Hm, Ho in Hall.
        -- intros Hno c Hc. destruct (DscV2.managed c dsc) eqn:Hm; [|done]. cbn.
           apply negb_false_iff, not_false_iff_true. intros Ho. apply Hno. by exists c.
      * split; [done|]. intros Hno. destruct Hno. by exists c0.
      * split; [done|]. intros Hno. destruct Hno. by exists c0.
    + split; [|done]. intros _ (c & Hc & Hm & _). apply not_true_iff_false in Hex. apply Hex.
      apply existsb_exists. exists c. by rewrite <-list_elem_of_In.
Qed.

Lemma singleton_check {T} (req : Request T) g tr Φ :
  req_Kind req = g →
  (∀ answer r, (Allowed r = true ↔ answer = Ok []) → Φ (tr ++ [Call (ListObjects g) answer]) r) →
  wp (ValidateSingletonCreation req g) tr Φ.
Proof.
  intros Hkind HΦ. unfold ValidateSingletonCreation, DenyCountGtZero, CountObjects. rewrite Hkind, !String.eqb_refl.
  cbn [negb orb]. apply wp_bind, wp_bind, wp_call. intros answer. apply wp_ret, wp_ret.
  destruct g as [gr v k]. apply HΦ. by destruct answer as [[|item items]|err].
Qed.

(** The calls were one list of the kind, and it found nothing. *)
Definition found_none (g : GroupVersionKind) (tr : list (call ListE)) : Prop :=
  match tr with
  | [Call e x] =>
      match e in ListE X return X → Prop with ListObjects g' => λ x, g' = g ∧ x = Ok [] end x
  | _ => False
  end.

(** What admission of a v2 DataScienceCluster requires. *)
Definition v2_admissible (req : Request V2.DataScienceCluster) (tr : list (call ListE)) : Prop :=
  req_Kind req = DscV2.GVK ∧
  match req_Operation req with
  | Create => found_none DscV2.GVK tr ∧
      ∃ dsc, req_Object req = Ok dsc ∧ supported dsc ∧ ¬ enables_retired None dsc
  | Update => ∃ dsc, req_Object req = Ok dsc ∧ supported dsc ∧ ¬ enables_retired (req_OldObject req) dsc
  | _ => True
  end.

(** Combines the verdicts of the checks made so far. *)
Ltac verdict :=
  repeat match goal with
  | H : context [enables_retired ?o ?d] |- _ => revert H
  | H : context [Allowed ?r] |- _ => revert H
  end;
  repeat match goal with |- context [enables_retired ?o ?d] => generalize (enables_retired o d); intros ? end;
  intuition (congruence || eauto).

(** The checks of the object that creations and updates share. *)
Lemma object_checks req dsc allowMessage warnings tr :
  req_Object req = Ok dsc →
  wp (validate_from warnings
        [DscV2.denyKueueManagedState; DscV2.denyRetiredOperatorManagedState; DscV2.denyUnsupportedWVA]
        allowMessage req) tr
    (λ tr' r, tr' = tr ∧
       (Allowed r = true ↔ supported dsc ∧
          ¬ enables_retired (if decide (req_Operation req = Create) then None else req_OldObject req) dsc)).
Proof.
  intros Hobj. unfold supported. cbn [validate_from].
  apply wp_bind, (kueue_check _ dsc); [done|]. intros r1 H1.
  destruct (Allowed r1) eqn:Hr1; cbn [negb]; [|apply wp_ret; rewrite Hr1; verdict].
  apply wp_bind, (retired_check _ dsc); [done|]. intros r2 H2.
  destruct (Allowed r2) eqn:Hr2; cbn [negb]; [|apply wp_ret; rewrite Hr2; verdict].
  apply wp_bind, (wva_check _ dsc); [done|]. intros r3 H3.
  destruct (Allowed r3) eqn:Hr3; cbn [negb]; apply wp_ret; [|rewrite Hr3; verdict].
  cbn. verdict.
Qed.

Lemma undecoded_check (req : Request V2.DataScienceCluster) err tr (allowMessage : string) warnings :
  req_Object req = Err err →
  wp (validate_from warnings
        [DscV2.denyKueueManagedState; DscV2.denyRetiredOperatorManagedState; DscV2.denyUnsupportedWVA]
        allowMessage req) tr (λ tr' r, tr' = tr ∧ Allowed r = false).
Proof.
  intros Hobj. cbn [validate_from]. unfold DscV2.denyKueueManagedState, with_object. rewrite Hobj. done.
Qed.

Lemma HandleV2_wp req : wp (DscV2.Handle req) [] (λ tr r, Allowed r = true ↔ v2_admissible req tr).
Proof.
  unfold DscV2.Handle, v2_admissible. case_bool_decide as Hkind; cbn [negb]; [|apply wp_ret; split; [done|tauto]].
  destruct (req_Operation req) eqn:Hop; [..|apply wp_ret; done|apply wp_ret; done].
  - unfold validate. cbn [validate_from]. apply wp_bind, singleton_check; [done|]. intros answer r1 H1. cbn [app].
    destruct (Allowed r1) eqn:Hr1; cbn [negb].
    2:{ apply wp_ret. cbn. rewrite Hr1. split; [done|]. intros (_ & [_ Hn] & _). by apply H1. }
    pose proof (proj1 H1 eq_refl) as ->. clear H1.
    destruct (req_Object req) as [dsc|err] eqn:Hobj.
    + eapply wp_mono; [|by apply object_checks]. cbn beta. intros tr r [-> Hr]. rewrite Hr, decide_True by done.
      split; [|by intros (_ & _ & ? & [= ->] & ?)].
      intros [? ?]. split; [done|]. split; [by split|]. by exists dsc.
    + eapply wp_mono; [|by eapply undecoded_check]. cbn beta. intros tr r [-> Hr]. rewrite Hr.
      split; [done|]. by intros (_ & _ & ? & ? & _).
  - unfold validate. destruct (req_Object req) as [dsc|err] eqn:Hobj.
    + eapply wp_mono; [|by apply object_checks]. cbn beta. intros tr r [-> Hr].
      rewrite Hr, decide_False by (by rewrite Hop).
      split; [|by intros (_ & ? & [= ->] & ?)].
      intros [? ?]. split; [done|]. by exists dsc.
    + eapply wp_mono; [|by eapply undecoded_check]. cbn beta. intros tr r [-> Hr]. rewrite Hr.
      split; [done|]. by intros (_ & ? & ? & _).
Qed.

(** ** What is stored *)

(** The store answers a list with as many objects as it holds. *)
Definition listing (n : nat) : list Unstructured := repeat (MkUnstructured DscV2.GVK "" "" 0 false []) n.

Definition from_store (n : nat) (X : Type) (e : ListE X) (w : unit) : X * unit :=
  match e in ListE X return X * unit with ListObjects _ => (Ok (listing n), tt) end.

Definition admits (n : nat) (req : Request V2.DataScienceCluster) : bool :=
  Allowed (run (from_store n) (DscV2.Handle req) tt []).1.1.

(** The DataScienceClusters in the store, when every v2 write passes the webhook. *)
Inductive stored : list V2.DataScienceCluster → Prop :=
| stored_nothing : stored []
| stored_create dscs dsc req :
    stored dscs → req_Operation req = Create → req_Object req = Ok dsc → admits (length dscs) req = true →
    stored (dsc :: dscs)
| stored_update before old after dsc req :
    stored (before ++ old :: after) → req_Operation req = Update → req_Object req = Ok dsc →
    req_OldObject req = Some (Ok old) → admits (length (before ++ old :: after)) req = true →
    stored (before ++ dsc :: after)
| stored_delete before old after :
    stored (before ++ old :: after) → stored (before ++ after).

(** A stored object enables nothing that is retired or unsupported. *)
Definition clean (dsc : V2.DataScienceCluster) : Prop :=
  supported dsc ∧ Forall (λ c, DscV2.managed c dsc = false) DscV2.retiredComponents.

Lemma clean_after old dsc :
  supported dsc → ¬ enables_retired old dsc →
  (∀ o c, old = Some (Ok o) → c ∈ DscV2.retiredComponents → DscV2.managed c o = false) → clean dsc.
Proof.
  intros Hs Hr Ho. split; [done|]. apply Forall_forall. intros c Hc. apply not_true_iff_false. intros Hm.
  apply Hr. exists c. split; [done|]. split; [done|]. destruct old as [[o|]|]; [|done..]. by apply (Ho o).
Qed.

(** C13: with every v2 write admitted by the webhook, there is never more than one
    DataScienceCluster, and none ever enables Kueue, WVA or a retired operator. *)
Theorem stored_singleton_clean dscs : stored dscs → (length dscs ≤ 1)%nat ∧ Forall clean dscs.
Proof.
  induction 1 as [|dscs dsc req _ [IHlen IH] Hop Hobj Hadm|before old after dsc req _ [IHlen IH] Hop Hobj Hold Hadm
                  |before old after _ [IHlen IH]].
  - split; [cbn; lia|done].
  - pose proof (run_wp (from_store (length dscs)) _ tt [] _ (HandleV2_wp req)) as [Hv _]. specialize (Hv Hadm).
    destruct Hv as [Hkind Hv]. rewrite Hop in Hv. destruct Hv as (Hnone & dsc' & Hobj' & Hs & Hr).
    assert (dsc' = dsc) as -> by congruence. split.
    + destruct dscs as [|d dscs]; [cbn; lia|]. exfalso. revert Hnone.
      destruct req as [kind op ns dry obj oldobj]. cbn in Hkind, Hop |- *. subst kind op. cbn. by intros [_ ?].
    + constructor; [|done]. by eapply clean_after.
  - pose proof (run_wp (from_store (length (before ++ old :: after))) _ tt [] _ (HandleV2_wp req)) as [Hv _].
    specialize (Hv Hadm). destruct Hv as [_ Hv]. rewrite Hop in Hv. destruct Hv as (dsc' & Hobj' & Hs & Hr).
    assert (dsc' = dsc) as -> by congruence. rewrite Hold in Hr. rewrite !length_app in *. split; [done|].
    rewrite Forall_app, Forall_cons in *. destruct IH as (IHb & [_ Hoc] & IHa). split; [done|]. split; [|done].
    eapply clean_after; [done..|]. intros o c [= <-] Hc. by eapply Forall_forall in Hoc.
  - rewrite !length_app in *. cbn in IHlen. split; [lia|].
    rewrite Forall_app, Forall_cons in IH. rewrite Forall_app. naive_solver.
Qed.

(** A v2 write is admitted exactly when its kind is the v2 DataScienceCluster, it decodes,
    enables neither Kueue nor WVA, enables no retired operator that was not enabled before (on
    creation: none), and, on creation, the only call made found no other object. *)
Theorem HandleV2_verdict req : wp (DscV2.Handle req) [] (λ tr r, Allowed r = true ↔ v2_admissible req tr).
Proof. exact (HandleV2_wp req). Qed.

(** *** A creation, then an update *)

Definition sample_dsc (trainingOperator : string) : V2.DataScienceCluster :=
  V2.MkDSC (MkMeta VNull None)
    (V2.MkComponents (MkDashboardV2 Managed Removed) VNull VNull
       (V2.MkKserve Managed "Headed" VNull (MkNim Managed false) Removed Removed None None VNull)
       (MkKueue Removed VNull) VNull VNull (MkModelRegistry Managed "registries") trainingOperator
       (MkFeastOperator Managed VNull) Removed VNull VNull VNull VNull (MkAIGateway "" Removed VNull VNull)
       VNull VNull)
    (V2.MkDSCStatus (MkStatus "Ready" 1 []) VNull ""
       (V2.MkComponentsStatus VNull VNull VNull VNull VNull VNull VNull VNull VNull
          (MkModelRegistryStatus "" None) ("", None) (MkFeastOperatorStatus "" None) ("", None)
          VNull VNull VNull VNull VNull VNull VNull VNull VNull VNull) VNull).

Definition sample_write (op : Operation) (dsc : V2.DataScienceCluster) (old : option (result V2.DataScienceCluster))
    : Request V2.DataScienceCluster := MkRequest DscV2.GVK op "" false (Ok dsc) old.

Lemma stored_singleton_clean_witness :
  stored [sample_dsc ""] ∧ (length [sample_dsc ""] ≤ 1)%nat ∧ Forall clean [sample_dsc ""].
Proof.
  assert (stored [sample_dsc ""]) as Hs.
  { apply (stored_update [] (sample_dsc Removed) [] (sample_dsc "")
             (sample_write Update (sample_dsc "") (Some (Ok (sample_dsc Removed))))); try reflexivity.
    apply (stored_create [] _ (sample_write Create (sample_dsc Removed) None)); try reflexivity. constructor. }
  split; [exact Hs|]. exact (stored_singleton_clean _ Hs).
Defined.

(** ** Defaults *)

Section defaults.
Context `{KserveV3StateJSON} (ns : string).

Lemma defaults_base v :
  let dst v := V3.MkDSC (V2.meta v) (components_to_v3 (V2.spec v)) (status_to_v3 (V2.status v)) in
  let base v := V3.set_spec (V3.set_AIGateway (migrate_maas (V2.spec v))) (dst v) in
  base (DscV2.applyDefaults ns v) = DscV3.applyDefaults ns (base v).
Proof.
  destruct v as [m c st]. cbn zeta. unfold DscV2.applyDefaults, DscV3.applyDefaults, V3.set_spec, V2.set_spec.
  cbn [V3.meta V3.spec V3.status V2.meta V2.spec V2.status]. f_equal.
  destruct c as [[? ?] ?? [k ?? [nim air] l ????] ??? [mr rns] ? [? ?] ????? [g mm ? ?] ??].
  unfold components_to_v3, V3.set_AIGateway, kserve_to_v3, modelRegistryToAIHub, migrate_maas. cbn.
  destruct (_ && String.eqb rns ""); by destruct (_ && String.eqb nim "").
Qed.

Lemma defaults_Preserve canonical legacy dst :
  V3.PreserveMaaSV2State canonical legacy (DscV3.applyDefaults ns dst) =
    DscV3.applyDefaults ns (V3.PreserveMaaSV2State canonical legacy dst).
Proof. unfold V3.PreserveMaaSV2State. by destruct (_ || _). Qed.

Lemma defaults_read_ModelExpress dst :
  read_ModelExpress (DscV3.applyDefaults ns dst) = DscV3.applyDefaults ns <$> read_ModelExpress dst.
Proof.
  unfold read_ModelExpress. change (V3.anns (DscV3.applyDefaults ns dst)) with (V3.anns dst).
  destruct (ann_get _ _) as [val|]; [|done]. destruct (negb _); [done|]. done.
Qed.

Lemma defaults_read_kserve_state dst :
  read_kserve_state (DscV3.applyDefaults ns dst) = DscV3.applyDefaults ns <$> read_kserve_state dst.
Proof.
  unfold read_kserve_state. change (V3.anns (DscV3.applyDefaults ns dst)) with (V3.anns dst).
  destruct (ann_get _ _) as [val|]; [|done]. destruct (Unmarshal val) as [s|]; [|done].
  destruct (Conversion.validate s); [done|]. done.
Qed.

(** Defaulting does not depend on the version a client uses: converting a defaulted v2
    object is the same as defaulting the converted object. *)
Theorem applyDefaults_convert v :
  ConvertTo (DscV2.applyDefaults ns v) = DscV3.applyDefaults ns <$> ConvertTo v.
Proof.
  unfold ConvertTo. pose proof (defaults_base v) as Hbase. cbn zeta in Hbase. rewrite Hbase.
  change (ag_ModelsAsAService (V2.AIGateway (V2.spec (DscV2.applyDefaults ns v))))
    with (ag_ModelsAsAService (V2.AIGateway (V2.spec v))).
  change (V2.ModelsAsService (V2.Kserve (V2.spec (DscV2.applyDefaults ns v))))
    with (V2.ModelsAsService (V2.Kserve (V2.spec v))).
  rewrite defaults_Preserve, defaults_read_ModelExpress.
  destruct (read_ModelExpress _) as [d|]; [|done]. cbn [mbind fmap result_bind result_fmap].
  apply defaults_read_kserve_state.
Qed.
End defaults.
