(* ===== verification/Workload.v ===== *)
(** * Workloads in admission webhooks

    The object that a mutating webhook decodes, its metadata accessors
    ([pkg/resources/resources.go], whose implementation is the framework's: the annotation and
    label maps are read with the empty string as default, written and deleted), the accessors of
    apimachinery's [unstructured] package for maps and strings, and the helpers of
    [pkg/webhook/utils.go] for nested values. *)

From S2P Require Import Prelude Effects Unstructured Conversion Admission.

Record Workload := MkWorkload {
  w_APIVersion : string;
  w_Kind : string;
  w_Name : string;
  w_Namespace : string;
  w_UID : string;
  w_Deleting : bool;
  w_Labels : gmap string string;
  w_Annotations : gmap string string;
  w_Object : value_map;
}.

Definition with_content (w : Workload) (object : value_map) : Workload :=
  MkWorkload (w_APIVersion w) (w_Kind w) (w_Name w) (w_Namespace w) (w_UID w) (w_Deleting w)
    (w_Labels w) (w_Annotations w) object.
Definition with_labels (w : Workload) (labels : gmap string string) : Workload :=
  MkWorkload (w_APIVersion w) (w_Kind w) (w_Name w) (w_Namespace w) (w_UID w) (w_Deleting w)
    labels (w_Annotations w) (w_Object w).
Definition with_annotations (w : Workload) (annotations : gmap string string) : Workload :=
  MkWorkload (w_APIVersion w) (w_Kind w) (w_Name w) (w_Namespace w) (w_UID w) (w_Deleting w)
    (w_Labels w) annotations (w_Object w).

(** [resources.GetAnnotation], [resources.SetAnnotation] and so on. *)
Definition GetAnnotation (w : Workload) (key : string) : string := default "" (w_Annotations w !! key).
Definition SetAnnotation (w : Workload) (key val : string) : Workload :=
  with_annotations w (<[key := val]> (w_Annotations w)).
Definition RemoveAnnotation (w : Workload) (key : string) : Workload :=
  with_annotations w (delete key (w_Annotations w)).
Definition GetLabel (w : Workload) (key : string) : string := default "" (w_Labels w !! key).
Definition SetLabel (w : Workload) (key val : string) : Workload := with_labels w (<[key := val]> (w_Labels w)).
Definition RemoveLabel (w : Workload) (key : string) : Workload := with_labels w (delete key (w_Labels w)).

Class NestedMaps := {
  NestedMap : value_map → list string → result (option value_map);
  SetNestedMap : value_map → value_map → list string → result value_map;
  SetNestedString : value_map → string → list string → result value_map;
  RemoveNestedField : value_map → list string → value_map;
}.

(** [json.Marshal] of the object. *)
Class Marshal := Marshal_object : Workload → result value_map.

Definition marshal_documented : Marshal := λ w, Ok (w_Object w).

(** ** Nested values *)

Section nested.
Context `{Nested, NestedWrite, NestedMaps}.

Definition GetOrCreateNestedMap (obj : value_map) (field : string) : result value_map :=
  match NestedMap obj [field] with
  | Err err => Err (wrapf ("failed to get nested map for field " +:+ field) err)
  | Ok None => Ok []
  | Ok (Some nested) => Ok nested
  end.

Definition GetOrCreateNestedSlice (obj : value_map) (path : list string) : result (list value) :=
  match NestedSlice obj path with
  | Err err => Err (wrapf "failed to get nested slice for path" err)
  | Ok None => Ok []
  | Ok (Some nested) => Ok nested
  end.

Definition SetNestedValue (obj : value_map) (v : value) (path : list string) : result value_map :=
  match v with
  | VString s => SetNestedString obj s path
  | VMap m => SetNestedMap obj m path
  | VSlice l => SetNestedSlice obj l path
  | _ => Err (errorf "unsupported value type for SetNestedValue")
  end.

End nested.

(** ** Laws *)

(** What was found can be replaced or removed, what was set is found, and siblings are left
    alone. *)
Class NestedMapsLaws `{Nested, NestedWrite, NestedMaps} := {
  map_found m k m' : NestedMap m [k] = Ok (Some m') → map_get m k = VMap m';
  map_not_found m k : NestedMap m [k] = Ok None → map_get m k = VNull;
  string_set_get m path d m' : SetNestedStringMap m d path = Ok m' → NestedStringMap m' path = Ok (Some d);
  string_found_set m path d d' : path ≠ [] →
    NestedStringMap m path = Ok (Some d) → ∃ m', SetNestedStringMap m d' path = Ok m';
  slice_set_string m path k k' l m' : k ≠ k' → SetNestedSlice m l (path ++ [k]) = Ok m' →
    NestedStringMap m' (path ++ [k']) = NestedStringMap m (path ++ [k']);
  string_set_slice m path k k' d m' : k ≠ k' → SetNestedStringMap m d (path ++ [k]) = Ok m' →
    NestedSlice m' (path ++ [k']) = NestedSlice m (path ++ [k']);
  remove_slice m path l : path ≠ [] → NestedSlice m path = Ok (Some l) →
    NestedSlice (RemoveNestedField m path) path = Ok None;
  remove_string m path d : path ≠ [] → NestedStringMap m path = Ok (Some d) →
    NestedStringMap (RemoveNestedField m path) path = Ok None;
  text_set_get m s path m' : SetNestedString m s path = Ok m' → NestedString m' path = Ok (Some s);
  remove_text m path s : path ≠ [] → NestedString m path = Ok (Some s) →
    NestedString (RemoveNestedField m path) path = Ok None;
  remove_slice_other m path k k' : k ≠ k' →
    NestedSlice (RemoveNestedField m (path ++ [k])) (path ++ [k']) = NestedSlice m (path ++ [k']);
  remove_string_other m path k k' : k ≠ k' →
    NestedStringMap (RemoveNestedField m (path ++ [k])) (path ++ [k']) = NestedStringMap m (path ++ [k']);
}.

(** *** The documented behaviour *)

Fixpoint remove_nested (m : value_map) (path : list string) : value_map :=
  match path with
  | [] => m
  | [k] => map_delete m k
  | k :: path =>
      match map_get m k with
      | VMap m' => map_set m k (VMap (remove_nested m' path))
      | _ => m
      end
  end.

Definition nested_maps_documented : NestedMaps := {|
  NestedMap := nested_typed as_map;
  SetNestedMap := λ m v path, set_nested m path (VMap v);
  SetNestedString := λ m s path, set_nested m path (VString s);
  RemoveNestedField := remove_nested;
|}.

Lemma map_get_deleted m k : map_get (map_delete m k) k = VNull.
Proof.
  unfold map_delete. induction m as [|[j w] m IH]; [done|]. rewrite filter_cons. case_decide as Hj; [|done].
  simpl in *. by rewrite (proj2 (String.eqb_neq j k) Hj).
Qed.

Lemma remove_nested_cons m k k2 path :
  remove_nested m (k :: k2 :: path) =
  match map_get m k with VMap m' => map_set m k (VMap (remove_nested m' (k2 :: path))) | _ => m end.
Proof. done. Qed.

Lemma nested_field_removed m path v :
  path ≠ [] → nested_field m path = Ok (Some v) → nested_field (remove_nested m path) path = Ok None.
Proof.
  revert m. induction path as [|k path IH]; intros m Hne Hf; [done|]. destruct path as [|k2 path].
  - simpl. by rewrite map_get_deleted.
  - rewrite nested_field_cons, remove_nested_cons in *. destruct (map_get m k) as [| | | | | |m'] eqn:Hk; try done.
    rewrite map_get_set, String.eqb_refl. by apply IH.
Qed.

Lemma nested_field_removed_other m path k k' :
  k ≠ k' → nested_field (remove_nested m (path ++ [k])) (path ++ [k']) = nested_field m (path ++ [k']).
Proof.
  intros Hk. revert m. induction path as [|j path IH]; intros m; simpl app.
  - simpl. by rewrite map_get_delete.
  - destruct (path ++ [k]) as [|k2 path2] eqn:Hp; [by destruct path|].
    destruct (path ++ [k']) as [|k3 path3] eqn:Hp'; [by destruct path|].
    rewrite remove_nested_cons, !nested_field_cons. destruct (map_get m j) as [| | | | | |m'] eqn:Hj; rewrite ?Hj; try done.
    rewrite map_get_set, String.eqb_refl. apply IH.
Qed.

(** Typed reads of a set, a sibling's or a removed field. *)
Lemma typed_set {A} (get : value → option A) m path v a m' :
  v ≠ VNull → get v = Some a → set_nested m path v = Ok m' → nested_typed get m' path = Ok (Some a).
Proof.
  intros Hv Hg Hset. unfold nested_typed. rewrite (nested_field_set m path v m') by done. cbn. by rewrite Hg.
Qed.

Lemma typed_set_other {A} (get : value → option A) m path k k' v m' :
  k ≠ k' → set_nested m (path ++ [k]) v = Ok m' → nested_typed get m' (path ++ [k']) = nested_typed get m (path ++ [k']).
Proof. intros Hk Hset. unfold nested_typed. by rewrite (nested_field_set_other m path k k' v m'). Qed.

Lemma typed_found {A} (get : value → option A) m path a :
  nested_typed get m path = Ok (Some a) → ∃ v, nested_field m path = Ok (Some v).
Proof. unfold nested_typed. destruct (nested_field m path) as [[v|]|]; cbn; try done. eauto. Qed.

Lemma typed_removed {A} (get : value → option A) m path a :
  path ≠ [] → nested_typed get m path = Ok (Some a) → nested_typed get (remove_nested m path) path = Ok None.
Proof.
  intros Hne [v Hv]%typed_found. unfold nested_typed. by rewrite (nested_field_removed m path v).
Qed.

Lemma typed_removed_other {A} (get : value → option A) m path k k' :
  k ≠ k' → nested_typed get (remove_nested m (path ++ [k])) (path ++ [k']) = nested_typed get m (path ++ [k']).
Proof. intros Hk. unfold nested_typed. by rewrite nested_field_removed_other. Qed.

#[export] Instance nested_maps_documented_laws :
  @NestedMapsLaws nested_documented nested_write_documented nested_maps_documented.
Proof.
  split; cbn [NestedMap NestedStringMap SetNestedStringMap NestedSlice SetNestedSlice SetNestedString NestedString RemoveNestedField
    nested_documented nested_write_documented nested_maps_documented].
  - intros m k m'. unfold nested_typed. simpl. destruct (map_get m k); simpl; try done. by intros [= <-].
  - intros m k. unfold nested_typed. simpl. destruct (map_get m k); simpl; try done.
  - intros m path d m'. apply typed_set; [done|apply string_map_of_strings].
  - intros m path d d' Hne [v Hv]%typed_found. by eapply set_nested_found.
  - intros m path k k' l m'. apply typed_set_other.
  - intros m path k k' d m'. apply typed_set_other.
  - intros m path l. apply typed_removed.
  - intros m path d. apply typed_removed.
  - intros m s path m'. by apply typed_set.
  - intros m path s. apply typed_removed.
  - intros m path k k'. apply typed_removed_other.
  - intros m path k k'. apply typed_removed_other.
Qed.

