(* ===== verification/Kueue.v ===== *)
(** * Kueue: from the manager's configuration to the operator's

    [internal/controller/components/kueue/kueue_config.go]: the configuration of an embedded
    Kueue ([kueue-manager-config]) becomes the CR of the Kueue operator. The comparison of
    semantic versions, the parser of YAML and the library that sets metadata are parameters;
    the calls of the whole component are events of [KueueE]. *)

From S2P Require Import Prelude Effects Conditions Unstructured Namespaces Monitor ModuleBase Conversion Admission Workload.

(** ** Data *)

(** The fields of nodes and namespaces that the component reads or writes; [Q] is
    [resource.Quantity]. *)
Record KNode (Q : Type) := MkKNode { kn_Name : string; kn_Allocatable : gmap string Q }.
Arguments MkKNode {Q} _ _.
Arguments kn_Name {Q} _.
Arguments kn_Allocatable {Q} _.

Record KNamespace := MkKNamespace { kns_Name : string; kns_Labels : gmap string string; kns_Deleting : bool }.

#[export] Instance KNamespace_eq_dec : EqDecision KNamespace.
Proof. solve_decision. Defined.

Record ClusterRole := MkClusterRole { crole_Name : string; crole_Labels : gmap string string; crole_Rules : value }.

Record RoleSubject := MkSubject { sub_Kind : string; sub_APIGroup : string; sub_Name : string }.
Record ClusterRoleBinding := MkCRB {
  crb_Name : string;
  crb_Subjects : list RoleSubject;
  crb_RoleAPIGroup : string;
  crb_RoleKind : string;
  crb_RoleName : string;
}.

(** [KueueSpec]: management and default queues. *)
Record KueueSpec := MkKueueSpec {
  ks_ManagementState : string;
  ks_AutoCreateQueues : option bool;
  ks_DefaultLocalQueueName : string;
  ks_DefaultClusterQueueName : string;
}.

(** [KueueCommonStatus]: the releases. *)
Record KueueCommonStatus := MkKueueCommonStatus { kcs_Releases : list value }.

Record KueueCR := MkKueueCR {
  k_Name : string;
  k_Annotations : gmap string string;
  k_Deleting : bool;
  k_Spec : KueueSpec;
  k_Conditions : list Condition;
  k_CommonStatus : KueueCommonStatus;
}.

(** ** Calls *)

Inductive KueueE (Q : Type) : Type → Type :=
| KueueCluster {X : Type} (e : ClusterE X) : KueueE Q X
| KueueMonitor {X : Type} (e : MonitorE X) : KueueE Q X
| GetConfigMapData (namespace name : string) : KueueE Q (result (gmap string string))
| OperatorExists (operator : string) : KueueE Q (result string)
| HasCRDWithVersion (group kind version : string) : KueueE Q (result bool)
| ListNodes : KueueE Q (result (list (KNode Q)))
| ListNamespaces (label val : string) : KueueE Q (result (list KNamespace))
| UpdateNamespace (ns : KNamespace) : KueueE Q (option goerr)
| GetClusterRole (name : string) : KueueE Q (result ClusterRole)
| UpdateClusterRole (cr : ClusterRole) : KueueE Q (option goerr)
| GetAuthAdminGroups (name : string) : KueueE Q (result (list string))
| AddBinding (crb : ClusterRoleBinding) : KueueE Q (result Unstructured)
| GetKueue (name : string) : KueueE Q (result KueueCR)
| MarkKueue (m : mark) : KueueE Q unit
| MarkKueueFrom (ty : string) (c : Condition) : KueueE Q unit.
Arguments KueueCluster {Q X} _.
Arguments KueueMonitor {Q X} _.
Arguments GetConfigMapData {Q} _ _.
Arguments OperatorExists {Q} _.
Arguments HasCRDWithVersion {Q} _ _ _.
Arguments ListNodes {Q}.
Arguments ListNamespaces {Q} _ _.
Arguments UpdateNamespace {Q} _.
Arguments GetClusterRole {Q} _.
Arguments UpdateClusterRole {Q} _.
Arguments GetAuthAdminGroups {Q} _.
Arguments AddBinding {Q} _.
Arguments GetKueue {Q} _.
Arguments MarkKueue {Q} _.
Arguments MarkKueueFrom {Q} _ _.

(** ** Libraries *)

(** [semver.Compare]. *)
Class Semver := semver_Compare : string → string → Z.

Class NestedScalars := {
  NestedStringSlice : value_map → list string → result (option (list string));
  NestedBool : value_map → list string → result (option bool);
}.

Definition nested_scalars_documented : NestedScalars := {|
  NestedStringSlice := nested_typed (λ v, match v with VSlice l => mapM as_string l | _ => None end);
  NestedBool := nested_typed (λ v, match v with VBool b => Some b | _ => None end);
|}.

(** [yaml.Unmarshal] into an empty map, and the accessors of [unstructured.Unstructured]. *)
Class KueueLib := {
  yaml_Unmarshal : string → result value_map;
  ToUnstructured : value_map → result value_map;
  u_SetGroupVersionKind : GroupVersionKind → value_map → value_map;
  u_SetName : string → value_map → value_map;
  u_SetAnnotations : gmap string string → value_map → value_map;
  GroupVersion_String : GroupVersionKind → string;
}.

(** ** Constants *)

Definition kueueOperator : string := "kueue-operator".
Definition KueueCRName : string := "cluster".
Definition KueueConfigMapName : string := "kueue-manager-config".
Definition KueueConfigMapEntry : string := "controller_manager_config.yaml".
Definition ManagedByODHOperator : string := "opendatahub.io/managed".
Definition Unmanaged : string := "Unmanaged".
Definition KueueConfigV1 : GroupVersionKind := MkGVK "kueue.openshift.io" "v1" "Kueue".
Definition KueueStateManagedNotSupportedMessage : string :=
  "Kueue managementState Managed is not supported, please use Removed or Unmanaged".
Definition KueueOperatorNotInstalledMessage : string :=
  "Kueue operator not installed, install it or change kueue component state to Removed".

Definition frameworkMapping : gmap string string := list_to_map
  [("pod", "Pod"); ("deployment", "Deployment"); ("statefulset", "StatefulSet"); ("batch/job", "BatchJob");
   ("ray.io/rayjob", "RayJob"); ("ray.io/raycluster", "RayCluster"); ("jobset.x-k8s.io/jobset", "JobSet");
   ("kubeflow.org/mpijob", "MPIJob"); ("kubeflow.org/paddlejob", "PaddleJob");
   ("kubeflow.org/pytorchjob", "PyTorchJob"); ("kubeflow.org/tfjob", "TFJob");
   ("kubeflow.org/xgboostjob", "XGBoostJob"); ("trainer.kubeflow.org/trainjob", "TrainJob");
   ("leaderworkerset.x-k8s.io/leaderworkerset", "LeaderWorkerSet");
   ("sparkoperator.k8s.io/sparkapplication", "SparkApplication")].

Definition frameworkMinVersion : gmap string string := list_to_map
  [("TrainJob", "v1.2.0"); ("SparkApplication", "v1.4.0")].

(** ** The conversions *)

Section conversion.
Context `{Semver, Nested, NestedScalars, NestedMaps}.

Definition isFrameworkSupported (framework kueueVersion : string) : bool :=
  match frameworkMinVersion !! framework with
  | None => true
  | Some minVersion => (semver_Compare kueueVersion minVersion >=? 0)%Z
  end.

Definition default_frameworks : gset string :=
  {["RayJob"; "RayCluster"; "PyTorchJob"; "Pod"; "Deployment"; "StatefulSet"]}.

Definition add_default (kueueVersion : string) (frameworks : gset string) (framework : string) : gset string :=
  if isFrameworkSupported framework kueueVersion then {[framework]} ∪ frameworks else frameworks.

Definition add_framework (kueueVersion : string) (frameworks : gset string) (framework : string) : gset string :=
  match frameworkMapping !! framework with
  | None => frameworks
  | Some converted =>
      if isFrameworkSupported converted kueueVersion then {[converted]} ∪ frameworks else frameworks
  end.

(** The elements of a set come in any order and are then sorted. *)
Definition set_sorted (key : string) (names : list string) (m : value_map) : value_map :=
  match names with
  | [] => m
  | _ => map_set m key (VSlice (VString <$> sort_strings names))
  end.

(** [l, _, err := unstructured.NestedStringSlice(config, path...)]. *)
Definition string_slice (what : string) (config : value_map) (path : list string) : result (list string) :=
  match NestedStringSlice config path with
  | Err err => Err (wrapf what err)
  | Ok found => Ok (default [] found)
  end.

Definition convertIntegrations (config : value_map) (kueueVersion : string) : result value_map :=
  frameworks ← string_slice "failed to extract frameworks" config ["integrations"; "frameworks"];
  let frameworkSet := foldl (add_default kueueVersion) default_frameworks (map_to_list frameworkMinVersion).*1 in
  let frameworkSet := foldl (add_framework kueueVersion) frameworkSet frameworks in
  let integrations := set_sorted "frameworks" (elements frameworkSet) [] in
  externalFrameworks ← string_slice "failed to extract external frameworks" config
    ["integrations"; "externalFrameworks"];
  let externalFrameworksSet := foldl (add_framework kueueVersion) ∅ externalFrameworks in
  let integrations := set_sorted "externalFrameworks" (elements externalFrameworksSet) integrations in
  labelKeys ← string_slice "failed to extract label keys" config ["integrations"; "labelKeys"];
  Ok (set_sorted "labelKeys" labelKeys integrations).

(** [b, found, err := unstructured.NestedBool(config, path...)], with the wrapped error. *)
Definition nested_bool (what : string) (config : value_map) (path : list string) : result (option bool) :=
  wrap_result what (NestedBool config path).

(** The conversions return the [nil] map as the empty one; the caller only looks at its
    length. *)
Definition convertWorkloadManagement (config : value_map) : result value_map :=
  found ← nested_bool "failed to extract manageJobsWithoutQueueName" config ["manageJobsWithoutQueueName"];
  match found with
  | None => Ok []
  | Some manageJobsWithoutQueueName =>
      Ok [("labelPolicy", VString (if manageJobsWithoutQueueName : bool then "None" else "QueueName"))]
  end.

Definition convertGangScheduling (config : value_map) : result value_map :=
  found ← wrap_result "failed to extract waitForPodsReady" (NestedMap config ["waitForPodsReady"]);
  match found with
  | None => Ok []
  | Some waitForPodsReady =>
      enabled ← nested_bool "failed to extract waitForPodsReady.enable" waitForPodsReady ["enable"];
      if negb (default false enabled) then Ok []
      else
        blockAdmission ← nested_bool "failed to extract waitForPodsReady.blockAdmission" waitForPodsReady
          ["blockAdmission"];
        let byWorkload :=
          [("admission", VString (if default false blockAdmission then "Sequential" else "Parallel"))] in
        timeout ← wrap_result "failed to extract timeout" (NestedString waitForPodsReady ["timeout"]);
        let timeout := default "" timeout in
        let byWorkload :=
          if nonempty_str timeout then map_set byWorkload "timeout" (VString timeout) else byWorkload in
        Ok [("policy", VString "ByWorkload"); ("byWorkload", VMap byWorkload)]
  end.

Definition convertPreemption (config : value_map) : result value_map :=
  found ← wrap_result "failed to extract fairSharing" (NestedMap config ["fairSharing"]);
  match found with
  | None => Ok []
  | Some fairSharing =>
      enabled ← nested_bool "failed to extract fairSharing.enable" fairSharing ["enable"];
      if default false enabled
      then Ok [("preemptionPolicy", VString "FairSharing"); ("fairSharing", VMap fairSharing)]
      else Ok [("preemptionPolicy", VString "Classical")]
  end.

(** [if len(section) != 0 { config[key] = section }]. *)
Definition add_section (key : string) (section config : value_map) : value_map :=
  match section with [] => config | _ => map_set config key (VMap section) end.

(** The configuration and the object that [createKueueCR] builds. *)
Definition kueue_config (managerConfig : value_map) (kueueVersion : string) : result value_map :=
  integrations ← wrap_result "failed to convert integrations" (convertIntegrations managerConfig kueueVersion);
  workloadMgmt ← wrap_result "failed to convert workload management" (convertWorkloadManagement managerConfig);
  gangScheduling ← wrap_result "failed to convert gang scheduling" (convertGangScheduling managerConfig);
  preemption ← wrap_result "failed to convert preemption" (convertPreemption managerConfig);
  Ok (add_section "preemption" preemption (add_section "gangScheduling" gangScheduling
       (add_section "workloadManagement" workloadMgmt (add_section "integrations" integrations [])))).

Definition kueue_object (config : value_map) : value_map :=
  [("spec", VMap [("managementState", VString Managed); ("config", VMap config)])].

(** ** The CR *)

Context `{KueueLib} {Q : Type}.
Variables (gvk_String : GroupVersionKind → string) (NotFound_text : string → string → string → string).
Variable configured : string.

Definition lookupKueueManagerConfig : prog (KueueE Q) (result value_map) :=
  appNamespace ← lift (λ X, KueueCluster) (ApplicationNamespace gvk_String NotFound_text configured);
  match appNamespace with
  | Err err => mret (Err err)
  | Ok appNamespace =>
      cm ← trigger (GetConfigMapData appNamespace KueueConfigMapName);
      match cm with
      | Err err => if err_is TagNotFound err then mret (Ok []) else mret (Err err)
      | Ok data =>
          match data !! KueueConfigMapEntry with
          | None => mret (Ok [])
          | Some content => mret (yaml_Unmarshal content)
          end
      end
  end.

(** [errors.Is(err, olm.ErrOperatorNotInstalled) || meta.IsNoMatchError(err)]. *)
Definition operator_missing (err : goerr) : bool :=
  err_is TagOperatorNotInstalled err || err_is TagNoMatch err.

Definition kueue_cr (content : value_map) : Unstructured :=
  MkUnstructured KueueConfigV1 KueueCRName "" 0 false
    (u_SetAnnotations {[ManagedByODHOperator := "false"]}
      (u_SetName KueueCRName (u_SetGroupVersionKind KueueConfigV1 content))).

Definition createKueueCR : prog (KueueE Q) (Unstructured + action_error) :=
  managerConfig ← lookupKueueManagerConfig;
  match managerConfig with
  | Err err => mret (inr (ActionErr (wrapf "failed to lookup kueue manager config" err)))
  | Ok managerConfig =>
      kueueInfo ← trigger (OperatorExists kueueOperator);
      match kueueInfo with
      | Err err =>
          if operator_missing err then mret (inr (StopError KueueOperatorNotInstalledMessage))
          else mret (inr (ActionErr (wrapf ("failed to check if " +:+ kueueOperator +:+ " exists") err)))
      | Ok kueueVersion =>
          match kueue_config managerConfig kueueVersion with
          | Err err => mret (inr (ActionErr err))
          | Ok config =>
              match ToUnstructured (kueue_object config) with
              | Err err => mret (inr (ActionErr (wrapf "failed to build unstructured content" err)))
              | Ok content => mret (inl (kueue_cr content))
              end
          end
      end
  end.

End conversion.
