(* ===== verification/KueueController.v ===== *)
(** * Kueue: default queues, actions and component handler

    The rest of [internal/controller/components/kueue]: what the cluster's nodes offer, the
    default flavors and queues, managed namespaces ([kueue_support.go]), the actions
    ([kueue_controller_actions.go]), the preconditions and the filter of ClusterExtension
    events ([kueue_controller.go]), and the component handler ([kueue.go]). *)

From S2P Require Import Prelude Effects Conditions Unstructured Namespaces Monitor Precondition ModuleBase Conversion Admission Workload Kueue.

(** ** Constants *)

Definition KueueComponentName : string := "kueue".
Definition KueueInstanceName : string := "default-kueue".
Definition KueueKind : string := "Kueue".
Definition KueueReady : string := KueueKind +:+ ReadySuffix.
Definition ClusterQueueViewerRoleName : string := "kueue-clusterqueue-viewer-role".
Definition KueueBatchUserLabel : string := "rbac.kueue.x-k8s.io/batch-user".
Definition KueueAdminRoleBindingName : string := "kueue-admin-rolebinding".
Definition KueueAdminRoleName : string := "kueue-batch-admin-role".
Definition NvidiaGPUResourceKey : string := "nvidia.com/gpu".
Definition AMDGPUResourceKey : string := "amd.com/gpu".
Definition DefaultFlavorName : string := "default-flavor".
Definition NvidiaFlavorName : string := "nvidia-gpu-flavor".
Definition AMDFlavorName : string := "amd-gpu-flavor".
Definition KueueManagedLabelKey : string := "kueue.openshift.io/managed".
Definition KueueLegacyManagedLabelKey : string := "kueue-managed".
Definition AuthInstanceName : string := "auth".
Definition ManagementStateAnnotation : string := "component.opendatahub.io/management-state".
Definition ConditionDeploymentsAvailable : string := "DeploymentsAvailable".

Definition supportedGPUMap : gmap string string :=
  list_to_map [(NvidiaGPUResourceKey, NvidiaFlavorName); (AMDGPUResourceKey, AMDFlavorName)].

(** ** Libraries *)

(** [resource.Quantity] and the accessors of [corev1.ResourceList]; the zero value of a
    quantity is [q_zero]. *)
Class Quantities (Q : Type) := {
  q_zero : Q;
  q_Add : Q → Q → Q;
  q_String : Q → string;
  rl_Cpu : gmap string Q → Q;
  rl_Memory : gmap string Q → Q;
}.

(** [resources.HasLabel] without values, and the order in which Go ranges over a map. *)
Class KueueObjects := {
  HasLabel : gmap string string → string → bool;
  range_gpus : ∀ {A}, gmap string A → list string;
  range_namespaces : gmap string KNamespace → list KNamespace;
}.

Class KueueObjectsLaws `{KueueObjects} := {
  range_gpus_perm {A} (m : gmap string A) : range_gpus m ≡ₚ (map_to_list m).*1;
  range_namespaces_perm m : range_namespaces m ≡ₚ (map_to_list m).*2;
}.

(** ** What the nodes offer *)

Record ClusterResourceInfo (Q : Type) := MkInfo { ri_CPU : Q; ri_Memory : Q; ri_GPUInfo : gmap string Q }.
Arguments MkInfo {Q} _ _ _.
Arguments ri_CPU {Q} _.
Arguments ri_Memory {Q} _.
Arguments ri_GPUInfo {Q} _.

Section nodes.
Context `{Quantities Q}.

(** The order of the two keys does not matter: each has its own entry. *)
Definition extract_gpu (node : KNode Q) (gpus : gmap string Q) (resourceKey : string) : gmap string Q :=
  match kn_Allocatable node !! resourceKey with
  | None => gpus
  | Some quantity => <[resourceKey := q_Add (default q_zero (gpus !! resourceKey)) quantity]> gpus
  end.

Definition extractGPUInfo (info : ClusterResourceInfo Q) (node : KNode Q) : ClusterResourceInfo Q :=
  MkInfo (ri_CPU info) (ri_Memory info)
    (foldl (extract_gpu node) (ri_GPUInfo info) (map_to_list supportedGPUMap).*1).

Definition add_node (info : ClusterResourceInfo Q) (node : KNode Q) : ClusterResourceInfo Q :=
  extractGPUInfo
    (MkInfo (q_Add (ri_CPU info) (rl_Cpu (kn_Allocatable node)))
            (q_Add (ri_Memory info) (rl_Memory (kn_Allocatable node))) (ri_GPUInfo info)) node.

Definition cluster_info (nodes : list (KNode Q)) : ClusterResourceInfo Q :=
  foldl add_node (MkInfo q_zero q_zero ∅) nodes.

Definition getClusterResourceInfo : prog (KueueE Q) (result (ClusterResourceInfo Q)) :=
  nodes ← trigger ListNodes;
  mret (match nodes with
        | Err err => Err (wrapf "failed to list cluster nodes" err)
        | Ok nodes => Ok (cluster_info nodes)
        end).
End nodes.

(** ** Flavors and queues *)

Record FlavorResource := MkFlavorResource { fr_Name : string; fr_Value : string }.
Record Flavors := MkFlavors { fl_Name : string; fl_Resources : list FlavorResource }.

Definition flavor_value (flavor : Flavors) : value :=
  VMap [("name", VString (fl_Name flavor));
        ("resources", VSlice ((λ r, VMap [("name", VString (fr_Name r)); ("nominalQuota", VString (fr_Value r))])
                                <$> fl_Resources flavor))].

(** [slices.Sorted(maps.Keys(resourceMap))]. *)
Definition covered_resources (flavors : list Flavors) : list string :=
  sort_strings (elements (list_to_set (concat ((λ f, fr_Name <$> fl_Resources f) <$> flavors)) : gset string)).

Definition createResourceGroup (flavors : list Flavors) : value :=
  VMap [("coveredResources", VSlice (VString <$> covered_resources flavors));
        ("flavors", VSlice (flavor_value <$> flavors))].

Record kueueResourceGVKs := MkKueueGVKs {
  kg_ClusterQueue : GroupVersionKind;
  kg_LocalQueue : GroupVersionKind;
  kg_ResourceFlavor : GroupVersionKind;
}.

Definition ClusterQueue : GroupVersionKind := MkGVK "kueue.x-k8s.io" "v1beta2" "ClusterQueue".
Definition LocalQueue : GroupVersionKind := MkGVK "kueue.x-k8s.io" "v1beta2" "LocalQueue".
Definition ResourceFlavor : GroupVersionKind := MkGVK "kueue.x-k8s.io" "v1beta2" "ResourceFlavor".
Definition ClusterQueueV1Beta1 : GroupVersionKind := MkGVK "kueue.x-k8s.io" "v1beta1" "ClusterQueue".
Definition LocalQueueV1Beta1 : GroupVersionKind := MkGVK "kueue.x-k8s.io" "v1beta1" "LocalQueue".
Definition ResourceFlavorV1Beta1 : GroupVersionKind := MkGVK "kueue.x-k8s.io" "v1beta1" "ResourceFlavor".

Definition kueueGVKsV1Beta2 : kueueResourceGVKs := MkKueueGVKs ClusterQueue LocalQueue ResourceFlavor.
Definition kueueGVKsV1Beta1 : kueueResourceGVKs :=
  MkKueueGVKs ClusterQueueV1Beta1 LocalQueueV1Beta1 ResourceFlavorV1Beta1.

Definition unmanaged_annotations : value := VMap [(ManagedByODHOperator, VString "false")].

Section queues.
Context `{Quantities Q, KueueLib, KueueObjects}.
Implicit Types (clusterInfo : ClusterResourceInfo Q).

(** An object built from a literal. *)
Definition literal_object (g : GroupVersionKind) (name namespace : string) (metadata spec : value_map)
    : Unstructured :=
  MkUnstructured g name namespace 0 false
    [("apiVersion", VString (GroupVersion_String g)); ("kind", VString (gvk_Kind g));
     ("metadata", VMap metadata); ("spec", VMap spec)].

(** [supportedGPUMap[label]]. *)
Definition gpu_flavor (label : string) : string := default "" (supportedGPUMap !! label).

Definition default_group clusterInfo : list Flavors :=
  [MkFlavors DefaultFlavorName
     [MkFlavorResource "cpu" (q_String (ri_CPU clusterInfo));
      MkFlavorResource "memory" (q_String (ri_Memory clusterInfo))]].

Definition gpu_group clusterInfo (label : string) : list Flavors :=
  [MkFlavors (gpu_flavor label)
     [MkFlavorResource label (q_String (default q_zero (ri_GPUInfo clusterInfo !! label)))]].

Definition resource_groups clusterInfo : list (list Flavors) :=
  default_group clusterInfo :: (gpu_group clusterInfo <$> sort_strings (map_to_list (ri_GPUInfo clusterInfo)).*1).

Definition createDefaultClusterQueue (name : string) clusterInfo (gvks : kueueResourceGVKs) : Unstructured :=
  literal_object (kg_ClusterQueue gvks) name "" [("name", VString name); ("annotations", unmanaged_annotations)]
    [("namespaceSelector", VMap [("matchLabels", VMap [(KueueManagedLabelKey, VString "true")])]);
     ("resourceGroups", VSlice (createResourceGroup <$> resource_groups clusterInfo))].

Definition createDefaultLocalQueue (name clusterQueueName namespace : string) (gvks : kueueResourceGVKs)
    : Unstructured :=
  literal_object (kg_LocalQueue gvks) name namespace
    [("name", VString name); ("namespace", VString namespace); ("annotations", unmanaged_annotations)]
    [("clusterQueue", VString clusterQueueName)].

Definition resource_flavor (gvks : kueueResourceGVKs) (name : string) : Unstructured :=
  literal_object (kg_ResourceFlavor gvks) name "" [("name", VString name); ("annotations", unmanaged_annotations)] [].

Definition createDefaultResourceFlavors clusterInfo (gvks : kueueResourceGVKs) : list Unstructured :=
  resource_flavor gvks DefaultFlavorName ::
  ((λ label, resource_flavor gvks (gpu_flavor label)) <$> range_gpus (ri_GPUInfo clusterInfo)).

(** ** Managed namespaces *)

Definition collectNamespaces (namespaceSet : gmap string KNamespace) (label val : string)
    : prog (KueueE Q) (result (gmap string KNamespace)) :=
  namespaces ← trigger (ListNamespaces label val);
  mret (match namespaces with
        | Err err => Err (wrapf "failed to list namespaces" err)
        | Ok items => Ok (foldl (λ s ns, <[kns_Name ns := ns]> s) namespaceSet items)
        end).

Definition getManagedNamespaces : prog (KueueE Q) (result (list KNamespace)) :=
  uniqueNamespaces ← collectNamespaces ∅ KueueManagedLabelKey "true";
  match uniqueNamespaces with
  | Err err => mret (Err err)
  | Ok uniqueNamespaces =>
      uniqueNamespaces ← collectNamespaces uniqueNamespaces KueueLegacyManagedLabelKey "true";
      mret (match uniqueNamespaces with
            | Err err => Err err
            | Ok uniqueNamespaces => Ok (range_namespaces uniqueNamespaces)
            end)
  end.

(** [resources.SetLabels] with the two labels. *)
Definition with_kueue_labels (ns : KNamespace) : KNamespace :=
  MkKNamespace (kns_Name ns)
    (<[KueueLegacyManagedLabelKey := "true"]> (<[KueueManagedLabelKey := "true"]> (kns_Labels ns)))
    (kns_Deleting ns).

Fixpoint ensureKueueLabelsOnManagedNamespaces (namespaces : list KNamespace) : prog (KueueE Q) (option goerr) :=
  match namespaces with
  | [] => mret None
  | ns :: namespaces =>
      let hasLegacy := HasLabel (kns_Labels ns) KueueLegacyManagedLabelKey in
      let hasManaged := HasLabel (kns_Labels ns) KueueManagedLabelKey in
      if hasLegacy && hasManaged then ensureKueueLabelsOnManagedNamespaces namespaces
      else
        err ← trigger (UpdateNamespace (with_kueue_labels ns));
        match err with
        | None => ensureKueueLabelsOnManagedNamespaces namespaces
        | Some err =>
            if negb (err_is TagNotFound err) then mret (Some err)
            else ensureKueueLabelsOnManagedNamespaces namespaces
        end
  end.

Definition resolveKueueResourceGVKs : prog (KueueE Q) (result (option kueueResourceGVKs)) :=
  let group := gvk_Group ClusterQueue in
  let kind := gvk_Kind ClusterQueue in
  found ← trigger (HasCRDWithVersion group kind (gvk_Version ClusterQueue));
  match found with
  | Err err => mret (Err err)
  | Ok true => mret (Ok (Some kueueGVKsV1Beta2))
  | Ok false =>
      found ← trigger (HasCRDWithVersion group kind (gvk_Version ClusterQueueV1Beta1));
      mret (match found with
            | Err err => Err err
            | Ok true => Ok (Some kueueGVKsV1Beta1)
            | Ok false => Ok None
            end)
  end.
End queues.

(** ** Actions *)

(** The instance, [None] when it has another type, and its texts with [%v] and [%T]. *)
Record KueueRequest := MkKueueRequest { kr_Instance : option KueueCR; kr_Text : string; kr_Type : string }.

Definition not_a_kueue (rr : KueueRequest) : goerr :=
  errorf ("resource instance " +:+ kr_Text rr +:+ " is not a componentApi.Kueue)").

Section actions.
Context `{Semver, Nested, NestedScalars, NestedMaps, KueueLib, Quantities Q, KueueObjects}.
Variables (gvk_String : GroupVersionKind → string) (NotFound_text : string → string → string → string).
Variable configured : string.

Definition initialize (rr : KueueRequest) : option goerr :=
  match kr_Instance rr with None => Some (not_a_kueue rr) | Some _ => None end.

Definition checkPreConditions (rr : KueueRequest) : prog (KueueE Q) (result CheckResult) :=
  match kr_Instance rr with
  | None => mret (Err (errorf ("resource instance " +:+ kr_Type rr +:+ " is not a componentApi.Kueue")))
  | Some kueueCRInstance =>
      let managementState := ks_ManagementState (k_Spec kueueCRInstance) in
      if String.eqb managementState Managed
      then mret (Ok (MkCheckResult false KueueStateManagedNotSupportedMessage ""))
      else if String.eqb managementState Unmanaged then
        info ← trigger (OperatorExists kueueOperator);
        mret (match info with
              | Ok _ => Ok (MkCheckResult true "" "")
              | Err err =>
                  if operator_missing err then Ok (MkCheckResult false KueueOperatorNotInstalledMessage "")
                  else Err err
              end)
      else mret (Ok (MkCheckResult true "" ""))
  end.

(** The local queues of the namespaces that are not being terminated. *)
Definition local_queues (spec : KueueSpec) (gvks : kueueResourceGVKs) (namespaces : list KNamespace)
    : list Unstructured :=
  (λ ns, createDefaultLocalQueue (ks_DefaultLocalQueueName spec) (ks_DefaultClusterQueueName spec)
           (kns_Name ns) gvks) <$> filter (λ ns, kns_Deleting ns = false) namespaces.

(** The queues for the version of the API that was found. *)
Definition create_queues_with (spec : KueueSpec) (resources : list Unstructured) (gvks : kueueResourceGVKs)
    : prog (KueueE Q) (option action_error * list Unstructured) :=
  clusterInfo ← getClusterResourceInfo;
  match clusterInfo with
  | Err err => mret (Some (ActionErr (wrapf "failed to get cluster resource info" err)), resources)
  | Ok clusterInfo =>
      let resources := resources ++ createDefaultResourceFlavors clusterInfo gvks in
      let resources :=
        resources ++ [createDefaultClusterQueue (ks_DefaultClusterQueueName spec) clusterInfo gvks] in
      managedNamespaces ← getManagedNamespaces;
      match managedNamespaces with
      | Err err => mret (Some (ActionErr (wrapf "failed to get managed namespaces" err)), resources)
      | Ok managedNamespaces =>
          err ← ensureKueueLabelsOnManagedNamespaces managedNamespaces;
          match err with
          | Some err =>
              mret (Some (ActionErr (wrapf "failed to add missing labels to managed namespaces" err)), resources)
          | None => mret (None, resources ++ local_queues spec gvks managedNamespaces)
          end
      end
  end.

(** From the test of [AutoCreateQueues] on. *)
Definition create_queues (spec : KueueSpec) (resources : list Unstructured)
    : prog (KueueE Q) (option action_error * list Unstructured) :=
  if negb (default false (ks_AutoCreateQueues spec)) then mret (None, resources)
  else
    resolvedGVKs ← resolveKueueResourceGVKs;
    match resolvedGVKs with
    | Err err => mret (Some (ActionErr (wrapf "failed to resolve kueue resource GVKs" err)), resources)
    | Ok None => mret (None, resources)
    | Ok (Some gvks) => create_queues_with spec resources gvks
    end.

(** The error and the request's resources. *)
Definition manageDefaultKueueResourcesAction (rr : KueueRequest) (resources : list Unstructured)
    : prog (KueueE Q) (option action_error * list Unstructured) :=
  match kr_Instance rr with
  | None => mret (Some (ActionErr (not_a_kueue rr)), resources)
  | Some kueueCRInstance =>
      let spec := k_Spec kueueCRInstance in
      if String.eqb (ks_ManagementState spec) Removed then mret (None, resources)
      else if String.eqb (ks_ManagementState spec) Unmanaged then
        defaultKueueConfig ← createKueueCR gvk_String NotFound_text configured;
        match defaultKueueConfig with
        | inr err => mret (Some err, resources)
        | inl cr => create_queues spec (resources ++ [cr])
        end
      else create_queues spec resources
  end.

Definition valid_admin_group (group : string) : bool :=
  negb (String.eqb group "system:authenticated") && nonempty_str group.

Definition admin_binding (adminGroups : list string) : ClusterRoleBinding :=
  MkCRB KueueAdminRoleBindingName
    ((λ group, MkSubject "Group" "rbac.authorization.k8s.io" group) <$> filter (λ g, valid_admin_group g = true) adminGroups)
    "rbac.authorization.k8s.io" "ClusterRole" KueueAdminRoleName.

Definition manageKueueAdminRoleBinding (resources : list Unstructured)
    : prog (KueueE Q) (option goerr * list Unstructured) :=
  authCR ← trigger (GetAuthAdminGroups AuthInstanceName);
  match authCR with
  | Err err =>
      if err_is TagNotFound err then mret (None, resources)
      else mret (Some (wrapf "failed to get Auth CR" err), resources)
  | Ok adminGroups =>
      added ← trigger (AddBinding (admin_binding adminGroups));
      mret (match added with
            | Err err => (Some (wrapf "error creating kueue admin ClusterRoleBinding" err), resources)
            | Ok crb => (None, resources ++ [crb])
            end)
  end.

Definition configureClusterQueueViewerRoleAction : prog (KueueE Q) (option goerr) :=
  fetched ← trigger (GetClusterRole ClusterQueueViewerRoleName);
  match fetched with
  | Err err => mret (if err_is TagNotFound err then None else Some err)
  | Ok cr =>
      if bool_decide (crole_Labels cr !! KueueBatchUserLabel = Some "true") then mret None
      else
        trigger (UpdateClusterRole
          (MkClusterRole (crole_Name cr) (<[KueueBatchUserLabel := "true"]> (crole_Labels cr)) (crole_Rules cr)))
  end.

(** The action registered between the status of deployments and the viewer role. *)
Definition markUnmanagedDeployments (rr : KueueRequest) : prog (KueueE Q) (option goerr) :=
  match kr_Instance rr with
  | None => mret (Some (not_a_kueue rr))
  | Some kueueCRInstance =>
      if String.eqb (ks_ManagementState (k_Spec kueueCRInstance)) Unmanaged then
        _ ← trigger (MarkKueue (MkMark ConditionDeploymentsAvailable ConditionFalse None None (Some SeverityInfo) None));
        mret None
      else mret None
  end.

(** ** Preconditions *)

Definition kueueDegradedConditionFilter (condType condStatus : string) : bool :=
  if String.eqb condType "Degraded" then String.eqb condStatus ConditionTrue
  else if String.eqb condType "Available" || String.eqb condType "CertManagerAvailable"
  then String.eqb condStatus ConditionFalse
  else false.

Definition kueue_operator_config : OperatorConfig :=
  MkOperatorConfig KueueConfigV1 KueueCRName "" (Some kueueDegradedConditionFilter) [] false false.

Definition monitor_kueue : PreCondition (KueueE Q) :=
  newPreCondition (Some (lift (λ X, KueueMonitor) (CheckOperatorHealth kueue_operator_config))) [].

Definition kueue_preconditions (rr : KueueRequest) : list (PreCondition (KueueE Q)) :=
  [monitor_kueue; Custom (Some (checkPreConditions rr)) [WithStopReconciliation]].

End actions.

(** ** Events of ClusterExtensions *)

Section extensions.
Context `{Nested}.

Definition text_is (obj : value_map) (path : list string) (expected : string) : bool :=
  match NestedString obj path with Ok (Some s) => String.eqb s expected | _ => false end.

(** [v, _ := m[k].(string)]. *)
Definition text_of (v : value) : string := default "" (as_string v).

Definition installed_condition (raw : value) : bool :=
  match as_map raw with
  | None => false
  | Some cond =>
      String.eqb (text_of (map_get cond "type")) "Installed" &&
      String.eqb (text_of (map_get cond "status")) "True" &&
      String.eqb (text_of (map_get cond "reason")) "Succeeded"
  end.

Definition clusterExtensionInstalled (ext : value_map) : bool :=
  match NestedSlice ext ["status"; "conditions"] with
  | Ok (Some conditions) => existsb installed_condition conditions
  | _ => false
  end.

(** [None]: the object is not an [unstructured.Unstructured]. *)
Definition clusterExtensionMatchesInstalledPackage (obj : option value_map) (packageName : string) : bool :=
  match obj with
  | None => false
  | Some u =>
      text_is u ["spec"; "source"; "sourceType"] "Catalog" &&
      text_is u ["spec"; "source"; "catalog"; "packageName"] packageName &&
      clusterExtensionInstalled u
  end.

Inductive extension_event :=
| ExtensionCreate (obj : option value_map)
| ExtensionUpdate (old new : option value_map)
| ExtensionDelete (obj : option value_map)
| ExtensionGeneric (obj : option value_map).

Definition clusterExtensionForPackage (packageName : string) (e : extension_event) : bool :=
  match e with
  | ExtensionCreate obj | ExtensionDelete obj | ExtensionGeneric obj =>
      clusterExtensionMatchesInstalledPackage obj packageName
  | ExtensionUpdate old new =>
      clusterExtensionMatchesInstalledPackage old packageName ||
      clusterExtensionMatchesInstalledPackage new packageName
  end.
End extensions.

(** ** The component handler *)

(** The part of the DSC's status that the handler writes. *)
Record DSCKueueStatus := MkDSCKueueStatus {
  dks_ManagementState : string;
  dks_Common : option KueueCommonStatus;
}.

Definition NewCRObject (kueue : KueueSpec) : KueueCR :=
  MkKueueCR KueueInstanceName {[ManagementStateAnnotation := ks_ManagementState kueue]} false kueue []
    (MkKueueCommonStatus []).

Definition IsEnabled (kueue : KueueSpec) : bool :=
  String.eqb (ks_ManagementState kueue) Managed || String.eqb (ks_ManagementState kueue) Unmanaged.

Definition NormalizeManagementState (managementState : string) : string :=
  if String.eqb managementState "" then Removed else managementState.

Section handler.
Context {Q : Type}.
(** [conditions.FindStatusCondition] of the framework. *)
Variable FindStatusCondition : list Condition → string → option Condition.

Definition empty_kueue : KueueCR :=
  MkKueueCR KueueInstanceName ∅ false (MkKueueSpec "" None "" "") [] (MkKueueCommonStatus []).

Definition mark_kueue (st : string) (reason message : option string) (sev : option severity)
    : prog (KueueE Q) unit :=
  trigger (MarkKueue (MkMark KueueReady st reason message sev None)).

(** The status for the aggregate, the error and the DSC's status. [dsc] is [None] when the
    instance is not a DataScienceCluster. *)
Definition UpdateDSCStatus (dsc : option KueueSpec) (current : DSCKueueStatus)
    : prog (KueueE Q) (string * option goerr * DSCKueueStatus) :=
  fetched ← trigger (GetKueue KueueInstanceName);
  match (match fetched with
         | Ok c => Some c
         | Err err => if err_is TagNotFound err then Some empty_kueue else None
         end) with
  | None => mret (ConditionUnknown, None, current)
  | Some c =>
      match dsc with
      | None => mret (ConditionUnknown, Some (errorf "failed to convert to DataScienceCluster"), current)
      | Some dsc =>
          let ms := NormalizeManagementState (ks_ManagementState dsc) in
          let status := MkDSCKueueStatus ms None in
          _ ← mark_kueue ConditionFalse None None None;
          if k_Deleting c then
            _ ← mark_kueue ConditionFalse (Some DeletingReason) (Some DeletingMessage) None;
            mret (ConditionFalse, None, status)
          else if IsEnabled dsc then
            let status := MkDSCKueueStatus ms (Some (k_CommonStatus c)) in
            match FindStatusCondition (k_Conditions c) ConditionTypeReady with
            | Some rc =>
                _ ← trigger (MarkKueueFrom KueueReady rc);
                mret (c_status rc, None, status)
            | None => mret (ConditionFalse, None, status)
            end
          else
            _ ← mark_kueue ConditionFalse (Some ms) (Some ("Component ManagementState is set to " +:+ ms))
                  (Some SeverityInfo);
            mret (ConditionUnknown, None, status)
      end
  end.
End handler.
