(* ===== verification/KueueTheorems.v ===== *)
(** * Kueue: properties

    Which frameworks the operator's CR offers, that the default queues are consistent with
    the flavors and the nodes, what the action adds to the request and which namespaces it
    labels, and when the preconditions stop a reconciliation. *)

From S2P Require Import Prelude Effects Conditions Unstructured Namespaces Monitor Precondition ModuleBase Conversion Admission Workload Kueue KueueController.

(** ** Frameworks *)

Section frameworks.
Context `{Semver, Nested, NestedScalars, NestedMaps}.

Lemma elem_of_foldl_union {A} (f : gset string → A → gset string) (P : A → string → Prop) (l : list A) s x :
  (∀ s a x, x ∈ f s a ↔ x ∈ s ∨ P a x) → x ∈ foldl f s l ↔ x ∈ s ∨ ∃ a, a ∈ l ∧ P a x.
Proof.
  intros Hf. revert s. induction l as [|a l IH]; intros s; simpl; [split; [by left|intros [?|(a & Ha & _)]; [done|by apply elem_of_nil in Ha]]|].
  rewrite IH, Hf. setoid_rewrite elem_of_cons. naive_solver.
Qed.

Lemma elem_of_add_default v s f x :
  x ∈ add_default v s f ↔ x ∈ s ∨ x = f ∧ isFrameworkSupported x v = true.
Proof.
  unfold add_default. destruct (isFrameworkSupported f v) eqn:Hf.
  - rewrite elem_of_union, elem_of_singleton. split; [intros [-> | ?]; auto|intros [?|[-> _]]; auto].
  - split; [auto|intros [?|[-> Hs]]; [done|congruence]].
Qed.

Lemma elem_of_add_framework v s r x :
  x ∈ add_framework v s r ↔ x ∈ s ∨ frameworkMapping !! r = Some x ∧ isFrameworkSupported x v = true.
Proof.
  unfold add_framework. destruct (frameworkMapping !! r) as [c|]; [|split; [auto|by intros [?|[]]]].
  destruct (isFrameworkSupported c v) eqn:Hc.
  - rewrite elem_of_union, elem_of_singleton. split; [intros [-> | ?]; auto|intros [?|[[= ->] _]]; auto].
  - split; [auto|intros [?|[[= ->] Hs]]; [done|congruence]].
Qed.

(** Requested by its name in the manager's configuration. *)
Definition requested (names : list string) (framework : string) : Prop :=
  ∃ name, name ∈ names ∧ frameworkMapping !! name = Some framework.

(** A sorted list of strings under a key; the key is absent when there are none. *)
Definition listed (m : value_map) (key : string) (names : list string) : Prop :=
  Sorted String.le names ∧
  map_get m key = match names with [] => VNull | _ => VSlice (VString <$> names) end.

Lemma sort_strings_Sorted l : Sorted String.le (sort_strings l).
Proof. apply Sorted_merge_sort; apply _. Qed.

Lemma set_sorted_get key names m key' :
  map_get (set_sorted key names m) key' =
  if String.eqb key key' then match names with [] => map_get m key | _ => VSlice (VString <$> sort_strings names) end
  else map_get m key'.
Proof.
  unfold set_sorted. destruct names; [by destruct (String.eqb_spec key key') as [->|]|]. by rewrite map_get_set.
Qed.

Lemma set_sorted_listed key names m :
  map_get m key = VNull → listed (set_sorted key names m) key (sort_strings names).
Proof.
  intros Hm. split; [apply sort_strings_Sorted|]. rewrite set_sorted_get, String.eqb_refl.
  destruct names as [|n names]; [done|]. destruct (sort_strings (n :: names)) eqn:Hs; [|done].
  pose proof (sort_strings_perm (n :: names)) as Hp. rewrite Hs in Hp. by apply Permutation_nil_l in Hp.
Qed.

Lemma set_sorted_other key key' names m l :
  key ≠ key' → listed m key' l → listed (set_sorted key names m) key' l.
Proof.
  intros Hk [Hs Hm]. split; [done|]. by rewrite set_sorted_get, (proj2 (String.eqb_neq key key') Hk).
Qed.

Lemma elem_of_sort_strings l x : x ∈ sort_strings l ↔ x ∈ l.
Proof. by rewrite sort_strings_perm. Qed.

Lemma NoDup_sort_strings l : NoDup l → NoDup (sort_strings l).
Proof. by rewrite sort_strings_perm. Qed.

Lemma default_supported v x : x ∈ default_frameworks → isFrameworkSupported x v = true.
Proof.
  unfold default_frameworks, isFrameworkSupported. rewrite !elem_of_union, !elem_of_singleton.
  by intros [[[[[-> | ->] | ->] | ->] | ->] | ->].
Qed.

(** The integrations are converted exactly when the three lists of the configuration are
    readable. The frameworks offered are then the six basic ones, every version-gated one
    that the installed Kueue supports, and every requested one that it supports; nothing
    that needs a newer Kueue is offered, unknown names are dropped, no name comes twice, and
    each list is sorted and left out when empty. *)
Theorem convertIntegrations_frameworks (config : value_map) (kueueVersion : string) :
  (is_ok (convertIntegrations config kueueVersion) = true ↔
   ∀ key, key ∈ ["frameworks"; "externalFrameworks"; "labelKeys"] →
     is_ok (NestedStringSlice config ["integrations"; key]) = true) ∧
  (∀ m, convertIntegrations config kueueVersion = Ok m →
   ∃ fr ext keys frameworks external,
     NestedStringSlice config ["integrations"; "frameworks"] = Ok fr ∧
     NestedStringSlice config ["integrations"; "externalFrameworks"] = Ok ext ∧
     NestedStringSlice config ["integrations"; "labelKeys"] = Ok keys ∧
     listed m "frameworks" frameworks ∧ listed m "externalFrameworks" external ∧
     listed m "labelKeys" (sort_strings (default [] keys)) ∧
     NoDup frameworks ∧ NoDup external ∧
     (∀ f, f ∈ frameworks ↔ isFrameworkSupported f kueueVersion = true ∧
        (f ∈ default_frameworks ∨ f ∈ dom frameworkMinVersion ∨ requested (default [] fr) f)) ∧
     (∀ f, f ∈ external ↔ isFrameworkSupported f kueueVersion = true ∧ requested (default [] ext) f)).
Proof.
  unfold convertIntegrations, string_slice.
  destruct (NestedStringSlice config ["integrations"; "frameworks"]) as [fr|] eqn:Hfr; cbn -[set_sorted foldl];
    [|split; [split; [done|intros Hall; specialize (Hall "frameworks"); rewrite Hfr in Hall; apply Hall; set_solver]|done]].
  destruct (NestedStringSlice config ["integrations"; "externalFrameworks"]) as [ext|] eqn:Hext; cbn -[set_sorted foldl];
    [|split; [split; [done|intros Hall; specialize (Hall "externalFrameworks"); rewrite Hext in Hall; apply Hall; set_solver]|done]].
  destruct (NestedStringSlice config ["integrations"; "labelKeys"]) as [keys|] eqn:Hkeys; cbn -[set_sorted foldl];
    [|split; [split; [done|intros Hall; specialize (Hall "labelKeys"); rewrite Hkeys in Hall; apply Hall; set_solver]|done]].
  split.
  { split; [intros _ key|done]. rewrite !elem_of_cons, elem_of_nil.
    intros [-> | [-> | [-> | []]]]; by rewrite ?Hfr, ?Hext, ?Hkeys. }
  intros m [= <-]. eexists fr, ext, keys, _, _. do 3 (split; [done|]). split_and!.
  - apply set_sorted_other; [done|]. apply set_sorted_other; [done|]. by apply set_sorted_listed.
  - apply set_sorted_other; [done|]. apply set_sorted_listed. by rewrite set_sorted_get.
  - apply set_sorted_listed. by rewrite !set_sorted_get.
  - apply NoDup_sort_strings, NoDup_elements.
  - apply NoDup_sort_strings, NoDup_elements.
  - intros f. rewrite elem_of_sort_strings, elem_of_elements.
    rewrite (elem_of_foldl_union _ _ _ _ _ (elem_of_add_framework kueueVersion)).
    rewrite (elem_of_foldl_union _ (λ f x, x = f ∧ isFrameworkSupported x kueueVersion = true) _ _ _
               (elem_of_add_default kueueVersion)).
    assert ((∃ a, a ∈ (map_to_list frameworkMinVersion).*1 ∧ f = a ∧ isFrameworkSupported f kueueVersion = true) ↔
            f ∈ dom frameworkMinVersion ∧ isFrameworkSupported f kueueVersion = true) as ->.
    { rewrite elem_of_dom. split.
      - intros (a & ([k v] & -> & Hk%elem_of_map_to_list)%list_elem_of_fmap & -> & Hs). by split; [exists v|].
      - intros [[v Hv] Hs]. exists f. split; [|done]. apply list_elem_of_fmap. exists (f, v).
        split; [done|]. by apply elem_of_map_to_list. }
    unfold requested. pose proof (default_supported kueueVersion f). naive_solver.
  - intros f. rewrite elem_of_sort_strings, elem_of_elements.
    rewrite (elem_of_foldl_union _ _ _ _ _ (elem_of_add_framework kueueVersion)). unfold requested.
    rewrite elem_of_empty. naive_solver.
Qed.
End frameworks.

(** The minimal configuration of the unit tests, with version 1.2.0 installed. *)
Definition sample_semver : Semver := λ v w, if String.eqb v w then 0%Z else (-1)%Z.

Example sample_integrations :
  @convertIntegrations sample_semver nested_scalars_documented
    [("integrations", VMap [("frameworks", VSlice [VString "batch/job"; VString "ray.io/rayjob"; VString "unknown"])])]
    "v1.2.0" =
  Ok [("frameworks", VSlice (VString <$> ["BatchJob"; "Deployment"; "Pod"; "PyTorchJob"; "RayCluster"; "RayJob";
                                           "StatefulSet"; "TrainJob"]))].
Proof. vm_compute. reflexivity. Qed.

(** ** The default queue and flavors *)

(** Reading the generated objects. *)
Definition field (v : value) (key : string) : value := match v with VMap m => map_get m key | _ => VNull end.
Definition items (v : value) : list value := match v with VSlice l => l | _ => [] end.

Definition queue_groups (queue : Unstructured) : list value :=
  items (field (field (VMap (u_object queue)) "spec") "resourceGroups").
Definition group_covered (group : value) : list string := text_of <$> items (field group "coveredResources").
Definition flavor_quotas (flavor : value) : list (string * string) :=
  (λ r, (text_of (field r "name"), text_of (field r "nominalQuota"))) <$> items (field flavor "resources").
Definition group_flavors (group : value) : list (string * list (string * string)) :=
  (λ f, (text_of (field f "name"), flavor_quotas f)) <$> items (field group "flavors").

Section queues.
Context `{Quantities Q, KueueLib, KueueObjects, !KueueObjectsLaws}.
Implicit Types (nodes : list (KNode Q)).

(** What the nodes offer of a resource, in their order. *)
Definition offers (resource : string) nodes : list Q := omap (λ node, kn_Allocatable node !! resource) nodes.

Definition total (l : list Q) : Q := foldl q_Add q_zero l.

Lemma extract_other node keys gpus key :
  key ∉ keys → foldl (extract_gpu node) gpus keys !! key = gpus !! key.
Proof.
  revert gpus. induction keys as [|k keys IH]; intros gpus Hk; [done|]. simpl.
  apply not_elem_of_cons in Hk as [Hne Hk]. rewrite IH by done. unfold extract_gpu.
  destruct (kn_Allocatable node !! k); [|done]. by rewrite lookup_insert_ne.
Qed.

Lemma extract_lookup node keys gpus key : NoDup keys → key ∈ keys →
  foldl (extract_gpu node) gpus keys !! key =
  match kn_Allocatable node !! key with
  | None => gpus !! key
  | Some quantity => Some (q_Add (default q_zero (gpus !! key)) quantity)
  end.
Proof.
  revert gpus. induction keys as [|k keys IH]; intros gpus Hnd Hk; [by apply elem_of_nil in Hk|]. simpl.
  apply NoDup_cons in Hnd as [Hnin Hnd]. apply elem_of_cons in Hk as [-> | Hk].
  - rewrite extract_other by done. unfold extract_gpu.
    destruct (kn_Allocatable node !! k); [|done]. by rewrite lookup_insert_eq.
  - rewrite IH by done. unfold extract_gpu. destruct (kn_Allocatable node !! k) eqn:Hn; [|done].
    rewrite lookup_insert_ne by (by intros ->). done.
Qed.

Lemma gpu_info_lookup nodes key :
  ri_GPUInfo (cluster_info nodes) !! key =
  if bool_decide (key ∈ (map_to_list supportedGPUMap).*1) && negb (bool_decide (offers key nodes = []))
  then Some (total (offers key nodes)) else None.
Proof.
  induction nodes as [|node nodes IH] using rev_ind; [by rewrite andb_false_r|].
  unfold cluster_info in *. rewrite foldl_app. simpl. unfold offers, total in *.
  rewrite omap_app, foldl_app. simpl. case_bool_decide as Hk.
  - rewrite extract_lookup by (done || apply NoDup_fst_map_to_list). simpl.
    destruct (kn_Allocatable node !! key) as [q|]; simpl.
    + rewrite bool_decide_false by (intros []%app_eq_nil; done). rewrite IH. simpl.
      case_bool_decide as He; [by rewrite He|done].
    + by rewrite app_nil_r, IH.
  - rewrite extract_other by done. simpl. rewrite IH. done.
Qed.

Lemma cpu_info nodes : ri_CPU (cluster_info nodes) = total ((λ n, rl_Cpu (kn_Allocatable n)) <$> nodes).
Proof.
  unfold cluster_info, total. induction nodes as [|node nodes IH] using rev_ind; [done|].
  rewrite fmap_app, !foldl_app. simpl. by rewrite IH.
Qed.

Lemma memory_info nodes : ri_Memory (cluster_info nodes) = total ((λ n, rl_Memory (kn_Allocatable n)) <$> nodes).
Proof.
  unfold cluster_info, total. induction nodes as [|node nodes IH] using rev_ind; [done|].
  rewrite fmap_app, !foldl_app. simpl. by rewrite IH.
Qed.

(** The GPU resources that some node offers. *)
Definition offered_gpus nodes : list string := (map_to_list (ri_GPUInfo (cluster_info nodes))).*1.

Lemma elem_of_offered_gpus nodes key :
  key ∈ offered_gpus nodes ↔ key ∈ [NvidiaGPUResourceKey; AMDGPUResourceKey] ∧ offers key nodes ≠ [].
Proof.
  unfold offered_gpus. assert (∀ {A} (m : gmap string A) k, k ∈ (map_to_list m).*1 ↔ is_Some (m !! k)) as Hfst.
  { intros A m k. rewrite list_elem_of_fmap. split.
    - intros ([k' x] & -> & Hx%elem_of_map_to_list). by exists x.
    - intros [x Hx]. exists (k, x). split; [done|]. by apply elem_of_map_to_list. }
  rewrite Hfst, gpu_info_lookup.
  assert (key ∈ (map_to_list supportedGPUMap).*1 ↔ key ∈ [NvidiaGPUResourceKey; AMDGPUResourceKey]) as Hkeys.
  { assert (Permutation ((map_to_list supportedGPUMap).*1) [NvidiaGPUResourceKey; AMDGPUResourceKey]) as ->; [|done].
    vm_compute. apply reflexivity || apply perm_swap. }
  case_bool_decide as Hk; case_bool_decide as Ho; simpl; split; try (intros [? [=]]); try (intros [??]); try naive_solver.
Qed.

Lemma flavor_value_spec flavor :
  (text_of (field (flavor_value flavor) "name"), flavor_quotas (flavor_value flavor)) =
  (fl_Name flavor, (λ r, (fr_Name r, fr_Value r)) <$> fl_Resources flavor).
Proof.
  unfold flavor_quotas, flavor_value. cbn. f_equal. rewrite <-list_fmap_compose. by apply list_fmap_ext.
Qed.

Lemma group_flavors_spec flavors :
  group_flavors (createResourceGroup flavors) =
  (λ f, (fl_Name f, (λ r, (fr_Name r, fr_Value r)) <$> fl_Resources f)) <$> flavors.
Proof.
  unfold group_flavors, createResourceGroup. cbn. rewrite <-list_fmap_compose.
  apply list_fmap_ext. intros. apply flavor_value_spec.
Qed.

Lemma group_covered_spec flavors : group_covered (createResourceGroup flavors) = covered_resources flavors.
Proof.
  unfold group_covered, createResourceGroup. cbn. rewrite <-list_fmap_compose.
  etransitivity; [|apply list_fmap_id]. by apply list_fmap_ext.
Qed.

Lemma queue_groups_spec name info gvks :
  queue_groups (createDefaultClusterQueue name info gvks) = createResourceGroup <$> resource_groups info.
Proof. done. Qed.

Lemma covered_default info : covered_resources (default_group info) = ["cpu"; "memory"].
Proof. vm_compute. reflexivity. Qed.

Lemma covered_gpu info label : covered_resources (gpu_group info label) = [label].
Proof.
  unfold covered_resources, gpu_group. change (concat _) with [label].
  assert ((list_to_set [label] : gset string) = {[label]}) as -> by set_solver.
  by rewrite elements_singleton.
Qed.

(** Resources with their quotas, over all groups. *)
Definition queue_quotas (queue : Unstructured) : list (string * string) :=
  concat (concat ((λ g, (group_flavors g).*2) <$> queue_groups queue)).
Definition queue_flavors (queue : Unstructured) : list string :=
  concat ((λ g, (group_flavors g).*1) <$> queue_groups queue).
Definition queue_covered (queue : Unstructured) : list string := concat (group_covered <$> queue_groups queue).

Lemma concat_singletons {A B} (g : A → list B) (f : A → B) (l : list A) :
  (∀ a, g a = [f a]) → concat (g <$> l) = f <$> l.
Proof. intros Hg. induction l as [|a l IH]; [done|]. cbn. rewrite Hg. cbn. f_equal. exact IH. Qed.

Definition sorted_gpus nodes : list string := sort_strings (offered_gpus nodes).

Lemma queue_covered_spec name nodes gvks :
  queue_covered (createDefaultClusterQueue name (cluster_info nodes) gvks) = "cpu" :: "memory" :: sorted_gpus nodes.
Proof.
  unfold queue_covered. rewrite queue_groups_spec. unfold resource_groups. cbn [fmap list_fmap concat].
  rewrite group_covered_spec, covered_default. cbn. do 2 f_equal. rewrite <-!list_fmap_compose.
  rewrite (concat_singletons _ id), list_fmap_id; [done|].
  intros label. unfold compose. by rewrite group_covered_spec, covered_gpu.
Qed.

Lemma queue_flavors_spec name nodes gvks :
  queue_flavors (createDefaultClusterQueue name (cluster_info nodes) gvks) =
  DefaultFlavorName :: (gpu_flavor <$> sorted_gpus nodes).
Proof.
  unfold queue_flavors. rewrite queue_groups_spec. unfold resource_groups. cbn [fmap list_fmap concat].
  rewrite group_flavors_spec. cbn. f_equal. rewrite <-!list_fmap_compose.
  apply concat_singletons. intros label. unfold compose. by rewrite group_flavors_spec.
Qed.

Lemma queue_quotas_spec name nodes gvks :
  queue_quotas (createDefaultClusterQueue name (cluster_info nodes) gvks) =
  ("cpu", q_String (ri_CPU (cluster_info nodes))) :: ("memory", q_String (ri_Memory (cluster_info nodes))) ::
  ((λ label, (label, q_String (default q_zero (ri_GPUInfo (cluster_info nodes) !! label)))) <$> sorted_gpus nodes).
Proof.
  unfold queue_quotas. rewrite queue_groups_spec. unfold resource_groups. cbn [fmap list_fmap concat].
  rewrite group_flavors_spec. cbn. do 2 f_equal. rewrite <-!list_fmap_compose.
  unfold sorted_gpus, offered_gpus. induction (sort_strings _) as [|label l IH]; [done|].
  cbn [fmap list_fmap concat]. rewrite concat_app, IH. unfold compose. by rewrite group_flavors_spec.
Qed.

Lemma NoDup_offered_gpus nodes : NoDup (offered_gpus nodes).
Proof. apply NoDup_fst_map_to_list. Qed.

Lemma elem_of_sorted_gpus nodes key :
  key ∈ sorted_gpus nodes ↔ (key = NvidiaGPUResourceKey ∨ key = AMDGPUResourceKey) ∧ offers key nodes ≠ [].
Proof.
  unfold sorted_gpus. rewrite elem_of_sort_strings, elem_of_offered_gpus, !elem_of_cons, elem_of_nil. naive_solver.
Qed.

Lemma default_queue_flavors nodes name gvks :
  queue_flavors (createDefaultClusterQueue name (cluster_info nodes) gvks) ≡ₚ
    u_name <$> createDefaultResourceFlavors (cluster_info nodes) gvks ∧
  NoDup (u_name <$> createDefaultResourceFlavors (cluster_info nodes) gvks).
Proof.
  assert (u_name <$> createDefaultResourceFlavors (cluster_info nodes) gvks ≡ₚ
          DefaultFlavorName :: (gpu_flavor <$> sorted_gpus nodes)) as Hnames.
  { unfold createDefaultResourceFlavors. cbn. constructor. rewrite <-list_fmap_compose.
    unfold compose. cbn. unfold sorted_gpus, offered_gpus. by rewrite range_gpus_perm, sort_strings_perm. }
  split; [by rewrite queue_flavors_spec, Hnames|]. rewrite Hnames. apply NoDup_cons. split.
  { rewrite list_elem_of_fmap. by intros (k & Hk & [[-> | ->] _]%elem_of_sorted_gpus). }
  apply NoDup_fmap_2_strong; [|apply NoDup_sort_strings, NoDup_offered_gpus].
  intros k k' [[-> | ->] _]%elem_of_sorted_gpus [[-> | ->] _]%elem_of_sorted_gpus; by vm_compute.
Qed.

(** The default ClusterQueue fits the flavors generated with it and the nodes it was
    generated from. Every resource is covered by one group only, each flavor gives quotas for
    exactly the resources its group covers, the flavors it uses are those that are created,
    each once, and the quotas are the sums over all nodes: of cpu and memory always, of a GPU
    resource exactly when some node offers it. *)
Theorem default_queue_consistent (nodes : list (KNode Q)) (name : string) (gvks : kueueResourceGVKs) :
  NoDup (queue_covered (createDefaultClusterQueue name (cluster_info nodes) gvks)) ∧
  (∀ group flavor, group ∈ queue_groups (createDefaultClusterQueue name (cluster_info nodes) gvks) →
     flavor ∈ group_flavors group → flavor.2.*1 = group_covered group) ∧
  queue_flavors (createDefaultClusterQueue name (cluster_info nodes) gvks) ≡ₚ
    u_name <$> createDefaultResourceFlavors (cluster_info nodes) gvks ∧
  NoDup (u_name <$> createDefaultResourceFlavors (cluster_info nodes) gvks) ∧
  (∀ resource quota,
     (resource, quota) ∈ queue_quotas (createDefaultClusterQueue name (cluster_info nodes) gvks) ↔
     resource = "cpu" ∧ quota = q_String (total ((λ n, rl_Cpu (kn_Allocatable n)) <$> nodes)) ∨
     resource = "memory" ∧ quota = q_String (total ((λ n, rl_Memory (kn_Allocatable n)) <$> nodes)) ∨
     (resource = NvidiaGPUResourceKey ∨ resource = AMDGPUResourceKey) ∧ offers resource nodes ≠ [] ∧
       quota = q_String (total (offers resource nodes))).
Proof.
  destruct (default_queue_flavors nodes name gvks) as [Hflavors Hnd].
  split_and!.
  - rewrite queue_covered_spec. apply NoDup_cons. split.
    { rewrite elem_of_cons, elem_of_sorted_gpus. by intros [|[[] _]]. }
    apply NoDup_cons. split; [rewrite elem_of_sorted_gpus; by intros [[] _]|].
    apply NoDup_sort_strings, NoDup_offered_gpus.
  - intros group flavor. rewrite queue_groups_spec. unfold resource_groups. cbn [fmap list_fmap].
    rewrite elem_of_cons, list_elem_of_fmap. intros [-> | (fs & -> & (label & -> & _)%list_elem_of_fmap)];
      rewrite group_flavors_spec, group_covered_spec, ?covered_default, ?covered_gpu; cbn;
      by rewrite elem_of_cons, elem_of_nil; intros [-> | []].
  - done.
  - done.
  - intros resource quota. rewrite queue_quotas_spec, <-cpu_info, <-memory_info, !elem_of_cons, list_elem_of_fmap.
    setoid_rewrite elem_of_sorted_gpus. split.
    + intros [[= -> ->] | [[= -> ->] | (k & [= -> ->] & [Hk Ho])]]; [by left|by right; left|].
      right; right. split_and!; [done..|]. f_equal. rewrite gpu_info_lookup, bool_decide_true, bool_decide_false; [done..|].
      by destruct Hk as [-> | ->]; vm_compute; repeat constructor.
    + intros [[-> ->] | [[-> ->] | (Hk & Ho & ->)]]; [by left|by right; left|].
      right; right. exists resource. split; [|done]. f_equal. f_equal.
      rewrite gpu_info_lookup, bool_decide_true, bool_decide_false; [done..|].
      by destruct Hk as [-> | ->]; vm_compute; repeat constructor.
Qed.


End queues.

(** ** What the action adds to the request *)

Section adds.
Context `{Quantities Q, KueueLib, KueueObjects, !KueueObjectsLaws}.
Implicit Types (tr : list (call (KueueE Q))).



(** A namespace that was written, or found gone when writing it. *)
Definition written_by (c : call (KueueE Q)) : list KNamespace :=
  match c with
  | Call e x =>
      match e in KueueE _ X return X → list KNamespace with
      | UpdateNamespace ns => λ r,
          match r with None => [ns] | Some err => if err_is TagNotFound err then [ns] else [] end
      | _ => λ _, []
      end x
  end.

Definition written_namespaces tr : list KNamespace := concat (written_by <$> tr).

Lemma written_app tr tr' : written_namespaces (tr ++ tr') = written_namespaces tr ++ written_namespaces tr'.
Proof. unfold written_namespaces. by rewrite fmap_app, concat_app. Qed.

(** Both labels are there already, or were written. *)
Definition labelled tr (ns : KNamespace) : Prop :=
  HasLabel (kns_Labels ns) KueueLegacyManagedLabelKey && HasLabel (kns_Labels ns) KueueManagedLabelKey = true ∨
  with_kueue_labels ns ∈ written_namespaces tr.

Lemma labelled_mono tr tr' ns : labelled tr ns → labelled (tr ++ tr') ns.
Proof. unfold labelled. rewrite written_app, elem_of_app. naive_solver. Qed.









Definition kind_is (kind : string) (o : Unstructured) : Prop := gvk_Kind (u_gvk o) = kind.

#[local] Instance kind_is_dec kind o : Decision (kind_is kind o).
Proof. unfold kind_is. apply _. Defined.











Context `{Semver, Nested, NestedScalars, NestedMaps}.
Variables (gvk_String : GroupVersionKind → string) (NotFound_text : string → string → string → string).
Variable configured : string.






End adds.

(** ** A cluster *)

Definition quantities_int : Quantities Z := {|
  q_zero := 0%Z;
  q_Add := Z.add;
  q_String := itoa;
  rl_Cpu m := default 0%Z (m !! "cpu");
  rl_Memory m := default 0%Z (m !! "memory");
|}.

Definition objects_documented : KueueObjects := {|
  HasLabel m k := bool_decide (is_Some (m !! k));
  range_gpus A m := (map_to_list m).*1;
  range_namespaces m := (map_to_list m).*2;
|}.

Lemma objects_documented_laws : @KueueObjectsLaws objects_documented.
Proof. split; done. Qed.

Definition lib_sample : KueueLib := {|
  yaml_Unmarshal _ := Ok [];
  ToUnstructured := Ok;
  u_SetGroupVersionKind _ m := m;
  u_SetName _ m := m;
  u_SetAnnotations _ m := m;
  GroupVersion_String g := gvk_Group g +:+ "/" +:+ gvk_Version g;
|}.

Definition sample_nodes : list (KNode Z) :=
  [MkKNode "a" (list_to_map [("cpu", 4%Z); ("nvidia.com/gpu", 1%Z)]);
   MkKNode "b" (list_to_map [("cpu", 8%Z); ("memory", 16%Z); ("nvidia.com/gpu", 2%Z)])].

Definition sample_spec : KueueSpec := MkKueueSpec Unmanaged (Some true) "local" "queue".
Definition sample_kueue : KueueCR := MkKueueCR "default-kueue" ∅ false sample_spec [] (MkKueueCommonStatus []).

(** The answers of the cluster; one of its three managed namespaces is terminating. *)
Definition sample_cluster : ∀ X, KueueE Z X → unit → X * unit := λ X e w,
  (match e in KueueE _ X return X with
   | KueueCluster e => match e in ClusterE X return X with ListDSCI => Ok [] | ListWebhookConfigurations => Ok [] end
   | KueueMonitor e =>
       match e in MonitorE X return X with
       | GetCRD _ => Err (errorf "") | GetCR _ _ _ => Err (errorf "") | ListCRs _ _ _ => Ok []
       end
   | GetConfigMapData _ _ => Ok ∅
   | OperatorExists _ => Ok "v1.2.0"
   | HasCRDWithVersion _ _ version => Ok (String.eqb version "v1beta1")
   | ListNodes => Ok sample_nodes
   | ListNamespaces label _ =>
       if String.eqb label KueueManagedLabelKey
       then Ok [MkKNamespace "one" {[KueueManagedLabelKey := "true"]} false;
                MkKNamespace "gone" {[KueueManagedLabelKey := "true"]} true]
       else Ok [MkKNamespace "two" {[KueueLegacyManagedLabelKey := "true"]} false]
   | UpdateNamespace _ => None
   | GetClusterRole _ => Err (errorf "")
   | UpdateClusterRole _ => None
   | GetAuthAdminGroups _ => Ok []
   | AddBinding _ => Err (errorf "")
   | GetKueue _ => Ok sample_kueue
   | MarkKueue _ => tt
   | MarkKueueFrom _ _ => tt
   end, w).

Definition sample_action : prog (KueueE Z) (option action_error * list Unstructured) :=
  @manageDefaultKueueResourcesAction sample_semver nested_documented nested_scalars_documented
    nested_maps_documented lib_sample Z quantities_int objects_documented gvk_text (λ _ _ _, "") "apps"
    (MkKueueRequest (Some sample_kueue) "" "") [].

Example sample_run :
  let res := (run sample_cluster sample_action tt []).1.1 in
  res.1 = None ∧
  ((λ o, (gvk_Kind (u_gvk o), u_namespace o, u_name o)) <$> res.2) =
    [("Kueue", "", "cluster"); ("ResourceFlavor", "", "default-flavor"); ("ResourceFlavor", "", "nvidia-gpu-flavor");
     ("ClusterQueue", "", "queue"); ("LocalQueue", "one", "local"); ("LocalQueue", "two", "local")].
Proof. vm_compute. split; reflexivity. Qed.


Lemma default_queue_consistent_witness :
  @queue_quotas (@createDefaultClusterQueue Z quantities_int lib_sample "queue" (@cluster_info Z quantities_int sample_nodes) kueueGVKsV1Beta2) =
    [("cpu", "12"); ("memory", "16"); ("nvidia.com/gpu", "3")] ∧
  NoDup (@queue_covered (@createDefaultClusterQueue Z quantities_int lib_sample "queue" (@cluster_info Z quantities_int sample_nodes) kueueGVKsV1Beta2)).
Proof.
  split; [vm_compute; reflexivity|].
  exact (proj1 (@default_queue_consistent Z quantities_int lib_sample objects_documented
    objects_documented_laws sample_nodes "queue" kueueGVKsV1Beta2)).
Defined.

(** ** Preconditions and roles *)

Section preconditions.
Context `{Nested} {Q : Type}.
Implicit Types (tr : list (call (KueueE Q))).

(** What asking for the operator was answered. *)
Definition operator_answer (c : call (KueueE Q)) : option (result string) :=
  match c with
  | Call e x =>
      match e in KueueE _ X return X → option (result string) with
      | OperatorExists _ => λ r, Some r
      | _ => λ _, None
      end x
  end.

(** Why a reconciliation must not go on. *)
Definition must_stop (rr : KueueRequest) tr : Prop :=
  match kr_Instance rr with
  | None => True
  | Some k =>
      ks_ManagementState (k_Spec k) = Managed ∨
      ks_ManagementState (k_Spec k) = Unmanaged ∧ ∃ err, Err err ∈ omap operator_answer tr
  end.

Lemma checkPreConditions_stops (rr : KueueRequest) tr :
  omap operator_answer tr = [] →
  wp (checkPreConditions rr) tr (λ tr' res,
    match res with Ok r => ConditionStatus r ≠ ConditionTrue | Err _ => True end ↔ must_stop rr tr').
Proof.
  intros Hnone. unfold checkPreConditions, must_stop. destruct (kr_Instance rr) as [k|]; [|done].
  destruct (String.eqb_spec (ks_ManagementState (k_Spec k)) Managed) as [Hm|Hm].
  { cbn. split; [by left|]. intros _. by vm_compute. }
  destruct (String.eqb_spec (ks_ManagementState (k_Spec k)) Unmanaged) as [Hu|Hu].
  - cbn. intros [v|e]; rewrite omap_app, Hnone; cbn.
    + split; [intros []; by vm_compute|]. intros [?|(_ & err & [=]%list_elem_of_singleton)]; done.
    + destruct (operator_missing e); cbn; split; intros _; [right|by vm_compute|right|done];
        (split; [done|]); exists e; by apply list_elem_of_singleton.
  - cbn. split; [intros []; by vm_compute|]. intros [?|[? _]]; done.
Qed.

Definition custom_check (rr : KueueRequest) : PreCondition (KueueE Q) :=
  Custom (Some (checkPreConditions rr)) [WithStopReconciliation].

Lemma monitor_calls {X} (p : prog MonitorE X) tr :
  wp (lift (λ X, @KueueMonitor Q X) p) tr (λ tr' _, omap operator_answer tr' = omap operator_answer tr).
Proof.
  assert (wp p [] (λ _ _, True)) as Hp by (eapply wp_mono; [|apply wp_prefix]; done).
  eapply wp_mono; [|exact (wp_lift (λ X, @KueueMonitor Q X) p [] tr _ Hp)].
  intros tr' a (new & _ & ->). rewrite omap_app.
  etransitivity; [|apply app_nil_r]. f_equal. induction new as [|[Y e y] new IH]; [done|exact IH].
Qed.

Lemma custom_report (rr : KueueRequest) clusterType tr :
  omap operator_answer tr = [] →
  wp (run_one clusterType (custom_check rr)) tr (λ tr' report, report ≠ None ↔ must_stop rr tr').
Proof.
  intros Hnone. unfold run_one. cbn -[checkPreConditions]. unfold run_check. cbn -[checkPreConditions].
  apply wp_bind. eapply wp_mono; [|by apply checkPreConditions_stops].
  intros tr' [r|e] Hiff; cbn -[must_stop ConditionStatus] in *; [|naive_solver].
  destruct (String.eqb_spec (ConditionStatus r) ConditionTrue); cbn -[must_stop]; naive_solver.
Qed.

(** Before each reconciliation of a Kueue component both preconditions are evaluated, and the
    reconciliation stops exactly when the instance is not a Kueue, when it is Managed, or
    when it is Unmanaged and the operator was not found or could not be looked for; the
    health of an installed operator is reported but never stops it. *)
Theorem preconditions_stop_iff (rr : KueueRequest) (clusterType : string) (generation : Z) :
  wp (RunAll clusterType generation (kueue_preconditions rr)) [] (λ tr res,
    (res.2 = true ↔ must_stop rr tr) ∧ m_type <$> res.1 = [ConditionDependenciesAvailable]).
Proof.
  unfold RunAll, kueue_preconditions. apply wp_bind. cbn [prog_foldl]. unfold run_step.
  apply wp_bind, wp_bind. 
  assert (wp (run_one clusterType monitor_kueue) [] (λ tr' _ : _, omap operator_answer tr' = [])) as Hmonitor.
  { unfold run_one. cbn -[CheckOperatorHealth]. unfold run_check. cbn -[CheckOperatorHealth]. apply wp_bind.
    eapply wp_mono; [|apply monitor_calls]. intros tr' [r|e] Htr'; cbn; [by destruct (negb _)|done]. }
  eapply wp_mono; [|exact Hmonitor]. intros tr1 r1 Htr1. apply wp_ret, wp_bind, wp_bind.
  eapply wp_mono; [|by apply custom_report]. intros tr2 r2 Hr2. do 3 apply wp_ret.
  destruct (write_results_aggregated generation [(monitor_kueue, r1); (custom_check rr, r2)])
    as (Hnd & Htypes & _ & Hstop). cbn [foldl] in *. split.
  - etransitivity; [exact Hstop|]. rewrite <-Hr2. split.
    + intros (pc & st & msg & [[= -> _]|[[= -> <-]|[]%elem_of_nil]%elem_of_cons]%elem_of_cons & Hs); [by vm_compute in Hs|done].
    + destruct r2 as [[st msg]|]; [|done]. intros _. exists (custom_check rr), st, msg. split; [|done].
      by right; left.
  - apply Permutation_singleton_r, NoDup_Permutation; [exact Hnd|apply NoDup_singleton|].
    intros ct. etransitivity; [apply Htypes|]. cbn. rewrite !elem_of_cons, elem_of_nil. naive_solver.
Qed.
End preconditions.

Section roles.
Context `{Quantities Q}.

(** The groups of a binding that was added. *)
Definition bound_groups (c : call (KueueE Q)) : list string :=
  match c with
  | Call e _ => match e with AddBinding crb => sub_Name <$> crb_Subjects crb | _ => [] end
  end.

(** The admin role is bound to the groups of the Auth CR, never to all authenticated users
    or to the empty name, whatever the CR says. *)
Lemma admin_binding_groups (resources : list Unstructured) :
  wp (manageKueueAdminRoleBinding resources) [] (λ tr res,
    ∀ c group, c ∈ tr → group ∈ bound_groups c → group ≠ "system:authenticated" ∧ group ≠ "" ∧
      ∃ groups, Call (GetAuthAdminGroups AuthInstanceName) (Ok groups) ∈ tr ∧ group ∈ groups).
Proof.
  unfold manageKueueAdminRoleBinding. cbn -[admin_binding]. intros [groups|e]; cbn -[admin_binding].
  2: { destruct (err_is _ e); cbn; by intros c group ->%list_elem_of_singleton ?%elem_of_nil. }
  intros answer c group [->|[->|[]%elem_of_nil]%elem_of_cons]%elem_of_cons; [by intros ?%elem_of_nil|].
  cbn. rewrite <-list_fmap_compose. intros (g & -> & [Hv Hg]%list_elem_of_filter)%list_elem_of_fmap. cbn.
  unfold valid_admin_group, nonempty_str in Hv.
  destruct (String.eqb_spec g "system:authenticated"), (String.eqb_spec g ""); try done.
  split_and!; [done..|]. exists groups. split; [by left|done].
Qed.
End roles.
