(* ===== verification/HardwareProfile.v ===== *)
(** * Hardware profiles: mutation of inference workloads

    [internal/webhook/hardwareprofile/mutating.go]: a workload annotated with a hardware profile
    gets the profile's resources and scheduling settings; when the annotation goes away, the
    profile's scheduling settings are removed again. Admission must not fail on workloads of
    older releases, so a workload whose containers do not fit is admitted with a warning.

    Quantities, the conversion of a toleration and the order in which Go ranges over a map are
    the fields of [HwpLib]. *)

From S2P Require Import Prelude Effects Unstructured Conversion Admission Workload.

(** ** Data *)

Definition HardwareProfileNameAnnotation : string := "opendatahub.io/hardware-profile-name".
Definition HardwareProfileNamespaceAnnotation : string := "opendatahub.io/hardware-profile-namespace".
Definition LLMInferenceServiceMainContainerName : string := "main".
Definition KueueQueueNameLabel : string := "kueue.x-k8s.io/queue-name".

Inductive IntOrString :=
| IntVal (z : Z)
| StrVal (s : string)
| OtherType (t : Z).

Record HardwareIdentifier := MkIdentifier { Identifier : string; DefaultCount : IntOrString }.

Record Toleration := MkToleration {
  tol_Key : string;
  tol_Operator : string;
  tol_Value : string;
  tol_Effect : string;
  tol_Seconds : option Z;
}.

Record NodeSchedulingSpec := MkNodeSpec {
  NodeSelector : gmap string string;
  Tolerations : list Toleration;
}.

(** The Kueue part is its local queue name. *)
Record SchedulingSpec := MkScheduling { KueueSpec : option string; NodeSpec : option NodeSchedulingSpec }.

Record HardwareProfile := MkHardwareProfile {
  hwp_Name : string;
  Identifiers : list HardwareIdentifier;
  Scheduling : option SchedulingSpec;
}.

(** A warning event on the workload: reason and message. *)
Inductive HwpE : Type → Type :=
| GetHardwareProfile (namespace name : string) : HwpE (result HardwareProfile)
| CreateEvent (name namespace reason message : string) : HwpE (option goerr).

Class HwpLib := {
  quantity_of_int : Z → string;
  ParseQuantity : string → result string;
  toleration_ToUnstructured : Toleration → result value_map;
  fmt_other : value → string;
  range_map : gmap string string → list (string * string);
}.

(** ** Workload kinds *)

Record WorkloadConfig := MkWorkloadConfig {
  ContainersPath : list string;
  NodeSelectorPath : list string;
  TolerationsPath : list string;
}.

Definition InferenceServices : GroupVersionKind := MkGVK "serving.kserve.io" "v1beta1" "InferenceService".
Definition LLMInferenceServiceV1Alpha1 : GroupVersionKind :=
  MkGVK "serving.kserve.io" "v1alpha1" "LLMInferenceService".
Definition LLMInferenceServiceV1Alpha2 : GroupVersionKind :=
  MkGVK "serving.kserve.io" "v1alpha2" "LLMInferenceService".

Definition isExpectedKind (kind : GroupVersionKind) : bool :=
  bool_decide (kind ∈ [InferenceServices; LLMInferenceServiceV1Alpha1; LLMInferenceServiceV1Alpha2]).

Definition GetWorkloadConfig (kind : string) : result WorkloadConfig :=
  if String.eqb kind (gvk_Kind InferenceServices) then
    Ok (MkWorkloadConfig ["spec"; "predictor"; "model"] ["spec"; "predictor"; "nodeSelector"]
          ["spec"; "predictor"; "tolerations"])
  else if String.eqb kind (gvk_Kind LLMInferenceServiceV1Alpha1) then
    Ok (MkWorkloadConfig ["spec"; "template"; "containers"] ["spec"; "template"; "nodeSelector"]
          ["spec"; "template"; "tolerations"])
  else Err (errorf ("unsupported workload kind: " +:+ kind)).

(** [name, _ := m["name"].(string)] of a container that is a map. *)
Definition container_named (name : string) (c : value) : bool :=
  match c with
  | VMap m => String.eqb (default "" (as_string (map_get m "name"))) name
  | _ => false
  end.

Section hardware_profile.
Context `{Nested, NestedWrite, NestedMaps, Marshal, HwpLib}.

(** ** Validation of container names *)

Inductive validation_error :=
| NoMatchingContainerError (kind name namespace expected : string)
| OtherValidationError (err : goerr).

Definition Error (err : validation_error) : string :=
  match err with
  | NoMatchingContainerError kind name namespace expected =>
      "no matching main container found in " +:+ kind +:+ " '" +:+ namespace +:+ "/" +:+ name +:+
      "': expected container name '" +:+ expected +:+ "'"
  | OtherValidationError err => err_text err
  end.

Definition validateContainerNames (obj : Workload) : option validation_error :=
  match GetWorkloadConfig (w_Kind obj) with
  | Err err => Some (OtherValidationError err)
  | Ok config =>
      if String.eqb (w_Kind obj) (gvk_Kind InferenceServices) then None
      else
        match NestedSlice (w_Object obj) (ContainersPath config) with
        | Err err => Some (OtherValidationError (wrapf "failed to access containers" err))
        | Ok None => None
        | Ok (Some []) => None
        | Ok (Some containers) =>
            if String.eqb (w_Kind obj) (gvk_Kind LLMInferenceServiceV1Alpha1) then
              if existsb (container_named LLMInferenceServiceMainContainerName) containers then None
              else Some (NoMatchingContainerError (w_Kind obj) (w_Name obj) (w_Namespace obj)
                           LLMInferenceServiceMainContainerName)
            else None
        end
  end.

(** ** Resources *)

Definition convertIntOrStringToQuantity (v : IntOrString) : result string :=
  match v with
  | IntVal z => Ok (quantity_of_int z)
  | StrVal s => ParseQuantity s
  | OtherType t => Err (errorf ("invalid IntOrString type: " +:+ itoa t))
  end.

Fixpoint applyIdentifiersToRequests (requests : value_map) (identifiers : list HardwareIdentifier)
    : result value_map :=
  match identifiers with
  | [] => Ok requests
  | identifier :: identifiers =>
      if map_has requests (Identifier identifier) then applyIdentifiersToRequests requests identifiers
      else
        match convertIntOrStringToQuantity (DefaultCount identifier) with
        | Err err =>
            Err (wrapf ("failed to convert resource quantity for " +:+ Identifier identifier) err)
        | Ok quantity =>
            applyIdentifiersToRequests (map_set requests (Identifier identifier) (VString quantity)) identifiers
        end
  end.

Fixpoint applyIdentifiersToLimits (requests limits : value_map) (identifiers : list HardwareIdentifier)
    : value_map :=
  match identifiers with
  | [] => limits
  | identifier :: identifiers =>
      if map_has limits (Identifier identifier) then applyIdentifiersToLimits requests limits identifiers
      else if negb (map_has requests (Identifier identifier))
      then applyIdentifiersToLimits requests limits identifiers
      else
        applyIdentifiersToLimits requests
          (map_set limits (Identifier identifier) (map_get requests (Identifier identifier))) identifiers
  end.

Definition applyIdentifiersToContainer (container : value) (identifiers : list HardwareIdentifier)
    : result value :=
  match container with
  | VMap containerMap =>
      resourcesMap ← GetOrCreateNestedMap containerMap "resources";
      requests ← GetOrCreateNestedMap resourcesMap "requests";
      requests ← applyIdentifiersToRequests requests identifiers;
      limits ← GetOrCreateNestedMap resourcesMap "limits";
      let limits := applyIdentifiersToLimits requests limits identifiers in
      let resourcesMap := map_set (map_set resourcesMap "requests" (VMap requests)) "limits" (VMap limits) in
      Ok (VMap (map_set containerMap "resources" (VMap resourcesMap)))
  | _ => Err (errorf "container is not a map[string]interface{}")
  end.

Definition applyResourceRequirementsToInferenceServiceModel (obj : Workload) (hwp : HardwareProfile)
    (modelPath : list string) : result Workload :=
  match NestedMap (w_Object obj) modelPath with
  | Err err => Err (wrapf "failed to get model" err)
  | Ok None => Ok obj
  | Ok (Some model) =>
      match applyIdentifiersToContainer (VMap model) (Identifiers hwp) with
      | Err err => Err (wrapf "failed to apply resources to model" err)
      | Ok (VMap model) => object ← SetNestedMap (w_Object obj) model modelPath; Ok (with_content obj object)
      | Ok _ => Ok obj
      end
  end.

(** The first container of the name; [None] is the nil slice: apply to all. *)
Fixpoint first_index (idx : nat) (containers : list value) : option nat :=
  match containers with
  | [] => None
  | c :: containers =>
      if container_named LLMInferenceServiceMainContainerName c then Some idx
      else first_index (S idx) containers
  end.

Definition llmInferenceServiceMainContainerIndices (obj : Workload) (containersPath : list string)
    : option (list nat) :=
  match NestedSlice (w_Object obj) containersPath with
  | Err _ | Ok None | Ok (Some []) => None
  | Ok (Some containers) =>
      Some (match first_index 0 containers with Some idx => [idx] | None => [] end)
  end.

(** The loop over the containers. *)
Fixpoint apply_to_containers (applies : nat → bool) (identifiers : list HardwareIdentifier) (idx : nat)
    (containers : list value) : result (list value) :=
  match containers with
  | [] => Ok []
  | container :: containers =>
      if negb (applies idx) then
        containers ← apply_to_containers applies identifiers (S idx) containers;
        Ok (container :: containers)
      else
        match applyIdentifiersToContainer container identifiers with
        | Err err =>
            Err (wrapf ("failed to apply resources to container " +:+ itoa (Z.of_nat idx)) err)
        | Ok container =>
            containers ← apply_to_containers applies identifiers (S idx) containers;
            Ok (container :: containers)
        end
  end.

Definition applyResourceRequirementsToContainers (obj : Workload) (hwp : HardwareProfile)
    (containersPath : list string) (mainContainerIndices : option (list nat)) : result Workload :=
  match NestedSlice (w_Object obj) containersPath with
  | Err err => Err (wrapf "failed to get containers" err)
  | Ok found =>
      let is_llm := String.eqb (w_Kind obj) (gvk_Kind LLMInferenceServiceV1Alpha1) in
      match (match found with
             | Some (c :: cs) => Some (c :: cs)
             | _ => if is_llm then Some [VMap [("name", VString "main")]] else None
             end) with
      | None => Ok obj
      | Some containers =>
          let applies := match mainContainerIndices with
                         | Some indices => λ idx, bool_decide (idx ∈ indices)
                         | None => λ _, true
                         end in
          if bool_decide (mainContainerIndices = Some []) then Ok obj
          else
            containers ← apply_to_containers applies (Identifiers hwp) 0 containers;
            object ← SetNestedSlice (w_Object obj) containers containersPath;
            Ok (with_content obj object)
      end
  end.

Definition applyResourceRequirementsToWorkload (obj : Workload) (hwp : HardwareProfile) : result Workload :=
  config ← GetWorkloadConfig (w_Kind obj);
  if String.eqb (w_Kind obj) (gvk_Kind InferenceServices)
  then applyResourceRequirementsToInferenceServiceModel obj hwp (ContainersPath config)
  else if String.eqb (w_Kind obj) (gvk_Kind LLMInferenceServiceV1Alpha1)
  then applyResourceRequirementsToContainers obj hwp (ContainersPath config)
         (llmInferenceServiceMainContainerIndices obj (ContainersPath config))
  else Err (errorf ("unsupported workload kind: " +:+ w_Kind obj)).

(** ** Scheduling *)

(** [%v]. *)
Definition fmt_value (v : value) : string :=
  match v with
  | VInt z => itoa z
  | VString s => s
  | VNull => "<nil>"
  | VBool b => if b then "true" else "false"
  | v => fmt_other v
  end.

Definition key_text (key operator val effect seconds : string) : string :=
  key +:+ ":" +:+ operator +:+ ":" +:+ val +:+ ":" +:+ effect +:+ ":" +:+ seconds.

Definition TolerationKey (tol : value_map) : string :=
  let field k := default "" (as_string (map_get tol k)) in
  key_text (field "key") (field "operator") (field "value") (field "effect")
    (if map_has tol "tolerationSeconds" then fmt_value (map_get tol "tolerationSeconds") else "").

Definition tolerationKeyFromCoreV1 (tol : Toleration) : string :=
  key_text (tol_Key tol) (tol_Operator tol) (tol_Value tol) (tol_Effect tol)
    (match tol_Seconds tol with Some s => itoa s | None => "" end).

(** The tolerations that are maps and whose key is not in [keys]. *)
Definition other_tolerations (keys : list string) (existing : list value) : list value :=
  List.filter (λ tol, match tol with
                      | VMap m => negb (bool_decide (TolerationKey m ∈ keys))
                      | _ => false
                      end) existing.

Definition mergeTolerations (object : value_map) (path : list string) (hwpTolerations : list value_map)
    : result (list value) :=
  match NestedSlice object path with
  | Err err => Err (wrapf "failed to get existing tolerations" err)
  | Ok existing =>
      Ok ((VMap <$> hwpTolerations) ++ other_tolerations (TolerationKey <$> hwpTolerations) (default [] existing))
  end.

Definition overwritten (what hwpName k old new : string) : string :=
  what +:+ " '" +:+ k +:+ "' has value '" +:+ old +:+
  "' which will be overwritten by HardwareProfile '" +:+ hwpName +:+ "' which has value '" +:+ new +:+ "'".

Definition mergeNodeSelector (object : value_map) (path : list string) (hwpNodeSelector : gmap string string)
    (hwpName : string) : result (gmap string string * list string) :=
  match NestedStringMap object path with
  | Err err => Err (wrapf "failed to get existing nodeSelector" err)
  | Ok existing =>
      let existing := default ∅ existing in
      let warnings :=
        omap (λ kv : string * string,
          match existing !! kv.1 with
          | Some old =>
              if String.eqb old kv.2 then None
              else Some (overwritten "nodeSelector key" hwpName kv.1 old kv.2)
          | None => None
          end) (range_map hwpNodeSelector) in
      Ok (hwpNodeSelector ∪ existing, warnings)
  end.

(** The conversions, up to the first error. *)
Definition tolerations_unstructured (tols : list Toleration) : result (list value_map) :=
  match mapM toleration_ToUnstructured tols with
  | Err err => Err (wrapf "failed to convert tolerations to unstructured" err)
  | Ok l => Ok l
  end.

Definition apply_node_selector (object : value_map) (path : list string) (selector : gmap string string)
    (profileChanged : bool) (hwpName : string) : result (value_map * list string) :=
  if bool_decide (selector = ∅) then Ok (object, [])
  else if profileChanged then
    object ← wrap_result "failed to set nodeSelector" (SetNestedStringMap object selector path);
    Ok (object, [])
  else
    merged ← wrap_result "failed to merge nodeSelector" (mergeNodeSelector object path selector hwpName);
    object ← wrap_result "failed to set merged nodeSelector" (SetNestedStringMap object merged.1 path);
    Ok (object, merged.2).

Definition apply_tolerations (object : value_map) (path : list string) (tols : list Toleration)
    (profileChanged : bool) : result value_map :=
  match tols with
  | [] => Ok object
  | _ =>
      hwpTolerations ← tolerations_unstructured tols;
      if profileChanged then
        wrap_result "failed to set tolerations" (SetNestedSlice object (VMap <$> hwpTolerations) path)
      else
        merged ← wrap_result "failed to merge tolerations" (mergeTolerations object path hwpTolerations);
        wrap_result "failed to set merged tolerations" (SetNestedSlice object merged path)
  end.

Definition applyNodeSchedulingConfiguration (obj : Workload) (nodeSpec : NodeSchedulingSpec)
    (profileChanged : bool) (hwpName : string) : result (Workload * list string) :=
  match GetWorkloadConfig (w_Kind obj) with
  | Err _ => Err (errorf ("unsupported workload kind for node scheduling: " +:+ w_Kind obj))
  | Ok config =>
      selected ← apply_node_selector (w_Object obj) (NodeSelectorPath config) (NodeSelector nodeSpec)
                   profileChanged hwpName;
      object ← apply_tolerations selected.1 (TolerationsPath config) (Tolerations nodeSpec) profileChanged;
      Ok (with_content obj object, selected.2)
  end.

(** Scheduling settings are cleared when the profile changed. *)
Definition clear_scheduling (obj : Workload) : result Workload :=
  let obj := RemoveLabel obj KueueQueueNameLabel in
  match GetWorkloadConfig (w_Kind obj) with
  | Ok config =>
      Ok (with_content obj (RemoveNestedField (RemoveNestedField (w_Object obj) (NodeSelectorPath config))
                              (TolerationsPath config)))
  | Err err =>
      Err (wrapf ("failed to clear scheduling fields - unsupported workload kind: " +:+ w_Kind obj) err)
  end.

Definition apply_scheduling (obj : Workload) (hwp : HardwareProfile) (profileChanged : bool)
    : result (Workload * list string) :=
  match Scheduling hwp with
  | None => Ok (obj, [])
  | Some spec =>
      let queue := default "" (KueueSpec spec) in
      if nonempty_str queue then
        let existing := GetLabel obj KueueQueueNameLabel in
        let warnings :=
          if negb profileChanged && nonempty_str existing && negb (String.eqb existing queue)
          then [overwritten "label" (hwp_Name hwp) KueueQueueNameLabel existing queue] else [] in
        Ok (SetLabel obj KueueQueueNameLabel queue, warnings)
      else
        match NodeSpec spec with
        | None => Ok (obj, [])
        | Some nodeSpec =>
            wrap_result "failed to apply node scheduling configuration"
              (applyNodeSchedulingConfiguration obj nodeSpec profileChanged (hwp_Name hwp))
        end
  end.

Definition applyHardwareProfileToWorkload (obj : Workload) (hwp : HardwareProfile) (profileChanged : bool)
    : result (Workload * list string) :=
  obj ← (if profileChanged then clear_scheduling obj else Ok obj);
  obj ← (match Identifiers hwp with
         | [] => Ok obj
         | _ => wrap_result "failed to apply resource requirements" (applyResourceRequirementsToWorkload obj hwp)
         end);
  apply_scheduling obj hwp profileChanged.

(** ** Removal *)

Definition removeHWPTolerations (object : value_map) (path : list string) (hwpTolerations : list Toleration)
    : result value_map :=
  found ← NestedSlice object path;
  match found with
  | None | Some [] => Ok object
  | Some existing =>
      match other_tolerations (tolerationKeyFromCoreV1 <$> hwpTolerations) existing with
      | [] => Ok (RemoveNestedField object path)
      | remaining => SetNestedSlice object remaining path
      end
  end.

(** [existing] without the entries that [selector] has with the same value. *)
Definition without_selector (existing selector : gmap string string) : gmap string string :=
  filter (λ kv, selector !! kv.1 ≠ Some kv.2) existing.

Definition removeHWPNodeSelector (object : value_map) (path : list string) (selector : gmap string string)
    : result value_map :=
  found ← NestedStringMap object path;
  match found with
  | None => Ok object
  | Some existing =>
      if bool_decide (existing = ∅) then Ok object
      else
        let remaining := without_selector existing selector in
        if bool_decide (remaining = ∅) then Ok (RemoveNestedField object path)
        else SetNestedStringMap object remaining path
  end.

Definition remove_node_settings (config : WorkloadConfig) (object : value_map) (node : NodeSchedulingSpec)
    : result value_map :=
  object ← (match Tolerations node with
            | [] => Ok object
            | tols => wrap_result "failed to remove HWP tolerations"
                        (removeHWPTolerations object (TolerationsPath config) tols)
            end);
  if bool_decide (NodeSelector node = ∅) then Ok object
  else wrap_result "failed to remove HWP nodeSelector"
         (removeHWPNodeSelector object (NodeSelectorPath config) (NodeSelector node)).

Definition removeHWPSettings (obj : Workload) (hwp : HardwareProfile) : result Workload :=
  config ← GetWorkloadConfig (w_Kind obj);
  match Scheduling hwp with
  | None => Ok obj
  | Some spec =>
      object ← (match NodeSpec spec with
                | None => Ok (w_Object obj)
                | Some node => remove_node_settings config (w_Object obj) node
                end);
      let obj := with_content obj object in
      Ok (if nonempty_str (default "" (KueueSpec spec)) then RemoveLabel obj KueueQueueNameLabel else obj)
  end.

(** ** Admission *)

(** The webhook's client may be a reader only. *)
Variable client_writes : bool.

Definition emit_event (obj : Workload) (suffix reason message : string) : prog HwpE unit :=
  if negb client_writes then mret tt
  else
    _ ← trigger (CreateEvent (w_Name obj +:+ "." +:+ suffix) (w_Namespace obj) reason message);
    mret tt.

Definition emitContainerNameWarningEvent (obj : Workload) (err : validation_error) (expected hwpName : string)
    : prog HwpE unit :=
  emit_event obj "hwp-container-name-mismatch" "ContainerNameMismatch"
    ("Hardware profile '" +:+ hwpName +:+ "' settings not applied to this workload: " +:+ Error err +:+
     ". Rename container to '" +:+ expected +:+ "' to enable hardware profile injection.").

Definition emitValidationErrorEvent (obj : Workload) (err : validation_error) (hwpName : string)
    : prog HwpE unit :=
  emit_event obj "hwp-validation-error" "ValidationError"
    ("Hardware profile '" +:+ hwpName +:+ "' was not applied due to validation error: " +:+ Error err +:+
     ". Check your workload structure.").

(** The object as it is, with a warning. *)
Definition admit_unchanged (obj : Workload) (warningMsg marshalMsg : string) : Response :=
  match Marshal_object obj with
  | Err _ => with_warnings [warningMsg; "Internal error: failed to marshal object"] (allowed marshalMsg)
  | Ok object => with_warnings [warningMsg] (patch_response object)
  end.

Definition skip_invalid (obj : Workload) (hwp : HardwareProfile) (err : validation_error) : prog HwpE Response :=
  match err with
  | NoMatchingContainerError _ _ _ expected =>
      _ ← emitContainerNameWarningEvent obj err expected (hwp_Name hwp);
      mret (admit_unchanged obj
        ("Hardware profile '" +:+ hwp_Name hwp +:+ "' was not applied: " +:+ Error err +:+
         ". To use this hardware profile, rename your container to '" +:+ expected +:+
         "'. All hardware profile settings (identifiers, scheduling, etc.) are skipped.")
        "Admitted but marshal failed after validation")
  | OtherValidationError _ =>
      _ ← emitValidationErrorEvent obj err (hwp_Name hwp);
      mret (admit_unchanged obj
        ("Hardware profile '" +:+ hwp_Name hwp +:+ "' was not applied due to validation error: " +:+ Error err +:+
         ". All hardware profile settings are skipped. Please check your workload structure.")
        "Admitted but marshal failed after validation")
  end.

Definition detectProfileChange (req : Request Workload) (newProfileName newProfileNamespace : string) : bool :=
  if bool_decide (req_Operation req = Create) then false
  else
    match req_OldObject req with
    | None => true
    | Some (Err _) => true
    | Some (Ok oldObj) =>
        let oldProfileName := GetAnnotation oldObj HardwareProfileNameAnnotation in
        if String.eqb oldProfileName "" then false
        else
          let ns := GetAnnotation oldObj HardwareProfileNamespaceAnnotation in
          let oldProfileNamespace := if String.eqb ns "" then w_Namespace oldObj else ns in
          negb (String.eqb oldProfileName newProfileName) ||
          negb (String.eqb oldProfileNamespace newProfileNamespace)
    end.

Definition marshal_response (obj : Workload) (warnings : list string) : Response :=
  match Marshal_object obj with
  | Err err => errored StatusInternalServerError err
  | Ok object => with_warnings warnings (patch_response object)
  end.

Definition handleHWPRemoval (req : Request Workload) (obj : Workload) : prog HwpE (option Response) :=
  match req_OldObject req with
  | None => mret None
  | Some (Err _) => mret None
  | Some (Ok oldObj) =>
      let oldProfileName := GetAnnotation oldObj HardwareProfileNameAnnotation in
      if String.eqb oldProfileName "" then mret None
      else
        let ns := GetAnnotation oldObj HardwareProfileNamespaceAnnotation in
        let oldProfileNamespace := if String.eqb ns "" then w_Namespace oldObj else ns in
        fetched ← trigger (GetHardwareProfile oldProfileNamespace oldProfileName);
        mret
          (match fetched with
           | Err _ =>
               match Marshal_object (RemoveAnnotation obj HardwareProfileNamespaceAnnotation) with
               | Err _ => None
               | Ok object => Some (patch_response object)
               end
           | Ok oldHWP =>
               match removeHWPSettings obj oldHWP with
               | Err err => Some (errored StatusInternalServerError err)
               | Ok obj => Some (marshal_response (RemoveAnnotation obj HardwareProfileNamespaceAnnotation) [])
               end
           end)
  end.

(** What follows once the profile was fetched. *)
Definition inject_profile (req : Request Workload) (obj : Workload) (hwp : HardwareProfile)
    (profileName profileNamespace : string) : prog HwpE Response :=
  let obj := if String.eqb (GetAnnotation obj HardwareProfileNamespaceAnnotation) ""
             then SetAnnotation obj HardwareProfileNamespaceAnnotation profileNamespace else obj in
  match validateContainerNames obj with
  | Some err => skip_invalid obj hwp err
  | None =>
      mret
        (match applyHardwareProfileToWorkload obj hwp (detectProfileChange req profileName profileNamespace) with
         | Err err => errored StatusInternalServerError err
         | Ok applied => marshal_response applied.1 applied.2
         end)
  end.

Definition performHardwareProfileInjection (req : Request Workload) (obj : Workload) : prog HwpE Response :=
  let profileName := GetAnnotation obj HardwareProfileNameAnnotation in
  if String.eqb profileName "" then
    removed ← (if bool_decide (req_Operation req = Update) then handleHWPRemoval req obj else mret None);
    mret (default (allowed "No hardware profile annotation found") removed)
  else
    let ns := GetAnnotation obj HardwareProfileNamespaceAnnotation in
    let profileNamespace := if String.eqb ns "" then w_Namespace obj else ns in
    if String.eqb profileNamespace "" then
      mret (errored StatusBadRequest (errorf "unable to determine hardware profile namespace"))
    else
      fetched ← trigger (GetHardwareProfile profileNamespace profileName);
      match fetched with
      | Err err =>
          mret
            (if err_is TagNotFound err then
               errored StatusBadRequest
                 (errorf ("hardware profile '" +:+ profileName +:+ "' not found in namespace '" +:+
                          profileNamespace +:+ "'"))
             else
               errored StatusInternalServerError
                 (wrapf ("failed to get hardware profile '" +:+ profileName +:+ "' from namespace '" +:+
                         profileNamespace +:+ "'") err))
      | Ok hwp => inject_profile req obj hwp profileName profileNamespace
      end.

(** [decoder]: whether the decoder was injected. *)
Definition Handle (decoder : bool) (req : Request Workload) : prog HwpE Response :=
  if negb decoder then
    mret (errored StatusInternalServerError (errorf "webhook decoder not initialized"))
  else if negb (isExpectedKind (req_Kind req)) then
    mret (errored StatusBadRequest (errorf ("unexpected kind: " +:+ gvk_Kind (req_Kind req))))
  else
    match req_Object req with
    | Err err => mret (errored StatusInternalServerError (wrapf "failed to decode object" err))
    | Ok obj =>
        if w_Deleting obj then
          mret (allowed "Object marked for deletion, skipping hardware profile injection")
        else
          match req_Operation req with
          | Create | Update => performHardwareProfileInjection req obj
          | op => mret (allowed ("Operation " +:+ op_text op +:+ " on " +:+ gvk_Kind (req_Kind req) +:+ " allowed"))
          end
    end.

End hardware_profile.
