(* ===== verification/HardwareProfileTheorems.v ===== *)
(** * Properties of hardware profile injection

    Unsuitable containers never block admission; what a profile does to the resources of a
    container; adding and removing a profile's node settings leaves the workload as it was. The
    laws of the accessors and conversions are [NestedMapsLaws] and [HwpLibLaws], with the
    instances [nested_maps_documented] and [hwp_lib_documented]. *)

From S2P Require Import Prelude Effects Unstructured Conversion Admission Workload HardwareProfile.

(** ** Laws *)

(** The converted toleration has the key that is computed from the typed one; ranging over a
    map visits its entries. *)
Class HwpLibLaws `{HwpLib} := {
  toleration_key t m : toleration_ToUnstructured t = Ok m → TolerationKey m = tolerationKeyFromCoreV1 t;
  range_map_perm m : range_map m ≡ₚ map_to_list m;
}.

(** *** The documented behaviour *)

Definition omitempty (k s : string) : value_map := if String.eqb s "" then [] else [(k, VString s)].

Definition toleration_object (t : Toleration) : value_map :=
  omitempty "key" (tol_Key t) ++ omitempty "operator" (tol_Operator t) ++ omitempty "value" (tol_Value t) ++
  omitempty "effect" (tol_Effect t) ++
  match tol_Seconds t with Some s => [("tolerationSeconds", VInt s)] | None => [] end.

Definition hwp_lib_documented : HwpLib := {|
  quantity_of_int := itoa;
  ParseQuantity := λ s, if String.eqb s "" then Err (errorf "quantities must match the regular expression") else Ok s;
  toleration_ToUnstructured := λ t, Ok (toleration_object t);
  fmt_other := λ _, "";
  range_map := map_to_list;
|}.

Lemma omitempty_get k s m k' :
  map_get (omitempty k s ++ m) k' = if String.eqb k k' && nonempty_str s then VString s else map_get m k'.
Proof.
  unfold omitempty, nonempty_str. destruct (String.eqb s ""); simpl; [by rewrite andb_false_r|].
  by destruct (String.eqb k k').
Qed.

Lemma as_string_omitted s : default "" (as_string (if nonempty_str s then VString s else VNull)) = s.
Proof. unfold nonempty_str. by destruct (String.eqb_spec s "") as [->|]. Qed.

#[export] Instance hwp_lib_documented_laws : @HwpLibLaws hwp_lib_documented.
Proof.
  split; [|done]. intros t m [= <-]. unfold TolerationKey, tolerationKeyFromCoreV1, toleration_object.
  destruct t as [k o v e s]. cbn [tol_Key tol_Operator tol_Value tol_Effect tol_Seconds].
  assert (map_has (omitempty "key" k ++ omitempty "operator" o ++ omitempty "value" v ++ omitempty "effect" e ++
            match s with Some s => [("tolerationSeconds", VInt s)] | None => [] end) "tolerationSeconds" =
          match s with Some _ => true | None => false end) as ->.
  { unfold map_has, omitempty. rewrite !existsb_app. by repeat case_match. }
  rewrite !omitempty_get. destruct s as [s|]; simpl; by rewrite !as_string_omitted.
Qed.

(** ** Resources of a container *)

(** What a container requests or is limited to, and whether it says so. *)
Definition section_of (section : string) (c : value_map) : value_map :=
  match map_get c "resources" with
  | VMap r => match map_get r section with VMap q => q | _ => [] end
  | _ => []
  end.

Definition amount (section : string) (c : value_map) (id : string) : value := map_get (section_of section c) id.
Definition has_amount (section : string) (c : value_map) (id : string) : bool := map_has (section_of section c) id.

Definition is_someb {A} (o : option A) : bool := match o with Some _ => true | None => false end.

(** The first identifier of a name decides. *)
Definition identifier_named (ids : list HardwareIdentifier) (id : string) : option HardwareIdentifier :=
  List.find (λ i, String.eqb (Identifier i) id) ids.

Section resources.
Context `{Nested, NestedWrite, NestedMaps, HwpLib, !NestedMapsLaws}.

(** What is requested is kept; what is not is added, from the first identifier of the name. *)
Lemma applyIdentifiersToRequests_spec ids requests requests' :
  applyIdentifiersToRequests requests ids = Ok requests' →
  (∀ id, map_has requests id = true → map_has requests' id = true ∧ map_get requests' id = map_get requests id) ∧
  (∀ id, map_has requests id = false →
     match identifier_named ids id with
     | Some i => map_has requests' id = true ∧
         ∃ q, convertIntOrStringToQuantity (DefaultCount i) = Ok q ∧ map_get requests' id = VString q
     | None => map_has requests' id = false ∧ map_get requests' id = map_get requests id
     end).
Proof.
  revert requests. induction ids as [|i ids IH]; intros requests; cbn [applyIdentifiersToRequests identifier_named List.find].
  { intros [= <-]. done. }
  destruct (map_has requests (Identifier i)) eqn:Hhas.
  { intros [Hkeep Hadd]%IH. split; [done|]. intros id Hid. specialize (Hadd id Hid).
    destruct (String.eqb_spec (Identifier i) id) as [<-|]; [congruence|done]. }
  destruct (convertIntOrStringToQuantity (DefaultCount i)) as [q|err] eqn:Hq; [|done].
  intros [Hkeep Hadd]%IH. split.
  - intros id Hid. destruct (Hkeep id) as [Hh Hg]; [rewrite map_has_set, Hid; apply orb_true_r|].
    split; [done|]. rewrite Hg, map_get_set. destruct (String.eqb_spec (Identifier i) id) as [<-|]; [congruence|done].
  - intros id Hid. destruct (String.eqb_spec (Identifier i) id) as [<-|Hne].
    + destruct (Hkeep (Identifier i)) as [Hh Hg]; [by rewrite map_has_set, String.eqb_refl|].
      split; [done|]. exists q. split; [done|]. by rewrite Hg, map_get_set, String.eqb_refl.
    + specialize (Hadd id). rewrite map_has_set, map_get_set, (proj2 (String.eqb_neq _ _) Hne) in Hadd. by apply Hadd.
Qed.

Lemma applyIdentifiersToLimits_spec ids requests limits :
  (∀ id, map_has limits id = true →
     map_has (applyIdentifiersToLimits requests limits ids) id = true ∧
     map_get (applyIdentifiersToLimits requests limits ids) id = map_get limits id) ∧
  (∀ id, map_has limits id = false →
     if is_someb (identifier_named ids id) && map_has requests id
     then map_get (applyIdentifiersToLimits requests limits ids) id = map_get requests id
     else map_has (applyIdentifiersToLimits requests limits ids) id = false).
Proof.
  revert limits. induction ids as [|i ids IH]; intros limits; cbn [applyIdentifiersToLimits identifier_named List.find]; [done|].
  destruct (map_has limits (Identifier i)) eqn:Hhas.
  { destruct (IH limits) as [Hkeep Hadd]. split; [done|]. intros id Hid. specialize (Hadd id Hid).
    destruct (String.eqb_spec (Identifier i) id) as [<-|]; [congruence|done]. }
  destruct (map_has requests (Identifier i)) eqn:Hreq; cbn [negb].
  2:{ destruct (IH limits) as [Hkeep Hadd]. split; [done|]. intros id Hid. specialize (Hadd id Hid).
      destruct (String.eqb_spec (Identifier i) id) as [<-|]; [|done]. rewrite Hreq, andb_false_r in *. done. }
  destruct (IH (map_set limits (Identifier i) (map_get requests (Identifier i)))) as [Hkeep Hadd]. split.
  - intros id Hid. destruct (Hkeep id) as [Hh Hg]; [rewrite map_has_set, Hid; apply orb_true_r|].
    split; [done|]. rewrite Hg, map_get_set. destruct (String.eqb_spec (Identifier i) id) as [<-|]; [congruence|done].
  - intros id Hid. destruct (String.eqb_spec (Identifier i) id) as [<-|Hne].
    + rewrite Hreq. cbn. destruct (Hkeep (Identifier i)) as [_ Hg]; [by rewrite map_has_set, String.eqb_refl|].
      by rewrite Hg, map_get_set, String.eqb_refl.
    + specialize (Hadd id). rewrite map_has_set, (proj2 (String.eqb_neq _ _) Hne) in Hadd. by apply Hadd.
Qed.

(** The section that is edited is the one that is read. *)
Lemma GetOrCreate_read m k m' :
  GetOrCreateNestedMap m k = Ok m' → m' = match map_get m k with VMap q => q | _ => [] end.
Proof.
  unfold GetOrCreateNestedMap. destruct (NestedMap m [k]) as [[q|]|err] eqn:Hm; [..|done]; intros [= <-].
  - by rewrite (map_found _ _ _ Hm).
  - by rewrite (map_not_found _ _ Hm).
Qed.

Lemma applyIdentifiersToContainer_sections c ids out :
  applyIdentifiersToContainer (VMap c) ids = Ok out →
  ∃ r requests, out = VMap (map_set c "resources" (VMap r)) ∧
    applyIdentifiersToRequests (section_of "requests" c) ids = Ok requests ∧
    map_get r "requests" = VMap requests ∧
    map_get r "limits" = VMap (applyIdentifiersToLimits requests (section_of "limits" c) ids) ∧
    ∀ k, k ≠ "requests" → k ≠ "limits" →
      map_get r k = match map_get c "resources" with VMap r0 => map_get r0 k | _ => VNull end.
Proof.
  cbn [applyIdentifiersToContainer].
  destruct (GetOrCreateNestedMap c "resources") as [r|] eqn:Hr; cbn [mbind result_bind]; [|done].
  destruct (GetOrCreateNestedMap r "requests") as [q|] eqn:Hq; cbn [mbind result_bind]; [|done].
  destruct (applyIdentifiersToRequests q ids) as [q'|] eqn:Hq'; cbn [mbind result_bind]; [|done].
  destruct (GetOrCreateNestedMap r "limits") as [l|] eqn:Hl; cbn [mbind result_bind]; [|done].
  intros [= <-]. apply GetOrCreate_read in Hr, Hq, Hl.
  assert (section_of "requests" c = q) as -> by (subst q r; unfold section_of; by destruct (map_get c "resources")).
  assert (section_of "limits" c = l) as -> by (subst l r; unfold section_of; by destruct (map_get c "resources")).
  eexists _, q'. split; [done|]. split; [done|]. rewrite !map_get_set. split; [done|]. split; [done|].
  intros k Hk1 Hk2. rewrite !map_get_set, (proj2 (String.eqb_neq "requests" k) (not_eq_sym Hk1)), (proj2 (String.eqb_neq "limits" k) (not_eq_sym Hk2)).
  subst r. by destruct (map_get c "resources").
Qed.

(** A hardware profile only adds to a container: requests and limits that are there stay,
    as does everything else; an identifier that is not requested gets the default count of the
    first identifier of its name as request, and an identifier without limit gets its request
    as limit, so that both agree. *)
Theorem applyIdentifiersToContainer_adds c ids out
    (Hok : applyIdentifiersToContainer (VMap c) ids = Ok out) :
  ∃ c', out = VMap c' ∧
    (∀ k, k ≠ "resources" → map_get c' k = map_get c k) ∧
    (∀ section id, section = "requests" ∨ section = "limits" → has_amount section c id = true →
       amount section c' id = amount section c id) ∧
    (∀ id, has_amount "requests" c id = false →
       match identifier_named ids id with
       | Some i => ∃ q, convertIntOrStringToQuantity (DefaultCount i) = Ok q ∧ amount "requests" c' id = VString q
       | None => has_amount "requests" c' id = false
       end) ∧
    (∀ id, has_amount "limits" c id = false →
       if is_someb (identifier_named ids id) then amount "limits" c' id = amount "requests" c' id
       else has_amount "limits" c' id = false).
Proof.
  apply applyIdentifiersToContainer_sections in Hok as (r & requests & -> & Hreq & Hr & Hl & _).
  exists (map_set c "resources" (VMap r)). split; [done|].
  assert (section_of "requests" (map_set c "resources" (VMap r)) = requests) as Hsr.
  { unfold section_of. by rewrite map_get_set, String.eqb_refl, Hr. }
  assert (section_of "limits" (map_set c "resources" (VMap r)) =
            applyIdentifiersToLimits requests (section_of "limits" c) ids) as Hsl.
  { unfold section_of at 1. by rewrite map_get_set, String.eqb_refl, Hl. }
  unfold amount, has_amount. rewrite Hsr, Hsl.
  pose proof (applyIdentifiersToRequests_spec _ _ _ Hreq) as [Hkeep Hadd].
  destruct (applyIdentifiersToLimits_spec ids requests (section_of "limits" c)) as [Hkeepl Haddl].
  split; [|split; [|split]].
  - intros k Hk. by rewrite map_get_set, (proj2 (String.eqb_neq _ _) (not_eq_sym Hk)).
  - intros section id [->| ->] Hid; [rewrite Hsr; by apply Hkeep|rewrite Hsl; by apply Hkeepl].
  - intros id Hid. specialize (Hadd id Hid). destruct (identifier_named ids id); [by destruct Hadd|by destruct Hadd].
  - intros id Hid. specialize (Haddl id Hid). destruct (identifier_named ids id) as [i|] eqn:Hi; cbn in *; [|done].
    destruct (map_has requests id) eqn:Hh; [done|]. destruct (map_has (section_of "requests" c) id) eqn:Hhc.
    + destruct (Hkeep id Hhc) as [? _]. congruence.
    + specialize (Hadd id Hhc). rewrite Hi in Hadd. destruct Hadd as [? _]. congruence.
Qed.

End resources.

(** ** Adding and removing node settings *)

Section node_settings.
Context `{Nested, NestedWrite, NestedMaps, HwpLib, !NestedLaws, !NestedMapsLaws, !HwpLibLaws}.

Definition tolerations_at (m : value_map) (path : list string) : list value :=
  match NestedSlice m path with Ok (Some l) => l | _ => [] end.

Definition selector_at (m : value_map) (path : list string) : gmap string string :=
  match NestedStringMap m path with Ok (Some d) => d | _ => ∅ end.

Definition tolerations_of (config : WorkloadConfig) (obj : Workload) : list value :=
  tolerations_at (w_Object obj) (TolerationsPath config).
Definition selector_of (config : WorkloadConfig) (obj : Workload) : gmap string string :=
  selector_at (w_Object obj) (NodeSelectorPath config).

(** Tolerations that none of [tols] equals. *)
Definition foreign (tols : list Toleration) (existing : list value) : Prop :=
  Forall (λ v, match v with
               | VMap m => TolerationKey m ∉ tolerationKeyFromCoreV1 <$> tols
               | _ => False
               end) existing.

(** Node selector and tolerations are siblings. *)
Lemma config_paths kind config :
  GetWorkloadConfig kind = Ok config →
  ∃ parent, NodeSelectorPath config = parent ++ ["nodeSelector"] ∧ TolerationsPath config = parent ++ ["tolerations"].
Proof.
  unfold GetWorkloadConfig. destruct (String.eqb kind _); [intros [= <-]; by exists ["spec"; "predictor"]|].
  destruct (String.eqb kind _); [intros [= <-]; by exists ["spec"; "template"]|done].
Qed.

Lemma snoc_nonempty (parent : list string) k : parent ++ [k] ≠ [].
Proof. by destruct parent. Qed.

Lemma other_tolerations_app keys l l' :
  other_tolerations keys (l ++ l') = other_tolerations keys l ++ other_tolerations keys l'.
Proof. apply List.filter_app. Qed.

Lemma other_tolerations_foreign tols existing :
  foreign tols existing → other_tolerations (tolerationKeyFromCoreV1 <$> tols) existing = existing.
Proof.
  induction 1 as [|v existing Hv _ IH]; [done|]. unfold other_tolerations in *. cbn [List.filter].
  destruct v; try done. by rewrite bool_decide_eq_false_2, IH.
Qed.

Lemma other_tolerations_own keys (ms : list value_map) :
  Forall (λ m, TolerationKey m ∈ keys) ms → other_tolerations keys (VMap <$> ms) = [].
Proof.
  induction 1 as [|m ms Hm _ IH]; [done|]. unfold other_tolerations in *. rewrite fmap_cons. cbn [List.filter].
  by rewrite bool_decide_eq_true_2.
Qed.

Lemma converted_keys tols ms :
  tolerations_unstructured tols = Ok ms → TolerationKey <$> ms = tolerationKeyFromCoreV1 <$> tols.
Proof.
  unfold tolerations_unstructured. destruct (mapM _ tols) as [ms'|] eqn:Hm; [|done]. intros [= ->].
  revert ms Hm. induction tols as [|t tols IH]; intros ms; cbn [mapM].
  { by intros [= <-]. }
  destruct (toleration_ToUnstructured t) as [m|] eqn:Ht; cbn [mbind result_bind]; [|done].
  destruct (mapM toleration_ToUnstructured tols) as [ms0|]; cbn [mbind result_bind]; [|done].
  intros [= <-]. by rewrite !fmap_cons, (toleration_key _ _ Ht), (IH ms0).
Qed.

(** What merging the tolerations did. *)
Lemma apply_tolerations_read m parent tols m' :
  apply_tolerations m (parent ++ ["tolerations"]) tols false = Ok m' → tols ≠ [] →
  foreign tols (tolerations_at m (parent ++ ["tolerations"])) →
  ∃ ms, tolerations_unstructured tols = Ok ms ∧
    NestedSlice m' (parent ++ ["tolerations"]) = Ok (Some ((VMap <$> ms) ++ tolerations_at m (parent ++ ["tolerations"]))) ∧
    NestedStringMap m' (parent ++ ["nodeSelector"]) = NestedStringMap m (parent ++ ["nodeSelector"]).
Proof.
  intros Happly Hne Hforeign. destruct tols as [|t tols]; [done|]. unfold apply_tolerations in Happly.
  destruct (tolerations_unstructured (t :: tols)) as [ms|] eqn:Hms; cbn [mbind result_bind] in Happly; [|done].
  unfold mergeTolerations in Happly. unfold tolerations_at in *.
  destruct (NestedSlice m (parent ++ ["tolerations"])) as [ex|] eqn:Hex; cbn in Happly; [|done].
  rewrite (converted_keys _ _ Hms) in Happly.
  destruct (SetNestedSlice _ _ _) as [m1|] eqn:Hset; cbn in Happly; [|done]. injection Happly as <-.
  exists ms. split; [done|]. split.
  - rewrite (slice_set_get _ _ _ _ Hset). destruct ex as [ex|]; cbn [default from_option id] in *.
    + by rewrite other_tolerations_foreign.
    + done.
  - eapply slice_set_string; [|exact Hset]; done.
Qed.

(** Removing the tolerations of a profile leaves those that are not its own. *)
Lemma remove_tolerations_read m parent tols ms existing :
  tolerations_unstructured tols = Ok ms → tols ≠ [] → foreign tols existing →
  NestedSlice m (parent ++ ["tolerations"]) = Ok (Some ((VMap <$> ms) ++ existing)) →
  ∃ m', removeHWPTolerations m (parent ++ ["tolerations"]) tols = Ok m' ∧
    tolerations_at m' (parent ++ ["tolerations"]) = existing ∧
    NestedStringMap m' (parent ++ ["nodeSelector"]) = NestedStringMap m (parent ++ ["nodeSelector"]).
Proof.
  intros Hms Hne Hforeign Hread. pose proof (converted_keys _ _ Hms) as Hkeys.
  unfold removeHWPTolerations. rewrite Hread. cbn [mbind result_bind].
  assert (other_tolerations (tolerationKeyFromCoreV1 <$> tols) ((VMap <$> ms) ++ existing) = existing) as Hrest.
  { rewrite other_tolerations_app, (other_tolerations_foreign tols existing Hforeign). rewrite other_tolerations_own; [reflexivity|].
    apply Forall_forall. intros tm Htm. rewrite <-Hkeys. by apply list_elem_of_fmap_2. }
  rewrite Hrest. destruct ms as [|m1 ms]; [by destruct tols|]. rewrite fmap_cons. cbn [app].
  destruct existing as [|v existing].
  - eexists. split; [done|]. split; [|by apply remove_string_other]. unfold tolerations_at.
    by rewrite (remove_slice _ _ _ (snoc_nonempty _ _) Hread).
  - destruct (slice_found_set _ _ _ (v :: existing) Hread) as [m' Hset]. exists m'. split; [done|].
    split; [by unfold tolerations_at; rewrite (slice_set_get _ _ _ _ Hset)|].
    eapply slice_set_string; [|exact Hset]; done.
Qed.

Lemma without_own_selector (sel ex : gmap string string) : sel ##ₘ ex → without_selector (sel ∪ ex) sel = ex.
Proof.
  intros Hd. apply map_eq. intros k. unfold without_selector. apply option_eq. intros v.
  rewrite map_lookup_filter_Some. cbn [fst snd]. rewrite lookup_union_Some by done. split.
  - by intros [[?|?] ?].
  - intros Hex. split; [by right|]. intros Hsel. by eapply (map_disjoint_spec sel ex).
Qed.

(** What merging the node selector did, and what removing it then does. *)
Lemma apply_selector_read m parent sel hwpName m' warnings :
  apply_node_selector m (parent ++ ["nodeSelector"]) sel false hwpName = Ok (m', warnings) → sel ≠ ∅ →
  sel ##ₘ selector_at m (parent ++ ["nodeSelector"]) →
  warnings = [] ∧
  NestedStringMap m' (parent ++ ["nodeSelector"]) = Ok (Some (sel ∪ selector_at m (parent ++ ["nodeSelector"]))) ∧
  NestedSlice m' (parent ++ ["tolerations"]) = NestedSlice m (parent ++ ["tolerations"]).
Proof.
  intros Happly Hne Hd. unfold apply_node_selector in Happly. rewrite bool_decide_eq_false_2 in Happly by done.
  unfold mergeNodeSelector in Happly. unfold selector_at in *.
  destruct (NestedStringMap m (parent ++ ["nodeSelector"])) as [ex|] eqn:Hex; cbn in Happly; [|done].
  assert (match ex with Some d => d | None => ∅ end = default ∅ ex) as Hdef by by destruct ex.
  rewrite Hdef in *. destruct (SetNestedStringMap _ _ _) as [m1|] eqn:Hset; cbn in Happly; [|done].
  injection Happly as <- <-. split; [|split].
  - apply omap_nil_iff. intros [k v] Hkv. cbn. rewrite range_map_perm in Hkv. apply elem_of_map_to_list in Hkv.
    destruct (default ∅ ex !! k) as [old|] eqn:Hold; [|done]. exfalso. by eapply (map_disjoint_spec sel (default ∅ ex)).
  - by apply (string_set_get _ _ _ _ Hset).
  - eapply string_set_slice; [|exact Hset]; done.
Qed.

Lemma remove_selector_read m parent sel ex :
  sel ≠ ∅ → sel ##ₘ ex → NestedStringMap m (parent ++ ["nodeSelector"]) = Ok (Some (sel ∪ ex)) →
  ∃ m', removeHWPNodeSelector m (parent ++ ["nodeSelector"]) sel = Ok m' ∧
    selector_at m' (parent ++ ["nodeSelector"]) = ex ∧
    NestedSlice m' (parent ++ ["tolerations"]) = NestedSlice m (parent ++ ["tolerations"]).
Proof.
  intros Hne Hd Hread. unfold removeHWPNodeSelector. rewrite Hread. cbn [mbind result_bind].
  rewrite bool_decide_eq_false_2.
  2:{ intros Hu. apply Hne, map_empty. intros k. assert ((sel ∪ ex) !! k = None) as Hk by (by rewrite Hu).
      by apply lookup_union_None in Hk as [? _]. }
  rewrite without_own_selector by done. case_bool_decide as Hex.
  - eexists. split; [done|]. split; [|by apply remove_slice_other]. unfold selector_at.
    by rewrite (remove_string _ _ _ (snoc_nonempty _ _) Hread).
  - destruct (string_found_set _ _ _ ex (snoc_nonempty _ _) Hread) as [m' Hset]. exists m'. split; [done|].
    split; [by unfold selector_at; rewrite (string_set_get _ _ _ _ Hset)|].
    eapply string_set_slice; [|exact Hset]; done.
Qed.

(** The cases without tolerations and without selector included. *)
Lemma apply_tolerations_result m parent tols m' :
  apply_tolerations m (parent ++ ["tolerations"]) tols false = Ok m' →
  foreign tols (tolerations_at m (parent ++ ["tolerations"])) →
  ∃ ms, tolerations_unstructured tols = Ok ms ∧
    tolerations_at m' (parent ++ ["tolerations"]) = (VMap <$> ms) ++ tolerations_at m (parent ++ ["tolerations"]) ∧
    NestedStringMap m' (parent ++ ["nodeSelector"]) = NestedStringMap m (parent ++ ["nodeSelector"]) ∧
    (tols ≠ [] → NestedSlice m' (parent ++ ["tolerations"]) =
                 Ok (Some ((VMap <$> ms) ++ tolerations_at m (parent ++ ["tolerations"])))).
Proof.
  intros Happly Hforeign. destruct tols as [|t tols].
  - injection Happly as <-. by exists [].
  - destruct (apply_tolerations_read _ _ _ _ Happly ltac:(done) Hforeign) as (ms & Hms & Hread & Hother).
    exists ms. split_and!; [done| |done|done]. unfold tolerations_at at 1. by rewrite Hread.
Qed.

Lemma apply_selector_result m parent sel hwpName m' warnings :
  apply_node_selector m (parent ++ ["nodeSelector"]) sel false hwpName = Ok (m', warnings) →
  sel ##ₘ selector_at m (parent ++ ["nodeSelector"]) →
  warnings = [] ∧
  selector_at m' (parent ++ ["nodeSelector"]) = sel ∪ selector_at m (parent ++ ["nodeSelector"]) ∧
  NestedSlice m' (parent ++ ["tolerations"]) = NestedSlice m (parent ++ ["tolerations"]) ∧
  (sel ≠ ∅ → NestedStringMap m' (parent ++ ["nodeSelector"]) =
             Ok (Some (sel ∪ selector_at m (parent ++ ["nodeSelector"])))).
Proof.
  intros Happly Hd. destruct (decide (sel = ∅)) as [->|Hne].
  - unfold apply_node_selector in Happly. rewrite bool_decide_eq_true_2 in Happly by done.
    injection Happly as <- <-. split_and!; [done|by rewrite (left_id_L ∅ (∪))|done|done].
  - destruct (apply_selector_read _ _ _ _ _ _ Happly Hne Hd) as (Hw & Hread & Hother).
    split_and!; [done| |done|done]. unfold selector_at at 1. by rewrite Hread.
Qed.

Lemma remove_node_settings_result m parent node config ms ts ex :
  NodeSelectorPath config = parent ++ ["nodeSelector"] → TolerationsPath config = parent ++ ["tolerations"] →
  tolerations_unstructured (Tolerations node) = Ok ms → foreign (Tolerations node) ts → NodeSelector node ##ₘ ex →
  tolerations_at m (parent ++ ["tolerations"]) = (VMap <$> ms) ++ ts →
  (Tolerations node ≠ [] → NestedSlice m (parent ++ ["tolerations"]) = Ok (Some ((VMap <$> ms) ++ ts))) →
  selector_at m (parent ++ ["nodeSelector"]) = NodeSelector node ∪ ex →
  (NodeSelector node ≠ ∅ → NestedStringMap m (parent ++ ["nodeSelector"]) = Ok (Some (NodeSelector node ∪ ex))) →
  ∃ m', remove_node_settings config m node = Ok m' ∧ tolerations_at m' (parent ++ ["tolerations"]) = ts ∧
    selector_at m' (parent ++ ["nodeSelector"]) = ex.
Proof.
  intros Hsp Htp Hms Hforeign Hd Htat Htread Hsat Hsread. unfold remove_node_settings. rewrite Hsp, Htp.
  assert (∃ m1, match Tolerations node with
                | [] => Ok m
                | tols => wrap_result "failed to remove HWP tolerations"
                            (removeHWPTolerations m (parent ++ ["tolerations"]) tols)
                end = Ok m1 ∧ tolerations_at m1 (parent ++ ["tolerations"]) = ts ∧
                NestedStringMap m1 (parent ++ ["nodeSelector"]) = NestedStringMap m (parent ++ ["nodeSelector"]))
    as (m1 & -> & Ht1 & Hs1).
  { destruct (Tolerations node) as [|t tols] eqn:Htols.
    - exists m. injection Hms as <-. done.
    - destruct (remove_tolerations_read m parent (t :: tols) ms ts) as (m1 & -> & ? & ?); [done..|by apply Htread|].
      by exists m1. }
  cbn [mbind result_bind]. case_bool_decide as Hempty.
  - exists m1. split_and!; [done|done|]. rewrite Hempty, (left_id_L ∅ (∪)) in Hsat. unfold selector_at in *. by rewrite Hs1.
  - destruct (remove_selector_read m1 parent (NodeSelector node) ex) as (m2 & -> & ? & Ht2); [done|done|by rewrite Hs1, Hsread|].
    exists m2. split_and!; [done| |done]. unfold tolerations_at in *. by rewrite Ht2.
Qed.

(** A hardware profile can be taken off again. When the profile's node settings were merged
    into a workload that had none of its selector keys and none of its tolerations, they were
    added without warnings in front of the workload's own, and removing the annotation gives the
    workload exactly its own node selector and tolerations back, its labels and annotations
    untouched. *)
Theorem node_settings_roundtrip obj hwp spec node config obj' warnings
    (Hkind : GetWorkloadConfig (w_Kind obj) = Ok config)
    (Hspec : Scheduling hwp = Some spec) (Hqueue : default "" (KueueSpec spec) = "")
    (Hnode : NodeSpec spec = Some node)
    (Hsel : NodeSelector node ##ₘ selector_of config obj)
    (Htol : foreign (Tolerations node) (tolerations_of config obj))
    (Happly : apply_scheduling obj hwp false = Ok (obj', warnings)) :
  warnings = [] ∧
  selector_of config obj' = NodeSelector node ∪ selector_of config obj ∧
  (∃ ms, tolerations_unstructured (Tolerations node) = Ok ms ∧
     tolerations_of config obj' = (VMap <$> ms) ++ tolerations_of config obj) ∧
  ∃ obj'', removeHWPSettings obj' hwp = Ok obj'' ∧
    selector_of config obj'' = selector_of config obj ∧
    tolerations_of config obj'' = tolerations_of config obj ∧
    w_Labels obj'' = w_Labels obj ∧ w_Annotations obj'' = w_Annotations obj.
Proof.
  destruct (config_paths _ _ Hkind) as (parent & Hsp & Htp).
  unfold selector_of, tolerations_of in *. rewrite Hsp, Htp in *.
  unfold apply_scheduling in Happly. rewrite Hspec, Hqueue, Hnode in Happly. cbn in Happly.
  unfold applyNodeSchedulingConfiguration in Happly. rewrite Hkind, Hsp, Htp in Happly.
  destruct (apply_node_selector _ _ _ _ _) as [[m1 ws]|] eqn:Hs; cbn in Happly; [|done].
  destruct (apply_tolerations _ _ _ _) as [m2|] eqn:Ht; cbn in Happly; [|done]. injection Happly as <- <-.
  destruct (apply_selector_result _ _ _ _ _ _ Hs Hsel) as (-> & Hsat & Htkeep & Hsread).
  assert (tolerations_at m1 (parent ++ ["tolerations"]) = tolerations_at (w_Object obj) (parent ++ ["tolerations"]))
    as Htat by (unfold tolerations_at; by rewrite Htkeep).
  destruct (apply_tolerations_result _ _ _ _ Ht) as (ms & Hms & Htat2 & Hskeep & Htread); [by rewrite Htat|].
  rewrite Htat in *.
  assert (selector_at m2 (parent ++ ["nodeSelector"]) = selector_at m1 (parent ++ ["nodeSelector"])) as Hsat2
    by (unfold selector_at; by rewrite Hskeep).
  cbn [w_Object with_content]. split; [done|]. split; [by rewrite Hsat2|]. split; [by exists ms|].
  destruct (remove_node_settings_result m2 parent node config ms _ _ Hsp Htp Hms Htol Hsel Htat2 Htread)
    as (m3 & Hrm & Ht3 & Hs3); [by rewrite Hsat2|intros Hne; by rewrite Hskeep, Hsread|].
  unfold removeHWPSettings. cbn [w_Kind with_content w_Object]. rewrite Hkind, Hspec, Hnode. cbn [mbind result_bind].
  rewrite Hrm. cbn [mbind result_bind]. rewrite Hqueue. cbn. eexists. split; [done|]. done.
Qed.

End node_settings.


(** ** Workloads that a profile does not fit *)

Section unfit.
Context `{Nested, NestedWrite, NestedMaps, Marshal, HwpLib} (client_writes : bool).

(** The workload with the namespace its profile was looked up in. *)
Definition with_profile_namespace (obj : Workload) (ns : string) : Workload :=
  if String.eqb (GetAnnotation obj HardwareProfileNamespaceAnnotation) ""
  then SetAnnotation obj HardwareProfileNamespaceAnnotation ns else obj.

Definition profile_namespace (obj : Workload) : string :=
  let ns := GetAnnotation obj HardwareProfileNamespaceAnnotation in
  if String.eqb ns "" then w_Namespace obj else ns.

(** Annotations do not matter for the names of containers. *)
Lemma validate_with_namespace obj ns :
  validateContainerNames (with_profile_namespace obj ns) = validateContainerNames obj.
Proof. unfold with_profile_namespace. by case_match. Qed.

Definition is_event (c : call HwpE) : bool := match c with Call (CreateEvent _ _ _ _) _ => true | _ => false end.

Definition fetched_from (c : call HwpE) : option string :=
  match c with Call (GetHardwareProfile ns _) _ => Some ns | _ => None end.

Definition fetched_hwp (c : call HwpE) : option HardwareProfile :=
  match c with Call (GetHardwareProfile _ _) (Ok hwp) => Some hwp | _ => None end.

(** Admitted with a warning, the settings of no profile applied. *)
Definition admitted_as_is (obj : Workload) (r : Response) : Prop :=
  Allowed r = true ∧ Warnings r ≠ [] ∧
  Patched r = match Marshal_object obj with Ok object => Some object | Err _ => None end.

Lemma admit_unchanged_as_is obj w msg : admitted_as_is obj (admit_unchanged obj w msg).
Proof. unfold admitted_as_is, admit_unchanged. by destruct (Marshal_object obj). Qed.

Lemma emit_event_wp obj suffix reason msg tr (Φ : list (call HwpE) → unit → Prop) :
  (∀ new, Forall is_event new → length new = (if client_writes then 1 else 0)%nat → Φ (tr ++ new) tt) →
  wp (emit_event client_writes obj suffix reason msg) tr Φ.
Proof.
  intros HΦ. unfold emit_event. destruct client_writes; cbn [negb].
  - intros x. cbn. apply HΦ; [|done]. by constructor.
  - cbn. rewrite <-(app_nil_r tr). by apply HΦ.
Qed.

Lemma skip_invalid_wp obj hwp err tr :
  wp (skip_invalid client_writes obj hwp err) tr (λ tr' r, admitted_as_is obj r ∧
    ∃ new, tr' = tr ++ new ∧ Forall is_event new ∧ length new = (if client_writes then 1 else 0)%nat).
Proof.
  destruct err; cbn [skip_invalid]; apply wp_bind, emit_event_wp; intros new Hnew Hlen; cbn [wp mret];
    (split; [apply admit_unchanged_as_is|by exists new]).
Qed.

(** Hardware profiles never block workloads of older releases. Whenever the profile that a
    workload names was found but the workload's containers do not suit it, the workload is
    admitted with a warning and without any setting of the profile - the patch is the object
    with at most the namespace of the profile noted -, and where the client can write, exactly
    one event says so. *)
Theorem invalid_containers_admitted decoder req :
  wp (Handle client_writes decoder req) [] (λ tr r,
    ∀ obj ns hwp, req_Object req = Ok obj → GetAnnotation obj HardwareProfileNameAnnotation ≠ "" →
      Call (GetHardwareProfile ns (GetAnnotation obj HardwareProfileNameAnnotation)) (Ok hwp) ∈ tr →
      validateContainerNames obj ≠ None →
      ns = profile_namespace obj ∧ admitted_as_is (with_profile_namespace obj ns) r ∧
      length (List.filter is_event tr) = if client_writes then 1%nat else 0%nat).
Proof.
  unfold Handle. destruct decoder; cbn [negb]; [|by intros ? ? ? ? ? ?%elem_of_nil].
  destruct (isExpectedKind (req_Kind req)); cbn [negb]; [|by intros ? ? ? ? ? ?%elem_of_nil].
  destruct (req_Object req) as [obj|]; [|by intros ? ? ? ?].
  destruct (w_Deleting obj); [by intros ? ? ? ? ? ?%elem_of_nil|].
  assert (wp (performHardwareProfileInjection client_writes req obj) [] (λ tr r, ∀ ns hwp,
    GetAnnotation obj HardwareProfileNameAnnotation ≠ "" →
    Call (GetHardwareProfile ns (GetAnnotation obj HardwareProfileNameAnnotation)) (Ok hwp) ∈ tr →
    validateContainerNames obj ≠ None →
    ns = profile_namespace obj ∧ admitted_as_is (with_profile_namespace obj ns) r ∧
    length (List.filter is_event tr) = if client_writes then 1%nat else 0%nat)) as Hinject.
  2:{ destruct (req_Operation req); try (intros ? ? ? ? ? ?%elem_of_nil; done);
        (eapply wp_mono; [|exact Hinject]; cbn; intros tr r Hr ? ns hwp [= <-]; apply Hr). }
  unfold performHardwareProfileInjection.
  destruct (String.eqb_spec (GetAnnotation obj HardwareProfileNameAnnotation) "") as [He|Hname].
  { rewrite He. eapply wp_mono; [|apply wp_prefix]. by intros tr r _ ns hwp ?. }
  change (if String.eqb (GetAnnotation obj HardwareProfileNamespaceAnnotation) "" then w_Namespace obj
          else GetAnnotation obj HardwareProfileNamespaceAnnotation) with (profile_namespace obj).
  destruct (String.eqb (profile_namespace obj) ""); [by intros ? ? ? ?%elem_of_nil|].
  apply wp_bind, wp_call. intros [hwp|err]; cbn [app].
  2:{ intros ns hwp _ Hget%list_elem_of_singleton. apply (f_equal fetched_hwp) in Hget. done. }
  unfold inject_profile.
  change (if String.eqb (GetAnnotation obj HardwareProfileNamespaceAnnotation) ""
          then SetAnnotation obj HardwareProfileNamespaceAnnotation (profile_namespace obj) else obj)
    with (with_profile_namespace obj (profile_namespace obj)).
  rewrite validate_with_namespace. destruct (validateContainerNames obj) as [err|].
  2:{ by intros ns ? _ _ []. }
  eapply wp_mono; [|apply skip_invalid_wp]. intros tr r [Hr (new & -> & Hev & Hlen)] ns hwp' _ Hget _.
  assert (ns = profile_namespace obj) as ->.
  { apply elem_of_app in Hget as [Hget%list_elem_of_singleton|Hget].
    - by apply (f_equal fetched_from) in Hget as [= ->].
    - rewrite Forall_forall in Hev. apply Hev in Hget. done. }
  split; [done|]. split; [exact Hr|]. cbn [app List.filter is_event].
  rewrite <-Hlen. f_equal. clear -Hev. induction Hev as [|c new Hc _ IH]; [done|].
  cbn [List.filter]. destruct (is_event c); [by rewrite IH|done].
Qed.

End unfit.

(** ** A service and a profile with a GPU, a selector and a toleration *)

Definition gpu_profile : HardwareProfile := MkHardwareProfile "gpu"
  [MkIdentifier "cpu" (IntVal 2); MkIdentifier "nvidia.com/gpu" (StrVal "1")]
  (Some (MkScheduling None (Some (MkNodeSpec {["zone" := "a"]}
    [MkToleration "nvidia.com/gpu" "Exists" "" "NoSchedule" None])))).

Definition gpu_node : NodeSchedulingSpec :=
  MkNodeSpec {["zone" := "a"]} [MkToleration "nvidia.com/gpu" "Exists" "" "NoSchedule" None].

Definition model_container : value_map :=
  [("name", VString "main");
   ("resources", VMap [("requests", VMap [("cpu", VString "500m")]); ("claims", VSlice [])])].

Definition sample_service : Workload :=
  MkWorkload "serving.kserve.io/v1beta1" "InferenceService" "svc" "models" "uid" false
    ∅ {[HardwareProfileNameAnnotation := "gpu"]}
    [("spec", VMap [("predictor", VMap
        [("model", VMap model_container);
         ("nodeSelector", VMap [("disk", VString "ssd")]);
         ("tolerations", VSlice [VMap [("key", VString "own"); ("operator", VString "Exists")]])])])].

#[local] Existing Instances nested_documented nested_write_documented nested_maps_documented hwp_lib_documented
  nested_documented_laws nested_maps_documented_laws hwp_lib_documented_laws.

Example model_container_resources :
  applyIdentifiersToContainer (VMap model_container) (Identifiers gpu_profile) =
  Ok (VMap [("name", VString "main");
    ("resources", VMap
       [("requests", VMap [("cpu", VString "500m"); ("nvidia.com/gpu", VString "1")]); ("claims", VSlice []);
        ("limits", VMap [("cpu", VString "500m"); ("nvidia.com/gpu", VString "1")])])]).
Proof. reflexivity. Qed.

Lemma applyIdentifiersToContainer_adds_witness :
  ∃ c', applyIdentifiersToContainer (VMap model_container) (Identifiers gpu_profile) = Ok (VMap c') ∧
    amount "requests" c' "cpu" = VString "500m" ∧ amount "limits" c' "cpu" = VString "500m" ∧
    amount "limits" c' "nvidia.com/gpu" = VString "1".
Proof.
  destruct (applyIdentifiersToContainer_adds model_container (Identifiers gpu_profile) _ model_container_resources)
    as (c' & Hc' & _ & Hkeep & Hreq & Hlim).
  exists c'. split; [by rewrite <-Hc'|].
  pose proof (Hkeep "requests" "cpu" (or_introl eq_refl) eq_refl) as Hcpu.
  destruct (Hreq "nvidia.com/gpu" eq_refl) as (q & [= <-] & Hgpu).
  pose proof (Hlim "nvidia.com/gpu" eq_refl) as Hlgpu. pose proof (Hlim "cpu" eq_refl) as Hlcpu.
  cbn in Hlgpu, Hlcpu. rewrite Hlcpu, Hlgpu. split; [exact Hcpu|]. split; [exact Hcpu|exact Hgpu].
Defined.

Lemma node_settings_roundtrip_witness :
  ∃ config obj' obj'', GetWorkloadConfig "InferenceService" = Ok config ∧
    apply_scheduling sample_service gpu_profile false = Ok (obj', []) ∧
    length (tolerations_of config obj') = 2%nat ∧
    removeHWPSettings obj' gpu_profile = Ok obj'' ∧ selector_of config obj'' = selector_of config sample_service ∧
    tolerations_of config obj'' = tolerations_of config sample_service.
Proof.
  assert (∃ config, GetWorkloadConfig "InferenceService" = Ok config) as [config Hc] by (eexists; reflexivity).
  pose proof Hc as Hc'. injection Hc' as Hconfig.
  destruct (apply_scheduling sample_service gpu_profile false) as [[obj' ws]|] eqn:Happly; [|by vm_compute in Happly].
  edestruct (node_settings_roundtrip sample_service gpu_profile (MkScheduling None (Some gpu_node)) gpu_node config)
    as (-> & _ & (ms & Hms & Htol) & obj'' & Hrm & Hs & Ht & _);
    [exact Hc|reflexivity|reflexivity|reflexivity| | |exact Happly|].
  - apply map_disjoint_spec. intros k x y. rewrite <-Hconfig. unfold selector_of, selector_at. cbn.
    intros [<- <-]%lookup_singleton_Some. done.
  - rewrite <-Hconfig. constructor; [|constructor]. apply (bool_decide_unpack _). reflexivity.
  - exists config, obj', obj''. split; [exact Hc|]. split; [reflexivity|].
    split; [rewrite Htol, length_app, length_fmap, <-Hconfig; injection Hms as <-; reflexivity|].
    exact (conj Hrm (conj Hs Ht)).
Defined.
