(* ===== verification/Serving.v ===== *)
(** * Connections of inference workloads

    [internal/webhook/serving] with the connection helpers of [pkg/webhook/utils.go]: a workload
    that names a secret in its connection annotation gets what its kind needs to use it - a pull
    secret, a storage URI, a storage key and a service account -, and loses it again when the
    annotation changes or goes away. The two handlers, for InferenceService ([Isvc]) and
    LLMInferenceService ([Llmisvc]), share their control flow, [Handle]; they differ in what they
    inject and clean up.

    A handler that fails after it changed the object answers with an error, so that an error
    needs no object. Log lines are left out. *)

From S2P Require Import Prelude Effects Unstructured Conversion Admission Workload.

(** ** Data *)

Inductive ConnectionAction :=
| ConnectionActionInject
| ConnectionActionRemove
| ConnectionActionReplace
| ConnectionActionNone.

#[export] Instance ConnectionAction_eq_dec : EqDecision ConnectionAction.
Proof. solve_decision. Defined.

Record ConnectionInfo := MkConnectionInfo {
  SecretName : string;
  Type_ : string;
  Path : string;
}.

Definition no_connection : ConnectionInfo := MkConnectionInfo "" "" "".

Definition IsSecretEmpty (ci : ConnectionInfo) : bool := String.eqb (SecretName ci) "".

Definition ConnectionTypeProtocolURI : string := "uri".
Definition ConnectionTypeProtocolS3 : string := "s3".
Definition ConnectionTypeProtocolOCI : string := "oci".
Definition ConnectionTypeRefURI : string := "uri-v1".
Definition ConnectionTypeRefS3 : string := "s3".
Definition ConnectionTypeRefOCI : string := "oci-v1".

Definition is_oci (t : string) : bool := String.eqb t ConnectionTypeProtocolOCI || String.eqb t ConnectionTypeRefOCI.
Definition is_uri (t : string) : bool := String.eqb t ConnectionTypeProtocolURI || String.eqb t ConnectionTypeRefURI.
Definition is_s3 (t : string) : bool := String.eqb t ConnectionTypeProtocolS3 || String.eqb t ConnectionTypeRefS3.

Definition Connection : string := "opendatahub.io/connections".
Definition ConnectionTypeRef : string := "opendatahub.io/connection-type-ref".
Definition ConnectionTypeProtocol : string := "opendatahub.io/connection-type-protocol".
Definition ConnectionPath : string := "opendatahub.io/connection-path".

(** What is read of a secret's metadata. *)
Record SecretMeta := MkSecretMeta { sm_Name : string; sm_Annotations : gmap string string }.

Definition secret_annotation (s : SecretMeta) (key : string) : string := default "" (sm_Annotations s !! key).

Record ServiceAccount := MkServiceAccount { sa_Name : string; sa_Namespace : string; sa_Secrets : list string }.

Inductive ServingE : Type → Type :=
| GetSecretMeta (namespace name : string) : ServingE (result SecretMeta)
| GetSecret (namespace name : string) : ServingE (result (gmap string string))
| CreateServiceAccount (sa : ServiceAccount) : ServingE (option goerr).

(** [allowedTypes]: the allowed values of each annotation. *)
Record AllowedTypes := MkAllowedTypes { allowed_protocol : list string; allowed_ref : list string }.

Definition allowedTypes : AllowedTypes :=
  MkAllowedTypes [ConnectionTypeProtocolURI; ConnectionTypeProtocolS3; ConnectionTypeProtocolOCI]
    [ConnectionTypeRefURI; ConnectionTypeRefS3; ConnectionTypeRefOCI].

Definition account_name (secretName : string) : string := secretName +:+ "-sa".

(** ** Validation of the annotation *)

Definition GetS3Path (obj : Workload) : string := GetAnnotation obj ConnectionPath.

Definition ValidateInferenceServiceConnectionType (secretMeta : SecretMeta) (types : AllowedTypes)
    : string * bool :=
  let connectionType := secret_annotation secretMeta ConnectionTypeProtocol in
  if nonempty_str connectionType then (connectionType, bool_decide (connectionType ∈ allowed_protocol types))
  else
    let connectionType := secret_annotation secretMeta ConnectionTypeRef in
    if nonempty_str connectionType then (connectionType, bool_decide (connectionType ∈ allowed_ref types))
    else ("", false).

Definition ValidateServingConnectionAnnotation (decodedObj : Workload) (req : Request Workload)
    (types : AllowedTypes) : prog ServingE (Response * ConnectionInfo) :=
  let annotationValue := GetAnnotation decodedObj Connection in
  if String.eqb annotationValue "" then
    mret (allowed ("Annotation '" +:+ Connection +:+ "' not present or empty value"), no_connection)
  else
    found ← trigger (GetSecretMeta (req_Namespace req) annotationValue);
    mret
      (match found with
       | Err err =>
           if err_is TagNotFound err then
             (denied ("Secret '" +:+ annotationValue +:+ "' referenced in annotation '" +:+ Connection +:+
                      "' not found in namespace '" +:+ req_Namespace req +:+ "'"), no_connection)
           else (errored StatusInternalServerError (wrapf "failed to validate secret" err), no_connection)
       | Ok secretMeta =>
           let '(connectionType, isValidType) := ValidateInferenceServiceConnectionType secretMeta types in
           if String.eqb connectionType "" then
             (allowed ("Secret '" +:+ annotationValue +:+ "' does not have '" +:+ ConnectionTypeProtocol +:+
                       "' or '" +:+ ConnectionTypeRef +:+ "' annotation"), no_connection)
           else if negb isValidType then
             (allowed ("Annotation '" +:+ Connection +:+ "' validation on secret '" +:+ annotationValue +:+
                       "' with unknown type '" +:+ connectionType +:+ "' in namespace '" +:+
                       req_Namespace req +:+ "'"), no_connection)
           else
             (allowed "Connection annotation validation passed",
              MkConnectionInfo (sm_Name secretMeta) connectionType (GetS3Path decodedObj))
       end).

Definition GetOldConnectionInfo (req : Request Workload) : prog ServingE (result ConnectionInfo) :=
  match default (Err (errorf "there is no content to decode")) (req_OldObject req) with
  | Err err => mret (Err (wrapf "failed to decode old object" err))
  | Ok oldObj =>
      let oldAnnotationValue := GetAnnotation oldObj Connection in
      if String.eqb oldAnnotationValue "" then mret (Ok no_connection)
      else
        found ← trigger (GetSecretMeta (req_Namespace req) oldAnnotationValue);
        mret
          (match found with
           | Err err =>
               if err_is TagNotFound err
               then Ok (MkConnectionInfo oldAnnotationValue "" (GetAnnotation oldObj ConnectionPath))
               else Err (wrapf "failed to get old secret metadata" err)
           | Ok secretMeta =>
               let oldConnectionType := secret_annotation secretMeta ConnectionTypeProtocol in
               let oldConnectionType :=
                 if String.eqb oldConnectionType "" then secret_annotation secretMeta ConnectionTypeRef
                 else oldConnectionType in
               Ok (MkConnectionInfo oldAnnotationValue oldConnectionType (GetAnnotation oldObj ConnectionPath))
           end)
  end.

Definition DetermineConnectionChangeAction (oldConn newConn : ConnectionInfo) : ConnectionAction :=
  if negb (IsSecretEmpty oldConn) && IsSecretEmpty newConn then ConnectionActionRemove
  else if IsSecretEmpty oldConn && IsSecretEmpty newConn then ConnectionActionNone
  else if IsSecretEmpty oldConn && negb (IsSecretEmpty newConn) then ConnectionActionInject
  else if negb (String.eqb (Type_ oldConn) (Type_ newConn))
          || negb (String.eqb (SecretName oldConn) (SecretName newConn)) then ConnectionActionReplace
  else if is_s3 (Type_ newConn) && negb (String.eqb (Path oldConn) (Path newConn))
  then ConnectionActionReplace
  else ConnectionActionNone.

(** ** Service accounts *)

Definition CreateSA (secretName namespace : string) : prog ServingE (option goerr) :=
  err ← trigger (CreateServiceAccount (MkServiceAccount (account_name secretName) namespace [secretName]));
  mret (match err with
        | Some e => if err_is TagAlreadyExists e then None
                    else Some (wrapf "failed to create ServiceAccount" e)
        | None => None
        end).

Definition ServiceAccountCreation (secretName connectionType namespace : string) (isDryRun : bool)
    : prog ServingE (option goerr) :=
  if is_s3 connectionType && negb isDryRun then CreateSA secretName namespace else mret None.

Section serving.
Context `{Nested, NestedWrite, NestedMaps, Marshal}.

Definition InjectServiceAccountName (obj : Workload) (path : list string) (saName : string) : result Workload :=
  match NestedString (w_Object obj) path with
  | Err err => Err (wrapf "failed to get serviceAccountName from path" err)
  | Ok found =>
      if String.eqb (default "" found) "" then
        object ← SetNestedValue (w_Object obj) (VString saName) path;
        Ok (with_content obj object)
      else Ok obj
  end.

Definition RemoveServiceAccountName (obj : Workload) (path : list string) (injectedSAName : string)
    : result Workload :=
  match NestedString (w_Object obj) path with
  | Err err => Err (wrapf "failed to get serviceAccountName from path" err)
  | Ok found =>
      let currentSAName := default "" found in
      if String.eqb currentSAName "" then Ok obj
      else if negb (String.eqb currentSAName injectedSAName) then Ok obj
      else Ok (with_content obj (RemoveNestedField (w_Object obj) path))
  end.

(** ** Pull secrets *)

(** [name == secretName] of an entry that is a map with a name. *)
Definition is_text (v : value) (s : string) : bool :=
  match v with VString s' => String.eqb s' s | _ => false end.

Definition names_secret (secretName : string) (secret : value) : bool :=
  match secret with
  | VMap m => map_has m "name" && is_text (map_get m "name") secretName
  | _ => false
  end.

Definition names_other_secret (secretName : string) (secret : value) : bool :=
  match secret with
  | VMap m => map_has m "name" && negb (is_text (map_get m "name") secretName)
  | _ => false
  end.

Definition InjectOCIImagePullSecrets (obj : Workload) (path : list string) (secretName : string)
    : result Workload :=
  match GetOrCreateNestedSlice (w_Object obj) path with
  | Err err => Err (wrapf "failed to get path" err)
  | Ok imagePullSecrets =>
      if existsb (names_secret secretName) imagePullSecrets then Ok obj
      else
        object ← SetNestedValue (w_Object obj)
                   (VSlice (imagePullSecrets ++ [VMap [("name", VString secretName)]])) path;
        Ok (with_content obj object)
  end.

Definition CleanupOCIImagePullSecrets (obj : Workload) (path : list string) (secretName : string)
    : result Workload :=
  if String.eqb secretName "" then Ok obj
  else
    match NestedSlice (w_Object obj) path with
    | Err err => Err (wrapf "failed to get imagePullSecrets" err)
    | Ok None => Ok obj
    | Ok (Some imagePullSecrets) =>
        match List.filter (names_other_secret secretName) imagePullSecrets with
        | [] => Ok (with_content obj (RemoveNestedField (w_Object obj) path))
        | remained =>
            match SetNestedSlice (w_Object obj) remained path with
            | Err err => Err (wrapf "failed to set filtered imagePullSecrets" err)
            | Ok object => Ok (with_content obj object)
            end
        end
    end.

Definition CreatePatchResponse (obj : Workload) : Response :=
  match Marshal_object obj with
  | Err err => errored StatusInternalServerError err
  | Ok object => patch_response object
  end.

(** ** Data of the secret *)

Definition GetURIValue (secretName namespace : string) : prog ServingE (result string) :=
  found ← trigger (GetSecret namespace secretName);
  mret (match found with
        | Err err => Err (wrapf ("failed to get secret " +:+ secretName) err)
        | Ok data =>
            match data !! "https-host" with
            | Some uriHost => Ok uriHost
            | None =>
                match data !! "URI" with
                | Some uriHost => Ok uriHost
                | None => Err (errorf "secret does not contain either 'https-host' or 'URI' data key")
                end
            end
        end).

Definition BuildS3URI (connInfo : ConnectionInfo) (namespace : string) : prog ServingE (result string) :=
  found ← trigger (GetSecret namespace (SecretName connInfo));
  mret (match found with
        | Err err => Err (wrapf ("failed to get secret " +:+ SecretName connInfo) err)
        | Ok data =>
            match data !! "AWS_S3_BUCKET" with
            | None => Err (errorf "secret does not contain 'AWS_S3_BUCKET' data key")
            | Some bucketName =>
                if String.eqb bucketName "" then
                  Err (errorf "secret 'AWS_S3_BUCKET' data key is empty, cannot use it for s3:// to get model")
                else if String.eqb (Path connInfo) "" then
                  Err (errorf "connection info does not have path")
                else Ok ("s3://" +:+ bucketName +:+ "/" +:+ Path connInfo)
            end
        end).

(** ** The handlers *)

(** What a kind injects and cleans up: whether anything was done, and the object. *)
Record ConnectionWebhook := MkWebhook {
  performConnectionInjection : Request Workload → Workload → ConnectionInfo → prog ServingE (result (bool * Workload));
  performConnectionCleanup : Workload → ConnectionInfo → result (bool * Workload);
}.

(** Which parts of the webhook were initialized, and whether the request has an object. *)
Record Setup := MkSetup {
  has_Object : bool;
  has_Client : bool;
  has_APIReader : bool;
  has_Decoder : bool;
}.

Definition WebhookPrecheck (w : Setup) : option Response :=
  if negb (has_Object w) then Some (errored StatusBadRequest (errorf "request object is nil"))
  else if negb (has_Client w) then
    Some (errored StatusInternalServerError (errorf "webhook client not initialized"))
  else if negb (has_APIReader w) then
    Some (errored StatusInternalServerError (errorf "webhook APIReader not initialized"))
  else if negb (has_Decoder w) then
    Some (errored StatusInternalServerError (errorf "webhook decoder not initialized"))
  else None.

Section handle.
Variable W : ConnectionWebhook.

Definition in_namespace (msg : string) (req : Request Workload) : Response :=
  allowed (msg +:+ " for " +:+ gvk_Kind (req_Kind req) +:+ " in namespace " +:+ req_Namespace req).

(** The service account, then the injection. *)
Definition connect (req : Request Workload) (obj : Workload) (newConn : ConnectionInfo)
    : prog ServingE (result (bool * Workload)) :=
  err ← ServiceAccountCreation (SecretName newConn) (Type_ newConn) (req_Namespace req) (req_DryRun req);
  match err with
  | Some err => mret (Err err)
  | None => performConnectionInjection W req obj newConn
  end.

Definition handle_action (action : ConnectionAction) (req : Request Workload) (obj : Workload)
    (oldConn newConn : ConnectionInfo) : prog ServingE Response :=
  match action with
  | ConnectionActionInject =>
      injected ← connect req obj newConn;
      mret (match injected with
            | Err err => errored StatusInternalServerError err
            | Ok (true, obj) => CreatePatchResponse obj
            | Ok (false, _) => in_namespace "No connection injection performed" req
            end)
  | ConnectionActionRemove =>
      mret (match performConnectionCleanup W obj oldConn with
            | Err err => errored StatusInternalServerError err
            | Ok (true, obj) => CreatePatchResponse obj
            | Ok (false, _) => in_namespace "Connection cleanup not needed" req
            end)
  | ConnectionActionReplace =>
      match performConnectionCleanup W obj oldConn with
      | Err err => mret (errored StatusInternalServerError err)
      | Ok (cleanupPerformed, obj) =>
          injected ← connect req obj newConn;
          mret (match injected with
                | Err err => errored StatusInternalServerError err
                | Ok (injectionPerformed, obj) =>
                    if cleanupPerformed || injectionPerformed then CreatePatchResponse obj
                    else in_namespace "No connection changes performed" req
                end)
      end
  | ConnectionActionNone => mret (in_namespace "No connection change needed" req)
  end.

Definition handle_connection (req : Request Workload) (obj : Workload) : prog ServingE Response :=
  validated ← ValidateServingConnectionAnnotation obj req allowedTypes;
  let '(validationResp, newConn) := validated in
  if negb (Allowed validationResp) then mret validationResp
  else if bool_decide (req_Operation req = Update) then
    old ← GetOldConnectionInfo req;
    match old with
    | Err err => mret (errored StatusInternalServerError err)
    | Ok oldConn => handle_action (DetermineConnectionChangeAction oldConn newConn) req obj oldConn newConn
    end
  else handle_action ConnectionActionInject req obj no_connection newConn.

Definition Handle (setup : Setup) (req : Request Workload) : prog ServingE Response :=
  match WebhookPrecheck setup with
  | Some resp => mret resp
  | None =>
      match req_Object req with
      | Err err => mret (errored StatusInternalServerError (wrapf "failed to decode object" err))
      | Ok obj =>
          if w_Deleting obj then mret (allowed "Object marked for deletion, skipping connection logic")
          else
            match req_Operation req with
            | Create | Update => handle_connection req obj
            | op => mret (allowed ("Operation " +:+ op_text op +:+ " on " +:+ gvk_Kind (req_Kind req) +:+
                                   " allowed in namespace " +:+ req_Namespace req))
            end
      end
  end.

End handle.

End serving.

(** ** InferenceService *)

Module Isvc.
Section isvc.
Context `{Nested, NestedWrite, NestedMaps, Marshal}.

Definition ModelPath : list string := ["spec"; "predictor"; "model"].
Definition ImagePullSecretPath : list string := ["spec"; "predictor"; "imagePullSecrets"].
Definition StorageUriPath : list string := ["spec"; "predictor"; "model"; "storageUri"].
Definition ServiceAccountNamePath : list string := ["spec"; "predictor"; "serviceAccountName"].

(** [delete(model, field)], written back when there is a model. *)
Definition cleanup_model (obj : Workload) (field : string) : result Workload :=
  match NestedMap (w_Object obj) ModelPath with
  | Err err => Err (wrapf "failed to get .spec.predictor.model" err)
  | Ok None => Ok obj
  | Ok (Some model) =>
      object ← SetNestedValue (w_Object obj) (VMap (map_delete model field)) ModelPath;
      Ok (with_content obj object)
  end.

Definition cleanupURIStorageUri (obj : Workload) : result Workload := cleanup_model obj "storageUri".
Definition cleanupS3StorageKey (obj : Workload) : result Workload := cleanup_model obj "storage".

Definition injectURIStorageUri (obj : Workload) (secretName namespace : string)
    : prog ServingE (result Workload) :=
  uri ← GetURIValue secretName namespace;
  mret (match uri with
        | Err err => Err (wrapf "failed to get URI value" err)
        | Ok uriValue =>
            if String.eqb uriValue "" then
              Err (errorf ("no connection type URI value found for secret " +:+ secretName))
            else
              match SetNestedValue (w_Object obj) (VString uriValue) StorageUriPath with
              | Err err => Err (wrapf "failed to set .spec.predictor.model.storageUri" err)
              | Ok object => Ok (with_content obj object)
              end
        end).

(** The storage path: the workload's own, else the annotation's, else the old workload's. *)
Definition storage_path (storageMap : value_map) (connPath oldSpecPath : string) : value_map :=
  if map_has storageMap "path" && negb (is_text (map_get storageMap "path") "") then storageMap
  else if nonempty_str connPath then map_set storageMap "path" (VString connPath)
  else if nonempty_str oldSpecPath then map_set storageMap "path" (VString oldSpecPath)
  else storageMap.

Definition injectS3StorageKeyPath (obj : Workload) (connInfo : ConnectionInfo) (oldSpecPath : string)
    : result Workload :=
  match NestedMap (w_Object obj) ModelPath with
  | Err err => Err (wrapf "failed to get .spec.predictor.model" err)
  | Ok None => Err (errorf "not found .spec.predictor.model in resource")
  | Ok (Some model) =>
      match GetOrCreateNestedMap model "storage" with
      | Err err => Err (wrapf "failed to get or create nested map for storage" err)
      | Ok storageMap =>
          let storageMap := map_set storageMap "key" (VString (SecretName connInfo)) in
          let storageMap := storage_path storageMap (Path connInfo) oldSpecPath in
          match SetNestedValue (w_Object obj) (VMap (map_set model "storage" (VMap storageMap))) ModelPath with
          | Err err => Err (wrapf "failed to set .spec.predictor.model storage" err)
          | Ok object => Ok (with_content obj object)
          end
      end
  end.

(** [.spec.predictor.model.storage.path] of the object before an update. *)
Definition old_storage_path (req : Request Workload) : string :=
  if bool_decide (req_Operation req = Update) then
    match req_OldObject req with
    | Some (Ok oldObj) => nested_string (w_Object oldObj) ["spec"; "predictor"; "model"; "storage"; "path"]
    | _ => ""
    end
  else "".

Definition performed (r : result Workload) : result (bool * Workload) := obj ← r; Ok (true, obj).

Definition performConnectionInjection (req : Request Workload) (obj : Workload) (connInfo : ConnectionInfo)
    : prog ServingE (result (bool * Workload)) :=
  if is_oci (Type_ connInfo) then
    mret (performed (wrap_result "failed to inject OCI .spec.predictor.imagePullSecrets"
                  (InjectOCIImagePullSecrets obj ImagePullSecretPath (SecretName connInfo))))
  else if is_uri (Type_ connInfo) then
    injected ← injectURIStorageUri obj (SecretName connInfo) (req_Namespace req);
    mret (performed (wrap_result "failed to inject host to .spec.predictor.model.storageUri" injected))
  else if is_s3 (Type_ connInfo) then
    mret (performed
      (obj ← wrap_result "failed to inject .spec.predictor.serviceAccountName"
               (InjectServiceAccountName obj ServiceAccountNamePath (account_name (SecretName connInfo)));
       wrap_result "failed to inject S3 .spec.predictor.model.storage"
         (injectS3StorageKeyPath obj connInfo (old_storage_path req))))
  else mret (Ok (false, obj)).

Definition cleanup_oci (obj : Workload) (connInfo : ConnectionInfo) : result Workload :=
  wrap_result "failed to cleanup OCI .spec.predictor.imagePullSecrets"
    (CleanupOCIImagePullSecrets obj ImagePullSecretPath (SecretName connInfo)).

Definition cleanup_uri (obj : Workload) : result Workload :=
  wrap_result "failed to cleanup URI .spec.predictor.model.storageUri" (cleanupURIStorageUri obj).

Definition cleanup_s3 (obj : Workload) (connInfo : ConnectionInfo) : result Workload :=
  obj ← wrap_result "failed to cleanup .spec.predictor.serviceAccountName"
          (RemoveServiceAccountName obj ServiceAccountNamePath (account_name (SecretName connInfo)));
  wrap_result "failed to cleanup S3 .spec.predictor.model.storage" (cleanupS3StorageKey obj).

Definition performConnectionCleanup (obj : Workload) (connInfo : ConnectionInfo) : result (bool * Workload) :=
  if String.eqb (Type_ connInfo) "" then
    performed
      (obj ← (if nonempty_str (SecretName connInfo) then cleanup_oci obj connInfo
              else Ok (with_content obj (RemoveNestedField (w_Object obj) ImagePullSecretPath)));
       obj ← cleanup_uri obj;
       cleanup_s3 obj connInfo)
  else if is_oci (Type_ connInfo) then performed (cleanup_oci obj connInfo)
  else if is_uri (Type_ connInfo) then performed (cleanup_uri obj)
  else if is_s3 (Type_ connInfo) then performed (cleanup_s3 obj connInfo)
  else Ok (false, obj).

Definition webhook : ConnectionWebhook := MkWebhook performConnectionInjection performConnectionCleanup.

Definition HandleISVC : Setup → Request Workload → prog ServingE Response := Handle webhook.

End isvc.
End Isvc.

(** ** LLMInferenceService *)

Module Llmisvc.
Section llmisvc.
Context `{Nested, NestedWrite, NestedMaps, Marshal}.

Definition UriPath : list string := ["spec"; "model"; "uri"].
Definition ImagePullSecretPath : list string := ["spec"; "template"; "imagePullSecrets"].
Definition ServiceAccountNamePath : list string := ["spec"; "template"; "serviceAccountName"].

Definition injectModelUri (obj : Workload) (uriValue : string) : result Workload :=
  match NestedMap (w_Object obj) ["spec"] with
  | Err err => Err (wrapf "failed to get .spec" err)
  | Ok None => Err (errorf "failed to get .spec: %!w(<nil>)")
  | Ok (Some spec) =>
      match GetOrCreateNestedMap spec "model" with
      | Err err => Err (wrapf "failed to get or create .spec.model" err)
      | Ok model =>
          let model := map_set model "uri" (VString uriValue) in
          match SetNestedValue (w_Object obj) (VMap (map_set spec "model" (VMap model))) ["spec"] with
          | Err err => Err (wrapf "failed to set .spec" err)
          | Ok object => Ok (with_content obj object)
          end
      end
  end.

Definition hasLLMISVCUri (obj : Workload) : bool :=
  match NestedString (w_Object obj) UriPath with Ok (Some _) => true | _ => false end.

Definition cleanupModelUri (obj : Workload) : result (bool * Workload) :=
  match NestedMap (w_Object obj) ["spec"; "model"] with
  | Err err => Err (wrapf "failed to get .spec.model" err)
  | Ok None => Ok (false, obj)
  | Ok (Some _) => Ok (true, with_content obj (RemoveNestedField (w_Object obj) ["spec"; "model"]))
  end.

Definition inject_uri (obj : Workload) (uriValue : string) : result (bool * Workload) :=
  match injectModelUri obj uriValue with
  | Err err => Err (wrapf "failed to inject .spec.model.uri" err)
  | Ok obj => Ok (true, obj)
  end.

Definition performConnectionInjection (req : Request Workload) (obj : Workload) (connInfo : ConnectionInfo)
    : prog ServingE (result (bool * Workload)) :=
  if is_uri (Type_ connInfo) then
    uri ← GetURIValue (SecretName connInfo) (req_Namespace req);
    mret (match uri with
          | Err err => Err (wrapf ("failed to get URI value from secret " +:+ SecretName connInfo) err)
          | Ok uriValue => if String.eqb uriValue "" then Ok (false, obj) else inject_uri obj uriValue
          end)
  else if is_oci (Type_ connInfo) then
    mret (obj ← wrap_result "failed to inject OCI .spec.template.imagePullSecrets"
                  (InjectOCIImagePullSecrets obj ImagePullSecretPath (SecretName connInfo));
          Ok (true, obj))
  else if is_s3 (Type_ connInfo) then
    match InjectServiceAccountName obj ServiceAccountNamePath (account_name (SecretName connInfo)) with
    | Err err => mret (Err (wrapf "failed to inject .spec.template.serviceAccountName" err))
    | Ok obj =>
        uri ← BuildS3URI connInfo (req_Namespace req);
        mret (match uri with
              | Err err => Err (wrapf "failed to build S3 URI" err)
              | Ok uriValue => inject_uri obj uriValue
              end)
    end
  else mret (Ok (false, obj)).

Definition cleanup_account (obj : Workload) (connInfo : ConnectionInfo) : result Workload :=
  wrap_result "failed to cleanup .spec.template.serviceAccountName"
    (RemoveServiceAccountName obj ServiceAccountNamePath (account_name (SecretName connInfo))).

Definition cleanup_oci (obj : Workload) (connInfo : ConnectionInfo) : result Workload :=
  wrap_result "failed to cleanup OCI .spec.template.imagePullSecrets"
    (CleanupOCIImagePullSecrets obj ImagePullSecretPath (SecretName connInfo)).

(** The part that depends on the type. *)
Definition cleanup_type (obj : Workload) (connInfo : ConnectionInfo) : result (bool * Workload) :=
  if String.eqb (Type_ connInfo) "" then
    obj ← (if nonempty_str (SecretName connInfo) then cleanup_oci obj connInfo
           else Ok (with_content obj (RemoveNestedField (w_Object obj) ImagePullSecretPath)));
    obj ← cleanup_account obj connInfo;
    Ok (true, obj)
  else if is_s3 (Type_ connInfo) then obj ← cleanup_account obj connInfo; Ok (true, obj)
  else if is_oci (Type_ connInfo) then
    if nonempty_str (SecretName connInfo) then obj ← cleanup_oci obj connInfo; Ok (true, obj)
    else Ok (false, obj)
  else Ok (false, obj).

Definition performConnectionCleanup (obj : Workload) (connInfo : ConnectionInfo) : result (bool * Workload) :=
  cleaned ← cleanup_type obj connInfo;
  let '(cleanupPerformed, obj) := cleaned in
  if hasLLMISVCUri obj then
    match cleanupModelUri obj with
    | Err err => Err (wrapf "failed to cleanup URI .spec.model.uri" err)
    | Ok (_, obj) => Ok (true, obj)
    end
  else Ok (cleanupPerformed, obj).

Definition webhook : ConnectionWebhook := MkWebhook performConnectionInjection performConnectionCleanup.

Definition HandleLLMISVC : Setup → Request Workload → prog ServingE Response := Handle webhook.

End llmisvc.
End Llmisvc.
