(* ===== verification/ServingTheorems.v ===== *)
(** * Properties of serving connections

    Pull secrets and service accounts come and go without touching what users set; service
    accounts are created for S3 secrets only; what an update does to a workload whose secret
    has a type the webhook does not know. *)

From S2P Require Import Prelude Effects Unstructured Conversion Admission Workload Serving.

(** ** Pull secrets *)

Section pull_secrets.
Context `{Nested, NestedWrite, NestedMaps, !NestedLaws, !NestedMapsLaws}.

Definition slice_at (obj : Workload) (path : list string) : list value :=
  match NestedSlice (w_Object obj) path with Ok (Some l) => l | _ => [] end.

(** An entry as the API server stores it: an object with a name, which is not [s]. *)
Definition other_entry (s : string) (v : value) : Prop :=
  match v with VMap m => map_has m "name" = true ∧ is_text (map_get m "name") s = false | _ => False end.

Lemma names_other_kept s l : Forall (other_entry s) l → List.filter (names_other_secret s) l = l.
Proof.
  induction 1 as [|v l Hv _ IH]; [done|]. cbn [List.filter]. rewrite IH.
  destruct v as [| | | | | |m]; try done. destruct Hv as [Hn Ht]. cbn [names_other_secret]. by rewrite Hn, Ht.
Qed.

Lemma names_other_none s l : Forall (other_entry s) l → existsb (names_secret s) l = false.
Proof.
  induction 1 as [|v l Hv _ IH]; [done|]. cbn [existsb]. rewrite IH, orb_false_r.
  destruct v as [| | | | | |m]; try done. destruct Hv as [Hn Ht]. cbn [names_secret]. by rewrite Hn, Ht.
Qed.

Lemma names_other_own s l :
  Forall (other_entry s) l →
  List.filter (names_other_secret s) (l ++ [VMap [("name", VString s)]]) = l.
Proof.
  intros Hl. rewrite List.filter_app, (names_other_kept s l Hl). cbn. by rewrite String.eqb_refl, app_nil_r.
Qed.

(** A pull secret that a connection added is added once, behind the workload's own, and
    disappears with the connection: exactly the workload's own pull secrets remain. *)
Theorem pull_secrets_roundtrip obj path s obj'
    (Hs : s ≠ "") (Hpath : path ≠ []) (Hown : Forall (other_entry s) (slice_at obj path))
    (Hinject : InjectOCIImagePullSecrets obj path s = Ok obj') :
  slice_at obj' path = slice_at obj path ++ [VMap [("name", VString s)]] ∧
  InjectOCIImagePullSecrets obj' path s = Ok obj' ∧
  ∃ obj'', CleanupOCIImagePullSecrets obj' path s = Ok obj'' ∧ slice_at obj'' path = slice_at obj path.
Proof.
  unfold InjectOCIImagePullSecrets, GetOrCreateNestedSlice in *.
  assert (∃ l, l = slice_at obj path ∧
    match NestedSlice (w_Object obj) path with
    | Err err => Err (wrapf "failed to get nested slice for path" err)
    | Ok None => Ok []
    | Ok (Some nested) => Ok nested
    end = Ok l) as (l & Hl & Hget).
  { unfold slice_at. destruct (NestedSlice (w_Object obj) path) as [[l|]|]; [by exists l|by exists []|done]. }
  rewrite Hget in Hinject. rewrite <-Hl in *. rewrite (names_other_none s l Hown) in Hinject.
  cbn [SetNestedValue] in Hinject. destruct (SetNestedSlice _ _ path) as [object|] eqn:Hset; [|done].
  injection Hinject as <-. pose proof (slice_set_get _ _ _ _ Hset) as Hread. cbn [w_Object with_content].
  assert (slice_at (with_content obj object) path = l ++ [VMap [("name", VString s)]]) as Hslice.
  { unfold slice_at. cbn [w_Object with_content]. by rewrite Hread. }
  split; [exact Hslice|]. split.
  { rewrite Hread, existsb_app. cbn. by rewrite String.eqb_refl, orb_true_r. }
  unfold CleanupOCIImagePullSecrets. rewrite (proj2 (String.eqb_neq s "") Hs). cbn [w_Object with_content].
  rewrite Hread, names_other_own by exact Hown. destruct l as [|v l].
  - eexists. split; [done|]. unfold slice_at. cbn [w_Object with_content]. by rewrite (remove_slice _ _ _ Hpath Hread).
  - destruct (slice_found_set _ _ _ (v :: l) Hread) as [object' Hset']. rewrite Hset'. eexists. split; [done|].
    unfold slice_at. cbn [w_Object with_content]. by rewrite (slice_set_get _ _ _ _ Hset').
Qed.

(** ** Service accounts *)

Definition string_at (obj : Workload) (path : list string) : string := nested_string (w_Object obj) path.

(** A service account that the user set is neither replaced nor removed; an injected one is
    removed again. *)
Lemma account_respected obj path sa obj' :
  path ≠ [] → sa ≠ "" → InjectServiceAccountName obj path sa = Ok obj' →
  (string_at obj path ≠ "" → obj' = obj) ∧
  (string_at obj path = "" → string_at obj' path = sa ∧
     ∃ obj'', RemoveServiceAccountName obj' path sa = Ok obj'' ∧ string_at obj'' path = "") ∧
  (string_at obj path ≠ "" → string_at obj path ≠ sa → RemoveServiceAccountName obj path sa = Ok obj).
Proof.
  intros Hpath Hsa. unfold InjectServiceAccountName, RemoveServiceAccountName, string_at, nested_string.
  destruct (NestedString (w_Object obj) path) as [found|] eqn:Hf; [|done].
  assert (match found with Some s => s | None => "" end = default "" found) as -> by by destruct found.
  destruct (String.eqb_spec (default "" found) "") as [He|Hne].
  - cbn [SetNestedValue]. destruct (SetNestedString _ _ _) as [object|] eqn:Hset; [|done]. intros [= <-].
    split; [done|]. split; [|done]. intros _. cbn [w_Object with_content].
    pose proof (text_set_get _ _ _ _ Hset) as Hread. rewrite Hread. split; [done|]. cbn [default from_option id].
    rewrite (proj2 (String.eqb_neq sa "") Hsa), String.eqb_refl. cbn [negb]. eexists. split; [done|].
    cbn [w_Object with_content]. by rewrite (remove_text _ _ _ Hpath Hread).
  - intros [= <-]. split; [done|]. split; [done|]. intros _ Hother. by rewrite (proj2 (String.eqb_neq _ _) Hother).
Qed.

End pull_secrets.

(** ** Which service accounts are created *)

Definition created (c : call ServingE) : option ServiceAccount :=
  match c with Call (CreateServiceAccount sa) _ => Some sa | _ => None end.

Definition accounts (tr : list (call ServingE)) : list ServiceAccount := omap created tr.

(** A creation that failed, other than because the account exists. *)
Definition create_failed (c : call ServingE) : bool :=
  match c with
  | Call (CreateServiceAccount _) (Some e) => negb (err_is TagAlreadyExists e)
  | _ => false
  end.

Definition reads_only (tr : list (call ServingE)) : Prop := Forall (λ c, created c = None) tr.

Lemma reads_no_accounts tr : reads_only tr → accounts tr = [].
Proof. induction 1 as [|c tr Hc _ IH]; [done|]. unfold accounts. cbn [omap list_omap]. by rewrite Hc. Qed.

Lemma reads_no_failure tr : reads_only tr → existsb create_failed tr = false.
Proof.
  induction 1 as [|[X e x] tr Hc _ IH]; [done|]. cbn [existsb]. rewrite IH, orb_false_r. by destruct e.
Qed.

(** A program that only reads. *)
Definition pure_reads {A} (p : prog ServingE A) : Prop :=
  ∀ tr, wp p tr (λ tr' _, ∃ new, tr' = tr ++ new ∧ reads_only new).

Lemma pure_ret {A} (a : A) : pure_reads (mret a).
Proof. intros tr. exists []. split; [by rewrite app_nil_r|constructor]. Qed.

Lemma pure_bind {A B} (p : prog ServingE A) (f : A → prog ServingE B) :
  pure_reads p → (∀ a, pure_reads (f a)) → pure_reads (p ≫= f).
Proof.
  intros Hp Hf tr. apply wp_bind. eapply wp_mono; [|apply Hp]. intros tr1 a (new & -> & Hnew).
  eapply wp_mono; [|apply Hf]. intros tr2 b (new2 & -> & Hnew2). exists (new ++ new2).
  split; [by rewrite app_assoc|by apply Forall_app].
Qed.

Lemma pure_meta ns s : pure_reads (trigger (GetSecretMeta ns s)).
Proof. intros tr x. exists [Call (GetSecretMeta ns s) x]. split; [done|by constructor]. Qed.

Lemma pure_secret ns s : pure_reads (trigger (GetSecret ns s)).
Proof. intros tr x. exists [Call (GetSecret ns s) x]. split; [done|by constructor]. Qed.

Create HintDb reads discriminated.
#[export] Hint Resolve pure_ret pure_meta pure_secret : reads.
#[export] Hint Extern 2 (pure_reads (mbind _ _)) => apply pure_bind; [|intros ?] : reads.

Section accounts.
Context `{Nested, NestedWrite, NestedMaps, Marshal}.

Lemma uri_reads s ns : pure_reads (GetURIValue s ns).
Proof. unfold GetURIValue. eauto with reads. Qed.

Lemma s3_uri_reads c ns : pure_reads (BuildS3URI c ns).
Proof. unfold BuildS3URI. eauto with reads. Qed.

#[local] Hint Resolve uri_reads s3_uri_reads : reads.

Lemma isvc_injection_reads req obj c : pure_reads (Isvc.performConnectionInjection req obj c).
Proof.
  unfold Isvc.performConnectionInjection, Isvc.injectURIStorageUri.
  repeat case_match; eauto 6 with reads.
Qed.

Lemma llmisvc_injection_reads req obj c : pure_reads (Llmisvc.performConnectionInjection req obj c).
Proof. unfold Llmisvc.performConnectionInjection. repeat case_match; eauto 6 with reads. Qed.

Lemma old_connection_reads req : pure_reads (GetOldConnectionInfo req).
Proof. unfold GetOldConnectionInfo. repeat case_match; eauto 6 with reads. Qed.

Lemma is_s3_eq t : is_s3 t = true → t = "s3".
Proof.
  unfold is_s3, ConnectionTypeProtocolS3, ConnectionTypeRefS3. by destruct (String.eqb_spec t "s3").
Qed.

(** At most one account, for the S3 secret that the annotation names; no failure is ignored. *)
Definition accounts_safe (req : Request Workload) (tr : list (call ServingE)) (r : Response) : Prop :=
  (accounts tr = [] ∨ ∃ obj meta,
     req_Object req = Ok obj ∧ w_Deleting obj = false ∧ req_DryRun req = false ∧
     Call (GetSecretMeta (req_Namespace req) (GetAnnotation obj Connection)) (Ok meta) ∈ tr ∧
     ValidateInferenceServiceConnectionType meta allowedTypes = ("s3", true) ∧
     accounts tr = [MkServiceAccount (account_name (sm_Name meta)) (req_Namespace req) [sm_Name meta]]) ∧
  (existsb create_failed tr = true → Allowed r = false).

(** The accounts of a part of the trace, for the connection [conn]; [ok]: not failed. *)
Definition account_rule (req : Request Workload) (conn : ConnectionInfo) (new : list (call ServingE)) (ok : bool) : Prop :=
  (accounts new = [] ∧ existsb create_failed new = false) ∨
  (is_s3 (Type_ conn) = true ∧ req_DryRun req = false ∧
   accounts new = [MkServiceAccount (account_name (SecretName conn)) (req_Namespace req) [SecretName conn]] ∧
   (existsb create_failed new = true → ok = false)).

Lemma accounts_app tr new : accounts (tr ++ new) = accounts tr ++ accounts new.
Proof. apply omap_app. Qed.

Lemma account_rule_reads req conn new ok : reads_only new → account_rule req conn new ok.
Proof. intros Hnew. left. split; [by apply reads_no_accounts|by apply reads_no_failure]. Qed.

Lemma account_rule_prefix req conn tr new ok :
  reads_only tr → account_rule req conn new ok → account_rule req conn (tr ++ new) ok.
Proof.
  intros Htr. unfold account_rule.
  by rewrite accounts_app, existsb_app, (reads_no_accounts tr Htr), (reads_no_failure tr Htr).
Qed.

Lemma account_rule_suffix req conn tr new ok ok' :
  reads_only new → (ok = false → ok' = false) → account_rule req conn tr ok → account_rule req conn (tr ++ new) ok'.
Proof.
  intros Hnew Hok. unfold account_rule.
  rewrite accounts_app, existsb_app, (reads_no_accounts new Hnew), (reads_no_failure new Hnew), app_nil_r, orb_false_r.
  naive_solver.
Qed.

Lemma creation_rule req conn tr :
  wp (ServiceAccountCreation (SecretName conn) (Type_ conn) (req_Namespace req) (req_DryRun req)) tr
    (λ tr' err, ∃ new, tr' = tr ++ new ∧ account_rule req conn new (negb (match err with Some _ => true | None => false end))).
Proof.
  unfold ServiceAccountCreation. destruct (is_s3 (Type_ conn)) eqn:Hs3, (req_DryRun req) eqn:Hdry; cbn [andb negb];
    try (exists []; split; [by rewrite app_nil_r|apply account_rule_reads; constructor]).
  intros err. cbn. eexists [_]. split; [done|]. right. split_and!; [done|done|done|].
  cbn. destruct err as [e|]; [|done]. rewrite orb_false_r. by destruct (err_is TagAlreadyExists e).
Qed.

(** Where a connection comes from. *)
Definition connection_read (req : Request Workload) (obj : Workload) (conn : ConnectionInfo)
    (tr : list (call ServingE)) : Prop :=
  conn = no_connection ∨ ∃ meta,
    Call (GetSecretMeta (req_Namespace req) (GetAnnotation obj Connection)) (Ok meta) ∈ tr ∧
    ValidateInferenceServiceConnectionType meta allowedTypes = (Type_ conn, true) ∧
    SecretName conn = sm_Name meta.

Lemma rule_safe req obj conn tr r :
  req_Object req = Ok obj → w_Deleting obj = false → account_rule req conn tr (Allowed r) →
  connection_read req obj conn tr → accounts_safe req tr r.
Proof.
  intros Hobj Hdel [[Ha Hf]|(Hs3 & Hdry & Ha & Hf)] Hconn.
  - split; [by left|by rewrite Hf].
  - split; [|exact Hf]. right. destruct Hconn as [->|(meta & Hin & Ht & Hn)]; [done|].
    rewrite (is_s3_eq _ Hs3) in Ht. rewrite Hn in Ha. by exists obj, meta.
Qed.

Section rule.
Variable W : ConnectionWebhook.
Hypothesis injection_reads : ∀ req obj c, pure_reads (performConnectionInjection W req obj c).

Lemma connect_rule req obj conn tr :
  wp (connect W req obj conn) tr (λ tr' r, ∃ new, tr' = tr ++ new ∧ account_rule req conn new (is_ok r)).
Proof.
  unfold connect. apply wp_bind. eapply wp_mono; [|apply creation_rule]. intros tr1 err (new & -> & Hnew).
  destruct err as [e|].
  - exists new. split; [done|]. exact Hnew.
  - eapply wp_mono; [|apply injection_reads]. intros tr2 r (new2 & -> & Hnew2). exists (new ++ new2).
    split; [by rewrite app_assoc|]. eapply account_rule_suffix; [done| |exact Hnew]. done.
Qed.

Lemma action_rule action req obj oldConn newConn tr :
  wp (handle_action W action req obj oldConn newConn) tr
    (λ tr' r, ∃ new, tr' = tr ++ new ∧ account_rule req newConn new (Allowed r)).
Proof.
  assert (∀ (f : result (bool * Workload) → Response) obj', (∀ e, Allowed (f (Err e)) = false) →
    wp (r ← connect W req obj' newConn; mret (f r)) tr
      (λ tr' r, ∃ new, tr' = tr ++ new ∧ account_rule req newConn new (Allowed r))) as Hconnect.
  { intros f obj' Hf. apply wp_bind. eapply wp_mono; [|apply connect_rule]. intros tr' r (new & -> & Hnew).
    exists new. split; [done|]. rewrite <-(app_nil_r new). eapply account_rule_suffix; [constructor| |exact Hnew].
    destruct r as [|e]; [done|]. by intros _. }
  assert (∀ r, wp (mret r : prog ServingE Response) tr
    (λ tr' r, ∃ new, tr' = tr ++ new ∧ account_rule req newConn new (Allowed r))) as Hret.
  { intros r. exists []. split; [by rewrite app_nil_r|]. apply account_rule_reads. constructor. }
  destruct action; cbn [handle_action].
  - by apply Hconnect.
  - apply Hret.
  - destruct (performConnectionCleanup W obj oldConn) as [[performed obj']|]; [|apply Hret]. by apply Hconnect.
  - apply Hret.
Qed.

(** What validation tells about a connection. *)
Lemma validated_connection obj req :
  wp (ValidateServingConnectionAnnotation obj req allowedTypes) [] (λ tr rc, reads_only tr ∧
    connection_read req obj rc.2 tr).
Proof.
  unfold ValidateServingConnectionAnnotation.
  destruct (String.eqb (GetAnnotation obj Connection) ""); [by split; [constructor|left]|].
  apply wp_bind, wp_call. intros [meta|err]; cbn [wp mret app].
  2:{ split; [by constructor|left]. by destruct (err_is TagNotFound err). }
  destruct (ValidateInferenceServiceConnectionType meta allowedTypes) as [t valid] eqn:Ht.
  destruct (String.eqb t ""); [split; [by constructor|by left]|].
  destruct valid; cbn [negb]; [|split; [by constructor|by left]].
  split; [by constructor|]. right. exists meta. split; [by left|]. done.
Qed.

Lemma Handle_accounts setup req :
  wp (Handle W setup req) [] (accounts_safe req).
Proof.
  unfold Handle. destruct (WebhookPrecheck setup); [by split; [left|]|].
  destruct (req_Object req) as [obj|err] eqn:Hobj; [|by split; [left|]].
  destruct (w_Deleting obj) eqn:Hdel; [by split; [left|]|].
  assert (wp (handle_connection W req obj) [] (λ tr r, ∃ conn,
    account_rule req conn tr (Allowed r) ∧
    connection_read req obj conn tr)) as Hc.
  2:{ destruct (req_Operation req); try (by split; [left|]);
        (eapply wp_mono; [|exact Hc]; intros tr r (conn & Hrule & Hconn); by eapply rule_safe). }
  unfold handle_connection. apply wp_bind. eapply wp_mono; [|apply validated_connection].
  intros tr [resp conn] [Htr Hconn]. cbn [snd] in Hconn. destruct (negb (Allowed resp)).
  { exists conn. split; [by apply account_rule_reads|done]. }
  assert (∀ action oldConn tr1, reads_only tr1 → wp (handle_action W action req obj oldConn conn) (tr ++ tr1) (λ tr r, ∃ conn,
    account_rule req conn tr (Allowed r) ∧
    connection_read req obj conn tr)) as Haction.
  { intros action oldConn tr1 Htr1. eapply wp_mono; [|apply action_rule]. intros tr' r (new & -> & Hnew). exists conn.
    split; [by apply account_rule_prefix; [apply Forall_app|]|]. destruct Hconn as [->|(meta & Hin & ? & ?)]; [by left|].
    right. exists meta. split; [|done]. rewrite !elem_of_app. by left; left. }
  case_bool_decide.
  - apply wp_bind. eapply wp_mono; [|apply old_connection_reads]. intros tr1 old (new & -> & Hnew).
    destruct old as [oldConn|err]; [by apply Haction|]. exists no_connection.
    split; [by apply account_rule_reads, Forall_app|by left].
  - rewrite <-(app_nil_r tr). apply Haction. constructor.
Qed.

End rule.

(** The webhooks write to the cluster only to create the service account of an S3
    connection: at most one account per request, not on a dry run, for the secret that the
    workload's annotation names, in the request's namespace, after its metadata were read and say
    S3; and a request whose account could not be created, other than because it exists, is
    rejected. This holds for InferenceServices and LLMInferenceServices alike. *)
Theorem serving_accounts setup req :
  wp (Isvc.HandleISVC setup req) [] (accounts_safe req) ∧
  wp (Llmisvc.HandleLLMISVC setup req) [] (accounts_safe req).
Proof.
  split; apply Handle_accounts; cbn [performConnectionInjection Isvc.webhook Llmisvc.webhook].
  - apply isvc_injection_reads.
  - apply llmisvc_injection_reads.
Qed.

End accounts.

(** ** Secrets of an unknown type *)

(** The metadata that a call found. *)
Definition ok_meta (found : result SecretMeta) : option SecretMeta :=
  match found with Ok meta => Some meta | Err _ => None end.

Definition meta_read (c : call ServingE) : option SecretMeta :=
  match c with Call (GetSecretMeta _ _) found => ok_meta found | _ => None end.

#[export] Instance SecretMeta_eq_dec : EqDecision SecretMeta.
Proof. solve_decision. Defined.

Lemma ok_meta_Some found meta : ok_meta found = Some meta → found = Ok meta.
Proof. destruct found; [by intros [= ->]|done]. Qed.

(** Neither of the types that the webhook handles. *)
Definition unknown_type (meta : SecretMeta) : Prop :=
  ∃ t, ValidateInferenceServiceConnectionType meta allowedTypes = (t, false) ∧
    nonempty_str t = true ∧ is_oci t = false ∧ is_uri t = false ∧ is_s3 t = false.

Lemma type_of_meta meta types t valid :
  ValidateInferenceServiceConnectionType meta types = (t, valid) →
  (if String.eqb (secret_annotation meta ConnectionTypeProtocol) ""
   then secret_annotation meta ConnectionTypeRef else secret_annotation meta ConnectionTypeProtocol) = t.
Proof.
  unfold ValidateInferenceServiceConnectionType, nonempty_str.
  destruct (String.eqb (secret_annotation meta ConnectionTypeProtocol) "") eqn:Hp; cbn [negb]; [|by intros [= <- _]].
  destruct (String.eqb_spec (secret_annotation meta ConnectionTypeRef) "") as [->|]; cbn [negb]; by intros [= <- _].
Qed.

Section unknown.
Context `{Nested, NestedWrite, NestedMaps, Marshal}.

(** An answer that the premise excludes. *)
Lemma wp_excluded {A} (p : prog ServingE A) (P : call ServingE → Prop) tr (Q : A → Prop) :
  ¬ Forall P tr → wp p tr (λ tr' r, Forall P tr' → Q r).
Proof.
  intros Hn. eapply wp_mono; [|apply wp_prefix]. intros tr' r [new ->] [? _]%Forall_app. done.
Qed.

(** Validation of a secret of unknown type: admitted, without connection. *)
Lemma unknown_validated {A} obj req meta tr (f : Response * ConnectionInfo → prog ServingE A) (Q : A → Prop) :
  GetAnnotation obj Connection ≠ "" → unknown_type meta →
  (∀ resp tr', Allowed resp = true →
     wp (f (resp, no_connection)) tr' (λ tr r, Forall (λ c, meta_read c = Some meta) tr → Q r)) →
  wp (rc ← ValidateServingConnectionAnnotation obj req allowedTypes; f rc) tr
    (λ tr r, Forall (λ c, meta_read c = Some meta) tr → Q r).
Proof.
  intros Hann (t & Ht & Hne & _) Hf. unfold ValidateServingConnectionAnnotation.
  rewrite (proj2 (String.eqb_neq _ _) Hann). apply wp_bind, wp_bind, wp_call. intros found.
  destruct (decide (ok_meta found = Some meta)) as [->%ok_meta_Some|Hother].
  - cbn [wp mret]. rewrite Ht. unfold nonempty_str in Hne. destruct (String.eqb t ""); [done|]. by apply Hf.
  - cbn [wp mret]. apply wp_excluded. by intros [_ [Hm _]%Forall_cons]%Forall_app.
Qed.

Lemma unknown_old {A} oldObj req meta t tr (f : result ConnectionInfo → prog ServingE A) (Q : A → Prop) :
  req_OldObject req = Some (Ok oldObj) → GetAnnotation oldObj Connection ≠ "" →
  ValidateInferenceServiceConnectionType meta allowedTypes = (t, false) →
  (∀ tr', wp (f (Ok (MkConnectionInfo (GetAnnotation oldObj Connection) t (GetAnnotation oldObj ConnectionPath)))) tr'
            (λ tr r, Forall (λ c, meta_read c = Some meta) tr → Q r)) →
  wp (old ← GetOldConnectionInfo req; f old) tr (λ tr r, Forall (λ c, meta_read c = Some meta) tr → Q r).
Proof.
  intros Hold Hann Ht Hf. unfold GetOldConnectionInfo. rewrite Hold. cbn [default from_option id].
  rewrite (proj2 (String.eqb_neq _ _) Hann). apply wp_bind, wp_bind, wp_call. intros found.
  destruct (decide (ok_meta found = Some meta)) as [->%ok_meta_Some|Hother].
  - cbn [wp mret]. rewrite (type_of_meta _ _ _ _ Ht). by apply Hf.
  - cbn [wp mret]. apply wp_excluded. by intros [_ [Hm _]%Forall_cons]%Forall_app.
Qed.

Lemma unknown_cleanup obj s t path m :
  nonempty_str t = true → is_oci t = false → is_s3 t = false →
  Llmisvc.hasLLMISVCUri obj = true → NestedMap (w_Object obj) ["spec"; "model"] = Ok (Some m) →
  Llmisvc.performConnectionCleanup obj (MkConnectionInfo s t path) =
  Ok (true, with_content obj (RemoveNestedField (w_Object obj) ["spec"; "model"])).
Proof.
  intros Hne Hoci Hs3 Huri Hm. unfold Llmisvc.performConnectionCleanup, Llmisvc.cleanup_type. cbn [Type_].
  unfold nonempty_str in Hne. destruct (String.eqb t ""); [done|]. rewrite Hs3, Hoci.
  cbn [mbind result_bind]. rewrite Huri. unfold Llmisvc.cleanupModelUri. by rewrite Hm.
Qed.

(** A secret of a type that the webhook does not know is admitted with an LLMInferenceService
    when that is created, which keeps its model; but any later update, even one that leaves the
    annotation alone, takes the whole of [spec.model] away, since the connection that was never
    injected counts as removed. *)
Theorem unknown_type_update_drops_model setup req create obj oldObj meta m
    (Hsetup : WebhookPrecheck setup = None) (Hdel : w_Deleting obj = false)
    (Hunknown : unknown_type meta)
    (Hann : GetAnnotation obj Connection ≠ "")
    (Hsame : GetAnnotation oldObj Connection = GetAnnotation obj Connection)
    (Huri : Llmisvc.hasLLMISVCUri obj = true)
    (Hmodel : NestedMap (w_Object obj) ["spec"; "model"] = Ok (Some m))
    (Hcreate : req_Operation create = Create) (Hnew : req_Object create = Ok obj)
    (Hupdate : req_Operation req = Update) (Hobj : req_Object req = Ok obj)
    (Hold : req_OldObject req = Some (Ok oldObj)) :
  wp (Llmisvc.HandleLLMISVC setup create) [] (λ tr r,
    Forall (λ c, meta_read c = Some meta) tr → Allowed r = true ∧ Patched r = None) ∧
  wp (Llmisvc.HandleLLMISVC setup req) [] (λ tr r,
    Forall (λ c, meta_read c = Some meta) tr →
    r = CreatePatchResponse (with_content obj (RemoveNestedField (w_Object obj) ["spec"; "model"]))).
Proof.
  unfold Llmisvc.HandleLLMISVC, Handle. rewrite Hsetup, Hnew, Hobj, Hdel, Hcreate, Hupdate.
  unfold handle_connection. rewrite Hcreate, Hupdate. split.
  - apply unknown_validated; [done..|]. intros resp tr' Hr. rewrite Hr, bool_decide_eq_false_2 by done. by cbn.
  - apply unknown_validated; [done..|]. intros resp tr' Hr. rewrite Hr, bool_decide_eq_true_2 by done. cbn [negb].
    destruct Hunknown as (t & Ht & Hne & Hoci & _ & Hs3).
    apply (unknown_old oldObj _ _ t); [done|by rewrite Hsame|done|]. intros tr2. unfold DetermineConnectionChangeAction, IsSecretEmpty.
    cbn [SecretName no_connection]. rewrite Hsame, (proj2 (String.eqb_neq _ _) Hann). cbn [String.eqb negb andb handle_action].
    cbn [performConnectionCleanup Llmisvc.webhook]. by rewrite (unknown_cleanup _ _ _ _ m).
Qed.

End unknown.

(** ** A service with a secret of type [postgres] *)

#[local] Existing Instances nested_documented nested_write_documented nested_maps_documented marshal_documented
  nested_documented_laws nested_maps_documented_laws.

Definition llm_service : Workload :=
  MkWorkload "serving.kserve.io/v1alpha1" "LLMInferenceService" "llm" "models" "uid" false
    ∅ {[Connection := "db"]}
    [("spec", VMap
        [("model", VMap [("uri", VString "hf://org/model"); ("name", VString "mine")]);
         ("template", VMap [("imagePullSecrets", VSlice [VMap [("name", VString "own")]])])])].

Definition llm_request (op : Operation) (old : option (result Workload)) : Request Workload :=
  MkRequest (MkGVK "serving.kserve.io" "v1alpha1" "LLMInferenceService") op "models" false (Ok llm_service) old.

Definition all_set : Setup := MkSetup true true true true.
Definition db_secret : SecretMeta := MkSecretMeta "db" {[ConnectionTypeProtocol := "postgres"]}.

(** A cluster in which every secret is [db_secret]. *)
Definition one_secret (X : Type) (e : ServingE X) : unit → X * unit :=
  match e with
  | GetSecretMeta _ _ => λ w, (Ok db_secret, w)
  | GetSecret _ _ => λ w, (Ok ∅, w)
  | CreateServiceAccount _ => λ w, (None, w)
  end.

Lemma pull_secrets_roundtrip_witness :
  ∃ obj', InjectOCIImagePullSecrets llm_service Llmisvc.ImagePullSecretPath "registry" = Ok obj' ∧
    length (slice_at obj' Llmisvc.ImagePullSecretPath) = 2%nat.
Proof.
  destruct (InjectOCIImagePullSecrets llm_service Llmisvc.ImagePullSecretPath "registry") as [obj'|] eqn:Hi; [|by vm_compute in Hi].
  exists obj'. split; [done|]. apply pull_secrets_roundtrip in Hi as [-> _]; [reflexivity|done|done|].
  constructor; [|constructor]. split; reflexivity.
Defined.

Definition llm_response (op : Operation) (old : option (result Workload)) : Response :=
  (run one_secret (Llmisvc.HandleLLMISVC all_set (llm_request op old)) tt []).1.1.

Lemma unknown_type_update_drops_model_witness :
  Patched (llm_response Create None) = None ∧
  Patched (llm_response Update (Some (Ok llm_service))) =
    Some [("spec", VMap [("template", VMap [("imagePullSecrets", VSlice [VMap [("name", VString "own")]])])])].
Proof.
  unfold llm_response. edestruct (unknown_type_update_drops_model all_set (llm_request Update (Some (Ok llm_service)))
    (llm_request Create None) llm_service llm_service db_secret) as [Hcreate Hupdate];
    [reflexivity|reflexivity| |done|reflexivity|reflexivity|reflexivity|reflexivity|reflexivity|reflexivity|reflexivity|reflexivity|].
  { exists "postgres". repeat split. }
  apply (run_wp one_secret _ tt) in Hcreate, Hupdate. split.
  - apply Hcreate. by repeat constructor.
  - rewrite Hupdate; [reflexivity|]. by repeat constructor.
Defined.
