(* ===== verification/Sha256.v ===== *)
(** * SHA-256 ([crypto/sha256]), as the names of storage migration requests use it

    Words are integers below 2^32, bytes integers below 2^8; strings are their bytes. The
    definition follows FIPS 180-4 and is checked on its test vectors. *)

From S2P Require Import Prelude.

#[local] Open Scope Z_scope.

Definition word (z : Z) : Z := Z.land z 4294967295.
Definition rotr (n x : Z) : Z := word (Z.lor (Z.shiftr x n) (Z.shiftl x (32 - n))).

Definition Ch (x y z : Z) : Z := Z.lxor (Z.land x y) (Z.land (4294967295 - x) z).
Definition Maj (x y z : Z) : Z := Z.lxor (Z.lxor (Z.land x y) (Z.land x z)) (Z.land y z).
Definition Sigma0 (x : Z) : Z := Z.lxor (Z.lxor (rotr 2 x) (rotr 13 x)) (rotr 22 x).
Definition Sigma1 (x : Z) : Z := Z.lxor (Z.lxor (rotr 6 x) (rotr 11 x)) (rotr 25 x).
Definition sigma0 (x : Z) : Z := Z.lxor (Z.lxor (rotr 7 x) (rotr 18 x)) (Z.shiftr x 3).
Definition sigma1 (x : Z) : Z := Z.lxor (Z.lxor (rotr 17 x) (rotr 19 x)) (Z.shiftr x 10).

(** The constants are the first 32 bits of the fractional parts of roots of the first primes:
    cube roots for the rounds, square roots for the initial state. *)
Fixpoint cube_root (bits : nat) (n r : Z) : Z :=
  match bits with
  | O => r
  | S b => let r' := r + 2 ^ Z.of_nat b in cube_root b n (if r' ^ 3 <=? n then r' else r)
  end.

Definition is_prime (n : nat) : bool := forallb (λ d, negb (n mod d =? 0)%nat) (seq 2 (n - 2)).

Definition primes (count : nat) : list Z := Z.of_nat <$> take count (List.filter is_prime (seq 2 310)).

Definition K : list Z := Eval vm_compute in (λ p, word (cube_root 36 (p * 2 ^ 96) 0)) <$> primes 64.

Definition H_init : list Z := Eval vm_compute in (λ p, word (Z.sqrt (p * 2 ^ 64))) <$> primes 8.

(** Big-endian bytes of a number. *)
Fixpoint be_bytes (n : nat) (z : Z) : list Z :=
  match n with
  | O => []
  | S n => be_bytes n (Z.shiftr z 8) ++ [Z.land z 255]
  end.

Definition pad (m : list Z) : list Z :=
  let len := Z.of_nat (length m) in
  let zeros := (55 - len) mod 64 in
  m ++ [128] ++ replicate (Z.to_nat zeros) 0 ++ be_bytes 8 (8 * len).

(** Four bytes a word. *)
Fixpoint words (m : list Z) : list Z :=
  match m with
  | a :: b :: c :: d :: m => (((a * 256 + b) * 256 + c) * 256 + d) :: words m
  | _ => []
  end.

(** The message schedule, newest word first. *)
Fixpoint schedule (n : nat) (w : list Z) : list Z :=
  match n with
  | O => w
  | S n =>
      schedule n (word (sigma1 (nth 1 w 0) + nth 6 w 0 + sigma0 (nth 14 w 0) + nth 15 w 0) :: w)
  end.

Definition round (st : list Z) (kw : Z * Z) : list Z :=
  match st with
  | [a; b; c; d; e; f; g; h] =>
      let t1 := h + Sigma1 e + Ch e f g + kw.1 + kw.2 in
      let t2 := Sigma0 a + Maj a b c in
      [word (t1 + t2); a; b; c; word (d + t1); e; f; g]
  | _ => st
  end.

Definition compress (st : list Z) (block : list Z) : list Z :=
  let w := reverse (schedule 48 (reverse block)) in
  zip_with (λ x y, word (x + y)) st (foldl round st (zip K w)).

Fixpoint blocks (fuel : nat) (st w : list Z) : list Z :=
  match fuel with
  | O => st
  | S fuel => match w with [] => st | _ => blocks fuel (compress st (take 16 w)) (drop 16 w) end
  end.

Definition Sum256 (m : list Z) : list Z :=
  let w := words (pad m) in
  flat_map (be_bytes 4) (blocks (length w) H_init w).

(** [[]byte(s)]. *)
Fixpoint bytes_of (s : string) : list Z :=
  match s with
  | EmptyString => []
  | String a s => Z.of_nat (Ascii.nat_of_ascii a) :: bytes_of s
  end.

Definition hex_digit (z : Z) : string :=
  String (Ascii.ascii_of_nat (Z.to_nat (if z <? 10 then 48 + z else 87 + z))) EmptyString.

(** [%x] of a byte slice. *)
Definition hex (m : list Z) : string :=
  String.concat "" ((λ b, hex_digit (Z.shiftr b 4) +:+ hex_digit (Z.land b 15)) <$> m).

Example Sum256_abc :
  hex (Sum256 (bytes_of "abc")) = "ba7816bf8f01cfea414140de5dae2223b00361a396177a9cb410ff61f20015ad".
Proof. vm_compute. reflexivity. Qed.

Example Sum256_two_blocks :
  hex (Sum256 (bytes_of "abcdbcdecdefdefgefghfghighijhijkijkljklmklmnlmnomnopnopq")) =
  "248d6a61d20638b8e5c026930c3e6039a33ce45964ff2167f6ecedd419db06c1".
Proof. vm_compute. reflexivity. Qed.
