(* ===== verification/Secrets.v ===== *)
(** * Generated secrets ([pkg/cluster/secret.go])

    The calls are those of [crypto/rand]: a number below a bound, and a number of random
    bytes. Bytes are characters. *)

From S2P Require Import Prelude Effects.

Inductive RandE : Type → Type :=
| RandInt (max : Z) : RandE (result Z)
| RandRead (n : nat) : RandE (result string).

(** ** [base64.StdEncoding] *)

Definition base64_alphabet : string := "ABCDEFGHIJKLMNOPQRSTUVWXYZabcdefghijklmnopqrstuvwxyz0123456789+/".

Definition base64_char (z : Z) : string :=
  match String.get (Z.to_nat (Z.land z 63)) base64_alphabet with Some a => String a EmptyString | None => "" end.

Definition byte_value (a : Ascii.ascii) : Z := Z.of_nat (Ascii.nat_of_ascii a).

(** Three bytes to four characters; the last one or two are padded. *)
Fixpoint base64_encode (s : string) : string :=
  match s with
  | EmptyString => ""
  | String a EmptyString =>
      let n := Z.shiftl (byte_value a) 4 in
      base64_char (Z.shiftr n 6) +:+ base64_char n +:+ "=="
  | String a (String b EmptyString) =>
      let n := (Z.shiftl (byte_value a) 10 + Z.shiftl (byte_value b) 2)%Z in
      base64_char (Z.shiftr n 12) +:+ base64_char (Z.shiftr n 6) +:+ base64_char n +:+ "="
  | String a (String b (String c s)) =>
      let n := (Z.shiftl (byte_value a) 16 + Z.shiftl (byte_value b) 8 + byte_value c)%Z in
      base64_char (Z.shiftr n 18) +:+ base64_char (Z.shiftr n 12) +:+ base64_char (Z.shiftr n 6) +:+
      base64_char n +:+ base64_encode s
  end.

Example base64_vectors :
  base64_encode "f" = "Zg==" ∧ base64_encode "fo" = "Zm8=" ∧ base64_encode "foo" = "Zm9v" ∧
  base64_encode "foobar" = "Zm9vYmFy".
Proof. by vm_compute. Qed.

(** ** Secrets *)

Definition LetterRunes : string := "0123456789ABCDEFGHIJKLMNOPQRSTUVWXYZabcdefghijklmnopqrstuvwxyz".
Definition ErrUnsupportedType : string := "secret type is not supported".
Definition ErrEmptyName : string := "secret name cannot be empty".
Definition ErrEmptyType : string := "secret type cannot be empty".
Definition ErrInvalidComplexity : string := "secret complexity must be integer and at least 1".

(** [LetterRunes[num]]: none out of range, where Go panics. *)
Definition letter (num : Z) : option Ascii.ascii :=
  if (num <? 0)%Z then None else String.get (Z.to_nat num) LetterRunes.

(** The loop over [secret.Complexity]; [None] is the panic. *)
Fixpoint random_letters (n : nat) : prog RandE (option (result string)) :=
  match n with
  | O => mret (Some (Ok ""))
  | S n =>
      num ← trigger (RandInt (Z.of_nat (String.length LetterRunes)));
      match num with
      | Err err => mret (Some (Err err))
      | Ok num =>
          match letter num with
          | None => mret None
          | Some a =>
              rest ← random_letters n;
              mret ((λ r, s ← r; Ok (String a s)) <$> rest)
          end
      end
  end.

Definition generateSecretValue (secretType : string) (complexity : nat) : prog RandE (option (result string)) :=
  if String.eqb secretType "random" then random_letters complexity
  else if String.eqb secretType "oauth" then
    read ← trigger (RandRead complexity);
    mret (Some (randomValue ← read; Ok (base64_encode (base64_encode randomValue))))
  else mret (Some (Err (errorf ErrUnsupportedType))).

(** The value of the new secret. *)
Definition NewSecret (name secretType : string) (complexity : Z) : prog RandE (option (result string)) :=
  if String.eqb name "" then mret (Some (Err (errorf ErrEmptyName)))
  else if String.eqb secretType "" then mret (Some (Err (errorf ErrEmptyType)))
  else if (complexity <? 1)%Z then mret (Some (Err (errorf ErrInvalidComplexity)))
  else generateSecretValue secretType (Z.to_nat complexity).

(** ** Their values *)

Fixpoint chars (s : string) : list Ascii.ascii :=
  match s with EmptyString => [] | String a s => a :: chars s end.

(** The numbers [crypto/rand] answered are below the bound, as it documents. *)
Definition rand_in_range (c : call RandE) : Prop :=
  match c with
  | Call e x =>
      match e in RandE X return X → Prop with
      | RandInt max => λ x, ∀ z, x = Ok z → (0 ≤ z < max)%Z
      | RandRead _ => λ _, True
      end x
  end.

Definition secret_shaped (n : nat) (r : option (result string)) : Prop :=
  match r with
  | None => False
  | Some (Ok s) => String.length s = n ∧ ∀ a, a ∈ chars s → a ∈ chars LetterRunes
  | Some (Err _) => True
  end.

Lemma letter_in_range num :
  (0 ≤ num < Z.of_nat (String.length LetterRunes))%Z → ∃ a, letter num = Some a ∧ a ∈ chars LetterRunes.
Proof.
  intros [Hlo Hhi]. unfold letter. rewrite (proj2 (Z.ltb_ge num 0) Hlo).
  assert (∀ s n, (n < String.length s)%nat → ∃ a, String.get n s = Some a ∧ a ∈ chars s) as Hget.
  { clear. induction s as [|b s IH]; intros n; simpl; [lia|]. destruct n as [|n]; intros Hn.
    - exists b. split; [done|left].
    - destruct (IH n) as (a & Ha & Hin); [lia|]. exists a. split; [done|by right]. }
  apply Hget. lia.
Qed.

Lemma random_letters_shaped n tr :
  wp (random_letters n) tr (λ tr' r, Forall rand_in_range tr' → secret_shaped n r).
Proof.
  revert tr. induction n as [|n IH]; intros tr; cbn [random_letters].
  - apply wp_ret. intros _. split; [done|]. intros a Ha. by apply not_elem_of_nil in Ha.
  - apply wp_bind, wp_call. intros [num|err]; [|by apply wp_ret].
    destruct (letter num) as [a|] eqn:Hletter.
    + apply wp_bind. eapply wp_mono; [|eapply wp_and; [apply IH|apply wp_prefix]].
      cbn beta. intros tr' r [Hr [new ->]]. apply wp_ret. intros Hall. specialize (Hr Hall).
      apply Forall_app in Hall as [Hall _]. apply Forall_app in Hall as [_ Hnum].
      rewrite Forall_singleton in Hnum. destruct (letter_in_range num (Hnum num eq_refl)) as (a' & Ha' & Hin).
      rewrite Hletter in Ha'. injection Ha' as <-.
      destruct r as [[s|err]|]; cbn; [|done..]. destruct Hr as [Hlen Hrunes].
      split; [simpl; by rewrite Hlen|]. cbn [chars]. intros b [->|Hb]%elem_of_cons; [exact Hin|by apply Hrunes].
    + apply wp_ret. intros Hall. exfalso. apply Forall_app in Hall as [_ Hnum].
      rewrite Forall_singleton in Hnum. destruct (letter_in_range num (Hnum num eq_refl)) as (a' & Ha' & _).
      rewrite Hletter in Ha'. discriminate.
Qed.

(** A secret of the random type has exactly the length asked for and only characters of
    the alphabet, and generating it never panics. *)
Theorem NewSecret_random (name : string) (complexity : Z) :
  name ≠ "" → (1 ≤ complexity)%Z →
  wp (NewSecret name "random" complexity) [] (λ tr r,
    Forall rand_in_range tr → secret_shaped (Z.to_nat complexity) r).
Proof.
  intros Hname Hlen. unfold NewSecret. rewrite (proj2 (String.eqb_neq name "") Hname).
  rewrite (proj2 (Z.ltb_ge complexity 1) Hlen). cbn [String.eqb]. apply random_letters_shaped.
Qed.

Lemma NewSecret_random_witness :
  wp (NewSecret "cookie-secret" "random" 32) [] (λ tr r, Forall rand_in_range tr → secret_shaped 32 r) ∧
  (run (λ X (e : RandE X) (w : Z), match e in RandE X return X * Z with
                                   | RandInt max => (Ok (w mod max)%Z, (w + 25)%Z)
                                   | RandRead _ => (Ok "", w)
                                   end) (NewSecret "cookie-secret" "random" 4) 10%Z []).1.1 = Some (Ok "AZyN").
Proof.
  split; [|by vm_compute]. apply (NewSecret_random "cookie-secret" 32); [discriminate|lia].
Defined.
