(* ===== verification/Gateway.v ===== *)
(** * Gateway service: configuration, names and hosts

    [api/services/v1alpha1/gateway_types.go], [pkg/gatewayconfig/validation.go], the names and
    host names of [internal/controller/services/gateway/gateway_support.go], the ingress mode,
    and [cluster.GetDomain] and the authentication mode of [pkg/cluster/cluster_config.go].

    [kubernetes] says whether the cluster is a plain Kubernetes cluster
    ([cluster.GetClusterInfo().Type]). The validators of apimachinery and the order in which Go
    ranges over route labels are the class [Validators]; the lists they return hold the error
    texts. *)

From S2P Require Import Prelude Effects Conditions Unstructured SharedPlatform PlatformConfig Admission Secrets.

(** ** Configuration *)

Record SecretKeySelector := MkSelector { sel_Name : string; sel_Key : string }.

Record OIDCConfig := MkOIDC {
  IssuerURL : string;
  oidc_ClientID : string;
  oidc_ClientSecretRef : SecretKeySelector;
  oidc_SecretNamespace : string;
  Scope : string;
  PassAccessToken : bool;
  SkipClaimsFromProfileURL : bool;
}.

Record AdditionalIngressOIDCConfig := MkIngressOIDC {
  ClientID : string;
  ClientSecretRef : SecretKeySelector;
  SecretNamespace : string;
}.

Record AdditionalIngressAuth := MkIngressAuth {
  Auth_OIDC : option AdditionalIngressOIDCConfig;
  MaxReplicas : option Z;
}.

Record AdditionalIngress := MkIngress {
  ing_Name : string;
  ing_Hostname : string;
  IngressControllerName : string;
  RouteLabels : gmap string string;
  Auth : AdditionalIngressAuth;
}.

#[export] Instance SecretKeySelector_eq_dec : EqDecision SecretKeySelector.
Proof. solve_decision. Defined.
#[export] Instance OIDCConfig_eq_dec : EqDecision OIDCConfig.
Proof. solve_decision. Defined.
#[export] Instance AdditionalIngressOIDCConfig_eq_dec : EqDecision AdditionalIngressOIDCConfig.
Proof. solve_decision. Defined.
#[export] Instance AdditionalIngressAuth_eq_dec : EqDecision AdditionalIngressAuth.
Proof. solve_decision. Defined.
#[export] Instance AdditionalIngress_eq_dec : EqDecision AdditionalIngress.
Proof. solve_decision. Defined.

Record IssuerRef := MkIssuerRef { iss_Name : string; iss_Kind : string }.

Record CertificateSpec := MkCertificate {
  cert_SecretName : string;
  cert_Type : string;
  cert_IssuerRef : option IssuerRef;
}.

(** Durations are in nanoseconds. *)
Record TokenReviewConfig := MkTokenReview {
  QPS : option Z;
  Burst : option Z;
  CacheTTL : option Z;
}.

Record CookieConfig := MkCookie { Expire : Z; Refresh : Z }.

Record NetworkPolicyConfig := MkNetworkPolicy { np_Ingress : option bool }.

(** [OCPRoute] is the server timeout it holds. *)
Record GatewayConfigSpec := MkGatewaySpec {
  IngressMode : string;
  OCPRoute : option string;
  OIDC : option OIDCConfig;
  Certificate : option CertificateSpec;
  Domain : string;
  Subdomain : string;
  AuthProxyMaxReplicas : option Z;
  ProviderCASecretName : string;
  AdditionalIngresses : list AdditionalIngress;
  Cookie : CookieConfig;
  AuthTimeout : string;
  AuthProxyTimeout : Z;
  NetworkPolicy : option NetworkPolicyConfig;
  VerifyProviderCertificate : option bool;
  EnableK8sTokenValidation : option bool;
  TokenReview : option TokenReviewConfig;
}.

Record GatewayReference := MkGatewayRef { ref_Name : string; ref_Namespace : string }.

#[export] Instance GatewayReference_eq_dec : EqDecision GatewayReference.
Proof. solve_decision. Defined.

Record AdditionalIngressStatus := MkIngressStatus {
  st_Name : string;
  st_Hostname : string;
  GatewayRef : GatewayReference;
  st_Conditions : list Condition;
}.

Record GatewayConfig := MkGatewayConfig {
  gc_Name : string;
  gc_UID : string;
  gc_Generation : Z;
  gc_Annotations : gmap string string;
  gc_Spec : GatewayConfigSpec;
  gc_Domain : string;
  gc_Statuses : list AdditionalIngressStatus;
}.

Definition GatewayConfigName : string := "default-gateway".
Definition GatewayConfigKind : string := "GatewayConfig".
Definition IngressModeOcpRoute : string := "OcpRoute".
Definition IngressModeLoadBalancer : string := "LoadBalancer".
Definition SelfSigned : string := "SelfSigned".
Definition Provided : string := "Provided".
Definition OpenshiftDefaultIngress : string := "OpenshiftDefaultIngress".

(** ** Names *)

Definition GatewayNamespace : string := "openshift-ingress".
Definition XKSGatewayNamespace : string := "rh-ai-gateway".
Definition GatewayClassName : string := "data-science-gateway-class".
Definition GatewayControllerName : string := "openshift.io/gateway-controller/v1".
Definition XKSGatewayControllerName : string := "istio.io/gateway-controller".
Definition DefaultGatewayName : string := "data-science-gateway".
Definition XKSDefaultGatewayName : string := "rh-ai-gateway".
Definition DefaultGatewaySubdomain : string := "rh-ai".
Definition LegacyGatewaySubdomain : string := "data-science-gateway".
Definition IstioRevisionValue : string := "openshift-gateway".
Definition XKSIstioRevisionValue : string := "default".

Section names.
Variable kubernetes : bool.

Definition GetGatewayNamespace : string := if kubernetes then XKSGatewayNamespace else GatewayNamespace.
Definition GetDefaultGatewayName : string := if kubernetes then XKSDefaultGatewayName else DefaultGatewayName.
Definition GetGatewayControllerName : string :=
  if kubernetes then XKSGatewayControllerName else GatewayControllerName.
Definition GetIstioRevisionValue : string := if kubernetes then XKSIstioRevisionValue else IstioRevisionValue.

Definition GetGatewayServiceFullName (gatewayName : string) : string := gatewayName +:+ "-" +:+ GatewayClassName.
Definition GetDefaultGatewayServiceFullName : string := GetGatewayServiceFullName GetDefaultGatewayName.

Definition additionalGatewayInfrastructureConfigMapName (ingressName : string) : string := ingressName +:+ "-config".
Definition additionalGatewayServiceTLSSecretName (ingressName : string) : string := ingressName +:+ "-service-tls".
Definition additionalGatewayEnvoyFilterName (ingressName : string) : string := ingressName +:+ "-authn".

Definition authSecretNamespace (namespace : string) : string :=
  if String.eqb namespace "" then GetGatewayNamespace else namespace.

(** *** Certificates *)

Definition DefaultGatewayCertificateType : string :=
  if kubernetes then SelfSigned else OpenshiftDefaultIngress.

Definition effectiveCertificateType (gatewayConfig : GatewayConfig) : string :=
  match Certificate (gc_Spec gatewayConfig) with
  | Some cert => if nonempty_str (cert_Type cert) then cert_Type cert else DefaultGatewayCertificateType
  | None => DefaultGatewayCertificateType
  end.

Definition gatewayCertificateSecretName (gatewayConfig : GatewayConfig) : string :=
  match Certificate (gc_Spec gatewayConfig) with
  | Some cert => if nonempty_str (cert_SecretName cert) then cert_SecretName cert else gc_Name gatewayConfig +:+ "-tls"
  | None => gc_Name gatewayConfig +:+ "-tls"
  end.

End names.

Definition resolveIssuerRef (Getenv : string → string) (cert : option CertificateSpec) : string * string :=
  let bootstrapConfig := DefaultBootstrapConfig Getenv in
  match cert ≫= cert_IssuerRef with
  | Some ref =>
      (if nonempty_str (iss_Name ref) then iss_Name ref else CAIssuerName bootstrapConfig,
       if nonempty_str (iss_Kind ref) then iss_Kind ref else IssuerRefKind bootstrapConfig)
  | None => (CAIssuerName bootstrapConfig, IssuerRefKind bootstrapConfig)
  end.

(** ** Host names *)

Definition getCurrentSubdomain (gc : option GatewayConfig) : string :=
  match gc with
  | Some gc =>
      let subdomain := TrimSpace (Subdomain (gc_Spec gc)) in
      if nonempty_str subdomain then subdomain else DefaultGatewaySubdomain
  | None => DefaultGatewaySubdomain
  end.

(** [strings.Replace(s, old, new, 1)]: the first occurrence, also when [old] is empty. *)
Fixpoint replace_first (s old new : string) : string :=
  if has_prefix s old then new +:+ String.substring (String.length old) (String.length s) s
  else match s with
       | EmptyString => EmptyString
       | String a s' => String a (replace_first s' old new)
       end.

Record LegacyRedirectInfo := MkLegacy { LegacySubdomain : string; LegacyHostname : string }.

Definition computeLegacyRedirectInfo (gatewayConfig : option GatewayConfig) (hostname : string)
    : LegacyRedirectInfo :=
  let currentSubdomain := getCurrentSubdomain gatewayConfig in
  if negb (String.eqb currentSubdomain LegacyGatewaySubdomain) then
    MkLegacy LegacyGatewaySubdomain
      (replace_first hostname (currentSubdomain +:+ ".") (LegacyGatewaySubdomain +:+ "."))
  else MkLegacy "" "".

(** ** Validation *)

Class Validators := {
  IsDNS1123Subdomain : string → list string;
  IsDNS1035Label : string → list string;
  IsQualifiedName : string → list string;
  IsValidLabelValue : string → list string;
  range_labels : gmap string string → list (string * string);
}.

Class ValidatorsLaws `{Validators} := {
  range_labels_perm m : range_labels m ≡ₚ map_to_list m;
}.

Fixpoint drop_dot (s : string) : string :=
  match s with
  | EmptyString => EmptyString
  | String a EmptyString => if Ascii.eqb a (Ascii.ascii_of_nat 46) then EmptyString else s
  | String a s' => String a (drop_dot s')
  end.

(** [strings.ToLower(strings.TrimSuffix(hostname, "."))]. *)
Definition canonical_hostname (hostname : string) : string := to_lower (drop_dot hostname).

Definition K8SPartOf : string := "app.kubernetes.io/part-of".
Definition K8SComponent : string := "app.kubernetes.io/component".

Section validation.
Context `{Validators}.

Definition first_error (errs : list string) (msg : string → string) : option goerr :=
  match errs with [] => None | e :: _ => Some (errorf (msg e)) end.

Definition validate_label (name : string) (kv : string * string) : option goerr :=
  match first_error (IsQualifiedName kv.1)
          (λ e, "additional ingress " +:+ quote name +:+ " has invalid route label key " +:+ quote kv.1 +:+ ": " +:+ e) with
  | Some err => Some err
  | None =>
      if String.eqb kv.1 K8SPartOf || String.eqb kv.1 PlatformPartOf then
        Some (errorf ("additional ingress " +:+ quote name +:+ " uses reserved route label key " +:+ quote kv.1))
      else
        first_error (IsValidLabelValue kv.2)
          (λ e, "additional ingress " +:+ quote name +:+ " has invalid route label value for " +:+ quote kv.1 +:+ ": " +:+ e)
  end.

Fixpoint validate_labels (name : string) (labels : list (string * string)) : option goerr :=
  match labels with
  | [] => None
  | kv :: labels =>
      match validate_label name kv with Some err => Some err | None => validate_labels name labels end
  end.

(** The loop; [before] are the siblings that were looked at. *)
Fixpoint validate_ingresses (before : list AdditionalIngress) (seenHostnames : gmap string string)
    (ingresses : list AdditionalIngress) : option goerr :=
  match ingresses with
  | [] => None
  | ingress :: ingresses =>
      let name := ing_Name ingress in
      match first_error (IsDNS1123Subdomain (ing_Hostname ingress))
              (λ e, "additional ingress " +:+ quote name +:+ " has invalid hostname " +:+ quote (ing_Hostname ingress) +:+ ": " +:+ e) with
      | Some err => Some err
      | None =>
          let hostname := canonical_hostname (ing_Hostname ingress) in
          match seenHostnames !! hostname with
          | Some existingName =>
              Some (errorf ("additional ingress " +:+ quote name +:+ " hostname " +:+ quote (ing_Hostname ingress) +:+
                            " conflicts with " +:+ quote existingName))
          | None =>
              match first_error (IsDNS1035Label (IngressControllerName ingress))
                      (λ e, "additional ingress " +:+ quote name +:+ " has invalid IngressController name " +:+
                            quote (IngressControllerName ingress) +:+ ": " +:+ e) with
              | Some err => Some err
              | None =>
                  if bool_decide (RouteLabels ingress = ∅) then
                    Some (errorf ("additional ingress " +:+ quote name +:+ " must define route labels"))
                  else
                    match validate_labels name (range_labels (RouteLabels ingress)) with
                    | Some err => Some err
                    | None =>
                        match List.find (λ sibling, bool_decide (RouteLabels sibling = RouteLabels ingress)) before with
                        | Some sibling =>
                            Some (errorf ("additional ingress " +:+ quote name +:+ " route labels conflict with " +:+
                                          quote (ing_Name sibling)))
                        | None =>
                            validate_ingresses (before ++ [ingress]) (<[hostname := name]> seenHostnames) ingresses
                        end
                    end
              end
          end
      end
  end.

Definition Validate (ingresses : list AdditionalIngress) (ingressMode : string) : option goerr :=
  if negb (bool_decide (ingresses = [])) && nonempty_str ingressMode && negb (String.eqb ingressMode IngressModeOcpRoute)
  then Some (errorf ("additional ingresses require " +:+ IngressModeOcpRoute +:+ " ingress mode"))
  else validate_ingresses [] ∅ ingresses.

Definition ValidateAdditionalIngresses (s : GatewayConfigSpec) : option goerr :=
  Validate (AdditionalIngresses s) (IngressMode s).

(** ** Admission *)

Definition GatewayUnsupportedCertTypeOnKubernetesMessage : string :=
  "certificate.type OpenshiftDefaultIngress is not supported on Kubernetes clusters; use SelfSigned or Provided".
Definition GatewayUnsupportedIngressModeOnKubernetesMessage : string :=
  "ingressMode OcpRoute is not supported on Kubernetes clusters; use LoadBalancer".

Definition KubernetesValidationErrors (gatewayConfig : GatewayConfig) : list string :=
  let spec := gc_Spec gatewayConfig in
  (match Certificate spec with
   | Some cert => if String.eqb (cert_Type cert) OpenshiftDefaultIngress
                  then [GatewayUnsupportedCertTypeOnKubernetesMessage] else []
   | None => []
   end) ++
  (if String.eqb (IngressMode spec) IngressModeOcpRoute
   then [GatewayUnsupportedIngressModeOnKubernetesMessage] else []) ++
  (if negb (bool_decide (AdditionalIngresses spec = [])) && String.eqb (IngressMode spec) ""
   then ["additional ingresses require an explicit ingress mode on Kubernetes; received ingressMode=" +:+ quote ""]
   else []).

(** The messages so far and where each key was seen first. *)
Definition appendDuplicate (messages : list string) (seen : gmap string string) (key path : string)
    : list string * gmap string string :=
  match seen !! key with
  | None => (messages, <[key := path]> seen)
  | Some previous => (messages ++ [path +:+ " duplicates " +:+ previous], seen)
  end.

Definition oidcSecretReferenceKey (name namespace defaultNamespace : string) : string :=
  (if String.eqb namespace "" then defaultNamespace else namespace) +:+ "/" +:+ name.

Definition nul : string := String (Ascii.ascii_of_nat 0) EmptyString.

Definition canonicalLabelsKey (labels : gmap string string) : string :=
  String.concat "" ((λ key, key +:+ "=" +:+ default "" (labels !! key) +:+ nul) <$> sort_strings (map_to_list labels).*1).

Record Seen := MkSeen {
  seenFields : gmap string string;
  seenClientIDs : gmap string string;
  seenSecretRefs : gmap string string;
}.

Definition validateOIDCIdentity (oidc : AdditionalIngressOIDCConfig) (index : nat) (defaultSecretNamespace : string)
    (seen : Seen) : list string * Seen :=
  let path := "spec.additionalIngresses[" +:+ itoa (Z.of_nat index) +:+ "].auth.oidc" in
  let '(messages, ids) := appendDuplicate [] (seenClientIDs seen) (ClientID oidc) (path +:+ ".clientID") in
  let key := oidcSecretReferenceKey (sel_Name (ClientSecretRef oidc)) (SecretNamespace oidc) defaultSecretNamespace in
  let '(messages, refs) := appendDuplicate messages (seenSecretRefs seen) key (path +:+ ".clientSecretRef") in
  (messages, MkSeen (seenFields seen) ids refs).

(** One ingress of the loop. *)
Definition validate_entry (spec : GatewayConfigSpec) (defaultSecretNamespace : string) (index : nat)
    (ingress : AdditionalIngress) (seen : Seen) : list string * Seen :=
  let path := "spec.additionalIngresses[" +:+ itoa (Z.of_nat index) +:+ "]" in
  let '(messages, fields) := appendDuplicate [] (seenFields seen) ("name:" +:+ ing_Name ingress) (path +:+ ".name") in
  let '(messages, fields) :=
    appendDuplicate messages fields ("hostname:" +:+ ing_Hostname ingress) (path +:+ ".hostname") in
  let '(messages, fields) :=
    appendDuplicate messages fields ("routeLabels:" +:+ canonicalLabelsKey (RouteLabels ingress))
      (path +:+ ".routeLabels") in
  let seen := MkSeen fields (seenClientIDs seen) (seenSecretRefs seen) in
  match Auth_OIDC (Auth ingress) with
  | None =>
      (messages ++ (match OIDC spec with
                    | Some _ => [path +:+ ".auth.oidc is required when spec.oidc is configured"]
                    | None => []
                    end), seen)
  | Some oidc =>
      let messages := messages ++ (match OIDC spec with
                                   | None => [path +:+ ".auth.oidc requires spec.oidc"]
                                   | Some _ => []
                                   end) in
      let '(identity, seen) := validateOIDCIdentity oidc index defaultSecretNamespace seen in
      (messages ++ identity, seen)
  end.

Fixpoint validate_entries (spec : GatewayConfigSpec) (defaultSecretNamespace : string) (index : nat)
    (ingresses : list AdditionalIngress) (seen : Seen) : list string :=
  match ingresses with
  | [] => []
  | ingress :: ingresses =>
      let '(messages, seen) := validate_entry spec defaultSecretNamespace index ingress seen in
      messages ++ validate_entries spec defaultSecretNamespace (S index) ingresses seen
  end.

Definition seen_default (spec : GatewayConfigSpec) (defaultSecretNamespace : string) : Seen :=
  match OIDC spec with
  | Some oidc =>
      MkSeen ∅ {[oidc_ClientID oidc := "spec.oidc"]}
        {[oidcSecretReferenceKey (sel_Name (oidc_ClientSecretRef oidc)) (oidc_SecretNamespace oidc)
            defaultSecretNamespace := "spec.oidc"]}
  | None => MkSeen ∅ ∅ ∅
  end.

Definition AdditionalIngressValidationErrors (gatewayConfig : GatewayConfig) (defaultSecretNamespace : string)
    : list string :=
  let spec := gc_Spec gatewayConfig in
  if bool_decide (AdditionalIngresses spec = []) then []
  else
    (match ValidateAdditionalIngresses spec with Some err => [err_text err] | None => [] end) ++
    validate_entries spec defaultSecretNamespace 0 (AdditionalIngresses spec) (seen_default spec defaultSecretNamespace).

(** The messages of [internal/webhook/gateway/validating.go]; none admits the object. *)
Definition admission_messages (kubernetes : bool) (gatewayConfig : GatewayConfig) : list string :=
  (if kubernetes then KubernetesValidationErrors gatewayConfig else []) ++
  AdditionalIngressValidationErrors gatewayConfig (GetGatewayNamespace kubernetes).

End validation.

(** [internal/webhook/gateway/validating.go]. [decoder]: whether the decoder was injected. *)
Definition GatewayConfigGVK : GroupVersionKind :=
  MkGVK "services.platform.opendatahub.io" "v1alpha1" GatewayConfigKind.

Definition HandleGatewayConfig `{Validators} (decoder kubernetes : bool) (req : Request GatewayConfig) : Response :=
  if negb decoder then errored StatusInternalServerError (errorf "webhook decoder not initialized")
  else if negb (bool_decide (req_Kind req = GatewayConfigGVK)) then
    errored StatusBadRequest
      (errorf ("unexpected gvk: " +:+ gvk_text (req_Kind req) +:+ "; expecting: " +:+ gvk_text GatewayConfigGVK))
  else if negb (bool_decide (req_Operation req = Create)) && negb (bool_decide (req_Operation req = Update)) then
    allowed ("Operation " +:+ op_text (req_Operation req) +:+ " on " +:+ gvk_Kind (req_Kind req) +:+ " allowed")
  else
    match req_Object req with
    | Err err => errored StatusBadRequest (wrapf "failed to decode GatewayConfig" err)
    | Ok gatewayConfig =>
        match admission_messages kubernetes gatewayConfig with
        | [] => allowed "GatewayConfig values are valid"
        | messages => denied (join "; " messages)
        end
    end.

(** ** Calls *)

(** The controller of an object: kind, name and UID of the owner that controls it. *)
Record ControllerRef := MkController { ctl_Kind : string; ctl_Name : string; ctl_UID : string }.

(** Of a Gateway: the conditions' types and statuses, the listeners' names and hostnames, and
    whether it refers to infrastructure parameters. *)
Record GatewayObject := MkGatewayObject {
  gw_Conditions : list (string * string);
  gw_Listeners : list (string * option string);
  gw_ParametersRef : bool;
}.

Record RouteIngressCondition := MkRouteCondition {
  rc_Type : string;
  rc_Status : string;
  rc_Reason : string;
  rc_Message : string;
}.

Record RouteIngress := MkRouteIngress {
  ri_Host : string;
  ri_RouterName : string;
  ri_Conditions : list RouteIngressCondition;
}.

(** The target port of a Route is a number, a name or absent. *)
Record Route := MkRoute {
  rt_Name : string;
  rt_Labels : gmap string string;
  rt_Controller : option ControllerRef;
  rt_Host : string;
  rt_To : string;
  rt_Port : option (Z + string);
  rt_Ingress : list RouteIngress;
}.

Record Deployment := MkDeployment {
  dp_Generation : Z;
  dp_Replicas : option Z;
  dp_ObservedGeneration : Z;
  dp_AvailableReplicas : Z;
}.

(** What decides whether an existing resource may be deleted. *)
Record ManagedObject := MkManaged {
  mo_Owners : list string;
  mo_Labels : gmap string string;
  mo_Annotations : gmap string string;
}.

(** What the actions hand over for deployment. An HTTPS listener on port 443 that terminates
    TLS: its name, the Secret of its certificate, its host and the namespaces it allows. *)
Record Listener := MkListener {
  l_Name : string;
  l_SecretName : string;
  l_Hostname : option string;
  l_Namespaces : list string;
}.

Record GatewayManifest := MkGatewayManifest {
  gm_Name : string;
  gm_Labels : gmap string string;
  gm_Listeners : list Listener;
  gm_ParametersRef : option string;
  gm_Annotations : gmap string string;
}.

(** What the template of a Route is given. *)
Record RouteData := MkRouteData {
  rd_GatewayName : string;
  rd_GatewayNamespace : string;
  rd_GatewayHostname : string;
  rd_GatewayServiceName : string;
  rd_StandardHTTPSPort : Z;
  rd_RouteLabels : gmap string string;
  rd_RouteServerTimeout : string;
}.

Inductive GwResource :=
| RGatewayClass (name controllerName : string)
| RGateway (g : GatewayManifest)
| RConfigMap (name : string) (labels data : gmap string string)
| RCertificate (name secretName : string) (dnsNames : list string) (issuerName issuerKind : string)
| RSecret (name : string) (data : gmap string string)
| ROAuthClient (name grantMethod : string) (redirectURIs : list string) (secret : string)
| RRoute (name : string) (data : RouteData)
| RRendered (object : Unstructured).

(** Values of template data. *)
Inductive tdata :=
| TNil
| TStr (s : string)
| TInt (z : Z)
| TBool (b : bool)
| TLabels (m : gmap string string)
| TFilters (filters : list (string * string)).

Definition template_data : Type := gmap string tdata.

(** [AddResource]: [rr.AddResources], which fails when an object cannot be converted.
    [RenderTemplates]: the template action on a list of templates. [UpdateGatewayConfig]
    answers with the object the server stored, which replaces the one in memory.
    [RenderRoute] executes the Route template and decodes the result: the Route's name. *)
Inductive GwE : Type → Type :=
| GetClusterIngress : GwE (result value_map)
| GetClusterAuthentication : GwE (result string)
| GetGateway (name : string) : GwE (result GatewayObject)
| GetGatewayConfig : GwE (result GatewayConfig)
| UpdateGatewayConfig (gc : GatewayConfig) : GwE (result GatewayConfig)
| DeleteGateway (name : string) : GwE (option goerr)
| GetServiceType (name : string) : GwE (result string)
| GetController (kind name : string) : GwE (result (option ControllerRef))
| GetRoute (name : string) : GwE (result Route)
| GetDeployment (name : string) : GwE (result Deployment)
| GetCertificate (name : string) : GwE (result (Z * value_map))
| GetSecretData (namespace name : string) : GwE (result (gmap string string))
| GetServerTimeout : GwE (result (option Z))
| Rand {X : Type} (e : RandE X) : GwE X
| CreateOrUpdateSecret (name : string) (data : gmap string string) : GwE (option goerr)
| PropagateIngressCertificate (secretName : string) : GwE (option goerr)
| CreateSelfSignedCertificate (secretName domain : string) : GwE (option goerr)
| GetManaged (kind name : string) : GwE (result ManagedObject)
| DeleteManaged (kind name : string) : GwE (option goerr)
| GetCondition (type : string) : GwE (option Condition)
| MarkCondition (m : mark) : GwE unit
| RenderRoute (data : RouteData) : GwE (result string)
| AddResource (r : GwResource) : GwE (option goerr)
| RenderTemplates (templates : list string) (data : template_data) : GwE (result (list Unstructured))
| ReadResource (path : string) : GwE (result string)
| GetTLSProfile : GwE (result (string * string * string))
| GetDashboard : GwE (result unit)
| GetRedirectResource (kind name : string) : GwE (option goerr)
| DeleteRedirectResource (kind name : string) : GwE (option goerr).

Definition MarkFalse (type reason msg : string) : prog GwE unit :=
  trigger (MarkCondition (MkMark type ConditionFalse (Some reason) (Some msg) None None)).

Definition MarkTrue (type reason msg : string) : prog GwE unit :=
  trigger (MarkCondition (MkMark type ConditionTrue (Some reason) (Some msg) None None)).

Definition GatewayConfigReady : string := GatewayConfigKind +:+ ReadySuffix.

(** ** The domain *)

(** [ErrDomainRequired], recognised by [errors.Is]. *)
Definition ErrDomainRequired : goerr := Goerr "spec.domain is required on non-OpenShift clusters" [TagDomainRequired].

Definition GatewayDomainRequiredMessage : string := "spec.domain is required on non-OpenShift clusters".

Definition GetDomain `{Nested} : prog GwE (result string) :=
  found ← trigger GetClusterIngress;
  mret (match found with
        | Err err => Err (wrapf "failed fetching cluster's ingress details" err)
        | Ok ingress =>
            match NestedString ingress ["spec"; "appsDomain"] with
            | Err err => Err (wrapf "failed to read spec.appsDomain" err)
            | Ok appsDomain =>
                if nonempty_str (default "" appsDomain) then Ok (default "" appsDomain)
                else
                  match NestedString ingress ["spec"; "domain"] with
                  | Err err => Err (wrapf "failed to read spec.domain" err)
                  | Ok domain =>
                      if nonempty_str (default "" domain) then Ok (default "" domain)
                      else Err (errorf "spec.domain not found or empty")
                  end
            end
        end).

Section domain.
Context `{Nested} (kubernetes : bool).

Definition GetFQDN (gatewayConfig : option GatewayConfig) : prog GwE (result string) :=
  let subdomain := getCurrentSubdomain gatewayConfig in
  let baseDomain := match gatewayConfig with Some gc => TrimSpace (Domain (gc_Spec gc)) | None => "" end in
  if nonempty_str baseDomain then mret (Ok (subdomain +:+ "." +:+ baseDomain))
  else if kubernetes then mret (Err ErrDomainRequired)
  else
    clusterDomain ← GetDomain;
    mret (match clusterDomain with
          | Err err => Err (wrapf "failed to get cluster domain" err)
          | Ok clusterDomain => Ok (subdomain +:+ "." +:+ clusterDomain)
          end).

Definition resolveGatewayHostname (gatewayConfig : GatewayConfig) : prog GwE (result string) :=
  hostname ← GetFQDN (Some gatewayConfig);
  match hostname with
  | Ok hostname => mret (Ok hostname)
  | Err err =>
      if err_is TagDomainRequired err then
        _ ← MarkFalse GatewayConfigReady NotReadyReason GatewayDomainRequiredMessage;
        mret (Err ErrDomainRequired)
      else mret (Err (wrapf "failed to resolve domain" err))
  end.

Definition isGatewayDomainUnresolved (gatewayConfig : GatewayConfig) : prog GwE (result bool) :=
  hostname ← resolveGatewayHostname gatewayConfig;
  mret (match hostname with
        | Ok _ => Ok false
        | Err err => if err_is TagDomainRequired err then Ok true else Err err
        end).

Definition GetGatewayDomain : prog GwE (result string) :=
  gateway ← trigger (GetGateway (GetDefaultGatewayName kubernetes));
  match gateway with
  | Ok (MkGatewayObject _ ((_, Some hostname) :: _) _) => mret (Ok hostname)
  | _ =>
      found ← trigger GetGatewayConfig;
      GetFQDN (match found with Ok gatewayConfig => Some gatewayConfig | Err _ => None end)
  end.

(** ** Ingress mode *)

Definition with_ingress_mode (gc : GatewayConfig) (mode : string) : GatewayConfig :=
  let s := gc_Spec gc in
  MkGatewayConfig (gc_Name gc) (gc_UID gc) (gc_Generation gc) (gc_Annotations gc)
    (MkGatewaySpec mode (OCPRoute s) (OIDC s) (Certificate s) (Domain s) (Subdomain s) (AuthProxyMaxReplicas s)
       (ProviderCASecretName s) (AdditionalIngresses s) (Cookie s) (AuthTimeout s) (AuthProxyTimeout s)
       (NetworkPolicy s) (VerifyProviderCertificate s) (EnableK8sTokenValidation s) (TokenReview s))
    (gc_Domain gc) (gc_Statuses gc).

Definition detectAndSetIngressMode (gatewayConfig : GatewayConfig) : prog GwE (option goerr * GatewayConfig) :=
  svc ← trigger (GetServiceType (GetDefaultGatewayServiceFullName kubernetes));
  match svc with
  | Err err =>
      mret (if err_is TagNotFound err then
              (None, with_ingress_mode gatewayConfig (if kubernetes then IngressModeLoadBalancer else IngressModeOcpRoute))
            else (Some (wrapf "failed to get Gateway Service" err), gatewayConfig))
  | Ok serviceType =>
      let detectedMode := if String.eqb serviceType "LoadBalancer" then IngressModeLoadBalancer
                          else IngressModeOcpRoute in
      let gatewayConfig := with_ingress_mode gatewayConfig detectedMode in
      updated ← trigger (UpdateGatewayConfig gatewayConfig);
      mret (match updated with
            | Err err => (Some (wrapf "failed to update GatewayConfig with detected mode" err), gatewayConfig)
            | Ok stored => (None, stored)
            end)
  end.

Definition has_hostname (gateway : GatewayObject) : bool :=
  existsb (λ l : string * option string,
             String.eqb l.1 "https" && match l.2 with Some _ => true | None => false end) (gw_Listeners gateway).

Definition reconcileGatewayForModeChange (desiredMode : string) : prog GwE (option goerr) :=
  found ← trigger (GetGateway (GetDefaultGatewayName kubernetes));
  match found with
  | Err err => mret (if err_is TagNotFound err then None else Some (wrapf "failed to get Gateway" err))
  | Ok gateway =>
      if Bool.eqb (has_hostname gateway) (String.eqb desiredMode IngressModeLoadBalancer) &&
         Bool.eqb (gw_ParametersRef gateway) (String.eqb desiredMode IngressModeOcpRoute)
      then mret None
      else
        err ← trigger (DeleteGateway (GetDefaultGatewayName kubernetes));
        mret (Some (match err with
                    | Some err => wrapf "failed to delete Gateway" err
                    | None => errorf "gateway deleted for mode change, requeuing to recreate"
                    end))
  end.

(** ** The Route's server timeout *)

Definition second : Z := 1000000000.

Definition resolveOCPRouteServerTimeout (config : GatewayConfig) : prog GwE (result string) :=
  if negb (String.eqb (IngressMode (gc_Spec config)) IngressModeOcpRoute) then mret (Ok "")
  else if nonempty_str (default "" (OCPRoute (gc_Spec config))) then mret (Ok (default "" (OCPRoute (gc_Spec config))))
  else
    ingress ← trigger GetServerTimeout;
    mret (match ingress with
          | Err err =>
              if err_is TagNotFound err || err_is TagNoMatch err then Ok ""
              else Err (wrapf "failed to read default IngressController server timeout" err)
          | Ok configured =>
              let serverTimeout := match configured with
                                   | Some d => if (d >? 0)%Z then d else (30 * second)%Z
                                   | None => (30 * second)%Z
                                   end in
              Ok (if (serverTimeout <? 60 * second)%Z then "60s" else "")
          end).

(** ** Ownership *)

Definition isOwnedByGatewayConfig (controller : option ControllerRef) (gatewayConfig : GatewayConfig) : bool :=
  match controller with
  | Some c =>
      String.eqb (ctl_UID c) (gc_UID gatewayConfig) && String.eqb (ctl_Name c) (gc_Name gatewayConfig) &&
      String.eqb (ctl_Kind c) GatewayConfigKind
  | None => false
  end.

Definition canManageGatewayResource (gatewayConfig : GatewayConfig) (kind name : string) : prog GwE (result bool) :=
  existing ← trigger (GetController kind name);
  mret (match existing with
        | Err err =>
            if err_is TagNotFound err then Ok true
            else Err (wrapf ("failed to get existing resource " +:+ GetGatewayNamespace kubernetes +:+ "/" +:+ name) err)
        | Ok controller => Ok (isOwnedByGatewayConfig controller gatewayConfig)
        end).

(** [cluster.GetClusterAuthenticationMode], of what reading the configuration gave. *)
Definition GetClusterAuthenticationMode (auth : result string) : result string :=
  match auth with
  | Err err =>
      Err (if err_is TagNoMatch err then Goerr "cluster not found" [TagNotFound]
           else wrapf "failed to get cluster authentication config" err)
  | Ok type =>
      Ok (if String.eqb type "OIDC" then "OIDC"
          else if String.eqb type "None" then "None"
          else if String.eqb type "" || String.eqb type "IntegratedOAuth" then "IntegratedOAuth"
          else "None")
  end.

Definition getGatewayAuthenticationMode (gatewayConfig : GatewayConfig) : prog GwE (result string) :=
  if kubernetes then
    mret (Ok (match OIDC (gc_Spec gatewayConfig) with Some _ => "OIDC" | None => "None" end))
  else
    auth ← trigger GetClusterAuthentication;
    mret (wrap_result "failed to detect cluster authentication mode" (GetClusterAuthenticationMode auth)).

End domain.
