(* ===== verification/GatewayTheorems.v ===== *)
(** * Properties of the gateway's configuration

    Which additional ingresses are accepted, at run time and at admission, and what host names
    and legacy redirects are. *)

From S2P Require Import Prelude Effects Conditions Unstructured SharedPlatform PlatformConfig Admission Secrets Gateway.

(** ** Additional ingresses *)

Section ingresses.
Context `{Validators, !ValidatorsLaws}.

(** A label key that the operator does not use itself, and a value, both well formed. *)
Definition label_ok (k v : string) : Prop :=
  IsQualifiedName k = [] ∧ k ≠ K8SPartOf ∧ k ≠ PlatformPartOf ∧ IsValidLabelValue v = [].

Definition ingress_ok (i : AdditionalIngress) : Prop :=
  IsDNS1123Subdomain (ing_Hostname i) = [] ∧ IsDNS1035Label (IngressControllerName i) = [] ∧
  RouteLabels i ≠ ∅ ∧ map_Forall label_ok (RouteLabels i).

Definition host_of (i : AdditionalIngress) : string := canonical_hostname (ing_Hostname i).

(** What [Validate] promises. *)
Definition ingresses_ok (ingresses : list AdditionalIngress) (mode : string) : Prop :=
  (ingresses = [] ∨ mode = "" ∨ mode = IngressModeOcpRoute) ∧ Forall ingress_ok ingresses ∧
  NoDup (host_of <$> ingresses) ∧ NoDup (RouteLabels <$> ingresses).

Lemma first_error_None errs msg : first_error errs msg = None ↔ errs = [].
Proof. by destruct errs. Qed.

Lemma validate_label_None name k v : validate_label name (k, v) = None ↔ label_ok k v.
Proof.
  unfold validate_label, label_ok. cbn [fst snd].
  destruct (first_error (IsQualifiedName k) _) as [e|] eqn:Hq.
  { split; [done|]. intros [Hn _]. by rewrite Hn in Hq. }
  apply first_error_None in Hq. destruct (String.eqb_spec k K8SPartOf) as [->|]; cbn [orb].
  { split; [done|]. naive_solver. }
  destruct (String.eqb_spec k PlatformPartOf) as [->|]; [split; [done|naive_solver]|].
  rewrite first_error_None. naive_solver.
Qed.

Lemma validate_labels_None name l :
  validate_labels name l = None ↔ Forall (λ kv, label_ok kv.1 kv.2) l.
Proof.
  induction l as [|[k v] l IH]; cbn [validate_labels]; [done|]. rewrite Forall_cons, <-IH. cbn [fst snd].
  rewrite <-(validate_label_None name). by destruct (validate_label name (k, v)); naive_solver.
Qed.

Lemma labels_checked name m :
  validate_labels name (range_labels m) = None ↔ map_Forall label_ok m.
Proof.
  rewrite validate_labels_None, range_labels_perm, map_Forall_to_list. apply Forall_iff. by intros [k v].
Qed.

Lemma sibling_None before i :
  List.find (λ sibling, bool_decide (RouteLabels sibling = RouteLabels i)) before = None ↔
  RouteLabels i ∉ RouteLabels <$> before.
Proof.
  rewrite list_elem_of_fmap. split.
  - intros Hf (s & Hs & Hin). apply list_elem_of_In in Hin. apply (find_none _ _ Hf) in Hin.
    by rewrite bool_decide_eq_true_2 in Hin.
  - intros Hn. destruct (List.find _ before) as [s|] eqn:Hs; [|done]. exfalso. apply Hn.
    apply find_some in Hs as [Hin Hd]. exists s. apply bool_decide_eq_true in Hd. by rewrite list_elem_of_In.
Qed.

Lemma validate_ingresses_None before seen ingresses :
  (∀ h, is_Some (seen !! h) ↔ h ∈ host_of <$> before) →
  NoDup (host_of <$> before) → NoDup (RouteLabels <$> before) →
  validate_ingresses before seen ingresses = None ↔
  Forall ingress_ok ingresses ∧ NoDup (host_of <$> before ++ ingresses) ∧ NoDup (RouteLabels <$> before ++ ingresses).
Proof.
  revert before seen. induction ingresses as [|i ingresses IH]; intros before seen Hseen Hh Hl.
  { rewrite app_nil_r. naive_solver. }
  rewrite Forall_cons. unfold ingress_ok at 1. cbn [validate_ingresses].
  assert (host_of <$> before ++ i :: ingresses = host_of <$> (before ++ [i]) ++ ingresses) as -> by by rewrite <-app_assoc.
  assert (RouteLabels <$> before ++ i :: ingresses = RouteLabels <$> (before ++ [i]) ++ ingresses) as -> by by rewrite <-app_assoc.
  destruct (first_error (IsDNS1123Subdomain (ing_Hostname i)) _) eqn:H1; [split; [done|intros (((H1' & _) & _) & _); by rewrite H1' in H1]|].
  apply first_error_None in H1. change (canonical_hostname (ing_Hostname i)) with (host_of i).
  destruct (seen !! host_of i) as [other|] eqn:Hi.
  { split; [done|]. intros (_ & Hd & _). exfalso. rewrite fmap_app, fmap_app in Hd.
    apply NoDup_app in Hd as (Hd & _). apply NoDup_app in Hd as (_ & Hd & _).
    apply (Hd (host_of i)); [apply Hseen; by rewrite Hi|by left]. }
  destruct (first_error (IsDNS1035Label (IngressControllerName i)) _) eqn:H2; [split; [done|intros (((_ & H2' & _) & _) & _); by rewrite H2' in H2]|].
  apply first_error_None in H2. case_bool_decide as H3; [split; [done|naive_solver]|].
  destruct (validate_labels (ing_Name i) (range_labels (RouteLabels i))) eqn:H4.
  { split; [done|]. intros (((_ & _ & _ & H4') & _) & _). apply (labels_checked (ing_Name i)) in H4'. congruence. }
  apply labels_checked in H4. destruct (List.find _ before) as [s|] eqn:H5.
  { split; [done|]. intros (_ & _ & Hd). exfalso. rewrite fmap_app, fmap_app in Hd.
    apply NoDup_app in Hd as (Hd & _). apply NoDup_app in Hd as (_ & Hd & _).
    destruct (decide (RouteLabels i ∈ RouteLabels <$> before)) as [Hin|Hout]; [apply (Hd _ Hin); by left|].
    apply sibling_None in Hout. congruence. }
  apply sibling_None in H5. rewrite IH.
  - naive_solver.
  - intros h. rewrite fmap_app, elem_of_app, <-Hseen. destruct (decide (h = host_of i)) as [->|Hne].
    + rewrite lookup_insert_eq. split; [right; by left|by eexists].
    + rewrite lookup_insert_ne by done. split; [by left|]. by intros [?|?%list_elem_of_singleton].
  - rewrite fmap_app. apply NoDup_app. split; [done|]. split; [|apply NoDup_singleton].
    intros h Hb ->%list_elem_of_singleton. apply Hseen in Hb. rewrite Hi in Hb. by destruct Hb.
  - rewrite fmap_app. apply NoDup_app. split; [done|]. split; [|apply NoDup_singleton].
    by intros l Hb ->%list_elem_of_singleton.
Qed.

(** Additional ingresses are accepted exactly when the ingress mode allows them, each is well
    formed and uses no label of the operator's, and no two share a host name - up to case and a
    trailing dot - or their route labels. *)
Theorem Validate_iff ingresses mode : Validate ingresses mode = None ↔ ingresses_ok ingresses mode.
Proof.
  assert (validate_ingresses [] ∅ ingresses = None ↔ Forall ingress_ok ingresses ∧
            NoDup (host_of <$> ingresses) ∧ NoDup (RouteLabels <$> ingresses)) as Hloop.
  { apply (validate_ingresses_None [] ∅ ingresses); [|constructor|constructor].
    intros h. rewrite lookup_empty. split; [by intros []|by intros ?%elem_of_nil]. }
  unfold Validate, ingresses_ok, nonempty_str.
  case_bool_decide as Hi; cbn [negb andb]; [naive_solver|].
  destruct (String.eqb_spec mode ""); cbn [negb andb]; [naive_solver|].
  destruct (String.eqb_spec mode IngressModeOcpRoute); cbn [negb]; naive_solver.
Qed.

End ingresses.

(** ** Admission *)

(** The keys that were seen. *)
Definition has_keys (seen : gmap string string) (keys : list string) : Prop :=
  ∀ h, is_Some (seen !! h) ↔ h ∈ keys.

Lemma has_keys_empty : has_keys ∅ [].
Proof. intros h. rewrite lookup_empty. split; [by intros []|by intros ?%elem_of_nil]. Qed.

Lemma has_keys_singleton k path : has_keys {[k := path]} [k].
Proof.
  intros h. rewrite list_elem_of_singleton. destruct (decide (h = k)) as [->|Hne].
  - rewrite lookup_singleton_eq. split; [done|by eexists].
  - rewrite lookup_singleton_ne by done. split; [by intros []|done].
Qed.

(** A key is reported exactly when it was seen before. *)
Lemma appendDuplicate_keys messages seen key path keys :
  has_keys seen keys → NoDup keys →
  (NoDup (keys ++ [key]) ∧ appendDuplicate messages seen key path = (messages, <[key := path]> seen) ∧
     has_keys (<[key := path]> seen) (keys ++ [key])) ∨
  (¬ NoDup (keys ++ [key]) ∧ ∃ m, appendDuplicate messages seen key path = (messages ++ [m], seen)).
Proof.
  intros Hs Hd. unfold has_keys in *. unfold appendDuplicate. destruct (seen !! key) as [previous|] eqn:Hk; [right|left].
  - split; [|by eexists]. intros (_ & Hn & _)%NoDup_app. apply (Hn key); [apply Hs; by rewrite Hk|by left].
  - split; [|split; [done|]].
    + apply NoDup_app. split; [done|]. split; [|apply NoDup_singleton].
      intros h Hh ->%list_elem_of_singleton. apply Hs in Hh. rewrite Hk in Hh. by destruct Hh.
    + intros h. rewrite elem_of_app, list_elem_of_singleton, <-Hs. destruct (decide (h = key)) as [->|Hne].
      * rewrite lookup_insert_eq. split; [by right|by eexists].
      * rewrite lookup_insert_ne by done. naive_solver.
Qed.

(** Several keys in a row. *)
Definition appendDuplicates (acc : list string * gmap string string) (kps : list (string * string))
    : list string * gmap string string :=
  foldl (λ acc kp, appendDuplicate acc.1 acc.2 kp.1 kp.2) acc kps.

Lemma appendDuplicates_grow acc kps : ∃ more, (appendDuplicates acc kps).1 = acc.1 ++ more.
Proof.
  revert acc. induction kps as [|[k p] kps IH]; intros [m s]; [exists []; by rewrite app_nil_r|].
  cbn [appendDuplicates foldl fst snd]. destruct (IH (appendDuplicate m s k p)) as [more Hm].
  unfold appendDuplicates in Hm. rewrite Hm. unfold appendDuplicate. destruct (s !! k); cbn [fst].
  - rewrite <-app_assoc. by eexists.
  - by eexists.
Qed.

Lemma appendDuplicates_keys seen kps keys :
  has_keys seen keys → NoDup keys →
  ((appendDuplicates ([], seen) kps).1 = [] ↔ NoDup (keys ++ kps.*1)) ∧
  ((appendDuplicates ([], seen) kps).1 = [] → has_keys (appendDuplicates ([], seen) kps).2 (keys ++ kps.*1)).
Proof.
  revert seen keys. induction kps as [|[k p] kps IH]; intros seen keys Hs Hd.
  { cbn. rewrite app_nil_r. done. }
  rewrite fmap_cons. assert (keys ++ (k, p).1 :: kps.*1 = (keys ++ [k]) ++ kps.*1) as -> by by rewrite <-app_assoc.
  unfold appendDuplicates. cbn [foldl fst snd].
  destruct (appendDuplicate_keys [] seen k p keys Hs Hd) as [(Hnew & -> & Hs')|(Hdup & m & ->)].
  - by apply IH.
  - destruct (appendDuplicates_grow ([] ++ [m], seen) kps) as [more Hm]. unfold appendDuplicates in Hm. rewrite Hm.
    split; [|done]. split; [done|]. intros (Hn & _)%NoDup_app. done.
Qed.

Definition field_keys (i : AdditionalIngress) : list string :=
  ["name:" +:+ ing_Name i; "hostname:" +:+ ing_Hostname i; "routeLabels:" +:+ canonicalLabelsKey (RouteLabels i)].

Definition client_of (i : AdditionalIngress) : option string := ClientID <$> Auth_OIDC (Auth i).

Definition secret_of (ns : string) (i : AdditionalIngress) : option string :=
  (λ o, oidcSecretReferenceKey (sel_Name (ClientSecretRef o)) (SecretNamespace o) ns) <$> Auth_OIDC (Auth i).

(** An ingress has an identity of its own exactly when the default gateway has one. *)
Definition auth_ok (spec : GatewayConfigSpec) (i : AdditionalIngress) : Prop :=
  is_Some (OIDC spec) ↔ is_Some (Auth_OIDC (Auth i)).

Record seen_keys (seen : Seen) (fields clients secrets : list string) : Prop := {
  fields_seen : has_keys (seenFields seen) fields;
  clients_seen : has_keys (seenClientIDs seen) clients;
  secrets_seen : has_keys (seenSecretRefs seen) secrets;
}.


Lemma auth_ok_messages spec i path :
  (match Auth_OIDC (Auth i) with
   | None => match OIDC spec with Some _ => [path +:+ ".auth.oidc is required when spec.oidc is configured"] | None => [] end
   | Some _ => match OIDC spec with None => [path +:+ ".auth.oidc requires spec.oidc"] | Some _ => [] end
   end) = [] ↔ auth_ok spec i.
Proof.
  unfold auth_ok. destruct (Auth_OIDC (Auth i)) as [o|], (OIDC spec) as [d|].
  - split; [intros _; split; intros _; by eexists|done].
  - split; [done|]. intros [_ Hn]. destruct Hn; [by eexists|done].
  - split; [done|]. intros [Hn _]. destruct Hn; [by eexists|done].
  - split; [intros _; split; by intros []|done].
Qed.

Lemma app_nil_iff {A} (l l' : list A) : l ++ l' = [] ↔ l = [] ∧ l' = [].
Proof. split; [apply app_eq_nil|by intros [-> ->]]. Qed.

(** One entry of the loop. *)
Lemma validate_entry_keys spec ns index i seen messages seen' fields clients secrets :
  seen_keys seen fields clients secrets → NoDup fields → NoDup clients → NoDup secrets →
  validate_entry spec ns index i seen = (messages, seen') →
  (messages = [] ↔ auth_ok spec i ∧ NoDup (fields ++ field_keys i) ∧ NoDup (clients ++ option_list (client_of i)) ∧
     NoDup (secrets ++ option_list (secret_of ns i))) ∧
  (messages = [] → seen_keys seen' (fields ++ field_keys i) (clients ++ option_list (client_of i))
                     (secrets ++ option_list (secret_of ns i))).
Proof.
  intros [Hf Hc Hr] Hdf Hdc Hdr. unfold validate_entry.
  set (path := "spec.additionalIngresses[" +:+ itoa (Z.of_nat index) +:+ "]").
  pose proof (appendDuplicates_keys (seenFields seen) (zip (field_keys i)
    [path +:+ ".name"; path +:+ ".hostname"; path +:+ ".routeLabels"]) fields Hf Hdf) as [H1 K1].
  cbn [zip zip_with field_keys fmap list_fmap fst appendDuplicates foldl snd] in H1, K1.
  destruct (appendDuplicate [] (seenFields seen) _ _) as [m1 f1]. cbn [fst snd] in H1, K1.
  destruct (appendDuplicate m1 f1 _ _) as [m2 f2]. cbn [fst snd] in H1, K1.
  destruct (appendDuplicate m2 f2 _ _) as [m3 f3]. cbn [fst snd] in H1, K1.
  fold (field_keys i) in H1, K1. pose proof (auth_ok_messages spec i path) as Hauth.
  unfold client_of, secret_of. destruct (Auth_OIDC (Auth i)) as [o|]; cbn [option_list fmap option_fmap option_map].
  2:{ intros [= <- <-]. rewrite !app_nil_r, app_nil_iff, Hauth, H1. split; [naive_solver|].
      intros [Ha Hm]. split; [apply K1; by rewrite H1|done|done]. }
  unfold validateOIDCIdentity. cbn [seenClientIDs seenSecretRefs seenFields].
  set (key := oidcSecretReferenceKey _ _ _).
  set (opath := "spec.additionalIngresses[" +:+ itoa (Z.of_nat index) +:+ "].auth.oidc").
  destruct (appendDuplicate_keys [] (seenClientIDs seen) (ClientID o) (opath +:+ ".clientID") clients Hc Hdc)
    as [(Hnc & Hec & Hkc)|(Hnc & mc & Hec)].
  - rewrite Hec. destruct (appendDuplicate_keys [] (seenSecretRefs seen) key (opath +:+ ".clientSecretRef") secrets Hr Hdr)
      as [(Hnr & -> & Hkr)|(Hnr & mr & ->)]; intros [= <- <-]; rewrite !app_nil_iff, Hauth, H1.
    + split; [naive_solver|]. intros ((Ha & Hm) & _). split; [apply K1; by rewrite H1|done|done].
    + split; [split; [naive_solver|naive_solver]|naive_solver].
  - rewrite Hec. destruct (appendDuplicate_keys ([] ++ [mc]) (seenSecretRefs seen) key (opath +:+ ".clientSecretRef") secrets Hr Hdr)
      as [(Hnr & -> & Hkr)|(Hnr & mr & ->)]; intros [= <- <-]; rewrite !app_nil_iff, Hauth, H1.
    + split; [split; [naive_solver|naive_solver]|naive_solver].
    + split; [split; [naive_solver|naive_solver]|naive_solver].
Qed.

Lemma validate_entries_keys spec ns index l seen fields clients secrets :
  seen_keys seen fields clients secrets → NoDup fields → NoDup clients → NoDup secrets →
  validate_entries spec ns index l seen = [] ↔
  Forall (auth_ok spec) l ∧ NoDup (fields ++ (l ≫= field_keys)) ∧ NoDup (clients ++ omap client_of l) ∧
    NoDup (secrets ++ omap (secret_of ns) l).
Proof.
  revert index seen fields clients secrets. induction l as [|i l IH]; intros index seen fields clients secrets Hs Hf Hc Hr.
  { cbn. rewrite !app_nil_r. split; [done|done]. }
  cbn [validate_entries]. destruct (validate_entry spec ns index i seen) as [messages seen'] eqn:He.
  destruct (validate_entry_keys _ _ _ _ _ _ _ _ _ _ Hs Hf Hc Hr He) as [Hm Hk].
  assert ((i :: l) ≫= field_keys = field_keys i ++ (l ≫= field_keys)) as -> by done.
  assert (omap client_of (i :: l) = option_list (client_of i) ++ omap client_of l) as ->
    by (cbn; by destruct (client_of i)).
  assert (omap (secret_of ns) (i :: l) = option_list (secret_of ns i) ++ omap (secret_of ns) l) as ->
    by (cbn; by destruct (secret_of ns i)).
  rewrite app_nil_iff, Forall_cons, !app_assoc. split.
  - intros [-> Hl]. pose proof (proj1 Hm eq_refl) as (Ha & Hf' & Hc' & Hr').
    apply (IH _ _ _ _ _ (Hk eq_refl) Hf' Hc' Hr') in Hl as (? & ? & ? & ?). done.
  - intros ((Ha & Hl) & Hf' & Hc' & Hr').
    assert (messages = []) as ->.
    { apply Hm. split_and!; [done|by apply NoDup_app in Hf' as (? & _)|by apply NoDup_app in Hc' as (? & _)|by apply NoDup_app in Hr' as (? & _)]. }
    split; [done|]. pose proof (proj1 Hm eq_refl) as (_ & Hf2 & Hc2 & Hr2).
    by apply (IH _ _ _ _ _ (Hk eq_refl) Hf2 Hc2 Hr2).
Qed.

#[export] Instance append_inj s : Inj (=) (=) (String.append s).
Proof. intros x y. induction s as [|a s IH]; [done|]. cbn. intros [= ?]. by apply IH. Qed.

Lemma field_keys_perm l :
  l ≫= field_keys ≡ₚ
  (String.append "name:" <$> (ing_Name <$> l)) ++ (String.append "hostname:" <$> (ing_Hostname <$> l)) ++
  (String.append "routeLabels:" <$> ((λ i, canonicalLabelsKey (RouteLabels i)) <$> l)).
Proof.
  induction l as [|i l IH]; [done|]. assert ((i :: l) ≫= field_keys = field_keys i ++ (l ≫= field_keys)) as -> by done.
  rewrite IH, !fmap_cons. unfold field_keys. cbn [app]. solve_Permutation.
Qed.

Lemma field_keys_NoDup l :
  NoDup (l ≫= field_keys) ↔
  NoDup (ing_Name <$> l) ∧ NoDup (ing_Hostname <$> l) ∧ NoDup ((λ i, canonicalLabelsKey (RouteLabels i)) <$> l).
Proof.
  assert (∀ p (l' : list string), NoDup (String.append p <$> l') ↔ NoDup l') as Hp by (intros p l'; apply NoDup_fmap, _).
  rewrite field_keys_perm, NoDup_app, NoDup_app, !Hp. split; [naive_solver|]. intros (Hn & Hh & Hl). split; [done|].
  split; [|split; [done|split; [|done]]]; intros x (? & -> & _)%list_elem_of_fmap.
  - rewrite elem_of_app, !list_elem_of_fmap. by intros [(? & ? & _)|(? & ? & _)].
  - rewrite list_elem_of_fmap. by intros (? & ? & _).
Qed.

Section admission.
Context `{Validators, !ValidatorsLaws}.

(** The client IDs and secrets of all gateways, the default one first. *)
Definition all_clients (spec : GatewayConfigSpec) : list string :=
  option_list (oidc_ClientID <$> OIDC spec) ++ omap client_of (AdditionalIngresses spec).

Definition all_secrets (ns : string) (spec : GatewayConfigSpec) : list string :=
  option_list ((λ o, oidcSecretReferenceKey (sel_Name (oidc_ClientSecretRef o)) (oidc_SecretNamespace o) ns)
                 <$> OIDC spec) ++
  omap (secret_of ns) (AdditionalIngresses spec).

Definition distinct_ingresses (ns : string) (spec : GatewayConfigSpec) : Prop :=
  NoDup (ing_Name <$> AdditionalIngresses spec) ∧ NoDup (ing_Hostname <$> AdditionalIngresses spec) ∧
  NoDup ((λ i, canonicalLabelsKey (RouteLabels i)) <$> AdditionalIngresses spec) ∧
  Forall (auth_ok spec) (AdditionalIngresses spec) ∧ NoDup (all_clients spec) ∧ NoDup (all_secrets ns spec).

Lemma AdditionalIngressValidationErrors_iff gc ns :
  AdditionalIngressValidationErrors gc ns = [] ↔
  AdditionalIngresses (gc_Spec gc) = [] ∨
  ingresses_ok (AdditionalIngresses (gc_Spec gc)) (IngressMode (gc_Spec gc)) ∧ distinct_ingresses ns (gc_Spec gc).
Proof.
  unfold AdditionalIngressValidationErrors, distinct_ingresses, all_clients, all_secrets.
  set (spec := gc_Spec gc). case_bool_decide as Hl; [naive_solver|]. rewrite app_nil_iff.
  assert (match ValidateAdditionalIngresses spec with Some err => [err_text err] | None => [] end = [] ↔
          ingresses_ok (AdditionalIngresses spec) (IngressMode spec)) as ->.
  { rewrite <-Validate_iff. unfold ValidateAdditionalIngresses. by destruct (Validate _ _). }
  rewrite (validate_entries_keys spec ns 0 _ (seen_default spec ns) []
    (option_list (oidc_ClientID <$> OIDC spec))
    (option_list ((λ o, oidcSecretReferenceKey (sel_Name (oidc_ClientSecretRef o)) (oidc_SecretNamespace o) ns) <$> OIDC spec))).
  - rewrite app_nil_l, field_keys_NoDup. naive_solver.
  - unfold seen_default. destruct (OIDC spec) as [o|]; cbn; split; cbn [seenFields seenClientIDs seenSecretRefs];
      apply has_keys_empty || apply has_keys_singleton.
  - constructor.
  - destruct (OIDC spec); cbn; [apply NoDup_singleton|constructor].
  - destruct (OIDC spec); cbn; [apply NoDup_singleton|constructor].
Qed.

(** A GatewayConfig is admitted exactly when it asks for nothing that needs OpenShift on
    plain Kubernetes and its additional ingresses are acceptable, differ in names, host names
    and route labels, have an identity of their own exactly when the default gateway has one,
    and no two gateways - the default one included - share a client ID or the secret behind it,
    wherever its namespace was left out. *)
Theorem admission_iff kubernetes gc :
  admission_messages kubernetes gc = [] ↔
  (kubernetes = true → KubernetesValidationErrors gc = []) ∧
  (AdditionalIngresses (gc_Spec gc) = [] ∨
   ingresses_ok (AdditionalIngresses (gc_Spec gc)) (IngressMode (gc_Spec gc)) ∧
   distinct_ingresses (GetGatewayNamespace kubernetes) (gc_Spec gc)).
Proof.
  unfold admission_messages. rewrite app_nil_iff, AdditionalIngressValidationErrors_iff.
  destruct kubernetes; naive_solver.
Qed.

End admission.

(** ** Witness *)

(** Validators that accept everything. *)
Definition lenient : Validators := {|
  IsDNS1123Subdomain := λ _, [];
  IsDNS1035Label := λ _, [];
  IsQualifiedName := λ _, [];
  IsValidLabelValue := λ _, [];
  range_labels := map_to_list;
|}.

Lemma lenient_laws : ValidatorsLaws (H := lenient).
Proof. by split. Qed.

Definition plain_ingress (name : string) : AdditionalIngress :=
  MkIngress name (name +:+ ".example.com") "internal" {["tier" := name]} (MkIngressAuth None None).

Definition plain_gateway (mode : string) (ingresses : list AdditionalIngress) : GatewayConfig :=
  MkGatewayConfig GatewayConfigName "uid" 1 ∅
    (MkGatewaySpec mode None None None "" "" None "" ingresses (MkCookie 0 0) "" 0 None None None None) "" [].

(** Two ingresses of their own are accepted on OpenShift; twice the same one is not. *)
Lemma admission_iff_witness :
  admission_messages (H := lenient) false (plain_gateway IngressModeOcpRoute [plain_ingress "blue"; plain_ingress "green"]) = [] ∧
  admission_messages (H := lenient) false (plain_gateway IngressModeOcpRoute [plain_ingress "blue"; plain_ingress "blue"]) ≠ [].
Proof.
  pose proof lenient_laws as Hlaws. split.
  - reflexivity.
  - intros Hnil. apply (admission_iff (H := lenient)) in Hnil as [_ [Hnil|(_ & Hnames & _)]]; [discriminate Hnil|].
    apply (bool_decide_pack _) in Hnames. by vm_compute in Hnames.
Defined.
