(* ===== verification/GatewayStatus.v ===== *)
(** * Gateway service: status of the additional ingresses

    [internal/controller/services/gateway/gateway_ingress_status.go] and
    [gateway_auth_readiness.go]: the conditions of each additional ingress - its Gateway, its
    bridge Route, its authentication - and what follows for its readiness and that of the
    GatewayConfig.

    Setting and finding a condition is the framework's and the class [StatusConditions]. The
    state that the actions share is the GatewayConfig and the results of authentication
    ([rr.Extensions]), a map by gateway name over which Go ranges in any order. *)

From S2P Require Import Prelude Effects Conditions Unstructured SharedPlatform PlatformConfig Admission Secrets Gateway.

(** ** Conditions *)

Class StatusConditions := {
  SetStatusCondition : list Condition → Condition → list Condition;
  FindStatusCondition : list Condition → string → option Condition;
}.

Definition AdditionalGatewaysReadyConditionType : string := "AdditionalGatewaysReady".
Definition AdditionalIngressGatewayReadyConditionType : string := "GatewayReady".
Definition AdditionalIngressRouteAdmittedConditionType : string := "RouteAdmitted".
Definition AdditionalIngressAuthenticationReadyConditionType : string := "AuthenticationReady".
Definition AdditionalIngressReadyConditionType : string := "Ready".
Definition AdditionalIngressReconciliationPendingReason : string := "ReconciliationPending".

Definition additionalIngressReasonOwnershipConflict : string := "OwnershipConflict".
Definition additionalIngressReasonHostnameConflict : string := "HostnameConflict".
Definition additionalIngressReasonStatusReadFailed : string := "StatusReadFailed".
Definition additionalIngressReasonNotReady : string := "NotReady".
Definition additionalIngressReasonReady : string := "Ready".
Definition additionalIngressReasonMultipleControllers : string := "MultipleIngressControllers".
Definition additionalIngressReasonPlacementMismatch : string := "PlacementMismatch".
Definition additionalIngressReasonNoAdditionalGateways : string := "NoAdditionalGateways".
Definition additionalIngressReasonDependencyUnavailable : string := "DependencyUnavailable".
Definition additionalIngressReasonAuthenticationDisabled : string := "AuthenticationDisabled".
Definition additionalIngressReasonAuthenticationBlocked : string := "AuthenticationBlocked".
Definition additionalIngressReasonAuthenticationUnavailable : string := "AuthenticationUnavailable".
Definition additionalIngressReasonInvalidAuthenticationConfig : string := "InvalidAuthenticationConfig".

Definition additionalIngressConditionTypes : list string :=
  [AdditionalIngressGatewayReadyConditionType; AdditionalIngressRouteAdmittedConditionType;
   AdditionalIngressAuthenticationReadyConditionType; AdditionalIngressReadyConditionType].

Definition with_conditions (s : AdditionalIngressStatus) (l : list Condition) : AdditionalIngressStatus :=
  MkIngressStatus (st_Name s) (st_Hostname s) (GatewayRef s) l.

Definition with_statuses (gc : GatewayConfig) (l : list AdditionalIngressStatus) : GatewayConfig :=
  MkGatewayConfig (gc_Name gc) (gc_UID gc) (gc_Generation gc) (gc_Annotations gc) (gc_Spec gc) (gc_Domain gc) l.

Definition firstNonEmpty (values : list string) : string := default "" (List.find nonempty_str values).

Definition conditionDetails (reason msg : string) : string :=
  if String.eqb reason "" then msg else if String.eqb msg "" then reason else reason +:+ ": " +:+ msg.

(** A pointer into the statuses is the name: the first status of the name is read and written. *)
Definition additionalIngressStatusByName (gc : GatewayConfig) (name : string) : option AdditionalIngressStatus :=
  List.find (λ s, String.eqb (st_Name s) name) (gc_Statuses gc).

Fixpoint update_first (name : string) (f : AdditionalIngressStatus → AdditionalIngressStatus)
    (l : list AdditionalIngressStatus) : list AdditionalIngressStatus :=
  match l with
  | [] => []
  | s :: l => if String.eqb (st_Name s) name then f s :: l else s :: update_first name f l
  end.

Definition update_status (gc : GatewayConfig) (name : string)
    (f : AdditionalIngressStatus → AdditionalIngressStatus) : GatewayConfig :=
  with_statuses gc (update_first name f (gc_Statuses gc)).

(** ** Initial statuses *)

(** [byType]: the last condition of a type counts. *)
Definition last_of_type (l : list Condition) (ty : string) : option Condition :=
  List.find (λ c, String.eqb (c_type c) ty) (rev l).

Section initial.
Variable now : Z.

Definition current_condition (l : list Condition) (generation : Z) (ty : string) : Condition :=
  let pending t := MkCondition ty ConditionUnknown AdditionalIngressReconciliationPendingReason
                     "Ingress readiness has not been observed yet" SeverityUnset generation t in
  match last_of_type l ty with
  | Some c =>
      if (c_observedGeneration c =? generation)%Z then c
      else if String.eqb (c_status c) ConditionUnknown && negb (c_lastTransitionTime c =? 0)%Z
      then pending (c_lastTransitionTime c) else pending now
  | None => pending now
  end.

Definition currentAdditionalIngressConditions (l : list Condition) (generation : Z) : list Condition :=
  current_condition l generation <$> additionalIngressConditionTypes.

(** The zero status stands for a name without previous status. *)
Definition previous_status (previous : list AdditionalIngressStatus) (name : string) : AdditionalIngressStatus :=
  default (MkIngressStatus "" "" (MkGatewayRef "" "") [])
    (List.find (λ s, String.eqb (st_Name s) name) (rev previous)).

Definition build_status (kubernetes : bool) (generation : Z) (previousStatus : AdditionalIngressStatus)
    (spec : AdditionalIngress) : AdditionalIngressStatus :=
  let ref := MkGatewayRef (ing_Name spec) (GetGatewayNamespace kubernetes) in
  let l := if bool_decide (GatewayRef previousStatus = ref) then st_Conditions previousStatus else [] in
  MkIngressStatus (ing_Name spec) (ing_Hostname spec) ref (currentAdditionalIngressConditions l generation).

Definition buildAdditionalIngressStatuses (kubernetes : bool) (specs : list AdditionalIngress)
    (previous : list AdditionalIngressStatus) (generation : Z) : list AdditionalIngressStatus :=
  (λ spec : AdditionalIngress, build_status kubernetes generation (previous_status previous (ing_Name spec)) spec)
  <$> specs.

End initial.

(** ** Route admission *)

Section route.

(** What the loop over the Route's status keeps. *)
Record RouteScan := MkScan {
  targetAdmission : option RouteIngressCondition;
  admittedRouters : gset string;
}.

Definition scan_condition (routerName controller : string) (acc : RouteScan) (c : RouteIngressCondition) : RouteScan :=
  if negb (String.eqb (rc_Type c) "Admitted") then acc
  else
    let is_true := String.eqb (rc_Status c) ConditionTrue in
    let routers := if is_true && nonempty_str routerName then {[routerName]} ∪ admittedRouters acc
                   else admittedRouters acc in
    if negb (String.eqb routerName controller) then MkScan (targetAdmission acc) routers
    else MkScan (match targetAdmission acc with
                 | None => Some c
                 | Some target => Some (if is_true then c else target)
                 end) routers.

Definition scan_ingress (hostname controller : string) (acc : RouteScan) (i : RouteIngress) : RouteScan :=
  if negb (String.eqb (ri_Host i) hostname) then acc
  else foldl (scan_condition (ri_RouterName i) controller) acc (ri_Conditions i).

Definition scan_route (route : Route) (ingress : AdditionalIngress) : RouteScan :=
  foldl (scan_ingress (ing_Hostname ingress) (IngressControllerName ingress)) (MkScan None ∅) (rt_Ingress route).

Definition with_details (msg : string) (c : RouteIngressCondition) : string :=
  let details := conditionDetails (rc_Reason c) (rc_Message c) in
  if nonempty_str details then msg +:+ ": " +:+ details else msg.

Definition additionalIngressRouteCondition (route : Route) (ingress : AdditionalIngress) (generation : Z)
    : Condition :=
  let scan := scan_route route ingress in
  let controller := quote (IngressControllerName ingress) in
  let not_admitted := "IngressController " +:+ controller +:+ " has not admitted the bridge Route" in
  let '(status, reason, msg) :=
    match targetAdmission scan with
    | None => (ConditionFalse, additionalIngressReasonNotReady, not_admitted)
    | Some target =>
        if String.eqb (rc_Status target) ConditionTrue then
          (ConditionTrue, additionalIngressReasonReady, "IngressController " +:+ controller +:+ " admitted the bridge Route")
        else if String.eqb (rc_Status target) ConditionFalse then
          (ConditionFalse, additionalIngressReasonNotReady, with_details not_admitted target)
        else
          (ConditionUnknown, AdditionalIngressReconciliationPendingReason,
           with_details ("Waiting for IngressController " +:+ controller +:+ " to report Route admission") target)
    end in
  if (1 <? size (admittedRouters scan))%nat then
    let msg := msg +:+ "; bridge Route is admitted by multiple IngressControllers: " +:+
               join ", " (sort_strings (elements (admittedRouters scan))) in
    if String.eqb status ConditionTrue
    then MkCondition AdditionalIngressRouteAdmittedConditionType status
           additionalIngressReasonMultipleControllers msg SeverityInfo generation 0
    else MkCondition AdditionalIngressRouteAdmittedConditionType status reason msg SeverityError generation 0
  else MkCondition AdditionalIngressRouteAdmittedConditionType status reason msg SeverityError generation 0.

Definition routeHasLabels (actual required : gmap string string) : bool :=
  bool_decide (map_Forall (λ k v, actual !! k = Some v) required).

Definition gatewayRouteLabels (additional : gmap string string) : gmap string string :=
  <[K8SPartOf := "gatewayconfig"]> additional.

End route.

(** ** Authentication targets and results ([gateway_auth_targets.go]) *)

Definition KubeAuthProxyName : string := "kube-auth-proxy".
Definition KubeAuthProxySecretsName : string := "kube-auth-proxy-creds".
Definition KubeAuthProxyTLSName : string := "kube-auth-proxy-tls".
Definition AuthClientID : string := "data-science".
Definition OAuthCallbackRouteName : string := "oauth-callback-route".
Definition AuthnFilterName : string := "data-science-authn-filter".
Definition DestinationRuleName : string := "data-science-tls-rule".
Definition AuthProxyCookieName : string := "_oauth2_proxy".

Record authProxyTarget := MkTarget {
  IngressName : string;
  tg_GatewayName : string;
  Hostname : string;
  ProxyName : string;
  tg_SecretName : string;
  TLSName : string;
  tg_ClientID : string;
  CallbackName : string;
  FilterName : string;
  tg_DestinationRuleName : string;
  CookieName : string;
  tg_MaxReplicas : Z;
  tg_OIDC : option OIDCConfig;
}.

Record authProxyResult := MkAuthResult {
  Target : authProxyTarget;
  ar_Condition : Condition;
}.

Definition isDefault (t : authProxyTarget) : bool := String.eqb (IngressName t) "".

Definition failedPreparation (r : authProxyResult) : bool :=
  String.eqb (c_status (ar_Condition r)) ConditionFalse &&
  String.eqb (c_reason (ar_Condition r)) additionalIngressReasonAuthenticationUnavailable.

Definition getGatewayAuthProxyMaxReplicas (gatewayConfig : GatewayConfig) : Z :=
  default 10%Z (AuthProxyMaxReplicas (gc_Spec gatewayConfig)).

Definition defaultAuthProxyTarget (kubernetes : bool) (hostname : string) (config : GatewayConfig) : authProxyTarget :=
  MkTarget "" (GetDefaultGatewayName kubernetes) hostname KubeAuthProxyName KubeAuthProxySecretsName
    KubeAuthProxyTLSName AuthClientID OAuthCallbackRouteName AuthnFilterName DestinationRuleName
    AuthProxyCookieName (getGatewayAuthProxyMaxReplicas config) (OIDC (gc_Spec config)).

Fixpoint underscores (s : string) : string :=
  match s with
  | EmptyString => EmptyString
  | String a s => String (if Ascii.eqb a (Ascii.ascii_of_nat 45) then Ascii.ascii_of_nat 95 else a) (underscores s)
  end.

Definition additionalAuthProxyTarget (ingress : AdditionalIngress) (config : GatewayConfig) : authProxyTarget :=
  let name := ing_Name ingress in
  let suffixed s := s +:+ "-" +:+ name in
  MkTarget name name (ing_Hostname ingress) (suffixed KubeAuthProxyName) (name +:+ "-auth-creds")
    (name +:+ "-auth-tls") (suffixed AuthClientID) (suffixed OAuthCallbackRouteName)
    (additionalGatewayEnvoyFilterName name) (name +:+ "-auth-destination")
    (AuthProxyCookieName +:+ "_" +:+ underscores name)
    (default 10%Z (MaxReplicas (Auth ingress)))
    (match Auth_OIDC (Auth ingress), OIDC (gc_Spec config) with
     | Some own, Some shared =>
         Some (MkOIDC (IssuerURL shared) (ClientID own) (ClientSecretRef own) (SecretNamespace own) (Scope shared)
                 (PassAccessToken shared) (SkipClaimsFromProfileURL shared))
     | _, _ => None
     end).

(** What the actions of one reconciliation share: the GatewayConfig, [gatewayAuthState], the
    template data once it was computed, and what was collected for deployment. *)
Record GwState := MkGwState {
  gs_Config : GatewayConfig;
  gs_Auth : gmap string authProxyResult;
  gs_TemplateData : option template_data;
  gs_Resources : list GwResource;
  gs_Templates : list string;
}.

Definition with_config (s : GwState) (gc : GatewayConfig) : GwState :=
  MkGwState gc (gs_Auth s) (gs_TemplateData s) (gs_Resources s) (gs_Templates s).

Definition with_auth (s : GwState) (auth : gmap string authProxyResult) : GwState :=
  MkGwState (gs_Config s) auth (gs_TemplateData s) (gs_Resources s) (gs_Templates s).

Definition with_template_data (s : GwState) (data : template_data) : GwState :=
  MkGwState (gs_Config s) (gs_Auth s) (Some data) (gs_Resources s) (gs_Templates s).

Definition with_resources (s : GwState) (l : list GwResource) : GwState :=
  MkGwState (gs_Config s) (gs_Auth s) (gs_TemplateData s) (gs_Resources s ++ l) (gs_Templates s).

Definition with_templates (s : GwState) (l : list string) : GwState :=
  MkGwState (gs_Config s) (gs_Auth s) (gs_TemplateData s) (gs_Resources s) (gs_Templates s ++ l).

Definition recordAuthResult (s : GwState) (target : authProxyTarget) (state reason msg : string) : GwState :=
  with_auth s
    (<[tg_GatewayName target :=
         MkAuthResult target
           (MkCondition AdditionalIngressAuthenticationReadyConditionType state reason msg SeverityUnset
              (gc_Generation (gs_Config s)) 0)]> (gs_Auth s)).

(** The zero result stands for a name without one. *)
Definition auth_result (s : GwState) (name : string) : authProxyResult :=
  default (MkAuthResult (MkTarget "" "" "" "" "" "" "" "" "" "" "" 0 None) (condition "" "" "" ""))
    (gs_Auth s !! name).

(** ** Readiness of an ingress *)

Section readiness.
Context `{StatusConditions} (kubernetes : bool).

Definition set_condition (generation : Z) (type status reason msg : string) (s : AdditionalIngressStatus)
    : AdditionalIngressStatus :=
  with_conditions s (SetStatusCondition (st_Conditions s)
                       (MkCondition type status reason msg SeverityUnset generation 0)).

(** The status of a name in the GatewayConfig, at its generation. *)
Definition setAdditionalIngressCondition (name type status reason msg : string) (gc : GatewayConfig) : GatewayConfig :=
  update_status gc name (set_condition (gc_Generation gc) type status reason msg).

Definition additionalIngressHasGatewayConflict (gc : GatewayConfig) (name : string) : bool :=
  match additionalIngressStatusByName gc name with
  | None => false
  | Some status =>
      match FindStatusCondition (st_Conditions status) AdditionalIngressGatewayReadyConditionType with
      | None => false
      | Some c =>
          (c_observedGeneration c =? gc_Generation gc)%Z && String.eqb (c_status c) ConditionFalse &&
          (String.eqb (c_reason c) additionalIngressReasonOwnershipConflict ||
           String.eqb (c_reason c) additionalIngressReasonHostnameConflict)
      end
  end.

(** [failed] and [pending] of the loop. *)
Definition ready_step (l : list Condition) (generation : Z) (acc : option Condition * option Condition)
    (conditionType : string) : option Condition * option Condition :=
  let '(failed, pending) := acc in
  let first c old := match old with Some _ => old | None => Some c end in
  let unobserved :=
    (failed, first (condition conditionType ConditionUnknown AdditionalIngressReconciliationPendingReason
                      "Condition has not observed the current GatewayConfig generation") pending) in
  match FindStatusCondition l conditionType with
  | None => unobserved
  | Some c =>
      if negb (c_observedGeneration c =? generation)%Z then unobserved
      else
        (if String.eqb (c_status c) ConditionFalse then first c failed else failed,
         if negb (String.eqb (c_status c) ConditionTrue) then first c pending else pending)
  end.

Definition readiness_condition_types : list string :=
  [AdditionalIngressGatewayReadyConditionType; AdditionalIngressRouteAdmittedConditionType;
   AdditionalIngressAuthenticationReadyConditionType].

Definition updateAdditionalIngressReadyCondition (generation : Z) (status : AdditionalIngressStatus)
    : AdditionalIngressStatus :=
  match foldl (ready_step (st_Conditions status) generation) (None, None) readiness_condition_types with
  | (Some failed, _) =>
      let msg := if String.eqb (c_message failed) "" then c_reason failed else c_message failed in
      set_condition generation AdditionalIngressReadyConditionType ConditionFalse
        (firstNonEmpty [c_reason failed; additionalIngressReasonNotReady]) (c_type failed +:+ ": " +:+ msg) status
  | (None, Some pending) =>
      set_condition generation AdditionalIngressReadyConditionType ConditionUnknown
        (firstNonEmpty [c_reason pending; AdditionalIngressReconciliationPendingReason])
        (c_type pending +:+ ": " +:+ c_message pending) status
  | (None, None) =>
      set_condition generation AdditionalIngressReadyConditionType ConditionTrue
        additionalIngressReasonReady "Gateway, Route, and authentication are ready" status
  end.

(** The results by ingress name; [results] is the order in which Go ranges over them. *)
Definition publish_result (gc : GatewayConfig) (r : authProxyResult) : GatewayConfig :=
  update_status gc (IngressName (Target r))
    (λ s, with_conditions s (SetStatusCondition (st_Conditions s) (ar_Condition r))).

Definition publishAdditionalIngressAuthConditions (results : list authProxyResult) (gc : GatewayConfig)
    : GatewayConfig :=
  foldl publish_result gc results.

(** ** Readiness of all ingresses *)

Definition update_ready (gc : GatewayConfig) (name : string) : GatewayConfig :=
  update_status gc name (updateAdditionalIngressReadyCondition (gc_Generation gc)).

(** The loop: the GatewayConfig, and the names that failed and are pending. *)
Definition aggregate_step (acc : GatewayConfig * list string * list string) (ingress : AdditionalIngress)
    : GatewayConfig * list string * list string :=
  let '(gc, failed, pending) := acc in
  let name := ing_Name ingress in
  let gc := update_ready gc name in
  match additionalIngressStatusByName gc name ≫=
        λ s, FindStatusCondition (st_Conditions s) AdditionalIngressReadyConditionType with
  | None => (gc, failed, pending ++ [name])
  | Some c =>
      if negb (c_observedGeneration c =? gc_Generation gc)%Z then (gc, failed, pending ++ [name])
      else if String.eqb (c_status c) ConditionFalse then (gc, failed ++ [name], pending)
      else if negb (String.eqb (c_status c) ConditionTrue) then (gc, failed, pending ++ [name])
      else (gc, failed, pending)
  end.

Definition aggregate_mark (gc : GatewayConfig) (failed pending : list string) : mark :=
  let '(status, reason, msg) :=
    match failed, pending, AdditionalIngresses (gc_Spec gc) with
    | _ :: _, _, _ =>
        (ConditionFalse, additionalIngressReasonNotReady, "Additional Gateways are not ready: " +:+ join ", " failed)
    | [], _ :: _, _ =>
        (ConditionUnknown, AdditionalIngressReconciliationPendingReason,
         "Additional Gateway readiness is pending: " +:+ join ", " pending)
    | [], [], [] =>
        (ConditionTrue, additionalIngressReasonNoAdditionalGateways, "No additional Gateways are configured")
    | [], [], _ => (ConditionTrue, additionalIngressReasonReady, "All additional Gateways are ready")
    end in
  MkMark AdditionalGatewaysReadyConditionType status (Some reason) (Some msg) (Some SeverityError)
    (Some (gc_Generation gc)).

(** The orders in which Go ranges over the results: an enumeration per range, taken from
    the reconciliation's choices. *)
Variable range_results : gmap string authProxyResult → list authProxyResult.

Definition aggregate (s : GwState) : GatewayConfig * list string * list string :=
  foldl aggregate_step (publishAdditionalIngressAuthConditions (range_results (gs_Auth s)) (gs_Config s), [], [])
    (AdditionalIngresses (gc_Spec (gs_Config s))).

Definition updateAdditionalGatewaysReadyCondition (s : GwState) : prog GwE GwState :=
  let '(gc, failed, pending) := aggregate s in
  _ ← trigger (MarkCondition (aggregate_mark gc failed pending));
  mret (with_config s gc).

Definition syncAdditionalIngressStatus (now : Z) (s : GwState) : prog GwE GwState :=
  let gc := gs_Config s in
  updateAdditionalGatewaysReadyCondition
    (with_config s (with_statuses gc
       (buildAdditionalIngressStatuses now kubernetes (AdditionalIngresses (gc_Spec gc)) (gc_Statuses gc)
          (gc_Generation gc)))).

(** The hook after the actions, also after errors. *)
Definition syncAdditionalIngressReadyStatuses (s : GwState) : GwState :=
  let gc := publishAdditionalIngressAuthConditions (range_results (gs_Auth s)) (gs_Config s) in
  with_config s (with_statuses gc (updateAdditionalIngressReadyCondition (gc_Generation gc) <$> gc_Statuses gc)).

(** ** Live readiness *)

Definition isGatewayReady (gateway : GatewayObject) : bool :=
  existsb (λ c : string * string, String.eqb c.1 "Accepted" && String.eqb c.2 ConditionTrue) (gw_Conditions gateway).

Definition StandardHTTPSPort : Z := 443.

Definition route_matches (route : Route) (ingress : AdditionalIngress) : bool :=
  String.eqb (rt_Host route) (ing_Hostname ingress) &&
  String.eqb (rt_To route) (GetGatewayServiceFullName (ing_Name ingress)) &&
  match rt_Port route with Some (inl port) => (port =? StandardHTTPSPort)%Z | _ => false end.

(** The condition of an observed Route. *)
Definition route_condition (gc : GatewayConfig) (ingress : AdditionalIngress) (route : Route) : Condition :=
  let failed reason msg :=
    MkCondition AdditionalIngressRouteAdmittedConditionType ConditionFalse reason msg SeverityUnset
      (gc_Generation gc) 0 in
  if negb (isOwnedByGatewayConfig (rt_Controller route) gc) then
    failed additionalIngressReasonOwnershipConflict
      ("Route " +:+ quote (rt_Name route) +:+ " is not controlled by this GatewayConfig")
  else if negb (route_matches route ingress) then
    failed additionalIngressReasonNotReady
      ("Route " +:+ quote (rt_Name route) +:+ " does not match the configured hostname, Service, or HTTPS port")
  else
    let c := additionalIngressRouteCondition route ingress (gc_Generation gc) in
    if String.eqb (c_status c) ConditionTrue &&
       negb (routeHasLabels (rt_Labels route) (gatewayRouteLabels (RouteLabels ingress)))
    then MkCondition (c_type c) (c_status c) additionalIngressReasonPlacementMismatch
           (c_message c +:+ "; bridge Route labels differ from configured placement labels") SeverityInfo
           (c_observedGeneration c) (c_lastTransitionTime c)
    else c.

Definition syncAdditionalIngressRouteReadiness (gc : GatewayConfig) (ingress : AdditionalIngress)
    : prog GwE (option goerr * GatewayConfig) :=
  let name := ing_Name ingress in
  let unknown reason msg :=
    setAdditionalIngressCondition name AdditionalIngressRouteAdmittedConditionType ConditionUnknown reason msg gc in
  found ← trigger (GetRoute name);
  mret (match found with
        | Err err =>
            if err_is TagNotFound err || err_is TagNoMatch err then
              (None, unknown AdditionalIngressReconciliationPendingReason "The bridge Route has not been observed yet")
            else
              (Some (wrapf ("failed to get additional ingress Route " +:+ quote name) err),
               unknown additionalIngressReasonStatusReadFailed "The bridge Route status could not be read")
        | Ok route =>
            (None, update_status gc name
                     (λ s, with_conditions s (SetStatusCondition (st_Conditions s) (route_condition gc ingress route))))
        end).

Definition gatewayKey (name : string) : string := GetGatewayNamespace kubernetes +:+ "/" +:+ name.

(** The message says why the proxy is not available; the empty one that it is. *)
Definition checkKubeAuthProxyDeployment (name : string) : prog GwE (result string) :=
  found ← trigger (GetDeployment name);
  mret (match found with
        | Err err =>
            if err_is TagNotFound err then Ok ("waiting for kube-auth-proxy Deployment " +:+ gatewayKey name)
            else Err (wrapf ("failed to get kube-auth-proxy Deployment " +:+ gatewayKey name) err)
        | Ok deployment =>
            let replicas := default 1%Z (dp_Replicas deployment) in
            if (dp_ObservedGeneration deployment <? dp_Generation deployment)%Z ||
               (dp_AvailableReplicas deployment <? replicas)%Z
            then Ok ("waiting for kube-auth-proxy Deployment " +:+ gatewayKey name +:+ " to become available")
            else Ok ""
        end).

(** Whether to look again. *)
Definition syncAdditionalIngressAuthReadiness (s : GwState) (ingress : AdditionalIngress) : prog GwE (bool * GwState) :=
  let r := auth_result s (ing_Name ingress) in
  let reason := c_reason (ar_Condition r) in
  if String.eqb reason additionalIngressReasonAuthenticationDisabled ||
     String.eqb reason additionalIngressReasonAuthenticationBlocked ||
     String.eqb reason additionalIngressReasonInvalidAuthenticationConfig then mret (false, s)
  else if failedPreparation r then mret (true, s)
  else
    let target := additionalAuthProxyTarget ingress (gs_Config s) in
    checked ← checkKubeAuthProxyDeployment (ProxyName target);
    let '(state, reason, msg) :=
      match checked with
      | Err _ => (ConditionUnknown, additionalIngressReasonStatusReadFailed, "Authentication readiness could not be read")
      | Ok pending =>
          if nonempty_str pending then (ConditionFalse, NotReadyReason, pending)
          else (ConditionTrue, "Ready", "Authentication resources are ready for " +:+ ing_Name ingress)
      end in
    mret (negb (String.eqb state ConditionTrue), recordAuthResult s target state reason msg).

(** What the Gateway of an ingress says, and whether to look again. *)
Definition gateway_verdict (name : string) (found : result GatewayObject) : string * string * string * bool :=
  match found with
  | Err err =>
      if err_is TagNotFound err then
        (ConditionUnknown, AdditionalIngressReconciliationPendingReason,
         "Gateway " +:+ quote name +:+ " has not been observed yet", false)
      else
        (ConditionUnknown, additionalIngressReasonStatusReadFailed,
         "The additional Gateway status could not be read", true)
  | Ok gateway =>
      if isGatewayReady gateway
      then (ConditionTrue, additionalIngressReasonReady, "Gateway " +:+ quote name +:+ " is accepted", false)
      else (ConditionFalse, additionalIngressReasonNotReady, "Gateway " +:+ quote name +:+ " is not accepted", false)
  end.

Definition sync_ingress (acc : bool * GwState) (ingress : AdditionalIngress) : prog GwE (bool * GwState) :=
  let '(retry, s) := acc in
  let name := ing_Name ingress in
  match additionalIngressStatusByName (gs_Config s) name with
  | None => mret (retry, s)
  | Some _ =>
      if additionalIngressHasGatewayConflict (gs_Config s) name then mret (retry, s)
      else
        gateway ← trigger (GetGateway name);
        let '(status, reason, msg, failed) := gateway_verdict name gateway in
        let gc := setAdditionalIngressCondition name AdditionalIngressGatewayReadyConditionType status reason msg
                    (gs_Config s) in
        route ← syncAdditionalIngressRouteReadiness gc ingress;
        let '(err, gc) := route in
        auth ← syncAdditionalIngressAuthReadiness (with_config s gc) ingress;
        let '(again, s) := auth in
        mret (retry || failed || bool_decide (is_Some err) || again, s)
  end.

Definition syncAdditionalIngressReadiness (s : GwState) : prog GwE (option action_error * GwState) :=
  match AdditionalIngresses (gc_Spec (gs_Config s)) with
  | [] => s ← updateAdditionalGatewaysReadyCondition s; mret (None, s)
  | ingresses =>
      synced ← prog_foldl sync_ingress (false, s) ingresses;
      let '(retry, s) := synced in
      s ← updateAdditionalGatewaysReadyCondition s;
      mret (if (retry : bool) then Some (RequeueAfterError (30 * second)) else None, s)
  end.

(** ** Recorded Route conditions *)

Definition recordAdditionalIngressRouteCondition (gc : GatewayConfig) (name status reason msg : string) : GatewayConfig :=
  setAdditionalIngressCondition name AdditionalIngressRouteAdmittedConditionType status reason msg gc.

Definition recordAllAdditionalIngressRouteConditions (gc : GatewayConfig) (ingresses : list AdditionalIngress)
    (reason msg : string) : GatewayConfig :=
  foldl (λ gc ingress, recordAdditionalIngressRouteCondition gc (ing_Name ingress) ConditionUnknown reason msg)
    gc ingresses.

End readiness.
