(* ===== verification/GatewayStatusTheorems.v ===== *)
(** * Gateway service: what the status of the additional ingresses says

    When a bridge Route counts as admitted, when an ingress and all ingresses are ready, and
    that the statuses follow the configuration. *)

From S2P Require Import Prelude Effects Conditions Unstructured SharedPlatform PlatformConfig Admission Secrets Gateway GatewayStatus.

(** ** The framework's conditions *)

(** What the code relies on: the condition just set is found with the status, reason and
    generation it was given; other types are left alone; a condition is found under its type. *)
Class StatusConditionsLaws `{StatusConditions} := {
  find_set_same l c : ∃ c', FindStatusCondition (SetStatusCondition l c) (c_type c) = Some c' ∧
    c_status c' = c_status c ∧ c_observedGeneration c' = c_observedGeneration c;
  find_set_other l c ty : ty ≠ c_type c →
    FindStatusCondition (SetStatusCondition l c) ty = FindStatusCondition l ty;
}.

Fixpoint set_first (l : list Condition) (c : Condition) : list Condition :=
  match l with
  | [] => [c]
  | c' :: l => if String.eqb (c_type c') (c_type c) then c :: l else c' :: set_first l c
  end.

Definition status_conditions_documented : StatusConditions := {|
  SetStatusCondition := set_first;
  FindStatusCondition l ty := List.find (λ c, String.eqb (c_type c) ty) l;
|}.

Lemma status_conditions_documented_laws : StatusConditionsLaws (H := status_conditions_documented).
Proof.
  split; cbn.
  - intros l c. exists c. split; [|done]. induction l as [|c' l IH]; simpl; [by rewrite String.eqb_refl|].
    destruct (String.eqb (c_type c') (c_type c)) eqn:Heq; simpl; [by rewrite String.eqb_refl|by rewrite Heq].
  - intros l c ty Hty. induction l as [|c' l IH]; simpl.
    + destruct (String.eqb_spec (c_type c) ty); congruence.
    + destruct (String.eqb_spec (c_type c') (c_type c)) as [Heq|Hne]; simpl.
      * destruct (String.eqb_spec (c_type c) ty), (String.eqb_spec (c_type c') ty); congruence.
      * by destruct (String.eqb (c_type c') ty).
Qed.

(** ** Route admission *)

(** The router [name] admitted the Route under the host. *)
Definition admitted_by (route : Route) (hostname name : string) : Prop :=
  ∃ i c, i ∈ rt_Ingress route ∧ ri_Host i = hostname ∧ ri_RouterName i = name ∧
    c ∈ ri_Conditions i ∧ rc_Type c = "Admitted" ∧ rc_Status c = ConditionTrue.

(** The conditions a scan has looked at: router and condition, for the host. *)
Definition host_conditions (hostname : string) (l : list RouteIngress) : list (string * RouteIngressCondition) :=
  l ≫= λ i, if String.eqb (ri_Host i) hostname then (λ c, (ri_RouterName i, c)) <$> ri_Conditions i else [].

Definition scan_pair (controller : string) (acc : RouteScan) (rc : string * RouteIngressCondition) : RouteScan :=
  scan_condition rc.1 controller acc rc.2.

Lemma scan_flat hostname controller l acc :
  foldl (scan_ingress hostname controller) acc l = foldl (scan_pair controller) acc (host_conditions hostname l).
Proof.
  revert acc. induction l as [|i l IH]; intros acc; [done|]. unfold host_conditions.
  rewrite bind_cons, foldl_app. cbn [foldl]. rewrite IH. unfold host_conditions. f_equal. unfold scan_ingress.
  destruct (String.eqb (ri_Host i) hostname); [|done]. cbn [negb].
  generalize (ri_Conditions i). intros cs. revert acc. induction cs as [|c cs IHc]; intros acc; [done|].
  cbn. by rewrite IHc.
Qed.

Lemma elem_of_host_conditions hostname l name c :
  (name, c) ∈ host_conditions hostname l ↔
  ∃ i, i ∈ l ∧ ri_Host i = hostname ∧ ri_RouterName i = name ∧ c ∈ ri_Conditions i.
Proof.
  unfold host_conditions. rewrite list_elem_of_bind. split.
  - intros (i & Hc & Hi). destruct (String.eqb_spec (ri_Host i) hostname); [|by apply not_elem_of_nil in Hc].
    apply list_elem_of_fmap in Hc as (c' & [= -> ->] & Hc'). eauto 10.
  - intros (i & Hi & <- & <- & Hc). exists i. rewrite String.eqb_refl. split; [|done].
    apply list_elem_of_fmap. eauto.
Qed.

Definition is_admission (c : RouteIngressCondition) : bool := String.eqb (rc_Type c) "Admitted".

(** What the scan found, given the conditions it looked at. *)
Definition scan_ok (controller : string) (seen : list (string * RouteIngressCondition)) (acc : RouteScan) : Prop :=
  (∀ r, r ∈ admittedRouters acc ↔
     r ≠ "" ∧ ∃ c, (r, c) ∈ seen ∧ is_admission c ∧ rc_Status c = ConditionTrue) ∧
  match targetAdmission acc with
  | None => ∀ c, (controller, c) ∈ seen → ¬ is_admission c
  | Some t => ((controller, t) ∈ seen ∧ is_admission t) ∧
      (rc_Status t = ConditionTrue ↔ ∃ c, (controller, c) ∈ seen ∧ is_admission c ∧ rc_Status c = ConditionTrue)
  end.

(** Entries of other routers, or that are no admissions, change nothing. *)
Lemma target_snoc (controller : string) (seen : list (string * RouteIngressCondition)) (t : option RouteIngressCondition)
    (r : string) (c : RouteIngressCondition) :
  (r = controller → ¬ is_admission c) →
  (match t with
   | None => ∀ c, (controller, c) ∈ seen → ¬ is_admission c
   | Some t => ((controller, t) ∈ seen ∧ is_admission t) ∧
       (rc_Status t = ConditionTrue ↔ ∃ c, (controller, c) ∈ seen ∧ is_admission c ∧ rc_Status c = ConditionTrue)
   end) →
  match t with
  | None => ∀ c', (controller, c') ∈ seen ++ [(r, c)] → ¬ is_admission c'
  | Some t => ((controller, t) ∈ seen ++ [(r, c)] ∧ is_admission t) ∧
      (rc_Status t = ConditionTrue ↔
       ∃ c', (controller, c') ∈ seen ++ [(r, c)] ∧ is_admission c' ∧ rc_Status c' = ConditionTrue)
  end.
Proof.
  intros Hother.
  assert (∀ c', is_admission c' → (controller, c') ∈ seen ++ [(r, c)] ↔ (controller, c') ∈ seen) as Hsnoc.
  { intros c' Hc'. rewrite elem_of_app, list_elem_of_singleton. split; [|by left].
    intros [Hin|[= <- <-]]; [done|]. by destruct (Hother eq_refl). }
  destruct t as [t|].
  - intros [[Hin Ht] ->]. split; [by rewrite Hsnoc|]. split; intros (c' & Hc' & Ha & Hs); exists c';
      (split; [by apply (Hsnoc c' Ha)|done]).
  - intros Hnone c' Hc' Ha. exact (Hnone c' (proj1 (Hsnoc c' Ha) Hc') Ha).
Qed.

Lemma scan_ok_step controller seen acc rc :
  scan_ok controller seen acc → scan_ok controller (seen ++ [rc]) (scan_pair controller acc rc).
Proof.
  destruct rc as [r c]. intros [Hrouters Htarget]. unfold scan_pair, scan_condition. cbn [fst snd].
  destruct (String.eqb (rc_Type c) "Admitted") eqn:Hadm; cbn [negb].
  - assert (is_admission c) as Hc by (unfold is_admission; by rewrite Hadm). split.
    + intros r'. transitivity (r' ∈ (if String.eqb (rc_Status c) ConditionTrue && nonempty_str r
                                     then {[r]} ∪ admittedRouters acc else admittedRouters acc)).
      { by destruct (String.eqb r controller). }
      setoid_rewrite elem_of_app. setoid_rewrite list_elem_of_singleton.
      unfold nonempty_str.
      destruct (String.eqb_spec (rc_Status c) ConditionTrue) as [Ht|Ht], (String.eqb_spec r "") as [->|Hr]; cbn;
        rewrite ?elem_of_union, ?elem_of_singleton, ?Hrouters; naive_solver.
    + destruct (String.eqb_spec r controller) as [->|Hr]; cbn [negb targetAdmission].
      * destruct (targetAdmission acc) as [t|].
        -- destruct Htarget as [[Hin Ht] Htrue].
           destruct (String.eqb_spec (rc_Status c) ConditionTrue) as [Hs|Hs];
             setoid_rewrite elem_of_app; setoid_rewrite list_elem_of_singleton; naive_solver.
        -- setoid_rewrite elem_of_app. setoid_rewrite list_elem_of_singleton. naive_solver.
      * by apply target_snoc.
  - assert (¬ is_admission c) as Hc by (unfold is_admission; rewrite Hadm; exact id). split.
    + intros r'. rewrite Hrouters. setoid_rewrite elem_of_app. setoid_rewrite list_elem_of_singleton. naive_solver.
    + by apply target_snoc.
Qed.

Lemma scan_ok_foldl controller l seen acc :
  scan_ok controller seen acc → scan_ok controller (seen ++ l) (foldl (scan_pair controller) acc l).
Proof.
  revert seen acc. induction l as [|rc l IH]; intros seen acc Hacc; [by rewrite app_nil_r|].
  cbn [foldl]. rewrite cons_middle, app_assoc. by apply IH, scan_ok_step.
Qed.

Lemma scan_route_ok route ingress :
  scan_ok (IngressControllerName ingress) (host_conditions (ing_Hostname ingress) (rt_Ingress route))
    (scan_route route ingress).
Proof.
  unfold scan_route. rewrite scan_flat. apply (scan_ok_foldl _ _ []). split; cbn.
  - intros r. split; [set_solver|]. intros (_ & c & Hc & _). by apply not_elem_of_nil in Hc.
  - intros c Hc. by apply not_elem_of_nil in Hc.
Qed.

Lemma admitted_by_conditions route hostname name :
  admitted_by route hostname name ↔
  ∃ c, (name, c) ∈ host_conditions hostname (rt_Ingress route) ∧ is_admission c ∧ rc_Status c = ConditionTrue.
Proof.
  unfold admitted_by. setoid_rewrite elem_of_host_conditions. split.
  - intros (i & c & Hi & Hh & Hn & Hc & Ht & Hs). exists c. split; [eauto 10|]. split; [|done].
    unfold is_admission. by rewrite Ht.
  - intros (c & (i & Hi & Hh & Hn & Hc) & Ht & Hs). exists i, c. repeat split; try done.
    unfold is_admission in Ht. by apply String.eqb_eq, Is_true_true.
Qed.

Lemma size_two (X : gset string) : (1 < size X)%nat ↔ ∃ x y, x ≠ y ∧ x ∈ X ∧ y ∈ X.
Proof.
  split.
  - unfold size, set_size. cbn. intros Hlt. pose proof (NoDup_elements X) as Hnd.
    destruct (elements X) as [|x [|y l]] eqn:HX; cbn in Hlt; [lia..|].
    apply NoDup_cons in Hnd as [Hx _]. exists x, y. split; [intros ->; apply Hx; left|].
    split; apply elem_of_elements; rewrite HX; [left|right; left].
  - intros (x & y & Hne & Hx & Hy). assert ({[x; y]} ⊆ X) as Hsub by set_solver.
    apply subseteq_size in Hsub. rewrite size_union in Hsub by set_solver. rewrite !size_singleton in Hsub. lia.
Qed.

Lemma additionalIngressRouteCondition_True route ingress generation :
  c_status (additionalIngressRouteCondition route ingress generation) = ConditionTrue ↔
  ∃ t, targetAdmission (scan_route route ingress) = Some t ∧ rc_Status t = ConditionTrue.
Proof.
  unfold additionalIngressRouteCondition.
  destruct (targetAdmission (scan_route route ingress)) as [t|].
  - destruct (String.eqb_spec (rc_Status t) ConditionTrue) as [Ht|Ht].
    + destruct (1 <? _)%nat; cbn; naive_solver.
    + destruct (String.eqb (rc_Status t) ConditionFalse), (1 <? _)%nat; cbn; naive_solver.
  - destruct (1 <? _)%nat; cbn; naive_solver.
Qed.

(** The bridge Route of an ingress counts as admitted exactly when the configured ingress
    controller admitted it under the configured host - wherever that entry is in the Route's
    status and whatever older entries of that router say - and another router's admission
    never counts, but is reported once two routers have admitted it. *)
Theorem route_admitted_iff (route : Route) (ingress : AdditionalIngress) (generation : Z) :
  (c_status (additionalIngressRouteCondition route ingress generation) = ConditionTrue ↔
   admitted_by route (ing_Hostname ingress) (IngressControllerName ingress)) ∧
  (c_reason (additionalIngressRouteCondition route ingress generation) = additionalIngressReasonMultipleControllers ↔
   admitted_by route (ing_Hostname ingress) (IngressControllerName ingress) ∧
   ∃ r1 r2, r1 ≠ r2 ∧ r1 ≠ "" ∧ r2 ≠ "" ∧ admitted_by route (ing_Hostname ingress) r1 ∧
            admitted_by route (ing_Hostname ingress) r2).
Proof.
  destruct (scan_route_ok route ingress) as [Hrouters Htarget].
  assert (c_status (additionalIngressRouteCondition route ingress generation) = ConditionTrue ↔
          admitted_by route (ing_Hostname ingress) (IngressControllerName ingress)) as Hstatus.
  { rewrite additionalIngressRouteCondition_True, admitted_by_conditions.
    destruct (targetAdmission _) as [t|]; naive_solver. }
  split; [exact Hstatus|]. rewrite <-Hstatus.
  setoid_rewrite admitted_by_conditions.
  transitivity (c_status (additionalIngressRouteCondition route ingress generation) = ConditionTrue ∧
                (1 < size (admittedRouters (scan_route route ingress)))%nat).
  - rewrite additionalIngressRouteCondition_True. unfold additionalIngressRouteCondition.
    destruct (targetAdmission (scan_route route ingress)) as [t|].
    + destruct (String.eqb_spec (rc_Status t) ConditionTrue) as [Ht|Ht];
        [|destruct (String.eqb (rc_Status t) ConditionFalse)];
        destruct (Nat.ltb_spec 1 (size (admittedRouters (scan_route route ingress)))); cbn; naive_solver lia.
    + destruct (1 <? _)%nat; cbn; naive_solver.
  - rewrite size_two. apply and_iff_compat_l. split; intros (x & y & Hxy); exists x, y; rewrite !Hrouters in *; tauto.
Qed.

(** ** Readiness *)

Section readiness.
Context `{StatusConditionsLaws}.

(** The condition of a type at the current generation has this status. *)
Definition currently (l : list Condition) (generation : Z) (status ty : string) : Prop :=
  ∃ c, FindStatusCondition l ty = Some c ∧ c_observedGeneration c = generation ∧ c_status c = status.

Definition all_true (l : list Condition) (generation : Z) : Prop :=
  ∀ ty, ty ∈ readiness_condition_types → currently l generation ConditionTrue ty.

Definition some_false (l : list Condition) (generation : Z) : Prop :=
  ∃ ty, ty ∈ readiness_condition_types ∧ currently l generation ConditionFalse ty.

Lemma ready_step_None l generation acc ty :
  ((ready_step l generation acc ty).1 = None ↔ acc.1 = None ∧ ¬ currently l generation ConditionFalse ty) ∧
  ((ready_step l generation acc ty).2 = None ↔ acc.2 = None ∧ currently l generation ConditionTrue ty).
Proof.
  destruct acc as [failed pending]. unfold ready_step, currently.
  destruct (FindStatusCondition l ty) as [c|]; [|destruct pending; naive_solver].
  destruct (Z.eqb_spec (c_observedGeneration c) generation) as [Hg|Hg]; cbn [negb].
  - destruct (String.eqb_spec (c_status c) ConditionFalse) as [Hf|Hf],
      (String.eqb_spec (c_status c) ConditionTrue) as [Ht|Ht]; try congruence;
      cbn; destruct failed, pending; naive_solver congruence.
  - destruct pending; naive_solver.
Qed.

Lemma ready_foldl_None l generation tys acc :
  ((foldl (ready_step l generation) acc tys).1 = None ↔
     acc.1 = None ∧ ∀ ty, ty ∈ tys → ¬ currently l generation ConditionFalse ty) ∧
  ((foldl (ready_step l generation) acc tys).2 = None ↔
     acc.2 = None ∧ ∀ ty, ty ∈ tys → currently l generation ConditionTrue ty).
Proof.
  revert acc. induction tys as [|ty tys IH]; intros acc; cbn [foldl].
  - setoid_rewrite elem_of_nil. naive_solver.
  - destruct (IH (ready_step l generation acc ty)) as [-> ->].
    destruct (ready_step_None l generation acc ty) as [-> ->].
    setoid_rewrite elem_of_cons. naive_solver.
Qed.

Lemma ready_foldl_failed l generation tys acc failed :
  (foldl (ready_step l generation) acc tys).1 = Some failed →
  is_Some acc.1 ∨ ∃ ty, ty ∈ tys ∧ currently l generation ConditionFalse ty.
Proof.
  revert acc. induction tys as [|ty tys IH]; intros acc; cbn [foldl]; [by eauto|].
  intros [Hacc|(ty' & Hty & Hc)]%IH; [|right; exists ty'; split; [by right|done]].
  destruct acc as [[f|] pending]; [left; by eexists|right]. exists ty. split; [left|].
  unfold ready_step in Hacc. unfold currently. destruct (FindStatusCondition l ty) as [c|]; [|by destruct Hacc].
  destruct (Z.eqb_spec (c_observedGeneration c) generation); [|by destruct Hacc].
  destruct (String.eqb_spec (c_status c) ConditionFalse); [by eauto|by destruct Hacc].
Qed.

Lemma ready_foldl l generation :
  match foldl (ready_step l generation) (None, None) readiness_condition_types with
  | (Some _, _) => some_false l generation ∧ ¬ all_true l generation
  | (None, Some _) => ¬ some_false l generation ∧ ¬ all_true l generation
  | (None, None) => ¬ some_false l generation ∧ all_true l generation
  end.
Proof.
  destruct (ready_foldl_None l generation readiness_condition_types (None, None)) as [Hfailed Hpending].
  pose proof (ready_foldl_failed l generation readiness_condition_types (None, None)) as Hfound.
  assert (some_false l generation → ¬ all_true l generation) as Hexcl.
  { intros (ty & Hty & c & Hc & _ & Hs) Hall. destruct (Hall ty Hty) as (c' & Hc' & _ & Hs').
    rewrite Hc in Hc'. injection Hc' as <-. by rewrite Hs in Hs'. }
  assert (¬ some_false l generation ↔ ∀ ty, ty ∈ readiness_condition_types → ¬ currently l generation ConditionFalse ty)
    as Hno by (unfold some_false; naive_solver).
  destruct (foldl _ _ _) as [[failed|] pending]; cbn in Hfailed, Hpending, Hfound.
  - assert (some_false l generation) as Hsome; [|by auto].
    destruct (Hfound _ eq_refl) as [Habs|Hsome]; [done|exact Hsome].
  - destruct pending; rewrite Hno; unfold all_true; naive_solver.
Qed.

(** What [updateAdditionalIngressReadyCondition] leaves behind. *)
Lemma update_ready_condition generation status :
  let s := updateAdditionalIngressReadyCondition generation status in
  (∀ ty, ty ≠ AdditionalIngressReadyConditionType →
     FindStatusCondition (st_Conditions s) ty = FindStatusCondition (st_Conditions status) ty) ∧
  st_Name s = st_Name status ∧
  ∃ c, FindStatusCondition (st_Conditions s) AdditionalIngressReadyConditionType = Some c ∧
    c_observedGeneration c = generation ∧
    (c_status c = ConditionTrue ↔ all_true (st_Conditions status) generation) ∧
    (c_status c = ConditionFalse ↔ some_false (st_Conditions status) generation).
Proof.
  intros s. unfold s, updateAdditionalIngressReadyCondition.
  pose proof (ready_foldl (st_Conditions status) generation) as Hfold.
  assert (∀ st reason msg,
    let s := set_condition generation AdditionalIngressReadyConditionType st reason msg status in
    (∀ ty, ty ≠ AdditionalIngressReadyConditionType →
      FindStatusCondition (st_Conditions s) ty = FindStatusCondition (st_Conditions status) ty) ∧
    st_Name s = st_Name status ∧
    ∃ c, FindStatusCondition (st_Conditions s) AdditionalIngressReadyConditionType = Some c ∧
      c_observedGeneration c = generation ∧ c_status c = st) as Hset.
  { intros st reason msg s'. split; [|split; [done|]].
    - intros ty Hty. exact (find_set_other _ (MkCondition _ st reason msg _ generation 0) ty Hty).
    - destruct (find_set_same (st_Conditions status)
                  (MkCondition AdditionalIngressReadyConditionType st reason msg SeverityUnset generation 0))
        as (c & Hc & Hs & Hg). exists c. done. }
  destruct (foldl _ _ _) as [[failed|] [pending|]]; destruct Hfold as [Hf Ht];
    match goal with |- context [set_condition _ _ ?st ?reason ?msg _] =>
      destruct (Hset st reason msg) as (Hother & Hname & c & Hc & Hg & Hs) end;
    (split; [exact Hother|split; [exact Hname|]]); exists c;
    (split; [exact Hc|split; [exact Hg|rewrite Hs; split; split]]); first [done | tauto | intros [=]].
Qed.

(** *** All ingresses *)

Definition ingress_ready (gc : GatewayConfig) (name : string) : Prop :=
  ∃ s, additionalIngressStatusByName gc name = Some s ∧ all_true (st_Conditions s) (gc_Generation gc).

Definition ingress_failed (gc : GatewayConfig) (name : string) : Prop :=
  ∃ s, additionalIngressStatusByName gc name = Some s ∧ some_false (st_Conditions s) (gc_Generation gc).

Lemma find_update_first name name' f l :
  (∀ s, st_Name (f s) = st_Name s) →
  List.find (λ s, String.eqb (st_Name s) name') (update_first name f l) =
  (if String.eqb name name' then f else id) <$> List.find (λ s, String.eqb (st_Name s) name') l.
Proof.
  intros Hf. induction l as [|s l IH]; [done|]. cbn [update_first].
  destruct (String.eqb_spec (st_Name s) name) as [Hs|Hs]; cbn [List.find].
  - rewrite Hf, Hs. destruct (String.eqb_spec name name'); [done|].
    by destruct (List.find _ l).
  - rewrite IH. destruct (String.eqb_spec (st_Name s) name') as [Hs'|]; [|done].
    destruct (String.eqb_spec name name'); [congruence|done].
Qed.

Lemma byName_update_ready gc name name' :
  additionalIngressStatusByName (update_ready gc name) name' =
  (if String.eqb name name' then updateAdditionalIngressReadyCondition (gc_Generation gc) else id) <$>
    additionalIngressStatusByName gc name'.
Proof.
  unfold additionalIngressStatusByName, update_ready, update_status. cbn [gc_Statuses with_statuses].
  apply find_update_first. intros s. by destruct (update_ready_condition (gc_Generation gc) s) as (_ & Hn & _).
Qed.

(** The conditions that decide are not the one that is written. *)
Lemma currently_update generation s st ty :
  ty ∈ readiness_condition_types →
  currently (st_Conditions (updateAdditionalIngressReadyCondition generation s)) generation st ty ↔
  currently (st_Conditions s) generation st ty.
Proof.
  intros Hty. destruct (update_ready_condition generation s) as [Hother _]. unfold currently.
  rewrite Hother; [done|]. unfold readiness_condition_types in Hty. set_unfold. by destruct Hty as [->|[->|[->|[]]]].
Qed.

Lemma verdict_update_ready gc name name' :
  (ingress_ready (update_ready gc name) name' ↔ ingress_ready gc name') ∧
  (ingress_failed (update_ready gc name) name' ↔ ingress_failed gc name').
Proof.
  unfold ingress_ready, ingress_failed, all_true, some_false. rewrite byName_update_ready.
  change (gc_Generation (update_ready gc name)) with (gc_Generation gc).
  destruct (additionalIngressStatusByName gc name') as [s|]; cbn; [|naive_solver].
  destruct (String.eqb name name'); [|done].
  pose proof (currently_update (gc_Generation gc) s) as Hcur. split.
  - split; intros (? & [= <-] & Hall); eexists; (split; [done|]); intros ty Hty; by apply Hcur, Hall.
  - split; intros (? & [= <-] & ty & Hty & Hc); eexists; (split; [done|]); exists ty; (split; [done|]); by apply Hcur.
Qed.

Lemma aggregate_step_ok acc ingress :
  let '(gc, failed, pending) := acc in
  let '(gc', failed', pending') := aggregate_step acc ingress in
  gc' = update_ready gc (ing_Name ingress) ∧
  (∀ n, n ∈ failed' ↔ n ∈ failed ∨ n = ing_Name ingress ∧ ingress_failed gc n) ∧
  (failed' = [] ∧ pending' = [] ↔ failed = [] ∧ pending = [] ∧ ingress_ready gc (ing_Name ingress)).
Proof.
  destruct acc as [[gc failed] pending]. unfold aggregate_step, ingress_failed, ingress_ready.
  rewrite byName_update_ready, String.eqb_refl.
  assert (∀ (l : list string) x, l ++ [x] ≠ []) as Hsnoc by (by intros [|]).
  destruct (additionalIngressStatusByName gc (ing_Name ingress)) as [s|] eqn:Hfind; cbn [fmap option_fmap option_map mbind option_bind].
  - destruct (update_ready_condition (gc_Generation gc) s) as (_ & _ & c & -> & Hg & Ht & Hf).
    change (gc_Generation (update_ready gc (ing_Name ingress))) with (gc_Generation gc).
    rewrite Hg, Z.eqb_refl. cbn [negb].
    destruct (String.eqb_spec (c_status c) ConditionFalse) as [Hs|Hs];
      [|destruct (String.eqb_spec (c_status c) ConditionTrue) as [Hs'|Hs']; cbn [negb]];
      (split; [done|]).
    + assert (c_status c ≠ ConditionTrue) as Hne by (rewrite Hs; discriminate). split; [|naive_solver].
      intros n. rewrite elem_of_app, list_elem_of_singleton. split; [|naive_solver].
      intros [Hn | ->]; [by left|right]. split; [done|]. exists s. naive_solver.
    + split; [|naive_solver]. intros n. split; [by left|]. intros [Hn | (-> & s' & Hs1 & Hs2)]; [done|].
      rewrite Hfind in Hs1. injection Hs1 as <-. by apply Hf in Hs2.
    + split; [|naive_solver]. intros n. split; [by left|]. intros [Hn | (-> & s' & Hs1 & Hs2)]; [done|].
      rewrite Hfind in Hs1. injection Hs1 as <-. by apply Hf in Hs2.
  - split; [done|]. split; [|naive_solver]. intros n. split; [by left|].
    intros [Hn | (-> & s' & Hs1 & Hs2)]; [done|congruence].
Qed.

Lemma aggregate_foldl l acc :
  let '(gc, failed, pending) := acc in
  let '(gc', failed', pending') := foldl aggregate_step acc l in
  gc_Generation gc' = gc_Generation gc ∧ gc_Spec gc' = gc_Spec gc ∧
  (∀ name, (ingress_ready gc' name ↔ ingress_ready gc name) ∧ (ingress_failed gc' name ↔ ingress_failed gc name)) ∧
  (∀ n, n ∈ failed' ↔ n ∈ failed ∨ n ∈ ing_Name <$> l ∧ ingress_failed gc n) ∧
  (failed' = [] ∧ pending' = [] ↔ failed = [] ∧ pending = [] ∧ ∀ n, n ∈ ing_Name <$> l → ingress_ready gc n).
Proof.
  revert acc. induction l as [|i l IH]; intros [[gc failed] pending]; cbn [foldl fmap list_fmap].
  - setoid_rewrite elem_of_nil. naive_solver.
  - pose proof (aggregate_step_ok (gc, failed, pending) i) as Hstep.
    specialize (IH (aggregate_step (gc, failed, pending) i)).
    destruct (aggregate_step _ i) as [[gc1 failed1] pending1]. destruct Hstep as (-> & Hf1 & Hp1).
    destruct (foldl _ _ _) as [[gc' failed'] pending']. destruct IH as (Hg & Hs & Hv & Hf & Hp).
    assert (∀ n, (ingress_ready (update_ready gc (ing_Name i)) n ↔ ingress_ready gc n) ∧
                 (ingress_failed (update_ready gc (ing_Name i)) n ↔ ingress_failed gc n)) as Hu
      by (intros n; apply verdict_update_ready).
    setoid_rewrite elem_of_cons. split; [exact Hg|split; [exact Hs|split]].
    + intros n. destruct (Hv n) as [-> ->]. apply Hu.
    + split.
      * intros n. rewrite Hf, Hf1, (proj2 (Hu n)). naive_solver.
      * rewrite Hp. setoid_rewrite (λ n, proj1 (Hu n)). naive_solver.
Qed.

Lemma publish_keeps results gc :
  gc_Spec (publishAdditionalIngressAuthConditions results gc) = gc_Spec gc ∧
  gc_Generation (publishAdditionalIngressAuthConditions results gc) = gc_Generation gc.
Proof. revert gc. induction results as [|r results IH]; intros gc; [done|]. cbn. apply (IH (publish_result gc r)). Qed.

(** AdditionalGatewaysReady is written exactly once, for the current generation: True
    exactly when every additional ingress has a status whose Gateway, Route and authentication
    conditions - the latter as just published - are all True at this generation, False exactly
    when one of them is False there, and otherwise Unknown. *)
Theorem AdditionalGatewaysReady_verdict (range_results : gmap string authProxyResult → list authProxyResult)
    (s : GwState) (tr : list (call GwE)) :
  wp (updateAdditionalGatewaysReadyCondition range_results s) tr (λ tr' s',
    let published := publishAdditionalIngressAuthConditions (range_results (gs_Auth s)) (gs_Config s) in
    let names := ing_Name <$> AdditionalIngresses (gc_Spec (gs_Config s)) in
    gs_Auth s' = gs_Auth s ∧
    (∀ name, ingress_ready (gs_Config s') name ↔ ingress_ready published name) ∧
    ∃ m, tr' = tr ++ [Call (MarkCondition m) tt] ∧ m_type m = AdditionalGatewaysReadyConditionType ∧
      m_observedGeneration m = Some (gc_Generation (gs_Config s)) ∧
      (m_status m = ConditionTrue ↔ ∀ name, name ∈ names → ingress_ready published name) ∧
      (m_status m = ConditionFalse ↔ ∃ name, name ∈ names ∧ ingress_failed published name) ∧
      (m_status m = ConditionTrue ∨ m_status m = ConditionFalse ∨ m_status m = ConditionUnknown)).
Proof.
  unfold updateAdditionalGatewaysReadyCondition, aggregate.
  destruct (publish_keeps (range_results (gs_Auth s)) (gs_Config s)) as [Hspec Hgen].
  set (published := publishAdditionalIngressAuthConditions _ _) in *.
  pose proof (aggregate_foldl (AdditionalIngresses (gc_Spec (gs_Config s))) (published, [], [])) as Hagg.
  destruct (foldl _ _ _) as [[gc' failed] pending]. destruct Hagg as (Hg & Hs & Hv & Hf & Hp).
  apply wp_bind, wp_call. intros u. destruct u. apply wp_ret. cbn [gs_Auth gs_Config with_config].
  split; [done|split; [intros name; apply Hv|]]. eexists. split; [done|].
  setoid_rewrite elem_of_nil in Hf.
  assert ((∃ name, name ∈ ing_Name <$> AdditionalIngresses (gc_Spec (gs_Config s)) ∧ ingress_failed published name) ↔
          failed ≠ []) as ->.
  { split.
    - intros (n & Hn & Hfn) ->. specialize (Hf n). set_solver.
    - destruct failed as [|n failed]; [done|]. intros _. exists n. destruct (proj1 (Hf n)) as [[]|Hn]; [left|exact Hn]. }
  assert ((∀ n, n ∈ ing_Name <$> AdditionalIngresses (gc_Spec (gs_Config s)) → ingress_ready published n) ↔
          failed = [] ∧ pending = []) as -> by (rewrite Hp; naive_solver).
  assert (gc_Generation gc' = gc_Generation (gs_Config s)) as Hgen' by congruence.
  unfold aggregate_mark. destruct failed as [|f failed], pending as [|p pending], (AdditionalIngresses (gc_Spec gc'));
    cbn; rewrite Hgen'; naive_solver.
Qed.

End readiness.

(** ** Statuses follow the configuration *)

Lemma last_of_type_type l ty c : last_of_type l ty = Some c → c_type c = ty ∧ c ∈ l.
Proof.
  unfold last_of_type. intros Hf. apply find_some in Hf as [Hin Ht]. apply String.eqb_eq in Ht.
  split; [done|]. by apply list_elem_of_In, in_rev.
Qed.

Lemma current_condition_shape now l generation ty :
  c_type (current_condition now l generation ty) = ty ∧
  c_observedGeneration (current_condition now l generation ty) = generation.
Proof.
  unfold current_condition. destruct (last_of_type l ty) as [c|] eqn:Hl; [|done].
  apply last_of_type_type in Hl as [Ht _]. destruct (Z.eqb_spec (c_observedGeneration c) generation); [done|].
  by destruct (_ && _).
Qed.

(** In a list without two elements of the same key, the key finds its element from the end. *)
Lemma find_rev_unique {A} (key : A → string) (l : list A) a :
  NoDup (key <$> l) → a ∈ l → List.find (λ b, String.eqb (key b) (key a)) (rev l) = Some a.
Proof.
  intros Hnd Ha. destruct (List.find _ (rev l)) as [b|] eqn:Hf.
  - apply find_some in Hf as [Hb Hk]. apply String.eqb_eq in Hk. f_equal.
    apply in_rev, list_elem_of_In in Hb. by apply (NoDup_fmap_inj key l).
  - exfalso. apply list_elem_of_In, in_rev in Ha. apply (find_none _ _ Hf) in Ha.
    by rewrite String.eqb_refl in Ha.
Qed.

Lemma current_condition_types now l generation :
  c_type <$> currentAdditionalIngressConditions now l generation = additionalIngressConditionTypes.
Proof.
  unfold currentAdditionalIngressConditions, additionalIngressConditionTypes. cbn [fmap list_fmap].
  by rewrite !(λ ty, proj1 (current_condition_shape now l generation ty)).
Qed.

Lemma current_conditions_fixed now now' l generation :
  currentAdditionalIngressConditions now' (currentAdditionalIngressConditions now l generation) generation =
  currentAdditionalIngressConditions now l generation.
Proof.
  pose proof (current_condition_types now l generation) as Htypes.
  unfold currentAdditionalIngressConditions at 1. unfold currentAdditionalIngressConditions at 2.
  apply list_fmap_ext. intros i ty Hty. apply list_elem_of_lookup_2 in Hty.
  unfold current_condition at 1. unfold last_of_type.
  destruct (current_condition_shape now l generation ty) as [Ht Hg].
  pose proof (find_rev_unique c_type (currentAdditionalIngressConditions now l generation)
                (current_condition now l generation ty)) as Hfind.
  rewrite Ht in Hfind. rewrite Hfind.
  - by rewrite Hg, Z.eqb_refl.
  - rewrite Htypes. apply (bool_decide_unpack _). by vm_compute.
  - by apply list_elem_of_fmap_2.
Qed.

(** The statuses are one per configured ingress, in the configured order, with its name,
    host and Gateway; each carries exactly the four conditions, all of the current generation;
    and computing them again for the same generation changes nothing, whatever the time. *)
Theorem buildAdditionalIngressStatuses_stable (now now' generation : Z) (kubernetes : bool)
    (specs : list AdditionalIngress) (previous statuses : list AdditionalIngressStatus) :
  statuses = buildAdditionalIngressStatuses now kubernetes specs previous generation →
  (λ s, (st_Name s, st_Hostname s, GatewayRef s)) <$> statuses =
    (λ i, (ing_Name i, ing_Hostname i, MkGatewayRef (ing_Name i) (GetGatewayNamespace kubernetes))) <$> specs ∧
  Forall (λ s, c_type <$> st_Conditions s = additionalIngressConditionTypes ∧
               Forall (λ c, c_observedGeneration c = generation) (st_Conditions s)) statuses ∧
  (NoDup (ing_Name <$> specs) →
   buildAdditionalIngressStatuses now' kubernetes specs statuses generation = statuses).
Proof.
  intros ->. split; [|split].
  - unfold buildAdditionalIngressStatuses. rewrite <-list_fmap_compose. apply list_fmap_ext. done.
  - unfold buildAdditionalIngressStatuses. apply Forall_fmap, Forall_forall. intros i _. cbn [compose st_Conditions].
    split; [apply current_condition_types|].
    unfold currentAdditionalIngressConditions.
    apply Forall_fmap, Forall_forall. intros ty _. apply current_condition_shape.
  - intros Hnd. unfold buildAdditionalIngressStatuses at 1. unfold buildAdditionalIngressStatuses at 2.
    apply list_fmap_ext. intros k i Hi. apply list_elem_of_lookup_2 in Hi.
    assert (previous_status (buildAdditionalIngressStatuses now kubernetes specs previous generation) (ing_Name i) =
            build_status now kubernetes generation (previous_status previous (ing_Name i)) i) as ->.
    { unfold previous_status at 1. change (ing_Name i) with (st_Name (build_status now kubernetes generation
        (previous_status previous (ing_Name i)) i)) at 1. rewrite (find_rev_unique st_Name).
      - done.
      - unfold buildAdditionalIngressStatuses. by rewrite <-list_fmap_compose.
      - unfold buildAdditionalIngressStatuses. apply list_elem_of_fmap. by exists i. }
    unfold build_status at 1. cbn [GatewayRef build_status st_Conditions]. rewrite bool_decide_true by done.
    rewrite current_conditions_fixed. done.
Qed.

(** ** Witnesses *)

Definition sample_ingress (name : string) : AdditionalIngress :=
  MkIngress name (name +:+ ".example.com") "internal" {["tier" := name]} (MkIngressAuth None None).

Definition sample_spec (ingresses : list AdditionalIngress) : GatewayConfigSpec :=
  MkGatewaySpec IngressModeOcpRoute None None None "example.com" "" None "" ingresses (MkCookie 0 0) "" 0 None None None
    None.

Definition sample_gateway (ingresses : list AdditionalIngress) (statuses : list AdditionalIngressStatus) : GatewayConfig :=
  MkGatewayConfig GatewayConfigName "uid" 3 ∅ (sample_spec ingresses) "" statuses.

(** One condition of an earlier generation is dropped, one of this generation is kept. *)
Definition sample_previous : list AdditionalIngressStatus :=
  [MkIngressStatus "blue" "blue.example.com" (MkGatewayRef "blue" GatewayNamespace)
     [MkCondition AdditionalIngressGatewayReadyConditionType ConditionTrue "Ready" "" SeverityUnset 3 7;
      MkCondition AdditionalIngressRouteAdmittedConditionType ConditionTrue "Ready" "" SeverityUnset 2 7]].

Definition sample_statuses (now : Z) : list AdditionalIngressStatus :=
  buildAdditionalIngressStatuses now false [sample_ingress "blue"; sample_ingress "green"] sample_previous 3.

Lemma buildAdditionalIngressStatuses_stable_witness :
  (c_status <$> (sample_statuses 10 ≫= st_Conditions)) =
    ConditionTrue :: replicate 7 ConditionUnknown ∧
  buildAdditionalIngressStatuses 99 false [sample_ingress "blue"; sample_ingress "green"] (sample_statuses 10) 3 =
    sample_statuses 10.
Proof.
  split; [by vm_compute|].
  apply (buildAdditionalIngressStatuses_stable 10 99 3 false [sample_ingress "blue"; sample_ingress "green"]
           sample_previous (sample_statuses 10) eq_refl).
  apply (bool_decide_unpack _). by vm_compute.
Defined.

Definition all_current (name : string) (statuses : list string) : AdditionalIngressStatus :=
  MkIngressStatus name (name +:+ ".example.com") (MkGatewayRef name GatewayNamespace)
    (zip_with (λ ty st, MkCondition ty st "" "" SeverityUnset 3 7) readiness_condition_types statuses).

(** One ingress is ready, the other one's Route is not admitted. *)
Definition sample_state : GwState :=
  MkGwState (sample_gateway [sample_ingress "blue"; sample_ingress "green"]
               [all_current "blue" [ConditionTrue; ConditionTrue; ConditionTrue];
                all_current "green" [ConditionTrue; ConditionFalse; ConditionUnknown]]) ∅ None [] [].

Definition range_all (m : gmap string authProxyResult) : list authProxyResult := (map_to_list m).*2.

Lemma AdditionalGatewaysReady_verdict_witness :
  wp (updateAdditionalGatewaysReadyCondition (H := status_conditions_documented) range_all sample_state) [] (λ tr' _,
    ∃ m, tr' = [Call (MarkCondition m) tt] ∧ m_status m = ConditionFalse).
Proof.
  eapply wp_mono; [|exact (AdditionalGatewaysReady_verdict (H := status_conditions_documented)
                             (H0 := status_conditions_documented_laws) range_all sample_state [])].
  intros tr' s' (_ & _ & m & -> & _ & _ & _ & Hfalse & _). exists m. split; [reflexivity|].
  apply Hfalse. exists "green". split; [right; left|].
  eexists. split; [reflexivity|]. exists AdditionalIngressRouteAdmittedConditionType.
  split; [right; left|]. eexists. split; [reflexivity|]. split; reflexivity.
Defined.
