(* ===== verification/GatewayAuth.v ===== *)
(** * Gateway service: authentication proxies

    [gateway_auth_targets.go] and the authentication half of [gateway_controller_actions.go]
    and [gateway_support.go] (directory [internal/controller/services/gateway]): the credentials of each proxy, the resources and templates a
    target contributes, what becomes of the ones whose preparation fails, and the removal of
    proxies that are no longer wanted.

    What a request collects for deployment is [Pending]: the resources and the templates'
    paths. Rendering is the call [RenderTemplates]. *)

From S2P Require Import Prelude Effects Conditions Unstructured SharedPlatform PlatformConfig Admission Secrets Sha256 Gateway GatewayStatus.

(** ** Constants *)

Definition EnvClientID : string := "OAUTH2_PROXY_CLIENT_ID".
Definition EnvClientSecret : string := "OAUTH2_PROXY_CLIENT_SECRET".
Definition EnvCookieSecret : string := "OAUTH2_PROXY_COOKIE_SECRET".
Definition AuthProxyOAuth2Path : string := "/oauth2".
Definition OAuthCallbackPath : string := AuthProxyOAuth2Path +:+ "/callback".
Definition ComponentLabelValue : string := "authentication".
Definition PartOfLabelValue : string := "data-science-gateway".
Definition PartOfGatewayConfig : string := "gatewayconfig".

Definition AuthModeIntegratedOAuth : string := "IntegratedOAuth".
Definition AuthModeOIDC : string := "OIDC".
Definition AuthModeNone : string := "None".

Definition envoyFilterTemplate : string := "resources/envoyfilter-authn.tmpl.yaml".
Definition destinationRuleTemplate : string := "resources/kube-auth-proxy-destinationrule-tls.tmpl.yaml".
Definition kubeAuthProxyDeploymentOidcTemplate : string := "resources/kube-auth-proxy-oidc-deployment.tmpl.yaml".
Definition kubeAuthProxyDeploymentOauthTemplate : string := "resources/kube-auth-proxy-oauth-deployment.tmpl.yaml".
Definition kubeAuthProxyServiceTemplate : string := "resources/kube-auth-proxy-svc.tmpl.yaml".
Definition kubeAuthProxyHTTPRouteTemplate : string := "resources/kube-auth-proxy-httproute.tmpl.yaml".
Definition kubeAuthProxyHPATemplate : string := "resources/kube-auth-proxy-hpa.tmpl.yaml".
Definition kubeAuthProxyServiceAccountTemplate : string := "resources/kube-auth-proxy-serviceaccount.tmpl.yaml".
Definition kubeAuthProxyClusterRoleBindingTemplate : string :=
  "resources/kube-auth-proxy-clusterrolebinding.tmpl.yaml".
Definition networkPolicyTemplate : string := "resources/kube-auth-proxy-networkpolicy.yaml".

Definition AuthProxyFailedOAuthClientMessage : string := "Failed to create OAuth client".
Definition AuthProxyFailedGenerateSecretMessage : string := "Failed to generate client secret".
Definition AuthProxyOIDCModeWithoutConfigMessage : string :=
  "Cluster is in OIDC mode but GatewayConfig has no OIDC configuration".
Definition AuthProxyExternalAuthNoDeploymentMessage : string :=
  "Cluster uses external authentication, no gateway auth proxy deployed".

(** [fmt.Errorf("%w: ...", errInvalidAuthenticationConfig, ...)] *)
Definition invalidAuthenticationConfig (msg : string) : goerr :=
  Goerr ("invalid authentication configuration: " +:+ msg) [TagInvalidAuthenticationConfig].

(** With a second wrapped error. *)
Definition invalidAuthenticationConfigOf (err : goerr) : goerr :=
  Goerr ("invalid authentication configuration: " +:+ err_text err) (TagInvalidAuthenticationConfig :: err_tags err).

(** ** Durations ([time.Duration.String]) *)

(** The fraction of [v / 10^prec], without trailing zeros. *)
Fixpoint frac_digits (prec : nat) (v : Z) : string :=
  match prec with
  | O => ""
  | S prec =>
      if (v =? 0)%Z then ""
      else itoa (v / 10 ^ Z.of_nat prec) +:+ frac_digits prec (v mod 10 ^ Z.of_nat prec)
  end.

Definition fmtFrac (v : Z) (prec : nat) : string :=
  let f := (v mod 10 ^ Z.of_nat prec)%Z in
  if (f =? 0)%Z then "" else "." +:+ frac_digits prec f.

(** The two bytes of the micro sign. *)
Definition micro : string := String (Ascii.ascii_of_nat 194) (String (Ascii.ascii_of_nat 181) EmptyString).

Definition duration_abs (u : Z) : string :=
  let scaled prec unit := itoa (u / 10 ^ Z.of_nat prec) +:+ fmtFrac u prec +:+ unit in
  if (u =? 0)%Z then "0s"
  else if (u <? 1000)%Z then scaled 0 "ns"
  else if (u <? 1000000)%Z then scaled 3 (micro +:+ "s")
  else if (u <? second)%Z then scaled 6 "ms"
  else
    let secs := (u / second)%Z in
    let s := itoa (secs mod 60) +:+ fmtFrac u 9 +:+ "s" in
    let mins := (secs / 60)%Z in
    if (mins =? 0)%Z then s
    else
      let m := itoa (mins mod 60) +:+ "m" +:+ s in
      let hours := (mins / 60)%Z in
      if (hours =? 0)%Z then m else itoa hours +:+ "h" +:+ m.

Definition duration_String (d : Z) : string :=
  if (d <? 0)%Z then "-" +:+ duration_abs (- d) else duration_abs d.

Example duration_examples :
  duration_String (24 * 3600 * second) = "24h0m0s" ∧ duration_String (90 * second + 500000000) = "1m30.5s" ∧
  duration_String 1500000 = "1.5ms" ∧ duration_String (-5 * second) = "-5s".
Proof. by vm_compute. Qed.

Definition getGatewayAuthProxyTimeout (s : GatewayConfigSpec) : string :=
  if nonempty_str (AuthTimeout s) then AuthTimeout s
  else if negb (AuthProxyTimeout s =? 0)%Z then duration_String (AuthProxyTimeout s)
  else "5s".

Definition getCookieSettings (c : CookieConfig) : string * string :=
  (if negb (Expire c =? 0)%Z then duration_String (Expire c) else "24h0m0s",
   if negb (Refresh c =? 0)%Z then duration_String (Refresh c) else "1h0m0s").

(** ** Hashes *)

Definition sha256_hex (s : string) : string := hex (Sum256 (bytes_of s)).

Definition calculateAuthConfigHash (data : gmap string string) : string :=
  sha256_hex (default "" (data !! EnvClientID) +:+ nul +:+ default "" (data !! EnvClientSecret) +:+ nul +:+
              default "" (data !! EnvCookieSecret)).

Definition extendAuthConfigHash (authConfigHash providerCA : string) : string :=
  sha256_hex (authConfigHash +:+ nul +:+ providerCA).

Definition calculateRedirectConfigHash (hostname config : string) : string :=
  sha256_hex (hostname +:+ nul +:+ config).

Definition dashboardRedirectConfigMapTemplate : string := "resources/dashboard-redirect-configmap.tmpl.yaml".

Definition CalculateRedirectConfigHash (hostname : string) : prog GwE (result string) :=
  config ← trigger (ReadResource dashboardRedirectConfigMapTemplate);
  mret (match config with
        | Err err => Err (wrapf "read dashboard redirect configuration for rollout hash" err)
        | Ok config => Ok (calculateRedirectConfigHash hostname config)
        end).

(** ** Credentials *)

(** [cluster.NewSecret(name, "random", n)]; the reconciler recovers the panic of a number out
    of range as an error. *)
Definition random_secret (name : string) (n : Z) : prog GwE (result string) :=
  value ← lift (λ X e, Rand e) (NewSecret name "random" n);
  mret (default (Err (errorf "runtime error: index out of range")) value).

Section credentials.
Context (kubernetes : bool).

(** The client secret of OIDC: from the Secret an administrator manages. *)
Definition oidc_client_secret (oidc : OIDCConfig) : prog GwE (result string) :=
  let ref := oidc_ClientSecretRef oidc in
  let secretNamespace := authSecretNamespace kubernetes (oidc_SecretNamespace oidc) in
  found ← trigger (GetSecretData secretNamespace (sel_Name ref));
  mret (match found with
        | Err err =>
            Err (wrapf ("failed to get OIDC client secret " +:+ secretNamespace +:+ "/" +:+ sel_Name ref)
                   (if err_is TagNotFound err then invalidAuthenticationConfigOf err else err))
        | Ok data =>
            let key := if nonempty_str (sel_Key ref) then sel_Key ref else "clientSecret" in
            let value := default "" (data !! key) in
            if nonempty_str value then Ok value
            else Err (invalidAuthenticationConfig
                        ("key '" +:+ key +:+ "' is missing or empty in OIDC secret " +:+ secretNamespace +:+ "/" +:+ sel_Name ref))
        end).

Definition unsupported (authMode : string) : goerr := errorf ("auth mode: " +:+ authMode +:+ " is not supported").

(** The client of the mode: its ID and secret. *)
Definition client_credentials (authMode : string) (oidcConfig : option OIDCConfig) (target : authProxyTarget)
    : prog GwE (result (string * string)) :=
  if String.eqb authMode AuthModeOIDC then
    match oidcConfig with
    | None =>
        mret (Err (invalidAuthenticationConfig
                     ("OIDC configuration is required for gateway " +:+ quote (tg_GatewayName target))))
    | Some oidc =>
        value ← oidc_client_secret oidc;
        mret (secret ← value; Ok (oidc_ClientID oidc, secret))
    end
  else if String.eqb authMode AuthModeIntegratedOAuth then
    generated ← random_secret "client-secret" 24;
    mret (match generated with
          | Err err => Err (wrapf "failed to generate client secret" err)
          | Ok secret => Ok (tg_ClientID target, secret)
          end)
  else mret (Err (unsupported authMode)).

(** New credentials; the session key of the existing Secret is kept when it has one. *)
Definition fresh_values (authMode : string) (oidcConfig : option OIDCConfig) (target : authProxyTarget)
    (existing : gmap string string) : prog GwE (result (string * string * string)) :=
  credentials ← client_credentials authMode oidcConfig target;
  match credentials with
  | Err err => mret (Err err)
  | Ok (clientID, clientSecret) =>
      let cookie := default "" (existing !! EnvCookieSecret) in
      if nonempty_str cookie then mret (Ok (clientID, clientSecret, cookie))
      else
        generated ← random_secret "cookie-secret" 32;
        mret (match generated with
              | Err err => Err (wrapf "failed to generate cookie secret" err)
              | Ok cookie => Ok (clientID, clientSecret, cookie)
              end)
  end.

(** Client ID, client secret and cookie secret. *)
Definition getAuthProxySecretValues (authMode : string) (oidcConfig : option OIDCConfig) (target : authProxyTarget)
    : prog GwE (result (string * string * string)) :=
  let namespace := GetGatewayNamespace kubernetes in
  found ← trigger (GetSecretData namespace (tg_SecretName target));
  match found with
  | Err err =>
      if err_is TagNotFound err then fresh_values authMode oidcConfig target ∅
      else mret (Err (wrapf ("failed to check existing secret " +:+ namespace +:+ "/" +:+ tg_SecretName target) err))
  | Ok existing =>
      match existing !! EnvClientSecret, existing !! EnvCookieSecret with
      | Some clientSecret, Some cookieSecret =>
          if String.eqb authMode AuthModeOIDC then fresh_values authMode oidcConfig target existing
          else if String.eqb authMode AuthModeIntegratedOAuth
          then mret (Ok (tg_ClientID target, clientSecret, cookieSecret))
          else mret (Err (unsupported authMode))
      | _, _ => fresh_values authMode oidcConfig target existing
      end
  end.

Definition secret_data (clientID clientSecret cookieSecret : string) : gmap string string :=
  <[EnvClientID := clientID]> (<[EnvClientSecret := clientSecret]> {[EnvCookieSecret := cookieSecret]}).

(** The Secret is written at once; its data is the result. *)
Definition createSecret (clientID clientSecret cookieSecret : string) (target : authProxyTarget)
    : prog GwE (result (gmap string string)) :=
  let data := secret_data clientID clientSecret cookieSecret in
  err ← trigger (CreateOrUpdateSecret (tg_SecretName target) data);
  mret (match err with Some err => Err err | None => Ok data end).

(** The OAuthClient of a target, or why there is none. *)
Definition createOAuthClient (hostname : string) (target : authProxyTarget) (data : gmap string string)
    : prog GwE (result GwResource) :=
  match data !! EnvClientSecret with
  | None =>
      mret (Err (errorf ("OAUTH2_PROXY_CLIENT_SECRET not found in secret " +:+ gatewayKey kubernetes (tg_SecretName target))))
  | Some clientSecret =>
      let client := ROAuthClient (tg_ClientID target) (if isDefault target then "auto" else "prompt")
                      ["https://" +:+ hostname +:+ OAuthCallbackPath] clientSecret in
      err ← trigger (AddResource client);
      mret (match err with Some err => Err err | None => Ok client end)
  end.

End credentials.

(** ** Requests *)

Definition ReadyConditionType : string := GatewayConfigReady.

Definition MarkUnknown (type : string) (reason msg : option string) : prog GwE unit :=
  trigger (MarkCondition (MkMark type ConditionUnknown reason msg None None)).

Definition markGatewayNotReady (msg : string) : prog GwE unit := MarkFalse ReadyConditionType NotReadyReason msg.

Definition rejectUnsupportedKubernetesGatewaySpec (kubernetes : bool) (gatewayConfig : GatewayConfig) : prog GwE bool :=
  if negb kubernetes then mret false
  else
    match KubernetesValidationErrors gatewayConfig with
    | [] => mret false
    | msgs => _ ← markGatewayNotReady (join "; " msgs); mret true
    end.

(** ** Template data *)

(** [html.EscapeString]. *)
Fixpoint html_escape (s : string) : string :=
  match s with
  | EmptyString => ""
  | String a s =>
      (match Ascii.nat_of_ascii a with
       | 38%nat => "&amp;" | 39%nat => "&#39;" | 60%nat => "&lt;" | 62%nat => "&gt;" | 34%nat => "&#34;"
       | _ => String a EmptyString
       end) +:+ html_escape s
  end.

Definition OpenDataHub : string := "Open Data Hub".
Definition ManagedRhoai : string := "OpenShift AI Cloud Service".
Definition SelfManagedRhoai : string := "OpenShift AI Self-Managed".
Definition DashboardRouteNameODH : string := "odh-dashboard".
Definition DashboardRouteNameRHOAI : string := "rhods-dashboard".
Definition DashboardRedirectName : string := "dashboard-redirect".
Definition DashboardRedirectConfigName : string := "dashboard-redirect-config".

Definition default_proxy_image : string :=
  "quay.io/opendatahub/odh-kube-auth-proxy@sha256:43bf458ca3c01d51a61f1a61459aa30e8f23a3cedaa3a9037ab5e0e3d4f5a6af".
Definition default_redirect_image : string :=
  "registry.access.redhat.com/ubi9/nginx-126@sha256:f0a79ccf21b8780a7534d78ee0e49d1852654f5f0f52e17ebdbe185a71d93253".

Definition tpairs : Type := list (string * tdata).

Definition insert_all (l : tpairs) (m : template_data) : template_data :=
  foldl (λ m kv, <[kv.1 := kv.2]> m) m l.

Section actions.
Context `{Nested} (kubernetes : bool).
(** The environment, the application namespace and the platform of the request and of the
    operator. *)
Variable Getenv : string → string.
Variables ApplicationNamespace rr_Release GetRelease : string.

Definition getKubeAuthProxyImage : string :=
  let image := Getenv "RELATED_IMAGE_ODH_KUBE_AUTH_PROXY_IMAGE" in
  if nonempty_str image then image else default_proxy_image.

Definition getDashboardRedirectImage : string :=
  let image := Getenv "RELATED_IMAGE_NGINX_126_IMAGE" in
  if nonempty_str image then image else default_redirect_image.

Definition GetDashboardRouteName : string :=
  if String.eqb GetRelease OpenDataHub then DashboardRouteNameODH
  else if String.eqb GetRelease SelfManagedRhoai || String.eqb GetRelease ManagedRhoai then DashboardRouteNameRHOAI
  else DashboardRouteNameODH.

(** The CA bundle; empty without one. *)
Definition provider_ca (spec : GatewayConfigSpec) : prog GwE (result string) :=
  let name := ProviderCASecretName spec in
  if String.eqb name "" then mret (Ok "")
  else
    found ← trigger (GetSecretData (GetGatewayNamespace kubernetes) name);
    mret (match found with
          | Err err =>
              Err (wrapf (if err_is TagNotFound err
                          then "provider CA secret " +:+ name +:+ " not found in namespace " +:+ GetGatewayNamespace kubernetes
                          else "failed to get provider CA secret for hash calculation") err)
          | Ok data =>
              let ca := default "" (data !! "ca.crt") in
              if nonempty_str ca then Ok ca
              else Err (errorf ("provider CA secret " +:+ name +:+ " has no ca.crt data"))
          end).

Definition topt {A} (f : A → tdata) (o : option A) : tdata := match o with Some a => f a | None => TNil end.

(** The map literal and the assignments that follow it. *)
Definition shared_data (spec : GatewayConfigSpec) (hostname serverTimeout providerCA redirectConfigHash : string)
    (legacyInfo : LegacyRedirectInfo) : tpairs :=
  let '(cookieExpire, cookieRefresh) := getCookieSettings (Cookie spec) in
  [("GatewayName", TStr (GetDefaultGatewayName kubernetes)); ("GatewayHostname", TStr hostname);
   ("IsOpenShift", TBool (negb kubernetes)); ("GatewayNamespace", TStr (GetGatewayNamespace kubernetes));
   ("GatewayServiceName", TStr (GetDefaultGatewayServiceFullName kubernetes));
   ("KubeAuthProxyImage", TStr getKubeAuthProxyImage); ("AuthProxyHTTPPort", TInt 4180);
   ("AuthProxyMetricsPort", TInt 9000); ("StandardHTTPSPort", TInt StandardHTTPSPort);
   ("GatewayHTTPSPort", TInt 8443); ("AuthProxyOAuth2Path", TStr AuthProxyOAuth2Path);
   ("TLSCertsVolumeName", TStr "tls-certs"); ("TLSCertsMountPath", TStr "/etc/tls/private");
   ("CookieExpire", TStr cookieExpire); ("CookieRefresh", TStr cookieRefresh);
   ("AuthProxyTimeout", TStr (getGatewayAuthProxyTimeout spec)); ("ComponentLabelKey", TStr K8SComponent);
   ("ComponentLabelValue", TStr ComponentLabelValue); ("PartOfLabelKey", TStr K8SPartOf);
   ("PartOfLabelValue", TStr PartOfLabelValue); ("IstioRevisionLabel", TStr "istio.io/rev");
   ("IstioRevisionValue", TStr (GetIstioRevisionValue kubernetes)); ("PartOfGatewayConfig", TStr PartOfGatewayConfig);
   ("GatewayNameLabelKey", TStr "gateway.networking.k8s.io/gateway-name");
   ("LegacySubdomain", TStr (LegacySubdomain legacyInfo)); ("LegacyHostname", TStr (LegacyHostname legacyInfo));
   ("RouteLabels", TLabels (gatewayRouteLabels ∅)); ("RouteServerTimeout", TStr serverTimeout);
   ("ProviderCA", TStr providerCA);
   ("DashboardRedirectNamespace", TStr ApplicationNamespace); ("DashboardRedirectName", TStr DashboardRedirectName);
   ("DashboardRedirectConfigName", TStr DashboardRedirectConfigName); ("DashboardRouteName", TStr GetDashboardRouteName);
   ("DashboardRedirectImage", TStr getDashboardRedirectImage);
   ("DashboardRedirectHostnameHTML", TStr (html_escape hostname));
   ("DashboardRedirectProductName",
    TStr (if String.eqb rr_Release ManagedRhoai || String.eqb rr_Release SelfManagedRhoai
          then "OpenShift AI" else "Open Data Hub"));
   ("RedirectConfigHash", TStr redirectConfigHash)].

Definition provider_data (spec : GatewayConfigSpec) : tpairs :=
  (match OIDC spec with
   | Some oidc =>
       [("OIDCIssuerURL", TStr (IssuerURL oidc)); ("OIDCScope", TStr (Scope oidc));
        ("OIDCPassAccessToken", TBool (PassAccessToken oidc));
        ("SkipClaimsFromProfileURL", TBool (SkipClaimsFromProfileURL oidc))]
   | None =>
       [("OIDCScope", TStr ""); ("OIDCPassAccessToken", TBool false); ("SkipClaimsFromProfileURL", TBool false)]
   end) ++
  (if nonempty_str (ProviderCASecretName spec)
   then [("ProviderCASecret", TBool true); ("ProviderCASecretName", TStr (ProviderCASecretName spec))]
   else [("ProviderCASecret", TBool false)]) ++
  [("InsecureSkipVerify", TBool (negb (default true (VerifyProviderCertificate spec))));
   ("EnableK8sTokenValidation", TBool (default true (EnableK8sTokenValidation spec)));
   ("TokenReviewQPS", topt TInt (TokenReview spec ≫= QPS));
   ("TokenReviewBurst", topt TInt (TokenReview spec ≫= Burst));
   ("TokenReviewCacheTTL", topt (λ d, TStr (duration_String d)) (TokenReview spec ≫= CacheTTL))].

Definition compute_data (gatewayConfig : GatewayConfig) (hostname : string) : prog GwE (result template_data) :=
  let spec := gc_Spec gatewayConfig in
  ca ← provider_ca spec;
  match ca with
  | Err err => mret (Err err)
  | Ok providerCA =>
      hash ← CalculateRedirectConfigHash hostname;
      match hash with
      | Err err => mret (Err err)
      | Ok redirectConfigHash =>
          timeout ← resolveOCPRouteServerTimeout gatewayConfig;
          match timeout with
          | Err err => mret (Err err)
          | Ok serverTimeout =>
              tls ← trigger GetTLSProfile;
              mret (match tls with
                    | Err err => Err (wrapf "failed to resolve APIServer TLS profile" err)
                    | Ok (version, suites, curves) =>
                        Ok (insert_all
                              (shared_data spec hostname serverTimeout providerCA redirectConfigHash
                                 (computeLegacyRedirectInfo (Some gatewayConfig) hostname) ++
                               provider_data spec ++
                               [("TLSMinVersion", TStr version); ("TLSCipherSuite", TStr suites);
                                ("TLSCurvePreferences", TStr curves)]) ∅)
                    end)
          end
      end
  end.

Definition getTemplateData (s : GwState) : prog GwE (result template_data * GwState) :=
  let gatewayConfig := gs_Config s in
  rejected ← rejectUnsupportedKubernetesGatewaySpec kubernetes gatewayConfig;
  if (rejected : bool) then mret (Ok ∅, s)
  else
    hostname ← resolveGatewayHostname kubernetes gatewayConfig;
    match hostname with
    | Err err => mret (if err_is TagDomainRequired err then Ok ∅ else Err err, s)
    | Ok hostname =>
        match gs_TemplateData s with
        | Some data => mret (Ok data, s)
        | None =>
            computed ← compute_data gatewayConfig hostname;
            mret (computed, match computed with Ok data => with_template_data s data | Err _ => s end)
        end
    end.

Definition target_data (target : authProxyTarget) : tpairs :=
  [("DestinationRuleHost",
    TStr (if isDefault target then "*"
          else ProxyName target +:+ "." +:+ GetGatewayNamespace kubernetes +:+ ".svc.cluster.local"));
   ("GatewayName", TStr (tg_GatewayName target)); ("GatewayHostname", TStr (Hostname target));
   ("KubeAuthProxyServiceName", TStr (ProxyName target)); ("KubeAuthProxySecretsName", TStr (tg_SecretName target));
   ("KubeAuthProxyTLSName", TStr (TLSName target)); ("OAuthCallbackRouteName", TStr (CallbackName target));
   ("DestinationRuleName", TStr (tg_DestinationRuleName target)); ("AuthProxyCookieName", TStr (CookieName target));
   ("AuthProxyMaxReplicas", TInt (tg_MaxReplicas target));
   ("RedirectURL", TStr ("https://" +:+ Hostname target +:+ OAuthCallbackPath));
   ("GatewayFilters", TFilters [(FilterName target, tg_GatewayName target)])].

Definition authTargetTemplateData (base : template_data) (target : authProxyTarget) (authConfigHash : string)
    : template_data :=
  let hash := match base !! "ProviderCA" with
              | Some (TStr providerCA) =>
                  if nonempty_str providerCA then extendAuthConfigHash authConfigHash providerCA else authConfigHash
              | _ => authConfigHash
              end in
  <["AuthConfigHash" := TStr hash]> (insert_all (target_data target) base).

(** ** The resources of a proxy *)

Definition add_resource (r : GwResource) (s : GwState) : prog GwE (option goerr * GwState) :=
  err ← trigger (AddResource r);
  mret (err, match err with Some _ => s | None => with_resources s [r] end).

(** The Certificate of a proxy, on Kubernetes only. *)
Definition add_certificate (gatewayConfig : GatewayConfig) (target : authProxyTarget) (s : GwState)
    : prog GwE (option goerr * GwState) :=
  if negb kubernetes then mret (None, s)
  else
    let '(issuerName, issuerKind) := resolveIssuerRef Getenv (Certificate (gc_Spec gatewayConfig)) in
    added ← add_resource
      (RCertificate (TLSName target) (TLSName target)
         [ProxyName target +:+ "." +:+ GetGatewayNamespace kubernetes +:+ ".svc.cluster.local"] issuerName issuerKind) s;
    mret (fmap (M:=option) (wrapf "failed to add kube-auth-proxy Certificate") added.1, added.2).

Definition kubeAuthProxyCommonTemplates : list string :=
  [kubeAuthProxyServiceTemplate; kubeAuthProxyHTTPRouteTemplate; kubeAuthProxyHPATemplate;
   kubeAuthProxyServiceAccountTemplate; kubeAuthProxyClusterRoleBindingTemplate; destinationRuleTemplate].

(** A failure marks the default Gateway. *)
Definition mark_default_failure (target : authProxyTarget) (what : string) (err : goerr) : prog GwE unit :=
  if isDefault target then markGatewayNotReady (what +:+ ": " +:+ err_text err) else mret tt.

Definition add_oauth_client (authMode : string) (target : authProxyTarget) (data : gmap string string) (s : GwState)
    : prog GwE (option goerr * GwState) :=
  if negb (String.eqb authMode AuthModeIntegratedOAuth) then mret (None, s)
  else
    created ← createOAuthClient kubernetes (Hostname target) target data;
    match created with
    | Err err =>
        _ ← mark_default_failure target AuthProxyFailedOAuthClientMessage err;
        mret (Some (wrapf "failed to create OAuth client" err), s)
    | Ok client => mret (None, with_resources s [client])
    end.

(** The hash of the credentials. *)
Definition prepareAuthProxy (target : authProxyTarget) (authMode deploymentTemplate : string) (s : GwState)
    : prog GwE (result string * GwState) :=
  values ← getAuthProxySecretValues kubernetes authMode (tg_OIDC target) target;
  match values with
  | Err err => mret (Err (wrapf "failed to get secret values" err), s)
  | Ok (clientID, clientSecret, cookieSecret) =>
      created ← createSecret clientID clientSecret cookieSecret target;
      match created with
      | Err err =>
          _ ← mark_default_failure target AuthProxyFailedGenerateSecretMessage err;
          mret (Err (wrapf "failed to create auth proxy secret" err), s)
      | Ok data =>
          added ← add_resource (RSecret (tg_SecretName target) data) s;
          match added with
          | (Some err, s) => mret (Err (wrapf "failed to add auth proxy secret" err), s)
          | (None, s) =>
              client ← add_oauth_client authMode target data s;
              match client with
              | (Some err, s) => mret (Err err, s)
              | (None, s) =>
                  certificate ← add_certificate (gs_Config s) target s;
                  match certificate with
                  | (Some err, s) => mret (Err err, s)
                  | (None, s) =>
                      _ ← (if isDefault target
                           then MarkUnknown ReadyConditionType (Some NotReadyReason)
                                  (Some "Auth proxy resources are being deployed")
                           else mret tt);
                      mret (Ok (calculateAuthConfigHash data),
                            with_templates s (deploymentTemplate :: kubeAuthProxyCommonTemplates))
                  end
              end
          end
      end
  end.

(** ** Removal of proxies *)

Definition unmanaged (o : ManagedObject) : bool :=
  bool_decide (mo_Annotations o !! "opendatahub.io/managed" = Some "false").

(** [labels[k]], empty when absent. *)
Definition label (o : ManagedObject) (k : string) : string := default "" (mo_Labels o !! k).

Definition delete_managed (kind name what : string) : prog GwE (option goerr) :=
  err ← trigger (DeleteManaged kind name);
  mret (match err with
        | Some err => if err_is TagNotFound err then None else Some (wrapf ("failed to delete " +:+ what) err)
        | None => None
        end).

Definition deleteLegacyNetworkPolicy : prog GwE (option goerr) :=
  found ← trigger (GetManaged "NetworkPolicy" KubeAuthProxyName);
  match found with
  | Err err =>
      mret (if err_is TagNotFound err then None
            else Some (wrapf "failed to get legacy auth proxy NetworkPolicy" err))
  | Ok policy =>
      if negb (bool_decide (mo_Owners policy = [])) ||
         negb (String.eqb (label policy PlatformPartOf) (NormalizePartOfValue GatewayConfigKind)) ||
         negb (String.eqb (label policy K8SComponent) ComponentLabelValue) || unmanaged policy
      then mret None
      else delete_managed "NetworkPolicy" KubeAuthProxyName "legacy auth proxy NetworkPolicy"
  end.

Definition deleteKubeAuthProxyResource (kind name : string) (gatewayConfig : GatewayConfig) : prog GwE (option goerr) :=
  found ← trigger (GetManaged kind name);
  match found with
  | Err err =>
      mret (if err_is TagNotFound err then None else Some (wrapf "failed to get kube-auth-proxy resource" err))
  | Ok obj =>
      let owned := bool_decide (mo_Owners obj = []) || bool_decide (gc_UID gatewayConfig ∈ mo_Owners obj) in
      if negb owned || negb (String.eqb (label obj PlatformPartOf) (NormalizePartOfValue GatewayConfigKind)) ||
         unmanaged obj
      then mret None
      else delete_managed kind name "kube-auth-proxy resource"
  end.

Fixpoint delete_all (gatewayConfig : GatewayConfig) (l : list (string * string)) : prog GwE (option goerr) :=
  match l with
  | [] => mret None
  | (kind, name) :: l =>
      err ← deleteKubeAuthProxyResource kind name gatewayConfig;
      match err with Some err => mret (Some err) | None => delete_all gatewayConfig l end
  end.

(** Whether the authentication mode has no use for the proxy. *)
Definition proxy_unwanted (gatewayConfig : GatewayConfig) (authMode : string) : bool :=
  String.eqb authMode AuthModeNone ||
  (String.eqb authMode AuthModeOIDC && bool_decide (OIDC (gc_Spec gatewayConfig) = None)).

Definition proxy_resources (gatewayConfig : GatewayConfig) : list (string * string) :=
  let proxyNames :=
    KubeAuthProxyName ::
    ((λ ingress, ProxyName (additionalAuthProxyTarget ingress gatewayConfig)) <$>
       AdditionalIngresses (gc_Spec gatewayConfig)) in
  proxyNames ≫= λ name, [("Deployment", name); ("NetworkPolicy", name)].

Definition cleanupKubeAuthProxyResources (gatewayConfig : GatewayConfig) : prog GwE (option goerr) :=
  mode ← getGatewayAuthenticationMode kubernetes gatewayConfig;
  match mode with
  | Err err => mret (Some err)
  | Ok authMode =>
      if negb (proxy_unwanted gatewayConfig authMode) then mret None
      else delete_all gatewayConfig (proxy_resources gatewayConfig)
  end.

(** ** All targets *)

(** [createEnvoyFilter] and [createNetworkPolicy]: the template, or an early return. *)
Definition createEnvoyFilter (s : GwState) : prog GwE (option goerr * GwState) :=
  rejected ← rejectUnsupportedKubernetesGatewaySpec kubernetes (gs_Config s);
  if (rejected : bool) then mret (None, s)
  else
    unresolved ← isGatewayDomainUnresolved kubernetes (gs_Config s);
    mret (match unresolved with
          | Err err => (Some err, s)
          | Ok true => (None, s)
          | Ok false => (None, with_templates s [envoyFilterTemplate])
          end).

Definition createNetworkPolicy (s : GwState) : prog GwE (option goerr * GwState) :=
  rejected ← rejectUnsupportedKubernetesGatewaySpec kubernetes (gs_Config s);
  if (rejected : bool) then mret (None, s)
  else
    mode ← getGatewayAuthenticationMode kubernetes (gs_Config s);
    match mode with
    | Err err => mret (Some err, s)
    | Ok authMode =>
        if proxy_unwanted (gs_Config s) authMode then mret (None, s)
        else
          unresolved ← isGatewayDomainUnresolved kubernetes (gs_Config s);
          match unresolved with
          | Err err => mret (Some err, s)
          | Ok true => err ← deleteLegacyNetworkPolicy; mret (err, s)
          | Ok false => mret (None, with_templates s [networkPolicyTemplate])
          end
    end.

(** A copy of the request that has collected nothing yet. *)
Definition sub_request (s : GwState) : GwState := MkGwState (gs_Config s) (gs_Auth s) (gs_TemplateData s) [] [].

(** What preparing a target gave: a hash, or the reason and message of a failure after which
    only policies are rendered, or an error that ends the action. *)
Inductive Prepared :=
| Prep (authConfigHash reason msg : string)
| PrepStop (err : goerr).

Section targets.
Context `{StatusConditions}.

(** [rr.Conditions.GetCondition] and the mark, unless it is false already. *)
Definition mark_unless_false (msg : string) : prog GwE unit :=
  ready ← trigger (GetCondition ReadyConditionType);
  match ready with
  | Some c => if String.eqb (c_status c) ConditionFalse then mret tt else markGatewayNotReady msg
  | None => markGatewayNotReady msg
  end.

Definition prepare_target (mode deploymentTemplate : string) (only : bool) (target : authProxyTarget)
    (s sub : GwState) : prog GwE (Prepared * GwState * GwState) :=
  if String.eqb mode AuthModeNone then mret (Prep "" "" "", s, sub)
  else
    prepared ← prepareAuthProxy target mode deploymentTemplate sub;
    match prepared with
    | (Err err, _) =>
        if negb (err_is TagInvalidAuthenticationConfig err) && negb (err_is TagAlreadyOwned err) then
          mret (PrepStop err,
                recordAuthResult s target ConditionUnknown additionalIngressReasonStatusReadFailed (err_text err), sub)
        else
          let msg := "Authentication credentials could not be reconciled for " +:+ tg_SecretName target +:+ ": " +:+ err_text err in
          let reason := if String.eqb mode AuthModeOIDC && bool_decide (tg_OIDC target = None)
                        then additionalIngressReasonInvalidAuthenticationConfig
                        else additionalIngressReasonAuthenticationUnavailable in
          _ ← (if isDefault target then mark_unless_false msg else mret tt);
          mret (if isDefault target && only then PrepStop err else Prep "" reason msg, s, sub_request s)
    | (Ok hash, sub) =>
        mret (Prep hash "" "",
              (if isDefault target then s
               else recordAuthResult s target ConditionUnknown AdditionalIngressReconciliationPendingReason
                      "Authentication resources are being deployed"), sub)
    end.

(** Before the preparation: whether the target is skipped. *)
Definition begin_target (mode : string) (target : authProxyTarget) (s : GwState) : prog GwE (bool * GwState) :=
  if negb (isDefault target) then
    let s := if String.eqb mode AuthModeNone
             then recordAuthResult s target ConditionFalse additionalIngressReasonAuthenticationBlocked
                    "Authentication is unavailable; traffic is rejected until an authentication provider is configured"
             else s in
    mret (additionalIngressHasGatewayConflict (gs_Config s) (IngressName target), s)
  else if negb (String.eqb mode AuthModeNone) &&
          (negb (String.eqb mode AuthModeOIDC) || negb (bool_decide (tg_OIDC target = None))) then
    _ ← MarkUnknown ReadyConditionType None None;
    mret (false, s)
  else mret (false, s).

(** The policies, and the resources that the templates of [sub] give. *)
Definition render_target (base : template_data) (target : authProxyTarget) (hash reason msg : string)
    (s sub : GwState) : prog GwE (option goerr * GwState) :=
  filter ← createEnvoyFilter sub;
  match filter with
  | (Some err, _) => mret (Some err, s)
  | (None, sub) =>
      policy ← (if String.eqb msg "" || isDefault target then createNetworkPolicy sub else mret (None, sub));
      match policy with
      | (Some err, _) => mret (Some err, s)
      | (None, sub) =>
          rendered ← trigger (RenderTemplates (gs_Templates sub)
                                (authTargetTemplateData base target hash));
          mret (match rendered with
                | Err err =>
                    (Some (wrapf ("failed to render authentication resources for " +:+ tg_GatewayName target) err), s)
                | Ok objects =>
                    let s := with_resources s (gs_Resources sub ++ (RRendered <$> objects)) in
                    (None, if nonempty_str msg then recordAuthResult s target ConditionFalse reason msg else s)
                end)
      end
  end.

Definition prepare_one (mode deploymentTemplate : string) (base : template_data) (only : bool)
    (target : authProxyTarget) (s : GwState) : prog GwE (option goerr * GwState) :=
  begun ← begin_target mode target s;
  match begun with
  | (true, s) => mret (None, s)
  | (false, s) =>
      prepared ← prepare_target mode deploymentTemplate only target s (sub_request s);
      match prepared with
      | (PrepStop err, s, _) => mret (Some err, s)
      | (Prep hash reason msg, s, sub) => render_target base target hash reason msg s sub
      end
  end.

Fixpoint prepare_targets (mode deploymentTemplate : string) (base : template_data) (only : bool)
    (targets : list authProxyTarget) (s : GwState) : prog GwE (option goerr * GwState) :=
  match targets with
  | [] => mret (None, s)
  | target :: targets =>
      done ← prepare_one mode deploymentTemplate base only target s;
      match done with
      | (Some err, s) => mret (Some err, s)
      | (None, s) => prepare_targets mode deploymentTemplate base only targets s
      end
  end.

Definition any_failed (s : GwState) : bool := existsb failedPreparation (map_to_list (gs_Auth s)).*2.

Definition prepareAuthProxies (mode deploymentTemplate : string) (targets : list authProxyTarget) (s : GwState)
    : prog GwE (option action_error * GwState) :=
  data ← getTemplateData s;
  match data with
  | (Err err, s) => mret (Some (ActionErr err), s)
  | (Ok base, s) =>
      prepared ← prepare_targets mode deploymentTemplate base (length targets =? 1)%nat targets s;
      mret (match prepared with
            | (Some err, s) => (Some (ActionErr err), s)
            | (None, s) => (if any_failed s then Some (RequeueAfterError (30 * second)) else None, s)
            end)
  end.

Definition auth_targets (hostname : string) (gatewayConfig : GatewayConfig) : list authProxyTarget :=
  defaultAuthProxyTarget kubernetes hostname gatewayConfig ::
  ((λ ingress, additionalAuthProxyTarget ingress gatewayConfig) <$> AdditionalIngresses (gc_Spec gatewayConfig)).

Definition createKubeAuthProxyInfrastructure (s : GwState) : prog GwE (option action_error * GwState) :=
  let gatewayConfig := gs_Config s in
  rejected ← rejectUnsupportedKubernetesGatewaySpec kubernetes gatewayConfig;
  if (rejected : bool) then mret (None, s)
  else
    hostname ← resolveGatewayHostname kubernetes gatewayConfig;
    match hostname with
    | Err err =>
        if err_is TagDomainRequired err then
          err ← deleteLegacyNetworkPolicy;
          mret (fmap (M:=option) ActionErr err, s)
        else mret (Some (ActionErr err), s)
    | Ok hostname =>
        mode ← getGatewayAuthenticationMode kubernetes gatewayConfig;
        match mode with
        | Err err => mret (Some (ActionErr err), s)
        | Ok authMode =>
            if String.eqb authMode AuthModeOIDC then
              match OIDC (gc_Spec gatewayConfig) with
              | None =>
                  _ ← markGatewayNotReady AuthProxyOIDCModeWithoutConfigMessage;
                  match AdditionalIngresses (gc_Spec gatewayConfig) with
                  | [] =>
                      prepareAuthProxies AuthModeNone kubeAuthProxyDeploymentOauthTemplate
                        [defaultAuthProxyTarget kubernetes hostname gatewayConfig] s
                  | _ =>
                      prepareAuthProxies authMode kubeAuthProxyDeploymentOidcTemplate
                        (auth_targets hostname gatewayConfig) s
                  end
              | Some _ =>
                  prepareAuthProxies authMode kubeAuthProxyDeploymentOidcTemplate
                    (auth_targets hostname gatewayConfig) s
              end
            else
              _ ← (if String.eqb authMode AuthModeNone
                   then MarkTrue ReadyConditionType "Ready" AuthProxyExternalAuthNoDeploymentMessage
                   else mret tt);
              prepareAuthProxies authMode kubeAuthProxyDeploymentOauthTemplate (auth_targets hostname gatewayConfig) s
        end
    end.

End targets.

(** ** Garbage collection *)

Definition CertManagerCertificate : GroupVersionKind := MkGVK "cert-manager.io" "v1" "Certificate".

Definition gcResourceNames (t : authProxyTarget) : list (GroupVersionKind * string) :=
  [(MkGVK "apps" "v1" "Deployment", ProxyName t); (MkGVK "" "v1" "Service", ProxyName t);
   (MkGVK "" "v1" "ServiceAccount", ProxyName t);
   (MkGVK "networking.k8s.io" "v1" "NetworkPolicy", ProxyName t);
   (MkGVK "autoscaling" "v2" "HorizontalPodAutoscaler", ProxyName t);
   (MkGVK "" "v1" "Secret", tg_SecretName t);
   (MkGVK "oauth.openshift.io" "v1" "OAuthClient", tg_ClientID t);
   (MkGVK "gateway.networking.k8s.io" "v1" "HTTPRoute", CallbackName t);
   (MkGVK "networking.istio.io" "v1alpha3" "EnvoyFilter", FilterName t);
   (MkGVK "networking.istio.io" "v1" "DestinationRule", tg_DestinationRuleName t);
   (MkGVK "rbac.authorization.k8s.io" "v1" "ClusterRoleBinding", ProxyName t +:+ "-tokenreview");
   (CertManagerCertificate, TLSName t)].

(** [gc.DefaultObjectPredicate] is the framework's. *)
Definition gatewayAuthResourceCollectable (DefaultObjectPredicate : Unstructured → result bool) (s : GwState)
    (resource : Unstructured) : result bool :=
  if existsb (λ r, failedPreparation r &&
                   bool_decide ((u_gvk resource, u_name resource) ∈ gcResourceNames (Target r)))
       (map_to_list (gs_Auth s)).*2
  then Ok false
  else DefaultObjectPredicate resource.

End actions.
