(* ===== verification/GatewayActions.v ===== *)
(** * Gateway service: Gateways, certificates, Routes and the status of the GatewayConfig

    The infrastructure half of [gateway_controller_actions.go] and [gateway_support.go],
    [gateway_certmanager.go], [ocp_routes.go] and [dashboard_redirects.go] (directory
    [internal/controller/services/gateway]), and the actions in the order in which
    [gateway_controller.go] registers them.

    Copying the ingress certificate and creating a self-signed one ([pkg/cluster/cert.go]) are
    calls; rendering a Route from its template is the call [RenderRoute]. *)

From S2P Require Import Prelude Effects Conditions Unstructured SharedPlatform PlatformConfig Admission Secrets Sha256 Gateway GatewayStatus GatewayAuth.

(** ** Constants *)

Definition DefaultGatewayListenerName : string := "https".
Definition LegacyGatewayListenerName : string := "https-legacy".
Definition GatewayInfraConfigMapName : string := "data-science-gateway-config".
Definition GatewayServiceTLSSecretName : string := "data-science-gateway-service-tls".
Definition IstioRevisionLabel : string := "istio.io/rev".
Definition httpsHealthProbeProtocolAnnotation : string :=
  "service.beta.kubernetes.io/port_443_health-probe_protocol".
Definition GatewayNotFoundMessage : string := "Gateway resource not found".
Definition GatewayNotReadyMessage : string := "Gateway is not ready".
Definition GatewayReadyMessage : string := "Gateway is ready".
Definition ocpRouteTemplate : string := "resources/gateway-ocp-route.tmpl.yaml".

Definition deprecatedNetworkPolicyConfigConditionType : string := "GatewayConfigNetworkPolicyDeprecated".
Definition deprecatedNetworkPolicyConfigReason : string := "DeprecatedConfigurationIgnored".

(** ** A deprecated setting *)

Definition reportDeprecatedNetworkPolicyConfig (gc : GatewayConfig) : prog GwE unit :=
  match NetworkPolicy (gc_Spec gc) with
  | None => mret tt
  | Some _ =>
      trigger (MarkCondition
        (MkMark deprecatedNetworkPolicyConfigConditionType ConditionTrue (Some deprecatedNetworkPolicyConfigReason)
           (Some "spec.networkPolicy is deprecated and ignored; the operator always manages the kube-auth-proxy NetworkPolicy")
           (Some SeverityInfo) (Some (gc_Generation gc))))
  end.

Section actions.
Context `{Nested} (kubernetes : bool).
Variable Getenv : string → string.
Variables ApplicationNamespace GetRelease : string.

(** ** Gateways *)

Definition createGatewayClass (s : GwState) : prog GwE (option goerr * GwState) :=
  add_resource (RGatewayClass GatewayClassName (GetGatewayControllerName kubernetes)) s.

Definition allowed_namespaces : list string := [GetGatewayNamespace kubernetes; ApplicationNamespace].

Definition gatewayHTTPSListener (name secretName : string) : Listener :=
  MkListener name secretName None allowed_namespaces.

Definition with_hostname (l : Listener) (hostname : string) : Listener :=
  MkListener (l_Name l) (l_SecretName l) (Some hostname) (l_Namespaces l).

Definition managedGateway (name : string) (listeners : list Listener) (parameters : option string)
    (annotations : gmap string string) : GatewayManifest :=
  MkGatewayManifest name {[IstioRevisionLabel := GetIstioRevisionValue kubernetes]} listeners parameters annotations.

Definition newline : string := String (Ascii.ascii_of_nat 10) EmptyString.

Definition serviceConfig (serviceTLSSecretName : string) : string :=
  "metadata:" +:+ newline +:+ "  annotations:" +:+ newline +:+
  "    service.beta.openshift.io/serving-cert-secret-name: " +:+ dquote +:+ serviceTLSSecretName +:+ dquote +:+ newline +:+
  "spec:" +:+ newline +:+ "  type: ClusterIP" +:+ newline.

(** Adds the ConfigMap; the Gateway then refers to it by its name. *)
Definition configureClusterIPInfrastructure (configMapName serviceTLSSecretName : string) (s : GwState)
    : prog GwE (option goerr * GwState) :=
  add_resource (RConfigMap configMapName {[PlatformPartOf := PartOfGatewayConfig]}
                  {["service" := serviceConfig serviceTLSSecretName]}) s.

Section conflicts.
Context `{StatusConditions}.

Definition add_additional_gateway (ingress : AdditionalIngress) (s : GwState) : prog GwE (option goerr * GwState) :=
  let name := ing_Name ingress in
  if additionalIngressHasGatewayConflict (gs_Config s) name then mret (None, s)
  else
    let secretName := additionalGatewayServiceTLSSecretName name in
    let configMapName := additionalGatewayInfrastructureConfigMapName name in
    configured ← configureClusterIPInfrastructure configMapName secretName s;
    match configured with
    | (Some err, s) => mret (Some err, s)
    | (None, s) =>
        added ← add_resource
          (RGateway (managedGateway name [gatewayHTTPSListener DefaultGatewayListenerName secretName]
                       (Some configMapName) ∅)) s;
        mret (fmap (M:=option) (wrapf ("failed to add Gateway for additional ingress " +:+ quote name)) added.1, added.2)
    end.

(** A loop that returns at the first error. *)
Fixpoint for_each {A} (f : A → GwState → prog GwE (option goerr * GwState)) (l : list A) (s : GwState)
    : prog GwE (option goerr * GwState) :=
  match l with
  | [] => mret (None, s)
  | a :: l =>
      done ← f a s;
      match done with (Some err, s) => mret (Some err, s) | (None, s) => for_each f l s end
  end.

Definition createAdditionalGateways (s : GwState) : prog GwE (option goerr * GwState) :=
  for_each add_additional_gateway (AdditionalIngresses (gc_Spec (gs_Config s))) s.

(** The listeners of the default Gateway. *)
Definition default_listeners (ingressMode certSecretName domain legacyDomain : string) : list Listener :=
  if String.eqb certSecretName "" then []
  else
    let ocpRoute := String.eqb ingressMode IngressModeOcpRoute in
    let listener name := gatewayHTTPSListener name certSecretName in
    (if ocpRoute then listener DefaultGatewayListenerName
     else with_hostname (listener DefaultGatewayListenerName) domain) ::
    (if negb ocpRoute && nonempty_str legacyDomain
     then [with_hostname (listener LegacyGatewayListenerName) legacyDomain] else []).

Definition default_gateway (ingressMode certSecretName domain legacyDomain : string) : GatewayManifest :=
  let ocpRoute := String.eqb ingressMode IngressModeOcpRoute in
  managedGateway (GetDefaultGatewayName kubernetes) (default_listeners ingressMode certSecretName domain legacyDomain)
    (if ocpRoute then Some GatewayInfraConfigMapName else None)
    (if negb ocpRoute && kubernetes then {[httpsHealthProbeProtocolAnnotation := "Tcp"]} else ∅).

Definition createGateway (certSecretName domain legacyDomain : string) (s : GwState)
    : prog GwE (option goerr * GwState) :=
  let ingressMode := IngressMode (gc_Spec (gs_Config s)) in
  configured ← (if String.eqb ingressMode IngressModeOcpRoute
                then configureClusterIPInfrastructure GatewayInfraConfigMapName GatewayServiceTLSSecretName s
                else mret (None, s));
  match configured with
  | (Some err, s) => mret (Some err, s)
  | (None, s) =>
      added ← add_resource (RGateway (default_gateway ingressMode certSecretName domain legacyDomain)) s;
      match added with
      | (Some err, s) => mret (Some err, s)
      | (None, s) => createAdditionalGateways s
      end
  end.

(** *** Certificates *)

(** The name of the Secret. *)
Definition handleCertificates (domain : string) (s : GwState) : prog GwE (result string * GwState) :=
  let gatewayConfig := gs_Config s in
  let certType := effectiveCertificateType kubernetes gatewayConfig in
  let secretName := gatewayCertificateSecretName gatewayConfig in
  if String.eqb certType OpenshiftDefaultIngress then
    err ← trigger (PropagateIngressCertificate secretName);
    mret (match err with
          | Some err => Err (wrapf "failed to propagate default ingress certificate" err)
          | None => Ok secretName
          end, s)
  else if String.eqb certType SelfSigned then
    if kubernetes then
      let '(issuerName, issuerKind) := resolveIssuerRef Getenv (Certificate (gc_Spec gatewayConfig)) in
      added ← add_resource (RCertificate secretName secretName [domain] issuerName issuerKind) s;
      mret (match added.1 with
            | Some err => Err (wrapf "failed to add gateway Certificate" err)
            | None => Ok secretName
            end, added.2)
    else
      err ← trigger (CreateSelfSignedCertificate secretName domain);
      mret (match err with
            | Some err => Err (wrapf "failed to create self-signed certificate" err)
            | None => Ok secretName
            end, s)
  else if String.eqb certType Provided then mret (Ok secretName, s)
  else mret (Err (errorf ("unsupported certificate type: " +:+ certType)), s).

(** *** Conflicts of additional ingresses *)

(** [strings.EqualFold], on the ASCII letters of a host name. *)
Definition EqualFold (a b : string) : bool := String.eqb (to_lower a) (to_lower b).

(** Why an ingress conflicts: reason and message. *)
Definition find_conflict (hostname legacyHostname : string) (gc : GatewayConfig) (ingress : AdditionalIngress)
    : prog GwE (result (option (string * string))) :=
  let name := ing_Name ingress in
  if EqualFold (ing_Hostname ingress) hostname || EqualFold (ing_Hostname ingress) legacyHostname then
    mret (Ok (Some (additionalIngressReasonHostnameConflict,
                    "additional ingress " +:+ quote name +:+ " hostname " +:+ quote (ing_Hostname ingress) +:+
                    " conflicts with a managed Gateway hostname")))
  else
    manageable ← canManageGatewayResource kubernetes gc "Gateway" name;
    match manageable with
    | Err err => mret (Err (wrapf ("failed to validate additional Gateway " +:+ quote name +:+ " ownership") err))
    | Ok false =>
        mret (Ok (Some (additionalIngressReasonOwnershipConflict,
                        "additional Gateway " +:+ quote name +:+ " already exists and is not owned by GatewayConfig " +:+
                        quote (gc_Name gc))))
    | Ok true =>
        let configMapName := additionalGatewayInfrastructureConfigMapName name in
        manageable ← canManageGatewayResource kubernetes gc "ConfigMap" configMapName;
        mret (match manageable with
              | Err err =>
                  Err (wrapf ("failed to validate additional Gateway infrastructure ConfigMap " +:+ quote configMapName +:+
                              " ownership") err)
              | Ok false =>
                  Ok (Some (additionalIngressReasonOwnershipConflict,
                            "additional Gateway infrastructure ConfigMap " +:+ quote configMapName +:+
                            " already exists and is not owned by GatewayConfig " +:+ quote (gc_Name gc)))
              | Ok true => Ok None
              end)
    end.

Variable range_results : gmap string authProxyResult → list authProxyResult.

Definition check_conflict (hostname legacyHostname : string) (ingress : AdditionalIngress) (s : GwState)
    : prog GwE (option goerr * GwState) :=
  let name := ing_Name ingress in
  let set status reason msg gc :=
    setAdditionalIngressCondition name AdditionalIngressGatewayReadyConditionType status reason msg gc in
  found ← find_conflict hostname legacyHostname (gs_Config s) ingress;
  match found with
  | Err err => mret (Some err, s)
  | Ok (Some (reason, msg)) =>
      s ← updateAdditionalGatewaysReadyCondition range_results
            (with_config s (set ConditionFalse reason msg (gs_Config s)));
      mret (None, s)
  | Ok None =>
      mret (None,
            if additionalIngressHasGatewayConflict (gs_Config s) name
            then with_config s (set ConditionUnknown AdditionalIngressReconciliationPendingReason
                                  "Gateway conflict has been resolved" (gs_Config s))
            else s)
  end.

(** *** The action *)

Definition failing {A} (what : string) (p : prog GwE (option goerr * A)) : prog GwE (option goerr * A) :=
  r ← p; mret (fmap (M:=option) (wrapf what) r.1, r.2).

(** [if err := first; err != nil { return err }], then [next]. *)
Definition and_then {A} (first : prog GwE (option goerr * A)) (next : A → prog GwE (option goerr * A))
    : prog GwE (option goerr * A) :=
  r ← first;
  match r with (Some err, s) => mret (Some err, s) | (None, s) => next s end.

Definition detect_mode (s : GwState) : prog GwE (option goerr * GwState) :=
  if nonempty_str (IngressMode (gc_Spec (gs_Config s))) then mret (None, s)
  else
    detected ← detectAndSetIngressMode kubernetes (gs_Config s);
    mret (fmap (M:=option) (wrapf "failed to detect ingress mode") detected.1, with_config s detected.2).

Definition gateway_secret (hostname : string) (s : GwState) : prog GwE (result string * GwState) :=
  if String.eqb (IngressMode (gc_Spec (gs_Config s))) IngressModeOcpRoute
  then mret (Ok GatewayServiceTLSSecretName, s)
  else
    handled ← handleCertificates hostname s;
    mret (wrap_result "failed to handle certificates" handled.1, handled.2).

Definition build_infrastructure (hostname : string) (s : GwState) : prog GwE (option goerr * GwState) :=
  let legacyHostname := LegacyHostname (computeLegacyRedirectInfo (Some (gs_Config s)) hostname) in
  and_then (for_each (check_conflict hostname legacyHostname) (AdditionalIngresses (gc_Spec (gs_Config s))) s) (λ s,
  and_then (err ← reconcileGatewayForModeChange kubernetes (IngressMode (gc_Spec (gs_Config s)));
            mret (fmap (M:=option) (wrapf "failed to reconcile Gateway for mode change") err, s)) (λ s,
  and_then (failing "failed to create GatewayClass" (createGatewayClass s)) (λ s,
  secret ← gateway_secret hostname s;
  match secret with
  | (Err err, s) => mret (Some err, s)
  | (Ok certSecretName, s) =>
      failing "failed to create Gateway" (createGateway certSecretName hostname legacyHostname s)
  end))).

Section validated.
Context `{Validators}.

Definition createGatewayInfrastructure (s : GwState) : prog GwE (option goerr * GwState) :=
  rejected ← rejectUnsupportedKubernetesGatewaySpec kubernetes (gs_Config s);
  if (rejected : bool) then mret (None, s)
  else
    and_then (detect_mode s) (λ s,
    match ValidateAdditionalIngresses (gc_Spec (gs_Config s)) with
    | Some err => mret (Some (wrapf "invalid additional ingresses" err), s)
    | None =>
        hostname ← resolveGatewayHostname kubernetes (gs_Config s);
        match hostname with
        | Err err => mret (if err_is TagDomainRequired err then None else Some err, s)
        | Ok hostname => build_infrastructure hostname s
        end
    end).

End validated.

(** ** OpenShift Routes *)

Definition route_data (ingress : AdditionalIngress) : RouteData :=
  MkRouteData (ing_Name ingress) (GetGatewayNamespace kubernetes) (ing_Hostname ingress)
    (GetGatewayServiceFullName (ing_Name ingress)) StandardHTTPSPort (gatewayRouteLabels (RouteLabels ingress)) "".

Definition record_route (s : GwState) (name status reason msg : string) : GwState :=
  with_config s (recordAdditionalIngressRouteCondition (gs_Config s) name status reason msg).

Definition create_route (ingress : AdditionalIngress) (s : GwState) : prog GwE (option goerr * GwState) :=
  let name := ing_Name ingress in
  if additionalIngressHasGatewayConflict (gs_Config s) name then mret (None, s)
  else
    rendered ← trigger (RenderRoute (route_data ingress));
    match rendered with
    | Err err =>
        mret (Some (wrapf ("failed to render additional ingress Route for " +:+ quote name) err),
              record_route s name ConditionUnknown additionalIngressReasonNotReady "The bridge Route could not be rendered")
    | Ok routeName =>
        manageable ← canManageGatewayResource kubernetes (gs_Config s) "Route" routeName;
        match manageable with
        | Err err =>
            mret (Some (wrapf ("failed to verify additional ingress Route " +:+ quote routeName +:+ " ownership") err), s)
        | Ok false =>
            mret (None, record_route s name ConditionFalse additionalIngressReasonOwnershipConflict
                          ("Route " +:+ quote routeName +:+ " is not controlled by this GatewayConfig"))
        | Ok true =>
            added ← add_resource (RRoute routeName (route_data ingress)) s;
            mret (match added with
                  | (Some err, s) =>
                      (Some (wrapf ("failed to add additional ingress Route for " +:+ quote name) err),
                       record_route s name ConditionUnknown additionalIngressReasonNotReady
                         "The bridge Route could not be added to the desired resources")
                  | (None, s) => (None, s)
                  end)
        end
    end.

Definition createAdditionalIngressRoutes (s : GwState) : prog GwE (option goerr * GwState) :=
  for_each create_route (AdditionalIngresses (gc_Spec (gs_Config s))) s.

Definition createOCPRoutes (s : GwState) : prog GwE (option goerr * GwState) :=
  let gatewayConfig := gs_Config s in
  rejected ← rejectUnsupportedKubernetesGatewaySpec kubernetes gatewayConfig;
  if (rejected : bool) then mret (None, s)
  else if negb (String.eqb (IngressMode (gc_Spec gatewayConfig)) IngressModeOcpRoute) then mret (None, s)
  else
    unresolved ← isGatewayDomainUnresolved kubernetes gatewayConfig;
    match unresolved with
    | Err err => mret (Some err, s)
    | Ok true =>
        mret (None, with_config s
                      (recordAllAdditionalIngressRouteConditions gatewayConfig
                         (AdditionalIngresses (gc_Spec gatewayConfig)) additionalIngressReasonDependencyUnavailable
                         "Gateway domain is not available yet"))
    | Ok false => createAdditionalIngressRoutes (with_templates s [ocpRouteTemplate])
    end.

End conflicts.

(** ** Dashboard redirects *)

Definition DashboardRedirectsAnnotation : string := "platform.opendatahub.io/dashboard-redirects".
Definition DashboardRedirectsDisabledValue : string := "disabled".

Definition dashboard_templates : list string :=
  [dashboardRedirectConfigMapTemplate; "resources/dashboard-redirect-networkpolicy.tmpl.yaml";
   "resources/dashboard-redirect-deployment.tmpl.yaml"; "resources/dashboard-redirect-service.tmpl.yaml";
   "resources/dashboard-redirect-dashboard-route.tmpl.yaml"; "resources/dashboard-redirect-legacy-gateway-route.tmpl.yaml"].

Definition redirect_resources : list (string * string) :=
  [("Deployment", DashboardRedirectName); ("Service", DashboardRedirectName);
   ("ConfigMap", DashboardRedirectConfigName); ("NetworkPolicy", DashboardRedirectName);
   ("Route", GetDashboardRouteName GetRelease); ("Route", LegacyGatewaySubdomain)].

Definition delete_redirect (kind name : string) : prog GwE (option goerr) :=
  found ← trigger (GetRedirectResource kind name);
  match found with
  | Some err =>
      mret (if err_is TagNotFound err || err_is TagNoMatch err then None
            else Some (wrapf ("failed to get dashboard redirect resource " +:+ kind +:+ "/" +:+ name) err))
  | None =>
      deleted ← trigger (DeleteRedirectResource kind name);
      mret (match deleted with
            | Some err =>
                if err_is TagNotFound err then None
                else Some (wrapf ("failed to delete dashboard redirect resource " +:+ kind +:+ "/" +:+ name) err)
            | None => None
            end)
  end.

Fixpoint delete_redirects (l : list (string * string)) : prog GwE (option goerr) :=
  match l with
  | [] => mret None
  | (kind, name) :: l =>
      err ← delete_redirect kind name;
      match err with Some err => mret (Some err) | None => delete_redirects l end
  end.

Definition deleteDashboardRedirectResources : prog GwE (option goerr) := delete_redirects redirect_resources.

Definition delete_and_skip : prog GwE (result (list string)) :=
  err ← deleteDashboardRedirectResources;
  mret (match err with Some err => Err err | None => Ok [] end).

(** The templates to render. *)
Definition createDashboardRedirects (gatewayConfig : GatewayConfig) : prog GwE (result (list string)) :=
  if kubernetes then mret (Ok [])
  else if bool_decide (gc_Annotations gatewayConfig !! DashboardRedirectsAnnotation = Some DashboardRedirectsDisabledValue)
  then delete_and_skip
  else if String.eqb (Getenv "DISABLE_DASHBOARD_REDIRECTS") "true" then delete_and_skip
  else
    dashboard ← trigger GetDashboard;
    match dashboard with
    | Err err =>
        if err_is TagNotFound err || err_is TagNoMatch err then delete_and_skip
        else mret (Err (wrapf "failed to check Dashboard CR" err))
    | Ok _ => mret (Ok dashboard_templates)
    end.

Definition createDashboardRedirectsAction (s : GwState) : prog GwE (option goerr * GwState) :=
  templates ← createDashboardRedirects (gs_Config s);
  mret (match templates with Err err => (Some err, s) | Ok l => (None, with_templates s l) end).

(** ** Status *)

(** Of the conditions of a Certificate, the first [Ready] one decides. *)
Definition value_eqb (v : value) (s : string) : bool :=
  match v with VString s' => String.eqb s' s | _ => false end.

Definition is_ready_condition (v : value) : option value_map :=
  match v with VMap m => if value_eqb (map_get m "type") "Ready" then Some m else None | _ => None end.

Definition nonempty_value (v : value) : option string :=
  match v with VString s => if nonempty_str s then Some s else None | _ => None end.

(** [None]: the certificate is ready. *)
Definition certificate_verdict (generation : Z) (found : option (list value)) : option string :=
  match head (omap is_ready_condition (default [] found)) with
  | None => Some "issuance is pending"
  | Some c =>
      if value_eqb (map_get c "status") "True" then
        match map_get c "observedGeneration" with
        | VInt g => if (g =? generation)%Z then None
                    else Some "waiting for cert-manager to observe the current generation"
        | _ => Some "waiting for cert-manager to observe the current generation"
        end
      else
        match nonempty_value (map_get c "message"), nonempty_value (map_get c "reason") with
        | Some detail, _ => Some detail
        | None, Some reason => Some reason
        | None, None => Some "issuance is pending"
        end
  end.

Definition has_tls_data (data : gmap string string) : bool :=
  nonempty_str (default "" (data !! "tls.crt")) && nonempty_str (default "" (data !! "tls.key")).

(** The message says why the certificate is not usable; the empty one that it is. *)
Definition checkCertManagerCertificate (name : string) : prog GwE (result string) :=
  let key := gatewayKey kubernetes name in
  found ← trigger (GetCertificate name);
  match found with
  | Err err =>
      mret (if err_is TagNotFound err then Ok ("waiting for Certificate " +:+ key)
            else Err (wrapf ("failed to get Certificate " +:+ key) err))
  | Ok (generation, object) =>
      match NestedSlice object ["status"; "conditions"] with
      | Err err => mret (Err (wrapf ("failed to read Certificate " +:+ key +:+ " conditions") err))
      | Ok conditions =>
          match certificate_verdict generation conditions with
          | Some msg => mret (Ok ("Certificate " +:+ key +:+ " is not ready: " +:+ msg))
          | None =>
              secret ← trigger (GetSecretData (GetGatewayNamespace kubernetes) name);
              mret (match secret with
                    | Err err =>
                        if err_is TagNotFound err then Ok ("waiting for TLS Secret " +:+ key)
                        else Err (wrapf ("failed to get TLS Secret " +:+ key) err)
                    | Ok data =>
                        if has_tls_data data then Ok ""
                        else Ok ("TLS Secret " +:+ key +:+ " is missing tls.crt or tls.key")
                    end)
          end
      end
  end.

Definition checkGatewayAuthentication (target : authProxyTarget) : prog GwE (result string) :=
  if negb kubernetes || bool_decide (tg_OIDC target = None) then mret (Ok "")
  else
    message ← checkCertManagerCertificate (TLSName target);
    match message with
    | Err err => mret (Err err)
    | Ok message =>
        if nonempty_str message then mret (Ok message) else checkKubeAuthProxyDeployment kubernetes (ProxyName target)
    end.

Definition self_signed (spec : GatewayConfigSpec) : bool :=
  match Certificate spec with
  | None => true
  | Some cert => String.eqb (cert_Type cert) "" || String.eqb (cert_Type cert) SelfSigned
  end.

(** A check that stops with a message, or an error. *)
Definition checked (check : prog GwE (result string)) (next : prog GwE (option goerr)) : prog GwE (option goerr) :=
  message ← check;
  match message with
  | Err err => mret (Some err)
  | Ok message => if nonempty_str message then _ ← markGatewayNotReady message; mret None else next
  end.

Definition mark_ready_unless_false : prog GwE unit :=
  existing ← trigger (GetCondition ReadyConditionType);
  match existing with
  | Some c => if String.eqb (c_status c) ConditionFalse then mret tt
              else MarkTrue ReadyConditionType "Ready" GatewayReadyMessage
  | None => MarkTrue ReadyConditionType "Ready" GatewayReadyMessage
  end.

Definition observe_gateway (gatewayConfig : GatewayConfig) : prog GwE (option goerr) :=
  found ← trigger (GetGateway (GetDefaultGatewayName kubernetes));
  match found with
  | Err err =>
      if err_is TagNotFound err then
        _ ← markGatewayNotReady GatewayNotFoundMessage;
        mret None
      else mret (Some (wrapf "failed to get Gateway" err))
  | Ok gateway =>
      checked (if kubernetes && self_signed (gc_Spec gatewayConfig)
               then checkCertManagerCertificate (gatewayCertificateSecretName gatewayConfig)
               else mret (Ok ""))
        (checked (checkGatewayAuthentication (defaultAuthProxyTarget kubernetes "" gatewayConfig))
           (_ ← (if isGatewayReady gateway then mark_ready_unless_false
                 else markGatewayNotReady GatewayNotReadyMessage);
            mret None))
  end.

Definition with_domain (gc : GatewayConfig) (domain : string) : GatewayConfig :=
  MkGatewayConfig (gc_Name gc) (gc_UID gc) (gc_Generation gc) (gc_Annotations gc) (gc_Spec gc) domain (gc_Statuses gc).

Definition syncGatewayConfigStatus (s : GwState) : prog GwE (option goerr * GwState) :=
  let gatewayConfig := gs_Config s in
  rejected ← rejectUnsupportedKubernetesGatewaySpec kubernetes gatewayConfig;
  if (rejected : bool) then mret (None, s)
  else
    domain ← GetGatewayDomain kubernetes;
    match domain with
    | Err err =>
        mret (if err_is TagDomainRequired err then (None, with_config s (with_domain gatewayConfig ""))
              else (Some (wrapf "failed to calculate gateway domain" err), s))
    | Ok domain =>
        err ← observe_gateway gatewayConfig;
        mret (err, with_config s (with_domain gatewayConfig domain))
    end.

(** ** Watched Secrets *)

(** A Secret by name and namespace; [gc] is what reading the GatewayConfig gave. *)
Definition IsGatewayReferencedSecret (gc : result GatewayConfig) (name namespace gatewayNamespace : string) : bool :=
  match gc with
  | Err _ => false
  | Ok gc =>
      let spec := gc_Spec gc in
      let refers ref ns := String.eqb name (sel_Name ref) && String.eqb namespace ns in
      existsb (λ ingress, match Auth_OIDC (Auth ingress) with
                          | Some oidc => refers (ClientSecretRef oidc) (authSecretNamespace kubernetes (SecretNamespace oidc))
                          | None => false
                          end) (AdditionalIngresses spec) ||
      match OIDC spec with
      | Some oidc => refers (oidc_ClientSecretRef oidc)
                       (if String.eqb (oidc_SecretNamespace oidc) "" then gatewayNamespace else oidc_SecretNamespace oidc)
      | None => false
      end ||
      (nonempty_str (ProviderCASecretName spec) && String.eqb name (ProviderCASecretName spec) &&
       String.eqb namespace gatewayNamespace)
  end.

Definition IsXKSCertManagerSecret (gc : result GatewayConfig) (name namespace gatewayNamespace : string) : bool :=
  if negb kubernetes || negb (String.eqb namespace gatewayNamespace) then false
  else
    match gc with
    | Err _ => false
    | Ok gc =>
        (negb (bool_decide (OIDC (gc_Spec gc) = None)) && String.eqb name KubeAuthProxyTLSName) ||
        (self_signed (gc_Spec gc) && String.eqb name (gatewayCertificateSecretName gc))
    end.

End actions.
