(* ===== verification/GatewayAuthTheorems.v ===== *)
(** * Gateway service: properties of the authentication proxies and of the Gateways

    The names of the proxies never meet, failed proxies are protected from garbage collection
    and nothing else is, the session key survives, only proxies of this operator are removed,
    every Secret that is read is also watched, and a Gateway is left alone in its own mode. *)

From S2P Require Import Prelude Effects Conditions Unstructured SharedPlatform PlatformConfig Admission Secrets Sha256 Gateway GatewayStatus GatewayAuth GatewayActions.

(** ** Names of targets *)

Lemma append_cons a s t : String a s +:+ t = String a (s +:+ t).
Proof. done. Qed.

Lemma append_nil t : "" +:+ t = t.
Proof. done. Qed.

Lemma substring_append s t n : n = String.length s → String.substring n (String.length t) (s +:+ t) = t.
Proof.
  intros ->. induction s as [|a s IH]; [|exact IH]. rewrite append_nil.
  induction t as [|b t IH]; cbn; [done|]. cbn in IH. by rewrite IH.
Qed.

Lemma append_inj_r s s' t : s +:+ t = s' +:+ t → s = s'.
Proof.
  revert s'. induction s as [|a s IH]; intros [|b s'] Heq; [done|..].
  - apply (f_equal String.length) in Heq. rewrite !length_append in Heq. cbn in Heq. lia.
  - apply (f_equal String.length) in Heq. rewrite !length_append in Heq. cbn in Heq. lia.
  - rewrite !append_cons in Heq. injection Heq as -> Heq. by rewrite (IH _ Heq).
Qed.

(** A text with another suffix is not the name with this one. *)
Lemma suffix_ne s t u :
  String.substring (String.length u - String.length t) (String.length t) u ≠ t → u ≠ s +:+ t.
Proof.
  intros Hne ->. apply Hne. rewrite length_append. apply substring_append. lia.
Qed.

(** The resources of a target, as a function of how its names are made. *)
Lemma additional_names_differ config config' i i' p :
  p ∈ gcResourceNames (additionalAuthProxyTarget i config) →
  p ∈ gcResourceNames (additionalAuthProxyTarget i' config') → ing_Name i = ing_Name i'.
Proof.
  unfold gcResourceNames, additionalAuthProxyTarget, additionalGatewayEnvoyFilterName. cbn.
  rewrite !elem_of_cons, !elem_of_nil. intros Hp Hp'. destruct_or?; subst p; simplify_eq;
    repeat match goal with
    | H : _ +:+ ?t = _ +:+ ?t |- _ => apply append_inj_r in H
    | H : ?s +:+ _ = ?s +:+ _ |- _ => apply (inj (String.append s)) in H
    end; done.
Qed.

Lemma default_names_differ kubernetes hostname config i p :
  p ∈ gcResourceNames (defaultAuthProxyTarget kubernetes hostname config) →
  p ∈ gcResourceNames (additionalAuthProxyTarget i config) → False.
Proof.
  unfold gcResourceNames, additionalAuthProxyTarget, defaultAuthProxyTarget, additionalGatewayEnvoyFilterName. cbn.
  rewrite !elem_of_cons, !elem_of_nil. intros Hp Hp'. destruct_or?; subst p; simplify_eq;
    match goal with
    | H : ?u = ing_Name i +:+ ?t |- _ => by apply (suffix_ne (ing_Name i) t u) in H
    | H : _ = _ +:+ _ |- _ => apply (f_equal String.length) in H; rewrite ?length_append in H; cbn in H; lia
    end.
Qed.

(** Two targets of one configuration share a resource only if they are the same. *)
Lemma targets_disjoint kubernetes hostname config t t' p :
  NoDup (ing_Name <$> AdditionalIngresses (gc_Spec config)) →
  t ∈ auth_targets kubernetes hostname config → t' ∈ auth_targets kubernetes hostname config →
  p ∈ gcResourceNames t → p ∈ gcResourceNames t' → t = t'.
Proof.
  intros Hnd Ht Ht' Hp Hp'. unfold auth_targets in *. apply elem_of_cons in Ht, Ht'.
  destruct Ht as [->|(i & -> & Hi)%list_elem_of_fmap], Ht' as [->|(i' & -> & Hi')%list_elem_of_fmap].
  - done.
  - by destruct (default_names_differ _ _ _ _ _ Hp Hp').
  - by destruct (default_names_differ _ _ _ _ _ Hp' Hp).
  - f_equal. apply (NoDup_fmap_inj ing_Name _ _ _ Hnd Hi Hi'). by apply (additional_names_differ config config _ _ p).
Qed.

(** The target's own preparation failed in this reconciliation. *)
Definition target_failed (s : GwState) (t : authProxyTarget) : Prop :=
  ∃ name r, gs_Auth s !! name = Some r ∧ Target r = t ∧ failedPreparation r = true.

Lemma protected_iff s resource :
  existsb (λ r, failedPreparation r && bool_decide ((u_gvk resource, u_name resource) ∈ gcResourceNames (Target r)))
    (map_to_list (gs_Auth s)).*2 = true ↔
  ∃ t, target_failed s t ∧ (u_gvk resource, u_name resource) ∈ gcResourceNames t.
Proof.
  rewrite existsb_exists. unfold target_failed. split.
  - intros (r & Hr & [Hf Hn%bool_decide_eq_true]%andb_true_iff).
    apply list_elem_of_In, list_elem_of_fmap in Hr as ([name r'] & -> & Hin%elem_of_map_to_list).
    exists (Target r'). split; [exists name, r'|]; done.
  - intros (t & (name & r & Hr & <- & Hf) & Hn). exists r. split.
    + apply list_elem_of_In, list_elem_of_fmap. exists (name, r). split; [done|]. by apply elem_of_map_to_list.
    + rewrite Hf. by apply bool_decide_eq_true.
Qed.

(** A resource of a proxy is kept from garbage collection exactly when that proxy's own
    preparation failed in this reconciliation; another target's failure does not protect it,
    and every resource that belongs to no proxy is left to the default rule. *)
Theorem gc_protects_own (kubernetes : bool) (hostname : string) (config : GatewayConfig) (s : GwState)
    (DefaultObjectPredicate : Unstructured → result bool) (t : authProxyTarget) (resource : Unstructured) :
  NoDup (ing_Name <$> AdditionalIngresses (gc_Spec config)) →
  (∀ name r, gs_Auth s !! name = Some r → Target r ∈ auth_targets kubernetes hostname config) →
  let verdict := gatewayAuthResourceCollectable DefaultObjectPredicate s resource in
  (t ∈ auth_targets kubernetes hostname config → (u_gvk resource, u_name resource) ∈ gcResourceNames t →
   (target_failed s t → verdict = Ok false) ∧ (¬ target_failed s t → verdict = DefaultObjectPredicate resource)) ∧
  ((∀ t, t ∈ auth_targets kubernetes hostname config → (u_gvk resource, u_name resource) ∉ gcResourceNames t) →
   verdict = DefaultObjectPredicate resource).
Proof.
  intros Hnd Htargets verdict. unfold verdict, gatewayAuthResourceCollectable.
  pose proof (protected_iff s resource) as Hprotected. destruct (existsb _ _); split.
  - intros Ht Hn. split; [done|]. intros Hok. exfalso. destruct (proj1 Hprotected eq_refl) as (t' & Hf & Hn').
    apply Hok. enough (t = t') as -> by exact Hf. destruct Hf as (name & r & Hr & <- & _).
    exact (targets_disjoint _ _ _ _ _ _ Hnd Ht (Htargets _ _ Hr) Hn Hn').
  - intros Hnone. exfalso. destruct (proj1 Hprotected eq_refl) as (t' & (name & r & Hr & <- & _) & Hn').
    exact (Hnone _ (Htargets _ _ Hr) Hn').
  - intros Ht Hn. split; [|done]. intros Hf. assert (false = true) by (apply Hprotected; eauto). done.
  - done.
Qed.

(** ** Credentials *)

(** What the first call answered, when it read a Secret. *)
Definition first_secret (tr : list (call GwE)) : option (result (gmap string string)) :=
  match tr with
  | Call e x :: _ => match e in GwE X return X → option (result (gmap string string)) with
                     | GetSecretData _ _ => λ x, Some x
                     | _ => λ _, None
                     end x
  | [] => None
  end.

Lemma wp_true {A} (p : prog GwE A) tr : wp p tr (λ _ _, True).
Proof. revert tr. induction p as [a|X e k IH]; intros tr; cbn; [done|]. intros x. apply IH. Qed.

(** The values that new credentials are made of, the session key being the given one. *)
Lemma credentials_client kubernetes mode oidc t tr :
  wp (client_credentials kubernetes mode oidc t) tr (λ _ r, ∀ id secret, r = Ok (id, secret) →
    (mode = AuthModeOIDC ∧ (oidc_ClientID <$> oidc) = Some id ∧ secret ≠ "") ∨
    (mode = AuthModeIntegratedOAuth ∧ id = tg_ClientID t)).
Proof.
  unfold client_credentials. destruct (String.eqb_spec mode AuthModeOIDC) as [->|].
  - destruct oidc as [o|]; [|by apply wp_ret]. unfold oidc_client_secret.
    apply wp_bind, wp_bind, wp_call. intros found. apply wp_ret, wp_ret.
    destruct found as [data|err]; [|done]. cbn zeta.
    destruct (nonempty_str (default "" (data !! _))) eqn:Hne; [|done].
    intros id secret [= <- <-]. left. split; [done|split; [done|]]. intros Hnil. by rewrite Hnil in Hne.
  - destruct (String.eqb_spec mode AuthModeIntegratedOAuth) as [->|]; [|by apply wp_ret].
    apply wp_bind. eapply wp_mono; [|apply wp_true]. intros tr' [v|err] _; apply wp_ret; [|done].
    intros id secret [= <- <-]. by right.
Qed.

Definition session_kept (data : gmap string string) (r : result (string * string * string)) : Prop :=
  ∀ cookie, data !! EnvCookieSecret = Some cookie → cookie ≠ "" →
  ∀ id secret c, r = Ok (id, secret, c) → c = cookie.

(** What new credentials are like. *)
Definition fresh_ok (mode : string) (oidc : option OIDCConfig) (existing : gmap string string)
    (r : result (string * string * string)) : Prop :=
  session_kept existing r ∧
  (∀ id secret cookie, r = Ok (id, secret, cookie) → mode = AuthModeOIDC →
     (oidc_ClientID <$> oidc) = Some id ∧ secret ≠ "") ∧
  (mode ≠ AuthModeOIDC → mode ≠ AuthModeIntegratedOAuth → ∃ err, r = Err err).

Lemma fresh_values_ok kubernetes mode oidc t existing tr :
  wp (fresh_values kubernetes mode oidc t existing) tr (λ tr' r,
    fresh_ok mode oidc existing r ∧ ∃ new, tr' = tr ++ new).
Proof.
  apply wp_and; [|apply wp_prefix]. unfold fresh_values. apply wp_bind.
  eapply wp_mono; [|apply credentials_client]. intros tr' [[id secret]|err] Hclient.
  - assert (∀ cookie', (∀ cookie, existing !! EnvCookieSecret = Some cookie → cookie ≠ "" → cookie' = cookie) →
              fresh_ok mode oidc existing (Ok (id, secret, cookie'))) as Hok.
    { intros cookie' Hcookie. specialize (Hclient id secret eq_refl). split; [|split].
      - intros cookie Hc Hne id' secret' c [= <- <- <-]. exact (Hcookie cookie Hc Hne).
      - intros id' secret' c [= <- <- <-] Hmode. destruct Hclient as [(_ & ? & ?)|[-> _]]; [done|discriminate Hmode].
      - intros H1 H2. by destruct Hclient as [[? _]|[? _]]. }
    cbn zeta. destruct (nonempty_str (default "" (existing !! EnvCookieSecret))) eqn:Hne.
    + apply wp_ret, Hok. intros cookie ->. done.
    + apply wp_bind. eapply wp_mono; [|apply wp_true]. intros tr'' [v|err] _; apply wp_ret.
      * apply Hok. intros cookie Hc Hnil. rewrite Hc in Hne. unfold nonempty_str in Hne. cbn in Hne.
        apply negb_false_iff, String.eqb_eq in Hne. done.
      * split; [done|]. split; [done|]. by eexists.
  - apply wp_ret. split; [done|]. split; [done|]. by eexists.
Qed.

(** When the Secret of a proxy holds a session key, the reconciliation keeps it, in every
    authentication mode and whatever happens to the client's credentials, so sessions survive
    their rotation; with integrated OAuth and both values present the client secret is kept
    too and nothing else is read or generated; and new credentials of OIDC are the configured
    client and a non-empty secret. *)
Theorem getAuthProxySecretValues_keeps_session (kubernetes : bool) (mode : string) (oidc : option OIDCConfig)
    (t : authProxyTarget) :
  wp (getAuthProxySecretValues kubernetes mode oidc t) [] (λ tr r,
    (∀ data, first_secret tr = Some (Ok data) → session_kept data r) ∧
    (∀ data secret cookie, first_secret tr = Some (Ok data) → mode = AuthModeIntegratedOAuth →
       data !! EnvClientSecret = Some secret → data !! EnvCookieSecret = Some cookie →
       r = Ok (tg_ClientID t, secret, cookie) ∧ length tr = 1%nat) ∧
    (∀ id secret cookie, r = Ok (id, secret, cookie) → mode = AuthModeOIDC →
       (oidc_ClientID <$> oidc) = Some id ∧ secret ≠ "") ∧
    (mode ≠ AuthModeOIDC → mode ≠ AuthModeIntegratedOAuth → ∃ err, r = Err err)).
Proof.
  unfold getAuthProxySecretValues. apply wp_bind, wp_call. intros [existing|err]; cbn [app].
  - assert (existing !! EnvClientSecret = None ∨ existing !! EnvCookieSecret = None ∨ mode = AuthModeOIDC →
      wp (fresh_values kubernetes mode oidc t existing)
        [Call (GetSecretData (GetGatewayNamespace kubernetes) (tg_SecretName t)) (Ok existing)] (λ tr r,
        (∀ data, first_secret tr = Some (Ok data) → session_kept data r) ∧
        (∀ data secret cookie, first_secret tr = Some (Ok data) → mode = AuthModeIntegratedOAuth →
           data !! EnvClientSecret = Some secret → data !! EnvCookieSecret = Some cookie →
           r = Ok (tg_ClientID t, secret, cookie) ∧ length tr = 1%nat) ∧
        (∀ id secret cookie, r = Ok (id, secret, cookie) → mode = AuthModeOIDC →
           (oidc_ClientID <$> oidc) = Some id ∧ secret ≠ "") ∧
        (mode ≠ AuthModeOIDC → mode ≠ AuthModeIntegratedOAuth → ∃ err, r = Err err))) as Hfresh.
    { intros Hcase. eapply wp_mono; [|apply fresh_values_ok]. intros tr r [(Hs & Hid & Hno) (new & ->)].
      split; [by intros data [= <-]|]. split; [|done]. intros data secret cookie [= <-] -> H1 H2.
      destruct Hcase as [?|[?|?]]; [congruence..|discriminate]. }
    destruct (existing !! EnvClientSecret) as [secret|] eqn:Hsecret; [|by apply Hfresh; left].
    destruct (existing !! EnvCookieSecret) as [cookie|] eqn:Hcookie; [|by apply Hfresh; right; left].
    destruct (String.eqb_spec mode AuthModeOIDC) as [->|Hoidc]; [by apply Hfresh; right; right|].
    destruct (String.eqb_spec mode AuthModeIntegratedOAuth) as [->|Hoauth]; apply wp_ret.
    + split; [|split; [|split; [done|done]]].
      * intros data [= <-] c Hc _ id s c' [= <- <- <-]. congruence.
      * intros data s c [= <-] _ Hs Hc. split; [congruence|done].
    + split; [done|]. split; [done|]. split; [done|]. by eexists.
  - destruct (err_is TagNotFound err); [|apply wp_ret; repeat split; try done; by eexists].
    eapply wp_mono; [|apply fresh_values_ok]. intros tr r [(_ & Hid & Hno) (new & ->)]. done.
Qed.

(** ** Removal of proxies *)

(** The authentication mode the run has seen. *)
Definition mode_seen (kubernetes : bool) (gc : GatewayConfig) (tr : list (call GwE)) (mode : string) : Prop :=
  if kubernetes then mode = match OIDC (gc_Spec gc) with Some _ => AuthModeOIDC | None => AuthModeNone end
  else ∃ auth, Call GetClusterAuthentication auth ∈ tr ∧ GetClusterAuthenticationMode auth = Ok mode.

(** A resource that this operator manages for the GatewayConfig. *)
Definition ours (gc : GatewayConfig) (o : ManagedObject) : Prop :=
  (mo_Owners o = [] ∨ gc_UID gc ∈ mo_Owners o) ∧
  label o PlatformPartOf = NormalizePartOfValue GatewayConfigKind ∧
  mo_Annotations o !! "opendatahub.io/managed" ≠ Some "false".

Definition removal_allowed (kubernetes : bool) (gc : GatewayConfig) (pre : list (call GwE)) (c : call GwE) : Prop :=
  match c with
  | Call e _ => match e with
                | DeleteManaged kind name =>
                    (kind, name) ∈ proxy_resources gc ∧
                    (∃ pre' o, pre = pre' ++ [Call (GetManaged kind name) (Ok o)] ∧ ours gc o) ∧
                    ∃ mode, mode_seen kubernetes gc pre mode ∧ proxy_unwanted gc mode = true
                | GetManaged _ _ | GetClusterAuthentication => True
                | _ => False
                end
  end.

Lemma mode_seen_mono kubernetes gc tr new mode : mode_seen kubernetes gc tr mode → mode_seen kubernetes gc (tr ++ new) mode.
Proof.
  unfold mode_seen. destruct kubernetes; [done|]. intros (auth & Hin & Hm). exists auth.
  split; [apply elem_of_app; by left|done].
Qed.

Section removal.
Context (kubernetes : bool) (gc : GatewayConfig) (mode : string).
Hypothesis (Hunwanted : proxy_unwanted gc mode = true).

(** What the loop keeps: everything so far was allowed, and the mode was seen. *)
Definition removing (tr : list (call GwE)) : Prop :=
  each_after (removal_allowed kubernetes gc) tr ∧ mode_seen kubernetes gc tr mode.

Lemma removing_snoc tr (c : call GwE) : removing tr → removal_allowed kubernetes gc tr c → removing (tr ++ [c]).
Proof. intros [Hall Hmode] Hc. split; [by apply each_after_snoc|by apply mode_seen_mono]. Qed.

Lemma delete_one kind name tr :
  (kind, name) ∈ proxy_resources gc → removing tr →
  wp (deleteKubeAuthProxyResource kind name gc) tr (λ tr' _, removing tr').
Proof.
  intros Hin Htr. unfold deleteKubeAuthProxyResource. apply wp_bind, wp_call. intros [o|err].
  - cbn zeta.
    assert (removing (tr ++ [Call (GetManaged kind name) (Ok o)])) as Hread by (by apply removing_snoc).
    match goal with |- wp (if ?b then _ else _) _ _ => destruct b eqn:Hb end; [by apply wp_ret|].
    unfold delete_managed. apply wp_bind, wp_call. intros res. apply wp_ret.
    apply removing_snoc; [exact Hread|]. split; [done|split].
    + exists tr, o. split; [done|].
      apply orb_false_iff in Hb as [[Howned Hlabel]%orb_false_iff Hmanaged].
      apply negb_false_iff in Howned, Hlabel. apply String.eqb_eq in Hlabel. unfold ours.
      apply orb_true_iff in Howned. rewrite !bool_decide_eq_true in Howned.
      unfold unmanaged in Hmanaged. apply bool_decide_eq_false in Hmanaged. done.
    + exists mode. split; [exact (proj2 Hread)|done].
  - apply wp_ret. by apply removing_snoc.
Qed.

Lemma delete_all_allowed l tr :
  (∀ p, p ∈ l → p ∈ proxy_resources gc) → removing tr → wp (delete_all gc l) tr (λ tr' _, removing tr').
Proof.
  revert tr. induction l as [|[kind name] l IH]; intros tr Hl Htr; cbn [delete_all]; [by apply wp_ret|].
  apply wp_bind. eapply wp_mono; [|apply delete_one; [apply Hl; left|exact Htr]].
  intros tr' [err|] Htr'; [by apply wp_ret|]. apply IH; [|done]. intros p Hp. apply Hl. by right.
Qed.

End removal.

(** The cleanup of proxies deletes a Deployment or NetworkPolicy only if it is one of the
    GatewayConfig's own proxies, was just read, carries the operator's label, is owned by
    nobody or by this GatewayConfig and is not marked unmanaged, and only after the
    authentication mode it has seen leaves no use for a proxy; it writes nothing else. *)
Theorem cleanupKubeAuthProxyResources_owned (kubernetes : bool) (gc : GatewayConfig) :
  wp (cleanupKubeAuthProxyResources kubernetes gc) [] (λ tr _, each_after (removal_allowed kubernetes gc) tr).
Proof.
  unfold cleanupKubeAuthProxyResources. apply wp_bind.
  apply (wp_mono _ _ (λ tr mode, each_after (removal_allowed kubernetes gc) tr ∧
                        ∀ m, mode = Ok m → mode_seen kubernetes gc tr m)).
  - intros tr [mode|err] [Htr Hmode]; [|by apply wp_ret].
    destruct (proxy_unwanted gc mode) eqn:Hunwanted; cbn [negb]; [|by apply wp_ret].
    eapply wp_mono; [|apply (delete_all_allowed kubernetes gc mode Hunwanted); [done|split; [done|by apply Hmode]]].
    intros tr' r [Hall _]. exact Hall.
  - unfold getGatewayAuthenticationMode. destruct kubernetes eqn:Hk.
    + apply wp_ret. split; [apply each_after_nil|]. intros m [= <-]. cbn. by destruct (OIDC (gc_Spec gc)).
    + apply wp_bind, wp_call. intros auth. apply wp_ret. split; [apply (each_after_snoc _ []); [apply each_after_nil|done]|].
      intros m Hm. cbn. exists auth. split; [left|].
      destruct (GetClusterAuthenticationMode auth); cbn in Hm; [congruence|discriminate].
Qed.

(** ** Watched Secrets *)

(** Every Secret that an administrator provides and the reconciliation reads - the client
    secret of each proxy, wherever its namespace was left out, and the CA bundle - is one
    whose change triggers a reconciliation. *)
Theorem secrets_read_are_watched (kubernetes : bool) (hostname : string) (config : GatewayConfig)
    (t : authProxyTarget) (oidc : OIDCConfig) :
  t ∈ auth_targets kubernetes hostname config → tg_OIDC t = Some oidc →
  IsGatewayReferencedSecret kubernetes (Ok config) (sel_Name (oidc_ClientSecretRef oidc))
    (authSecretNamespace kubernetes (oidc_SecretNamespace oidc)) (GetGatewayNamespace kubernetes) = true ∧
  (ProviderCASecretName (gc_Spec config) ≠ "" →
   IsGatewayReferencedSecret kubernetes (Ok config) (ProviderCASecretName (gc_Spec config))
     (GetGatewayNamespace kubernetes) (GetGatewayNamespace kubernetes) = true).
Proof.
  intros Ht Hoidc. unfold IsGatewayReferencedSecret. split.
  - apply orb_true_iff. left. apply orb_true_iff. unfold auth_targets in Ht.
    apply elem_of_cons in Ht as [->|(i & -> & Hi)%list_elem_of_fmap]; cbn in Hoidc.
    + right. rewrite Hoidc. unfold authSecretNamespace. by rewrite !String.eqb_refl.
    + left. destruct (Auth_OIDC (Auth i)) as [own|] eqn:Hown; [|done].
      destruct (OIDC (gc_Spec config)) as [shared|]; [|done]. injection Hoidc as <-. cbn.
      apply existsb_exists. exists i. split; [by apply list_elem_of_In|]. rewrite Hown. by rewrite !String.eqb_refl.
  - intros Hca. apply orb_true_iff. right. rewrite !String.eqb_refl. unfold nonempty_str.
    rewrite (proj2 (String.eqb_neq _ "") Hca). done.
Qed.

(** ** Changes of the ingress mode *)

(** The Gateway that was created, as it is read back. *)
Definition observed (m : GatewayManifest) (conditions : list (string * string)) : GatewayObject :=
  MkGatewayObject conditions ((λ l, (l_Name l, l_Hostname l)) <$> gm_Listeners m) (bool_decide (is_Some (gm_ParametersRef m))).

Definition known_mode (mode : string) : Prop := mode = IngressModeOcpRoute ∨ mode = IngressModeLoadBalancer.

Lemma observed_mode kubernetes ns built secret domain legacy conditions :
  secret ≠ "" → known_mode built →
  has_hostname (observed (default_gateway kubernetes ns built secret domain legacy) conditions) =
    String.eqb built IngressModeLoadBalancer ∧
  gw_ParametersRef (observed (default_gateway kubernetes ns built secret domain legacy) conditions) =
    String.eqb built IngressModeOcpRoute.
Proof.
  intros Hsecret Hbuilt. unfold default_gateway, default_listeners, has_hostname, observed.
  rewrite (proj2 (String.eqb_neq _ "") Hsecret).
  destruct Hbuilt as [-> | ->]; cbn; [done|]. destruct (nonempty_str legacy); done.
Qed.

(** The default Gateway created for an ingress mode is never deleted while that mode is
    wanted, whatever its conditions, host names and certificate; once the other mode is wanted
    it is deleted, nothing else is, and the action fails so that it is created anew. *)
Theorem mode_change_recreates_only {W : Type} (h : ∀ X, GwE X → W → X * W) (w : W) (kubernetes : bool)
    (namespace built wanted secret domain legacy : string) (conditions : list (string * string)) :
  secret ≠ "" → known_mode built → known_mode wanted →
  h _ (GetGateway (GetDefaultGatewayName kubernetes)) w =
    (Ok (observed (default_gateway kubernetes namespace built secret domain legacy) conditions), w) →
  let r := run h (reconcileGatewayForModeChange kubernetes wanted) w [] in
  (r.1.1 = None ↔ built = wanted) ∧
  (built = wanted → length r.2 = 1%nat) ∧
  (built ≠ wanted → ∃ err, r.2 =
     [Call (GetGateway (GetDefaultGatewayName kubernetes))
        (Ok (observed (default_gateway kubernetes namespace built secret domain legacy) conditions));
      Call (DeleteGateway (GetDefaultGatewayName kubernetes)) err]).
Proof.
  intros Hsecret Hbuilt Hwanted Hread r. unfold r, reconcileGatewayForModeChange.
  destruct (observed_mode kubernetes namespace built secret domain legacy conditions Hsecret Hbuilt) as [Hh Hp].
  cbn [run mbind prog_bind trigger]. rewrite Hread. cbn [fst snd]. rewrite Hh, Hp.
  destruct Hbuilt as [-> | ->], Hwanted as [-> | ->]; cbn;
    try (split; [done|split; [done|intros []; done]]);
    (split; [split; [by destruct (h _ _ _).1|discriminate]|split; [discriminate|]]; intros _; eexists; reflexivity).
Qed.

(** ** Witnesses *)

Definition own_oidc (name : string) : AdditionalIngressOIDCConfig :=
  MkIngressOIDC name (MkSelector (name +:+ "-oidc") "secret") "".

Definition oidc_ingress (name : string) : AdditionalIngress :=
  MkIngress name (name +:+ ".example.com") "internal" {["tier" := name]} (MkIngressAuth (Some (own_oidc name)) None).

Definition oidc_gateway : GatewayConfig :=
  MkGatewayConfig GatewayConfigName "uid" 3 ∅
    (MkGatewaySpec IngressModeOcpRoute None
       (Some (MkOIDC "https://issuer" "shared" (MkSelector "shared-oidc" "") "" "" false false)) None "example.com" "" None
       "provider-ca" [oidc_ingress "blue"; oidc_ingress "green"] (MkCookie 0 0) "" 0 None None None None) "" [].

Definition blue : authProxyTarget := additionalAuthProxyTarget (oidc_ingress "blue") oidc_gateway.
Definition green : authProxyTarget := additionalAuthProxyTarget (oidc_ingress "green") oidc_gateway.

(** Preparing the proxy of [blue] failed. *)
Definition blue_failed : GwState :=
  recordAuthResult (MkGwState oidc_gateway ∅ None [] []) blue ConditionFalse
    additionalIngressReasonAuthenticationUnavailable "no client secret".

Definition proxy_deployment (t : authProxyTarget) : Unstructured :=
  MkUnstructured (MkGVK "apps" "v1" "Deployment") (ProxyName t) GatewayNamespace 1 false [].

Lemma gc_protects_own_witness :
  gatewayAuthResourceCollectable (λ _, Ok true) blue_failed (proxy_deployment blue) = Ok false ∧
  gatewayAuthResourceCollectable (λ _, Ok true) blue_failed (proxy_deployment green) = Ok true.
Proof.
  assert (NoDup (ing_Name <$> AdditionalIngresses (gc_Spec oidc_gateway))) as Hnd
    by (apply (bool_decide_unpack _); by vm_compute).
  assert (∀ name r, gs_Auth blue_failed !! name = Some r → Target r ∈ auth_targets false "gw" oidc_gateway) as Hin.
  { intros name r Hr. cbn in Hr. apply lookup_insert_Some in Hr as [[_ <-]|[_ Hr]]; [|by rewrite lookup_empty in Hr].
    right. left. }
  split.
  - apply (gc_protects_own false "gw" oidc_gateway blue_failed (λ _, Ok true) blue (proxy_deployment blue) Hnd Hin).
    + right. left.
    + left.
    + eexists "blue", _. split; [reflexivity|split; reflexivity].
  - refine (proj2 (proj1 (gc_protects_own false "gw" oidc_gateway blue_failed (λ _, Ok true) green
                            (proxy_deployment green) Hnd Hin) _ _) _).
    + right. right. left.
    + left.
    + intros (name & r & Hr & Ht & _). cbn in Hr.
      apply lookup_insert_Some in Hr as [[_ <-]|[_ Hr]]; [discriminate Ht|by rewrite lookup_empty in Hr].
Defined.

Lemma secrets_read_are_watched_witness :
  IsGatewayReferencedSecret true (Ok oidc_gateway) "green-oidc" XKSGatewayNamespace XKSGatewayNamespace = true ∧
  IsGatewayReferencedSecret true (Ok oidc_gateway) "provider-ca" XKSGatewayNamespace XKSGatewayNamespace = true.
Proof.
  destruct (secrets_read_are_watched true "gw" oidc_gateway green
              (MkOIDC "https://issuer" "green" (MkSelector "green-oidc" "secret") "" "" false false)) as [H1 H2].
  - right. right. left.
  - reflexivity.
  - exact (conj H1 (H2 ltac:(discriminate))).
Defined.

(** A cluster that has a Gateway, deletes it, and answers nothing else. *)
Definition no_random (X : Type) (e : RandE X) : X :=
  match e with RandInt _ => Err (errorf "none") | RandRead _ => Err (errorf "none") end.

Definition gateway_cluster (g : GatewayObject) (X : Type) (e : GwE X) : unit → X * unit :=
  let none {A} : result A := Err (errorf "none") in
  match e in GwE X return unit → X * unit with
  | GetGateway _ => λ w, (Ok g, w)
  | DeleteGateway _ => λ w, (None, w)
  | GetClusterIngress => λ w, (none, w)
  | GetClusterAuthentication => λ w, (none, w)
  | GetGatewayConfig => λ w, (none, w)
  | UpdateGatewayConfig _ => λ w, (none, w)
  | GetServiceType _ => λ w, (none, w)
  | GetController _ _ => λ w, (none, w)
  | GetRoute _ => λ w, (none, w)
  | GetDeployment _ => λ w, (none, w)
  | GetCertificate _ => λ w, (none, w)
  | GetSecretData _ _ => λ w, (none, w)
  | GetServerTimeout => λ w, (none, w)
  | Rand r => λ w, (no_random _ r, w)
  | CreateOrUpdateSecret _ _ => λ w, (None, w)
  | PropagateIngressCertificate _ => λ w, (None, w)
  | CreateSelfSignedCertificate _ _ => λ w, (None, w)
  | GetManaged _ _ => λ w, (none, w)
  | DeleteManaged _ _ => λ w, (None, w)
  | GetCondition _ => λ w, (None, w)
  | MarkCondition _ => λ w, (tt, w)
  | RenderRoute _ => λ w, (none, w)
  | AddResource _ => λ w, (None, w)
  | RenderTemplates _ _ => λ w, (none, w)
  | ReadResource _ => λ w, (none, w)
  | GetTLSProfile => λ w, (none, w)
  | GetDashboard => λ w, (none, w)
  | GetRedirectResource _ _ => λ w, (None, w)
  | DeleteRedirectResource _ _ => λ w, (None, w)
  end.

Definition routed_gateway : GatewayObject :=
  observed (default_gateway false "apps" IngressModeOcpRoute "tls" "gw.example.com" "") [("Accepted", ConditionTrue)].

Definition after_mode_change (wanted : string) : option goerr :=
  (run (gateway_cluster routed_gateway) (reconcileGatewayForModeChange false wanted) tt []).1.1.

Lemma mode_change_recreates_only_witness :
  after_mode_change IngressModeOcpRoute = None ∧ is_Some (after_mode_change IngressModeLoadBalancer).
Proof.
  split.
  - apply (mode_change_recreates_only (gateway_cluster routed_gateway) tt false "apps" IngressModeOcpRoute
             IngressModeOcpRoute "tls" "gw.example.com" "" [("Accepted", ConditionTrue)]);
      [discriminate|by left|by left|reflexivity|reflexivity].
  - destruct (mode_change_recreates_only (gateway_cluster routed_gateway) tt false "apps" IngressModeOcpRoute
                IngressModeLoadBalancer "tls" "gw.example.com" "" [("Accepted", ConditionTrue)]) as [Hiff _];
      [discriminate|by left|by right|reflexivity|].
    unfold after_mode_change. destruct (run _ _ _ _) as [[[err|] w] tr]; [by eexists|].
    discriminate (proj1 Hiff eq_refl).
Defined.
