(* ===== verification/HandlerInterface.v ===== *)
(** * HandlerInterface: what a module handler is

    The interface [ModuleHandler] of [internal/controller/modules/types.go] as the method
    table [handler], the default methods of the embedded base handler ([BaseMethods], over
    [ModuleBase]), and the steps the built-in handlers share.

    - [ComponentsSpec] has the fields of [dsc.Spec.Components] the handlers read,
      [MonitoringSpec] is [dsci.Spec.Monitoring]. Pointers that may be nil are options.
    - [runtime.DefaultUnstructuredConverter.ToUnstructured] of a component's common spec and
      [url.ParseRequestURI] are the classes [Converter] and [URIParser]; a type whose values
      only pass through the converter is [value].
    - [helm.Values] of a map is that map, so chart values are maps as in [ModuleBase].
    - Client calls are events of [HandlerE]; those of the base handler's cleanup are embedded
      in it, and the delete filter of the database module answers its filter calls. *)

From S2P Require Import Prelude Effects Conditions Dag Provision Gates Unstructured Namespaces ModuleBase ModuleRegistry ModuleActions ModuleStatusTheorems SharedPlatform PlatformConfig DscController Conversion Kueue KueueController Gateway GatewayStatus GatewayAuth.

(** ** Configuration *)

Record AIGatewayCommonSpec := MkAIGatewaySpec {
  agw_ModelsAsAService : string;
  agw_BatchGateway : string;
  agw_AIGrid : string;
}.

Record WorkbenchesCommonSpec := MkWorkbenchesSpec {
  wb_WorkbenchNamespace : string;
  wb_WorkbenchesV2 : string;
}.

(** [spec.components]: [X_State] is the management state of component [X]. The common specs
    of the MCP lifecycle, OGX, Ray, Spark and Trainer components are empty structs. *)
Record ComponentsSpec := MkComponentsSpec {
  AIGateway_State : string;
  AIGateway_Spec : AIGatewayCommonSpec;
  AIHub_Spec : DSCAIHub;
  AIPipelines_State : string;
  AIPipelines_Argo : option string;
  DashboardSpec : DSCDashboard;
  Data_FeatureStore : string;
  Data_DataRegistry : string;
  DatabaseService_State : string;
  Kserve_State : string;
  Kserve_Spec : value;
  MCPLifecycleOperator_State : string;
  MLflowOperator_State : string;
  OGX_State : string;
  Ray_State : string;
  SparkOperator_State : string;
  Trainer_State : string;
  TrustyAI_State : string;
  TrustyAI_Spec : value;
  Workbenches_State : string;
  Workbenches_Spec : WorkbenchesCommonSpec;
}.

Record MetricsSpec := MkMetrics { m_Storage : option value; m_Exporters : value_map; m_Rest : value }.
Record TracesSpec := MkTraces {
  t_Storage : option value;
  t_TLS : option (bool * value);
  t_Exporters : value_map;
  t_Rest : value;
}.
Record LogsSpec := MkLogs { l_Storage : option value; l_Rest : value }.
Record UsageLogsSpec := MkUsageLogs { ul_Storage : option value; ul_Exporters : value_map; ul_Rest : value }.

(** The TLS setting of traces is its [Enabled] and the rest. *)
Record MonitoringCommonSpec := MkMonitoringSpec {
  mon_Namespace : string;
  mon_Metrics : option MetricsSpec;
  mon_Traces : option TracesSpec;
  mon_Alerting : option value;
  mon_Logs : option LogsSpec;
  mon_UsageLogs : option UsageLogsSpec;
  mon_CollectorReplicas : Z;
}.

Record MonitoringSpec := MkDSCIMonitoring { Monitoring_State : string; Monitoring_Spec : MonitoringCommonSpec }.

Notation Ctx := (DSCContext ComponentsSpec MonitoringSpec).

(** [dscCtx != nil && dscCtx.DSC != nil], with the specification. *)
Definition ctx_spec (dscCtx : option Ctx) : option ComponentsSpec := ctx ← dscCtx; ctx_DSC _ _ ctx.
Definition ctx_monitoring (dscCtx : option Ctx) : option MonitoringSpec := ctx ← dscCtx; ctx_DSCI _ _ ctx.

(** The status part of the GatewayConfig that handlers read. *)
Record GatewayConfigStatus := MkGatewayStatus { gws_Domain : string; gws_AdditionalIngresses : list AdditionalIngressStatus }.

Record ModuleCRConfig := MkCRConfig {
  cr_ApplicationsNamespace : string;
  cr_GatewayConfig : option GatewayConfigStatus;
  cr_ReleaseName : string;
}.

(** The status of the DSC that handlers write: the component fields, and the namespace in the
    common status of AIHub and Workbenches, which counts only while that is not nil. *)
Record DscStatus := MkDscStatus {
  ds_Components : ModuleBase.ComponentsStatus;
  ds_Namespaces : gmap string string;
}.

Inductive CommonSpec :=
| CommonEmpty
| CommonAIGateway (spec : AIGatewayCommonSpec)
| CommonKserve (spec : value)
| CommonMonitoring (spec : MonitoringCommonSpec)
| CommonTrustyAI (spec : value)
| CommonWorkbenches (spec : WorkbenchesCommonSpec).

(** What the code uses of the parsed URL. *)
Record RequestURI := MkURI { uri_Scheme : string; uri_Host : string; uri_String : string }.

Class Converter := ToUnstructured : CommonSpec → result value_map.
Class URIParser := ParseRequestURI : string → result RequestURI.

(** A live object, as the ownership check reads it. *)
Record OwnedObject := MkOwned { own_Labels : gmap string string; own_OwnerUIDs : list string }.

Inductive HandlerE : Type → Type :=
| GetTopology : HandlerE (result string)
| ListNodes : HandlerE (result (list bool))
| GetAuthentication : HandlerE (result string)
| GetGatewayIssuer : HandlerE (result (option string))
| GetLiveObject (res : Unstructured) : HandlerE (result OwnedObject)
| GetPlatformUID : HandlerE (result string)
| Cleanup {X : Type} (e : ClientE X) : HandlerE X.

(** ** The interface *)

Record handler := MkModule {
  Config : ModuleConfig Ctx;
  PopulatePlatformModule : option PlatformModules → option Ctx → option PlatformModules;
  IsEnabled : option PlatformModules → bool;
  GetReadyConditionType : string;
  GetOperatorManifests : option PlatformContext → OperatorManifests;
  DeleteOperatorResources : option PlatformContext → prog HandlerE (option goerr);
  BuildModuleCR : bool → option Ctx → option ModuleCRConfig → prog HandlerE (result Unstructured);
  WriteDSCComponentStatus : ComponentsSpec → option DscStatus → bool → list ComponentRelease → option DscStatus;
  WriteLegacyStatusFields : option (ComponentsSpec → option DscStatus → bool → option DscStatus);
}.

(** The methods of the embedded base handler. *)
Module BaseMethods.
Section base.
Variable b : ModuleConfig Ctx.

Definition WriteDSCComponentStatus (_ : ComponentsSpec) (dsc : option DscStatus) (enabled : bool)
    (releases : list ComponentRelease) : option DscStatus :=
  st ← dsc;
  comps ← BaseHandler.WriteDSCComponentStatus b (Some (ds_Components st)) enabled releases;
  Some (MkDscStatus comps (ds_Namespaces st)).

Definition DeleteOperatorResources (platform : option PlatformContext) : prog HandlerE (option goerr) :=
  lift (@Cleanup) (BaseHandler.DeleteOperatorResources b platform).

End base.
End BaseMethods.

(** A handler that overrides only the three methods every module has to. *)
Definition plain_handler (b : ModuleConfig Ctx)
    (populate : option PlatformModules → option Ctx → option PlatformModules)
    (isEnabled : option PlatformModules → bool)
    (build : bool → option Ctx → option ModuleCRConfig → prog HandlerE (result Unstructured)) : handler :=
  MkModule b populate isEnabled (BaseHandler.GetReadyConditionType b) (BaseHandler.GetOperatorManifests b)
    (BaseMethods.DeleteOperatorResources b) build (BaseMethods.WriteDSCComponentStatus b) None.

(** ** Shared steps *)

(** [if ms == "" { ms = operatorv1.Removed }; pm.Field.ManagementState = ms], or no-op. *)
Definition set_state (field : string) (state : ComponentsSpec → string) (pm : option PlatformModules)
    (dscCtx : option Ctx) : option PlatformModules :=
  match pm, ctx_spec dscCtx with
  | Some pm, Some spec =>
      let ms := state spec in
      let ms := if String.eqb ms "" then Removed else ms in
      Some (<[field := ms]> pm)
  | _, _ => pm
  end.

(** [pm != nil && pm.Field.ManagementState == operatorv1.Managed]. *)
Definition field_managed (field : string) (pm : option PlatformModules) : bool :=
  match pm with Some pm => String.eqb (default "" (pm !! field)) Managed | None => false end.

(** [dsc.Spec.Components.X.ManagementState == operatorv1.Managed], false without a DSC. *)
Definition submodule_enabled (state : ComponentsSpec → string) (dscCtx : Ctx) : bool :=
  match ctx_DSC _ _ dscCtx with Some spec => String.eqb (state spec) Managed | None => false end.

(** The object: its kind and name from the configuration, its specification and, when set,
    its annotations. *)
Definition module_object (b : ModuleConfig Ctx) (spec : value_map) (annotations : option value_map) : Unstructured :=
  MkUnstructured (c_GVK b) (c_CRName b) "" 0 false
    (("spec", VMap spec) ::
     match annotations with Some m => [("metadata", VMap [("annotations", VMap m)])] | None => [] end).

Definition no_dsc (kind : string) : goerr := errorf ("DSC is nil, cannot build " +:+ kind +:+ " CR").

(** [spec["gateway"] = ...] when the gateway has a domain. *)
Definition set_gateway (cfg : option ModuleCRConfig) (spec : value_map) : value_map :=
  match c ← cfg; cr_GatewayConfig c with
  | Some gateway =>
      if nonempty_str (gws_Domain gateway)
      then map_set spec "gateway" (VMap [("domain", VString (gws_Domain gateway))]) else spec
  | None => spec
  end.

Definition component_gvk (kind : string) : GroupVersionKind := MkGVK "components.platform.opendatahub.io" "v1alpha1" kind.
Definition service_gvk (kind : string) : GroupVersionKind := MkGVK "services.platform.opendatahub.io" "v1alpha1" kind.

(** The entries of an overlay table for the four platforms. *)
Definition overlays (odh rhoai xks : string) : gmap string string := list_to_map
  [(OpenDataHub, odh); (SelfManagedRhoai, rhoai); (ManagedRhoai, rhoai); (XKS, xks)].

Definition empty_values (images : list string) : value := VMap ((λ name, (name, VString "")) <$> images).
