(* ===== verification/ModuleHandlers.v ===== *)
(** * ModuleHandlers: the built-in modules ([internal/controller/modules/*/handler.go])

    One module per handler: what it embeds in the base handler ([Config]) and the methods it
    overrides, in the order: handlers whose CR is their common specification, then those that
    compute one. *)

From S2P Require Import Prelude Effects Conditions Dag Provision Gates Unstructured Namespaces ModuleBase ModuleRegistry ModuleActions ModuleStatusTheorems SharedPlatform PlatformConfig DscController Conversion Kueue KueueController Gateway GatewayStatus GatewayAuth HandlerInterface.


(** ** Handlers whose CR is the common specification *)

Module AIGateway.
Section methods.
Context `{Converter}.

Definition relatedImages : list string :=
  ["RELATED_IMAGE_ODH_LLM_D_BATCH_GATEWAY_OPERATOR_IMAGE";
   "RELATED_IMAGE_ODH_LLM_D_BATCH_GATEWAY_APISERVER_IMAGE";
   "RELATED_IMAGE_ODH_LLM_D_BATCH_GATEWAY_PROCESSOR_IMAGE";
   "RELATED_IMAGE_ODH_LLM_D_BATCH_GATEWAY_GC_IMAGE"; "RELATED_IMAGE_ODH_LLM_D_ASYNC_IMAGE";
   "RELATED_IMAGE_ODH_MAAS_CONTROLLER_IMAGE"; "RELATED_IMAGE_ODH_MAAS_API_IMAGE";
   "RELATED_IMAGE_ODH_MAAS_DISCOVERY_IMAGE"; "RELATED_IMAGE_ODH_AI_GATEWAY_PAYLOAD_PROCESSING_IMAGE";
   "RELATED_IMAGE_UBI_MINIMAL_IMAGE"; "RELATED_IMAGE_ODH_PYTHON_312_IMAGE";
   "RELATED_IMAGE_ODH_AI_GATEWAY_CONTROLLER_IMAGE"; "RELATED_IMAGE_ODH_PRAXIS_EXTPROC_IMAGE";
   "RELATED_IMAGE_ODH_KUBE_AUTH_PROXY_IMAGE"; "RELATED_IMAGE_ODH_PRAXIS_AI_GRID_OPERATOR_IMAGE"].

Definition submodules : list (SubmoduleCondition Ctx) :=
  [MkSubmodule "ModelsAsAServiceReady" "ModelsAsAServiceReady" "ModelsAsAService"
     (Some (submodule_enabled (λ dsc, agw_ModelsAsAService (AIGateway_Spec dsc))));
   MkSubmodule "BatchGatewayReady" "BatchGatewayReady" "BatchGateway"
     (Some (submodule_enabled (λ dsc, agw_BatchGateway (AIGateway_Spec dsc))));
   MkSubmodule "AIGridReady" "AIGridReady" "AIGrid"
     (Some (submodule_enabled (λ dsc, agw_AIGrid (AIGateway_Spec dsc))))].

Definition Config : ModuleConfig Ctx := {|
  c_Name := "aigateway"; c_GVK := component_gvk "AIGateway"; c_CRName := "default-aigateway";
  c_ReleaseName := ""; c_ChartDir := ""; c_Values := ∅; c_NamespaceValueKey := "";
  c_ManifestDir := "aigateway"; c_ContextDir := "manifests/ai-gateway-operator"; c_SourcePath := "";
  c_SourcePathByPlatform := overlays "overlays/odh" "overlays/rhoai" "overlays/rhoai"; c_Namespace := "";
  c_ContainerName := ""; c_DeploymentName := "ai-gateway-operator";
  c_ControllerImage := "RELATED_IMAGE_ODH_AI_GATEWAY_OPERATOR_IMAGE"; c_InitContainerName := "copy-manifests";
  c_RelatedImages := relatedImages; c_SubmoduleConditions := submodules; c_ExtraEnv := ∅;
|}.

Definition PopulatePlatformModule := set_state "AIGateway" AIGateway_State.
Definition IsEnabled := field_managed "AIGateway".

Definition BuildModuleCR (_ : bool) (dscCtx : option Ctx) (_ : option ModuleCRConfig) : prog HandlerE (result Unstructured) :=
  mret (match ctx_spec dscCtx with
        | None => Err (no_dsc "AIGateway")
        | Some dsc =>
            match ToUnstructured (CommonAIGateway (AIGateway_Spec dsc)) with
            | Err err => Err (wrapf "failed to convert AIGatewayCommonSpec to unstructured" err)
            | Ok spec => Ok (module_object Config spec None)
            end
        end).

Definition NewHandler : handler := plain_handler Config PopulatePlatformModule IsEnabled BuildModuleCR.

End methods.
End AIGateway.

Module MCPLifecycleOperator.
Section methods.
Context `{Converter}.

Definition Config : ModuleConfig Ctx := {|
  c_Name := "mcplifecycleoperator"; c_GVK := component_gvk "MCPLifecycleOperator"; c_CRName := "default";
  c_ReleaseName := ""; c_ChartDir := ""; c_Values := ∅; c_NamespaceValueKey := "";
  c_ManifestDir := "mcplifecycleoperator"; c_ContextDir := "default"; c_SourcePath := "";
  c_SourcePathByPlatform := ∅; c_Namespace := ""; c_ContainerName := "";
  c_DeploymentName := "mcp-lifecycle-module-operator-controller-manager";
  c_ControllerImage := "RELATED_IMAGE_ODH_MCP_LIFECYCLE_MODULE_OPERATOR_IMAGE"; c_InitContainerName := "";
  c_RelatedImages := ["RELATED_IMAGE_ODH_MCP_LIFECYCLE_OPERATOR_IMAGE"]; c_SubmoduleConditions := [];
  c_ExtraEnv := ∅;
|}.

Definition PopulatePlatformModule := set_state "MCPLifecycleOperator" MCPLifecycleOperator_State.
Definition IsEnabled := field_managed "MCPLifecycleOperator".

Definition BuildModuleCR (_ : bool) (dscCtx : option Ctx) (_ : option ModuleCRConfig) : prog HandlerE (result Unstructured) :=
  mret (match ctx_spec dscCtx with
        | None => Err (no_dsc "MCPLifecycleOperator")
        | Some dsc =>
            match ToUnstructured CommonEmpty with
            | Err err => Err (wrapf "failed to convert MCPLifecycleOperatorCommonSpec to unstructured" err)
            | Ok spec => Ok (module_object Config spec None)
            end
        end).

Definition NewHandler : handler := plain_handler Config PopulatePlatformModule IsEnabled BuildModuleCR.

End methods.
End MCPLifecycleOperator.

Module OGX.
Section methods.
Context `{Converter}.

Definition Config : ModuleConfig Ctx := {|
  c_Name := "ogx"; c_GVK := component_gvk "OGX"; c_CRName := "default-ogx"; c_ReleaseName := "";
  c_ChartDir := ""; c_Values := ∅; c_NamespaceValueKey := ""; c_ManifestDir := "ogx"; c_ContextDir := "";
  c_SourcePath := ""; c_SourcePathByPlatform := overlays "overlays/odh" "overlays/rhoai" "overlays/rhoai";
  c_Namespace := ""; c_ContainerName := ""; c_DeploymentName := "opendatahub-ogx-operator";
  c_ControllerImage := "RELATED_IMAGE_ODH_OGX_MODULE_OPERATOR_IMAGE"; c_InitContainerName := "copy-manifests";
  c_RelatedImages := ["RELATED_IMAGE_ODH_OGX_K8S_OPERATOR_IMAGE"; "RELATED_IMAGE_ODH_OGX_CORE_IMAGE"];
  c_SubmoduleConditions := []; c_ExtraEnv := ∅;
|}.

Definition PopulatePlatformModule := set_state "OGX" OGX_State.
Definition IsEnabled := field_managed "OGX".

Definition BuildModuleCR (_ : bool) (dscCtx : option Ctx) (_ : option ModuleCRConfig) : prog HandlerE (result Unstructured) :=
  mret (match ctx_spec dscCtx with
        | None => Err (no_dsc "OGX")
        | Some dsc =>
            match ToUnstructured CommonEmpty with
            | Err err => Err (wrapf "failed to convert OGXCommonSpec to unstructured" err)
            | Ok spec => Ok (module_object Config spec None)
            end
        end).

Definition NewHandler : handler := plain_handler Config PopulatePlatformModule IsEnabled BuildModuleCR.

End methods.
End OGX.

Module Ray.
Section methods.
Context `{Converter}.

Definition Config : ModuleConfig Ctx := {|
  c_Name := "ray"; c_GVK := component_gvk "Ray"; c_CRName := "default-ray"; c_ReleaseName := "";
  c_ChartDir := ""; c_Values := ∅; c_NamespaceValueKey := ""; c_ManifestDir := "ray"; c_ContextDir := "";
  c_SourcePath := "default"; c_SourcePathByPlatform := overlays "openshift" "openshift" "default";
  c_Namespace := ""; c_ContainerName := ""; c_DeploymentName := "ray-module-operator-controller-manager";
  c_ControllerImage := "RELATED_IMAGE_ODH_RAY_MODULE_OPERATOR_IMAGE"; c_InitContainerName := "";
  c_RelatedImages := ["RELATED_IMAGE_ODH_KUBERAY_OPERATOR_CONTROLLER_IMAGE"; "RELATED_IMAGE_ODH_KUBE_RBAC_PROXY_IMAGE"];
  c_SubmoduleConditions := []; c_ExtraEnv := ∅;
|}.

Definition PopulatePlatformModule := set_state "Ray" Ray_State.
Definition IsEnabled := field_managed "Ray".

Definition BuildModuleCR (_ : bool) (dscCtx : option Ctx) (cfg : option ModuleCRConfig) : prog HandlerE (result Unstructured) :=
  mret (match ctx_spec dscCtx with
        | None => Err (no_dsc "Ray")
        | Some dsc =>
            match ToUnstructured CommonEmpty with
            | Err err => Err (wrapf "failed to convert RayCommonSpec to unstructured" err)
            | Ok spec => Ok (module_object Config (match cfg with
                                        | Some cfg => map_set spec "applicationsNamespace" (VString (cr_ApplicationsNamespace cfg))
                                        | None => spec
                                        end) None)
            end
        end).

Definition NewHandler : handler := plain_handler Config PopulatePlatformModule IsEnabled BuildModuleCR.

End methods.
End Ray.

Module SparkOperator.
Section methods.
Context `{Converter}.

Definition Config : ModuleConfig Ctx := {|
  c_Name := "sparkoperator"; c_GVK := component_gvk "SparkOperator"; c_CRName := "default-sparkoperator";
  c_ReleaseName := ""; c_ChartDir := ""; c_Values := ∅; c_NamespaceValueKey := "";
  c_ManifestDir := "sparkoperator"; c_ContextDir := ""; c_SourcePath := "default";
  c_SourcePathByPlatform := ∅; c_Namespace := ""; c_ContainerName := "";
  c_DeploymentName := "spark-operator-module-controller-manager";
  c_ControllerImage := "RELATED_IMAGE_ODH_SPARK_OPERATOR_MODULE_IMAGE"; c_InitContainerName := "";
  c_RelatedImages := ["RELATED_IMAGE_ODH_SPARK_OPERATOR_IMAGE"]; c_SubmoduleConditions := []; c_ExtraEnv := ∅;
|}.

Definition PopulatePlatformModule := set_state "SparkOperator" SparkOperator_State.
Definition IsEnabled := field_managed "SparkOperator".

Definition BuildModuleCR (_ : bool) (dscCtx : option Ctx) (_ : option ModuleCRConfig) : prog HandlerE (result Unstructured) :=
  mret (match ctx_spec dscCtx with
        | None => Err (no_dsc "SparkOperator")
        | Some dsc =>
            match ToUnstructured CommonEmpty with
            | Err err => Err (wrapf "failed to convert SparkOperatorCommonSpec to unstructured" err)
            | Ok spec => Ok (module_object Config spec None)
            end
        end).

Definition NewHandler : handler := plain_handler Config PopulatePlatformModule IsEnabled BuildModuleCR.

End methods.
End SparkOperator.

Module Trainer.
Section methods.
Context `{Converter}.

Definition relatedImages : list string :=
  ["RELATED_IMAGE_ODH_TRAINER_IMAGE"; "RELATED_IMAGE_ODH_TH_TORCH_CUDA_PY312_IMAGE";
   "RELATED_IMAGE_ODH_TH_TORCH_ROCM_PY312_IMAGE"; "RELATED_IMAGE_ODH_TH_TORCH_CPU_PY312_IMAGE";
   "RELATED_IMAGE_RHAII_MODEL_OPT_CUDA_IMAGE"; "RELATED_IMAGE_RHAII_VLLM_CUDA_IMAGE"].

Definition Config : ModuleConfig Ctx := {|
  c_Name := "trainer"; c_GVK := component_gvk "Trainer"; c_CRName := "default-trainer"; c_ReleaseName := "";
  c_ChartDir := ""; c_Values := ∅; c_NamespaceValueKey := ""; c_ManifestDir := "trainer";
  c_ContextDir := "default"; c_SourcePath := ""; c_SourcePathByPlatform := ∅; c_Namespace := "";
  c_ContainerName := ""; c_DeploymentName := "trainer-operator-controller-manager";
  c_ControllerImage := "RELATED_IMAGE_ODH_TRAINER_OPERATOR_IMAGE"; c_InitContainerName := "";
  c_RelatedImages := relatedImages; c_SubmoduleConditions := []; c_ExtraEnv := ∅;
|}.

Definition PopulatePlatformModule := set_state "Trainer" Trainer_State.
Definition IsEnabled := field_managed "Trainer".

Definition BuildModuleCR (_ : bool) (dscCtx : option Ctx) (cfg : option ModuleCRConfig) : prog HandlerE (result Unstructured) :=
  mret (match ctx_spec dscCtx with
        | None => Err (no_dsc "Trainer")
        | Some dsc =>
            match ToUnstructured CommonEmpty with
            | Err err => Err (wrapf "failed to convert TrainerCommonSpec to unstructured" err)
            | Ok spec => Ok (module_object Config (match cfg with
                                        | Some cfg => map_set spec "appNamespace" (VString (cr_ApplicationsNamespace cfg))
                                        | None => spec
                                        end) None)
            end
        end).

Definition NewHandler : handler := plain_handler Config PopulatePlatformModule IsEnabled BuildModuleCR.

End methods.
End Trainer.

Module TrustyAI.
Section methods.
Context `{Converter}.

Definition relatedImages : list string :=
  ["RELATED_IMAGE_ODH_TRUSTYAI_SERVICE_PY_IMAGE"; "RELATED_IMAGE_ODH_TRUSTYAI_SERVICE_OPERATOR_IMAGE";
   "RELATED_IMAGE_ODH_TA_LMES_DRIVER_IMAGE"; "RELATED_IMAGE_ODH_TA_LMES_JOB_IMAGE";
   "RELATED_IMAGE_ODH_FMS_GUARDRAILS_ORCHESTRATOR_IMAGE";
   "RELATED_IMAGE_ODH_TRUSTYAI_VLLM_ORCHESTRATOR_GATEWAY_IMAGE";
   "RELATED_IMAGE_ODH_BUILT_IN_DETECTOR_IMAGE"; "RELATED_IMAGE_ODH_PYTHON_312_IMAGE";
   "RELATED_IMAGE_ODH_TRUSTYAI_GARAK_LLS_PROVIDER_DSP_IMAGE";
   "RELATED_IMAGE_ODH_TRUSTYAI_NEMO_GUARDRAILS_SERVER_IMAGE"; "RELATED_IMAGE_ODH_EVAL_HUB_IMAGE";
   "RELATED_IMAGE_ODH_EVAL_HUB_LIGHTEVAL_IMAGE"; "RELATED_IMAGE_ODH_EVAL_HUB_INSPECTAI_IMAGE";
   "RELATED_IMAGE_ODH_KUBE_RBAC_PROXY_IMAGE"].

Definition Config : ModuleConfig Ctx := {|
  c_Name := "trustyai"; c_GVK := component_gvk "TrustyAI"; c_CRName := "default-trustyai";
  c_ReleaseName := ""; c_ChartDir := ""; c_Values := ∅; c_NamespaceValueKey := "";
  c_ManifestDir := "trustyai"; c_ContextDir := "default"; c_SourcePath := ""; c_SourcePathByPlatform := ∅;
  c_Namespace := ""; c_ContainerName := ""; c_DeploymentName := "trustyai-operator-module-controller-manager";
  c_ControllerImage := "RELATED_IMAGE_ODH_TRUSTYAI_MODULE_OPERATOR_IMAGE"; c_InitContainerName := "";
  c_RelatedImages := relatedImages; c_SubmoduleConditions := []; c_ExtraEnv := ∅;
|}.

Definition PopulatePlatformModule := set_state "TrustyAI" TrustyAI_State.
Definition IsEnabled := field_managed "TrustyAI".

Definition BuildModuleCR (_ : bool) (dscCtx : option Ctx) (_ : option ModuleCRConfig) : prog HandlerE (result Unstructured) :=
  mret (match ctx_spec dscCtx with
        | None => Err (no_dsc "TrustyAI")
        | Some dsc =>
            match ToUnstructured (CommonTrustyAI (TrustyAI_Spec dsc)) with
            | Err err => Err (wrapf "failed to convert TrustyAICommonSpec to unstructured" err)
            | Ok spec => Ok (module_object Config spec None)
            end
        end).

Definition NewHandler : handler := plain_handler Config PopulatePlatformModule IsEnabled BuildModuleCR.

End methods.
End TrustyAI.

Module Kserve.
Section methods.
Context `{Converter}.

Definition relatedImages : list string :=
  ["RELATED_IMAGE_ODH_GUARDRAILS_DETECTOR_HUGGINGFACE_RUNTIME_IMAGE";
   "RELATED_IMAGE_ODH_KSERVE_AUTOGLUON_SERVER_IMAGE"; "RELATED_IMAGE_ODH_KSERVE_AGENT_IMAGE";
   "RELATED_IMAGE_ODH_KSERVE_CONTROLLER_IMAGE"; "RELATED_IMAGE_ODH_KSERVE_LLMISVC_CONTROLLER_IMAGE";
   "RELATED_IMAGE_ODH_KSERVE_LOCALMODEL_CONTROLLER_IMAGE";
   "RELATED_IMAGE_ODH_KSERVE_LOCALMODELNODE_AGENT_IMAGE"; "RELATED_IMAGE_ODH_KSERVE_ROUTER_IMAGE";
   "RELATED_IMAGE_ODH_KSERVE_STORAGE_INITIALIZER_IMAGE"; "RELATED_IMAGE_ODH_KUBE_RBAC_PROXY_IMAGE";
   "RELATED_IMAGE_ODH_LLM_D_ROUTER_DISAGG_SIDECAR_IMAGE";
   "RELATED_IMAGE_ODH_LLM_D_ROUTER_ENDPOINT_PICKER_IMAGE"; "RELATED_IMAGE_ODH_LLM_D_KV_PVC_EVICTOR_IMAGE";
   "RELATED_IMAGE_ODH_MLSERVER_IMAGE"; "RELATED_IMAGE_ODH_MLSERVER_CUDA_IMAGE";
   "RELATED_IMAGE_ODH_MODELEXPRESS_IMAGE"; "RELATED_IMAGE_ODH_MODELEXPRESS_OPERATOR_IMAGE";
   "RELATED_IMAGE_ODH_MODEL_CONTROLLER_IMAGE"; "RELATED_IMAGE_ODH_MODEL_SERVING_API_IMAGE";
   "RELATED_IMAGE_ODH_OPENVINO_MODEL_SERVER_IMAGE"; "RELATED_IMAGE_OSC_STORAGE_HELPER_IMAGE";
   "RELATED_IMAGE_RHAII_VLLM_CPU_FAST_1_IMAGE";
   "RELATED_IMAGE_RHAII_VLLM_CPU_FAST_1_IMAGE_UPSTREAM_VERSION";
   "RELATED_IMAGE_RHAII_VLLM_CPU_FAST_2_IMAGE";
   "RELATED_IMAGE_RHAII_VLLM_CPU_FAST_2_IMAGE_UPSTREAM_VERSION"; "RELATED_IMAGE_RHAII_VLLM_CPU_IMAGE";
   "RELATED_IMAGE_RHAII_VLLM_CPU_IMAGE_UPSTREAM_VERSION"; "RELATED_IMAGE_RHAII_VLLM_CPU_PZ_FAST_1_IMAGE";
   "RELATED_IMAGE_RHAII_VLLM_CPU_PZ_FAST_1_IMAGE_UPSTREAM_VERSION";
   "RELATED_IMAGE_RHAII_VLLM_CPU_PZ_FAST_2_IMAGE";
   "RELATED_IMAGE_RHAII_VLLM_CPU_PZ_FAST_2_IMAGE_UPSTREAM_VERSION"; "RELATED_IMAGE_RHAII_VLLM_CPU_PZ_IMAGE";
   "RELATED_IMAGE_RHAII_VLLM_CPU_PZ_IMAGE_UPSTREAM_VERSION"; "RELATED_IMAGE_RHAII_VLLM_CUDA_FAST_1_IMAGE";
   "RELATED_IMAGE_RHAII_VLLM_CUDA_FAST_1_IMAGE_UPSTREAM_VERSION";
   "RELATED_IMAGE_RHAII_VLLM_CUDA_FAST_2_IMAGE";
   "RELATED_IMAGE_RHAII_VLLM_CUDA_FAST_2_IMAGE_UPSTREAM_VERSION"; "RELATED_IMAGE_RHAII_VLLM_CUDA_IMAGE";
   "RELATED_IMAGE_RHAII_VLLM_CUDA_IMAGE_UPSTREAM_VERSION"; "RELATED_IMAGE_RHAII_VLLM_GAUDI_FAST_1_IMAGE";
   "RELATED_IMAGE_RHAII_VLLM_GAUDI_FAST_1_IMAGE_UPSTREAM_VERSION";
   "RELATED_IMAGE_RHAII_VLLM_GAUDI_FAST_2_IMAGE";
   "RELATED_IMAGE_RHAII_VLLM_GAUDI_FAST_2_IMAGE_UPSTREAM_VERSION"; "RELATED_IMAGE_RHAII_VLLM_GAUDI_IMAGE";
   "RELATED_IMAGE_RHAII_VLLM_GAUDI_IMAGE_UPSTREAM_VERSION";
   "RELATED_IMAGE_RHAII_VLLM_OMNI_CUDA_FAST_1_IMAGE";
   "RELATED_IMAGE_RHAII_VLLM_OMNI_CUDA_FAST_1_IMAGE_UPSTREAM_VERSION";
   "RELATED_IMAGE_RHAII_VLLM_OMNI_CUDA_FAST_2_IMAGE";
   "RELATED_IMAGE_RHAII_VLLM_OMNI_CUDA_FAST_2_IMAGE_UPSTREAM_VERSION";
   "RELATED_IMAGE_RHAII_VLLM_OMNI_CUDA_IMAGE"; "RELATED_IMAGE_RHAII_VLLM_OMNI_CUDA_IMAGE_UPSTREAM_VERSION";
   "RELATED_IMAGE_RHAII_VLLM_ROCM_FAST_1_IMAGE";
   "RELATED_IMAGE_RHAII_VLLM_ROCM_FAST_1_IMAGE_UPSTREAM_VERSION";
   "RELATED_IMAGE_RHAII_VLLM_ROCM_FAST_2_IMAGE";
   "RELATED_IMAGE_RHAII_VLLM_ROCM_FAST_2_IMAGE_UPSTREAM_VERSION"; "RELATED_IMAGE_RHAII_VLLM_ROCM_IMAGE";
   "RELATED_IMAGE_RHAII_VLLM_ROCM_IMAGE_UPSTREAM_VERSION"; "RELATED_IMAGE_RHAII_VLLM_SPYRE_FAST_1_IMAGE";
   "RELATED_IMAGE_RHAII_VLLM_SPYRE_FAST_1_IMAGE_UPSTREAM_VERSION";
   "RELATED_IMAGE_RHAII_VLLM_SPYRE_FAST_2_IMAGE";
   "RELATED_IMAGE_RHAII_VLLM_SPYRE_FAST_2_IMAGE_UPSTREAM_VERSION"; "RELATED_IMAGE_RHAII_VLLM_SPYRE_IMAGE";
   "RELATED_IMAGE_RHAII_VLLM_SPYRE_IMAGE_UPSTREAM_VERSION"; "RELATED_IMAGE_ODH_UBI_MICRO_IMAGE"].

Definition LLMInferenceServiceDependencies : string := "KserveLLMInferenceServiceDependencies".
Definition LLMInferenceServiceWideEPDependencies : string := "KserveLLMInferenceServiceWideEPDependencies".
Definition ConfidentialContainerDependencies : string := "KserveConfidentialContainerDependencies".

(** Without a predicate and a status field. *)
Definition submodules : list (SubmoduleCondition Ctx) :=
  (λ ty, MkSubmodule ty ty "" None) <$>
    [LLMInferenceServiceDependencies; LLMInferenceServiceWideEPDependencies; ConfidentialContainerDependencies].

Definition Config : ModuleConfig Ctx := {|
  c_Name := "kserve"; c_GVK := component_gvk "Kserve"; c_CRName := "default-kserve"; c_ReleaseName := "";
  c_ChartDir := ""; c_Values := ∅; c_NamespaceValueKey := ""; c_ManifestDir := "kserve-module-operator";
  c_ContextDir := ""; c_SourcePath := ""; c_SourcePathByPlatform := ∅; c_Namespace := "";
  c_ContainerName := ""; c_DeploymentName := "kserve-module-controller-manager";
  c_ControllerImage := "RELATED_IMAGE_ODH_KSERVE_MODULE_OPERATOR_IMAGE"; c_InitContainerName := "";
  c_RelatedImages := relatedImages; c_SubmoduleConditions := submodules; c_ExtraEnv := ∅;
|}.

(** The connection API's manifests come with KServe. *)
Definition GetOperatorManifests (platform : option PlatformContext) : OperatorManifests :=
  let result := BaseHandler.GetOperatorManifests Config platform in
  match platform with
  | Some p =>
      if nonempty_str (p_ManifestsBasePath p)
      then MkManifests (HelmCharts result)
             (Manifests result ++ [MkManifest (p_ManifestsBasePath p) "connectionAPI" "" ""])
      else result
  | None => result
  end.

Definition PopulatePlatformModule := set_state "Kserve" Kserve_State.
Definition IsEnabled := field_managed "Kserve".

Definition BuildModuleCR (_ : bool) (dscCtx : option Ctx) (_ : option ModuleCRConfig) : prog HandlerE (result Unstructured) :=
  mret (match ctx_spec dscCtx with
        | None => Err (no_dsc "kserve")
        | Some dsc =>
            match ToUnstructured (CommonKserve (Kserve_Spec dsc)) with
            | Err err => Err (wrapf "failed to convert KserveCommonSpec to unstructured" err)
            | Ok spec =>
                let aiHubState := ah_ManagementState (AIHub_Spec dsc) in
                let aiHubState := if String.eqb aiHubState "" then Removed else aiHubState in
                Ok (module_object Config
                      (map_set spec "modelRegistry" (VMap [("managementState", VString aiHubState)])) None)
            end
        end).

Definition NewHandler : handler :=
  MkModule Config PopulatePlatformModule IsEnabled (BaseHandler.GetReadyConditionType Config) GetOperatorManifests
    (BaseMethods.DeleteOperatorResources Config) BuildModuleCR (BaseMethods.WriteDSCComponentStatus Config) None.

End methods.
End Kserve.

(** ** Handlers with a specification of their own *)

Module AIHub.

Definition relatedImages : list string :=
  ["RELATED_IMAGE_ODH_MODEL_REGISTRY_OPERATOR_IMAGE"; "RELATED_IMAGE_ODH_MODEL_REGISTRY_IMAGE";
   "RELATED_IMAGE_POSTGRESQL_16_IMAGE"; "RELATED_IMAGE_ODH_KUBE_RBAC_PROXY_IMAGE";
   "RELATED_IMAGE_ODH_MODEL_METADATA_COLLECTION_IMAGE"; "RELATED_IMAGE_ODH_MODEL_PERFORMANCE_DATA_IMAGE";
   "RELATED_IMAGE_ODH_MODEL_REGISTRY_JOB_ASYNC_UPLOAD_IMAGE"].

Definition Config : ModuleConfig Ctx := {|
  c_Name := "aihub"; c_GVK := component_gvk "AIHub"; c_CRName := "default-aihub"; c_ReleaseName := "";
  c_ChartDir := ""; c_Values := ∅; c_NamespaceValueKey := ""; c_ManifestDir := "aihub"; c_ContextDir := "";
  c_SourcePath := "overlays/aihub"; c_SourcePathByPlatform := ∅; c_Namespace := ""; c_ContainerName := "";
  c_DeploymentName := "aihub-controller-manager";
  c_ControllerImage := "RELATED_IMAGE_ODH_MODEL_REGISTRY_OPERATOR_IMAGE"; c_InitContainerName := "";
  c_RelatedImages := relatedImages; c_SubmoduleConditions := []; c_ExtraEnv := ∅;
|}.

Definition PopulatePlatformModule := set_state "AIHub" (λ dsc, ah_ManagementState (AIHub_Spec dsc)).
Definition IsEnabled := field_managed "AIHub".

Definition GetReadyConditionType : string := "AIHub" +:+ ReadySuffix.

(** [AIHubCommonStatus] is allocated for the namespace if it was nil. *)
Definition WriteDSCComponentStatus (spec : ComponentsSpec) (dsc : option DscStatus) (enabled : bool)
    (releases : list ComponentRelease) : option DscStatus :=
  match dsc with
  | None => None
  | Some _ =>
      st ← BaseMethods.WriteDSCComponentStatus Config spec dsc enabled releases;
      let instancesNamespace := if enabled then ah_InstancesNamespace (AIHub_Spec spec) else "" in
      match ds_Components st !! "AIHub" with
      | Some (MkField ms (Some common)) =>
          let common := match common with
                        | None => if nonempty_str instancesNamespace then Some [] else None
                        | Some _ => common
                        end in
          let comps := <["AIHub" := MkField ms (Some common)]> (ds_Components st) in
          match common with
          | Some _ => Some (MkDscStatus comps (<["AIHub" := instancesNamespace]> (ds_Namespaces st)))
          | None => Some (MkDscStatus comps (ds_Namespaces st))
          end
      | _ => Some st
      end
  end.

Definition BuildModuleCR (_ : bool) (dscCtx : option Ctx) (cfg : option ModuleCRConfig) : prog HandlerE (result Unstructured) :=
  mret (match ctx_spec dscCtx with
        | None => Err (no_dsc "AIHub")
        | Some dsc =>
            let managementState := NormalizeManagementState (ah_ManagementState (AIHub_Spec dsc)) in
            let appNS := match cfg with Some cfg => cr_ApplicationsNamespace cfg | None => "" end in
            let spec := [("applicationNamespace", VString appNS);
                         ("instancesNamespace", VString (ah_InstancesNamespace (AIHub_Spec dsc)))] in
            Ok (module_object Config (set_gateway cfg spec)
                  (Some [(ManagementStateAnnotation, VString managementState)]))
        end).

Definition NewHandler : handler :=
  MkModule Config PopulatePlatformModule IsEnabled GetReadyConditionType (BaseHandler.GetOperatorManifests Config)
    (BaseMethods.DeleteOperatorResources Config) BuildModuleCR WriteDSCComponentStatus None.
End AIHub.

Module AIPipelines.

Definition relatedImages : list string :=
  ["RELATED_IMAGE_ODH_ML_PIPELINES_API_SERVER_V2_IMAGE";
   "RELATED_IMAGE_ODH_ML_PIPELINES_PERSISTENCEAGENT_V2_IMAGE";
   "RELATED_IMAGE_ODH_ML_PIPELINES_SCHEDULEDWORKFLOW_V2_IMAGE";
   "RELATED_IMAGE_ODH_DATA_SCIENCE_PIPELINES_ARGO_ARGOEXEC_IMAGE";
   "RELATED_IMAGE_ODH_DATA_SCIENCE_PIPELINES_ARGO_WORKFLOWCONTROLLER_IMAGE";
   "RELATED_IMAGE_ODH_ML_PIPELINES_DRIVER_IMAGE"; "RELATED_IMAGE_ODH_ML_PIPELINES_LAUNCHER_IMAGE";
   "RELATED_IMAGE_ODH_MLMD_GRPC_SERVER_IMAGE"; "RELATED_IMAGE_ODH_ML_PIPELINES_RUNTIME_GENERIC_IMAGE";
   "RELATED_IMAGE_DSP_PROXYV2_IMAGE"; "RELATED_IMAGE_DSP_MARIADB_IMAGE"; "RELATED_IMAGE_DSP_TOOLBOX_IMAGE";
   "RELATED_IMAGE_DSP_INSTRUCTLAB_NVIDIA_IMAGE"; "RELATED_IMAGE_ODH_KUBE_RBAC_PROXY_IMAGE";
   "RELATED_IMAGE_ODH_PIPELINES_COMPONENTS_IMAGE"; "RELATED_IMAGE_ODH_AUTOML_IMAGE";
   "RELATED_IMAGE_ODH_AUTORAG_IMAGE"].

Definition Config : ModuleConfig Ctx := {|
  c_Name := "aipipelines"; c_GVK := component_gvk "AIPipelines"; c_CRName := "default-aipipelines";
  c_ReleaseName := ""; c_ChartDir := ""; c_Values := ∅; c_NamespaceValueKey := "";
  c_ManifestDir := "datasciencepipelines"; c_ContextDir := ""; c_SourcePath := "";
  c_SourcePathByPlatform := overlays "overlays/odh/dspo" "overlays/rhoai/dspo" "overlays/rhoai/dspo";
  c_Namespace := ""; c_ContainerName := "";
  c_DeploymentName := "data-science-pipelines-operator-controller-manager";
  c_ControllerImage := "RELATED_IMAGE_ODH_DATA_SCIENCE_PIPELINES_OPERATOR_CONTROLLER_IMAGE";
  c_InitContainerName := ""; c_RelatedImages := relatedImages; c_SubmoduleConditions := [];
  c_ExtraEnv := {["DSPO_ENABLEAIPIPELINESMODULECONTROLLER" := "true"]};
|}.

Definition PopulatePlatformModule := set_state "AIPipelines" AIPipelines_State.
Definition IsEnabled := field_managed "AIPipelines".

(** The Argo controllers are Managed unless their section says otherwise. *)
Definition BuildModuleCR (_ : bool) (dscCtx : option Ctx) (_ : option ModuleCRConfig) : prog HandlerE (result Unstructured) :=
  mret (match ctx_spec dscCtx with
        | None => Err (no_dsc "AIPipelines")
        | Some dsc =>
            let argoState := match AIPipelines_Argo dsc with
                             | Some state => if nonempty_str state then NormalizeManagementState state else Managed
                             | None => Managed
                             end in
            Ok (module_object Config
                  [("argoWorkflowsControllers", VMap [("managementState", VString argoState)])] None)
        end).

Definition NewHandler : handler := plain_handler Config PopulatePlatformModule IsEnabled BuildModuleCR.
End AIPipelines.

Module Dashboard.

Definition relatedImages : list string :=
  ["RELATED_IMAGE_ODH_DASHBOARD_IMAGE"; "RELATED_IMAGE_ODH_MOD_ARCH_MODEL_REGISTRY_IMAGE";
   "RELATED_IMAGE_ODH_MOD_ARCH_GEN_AI_IMAGE"; "RELATED_IMAGE_ODH_MOD_ARCH_MLFLOW_IMAGE";
   "RELATED_IMAGE_ODH_MOD_ARCH_MAAS_IMAGE"; "RELATED_IMAGE_ODH_MOD_ARCH_EVAL_HUB_IMAGE";
   "RELATED_IMAGE_ODH_KUBE_RBAC_PROXY_IMAGE"; "RELATED_IMAGE_ODH_MODEL_REGISTRY_JOB_ASYNC_UPLOAD_IMAGE";
   "RELATED_IMAGE_ODH_MOD_ARCH_AUTOML_IMAGE"; "RELATED_IMAGE_ODH_AUTOML_IMAGE";
   "RELATED_IMAGE_ODH_MOD_ARCH_AUTORAG_IMAGE"; "RELATED_IMAGE_ODH_MOD_ARCH_DATA_CONNECT_HUB_IMAGE";
   "RELATED_IMAGE_ODH_MOD_ARCH_NOTEBOOKS_IMAGE"; "RELATED_IMAGE_ODH_MOD_ARCH_AGENT_OPS_IMAGE";
   "RELATED_IMAGE_ODH_MOD_ARCH_DATA_REGISTRY_IMAGE"; "RELATED_IMAGE_ODH_AUTORAG_IMAGE";
   "RELATED_IMAGE_ODH_CORE_BFF_IMAGE"; "RELATED_IMAGE_POSTGRESQL_16_IMAGE";
   "RELATED_IMAGE_ODH_OGX_CORE_IMAGE"].

Definition emptyRelatedImageValues : value := empty_values relatedImages.

(** The chart's defaults that the handler overrides. *)
Definition chart_values : gmap string value := list_to_map
  [("namePrefix", VString ""); ("webhook", VMap [("enabled", VBool false)]);
   ("relatedImages", emptyRelatedImageValues)].

Definition submodules : list (SubmoduleCondition Ctx) :=
  [MkSubmodule "MaaSPortalAvailable" "MaaSPortalAvailable" "MaaSPortal"
     (Some (submodule_enabled (λ dsc, db_MaaSPortal (DashboardSpec dsc))))].

Definition Config : ModuleConfig Ctx := {|
  c_Name := "dashboard"; c_GVK := component_gvk "Dashboard"; c_CRName := "default-dashboard";
  c_ReleaseName := "dashboard-operator"; c_ChartDir := "dashboard-operator"; c_Values := chart_values;
  c_NamespaceValueKey := "namespace"; c_ManifestDir := ""; c_ContextDir := ""; c_SourcePath := "";
  c_SourcePathByPlatform := ∅; c_Namespace := ""; c_ContainerName := ""; c_DeploymentName := "";
  c_ControllerImage := "RELATED_IMAGE_ODH_DASHBOARD_OPERATOR_IMAGE"; c_InitContainerName := "";
  c_RelatedImages := relatedImages; c_SubmoduleConditions := submodules; c_ExtraEnv := ∅;
|}.

(** One Deployment serves the dashboard and the portal. *)
Definition PopulatePlatformModule (pm : option PlatformModules) (dscCtx : option Ctx) : option PlatformModules :=
  match pm, ctx_spec dscCtx with
  | Some pm, Some dsc =>
      let state :=
        if String.eqb (db_Standard (DashboardSpec dsc)) Managed then Managed
        else if String.eqb (db_MaaSPortal (DashboardSpec dsc)) Managed then Managed
        else Removed in
      Some (<["Dashboard" := state]> pm)
  | _, _ => pm
  end.

Definition IsEnabled := field_managed "Dashboard".

Definition managed_or_removed (state : string) : value :=
  VString (if String.eqb state Managed then Managed else Removed).

Definition dashboardModuleSpec (dashboard : DSCDashboard) : value_map :=
  [("managementState", managed_or_removed (db_Standard dashboard));
   ("maasPortal", VMap [("managementState", managed_or_removed (db_MaaSPortal dashboard))])].

Definition component_refs (dsc : ComponentsSpec) : list (string * string) :=
  [("modelregistry", ah_ManagementState (AIHub_Spec dsc)); ("mlflowoperator", MLflowOperator_State dsc);
   ("trustyai", TrustyAI_State dsc); ("aipipelines", AIPipelines_State dsc);
   ("dataRegistry", Data_DataRegistry dsc)].

Definition buildComponentsMap (dsc : ComponentsSpec) : value_map :=
  (λ ref : string * string,
     (ref.1, VMap [("managementState", VString (NormalizeManagementState ref.2))])) <$> component_refs dsc.

Definition resolveNotebooksNamespace (dscCtx : option Ctx) (cfg : option ModuleCRConfig) : string :=
  match ctx_spec dscCtx with
  | None => ""
  | Some dsc =>
      if negb (String.eqb (Workbenches_State dsc) Managed) then ""
      else
        let ns := wb_WorkbenchNamespace (Workbenches_Spec dsc) in
        if nonempty_str ns then ns
        else
          match cfg with
          | Some cfg =>
              if String.eqb (cr_ReleaseName cfg) SelfManagedRhoai || String.eqb (cr_ReleaseName cfg) ManagedRhoai
              then "rhods-notebooks" else "opendatahub"
          | None => "opendatahub"
          end
  end.

Definition resolveAIHubNamespace (dscCtx : option Ctx) : string :=
  match ctx_spec dscCtx with
  | None => ""
  | Some dsc =>
      if negb (String.eqb (ah_ManagementState (AIHub_Spec dsc)) Managed) then ""
      else ah_InstancesNamespace (AIHub_Spec dsc)
  end.

(** [if ns != "" { spec[key] = ns }]. *)
Definition set_namespace (key ns : string) (spec : value_map) : value_map :=
  if nonempty_str ns then map_set spec key (VString ns) else spec.

Definition BuildModuleCR (_ : bool) (dscCtx : option Ctx) (cfg : option ModuleCRConfig) : prog HandlerE (result Unstructured) :=
  mret (match ctx_spec dscCtx with
        | None => Err (no_dsc "Dashboard")
        | Some dsc =>
            let spec := map_set (dashboardModuleSpec (DashboardSpec dsc)) "components" (VMap (buildComponentsMap dsc)) in
            let spec := set_namespace "notebooksNamespace" (resolveNotebooksNamespace dscCtx cfg) spec in
            let spec := set_namespace "modelRegistryNamespace" (resolveAIHubNamespace dscCtx) spec in
            Ok (module_object Config (set_gateway cfg spec) None)
        end).

Definition NewHandler : handler := plain_handler Config PopulatePlatformModule IsEnabled BuildModuleCR.
End Dashboard.

Module Data.
Section methods.
Context `{URIParser}.

Definition Config : ModuleConfig Ctx := {|
  c_Name := "data"; c_GVK := component_gvk "FeastOperator"; c_CRName := "default-feastoperator";
  c_ReleaseName := "opendatahub-feast-operator"; c_ChartDir := "data"; c_Values := ∅;
  c_NamespaceValueKey := "namespace"; c_ManifestDir := ""; c_ContextDir := ""; c_SourcePath := "";
  c_SourcePathByPlatform := ∅; c_Namespace := ""; c_ContainerName := ""; c_DeploymentName := "";
  c_ControllerImage := "RELATED_IMAGE_ODH_FEAST_MODULE_OPERATOR_IMAGE";
  c_InitContainerName := "copy-manifests";
  c_RelatedImages := ["RELATED_IMAGE_ODH_FEAST_OPERATOR_IMAGE"; "RELATED_IMAGE_ODH_FEATURE_SERVER_IMAGE";
    "RELATED_IMAGE_ODH_KUBE_RBAC_PROXY_IMAGE"];
  c_SubmoduleConditions := []; c_ExtraEnv := ∅;
|}.

Definition PopulatePlatformModule (pm : option PlatformModules) (dscCtx : option Ctx) : option PlatformModules :=
  match pm, ctx_spec dscCtx with
  | Some pm, Some dsc =>
      let state :=
        if String.eqb (Data_FeatureStore dsc) Managed then Managed
        else if String.eqb (Data_DataRegistry dsc) Managed then Managed
        else Removed in
      Some (<["Data" := state]> pm)
  | _, _ => pm
  end.

Definition IsEnabled := field_managed "Data".

Definition GetReadyConditionType : string := "DataReady".

(** The status field is [Data], whatever the kind of the CR; a nil [DataCommonStatus] is
    allocated when there are releases. *)
Definition WriteDSCComponentStatus (_ : ComponentsSpec) (dsc : option DscStatus) (enabled : bool)
    (releases : list ComponentRelease) : option DscStatus :=
  match dsc with
  | None => None
  | Some st =>
      let managementState := if enabled then Managed else Removed in
      match ds_Components st !! "Data" with
      | Some (MkField _ (Some common)) =>
          let common := match common, releases with None, _ :: _ => Some [] | _, _ => common end in
          let common := match common with Some _ => Some releases | None => None end in
          Some (MkDscStatus (<["Data" := MkField (Some managementState) (Some common)]> (ds_Components st))
                  (ds_Namespaces st))
      | _ => Some st
      end
  end.

(** The issuer, checked; [None] when OIDC is not used or not configured yet. *)
Definition getGatewayOIDCSpec : prog HandlerE (result (option string)) :=
  auth ← trigger GetAuthentication;
  match GetClusterAuthenticationMode auth with
  | Err err =>
      mret (if err_is TagNotFound err then Ok None
            else Err (wrapf "failed to detect cluster authentication mode" err))
  | Ok authMode =>
      if negb (String.eqb authMode AuthModeOIDC) then mret (Ok None)
      else
        issuer ← trigger GetGatewayIssuer;
        mret (match issuer with
              | Err err => if err_is TagNotFound err then Ok None
                           else Err (wrapf "failed to get GatewayConfig" err)
              | Ok None => Ok None
              | Ok (Some issuer) =>
                  if String.eqb issuer "" then Ok None
                  else
                    match ParseRequestURI issuer with
                    | Err err => Err (wrapf "invalid OIDC issuer URL in GatewayConfig" err)
                    | Ok parsed =>
                        if negb (String.eqb (uri_Scheme parsed) "https") || String.eqb (uri_Host parsed) ""
                        then Err (errorf ("OIDC issuer URL must be an absolute https URL, got " +:+ quote issuer))
                        else Ok (Some (uri_String parsed))
                    end
              end)
  end.

Definition state_or_removed (state : string) : value := VString (if String.eqb state "" then Removed else state).

(** The capabilities the DSC asks for; none without a DSC. *)
Definition capabilities (dscCtx : option Ctx) (spec : value_map) : value_map :=
  match ctx_spec dscCtx with
  | None => spec
  | Some dsc =>
      map_set spec "capabilities"
        (VMap [("featureStore", VMap [("managementState", state_or_removed (Data_FeatureStore dsc))]);
               ("dataRegistry", VMap [("managementState", state_or_removed (Data_DataRegistry dsc))])])
  end.

Definition BuildModuleCR (cli : bool) (dscCtx : option Ctx) (_ : option ModuleCRConfig) : prog HandlerE (result Unstructured) :=
  if negb cli then mret (Err (errorf "kubernetes client is nil, cannot resolve OIDC for FeastOperator CR"))
  else
    oidcSpec ← getGatewayOIDCSpec;
    mret (match oidcSpec with
          | Err err => Err (wrapf "failed to resolve OIDC for FeastOperator CR" err)
          | Ok oidcSpec =>
              let spec := match oidcSpec with
                          | Some issuer => [("oidc", VMap [("issuerURL", VString issuer)])]
                          | None => []
                          end in
              Ok (module_object Config (capabilities dscCtx spec) None)
          end).

Definition NewHandler : handler :=
  MkModule Config PopulatePlatformModule IsEnabled GetReadyConditionType (BaseHandler.GetOperatorManifests Config)
    (BaseMethods.DeleteOperatorResources Config) BuildModuleCR WriteDSCComponentStatus None.

End methods.
End Data.

Module DatabaseService.

Definition Config : ModuleConfig Ctx := {|
  c_Name := "databaseservice"; c_GVK := service_gvk "DatabaseService"; c_CRName := "default-db-operator";
  c_ReleaseName := "opendatahub-db-operator"; c_ChartDir := "databaseservice"; c_Values := ∅;
  c_NamespaceValueKey := ""; c_ManifestDir := ""; c_ContextDir := ""; c_SourcePath := "";
  c_SourcePathByPlatform := ∅; c_Namespace := ""; c_ContainerName := "";
  c_DeploymentName := "odh-db-operator-operator"; c_ControllerImage := "RELATED_IMAGE_ODH_DB_OPERATOR_IMAGE";
  c_InitContainerName := ""; c_RelatedImages := []; c_SubmoduleConditions := []; c_ExtraEnv := ∅;
|}.

(** The values with [openshift.securityContextConstraints]; what else is under [openshift] is kept. *)
Definition scc_values (vals : gmap string value) : gmap string value :=
  let openshift := default [] (v ← vals !! "openshift"; as_map v) in
  <["openshift" := VMap (map_set openshift "securityContextConstraints" (VBool true))]> vals.

Definition GetOperatorManifests (platform : option PlatformContext) : OperatorManifests :=
  let result := BaseHandler.GetOperatorManifests Config platform in
  match platform, HelmCharts result with
  | Some p, chart :: charts =>
      if bool_decide (p_ReleaseName p ∈ [OpenDataHub; SelfManagedRhoai; ManagedRhoai]) then
        MkManifests
          (MkChart (Chart chart) (ReleaseName chart) (ReleaseNamespace chart) (scc_values (Values chart)) :: charts)
          (Manifests result)
      else result
  | _, _ => result
  end.

Definition internalPostgresSCCName : string := "odh-db-internal-postgres".
Definition internalPostgresSCCOwnedLabelKey : string := "db.infrastructure.opendatahub.io/internal-postgres-scc".
Definition internalPostgresSCCOwnedLabelValue : string := "owned".

Definition hasOwnerReferenceUID (refs : list string) (uid : string) : bool := existsb (λ ref, String.eqb ref uid) refs.

Definition deleteOnlyOwnedInternalPostgresSCC (res : Unstructured) : prog HandlerE (bool * option goerr) :=
  if negb (String.eqb (u_name res) internalPostgresSCCName) then mret (true, None)
  else
    live ← trigger (GetLiveObject res);
    match live with
    | Err err =>
        mret (if err_is TagNotFound err then (false, None)
              else (false, Some (wrapf ("checking ownership of " +:+ gvk_Kind (u_gvk res) +:+ " " +:+ u_name res) err)))
    | Ok live =>
        if negb (String.eqb (default "" (own_Labels live !! internalPostgresSCCOwnedLabelKey))
                   internalPostgresSCCOwnedLabelValue)
        then mret (false, None)
        else
          platform ← trigger GetPlatformUID;
          mret (match platform with
                | Err err =>
                    if err_is TagNotFound err then (false, None)
                    else (false, Some (wrapf "resolving Platform CR for ownership check" err))
                | Ok uid => (hasOwnerReferenceUID (own_OwnerUIDs live) uid, None)
                end)
    end.

(** The calls of the base handler's cleanup, its filter being the ownership check. *)
Definition with_filter {X} (e : ClientE X) : prog HandlerE X :=
  match e in ClientE X return prog HandlerE X with
  | FilterResource res => deleteOnlyOwnedInternalPostgresSCC res
  | CliGet gvk ns name => trigger (Cleanup (CliGet gvk ns name))
  | CliDelete res => trigger (Cleanup (CliDelete res))
  | HelmNew chart => trigger (Cleanup (HelmNew chart))
  | HelmProcess chart => trigger (Cleanup (HelmProcess chart))
  | KustomizeRender manifest ns => trigger (Cleanup (KustomizeRender manifest ns))
  end.

Definition DeleteOperatorResources (platform : option PlatformContext) : prog HandlerE (option goerr) :=
  interp (@with_filter) (BaseHandler.DeleteOperatorManifests Config platform (GetOperatorManifests platform) true).

Definition PopulatePlatformModule := set_state "DatabaseService" DatabaseService_State.
Definition IsEnabled := field_managed "DatabaseService".

(** The specification is empty. *)
Definition BuildModuleCR (_ : bool) (dscCtx : option Ctx) (_ : option ModuleCRConfig) : prog HandlerE (result Unstructured) :=
  mret (match ctx_spec dscCtx with
        | None => Err (no_dsc "DatabaseService")
        | Some _ => Ok (module_object Config [] None)
        end).

Definition NewHandler : handler :=
  MkModule Config PopulatePlatformModule IsEnabled (BaseHandler.GetReadyConditionType Config) GetOperatorManifests
    DeleteOperatorResources BuildModuleCR (BaseMethods.WriteDSCComponentStatus Config) None.
End DatabaseService.

Module MLflowOperator.

Definition defaultGatewayName : string := "data-science-gateway".
Definition rhoaiSectionTitle : string := "OpenShift Self Managed Services".
Definition odhSectionTitle : string := "OpenShift Open Data Hub".

Definition sectionTitles : gmap string string := list_to_map
  [(ManagedRhoai, rhoaiSectionTitle); (SelfManagedRhoai, rhoaiSectionTitle); (OpenDataHub, odhSectionTitle)].

Definition overlayByPlatform : gmap string string := overlays "overlays/odh" "overlays/rhoai" "overlays/rhoai".

Definition Config : ModuleConfig Ctx := {|
  c_Name := "mlflowoperator"; c_GVK := component_gvk "MLflowOperator"; c_CRName := "default-mlflowoperator";
  c_ReleaseName := ""; c_ChartDir := ""; c_Values := ∅; c_NamespaceValueKey := "";
  c_ManifestDir := "mlflowoperator"; c_ContextDir := "";
  c_SourcePath := default "" (overlayByPlatform !! OpenDataHub); c_SourcePathByPlatform := overlayByPlatform;
  c_Namespace := ""; c_ContainerName := ""; c_DeploymentName := "mlflow-operator-controller-manager";
  c_ControllerImage := "RELATED_IMAGE_ODH_MLFLOW_OPERATOR_IMAGE"; c_InitContainerName := "";
  c_RelatedImages := ["RELATED_IMAGE_ODH_MLFLOW_IMAGE"; "RELATED_IMAGE_ODH_KUBE_RBAC_PROXY_IMAGE"];
  c_SubmoduleConditions := []; c_ExtraEnv := {["ENABLE_MLFLOW_OPERATOR_MODULE_CONTROLLER" := "true"]};
|}.

Definition PopulatePlatformModule := set_state "MLflowOperator" MLflowOperator_State.
Definition IsEnabled := field_managed "MLflowOperator".

Definition sectionTitle (platformName : string) : string := default "MLflow" (sectionTitles !! platformName).

Definition BuildModuleCR (_ : bool) (dscCtx : option Ctx) (cfg : option ModuleCRConfig) : prog HandlerE (result Unstructured) :=
  mret (match ctx_spec dscCtx with
        | None => Err (no_dsc "MLflowOperator")
        | Some dsc =>
            let managementState := NormalizeManagementState (MLflowOperator_State dsc) in
            let spec := [("gatewayName", VString defaultGatewayName)] in
            let spec := match cfg with
                        | Some c => set_gateway cfg (map_set spec "sectionTitle" (VString (sectionTitle (cr_ReleaseName c))))
                        | None => spec
                        end in
            Ok (module_object Config spec (Some [(ManagementStateAnnotation, VString managementState)]))
        end).

Definition NewHandler : handler := plain_handler Config PopulatePlatformModule IsEnabled BuildModuleCR.
End MLflowOperator.

Module Monitoring.
Section methods.
Context `{Converter}.

Definition Config : ModuleConfig Ctx := {|
  c_Name := "monitoring"; c_GVK := service_gvk "Monitoring"; c_CRName := "default-monitoring";
  c_ReleaseName := "odh-observability"; c_ChartDir := "odh-observability"; c_Values := ∅;
  c_NamespaceValueKey := "operatorNamespace"; c_ManifestDir := ""; c_ContextDir := ""; c_SourcePath := "";
  c_SourcePathByPlatform := ∅; c_Namespace := ""; c_ContainerName := "";
  c_DeploymentName := "odh-observability"; c_ControllerImage := "RELATED_IMAGE_ODH_OBSERVABILITY_IMAGE";
  c_InitContainerName := "";
  c_RelatedImages := ["RELATED_IMAGE_ODH_KUBE_RBAC_PROXY_IMAGE"; "RELATED_IMAGE_OSE_PROM_LABEL_PROXY_IMAGE";
    "RELATED_IMAGE_PERSES_IMAGE"; "RELATED_IMAGE_KORREL8R_IMAGE"];
  c_SubmoduleConditions := []; c_ExtraEnv := ∅;
|}.

Definition monitoringNamespaceHelmKey : string := "monitoringNamespace".
Definition otelOperatorNamespaceHelmKey : string := "otelOperatorNamespace".

(** The namespaces of the operands and of the OpenTelemetry operator, the latter also when
    it is empty. *)
Definition monitoring_values (platform : PlatformContext) (vals : gmap string value) : gmap string value :=
  let vals := if nonempty_str (p_MonitoringNamespace platform)
              then <[monitoringNamespaceHelmKey := VString (p_MonitoringNamespace platform)]> vals else vals in
  <[otelOperatorNamespaceHelmKey := VString (p_OTelOperatorNamespace platform)]> vals.

Definition GetOperatorManifests (platform : option PlatformContext) : OperatorManifests :=
  let result := BaseHandler.GetOperatorManifests Config platform in
  match platform, HelmCharts result with
  | Some p, chart :: charts =>
      MkManifests
        (MkChart (Chart chart) (ReleaseName chart) (ReleaseNamespace chart) (monitoring_values p (Values chart)) :: charts)
        (Manifests result)
  | _, _ => result
  end.

(** The state comes from the DSCI. *)
Definition PopulatePlatformModule (pm : option PlatformModules) (dscCtx : option Ctx) : option PlatformModules :=
  match pm, ctx_monitoring dscCtx with
  | Some pm, Some monitoring =>
      let ms := Monitoring_State monitoring in
      let ms := if String.eqb ms "" then Removed else ms in
      Some (<["Monitoring" := ms]> pm)
  | _, _ => pm
  end.

Definition IsEnabled := field_managed "Monitoring".

Definition SingleReplicaTopologyMode : string := "SingleReplica".

(** [cluster.IsSingleNodeCluster]: the topology, or where that is not served the number of
    schedulable nodes; on any error the cluster counts as multi-node. *)
Definition IsSingleNodeCluster : prog HandlerE bool :=
  infra ← trigger GetTopology;
  match infra with
  | Ok topology => mret (String.eqb topology SingleReplicaTopologyMode)
  | Err err =>
      if negb (err_is TagNotFound err) && negb (err_is TagNoMatch err) then mret false
      else
        nodes ← trigger ListNodes;
        mret (match nodes with
              | Err _ => false
              | Ok unschedulable => Nat.eqb (length (filter (λ u, u = false) unschedulable)) 1
              end)
  end.

(** [len(m) > 0]. *)
Definition nonempty_map (m : value_map) : bool := match m with [] => false | _ => true end.

Definition is_set {A} (o : option A) : bool := match o with Some _ => true | None => false end.

Definition metricsEnabled (spec : MonitoringCommonSpec) : bool :=
  match mon_Metrics spec with
  | Some m => is_set (m_Storage m) || nonempty_map (m_Exporters m)
  | None => false
  end.

Definition tracesEnabled (spec : MonitoringCommonSpec) : bool :=
  match mon_Traces spec with
  | Some t => is_set (t_Storage t) || nonempty_map (t_Exporters t)
  | None => false
  end.

Definition logsEnabled (spec : MonitoringCommonSpec) : bool :=
  match mon_Logs spec with Some l => is_set (l_Storage l) | None => false end.

Definition usageLogsEnabled (spec : MonitoringCommonSpec) : bool :=
  match mon_UsageLogs spec with
  | Some u => is_set (ul_Storage u) || nonempty_map (ul_Exporters u)
  | None => false
  end.

(** A TLS section that is disabled is dropped. *)
Definition drop_disabled_tls (t : TracesSpec) : TracesSpec :=
  match t_TLS t with
  | Some (false, _) => MkTraces (t_Storage t) None (t_Exporters t) (t_Rest t)
  | _ => t
  end.

(** The sections that are in use. *)
Definition project_sections (spec : MonitoringCommonSpec) : MonitoringCommonSpec :=
  MkMonitoringSpec (mon_Namespace spec)
    (if metricsEnabled spec then mon_Metrics spec else None)
    (if tracesEnabled spec then drop_disabled_tls <$> mon_Traces spec else None)
    (mon_Alerting spec)
    (if logsEnabled spec then mon_Logs spec else None)
    (if usageLogsEnabled spec then mon_UsageLogs spec else None)
    (mon_CollectorReplicas spec).

Definition with_replicas (spec : MonitoringCommonSpec) (replicas : Z) : MonitoringCommonSpec :=
  MkMonitoringSpec (mon_Namespace spec) (mon_Metrics spec) (mon_Traces spec) (mon_Alerting spec) (mon_Logs spec)
    (mon_UsageLogs spec) replicas.

(** The collector's replicas: one on a single node, two otherwise, unless set; none when the
    collector is not needed. *)
Definition default_replicas (cli : bool) (spec : MonitoringCommonSpec) : prog HandlerE Z :=
  if metricsEnabled spec || tracesEnabled spec then
    if (mon_CollectorReplicas spec =? 0)%Z then
      if cli then
        single ← IsSingleNodeCluster;
        mret (match single with true => 1%Z | false => 2%Z end)
      else mret 2%Z
    else mret (mon_CollectorReplicas spec)
  else mret 0%Z.

Definition project_spec (cli : bool) (spec : MonitoringCommonSpec) : prog HandlerE MonitoringCommonSpec :=
  replicas ← default_replicas cli spec;
  mret (with_replicas (project_sections spec) replicas).

Definition BuildModuleCR (cli : bool) (dscCtx : option Ctx) (_ : option ModuleCRConfig) : prog HandlerE (result Unstructured) :=
  match ctx_monitoring dscCtx with
  | None => mret (Err (errorf "DSCI is nil, cannot build monitoring CR"))
  | Some monitoring =>
      spec ← project_spec cli (Monitoring_Spec monitoring);
      mret (match ToUnstructured (CommonMonitoring spec) with
            | Err err => Err (wrapf "failed to convert MonitoringSpec to unstructured" err)
            | Ok unstructuredSpec => Ok (module_object Config unstructuredSpec None)
            end)
  end.

Definition NewHandler : handler :=
  MkModule Config PopulatePlatformModule IsEnabled (BaseHandler.GetReadyConditionType Config) GetOperatorManifests
    (BaseMethods.DeleteOperatorResources Config) BuildModuleCR (BaseMethods.WriteDSCComponentStatus Config) None.

End methods.
End Monitoring.

Module Workbenches.
Section methods.
Context `{Converter}.
Variable kubernetes : bool.

Definition relatedImages : list string :=
  ["RELATED_IMAGE_ODH_NOTEBOOK_CONTROLLER_IMAGE"; "RELATED_IMAGE_ODH_KUBE_RBAC_PROXY_IMAGE";
   "RELATED_IMAGE_ODH_KF_NOTEBOOK_CONTROLLER_IMAGE"; "RELATED_IMAGE_ODH_WORKBENCHES_CONTROLLER_IMAGE";
   "RELATED_IMAGE_ODH_WORKBENCH_CODESERVER_DATASCIENCE_CPU_PY312_IMAGE";
   "RELATED_IMAGE_ODH_WORKBENCH_CODESERVER_BASELINE_CPU_PY312_C9S_IMAGE";
   "RELATED_IMAGE_ODH_WORKBENCH_CODESERVER_MINIMAL_CPU_PY312_IMAGE";
   "RELATED_IMAGE_ODH_WORKBENCH_JUPYTER_BASELINE_CPU_PY312_C9S_IMAGE";
   "RELATED_IMAGE_ODH_WORKBENCH_JUPYTER_DATASCIENCE_CPU_PY312_IMAGE";
   "RELATED_IMAGE_ODH_WORKBENCH_JUPYTER_MINIMAL_CPU_PY312_IMAGE";
   "RELATED_IMAGE_ODH_WORKBENCH_JUPYTER_MINIMAL_CUDA_PY312_IMAGE";
   "RELATED_IMAGE_ODH_WORKBENCH_JUPYTER_MINIMAL_ROCM_PY312_IMAGE";
   "RELATED_IMAGE_ODH_WORKBENCH_JUPYTER_PYTORCH_CUDA_PY312_IMAGE";
   "RELATED_IMAGE_ODH_WORKBENCH_JUPYTER_TENSORFLOW_CUDA_PY312_IMAGE";
   "RELATED_IMAGE_ODH_WORKBENCH_JUPYTER_PYTORCH_LLMCOMPRESSOR_CUDA_PY312_IMAGE";
   "RELATED_IMAGE_ODH_WORKBENCH_JUPYTER_UNIVERSAL_CPU_PY312_C9S_IMAGE";
   "RELATED_IMAGE_ODH_WORKBENCH_JUPYTER_UNIVERSAL_CPU_PY312_IMAGE";
   "RELATED_IMAGE_ODH_PIPELINE_RUNTIME_BASELINE_CPU_PY312_C9S_IMAGE";
   "RELATED_IMAGE_ODH_PIPELINE_RUNTIME_DATASCIENCE_CPU_PY312_IMAGE";
   "RELATED_IMAGE_ODH_PIPELINE_RUNTIME_MINIMAL_CPU_PY312_IMAGE";
   "RELATED_IMAGE_ODH_PIPELINE_RUNTIME_TENSORFLOW_CUDA_PY312_IMAGE";
   "RELATED_IMAGE_ODH_PIPELINE_RUNTIME_PYTORCH_CUDA_PY312_IMAGE";
   "RELATED_IMAGE_ODH_PIPELINE_RUNTIME_PYTORCH_LLMCOMPRESSOR_CUDA_PY312_IMAGE"].

Definition ControllerDeploymentName : string := "workbenches-operator".

Definition emptyRelatedImageValues : value := empty_values relatedImages.

Definition chart_values : gmap string value := list_to_map
  [("relatedImages", emptyRelatedImageValues); ("webhooks", VMap [("port", VInt 9443)])].

Definition submodules : list (SubmoduleCondition Ctx) :=
  [MkSubmodule "WorkbenchesV2Ready" "WorkbenchesV2Ready" "WorkbenchesV2"
     (Some (submodule_enabled (λ dsc, wb_WorkbenchesV2 (Workbenches_Spec dsc))))].

Definition Config : ModuleConfig Ctx := {|
  c_Name := "workbenches"; c_GVK := component_gvk "Workbenches"; c_CRName := "default-workbenches";
  c_ReleaseName := ControllerDeploymentName; c_ChartDir := "workbenches"; c_Values := chart_values;
  c_NamespaceValueKey := "operatorNamespace"; c_ManifestDir := ""; c_ContextDir := ""; c_SourcePath := "";
  c_SourcePathByPlatform := ∅; c_Namespace := ""; c_ContainerName := "";
  c_DeploymentName := ControllerDeploymentName;
  c_ControllerImage := "RELATED_IMAGE_ODH_WORKBENCHES_OPERATOR_IMAGE"; c_InitContainerName := "";
  c_RelatedImages := relatedImages; c_SubmoduleConditions := submodules; c_ExtraEnv := ∅;
|}.

Definition PopulatePlatformModule := set_state "Workbenches" Workbenches_State.
Definition IsEnabled := field_managed "Workbenches".

(** [workbenchesPlatformType]. *)
Definition workbenchesPlatformType (release : string) : string :=
  if String.eqb release SelfManagedRhoai || String.eqb release ManagedRhoai then "SelfManagedRhoai" else "OpenDataHub".

Definition newIngress (name gatewayName gatewayNamespace hostname : string) (isDefault : bool) : value :=
  let ingress := [("name", VString name); ("gatewayName", VString gatewayName);
                  ("gatewayNamespace", VString gatewayNamespace)] in
  let ingress := if nonempty_str hostname then map_set ingress "hostname" (VString hostname) else ingress in
  VMap (if isDefault then map_set ingress "isDefault" (VBool true) else ingress).

(** Entries without a name or a complete reference are skipped. *)
Definition status_ingress (status : AdditionalIngressStatus) : option value :=
  if String.eqb (st_Name status) "" || String.eqb (ref_Name (GatewayRef status)) "" ||
     String.eqb (ref_Namespace (GatewayRef status)) ""
  then None
  else Some (newIngress (st_Name status) (ref_Name (GatewayRef status)) (ref_Namespace (GatewayRef status))
               (st_Hostname status) false).

Definition gatewayStatusIngresses (domain : string) (statuses : list AdditionalIngressStatus) : list value :=
  let defaultName := GetDefaultGatewayName kubernetes in
  newIngress defaultName defaultName (GetGatewayNamespace kubernetes) domain true :: omap status_ingress statuses.

(** What the platform adds to the specification. *)
Definition platform_fields (dsc : ComponentsSpec) (cfg : option ModuleCRConfig) (spec : value_map) : value_map :=
  let spec := map_set spec "managementState" (VString (Workbenches_State dsc)) in
  let spec := map_set spec "mlflowEnabled" (VBool (String.eqb (MLflowOperator_State dsc) Managed)) in
  let '(spec, ingresses) :=
    match cfg with
    | Some cfg =>
        let spec := map_set spec "gatewayDomain" (VString "") in
        let '(spec, ingresses) :=
          match cr_GatewayConfig cfg with
          | Some gateway =>
              (map_set spec "gatewayDomain" (VString (gws_Domain gateway)),
               gatewayStatusIngresses (gws_Domain gateway) (gws_AdditionalIngresses gateway))
          | None => (spec, [])
          end in
        (map_set spec "platform" (VString (workbenchesPlatformType (cr_ReleaseName cfg))), ingresses)
    | None => (spec, [])
    end in
  map_set spec "ingresses" (VSlice ingresses).

Definition BuildModuleCR (_ : bool) (dscCtx : option Ctx) (cfg : option ModuleCRConfig) : prog HandlerE (result Unstructured) :=
  mret (match ctx_spec dscCtx with
        | None => Err (no_dsc "Workbenches")
        | Some dsc =>
            match ToUnstructured (CommonWorkbenches (Workbenches_Spec dsc)) with
            | Err err => Err (wrapf "failed to convert WorkbenchesCommonSpec to unstructured" err)
            | Ok spec => Ok (module_object Config (platform_fields dsc cfg spec) None)
            end
        end).

(** The namespace is cleared, but nothing is allocated for that. *)
Definition writeDSCWorkbenchNamespace (dsc : option DscStatus) (enabled : bool) (workbenchNamespace : string)
    : option DscStatus :=
  match dsc with
  | None => None
  | Some st =>
      match ds_Components st !! "Workbenches" with
      | Some (MkField ms (Some common)) =>
          if negb enabled || String.eqb workbenchNamespace "" then
            match common with
            | Some _ => Some (MkDscStatus (ds_Components st) (<["Workbenches" := ""]> (ds_Namespaces st)))
            | None => Some st
            end
          else
            Some (MkDscStatus (<["Workbenches" := MkField ms (Some (Some (default [] common)))]> (ds_Components st))
                    (<["Workbenches" := workbenchNamespace]> (ds_Namespaces st)))
      | _ => Some st
      end
  end.

(** It never fails. *)
Definition WriteLegacyStatusFields (spec : ComponentsSpec) (dsc : option DscStatus) (enabled : bool) : option DscStatus :=
  if negb enabled then writeDSCWorkbenchNamespace dsc false ""
  else writeDSCWorkbenchNamespace dsc true (wb_WorkbenchNamespace (Workbenches_Spec spec)).

Definition NewHandler : handler :=
  MkModule Config PopulatePlatformModule IsEnabled (BaseHandler.GetReadyConditionType Config)
    (BaseHandler.GetOperatorManifests Config) (BaseMethods.DeleteOperatorResources Config) BuildModuleCR
    (BaseMethods.WriteDSCComponentStatus Config) (Some WriteLegacyStatusFields).

End methods.
End Workbenches.

