(* ===== verification/BuiltinModules.v ===== *)
(** * BuiltinModules: the registration of the built-in modules

    [internal/controller/modules/builtin/handlers.go] and [registerModules] of [cmd/main.go]:
    the table of modules with their runlevels and sources, what the registry keeps of a
    handler, and the registries after start-up. The theorems are in
    [BuiltinModulesTheorems]. *)

From S2P Require Import Prelude Effects Conditions Dag Provision Gates Unstructured Namespaces ModuleBase ModuleRegistry ModuleActions ModuleStatusTheorems SharedPlatform PlatformConfig DscController Conversion Kueue KueueController Gateway GatewayStatus GatewayAuth HandlerInterface ModuleHandlers.

Record ModuleRegistration := MkRegistration {
  Handler : handler;
  RegRunlevel : Runlevel;
  RegConfigSource : ConfigSource;
}.

(** What the registry keeps of a handler: the methods that its users call without the
    cluster. Every handler embeds the base handler and so has its optional methods. *)
Definition module_handler (h : handler) : ModuleHandler Ctx :=
  let b := Config h in
  MkHandler (c_Name b) (λ pm, IsEnabled h (Some pm)) (c_GVK b) (GetOperatorManifests h)
    (λ pm dscCtx, default pm (PopulatePlatformModule h (Some pm) (Some dscCtx))) (c_RelatedImages b)
    (Some (GetReadyConditionType h)) (Some (BaseHandler.GetContainerName b)) (Some (c_ControllerImage b))
    (Some (c_InitContainerName b)) (Some (c_DeploymentName b)) (Some (c_SubmoduleConditions b))
    (Some (BaseHandler.GetExtraEnv b)) (match WriteLegacyStatusFields h with Some _ => true | None => false end).

Section builtin.
Context `{Converter, URIParser}.
Variable kubernetes : bool.

Definition registrations : list ModuleRegistration :=
  [MkRegistration AIPipelines.NewHandler (RL 20) ConfigFromDSC;
   MkRegistration Dashboard.NewHandler (RL 20) ConfigFromDSC;
   MkRegistration DatabaseService.NewHandler (RL 20) ConfigFromDSC;
   MkRegistration MCPLifecycleOperator.NewHandler (RL 20) ConfigFromDSC;
   MkRegistration AIHub.NewHandler (RL 20) ConfigFromDSC;
   MkRegistration Ray.NewHandler (RL 20) ConfigFromDSC;
   MkRegistration Trainer.NewHandler (RL 20) ConfigFromDSC;
   MkRegistration (Workbenches.NewHandler kubernetes) (RL 20) ConfigFromDSC;
   MkRegistration Monitoring.NewHandler (RL 20) ConfigFromDSCI;
   MkRegistration Kserve.NewHandler (RL 31) ConfigFromDSC;
   MkRegistration AIGateway.NewHandler (RL 32) ConfigFromDSC;
   MkRegistration Data.NewHandler (RL 32) ConfigFromDSC;
   MkRegistration MLflowOperator.NewHandler (RL 32) ConfigFromDSC;
   MkRegistration OGX.NewHandler (RL 32) ConfigFromDSC;
   MkRegistration SparkOperator.NewHandler (RL 32) ConfigFromDSC;
   MkRegistration TrustyAI.NewHandler (RL 32) ConfigFromDSC].

Definition Names : list string := (λ r, c_Name (Config (Handler r))) <$> registrations.

(** One iteration of [Register]. *)
Definition register_one (regs : ModuleRegistry.t Ctx * UnifiedRegistry.t) (r : ModuleRegistration)
    : ModuleRegistry.t Ctx * UnifiedRegistry.t :=
  ModuleRegistry.Add regs.1 regs.2 (module_handler (Handler r))
    [ModuleRegistry.WithRunlevel (RegRunlevel r); ModuleRegistry.WithConfigSource (RegConfigSource r)].

Definition Register (regs : ModuleRegistry.t Ctx * UnifiedRegistry.t) : ModuleRegistry.t Ctx * UnifiedRegistry.t :=
  foldl register_one regs registrations.

(** [registerModules] of [cmd/main.go]: each module is also a node of the unified registry,
    and what its suppression flag turns off is disabled in both. *)
Definition register_module (IsModuleEnabled : string → bool) (regs : ModuleRegistry.t Ctx * UnifiedRegistry.t)
    (r : ModuleRegistration) : ModuleRegistry.t Ctx * UnifiedRegistry.t :=
  let name := c_Name (Config (Handler r)) in
  let '(mr, u) := register_one regs r in
  let u := UnifiedRegistry.Add u name KindModule (RegRunlevel r) in
  if negb (IsModuleEnabled name) then
    let '(mr, u) := ModuleRegistry.Disable mr u name in (mr, UnifiedRegistry.Disable u name)
  else (mr, u).

Definition registerModules (IsModuleEnabled : string → bool) (regs : ModuleRegistry.t Ctx * UnifiedRegistry.t)
    : ModuleRegistry.t Ctx * UnifiedRegistry.t :=
  foldl (register_module IsModuleEnabled) regs registrations.

End builtin.

