(* ===== verification/BuiltinModulesTheorems.v ===== *)
(** * BuiltinModulesTheorems: the built-in modules as a whole

    - what the DSC demands is what the Platform CR enables, and the handlers keep the promises
      that the theorems on the Platform CR assume of a registry;
    - start-up registers the modules alike in both registries;
    - the CRs the handlers build are those that the base handler reads and deletes;
    - single handlers: the shared SCC of the database module, the collector's replicas, the
      cleanup of KServe. *)

From S2P Require Import Prelude Effects Conditions Dag Provision Gates Unstructured Namespaces ModuleBase ModuleRegistry ModuleActions ModuleTheorems ModuleStatusTheorems SharedPlatform PlatformConfig DscController Conversion Kueue KueueController Gateway GatewayStatus GatewayAuth HandlerInterface ModuleHandlers BuiltinModules.

(** ** The modules of the Platform CR *)

(** The derivation of the Platform's modules visits the selected entries in name order. *)
Lemma BuildPlatformModulesForSource_foldl {DSCT} multierror_error (reg : ModuleRegistry.t DSCT) dsc source :
  BuildPlatformModulesForSource multierror_error reg dsc source =
  foldl (λ pm e, h_PopulatePlatformModule (ModuleRegistry.handler e) pm dsc) zero_PlatformModules
    (selected reg (Some source)).
Proof.
  unfold BuildPlatformModulesForSource, ModuleRegistry.ForConfigSource.
  apply (pure_value_wp _ (λ _ res, res.1 = _)).
  eapply wp_mono; [|apply (wp_for_entries _ _ _ _ _ _ (λ visited _ pm _,
    pm = foldl (λ pm e, h_PopulatePlatformModule (ModuleRegistry.handler e) pm dsc) zero_PlatformModules visited))].
  - by intros tr res (errs & -> & _).
  - done.
  - intros pre e todo tr pm errs _ ->. apply wp_ret. simpl. by rewrite foldl_snoc.
Qed.

(** ** Start-up *)

Definition name_of (r : ModuleRegistration) : string := c_Name (Config (Handler r)).

(** The entry and the node of a registration, when its flag says [b]. *)
Definition entry_of (b : bool) (r : ModuleRegistration) : ModuleRegistry.registryEntry Ctx :=
  ModuleRegistry.MkEntry (module_handler (Handler r)) b (RegRunlevel r) (RegConfigSource r).
Definition node_of (b : bool) (r : ModuleRegistration) : UnifiedNode :=
  MkNode (name_of r) KindModule (RegRunlevel r) b.

Section registration.
Context (flag : string → bool).

Lemma register_module_entries regs r :
  ModuleRegistry.entries (register_module flag regs r).1 =
    <[name_of r := entry_of (flag (name_of r)) r]> (ModuleRegistry.entries regs.1) ∧
  UnifiedRegistry.nodes (register_module flag regs r).2 =
    <[name_of r := node_of (flag (name_of r)) r]> (UnifiedRegistry.nodes regs.2).
Proof.
  unfold register_module, register_one. fold (name_of r).
  destruct (ModuleRegistry.Add _ _ _ _) as [mr u] eqn:Hadd.
  assert (ModuleRegistry.entries mr = <[name_of r := entry_of true r]> (ModuleRegistry.entries regs.1) ∧
    UnifiedRegistry.nodes u = UnifiedRegistry.nodes regs.2) as [Hmr Hu] by (by injection Hadd as <- <-).
  destruct (flag (name_of r)) eqn:Hf; cbn [negb].
  - cbn [fst snd UnifiedRegistry.Add UnifiedRegistry.nodes]. by rewrite Hmr, Hu.
  - unfold ModuleRegistry.Disable, ModuleRegistry.setEnabledLocked, UnifiedRegistry.Disable, UnifiedRegistry.setEnabledLocked.
    rewrite Hmr, lookup_insert_eq. cbn. rewrite Hu, lookup_insert_eq. cbn. by rewrite !insert_insert_eq.
Qed.

Lemma register_modules_entries rs regs :
  ModuleRegistry.entries (foldl (register_module flag) regs rs).1 =
    foldl (λ m r, <[name_of r := entry_of (flag (name_of r)) r]> m) (ModuleRegistry.entries regs.1) rs ∧
  UnifiedRegistry.nodes (foldl (register_module flag) regs rs).2 =
    foldl (λ m r, <[name_of r := node_of (flag (name_of r)) r]> m) (UnifiedRegistry.nodes regs.2) rs.
Proof.
  revert regs. induction rs as [|r rs IH]; intros regs; [done|]. simpl.
  destruct (register_module_entries regs r) as [H1 H2]. rewrite <-H1, <-H2. apply IH.
Qed.
End registration.

Section builtin.
Context `{Converter, URIParser} (kubernetes : bool).
Notation regs := (registrations kubernetes).

Lemma names_NoDup : NoDup (name_of <$> regs).
Proof. by apply (bool_decide_unpack _). Qed.

(** The registry and the nodes after start-up with the suppression flags [flag]; [u] is the
    unified registry with the components. *)
Definition started (flag : string → bool) (u : UnifiedRegistry.t) : ModuleRegistry.t Ctx :=
  (registerModules kubernetes flag (ModuleRegistry.empty, u)).1.
Definition started_nodes (flag : string → bool) (u : UnifiedRegistry.t) : UnifiedRegistry.t :=
  (registerModules kubernetes flag (ModuleRegistry.empty, u)).2.

Lemma selected_started flag u source :
  selected (started flag u) (Some source) =
  (λ r, entry_of (flag (name_of r)) r) <$> filter (λ r, RegConfigSource r = source) (sort_by name_of regs).
Proof.
  unfold selected, sorted_entries, ModuleRegistry.sortedNames, started, registerModules. rewrite !(proj1 (register_modules_entries _ _ _)).
  destruct source; reflexivity.
Qed.

(** What a DSC has to say for a module to be wanted. *)
Definition demanded (dsc : ComponentsSpec) (name : string) : bool :=
  let managed state := String.eqb state Managed in
  if String.eqb name "aigateway" then managed (AIGateway_State dsc)
  else if String.eqb name "aihub" then managed (ah_ManagementState (AIHub_Spec dsc))
  else if String.eqb name "aipipelines" then managed (AIPipelines_State dsc)
  else if String.eqb name "dashboard" then managed (db_Standard (DashboardSpec dsc)) || managed (db_MaaSPortal (DashboardSpec dsc))
  else if String.eqb name "data" then managed (Data_FeatureStore dsc) || managed (Data_DataRegistry dsc)
  else if String.eqb name "databaseservice" then managed (DatabaseService_State dsc)
  else if String.eqb name "kserve" then managed (Kserve_State dsc)
  else if String.eqb name "mcplifecycleoperator" then managed (MCPLifecycleOperator_State dsc)
  else if String.eqb name "mlflowoperator" then managed (MLflowOperator_State dsc)
  else if String.eqb name "ogx" then managed (OGX_State dsc)
  else if String.eqb name "ray" then managed (Ray_State dsc)
  else if String.eqb name "sparkoperator" then managed (SparkOperator_State dsc)
  else if String.eqb name "trainer" then managed (Trainer_State dsc)
  else if String.eqb name "trustyai" then managed (TrustyAI_State dsc)
  else if String.eqb name "workbenches" then managed (Workbenches_State dsc)
  else false.

(** What a handler writes for a state of the specification. *)
Lemma written_state ms : Some (if String.eqb ms "" then Removed else ms) = Some Managed ↔ String.eqb ms Managed = true.
Proof. destruct (String.eqb_spec ms "") as [->|]; [done|]. rewrite String.eqb_eq. naive_solver. Qed.

Lemma written_either a b :
  Some (if String.eqb a Managed then Managed else if String.eqb b Managed then Managed else Removed) = Some Managed ↔
  String.eqb a Managed || String.eqb b Managed = true.
Proof. by destruct (String.eqb a Managed), (String.eqb b Managed). Qed.

Lemma populated_demanded me flag u dsc fn :
  fn ∈ moduleJSONName →
  BuildPlatformModulesForSource me (started flag u) (buildDSCContext dsc) ConfigFromDSC !! fn.1 = Some Managed ↔
  demanded dsc fn.2 = true.
Proof.
  rewrite BuildPlatformModulesForSource_foldl, selected_started.
  revert fn. apply Forall_forall. unfold moduleJSONName.
  apply Forall_cons; split; [exact (written_state (AIPipelines_State dsc))|].
  apply Forall_cons; split; [exact (written_state (AIGateway_State dsc))|].
  apply Forall_cons; split; [exact (written_state (MLflowOperator_State dsc))|].
  apply Forall_cons; split; [by split|].
  apply Forall_cons; split; [exact (written_state (MCPLifecycleOperator_State dsc))|].
  apply Forall_cons; split; [exact (written_state (DatabaseService_State dsc))|].
  apply Forall_cons; split; [exact (written_state (Kserve_State dsc))|].
  apply Forall_cons; split; [exact (written_state (Trainer_State dsc))|].
  apply Forall_cons; split; [exact (written_state (Workbenches_State dsc))|].
  apply Forall_cons; split; [exact (written_state (OGX_State dsc))|].
  apply Forall_cons; split; [exact (written_either (Data_FeatureStore dsc) (Data_DataRegistry dsc))|].
  apply Forall_cons; split; [exact (written_either (db_Standard (DashboardSpec dsc)) (db_MaaSPortal (DashboardSpec dsc)))|].
  apply Forall_cons; split; [exact (written_state (SparkOperator_State dsc))|].
  apply Forall_cons; split; [exact (written_state (Ray_State dsc))|].
  apply Forall_cons; split; [exact (written_state (TrustyAI_State dsc))|].
  apply Forall_cons; split; [exact (written_state (ah_ManagementState (AIHub_Spec dsc)))|].
  apply Forall_nil_2.
Qed.

(** Every handler reads the field of its name. *)
Lemma builtin_field r : r ∈ regs →
  ∃ F, (F, name_of r) ∈ moduleJSONName ∧ ∀ pm, IsEnabled (Handler r) pm = field_managed F pm.
Proof.
  revert r. apply Forall_forall. unfold registrations.
  repeat (apply Forall_cons; split; [eexists; split; [|reflexivity]; by apply (bool_decide_unpack _)|]).
  apply Forall_nil_2.
Qed.

Lemma field_managed_iff F pm : field_managed F (Some pm) = true ↔ pm !! F = Some Managed.
Proof.
  simpl. rewrite String.eqb_eq. destruct (pm !! F) as [ms|]; simpl; [|by split].
  split; [by intros ->|by intros [= ->]].
Qed.

Lemma Names_perm : Names kubernetes ≡ₚ moduleJSONName.*2.
Proof.
  assert (sort_strings (Names kubernetes) = sort_strings moduleJSONName.*2) as Heq by reflexivity.
  by rewrite <-(sort_strings_perm (Names kubernetes)), Heq, sort_strings_perm.
Qed.

(** C10: the Platform CR enables what the DSC demands. Whatever flags the operator was started
    with, the modules that the DSC controller finds enabled are exactly the built-in modules
    that the DSC demands (for the dashboard and the data module: either of their parts), and
    each handler that the DSC configures agrees, given those modules. *)
Theorem EnabledModules_demanded me flag u dsc :
  let pm := BuildPlatformModulesForSource me (started flag u) (buildDSCContext dsc) ConfigFromDSC in
  EnabledModules pm = sort_strings (filter (λ n, demanded dsc n = true) (Names kubernetes)) ∧
  Forall (λ r, IsEnabled (Handler r) (Some pm) = demanded dsc (name_of r)) regs.
Proof.
  intros pm. split.
  - apply sort_strings_unique. rewrite Names_perm.
    by rewrite (fmap_filter snd _ (λ n, demanded dsc n = true)) by by apply populated_demanded.
  - apply Forall_forall. intros r (F & Hin & ->)%builtin_field. apply eq_true_iff_eq.
    rewrite field_managed_iff. by apply (populated_demanded me flag u dsc (F, name_of r)).
Qed.

(** The two registries start alike: a built-in module is in both, under its runlevel, and on
    in both exactly when its suppression flag says so; nothing else is a module, and the
    nodes of the components stay as they were. *)
Theorem started_agree flag u n :
  match list_find (λ r, name_of r = n) regs with
  | Some (_, r) =>
      ModuleRegistry.entries (started flag u) !! n = Some (entry_of (flag n) r) ∧
      UnifiedRegistry.nodes (started_nodes flag u) !! n = Some (node_of (flag n) r)
  | None =>
      ModuleRegistry.entries (started flag u) !! n = None ∧
      UnifiedRegistry.nodes (started_nodes flag u) !! n = UnifiedRegistry.nodes u !! n
  end.
Proof.
  unfold started, started_nodes, registerModules. destruct (register_modules_entries flag regs (ModuleRegistry.empty, u)) as [-> ->].
  pose proof (lookup_insert_all name_of (λ r, entry_of (flag (name_of r)) r) regs ∅ n names_NoDup) as [Hin Hout].
  pose proof (lookup_insert_all name_of (λ r, node_of (flag (name_of r)) r) regs (UnifiedRegistry.nodes u) n names_NoDup)
    as [Hin' Hout'].
  destruct (list_find _ regs) as [[i r]|] eqn:Hf.
  - apply list_find_Some in Hf as (Hr%list_elem_of_lookup_2 & <- & _). split; [by apply Hin|by apply Hin'].
  - apply list_find_None in Hf. assert (n ∉ name_of <$> regs) as Hn.
    { intros (r & -> & Hr)%list_elem_of_fmap. rewrite Forall_forall in Hf. by apply (Hf r). }
    split; [by apply Hout|by apply Hout'].
Qed.

(** *** Deletion of the DSC and of the DSCI *)

Definition json_field (name : string) : string :=
  match list_find (λ fn : string * string, fn.2 = name) moduleJSONName with Some (_, fn) => fn.1 | None => "" end.

Definition handler_field (h : ModuleHandler Ctx) : string := json_field (h_GetName h).

Lemma set_state_fields F st pm ctx dsc :
  ctx_spec (Some ctx) = Some dsc →
  default pm (set_state F st (Some pm) (Some ctx)) = <[F := if String.eqb (st dsc) "" then Removed else st dsc]> pm.
Proof. unfold set_state. by intros ->. Qed.

Lemma inserts_field F ms (pm pm' : PlatformModules) :
  pm' = <[F := ms]> pm → ms ≠ "" → (∀ f, f ≠ F → pm' !! f = pm !! f) ∧ (∃ ms, pm' !! F = Some ms ∧ ms ≠ "").
Proof.
  intros -> Hms. split; [intros f Hf; by rewrite lookup_insert_ne|]. exists ms. by rewrite lookup_insert_eq.
Qed.

Lemma or_removed_nonempty ms : (if String.eqb ms "" then Removed else ms) ≠ "".
Proof. by destruct (String.eqb_spec ms ""). Qed.

Lemma either_nonempty a b : (if String.eqb a Managed then Managed else if String.eqb b Managed then Managed else Removed) ≠ "".
Proof. by destruct (String.eqb a Managed), (String.eqb b Managed). Qed.

(** A handler of the DSC writes its own field when there is a DSC, one of the DSCI when there
    is a DSCI. *)
Lemma builtin_populates r dsc monitoring pm :
  r ∈ regs →
  let ctx := match RegConfigSource r with
             | ConfigFromDSC => buildDSCContext dsc
             | ConfigFromDSCI => MkDSCContext None (Some monitoring)
             end in
  let h := module_handler (Handler r) in
  (∀ f, f ≠ handler_field h → h_PopulatePlatformModule h pm ctx !! f = pm !! f) ∧
  (∃ ms, h_PopulatePlatformModule h pm ctx !! handler_field h = Some ms ∧ ms ≠ "").
Proof.
  revert r. apply Forall_forall. unfold registrations.
  repeat (apply Forall_cons; split;
    [first [apply (inserts_field _ _ _ _ eq_refl (or_removed_nonempty _))
           |apply (inserts_field _ _ _ _ eq_refl (either_nonempty _ _))]|]).
  apply Forall_nil_2.
Qed.

Definition source_context (source : ConfigSource) (dsc : ComponentsSpec) (monitoring : MonitoringSpec) : Ctx :=
  match source with
  | ConfigFromDSC => buildDSCContext dsc
  | ConfigFromDSCI => MkDSCContext None (Some monitoring)
  end.

Lemma elem_of_selected_started flag u source e :
  e ∈ selected (started flag u) (Some source) ↔
  ∃ r, r ∈ regs ∧ RegConfigSource r = source ∧ e = entry_of (flag (name_of r)) r.
Proof.
  rewrite selected_started, list_elem_of_fmap. setoid_rewrite list_elem_of_filter.
  setoid_rewrite (elem_of_Permutation_proper _ _ _ (sort_by_perm name_of regs)). naive_solver.
Qed.

(** The built-in modules keep the promise that the theorems on the Platform CR assume. *)
Lemma started_populates flag u source dsc monitoring :
  populates_field (started flag u) (source_context source dsc monitoring) source handler_field.
Proof.
  intros e pm (r & Hr & <- & ->)%elem_of_selected_started. by apply (builtin_populates r dsc monitoring pm).
Qed.

Definition source_fields (source : ConfigSource) : list string :=
  match source with
  | ConfigFromDSC => filter (λ f, f ≠ "Monitoring") module_fields
  | ConfigFromDSCI => ["Monitoring"]
  end.

Lemma owned_started flag u source f :
  owned (started flag u) source handler_field f ↔ f ∈ source_fields source.
Proof.
  transitivity (f ∈ (λ r, json_field (name_of r)) <$> filter (λ r, RegConfigSource r = source) regs).
  - rewrite list_elem_of_fmap. setoid_rewrite list_elem_of_filter. unfold owned.
    setoid_rewrite elem_of_selected_started. split.
    + intros (e & (r & Hr & Hs & ->) & <-). by exists r.
    + intros (r & -> & Hs & Hr). exists (entry_of (flag (name_of r)) r). split; [by exists r|done].
  - set (l := (λ r, json_field (name_of r)) <$> _).
    assert (sort_strings l = sort_strings (source_fields source)) as Heq by (destruct source; reflexivity).
    by rewrite <-(sort_strings_perm l), Heq, sort_strings_perm.
Qed.

(** Whoever is deleted takes only its own modules down. The Platform CR that the finalizer of
    the DSC applies says Removed for every module but monitoring and leaves that one unset;
    that of the DSCI says Removed for monitoring and leaves all others unset. *)
Theorem deletion_takes_own me flag u source dsc monitoring :
  let removed := NewPlatformCRRemovedForSource me (started flag u) (source_context source dsc monitoring) source in
  Forall (λ f, removed !! f = Some (if decide (f ∈ source_fields source) then Removed else "")) module_fields.
Proof.
  intros removed. apply Forall_forall. intros f Hf.
  destruct (NewPlatformCRRemovedForSource_owned me (started flag u) (source_context source dsc monitoring) source
    handler_field f (started_populates flag u source dsc monitoring)) as [Hown Hother].
  rewrite owned_started in Hown, Hother. case_decide; [by apply Hown|by apply Hother].
Qed.

(** ** The CRs of the modules *)

(** What a call changes: only the events of the base handler's cleanup change anything. *)
Definition reads (c : call HandlerE) : Prop :=
  match c with @Call _ _ e _ => match e with Cleanup _ => False | _ => True end end.

(** An object that [BaseHandler] reads and deletes under the same address. *)
Definition addressed (b : ModuleConfig Ctx) (u : Unstructured) : Prop :=
  u_gvk u = u_gvk (BaseHandler.module_cr b) ∧ u_name u = u_name (BaseHandler.module_cr b) ∧
  u_namespace u = u_namespace (BaseHandler.module_cr b) ∧
  ∃ spec, map_get (u_object u) "spec" = VMap spec.

Lemma module_object_addressed b spec anns : addressed b (module_object b spec anns).
Proof. split; [done|]. split; [done|]. split; [done|]. by exists spec. Qed.

(** The object that the source of the configuration holds is there. *)
Definition has_source (source : ConfigSource) (ctx : option Ctx) : Prop :=
  match source with ConfigFromDSC => is_Some (ctx_spec ctx) | ConfigFromDSCI => is_Some (ctx_monitoring ctx) end.

(** A good CR: at the right address, and built from the configuration (but for the data
    module, whose CR may do without). *)
Definition good_CR (r : ModuleRegistration) (ctx : option Ctx) (res : result Unstructured) : Prop :=
  match res with
  | Ok u => addressed (Config (Handler r)) u ∧ (name_of r = "data" ∨ has_source (RegConfigSource r) ctx)
  | Err _ => True
  end.

Definition builds_well (cli : bool) (ctx : option Ctx) (cfg : option ModuleCRConfig) (r : ModuleRegistration) : Prop :=
  wp (BuildModuleCR (Handler r) cli ctx cfg) [] (λ tr res, Forall reads tr ∧ good_CR r ctx res).

Lemma wp_pure_build (tr : list (call HandlerE)) r ctx (res : result Unstructured) :
  Forall reads tr → good_CR r ctx res → wp (mret res : prog HandlerE _) tr (λ tr res, Forall reads tr ∧ good_CR r ctx res).
Proof. intros. by apply wp_ret. Qed.

Lemma good_object r ctx spec anns :
  name_of r = "data" ∨ has_source (RegConfigSource r) ctx → good_CR r ctx (Ok (module_object (Config (Handler r)) spec anns)).
Proof. intros Hs. split; [apply module_object_addressed|done]. Qed.

Lemma builds_data cli ctx cfg : builds_well cli ctx cfg (MkRegistration Data.NewHandler (RL 32) ConfigFromDSC).
Proof.
  unfold builds_well. cbn [Handler Data.NewHandler BuildModuleCR]. unfold Data.BuildModuleCR.
  destruct cli; cbn [negb]; [|by apply wp_pure_build].
  apply wp_bind. eapply (wp_mono _ _ (λ tr _, Forall reads tr)).
  - intros tr [oidc|err] Htr; (apply wp_pure_build; [done|]); [|done].
    by apply (good_object (MkRegistration Data.NewHandler (RL 32) ConfigFromDSC)); left.
  - unfold Data.getGatewayOIDCSpec. apply wp_bind, wp_call. intros auth.
    destruct (GetClusterAuthenticationMode auth) as [mode|err]; [|by apply wp_ret; repeat constructor].
    destruct (negb _); [by apply wp_ret; repeat constructor|].
    apply wp_bind, wp_call. intros issuer. by apply wp_ret; repeat constructor.
Qed.

Lemma wp_project_spec cli spec :
  wp (Monitoring.project_spec cli spec) [] (λ tr _, Forall reads tr).
Proof.
  unfold Monitoring.project_spec. apply wp_bind. eapply (wp_mono _ _ (λ tr _, Forall reads tr)); [intros tr n Htr; by apply wp_ret|].
  unfold Monitoring.default_replicas. destruct (_ || _); [|by apply wp_ret].
  destruct (_ =? 0)%Z; [|by apply wp_ret]. destruct cli; [|by apply wp_ret].
  apply wp_bind. eapply (wp_mono _ _ (λ tr _, Forall reads tr)); [intros tr [] Htr; by apply wp_ret|].
  unfold Monitoring.IsSingleNodeCluster. apply wp_bind, wp_call. intros [topology|err]; [by apply wp_ret; repeat constructor|].
  destruct (_ && _); [by apply wp_ret; repeat constructor|].
  apply wp_bind, wp_call. intros nodes. by apply wp_ret; repeat constructor.
Qed.

Lemma builds_monitoring cli ctx cfg : builds_well cli ctx cfg (MkRegistration Monitoring.NewHandler (RL 20) ConfigFromDSCI).
Proof.
  unfold builds_well. cbn [Handler Monitoring.NewHandler BuildModuleCR]. unfold Monitoring.BuildModuleCR.
  destruct (ctx_monitoring ctx) as [m|] eqn:Hm; [|by apply wp_pure_build].
  apply wp_bind. eapply wp_mono; [|apply wp_project_spec]. intros tr spec Htr. apply wp_pure_build; [done|].
  destruct (ToUnstructured _); [|done].
  apply (good_object (MkRegistration Monitoring.NewHandler (RL 20) ConfigFromDSCI)). right. by exists m.
Qed.

(** A handler whose build calls nothing. *)
Ltac builds_pure ctx :=
  red; apply wp_pure_build; [constructor|];
  destruct (ctx_spec ctx) as [dsc|] eqn:Hd; [|exact I];
  first [apply good_object|destruct (ToUnstructured _); [apply good_object|exact I]];
  right; cbn [RegConfigSource has_source]; rewrite Hd; by eexists.

(** C38: what the DSC and DSCI controllers apply is what the module's handler later reads and
    deletes: whatever the cluster answers, building a CR changes nothing there, and a CR that
    was built has the kind, name and namespace under which the base handler looks it up and
    deletes it, and a specification. Without the object that configures the module there is an
    error, for all modules but data. *)
Theorem built_CRs_addressed cli ctx cfg : Forall (builds_well cli ctx cfg) regs.
Proof.
  unfold registrations.
  repeat (apply Forall_cons; split; [first [apply builds_data|apply builds_monitoring|builds_pure ctx]|]).
  apply Forall_nil_2.
Qed.

End builtin.

(** ** The shared SCC of the database module *)

Inductive cleanup_event :=
| EvDeleted (res : Unstructured)
| EvLive (res : Unstructured) (answer : result OwnedObject)
| EvPlatformUID (answer : result string)
| EvOtherCall.

Definition cleanup_event_of (c : call HandlerE) : cleanup_event :=
  match c with
  | @Call _ X e x =>
      match e in HandlerE X return X → cleanup_event with
      | GetLiveObject res => EvLive res
      | GetPlatformUID => EvPlatformUID
      | Cleanup (CliDelete res) => λ _, EvDeleted res
      | _ => λ _, EvOtherCall
      end x
  end.

Notation cleanup_events := (Effects.events cleanup_event_of).

(** The last two calls showed that this platform owns the object. *)
Definition shown_owned (res : Unstructured) (evs : list cleanup_event) : Prop :=
  ∃ evs' live uid, evs = evs' ++ [EvLive res (Ok live); EvPlatformUID (Ok uid)] ∧
    own_Labels live !! DatabaseService.internalPostgresSCCOwnedLabelKey =
      Some DatabaseService.internalPostgresSCCOwnedLabelValue ∧
    uid ∈ own_OwnerUIDs live.

Definition scc_rule (before : list cleanup_event) (ev : cleanup_event) : Prop :=
  match ev with
  | EvDeleted res => ¬ spared_kind res ∧ (u_name res = DatabaseService.internalPostgresSCCName → shown_owned res before)
  | _ => True
  end.

(** *** What the base handler promises about its filter *)

Definition filter_rule (before : list client_event) (ev : client_event) : Prop :=
  match ev with
  | EvDelete res _ => ¬ spared_kind res ∧ last before = Some (EvFilter res true None)
  | _ => True
  end.

Section base_cleanup.
Context (b : ModuleConfig Ctx).
Notation keeps p := (∀ tr, lawful client_event_of filter_rule tr →
  wp p tr (λ tr' _, lawful client_event_of filter_rule tr')).

Lemma client_last tr X (e : ClientE X) x :
  last (Effects.events client_event_of (tr ++ [Call e x])) = Some (client_event_of (Call e x)).
Proof. rewrite events_snoc. apply last_snoc. Qed.

Lemma keeps_delete_resource res : keeps (BaseHandler.delete_resource b true res).
Proof.
  intros tr Htr. unfold BaseHandler.delete_resource. destruct (BaseHandler.protected res) eqn:Hprot; [by apply wp_ret|].
  apply protected_false in Hprot. apply wp_bind, wp_call. intros [allowed err].
  assert (lawful client_event_of filter_rule (tr ++ [Call (FilterResource res) (allowed, err)])) as Htr1;
    [by apply lawful_snoc|]. cbn [fst snd].
  destruct err as [e|]; [by apply wp_ret|]. destruct allowed; cbn [negb]; [|by apply wp_ret].
  unfold BaseHandler.delete_one. apply wp_bind, wp_call. intros del.
  assert (lawful client_event_of filter_rule ((tr ++ [Call (FilterResource res) (true, None)]) ++ [Call (CliDelete res) del]))
    as Htr2; [apply lawful_snoc; [done|]; split; [done|apply client_last]|].
  destruct del as [e|]; [destruct (_ && _)|]; by apply wp_ret.
Qed.

Lemma keeps_rendered resources : keeps (BaseHandler.deleteRenderedResources b resources true).
Proof.
  induction resources as [|res resources IH]; intros tr Htr; cbn [BaseHandler.deleteRenderedResources]; [by apply wp_ret|].
  apply wp_bind. eapply wp_mono; [|by apply keeps_delete_resource]. intros tr' [e|] Htr'; [by apply wp_ret|by apply IH].
Qed.

Lemma keeps_charts charts : keeps (BaseHandler.delete_charts b charts true).
Proof.
  induction charts as [|chart charts IH]; intros tr Htr; cbn [BaseHandler.delete_charts]; [by apply wp_ret|].
  apply wp_bind, wp_call. intros err.
  assert (lawful client_event_of filter_rule (tr ++ [Call (HelmNew chart) err])) as Htr1; [by apply lawful_snoc|].
  destruct err as [e|]; [by apply wp_ret|]. apply wp_bind, wp_call. intros resources.
  assert (lawful client_event_of filter_rule ((tr ++ [Call (HelmNew chart) None]) ++ [Call (HelmProcess chart) resources]))
    as Htr2; [by apply lawful_snoc|].
  destruct resources as [resources|e]; [|by apply wp_ret].
  apply wp_bind. eapply wp_mono; [|by apply keeps_rendered]. intros tr' [e|] Htr'; [by apply wp_ret|by apply IH].
Qed.

Lemma keeps_manifests platform manifests : keeps (BaseHandler.delete_manifests b platform manifests true).
Proof.
  induction manifests as [|m manifests IH]; intros tr Htr; cbn [BaseHandler.delete_manifests]; [by apply wp_ret|].
  apply wp_bind, wp_call. intros resources.
  assert (lawful client_event_of filter_rule
    (tr ++ [Call (KustomizeRender m (BaseHandler.render_namespace platform m)) resources])) as Htr1; [by apply lawful_snoc|].
  destruct resources as [resources|e]; [|by apply wp_ret].
  apply wp_bind. eapply wp_mono; [|by apply keeps_rendered]. intros tr' [e|] Htr'; [by apply wp_ret|by apply IH].
Qed.

Lemma keeps_cleanup platform manifests : keeps (BaseHandler.DeleteOperatorManifests b platform manifests true).
Proof.
  intros tr Htr. unfold BaseHandler.DeleteOperatorManifests. apply wp_bind. eapply wp_mono; [|by apply keeps_charts].
  intros tr' [e|] Htr'; [by apply wp_ret|by apply keeps_manifests].
Qed.
End base_cleanup.

(** *** The filter *)

(** The calls of the base handler and those that stand for them. *)
Definition filtered (trE : list (call ClientE)) (trF : list (call HandlerE)) : Prop :=
  (lawful client_event_of filter_rule trE → lawful cleanup_event_of scc_rule trF) ∧
  ∀ res, last (Effects.events client_event_of trE) = Some (EvFilter res true None) →
    u_name res = DatabaseService.internalPostgresSCCName → shown_owned res (cleanup_events trF).

Lemma filtered_answer res trE trF trF' (answer : bool * option goerr) :
  filtered trE trF → (lawful cleanup_event_of scc_rule trF → lawful cleanup_event_of scc_rule trF') →
  (answer = (true, None) → u_name res = DatabaseService.internalPostgresSCCName → shown_owned res (cleanup_events trF')) →
  filtered (trE ++ [Call (FilterResource res) answer]) trF'.
Proof.
  intros [Hlaw _] HtrF' Hshown. split.
  - unfold lawful at 1. rewrite events_app. intros Hl%each_after_app_inv. by apply HtrF', Hlaw.
  - intros res'. rewrite client_last. intros [= <- Hans Herr]. apply Hshown. by destruct answer; simpl in *; subst.
Qed.

Lemma lawful_read trF X (e : HandlerE X) x :
  (∀ res, cleanup_event_of (Call e x) ≠ EvDeleted res) →
  lawful cleanup_event_of scc_rule trF → lawful cleanup_event_of scc_rule (trF ++ [Call e x]).
Proof. intros He Htr. apply lawful_snoc; [done|]. destruct (cleanup_event_of _) eqn:Hev; [by destruct (He res)|done..]. Qed.

Lemma wp_filter_answer res trE trF :
  filtered trE trF →
  wp (DatabaseService.deleteOnlyOwnedInternalPostgresSCC res) trF (λ trF' answer,
    filtered (trE ++ [Call (FilterResource res) answer]) trF').
Proof.
  intros HJ. unfold DatabaseService.deleteOnlyOwnedInternalPostgresSCC.
  destruct (String.eqb_spec (u_name res) DatabaseService.internalPostgresSCCName) as [Hname|Hname]; cbn [negb].
  2: { apply wp_ret. by apply (filtered_answer res trE trF). }
  apply wp_bind, wp_call. intros live.
  assert (lawful cleanup_event_of scc_rule trF → lawful cleanup_event_of scc_rule (trF ++ [Call (GetLiveObject res) live])) as H1;
    [by apply lawful_read|].
  destruct live as [live|err].
  2: { apply wp_ret. apply (filtered_answer res trE trF); [done..|]. by destruct (err_is _ _). }
  destruct (String.eqb_spec (default "" (own_Labels live !! DatabaseService.internalPostgresSCCOwnedLabelKey))
    DatabaseService.internalPostgresSCCOwnedLabelValue) as [Hlabel|Hlabel]; cbn [negb].
  2: { apply wp_ret. by apply (filtered_answer res trE trF). }
  apply wp_bind, wp_call. intros platform. apply wp_ret. apply (filtered_answer res trE trF); [done| |].
  { intros Htr. by apply lawful_read, H1. }
  destruct platform as [uid|err]; [|by destruct (err_is _ _)].
  intros [= Howned] _. exists (cleanup_events trF), live, uid. split; [|split].
  - rewrite !events_snoc. by rewrite <-app_assoc.
  - destruct (own_Labels live !! _) as [v|]; simpl in Hlabel; [by subst|done].
  - unfold DatabaseService.hasOwnerReferenceUID in Howned. apply existsb_exists in Howned as (ref & Hin & ->%String.eqb_eq).
    by apply list_elem_of_In.
Qed.

Lemma wp_with_filter X (e : ClientE X) trE trF :
  filtered trE trF → wp (DatabaseService.with_filter e) trF (λ trF' x, filtered (trE ++ [Call e x]) trF').
Proof.
  intros HJ. pose proof HJ as [Hlaw Hshown].
  assert (∀ x, (∀ res, client_event_of (Call e x) ≠ EvFilter res true None) →
    (lawful client_event_of filter_rule (trE ++ [Call e x]) → lawful cleanup_event_of scc_rule (trF ++ [Call (Cleanup e) x])) →
    filtered (trE ++ [Call e x]) (trF ++ [Call (Cleanup e) x])) as Hcall.
  { intros x He Hl. split; [done|]. intros res. rewrite client_last. intros [= Hev]. by destruct (He res). }
  assert (∀ x, lawful client_event_of filter_rule (trE ++ [Call e x]) → lawful cleanup_event_of scc_rule trF) as Hpre.
  { intros x. unfold lawful at 1. rewrite events_app. by intros Hl%each_after_app_inv%Hlaw. }
  destruct e as [gvk ns name|res|res|chart|chart|manifest ns]; [| |by apply wp_filter_answer| | |]; apply wp_call; intros x;
    (apply Hcall; [done|]; intros Hl; pose proof (Hpre x Hl) as HtrF); try by apply lawful_read.
  apply lawful_snoc; [done|].
  destruct (Hl (Effects.events client_event_of trE) (EvDelete res x) []) as [Hkind Hlast]; [by rewrite Effects.events_snoc|].
  split; [done|]. by apply Hshown.
Qed.

(** C11: cleanup of the database module never takes another installation's SCC. Whatever the
    cluster and the renderer answer, the shared Postgres SCC (or its ClusterRole) is deleted
    only right after the live object was seen with the ownership label and with an owner
    reference to the current Platform CR; no CRD and no namespace is deleted at all. *)
Theorem scc_deleted_only_owned platform :
  wp (DatabaseService.DeleteOperatorResources platform) [] (λ tr _, each_after (λ before ev, match ev with
    | EvDeleted res =>
        u_gvk res ≠ CustomResourceDefinition ∧ gvk_Kind (u_gvk res) ≠ "Namespace" ∧
        (u_name res = DatabaseService.internalPostgresSCCName → shown_owned res before)
    | _ => True
    end) (cleanup_events tr)).
Proof.
  unfold DatabaseService.DeleteOperatorResources.
  eapply wp_mono; [|apply (wp_interp _ filtered _ [] []); [intros; by apply wp_with_filter|apply keeps_cleanup, lawful_nil|]].
  - intros tr err (trE & Hl & [Hlaw _]). intros l1 ev l2 Heq. specialize (Hlaw Hl l1 ev l2 Heq).
    destruct ev as [res| | |]; [|done..]. destruct Hlaw as [Hkind ?]. unfold spared_kind in Hkind. tauto.
  - split; [intros _; apply lawful_nil|done].
Qed.

(** ** The monitoring module's CR *)

(** The cluster said that it has one node. *)
Definition saw_single_node (tr : list (call HandlerE)) : Prop :=
  Call GetTopology (Ok Monitoring.SingleReplicaTopologyMode) ∈ tr ∨
  ∃ unschedulable, Call ListNodes (Ok unschedulable) ∈ tr ∧ length (filter (λ u, u = false) unschedulable) = 1.

Lemma wp_IsSingleNodeCluster tr :
  wp Monitoring.IsSingleNodeCluster tr (λ tr' single, single = true → saw_single_node tr').
Proof.
  unfold Monitoring.IsSingleNodeCluster. apply wp_bind, wp_call. intros [topology|err].
  - apply wp_ret. intros ->%String.eqb_eq. left. apply elem_of_app. right. by left.
  - destruct (_ && _); [by apply wp_ret|]. apply wp_bind, wp_call. intros [nodes|e]; apply wp_ret; [|done].
    intros Hn%Nat.eqb_eq. right. exists nodes. split; [apply elem_of_app; right; by left|done].
Qed.

(** A section has somewhere to write. *)
Definition metrics_used (m : MetricsSpec) : Prop := m_Storage m ≠ None ∨ m_Exporters m ≠ [].
Definition traces_used (t : TracesSpec) : Prop := t_Storage t ≠ None ∨ t_Exporters t ≠ [].
Definition usage_logs_used (u : UsageLogsSpec) : Prop := ul_Storage u ≠ None ∨ ul_Exporters u ≠ [].

Lemma used_iff {A} (storage : option A) (exporters : value_map) :
  Monitoring.is_set storage || Monitoring.nonempty_map exporters = true ↔ storage ≠ None ∨ exporters ≠ [].
Proof. destruct storage, exporters; simpl; naive_solver. Qed.

(** What the projection keeps. *)
Definition sections_in_use (spec s : MonitoringCommonSpec) : Prop :=
  (∀ m, mon_Metrics s = Some m ↔ mon_Metrics spec = Some m ∧ metrics_used m) ∧
  (∀ t, mon_Traces s = Some t → traces_used t ∧ ∀ tls, t_TLS t ≠ Some (false, tls)) ∧
  (mon_Traces s = None → ∀ t, mon_Traces spec = Some t → ¬ traces_used t) ∧
  (∀ l, mon_Logs s = Some l ↔ mon_Logs spec = Some l ∧ l_Storage l ≠ None) ∧
  (∀ u, mon_UsageLogs s = Some u ↔ mon_UsageLogs spec = Some u ∧ usage_logs_used u).

Lemma kept_iff {A} (o : option A) (used : A → Prop) (test : bool) :
  match o with Some a => test = true ↔ used a | None => True end →
  ∀ a, (if test then o else None) = Some a ↔ o = Some a ∧ used a.
Proof. destruct o as [b|], test; intros Ht a; naive_solver. Qed.

Lemma project_sections_in_use spec : sections_in_use spec (Monitoring.project_sections spec).
Proof.
  destruct spec as [ns ms ts al ls us n]. unfold sections_in_use, Monitoring.project_sections,
    Monitoring.metricsEnabled, Monitoring.tracesEnabled, Monitoring.logsEnabled, Monitoring.usageLogsEnabled.
  cbn [mon_Metrics mon_Traces mon_Logs mon_UsageLogs].
  split; [apply kept_iff; destruct ms; [apply used_iff|done]|].
  split; [|split; [|split]].
  - destruct ts as [t|]; [|done]. destruct (_ || _) eqn:Hu; [|done]. apply used_iff in Hu. intros t' [= <-].
    unfold Monitoring.drop_disabled_tls. destruct (t_TLS t) as [[[] tls]|] eqn:Htls; split; try done; simpl; congruence.
  - destruct ts as [t|]; [|done]. destruct (_ || _) eqn:Hu; [done|]. intros _ ? [= <-] Hused%used_iff. congruence.
  - apply kept_iff. destruct ls as [l|]; [|done]. by destruct (l_Storage l).
  - apply kept_iff. destruct us; [apply used_iff|done].
Qed.

Lemma projected_unused spec :
  let s := Monitoring.project_sections spec in
  mon_Metrics s = None ∧ mon_Traces s = None ↔ Monitoring.metricsEnabled spec || Monitoring.tracesEnabled spec = false.
Proof.
  intros s. unfold s, Monitoring.project_sections. cbn [mon_Metrics mon_Traces].
  destruct (Monitoring.metricsEnabled spec) eqn:Hm, (Monitoring.tracesEnabled spec) eqn:Ht; simpl; split; try done;
    unfold Monitoring.metricsEnabled, Monitoring.tracesEnabled in *; destruct (mon_Metrics spec), (mon_Traces spec); naive_solver.
Qed.

(** C39: the collector runs exactly when it is needed. In the Monitoring CR, metrics, traces, logs
    and usage logs are kept exactly when they have storage (or, but for logs, exporters),
    without a disabled TLS section; the replicas are zero when neither metrics nor traces are
    kept; otherwise they are what the DSCI says, or, when it says nothing, one or two, and one
    only if the cluster was seen to have a single node. *)
Theorem monitoring_spec_bounds cli spec :
  wp (Monitoring.project_spec cli spec) [] (λ tr s,
    sections_in_use spec s ∧
    if decide (mon_Metrics s = None ∧ mon_Traces s = None) then mon_CollectorReplicas s = 0%Z
    else if decide (mon_CollectorReplicas spec = 0%Z)
      then (1 ≤ mon_CollectorReplicas s ≤ 2)%Z ∧ (mon_CollectorReplicas s = 1%Z → cli = true ∧ saw_single_node tr)
      else mon_CollectorReplicas s = mon_CollectorReplicas spec).
Proof.
  unfold Monitoring.project_spec, Monitoring.default_replicas. pose proof (projected_unused spec) as Hun.
  apply wp_bind. destruct (_ || _) eqn:Hused.
  - destruct (Z.eqb_spec (mon_CollectorReplicas spec) 0) as [Hz|Hz].
    + destruct cli; [apply wp_bind; eapply wp_mono; [|apply wp_IsSingleNodeCluster]; intros tr single Hs; apply wp_ret|];
        apply wp_ret; (split; [apply project_sections_in_use|]);
        (rewrite decide_False by (intros Hn; by apply Hun in Hn)); rewrite decide_True by done; cbn [mon_CollectorReplicas Monitoring.with_replicas].
      * destruct single; (split; [lia|]); [intros _; by split; [|apply Hs]|done].
      * split; [lia|done].
    + apply wp_ret, wp_ret. split; [apply project_sections_in_use|].
      rewrite decide_False by (intros Hn; by apply Hun in Hn). by rewrite decide_False by done.
  - apply wp_ret, wp_ret. split; [apply project_sections_in_use|]. by rewrite decide_True by by apply Hun.
Qed.

(** ** Cleanup of KServe *)

(** The directories whose kustomize sources a cleanup renders. *)
Definition rendered_context (c : call HandlerE) : option string :=
  match c with @Call _ _ e _ =>
    match e with Cleanup (KustomizeRender m _) => Some (ContextDir m) | _ => None end end.

Definition rendered_contexts (tr : list (call HandlerE)) : list string := omap rendered_context tr.

Section kserve.
Context `{Converter}.

Definition renders_from (p : string → Prop) (c : call ClientE) : Prop :=
  match c with @Call _ _ e _ => match e with KustomizeRender m _ => p (ContextDir m) | _ => True end end.

Lemma deleteRendered_renders (b : ModuleConfig Ctx) p resources :
  all_calls (renders_from p) (BaseHandler.deleteRenderedResources b resources false).
Proof.
  induction resources as [|res resources IH]; cbn [BaseHandler.deleteRenderedResources]; [done|].
  apply all_calls_bind; [|by intros []]. unfold BaseHandler.delete_resource, BaseHandler.delete_one.
  destruct (BaseHandler.protected res); [done|]. apply all_calls_bind; [done|]. intros [e|]; [by destruct (_ && _)|done].
Qed.

Lemma base_cleanup_renders (platform : PlatformContext) :
  all_calls (renders_from (.≠ "connectionAPI")) (BaseHandler.DeleteOperatorResources Kserve.Config (Some platform)).
Proof.
  unfold BaseHandler.DeleteOperatorResources, BaseHandler.DeleteOperatorManifests. simpl.
  intros resources. split; [done|]. destruct resources as [resources|e]; [|done].
  apply all_calls_bind; [apply deleteRendered_renders|]. by intros [].
Qed.

(** Nothing that KServe's override adds is taken away again. The operator deploys the
    connection API's manifests with KServe, but the cleanup of a disabled KServe runs the
    base handler's method, which renders the base handler's manifests only: the connection
    API is never rendered, so none of its resources is deleted. *)
Theorem kserve_cleanup_keeps_connection_api platform :
  p_ManifestsBasePath platform ≠ "" →
  "connectionAPI" ∈ ContextDir <$> Manifests (Kserve.GetOperatorManifests (Some platform)) ∧
  wp (DeleteOperatorResources Kserve.NewHandler (Some platform)) [] (λ tr _,
    "connectionAPI" ∉ rendered_contexts tr).
Proof.
  intros Hpath. split.
  - unfold Kserve.GetOperatorManifests, nonempty_str. destruct (String.eqb_spec (p_ManifestsBasePath platform) ""); [done|].
    simpl. right. by left.
  - cbn [DeleteOperatorResources Kserve.NewHandler]. unfold BaseMethods.DeleteOperatorResources.
    eapply wp_mono; [|apply (wp_lift _ _ [] []), (wp_all_calls (renders_from (.≠ "connectionAPI"))), base_cleanup_renders].
    intros tr err (new & (new' & Heq & Hnew) & ->). simpl in Heq, Hnew |- *. subst new'.
    intros (c & (c' & -> & Hin)%list_elem_of_fmap & Hc)%list_elem_of_omap. rewrite Forall_forall in Hnew.
    specialize (Hnew c' Hin). destruct c' as [X e x]. destruct e; try done. simpl in *. congruence.
Qed.

Lemma kserve_cleanup_keeps_connection_api_witness :
  let platform := MkPlatform "opendatahub" "" "" OpenDataHub "3.0.0" ∅ "/opt/charts" "/opt/manifests" in
  wp (DeleteOperatorResources Kserve.NewHandler (Some platform)) [] (λ tr _, "connectionAPI" ∉ rendered_contexts tr).
Proof. intros platform. by apply (kserve_cleanup_keeps_connection_api platform). Defined.
End kserve.
