(* ===== verification/ApiVersions.v ===== *)
(** * ApiVersions: the older versions of the Platform and of the DSCInitialization

    - Module [PlatformV1alpha1] models [api/config/v1alpha1/platform_conversion.go]: the
      stored version is v1alpha2, where two modules have other names.
    - Module [DsciV1] models [api/dscinitialization/v1/dscinitialization_conversion.go] and
      the admission of v1 objects ([internal/webhook/dscinitialization/v1/validating.go]).
    - Module [DashboardTypes] holds the deprecated types of
      [internal/webhook/dashboard], which the validator of [Admission] refuses.

    Conversion copies deep, so no data is shared; parts that are copied as they are, are
    [value]s. *)

From S2P Require Import Prelude Effects Conditions Unstructured ModuleBase ModuleRegistry ModuleActions Namespaces Conversion DscController Admission.

Module PlatformV1alpha1.

(** A Platform of either version: metadata, the states of its modules and its status. *)
Record Platform := MkPlatform { meta : ObjectMeta; modules : PlatformModules; status : Status }.

(** The fields of the v1alpha1 struct. *)
Definition fields : list string :=
  ["AIPipelines"; "AIGateway"; "MLflowOperator"; "Monitoring"; "MCPLifecycleOperator"; "Kserve"; "Trainer";
   "Workbenches"; "OGX"; "FeastOperator"; "Dashboard"; "SparkOperator"; "Ray"; "ModelRegistry"; "TrustyAI";
   "DatabaseService"].

(** The field of the source for a field of the hub. *)
Definition to_source (f : string) : string :=
  if String.eqb f "Data" then "FeastOperator" else if String.eqb f "AIHub" then "ModelRegistry" else f.

(** The field of the hub for a field of v1alpha1. *)
Definition from_source (f : string) : string :=
  if String.eqb f "FeastOperator" then "Data" else if String.eqb f "ModelRegistry" then "AIHub" else f.

(** A struct literal that takes each field from another. *)
Definition build (fs : list string) (source : string → string) (src : PlatformModules) : PlatformModules :=
  list_to_map ((λ f, (f, default "" (src !! source f))) <$> fs).

Definition ConvertTo (p : Platform) : Platform :=
  MkPlatform (meta p) (build module_fields to_source (modules p)) (status p).

Definition ConvertFrom (src : Platform) : Platform :=
  MkPlatform (meta src) (build fields from_source (modules src)) (status src).

(** A struct value: exactly the fields of its type. *)
Definition struct_of (fs : list string) (pm : PlatformModules) : Prop := ∀ f, is_Some (pm !! f) ↔ f ∈ fs.

Lemma lookup_build fs source src f :
  NoDup fs → build fs source src !! f = if decide (f ∈ fs) then Some (default "" (src !! source f)) else None.
Proof.
  intros Hnd. unfold build. case_decide as Hf.
  - apply elem_of_list_to_map_1; [|apply list_elem_of_fmap; by exists f].
    rewrite <-list_fmap_compose. by apply (NoDup_fmap_2 (λ f : string, f)).
  - apply not_elem_of_list_to_map_1. rewrite <-list_fmap_compose. intros (g & -> & Hg)%list_elem_of_fmap. by apply Hf.
Qed.

(** Renaming there and back. *)
Lemma build_back fs gs s t pm :
  NoDup fs → NoDup gs → (∀ f, f ∈ fs → s f ∈ gs ∧ t (s f) = f) → struct_of fs pm → build fs s (build gs t pm) = pm.
Proof.
  intros Hfs Hgs Hst Hpm. apply map_eq. intros f. rewrite lookup_build by done. case_decide as Hf.
  - destruct (Hst f Hf) as [Hg Hback]. rewrite lookup_build by done. rewrite decide_True by done. simpl.
    rewrite Hback. apply Hpm in Hf as [ms Hms]. by rewrite Hms.
  - destruct (pm !! f) eqn:Hl; [|done]. destruct Hf. apply Hpm. by rewrite Hl.
Qed.

Lemma fields_NoDup : NoDup fields ∧ NoDup module_fields.
Proof. by apply (bool_decide_unpack _). Qed.

(** Both views of a Platform are complete: converting a stored Platform to v1alpha1 and back,
    or a v1alpha1 Platform to the hub and back, changes nothing; no module's state is lost or
    swapped with another's. *)
Theorem platform_roundtrip p :
  (struct_of module_fields (modules p) → ConvertTo (ConvertFrom p) = p) ∧
  (struct_of fields (modules p) → ConvertFrom (ConvertTo p) = p).
Proof.
  destruct fields_NoDup as [Hf Hm]. destruct p as [m pm st]. unfold ConvertTo, ConvertFrom. simpl.
  split; intros Hpm; f_equal; apply build_back; try done; apply Forall_forall; by apply (bool_decide_unpack _).
Qed.

Definition sample_platform : Platform := MkPlatform (MkMeta VNull None) zero_PlatformModules (MkStatus "" 0 []).

Lemma platform_roundtrip_witness : ConvertTo (ConvertFrom sample_platform) = sample_platform.
Proof.
  apply platform_roundtrip. intros f.
  change (modules sample_platform) with (list_to_map ((λ g, (g, "")) <$> module_fields) : PlatformModules). split.
  - intros [ms Hms]. apply elem_of_list_to_map_2, list_elem_of_fmap in Hms as (g & [= -> _] & Hg). done.
  - intros Hf. exists "". apply elem_of_list_to_map_1; [by apply (bool_decide_unpack _)|].
    apply list_elem_of_fmap. by exists f.
Defined.

End PlatformV1alpha1.

(** ** DSCInitialization v1 *)

Module DsciV1.
Import DsciV2.

Record DevFlagsV1 := MkDevFlagsV1 { df_ManifestsUri : string; df_LogMode : string; df_LogLevel : string }.
Record DevFlagsV2 := MkDevFlagsV2 { df2_LogLevel : string }.

Record DSCInitializationStatus := MkDsciStatus {
  is_Phase : string;
  is_Conditions : list Condition;
  is_RelatedObjects : value;
  is_ErrorMessage : string;
  is_Release : value;
}.

(** An object whose development flags are [F]. *)
Record DSCInitialization (F : Type) := MkDsci {
  di_Meta : ObjectMeta;
  di_ApplicationsNamespace : string;
  di_Monitoring : value;
  di_TrustedCABundle : option TrustedCABundle;
  di_DevFlags : option F;
  di_Status : DSCInitializationStatus;
}.
Arguments MkDsci {F}.
Arguments di_Meta {F}.
Arguments di_ApplicationsNamespace {F}.
Arguments di_Monitoring {F}.
Arguments di_TrustedCABundle {F}.
Arguments di_DevFlags {F}.
Arguments di_Status {F}.

Definition copy_bundle (b : TrustedCABundle) : TrustedCABundle := MkBundle (cb_ManagementState b) (cb_CustomCABundle b).

Definition copy_status (s : DSCInitializationStatus) : DSCInitializationStatus :=
  MkDsciStatus (is_Phase s) (is_Conditions s) (is_RelatedObjects s) (is_ErrorMessage s) (is_Release s).

Definition ConvertTo (c : DSCInitialization DevFlagsV1) : DSCInitialization DevFlagsV2 :=
  MkDsci (di_Meta c) (di_ApplicationsNamespace c) (di_Monitoring c) (copy_bundle <$> di_TrustedCABundle c)
    ((λ flags, MkDevFlagsV2 (df_LogLevel flags)) <$> di_DevFlags c) (copy_status (di_Status c)).

Definition ConvertFrom (src : DSCInitialization DevFlagsV2) : DSCInitialization DevFlagsV1 :=
  MkDsci (di_Meta src) (di_ApplicationsNamespace src) (di_Monitoring src) (copy_bundle <$> di_TrustedCABundle src)
    ((λ flags, MkDevFlagsV1 "" "" (df2_LogLevel flags)) <$> di_DevFlags src) (copy_status (di_Status src)).

(** The development flags without the two deprecated settings. *)
Definition drop_deprecated (flags : DevFlagsV1) : DevFlagsV1 := MkDevFlagsV1 "" "" (df_LogLevel flags).

Definition set_flags {F} (flags : option F) (c : DSCInitialization F) : DSCInitialization F :=
  MkDsci (di_Meta c) (di_ApplicationsNamespace c) (di_Monitoring c) (di_TrustedCABundle c) flags (di_Status c).

(** A stored DSCInitialization survives being read and written as v1; what a v1 client writes
    comes back as it was but for the two deprecated development settings, which are dropped. *)
Theorem dsci_roundtrip :
  (∀ c, ConvertTo (ConvertFrom c) = c) ∧
  (∀ c, ConvertFrom (ConvertTo c) = set_flags (drop_deprecated <$> di_DevFlags c) c).
Proof.
  split; intros [m ns mon [[]|] [[]|] []]; done.
Qed.

Section validator.
(** [cluster.ValidateCustomCABundle]: the PEM check, crypto/x509. *)
Context (ValidateCustomCABundle : string → option goerr).

Definition validateSpec (req : Request (DSCInitialization DevFlagsV1)) (allowMessage : string) : Response :=
  with_object req (λ dsci,
    match di_TrustedCABundle dsci with
    | Some bundle =>
        if String.eqb (cb_ManagementState bundle) Managed && nonempty_str (cb_CustomCABundle bundle)
        then
          match ValidateCustomCABundle (cb_CustomCABundle bundle) with
          | Some err => denied ("invalid customCABundle: " +:+ err_text err)
          | None => allowed allowMessage
          end
        else allowed allowMessage
    | None => allowed allowMessage
    end).

Definition Handle (req : Request (DSCInitialization DevFlagsV1)) : prog ListE Response :=
  let allowMessage :=
    "Operation " +:+ op_text (req_Operation req) +:+ " on " +:+ gvk_Kind (req_Kind req) +:+ " v1 allowed" in
  match req_Operation req with
  | Create =>
      resp ← ValidateSingletonCreation req DSCInitializationGVK;
      mret (if negb (Allowed resp) then resp else validateSpec req allowMessage)
  | Update => mret (validateSpec req allowMessage)
  | Delete =>
      resp ← DenyCountGtZero DataScienceClusterGVK
               "Cannot delete DSCInitialization v1 object when DataScienceCluster object still exists";
      mret (if negb (Allowed resp) then resp else allowed allowMessage)
  | Connect => mret (allowed allowMessage)
  end.

(** The request that a v2 client would have sent. *)
Definition as_v2 (req : Request (DSCInitialization DevFlagsV1)) : Request DsciV2.DSCInitialization :=
  let conv (r : result (DSCInitialization DevFlagsV1)) : result DsciV2.DSCInitialization :=
    match r with Ok c => Ok (di_TrustedCABundle (ConvertTo c)) | Err e => Err e end in
  MkRequest (req_Kind req) (req_Operation req) (req_Namespace req) (req_DryRun req) (conv (req_Object req))
    (conv <$> req_OldObject req).

Lemma validateSpec_v2 req m m' :
  Allowed (validateSpec req m) = Allowed (DsciV2.validateSpec ValidateCustomCABundle (as_v2 req) m').
Proof.
  unfold validateSpec, DsciV2.validateSpec, with_object, as_v2. simpl. destruct (req_Object req) as [c|e]; [|done].
  simpl. destruct (di_TrustedCABundle c) as [b|]; simpl; [|done].
  destruct (String.eqb _ _ && _); [|done]. by destruct (ValidateCustomCABundle _).
Qed.

End validator.
End DsciV1.

(** ** Deprecated dashboard types *)

Module DashboardTypes.

Definition HardwareProfileGVK : GroupVersionKind := MkGVK "infrastructure.opendatahub.io" "v1" "HardwareProfile".

Definition NewAcceleratorProfileWebhook : Deprecation.TypeMap :=
  Deprecation.MkTypeMap (MkGVK "dashboard.opendatahub.io" "v1" "AcceleratorProfile") HardwareProfileGVK.

Definition NewHardwareProfileWebhook : Deprecation.TypeMap :=
  Deprecation.MkTypeMap (MkGVK "dashboard.opendatahub.io" "v1alpha1" "HardwareProfile") HardwareProfileGVK.

End DashboardTypes.
