(* ===== verification/Services.v ===== *)
(** * Services: the service registry, the auth service and the trusted CA bundle

    - Module [ServiceRegistry] models [internal/controller/services/registry/registry.go] and
      [registerServices] of [cmd/main.go].
    - Module [Auth] models the actions of [internal/controller/services/auth]: which roles are
      rendered, whom they are bound to, and the default group.
    - Module [TrustedCABundle] models [internal/controller/services/certconfigmapgenerator]:
      the ConfigMap with certificates in every namespace, and what triggers it.

    Adding a resource to the request, reading and writing the cluster are events. A handler
    of the registry is any value with a name. *)

From S2P Require Import Prelude Effects Conditions Unstructured Namespaces ModuleBase ModuleRegistry SharedPlatform PlatformConfig Conversion DscController Admission Kueue Gateway GatewayStatus GatewayAuth.

(** ** The registry *)

Module ServiceRegistry.
Section registry.
Context {H : Type} (GetName : H → string).
Variable multierror_error : list goerr → goerr.

Record handlerEntry := MkEntry { handler : H; enabled : bool }.

(** A nil map of entries is the empty one. *)
Record t := MkRegistry { entries : gmap string handlerEntry }.

(** The order in which Go ranges over the map. *)
Variable range : gmap string handlerEntry → list handlerEntry.

Definition Add (r : t) (ch : H) : t := MkRegistry (<[GetName ch := MkEntry ch true]> (entries r)).

Definition setEnabled (r : t) (name : string) (b : bool) : t :=
  match entries r !! name with
  | Some e => MkRegistry (<[name := MkEntry (handler e) b]> (entries r))
  | None => r
  end.

Definition Enable (r : t) (name : string) : t := setEnabled r name true.
Definition Disable (r : t) (name : string) : t := setEnabled r name false.

Definition IsEnabled (r : t) (name : string) : bool :=
  match entries r !! name with Some e => enabled e | None => false end.

Definition ForEach {E : Type → Type} (r : t) (f : H → prog E (option goerr)) : prog E (option goerr) :=
  errs ← prog_foldl (λ errs e,
    if negb (enabled e) then mret errs
    else err ← f (handler e); mret (append_error errs err)) [] (range (entries r));
  mret (ErrorOrNil multierror_error errs).

(** [registerServices] of [cmd/main.go]; the services are ranged over as a map, too. *)
Definition register_service (IsServiceEnabled : string → bool) (r : t) (service : string * H) : t :=
  let r := Add r service.2 in
  if negb (IsServiceEnabled service.1) then Disable r service.1 else r.

Definition registerServices (IsServiceEnabled : string → bool) (services : list (string * H)) (r : t) : t :=
  foldl (register_service IsServiceEnabled) r services.

End registry.
Arguments MkEntry {H}.
Arguments handler {H}.
Arguments enabled {H}.
Arguments MkRegistry {H}.
Arguments entries {H}.
End ServiceRegistry.

(** ** Auth *)

Module Auth.

Record Subject := MkSubject { sub_Kind : string; sub_APIGroup : string; sub_Name : string }.
Record RoleRef := MkRoleRef { ref_Kind : string; ref_APIGroup : string; ref_Name : string }.

Inductive AuthResource :=
| RoleBinding (name namespace : string) (subjects : list Subject) (role : RoleRef)
| ClusterRoleBinding (name : string) (subjects : list Subject) (role : RoleRef)
| UserGroup (name namespace : string) (annotations : gmap string string) (users : list string).

(** [GetNamespace] answers whether the namespace is being deleted. *)
Inductive AuthE : Type → Type :=
| GetNamespace (name : string) : AuthE (result bool)
| GetClusterAuthentication : AuthE (result string)
| AddResources (res : AuthResource) : AuthE (option goerr)
| AuthCluster {X} (e : ClusterE X) : AuthE X.

Record AuthSpec := MkAuthSpec { AdminGroups : list string; AllowedGroups : list string }.

Definition AdminGroupRoleTemplate : string := "resources/data-science-admingroup-role.tmpl.yaml".
Definition AdminGroupMaaSRoleTemplate : string := "resources/data-science-admingroup-maas-role.tmpl.yaml".
Definition AdminGroupClusterRoleTemplate : string := "resources/data-science-admingroup-clusterrole.tmpl.yaml".
Definition AllowedGroupClusterRoleTemplate : string := "resources/data-science-allowedgroup-clusterrole.tmpl.yaml".
Definition AdminGroupKuadrantRoleTemplate : string := "resources/data-science-admingroup-kuadrant-role.tmpl.yaml".

Definition systemAuthenticatedGroup : string := "system:authenticated".
Definition rbacGroup : string := "rbac.authorization.k8s.io".

(** [cluster.NamespaceExists]: one that is terminating does not. *)
Definition NamespaceExists (name : string) : prog AuthE (result bool) :=
  ns ← trigger (GetNamespace name);
  mret (match ns with
        | Err err => if err_is TagNotFound err then Ok false else Err err
        | Ok deleting => Ok (negb deleting)
        end).

(** The templates of the request and the error. *)
Definition initialize : prog AuthE (list string * option goerr) :=
  let templates := [AdminGroupRoleTemplate; AdminGroupClusterRoleTemplate; AllowedGroupClusterRoleTemplate] in
  exists_maas ← NamespaceExists "models-as-a-service";
  match exists_maas with
  | Err err => mret (templates, Some (wrapf "failed to check if models-as-a-service namespace exists" err))
  | Ok maas =>
      let templates := if maas : bool then templates ++ [AdminGroupMaaSRoleTemplate] else templates in
      exists_kuadrant ← NamespaceExists "kuadrant-system";
      mret (match exists_kuadrant with
            | Err err => (templates, Some (wrapf "failed to check if kuadrant-system namespace exists" err))
            | Ok kuadrant =>
                (if kuadrant : bool then templates ++ [AdminGroupKuadrantRoleTemplate] else templates, None)
            end)
  end.

Definition group_subject (e : string) : Subject := MkSubject "Group" rbacGroup e.

(** [groupsToBind], given whether the role is an admin role. *)
Definition groups_to_bind (isAdminRole : bool) (groups : list string) : list Subject :=
  foldl (λ acc e,
    if String.eqb e "" || (isAdminRole && String.eqb e systemAuthenticatedGroup) then acc
    else acc ++ [group_subject e]) [] groups.

Definition isAdminRole (roleName : string) : bool :=
  String.eqb roleName "data-science-admingroup-role" ||
  String.eqb roleName "data-science-admingroup-maas-role" ||
  String.eqb roleName "data-science-admingroup-kuadrant-role".

Definition isAdminClusterRole (roleName : string) : bool :=
  String.eqb roleName "data-science-admingroupcluster-role".

Section auth.
Variable gvk_String : GroupVersionKind → string.
Variable NotFound_text : string → string → string → string.
(** The operator's [rhai-applications-namespace] setting and [cluster.GetRelease().Name]. *)
Variables configuredAppNS release : string.

Definition ApplicationNamespace : prog AuthE (result string) :=
  lift (@AuthCluster) (Namespaces.ApplicationNamespace gvk_String NotFound_text configuredAppNS).

(** The namespace of the binding; [None] when there is none to bind in. *)
Definition binding_namespace (namespace : string) : prog AuthE (result (option string)) :=
  if String.eqb namespace "" then
    ns ← ApplicationNamespace;
    mret (match ns with Err err => Err err | Ok ns => Ok (Some ns) end)
  else
    found ← NamespaceExists namespace;
    mret (match found with
          | Err err => Err err
          | Ok found => Ok (if negb found then None else Some namespace)
          end).

Definition bindRole (groups : list string) (roleBindingName roleName namespace : string) : prog AuthE (option goerr) :=
  target ← binding_namespace namespace;
  match target with
  | Err err => mret (Some err)
  | Ok None => mret None
  | Ok (Some ns) =>
      err ← trigger (AddResources (RoleBinding roleBindingName ns (groups_to_bind (isAdminRole roleName) groups)
                                     (MkRoleRef "Role" rbacGroup roleName)));
      mret (match err with Some _ => Some (errorf "error creating RoleBinding for group") | None => None end)
  end.

Definition bindClusterRole (groups : list string) (roleBindingName roleName : string) : prog AuthE (option goerr) :=
  err ← trigger (AddResources (ClusterRoleBinding roleBindingName
                   (groups_to_bind (isAdminClusterRole roleName) groups) (MkRoleRef "ClusterRole" rbacGroup roleName)));
  mret (match err with Some _ => Some (errorf "error creating ClusterRoleBinding for group") | None => None end).

(** The calls in order, up to the first error. *)
Fixpoint until_error (steps : list (prog AuthE (option goerr))) : prog AuthE (option goerr) :=
  match steps with
  | [] => mret None
  | p :: steps => err ← p; match err with Some e => mret (Some e) | None => until_error steps end
  end.

(** [None] is an instance of another type. *)
Definition managePermissions (instance : option AuthSpec) : prog AuthE (option goerr) :=
  match instance with
  | None => mret (Some (errorf "instance is not of type *services.Auth"))
  | Some ai =>
      until_error
        [bindRole (AdminGroups ai) "data-science-admingroup-rolebinding" "data-science-admingroup-role" "";
         bindRole (AdminGroups ai) "data-science-admingroup-maas-rolebinding" "data-science-admingroup-maas-role"
           "models-as-a-service";
         bindRole (AdminGroups ai) "data-science-admingroup-kuadrant-rolebinding"
           "data-science-admingroup-kuadrant-role" "kuadrant-system";
         bindClusterRole (AdminGroups ai) "data-science-admingroupcluster-rolebinding"
           "data-science-admingroupcluster-role";
         bindClusterRole (AllowedGroups ai) "data-science-allowedgroupcluster-rolebinding"
           "data-science-allowedgroupcluster-role"]
  end.

Definition addUserGroup (userGroupName : string) : prog AuthE (option goerr) :=
  ns ← ApplicationNamespace;
  match ns with
  | Err err => mret (Some err)
  | Ok namespace =>
      err ← trigger (AddResources (UserGroup userGroupName namespace
                       {["opendatahub.io/managed" := "false"]} []));
      mret (fmap (M:=option) (wrapf "unable to add user group") err)
  end.

(** [cluster.IsIntegratedOAuth]. *)
Definition IsIntegratedOAuth : prog AuthE (result bool) :=
  auth ← trigger GetClusterAuthentication;
  mret (match GetClusterAuthenticationMode auth with
        | Err err => Err err
        | Ok authMode => Ok (String.eqb authMode "IntegratedOAuth")
        end).

Definition default_group : string :=
  if String.eqb release ManagedRhoai then "rhods-admins"
  else if String.eqb release SelfManagedRhoai then "rhods-admins"
  else "odh-admins".

Definition createDefaultGroup : prog AuthE (option goerr) :=
  integrated ← IsIntegratedOAuth;
  match integrated with
  | Err err => mret (Some err)
  | Ok false => mret None
  | Ok true =>
      err ← addUserGroup default_group;
      mret (match err with
            | Some e => if err_is TagAlreadyExists e then None else Some e
            | None => None
            end)
  end.

End auth.
End Auth.

(** ** The trusted CA bundle *)

Module TrustedCABundle.
Import DsciV2.

Definition CAConfigMapName : string := "odh-trusted-ca-bundle".
Definition CADataFieldName : string := "odh-ca-bundle.crt".
Definition PartOf : string := "opendatahub-operator".
Definition InjectTrustCA : string := "config.openshift.io/inject-trusted-cabundle".
Definition InjectionOfCABundleAnnotatoion : string := "security.opendatahub.io/inject-trusted-ca-bundle".

Record BundleNamespace := MkBundleNamespace {
  bn_Name : string;
  bn_Phase : string;
  bn_Annotations : gmap string string;
}.

Record BundleConfigMap := MkBundleConfigMap {
  bc_Name : string;
  bc_Namespace : string;
  bc_Labels : gmap string string;
  bc_Data : gmap string string;
}.

(** A DSCI is what the reconciler reads of it. *)
Inductive BundleE : Type → Type :=
| ListDSCIs : BundleE (result (list DSCInitialization))
| ApplyConfigMap (cm : BundleConfigMap) : BundleE (option goerr)
| DeleteConfigMap (namespace name : string) : BundleE (option goerr)
| ListNamespaces : BundleE (result (list string)).

(** [strconv.ParseBool]. *)
Definition ParseBool (s : string) : option bool :=
  if bool_decide (s ∈ ["1"; "t"; "T"; "TRUE"; "true"; "True"]) then Some true
  else if bool_decide (s ∈ ["0"; "f"; "F"; "FALSE"; "false"; "False"]) then Some false
  else None.

Definition IsReservedNamespace (ns : BundleNamespace) : bool :=
  if has_prefix (bn_Name ns) "openshift-" then true
  else if has_prefix (bn_Name ns) "kube-" then true
  else if String.eqb (bn_Name ns) "default" then true
  else if String.eqb (bn_Name ns) "openshift" then true
  else false.

Definition IsNotReservedNamespace (ns : BundleNamespace) : bool := negb (IsReservedNamespace ns).

Definition IsActiveNamespace (ns : BundleNamespace) : bool := String.eqb (bn_Phase ns) "Active".

Definition newline : string := String (Ascii.ascii_of_nat 10) EmptyString.

(** [desiredConfigMap]. *)
Definition desired_config_map (namespace customCAData : string) : BundleConfigMap :=
  MkBundleConfigMap CAConfigMapName namespace
    {["app.kubernetes.io/part-of" := PartOf; InjectTrustCA := "true"]}
    {[CADataFieldName := TrimSpace customCAData +:+ newline]}.

Definition CreateOdhTrustedCABundleConfigMap (namespace customCAData : string) : prog BundleE (option goerr) :=
  trigger (ApplyConfigMap (desired_config_map namespace customCAData)).

Definition DeleteOdhTrustedCABundleConfigMap (namespace : string) : prog BundleE (option goerr) :=
  err ← trigger (DeleteConfigMap namespace CAConfigMapName);
  mret (match err with
        | Some e => if err_is TagNotFound e then None else Some e
        | None => None
        end).

Definition ShouldInjectTrustedCABundle (ns : BundleNamespace) : bool :=
  match bn_Annotations ns !! InjectionOfCABundleAnnotatoion with
  | None => true
  | Some value => default true (ParseBool value)
  end.

Section bundle.
Variable gvk_String : GroupVersionKind → string.
Variable NotFound_text : string → string → string → string.

(** [cluster.GetDSCI]. *)
Definition GetDSCI : prog BundleE (result DSCInitialization) :=
  listed ← trigger ListDSCIs;
  mret (match listed with
        | Err err => Err (wrapf ("failed to list resources of type " +:+ gvk_String DSCInitializationGVK) err)
        | Ok [dsci] => Ok dsci
        | Ok [] => Err (NewNotFound NotFound_text (gvk_Group DSCInitializationGVK) "dscinitializations" "")
        | Ok items =>
            Err (errorf ("failed to get a valid " +:+ gvk_String DSCInitializationGVK +:+
              " instance, expected to find 1 instance, found " +:+ itoa (Z.of_nat (length items))))
        end).

Definition remove_bundle (ns : BundleNamespace) : prog BundleE (option goerr) :=
  err ← DeleteOdhTrustedCABundleConfigMap (bn_Name ns);
  mret (fmap (M:=option) (wrapf "error deleting existing configmap") err).

Definition Reconcile (ns : BundleNamespace) : prog BundleE (option goerr) :=
  if negb (IsActiveNamespace ns) then mret None
  else if IsReservedNamespace ns then mret None
  else
    dsci ← GetDSCI;
    match dsci with
    | Err err =>
        mret (if err_is TagNotFound err then None else Some (wrapf "failed to retrieve DSCInitialization" err))
    | Ok None => remove_bundle ns
    | Ok (Some bundle) =>
        if negb (ShouldInjectTrustedCABundle ns) then remove_bundle ns
        else if String.eqb (cb_ManagementState bundle) Removed then remove_bundle ns
        else if String.eqb (cb_ManagementState bundle) Unmanaged then mret None
        else
          err ← CreateOdhTrustedCABundleConfigMap (bn_Name ns) (cb_CustomCABundle bundle);
          mret (fmap (M:=option) (wrapf "error adding configmap to namespace") err)
    end.

End bundle.

(** The requests, one per namespace, for an event on the DSCI. *)
Definition dsciEventHandler : prog BundleE (list string) :=
  listed ← trigger ListNamespaces;
  mret (match listed with Err _ => [] | Ok namespaces => namespaces end).

Inductive dsci_watch_event :=
| DsciCreated (dsci : DSCInitialization)
| DsciUpdated (old new : DSCInitialization)
| DsciDeleted (dsci : DSCInitialization).

#[export] Instance TrustedCABundle_eq_dec : EqDecision TrustedCABundle.
Proof. solve_decision. Defined.

Definition dsciPredicates (ev : dsci_watch_event) : bool :=
  match ev with
  | DsciCreated _ => true
  | DsciUpdated old new => negb (bool_decide (old = new))
  | DsciDeleted _ => false
  end.

End TrustedCABundle.

(** ** Theorems *)

(** *** The registry *)

Section registry_theorems.
Import ServiceRegistry.
Context {H : Type} (GetName : H → string) (multierror_error : list goerr → goerr).
Implicit Types (r : @t H).

(** The enabled handlers. *)
Definition enabled_handlers r : list H := handler <$> filter (λ e, enabled e = true) (map_to_list (entries r)).*2.

(** One iteration over a registry calls each enabled handler once, whatever the others answer
    and in whatever order the map is ranged over, and reports an error exactly when one did. *)
Theorem ForEach_visits_enabled {E : Type → Type} (visit : H → E (option goerr)) range r :
  range (entries r) ≡ₚ (map_to_list (entries r)).*2 →
  wp (ForEach multierror_error range r (λ ch, trigger (visit ch))) [] (λ tr err, ∃ answers : list (H * option goerr),
    tr = (λ ha, Call (visit ha.1) ha.2) <$> (answers : list (H * option goerr)) ∧ answers.*1 ≡ₚ enabled_handlers r ∧
    (err = None ↔ Forall (λ ha, ha.2 = None) answers)).
Proof.
  intros Hrange. unfold ForEach. apply wp_bind.
  eapply wp_mono; [|apply (wp_foldl _ _ _ _ (λ visited tr errs, ∃ answers : list (H * option goerr),
    tr = (λ ha, Call (visit ha.1) ha.2) <$> (answers : list (H * option goerr)) ∧ answers.*1 = handler <$> filter (λ e, enabled e = true) visited ∧
    (errs = [] ↔ Forall (λ ha, ha.2 = None) answers)))].
  - intros tr errs (answers & -> & Hans & Herrs). apply wp_ret. exists answers. split; [done|]. split.
    + rewrite Hans. unfold enabled_handlers. by rewrite Hrange.
    + rewrite <-Herrs. by destruct errs.
  - by exists [].
  - intros pre e todo tr errs _ (answers & -> & Hans & Herrs). rewrite filter_app, filter_cons, filter_nil.
    destruct (enabled e) eqn:He; cbn [negb].
    + intros a. apply wp_ret. exists (answers ++ [(handler e, a)]). rewrite !fmap_app, Hans.
      split; [done|]. split; [case_decide; [done|congruence]|]. rewrite Forall_app, Forall_singleton, <-Herrs.
      destruct a; simpl; [|naive_solver]. split; [by intros [_ ?]%app_nil|by intros [_ ?]].
    + apply wp_ret. exists answers. case_decide; [congruence|]. by rewrite app_nil_r.
Qed.

Lemma registered_service IsServiceEnabled services r n :
  (∀ s, s ∈ services → GetName s.2 = s.1) →
  IsEnabled (registerServices GetName IsServiceEnabled services r) n =
  if decide (n ∈ services.*1) then IsServiceEnabled n else IsEnabled r n.
Proof.
  revert r. induction services as [|[m h] services IH]; intros r Hn; [done|].
  cbn [registerServices foldl]. unfold registerServices in IH. rewrite IH by (intros; apply Hn; by right). rewrite fmap_cons.
  destruct (decide (n ∈ services.*1)) as [Hin|Hin]; [by rewrite decide_True by (right; done)|].
  unfold register_service, Disable, setEnabled, Add. cbn [fst snd].
  specialize (Hn (m, h)). cbn [fst snd] in Hn. rewrite Hn by (by left).
  destruct (decide (n = m)) as [->|Hne].
  - rewrite decide_True by (by left). destruct (IsServiceEnabled m) eqn:Hf; cbn [negb];
      unfold IsEnabled; cbn [entries]; rewrite ?lookup_insert_eq; cbn [entries enabled handler]; by rewrite ?lookup_insert_eq.
  - rewrite decide_False by (intros [?|?]%elem_of_cons; done). unfold IsEnabled.
    destruct (IsServiceEnabled m); cbn [negb entries]; rewrite ?lookup_insert_eq; cbn [entries];
      by rewrite ?lookup_insert_ne by done.
Qed.
End registry_theorems.

(** *** Auth *)

Section auth_theorems.
Import Auth.
Context (gvk_String : GroupVersionKind → string) (NotFound_text : string → string → string → string).
Context (configuredAppNS release : string).

(** What was asked to be added. *)
Definition asked_resource (c : call AuthE) : option AuthResource :=
  match c with @Call _ _ e _ => match e with AddResources res => Some res | _ => None end end.

Definition asked (tr : list (call AuthE)) : list AuthResource := omap asked_resource tr.

(** A namespace was seen that is not being deleted. *)
Definition saw_namespace (name : string) (c : call AuthE) : bool :=
  match c with
  | @Call _ X e x =>
      match e in AuthE X return X → bool with
      | GetNamespace n => λ x, String.eqb n name && match x with Ok false => true | _ => false end
      | _ => λ _, false
      end x
  end.

Definition seen (name : string) (tr : list (call AuthE)) : bool := existsb (saw_namespace name) tr.

(** The application namespace that a call told. *)
Definition told_namespace (c : call AuthE) : option string :=
  match c with
  | @Call _ X e x =>
      match e in AuthE X return X → option string with
      | AuthCluster e => λ x,
          match e in ClusterE Y return Y → option string with
          | ListDSCI => λ x, match x with Ok [dsci] => Some (dsci_ApplicationsNamespace dsci) | _ => None end
          | _ => λ _, None
          end x
      | _ => λ _, None
      end x
  end.

Definition application_namespace (tr : list (call AuthE)) : option string :=
  if nonempty_str configuredAppNS then Some configuredAppNS else head (omap told_namespace tr).

(** The groups that may be bound to a role. *)
Definition admins (ai : AuthSpec) : list string := filter (λ g, g ≠ "" ∧ g ≠ systemAuthenticatedGroup) (AdminGroups ai).
Definition users (ai : AuthSpec) : list string := filter (λ g, g ≠ "") (AllowedGroups ai).

Definition admin_binding (ai : AuthSpec) (namespace role : string) : AuthResource :=
  RoleBinding ("data-science-admingroup-" +:+ role +:+ "binding") namespace (group_subject <$> admins ai)
    (MkRoleRef "Role" rbacGroup ("data-science-admingroup-" +:+ role)).

(** All bindings, given the application namespace and which of the optional ones exist. *)
Definition bindings (ai : AuthSpec) (ns : string) (maas kuadrant : bool) : list AuthResource :=
  [admin_binding ai ns "role"] ++
  (if maas then [admin_binding ai "models-as-a-service" "maas-role"] else []) ++
  (if kuadrant then [admin_binding ai "kuadrant-system" "kuadrant-role"] else []) ++
  [ClusterRoleBinding "data-science-admingroupcluster-rolebinding" (group_subject <$> admins ai)
     (MkRoleRef "ClusterRole" rbacGroup "data-science-admingroupcluster-role");
   ClusterRoleBinding "data-science-allowedgroupcluster-rolebinding" (group_subject <$> users ai)
     (MkRoleRef "ClusterRole" rbacGroup "data-science-allowedgroupcluster-role")].

Lemma groups_to_bind_filter isAdmin groups :
  groups_to_bind isAdmin groups =
  group_subject <$> filter (λ g, g ≠ "" ∧ (isAdmin = true → g ≠ systemAuthenticatedGroup)) groups.
Proof.
  unfold groups_to_bind. induction groups as [|g groups IH] using rev_ind; [done|].
  rewrite foldl_snoc, filter_app, filter_cons, filter_nil, fmap_app, IH.
  destruct (String.eqb_spec g "") as [->|Hg]; cbn [orb].
  - rewrite decide_False by naive_solver. by rewrite app_nil_r.
  - destruct isAdmin; cbn [andb]; [|by rewrite decide_True by done].
    destruct (String.eqb_spec g systemAuthenticatedGroup) as [->|Hs].
    + rewrite decide_False by naive_solver. by rewrite app_nil_r.
    + by rewrite decide_True by done.
Qed.

Lemma bind_admins ai : groups_to_bind true (AdminGroups ai) = group_subject <$> admins ai.
Proof. rewrite groups_to_bind_filter. f_equal. apply list_filter_iff. naive_solver. Qed.

Lemma bind_users ai : groups_to_bind false (AllowedGroups ai) = group_subject <$> users ai.
Proof. rewrite groups_to_bind_filter. f_equal. apply list_filter_iff. naive_solver. Qed.

Lemma asked_app tr tr' : asked (tr ++ tr') = asked tr ++ asked tr'.
Proof. apply omap_app. Qed.

Lemma seen_app n tr tr' : seen n (tr ++ tr') = seen n tr || seen n tr'.
Proof. apply existsb_app. Qed.

(** Reading the application namespace. *)
Lemma wp_ApplicationNamespace :
  wp (ApplicationNamespace gvk_String NotFound_text configuredAppNS) [] (λ tr res,
    asked tr = [] ∧ (∀ n, seen n tr = false) ∧
    match res with
    | Ok ns => ∀ tr', application_namespace (tr ++ tr') = Some ns
    | Err _ => application_namespace tr = None
    end).
Proof.
  unfold ApplicationNamespace, Namespaces.ApplicationNamespace, application_namespace, GetDSCI.
  destruct (nonempty_str configuredAppNS); [by apply wp_ret|].
  intros [[|dsci [|]]|err]; apply wp_ret; repeat split; try done; intros tr'; simpl; done.
Qed.

Lemma wp_bind_optional groups bname role ns subs tr (Φ : list (call AuthE) → option goerr → Prop) :
  ns ≠ "" → groups_to_bind (isAdminRole role) groups = subs →
  (∀ x err, saw_namespace ns (Call (GetNamespace ns) x) = false → Φ (tr ++ [Call (GetNamespace ns) x]) err) →
  (∀ a err, Φ (tr ++ [Call (GetNamespace ns) (Ok false);
     Call (AddResources (RoleBinding bname ns subs (MkRoleRef "Role" rbacGroup role))) a]) err) →
  wp (bindRole gvk_String NotFound_text configuredAppNS groups bname role ns) tr Φ.
Proof.
  intros Hns <- Hskip Hadd. unfold bindRole, binding_namespace, NamespaceExists. destruct (String.eqb_spec ns ""); [done|].
  intros [[|]|err].
  - apply Hskip. simpl. by rewrite andb_false_r.
  - intros a. apply wp_ret. rewrite <-app_assoc. apply Hadd.
  - simpl. destruct (err_is TagNotFound err); apply Hskip; simpl; by rewrite andb_false_r.
Qed.

Lemma wp_bind_cluster groups bname role subs tr (Φ : list (call AuthE) → option goerr → Prop) :
  groups_to_bind (isAdminClusterRole role) groups = subs →
  (∀ a err, Φ (tr ++ [Call (AddResources (ClusterRoleBinding bname subs
     (MkRoleRef "ClusterRole" rbacGroup role))) a]) err) →
  wp (bindClusterRole groups bname role) tr Φ.
Proof. intros <- Hadd a. apply wp_ret, Hadd. Qed.

(** The end of a run after the calls [tr0 ++ new]. *)
Lemma bindings_end ai ns tr0 new (err : option goerr) :
  asked tr0 = [] → (∀ n, seen n tr0 = false) → (∀ tr', application_namespace (tr0 ++ tr') = Some ns) →
  (let all := bindings ai ns (seen "models-as-a-service" new) (seen "kuadrant-system" new) in
   asked new `prefix_of` all ∧ (err = None → asked new = all)) →
  wp (Ret err) (tr0 ++ new) (λ tr err,
    let all ns := bindings ai ns (seen "models-as-a-service" tr) (seen "kuadrant-system" tr) in
    match application_namespace tr with
    | Some ns => asked tr `prefix_of` all ns ∧ (err = None → asked tr = all ns)
    | None => asked tr = [] ∧ err ≠ None
    end).
Proof. intros Hasked Hseen Hns Hend. apply wp_ret. cbv zeta. by rewrite Hns, !asked_app, !seen_app, Hasked, !Hseen. Qed.

(** A run of known calls ends with a first part of the bindings. *)
Ltac bindings_leaf :=
  match goal with H : ∀ new err, _ → _ → wp (Ret err) _ _ |- _ => apply H end;
  [by eexists|done].

(** C25: admins are who the Auth CR says, and nobody is admin by being logged in. Whatever the
    cluster answers, the bindings asked for are a first part of [bindings], and all of it when
    no error is returned: the admin roles are bound to exactly the groups listed, in order,
    without the empty group and without [system:authenticated], the role of users to the
    allowed groups without the empty one. The first role is bound in the application namespace,
    which the setting or the only DSCI listed names and which is not looked up; without one
    nothing is bound and there is an error. In each of the two optional namespaces its role is
    bound exactly if this was seen there and not being deleted. *)
Theorem managePermissions_bindings ai :
  wp (managePermissions gvk_String NotFound_text configuredAppNS (Some ai)) [] (λ tr err,
    let all ns := bindings ai ns (seen "models-as-a-service" tr) (seen "kuadrant-system" tr) in
    match application_namespace tr with
    | Some ns => asked tr `prefix_of` all ns ∧ (err = None → asked tr = all ns)
    | None => asked tr = [] ∧ err ≠ None
    end).
Proof.
  unfold managePermissions. cbn [until_error]. apply wp_bind. unfold bindRole at 1, binding_namespace at 1.
  rewrite String.eqb_refl. apply wp_bind, wp_bind. eapply wp_mono; [|apply wp_ApplicationNamespace].
  intros tr0 [ns|err] (Hasked & Hseen & Hns); [|do 3 apply wp_ret; rewrite Hns, Hasked; by split].
  assert (∀ new err, asked new `prefix_of` bindings ai ns (seen "models-as-a-service" new) (seen "kuadrant-system" new) →
    (err = None → asked new = bindings ai ns (seen "models-as-a-service" new) (seen "kuadrant-system" new)) →
    wp (Ret err) (tr0 ++ new) _) as Hend by (intros; by apply (bindings_end ai ns)). clear Hasked Hseen Hns.
  assert (isAdminRole "data-science-admingroup-role" = true) as -> by done. rewrite bind_admins.
  apply wp_ret. intros a. apply wp_ret. destruct a as [e|]; [bindings_leaf|].
  apply wp_bind; eapply wp_bind_optional; [done|apply bind_admins|intros [[|]|] err Hx; [|discriminate Hx|]; clear Hx|intros a err].
  all: rewrite <-?app_assoc; destruct err; [bindings_leaf|].
  all: apply wp_bind; eapply wp_bind_optional; [done|apply bind_admins|intros [[|]|] err Hx; [|discriminate Hx|]; clear Hx|intros b err].
  all: rewrite <-?app_assoc; destruct err; [bindings_leaf|].
  all: apply wp_bind; eapply wp_bind_cluster; [apply bind_admins|]; intros c err; rewrite <-?app_assoc; destruct err; [bindings_leaf|].
  all: apply wp_bind; eapply wp_bind_cluster; [apply bind_users|]; intros d err; rewrite <-?app_assoc.
  all: destruct err; bindings_leaf.
Qed.
End auth_theorems.

(** *** The trusted CA bundle *)

Section bundle_theorems.
Import TrustedCABundle DsciV2.
Context (gvk_String : GroupVersionKind → string) (NotFound_text : string → string → string → string).

(** What the API server stores when a ConfigMap is applied over another. *)
Context (merge : BundleConfigMap → option BundleConfigMap → BundleConfigMap).

(** An applied object has the labels and the data that were sent; other fields may stay. *)
Definition applies : Prop := ∀ cm old, bc_Labels cm ⊆ bc_Labels (merge cm old) ∧ bc_Data cm ⊆ bc_Data (merge cm old).

(** A cluster that answers without failures. *)
Record World := MkWorld {
  w_dscis : list DSCInitialization;
  w_namespaces : gmap string BundleNamespace;
  w_config_maps : gmap (string * string) BundleConfigMap;
}.

Definition set_config_maps (w : World) (cms : gmap (string * string) BundleConfigMap) : World :=
  MkWorld (w_dscis w) (w_namespaces w) cms.

Definition serve X (e : BundleE X) (w : World) : X * World :=
  match e in BundleE X return X * World with
  | ListDSCIs => (Ok (w_dscis w), w)
  | ApplyConfigMap cm =>
      let key := (bc_Namespace cm, bc_Name cm) in
      (None, set_config_maps w (<[key := merge cm (w_config_maps w !! key)]> (w_config_maps w)))
  | DeleteConfigMap namespace name =>
      match w_config_maps w !! (namespace, name) with
      | Some _ => (None, set_config_maps w (delete (namespace, name) (w_config_maps w)))
      | None => (Some (Goerr "not found" [TagNotFound]), w)
      end
  | ListNamespaces => (Ok (map_to_list (w_namespaces w)).*1, w)
  end.

Definition reconcile_namespace (w : World) (name : string) : World :=
  match w_namespaces w !! name with
  | Some ns => (run serve (Reconcile gvk_String NotFound_text ns) w []).1.2
  | None => w
  end.

(** An event on the DSCI: what the handler requests is reconciled. *)
Definition dsci_event (w : World) : World :=
  foldl reconcile_namespace w (run serve dsciEventHandler w []).1.1.

Definition in_scope (ns : BundleNamespace) : bool := IsActiveNamespace ns && IsNotReservedNamespace ns.

Definition bundle_key (ns : BundleNamespace) : string * string := (bn_Name ns, CAConfigMapName).

(** A namespace has the bundle that the DSCI asks for. *)
Definition bundle_settled (w : World) (ns : BundleNamespace) : Prop :=
  let found := w_config_maps w !! bundle_key ns in
  match w_dscis w with
  | [None] => found = None
  | [Some bundle] =>
      if ShouldInjectTrustedCABundle ns then
        if String.eqb (cb_ManagementState bundle) Removed then found = None
        else cb_ManagementState bundle = Unmanaged ∨
          ∃ cm, found = Some cm ∧ bc_Labels cm !! InjectTrustCA = Some "true" ∧
            bc_Data cm !! CADataFieldName = Some (TrimSpace (cb_CustomCABundle bundle) +:+ newline)
      else found = None
  | _ => True
  end.

(** Only the bundles of [names] differ. *)
Definition only_bundles (names : list string) (w w' : World) : Prop :=
  w_dscis w' = w_dscis w ∧ w_namespaces w' = w_namespaces w ∧
  ∀ namespace name, name ≠ CAConfigMapName ∨ namespace ∉ names →
    w_config_maps w' !! (namespace, name) = w_config_maps w !! (namespace, name).

Lemma only_bundles_refl names w : only_bundles names w w.
Proof. done. Qed.

Lemma only_bundles_write w name o :
  only_bundles [name] w (set_config_maps w (partial_alter (λ _, o) (name, CAConfigMapName) (w_config_maps w))).
Proof.
  split; [done|]. split; [done|]. intros n m Hnm. simpl. rewrite lookup_partial_alter_ne; [done|].
  intros [= <- <-]. destruct Hnm as [?|Hn]; [done|]. apply Hn. by left.
Qed.

Lemma remove_settles w ns tr :
  let w' := (run serve (remove_bundle ns) w tr).1.2 in
  only_bundles [bn_Name ns] w w' ∧ w_config_maps w' !! bundle_key ns = None.
Proof.
  unfold remove_bundle, DeleteOdhTrustedCABundleConfigMap. cbn -[err_is]. unfold bundle_key.
  destruct (w_config_maps w !! (bn_Name ns, CAConfigMapName)) eqn:Hf; cbn -[err_is].
  - split; [apply only_bundles_write|apply lookup_delete_eq].
  - by split.
Qed.

Lemma settled_at w w' ns names :
  only_bundles names w w' → bundle_settled (set_config_maps w (w_config_maps w')) ns → bundle_settled w' ns.
Proof. intros (Hd & _) . unfold bundle_settled. simpl. by rewrite Hd. Qed.

Lemma reconcile_settles w ns :
  applies → in_scope ns = true →
  let w' := (run serve (Reconcile gvk_String NotFound_text ns) w []).1.2 in
  only_bundles [bn_Name ns] w w' ∧ bundle_settled w' ns.
Proof.
  unfold in_scope, IsNotReservedNamespace, Reconcile. intros Happ [-> ->%negb_true_iff]%andb_prop. cbn [negb].
  unfold GetDSCI. cbn [mbind prog_bind run serve trigger mret prog_ret fst snd]. destruct (w_dscis w) as [|[b|] [|d dscis]] eqn:Hw.
  all: cbn [mbind prog_bind run mret prog_ret fst snd].
  - split; [done|]. unfold bundle_settled. by rewrite Hw.
  - destruct (remove_settles w ns [Call ListDSCIs (Ok [Some b])]) as [Hkeep Hnone]. cbn [app].
    destruct (ShouldInjectTrustedCABundle ns) eqn:Hs; cbn [negb]; [destruct (String.eqb (cb_ManagementState b) Removed) eqn:Hr|].
    + split; [done|]. eapply settled_at; [done|]. unfold bundle_settled. cbn [w_dscis w_config_maps set_config_maps]. by rewrite Hw, Hs, Hr.
    + destruct (String.eqb_spec (cb_ManagementState b) Unmanaged) as [Hu|Hu].
      * split; [done|]. unfold bundle_settled. cbn. rewrite Hw, Hs, Hr. by left.
      * assert (only_bundles [bn_Name ns] w (set_config_maps w (<[bundle_key ns := merge (desired_config_map (bn_Name ns) (cb_CustomCABundle b))
          (w_config_maps w !! bundle_key ns)]> (w_config_maps w)))) as Hkeep' by apply only_bundles_write.
        split; [exact Hkeep'|]. unfold bundle_settled. cbn. rewrite Hw, Hs, Hr. right. eexists.
        split; [apply lookup_insert_eq|].
        destruct (Happ (desired_config_map (bn_Name ns) (cb_CustomCABundle b)) (w_config_maps w !! bundle_key ns)) as [Hl Hd].
        split; [eapply lookup_weaken; [|exact Hl]|eapply lookup_weaken; [|exact Hd]]; by rewrite ?lookup_insert_eq.
    + split; [done|]. eapply settled_at; [done|]. unfold bundle_settled. cbn [w_dscis w_config_maps set_config_maps]. by rewrite Hw, Hs.
  - split; [done|]. unfold bundle_settled. by rewrite Hw.
  - destruct (remove_settles w ns [Call ListDSCIs (Ok [None])]) as [Hkeep Hnone]. cbn [app].
    split; [done|]. eapply settled_at; [done|]. unfold bundle_settled. cbn [w_dscis w_config_maps set_config_maps]. by rewrite Hw.
  - split; [done|]. unfold bundle_settled. by rewrite Hw.
Qed.

Lemma reconcile_out_of_scope w ns :
  in_scope ns = false → (run serve (Reconcile gvk_String NotFound_text ns) w []).1.2 = w.
Proof.
  unfold in_scope, IsNotReservedNamespace, Reconcile. destruct (IsActiveNamespace ns); [|done].
  by destruct (IsReservedNamespace ns).
Qed.

Lemma settled_transfer names w w' ns :
  only_bundles names w w' → bn_Name ns ∉ names → bundle_settled w ns → bundle_settled w' ns.
Proof.
  intros (Hd & _ & Hc) Hn. unfold bundle_settled, bundle_key. rewrite Hd, Hc by (by right). done.
Qed.

Lemma only_bundles_trans names names' w w1 w2 :
  names' ⊆ names → only_bundles names w w1 → only_bundles names' w1 w2 → only_bundles names w w2.
Proof.
  intros Hsub (Hd1 & Hn1 & Hc1) (Hd2 & Hn2 & Hc2). split; [congruence|]. split; [congruence|].
  intros n m Hnm. rewrite Hc2, Hc1; [done|done|]. destruct Hnm as [?|Hn]; [by left|right; auto].
Qed.

(** Reconciling one namespace of the cluster. *)
Lemma reconcile_namespace_settles w n :
  applies → (∀ n ns, w_namespaces w !! n = Some ns → bn_Name ns = n) →
  only_bundles (match w_namespaces w !! n with Some ns => if in_scope ns then [n] else [] | None => [] end) w (reconcile_namespace w n) ∧
  ∀ ns, w_namespaces w !! n = Some ns → in_scope ns = true → bundle_settled (reconcile_namespace w n) ns.
Proof.
  intros Happ Hnames. unfold reconcile_namespace. destruct (w_namespaces w !! n) as [ns|] eqn:Hns; [|by split].
  destruct (in_scope ns) eqn:Hin.
  - destruct (reconcile_settles w ns Happ Hin) as [Hkeep Hset]. rewrite (Hnames n ns Hns) in Hkeep.
    split; [done|]. by intros ? [= <-].
  - rewrite reconcile_out_of_scope by done. split; [done|]. intros ? [= <-]. congruence.
Qed.

(** Reconciling a list of namespaces. *)
Lemma reconcile_all w (scope todo : list string) :
  applies → (∀ n ns, w_namespaces w !! n = Some ns → bn_Name ns = n ∧ (in_scope ns = true → n ∈ scope)) → NoDup todo →
  only_bundles (filter (λ n, n ∈ scope) todo) w (foldl reconcile_namespace w todo) ∧
  ∀ n ns, n ∈ todo → w_namespaces w !! n = Some ns → in_scope ns = true →
    bundle_settled (foldl reconcile_namespace w todo) ns.
Proof.
  intros Happ Hnames. revert w Hnames. induction todo as [|n todo IH]; intros w Hnames Hnd; [by split; [|intros ?? ?%elem_of_nil]|].
  apply NoDup_cons in Hnd as [Hn Hnd]. simpl foldl.
  destruct (reconcile_namespace_settles w n) as [Hkeep Hset]; [done|intros; by apply Hnames|].
  assert (w_namespaces (reconcile_namespace w n) = w_namespaces w) as Hns by apply Hkeep.
  destruct (IH (reconcile_namespace w n)) as [Hrest Hdone]; [by rewrite Hns|done|]. rewrite Hns in Hdone. split.
  - eapply only_bundles_trans; [|eapply only_bundles_trans; [|apply only_bundles_refl|exact Hkeep]|exact Hrest].
    + intros m. rewrite !list_elem_of_filter. set_solver.
    + destruct (w_namespaces w !! n) as [ns|] eqn:Hw; [|set_solver]. destruct (Hnames n ns Hw) as [_ Hsc].
      destruct (in_scope ns); [|set_solver]. intros m ->%list_elem_of_singleton. rewrite list_elem_of_filter. split; [auto|by left].
  - intros m ns [->|Hm]%elem_of_cons Hm' Hin; [|by eapply Hdone].
    eapply settled_transfer; [exact Hrest| |by apply Hset]. rewrite (proj1 (Hnames _ _ Hm')), list_elem_of_filter. tauto.
Qed.

(** C24: the bundle follows the DSCI. Whatever ConfigMaps there are, after an event on the DSCI
    every active namespace that is not reserved has the bundle that the DSCI asks for, or none
    where it asks for none or the namespace refuses it; no other ConfigMap and none in another
    namespace is touched. *)
Theorem bundles_follow_dsci w :
  applies → (∀ n ns, w_namespaces w !! n = Some ns → bn_Name ns = n) →
  let scope := (λ ns, bn_Name ns) <$> filter (λ ns, in_scope ns = true) (map_to_list (w_namespaces w)).*2 in
  only_bundles scope w (dsci_event w) ∧
  ∀ n ns, w_namespaces w !! n = Some ns → in_scope ns = true → bundle_settled (dsci_event w) ns.
Proof.
  intros Happ Hnames scope. unfold dsci_event. cbn [run dsciEventHandler trigger mbind prog_bind serve fst snd mret prog_ret].
  destruct (reconcile_all w scope (map_to_list (w_namespaces w)).*1) as [Hkeep Hset]; [done| |apply NoDup_fst_map_to_list|].
  - intros n ns Hns. split; [by apply Hnames|]. intros Hin. unfold scope. apply list_elem_of_fmap.
    exists ns. split; [symmetry; by apply Hnames|]. apply list_elem_of_filter. split; [done|].
    apply list_elem_of_fmap. exists (n, ns). split; [done|by apply elem_of_map_to_list].
  - split.
    + eapply only_bundles_trans; [|apply only_bundles_refl|exact Hkeep]. intros m [? _]%list_elem_of_filter. done.
    + intros n ns Hns Hin. apply (Hset n); [|done..]. apply list_elem_of_fmap. exists (n, ns).
      split; [done|by apply elem_of_map_to_list].
Qed.
End bundle_theorems.

(** Two namespaces, one of which refuses the bundle. *)
Definition sample_bundle_world : World :=
  MkWorld [Some (DsciV2.MkBundle Managed "-----BEGIN CERTIFICATE-----")]
    (list_to_map [("a", TrustedCABundle.MkBundleNamespace "a" "Active" ∅);
                  ("b", TrustedCABundle.MkBundleNamespace "b" "Active"
                          {[TrustedCABundle.InjectionOfCABundleAnnotatoion := "False"]})])
    {[("b", TrustedCABundle.CAConfigMapName) := TrustedCABundle.desired_config_map "b" "old"]}.

Lemma bundles_follow_dsci_witness :
  let w := dsci_event (λ _, "") (λ _ _ _, "") (λ cm _, cm) sample_bundle_world in
  bundle_settled w (TrustedCABundle.MkBundleNamespace "a" "Active" ∅) ∧
  w_config_maps w !! ("b", TrustedCABundle.CAConfigMapName) = None.
Proof.
  split; [|by vm_compute].
  apply (bundles_follow_dsci (λ _, "") (λ _ _ _, "") (λ cm _, cm) sample_bundle_world) with (n := "a"); [done| |done..].
  intros n ns Hns. unfold sample_bundle_world in Hns. cbn [w_namespaces list_to_map foldr] in Hns.
  apply lookup_insert_Some in Hns as [[<- <-]|[_ Hns]]; [done|].
  apply lookup_insert_Some in Hns as [[<- <-]|[_ Hns]]; [done|]. by rewrite lookup_empty in Hns.
Defined.
