(* ===== verification/MonitoringInjection.v ===== *)
(** * MonitoringInjection: the scrape label of monitors

    [internal/webhook/monitoring/mutating.go]: a ServiceMonitor or PodMonitor in a namespace
    that is labelled for monitoring gets the scrape label, if the Monitoring CR exists and the
    user did not set the label. The two reads of the API server are events; the answer for a
    namespace is its labels. *)

From S2P Require Import Prelude Effects Unstructured Conversion Admission Workload.

Definition ODHLabelMonitoring : string := "monitoring.opendatahub.io/scrape".

Inductive MonitorWebhookE : Type → Type :=
| GetNamespaceLabels (name : string) : MonitorWebhookE (result (gmap string string))
| GetMonitoringCR (name : string) : MonitorWebhookE (option goerr).

(** Whether the injector was set up with a client and a decoder. *)
Record Injector := MkInjector { has_Client : bool; has_Decoder : bool }.

Definition CoreosServiceMonitor : GroupVersionKind := MkGVK "monitoring.coreos.com" "v1" "ServiceMonitor".
Definition CoreosPodMonitor : GroupVersionKind := MkGVK "monitoring.coreos.com" "v1" "PodMonitor".

Definition isExpectedKind (kind : GroupVersionKind) : bool :=
  bool_decide (kind ∈ [CoreosServiceMonitor; CoreosPodMonitor]).

Section injector.
Context `{Marshal}.

(** [lbls] with the label, unless the user set it. *)
Definition scrape_labels (lbls : gmap string string) : gmap string string :=
  match lbls !! ODHLabelMonitoring with
  | Some _ => lbls
  | None => <[ODHLabelMonitoring := "true"]> lbls
  end.

Definition inject_label (obj : Workload) : Response :=
  let obj := with_labels obj (scrape_labels (w_Labels obj)) in
  match Marshal_object obj with
  | Err err => errored StatusInternalServerError err
  | Ok marshaled => patch_response marshaled
  end.

Definition not_configured : Response := allowed "Namespace not configured for monitoring".

Definition performMonitoringInjection (obj : Workload) : prog MonitorWebhookE Response :=
  let resourceNamespace := w_Namespace obj in
  if String.eqb resourceNamespace ""
  then mret (errored StatusBadRequest (errorf "unable to determine resource namespace"))
  else
    ns ← trigger (GetNamespaceLabels resourceNamespace);
    match ns with
    | Err err =>
        mret (if err_is TagNotFound err
              then errored StatusBadRequest (errorf ("namespace '" +:+ resourceNamespace +:+ "' not found"))
              else errored StatusInternalServerError
                     (wrapf ("failed to get namespace '" +:+ resourceNamespace +:+ "'") err))
    | Ok namespaceLabels =>
        match namespaceLabels !! ODHLabelMonitoring with
        | Some isMonitoredNamespace =>
            if String.eqb isMonitoredNamespace "true" then
              err ← trigger (GetMonitoringCR "default-monitoring");
              mret (match err with
                    | Some err =>
                        if err_is TagNotFound err then allowed "Monitoring is disabled - CR does not exist"
                        else errored StatusInternalServerError (wrapf "failed to verify monitoring state" err)
                    | None => inject_label obj
                    end)
            else mret not_configured
        | None => mret not_configured
        end
    end.

Definition Handle (i : Injector) (req : Request Workload) : prog MonitorWebhookE Response :=
  if negb (has_Decoder i)
  then mret (errored StatusInternalServerError (errorf "webhook decoder not initialized"))
  else if negb (has_Client i)
  then mret (errored StatusInternalServerError (errorf "webhook client not initialized"))
  else if negb (isExpectedKind (req_Kind req))
  then mret (errored StatusBadRequest (errorf ("unexpected kind: " +:+ gvk_Kind (req_Kind req))))
  else
    match req_Object req with
    | Err err => mret (errored StatusInternalServerError (wrapf "failed to decode object" err))
    | Ok obj =>
        if w_Deleting obj then mret (allowed "Object marked for deletion, skipping monitoring injection")
        else
          match req_Operation req with
          | Create | Update => performMonitoringInjection obj
          | op => mret (allowed ("Operation " +:+ op_text op +:+ " on " +:+ gvk_Kind (req_Kind req) +:+ " allowed"))
          end
    end.

End injector.

(** ** Theorems *)

Section theorems.
Context `{Marshal}.

(** The object differs from the request's by the scrape label at most, which is not changed if
    it was there. *)
Definition only_scrape_label (obj obj' : Workload) : Prop :=
  obj' = with_labels obj (w_Labels obj') ∧
  (∀ k, k ≠ ODHLabelMonitoring → w_Labels obj' !! k = w_Labels obj !! k) ∧
  (∀ v, w_Labels obj !! ODHLabelMonitoring = Some v → w_Labels obj' !! ODHLabelMonitoring = Some v) ∧
  (w_Labels obj !! ODHLabelMonitoring = None → w_Labels obj' !! ODHLabelMonitoring = Some "true").

Lemma scrape_labels_only obj : only_scrape_label obj (with_labels obj (scrape_labels (w_Labels obj))).
Proof.
  unfold only_scrape_label, scrape_labels. simpl.
  destruct (w_Labels obj !! ODHLabelMonitoring) eqn:Hl.
  - split; [done|]. split; [done|]. split; [by intros ? [= <-]|done].
  - split; [done|]. split; [by intros k Hk; rewrite lookup_insert_ne|]. split; [done|]. by rewrite lookup_insert_eq.
Qed.

(** C26: injection happens on evidence and adds one label. A request is patched only if the object
    is a monitor that is created or updated and not being deleted, its namespace was read to
    carry the scrape label with the value [true] and the Monitoring CR was read to exist; the
    patch is the object with the scrape label added, a value of the user being kept. *)
Theorem patched_on_evidence i req :
  wp (Handle i req) [] (λ tr resp, ∀ patch, Patched resp = Some patch → ∃ obj obj' labels,
    req_Object req = Ok obj ∧ w_Deleting obj = false ∧ isExpectedKind (req_Kind req) = true ∧
    (req_Operation req = Create ∨ req_Operation req = Update) ∧
    Marshal_object obj' = Ok patch ∧ only_scrape_label obj obj' ∧
    tr = [Call (GetNamespaceLabels (w_Namespace obj)) (Ok labels); Call (GetMonitoringCR "default-monitoring") None] ∧
    labels !! ODHLabelMonitoring = Some "true").
Proof.
  unfold Handle. destruct (has_Decoder i), (has_Client i); try done. cbn [negb].
  destruct (isExpectedKind (req_Kind req)) eqn:Hk; [|done]. cbn [negb].
  destruct (req_Object req) as [obj|err] eqn:Hobj; [|done]. destruct (w_Deleting obj) eqn:Hdel; [done|].
  assert (req_Operation req = Create ∨ req_Operation req = Update →
    wp (performMonitoringInjection obj) [] (λ tr resp, ∀ patch, Patched resp = Some patch → ∃ obj0 obj' labels,
      Ok obj = Ok obj0 ∧ w_Deleting obj0 = false ∧ true = true ∧ (req_Operation req = Create ∨ req_Operation req = Update) ∧
      Marshal_object obj' = Ok patch ∧ only_scrape_label obj0 obj' ∧
      tr = [Call (GetNamespaceLabels (w_Namespace obj0)) (Ok labels); Call (GetMonitoringCR "default-monitoring") None] ∧
      labels !! ODHLabelMonitoring = Some "true")) as Hinject.
  { intros Hop. unfold performMonitoringInjection. destruct (String.eqb _ _); [done|].
    intros [labels|err]; [|apply wp_ret; by destruct (err_is TagNotFound err)].
    cbn. destruct (labels !! ODHLabelMonitoring) as [v|] eqn:Hl; [|done].
    destruct (String.eqb_spec v "true") as [->|]; [|done].
    intros [err|]; apply wp_ret; [by destruct (err_is TagNotFound err)|].
    unfold inject_label. destruct (Marshal_object _) as [m|e] eqn:Hm; [|done]. intros ? [= <-].
    exists obj. eexists. exists labels. do 5 (split; [done|]). split; [apply scrape_labels_only|done]. }
  destruct (req_Operation req) eqn:Hop; try done; apply Hinject; auto.
Qed.

End theorems.

(** A monitor whose label the user set keeps it. *)
Example user_label_kept :
  scrape_labels {[ODHLabelMonitoring := "false"]} = {[ODHLabelMonitoring := "false"]}.
Proof. reflexivity. Qed.
