(* ===== verification/ScopeRules.v ===== *)
(** * ScopeRules: which tests a changed file selects

    [pkg/scoperules/scoperules.go]: the rules file, the names it knows and the classification
    of a changed path. Regular expressions (package regexp), reading and decoding the file are
    the operations of [ScopeLib]. A Go set of names is a [gset]. *)

From S2P Require Import Prelude.

Record Entry := MkEntry { Deps : list string; Aliases : list string; Covered : option bool }.

Record Rules := MkRules {
  ComponentPatterns : list string;
  ServicePatterns : list string;
  IgnoredPatterns : list string;
  IgnoredNames : list string;
  FrameworkDirs : list string;
  ManifestFiles : list string;
  Components : gmap string Entry;
  Services : gmap string Entry;
}.

(** Submatches are the whole match and the groups; [None] is no match. *)
Class ScopeLib := {
  Regexp : Type;
  Compile : string → result Regexp;
  FindStringSubmatch : Regexp → string → option (list string);
  MatchString : Regexp → string → bool;
  Decode : string → result Rules;
}.

Definition IsCovered (e : Entry) : bool := default true (Covered e).

Definition DepsTargets (entries : gmap string Entry) : gset string :=
  list_to_set (concat ((λ ne, Deps ne.2) <$> map_to_list entries)).

(** The names and aliases of entries. *)
Definition entry_names (entries : gmap string Entry) : gset string :=
  list_to_set (concat ((λ ne, ne.1 :: Aliases ne.2) <$> map_to_list entries)).

Definition KnownNames (r : Rules) : gset string :=
  entry_names (Components r) ∪ entry_names (Services r) ∪ list_to_set (IgnoredNames r).

Record Classification := MkClassification { Name : string; IsService : bool }.

Inductive FileKind := KindShared | KindIgnored | KindManifest | KindComponent | KindService.

Record FileClassification := MkFileClassification { Kind : FileKind; FileName : string }.

Section rules.
Context `{ScopeLib}.

(** [Load], given what reading the file gave. *)
Definition Load (path : string) (data : result string) : result Rules :=
  match data with
  | Err err => Err (wrapf ("reading " +:+ path) err)
  | Ok data => wrap_result ("parsing " +:+ path) (Decode data)
  end.

Record CompiledPatterns := MkCompiled {
  cComponents : list Regexp;
  cServices : list Regexp;
  cIgnored : list Regexp;
  frameworkDirs : gset string;
  manifestFiles : gset string;
  componentNames : gset string;
  serviceNames : gset string;
}.

Fixpoint compileAll (patterns : list string) : result (list Regexp) :=
  match patterns with
  | [] => Ok []
  | p :: patterns =>
      match Compile p with
      | Err err => Err (wrapf ("compiling pattern " +:+ quote p) err)
      | Ok re => rest ← compileAll patterns; Ok (re :: rest)
      end
  end.

Definition CompilePatterns (r : Rules) : result CompiledPatterns :=
  comp ← compileAll (ComponentPatterns r);
  svc ← compileAll (ServicePatterns r);
  ign ← compileAll (IgnoredPatterns r);
  Ok (MkCompiled comp svc ign (list_to_set (FrameworkDirs r)) (list_to_set (ManifestFiles r))
        (dom (Components r)) (dom (Services r))).

(** The name that the first pattern that has one captures: [m[1]] of the first match. *)
Fixpoint captured (patterns : list Regexp) (path : string) : option string :=
  match patterns with
  | [] => None
  | re :: patterns =>
      match FindStringSubmatch re path with
      | Some (_ :: name :: _) => Some name
      | _ => captured patterns path
      end
  end.

Definition Classify (p : CompiledPatterns) (path : string) : option Classification :=
  match captured (cComponents p) path with
  | Some name =>
      if bool_decide (name ∈ frameworkDirs p) then None
      else Some (MkClassification name (bool_decide (name ∈ serviceNames p) && negb (bool_decide (name ∈ componentNames p))))
  | None =>
      match captured (cServices p) path with
      | Some name =>
          if bool_decide (name ∈ frameworkDirs p) then None
          else Some (MkClassification name (negb (bool_decide (name ∈ componentNames p)) || bool_decide (name ∈ serviceNames p)))
      | None => None
      end
  end.

Definition ClassifyChangedFile (p : CompiledPatterns) (path : string) : FileClassification :=
  if existsb (λ re, MatchString re path) (cIgnored p) then MkFileClassification KindIgnored ""
  else if bool_decide (path ∈ manifestFiles p) then MkFileClassification KindManifest ""
  else
    match Classify p path with
    | Some c => MkFileClassification (if IsService c then KindService else KindComponent) (Name c)
    | None => MkFileClassification KindShared ""
    end.

(** ** Theorems *)

(** The entry maps decide the kind of a name: a file is never attributed to a shared
    directory, a name that is registered under one kind only gets that kind, whichever
    pattern captured it, and one that is registered under neither or both keeps the kind of
    the pattern. *)
Theorem Classify_registered_kind p path c :
  Classify p path = Some c →
  Name c ∉ frameworkDirs p ∧
  (Name c ∈ serviceNames p ∧ Name c ∉ componentNames p → IsService c = true) ∧
  (Name c ∈ componentNames p ∧ Name c ∉ serviceNames p → IsService c = false) ∧
  ((Name c ∈ componentNames p ↔ Name c ∈ serviceNames p) →
     (IsService c = false ↔ captured (cComponents p) path = Some (Name c))).
Proof.
  unfold Classify. destruct (captured (cComponents p) path) as [n|] eqn:Hc; [|destruct (captured (cServices p) path) as [n|]; [|done]].
  all: case_bool_decide; [done|]; intros [= <-]; simpl; (split; [done|]).
  all: destruct (decide (n ∈ serviceNames p)), (decide (n ∈ componentNames p)); rewrite ?bool_decide_true, ?bool_decide_false by done; naive_solver.
Qed.

(** Every path gets one kind: ignored paths never select anything, manifests come before
    patterns, and what nothing matches is shared and runs everything. *)
Theorem ClassifyChangedFile_kinds p path :
  let k := Kind (ClassifyChangedFile p path) in
  let ignored := ∃ re, re ∈ cIgnored p ∧ MatchString re path = true in
  (k = KindIgnored ↔ ignored) ∧
  (k = KindManifest ↔ ¬ ignored ∧ path ∈ manifestFiles p) ∧
  (k = KindShared ↔ ¬ ignored ∧ path ∉ manifestFiles p ∧ Classify p path = None) ∧
  (k = KindComponent ∨ k = KindService → Classify p path =
     Some (MkClassification (FileName (ClassifyChangedFile p path)) (match k with KindService => true | _ => false end))).
Proof.
  intros k ignored. subst k. unfold ClassifyChangedFile.
  assert (existsb (λ re, MatchString re path) (cIgnored p) = true ↔ ignored) as Hig.
  { rewrite existsb_exists. unfold ignored. by setoid_rewrite list_elem_of_In. }
  destruct (existsb _ _) eqn:He.
  - simpl. naive_solver.
  - assert (¬ ignored) as Hni by (intros ?%Hig; done). case_bool_decide; simpl; [naive_solver|].
    destruct (Classify p path) as [[n []]|]; simpl; naive_solver.
Qed.

(** Patterns are compiled all or not at all, in order. *)
Lemma compileAll_compiles patterns res :
  compileAll patterns = Ok res ↔ Forall2 (λ p re, Compile p = Ok re) patterns res.
Proof.
  revert res. induction patterns as [|p patterns IH]; intros res; simpl.
  - split; [intros [= <-]; constructor|by inversion 1].
  - destruct (Compile p) as [re|] eqn:Hp; [|split; [done|inversion 1; congruence]].
    destruct (compileAll patterns) as [rest|]; simpl.
    + split; [intros [= <-]; constructor; [done|by apply IH]|].
      inversion 1; subst. f_equal. assert (rest = l') as -> by (by (assert (Ok rest = Ok l') as [=] by by apply IH)). congruence.
    + split; [done|]. inversion 1 as [|? ? ? l' ? Hrest]; subst. apply IH in Hrest. done.
Qed.

End rules.

(** Every entry, alias and ignored name is known. *)
Lemma elem_of_KnownNames r n :
  n ∈ KnownNames r ↔
  (∃ m e, (Components r !! m = Some e ∨ Services r !! m = Some e) ∧ (n = m ∨ n ∈ Aliases e)) ∨ n ∈ IgnoredNames r.
Proof.
  assert (∀ entries, n ∈ entry_names entries ↔ ∃ m e, entries !! m = Some e ∧ (n = m ∨ n ∈ Aliases e)) as Hnames.
  { intros entries. unfold entry_names. rewrite elem_of_list_to_set, elem_of_concat. split.
    - intros (l & Hn & ([m e] & -> & Hin%elem_of_map_to_list)%list_elem_of_fmap). exists m, e.
      split; [done|]. by apply elem_of_cons in Hn.
    - intros (m & e & Hin & Hn). eexists. split; [|apply list_elem_of_fmap; exists (m, e); split; [done|by apply elem_of_map_to_list]].
      simpl. by apply elem_of_cons. }
  unfold KnownNames. rewrite !elem_of_union, !Hnames, elem_of_list_to_set. naive_solver.
Qed.
