(* ===== verification/Startup.v ===== *)
(** * Startup: configuration of the operator at its start

    - Module [Flags]: suppression flags and their environment variables
      ([pkg/utils/flags/suppression.go], [flags.go]).
    - Module [ClusterConfig]: what the operator finds out about its cluster
      ([pkg/cluster/cluster_config.go]).
    - Module [Main]: registration of components and services, validation of the settings and
      the namespaces that are cached ([cmd/main.go]).
    - Module [Webhooks]: which webhooks are registered ([internal/webhook/webhook.go]).

    viper is what it answers for a key, the environment a variable. Semantic versions, YAML
    and the platform's detection are not under [src/]: a parser and events. *)

From S2P Require Import Prelude Effects Conditions Dag Provision Gates Unstructured Namespaces ModuleBase ModuleRegistry ModuleActions SharedPlatform PlatformConfig Conversion DscController Admission Kueue KueueController Gateway GatewayStatus GatewayAuth HandlerInterface ModuleHandlers BuiltinModules BuiltinModulesTheorems Services.

(** ** Flags *)

Module Flags.

Definition component_flag (name : string) : string := "disable-" +:+ name +:+ "-component".
Definition service_flag (name : string) : string := "disable-" +:+ name +:+ "-service".
Definition module_flag (name : string) : string := "disable-" +:+ name +:+ "-module".

Section flags.
(** [viper.GetBool] and [viper.GetString]. *)
Variables (GetBool : string → bool) (GetString : string → string).

Definition IsDSCEnabled : bool := negb (GetBool "disable-dsc-resource").
Definition IsDSCIEnabled : bool := negb (GetBool "disable-dsci-resource").
Definition IsComponentEnabled (name : string) : bool := negb (GetBool (component_flag name)).
Definition IsServiceEnabled (name : string) : bool := negb (GetBool (service_flag name)).
Definition IsModuleEnabled (name : string) : bool := negb (GetBool (module_flag name)).
Definition IsDAGOrderingDisabled : bool := GetBool "disable-dag-ordering".

Definition GetRHAIApplicationsNamespace : string := TrimSpace (GetString "rhai-applications-namespace").
Definition GetRHAIVersion : string := TrimSpace (GetString "rhai-version").

(** [OperatorSettings.IsDSCICreationDisabled]. *)
Definition IsDSCICreationDisabled (DisableDSCConfig : string) : bool :=
  nonempty_str DisableDSCConfig && negb (String.eqb DisableDSCConfig "false").

End flags.

(** The arguments of [zapFlagSet.Parse]. *)
Definition zapFlagsValues (zapDevel : bool) (zapEncoder zapLog zapStacktrace zapTimeEncoding : string) : list string :=
  (if zapDevel then ["--zap-devel=true"] else []) ++
  (if nonempty_str zapEncoder then ["--zap-encoder=" +:+ zapEncoder] else []) ++
  (if nonempty_str zapLog then ["--zap-log-level=" +:+ zapLog] else []) ++
  (if nonempty_str zapStacktrace then ["--zap-stacktrace-level=" +:+ zapStacktrace] else []) ++
  (if nonempty_str zapTimeEncoding then ["--zap-time-encoding=" +:+ zapTimeEncoding] else []).

End Flags.

(** ** The cluster's configuration *)

Module ClusterConfig.

(** Semantic versions and the install configuration's YAML, of which only [fips] is read. *)
Class ClusterLib := {
  Version : Type;
  zero_version : Version;
  ParseTolerant : string → result Version;
  Unmarshal_fips : string → result bool;
}.

Section config.
Context `{ClusterLib}.

Record Release := MkRelease { rel_Name : string; rel_Version : Version }.
Record ClusterInfo := MkClusterInfo { ci_Type : string; ci_Version : Version; ci_FipsEnabled : bool }.

Record clusterConfig := MkClusterConfig {
  cc_Namespace : string;
  cc_ApplicationNamespace : string;
  cc_Release : Release;
  cc_ClusterInfo : ClusterInfo;
}.

(** [ReadNamespaceFile] reads the service account's namespace; [GetClusterVersion] answers the
    versions of the history, [GetInstallConfig] the entry [install-config]; [GetCSVVersion] is
    the version of the operator's CSV, whose lookup is modelled in [Uninstall]. *)
Inductive ClusterConfigE : Type → Type :=
| ReadNamespaceFile : ClusterConfigE (string * option goerr)
| DetectPlatform (platformType operatorNs : string) : ClusterConfigE (result string)
| GetCSVVersion (namespace : string) : ClusterConfigE (result Version)
| GetClusterVersion : ClusterConfigE (result (list string))
| GetInstallConfig : ClusterConfigE (result string)
| ListApplicationNamespaces : ClusterConfigE (result (list string)).

Record OperatorSettings := MkSettings { OperatorNamespace : string; PlatformType : string }.

(** [CI] and the trimmed version setting. *)
Variables (CI rhaiVersion : string).

Definition getOperatorNamespace (configured : string) : prog ClusterConfigE (string * option goerr) :=
  if nonempty_str configured then mret (configured, None)
  else data ← trigger ReadNamespaceFile; mret (TrimSpace data.1, data.2).

Definition GetOperatorNamespace (cfg : clusterConfig) : result string :=
  if String.eqb (cc_Namespace cfg) "" then Err (errorf "unable to find operator namespace") else Ok (cc_Namespace cfg).

Definition getPlatform (cfg : clusterConfig) (platformType : string) : prog ClusterConfigE (string * option goerr) :=
  let operatorNs := match GetOperatorNamespace cfg with Ok ns => ns | Err _ => "redhat-ods-operator" end in
  platform ← trigger (DetectPlatform platformType operatorNs);
  mret (match platform with Err err => (OpenDataHub, Some err) | Ok platform => (platform, None) end).

Definition initRelease (name : string) : Release := MkRelease name zero_version.

Definition getRelease (cfg : clusterConfig) (platformType : string) : prog ClusterConfigE (Release * option goerr) :=
  found ← getPlatform cfg platformType;
  match found with
  | (_, Some err) =>
      mret (if err_is TagNoMatch err then (initRelease OpenDataHub, None) else (initRelease "", Some err))
  | (platform, None) =>
      if nonempty_str rhaiVersion then
        mret (match ParseTolerant rhaiVersion with
              | Err err => (initRelease platform, Some (wrapf ("invalid RHAI_VERSION " +:+ quote rhaiVersion) err))
              | Ok v => (MkRelease platform v, None)
              end)
      else if String.eqb CI "true" then mret (initRelease platform, None)
      else
        match GetOperatorNamespace cfg with
        | Err err => mret (initRelease platform, Some err)
        | Ok operatorNamespace =>
            csv ← trigger (GetCSVVersion operatorNamespace);
            mret (match csv with
                  | Err err =>
                      if err_is TagNotFound err || err_is TagNoMatch err then (initRelease platform, None)
                      else (initRelease platform, Some err)
                  | Ok v => (MkRelease platform v, None)
                  end)
        end
  end.

Definition getOCPVersion : prog ClusterConfigE (result Version) :=
  clusterVersion ← trigger GetClusterVersion;
  mret (match clusterVersion with
        | Err err => Err (wrapf "unable to get OCP version" err)
        | Ok [] => Err (errorf "cluster version history is empty")
        | Ok (v :: _) => wrap_result "unable to parse OCP version" (ParseTolerant v)
        end).

Definition IsFipsEnabled : prog ClusterConfigE (result bool) :=
  cm ← trigger GetInstallConfig;
  mret (match cm with
        | Err err => Err err
        | Ok installConfigStr =>
            if String.eqb installConfigStr "" then Ok false
            else match Unmarshal_fips installConfigStr with
                 | Err _ => Ok (contains (to_lower installConfigStr) "fips: true")
                 | Ok fips => Ok fips
                 end
        end).

Definition ClusterTypeOpenShift : string := "OpenShift".
Definition ClusterTypeKubernetes : string := "Kubernetes".

Definition getClusterInfo (cfg : clusterConfig) : prog ClusterConfigE (ClusterInfo * option goerr) :=
  if String.eqb (rel_Name (cc_Release cfg)) XKS
  then mret (MkClusterInfo ClusterTypeKubernetes zero_version false, None)
  else
    ocpVersion ← getOCPVersion;
    match ocpVersion with
    | Err err =>
        mret (if err_is TagNoMatch err then (MkClusterInfo ClusterTypeKubernetes zero_version false, None)
              else (MkClusterInfo ClusterTypeOpenShift zero_version false, Some err))
    | Ok v =>
        fips ← IsFipsEnabled;
        mret (MkClusterInfo ClusterTypeOpenShift v (match fips with Ok b => b | Err _ => false end), None)
    end.

Definition defaultRHOAIApplicationNamespace : string := "redhat-ods-applications".
Definition defaultODHApplicationNamespace : string := "opendatahub".

Definition platform_default (platform : string) : string :=
  if String.eqb platform SelfManagedRhoai then defaultRHOAIApplicationNamespace else defaultODHApplicationNamespace.

Definition set_ApplicationNamespace (cfg : clusterConfig) (ns : string) : clusterConfig :=
  MkClusterConfig (cc_Namespace cfg) ns (cc_Release cfg) (cc_ClusterInfo cfg).

Definition setApplicationNamespace (cfg : clusterConfig) : prog ClusterConfigE (clusterConfig * option goerr) :=
  let platform := rel_Name (cc_Release cfg) in
  if String.eqb platform ManagedRhoai
  then mret (set_ApplicationNamespace cfg defaultRHOAIApplicationNamespace, None)
  else
    listed ← trigger ListApplicationNamespaces;
    mret (match listed with
          | Err err =>
              if err_is TagNoMatch err || err_is TagForbidden err
              then (set_ApplicationNamespace cfg (platform_default platform), None)
              else (cfg, Some err)
          | Ok [] => (set_ApplicationNamespace cfg (platform_default platform), None)
          | Ok [ns] => (set_ApplicationNamespace cfg ns, None)
          | Ok _ =>
              (cfg, Some (errorf "only one namespace with label opendatahub.io/application-namespace: true is supported"))
          end).

(** The zero value. *)
Definition no_config : clusterConfig :=
  MkClusterConfig "" "" (initRelease "") (MkClusterInfo "" zero_version false).

Definition Init (cfg : OperatorSettings) : prog ClusterConfigE (clusterConfig * option goerr) :=
  ns ← getOperatorNamespace (OperatorNamespace cfg);
  let c := MkClusterConfig ns.1 (cc_ApplicationNamespace no_config) (cc_Release no_config) (cc_ClusterInfo no_config) in
  release ← getRelease c (PlatformType cfg);
  let c := MkClusterConfig (cc_Namespace c) (cc_ApplicationNamespace c) release.1 (cc_ClusterInfo c) in
  match release.2 with
  | Some err => mret (c, Some err)
  | None =>
      info ← getClusterInfo c;
      let c := MkClusterConfig (cc_Namespace c) (cc_ApplicationNamespace c) (cc_Release c) info.1 in
      match info.2 with
      | Some err => mret (c, Some err)
      | None => setApplicationNamespace c
      end
  end.

Definition SetRHAIApplicationNamespace (cfg : clusterConfig) (ns : string) : clusterConfig :=
  if nonempty_str ns then set_ApplicationNamespace cfg ns else cfg.

Definition GetApplicationNamespace (cfg : clusterConfig) : string :=
  if nonempty_str (cc_ApplicationNamespace cfg) then cc_ApplicationNamespace cfg
  else if String.eqb (rel_Name (cc_Release cfg)) SelfManagedRhoai || String.eqb (rel_Name (cc_Release cfg)) ManagedRhoai
    then "redhat-ods-applications"
    else "opendatahub".

End config.
Arguments Release {_}.
Arguments ClusterInfo {_}.
Arguments clusterConfig {_}.
Arguments ClusterConfigE {_} _.
End ClusterConfig.

(** ** The main program *)

Module Main.
Import Flags ClusterConfig.

(** *** Registration *)

(** [kueue.NewHandler()], the only component that is not a module. *)
Definition kueue_component : ComponentHandler KueueSpec :=
  MkComponent "kueue" (component_gvk "Kueue") KueueController.IsEnabled.

Definition existingComponents : list (string * ComponentHandler KueueSpec) := [("kueue", kueue_component)].

Definition componentRunlevels : gmap string Runlevel := {["kueue" := RL 31]}.

(** A service is represented by what its [GetName] returns. *)
Definition existingServices : list (string * string) :=
  [("auth", "auth"); ("certconfigmapgenerator", "certconfigmapgenerator"); ("gateway", "gateway");
   ("setupcontroller", "setupcontroller")].

Definition register_component (IsComponentEnabled : string → bool)
    (regs : @ComponentRegistry.t KueueSpec * UnifiedRegistry.t) (component : string * ComponentHandler KueueSpec)
    : @ComponentRegistry.t KueueSpec * UnifiedRegistry.t :=
  let '(name, handler) := component in
  let rl := default (RL 99) (componentRunlevels !! name) in
  let '(cr, u) := ComponentRegistry.Add regs.1 regs.2 handler [ComponentRegistry.WithRunlevel rl] in
  let u := UnifiedRegistry.Add u name KindComponent rl in
  if negb (IsComponentEnabled name) then
    let '(cr, u) := ComponentRegistry.Disable cr u name in (cr, UnifiedRegistry.Disable u name)
  else (cr, u).

Definition registerComponents (IsComponentEnabled : string → bool)
    (regs : @ComponentRegistry.t KueueSpec * UnifiedRegistry.t) : @ComponentRegistry.t KueueSpec * UnifiedRegistry.t :=
  foldl (register_component IsComponentEnabled) regs existingComponents.

(** The registries when all have registered: components, services, modules. *)
Definition register_all `{Converter, URIParser} (kubernetes : bool) (GetBool : string → bool)
    : @ComponentRegistry.t KueueSpec * @ServiceRegistry.t string * ModuleRegistry.t Ctx * UnifiedRegistry.t :=
  let '(cr, u) := registerComponents (IsComponentEnabled GetBool) (ComponentRegistry.empty, UnifiedRegistry.NewRegistry) in
  let sr := ServiceRegistry.registerServices (λ s : string, s) (IsServiceEnabled GetBool) existingServices (ServiceRegistry.MkRegistry ∅) in
  let '(mr, u) := registerModules kubernetes (IsModuleEnabled GetBool) (ModuleRegistry.empty, u) in
  (cr, sr, mr, u).

(** *** Settings *)

Section settings.
Context `{ClusterLib}.

(** [DefaultMonitoringNamespaceRHOAI] and [DefaultMonitoringNamespaceODH]. *)
Definition default_monitoring_namespace (platform : string) : string :=
  if String.eqb platform ManagedRhoai || String.eqb platform SelfManagedRhoai
  then "redhat-ods-monitoring" else "opendatahub".

(** The two checks; the text is what is logged before the exit. *)
Definition validate_settings (isDSCIEnabled : bool) (rhaiNS rhaiVersion platform CI : string) : option goerr :=
  if negb isDSCIEnabled && String.eqb rhaiNS "" then
    Some (errorf "RHAI_APPLICATIONS_NAMESPACE must be set when DSCI is disabled")
  else if isDSCIEnabled && nonempty_str rhaiNS then
    Some (errorf ("RHAI_APPLICATIONS_NAMESPACE (" +:+ quote rhaiNS +:+
      ") must not be set when DSCI is enabled; use DSCI spec.applicationsNamespace instead"))
  else if String.eqb platform XKS && String.eqb rhaiVersion "" then
    Some (errorf "RHAI_VERSION must be set when platform is XKS")
  else if negb (String.eqb platform XKS) && nonempty_str rhaiVersion && negb (String.eqb CI "true") then
    Some (errorf ("RHAI_VERSION (" +:+ quote rhaiVersion +:+
      ") must not be set when platform is not XKS; version is detected from CSV"))
  else None.

(** The configuration of the cluster and the monitoring namespace, or why the operator exits. *)
Definition configure (GetBool : string → bool) (GetString : string → string) (CI : string) (settings : OperatorSettings)
    (monitoringNamespace : string) : prog ClusterConfigE (result (clusterConfig * string)) :=
  let rhaiVersion := GetRHAIVersion GetString in
  init ← Init CI rhaiVersion settings;
  match init with
  | (_, Some err) => mret (Err err)
  | (cfg, None) =>
      let platform := rel_Name (cc_Release cfg) in
      let monitoringNamespace :=
        if String.eqb monitoringNamespace "" then default_monitoring_namespace platform else monitoringNamespace in
      let rhaiNS := GetRHAIApplicationsNamespace GetString in
      let cfg := SetRHAIApplicationNamespace cfg rhaiNS in
      mret (match validate_settings (IsDSCIEnabled GetBool) rhaiNS rhaiVersion platform CI with
            | Some err => Err err
            | None => Ok (cfg, monitoringNamespace)
            end)
  end.

(** *** Cached namespaces *)

Definition getCommonCache (cfg : clusterConfig) (platform : string) : result (gset string) :=
  operatorNs ← GetOperatorNamespace cfg;
  Ok ({[operatorNs; "redhat-ods-monitoring"; GetApplicationNamespace cfg]} ∪
      (if String.eqb platform ManagedRhoai then {["openshift-console"]} else ∅)).

Definition gateway_namespace (cfg : clusterConfig) : string :=
  GetGatewayNamespace (String.eqb (ci_Type (cc_ClusterInfo cfg)) ClusterTypeKubernetes).

Definition createSecretCacheConfig (cfg : clusterConfig) (platform : string) : result (gset string) :=
  namespaceConfigs ← getCommonCache cfg platform;
  Ok ({[gateway_namespace cfg]} ∪ namespaceConfigs).

Definition createODHGeneralCacheConfig (cfg : clusterConfig) (platform : string) : result (gset string) :=
  namespaceConfigs ← getCommonCache cfg platform;
  Ok ({["openshift-operators"; gateway_namespace cfg; "models-as-a-service"; "kuadrant-system"]} ∪ namespaceConfigs).

End settings.
End Main.

(** ** Webhooks *)

Module Webhooks.

Record webhookEntry := MkEntry { wh_name : string; wh_disabled : bool }.

Inductive WebhookE : Type → Type :=
| Register (name : string) : WebhookE (option goerr).

Section webhooks.
Variables (isDSCEnabled isDSCIEnabled : bool) (serviceEnabled moduleEnabled : string → bool).

Definition webhook_entries : list webhookEntry :=
  [MkEntry "dsc-v2" (negb isDSCEnabled);
   MkEntry "dsc-v3" (negb isDSCEnabled);
   MkEntry "dsci-v1" (negb isDSCIEnabled);
   MkEntry "dsci-v2" (negb isDSCIEnabled);
   MkEntry "hardwareprofile" false;
   MkEntry "monitoring" (negb (serviceEnabled "monitoring") && negb (moduleEnabled "monitoring"));
   MkEntry "platform-v1alpha1" false;
   MkEntry "gatewayconfig" (negb (serviceEnabled "gateway"));
   MkEntry "dashboard" (negb (moduleEnabled "dashboard"))].

Fixpoint register_entries (entries : list webhookEntry) : prog WebhookE (option goerr) :=
  match entries with
  | [] => mret None
  | e :: entries =>
      if wh_disabled e then register_entries entries
      else
        err ← trigger (Register (wh_name e));
        match err with
        | Some err => mret (Some err)
        | None => register_entries entries
        end
  end.

Definition RegisterAllWebhooks : prog WebhookE (option goerr) := register_entries webhook_entries.

End webhooks.
End Webhooks.
