(* ===== verification/StartupTheorems.v ===== *)
(** * StartupTheorems: what a start of the operator guarantees

    - the registries and the webhooks are those that the suppression flags leave;
    - the settings that are accepted fit together;
    - the namespaces that are cached cover what the auth service creates;
    - a setting with spaces around it is read in two ways. *)

From S2P Require Import Prelude Effects Conditions Dag Provision Gates Unstructured Namespaces ModuleBase ModuleRegistry ModuleActions SharedPlatform PlatformConfig Conversion DscController Admission Kueue KueueController Gateway GatewayStatus GatewayAuth HandlerInterface ModuleHandlers BuiltinModules BuiltinModulesTheorems Services Startup.

(** ** Registration *)

Section registries.
Import Flags Main.
Context `{Converter, URIParser} (kubernetes : bool) (GetBool : string → bool).

Lemma registered_components :
  let cru := registerComponents (IsComponentEnabled GetBool) (ComponentRegistry.empty, UnifiedRegistry.NewRegistry) in
  ComponentRegistry.entries cru.1 =
    {["kueue" := ComponentRegistry.MkEntry kueue_component (IsComponentEnabled GetBool "kueue") (RL 31)]} ∧
  UnifiedRegistry.nodes cru.2 = {["kueue" := MkNode "kueue" KindComponent (RL 31) (IsComponentEnabled GetBool "kueue")]}.
Proof.
  unfold registerComponents, register_component, existingComponents. cbn -[IsComponentEnabled].
  by destruct (IsComponentEnabled GetBool "kueue").
Qed.

Lemma found_name r n i : list_find (λ r, name_of r = n) (registrations kubernetes) = Some (i, r) → n ∈ Names kubernetes.
Proof. intros (Hr%list_elem_of_lookup_2 & <- & _)%list_find_Some. apply list_elem_of_fmap. by exists r. Qed.

Lemma not_found_name n : list_find (λ r, name_of r = n) (registrations kubernetes) = None → n ∉ Names kubernetes.
Proof. intros Hf%list_find_None (r & -> & Hr)%list_elem_of_fmap. rewrite Forall_forall in Hf. by apply (Hf r). Qed.

Lemma registered_enabled n :
  let '(_, sr, mr, _) := register_all kubernetes GetBool in
  ServiceRegistry.IsEnabled sr n = bool_decide (n ∈ existingServices.*1) && IsServiceEnabled GetBool n ∧
  ModuleRegistry.IsEnabled mr n = bool_decide (n ∈ Names kubernetes) && IsModuleEnabled GetBool n.
Proof.
  unfold register_all. destruct (registerComponents _ _) as [cr u].
  pose proof (started_agree kubernetes (IsModuleEnabled GetBool) u n) as Hagree. unfold started, started_nodes in Hagree.
  destruct (registerModules _ _ _) as [mr u']. cbn [fst snd] in Hagree. split.
  - rewrite registered_service by (by apply Forall_forall; repeat constructor).
    case_decide; case_bool_decide; done.
  - unfold ModuleRegistry.IsEnabled. destruct (list_find _ _) as [[i r]|] eqn:Hf; destruct Hagree as [-> _].
    + apply found_name in Hf as Hin. by rewrite bool_decide_true by done.
    + apply not_found_name in Hf. by rewrite bool_decide_false by done.
Qed.

(** A flag switches one thing everywhere. After the registration at start, a service, a module
    and a component is enabled in its registry exactly when it is built in and its own
    suppression flag is off, and the unified registry has exactly the components and modules,
    enabled alike, under their kinds. *)
Theorem registries_follow_flags n :
  let '(cr, sr, mr, u) := register_all kubernetes GetBool in
  ServiceRegistry.IsEnabled sr n = bool_decide (n ∈ existingServices.*1) && IsServiceEnabled GetBool n ∧
  ModuleRegistry.IsEnabled mr n = bool_decide (n ∈ Names kubernetes) && IsModuleEnabled GetBool n ∧
  ComponentRegistry.IsEnabled cr n = bool_decide (n = "kueue") && IsComponentEnabled GetBool n ∧
  (∀ node, UnifiedRegistry.nodes u !! n = Some node → un_name node = n ∧ match un_kind node with
     | KindComponent => n = "kueue" ∧ un_enabled node = IsComponentEnabled GetBool n
     | KindModule => n ∈ Names kubernetes ∧ un_enabled node = IsModuleEnabled GetBool n
     end) ∧
  (n = "kueue" ∨ n ∈ Names kubernetes ↔ is_Some (UnifiedRegistry.nodes u !! n)).
Proof.
  pose proof (registered_enabled n) as Henabled. revert Henabled.
  unfold register_all. destruct registered_components as [Hcr Hu].
  destruct (registerComponents _ _) as [cr u] eqn:Hc. simpl in Hcr, Hu.
  pose proof (started_agree kubernetes (IsModuleEnabled GetBool) u n) as Hagree. unfold started, started_nodes in Hagree.
  destruct (registerModules _ _ _) as [mr u'] eqn:Hm. cbn [fst snd] in Hagree. intros [Hs Hmod].
  split; [exact Hs|]. split; [exact Hmod|]. split.
  - unfold ComponentRegistry.IsEnabled. rewrite Hcr. destruct (decide (n = "kueue")) as [->|Hn].
    + by rewrite lookup_singleton_eq.
    + by rewrite lookup_singleton_ne, bool_decide_false by done.
  - destruct (list_find _ _) as [[i r]|] eqn:Hf; destruct Hagree as [_ Hnode]; rewrite Hnode.
    + apply found_name in Hf as Hin. apply list_find_Some in Hf as (_ & Hname & _). split.
      * intros node [= <-]. by split; [|split].
      * by split; [|auto].
    + apply not_found_name in Hf as Hin. rewrite Hu. destruct (decide (n = "kueue")) as [->|Hne].
      * rewrite lookup_singleton_eq. split; [by intros node [= <-]|]. by split; [|auto].
      * rewrite lookup_singleton_ne by done. split; [done|]. split; [tauto|by intros []].
Qed.
End registries.

(** ** Webhooks *)

Section webhooks.
Import Flags Main Webhooks.
Context `{Converter, URIParser} (kubernetes : bool) (GetBool : string → bool).

Definition registered_webhook (c : call WebhookE) : string :=
  match c with @Call _ _ e _ => match e with Register name => name end end.

Lemma wp_register_entries entries tr :
  wp (register_entries entries) tr (λ tr' err, ∃ names, (registered_webhook <$> tr') = (registered_webhook <$> tr) ++ names ∧
    let wanted := wh_name <$> filter (λ e, wh_disabled e = false) entries in
    names `prefix_of` wanted ∧ (err = None → names = wanted)).
Proof.
  revert tr. induction entries as [|e entries IH]; intros tr; simpl.
  - exists []. by rewrite app_nil_r.
  - rewrite filter_cons. destruct (wh_disabled e) eqn:He; [rewrite decide_False by done; apply IH|].
    rewrite decide_True by done. intros [err|]; cbn.
    + exists [wh_name e]. rewrite fmap_app. split; [done|]. split; [by exists (wh_name <$> filter (λ e, wh_disabled e = false) entries)|done].
    + eapply wp_mono; [|apply IH]. intros tr' err (names & Hnames & Hpre & Hall). exists (wh_name e :: names).
      rewrite Hnames, fmap_app, <-app_assoc. split; [done|]. split; [by apply prefix_cons|].
      intros Hn. by rewrite (Hall Hn).
Qed.

Definition when (b : bool) (names : list string) : list string := if b then names else [].

(** The webhooks that the flags leave. *)
Definition wanted_webhooks : list string :=
  when (IsDSCEnabled GetBool) ["dsc-v2"; "dsc-v3"] ++ when (IsDSCIEnabled GetBool) ["dsci-v1"; "dsci-v2"] ++
  ["hardwareprofile"] ++ when (IsModuleEnabled GetBool "monitoring") ["monitoring"] ++ ["platform-v1alpha1"] ++
  when (IsServiceEnabled GetBool "gateway") ["gatewayconfig"] ++ when (IsModuleEnabled GetBool "dashboard") ["dashboard"].

(** C31: with the registries of the start, the webhooks registered are those that the flags leave,
    in order and each once; the first failure ends the registration, and without one all are
    registered: no suppressed controller leaves a webhook behind that would refuse its
    objects. *)
Theorem webhooks_follow_flags :
  let '(_, sr, mr, _) := register_all kubernetes GetBool in
  wp (RegisterAllWebhooks (IsDSCEnabled GetBool) (IsDSCIEnabled GetBool) (ServiceRegistry.IsEnabled sr)
        (ModuleRegistry.IsEnabled mr)) [] (λ tr err,
    (registered_webhook <$> tr) `prefix_of` wanted_webhooks ∧
    (err = None → registered_webhook <$> tr = wanted_webhooks)).
Proof.
  pose proof (registered_enabled kubernetes GetBool) as Hflags.
  destruct (register_all kubernetes GetBool) as [[[cr sr] mr] u].
  assert (wh_name <$> filter (λ e, wh_disabled e = false) (webhook_entries (IsDSCEnabled GetBool) (IsDSCIEnabled GetBool)
    (ServiceRegistry.IsEnabled sr) (ModuleRegistry.IsEnabled mr)) = wanted_webhooks) as Hwanted.
  { unfold webhook_entries. rewrite (proj1 (Hflags "monitoring")), (proj2 (Hflags "monitoring")),
      (proj1 (Hflags "gateway")), (proj2 (Hflags "dashboard")). unfold wanted_webhooks.
    assert (bool_decide ("dashboard" ∈ Names kubernetes) = true) as -> by done.
    assert (bool_decide ("monitoring" ∈ Names kubernetes) = true) as -> by done.
    destruct (IsDSCEnabled GetBool), (IsDSCIEnabled GetBool), (IsModuleEnabled GetBool "monitoring"),
      (IsServiceEnabled GetBool "gateway"), (IsModuleEnabled GetBool "dashboard"); done. }
  eapply wp_mono; [|apply wp_register_entries]. intros tr err (names & Hnames & Hpre & Hall). simpl in Hnames.
  rewrite Hwanted in Hpre, Hall. by rewrite Hnames.
Qed.
End webhooks.

(** ** Settings *)

Section settings.
Import Flags ClusterConfig Main.
Context `{ClusterLib} (CI rhaiVersion : string).

(** A version that is set is the release's, unless the platform cannot be detected. *)
Lemma wp_getRelease cfg platformType tr :
  wp (getRelease CI rhaiVersion cfg platformType) tr (λ _ r, r.2 = None → rhaiVersion ≠ "" →
    ParseTolerant rhaiVersion = Ok (rel_Version r.1) ∨ rel_Name r.1 = OpenDataHub).
Proof.
  unfold getRelease, getPlatform. apply wp_bind, wp_bind, wp_call. intros [platform|err]; simpl.
  - unfold nonempty_str. destruct (String.eqb_spec rhaiVersion "") as [Hv|Hv]; simpl.
    + eapply wp_mono; [|apply wp_prefix]. intros tr' r _ _ Hn. done.
    + destruct (ParseTolerant rhaiVersion) eqn:Hp; simpl; [by left|done].
  - destruct (err_is TagNoMatch err); simpl; [by right|done].
Qed.

Lemma wp_getClusterInfo cfg tr :
  wp (getClusterInfo cfg) tr (λ _ r, rel_Name (cc_Release cfg) = XKS →
    r = (MkClusterInfo ClusterTypeKubernetes zero_version false, None)).
Proof.
  unfold getClusterInfo. destruct (String.eqb_spec (rel_Name (cc_Release cfg)) XKS) as [Hx|Hx]; [done|].
  eapply wp_mono; [|apply wp_prefix]. intros tr' r _ Hr. by destruct Hx.
Qed.

Lemma wp_setApplicationNamespace cfg tr :
  wp (setApplicationNamespace cfg) tr (λ _ r, cc_Release r.1 = cc_Release cfg ∧ cc_ClusterInfo r.1 = cc_ClusterInfo cfg).
Proof.
  unfold setApplicationNamespace. destruct (_ =? _)%string; simpl; [done|].
  intros [[|ns [|ns' l]]|err]; simpl; try done. by destruct (_ || _).
Qed.

Lemma wp_Init settings tr :
  wp (Init CI rhaiVersion settings) tr (λ _ r, r.2 = None → rel_Name (cc_Release r.1) = XKS → rhaiVersion ≠ "" →
    ParseTolerant rhaiVersion = Ok (rel_Version (cc_Release r.1)) ∧
    cc_ClusterInfo r.1 = MkClusterInfo ClusterTypeKubernetes zero_version false).
Proof.
  unfold Init. apply wp_bind. eapply wp_mono; [|apply wp_prefix]. intros tr1 ns _.
  apply wp_bind. eapply wp_mono; [|apply wp_getRelease]. intros tr2 [release [err|]] Hrel; simpl; [done|].
  apply wp_bind. eapply wp_mono; [|apply wp_getClusterInfo]. intros tr3 [info [err|]] Hinfo; simpl in *; [done|].
  eapply wp_mono; [|apply wp_setApplicationNamespace]. simpl. intros _ r [-> ->] _ Hx Hv.
  destruct (Hrel eq_refl Hv) as [Hp|Ho]; [|by rewrite Ho in Hx]. split; [done|]. by injection (Hinfo Hx).
Qed.
End settings.

Section accepted.
Import Flags ClusterConfig Main.
Context `{ClusterLib} (CI : string).

Lemma validate_settings_None dsci rhaiNS version platform :
  validate_settings dsci rhaiNS version platform CI = None →
  (dsci = true ↔ rhaiNS = "") ∧
  (if decide (platform = XKS) then version ≠ "" else version = "" ∨ CI = "true").
Proof.
  unfold validate_settings, nonempty_str.
  destruct dsci, (String.eqb_spec rhaiNS ""), (String.eqb_spec platform XKS), (String.eqb_spec version ""),
    (String.eqb_spec CI "true"); simpl; intros [=]; case_decide; naive_solver.
Qed.

Lemma given_namespace cfg ns : ns ≠ "" → GetApplicationNamespace (SetRHAIApplicationNamespace cfg ns) = ns.
Proof.
  intros Hns. unfold SetRHAIApplicationNamespace, GetApplicationNamespace, nonempty_str.
  destruct (String.eqb_spec ns ""); [done|]. simpl. by destruct (String.eqb_spec ns "").
Qed.

Lemma some_namespace cfg : GetApplicationNamespace cfg ≠ "".
Proof.
  unfold GetApplicationNamespace, nonempty_str. destruct (String.eqb_spec (cc_ApplicationNamespace cfg) ""); [|done].
  simpl. by destruct (_ || _).
Qed.

Lemma cached_namespaces cfg platform :
  match createODHGeneralCacheConfig cfg platform with
  | Ok cached =>
      {[cc_Namespace cfg; GetApplicationNamespace cfg; gateway_namespace cfg; default_monitoring_namespace ManagedRhoai]} ⊆ cached
  | Err _ => cc_Namespace cfg = ""
  end.
Proof.
  unfold createODHGeneralCacheConfig, getCommonCache, GetOperatorNamespace.
  destruct (String.eqb_spec (cc_Namespace cfg) "") as [Hns|Hns]; simpl; [done|].
  change (default_monitoring_namespace ManagedRhoai) with "redhat-ods-monitoring". set_solver.
Qed.

(** C30: the operator starts only with settings that fit together: the application namespace is
    given exactly when no DSCInitialization says it, and then it is the one the start works
    with (as the flags read it: trimmed, see [configured_namespace_untrimmed]); a version is
    given where it cannot be read off a CSV, and is the release's there; elsewhere it is given
    only in a CI run. Neither this namespace nor that of monitoring is empty; the latter is the
    setting or the platform's default. Where the operator knows its own namespace, the cache
    holds this, the application namespace, the gateway's and the default monitoring namespace
    of the RHOAI platforms; of no other monitoring namespace is that said. *)
Theorem start_accepted GetBool GetString settings monitoringNamespace :
  let rhaiNS := GetRHAIApplicationsNamespace GetString in
  let rhaiVersion := GetRHAIVersion GetString in
  wp (configure GetBool GetString CI settings monitoringNamespace) [] (λ _ res,
    match res with
    | Err _ => True
    | Ok (cfg, monitoring) =>
        (IsDSCIEnabled GetBool = true ↔ rhaiNS = "") ∧
        (rhaiNS ≠ "" → GetApplicationNamespace cfg = rhaiNS) ∧
        GetApplicationNamespace cfg ≠ "" ∧ monitoring ≠ "" ∧
        monitoring = (if decide (monitoringNamespace = "")
                      then default_monitoring_namespace (rel_Name (cc_Release cfg)) else monitoringNamespace) ∧
        (if decide (rel_Name (cc_Release cfg) = XKS)
         then ParseTolerant rhaiVersion = Ok (rel_Version (cc_Release cfg)) ∧
              ci_Type (cc_ClusterInfo cfg) = ClusterTypeKubernetes
         else rhaiVersion = "" ∨ CI = "true") ∧
        match createODHGeneralCacheConfig cfg (rel_Name (cc_Release cfg)) with
        | Ok cached =>
            {[cc_Namespace cfg; GetApplicationNamespace cfg; gateway_namespace cfg;
              default_monitoring_namespace ManagedRhoai]} ⊆ cached
        | Err _ => cc_Namespace cfg = ""
        end
    end).
Proof.
  intros rhaiNS version. unfold configure. apply wp_bind. fold version.
  eapply wp_mono; [|apply wp_Init]. intros tr [cfg [err|]] Hinit; [done|]. cbn [fst snd] in Hinit.
  apply wp_ret. fold rhaiNS. destruct (validate_settings _ _ _ _ _) eqn:Hval; [done|].
  apply validate_settings_None in Hval as (Hdsci & Hversion).
  assert (cc_Release (SetRHAIApplicationNamespace cfg rhaiNS) = cc_Release cfg ∧
          cc_ClusterInfo (SetRHAIApplicationNamespace cfg rhaiNS) = cc_ClusterInfo cfg) as [-> ->]
    by (unfold SetRHAIApplicationNamespace; by destruct (nonempty_str _)).
  split; [done|]. split; [apply given_namespace|]. split; [apply some_namespace|]. split; [|split; [|split]].
  - destruct (String.eqb_spec monitoringNamespace ""); [|done]. unfold default_monitoring_namespace. by destruct (_ || _).
  - destruct (decide (monitoringNamespace = "")) as [->|Hm]; [done|]. by rewrite (proj2 (String.eqb_neq _ _) Hm).
  - case_decide as Hx; [|done]. destruct (Hinit eq_refl Hx Hversion) as [-> ->]. done.
  - apply cached_namespaces.
Qed.
End accepted.

(** ** The namespace setting *)

Section untrimmed.
Import Flags ClusterConfig Main.
Context `{ClusterLib} (gvk_String : GroupVersionKind → string) (NotFound_text : string → string → string → string).

(** A cluster without OpenShift's kinds. *)
Definition plain_cluster : ∀ X, ClusterConfigE X → unit → X * unit := λ X e _,
  match e in ClusterConfigE X return X * unit with
  | ReadNamespaceFile => (("operator", None), tt)
  | DetectPlatform _ _ => (Ok OpenDataHub, tt)
  | GetCSVVersion _ => (Ok zero_version, tt)
  | GetClusterVersion => (Err (Goerr "no matches for kind" [TagNoMatch]), tt)
  | GetInstallConfig => (Ok "", tt)
  | ListApplicationNamespaces => (Ok [], tt)
  end.

(** The namespace setting with a space before it, and no DSCInitialization. *)
Definition spaced_setting (key : string) : string := if String.eqb key "rhai-applications-namespace" then " opendatahub" else "".
Definition no_dsci (key : string) : bool := String.eqb key "disable-dsci-resource".

(** A setting with a space before it starts the operator, but is read in two ways: what the
    start works with, the caches above all, is the trimmed namespace, and what the
    controllers deploy to and watch is the text with its space, which names no namespace. *)
Theorem configured_namespace_untrimmed :
  (∃ cfg monitoring tr, run plain_cluster (configure no_dsci spaced_setting "" (MkSettings "" "") "") tt [] =
     (Ok (cfg, monitoring), tt, tr) ∧ GetApplicationNamespace cfg = "opendatahub") ∧
  wp (ApplicationNamespace gvk_String NotFound_text (spaced_setting "rhai-applications-namespace")) []
    (λ tr ns, tr = [] ∧ ns = Ok " opendatahub").
Proof. split; [|done]. eexists _, _, _. by split. Qed.
End untrimmed.
