(* ===== verification/CloudManager.v ===== *)
(** * The cloud manager: dependency operators of a managed Kubernetes cluster

    [internal/controller/cloudmanager/common] (charts, hooks), [pkg/controller/cloudmanager]
    (reconcile action, cleanup of excluded charts, garbage collection predicate, monitoring)
    and the finalizer of [pkg/controller/actions/cleanup].

    A dependency's chart is in one of three states: managed (rendered and deployed), cleaning
    (still deployed, without the operator's own CR, so that the operator can process the
    deletion of that CR) and excluded (its resources are deleted, RBAC last). Which instances
    wait for their workloads before they delete RBAC is a set of UIDs shared by the reconciles
    ([deferredAccessControlCleanup]); it is passed explicitly. *)

From S2P Require Import Prelude Effects Conditions Unstructured Monitor ModuleBase SharedPlatform.

(** ** Data *)

Record OwnerReference := MkOwnerRef { or_UID : string; or_APIVersion : string; or_Kind : string }.

(** A live object as the cleanup code reads it. *)
Record Live := MkLive {
  lv_gvk : GroupVersionKind;
  lv_namespace : string;
  lv_name : string;
  lv_owners : list OwnerReference;
  lv_deleting : bool;
}.

(** [types.OperatorCR]. *)
Record OperatorCR := MkOperatorCR { ocr_GVK : GroupVersionKind; ocr_Name : string; ocr_Namespace : string }.

#[export] Instance OperatorCR_eq_dec : EqDecision OperatorCR.
Proof. solve_decision. Defined.

Inductive Hook :=
| SkipCRDIfPresent (crdName : string)
| AnnotateIstioWebhooksHook.

(** [types.HelmChartInfo]; a hook may be nil. *)
Record Chart := MkChart {
  ch_Chart : string;
  ReleaseName : string;
  ch_Values : list (string * string);
  PreApply : list (option Hook);
  PostApply : list (option Hook);
}.

#[export] Instance Hook_eq_dec : EqDecision Hook.
Proof. solve_decision. Defined.
#[export] Instance Chart_eq_dec : EqDecision Chart.
Proof. solve_decision. Defined.

Definition PolicyManaged : string := "Managed".
Definition PolicyUnmanaged : string := "Unmanaged".

(** [ccmcommon.Dependencies]: policies and configured namespaces. *)
Record Dependencies := MkDependencies {
  GatewayAPI_policy : string;
  LWS_policy : string;
  LWS_Namespace : string;
  SailOperator_policy : string;
  SailOperator_Namespace : string;
  RHCL_policy : string;
  RHCL_OperatorNamespace : string;
  RHCL_OperandNamespace : string;
}.

Definition or_default (ns default_ns : string) : string := if nonempty_str ns then ns else default_ns.
Definition LWS_GetNamespace (d : Dependencies) : string := or_default (LWS_Namespace d) "openshift-lws-operator".
Definition SailOperator_GetNamespace (d : Dependencies) : string :=
  or_default (SailOperator_Namespace d) "istio-system".
Definition RHCL_GetOperatorNamespace (d : Dependencies) : string :=
  or_default (RHCL_OperatorNamespace d) "kuadrant-operators".
Definition RHCL_GetOperandNamespace (d : Dependencies) : string :=
  or_default (RHCL_OperandNamespace d) "kuadrant-system".

Definition ConditionDependenciesReady : string := "DependenciesReady".
Definition ConditionGatewayAPIReady : string := "GatewayAPIReady".
Definition ConditionLWSReady : string := "LWSReady".
Definition ConditionRHCLReady : string := "RHCLReady".
Definition ConditionSailOperatorReady : string := "SailOperatorReady".
Definition UnmanagedReason : string := "Unmanaged".

(** The reconciled instance and the request. [cr_Generated] is [rr.Generated]: whether the
    rendering of this reconciliation produced new resources. *)
Record CloudRequest := MkCloudRequest {
  cr_UID : string;
  cr_GVK : GroupVersionKind;
  cr_Generation : Z;
  cr_Generated : bool;
  cr_ChartsBasePath : string;
  cr_Dependencies : option Dependencies;
  cr_TypeName : string;
}.

(** ** Calls *)

(** A webhook configuration: what its annotation map holds. *)
Inductive CloudE : Type → Type :=
| CloudGet (g : GroupVersionKind) (namespace name : string) : CloudE (result Live)
| CloudDelete (lv : Live) : CloudE (option goerr)
| RenderCleanup (charts : list Chart) : CloudE (result (list Unstructured))
| HelmRender (charts : list Chart) : CloudE (result (list Unstructured))
| GetCRDLabels (name : string) : CloudE (result (gmap string string))
| GetWebhook (kind name : string) : CloudE (result (gmap string string))
| PatchWebhook (kind name : string) : CloudE (option goerr)
| DeployResources (resources : list Unstructured) : CloudE (option goerr)
| CheckDeployments (conditionType namespace resourceID : string) : CloudE (option goerr)
| MarkCondition (m : mark) : CloudE unit
| GetCondition (conditionType : string) : CloudE (option Condition)
| OfMonitor {X : Type} (e : MonitorE X) : CloudE X.

(** ** Charts *)

Definition LWSOperatorCR : OperatorCR :=
  MkOperatorCR (MkGVK "operator.openshift.io" "v1" "LeaderWorkerSetOperator") "cluster" "".
Definition SailOperatorCR : OperatorCR := MkOperatorCR (MkGVK "sailoperator.io" "v1" "Istio") "default" "".
Definition NewRHCLOperatorCR (operandNamespace : string) : OperatorCR :=
  MkOperatorCR (MkGVK "kuadrant.io" "v1beta1" "Kuadrant") "kuadrant" operandNamespace.

Inductive chartState := chartManaged | chartCleaning | chartExcluded.

Record monitorConfig := MkMonitorConfig {
  mc_ConditionType : string;
  mc_HasDeployments : bool;
  mc_Namespace : string;
  mc_RequireCR : bool;
}.

Record chartDef := MkChartDef {
  cd_policy : string;
  cd_operatorCR : option OperatorCR;
  cd_chart : Chart;
  cd_monitor : monitorConfig;
}.

Definition ServiceMonitorCRDName : string := "servicemonitors.monitoring.coreos.com".

Definition allChartDefs (deps : Dependencies) (chartsPath : string) : list chartDef :=
  [MkChartDef (GatewayAPI_policy deps) None
     (MkChart (filepath_Join [chartsPath; "gateway-api"]) "gateway-api" [] [] [])
     (MkMonitorConfig ConditionGatewayAPIReady false "" false);
   MkChartDef (LWS_policy deps) (Some LWSOperatorCR)
     (MkChart (filepath_Join [chartsPath; "lws-operator"]) "lws-operator"
        [("namespace", LWS_GetNamespace deps)] [Some (SkipCRDIfPresent ServiceMonitorCRDName)] [])
     (MkMonitorConfig ConditionLWSReady true (LWS_GetNamespace deps) false);
   MkChartDef (SailOperator_policy deps) (Some SailOperatorCR)
     (MkChart (filepath_Join [chartsPath; "sail-operator"]) "sail-operator"
        [("namespace", SailOperator_GetNamespace deps)] [] [Some AnnotateIstioWebhooksHook])
     (MkMonitorConfig ConditionSailOperatorReady true (SailOperator_GetNamespace deps) false);
   MkChartDef (if String.eqb (RHCL_policy deps) PolicyManaged then PolicyManaged else PolicyUnmanaged)
     (Some (NewRHCLOperatorCR (RHCL_GetOperandNamespace deps)))
     (MkChart (filepath_Join [chartsPath; "rhcl-operator"]) "rhcl-operator"
        [("operatorNamespace", RHCL_GetOperatorNamespace deps);
         ("operandNamespace", RHCL_GetOperandNamespace deps)] [] [])
     (MkMonitorConfig ConditionRHCLReady true (RHCL_GetOperatorNamespace deps) true)].

(** [schema.GroupVersion.String]. *)
Definition group_version (g : GroupVersionKind) : string :=
  if nonempty_str (gvk_Group g) then gvk_Group g +:+ "/" +:+ gvk_Version g else gvk_Version g.

(** Some owner reference is exactly the instance. *)
Definition instance_owns (rr : CloudRequest) (obj : Live) : bool :=
  existsb (λ ref,
    String.eqb (or_UID ref) (cr_UID rr) && nonempty_str (cr_UID rr) &&
    String.eqb (or_APIVersion ref) (group_version (cr_GVK rr)) &&
    String.eqb (or_Kind ref) (gvk_Kind (cr_GVK rr))) (lv_owners obj).

Definition operatorCROwnedBy (cr : OperatorCR) (rr : CloudRequest) : prog CloudE (result bool) :=
  fetched ← trigger (CloudGet (ocr_GVK cr) (ocr_Namespace cr) (ocr_Name cr));
  mret
    (match fetched with
     | Err err => if is_absent err then Ok false else Err err
     | Ok obj =>
         Ok (instance_owns rr obj)
     end).

(** The function [makeStateFn] returns. *)
Definition stateFn (rr : CloudRequest) (policy : string) (operatorCR : option OperatorCR)
    : prog CloudE (chartState * option goerr) :=
  if negb (String.eqb policy PolicyUnmanaged) then mret (chartManaged, None)
  else
    match operatorCR with
    | None => mret (chartExcluded, None)
    | Some cr =>
        owned ← operatorCROwnedBy cr rr;
        mret (match owned with
              | Err err => (chartManaged, Some err)
              | Ok true => (chartCleaning, None)
              | Ok false => (chartExcluded, None)
              end)
    end.

Record DependencyMonitorConfig := MkDepMonitor {
  dm_ReleaseName : string;
  dm_ConditionType : string;
  dm_HasDeployments : bool;
  dm_Policy : string;
  dm_Namespace : string;
  dm_OperatorCR : option OperatorCR;
  dm_RequireCR : bool;
}.

Record BuildResult := MkBuildResult {
  Charts : list Chart;
  FilterCRs : list OperatorCR;
  CleanupCharts : list Chart;
  MonitorConfigs : list DependencyMonitorConfig;
}.

Definition monitor_config (def : chartDef) (policy : string) : DependencyMonitorConfig :=
  MkDepMonitor (ReleaseName (cd_chart def)) (mc_ConditionType (cd_monitor def))
    (mc_HasDeployments (cd_monitor def)) policy (mc_Namespace (cd_monitor def)) (cd_operatorCR def)
    (mc_RequireCR (cd_monitor def)).

(** What one chart definition adds to the result. *)
Definition add_chart (result : BuildResult) (def : chartDef) (st : chartState) : BuildResult :=
  let crs := match cd_operatorCR def with Some cr => [cr] | None => [] end in
  match st with
  | chartManaged =>
      MkBuildResult (Charts result ++ [cd_chart def]) (FilterCRs result) (CleanupCharts result)
        (MonitorConfigs result ++ [monitor_config def PolicyManaged])
  | chartCleaning =>
      MkBuildResult (Charts result ++ [cd_chart def]) (FilterCRs result ++ crs) (CleanupCharts result)
        (MonitorConfigs result ++ [monitor_config def PolicyUnmanaged])
  | chartExcluded =>
      MkBuildResult (Charts result) (FilterCRs result)
        (CleanupCharts result ++ (match cd_operatorCR def with Some _ => [cd_chart def] | None => [] end))
        (MonitorConfigs result ++ [monitor_config def PolicyUnmanaged])
  end.

Fixpoint build_charts (rr : CloudRequest) (defs : list chartDef) (built : BuildResult)
    : prog CloudE (result BuildResult) :=
  match defs with
  | [] => mret (Ok built)
  | def :: defs =>
      st ← stateFn rr (cd_policy def) (cd_operatorCR def);
      match st.2 with
      | Some err => mret (Err err)
      | None => build_charts rr defs (add_chart built def st.1)
      end
  end.

Definition BuildHelmCharts (rr : CloudRequest) (deps : Dependencies) : prog CloudE (result BuildResult) :=
  build_charts rr (allChartDefs deps (cr_ChartsBasePath rr)) (MkBuildResult [] [] [] []).

(** [buildCharts]: the instance may not expose dependencies. *)
Definition buildCharts (rr : CloudRequest) : prog CloudE (result BuildResult) :=
  if String.eqb (cr_ChartsBasePath rr) "" then mret (Err (errorf "ChartsBasePath must not be empty"))
  else
    match cr_Dependencies rr with
    | None =>
        mret (Err (errorf ("instance " +:+ cr_TypeName rr +:+ " does not implement KubernetesEngineInstance")))
    | Some deps => BuildHelmCharts rr deps
    end.

(** ** Operator CRs that are not deployed *)

(** The two lookup tables and the loop. *)
Definition filterCRs (resources : list Unstructured) (crs : list OperatorCR) : list Unstructured :=
  if bool_decide (crs = []) then resources
  else
    let clusterScoped := filter (λ cr, ocr_Namespace cr = "") crs in
    let exact := filter (λ cr, ocr_Namespace cr ≠ "") crs in
    filter (λ res,
      bool_decide (MkOperatorCR (u_gvk res) (u_name res) (u_namespace res) ∈ exact) = false ∧
      bool_decide (MkOperatorCR (u_gvk res) (u_name res) "" ∈ clusterScoped) = false) resources.

(** ** Hooks *)

Definition SailOperatorIgnoreAnnotation : string := "sailoperator.io/ignore".
Definition istioSidecarInjectorWebhook : string := "istio-sidecar-injector".
Definition istioValidatorWebhook : string := "istio-validator-istio-system".
Definition InfrastructurePartOf : string := "infrastructure.opendatahub.io/part-of".

Definition ensureSailOperatorIgnoreAnnotation (kind name : string) : prog CloudE (option goerr) :=
  fetched ← trigger (GetWebhook kind name);
  match fetched with
  | Err err => mret (if err_is TagNotFound err then None else Some err)
  | Ok annotations =>
      if bool_decide (annotations !! SailOperatorIgnoreAnnotation = Some "true") then mret None
      else trigger (PatchWebhook kind name)
  end.

(** Both webhooks are tried; the first error is returned. *)
Definition annotate_webhooks : prog CloudE (option goerr) :=
  hookErr ← ensureSailOperatorIgnoreAnnotation "MutatingWebhookConfiguration" istioSidecarInjectorWebhook;
  err ← ensureSailOperatorIgnoreAnnotation "ValidatingWebhookConfiguration" istioValidatorWebhook;
  mret (match hookErr with Some err => Some err | None => err end).

(** A hook works on the rendered resources. *)
Definition run_hook (hook : Hook) (resources : list Unstructured)
    : prog CloudE (list Unstructured * option goerr) :=
  match hook with
  | AnnotateIstioWebhooksHook => err ← annotate_webhooks; mret (resources, err)
  | SkipCRDIfPresent crdName =>
      crd ← trigger (GetCRDLabels crdName);
      mret
        (match crd with
         | Err err =>
             if err_is TagNotFound err then (resources, None)
             else (resources, Some (wrapf ("failed to check CRD " +:+ crdName) err))
         | Ok labels =>
             if bool_decide (is_Some (labels !! InfrastructurePartOf)) then (resources, None)
             else
               (filter (λ obj, String.eqb (gvk_Kind (u_gvk obj)) (gvk_Kind CustomResourceDefinition) &&
                               String.eqb (u_name obj) crdName = false) resources, None)
         end)
  end.

(** The hooks of one chart, then of the next, up to the first error. *)
Fixpoint run_chart_hooks (release : string) (hooks : list (option Hook)) (resources : list Unstructured)
    : prog CloudE (list Unstructured * option goerr) :=
  match hooks with
  | [] => mret (resources, None)
  | None :: hooks => run_chart_hooks release hooks resources
  | Some hook :: hooks =>
      ran ← run_hook hook resources;
      match ran.2 with
      | Some err => mret (ran.1, Some (wrapf ("hook " +:+ quote release +:+ " failed") err))
      | None => run_chart_hooks release hooks ran.1
      end
  end.

Fixpoint runHooks (getHooks : Chart → list (option Hook)) (charts : list Chart)
    (resources : list Unstructured) : prog CloudE (list Unstructured * option goerr) :=
  match charts with
  | [] => mret (resources, None)
  | chart :: charts =>
      ran ← run_chart_hooks (ReleaseName chart) (getHooks chart) resources;
      match ran.2 with
      | Some err => mret ran
      | None => runHooks getHooks charts ran.1
      end
  end.

(** ** Cleanup of excluded charts *)

Definition accessControlCleanupRequeueAfter : Z := 5000000000.

Definition isAccessControlKind (kind : string) : bool :=
  bool_decide (kind ∈ ["ServiceAccount"; "Role"; "RoleBinding"; "ClusterRole"; "ClusterRoleBinding"]).

Definition isWorkloadKind (kind : string) : bool :=
  bool_decide (kind ∈ ["Deployment"; "StatefulSet"; "DaemonSet"; "ReplicaSet"]).

Definition NamespaceGVK : GroupVersionKind := MkGVK "" "v1" "Namespace".
Definition LeaseGVK : GroupVersionKind := MkGVK "coordination.k8s.io" "v1" "Lease".

(** [gc.DefaultUnremovables] and [unremovableGVKs]. *)
Definition unremovables : list GroupVersionKind := [CustomResourceDefinition; LeaseGVK; NamespaceGVK].

Definition unremovable (obj : Unstructured) : bool := bool_decide (u_gvk obj ∈ unremovables).

Definition owned_by (uid : string) (lv : Live) : bool :=
  existsb (λ ref, String.eqb (or_UID ref) uid) (lv_owners lv).

Section cloud.
(** [multierror.Error.Error] of the collected errors. *)
Variable multierror_error : list goerr → goerr.
Variable rr : CloudRequest.

(** The live object and whether this instance owns it; nothing when it is absent. *)
Definition getOwnedLive (desired : Unstructured) : prog CloudE (result (option (Live * bool))) :=
  fetched ← trigger (CloudGet (u_gvk desired) (u_namespace desired) (u_name desired));
  mret
    (match fetched with
     | Err err => if is_absent err then Ok None else Err err
     | Ok lv => Ok (Some (lv, owned_by (cr_UID rr) lv))
     end).

Definition get_failed (obj : Unstructured) (err : goerr) : goerr :=
  wrapf ("cleanup get failed for " +:+ u_namespace obj +:+ "/" +:+ u_name obj) err.

Definition deleteOwnedResource (desired : Unstructured) : prog CloudE (option goerr) :=
  if unremovable desired then mret None
  else
    fetched ← getOwnedLive desired;
    match fetched with
    | Err err => mret (Some (get_failed desired err))
    | Ok None => mret None
    | Ok (Some (lv, owned)) =>
        if negb owned then mret None
        else
          err ← trigger (CloudDelete lv);
          mret
            (match err with
             | None => None
             | Some err =>
                 if err_is TagNotFound err then None
                 else Some (wrapf ("cleanup delete failed for " +:+ lv_namespace lv +:+ "/" +:+ lv_name lv) err)
             end)
    end.

(** One pass over the resources of the selected kinds; the errors are collected. *)
Definition delete_pass (selected : string → bool) (resources : list Unstructured) (merr : list goerr)
    : prog CloudE (list goerr) :=
  prog_foldl (λ merr obj,
    if negb (selected (gvk_Kind (u_gvk obj))) then mret merr
    else
      err ← deleteOwnedResource obj;
      mret (match err with Some err => merr ++ [err] | None => merr end)) merr resources.

(** Whether a workload remains, with the error that prevented a check. *)
Fixpoint ownedWorkloadExists (resources : list Unstructured) : prog CloudE (bool * option goerr) :=
  match resources with
  | [] => mret (false, None)
  | obj :: resources =>
      if negb (isWorkloadKind (gvk_Kind (u_gvk obj))) || unremovable obj then ownedWorkloadExists resources
      else
        fetched ← getOwnedLive obj;
        match fetched with
        | Err err => mret (true, Some (get_failed obj err))
        | Ok (Some (_, true)) => mret (true, None)
        | Ok _ => ownedWorkloadExists resources
        end
  end.

Definition ErrorOrNil (merr : list goerr) : option goerr :=
  match merr with [] => None | _ => Some (multierror_error merr) end.

Definition markDeferred (deferred : gset string) : gset string := {[cr_UID rr]} ∪ deferred.
Definition clearDeferred (deferred : gset string) : gset string := deferred ∖ {[cr_UID rr]}.
Definition isDeferred (deferred : gset string) : bool := bool_decide (cr_UID rr ∈ deferred).

Definition has_access_control (resources : list Unstructured) : bool :=
  existsb (λ obj, isAccessControlKind (gvk_Kind (u_gvk obj))) resources.

(** Pass B: the workloads are gone. *)
Definition access_control_pass (resources : list Unstructured) (merr : list goerr) (deferred : gset string)
    : prog CloudE (gset string * option action_error) :=
  let deferred := if has_access_control resources then markDeferred deferred else deferred in
  merr ← delete_pass isAccessControlKind resources merr;
  mret (match ErrorOrNil merr with
        | Some err => (deferred, Some (ActionErr err))
        | None => (clearDeferred deferred, None)
        end).

Definition cleanupExcludedCharts (charts : list Chart) (deferred : gset string)
    : prog CloudE (gset string * option action_error) :=
  if bool_decide (charts = []) then mret (clearDeferred deferred, None)
  else if negb (cr_Generated rr) && negb (isDeferred deferred) then mret (deferred, None)
  else
    rendered ← trigger (RenderCleanup charts);
    match rendered with
    | Err err => mret (deferred, Some (ActionErr (wrapf "cleanup chart render failed" err)))
    | Ok resources =>
        merr ← delete_pass (λ kind, negb (isAccessControlKind kind)) resources [];
        remain ← ownedWorkloadExists resources;
        let merr := merr ++ match remain.2 with Some err => [err] | None => [] end in
        if remain.1 : bool then
          mret (markDeferred deferred,
                Some (match ErrorOrNil merr with
                      | Some err => ActionErr err
                      | None => RequeueAfterError accessControlCleanupRequeueAfter
                      end))
        else access_control_pass resources merr deferred
    end.

(** ** Health of the dependencies *)

Definition dependencyDegradedReason : string := "DependencyDegraded".
Definition dependencyUnknownReason : string := "DependencyHealthUnknown".

Definition defaultDegradedConditionFilter (condType condStatus : string) : bool :=
  (String.eqb condType "Degraded" && String.eqb condStatus ConditionTrue) ||
  ((String.eqb condType "Available" || String.eqb condType "Ready") && String.eqb condStatus ConditionFalse).

Definition operator_config (cfg : DependencyMonitorConfig) (cr : OperatorCR) : OperatorConfig :=
  MkOperatorConfig (ocr_GVK cr) (ocr_Name cr) (ocr_Namespace cr) (Some defaultDegradedConditionFilter) []
    (dm_RequireCR cfg) false.

Section monitor.
Context `{Nested}.

(** Tier 2: what the operator CR says, unless tier 1 found the deployments unhealthy. *)
Definition check_operator_cr (cfg : DependencyMonitorConfig) : prog CloudE (option goerr) :=
  cond ← trigger (GetCondition (dm_ConditionType cfg));
  match dm_OperatorCR cfg with
  | Some cr =>
      if match cond with Some c => negb (String.eqb (c_status c) ConditionFalse) | None => true end then
        checked ← lift (λ X e, OfMonitor e) (CheckOperatorHealth (operator_config cfg cr));
        match checked with
        | Err err => mret (Some (wrapf ("operator CR check for " +:+ dm_ReleaseName cfg +:+ " failed") err))
        | Ok res =>
            let resultStatus := ConditionStatus res in
            if negb (String.eqb resultStatus ConditionTrue) then
              let reason :=
                if String.eqb resultStatus ConditionUnknown then dependencyUnknownReason
                else dependencyDegradedReason in
              _ ← trigger (MarkCondition (MkMark (dm_ConditionType cfg) resultStatus (Some reason)
                                            (Some (cr_Message res)) None None));
              mret None
            else mret None
        end
      else mret None
  | None => mret None
  end.

Definition monitor_dependency (resourceID : string) (cfg : DependencyMonitorConfig)
    : prog CloudE (option goerr) :=
  if String.eqb (dm_Policy cfg) PolicyUnmanaged then
    _ ← trigger (MarkCondition (MkMark (dm_ConditionType cfg) ConditionTrue (Some UnmanagedReason) None None None));
    mret None
  else
    depErr ← (if dm_HasDeployments cfg
              then trigger (CheckDeployments (dm_ConditionType cfg) (dm_Namespace cfg) resourceID)
              else mret None);
    match depErr with
    | Some err => mret (Some (wrapf ("deployment check for " +:+ dm_ReleaseName cfg +:+ " failed") err))
    | None =>
        crErr ← check_operator_cr cfg;
        match crErr with
        | Some err => mret (Some err)
        | None =>
            if negb (dm_HasDeployments cfg) && bool_decide (dm_OperatorCR cfg = None) then
              _ ← trigger (MarkCondition (MkMark (dm_ConditionType cfg) ConditionTrue None None None None));
              mret None
            else mret None
        end
    end.

Fixpoint monitorDependencies (resourceID : string) (configs : list DependencyMonitorConfig)
    : prog CloudE (option goerr) :=
  match configs with
  | [] => mret None
  | cfg :: configs =>
      err ← monitor_dependency resourceID cfg;
      match err with
      | Some err => mret (Some err)
      | None => monitorDependencies resourceID configs
      end
  end.

Definition summarizeDependencyStatus (configs : list DependencyMonitorConfig) : prog CloudE unit :=
  notReady ← prog_foldl (λ notReady cfg,
    c ← trigger (GetCondition (dm_ConditionType cfg));
    mret (if match c with Some c => negb (String.eqb (c_status c) ConditionTrue) | None => true end
          then notReady ++ [dm_ReleaseName cfg] else notReady)) [] configs;
  match notReady with
  | [] => trigger (MarkCondition (MkMark ConditionDependenciesReady ConditionTrue None None None None))
  | _ =>
      trigger (MarkCondition
        (MkMark ConditionDependenciesReady ConditionFalse (Some NotReadyReason)
           (Some ("Dependencies not ready: " +:+ join ", " notReady)) (Some SeverityError) None))
  end.

(** ** The combined action *)

(** The end of the action: cleanup, monitoring and the summary. *)
Definition cleanup_and_monitor (resourceID : string) (deferred : gset string) (built : BuildResult)
    : prog CloudE (gset string * option action_error) :=
  cleaned ← cleanupExcludedCharts (CleanupCharts built) deferred;
  match cleaned.2 with
  | Some err => mret cleaned
  | None =>
      monErr ← monitorDependencies resourceID (MonitorConfigs built);
      match monErr with
      | Some err => mret (cleaned.1, Some (ActionErr err))
      | None =>
          _ ← summarizeDependencyStatus (MonitorConfigs built);
          mret (cleaned.1, None)
      end
  end.

(** The action [NewReconcileAction] returns; [rr.Resources] and [rr.HelmCharts] are empty
    when it starts. *)
Definition reconcileAction (resourceID : string) (deferred : gset string)
    : prog CloudE (gset string * option action_error) :=
  built ← buildCharts rr;
  match built with
  | Err err => mret (deferred, Some (ActionErr err))
  | Ok built =>
      rendered ← trigger (HelmRender (Charts built));
      match rendered with
      | Err err => mret (deferred, Some (ActionErr (wrapf "helm render failed" err)))
      | Ok resources =>
          pre ← runHooks PreApply (Charts built) (filterCRs resources (FilterCRs built));
          match pre.2 with
          | Some err => mret (deferred, Some (ActionErr err))
          | None =>
              deployErr ← trigger (DeployResources pre.1);
              match deployErr with
              | Some err => mret (deferred, Some (ActionErr (wrapf "deploy failed" err)))
              | None =>
                  post ← runHooks PostApply (Charts built) pre.1;
                  match post.2 with
                  | Some err => mret (deferred, Some (ActionErr err))
                  | None =>
                      cleanup_and_monitor resourceID deferred built
                  end
              end
          end
      end
  end.

End monitor.

(** [NewReconcileAction] itself checks the identifier. *)
Definition NewReconcileAction_resourceID (resourceID : string) : result string :=
  let resourceID := NormalizePartOfValue resourceID in
  if String.eqb resourceID "" then Err (errorf "resourceID is required") else Ok resourceID.

(** ** Garbage collection *)

Record ProtectedObject := MkProtected {
  po_Group : string;
  po_Kind : string;
  po_Name : string;
  po_Namespace : string;
}.

#[export] Instance ProtectedObject_eq_dec : EqDecision ProtectedObject.
Proof. solve_decision. Defined.

(** The suffixes of the instance annotations belong to the framework. *)
Variables SuffixInstanceUID SuffixInstanceGeneration : string.

Definition ODHInfrastructurePrefix : string := "infrastructure.opendatahub.io".
Definition ODHPlatformPrefix : string := "platform.opendatahub.io".

(** [resources.GetAnnotation]: the empty string when absent. *)
Definition get_annotation (annotations : gmap string string) (key : string) : string :=
  default "" (annotations !! key).

(** The digits of [strconv.ParseInt(s, 10, 64)], most significant first. *)
Fixpoint parse_digits (s : string) (acc : Z) : option Z :=
  match s with
  | EmptyString => Some acc
  | String a s =>
      let n := Ascii.nat_of_ascii a in
      if (48 <=? n)%nat && (n <=? 57)%nat then parse_digits s (acc * 10 + Z.of_nat (n - 48))%Z else None
  end.

Definition ParseInt64 (s : string) : option Z :=
  let signed (neg : bool) (digits : string) :=
    if String.eqb digits "" then None
    else
      n ← parse_digits digits 0;
      let n := if neg then (- n)%Z else n in
      if (- 2 ^ 63 <=? n)%Z && (n <? 2 ^ 63)%Z then Some n else None in
  match s with
  | String a rest =>
      if (Ascii.nat_of_ascii a =? 45)%nat then signed true rest
      else if (Ascii.nat_of_ascii a =? 43)%nat then signed false rest
      else signed false s
  | EmptyString => None
  end.

Definition isStaleOrOrphaned (annotations : gmap string string) : bool :=
  let read suffix :=
    let v := get_annotation annotations (ODHInfrastructurePrefix +:+ suffix) in
    if String.eqb v "" then get_annotation annotations (ODHPlatformPrefix +:+ suffix) else v in
  let iUID := read SuffixInstanceUID in
  let iGeneration := read SuffixInstanceGeneration in
  if String.eqb iUID "" || String.eqb iGeneration "" then false
  else if negb (String.eqb iUID (cr_UID rr)) then true
  else
    match ParseInt64 iGeneration with
    | None => false
    | Some iGenerationInt => negb (cr_Generation rr =? iGenerationInt)%Z
    end.

(** The predicate [newGCPredicate] returns: whether the object is to be deleted. *)
Definition newGCPredicate (protectedObjects : list ProtectedObject) (deferred : gset string)
    (obj : Unstructured) (annotations : gmap string string) : bool :=
  let key := MkProtected (gvk_Group (u_gvk obj)) (gvk_Kind (u_gvk obj)) (u_name obj) (u_namespace obj) in
  if bool_decide (key ∈ protectedObjects) then false
  else if negb (isStaleOrOrphaned annotations) then false
  else if isAccessControlKind (gvk_Kind (u_gvk obj)) && isDeferred deferred then false
  else true.

Definition BootstrapProtectedObjects (IssuerName CertName CertManagerNamespace CAIssuerName : string)
    : list ProtectedObject :=
  [MkProtected "cert-manager.io" "ClusterIssuer" IssuerName "";
   MkProtected "cert-manager.io" "Certificate" CertName CertManagerNamespace;
   MkProtected "cert-manager.io" "ClusterIssuer" CAIssuerName ""].

(** The validation of [NewGCAction]. *)
Definition NewGCAction_error (resourceID operatorNamespace : string) (protectedObjects : list ProtectedObject)
    : option goerr :=
  if String.eqb (NormalizePartOfValue resourceID) "" then Some (errorf "NewGCAction: resourceID is required")
  else if String.eqb operatorNamespace "" then Some (errorf "NewGCAction: operatorNamespace is required")
  else
    match head (filter (λ ip : nat * ProtectedObject,
                  String.eqb (po_Kind ip.2) "" || String.eqb (po_Name ip.2) "" = true)
                  (imap pair protectedObjects)) with
    | Some ip =>
        Some (errorf ("NewGCAction: protectedObjects[" +:+ itoa (Z.of_nat ip.1) +:+
                      "] requires both Kind and Name"))
    | None => None
    end.

(** ** The finalizer *)

Record Target := MkTarget { tg_GVK : GroupVersionKind; tg_Name : string; tg_Namespace : string }.

Definition FinalizerCleanupTargets : list Target :=
  [MkTarget (ocr_GVK SailOperatorCR) (ocr_Name SailOperatorCR) ""].

Definition DeleteAndWait (target : Target) (obj : Live) : prog CloudE (option goerr) :=
  if negb (owned_by (cr_UID rr) obj) then mret None
  else
    let waiting :=
      errorf ("waiting for " +:+ gvk_Kind (tg_GVK target) +:+ "/" +:+ tg_Name target +:+ " to be fully deleted") in
    if lv_deleting obj then mret (Some waiting)
    else
      err ← trigger (CloudDelete obj);
      mret (match err with
            | Some err => if err_is TagNotFound err then Some waiting else Some err
            | None => Some waiting
            end).

Definition finalize_target (target : Target) : prog CloudE (option goerr) :=
  fetched ← trigger (CloudGet (tg_GVK target) (tg_Namespace target) (tg_Name target));
  match fetched with
  | Err err => mret (if is_absent err then None else Some err)
  | Ok obj => DeleteAndWait target obj
  end.

Fixpoint finalizer (targets : list Target) : prog CloudE (option goerr) :=
  match targets with
  | [] => mret None
  | target :: targets =>
      err ← finalize_target target;
      match err with
      | Some err => mret (Some err)
      | None => finalizer targets
      end
  end.

End cloud.
