(* ===== verification/CloudManagerTheorems.v ===== *)
(** * Properties of the cloud manager

    The cleanup of excluded charts deletes only what the instance owns, RBAC only after the
    workloads; what its outcomes mean for the deferred set; which charts are deployed, kept or
    cleaned; a whole reconcile never cleans an operator whose CR is still there; garbage
    collection and the finalizer. *)

From S2P Require Import Prelude Effects Conditions Unstructured Monitor ModuleBase SharedPlatform CloudManager.

(** ** What calls say *)

Definition deletes (c : call CloudE) : option Live :=
  match c with Call e _ => match e with CloudDelete lv => Some lv | _ => None end end.

(** The call is a read of the named object with an answer in [P]. *)
Definition read_as (g : GroupVersionKind) (ns n : string) (P : result Live → Prop) (c : call CloudE) : Prop :=
  match c with
  | @Call _ X e x =>
      match e in CloudE X return X → Prop with
      | CloudGet g' ns' n' => λ x, g' = g ∧ ns' = ns ∧ n' = n ∧ P x
      | _ => λ _, False
      end x
  end.

(** Absent, or not owned by the instance. *)
Definition not_ours (uid : string) (answer : result Live) : Prop :=
  match answer with
  | Ok lv => owned_by uid lv = false
  | Err err => is_absent err = true
  end.

Definition ours (uid : string) (answer : result Live) : Prop :=
  match answer with Ok lv => owned_by uid lv = true | Err _ => False end.

Definition seen_as (obj : Unstructured) : (result Live → Prop) → call CloudE → Prop :=
  read_as (u_gvk obj) (u_namespace obj) (u_name obj).

(** The call failed: an error other than "not there". *)
Definition call_failed (c : call CloudE) : Prop :=
  match c with
  | @Call _ X e x =>
      match e in CloudE X return X → Prop with
      | CloudGet _ _ _ => λ x, match x with Err err => is_absent err = false | Ok _ => False end
      | CloudDelete _ => λ x, match x with Some err => err_is TagNotFound err = false | None => False end
      | RenderCleanup _ => λ x, match x with Err _ => True | Ok _ => False end
      | _ => λ _, False
      end x
  end.

(** A deletion was accepted (or the object was already gone). *)
Definition delete_accepted (lv : Live) (c : call CloudE) : Prop :=
  match c with
  | @Call _ X e x =>
      match e in CloudE X return X → Prop with
      | CloudDelete lv' => λ x, lv' = lv ∧ match x with Some err => err_is TagNotFound err = true | None => True end
      | _ => λ _, False
      end x
  end.

(** Nothing is left to do for the object: it was seen absent or foreign, or its deletion was
    accepted after it was seen. *)
Definition settled (uid : string) (obj : Unstructured) (new : list (call CloudE)) : Prop :=
  Exists (seen_as obj (not_ours uid)) new ∨
  ∃ lv, Call (CloudGet (u_gvk obj) (u_namespace obj) (u_name obj)) (Ok lv) ∈ new ∧ Exists (delete_accepted lv) new.

Lemma settled_within uid obj a b c : settled uid obj b → settled uid obj (a ++ b ++ c).
Proof.
  intros [Hs|(lv & Hg & Hd)].
  - left. apply Exists_app. right. apply Exists_app. by left.
  - right. exists lv. split.
    + apply elem_of_app. right. apply elem_of_app. by left.
    + apply Exists_app. right. apply Exists_app. by left.
Qed.

Lemma settled_cons uid obj c l : settled uid obj l → settled uid obj (c :: l).
Proof. intros H. rewrite <-(app_nil_r l). by apply (settled_within _ _ [c]). Qed.

Lemma Exists_mid {A} (P : A → Prop) a b c : Exists P b → Exists P (a ++ b ++ c).
Proof. intros H. apply Exists_app. right. apply Exists_app. by left. Qed.

(** ** Passes *)

Section passes.
Context (multierror_error : list goerr → goerr) (rr : CloudRequest).
Implicit Types (P : list (call CloudE) → call CloudE → Prop).

Definition read_call (obj : Unstructured) (answer : result Live) : call CloudE :=
  Call (CloudGet (u_gvk obj) (u_namespace obj) (u_name obj)) answer.

(** The deletion of [obj] right after it was seen and found ours. *)
Definition justified (obj : Unstructured) (lv : Live) (pre : list (call CloudE)) : Prop :=
  unremovable obj = false ∧ owned_by (cr_UID rr) lv = true ∧ last pre = Some (read_call obj (Ok lv)).

Lemma deleteOwnedResource_wp P obj tr :
  each_after P tr → (∀ pre answer, P pre (read_call obj answer)) →
  (∀ new lv answer, justified obj lv (tr ++ new) → P (tr ++ new) (Call (CloudDelete lv) answer)) →
  wp (deleteOwnedResource rr obj) tr (λ tr' err, each_after P tr' ∧ ∃ new, tr' = tr ++ new ∧
    match err with
    | None => unremovable obj = false → settled (cr_UID rr) obj new
    | Some _ => Exists call_failed new
    end).
Proof.
  intros Htr Hread Hdel. unfold deleteOwnedResource, getOwnedLive. destruct (unremovable obj) eqn:Hun.
  { apply wp_ret. split; [done|]. exists []. by rewrite app_nil_r. }
  apply wp_bind, wp_bind, wp_call. intros answer.
  assert (each_after P (tr ++ [read_call obj answer])) as Htr1 by (apply each_after_snoc; auto).
  destruct answer as [lv|err]; apply wp_ret.
  - destruct (owned_by (cr_UID rr) lv) eqn:Howned; cbn [negb].
    + apply wp_bind, wp_call. intros answer. apply wp_ret. split.
      { apply each_after_snoc; [done|]. apply Hdel. split; [done|]. split; [done|]. apply last_snoc. }
      exists [read_call obj (Ok lv); Call (CloudDelete lv) answer]. rewrite <-app_assoc. split; [done|].
      destruct answer as [err|]; [destruct (err_is TagNotFound err) eqn:Herr|].
      * intros _. right. exists lv. split; [by left|]. by apply Exists_cons_tl, Exists_cons_hd.
      * by apply Exists_cons_tl, Exists_cons_hd.
      * intros _. right. exists lv. split; [by left|]. by apply Exists_cons_tl, Exists_cons_hd.
    + apply wp_ret. split; [done|]. exists [read_call obj (Ok lv)]. split; [done|].
      intros _. left. by apply Exists_cons_hd.
  - destruct (is_absent err) eqn:Herr; apply wp_ret; (split; [done|]);
      exists [read_call obj (Err err)]; (split; [done|]); [intros _; left|]; by apply Exists_cons_hd.
Qed.

(** What a pass achieved: [errs] are the errors it added. *)
Definition pass_result (selected : string → bool) (resources : list Unstructured)
    (new : list (call CloudE)) (errs : list goerr) : Prop :=
  (errs = [] → ∀ obj, obj ∈ resources → selected (gvk_Kind (u_gvk obj)) = true → unremovable obj = false →
     settled (cr_UID rr) obj new) ∧
  (errs ≠ [] → Exists call_failed new).

Lemma delete_pass_wp P selected resources merr tr :
  each_after P tr → (∀ pre obj answer, P pre (read_call obj answer)) →
  (∀ new obj lv answer, obj ∈ resources → selected (gvk_Kind (u_gvk obj)) = true →
     justified obj lv (tr ++ new) → P (tr ++ new) (Call (CloudDelete lv) answer)) →
  wp (delete_pass rr selected resources merr) tr (λ tr' merr', each_after P tr' ∧ ∃ new errs,
    tr' = tr ++ new ∧ merr' = merr ++ errs ∧ pass_result selected resources new errs).
Proof.
  intros Htr Hread Hdel.
  eapply wp_mono; [|eapply (wp_foldl _ _ _ _ (λ done tr' merr', each_after P tr' ∧ ∃ new errs,
    tr' = tr ++ new ∧ merr' = merr ++ errs ∧ pass_result selected done new errs))].
  - cbn beta. intros tr' merr' H. exact H.
  - split; [done|]. exists [], []. rewrite !app_nil_r. split; [done|]. split; [done|].
    split; [by intros _ ? ?%elem_of_nil|done].
  - intros visited obj todo tr' merr' Hres [Htr' (new & errs & -> & -> & Hok & Hfail)].
    assert (∀ new', errs = [] → ∀ obj, obj ∈ visited → selected (gvk_Kind (u_gvk obj)) = true →
              unremovable obj = false → settled (cr_UID rr) obj (new ++ new')) as Hok'.
    { intros new' He o Ho Hs Hu. rewrite <-(app_nil_l (new ++ new')). apply settled_within. by apply Hok. }
    destruct (selected (gvk_Kind (u_gvk obj))) eqn:Hsel; cbn [negb].
    + apply wp_bind. eapply wp_mono; [|apply (deleteOwnedResource_wp P)]; [|done|auto|].
      * intros tr' err [Htr2 (new' & -> & Herr)]. destruct err as [e|]; apply wp_ret; (split; [done|]).
        -- exists (new ++ new'), (errs ++ [e]). rewrite !app_assoc. split; [done|]. split; [done|]. split.
           ++ intros Hnil. by destruct errs.
           ++ intros _. apply Exists_app. by right.
        -- exists (new ++ new'), errs. rewrite !app_assoc. split; [done|]. split; [done|]. split.
           ++ intros He o [Ho|<-%list_elem_of_singleton]%elem_of_app Hs Hu; [by apply Hok'|].
              rewrite <-(app_nil_r new'). apply settled_within. by apply Herr.
           ++ intros He. apply Exists_app. left. by apply Hfail.
      * intros new' lv answer Hj. rewrite <-app_assoc. apply (Hdel _ obj); [|done|by rewrite app_assoc].
        rewrite Hres. apply elem_of_app. right. left.
    + apply wp_ret. split; [done|]. exists new, errs. split; [done|]. split; [done|]. split; [|done].
      intros He o [Ho|<-%list_elem_of_singleton]%elem_of_app Hs Hu; [by apply Hok|congruence].
Qed.

(** The gate: no owned workload remains only if every one was seen not ours. *)
Lemma ownedWorkloadExists_wp P resources tr :
  each_after P tr → (∀ pre obj answer, P pre (read_call obj answer)) →
  wp (ownedWorkloadExists rr resources) tr (λ tr' remain, each_after P tr' ∧ ∃ new, tr' = tr ++ new ∧
    match remain with
    | (false, err) => err = None ∧ ∀ obj, obj ∈ resources → isWorkloadKind (gvk_Kind (u_gvk obj)) = true →
        unremovable obj = false → Exists (seen_as obj (not_ours (cr_UID rr))) new
    | (true, None) => ∃ obj, obj ∈ resources ∧ isWorkloadKind (gvk_Kind (u_gvk obj)) = true ∧
        Exists (seen_as obj (ours (cr_UID rr))) new
    | (true, Some _) => Exists call_failed new
    end).
Proof.
  intros Htr Hread. revert tr Htr. induction resources as [|obj resources IH]; intros tr Htr; cbn [ownedWorkloadExists].
  { apply wp_ret. split; [done|]. exists []. rewrite app_nil_r. split; [done|]. split; [done|]. by intros ? ?%elem_of_nil. }
  destruct (isWorkloadKind (gvk_Kind (u_gvk obj))) eqn:Hw; [destruct (unremovable obj) eqn:Hun|]; cbn [negb orb].
  1,3: eapply wp_mono; [|by apply IH]; intros tr' [[|] err] [Htr' (new & -> & H)]; (split; [done|]);
    exists new; (split; [done|]); [destruct err; [done|]; destruct H as (o & ? & ?); exists o; split; [by right|done]|
    destruct H as [-> H]; split; [done|]; intros o [->|Ho]%elem_of_cons; [congruence|by apply H]].
  unfold getOwnedLive. apply wp_bind, wp_bind, wp_call. intros answer. apply wp_ret.
  assert (each_after P (tr ++ [read_call obj answer])) as Htr1 by (apply each_after_snoc; auto).
  destruct answer as [lv|err]; [destruct (owned_by (cr_UID rr) lv) eqn:Howned|destruct (is_absent err) eqn:Herr].
  - apply wp_ret. split; [done|]. exists [read_call obj (Ok lv)]. split; [done|]. exists obj.
    split; [by left|]. split; [done|]. by apply Exists_cons_hd.
  - eapply wp_mono; [|by apply IH]. intros tr' [[|] err] [Htr' (new & -> & H)]; (split; [done|]);
      exists (read_call obj (Ok lv) :: new); (split; [by rewrite <-app_assoc|]).
    + destruct err; [by apply Exists_cons_tl|]. destruct H as (o & ? & ? & ?). exists o.
      split; [by right|]. split; [done|]. by apply Exists_cons_tl.
    + destruct H as [-> H]. split; [done|]. intros o [->|Ho]%elem_of_cons Hw' Hu; [by apply Exists_cons_hd|].
      apply Exists_cons_tl. by apply H.
  - eapply wp_mono; [|by apply IH]. intros tr' [[|] err'] [Htr' (new & -> & H)]; (split; [done|]);
      exists (read_call obj (Err err) :: new); (split; [by rewrite <-app_assoc|]).
    + destruct err'; [by apply Exists_cons_tl|]. destruct H as (o & ? & ? & ?). exists o.
      split; [by right|]. split; [done|]. by apply Exists_cons_tl.
    + destruct H as [-> H]. split; [done|]. intros o [->|Ho]%elem_of_cons Hw' Hu; [by apply Exists_cons_hd|].
      apply Exists_cons_tl. by apply H.
  - apply wp_ret. split; [done|]. exists [read_call obj (Err err)]. split; [done|]. by apply Exists_cons_hd.
Qed.

Definition rendered (charts : list Chart) (resources : list Unstructured) : call CloudE :=
  Call (RenderCleanup charts) (Ok resources).

(** Every rendered workload that can be removed was seen not to be the instance's. *)
Definition workloads_gone (resources : list Unstructured) (new : list (call CloudE)) : Prop :=
  ∀ obj, obj ∈ resources → isWorkloadKind (gvk_Kind (u_gvk obj)) = true → unremovable obj = false →
    Exists (seen_as obj (not_ours (cr_UID rr))) new.

(** What the result of a cleanup says; [deferred] is the set it started from. *)
Definition cleanup_outcome (charts : list Chart) (deferred : gset string) (new : list (call CloudE))
    (r : gset string * option action_error) : Prop :=
  (∀ uid, uid ≠ cr_UID rr → uid ∈ r.1 ↔ uid ∈ deferred) ∧
  match r.2 with
  | None =>
      (charts = [] ∧ new = [] ∧ cr_UID rr ∉ r.1) ∨
      (cr_Generated rr = false ∧ cr_UID rr ∉ deferred ∧ new = [] ∧ r.1 = deferred) ∨
      (cr_UID rr ∉ r.1 ∧ ∃ resources, rendered charts resources ∈ new ∧
         ∀ obj, obj ∈ resources → unremovable obj = false → settled (cr_UID rr) obj new)
  | Some (RequeueAfterError d) =>
      d = accessControlCleanupRequeueAfter ∧ cr_UID rr ∈ r.1 ∧
      ∃ resources obj, rendered charts resources ∈ new ∧ obj ∈ resources ∧
        isWorkloadKind (gvk_Kind (u_gvk obj)) = true ∧ Exists (seen_as obj (ours (cr_UID rr))) new
  | Some (ActionErr _) => Exists call_failed new
  | Some (StopError _) => False
  end.

Lemma others_marked deferred uid : uid ≠ cr_UID rr → uid ∈ markDeferred rr deferred ↔ uid ∈ deferred.
Proof. unfold markDeferred. set_solver. Qed.

Lemma others_cleared deferred uid : uid ≠ cr_UID rr → uid ∈ clearDeferred rr deferred ↔ uid ∈ deferred.
Proof. unfold clearDeferred. set_solver. Qed.

Lemma cleared deferred : cr_UID rr ∉ clearDeferred rr deferred.
Proof. unfold clearDeferred. set_solver. Qed.

Lemma marked deferred : cr_UID rr ∈ markDeferred rr deferred.
Proof. unfold markDeferred. set_solver. Qed.

Lemma cleanupExcludedCharts_wp P charts deferred tr :
  each_after P tr → (∀ pre obj answer, P pre (read_call obj answer)) →
  (∀ answer, P tr (Call (RenderCleanup charts) answer)) →
  (∀ new resources obj lv answer, rendered charts resources ∈ new → obj ∈ resources →
     justified obj lv (tr ++ new) →
     (isAccessControlKind (gvk_Kind (u_gvk obj)) = true → workloads_gone resources new) →
     P (tr ++ new) (Call (CloudDelete lv) answer)) →
  wp (cleanupExcludedCharts multierror_error rr charts deferred) tr (λ tr' r,
    each_after P tr' ∧ ∃ new, tr' = tr ++ new ∧ cleanup_outcome charts deferred new r).
Proof.
  intros Htr Hread Hrender Hdel. unfold cleanupExcludedCharts.
  case_bool_decide as Hcharts.
  { apply wp_ret. split; [done|]. exists []. rewrite app_nil_r. split; [done|]. split; [apply others_cleared|].
    left. split; [done|]. split; [done|]. apply cleared. }
  destruct (negb (cr_Generated rr) && negb (isDeferred rr deferred)) eqn:Hskip.
  { apply andb_true_iff in Hskip as [Hg%negb_true_iff Hd%negb_true_iff]. apply bool_decide_eq_false in Hd.
    apply wp_ret. split; [done|]. exists []. rewrite app_nil_r. split; [done|]. split; [done|]. by right; left. }
  apply wp_bind, wp_call. intros [resources|err].
  2:{ apply wp_ret. split; [by apply each_after_snoc|]. eexists [_]. split; [done|]. split; [done|]. by left. }
  apply wp_bind. eapply wp_mono; [|apply (delete_pass_wp P)]; [|by apply each_after_snoc|done|].
  2:{ intros new obj lv answer Ho Hs Hj. rewrite <-app_assoc in *. apply (Hdel _ resources obj); [by left|done|done|].
      intros Hac. by rewrite Hac in Hs. }
  intros tr1 merr1 [Htr1 (new1 & errs1 & -> & -> & Hok1 & Hfail1)].
  apply wp_bind. eapply wp_mono; [|by apply (ownedWorkloadExists_wp P)].
  intros tr2 [remain err2] [Htr2 (new2 & -> & Hremain)]. cbn [fst snd] in *.
  destruct remain.
  { apply wp_ret. split; [done|]. eexists. rewrite <-!app_assoc. split; [done|].
    split; [apply others_marked|]. cbn [snd].
    destruct err2 as [err2|]; [|destruct errs1 as [|e errs1]]; cbn -[accessControlCleanupRequeueAfter].
    - destruct (errs1 ++ [err2]) eqn:Hnil; [by destruct errs1|]. apply Exists_cons_tl, Exists_app. by right.
    - split; [done|]. split; [apply marked|]. destruct Hremain as (obj & Ho & Hw & Hseen).
      exists resources, obj. split; [by left|]. split; [done|]. split; [done|].
      apply Exists_cons_tl, Exists_app. by right.
    - apply Exists_cons_tl, Exists_app. left. by apply Hfail1. }
  destruct Hremain as [-> Hgone]. rewrite app_nil_r. unfold access_control_pass.
  apply wp_bind. eapply wp_mono; [|apply (delete_pass_wp P)]; [|done|done|].
  2:{ intros new obj lv answer Ho Hs Hj. rewrite <-!app_assoc in *. apply (Hdel _ resources obj); [by left|done|done|].
      intros _ o Hin Hw Hu. apply Exists_cons_tl, Exists_app. right. apply Exists_app. left. by apply Hgone. }
  intros tr3 merr3 [Htr3 (new3 & errs3 & -> & -> & Hok3 & Hfail3)]. rewrite app_nil_l. cbn [fst snd] in *.
  destruct (ErrorOrNil multierror_error (errs1 ++ errs3)) as [err|] eqn:Herr; apply wp_ret; (split; [done|]);
    eexists; rewrite <-!app_assoc; (split; [done|]).
  - split; [destruct (has_access_control resources); [apply others_marked|done]|]. cbn [snd app].
    apply Exists_cons_tl, Exists_app. destruct errs1 as [|e errs1]; [right|left; by apply Hfail1].
    apply Exists_app. right. apply Hfail3. by intros ->.
  - split.
    { intros uid Hu. cbn [fst]. rewrite others_cleared; [|done].
      destruct (has_access_control resources); [by apply others_marked|done]. }
    cbn [snd fst app]. right; right. split; [apply cleared|]. exists resources. split; [by left|].
    intros obj Ho Hu.
    assert (errs1 = [] ∧ errs3 = []) as [-> ->] by (by destruct errs1, errs3).
    destruct (isAccessControlKind (gvk_Kind (u_gvk obj))) eqn:Hac.
    + apply settled_cons. rewrite app_assoc.
      rewrite <-(app_nil_r new3). apply settled_within. by apply Hok3.
    + apply settled_cons.
      apply (settled_within _ _ []). apply Hok1; [done|done|by rewrite Hac|done].
Qed.
End passes.

(** ** The three states of a chart *)

Definition not_instance (rr : CloudRequest) (answer : result Live) : Prop :=
  match answer with
  | Ok lv => instance_owns rr lv = false
  | Err err => is_absent err = true
  end.

Definition is_instance (rr : CloudRequest) (answer : result Live) : Prop :=
  match answer with Ok lv => instance_owns rr lv = true | Err _ => False end.

Definition cr_seen (cr : OperatorCR) : (result Live → Prop) → call CloudE → Prop :=
  read_as (ocr_GVK cr) (ocr_Namespace cr) (ocr_Name cr).

(** What a state says about the policy and about the operator CR that was just read. *)
Definition state_justified (rr : CloudRequest) (new : list (call CloudE)) (def : chartDef) (st : chartState)
    : Prop :=
  match st with
  | chartManaged => cd_policy def ≠ PolicyUnmanaged
  | chartCleaning => cd_policy def = PolicyUnmanaged ∧ ∃ cr, cd_operatorCR def = Some cr ∧
      Exists (cr_seen cr (is_instance rr)) new
  | chartExcluded => cd_policy def = PolicyUnmanaged ∧ ∀ cr, cd_operatorCR def = Some cr →
      Exists (cr_seen cr (not_instance rr)) new
  end.

Lemma state_justified_mono rr a b c def st :
  state_justified rr b def st → state_justified rr (a ++ b ++ c) def st.
Proof.
  destruct st; simpl; [done| |]; intros [Hp H]; (split; [done|]).
  - destruct H as (cr & Hcr & H). exists cr. split; [done|]. by apply Exists_mid.
  - intros cr Hcr. by apply Exists_mid, H.
Qed.

Definition deployed (ds : chartDef * chartState) : option Chart :=
  match ds.2 with chartExcluded => None | _ => Some (cd_chart ds.1) end.

Definition filtered (ds : chartDef * chartState) : option OperatorCR :=
  match ds.2 with chartCleaning => cd_operatorCR ds.1 | _ => None end.

Definition cleaned_up (ds : chartDef * chartState) : option Chart :=
  match ds.2, cd_operatorCR ds.1 with chartExcluded, Some _ => Some (cd_chart ds.1) | _, _ => None end.

Definition monitored (ds : chartDef * chartState) : DependencyMonitorConfig :=
  monitor_config ds.1 (match ds.2 with chartManaged => PolicyManaged | _ => PolicyUnmanaged end).

(** The result of building [defs] in the states [sts], after what [built] already holds. *)
Definition built_as (built : BuildResult) (ds : list (chartDef * chartState)) : BuildResult :=
  MkBuildResult (Charts built ++ omap deployed ds) (FilterCRs built ++ omap filtered ds)
    (CleanupCharts built ++ omap cleaned_up ds) (MonitorConfigs built ++ (monitored <$> ds)).

Lemma built_as_cons built def st ds :
  built_as (add_chart built def st) ds = built_as built ((def, st) :: ds).
Proof.
  unfold built_as, deployed, filtered, cleaned_up, monitored. destruct st; simpl;
    destruct (cd_operatorCR def); simpl; by rewrite ?app_nil_r, <-?app_assoc.
Qed.

(** The read of a definition's operator CR failed. *)
Definition cr_unreadable (err : goerr) (def : chartDef) (c : call CloudE) : Prop :=
  ∃ cr, cd_operatorCR def = Some cr ∧ cr_seen cr (λ answer, answer = Err err ∧ is_absent err = false) c.

Lemma stateFn_wp rr def tr :
  wp (stateFn rr (cd_policy def) (cd_operatorCR def)) tr (λ tr' st, ∃ new, tr' = tr ++ new ∧
    match st.2 with
    | None => state_justified rr new def st.1
    | Some err => Exists (cr_unreadable err def) new
    end).
Proof.
  unfold stateFn. destruct (String.eqb_spec (cd_policy def) PolicyUnmanaged) as [Hp|Hp]; cbn [negb].
  2:{ apply wp_ret. exists []. by rewrite app_nil_r. }
  destruct (cd_operatorCR def) as [cr|] eqn:Hcr.
  2:{ apply wp_ret. exists []. rewrite app_nil_r. split; [done|]. split; [done|]. congruence. }
  unfold operatorCROwnedBy. apply wp_bind, wp_bind, wp_call. intros answer. apply wp_ret.
  destruct answer as [lv|err]; [destruct (instance_owns rr lv) eqn:Ho|destruct (is_absent err) eqn:He];
    apply wp_ret; eexists [_]; (split; [done|]); simpl.
  - split; [done|]. exists cr. split; [done|]. by apply Exists_cons_hd.
  - split; [done|]. intros cr' [= <-]%(eq_trans (eq_sym Hcr)). by apply Exists_cons_hd.
  - split; [done|]. intros cr' [= <-]%(eq_trans (eq_sym Hcr)). by apply Exists_cons_hd.
  - apply Exists_cons_hd. by exists cr.
Qed.

Lemma build_charts_wp rr defs built tr :
  wp (build_charts rr defs built) tr (λ tr' r, ∃ new, tr' = tr ++ new ∧
    match r with
    | Ok b => ∃ states, Forall2 (state_justified rr new) defs states ∧ b = built_as built (zip defs states)
    | Err err => ∃ def, def ∈ defs ∧ Exists (cr_unreadable err def) new
    end).
Proof.
  revert built tr. induction defs as [|def defs IH]; intros built tr; cbn [build_charts].
  { apply wp_ret. exists []. rewrite app_nil_r. split; [done|]. exists []. split; [done|].
    unfold built_as. simpl. rewrite !app_nil_r. by destruct built. }
  apply wp_bind. eapply wp_mono; [|apply stateFn_wp]. intros tr1 [st [err|]] (new1 & -> & H1); cbn [fst snd] in *.
  { apply wp_ret. exists new1. split; [done|]. exists def. split; [by left|done]. }
  eapply wp_mono; [|apply IH]. intros tr2 r (new2 & -> & H2). exists (new1 ++ new2).
  split; [by rewrite app_assoc|]. destruct r as [b|err].
  - destruct H2 as (states & Hall & ->). exists (st :: states). split; [|by rewrite built_as_cons].
    constructor; [by apply (state_justified_mono _ [])|].
    eapply Forall2_impl; [done|]. intros d s Hd. rewrite <-(app_nil_r new2). by apply state_justified_mono.
  - destruct H2 as (d & Hd & H2). exists d. split; [by right|]. apply Exists_app. by right.
Qed.

(** The charts are told apart by their releases. *)
Lemma allChartDefs_releases deps path :
  NoDup ((λ def, ReleaseName (cd_chart def)) <$> allChartDefs deps path).
Proof. apply (bool_decide_unpack _). by vm_compute. Qed.

(** No chart is both deployed and cleaned up. *)
Lemma deployed_not_cleaned_up defs states ch :
  NoDup ((λ def, ReleaseName (cd_chart def)) <$> defs) →
  ch ∈ omap deployed (zip defs states) → ch ∉ omap cleaned_up (zip defs states).
Proof.
  revert states. induction defs as [|def defs IH]; intros [|st states] Hnd Hdep; try by apply elem_of_nil in Hdep.
  assert (Hin : ∀ f : chartDef * chartState → option Chart,
            (∀ ds c, f ds = Some c → c = cd_chart ds.1) → ch ∈ omap f (zip defs states) →
            ReleaseName ch ∈ (λ def, ReleaseName (cd_chart def)) <$> defs).
  { intros f Hf ([d s] & Hds & Hc)%list_elem_of_omap. apply Hf in Hc as ->.
    apply list_elem_of_fmap. exists d. split; [done|]. by apply elem_of_zip_l in Hds. }
  apply NoDup_cons in Hnd as [Hhd Htl].
  assert (∀ ds c, deployed ds = Some c → c = cd_chart ds.1) as Hd by (intros [d []] c; by intros [= <-]).
  assert (∀ ds c, cleaned_up ds = Some c → c = cd_chart ds.1) as Hc.
  { intros [d []] c; unfold cleaned_up; simpl; destruct (cd_operatorCR d); try done; by intros [= <-]. }
  cbn [zip zip_with omap list_omap] in *. intros Hcl.
  destruct (deployed (def, st)) as [c1|] eqn:H1; destruct (cleaned_up (def, st)) as [c2|] eqn:H2.
  - destruct st; simpl in *; unfold cleaned_up, deployed in *; by destruct (cd_operatorCR def).
  - apply elem_of_cons in Hdep as [->|Hdep]; [|by apply (IH states)].
    apply Hhd. apply Hd in H1. simpl in H1. subst c1. by apply (Hin cleaned_up).
  - apply elem_of_cons in Hcl as [->|Hcl]; [|by apply (IH states)].
    apply Hhd. apply Hc in H2. simpl in H2. subst c2. by apply (Hin deployed).
  - by apply (IH states).
Qed.

(** Building the charts of an instance puts every dependency in exactly one state, on the
    evidence of its policy and of its operator CR read in this very run: managed charts are
    deployed; an unmanaged one whose CR is still the instance's stays deployed with the CR
    filtered out; any other is not deployed, and cleaned up when it has an operator CR. The
    lists follow the order of the definitions, no chart is both deployed and cleaned up, and
    the only error is that a CR could not be read. *)
Theorem BuildHelmCharts_states rr deps tr :
  wp (BuildHelmCharts rr deps) tr (λ tr' r, ∃ new, tr' = tr ++ new ∧
    match r with
    | Ok b =>
        ∃ states, Forall2 (state_justified rr new) (allChartDefs deps (cr_ChartsBasePath rr)) states ∧
          let ds := zip (allChartDefs deps (cr_ChartsBasePath rr)) states in
          Charts b = omap deployed ds ∧ FilterCRs b = omap filtered ds ∧
          CleanupCharts b = omap cleaned_up ds ∧ MonitorConfigs b = (monitored <$> ds) ∧
          ∀ ch, ch ∈ Charts b → ch ∉ CleanupCharts b
    | Err err => ∃ def, def ∈ allChartDefs deps (cr_ChartsBasePath rr) ∧ Exists (cr_unreadable err def) new
    end).
Proof.
  unfold BuildHelmCharts. eapply wp_mono; [|apply build_charts_wp]. intros tr' r (new & -> & Hr).
  exists new. split; [done|]. destruct r as [b|err]; [|done]. destruct Hr as (states & Hall & ->).
  exists states. split; [done|]. unfold built_as. cbn [Charts FilterCRs CleanupCharts MonitorConfigs app].
  do 4 (split; [done|]). intros ch. apply deployed_not_cleaned_up, allChartDefs_releases.
Qed.

(** ** A whole reconcile *)

(** The calls of a program that neither renders nor deletes anything. *)
Definition insensitive (c : call CloudE) : Prop :=
  match c with
  | Call e _ => match e with CloudDelete _ | RenderCleanup _ | HelmRender _ => False | _ => True end
  end.

Definition quiet {A} (p : prog CloudE A) : Prop :=
  ∀ tr, wp p tr (λ tr' _, ∃ new, tr' = tr ++ new ∧ Forall insensitive new).

Lemma quiet_ret {A} (a : A) : quiet (Ret a).
Proof. intros tr. exists []. by rewrite app_nil_r. Qed.

Lemma quiet_call {X} (e : CloudE X) : (∀ x, insensitive (Call e x)) → quiet (trigger e).
Proof. intros He tr. apply wp_call. intros x. exists [Call e x]. split; [done|]. by constructor. Qed.

Lemma quiet_bind {A B} (p : prog CloudE A) (f : A → prog CloudE B) :
  quiet p → (∀ a, quiet (f a)) → quiet (p ≫= f).
Proof.
  intros Hp Hf tr. apply wp_bind. eapply wp_mono; [|apply Hp]. intros tr1 a (new1 & -> & H1).
  eapply wp_mono; [|apply Hf]. intros tr2 b (new2 & -> & H2). exists (new1 ++ new2).
  split; [by rewrite app_assoc|]. by apply Forall_app.
Qed.

Lemma quiet_foldl {S B} (f : S → B → prog CloudE S) l s : (∀ s b, quiet (f s b)) → quiet (prog_foldl f s l).
Proof.
  intros Hf. revert s. induction l as [|b l IH]; intros s; [apply quiet_ret|]. by apply quiet_bind.
Qed.

Lemma quiet_interp {E A} (h : ∀ X, E X → prog CloudE X) (p : prog E A) :
  (∀ X (e : E X), quiet (h X e)) → quiet (interp h p).
Proof. intros Hh. induction p as [a|X e k IH]; simpl; [apply quiet_ret|]. by apply quiet_bind. Qed.

Create HintDb quiet.
#[local] Hint Resolve quiet_ret : quiet.

(** Binds, calls and cases of a quiet program. *)
Ltac quiet_tac :=
  repeat (cbv beta zeta; first
    [ apply quiet_ret
    | solve [auto with quiet]
    | apply quiet_call; intros ?; exact I
    | apply quiet_bind; [|intros ?]
    | match goal with |- quiet (match ?x with _ => _ end) => destruct x end ]).

Lemma annotation_quiet kind name : quiet (ensureSailOperatorIgnoreAnnotation kind name).
Proof. unfold ensureSailOperatorIgnoreAnnotation. quiet_tac. Qed.
#[local] Hint Resolve annotation_quiet : quiet.

Lemma run_hook_quiet hook resources : quiet (run_hook hook resources).
Proof. destruct hook; unfold run_hook, annotate_webhooks; quiet_tac. Qed.
#[local] Hint Resolve run_hook_quiet : quiet.

Lemma run_chart_hooks_quiet release hooks resources : quiet (run_chart_hooks release hooks resources).
Proof.
  revert resources. induction hooks as [|[hook|] hooks IH]; intros resources; cbn [run_chart_hooks]; quiet_tac.
Qed.
#[local] Hint Resolve run_chart_hooks_quiet : quiet.

Lemma runHooks_quiet getHooks charts resources : quiet (runHooks getHooks charts resources).
Proof. revert resources. induction charts as [|chart charts IH]; intros resources; cbn [runHooks]; quiet_tac. Qed.

Lemma build_charts_quiet rr defs built : quiet (build_charts rr defs built).
Proof.
  revert built. induction defs as [|def defs IH]; intros built; cbn [build_charts]; [quiet_tac|].
  apply quiet_bind; [unfold stateFn, operatorCROwnedBy|intros ?]; quiet_tac.
Qed.

Lemma check_operator_cr_quiet `{Nested} cfg : quiet (check_operator_cr cfg).
Proof.
  unfold check_operator_cr. apply quiet_bind; [quiet_tac|]. intros cond.
  destruct (dm_OperatorCR cfg) as [cr|]; [|quiet_tac]. case_match; [|quiet_tac].
  apply quiet_bind; [apply quiet_interp; intros X e; quiet_tac|]. intros ?; quiet_tac.
Qed.
#[local] Hint Resolve check_operator_cr_quiet : quiet.

Lemma monitor_dependency_quiet `{Nested} resourceID cfg : quiet (monitor_dependency resourceID cfg).
Proof. unfold monitor_dependency. quiet_tac. Qed.
#[local] Hint Resolve monitor_dependency_quiet : quiet.

Lemma monitorDependencies_quiet `{Nested} resourceID configs : quiet (monitorDependencies resourceID configs).
Proof. induction configs as [|cfg configs IH]; cbn [monitorDependencies]; quiet_tac. Qed.

Lemma summarize_quiet configs : quiet (summarizeDependencyStatus configs).
Proof. unfold summarizeDependencyStatus. apply quiet_bind; [apply quiet_foldl; intros; quiet_tac|intros ?; quiet_tac]. Qed.

Lemma each_after_quiet (P : list (call CloudE) → call CloudE → Prop) tr new :
  (∀ pre c, insensitive c → P pre c) → each_after P tr → Forall insensitive new → each_after P (tr ++ new).
Proof.
  intros HP Htr Hnew. induction new as [|c new IH] using rev_ind; [by rewrite app_nil_r|].
  apply Forall_app in Hnew as [Hnew Hc%Forall_inv]. rewrite app_assoc.
  apply each_after_snoc; [by apply IH|]. exact (HP _ _ Hc).
Qed.

(** What a quiet program does to an invariant of the calls. *)
Lemma wp_quiet {A} (p : prog CloudE A) (P : list (call CloudE) → call CloudE → Prop) tr :
  (∀ pre c, insensitive c → P pre c) → quiet p → each_after P tr →
  wp p tr (λ tr' _, each_after P tr' ∧ ∃ new, tr' = tr ++ new ∧ Forall insensitive new).
Proof.
  intros HP Hp Htr. eapply wp_mono; [|apply Hp]. intros tr' a (new & -> & Hnew). split; [|by exists new].
  by apply each_after_quiet.
Qed.

(** The chart of an operator that is not managed and whose CR was seen gone, or not the
    instance's. *)
Definition chart_released (rr : CloudRequest) (deps : Dependencies) (pre : list (call CloudE)) (ch : Chart)
    : Prop :=
  ∃ def cr, def ∈ allChartDefs deps (cr_ChartsBasePath rr) ∧ cd_chart def = ch ∧
    cd_policy def = PolicyUnmanaged ∧ cd_operatorCR def = Some cr ∧
    Exists (cr_seen cr (not_instance rr)) pre.

(** The chart of a managed dependency, or of one whose CR was seen to be the instance's. *)
Definition chart_kept (rr : CloudRequest) (deps : Dependencies) (pre : list (call CloudE)) (ch : Chart)
    : Prop :=
  ∃ def, def ∈ allChartDefs deps (cr_ChartsBasePath rr) ∧ cd_chart def = ch ∧
    (cd_policy def ≠ PolicyUnmanaged ∨
     ∃ cr, cd_operatorCR def = Some cr ∧ Exists (cr_seen cr (is_instance rr)) pre).

(** What a reconcile may do after the calls [pre]. *)
Definition reconcile_call (rr : CloudRequest) (deps : Dependencies) (pre : list (call CloudE))
    (c : call CloudE) : Prop :=
  match c with
  | Call e _ =>
      match e with
      | HelmRender charts => ∀ ch, ch ∈ charts → chart_kept rr deps pre ch
      | RenderCleanup charts => ∀ ch, ch ∈ charts → chart_released rr deps pre ch
      | CloudDelete lv => ∃ charts resources obj,
          rendered charts resources ∈ pre ∧ obj ∈ resources ∧ justified rr obj lv pre ∧
          (isAccessControlKind (gvk_Kind (u_gvk obj)) = true → workloads_gone rr resources pre)
      | _ => True
      end
  end.

Lemma reconcile_call_insensitive rr deps pre c : insensitive c → reconcile_call rr deps pre c.
Proof. destruct c as [X [] x]; simpl; done. Qed.

Lemma cr_seen_mono (P : call CloudE → Prop) a b : Exists P a → Exists P (a ++ b).
Proof. intros H. apply Exists_app. by left. Qed.

Lemma released_charts rr deps new states ch :
  Forall2 (state_justified rr new) (allChartDefs deps (cr_ChartsBasePath rr)) states →
  ch ∈ omap cleaned_up (zip (allChartDefs deps (cr_ChartsBasePath rr)) states) → chart_released rr deps new ch.
Proof.
  intros Hall ([def st] & Hin & Hch)%list_elem_of_omap.
  apply list_elem_of_lookup in Hin as [i Hi]. apply lookup_zip_Some in Hi as [Hd Hs].
  pose proof (Forall2_lookup_lr _ _ _ _ _ _ Hall Hd Hs) as Hj.
  unfold cleaned_up in Hch. simpl in *. destruct st; simpl in *; try done.
  destruct (cd_operatorCR def) as [cr|] eqn:Hcr; [|done]. injection Hch as <-. destruct Hj as [Hp Hj].
  exists def, cr. split; [by eapply list_elem_of_lookup_2|]. by auto.
Qed.

Lemma kept_charts rr deps new states ch :
  Forall2 (state_justified rr new) (allChartDefs deps (cr_ChartsBasePath rr)) states →
  ch ∈ omap deployed (zip (allChartDefs deps (cr_ChartsBasePath rr)) states) → chart_kept rr deps new ch.
Proof.
  intros Hall ([def st] & Hin & Hch)%list_elem_of_omap.
  apply list_elem_of_lookup in Hin as [i Hi]. apply lookup_zip_Some in Hi as [Hd Hs].
  pose proof (Forall2_lookup_lr _ _ _ _ _ _ Hall Hd Hs) as Hj.
  exists def. split; [by eapply list_elem_of_lookup_2|].
  destruct st; simpl in *; try done; injection Hch as <-; (split; [done|]); [by left|right; apply Hj].
Qed.

Section reconcile.
Context `{Nested} (multierror_error : list goerr → goerr) (rr : CloudRequest).

(** The cleanup of a reconcile; monitoring after it neither renders nor deletes. *)
Lemma cleanup_and_monitor_wp deps resourceID deferred built tr :
  each_after (reconcile_call rr deps) tr →
  (∀ ch, ch ∈ CleanupCharts built → chart_released rr deps tr ch) →
  wp (cleanup_and_monitor multierror_error rr resourceID deferred built) tr
    (λ tr' _, each_after (reconcile_call rr deps) tr').
Proof.
  intros Htr Hrel. pose proof (reconcile_call_insensitive rr deps) as Hins. apply wp_bind.
  eapply wp_mono; [|apply (cleanupExcludedCharts_wp _ _ (reconcile_call rr deps)); [done|done|intros ?; exact Hrel|]].
  2:{ intros new resources obj lv answer Hr Ho Hj Hac. exists (CleanupCharts built), resources, obj.
      split; [apply elem_of_app; by right|]. split; [done|]. split; [done|].
      intros Hk o Hin Hw Hu. apply Exists_app. right. by apply (Hac Hk). }
  intros tr1 cleaned [Htr1 _]. destruct cleaned.2; [by apply wp_ret|].
  apply wp_bind. eapply wp_mono; [|by apply (wp_quiet _ _ _ Hins (monitorDependencies_quiet _ _))].
  intros tr2 monErr [Htr2 _]. destruct monErr; [by apply wp_ret|].
  apply wp_bind. eapply wp_mono; [|by apply (wp_quiet _ _ _ Hins (summarize_quiet _))].
  intros tr3 _ [Htr3 _]. by apply wp_ret.
Qed.

(** C7: whatever the cluster answers, a reconcile of the cloud manager deploys only charts of
    managed dependencies and of unmanaged ones whose operator CR it has just seen to be its
    own; it renders for cleanup only charts of unmanaged dependencies whose operator CR it has
    just seen gone or not its own; and it deletes only a removable resource of such a rendering,
    seen live and owned by the instance immediately before, access-control resources only after
    every workload of the rendering was seen gone or not its own. *)
Theorem reconcileAction_deletes_safely resourceID deferred :
  wp (reconcileAction multierror_error rr resourceID deferred) [] (λ tr _,
    tr = [] ∨ ∃ deps, cr_Dependencies rr = Some deps ∧ each_after (reconcile_call rr deps) tr).
Proof.
  unfold reconcileAction, buildCharts. destruct (String.eqb (cr_ChartsBasePath rr) ""); [by left|].
  destruct (cr_Dependencies rr) as [deps|] eqn:Hdeps; [|by left].
  pose proof (reconcile_call_insensitive rr deps) as Hins.
  eapply (wp_mono _ _ (λ tr' _, each_after (reconcile_call rr deps) tr')); [intros tr' _ H'; right; eauto|].
  unfold BuildHelmCharts. apply wp_bind.
  eapply wp_mono; [|apply wp_and; [apply build_charts_wp|
    apply (wp_quiet _ _ _ Hins (build_charts_quiet _ _ _)), each_after_nil]].
  intros tr1 r [(new1 & -> & Hr) [Htr1 _]]. rewrite app_nil_l in *. destruct r as [built|err]; [|by apply wp_ret].
  destruct Hr as (states & Hall & ->).
  apply wp_bind, wp_call. intros answer.
  assert (each_after (reconcile_call rr deps) (new1 ++ [Call (HelmRender (Charts (built_as (MkBuildResult [] [] [] [])
    (zip (allChartDefs deps (cr_ChartsBasePath rr)) states)))) answer])) as Htr2.
  { apply each_after_snoc; [done|]. intros ch Hch. eapply kept_charts; [apply Hall|apply Hch]. }
  destruct answer as [resources|err]; [|by apply wp_ret].
  apply wp_bind. eapply wp_mono; [|by apply (wp_quiet _ _ _ Hins (runHooks_quiet _ _ _))].
  intros tr2 [pre [err|]] [Htr3 (new2 & -> & _)]; [by apply wp_ret|].
  apply wp_bind, wp_call. intros deployErr.
  match type of Htr3 with each_after _ ?l =>
    assert (each_after (reconcile_call rr deps) (l ++ [Call (DeployResources pre) deployErr])) as Htr4
      by (apply each_after_snoc; [done|by apply Hins]) end.
  destruct deployErr as [err|]; [by apply wp_ret|].
  apply wp_bind. eapply wp_mono; [|by apply (wp_quiet _ _ _ Hins (runHooks_quiet _ _ _))].
  intros tr3 [post [err|]] [Htr5 (new3 & -> & _)]; [by apply wp_ret|].
  apply cleanup_and_monitor_wp; [done|]. intros ch Hch.
  destruct (released_charts rr deps new1 states ch Hall Hch) as (def & cr & ? & ? & ? & ? & Hseen).
  exists def, cr. do 4 (split; [done|]). rewrite <-!app_assoc. by apply cr_seen_mono.
Qed.

(** Cleaning up excluded charts reports nothing only when there is nothing to clean, when
    the instance's generation is fully deployed and no cleanup is pending, or when every
    removable rendered resource was seen gone or foreign or had its deletion accepted; it asks
    for a requeue, and marks the instance as pending, only when it saw a workload that is still
    there; any other error is a failed call. The marks of other instances never change, and
    while the instance is marked, garbage collection keeps its access-control resources. *)
Theorem cleanupExcludedCharts_outcome uidSuffix genSuffix charts deferred tr :
  wp (cleanupExcludedCharts multierror_error rr charts deferred) tr (λ tr' r,
    ∃ new, tr' = tr ++ new ∧ cleanup_outcome rr charts deferred new r ∧
      (∀ d protectedObjects obj annotations, r.2 = Some (RequeueAfterError d) →
         isAccessControlKind (gvk_Kind (u_gvk obj)) = true →
         newGCPredicate rr uidSuffix genSuffix protectedObjects r.1 obj annotations = false)).
Proof.
  eapply wp_mono; [|apply (cleanupExcludedCharts_wp _ _ (λ _ _, True)); done].
  intros tr' r [_ (new & -> & Hout)]. exists new. split; [done|]. split; [done|].
  intros d ps obj ann Hr Hac. destruct Hout as [_ Hout]. rewrite Hr in Hout. destruct Hout as (_ & Hin & _).
  unfold newGCPredicate. case_bool_decide; [done|]. destruct (isStaleOrOrphaned _ _ _ _); [|done].
  cbn [negb]. rewrite Hac. unfold isDeferred. by rewrite bool_decide_eq_true_2.
Qed.

End reconcile.

(** ** Garbage collection by generation *)

Lemma pretty_N_char_digit d : (d < 10)%N → Ascii.nat_of_ascii (pretty_N_char d) = (48 + N.to_nat d)%nat.
Proof.
  intros Hd. assert (d ∈ [0; 1; 2; 3; 4; 5; 6; 7; 8; 9]%N) as Hin.
  { repeat rewrite elem_of_cons. lia. }
  repeat (apply elem_of_cons in Hin as [->|Hin]; [by vm_compute|]). by apply elem_of_nil in Hin.
Qed.

Lemma parse_digit d s acc :
  (d < 10)%N → parse_digits (String (pretty_N_char d) s) acc = parse_digits s (acc * 10 + Z.of_N d).
Proof.
  intros Hd. cbn [parse_digits]. rewrite pretty_N_char_digit by done.
  rewrite (proj2 (Nat.leb_le _ _)) by lia. rewrite (proj2 (Nat.leb_le _ _)) by lia. cbn [andb].
  f_equal. lia.
Qed.

Lemma parse_pretty_go x s : parse_digits (pretty_N_go x s) 0 = parse_digits s (Z.of_N x).
Proof.
  revert s. induction (N.lt_wf_0 x) as [x _ IH]. intros s. destruct (decide (x = 0)%N) as [->|Hx].
  - by rewrite pretty_N_go_0.
  - rewrite pretty_N_go_step by lia. rewrite IH by (apply N.div_lt; lia).
    rewrite parse_digit by (apply N.mod_lt; lia). f_equal.
    pose proof (N.div_mod x 10 ltac:(lia)). lia.
Qed.

Lemma pretty_go_head x s : (0 < x)%N → ∃ d t, (d < 10)%N ∧ pretty_N_go x s = String (pretty_N_char d) t.
Proof.
  revert s. induction (N.lt_wf_0 x) as [x _ IH]. intros s Hx. rewrite pretty_N_go_step by done.
  destruct (decide (x / 10 = 0)%N) as [H0|H0].
  - rewrite H0, pretty_N_go_0. eexists _, _. split; [|done]. apply N.mod_lt; lia.
  - apply IH; [apply N.div_lt; lia|]. by apply N.neq_0_lt_0.
Qed.

Lemma ParseInt64_positive p :
  (Z.pos p < 2 ^ 63)%Z → ParseInt64 (pretty_N_go (N.pos p) "") = Some (Z.pos p).
Proof.
  intros Hp. destruct (pretty_go_head (N.pos p) "" ltac:(lia)) as (d & t & Hd & Heq).
  pose proof (parse_pretty_go (N.pos p) "") as Hparse. rewrite Heq in *. unfold ParseInt64.
  rewrite pretty_N_char_digit by done. rewrite 2!(proj2 (Nat.eqb_neq _ _)) by lia.
  cbn [String.eqb]. rewrite Hparse. cbn [parse_digits mbind option_bind Z.of_N].
  by rewrite !(proj2 (Z.leb_le _ _)), (proj2 (Z.ltb_lt _ _)) by lia.
Qed.

(** The sign that is printed. *)
Definition minus : Ascii.ascii := Ascii.Ascii true false true true false true false false.

(** Decimal printing and parsing of a 64-bit integer. *)
Lemma ParseInt64_itoa n : (- 2 ^ 63 <= n < 2 ^ 63)%Z → ParseInt64 (itoa n) = Some n.
Proof.
  intros Hn. destruct n as [|p|p]; [done|apply ParseInt64_positive; lia|].
  pose proof (parse_pretty_go (N.pos p) "") as Hparse.
  destruct (pretty_go_head (N.pos p) "" ltac:(lia)) as (d & t & Hd & Heq).
  change (itoa (Z.neg p)) with (String minus (pretty_N_go (N.pos p) "")). unfold ParseInt64.
  change ((Ascii.nat_of_ascii minus =? 45)%nat) with true. cbv iota. rewrite Heq in *. cbn [String.eqb].
  rewrite Hparse. cbn [parse_digits mbind option_bind Z.of_N Z.opp].
  by rewrite !(proj2 (Z.leb_le _ _)), (proj2 (Z.ltb_lt _ _)) by lia.
Qed.

(** Garbage collection reads back the generation that deployment printed: of the objects
    stamped with an instance and a generation (any 64-bit integer), it deletes exactly those
    of another instance or another generation that are not protected and are not
    access-control resources of an instance whose workloads are still going away. *)
Theorem newGCPredicate_generation rr uidSuffix genSuffix protectedObjects deferred obj annotations uid generation
    (Huid : annotations !! (ODHInfrastructurePrefix +:+ uidSuffix) = Some uid)
    (Hgen : annotations !! (ODHInfrastructurePrefix +:+ genSuffix) = Some (itoa generation))
    (Hne : uid ≠ "") (Hrange : (- 2 ^ 63 <= generation < 2 ^ 63)%Z) :
  newGCPredicate rr uidSuffix genSuffix protectedObjects deferred obj annotations = true ↔
    MkProtected (gvk_Group (u_gvk obj)) (gvk_Kind (u_gvk obj)) (u_name obj) (u_namespace obj) ∉ protectedObjects ∧
    (uid ≠ cr_UID rr ∨ generation ≠ cr_Generation rr) ∧
    ¬ (isAccessControlKind (gvk_Kind (u_gvk obj)) = true ∧ cr_UID rr ∈ deferred).
Proof.
  assert (itoa generation ≠ "") as Hprinted.
  { intros He. pose proof (ParseInt64_itoa _ Hrange) as Hp. by rewrite He in Hp. }
  assert (isStaleOrOrphaned rr uidSuffix genSuffix annotations =
            negb (String.eqb uid (cr_UID rr) && (cr_Generation rr =? generation)%Z)) as Hstale.
  { unfold isStaleOrOrphaned, get_annotation. rewrite Huid, Hgen. cbn [default from_option id].
    cbv beta zeta. unfold id. rewrite 2!(proj2 (String.eqb_neq uid "")) by done.
    rewrite 2!(proj2 (String.eqb_neq (itoa generation) "")) by done. cbn [orb].
    destruct (String.eqb uid (cr_UID rr)); cbn [negb andb]; [|done]. by rewrite (ParseInt64_itoa _ Hrange). }
  assert (negb (String.eqb uid (cr_UID rr) && (cr_Generation rr =? generation)%Z) = true ↔
            uid ≠ cr_UID rr ∨ generation ≠ cr_Generation rr) as Hs.
  { destruct (String.eqb_spec uid (cr_UID rr)), (Z.eqb_spec (cr_Generation rr) generation); cbn; intuition congruence. }
  unfold newGCPredicate. rewrite Hstale. rewrite <-Hs. unfold isDeferred.
  case_bool_decide as Hp; [split; [done|intros [Hn _]; by destruct Hn]|].
  destruct (negb (String.eqb uid (cr_UID rr) && _)); cbn [negb]; [|by split; [|intros (_ & ? & _)]].
  destruct (isAccessControlKind (gvk_Kind (u_gvk obj))); cbn [andb]; [case_bool_decide|]; intuition done.
Qed.

(** A Deployment of the previous generation. *)
Definition sample_request : CloudRequest :=
  MkCloudRequest "u1" (MkGVK "infrastructure.opendatahub.io" "v1alpha1" "AzureKubernetesEngine") 7 true "/charts"
    (Some (MkDependencies PolicyManaged PolicyUnmanaged "" PolicyManaged "" "" "" "")) "T".

Definition sample_deployment : Unstructured :=
  MkUnstructured (MkGVK "apps" "v1" "Deployment") "lws" "openshift-lws-operator" 1 false [].

Definition sample_annotations : gmap string string :=
  <["infrastructure.opendatahub.io/uid" := "u1"]> (<["infrastructure.opendatahub.io/generation" := "6"]> ∅).

Lemma newGCPredicate_generation_witness :
  newGCPredicate sample_request "/uid" "/generation" [] {["u1"]} sample_deployment sample_annotations = true ↔
    MkProtected "apps" "Deployment" "lws" "openshift-lws-operator" ∉ ([] : list ProtectedObject) ∧
    ("u1" ≠ cr_UID sample_request ∨ 6%Z ≠ cr_Generation sample_request) ∧
    ¬ (isAccessControlKind "Deployment" = true ∧ cr_UID sample_request ∈ ({["u1"]} : gset string)).
Proof.
  apply (newGCPredicate_generation sample_request "/uid" "/generation" [] {["u1"]} sample_deployment sample_annotations "u1" 6);
    [vm_compute; reflexivity|vm_compute; reflexivity|done|lia].
Defined.

(** ** The finalizer and the filter of operator CRs *)

Definition target_read (t : Target) : (result Live → Prop) → call CloudE → Prop :=
  read_as (tg_GVK t) (tg_Namespace t) (tg_Name t).

(** A deletion by the finalizer: of an owned target that was just read and is not yet
    terminating. *)
Definition finalizer_delete (rr : CloudRequest) (targets : list Target) (pre : list (call CloudE))
    (c : call CloudE) : Prop :=
  ∀ lv, deletes c = Some lv → owned_by (cr_UID rr) lv = true ∧ lv_deleting lv = false ∧
    ∃ t, t ∈ targets ∧ last pre = Some (Call (CloudGet (tg_GVK t) (tg_Namespace t) (tg_Name t)) (Ok lv)).

Lemma finalize_target_wp rr targets t tr :
  t ∈ targets → each_after (finalizer_delete rr targets) tr →
  wp (finalize_target rr t) tr (λ tr' r, each_after (finalizer_delete rr targets) tr' ∧ ∃ new, tr' = tr ++ new ∧
    match r with
    | None => Exists (target_read t (not_ours (cr_UID rr))) new
    | Some _ => Exists (target_read t (ours (cr_UID rr))) new ∨ Exists call_failed new
    end).
Proof.
  intros Ht Htr. apply wp_bind, wp_call. intros answer.
  assert (each_after (finalizer_delete rr targets)
            (tr ++ [Call (CloudGet (tg_GVK t) (tg_Namespace t) (tg_Name t)) answer])) as Htr1
    by by apply each_after_snoc.
  destruct answer as [lv|err].
  - unfold DeleteAndWait. destruct (owned_by (cr_UID rr) lv) eqn:Ho; cbn [negb].
    + destruct (lv_deleting lv) eqn:Hd.
      { apply wp_ret. split; [done|]. eexists. split; [done|]. left. by apply Exists_cons_hd. }
      apply wp_bind, wp_call. intros err. apply wp_ret. split.
      * apply each_after_snoc; [done|]. intros lv' [= <-]. split; [done|]. split; [done|]. exists t.
        split; [done|]. by rewrite last_snoc.
      * eexists. rewrite <-app_assoc. split; [done|].
        destruct err as [err|]; [destruct (err_is TagNotFound err)|]; left; by apply Exists_cons_hd.
    + apply wp_ret. split; [done|]. eexists. split; [done|]. by apply Exists_cons_hd.
  - destruct (is_absent err) eqn:He; apply wp_ret; (split; [done|]); eexists; (split; [done|]);
      [|right]; by apply Exists_cons_hd.
Qed.

(** The finalizer of a cloud manager instance lets it go only after every cleanup target was
    seen gone or not its own; otherwise a target was seen still there or could not be read. It
    deletes only targets that it owns and that are not terminating, right after reading them. *)
Theorem finalizer_waits rr targets :
  wp (finalizer rr targets) [] (λ tr r, each_after (finalizer_delete rr targets) tr ∧
    match r with
    | None => ∀ t, t ∈ targets → Exists (target_read t (not_ours (cr_UID rr))) tr
    | Some _ => ∃ t, t ∈ targets ∧
        (Exists (target_read t (ours (cr_UID rr))) tr ∨ Exists call_failed tr)
    end).
Proof.
  assert (∀ rest tr, (∀ t, t ∈ rest → t ∈ targets) → each_after (finalizer_delete rr targets) tr →
    wp (finalizer rr rest) tr (λ tr' r, each_after (finalizer_delete rr targets) tr' ∧ ∃ new, tr' = tr ++ new ∧
      match r with
      | None => ∀ t, t ∈ rest → Exists (target_read t (not_ours (cr_UID rr))) new
      | Some _ => ∃ t, t ∈ targets ∧ (Exists (target_read t (ours (cr_UID rr))) new ∨ Exists call_failed new)
      end)) as Hgen.
  { induction rest as [|t rest IH]; intros tr Hin Htr; cbn [finalizer].
    { apply wp_ret. split; [done|]. exists []. rewrite app_nil_r. split; [done|]. by intros t ?%elem_of_nil. }
    apply wp_bind. eapply wp_mono; [|apply (finalize_target_wp rr targets); [apply Hin; by left|done]].
    intros tr1 [err|] [Htr1 (new1 & -> & H1)].
    { apply wp_ret. split; [done|]. exists new1. split; [done|]. exists t. split; [apply Hin; by left|done]. }
    eapply wp_mono; [|apply IH; [intros t' ?; apply Hin; by right|done]].
    intros tr2 r [Htr2 (new2 & -> & H2)]. split; [done|]. exists (new1 ++ new2).
    split; [by rewrite app_assoc|]. destruct r as [err|].
    - destruct H2 as (t' & Ht' & [H2|H2]); exists t'; (split; [done|]); [left|right]; apply Exists_app; by right.
    - intros t' [->|Ht']%elem_of_cons; apply Exists_app; [by left|right; by apply H2]. }
  eapply wp_mono; [|apply (Hgen targets []); [done|apply each_after_nil]].
  intros tr r [Htr (new & -> & H)]. by rewrite app_nil_l in *.
Qed.

(** The two lookup tables of the filter decide what a scan of the CRs decides: a CR without a
    namespace matches its object in any namespace. *)
Lemma filterCRs_spec resources crs res :
  res ∈ filterCRs resources crs ↔ res ∈ resources ∧
    ∀ cr, cr ∈ crs → ¬ (ocr_GVK cr = u_gvk res ∧ ocr_Name cr = u_name res ∧
                        (ocr_Namespace cr = "" ∨ ocr_Namespace cr = u_namespace res)).
Proof.
  unfold filterCRs. case_bool_decide as Hnil.
  { subst. split; [intros ?; split; [done|]; by intros ? ?%elem_of_nil|by intros [? _]]. }
  rewrite list_elem_of_filter, !bool_decide_eq_false, !list_elem_of_filter. split.
  - intros [[He Hc] Hin]. split; [done|]. intros [g n ns] Hcr (Hg & Hn & Hns). simpl in *. subst g n.
    destruct (decide (ns = "")) as [->|Hne]; [apply Hc; by split|].
    destruct Hns as [?|Hns]; [done|]. apply He. subst ns. by split.
  - intros [Hin Hall]. split; [|done]. split; intros [Hns Hcr].
    + apply (Hall _ Hcr). simpl. auto.
    + apply (Hall _ Hcr). simpl. auto.
Qed.
