(* ===== verification/CertManager.v ===== *)
(** * CertManager: the trust chain that the cloud manager bootstraps

    [pkg/controller/actions/dependency/certmanager/bootstrap.go]: the resources of the chain,
    the action that adds them, the preconditions on cert-manager and what is watched for them.
    The configuration without the operator's certificate is [BootstrapConfig] of
    [PlatformConfig]; a pointer to an operator configuration is an option. Looking for a CRD
    and adding resources are events. *)

From S2P Require Import Prelude Effects Conditions Dag Provision Unstructured Conversion Admission Workload Monitor Precondition Namespaces ModuleBase ModuleRegistry ModuleActions SharedPlatform PlatformConfig CloudManager.

(** ** Constants *)

Definition caRootDuration : string := "876000h".

Definition CertManagerCertificateCRDName : string := "certificates.cert-manager.io".
Definition CertManagerIssuerCRDName : string := "issuers.cert-manager.io".
Definition CertManagerClusterIssuerCRDName : string := "clusterissuers.cert-manager.io".
Definition CertManagerOperatorCRDName : string := "certmanagers.operator.openshift.io".

Definition CertManagerV1Alpha1 : GroupVersionKind := MkGVK "operator.openshift.io" "v1alpha1" "CertManager".
Definition CertManagerCertificate : GroupVersionKind := MkGVK "cert-manager.io" "v1" "Certificate".
Definition CertManagerIssuer : GroupVersionKind := MkGVK "cert-manager.io" "v1" "Issuer".
Definition CertManagerClusterIssuer : GroupVersionKind := MkGVK "cert-manager.io" "v1" "ClusterIssuer".

Definition requiredAPIList : list RequiredAPI :=
  [MkAPI CertManagerCertificateCRDName CertManagerCertificate;
   MkAPI CertManagerIssuerCRDName CertManagerIssuer;
   MkAPI CertManagerClusterIssuerCRDName CertManagerClusterIssuer].

Definition certManagerOperatorCRName : string := "cluster".

Definition certManagerControllerAvailableCondition : string := "cert-manager-controller-deploymentAvailable".
Definition certManagerCainjectorAvailableCondition : string := "cert-manager-cainjector-deploymentAvailable".
Definition certManagerWebhookAvailableCondition : string := "cert-manager-webhook-deploymentAvailable".
Definition certManagerControllerDegradedCondition : string := "cert-manager-controller-deploymentDegraded".
Definition certManagerCainjectorDegradedCondition : string := "cert-manager-cainjector-deploymentDegraded".
Definition certManagerWebhookDegradedCondition : string := "cert-manager-webhook-deploymentDegraded".

Definition certManagerRequiredConditions : list RequiredCondition :=
  [MkRequired certManagerControllerAvailableCondition ConditionTrue;
   MkRequired certManagerCainjectorAvailableCondition ConditionTrue;
   MkRequired certManagerWebhookAvailableCondition ConditionTrue;
   MkRequired certManagerControllerDegradedCondition ConditionFalse;
   MkRequired certManagerCainjectorDegradedCondition ConditionFalse;
   MkRequired certManagerWebhookDegradedCondition ConditionFalse].

Definition certManagerConditionFilter (conditionType conditionStatus : string) : bool :=
  if negb (has_suffix conditionType "Degraded") || negb (String.eqb conditionStatus ConditionTrue) then false
  else if bool_decide (conditionType ∈ [certManagerControllerDegradedCondition;
         certManagerCainjectorDegradedCondition; certManagerWebhookDegradedCondition]) then false
  else true.

Definition EnvOperatorWebhookCertSecretName : string := "RHAI_WEBHOOK_CERT_SECRET_NAME".
Definition EnvOperatorWebhookServiceName : string := "RHAI_WEBHOOK_SERVICE_NAME".
Definition EnvOperatorWebhookCertName : string := "RHAI_WEBHOOK_CERT_NAME".

(** ** Configuration *)

Record OperatorCertConfig := MkOperatorCert {
  oc_Namespace : string;
  WebhookCertName : string;
  WebhookCertSecretName : string;
  WebhookServiceName : string;
}.

(** [BootstrapConfig] with its last field. *)
Record ChainConfig := MkChain { chain_Config : BootstrapConfig; chain_OperatorCert : option OperatorCertConfig }.

Definition BootstrapOperatorCertConfig (Getenv : string → string) (namespace : string) : OperatorCertConfig :=
  let prefix := "opendatahub" in
  MkOperatorCert namespace
    (GetOrDefault Getenv EnvOperatorWebhookCertName (prefix +:+ "-operator-webhook-cert"))
    (GetOrDefault Getenv EnvOperatorWebhookCertSecretName (prefix +:+ "-operator-controller-webhook-cert"))
    (GetOrDefault Getenv EnvOperatorWebhookServiceName (prefix +:+ "-operator-webhook-service")).

Definition WithOperatorCert (Getenv : string → string) (namespace : string) (c : ChainConfig) : ChainConfig :=
  MkChain (chain_Config c) (Some (BootstrapOperatorCertConfig Getenv namespace)).

(** [DefaultBootstrapConfig] with options. *)
Definition bootstrap_config (Getenv : string → string) (opts : list (ChainConfig → ChainConfig)) : ChainConfig :=
  foldl (λ c opt, opt c) (MkChain (DefaultBootstrapConfig Getenv) None) opts.

(** ** Resources *)

Inductive CertE : Type → Type :=
| HasCRD (g : GroupVersionKind) : CertE (result bool)
| AddResources (objs : list Unstructured) : CertE (option goerr).

Section chain.
Context `{NestedMaps}.

(** A new object with [spec] set. *)
Definition new_with_spec (g : GroupVersionKind) (name namespace : string) (spec : value_map) (what : string)
    : result Unstructured :=
  match SetNestedMap [] spec ["spec"] with
  | Err err => Err (wrapf ("failed to set spec on " +:+ what) err)
  | Ok object => Ok (MkUnstructured g name namespace 0 false object)
  end.

Definition issuer_ref (name : string) : value :=
  VMap [("name", VString name); ("kind", VString (gvk_Kind CertManagerClusterIssuer));
        ("group", VString (gvk_Group CertManagerClusterIssuer))].

Definition createSelfSignedIssuer (config : ChainConfig) : result Unstructured :=
  new_with_spec CertManagerClusterIssuer (IssuerName (chain_Config config)) ""
    [("selfSigned", VMap [])] "self-signed ClusterIssuer".

Definition createRootCACertificate (config : ChainConfig) : result Unstructured :=
  let c := chain_Config config in
  new_with_spec CertManagerCertificate (CertName c) (CertManagerNamespace c)
    [("isCA", VBool true); ("commonName", VString (CertName c)); ("secretName", VString (CertName c));
     ("duration", VString caRootDuration); ("usages", VSlice [VString "cert sign"]);
     ("issuerRef", issuer_ref (IssuerName c))] "root CA Certificate".

Definition createWebhookCertificate (config : ChainConfig) (oc : OperatorCertConfig) : result Unstructured :=
  new_with_spec CertManagerCertificate (WebhookCertName oc) (oc_Namespace oc)
    [("secretName", VString (WebhookCertSecretName oc));
     ("dnsNames", VSlice
        [VString (WebhookServiceName oc +:+ "." +:+ oc_Namespace oc +:+ ".svc");
         VString (WebhookServiceName oc +:+ "." +:+ oc_Namespace oc +:+ ".svc.cluster.local")]);
     ("issuerRef", issuer_ref (CAIssuerName (chain_Config config)))] "webhook Certificate".

Definition createCABackedIssuer (config : ChainConfig) : result Unstructured :=
  new_with_spec CertManagerClusterIssuer (CAIssuerName (chain_Config config)) ""
    [("ca", VMap [("secretName", VString (CertName (chain_Config config)))])] "CA-backed ClusterIssuer".

(** The resources of the chain, or the first error. *)
Definition chain_resources (config : ChainConfig) : result (list Unstructured) :=
  issuer ← createSelfSignedIssuer config;
  caCert ← createRootCACertificate config;
  caIssuer ← createCABackedIssuer config;
  match chain_OperatorCert config with
  | None => Ok [issuer; caCert; caIssuer]
  | Some oc => webhookCert ← createWebhookCertificate config oc; Ok [issuer; caCert; caIssuer; webhookCert]
  end.

Definition bootstrap_action (config : ChainConfig) : prog CertE (option goerr) :=
  hasClusterIssuer ← trigger (HasCRD CertManagerClusterIssuer);
  match hasClusterIssuer with
  | Err err => mret (Some (wrapf "failed to check cert-manager ClusterIssuer CRD presence" err))
  | Ok hasClusterIssuer =>
      hasCertificate ← trigger (HasCRD CertManagerCertificate);
      match hasCertificate with
      | Err err => mret (Some (wrapf "failed to check cert-manager Certificate CRD presence" err))
      | Ok hasCertificate =>
          if negb hasClusterIssuer || negb hasCertificate then mret None
          else
            match chain_resources config with
            | Err err => mret (Some err)
            | Ok resources => trigger (AddResources resources)
            end
      end
  end.

Definition NewBootstrapAction (config : ChainConfig) : result (prog CertE (option goerr)) :=
  match chain_OperatorCert config with
  | Some oc =>
      if String.eqb (oc_Namespace oc) ""
      then Err (errorf "operator namespace must not be empty when operator cert config generation is set")
      else Ok (bootstrap_action config)
  | None => Ok (bootstrap_action config)
  end.

End chain.

(** ** Preconditions and watches *)

Definition watchedCRDs : list string := (CRDName <$> requiredAPIList) ++ [CertManagerOperatorCRDName].

(** [crdPredicate], of the name of the object. *)
Definition crdPredicate (name : string) : bool := bool_decide (name ∈ watchedCRDs).

Definition certManagerOperatorConfig : OperatorConfig :=
  MkOperatorConfig CertManagerV1Alpha1 certManagerOperatorCRName "" (Some certManagerConditionFilter)
    certManagerRequiredConditions true true.

Section preconditions.
Context `{Nested} (multierror_error : list goerr → goerr).

Definition operatorHealthPreCondition : PreCondition MonitorE :=
  MonitorOperator certManagerOperatorConfig [WithSkipFunc (SkipIfCRDAbsent CertManagerOperatorCRDName)].

Definition preConditions : list (PreCondition MonitorE) :=
  [MonitorAPIs multierror_error requiredAPIList []; operatorHealthPreCondition].

End preconditions.

(** The filters of the framework by name: [CreatedOrUpdatedOrDeletedNamed] and
    [CreatedOrUpdatedOrDeletedNamedInNamespace]. *)
Inductive NameFilter := Named (name : string) | NamedInNamespace (name namespace : string).

(** The watches on instances that [Bootstrap] registers, each with the filters of which one has
    to let an event through. *)
Definition certPredicates (config : ChainConfig) : list NameFilter :=
  [NamedInNamespace (CertName (chain_Config config)) (CertManagerNamespace (chain_Config config))] ++
  match chain_OperatorCert config with
  | Some oc => [NamedInNamespace (WebhookCertName oc) (oc_Namespace oc)]
  | None => []
  end.

Definition bootstrap_watches (config : ChainConfig) : list (GroupVersionKind * list NameFilter) :=
  [(CertManagerClusterIssuer, [Named (IssuerName (chain_Config config)); Named (CAIssuerName (chain_Config config))]);
   (CertManagerCertificate, certPredicates config);
   (CertManagerV1Alpha1, [Named certManagerOperatorCRName])].

(** Given the status of the condition, if there is one. *)
Definition requeueIfDependenciesIndeterminate (dependenciesAvailable : option string) : option action_error :=
  match dependenciesAvailable with
  | Some st => if String.eqb st ConditionUnknown then Some (RequeueAfterError (30 * Second)) else None
  | None => None
  end.

(** ** Theorems *)

(** *** The chain *)

(** What was handed over for deployment, and the kinds seen to be served. *)
Definition added (tr : list (call CertE)) : list (list Unstructured) :=
  omap (λ c, match c with @Call _ _ e _ => match e with AddResources objs => Some objs | _ => None end end) tr.

Definition served (g : GroupVersionKind) (tr : list (call CertE)) : Prop := Call (HasCRD g) (Ok true) ∈ tr.

(** Fields of a specification. *)
Definition spec_of (u : Unstructured) : value_map := default [] (as_map (map_get (u_object u) "spec")).
Definition secret_of (u : Unstructured) : option string := as_string (map_get (spec_of u) "secretName").
Definition ca_secret (u : Unstructured) : option string :=
  ca ← as_map (map_get (spec_of u) "ca"); as_string (map_get ca "secretName").
Definition is_ca (u : Unstructured) : Prop := map_get (spec_of u) "isCA" = VBool true.

(** The certificate is issued by a ClusterIssuer of the list. *)
Definition issued_by (i c : Unstructured) : Prop :=
  u_gvk i = CertManagerClusterIssuer ∧ map_get (spec_of c) "issuerRef" = issuer_ref (u_name i).

(** The resources of a trust chain, as the configuration and the platform's other settings
    name them: every certificate has its issuer, every issuer that signs with a Secret has the
    CA certificate that writes it where cert-manager looks, and the names handed to the
    modules are those of the CA issuer and its Secret. *)
Record trust_chain (config : ChainConfig) (params : gmap string string) (rs : list Unstructured) : Prop := {
  certificates_issued c : c ∈ rs → u_gvk c = CertManagerCertificate → ∃ i, i ∈ rs ∧ issued_by i c;
  secrets_written i s : i ∈ rs → ca_secret i = Some s → ∃ c, c ∈ rs ∧ u_gvk c = CertManagerCertificate ∧
    is_ca c ∧ secret_of c = Some s ∧ u_namespace c = CertManagerNamespace (chain_Config config) ∧
    ∃ root, root ∈ rs ∧ issued_by root c ∧ map_get (spec_of root) "selfSigned" = VMap [];
  modules_informed : ∃ i s, i ∈ rs ∧ u_gvk i = CertManagerClusterIssuer ∧ ca_secret i = Some s ∧
    params !! CertManagerIssuerRefNameKey = Some (u_name i) ∧ params !! CertManagerCASecretNameKey = Some s ∧
    params !! CertManagerCASecretNamespaceKey = Some (CertManagerNamespace (chain_Config config));
  webhook_served oc : chain_OperatorCert config = Some oc → ∃ c i, c ∈ rs ∧ u_gvk c = CertManagerCertificate ∧
    u_name c = WebhookCertName oc ∧ u_namespace c = oc_Namespace oc ∧ secret_of c = Some (WebhookCertSecretName oc) ∧
    i ∈ rs ∧ issued_by i c ∧ is_Some (ca_secret i);
}.

(** The cloud manager's garbage collection leaves the object alone, whatever it looks like. *)
Definition gc_protected (config : ChainConfig) (obj : Unstructured) : Prop :=
  let c := chain_Config config in
  ∀ rr uidSuffix generationSuffix deferred annotations,
    newGCPredicate rr uidSuffix generationSuffix
      (BootstrapProtectedObjects (IssuerName c) (CertName c) (CertManagerNamespace c) (CAIssuerName c))
      deferred obj annotations = false.

(** An event on the object gets through a watch that [Bootstrap] registers. *)
Definition filter_matches (f : NameFilter) (obj : Unstructured) : Prop :=
  match f with
  | Named name => u_name obj = name
  | NamedInNamespace name namespace => u_name obj = name ∧ u_namespace obj = namespace
  end.

Definition watched (config : ChainConfig) (obj : Unstructured) : Prop :=
  ∃ fs f, (u_gvk obj, fs) ∈ bootstrap_watches config ∧ f ∈ fs ∧ filter_matches f obj.

Section chain_theorems.
Context `{NestedMaps}.

(** [unstructured.SetNestedMap] on an object without a specification. *)
Context (set_spec : ∀ spec, SetNestedMap [] spec ["spec"] = Ok [("spec", VMap spec)]).

Lemma new_with_spec_object g name namespace spec what :
  new_with_spec g name namespace spec what = Ok (MkUnstructured g name namespace 0 false [("spec", VMap spec)]).
Proof. unfold new_with_spec. by rewrite set_spec. Qed.

Lemma protected_key config g name namespace object :
  MkProtected (gvk_Group g) (gvk_Kind g) name namespace ∈ BootstrapProtectedObjects (IssuerName (chain_Config config))
    (CertName (chain_Config config)) (CertManagerNamespace (chain_Config config)) (CAIssuerName (chain_Config config)) →
  gc_protected config (MkUnstructured g name namespace 0 false object).
Proof. intros Hin rr u gen deferred annotations. unfold newGCPredicate. by rewrite bool_decide_true. Qed.

(** The resources, one by one. *)
Definition spec_object (g : GroupVersionKind) (name namespace : string) (spec : value_map) : Unstructured :=
  MkUnstructured g name namespace 0 false [("spec", VMap spec)].

Definition root_issuer (c : BootstrapConfig) : Unstructured :=
  spec_object CertManagerClusterIssuer (IssuerName c) "" [("selfSigned", VMap [])].
Definition root_certificate (c : BootstrapConfig) : Unstructured :=
  spec_object CertManagerCertificate (CertName c) (CertManagerNamespace c)
    [("isCA", VBool true); ("commonName", VString (CertName c)); ("secretName", VString (CertName c));
     ("duration", VString caRootDuration); ("usages", VSlice [VString "cert sign"]);
     ("issuerRef", issuer_ref (IssuerName c))].
Definition ca_issuer (c : BootstrapConfig) : Unstructured :=
  spec_object CertManagerClusterIssuer (CAIssuerName c) "" [("ca", VMap [("secretName", VString (CertName c))])].
Definition webhook_certificate (c : BootstrapConfig) (oc : OperatorCertConfig) : Unstructured :=
  spec_object CertManagerCertificate (WebhookCertName oc) (oc_Namespace oc)
    [("secretName", VString (WebhookCertSecretName oc));
     ("dnsNames", VSlice
        [VString (WebhookServiceName oc +:+ "." +:+ oc_Namespace oc +:+ ".svc");
         VString (WebhookServiceName oc +:+ "." +:+ oc_Namespace oc +:+ ".svc.cluster.local")]);
     ("issuerRef", issuer_ref (CAIssuerName c))].

Definition the_chain (config : ChainConfig) : list Unstructured :=
  let c := chain_Config config in
  [root_issuer c; root_certificate c; ca_issuer c] ++
  match chain_OperatorCert config with Some oc => [webhook_certificate c oc] | None => [] end.

Lemma chain_resources_eq config : chain_resources config = Ok (the_chain config).
Proof.
  unfold chain_resources, createSelfSignedIssuer, createRootCACertificate, createCABackedIssuer, createWebhookCertificate.
  destruct config as [c [oc|]]; cbn [chain_OperatorCert chain_Config];
    rewrite new_with_spec_object; cbn [mbind result_bind]; rewrite new_with_spec_object; cbn [mbind result_bind];
    rewrite new_with_spec_object; cbn [mbind result_bind]; [rewrite new_with_spec_object|]; done.
Qed.
End chain_theorems.

Section the_chain.
Context (Getenv : string → string) (config : ChainConfig).
Context (defaults : chain_Config config = DefaultBootstrapConfig Getenv).
Let c := chain_Config config.

Lemma root_in : root_certificate c ∈ the_chain config ∧ root_issuer c ∈ the_chain config ∧ ca_issuer c ∈ the_chain config.
Proof. unfold the_chain. split_and!; apply elem_of_app; left; set_solver. Qed.

Lemma in_chain obj : obj ∈ the_chain config →
  obj = root_issuer c ∨ obj = root_certificate c ∨ obj = ca_issuer c ∨
  ∃ oc, chain_OperatorCert config = Some oc ∧ obj = webhook_certificate c oc.
Proof. unfold the_chain. destruct (chain_OperatorCert config) as [oc|] eqn:Ho; set_solver. Qed.

Lemma root_issued : issued_by (root_issuer c) (root_certificate c).
Proof. done. Qed.

Lemma webhook_issued oc : issued_by (ca_issuer c) (webhook_certificate c oc).
Proof. done. Qed.

Lemma the_chain_trust : trust_chain config (buildCertManagerConfigParams Getenv) (the_chain config).
Proof.
  destruct root_in as (Hcert & Hissuer & Hca). split.
  - intros obj [->|[->|[->|(oc & _ & ->)]]]%in_chain Hg; try done; eauto using root_issued, webhook_issued.
  - intros i s [->|[->|[->|(oc & _ & ->)]]]%in_chain Hs; try done. injection Hs as <-.
    exists (root_certificate c). split_and!; try done. exists (root_issuer c). by split_and!.
  - exists (ca_issuer c), (CertName c). split_and!; try done; unfold buildCertManagerConfigParams, c; rewrite defaults;
      destruct (String.eqb _ ""); by simplify_map_eq.
  - intros oc Ho. exists (webhook_certificate c oc), (ca_issuer c). split_and!; try done.
    unfold the_chain. rewrite Ho. apply elem_of_app. right. by left.
Qed.

Lemma the_chain_protected obj : obj ∈ the_chain config → gc_protected config obj ∨
  ∃ oc, chain_OperatorCert config = Some oc ∧ u_name obj = WebhookCertName oc ∧ u_namespace obj = oc_Namespace oc.
Proof.
  intros [->|[->|[->|(oc & Ho & ->)]]]%in_chain; [left; apply protected_key..|right; by exists oc];
    unfold BootstrapProtectedObjects; simpl; set_solver.
Qed.

Lemma the_chain_watched obj : obj ∈ the_chain config → watched config obj.
Proof.
  intros Hobj. destruct (in_chain obj Hobj) as [->|[->|[->|(oc & Ho & ->)]]].
  - eexists _, (Named (IssuerName c)). split; [by left|]. split; [by left|done].
  - eexists _, (NamedInNamespace (CertName c) (CertManagerNamespace c)). split; [by right; left|]. split; [by left|done].
  - eexists _, (Named (CAIssuerName c)). split; [by left|]. split; [by right; left|done].
  - eexists _, (NamedInNamespace (WebhookCertName oc) (oc_Namespace oc)). split; [by right; left|].
    unfold certPredicates. rewrite Ho. split; [by right; left|done].
Qed.
End the_chain.

(** C27: nothing or a whole trust chain. Whatever options it is built with and whatever the
    cluster answers, the action hands over resources only after both kinds of cert-manager were
    seen to be served, and then a whole chain at once; without an error it hands over nothing
    only if one of them was seen to be absent. Every resource of the chain is watched; what the
    garbage collection may delete is the operator's own webhook certificate at most. *)
Theorem bootstrap_adds_chain `{NestedMaps} Getenv namespaces action :
  let config := bootstrap_config Getenv (WithOperatorCert Getenv <$> namespaces) in
  (∀ spec, SetNestedMap [] spec ["spec"] = Ok [("spec", VMap spec)]) →
  NewBootstrapAction config = Ok action →
  wp action [] (λ tr err,
    match added tr with
    | [] => err = None → ∃ g, g ∈ [CertManagerClusterIssuer; CertManagerCertificate] ∧ Call (HasCRD g) (Ok false) ∈ tr
    | [rs] => served CertManagerClusterIssuer tr ∧ served CertManagerCertificate tr ∧
        trust_chain config (buildCertManagerConfigParams Getenv) rs ∧
        ∀ obj, obj ∈ rs → watched config obj ∧ (gc_protected config obj ∨
          ∃ oc, chain_OperatorCert config = Some oc ∧ oc_Namespace oc ≠ "" ∧
            u_name obj = WebhookCertName oc ∧ u_namespace obj = oc_Namespace oc)
    | _ => False
    end).
Proof.
  intros config Hset Haction.
  assert (chain_Config config = DefaultBootstrapConfig Getenv) as Hdefaults.
  { unfold config, bootstrap_config. clear. generalize (@None OperatorCertConfig).
    induction namespaces as [|ns namespaces IH]; intros o; [done|]. apply IH. }
  assert (action = bootstrap_action config ∧ ∀ oc, chain_OperatorCert config = Some oc → oc_Namespace oc ≠ "") as [-> Hns].
  { revert Haction. unfold NewBootstrapAction. destruct (chain_OperatorCert config) as [oc|] eqn:Ho; [|by intros [= <-]].
    destruct (String.eqb_spec (oc_Namespace oc) ""); [done|]. intros [= <-]. split; [done|]. by intros ? [= <-]. }
  clearbody config. intros [issuers|err]; [|done]. intros [certificates|err]; [|done].
  destruct issuers; [|intros _; exists CertManagerClusterIssuer; cbn; set_solver].
  destruct certificates; [|intros _; exists CertManagerCertificate; cbn; set_solver].
  cbn [negb orb]. rewrite chain_resources_eq by done. intros err. cbn.
  unfold served. split; [set_solver|]. split; [set_solver|]. split; [by apply (the_chain_trust Getenv)|].
  intros obj Hobj. split; [by apply (the_chain_watched Getenv)|]. destruct (the_chain_protected Getenv config Hdefaults obj Hobj) as [?|(oc & Ho & ?)]; [by left|right].
  exists oc. auto.
Qed.

Lemma bootstrap_adds_chain_witness :
  let config := bootstrap_config (λ _, "") (WithOperatorCert (λ _, "") <$> ["operator"]) in
  wp (@bootstrap_action nested_maps_documented config) [] (λ tr err,
    match added tr with
    | [] => err = None → ∃ g, g ∈ [CertManagerClusterIssuer; CertManagerCertificate] ∧ Call (HasCRD g) (Ok false) ∈ tr
    | [rs] => served CertManagerClusterIssuer tr ∧ served CertManagerCertificate tr ∧
        trust_chain config (buildCertManagerConfigParams (λ _, "")) rs ∧
        ∀ obj, obj ∈ rs → watched config obj ∧ (gc_protected config obj ∨
          ∃ oc, chain_OperatorCert config = Some oc ∧ oc_Namespace oc ≠ "" ∧
            u_name obj = WebhookCertName oc ∧ u_namespace obj = oc_Namespace oc)
    | _ => False
    end).
Proof. by apply (@bootstrap_adds_chain nested_maps_documented (λ _, "") ["operator"]). Defined.

(** *** The preconditions *)

(** The three deployments are required conditions, so the filter does not report them again. *)
Lemma filter_skips_required conditionType conditionStatus :
  certManagerConditionFilter conditionType conditionStatus = true →
  conditionType ∉ rc_Type <$> certManagerRequiredConditions.
Proof.
  unfold certManagerConditionFilter. intros Hf Hin. revert Hf.
  destruct (has_suffix conditionType "Degraded") eqn:Hs; [|done]. case_bool_decide as Hd; [by destruct (_ || _)|].
  exfalso. revert Hs Hd. repeat (apply elem_of_cons in Hin as [->|Hin]); try done; [..|by apply elem_of_nil in Hin].
  all: intros _ Hd; apply Hd; set_solver.
Qed.

(** What the operator's conditions have to be. *)
Definition deployments_fine (conds : gmap string crCondition) : Prop :=
  (∀ rc, rc ∈ certManagerRequiredConditions → cond_status <$> conds !! rc_Type rc = Some (rc_Status rc)) ∧
  (∀ t c, conds !! t = Some c → has_suffix t "Degraded" = true → cond_status c ≠ ConditionTrue).

Lemma healthy_deployments conds : healthy certManagerOperatorConfig conds ↔ deployments_fine conds.
Proof.
  unfold healthy, deployments_fine, flagged. cbn [Filter RequiredConditions certManagerOperatorConfig]. rewrite Forall_forall.
  split.
  - intros [Hf Hr]. assert (∀ rc, rc ∈ certManagerRequiredConditions →
      cond_status <$> conds !! rc_Type rc = Some (rc_Status rc)) as Hreq.
    { intros rc Hrc. destruct (Hr rc Hrc) as (c & -> & _ & <-). done. }
    split; [exact Hreq|]. intros t c Ht Hs Hst. apply (Hf t c Ht). unfold certManagerConditionFilter.
    rewrite Hs, Hst. cbn [negb orb String.eqb]. case_bool_decide as Hd; [|done]. exfalso.
    assert (∃ rc, rc ∈ certManagerRequiredConditions ∧ rc_Type rc = t ∧ rc_Status rc = ConditionFalse) as (rc & Hrc & <- & Hfalse).
    { revert Hd. rewrite !elem_of_cons, elem_of_nil. intros [->|[->|[->|[]]]].
      all: match goal with |- ∃ rc, _ ∧ rc_Type rc = ?t ∧ _ => exists (MkRequired t ConditionFalse) end.
      all: split; [unfold certManagerRequiredConditions; rewrite !elem_of_cons; tauto|done]. }
    specialize (Hreq rc Hrc). rewrite Ht, Hfalse in Hreq. simpl in Hreq. rewrite Hst in Hreq. done.
  - intros [Hreq Hdeg]. split.
    + intros t c Ht. unfold certManagerConditionFilter. destruct (has_suffix t "Degraded") eqn:Hs; [|done].
      destruct (String.eqb_spec (cond_status c) ConditionTrue) as [Hst|]; [|done]. by destruct (Hdeg t c Ht Hs).
    + intros rc Hrc. specialize (Hreq rc Hrc). destruct (conds !! rc_Type rc) as [c|]; [|done].
      injection Hreq as Hst. exists c. split; [done|]. split; [|done]. unfold definite. rewrite Hst.
      revert Hrc. unfold certManagerRequiredConditions. rewrite !elem_of_cons, elem_of_nil.
      intros [->|[->|[->|[->|[->|[->|[]]]]]]]; simpl; auto.
Qed.

(** What a check's outcome is recorded as. *)
Definition report_of (v : result CheckResult) : option (string * string) :=
  match v with
  | Err err => Some (ConditionUnknown, err_text err)
  | Ok r => if negb (String.eqb (ConditionStatus r) ConditionTrue) then Some (ConditionStatus r, cr_Message r) else None
  end.

Lemma report_of_status v :
  (report_of v = None ↔ verdict_status v = Some ConditionTrue) ∧
  ((∃ msg, report_of v = Some (ConditionFalse, msg)) ↔ verdict_status v = Some ConditionFalse).
Proof.
  destruct v as [r|err]; simpl; [|naive_solver].
  destruct (ConditionStatus_cases r) as [Hs|[Hs|Hs]]; rewrite Hs; simpl; naive_solver.
Qed.

(** Several preconditions of one condition type give one mark with the worst status. *)
Lemma one_condition {E : Type → Type} generation ct (rs : list (PreCondition E * option (string * string))) :
  rs ≠ [] → Forall (λ r, pc_conditionType r.1 = ct ∧ pc_stopReconciliation r.1 = false) rs →
  ∃ m, write_results generation (foldl apply_report ∅ rs) = ([m], false) ∧ m_type m = ct ∧
    m_status m = worst (omap (λ r, fst <$> r.2) rs).
Proof.
  intros Hne Hall. rewrite Forall_forall in Hall.
  destruct (write_results_aggregated generation rs) as (Hnd & Htypes & Hm & Hstop).
  destruct (write_results generation (foldl apply_report ∅ rs)) as [ms stop]. cbn [fst snd] in *.
  assert (∀ m, m ∈ ms → m_type m = ct) as Hct.
  { intros m Hin. assert (m_type m ∈ m_type <$> ms) as Ht by (apply list_elem_of_fmap; eauto).
    apply Htypes, list_elem_of_fmap in Ht as (r & -> & Hr). by apply Hall. }
  assert (stop = false) as ->.
  { destruct stop; [|done]. destruct (proj1 Hstop eq_refl) as (pc & s & msg & Hin & Hs).
    apply Hall in Hin as [_ Hf]. simpl in Hf. congruence. }
  destruct ms as [|m [|m2 ms]].
  - destruct rs as [|r rs]; [done|]. assert (pc_conditionType r.1 ∈ m_type <$> @nil mark) as Hin; [|by apply elem_of_nil in Hin].
    apply Htypes. by left.
  - exists m. split; [done|]. split; [apply Hct; by left|]. rewrite (Hm m) by by left.
    transitivity (agg_status (aggregate_of (records_of (m_type m) rs))).
    { unfold aggregate_mark. by destruct (negb _). }
    simpl. f_equal. rewrite (Hct m) by by left. clear -Hall. unfold records_of.
    induction rs as [|[pc rep] rs IH]; [done|]. cbn [omap list_omap fst snd].
    destruct (Hall (pc, rep)) as [Hpc _]; [by left|]. cbn [fst] in Hpc. rewrite bool_decide_true by done.
    destruct rep as [[s msg]|]; simpl; rewrite IH; try done; intros r Hr; apply Hall; by right.
  - exfalso. rewrite !fmap_cons, !NoDup_cons in Hnd. destruct Hnd as [Hn _]. apply Hn.
    rewrite (Hct m), (Hct m2) by (set_solver). by left.
Qed.

(** The CRDs that were read. *)
Definition crds_read (tr : list (call MonitorE)) : list string :=
  omap (λ c, match c with @Call _ _ e _ => match e with GetCRD name => Some name | _ => None end end) tr.

Section dependencies.
Context `{Nested} (multierror_error : list goerr → goerr).

(** What is known of the operator, from the reads of its CRD and of its CR. *)
Definition operator_fine (crd : result CRD) (crs : list (result Unstructured)) : Prop :=
  match crd with
  | Err err => err_is TagNotFound err = true
  | Ok _ => ∃ cr conds, crs = [Ok cr] ∧ readConditions cr = Ok conds ∧ deployments_fine conds
  end.

Definition operator_failed (crd : result CRD) (crs : list (result Unstructured)) : Prop :=
  match crd, crs with
  | Ok _, [Ok cr] => ∃ conds, readConditions cr = Ok conds ∧ broken certManagerOperatorConfig conds
  | Ok _, [Err err] => err_is TagNoMatch err = false ∧ (err_is TagNotFound err || err_is TagOperatorCRNotFound err = true)
  | _, _ => False
  end.

(** The verdict on the operator's CR. *)
Definition operator_verdict (answer : result Unstructured) : result CheckResult :=
  match answer with
  | Err err =>
      if err_is TagNoMatch err then Ok (Indeterminate "CertManager cluster: operator API not yet available in discovery")
      else if err_is TagNotFound err || err_is TagOperatorCRNotFound err
      then Ok (Failed "CertManager cluster: operator CR not found")
      else Err (wrapf "CertManager cluster: failed to get operator CR" err)
  | Ok cr => Ok (evaluate_cr certManagerOperatorConfig cr)
  end.

Lemma operator_verdict_status answer :
  (verdict_status (operator_verdict answer) = Some ConditionTrue ↔
     ∃ cr conds, [answer] = [Ok cr] ∧ readConditions cr = Ok conds ∧ deployments_fine conds) ∧
  (verdict_status (operator_verdict answer) = Some ConditionFalse ↔
     match answer with
     | Ok cr => ∃ conds, readConditions cr = Ok conds ∧ broken certManagerOperatorConfig conds
     | Err err => err_is TagNoMatch err = false ∧ (err_is TagNotFound err || err_is TagOperatorCRNotFound err = true)
     end).
Proof.
  destruct answer as [cr|err]; simpl.
  - destruct (evaluate_cr_status certManagerOperatorConfig cr) as [Ht Hf]. cbv zeta in Ht, Hf. split.
    + split.
      * intros [= Hs]. apply Ht in Hs as (conds & Hr & Hh%healthy_deployments). by exists cr, conds.
      * intros (cr' & conds & [= <-] & Hr & Hd%healthy_deployments). f_equal. apply Ht. eauto.
    + rewrite <-Hf. split; [by intros [= ->]|by intros ->].
  - destruct (err_is TagNoMatch err) eqn:Hn; [simpl; naive_solver|].
    destruct (err_is TagNotFound err || err_is TagOperatorCRNotFound err) eqn:Hf; simpl; naive_solver.
Qed.

Lemma wp_operator_health clusterType tr :
  wp (run_one clusterType operatorHealthPreCondition) tr (λ tr' rep, ∃ crd crs,
    crd_answers tr' = crd_answers tr ++ [crd] ∧ omap cr_answer tr' = omap cr_answer tr ++ crs ∧
    crds_read tr' = crds_read tr ++ [CertManagerOperatorCRDName] ∧
    (rep = None ↔ operator_fine crd crs) ∧ ((∃ msg, rep = Some (ConditionFalse, msg)) ↔ operator_failed crd crs)).
Proof.
  unfold crd_answers, crds_read, run_one. cbn [pc_clusterTypes operatorHealthPreCondition MonitorOperator newPreCondition
    foldl WithSkipFunc pc_skipFunc pc_check pc_conditionType pc_severity pc_stopReconciliation pc_message negb andb].
  rewrite bool_decide_true by done. cbn [negb andb].
  intros [crd|err].
  - cbn -[CheckOperatorHealth certManagerOperatorConfig]. apply wp_bind. intros answer.
    assert (∀ (p : prog MonitorE (result CheckResult)) tr Φ, p = mret (operator_verdict answer) →
      wp (mret (report_of (operator_verdict answer))) tr Φ → wp p tr (λ tr' res, wp (match res with
        | Ok result => if negb (ConditionStatus result =? ConditionTrue)%string
                       then mret (Some (ConditionStatus result, cr_Message result)) else mret None
        | Err err => mret (Some (ConditionUnknown, err_text err)) end) tr' Φ)) as Hend.
    { intros p tr' Φ ->. simpl. destruct (operator_verdict answer) as [r|e]; simpl; [|done]. by destruct (negb _). }
    apply Hend.
    { destruct answer as [cr|err]; [done|]. simpl. destruct (err_is TagNoMatch err); [done|].
      by destruct (err_is TagNotFound err || err_is TagOperatorCRNotFound err). }
    apply wp_ret. exists (Ok crd), [answer]. rewrite !omap_app. split; [by rewrite <-app_assoc|].
    split; [by rewrite <-app_assoc|]. split; [by rewrite <-app_assoc|].
    destruct (report_of_status (operator_verdict answer)) as [-> ->]. apply operator_verdict_status.
  - cbn -[err_is]. destruct (err_is TagNotFound err) eqn:Hnf; apply wp_ret; exists (Err err), [];
      rewrite !omap_app, app_nil_r; cbn -[err_is]; rewrite Hnf, ?app_nil_r; naive_solver.
Qed.

Lemma wp_required_apis clusterType :
  wp (run_one clusterType (MonitorAPIs multierror_error requiredAPIList [])) [] (λ tr rep, ∃ answers,
    length answers = 3 ∧ crd_answers tr = answers ∧ omap cr_answer tr = [] ∧ crds_read tr = CRDName <$> requiredAPIList ∧
    let vs := zip_with judge_api requiredAPIList answers in
    (rep = None ↔ Forall (λ v, verdict_status v = Some ConditionTrue) vs) ∧
    ((∃ msg, rep = Some (ConditionFalse, msg)) ↔ Some ConditionFalse ∈ statuses vs)).
Proof.
  unfold run_one. cbn [pc_clusterTypes MonitorAPIs newPreCondition foldl pc_skipFunc negb andb].
  rewrite bool_decide_true by done. cbn [negb andb]. intros a1 a2 a3.
  set (vs := zip_with judge_api requiredAPIList [a1; a2; a3]).
  pose proof (conclude_status multierror_error vs) as Hst. cbv zeta in Hst.
  change (wp (match conclude multierror_error (foldl record_api empty_acc vs) with
    | Err err => mret (Some (ConditionUnknown, err_text err))
    | Ok result => if negb (String.eqb (ConditionStatus result) ConditionTrue)
                   then mret (Some (ConditionStatus result, cr_Message result)) else mret None
    end) [Call (GetCRD CertManagerCertificateCRDName) a1; Call (GetCRD CertManagerIssuerCRDName) a2;
          Call (GetCRD CertManagerClusterIssuerCRDName) a3] (λ tr rep, ∃ answers,
    length answers = 3 ∧ crd_answers tr = answers ∧ omap cr_answer tr = [] ∧ crds_read tr = CRDName <$> requiredAPIList ∧
    let vs := zip_with judge_api requiredAPIList answers in
    (rep = None ↔ Forall (λ v, verdict_status v = Some ConditionTrue) vs) ∧
    ((∃ msg, rep = Some (ConditionFalse, msg)) ↔ Some ConditionFalse ∈ statuses vs))).
  destruct (conclude _ _) as [r|err]; cbn [verdict_status] in Hst.
  - destruct Hst as [Hf Ht]. destruct (ConditionStatus_cases r) as [Hs|[Hs|Hs]]; rewrite Hs in *; cbn [negb String.eqb];
      apply wp_ret; exists [a1; a2; a3]; (split; [done|]); (split; [done|]); (split; [done|]); (split; [done|]);
      fold vs; rewrite <-Hf, <-Ht; naive_solver.
  - destruct Hst as [Hn Hf]. apply wp_ret. exists [a1; a2; a3]. do 4 (split; [done|]). fold vs.
    split; [|naive_solver]. split; [done|]. intros Hall. apply list_elem_of_fmap in Hn as (v & Hv & Hin).
    rewrite Forall_forall in Hall. specialize (Hall v Hin). congruence.
Qed.

(** C33: the dependency condition says what the reads support. Reconciliation is never stopped and
    one condition is written: it is True exactly if all three APIs were seen usable and the
    operator is absent or its CR reports its three deployments available, not degraded, and
    nothing else degraded; False exactly if some API was seen unusable or the operator broken
    or without its CR; and every CRD that was read is watched, so that its change is seen. *)
Theorem cert_manager_dependencies clusterType generation :
  wp (RunAll clusterType generation (preConditions multierror_error)) [] (λ tr res, ∃ m apis crd,
    res = ([m], false) ∧ m_type m = ConditionDependenciesAvailable ∧ crd_answers tr = apis ++ [crd] ∧
    let verdicts := zip_with judge_api requiredAPIList apis in
    (m_status m = ConditionTrue ↔
       Forall (λ v, verdict_status v = Some ConditionTrue) verdicts ∧ operator_fine crd (omap cr_answer tr)) ∧
    (m_status m = ConditionFalse ↔
       Some ConditionFalse ∈ statuses verdicts ∨ operator_failed crd (omap cr_answer tr)) ∧
    Forall (λ name, crdPredicate name = true) (crds_read tr)).
Proof.
  unfold RunAll, preConditions. apply wp_bind. cbn [prog_foldl]. unfold run_step at 1. apply wp_bind, wp_bind.
  eapply wp_mono; [|apply wp_and; [apply wp_required_apis|apply run_one_reports]].
  intros tr1 rep1 [(answers & Hlen & Hcrds & Hcrs & Hread & Hnone1 & Hfalse1) Hrep1].
  cbn zeta in Hnone1, Hfalse1. apply wp_ret. unfold run_step. apply wp_bind, wp_bind.
  eapply wp_mono; [|apply wp_and; [apply wp_operator_health|apply run_one_reports]].
  intros tr2 rep2 [(crd & crs & Hcrds2 & Hcrs2 & Hread2 & Hnone2 & Hfalse2) Hrep2]. apply wp_ret, wp_ret, wp_ret.
  destruct (one_condition generation ConditionDependenciesAvailable
    [(MonitorAPIs multierror_error requiredAPIList [], rep1); (operatorHealthPreCondition, rep2)])
    as (m & Hres & Hty & Hst); [done|by repeat constructor|].
  exists m, answers, crd. split; [exact Hres|]. split; [done|]. split; [by rewrite Hcrds2, Hcrds|].
  rewrite Hcrs2, Hcrs, Hread2, Hread. cbn [app]. rewrite <-Hnone1, <-Hnone2, <-Hfalse1, <-Hfalse2, Hst.
  clear -Hrep1 Hrep2. split; [|split; [|by repeat constructor]];
    destruct rep1 as [[s1 m1]|], rep2 as [[s2 m2]|]; simpl; repeat (destruct Hrep1 as [->| ->] || destruct Hrep2 as [->| ->]);
    vm_compute; naive_solver.
Qed.
End dependencies.
