(* ===== verification/Watches.v ===== *)
(** * Watches: which events reach which controller

    The event filters of [pkg/controller/predicates/resources/resources.go], the watches of the
    gateway controller with its precondition
    ([internal/controller/services/gateway/gateway_controller.go]), and the watch on module CRDs
    of [internal/controller/modules/modules_controller.go] with the requests it makes
    ([pkg/cluster/resources.go]).

    An object of an event is typed, dynamic, of another type or nil ([option Object]). What a
    nil function of controller-runtime's [predicate.Funcs] answers is the parameter [unset];
    [DefaultPredicate] and the conversion of dynamic objects are parameters too. The filters by
    name of the framework are functions of the object's name. *)

From S2P Require Import Prelude Effects Conditions Dag Provision Gates Unstructured Namespaces Monitor Precondition ModuleBase ModuleRegistry ModuleActions ModuleStatusTheorems SharedPlatform PlatformConfig DscController Conversion Workload Admission Kueue KueueController Gateway GatewayStatus GatewayAuth GatewayActions GatewayAuthTheorems HandlerInterface ModuleHandlers BuiltinModules CloudManager CertManager.

(** ** Events *)

Inductive Event (O : Type) :=
| Created (object : O)
| Updated (old new : O)
| Deleted (object : O)
| Generic (object : O).
Arguments Created {O} object.
Arguments Updated {O} old new.
Arguments Deleted {O} object.
Arguments Generic {O} object.

(** An object by its type [T], dynamic, or of a type that the code does not expect. *)
Inductive Object (T : Type) :=
| Typed (name namespace : string) (v : T)
| Dynamic (u : Unstructured)
| Other (name namespace : string).
Arguments Typed {T} name namespace v.
Arguments Dynamic {T} u.
Arguments Other {T} name namespace.

Definition object_name {T} (obj : Object T) : string :=
  match obj with Typed name _ _ | Other name _ => name | Dynamic u => u_name u end.

(** [obj != nil && obj.GetName() == name]. *)
Definition is_named {T} (name : string) (obj : option (Object T)) : bool :=
  match obj with Some obj => String.eqb (object_name obj) name | None => false end.

(** ** Filters *)

(** The parent references of an HTTPRoute: name and namespace. *)
Definition ParentRefs : Type := list (string * option string).

(** [getHTTPRoute], then the loop; [None] is a route that could not be converted. *)
Definition referencesGateway (gatewayName gatewayNamespace : string) (httpRoute : option ParentRefs) : bool :=
  match httpRoute with
  | None => false
  | Some refs =>
      existsb (λ ref, String.eqb ref.1 gatewayName && String.eqb (default gatewayNamespace ref.2) gatewayNamespace) refs
  end.

Definition HTTPRouteReferencesGateway (gatewayName gatewayNamespace : string) (e : Event (option ParentRefs)) : bool :=
  match e with
  | Created route | Updated _ route | Deleted route | Generic route => referencesGateway gatewayName gatewayNamespace route
  end.

(** Namespace and labels of a Service, which may be nil. *)
Record ServiceMeta := MkService { sv_Namespace : string; sv_Labels : gmap string string }.

Definition GatewayNameLabel : string := "gateway.networking.k8s.io/gateway-name".

Definition isGatewayProviderService (gatewayName gatewayNamespace : string) (obj : option ServiceMeta) : bool :=
  match obj with
  | None => false
  | Some obj =>
      String.eqb (sv_Namespace obj) gatewayNamespace &&
      String.eqb (default "" (sv_Labels obj !! GatewayNameLabel)) gatewayName
  end.

Definition GatewayProviderService (gatewayName gatewayNamespace : string) (e : Event (option ServiceMeta)) : bool :=
  match e with
  | Created obj | Deleted obj | Generic obj => isGatewayProviderService gatewayName gatewayNamespace obj
  | Updated old new =>
      isGatewayProviderService gatewayName gatewayNamespace old || isGatewayProviderService gatewayName gatewayNamespace new
  end.

(** [slices.EqualFunc]. *)
Fixpoint EqualFunc {A} (eq : A → A → bool) (s1 s2 : list A) : bool :=
  match s1, s2 with
  | [], [] => true
  | a :: s1, b :: s2 => eq a b && EqualFunc eq s1 s2
  | _, _ => false
  end.

Section module_inputs.
Context (FromUnstructured : value_map → result GatewayConfig).

Definition toGatewayConfig (obj : option (Object GatewayConfig)) : result GatewayConfig :=
  match obj with
  | Some (Typed _ _ gc) => Ok gc
  | Some (Dynamic u) => wrap_result "failed to convert unstructured to GatewayConfig" (FromUnstructured (u_object u))
  | _ => Err (errorf "object is neither typed GatewayConfig nor unstructured")
  end.

Definition same_assignment (a b : AdditionalIngressStatus) : bool :=
  String.eqb (st_Name a) (st_Name b) && String.eqb (st_Hostname a) (st_Hostname b) &&
  bool_decide (GatewayRef a = GatewayRef b).

Definition GatewayConfigModuleInputsChanged (e : Event (option (Object GatewayConfig))) : bool :=
  match e with
  | Created _ | Deleted _ => true
  | Generic _ => false
  | Updated old new =>
      match toGatewayConfig old with
      | Err _ => false
      | Ok oldGC =>
          match toGatewayConfig new with
          | Err _ => false
          | Ok newGC =>
              negb (String.eqb (gc_Domain oldGC) (gc_Domain newGC)) ||
              negb (EqualFunc same_assignment (gc_Statuses oldGC) (gc_Statuses newGC))
          end
      end
  end.

End module_inputs.

(** What the filter reads of the APIServer: the TLS profile, which [reflect.DeepEqual] compares,
    and the adherence policy. *)
Record APIServerSpec (P : Type) := MkAPIServer { TLSSecurityProfile : P; TLSAdherence : string }.
Arguments MkAPIServer {P} _ _.
Arguments TLSSecurityProfile {P} _.
Arguments TLSAdherence {P} _.

Definition ClusterAPIServerObj : string := "cluster".
Definition OpenshiftAPIServer : GroupVersionKind := MkGVK "config.openshift.io" "v1" "APIServer".

Section api_server.
Context {P : Type} `{EqDecision P} (FromUnstructured : value_map → result (APIServerSpec P)).

Definition isClusterAPIServer (obj : option (Object (APIServerSpec P))) : bool := is_named ClusterAPIServerObj obj.

Definition hasGVK (u : Unstructured) (expected : GroupVersionKind) : bool := bool_decide (u_gvk u = expected).

Definition toAPIServer (obj : option (Object (APIServerSpec P))) : result (APIServerSpec P) :=
  match obj with
  | Some (Typed _ _ spec) => Ok spec
  | Some (Dynamic u) =>
      if negb (hasGVK u OpenshiftAPIServer) then Err (errorf ("unexpected GVK: " +:+ gvk_text (u_gvk u)))
      else wrap_result "failed to convert unstructured to APIServer" (FromUnstructured (u_object u))
  | _ => Err (errorf "object is neither typed APIServer nor unstructured")
  end.

Definition APIServerTLSSecurityProfileChanged (e : Event (option (Object (APIServerSpec P)))) : bool :=
  match e with
  | Created obj | Deleted obj => isClusterAPIServer obj
  | Generic _ => false
  | Updated old new =>
      if negb (isClusterAPIServer new) then false
      else
        match toAPIServer old, toAPIServer new with
        | Ok oldAPI, Ok newAPI =>
            negb (bool_decide (TLSSecurityProfile oldAPI = TLSSecurityProfile newAPI)) ||
            negb (String.eqb (TLSAdherence oldAPI) (TLSAdherence newAPI))
        | _, _ => true
        end
  end.

End api_server.

(** ** The gateway controller *)

Definition DashboardComponentCRDName : string := "dashboards.components.platform.opendatahub.io".

(** Of the name of the CRD. *)
Definition gatewayCRDWatchPredicate (name : string) : bool :=
  String.eqb name DashboardComponentCRDName || String.eqb name CertManagerCertificateCRDName.

Definition ClusterAuthenticationObj : string := "cluster".

Section gateway.
Context `{Nested} (unset : bool).
Variable kubernetes : bool.

(** The typed object is its [spec.type]. *)
Definition authType (obj : option (Object string)) : option string :=
  match obj with
  | Some (Typed _ _ type) => Some type
  | Some (Dynamic u) => match NestedString (u_object u) ["spec"; "type"] with Ok found => found | Err _ => None end
  | _ => None
  end.

Definition isClusterAuthentication (obj : option (Object string)) : bool := is_named ClusterAuthenticationObj obj.

Definition gatewayAuthenticationWatchPredicate (e : Event (option (Object string))) : bool :=
  match e with
  | Created obj | Deleted obj => isClusterAuthentication obj
  | Updated old new =>
      if negb (isClusterAuthentication new) then false
      else
        match authType old, authType new with
        | Some oldType, Some newType => negb (String.eqb oldType newType)
        | _, _ => true
        end
  | Generic _ => unset
  end.

(** One field of the status of a Deployment: whether its change is to be seen. *)
Definition status_field_changed (old new : Unstructured) (field : string) : bool :=
  match NestedInt64 (u_object old) ["status"; field], NestedInt64 (u_object new) ["status"; field] with
  | Ok oldFound, Ok newFound => negb (bool_decide (oldFound = newFound))
  | _, _ => true
  end.

Definition proxy_status_changed (e : Event (option (Object unit))) : bool :=
  match e with
  | Updated (Some (Dynamic old)) (Some (Dynamic new)) =>
      if negb (String.eqb (u_name new) KubeAuthProxyName) && negb (has_prefix (u_name new) (KubeAuthProxyName +:+ "-")) ||
         negb (String.eqb (u_namespace new) (GetGatewayNamespace kubernetes))
      then false
      else existsb (status_field_changed old new) ["availableReplicas"; "observedGeneration"]
  | Updated _ _ => false
  | _ => unset
  end.

Definition gatewayDeploymentWatchPredicate (DefaultPredicate : Event (option (Object unit)) → bool)
    (e : Event (option (Object unit))) : bool :=
  DefaultPredicate e || proxy_status_changed e.

(** The instance of the request, if it is a GatewayConfig. *)
Definition validateGatewayConfig (instance : option GatewayConfig) : result GatewayConfig :=
  match instance with
  | Some gatewayConfig => Ok gatewayConfig
  | None => Err (errorf "instance is not of type *services.GatewayConfig")
  end.

Definition certificate_provided (instance : option GatewayConfig) : prog MonitorE (result bool) :=
  mret (gatewayConfig ← validateGatewayConfig instance;
        Ok (match Certificate (gc_Spec gatewayConfig) with
            | Some cert => String.eqb (cert_Type cert) Provided && bool_decide (OIDC (gc_Spec gatewayConfig) = None)
            | None => false
            end)).

Definition gatewayCertManagerPrecondition (multierror_error : list goerr → goerr) (instance : option GatewayConfig)
    : PreCondition MonitorE :=
  MonitorCRD multierror_error CertManagerCertificateCRDName
    [WithClusterTypes ["Kubernetes"]; WithSkipFunc (certificate_provided instance); WithStopReconciliation;
     WithMessage "cert-manager Certificate CRD is required for XKS certificate issuance"].

End gateway.

(** ** Module CRDs *)

(** A request is the name of the instance to reconcile. *)
Inductive WatchE : Type → Type :=
| ListDataScienceClusters : WatchE (result (list string)).

Definition WatchDataScienceClusters : prog WatchE (list string) :=
  listed ← trigger ListDataScienceClusters;
  mret (match listed with Err _ => [] | Ok names => names end).

Definition PlatformInstanceName : string := "default".
Definition WatchPlatforms : prog WatchE (list string) := mret [PlatformInstanceName].

Record CRDWatch := MkCRDWatch { watch_predicate : string → bool; watch_mapper : prog WatchE (list string) }.

Section crd_watches.
Context {DSCT : Type} (reg : ModuleRegistry.t DSCT).

(** The groups of all registered modules, sorted. *)
Definition module_groups : list string :=
  sort_strings (elements (list_to_set ((λ ne, gvk_Group (h_GetGVK (ModuleRegistry.handler ne.2))) <$>
    map_to_list (ModuleRegistry.entries reg)) : gset string)).

Definition AddModuleCRDWatches (mapper : prog WatchE (list string)) : option CRDWatch :=
  if negb (ModuleRegistry.HasEntries reg) then None
  else Some (MkCRDWatch (λ name, existsb (λ g, has_suffix name ("." +:+ g)) module_groups) mapper).

(** The platform controller's and the DSC controller's. *)
Definition platform_CRD_watch : option CRDWatch := AddModuleCRDWatches WatchDataScienceClusters.
Definition dsc_CRD_watch : option CRDWatch := AddModuleCRDWatches WatchDataScienceClusters.

End crd_watches.

(** ** Theorems *)

(** *** Module CRDs *)

Section crd_theorems.
Context {DSCT : Type} (reg : ModuleRegistry.t DSCT).

Lemma elem_module_groups g :
  g ∈ module_groups reg ↔ ∃ name e, ModuleRegistry.entries reg !! name = Some e ∧ gvk_Group (h_GetGVK (ModuleRegistry.handler e)) = g.
Proof.
  unfold module_groups. rewrite sort_strings_perm, elem_of_elements, elem_of_list_to_set, list_elem_of_fmap. split.
  - intros ([name e] & -> & Hin%elem_of_map_to_list). eauto.
  - intros (name & e & He & <-). exists (name, e). split; [done|]. by apply elem_of_map_to_list.
Qed.

(** Which CRDs are watched, and for whom. The platform and the DSC controller have the same
    watch. Once any module is registered, it lets through exactly the names that end in a dot
    and the group of a registered module, enabled or not: the CRDs of that group and of its
    subgroups. An event requests every DataScienceCluster that is listed and nothing else; so
    the platform controller, whose watch is documented to trigger its reconciliation, is asked
    for the Platform only if a DataScienceCluster has the Platform's name. *)
Theorem module_CRD_events :
  platform_CRD_watch reg = dsc_CRD_watch reg ∧
  match platform_CRD_watch reg with
  | None => ModuleRegistry.entries reg = ∅
  | Some watch =>
      (∀ crd, watch_predicate watch crd = true ↔ ∃ plural name e, ModuleRegistry.entries reg !! name = Some e ∧
         crd = plural +:+ "." +:+ gvk_Group (h_GetGVK (ModuleRegistry.handler e))) ∧
      wp (watch_mapper watch) [] (λ tr requests, ∃ listed, tr = [Call ListDataScienceClusters listed] ∧
        match listed with Err _ => requests = [] | Ok dscs => requests = dscs end ∧
        (PlatformInstanceName ∈ requests ↔ ∃ dscs, listed = Ok dscs ∧ PlatformInstanceName ∈ dscs))
  end.
Proof.
  split; [done|]. unfold platform_CRD_watch, AddModuleCRDWatches, ModuleRegistry.HasEntries.
  rewrite negb_involutive. case_bool_decide as He; [done|]. split.
  - intros crd. cbn [watch_predicate]. rewrite existsb_exists. split.
    + intros (g & Hg%list_elem_of_In%elem_module_groups & [plural ->]%has_suffix_iff).
      destruct Hg as (name & e & Hn & <-). by exists plural, name, e.
    + intros (plural & name & e & Hn & ->). exists (gvk_Group (h_GetGVK (ModuleRegistry.handler e))).
      split; [|apply has_suffix_iff; eauto]. apply list_elem_of_In, elem_module_groups. eauto.
  - intros listed. exists listed. split; [done|]. destruct listed as [dscs|err]; (split; [done|]); [naive_solver|].
    split; [intros []%elem_of_nil|naive_solver].
Qed.
End crd_theorems.

(** *** Module inputs *)

Lemma EqualFunc_Forall2 {A} (eq : A → A → bool) s1 s2 : EqualFunc eq s1 s2 = true → Forall2 eq s1 s2.
Proof.
  revert s2. induction s1 as [|a s1 IH]; intros [|b s2]; try done.
  intros [Hab%Is_true_true Hs]%andb_true_iff. constructor; auto.
Qed.

Section projection.
Context `{Converter, URIParser} (kubernetes : bool).

(** What the handlers get of a GatewayConfig. *)
Definition gateway_status (gc : GatewayConfig) : GatewayConfigStatus := MkGatewayStatus (gc_Domain gc) (gc_Statuses gc).

Lemma same_ingresses domain s1 s2 : Forall2 same_assignment s1 s2 →
  Workbenches.gatewayStatusIngresses kubernetes domain s1 = Workbenches.gatewayStatusIngresses kubernetes domain s2.
Proof.
  intros Hs. unfold Workbenches.gatewayStatusIngresses. f_equal. induction Hs as [|a b s1 s2 Hab _ IH]; [done|].
  assert (Workbenches.status_ingress a = Workbenches.status_ingress b) as Heq.
  { unfold same_assignment in Hab. apply Is_true_true in Hab.
    rewrite !andb_true_iff, !String.eqb_eq, bool_decide_eq_true in Hab. destruct Hab as [[Hn Hh] Hr].
    unfold Workbenches.status_ingress. by rewrite Hn, Hh, Hr. }
  cbn [omap list_omap]. rewrite Heq. destruct (Workbenches.status_ingress b); [f_equal|]; exact IH.
Qed.

(** C29: an update of the GatewayConfig that the DSC controller's filter leaves out changes nothing
    for the handlers: given the status before or after it, every built-in handler builds the
    same CR by the same calls. *)
Theorem skipped_update_same_CRs FromUnstructured old new oldGC newGC cli ctx namespace release :
  toGatewayConfig FromUnstructured old = Ok oldGC → toGatewayConfig FromUnstructured new = Ok newGC →
  GatewayConfigModuleInputsChanged FromUnstructured (Updated old new) = false →
  Forall (λ r,
    BuildModuleCR (Handler r) cli ctx (Some (MkCRConfig namespace (Some (gateway_status oldGC)) release)) =
    BuildModuleCR (Handler r) cli ctx (Some (MkCRConfig namespace (Some (gateway_status newGC)) release)))
    (registrations kubernetes).
Proof.
  intros Hold Hnew. unfold GatewayConfigModuleInputsChanged. rewrite Hold, Hnew.
  intros [Hd%negb_false_iff Hs%negb_false_iff]%orb_false_iff.
  apply String.eqb_eq in Hd. apply EqualFunc_Forall2, (same_ingresses (gc_Domain newGC)) in Hs.
  assert (∀ spec, set_gateway (Some (MkCRConfig namespace (Some (gateway_status oldGC)) release)) spec =
    set_gateway (Some (MkCRConfig namespace (Some (gateway_status newGC)) release)) spec) as Hset.
  { intros spec. unfold set_gateway. cbn. by rewrite Hd. }
  assert (∀ dsc spec, Workbenches.platform_fields kubernetes dsc (Some (MkCRConfig namespace (Some (gateway_status oldGC)) release)) spec =
    Workbenches.platform_fields kubernetes dsc (Some (MkCRConfig namespace (Some (gateway_status newGC)) release)) spec) as Hfields.
  { intros dsc spec. unfold Workbenches.platform_fields. cbn. by rewrite Hd, Hs. }
  unfold registrations. repeat (apply Forall_cons; split); try apply Forall_nil_2; try reflexivity.
  all: cbn [BuildModuleCR Handler plain_handler Dashboard.NewHandler AIHub.NewHandler Workbenches.NewHandler
              MLflowOperator.NewHandler].
  all: unfold Dashboard.BuildModuleCR, AIHub.BuildModuleCR, Workbenches.BuildModuleCR, MLflowOperator.BuildModuleCR.
  all: destruct (ctx_spec ctx); [|reflexivity]; cbv zeta; repeat case_match; rewrite ?Hset, ?Hfields; reflexivity.
Qed.

(** What was read of the issuer. *)
Definition issuer_answers (tr : list (call HandlerE)) : list (result (option string)) :=
  omap (λ c, match c with @Call _ X e x =>
     match e in HandlerE X return X → option (result (option string)) with GetGatewayIssuer => Some | _ => λ _, None end x end) tr.

(** The issuer is not among these inputs: an update that changes the specification only is left
    out, while the CR of the data module names the issuer that is read when it is built. *)
Theorem issuer_change_missed FromUnstructured name name' oldGC newGC cfg ctx :
  gc_Domain oldGC = gc_Domain newGC → gc_Statuses oldGC = gc_Statuses newGC →
  GatewayConfigModuleInputsChanged FromUnstructured
    (Updated (Some (Typed name "" oldGC)) (Some (Typed name' "" newGC))) = false ∧
  wp (BuildModuleCR Data.NewHandler true ctx cfg) [] (λ tr res, ∀ issuer uri,
    issuer_answers tr = [Ok (Some issuer)] → issuer ≠ "" → ParseRequestURI issuer = Ok uri →
    uri_Scheme uri = "https" → uri_Host uri ≠ "" →
    ∃ u, res = Ok u ∧ map_get (spec_of u) "oidc" = VMap [("issuerURL", VString (uri_String uri))]).
Proof.
  intros Hd Hs. split.
  - unfold GatewayConfigModuleInputsChanged. cbn [toGatewayConfig]. rewrite Hd, Hs, String.eqb_refl. cbn [negb orb].
    apply negb_false_iff. clear. induction (gc_Statuses newGC) as [|s l IH]; [done|]. cbn [EqualFunc]. rewrite IH.
    unfold same_assignment. by rewrite !String.eqb_refl, bool_decide_true.
  - cbn [BuildModuleCR Data.NewHandler]. unfold Data.BuildModuleCR. cbn [negb]. apply wp_bind.
    unfold Data.getGatewayOIDCSpec. apply wp_bind, wp_call. intros auth.
    destruct (GetClusterAuthenticationMode auth) as [mode|err]; [|by do 2 apply wp_ret].
    destruct (negb _); [by do 2 apply wp_ret|]. apply wp_bind, wp_call. intros answer. apply wp_ret, wp_ret.
    intros i uri Hans Hi Hparse Hscheme Hhost. injection Hans as ->. apply String.eqb_neq in Hi, Hhost.
    rewrite Hi, Hparse, Hscheme, Hhost. eexists. split; [done|]. unfold Data.capabilities. by destruct (ctx_spec ctx).
Qed.
End projection.

(** *** The gateway *)

Section gateway_theorems.
Context `{Nested} (kubernetes : bool).

(** The typed Deployment that is read for a dynamic one. *)
Definition decodes (u : Unstructured) (d : Deployment) : Prop :=
  dp_Generation d = u_generation u ∧ NestedInt64 (u_object u) ["spec"; "replicas"] = Ok (dp_Replicas d) ∧
  dp_ObservedGeneration d = nested_int64 (u_object u) ["status"; "observedGeneration"] ∧
  dp_AvailableReplicas d = nested_int64 (u_object u) ["status"; "availableReplicas"].

Lemma field_unchanged old new field : status_field_changed old new field = false →
  nested_int64 (u_object old) ["status"; field] = nested_int64 (u_object new) ["status"; field].
Proof.
  unfold status_field_changed, nested_int64.
  destruct (NestedInt64 (u_object old) _), (NestedInt64 (u_object new) _); try done.
  by intros ->%negb_false_iff%bool_decide_eq_true.
Qed.

(** Every proxy has a name that the filter looks for. *)
Lemma proxy_name_watched hostname config t : t ∈ auth_targets kubernetes hostname config →
  String.eqb (ProxyName t) KubeAuthProxyName = true ∨ has_prefix (ProxyName t) (KubeAuthProxyName +:+ "-") = true.
Proof.
  unfold auth_targets. rewrite elem_of_cons, list_elem_of_fmap. intros [->|(ingress & -> & _)]; [by left|right].
  cbn [ProxyName additionalAuthProxyTarget]. unfold has_prefix. cbn. by destruct (ing_Name ingress).
Qed.

(** C28: no change is missed. When an update of a proxy's Deployment is left out, the Deployment is
    the same for the readiness check as before; when an update of the cluster's
    authentication is left out, its type is the same; when one of the API server is left out,
    its TLS profile and its adherence policy are. All that is assumed is that the default
    filter sees a new generation and that the desired replicas change with it. *)
Theorem gateway_misses_no_change {P : Type} `{EqDecision P} unset DefaultPredicate
    (FromUnstructured : value_map → result (APIServerSpec P)) hostname config :
  (∀ old new, u_generation old ≠ u_generation new → DefaultPredicate (Updated (Some (Dynamic old)) (Some (Dynamic new))) = true) →
  (∀ old new d d' t,
     t ∈ auth_targets kubernetes hostname config → u_name new = ProxyName t → u_namespace new = GetGatewayNamespace kubernetes →
     decodes old d → decodes new d' → (u_generation old = u_generation new → dp_Replicas d = dp_Replicas d') →
     gatewayDeploymentWatchPredicate unset kubernetes DefaultPredicate (Updated (Some (Dynamic old)) (Some (Dynamic new))) = false →
     d = d') ∧
  (∀ old new,
     isClusterAuthentication new = true → gatewayAuthenticationWatchPredicate unset (Updated old new) = false →
     ∃ type, authType old = Some type ∧ authType new = Some type) ∧
  (∀ old new,
     isClusterAPIServer new = true → APIServerTLSSecurityProfileChanged FromUnstructured (Updated old new) = false →
     ∃ oldAPI newAPI, toAPIServer FromUnstructured old = Ok oldAPI ∧ toAPIServer FromUnstructured new = Ok newAPI ∧
       TLSSecurityProfile oldAPI = TLSSecurityProfile newAPI ∧ TLSAdherence oldAPI = TLSAdherence newAPI).
Proof.
  intros Hdefault. split_and!.
  - intros old new d d' t Ht Hname Hns (Hg & _ & Ho & Ha) (Hg' & _ & Ho' & Ha') Hspec.
    unfold gatewayDeploymentWatchPredicate. intros [Hd Hs]%orb_false_iff.
    assert (u_generation old = u_generation new) as Hgen.
    { destruct (Z.eq_dec (u_generation old) (u_generation new)) as [|Hne]; [done|]. by rewrite (Hdefault _ _ Hne) in Hd. }
    revert Hs. cbn [proxy_status_changed]. rewrite Hname, Hns, String.eqb_refl.
    assert (negb (String.eqb (ProxyName t) KubeAuthProxyName) && negb (has_prefix (ProxyName t) (KubeAuthProxyName +:+ "-")) = false) as ->.
    { destruct (proxy_name_watched _ _ _ Ht) as [->| ->]; [done|apply andb_false_r]. }
    cbn [negb orb existsb]. rewrite !orb_false_iff. intros (Hav%field_unchanged & Hob%field_unchanged & _).
    destruct d as [g r o a], d' as [g' r' o' a']. cbn in *. rewrite (Hspec Hgen). congruence.
  - intros old new Hnew. cbn [gatewayAuthenticationWatchPredicate]. rewrite Hnew. cbn [negb].
    destruct (authType old) as [type|], (authType new) as [type'|]; try done.
    intros ->%negb_false_iff%String.eqb_eq. eauto.
  - intros old new Hnew. cbn [APIServerTLSSecurityProfileChanged]. rewrite Hnew. cbn [negb].
    destruct (toAPIServer _ old) as [a|], (toAPIServer _ new) as [b|]; try done.
    intros [Hp%negb_false_iff%bool_decide_eq_true Ha%negb_false_iff%String.eqb_eq]%orb_false_iff. eauto 7.
Qed.

(** Whether a Certificate CRD can be used, as read. *)
Definition crd_usable (answer : result CRD) : Prop :=
  ∃ crd, answer = Ok crd ∧ crd_IsConditionTrue crd Terminating = false ∧ crd_IsConditionTrue crd Established = true.

(** The user brings the only certificate that is needed. *)
Definition brings_certificate (gc : GatewayConfig) : Prop :=
  OIDC (gc_Spec gc) = None ∧ cert_Type <$> Certificate (gc_Spec gc) = Some Provided.

Lemma judge_usable answer :
  verdict_status (judge_api (MkAPI CertManagerCertificateCRDName (MkGVK "" "" "")) answer) = Some ConditionTrue ↔ crd_usable answer.
Proof.
  unfold crd_usable, judge_api. destruct answer as [crd|err].
  - destruct (crd_IsConditionTrue crd Terminating) eqn:Ht; [split; [done|intros (? & [= <-] & ? & _); congruence]|].
    cbn [api_GVK gvk_Version nonempty_str String.eqb negb andb].
    destruct (crd_IsConditionTrue crd Established) eqn:He; (split; [try done; eauto|intros (? & [= <-] & _ & ?); congruence || done]).
  - destruct (err_is TagNotFound err); (split; [done|by intros (? & ? & _)]).
Qed.
End gateway_theorems.

Section precondition_theorems.
Context (multierror_error : list goerr → goerr).

Lemma one_stop {E : Type → Type} generation (pc : PreCondition E) rep :
  pc_stopReconciliation pc = true →
  ((write_results generation (apply_report ∅ (pc, rep))).2 = true ↔ is_Some rep).
Proof.
  intros Hpc. destruct (write_results_aggregated generation [(pc, rep)]) as (_ & _ & _ & Hstop).
  etransitivity; [exact Hstop|]. split.
  - intros (pc' & st & msg & [= _ <-]%list_elem_of_singleton & _). by eexists.
  - intros [[st msg] ->]. exists pc, st, msg. split; [by left|done].
Qed.

(** The two readings of the setting. *)
Lemma certificate_provided_iff gc :
  match Certificate (gc_Spec gc) with
  | Some cert => String.eqb (cert_Type cert) Provided && bool_decide (OIDC (gc_Spec gc) = None)
  | None => false
  end = true ↔ brings_certificate gc.
Proof.
  unfold brings_certificate. destruct (Certificate (gc_Spec gc)) as [cert|]; cbn; [|split; [done|by intros [_ ?]]].
  rewrite andb_true_iff, String.eqb_eq, bool_decide_eq_true. split; [by intros [-> ->]|intros [-> [= ->]]; done].
Qed.

Lemma wp_crd_check name : name ≠ "" →
  wp (CheckRequiredAPIs multierror_error [MkAPI name (MkGVK "" "" "")]) [] (λ tr res, ∃ answer,
    crd_answers tr = [answer] ∧ crds_read tr = [name] ∧
    (verdict_status res = Some ConditionTrue ↔ verdict_status (judge_api (MkAPI name (MkGVK "" "" "")) answer) = Some ConditionTrue)).
Proof.
  intros Hne. unfold CheckRequiredAPIs. apply wp_bind. cbn [check_apis CRDName].
  rewrite (proj2 (String.eqb_neq _ _) Hne). apply wp_bind, wp_bind, wp_call. intros answer. do 3 apply wp_ret.
  exists answer. split; [done|]. split; [done|].
  pose proof (conclude_status multierror_error [judge_api (MkAPI name (MkGVK "" "" "")) answer]) as Hst.
  cbv zeta in Hst. cbn [foldl] in Hst. unfold empty_acc in Hst. cbn [mbind result_bind].
  revert Hst. destruct (verdict_status (conclude _ _)) as [st|].
  - intros [_ Ht]. rewrite Forall_singleton in Ht. rewrite <-Ht. split; congruence.
  - intros [Hn%list_elem_of_singleton _]. split; [done|congruence].
Qed.

Lemma wp_gateway_check clusterType instance :
  wp (run_one clusterType (gatewayCertManagerPrecondition multierror_error instance)) [] (λ tr rep,
    (is_Some rep ↔ clusterType = "Kubernetes" ∧
       (instance = None ∨ ∃ gc, instance = Some gc ∧ ¬ brings_certificate gc ∧
          ∃ answer, crd_answers tr = [answer] ∧ ¬ crd_usable answer)) ∧
    Forall (λ name, name = CertManagerCertificateCRDName ∧ gatewayCRDWatchPredicate name = true) (crds_read tr)).
Proof.
  unfold run_one, gatewayCertManagerPrecondition, MonitorCRD, MonitorCRDs, MonitorAPIs.
  cbn [pc_clusterTypes newPreCondition foldl WithClusterTypes WithSkipFunc WithStopReconciliation WithMessage fmap list_fmap
       pc_check pc_conditionType pc_severity pc_stopReconciliation pc_message pc_skipFunc].
  rewrite (bool_decide_false (["Kubernetes"] = [])) by done. cbn [negb andb].
  case_bool_decide as Hin; cbn [negb]; [|apply wp_ret; split; [|constructor]; split; [by intros []|]].
  2: { intros [-> _]. destruct Hin. by left. }
  apply list_elem_of_singleton in Hin as ->. unfold certificate_provided. apply wp_bind, wp_ret.
  destruct instance as [gc|]; cbn [validateGatewayConfig mbind result_bind]; [|apply wp_ret; split; [|constructor]; split; [by split; [|left]|done]].
  pose proof (certificate_provided_iff gc) as Hb. destruct (match Certificate _ with Some _ => _ | None => _ end).
  { apply wp_ret. split; [|constructor]. split; [by intros []|]. intros (_ & [|(gc' & [= <-] & Hn & _)]); [done|].
    destruct Hn. by apply Hb. }
  unfold run_check. cbn [pc_check]. apply wp_bind. eapply wp_mono; [|by apply wp_crd_check].
  intros tr res (answer & Ha & Hr & Hv). rewrite judge_usable in Hv.
  assert (¬ brings_certificate gc) as Hn by (intros Hbr; by apply Hb in Hbr).
  assert (∀ rep : option (string * string), (is_Some rep ↔ ¬ crd_usable answer) → wp (mret rep : prog MonitorE _) tr (λ tr rep,
    (is_Some rep ↔ "Kubernetes" = "Kubernetes" ∧ (Some gc = None ∨ ∃ gc0, Some gc = Some gc0 ∧ ¬ brings_certificate gc0 ∧
       ∃ answer, crd_answers tr = [answer] ∧ ¬ crd_usable answer)) ∧
    Forall (λ name, name = CertManagerCertificateCRDName ∧ gatewayCRDWatchPredicate name = true) (crds_read tr))) as Hend.
  { intros rep Hrep. apply wp_ret. rewrite Ha, Hr. split; [|by repeat constructor]. rewrite Hrep. split.
    - intros Hu. split; [done|]. right. exists gc. eauto.
    - by intros (_ & [|(gc' & _ & _ & a & [= <-] & Hu)]). }
  destruct res as [r|err]; [|apply Hend; split; [by intros _ [=]%Hv|by eexists]]. cbn [verdict_status] in Hv.
  cbv zeta. destruct (String.eqb_spec (ConditionStatus r) ConditionTrue) as [Hs|Hs]; cbn [negb]; apply Hend.
  - split; [by intros []|]. intros Hu. destruct Hu. apply Hv. by rewrite Hs.
  - split; [|by eexists]. intros _ [= Hs']%Hv. done.
Qed.

(** C34: on Kubernetes the gateway waits for cert-manager. Reconciliation is stopped exactly when
    the cluster is a Kubernetes cluster and either the instance is no GatewayConfig, or it does
    not bring the certificate (of type Provided, without OIDC) and the Certificate CRD that was
    read could not be read, is terminating or is not established; the CRD that is read is one
    whose events the controller watches, so that it looks again once that changes. *)
Theorem gateway_waits_for_cert_manager clusterType generation instance :
  wp (RunAll clusterType generation [gatewayCertManagerPrecondition multierror_error instance]) [] (λ tr res,
    (res.2 = true ↔ clusterType = "Kubernetes" ∧
       (instance = None ∨ ∃ gc, instance = Some gc ∧ ¬ brings_certificate gc ∧
          ∃ answer, crd_answers tr = [answer] ∧ ¬ crd_usable answer)) ∧
    Forall (λ name, name = CertManagerCertificateCRDName ∧ gatewayCRDWatchPredicate name = true) (crds_read tr)).
Proof.
  unfold RunAll. apply wp_bind. cbn [prog_foldl]. unfold run_step. apply wp_bind, wp_bind.
  eapply wp_mono; [|apply (wp_gateway_check clusterType instance)].
  intros tr rep [Hrep Hread]. do 3 apply wp_ret. split; [|done]. cbn [foldl]. rewrite <-Hrep. by apply one_stop.
Qed.
End precondition_theorems.

(** ** Examples *)

Lemma skipped_update_same_CRs_witness :
  let conv : Converter := λ _, Ok [] in
  let uri : URIParser := λ s, Ok (MkURI "https" "issuer" s) in
  let old := oidc_gateway in
  let new := with_ingress_mode oidc_gateway IngressModeLoadBalancer in
  Forall (λ r,
    BuildModuleCR (Handler r) true None (Some (MkCRConfig "opendatahub" (Some (gateway_status old)) OpenDataHub)) =
    BuildModuleCR (Handler r) true None (Some (MkCRConfig "opendatahub" (Some (gateway_status new)) OpenDataHub)))
    (@registrations conv uri false).
Proof.
  intros conv uri old new.
  by apply (@skipped_update_same_CRs conv uri false (λ _, Err (errorf "not a GatewayConfig"))
    (Some (Typed "default-gateway" "" old)) (Some (Typed "default-gateway" "" new))).
Defined.

Definition sample_proxy (deleting : bool) : Unstructured :=
  MkUnstructured (MkGVK "apps" "v1" "Deployment") KubeAuthProxyName (GetGatewayNamespace false) 2 deleting
    [("spec", VMap [("replicas", VInt 2)]);
     ("status", VMap [("availableReplicas", VInt 1); ("observedGeneration", VInt 2)])].

(** The generation as the only thing that the default filter sees. *)
Definition generation_changed (e : Event (option (Object unit))) : bool :=
  match e with
  | Updated (Some (Dynamic old)) (Some (Dynamic new)) => negb (u_generation old =? u_generation new)%Z
  | _ => true
  end.

Lemma gateway_misses_no_change_witness :
  @gatewayDeploymentWatchPredicate nested_documented true false generation_changed
    (Updated (Some (Dynamic (sample_proxy false))) (Some (Dynamic (sample_proxy true)))) = false ∧
  ∀ d, @decodes nested_documented (sample_proxy true) d → MkDeployment 2 (Some 2%Z) 2 1 = d.
Proof.
  split; [by vm_compute|]. intros d Hd.
  destruct (@gateway_misses_no_change nested_documented false unit _ true generation_changed
    (λ _, Err (errorf "not an APIServer")) "gw.example.com" oidc_gateway) as [Hdeployment _].
  { intros old new Hne. cbn. apply Z.eqb_neq in Hne. by rewrite Hne. }
  apply (Hdeployment (sample_proxy false) (sample_proxy true) _ d (defaultAuthProxyTarget false "gw.example.com" oidc_gateway));
    [by left|done|done|done|done| |by vm_compute].
  intros _. destruct Hd as (_ & [= Hr] & _). exact Hr.
Defined.
