(* ===== verification/StorageMigration.v ===== *)
(** * Storage version migration of the operator's CRDs ([pkg/storagemigration])

    At startup the leader makes the cluster's migration controller rewrite the stored objects
    of a CRD ([execute]): it validates the CRD's storage history, discovers the migration API,
    creates (or resumes) a request whose name is a digest of the CRD's identity, waits until
    the request succeeded, prunes the storage history and deletes the request. Each step emits
    an event.

    Client calls, the context and the recorder are events of [StorageE]. The conversions of
    apimachinery, its polling loop and the order in which Go ranges over a map are the fields
    of [MigrationLib]; the laws in [MigrationLibLaws] are what the code relies on. *)

From S2P Require Import Prelude Effects Unstructured Sha256.

(** ** Data *)

Record CRDVersion := MkCRDVersion { v_Name : string; v_Served : bool; v_Storage : bool }.

(** The fields of a [CustomResourceDefinition] that migration reads. *)
Record StorageCRD := MkStorageCRD {
  s_Name : string;
  s_UID : string;
  s_ResourceVersion : string;
  s_Generation : Z;
  s_Deleting : bool;
  s_Group : string;
  s_Plural : string;
  s_Versions : list CRDVersion;
  s_StoredVersions : list string;
}.

Record GroupVersionResource := MkGVR { r_Group : string; r_Version : string; r_Resource : string }.

#[export] Instance GroupVersionResource_eq_dec : EqDecision GroupVersionResource.
Proof. solve_decision. Defined.

(** [api.GroupVersion().String()]. *)
Definition GroupVersion (api : GroupVersionResource) : string :=
  if nonempty_str (r_Group api) then r_Group api +:+ "/" +:+ r_Version api else r_Version api.

(** A [StorageVersionMigration] object. *)
Record MigRequest := MkMigRequest {
  q_APIVersion : string;
  q_Kind : string;
  q_Name : string;
  q_UID : string;
  q_Deleting : bool;
  q_Labels : gmap string string;
  q_Annotations : gmap string string;
  q_Object : value_map;
}.

Record MigCondition := MkMigCondition {
  mc_Type : string;
  mc_Status : string;
  mc_Reason : string;
  mc_Message : string;
}.

Record APIResource := MkAPIResource { ar_Name : string; ar_Namespaced : bool; ar_Kind : string }.
Record APIResourceList := MkAPIResourceList { al_GroupVersion : string; al_Resources : list APIResource }.

Definition requestKind : string := "StorageVersionMigration".
Definition annotationPrefix : string := "storage-migration.opendatahub.io/".

Definition migrationAPIs : list GroupVersionResource :=
  [MkGVR "storagemigration.k8s.io" "v1" "storageversionmigrations";
   MkGVR "storagemigration.k8s.io" "v1beta1" "storageversionmigrations";
   MkGVR "storagemigration.k8s.io" "v1alpha1" "storageversionmigrations";
   MkGVR "migration.k8s.io" "v1alpha1" "storageversionmigrations"].

(** ** Events *)

Definition EventActionValidate : string := "ValidateStorageVersion".
Definition EventReasonNotNeeded : string := "StorageVersionMigrationNotNeeded".
Definition discoverAction : string := "DiscoverStorageVersion".
Definition runAction : string := "MigrateStorageVersion".
Definition cleanupAction : string := "CleanupStorageVersionMigration".
Definition validatedReason : string := "StorageVersionMigrationValidated".
Definition discoveredReason : string := "StorageVersionMigrationDiscovered".
Definition succeededReason : string := "StorageVersionMigrationSucceeded".
Definition cleanedUpReason : string := "StorageVersionMigrationCleanedUp".
Definition failedReason : string := "StorageVersionMigrationFailed".

Record migrationEvent := MkMigEvent {
  e_reason : string;
  e_action : string;
  e_eventType : string;
  e_err : option goerr;
  e_message : string;
}.

(** What the recorder receives: name and UID of the CRD, type, reason, action, message. *)
Record recorded := MkRecorded {
  rec_Name : string;
  rec_UID : string;
  rec_Type : string;
  rec_Reason : string;
  rec_Action : string;
  rec_Message : string;
}.

Inductive StorageE : Type → Type :=
| CtxErr : StorageE (option goerr)
| GetStorageCRD (name : string) : StorageE (result (option StorageCRD))
| ServerResources (groupVersion : string) : StorageE (result (option APIResourceList))
| CreateRequest (api : GroupVersionResource) (request : MigRequest) : StorageE (result (option MigRequest))
| GetRequest (api : GroupVersionResource) (name : string) : StorageE (result (option MigRequest))
| DeleteRequest (api : GroupVersionResource) (name uid : string) : StorageE (option goerr)
| PatchStoredVersions (name resourceVersion : string) (storedVersions : list string) : StorageE (option goerr)
| Eventf (e : recorded) : StorageE unit
| PollTick : StorageE (option goerr).

Class MigrationLib := {
  ToUnstructured : value_map → result value_map;
  DecodeConditions : value_map → result (list MigCondition);
  range_annotations : gmap string string → list (string * string);
  PollUntilContextCancel : Z → bool → prog StorageE (result bool) → prog StorageE (option goerr);
}.

(** The receiver; the clients are the calls. *)
Record migration := MkMigration {
  m_interval : Z;
  m_crdName : string;
  m_crd : option StorageCRD;
  m_storage : string;
  m_api : GroupVersionResource;
  m_request : option MigRequest;
}.

Definition with_crd (m : migration) (crd : option StorageCRD) : migration :=
  MkMigration (m_interval m) (m_crdName m) crd (m_storage m) (m_api m) (m_request m).
Definition with_storage (m : migration) (storage : string) : migration :=
  MkMigration (m_interval m) (m_crdName m) (m_crd m) storage (m_api m) (m_request m).
Definition with_api (m : migration) (api : GroupVersionResource) : migration :=
  MkMigration (m_interval m) (m_crdName m) (m_crd m) (m_storage m) api (m_request m).
Definition with_request (m : migration) (request : option MigRequest) : migration :=
  MkMigration (m_interval m) (m_crdName m) (m_crd m) (m_storage m) (m_api m) request.

Definition event (m : migration) (ev : migrationEvent) : prog StorageE unit :=
  let eventType :=
    if nonempty_str (e_eventType ev) then e_eventType ev
    else match e_err ev with Some _ => "Warning" | None => "Normal" end in
  let message :=
    match e_err ev with
    | Some err => if String.eqb (e_message ev) "" then err_text err else e_message ev
    | None => e_message ev
    end in
  let uid := match m_crd m with Some crd => s_UID crd | None => "" end in
  trigger (Eventf (MkRecorded (m_crdName m) uid eventType (e_reason ev) (e_action ev) message)).

(** ** The storage version of a CRD *)

(** The loop over the versions. *)
Fixpoint storage_of (versions : list CRDVersion) (storage : string) : result string :=
  match versions with
  | [] => Ok storage
  | version :: versions =>
      if negb (v_Storage version) then storage_of versions storage
      else if nonempty_str storage || String.eqb (v_Name version) "" || negb (v_Served version)
      then Err (errorf "CRD must have exactly one nonempty served storage version")
      else storage_of versions (v_Name version)
  end.

(** The loop over the history, with the set of versions seen. *)
Fixpoint history_ok (history : list string) (seen : gset string) : bool :=
  match history with
  | [] => true
  | version :: history =>
      if String.eqb version "" || bool_decide (version ∈ seen) then false
      else history_ok history ({[version]} ∪ seen)
  end.

Definition storageVersion (crd : option StorageCRD) : result string :=
  match crd with
  | None => Err (errorf "CRD is nil")
  | Some crd =>
      if String.eqb (s_UID crd) "" || String.eqb (s_ResourceVersion crd) ""
      then Err (errorf "CRD has no usable UID or resourceVersion")
      else if s_Deleting crd then Err (errorf "CRD is deleting")
      else if String.eqb (s_Group crd) "" || String.eqb (s_Plural crd) "" ||
              negb (String.eqb (s_Name crd) (s_Plural crd +:+ "." +:+ s_Group crd))
      then Err (errorf "CRD has invalid group/resource identity")
      else
        match storage_of (s_Versions crd) "" with
        | Err err => Err err
        | Ok storage =>
            if String.eqb storage "" || negb (bool_decide (storage ∈ s_StoredVersions crd))
            then Err (errorf "CRD storage history must contain its storage version")
            else if history_ok (s_StoredVersions crd) ∅ then Ok storage
            else Err (errorf "CRD storage history has empty or duplicate versions")
        end
  end.

(** ** Discovery *)

(** The resources of one served version, up to the first of the right name. *)
Fixpoint find_resource (api : GroupVersionResource) (served : string) (l : list APIResource)
    : option (result GroupVersionResource) :=
  match l with
  | [] => None
  | resource :: l =>
      if negb (String.eqb (ar_Name resource) (r_Resource api)) then find_resource api served l
      else if ar_Namespaced resource
      then Some (Err (errorf ("migration API " +:+ GroupVersion api +:+ " must be cluster-scoped")))
      else if negb (String.eqb (ar_Kind resource) requestKind)
      then Some (Err (errorf ("unexpected migration kind " +:+ quote (ar_Kind resource) +:+ " for " +:+
                              GroupVersion api)))
      else if negb (String.eqb served (GroupVersion api))
      then Some (Err (errorf ("unexpected discovery version " +:+ quote served +:+ " for " +:+ GroupVersion api)))
      else Some (Ok api)
  end.

Fixpoint discover_apis (apis : list GroupVersionResource) : prog StorageE (result GroupVersionResource) :=
  match apis with
  | [] =>
      mret (Err (errorf "no supported StorageVersionMigration API; enable the cluster storage migration API and controller before restarting the operator"))
  | api :: apis =>
      fetched ← trigger (ServerResources (GroupVersion api));
      match fetched with
      | Err err =>
          if err_is TagNotFound err then discover_apis apis
          else mret (Err (wrapf ("discovering " +:+ GroupVersion api) err))
      | Ok None => mret (Err (errorf ("empty discovery response for " +:+ GroupVersion api)))
      | Ok (Some resources) =>
          match find_resource api (al_GroupVersion resources) (al_Resources resources) with
          | Some found => mret found
          | None => discover_apis apis
          end
      end
  end.

Definition discoverMigrationAPI : prog StorageE (result GroupVersionResource) := discover_apis migrationAPIs.

(** ** Requests *)

(** [reflect.DeepEqual] on decoded values; maps have no order. *)
Fixpoint DeepEqual (v w : value) : bool :=
  match v, w with
  | VNull, VNull => true
  | VBool a, VBool b => Bool.eqb a b
  | VInt a, VInt b => (a =? b)%Z
  | VFloat a, VFloat b => (a =? b)%Z
  | VString a, VString b => String.eqb a b
  | VSlice l, VSlice l' =>
      (fix go (l l' : list value) : bool :=
         match l, l' with
         | [], [] => true
         | v :: l, v' :: l' => DeepEqual v v' && go l l'
         | _, _ => false
         end) l l'
  | VMap m, VMap m' =>
      (length m =? length m')%nat &&
      (fix go (m : value_map) : bool :=
         match m with
         | [] => true
         | (k, v) :: m => map_has m' k && DeepEqual v (map_get m' k) && go m
         end) m
  | _, _ => false
  end.

Definition managed_by_label : string := "app.kubernetes.io/managed-by".
Definition operator_name : string := "opendatahub-operator".

Section migrate.
Context `{MigrationLib}.

Definition newRequest (crd : StorageCRD) (storage : string) (api : GroupVersionResource) : result MigRequest :=
  let identity :=
    s_Name crd +:+ "/" +:+ s_UID crd +:+ "/" +:+ itoa (s_Generation crd) +:+ "/" +:+ storage in
  let digest := Sum256 (bytes_of identity) in
  let resource :=
    [("group", VString (s_Group crd)); ("resource", VString (s_Plural crd))] ++
    (if String.eqb (r_Version api) "v1alpha1" then [("version", VString storage)] else []) in
  match ToUnstructured [("apiVersion", VString (GroupVersion api)); ("kind", VString requestKind);
                        ("spec", VMap [("resource", VMap resource)])] with
  | Err err => Err (wrapf "converting migration request" err)
  | Ok object =>
      Ok (MkMigRequest
            (default "" (as_string (map_get object "apiVersion"))) (default "" (as_string (map_get object "kind")))
            ("odh-storage-" +:+ hex (take 20 digest)) "" false
            (<[managed_by_label := operator_name]> ∅)
            (<[annotationPrefix +:+ "storage-version" := storage]>
               (<[annotationPrefix +:+ "crd-generation" := itoa (s_Generation crd)]>
                  (<[annotationPrefix +:+ "crd-uid" := s_UID crd]> ∅)))
            object)
  end.

Definition createOrGetMigrationRequest (api : GroupVersionResource) (expected : MigRequest)
    : prog StorageE (result (option MigRequest)) :=
  created ← trigger (CreateRequest api expected);
  got ← (match created with
         | Err err =>
             if err_is TagAlreadyExists err then trigger (GetRequest api (q_Name expected)) else mret created
         | Ok _ => mret created
         end);
  mret
    (match got with
     | Err err =>
         Err (wrapf ("creating/resuming " +:+ q_APIVersion expected +:+ " request " +:+ q_Name expected) err)
     | Ok request => Ok request
     end).

(** The first annotation of [expected], in ranging order, that the request does not have. *)
Definition mismatched (request : MigRequest) (annotations : list (string * string)) : option string :=
  fst <$> head (filter (λ kv : string * string, default "" (q_Annotations request !! kv.1) ≠ kv.2) annotations).

Definition validateRequest (request : option MigRequest) (expected : MigRequest) : option goerr :=
  match request with
  | None => Some (errorf "migration request is nil")
  | Some request =>
      let the_request := "migration request " +:+ q_Name request in
      if nonempty_str (q_UID expected) && negb (String.eqb (q_UID request) (q_UID expected))
      then Some (errorf (the_request +:+ " was replaced"))
      else if String.eqb (q_UID request) "" || q_Deleting request
      then Some (errorf (the_request +:+ " has no usable identity or is deleting"))
      else if negb (String.eqb (q_Name request) (q_Name expected)) ||
              negb (String.eqb (q_Kind request) requestKind) ||
              negb (String.eqb (q_APIVersion request) (q_APIVersion expected))
      then Some (errorf (the_request +:+ " has unexpected identity"))
      else if negb (String.eqb (default "" (q_Labels request !! managed_by_label)) operator_name)
      then Some (errorf (the_request +:+ " is not owned by this operator"))
      else
        match mismatched request (range_annotations (q_Annotations expected)) with
        | Some key =>
            Some (errorf (the_request +:+ " has mismatched " +:+ key +:+ "; review it before retrying"))
        | None =>
            if DeepEqual (map_get (q_Object request) "spec") (map_get (q_Object expected) "spec") then None
            else Some (errorf (the_request +:+ " has unexpected spec"))
        end
  end.

(** The loop over the decoded conditions. *)
Fixpoint conditions_succeeded (name : string) (conditions : list MigCondition) (complete : bool) : result bool :=
  match conditions with
  | [] => Ok complete
  | condition :: conditions =>
      if String.eqb (mc_Status condition) "False" then conditions_succeeded name conditions complete
      else if String.eqb (mc_Status condition) "Unknown" then conditions_succeeded name conditions complete
      else if String.eqb (mc_Status condition) "True" then
        if String.eqb (mc_Type condition) "Failed" then
          Err (errorf ("migration request " +:+ name +:+ " failed: " +:+ mc_Reason condition +:+ ": " +:+
                       mc_Message condition +:+
                       "; review and manually delete the failed request before restarting the operator"))
        else if String.eqb (mc_Type condition) "Succeeded" then conditions_succeeded name conditions true
        else conditions_succeeded name conditions complete
      else Err (errorf "invalid migration condition status")
  end.

Definition requestSucceeded (request : MigRequest) : result bool :=
  match DecodeConditions (q_Object request) with
  | Err err => Err (wrapf "decoding migration conditions" err)
  | Ok conditions => conditions_succeeded (q_Name request) conditions false
  end.

(** ** Pruning *)

Definition pruneStorageHistory (original : StorageCRD) (storage : string) : prog StorageE (option goerr) :=
  fetched ← trigger (GetStorageCRD (s_Name original));
  match fetched with
  | Err err => mret (Some (wrapf "rereading CRD" err))
  | Ok current =>
      match storageVersion current with
      | Err err => mret (Some err)
      | Ok currentStorage =>
          match current with
          | None => mret (Some (errorf "CRD is nil"))
          | Some crd =>
              if negb (String.eqb (s_UID crd) (s_UID original)) || negb (String.eqb currentStorage storage)
              then mret (Some (errorf "CRD identity or storage configuration changed during migration"))
              else if negb (s_Generation crd =? s_Generation original)%Z
              then mret (Some (errorf "CRD generation changed during migration"))
              else if bool_decide (s_StoredVersions crd = [storage]) then mret None
              else
                err ← trigger (PatchStoredVersions (s_Name crd) (s_ResourceVersion crd) [storage]);
                mret (option_map (wrapf "patching CRD storage history") err)
          end
      end
  end.

(** ** The steps *)

Definition validate (m : migration) : prog StorageE (migration * result bool) :=
  fetched ← trigger (GetStorageCRD (m_crdName m));
  mret
    (match fetched with
     | Err err =>
         if err_is TagNotFound err then (m, Ok false) else (m, Err (wrapf "reading CRD" err))
     | Ok crd =>
         let m := with_crd m crd in
         match storageVersion crd, crd with
         | Err err, _ => (m, Err err)
         | Ok storage, Some crd =>
             if bool_decide (s_StoredVersions crd = [storage]) then (m, Ok false)
             else (with_storage m storage, Ok true)
         | Ok _, None => (m, Ok false)
         end
     end).

Definition discover (m : migration) : prog StorageE (migration * option goerr) :=
  found ← discoverMigrationAPI;
  mret (match found with
        | Err err => (m, Some err)
        | Ok api => (with_api m api, None)
        end).

(** The condition that is polled. *)
Definition request_done (api : GroupVersionResource) (expected : MigRequest) : prog StorageE (result bool) :=
  fetched ← trigger (GetRequest api (q_Name expected));
  mret
    (match fetched with
     | Err err => Err (wrapf "reading migration request" err)
     | Ok current =>
         match validateRequest current expected, current with
         | Some err, _ => Err err
         | None, Some current => requestSucceeded current
         | None, None => Ok false
         end
     end).

Definition SetUID (request : MigRequest) (uid : string) : MigRequest :=
  MkMigRequest (q_APIVersion request) (q_Kind request) (q_Name request) uid (q_Deleting request)
    (q_Labels request) (q_Annotations request) (q_Object request).

(** From the request on; [request] is not nil, having been validated. *)
Definition wait_and_prune (m : migration) (crd : StorageCRD) (expected request : MigRequest)
    : prog StorageE (option goerr) :=
  let expected := SetUID expected (q_UID request) in
  waitErr ← PollUntilContextCancel (m_interval m) true (request_done (m_api m) expected);
  match waitErr with
  | Some err =>
      mret (Some (wrapf ("waiting for " +:+ GroupVersion (m_api m) +:+ " request " +:+ q_Name expected +:+
                         " (retained for diagnosis)") err))
  | None =>
      ctxErr ← trigger CtxErr;
      match ctxErr with
      | Some err => mret (Some err)
      | None =>
          pruneErr ← pruneStorageHistory crd (m_storage m);
          mret (option_map (wrapf ("pruning storage history (request " +:+ q_Name request +:+ " retained)")) pruneErr)
      end
  end.

Definition run_step (m : migration) : prog StorageE (migration * option goerr) :=
  match m_crd m with
  | None => mret (m, Some (errorf "CRD is nil"))
  | Some crd =>
      match newRequest crd (m_storage m) (m_api m) with
      | Err err => mret (m, Some err)
      | Ok expected =>
          got ← createOrGetMigrationRequest (m_api m) expected;
          match got with
          | Err err => mret (with_request m None, Some err)
          | Ok request =>
              let m := with_request m request in
              match validateRequest request expected, request with
              | Some err, _ => mret (m, Some err)
              | None, None => mret (m, Some (errorf "migration request is nil"))
              | None, Some request =>
                  match requestSucceeded request with
                  | Err err => mret (m, Some err)
                  | Ok _ => err ← wait_and_prune m crd expected request; mret (m, err)
                  end
              end
          end
      end
  end.

Definition request_name (m : migration) : string :=
  match m_request m with Some request => q_Name request | None => "" end.
Definition request_uid (m : migration) : string :=
  match m_request m with Some request => q_UID request | None => "" end.

Definition cleanup (m : migration) : prog StorageE (option goerr) :=
  err ← trigger (DeleteRequest (m_api m) (request_name m) (request_uid m));
  mret (match err with
        | None => None
        | Some err =>
            if err_is TagNotFound err then None
            else Some (wrapf ("storage history pruned, but deleting " +:+ GroupVersion (m_api m) +:+
                              " request " +:+ request_name m +:+ " failed") err)
        end).

(** How every step of [execute] treats its error: a cancellation is returned as it is, any
    other error is wrapped and reported by a warning event. *)
Definition fail_step (m : migration) (action : string) (err : goerr) : prog StorageE (option goerr) :=
  if err_is TagCanceled err then mret (Some err)
  else
    let err := wrapf (action +:+ " for CRD " +:+ m_crdName m) err in
    _ ← event m (MkMigEvent failedReason action "" (Some err) "");
    mret (Some err).

Definition normal (m : migration) (reason action message : string) : prog StorageE unit :=
  event m (MkMigEvent reason action "" None message).

Definition execute_cleanup (m : migration) : prog StorageE (option goerr) :=
  err ← cleanup m;
  match err with
  | Some err => fail_step m cleanupAction err
  | None =>
      _ ← normal m cleanedUpReason cleanupAction
            ("Successful migration request " +:+ request_name m +:+ " for CRD " +:+ m_crdName m +:+
             " is no longer present");
      mret None
  end.

Definition execute_run (m : migration) : prog StorageE (option goerr) :=
  ran ← run_step m;
  match ran.2 with
  | Some err => fail_step ran.1 runAction err
  | None =>
      _ ← normal ran.1 succeededReason runAction
            ("Request " +:+ request_name ran.1 +:+ " succeeded; CRD " +:+ m_crdName ran.1 +:+
             " storage history now contains only " +:+ m_storage ran.1);
      execute_cleanup ran.1
  end.

Definition execute_discover (m : migration) : prog StorageE (option goerr) :=
  found ← discover m;
  match found.2 with
  | Some err => fail_step found.1 discoverAction err
  | None =>
      _ ← normal found.1 discoveredReason discoverAction
            ("Selected " +:+ GroupVersion (m_api found.1) +:+ " for CRD " +:+ m_crdName found.1 +:+
             " storage migration");
      execute_run found.1
  end.

Definition execute_validate (m : migration) : prog StorageE (option goerr) :=
  valid ← validate m;
  match valid.2 with
  | Err err => fail_step valid.1 EventActionValidate err
  | Ok false =>
      _ ← normal valid.1 EventReasonNotNeeded EventActionValidate
            ("CRD " +:+ m_crdName valid.1 +:+ " does not need storage migration");
      mret None
  | Ok true =>
      _ ← normal valid.1 validatedReason EventActionValidate
            ("CRD " +:+ m_crdName valid.1 +:+ " requires storage migration to " +:+ m_storage valid.1);
      execute_discover valid.1
  end.

Definition execute (m : migration) : prog StorageE (option goerr) :=
  let m := with_request (with_crd m None) None in
  ctxErr ← trigger CtxErr;
  match ctxErr with
  | Some err => fail_step m EventActionValidate err
  | None => execute_validate m
  end.

(** [Migrate], once its clients exist. *)
Definition Migrate (crdName : string) : prog StorageE (option goerr) :=
  execute (MkMigration 1000000000 crdName None "" (MkGVR "" "" "") None).

(** The runnable of [RunStorageVersionMigration]: it never fails the manager; [true] when the
    failure is logged. [None]: the manager's context ended. *)
Definition runnable (crdName : string) (managerCtxDone : bool) : prog StorageE bool :=
  err ← Migrate crdName;
  mret (match err with Some _ => negb managerCtxDone | None => false end).

Definition migrated_CRDs : list string :=
  ["datascienceclusters.datasciencecluster.opendatahub.io";
   "dscinitializations.dscinitialization.opendatahub.io";
   "platforms.config.opendatahub.io"].

End migrate.
