(* ===== verification/StorageMigrationTheorems.v ===== *)
(** * Properties of storage version migration

    What a CRD's storage version is; that the storage history is pruned only after the
    migration of that very CRD was seen to have succeeded, and the request deleted only after
    that; which events a run emits. The class [MigrationLibLaws] states what the code relies
    on of the polling loop and of ranging over a map; [lib_documented] satisfies it. *)

From S2P Require Import Prelude Effects Unstructured Sha256 StorageMigration.

(** ** Laws of the library code *)

(** The loop returns nil only right after the condition held; until then it only evaluates
    the condition and waits. *)
Class MigrationLibLaws `{MigrationLib} := {
  range_perm m : range_annotations m ≡ₚ map_to_list m;
  poll_rule interval immediate (cond : prog StorageE (result bool)) (I Done : list (call StorageE) → Prop) tr :
    I tr → (∀ tr x, I tr → I (tr ++ [Call PollTick x])) →
    (∀ tr, I tr → wp cond tr (λ tr' r, match r with Ok true => Done tr' | _ => I tr' end)) →
    wp (PollUntilContextCancel interval immediate cond) tr
      (λ tr' err, match err with None => Done tr' | Some _ => I tr' end);
}.

(** At most [n] evaluations, then the deadline. *)
Fixpoint poll_n (n : nat) (cond : prog StorageE (result bool)) : prog StorageE (option goerr) :=
  match n with
  | O => mret (Some (errorf "context deadline exceeded"))
  | S n =>
      r ← cond;
      match r with
      | Err err => mret (Some err)
      | Ok true => mret None
      | Ok false =>
          ended ← trigger PollTick;
          match ended with Some err => mret (Some err) | None => poll_n n cond end
      end
  end.

(** The conditions as the converter decodes them: a list of maps under [status]. *)
Definition decode_condition (v : value) : result MigCondition :=
  match v with
  | VMap m =>
      let field k := default "" (as_string (map_get m k)) in
      Ok (MkMigCondition (field "type") (field "status") (field "reason") (field "message"))
  | _ => Err (errorf "cannot restore struct from a value that is not a map")
  end.

Definition decode_documented (object : value_map) : result (list MigCondition) :=
  match map_get object "status" with
  | VMap status =>
      match map_get status "conditions" with
      | VSlice l => mapM decode_condition l
      | VNull => Ok []
      | _ => Err (errorf "cannot restore slice")
      end
  | VNull => Ok []
  | _ => Err (errorf "cannot restore struct")
  end.

Definition lib_documented (ticks : nat) : MigrationLib := {|
  ToUnstructured := Ok;
  DecodeConditions := decode_documented;
  range_annotations := map_to_list;
  PollUntilContextCancel := λ _ _, poll_n ticks;
|}.

Lemma lib_documented_laws ticks : MigrationLibLaws (H := lib_documented ticks).
Proof.
  split; [done|]. intros interval immediate cond I Done tr HI Htick Hcond. cbn [PollUntilContextCancel lib_documented].
  revert tr HI. induction ticks as [|n IH]; intros tr HI; cbn [poll_n]; [done|].
  apply wp_bind. eapply wp_mono; [|by apply Hcond]. intros tr' [[|]|err] Hr; [done| |done].
  apply wp_bind, wp_call. intros [err|]; [by apply wp_ret, Htick|by apply IH, Htick].
Qed.

(** ** The storage version *)

(** The abstract specification: the CRD is usable, exactly one of its versions is the storage
    version, it is served, and the history lists it among distinct, nonempty versions. *)
Definition usable (crd : StorageCRD) : Prop :=
  s_UID crd ≠ "" ∧ s_ResourceVersion crd ≠ "" ∧ s_Deleting crd = false ∧
  s_Group crd ≠ "" ∧ s_Plural crd ≠ "" ∧ s_Name crd = s_Plural crd +:+ "." +:+ s_Group crd.

Definition is_storage_version (crd : StorageCRD) (storage : string) : Prop :=
  (∃ version, filter (λ v, v_Storage v = true) (s_Versions crd) = [version] ∧
     v_Name version = storage ∧ v_Served version = true) ∧
  storage ≠ "" ∧ storage ∈ s_StoredVersions crd ∧
  NoDup (s_StoredVersions crd) ∧ "" ∉ s_StoredVersions crd.

Lemma history_ok_spec history seen :
  history_ok history seen = true ↔
    NoDup history ∧ "" ∉ history ∧ ∀ v, v ∈ history → v ∉ seen.
Proof.
  revert seen. induction history as [|v history IH]; intros seen; cbn [history_ok].
  { split; [|done]. intros _. split; [constructor|]. split; [by intros ?%elem_of_nil|by intros ? ?%elem_of_nil]. }
  destruct (String.eqb_spec v "") as [->|Hv]; cbn [orb].
  { split; [done|]. intros (_ & Hn & _). destruct Hn. by left. }
  case_bool_decide as Hs.
  { split; [done|]. intros (_ & _ & Hn). destruct (Hn v); [by left|done]. }
  rewrite IH, NoDup_cons, not_elem_of_cons. split.
  - intros (Hnd & He & Hseen). split; [split; [|done]|split; [by split|]].
    + intros Hin. apply (Hseen _ Hin), elem_of_union. left. by apply elem_of_singleton.
    + intros w [->|Hw]%elem_of_cons; [done|]. intros Hin. apply (Hseen _ Hw), elem_of_union. by right.
  - intros ([Hnin Hnd] & [_ He] & Hseen). split; [done|]. split; [done|].
    intros w Hw [->%elem_of_singleton|Hin]%elem_of_union; [done|]. apply (Hseen w); [by right|done].
Qed.

Lemma storage_of_nonempty versions storage :
  storage ≠ "" →
  match storage_of versions storage with
  | Ok s => s = storage ∧ filter (λ v, v_Storage v = true) versions = []
  | Err _ => filter (λ v, v_Storage v = true) versions ≠ []
  end.
Proof.
  intros Hs. induction versions as [|v versions IH]; cbn [storage_of]; [done|].
  destruct (v_Storage v) eqn:Hv; cbn [negb].
  - unfold nonempty_str. rewrite (proj2 (String.eqb_neq storage "")) by done. cbn [negb orb].
    by rewrite filter_cons_True.
  - by rewrite filter_cons_False by congruence.
Qed.

Lemma storage_of_spec versions storage :
  storage ≠ "" →
  storage_of versions "" = Ok storage ↔
    ∃ version, filter (λ v, v_Storage v = true) versions = [version] ∧
      v_Name version = storage ∧ v_Served version = true.
Proof.
  intros Hs. induction versions as [|v versions IH]; cbn [storage_of].
  { split; [intros [= <-]; done|intros (? & ? & _); done]. }
  destruct (v_Storage v) eqn:Hv; cbn [negb]; [|by rewrite filter_cons_False by congruence].
  rewrite filter_cons_True by done. cbn [nonempty_str negb String.eqb orb].
  destruct (String.eqb_spec (v_Name v) "") as [He|He]; cbn [orb].
  { split; [done|]. intros (w & [= <- _] & Hn & _). congruence. }
  destruct (v_Served v) eqn:Hserved; cbn [negb].
  2:{ split; [done|]. intros (w & [= <- _] & _ & Hn). congruence. }
  pose proof (storage_of_nonempty versions (v_Name v) He) as Hrest.
  destruct (storage_of versions (v_Name v)) as [s|err].
  - destruct Hrest as [-> ->]. split; [intros [= <-]; eauto|]. by intros (w & [= <-] & <- & _).
  - split; [done|]. intros (w & [= _ Hnil] & _). by rewrite Hnil in Hrest.
Qed.

(** The storage version of a CRD is computed exactly when the CRD is usable, has exactly
    one storage version, that version is served, and the storage history lists it among
    distinct nonempty versions; in any other case the result is an error. *)
Theorem storageVersion_spec crd storage :
  storageVersion (Some crd) = Ok storage ↔ usable crd ∧ is_storage_version crd storage.
Proof.
  unfold storageVersion, usable, is_storage_version.
  destruct (String.eqb_spec (s_UID crd) ""), (String.eqb_spec (s_ResourceVersion crd) ""); cbn [orb];
    try (split; [done|intros [(? & ? & _) _]; congruence]).
  destruct (s_Deleting crd); [split; [done|intros [(_ & _ & ? & _) _]; congruence]|].
  destruct (String.eqb_spec (s_Group crd) ""), (String.eqb_spec (s_Plural crd) ""),
    (String.eqb_spec (s_Name crd) (s_Plural crd +:+ "." +:+ s_Group crd)); cbn [orb negb];
    try (split; [done|intros [(_ & _ & _ & ? & ? & ?) _]; congruence]).
  destruct (storage_of (s_Versions crd) "") as [s|err] eqn:Hs.
  2:{ split; [done|]. intros [_ (Hv & Hne & _)]. apply storage_of_spec in Hv; [congruence|done]. }
  destruct (String.eqb_spec s "") as [->|Hne]; cbn [orb].
  { split; [done|]. intros [_ (Hv & Hne & _)]. apply storage_of_spec in Hv; [congruence|done]. }
  pose proof (proj1 (storage_of_spec _ _ Hne) Hs) as Hspec. case_bool_decide as Hin; cbn [negb].
  2:{ split; [done|]. intros [_ (Hv & Hn & Hi & _)]. apply storage_of_spec in Hv; [congruence|done]. }
  destruct (history_ok (s_StoredVersions crd) ∅) eqn:Hh.
  - apply history_ok_spec in Hh as (Hnd & He & _). split.
    + intros [= <-]. done.
    + intros [_ (Hv & Hn & _)]. apply storage_of_spec in Hv; [congruence|done].
  - split; [done|]. intros [_ (_ & _ & _ & Hnd & He)].
    assert (history_ok (s_StoredVersions crd) ∅ = true); [|congruence].
    apply history_ok_spec. split; [done|]. split; [done|]. intros v _ ?%elem_of_empty. done.
Qed.

(** ** Whole runs *)

(** The events of a run: reason and action. *)
Definition outcome_of (c : call StorageE) : option (string * string) :=
  match c with Call e _ => match e with Eventf r => Some (rec_Reason r, rec_Action r) | _ => None end end.

Definition outcomes (tr : list (call StorageE)) : list (string * string) := omap outcome_of tr.

Lemma outcomes_app tr new : outcomes (tr ++ new) = outcomes tr ++ outcomes new.
Proof. apply omap_app. Qed.

Section runs.
Context `{MigrationLib, !MigrationLibLaws} (crdName : string).
Implicit Types (tr pre new : list (call StorageE)).

(** The CRD was read by the run and needs its history pruned to [storage]. *)
Definition crd_read tr (original : StorageCRD) (storage : string) : Prop :=
  Call (GetStorageCRD crdName) (Ok (Some original)) ∈ tr ∧
  storageVersion (Some original) = Ok storage ∧ s_StoredVersions original ≠ [storage].

(** A request for that CRD that this operator made was created or found. *)
Definition request_held tr original storage api (expected request : MigRequest) : Prop :=
  newRequest original storage api = Ok expected ∧ validateRequest (Some request) expected = None ∧
  (Call (CreateRequest api expected) (Ok (Some request)) ∈ tr ∨
   Call (GetRequest api (q_Name expected)) (Ok (Some request)) ∈ tr).

(** That very request was seen to have succeeded. *)
Definition request_done_seen tr api (expected request : MigRequest) : Prop :=
  ∃ polled, Call (GetRequest api (q_Name expected)) (Ok (Some polled)) ∈ tr ∧
    validateRequest (Some polled) (SetUID expected (q_UID request)) = None ∧ requestSucceeded polled = Ok true.

Definition migrated tr (original : StorageCRD) (storage : string) api (request : MigRequest) : Prop :=
  ∃ expected, crd_read tr original storage ∧ request_held tr original storage api expected request ∧
    request_done_seen tr api expected request.

(** The CRD as it is reread before pruning. *)
Definition unchanged (original current : StorageCRD) (storage : string) : Prop :=
  storageVersion (Some current) = Ok storage ∧ s_UID current = s_UID original ∧
  s_Generation current = s_Generation original.

Definition reread (original current : StorageCRD) : call StorageE :=
  Call (GetStorageCRD (s_Name original)) (Ok (Some current)).

Definition pruned tr (original : StorageCRD) (storage : string) : Prop :=
  ∃ current, reread original current ∈ tr ∧ unchanged original current storage ∧
    (s_StoredVersions current = [storage] ∨
     Call (PatchStoredVersions (s_Name current) (s_ResourceVersion current) [storage]) None ∈ tr).

(** What a run may write after the calls [pre]. *)
Definition migration_call pre (c : call StorageE) : Prop :=
  match c with
  | Call e _ =>
      match e with
      | CreateRequest api expected => ∃ original storage,
          crd_read pre original storage ∧ newRequest original storage api = Ok expected
      | PatchStoredVersions name resourceVersion versions => ∃ original storage api request current,
          migrated pre original storage api request ∧ last pre = Some (reread original current) ∧
          unchanged original current storage ∧ name = s_Name current ∧
          resourceVersion = s_ResourceVersion current ∧ versions = [storage]
      | DeleteRequest api name uid => ∃ original storage request,
          migrated pre original storage api request ∧ pruned pre original storage ∧
          name = q_Name request ∧ uid = q_UID request
      | _ => True
      end
  end.

Lemma crd_read_mono tr new original storage : crd_read tr original storage → crd_read (tr ++ new) original storage.
Proof. intros [Hin Hrest]. split; [|done]. apply elem_of_app. by left. Qed.

Lemma request_held_mono tr new original storage api expected request :
  request_held tr original storage api expected request →
  request_held (tr ++ new) original storage api expected request.
Proof.
  intros (Hn & Hv & Hin). do 2 (split; [done|]). destruct Hin as [Hin|Hin]; [left|right]; apply elem_of_app; by left.
Qed.

Lemma migrated_mono tr new original storage api request :
  migrated tr original storage api request → migrated (tr ++ new) original storage api request.
Proof.
  intros (expected & Hr & Hh & polled & Hin & Hp). exists expected.
  split; [by apply crd_read_mono|]. split; [by apply request_held_mono|]. exists polled.
  split; [|done]. apply elem_of_app. by left.
Qed.

Lemma pruned_mono tr new original storage : pruned tr original storage → pruned (tr ++ new) original storage.
Proof.
  intros (current & Hin & Hu & Hp). exists current. split; [apply elem_of_app; by left|]. split; [done|].
  destruct Hp as [Hp|Hp]; [by left|right; apply elem_of_app; by left].
Qed.

(** An invariant of a run that has emitted the events [evs] so far. *)
Definition good tr (evs : list (string * string)) : Prop := each_after migration_call tr ∧ outcomes tr = evs.

Lemma good_snoc tr evs (c : call StorageE) :
  good tr evs → migration_call tr c → outcome_of c = None → good (tr ++ [c]) evs.
Proof.
  intros [Hall Hev] Hc Ho. split; [by apply each_after_snoc|]. rewrite outcomes_app, Hev.
  cbn [outcomes omap list_omap]. rewrite Ho. by rewrite app_nil_r.
Qed.

Ltac good_call := apply good_snoc; [done|exact I|done].

Ltac stops := apply wp_ret; split; [done|]; split; [rewrite <-?app_assoc; eauto|done].

Lemma event_wp m ev tr evs :
  good tr evs → wp (event m ev) tr (λ tr' _, good tr' (evs ++ [(e_reason ev, e_action ev)]) ∧ ∃ new, tr' = tr ++ new).
Proof.
  intros [Hall Hev]. apply wp_call. intros x. split; [|by eexists]. split; [apply each_after_snoc; [done|exact I]|].
  by rewrite outcomes_app, Hev.
Qed.

(** A failed step: silent when the context was cancelled, else one warning. *)
Definition failed_with (action : string) evs tr (err : goerr) : Prop :=
  good tr (evs ++ (if err_is TagCanceled err then [] else [(failedReason, action)])).

Lemma fail_step_wp m action err tr evs :
  good tr evs →
  wp (fail_step m action err) tr (λ tr' r, ∃ err', r = Some err' ∧ failed_with action evs tr' err').
Proof.
  intros Hg. unfold fail_step, failed_with. destruct (err_is TagCanceled err) eqn:Hc.
  - apply wp_ret. exists err. split; [done|]. by rewrite Hc, app_nil_r.
  - apply wp_bind. eapply wp_mono; [|by apply event_wp]. intros tr' _ [Hg' _]. apply wp_ret.
    eexists. split; [done|]. change (err_is TagCanceled (wrapf _ err)) with (err_is TagCanceled err). by rewrite Hc.
Qed.

(** *** Pruning *)

Lemma pruneStorageHistory_wp original storage api request tr evs :
  good tr evs → migrated tr original storage api request →
  wp (pruneStorageHistory original storage) tr (λ tr' err, good tr' evs ∧ (∃ new, tr' = tr ++ new) ∧
    (err = None → pruned tr' original storage)).
Proof.
  intros Hg Hm. apply wp_bind, wp_call. intros answer.
  assert (good (tr ++ [Call (GetStorageCRD (s_Name original)) answer]) evs) as Hg1 by good_call.
  destruct answer as [current|err]; [|stops].
  destruct (storageVersion current) as [currentStorage|err] eqn:Hs; [|stops].
  destruct current as [crd|]; [|stops].
  destruct (String.eqb_spec (s_UID crd) (s_UID original)) as [Hu|]; [|stops].
  destruct (String.eqb_spec currentStorage storage) as [->|]; [|stops]. cbn [negb orb].
  destruct (Z.eqb_spec (s_Generation crd) (s_Generation original)) as [Hgen|]; [|stops].
  cbn [negb]. case_bool_decide as Hh.
  - apply wp_ret. split; [done|]. split; [eauto|]. intros _. exists crd.
    split; [apply elem_of_app; right; by left|]. split; [done|]. by left.
  - apply wp_bind, wp_call. intros err. apply wp_ret. split; [|split].
    + apply good_snoc; [done| |done]. exists original, storage, api, request, crd.
      split; [by apply migrated_mono|]. split; [by rewrite last_snoc|]. done.
    + rewrite <-app_assoc. eauto.
    + destruct err as [err|]; [done|]. intros _. exists crd.
      split; [apply elem_of_app; left; apply elem_of_app; right; by left|]. split; [done|].
      right. apply elem_of_app. right. by left.
Qed.

(** *** Waiting *)

Lemma request_done_wp api expected request tr evs :
  good tr evs →
  wp (request_done api (SetUID expected (q_UID request))) tr (λ tr' r, good tr' evs ∧ (∃ new, tr' = tr ++ new) ∧
    (r = Ok true → request_done_seen tr' api expected request)).
Proof.
  intros Hg. apply wp_bind, wp_call. intros answer. apply wp_ret.
  split; [good_call|]. split; [eauto|]. intros Hr.
  destruct answer as [current|err]; [|done].
  destruct (validateRequest current _) eqn:Hv; [done|]. destruct current as [polled|]; [|done].
  exists polled. split; [|done]. apply elem_of_app. right. by left.
Qed.

Lemma wait_and_prune_wp m original expected request tr evs :
  good tr evs → crd_read tr original (m_storage m) →
  request_held tr original (m_storage m) (m_api m) expected request →
  wp (wait_and_prune m original expected request) tr (λ tr' err, good tr' evs ∧ (∃ new, tr' = tr ++ new) ∧
    (err = None → migrated tr' original (m_storage m) (m_api m) request ∧ pruned tr' original (m_storage m))).
Proof.
  intros Hg Hr Hh. unfold wait_and_prune. apply wp_bind.
  set (I := λ tr', good tr' evs ∧ ∃ new, tr' = tr ++ new).
  eapply wp_mono; [|apply (poll_rule _ _ _ I (λ tr', I tr' ∧ request_done_seen tr' (m_api m) expected request))].
  - intros tr1 [err|]; [intros [Hg1 Hn1]; by apply wp_ret|]. intros [[Hg1 [new ->]] Hd].
    apply wp_bind, wp_call. intros ctxErr.
    assert (good ((tr ++ new) ++ [Call CtxErr ctxErr]) evs) as Hg2 by good_call.
    destruct ctxErr as [err|]; [stops|].
    assert (migrated ((tr ++ new) ++ [Call CtxErr None]) original (m_storage m) (m_api m) request) as Hm.
    { apply migrated_mono. exists expected. split; [by apply crd_read_mono|]. split; [by apply request_held_mono|done]. }
    apply wp_bind. eapply wp_mono; [|by apply (pruneStorageHistory_wp _ _ (m_api m) request)].
    intros tr3 err (Hg3 & (new' & ->) & Hp). apply wp_ret. split; [done|]. rewrite <-!app_assoc. split; [eauto|].
    rewrite !app_assoc. intros He. destruct err; [done|]. split; [|by apply Hp].
    by apply migrated_mono.
  - split; [done|]. exists []. by rewrite app_nil_r.
  - intros tr' x [Hg' [new ->]]. split; [good_call|]. rewrite <-app_assoc. eauto.
  - intros tr' [Hg' [new ->]]. eapply wp_mono; [|by apply request_done_wp].
    intros tr'' r (Hg'' & (new' & ->) & Hd). rewrite <-app_assoc in *.
    destruct r as [[|]|]; [split; [split; [done|eauto]|by apply Hd]|split; eauto|split; eauto].
Qed.

(** *** Running *)

Lemma createOrGet_wp original storage api expected tr evs :
  good tr evs → crd_read tr original storage → newRequest original storage api = Ok expected →
  wp (createOrGetMigrationRequest api expected) tr (λ tr' r, good tr' evs ∧ (∃ new, tr' = tr ++ new) ∧
    ∀ request, r = Ok (Some request) →
      Call (CreateRequest api expected) (Ok (Some request)) ∈ tr' ∨
      Call (GetRequest api (q_Name expected)) (Ok (Some request)) ∈ tr').
Proof.
  intros Hg Hr Hn. unfold createOrGetMigrationRequest. apply wp_bind, wp_call. intros created.
  assert (good (tr ++ [Call (CreateRequest api expected) created]) evs) as Hg1.
  { apply good_snoc; [done| |done]. by exists original, storage. }
  destruct created as [request|err]; [|destruct (err_is TagAlreadyExists err)].
  - apply wp_bind, wp_ret, wp_ret. split; [done|]. split; [eauto|]. intros request' [= ->].
    left. apply elem_of_app. right. by left.
  - apply wp_bind, wp_call. intros got. apply wp_ret. split; [good_call|].
    split; [rewrite <-app_assoc; eauto|]. intros request Hgot. right. apply elem_of_app. right.
    destruct got; [|done]. injection Hgot as ->. by left.
  - apply wp_bind, wp_ret, wp_ret. split; [done|]. split; [eauto|]. done.
Qed.

(** What a step knows of the receiver it returns. *)
Definition step_done tr m : Prop :=
  ∃ original request, m_crd m = Some original ∧ m_request m = Some request ∧
    migrated tr original (m_storage m) (m_api m) request ∧ pruned tr original (m_storage m).

Lemma run_step_wp m original tr evs :
  good tr evs → m_crd m = Some original → crd_read tr original (m_storage m) →
  wp (run_step m) tr (λ tr' r, good tr' evs ∧ m_crdName r.1 = m_crdName m ∧ (r.2 = None → step_done tr' r.1)).
Proof.
  intros Hg Hcrd Hr. unfold run_step. rewrite Hcrd.
  destruct (newRequest original (m_storage m) (m_api m)) as [expected|err] eqn:Hn; [|by apply wp_ret].
  apply wp_bind. eapply wp_mono; [|by apply (createOrGet_wp original (m_storage m))].
  intros tr1 got (Hg1 & (new & ->) & Hgot). destruct got as [request|err]; [|by apply wp_ret].
  destruct (validateRequest request expected) eqn:Hv; [by apply wp_ret|].
  destruct request as [request|]; [|by apply wp_ret].
  destruct (requestSucceeded request); [|by apply wp_ret].
  apply wp_bind. eapply wp_mono; [|apply (wait_and_prune_wp _ original _ _ _ evs)].
  - intros tr2 err (Hg2 & _ & Hdone). apply wp_ret. split; [done|]. split; [done|]. intros He.
    exists original, request. split; [done|]. split; [done|]. by apply Hdone.
  - done.
  - by apply crd_read_mono.
  - split; [done|]. split; [done|]. by apply Hgot.
Qed.

Lemma cleanup_wp m tr evs :
  good tr evs → step_done tr m → wp (cleanup m) tr (λ tr' _, good tr' evs ∧ ∃ new, tr' = tr ++ new).
Proof.
  intros Hg (original & request & _ & Hreq & Hm & Hp). apply wp_bind, wp_call. intros err. apply wp_ret.
  split; [|eauto]. apply good_snoc; [done| |done]. exists original, (m_storage m), request.
  unfold request_name, request_uid. rewrite Hreq. done.
Qed.

(** *** The whole run *)

(** The events of the steps, in order. *)
Definition steps : list (string * string) :=
  [(validatedReason, EventActionValidate); (discoveredReason, discoverAction);
   (succeededReason, runAction); (cleanedUpReason, cleanupAction)].

(** The CRD does not exist, or its history is already pruned. *)
Definition not_needed tr : Prop :=
  ∃ answer, Call (GetStorageCRD crdName) answer ∈ tr ∧
    match answer with
    | Err err => err_is TagNotFound err = true
    | Ok (Some crd) => ∃ storage, storageVersion (Some crd) = Ok storage ∧ s_StoredVersions crd = [storage]
    | Ok None => False
    end.

Definition run_outcome tr (err : option goerr) : Prop :=
  each_after migration_call tr ∧
  match err with
  | None =>
      (outcomes tr = [(EventReasonNotNeeded, EventActionValidate)] ∧ not_needed tr) ∨
      (outcomes tr = steps ∧ ∃ original storage api request,
         migrated tr original storage api request ∧ pruned tr original storage)
  | Some err =>
      ∃ k step, steps !! k = Some step ∧
        outcomes tr = take k steps ++ (if err_is TagCanceled err then [] else [(failedReason, step.2)])
  end.

Lemma failing_step m k step err tr :
  steps !! k = Some step → good tr (take k steps) → wp (fail_step m step.2 err) tr run_outcome.
Proof.
  intros Hk Hg. eapply wp_mono; [|by apply fail_step_wp]. intros tr' r (err' & -> & [Hall Hev]).
  split; [done|]. by exists k, step.
Qed.

Lemma execute_cleanup_wp m tr :
  good tr (take 3 steps) → step_done tr m → wp (execute_cleanup m) tr run_outcome.
Proof.
  intros Hg Hd. apply wp_bind. eapply wp_mono; [|by apply cleanup_wp].
  intros tr1 [err|] [Hg1 (new & ->)]; [by apply (failing_step m 3 (cleanedUpReason, cleanupAction))|].
  apply wp_bind. eapply wp_mono; [|by apply event_wp]. intros tr2 _ [[Hall Hev] (new' & ->)]. apply wp_ret.
  split; [done|]. right. split; [done|]. destruct Hd as (original & request & _ & _ & Hm & Hp).
  exists original, (m_storage m), (m_api m), request. by split; [do 2 apply migrated_mono|do 2 apply pruned_mono].
Qed.

Lemma execute_run_wp m original tr :
  good tr (take 2 steps) → m_crd m = Some original → crd_read tr original (m_storage m) →
  wp (execute_run m) tr run_outcome.
Proof.
  intros Hg Hcrd Hr. apply wp_bind. eapply wp_mono; [|by apply (run_step_wp m original)].
  intros tr1 [m1 [err|]] (Hg1 & _ & Hd); cbn [fst snd] in *;
    [by apply (failing_step m1 2 (succeededReason, runAction))|].
  apply wp_bind. eapply wp_mono; [|by apply event_wp]. intros tr2 _ [Hg2 (new & ->)].
  apply execute_cleanup_wp; [done|]. destruct (Hd eq_refl) as (original' & request & H1 & H2 & Hm & Hp).
  exists original', request. split; [done|]. split; [done|]. by split; [apply migrated_mono|apply pruned_mono].
Qed.

Lemma discover_wp apis tr evs :
  good tr evs → wp (discover_apis apis) tr (λ tr' _, good tr' evs ∧ ∃ new, tr' = tr ++ new).
Proof.
  revert tr. induction apis as [|api apis IH]; intros tr Hg; cbn [discover_apis].
  { apply wp_ret. split; [done|]. exists []. by rewrite app_nil_r. }
  apply wp_bind, wp_call. intros answer.
  assert (good (tr ++ [Call (ServerResources (GroupVersion api)) answer]) evs) as Hg1 by good_call.
  assert (wp (discover_apis apis) (tr ++ [Call (ServerResources (GroupVersion api)) answer])
            (λ tr' _, good tr' evs ∧ ∃ new, tr' = tr ++ new)) as Hrest.
  { eapply wp_mono; [|by apply IH]. intros tr' _ [Hg' (new & ->)]. split; [done|]. rewrite <-app_assoc. eauto. }
  destruct answer as [[resources|]|err].
  - destruct (find_resource _ _ _); [apply wp_ret; eauto|done].
  - apply wp_ret. eauto.
  - destruct (err_is TagNotFound err); [done|apply wp_ret; eauto].
Qed.

Lemma execute_discover_wp m original tr :
  good tr (take 1 steps) → m_crd m = Some original → crd_read tr original (m_storage m) →
  wp (execute_discover m) tr run_outcome.
Proof.
  intros Hg Hcrd Hr. unfold execute_discover, discover. apply wp_bind, wp_bind.
  eapply wp_mono; [|by apply (discover_wp migrationAPIs)].
  intros tr1 [api|err] [Hg1 (new & ->)]; apply wp_ret; cbn [fst snd];
    [|by apply (failing_step m 1 (discoveredReason, discoverAction))].
  apply wp_bind. eapply wp_mono; [|by apply event_wp]. intros tr2 _ [Hg2 (new' & ->)].
  apply (execute_run_wp _ original); [done|done|]. by do 2 apply crd_read_mono.
Qed.

Lemma execute_wp m : m_crdName m = crdName → wp (execute m) [] run_outcome.
Proof.
  intros Hname. assert (good [] []) as Hg by by split; [apply each_after_nil|].
  unfold execute. apply wp_bind, wp_call. intros ctxErr.
  assert (good ([] ++ [Call CtxErr ctxErr]) []) as Hg1 by good_call.
  destruct ctxErr as [err|]; [by apply (failing_step _ 0 (validatedReason, EventActionValidate))|].
  unfold execute_validate, validate. apply wp_bind, wp_bind, wp_call. cbn [m_crdName with_request with_crd].
  rewrite Hname. intros answer.
  match goal with |- wp _ ?l _ => assert (good l []) as Hg2 by good_call end.
  assert (∀ m' err, wp (fail_step m' EventActionValidate err)
            (([] ++ [Call CtxErr None]) ++ [Call (GetStorageCRD crdName) answer]) run_outcome) as Hfail.
  { intros m' err. by apply (failing_step _ 0 (validatedReason, EventActionValidate)). }
  assert (∀ m', not_needed [Call (GetStorageCRD crdName) answer] →
            wp (_ ← normal m' EventReasonNotNeeded EventActionValidate
                  ("CRD " +:+ m_crdName m' +:+ " does not need storage migration"); mret None)
            (([] ++ [Call CtxErr None]) ++ [Call (GetStorageCRD crdName) answer]) run_outcome) as Hskip.
  { intros m' (a & Ha & Hnn). apply wp_bind. eapply wp_mono; [|by apply event_wp].
    intros tr' _ [[Hall Hev] (new & ->)]. apply wp_ret. split; [done|]. left. split; [done|].
    exists a. split; [|done]. apply elem_of_app. left. apply elem_of_app. by right. }
  apply wp_ret. destruct answer as [crd|err].
  2:{ destruct (err_is TagNotFound err) eqn:Hnf; [|apply Hfail]. apply Hskip. eexists. split; [by left|done]. }
  destruct (storageVersion crd) as [storage|err] eqn:Hs; [|apply Hfail].
  destruct crd as [crd|]; [|done].
  case_bool_decide as Hh.
  { apply Hskip. eexists. split; [by left|]. simpl. eauto. }
  apply wp_bind. eapply wp_mono; [|by apply event_wp]. intros tr2 _ [Hg3 (new & ->)].
  apply (execute_discover_wp _ crd); [done|done|]. apply crd_read_mono. split; [|done].
  apply elem_of_app. right. by left.
Qed.

End runs.

(** C14: whatever the cluster answers, storage migration writes only this: a request made for
    the CRD it read; a prune of the storage history to the storage version, right after
    rereading the CRD with the same UID, generation and storage version and guarded by its
    resourceVersion, and only after the request for that very CRD was seen to have succeeded;
    and the deletion of that request, by UID, only after the history is pruned. *)
Theorem execute_writes `{MigrationLib, !MigrationLibLaws} m :
  wp (execute m) [] (λ tr _, each_after (migration_call (m_crdName m)) tr).
Proof. eapply wp_mono; [|by apply (execute_wp (m_crdName m))]. by intros tr err [Hall _]. Qed.

(** Every run emits one event per executed step, in order, up to the step that failed: with
    a warning that names it unless the context was cancelled, in which case the error is
    returned silently. Without an error either the migration was not needed, which the run
    read, or the CRD was migrated and its history pruned. *)
Theorem execute_outcome `{MigrationLib, !MigrationLibLaws} m :
  wp (execute m) [] (λ tr err,
    match err with
    | None =>
        (outcomes tr = [(EventReasonNotNeeded, EventActionValidate)] ∧ not_needed (m_crdName m) tr) ∨
        (outcomes tr = steps ∧ ∃ original storage api request,
           migrated (m_crdName m) tr original storage api request ∧ pruned tr original storage)
    | Some err =>
        ∃ k step, steps !! k = Some step ∧
          outcomes tr = take k steps ++ (if err_is TagCanceled err then [] else [(failedReason, step.2)])
    end).
Proof. eapply wp_mono; [|by apply (execute_wp (m_crdName m))]. by intros tr err [_ Hout]. Qed.

(** *** A cluster that migrates: the request succeeds at the third look *)

Definition sample_crd : StorageCRD :=
  MkStorageCRD "things.example.com" "uid-1" "42" 3 false "example.com" "things"
    [MkCRDVersion "v1" true false; MkCRDVersion "v2" true true] ["v1"; "v2"].

Definition with_status (request : MigRequest) (conditions : list value) : MigRequest :=
  MkMigRequest (q_APIVersion request) (q_Kind request) (q_Name request) "req-1" false
    (q_Labels request) (q_Annotations request)
    (map_set (q_Object request) "status" (VMap [("conditions", VSlice conditions)])).

Definition succeeded : value := VMap [("type", VString "Succeeded"); ("status", VString "True")].

(** The state: the request and how often it was read. *)
Definition sample_cluster (X : Type) (e : StorageE X) (st : option MigRequest * nat)
    : X * (option MigRequest * nat) :=
  match e in StorageE X return X * (option MigRequest * nat) with
  | CtxErr => (None, st)
  | GetStorageCRD _ => (Ok (Some sample_crd), st)
  | ServerResources gv =>
      (if String.eqb gv "storagemigration.k8s.io/v1beta1"
       then Ok (Some (MkAPIResourceList gv [MkAPIResource "storageversionmigrations" false requestKind]))
       else Err (Goerr "not found" [TagNotFound]), st)
  | CreateRequest _ request => (Ok (Some (with_status request [])), (Some (with_status request []), O))
  | GetRequest _ _ =>
      (Ok (if (2 <=? st.2)%nat then (λ r, with_status r [succeeded]) <$> st.1 else st.1), (st.1, S st.2))
  | DeleteRequest _ _ _ => (None, st)
  | PatchStoredVersions _ _ _ => (None, st)
  | Eventf _ => (tt, st)
  | PollTick => (None, st)
  end.

Definition sample_migration : migration :=
  MkMigration 1000000000 "things.example.com" None "" (MkGVR "" "" "") None.

Definition sample_run (ticks : nat) : option goerr * (option MigRequest * nat) * list (call StorageE) :=
  run sample_cluster (execute (H := lib_documented ticks) sample_migration) (None, O) [].

(** With enough time the migration completes; without, the request is kept and the history is
    not pruned. *)
Example sample_run_completes :
  (sample_run 3).1.1 = None ∧ outcomes (sample_run 3).2 = steps.
Proof. vm_compute. by split. Qed.

Example sample_run_times_out :
  is_Some (sample_run 2).1.1 ∧
  outcomes (sample_run 2).2 = take 2 steps ++ [(failedReason, runAction)].
Proof. vm_compute. eauto. Qed.

Lemma execute_writes_witness :
  each_after (migration_call (H := lib_documented 3) "things.example.com") (sample_run 3).2.
Proof.
  pose proof (@execute_writes (lib_documented 3) (lib_documented_laws 3) sample_migration) as Hw.
  apply (run_wp sample_cluster _ (None, O)) in Hw. unfold sample_run. exact Hw.
Defined.

Lemma execute_outcome_witness :
  match (sample_run 3).1.1 with
  | None =>
      (outcomes (sample_run 3).2 = [(EventReasonNotNeeded, EventActionValidate)] ∧
       not_needed "things.example.com" (sample_run 3).2) ∨
      (outcomes (sample_run 3).2 = steps ∧ ∃ original storage api request,
         migrated (H := lib_documented 3) "things.example.com" (sample_run 3).2 original storage api request ∧
         pruned (sample_run 3).2 original storage)
  | Some err =>
      ∃ k step, steps !! k = Some step ∧
        outcomes (sample_run 3).2 =
          take k steps ++ (if err_is TagCanceled err then [] else [(failedReason, step.2)])
  end.
Proof.
  pose proof (@execute_outcome (lib_documented 3) (lib_documented_laws 3) sample_migration) as Hw.
  apply (run_wp sample_cluster _ (None, O)) in Hw. unfold sample_run. exact Hw.
Defined.
