(* ===== verification/FailureClassifier.v ===== *)
(** * FailureClassifier: from a cluster-health report to a failure category

    Models [pkg/failureclassifier/classifier.go] and [types.go], on the part of the report
    of [pkg/clusterhealth/types.go] that they read.

    A Go map is ranged over in an unspecified order: a [ByNamespace] map is the list of its
    values in the order of the one loop over it, so a theorem for all reports covers all
    orders. [time.Since] is taken at one instant [now] (nanoseconds); the zero time is
    [None]. [strings.ToLower] is that of ASCII texts. *)

From Stdlib Require Import Btauto.
From S2P Require Import Prelude.

(** ** The report *)

Record SectionResult (T : Type) := MkSection { Error : string; Data : T }.
Arguments MkSection {T} _ _.
Arguments Error {T} _.
Arguments Data {T} _.

Record NodeInfo := MkNode { n_Name : string; UnhealthyReason : string }.

Record DeploymentInfo := MkDeployment {
  d_Namespace : string;
  d_Name : string;
  d_Ready : Z;
  d_Replicas : Z;
  d_CreatedAt : option Z;
}.

Record ContainerInfo := MkContainer { c_Name : string; Waiting : string; Terminated : string }.

Record PodInfo := MkPod {
  p_Name : string;
  Phase : string;
  p_CreatedAt : option Z;
  Containers : list ContainerInfo;
}.

Record EventInfo := MkEvent {
  e_Kind : string;
  e_Name : string;
  Reason : string;
  Message : string;
  LastTime : option Z;
}.

Record ResourceQuotaInfo := MkQuota { q_Namespace : string; q_Name : string; Exceeded : list string }.

Record OperatorSection := MkOperator { o_Deployment : option DeploymentInfo; o_Pods : list PodInfo }.

(** The name of a conditions section; its conditions are not read. *)
Record CRConditionsSection := MkCRSection { cr_Name : string }.

Record Report := MkReport {
  Nodes : SectionResult (list NodeInfo);
  Deployments : SectionResult (list (list DeploymentInfo));
  Pods : SectionResult (list (list PodInfo));
  Events : SectionResult (list EventInfo);
  Quotas : SectionResult (list (list ResourceQuotaInfo));
  Operator : SectionResult OperatorSection;
  DSCI : SectionResult CRConditionsSection;
  DSC : SectionResult CRConditionsSection;
}.

Definition Healthy (r : Report) : bool :=
  String.eqb (Error (Nodes r)) "" && String.eqb (Error (Deployments r)) "" &&
  String.eqb (Error (Pods r)) "" && String.eqb (Error (Events r)) "" &&
  String.eqb (Error (Quotas r)) "" && String.eqb (Error (Operator r)) "" &&
  String.eqb (Error (DSCI r)) "" && String.eqb (Error (DSC r)) "".

(** ** Classifications *)

Definition CategoryInfrastructure : string := "infrastructure".
Definition CategoryTest : string := "test".
Definition CategoryUnknown : string := "unknown".

Definition ConfidenceHigh : string := "high".
Definition ConfidenceMedium : string := "medium".
Definition ConfidenceLow : string := "low".

Definition CodeImagePull : Z := 1001.
Definition CodePodStartup : Z := 1002.
Definition CodeNetwork : Z := 1003.
Definition CodeQuotaOOM : Z := 1004.
Definition CodeNodePressure : Z := 1005.
Definition CodeStorage : Z := 1006.
Definition CodeContainerOOM : Z := 1007.
Definition CodeOperator : Z := 1008.
Definition CodeDSCI : Z := 1009.
Definition CodeDSC : Z := 1010.
Definition CodeRBAC : Z := 1011.
Definition CodeDNS : Z := 1012.
Definition CodeTimeout : Z := 1013.
Definition CodeProbeFailure : Z := 1014.
Definition CodeInvalidFlags : Z := 1015.
Definition CodeContainerExit : Z := 1016.
Definition CodeInfraUnknown : Z := 1099.
Definition CodeNoSignal : Z := 3001.
Definition CodeUnclassifiable : Z := 3000.

Record FailureClassification := MkFC {
  Category : string;
  Subcategory : string;
  ErrorCode : Z;
  Evidence : list string;
  Confidence : string;
}.

Record classificationPattern := MkPattern { pattern : string; subcategory : string; errorCode : Z }.

Definition waitingPatterns : list classificationPattern :=
  [MkPattern "ImagePullBackOff" "image-pull" CodeImagePull;
   MkPattern "ErrImagePull" "image-pull" CodeImagePull;
   MkPattern "InvalidImageName" "image-pull" CodeImagePull;
   MkPattern "CrashLoopBackOff" "pod-startup" CodePodStartup;
   MkPattern "CreateContainerConfigError" "pod-startup" CodePodStartup;
   MkPattern "CreateContainerError" "pod-startup" CodePodStartup].

Definition terminatedPatterns : list classificationPattern :=
  [MkPattern "OOMKilled" "container-oom" CodeContainerOOM;
   MkPattern "(exit 2)" "invalid-cli-flags" CodeInvalidFlags;
   MkPattern "(exit 137)" "container-exit" CodeContainerExit;
   MkPattern "(exit 143)" "container-exit" CodeContainerExit].

Definition networkEventReasons : list string := ["NetworkNotReady"].
Definition networkMessagePatterns : list string := ["network not ready"].
Definition storageEventReasons : list string := ["FailedAttachVolume"; "FailedMount"; "ProvisioningFailed"].
Definition storageMessagePatterns : list string :=
  ["persistentvolumeclaim"; "pvc not found"; "failed to attach volume"; "failed to mount volume";
   "no persistent volumes available"].
Definition rbacMessagePatterns : list string := ["is forbidden"; "access denied"; "does not have permission"].
Definition imagePullEventPatterns : list string :=
  ["unauthorized: authentication"; "failed to pull image"; "failed to pull and unpack image"].
Definition dnsMessagePatterns : list string :=
  ["no such host"; "failed to resolve"; "dns resolution failed"; "name or service not known";
   "temporary failure in name resolution"].
Definition timeoutMessagePatterns : list string :=
  ["context deadline exceeded"; "deadline exceeded"; "timed out waiting"; "operation timed out"].
Definition probeEventReasons : list string := ["Unhealthy"].
Definition probeMessagePatterns : list string :=
  ["liveness probe failed"; "readiness probe failed"; "startup probe failed"].

(** [reasons[reason]] of a map whose values are all true. *)
Definition has_reason (reasons : list string) (reason : string) : bool := bool_decide (reason ∈ reasons).

(** The first element on which [f] answers. *)
Fixpoint first_some {A B} (f : A → option B) (l : list A) : option B :=
  match l with
  | [] => None
  | x :: l => match f x with Some y => Some y | None => first_some f l end
  end.

Definition matchesPattern (text : string) (patterns : list classificationPattern)
    : option classificationPattern :=
  if String.eqb text "" then None
  else first_some (λ p, if contains (to_lower text) (to_lower (pattern p)) then Some p else None) patterns.

Definition containsAnyPattern (text : string) (patterns : list string) : bool :=
  if String.eqb text "" then false else existsb (contains (to_lower text)) patterns.

Definition containsNetworkPattern (text : string) : bool := containsAnyPattern text networkMessagePatterns.
Definition containsStoragePattern (text : string) : bool := containsAnyPattern text storageMessagePatterns.
Definition containsImagePullEventPattern (text : string) : bool := containsAnyPattern text imagePullEventPatterns.
Definition containsRBACPattern (text : string) : bool := containsAnyPattern text rbacMessagePatterns.
Definition containsDNSPattern (text : string) : bool := containsAnyPattern text dnsMessagePatterns.
Definition containsTimeoutPattern (text : string) : bool := containsAnyPattern text timeoutMessagePatterns.
Definition containsProbePattern (text : string) : bool := containsAnyPattern text probeMessagePatterns.

Definition isSuccessfulTermination (terminated : string) : bool := contains terminated "(exit 0)".
Definition isGracefulTermination (terminated : string) : bool := has_prefix terminated "Completed ".

Definition unknown : FailureClassification :=
  MkFC CategoryUnknown "unclassifiable" CodeUnclassifiable ["no matching classification rule"] ConfidenceLow.

Definition infra (sub : string) (code : Z) (evidence : list string) (confidence : string)
    : FailureClassification :=
  MkFC CategoryInfrastructure sub code evidence confidence.

(** 60 seconds and 5 minutes. *)
Definition second : Z := 1000000000.
Definition PendingThreshold : Z := 60 * second.
Definition EventAgeThreshold : Z := 5 * 60 * second.

(** [d.Truncate(time.Second).String()] for a duration of at least a second. *)
Definition seconds_String (d : Z) : string :=
  let s := (d / second)%Z in
  let h := (s / 3600)%Z in
  let m := (s / 60 mod 60)%Z in
  (if (h >? 0)%Z then itoa h +:+ "h" else "") +:+
  (if (s / 60 >? 0)%Z then itoa m +:+ "m" else "") +:+ itoa (s mod 60) +:+ "s".

(** [%v] of a slice of strings. *)
Definition slice_String (l : list string) : string := "[" +:+ join " " l +:+ "]".

(** A loop whose body may return from the function ([inl]) or go on with its variable. *)
Fixpoint scan {A S R} (f : S → A → R + S) (s : S) (l : list A) : R + S :=
  match l with
  | [] => inr s
  | x :: l => match f s x with inl r => inl r | inr s => scan f s l end
  end.

(** [distress.Evidence = append(...)], the first time on a new classification. *)
Definition add_distress (sub : string) (code : Z) (distress : option FailureClassification) (evidence : string)
    : option FailureClassification :=
  match distress with
  | None => Some (infra sub code [evidence] ConfidenceLow)
  | Some fc => Some (MkFC (Category fc) (Subcategory fc) (ErrorCode fc) (Evidence fc ++ [evidence]) (Confidence fc))
  end.

Section classify.
Variable now : Z.

(** [!t.IsZero() && time.Since(t) > d], and the same with [<]. *)
Definition older_than (t : option Z) (d : Z) : bool :=
  match t with Some t => (now - t >? d)%Z | None => false end.
Definition younger_than (t : option Z) (d : Z) : bool :=
  match t with Some t => (now - t <? d)%Z | None => false end.

(** *** Pods *)

Definition container_evidence (pod : PodInfo) (what : string) (c : ContainerInfo) (text : string) : string :=
  "container " +:+ p_Name pod +:+ "/" +:+ c_Name c +:+ " " +:+ what +:+ ": " +:+ text.

Definition distress_evidence (pod : PodInfo) (c : ContainerInfo) : string :=
  if nonempty_str (Waiting c) then container_evidence pod "in unrecognized waiting state" c (Waiting c)
  else if nonempty_str (Terminated c) && negb (isSuccessfulTermination (Terminated c)) &&
          negb (isGracefulTermination (Terminated c))
  then container_evidence pod "terminated" c (Terminated c)
  else "".

Definition container_step (pod : PodInfo) (distress : option FailureClassification) (c : ContainerInfo)
    : FailureClassification + option FailureClassification :=
  match matchesPattern (Waiting c) waitingPatterns with
  | Some m => inl (infra (subcategory m) (errorCode m) [container_evidence pod "waiting" c (Waiting c)]
                    ConfidenceMedium)
  | None =>
      match if isGracefulTermination (Terminated c) then None
            else matchesPattern (Terminated c) terminatedPatterns with
      | Some m => inl (infra (subcategory m) (errorCode m) [container_evidence pod "terminated" c (Terminated c)]
                        ConfidenceMedium)
      | None =>
          let evidence := distress_evidence pod c in
          inr (if nonempty_str evidence
               then add_distress "cluster-distress" CodeInfraUnknown distress evidence else distress)
      end
  end.

Definition stuck_pending (pod : PodInfo) : bool :=
  String.eqb (Phase pod) "Pending" && older_than (p_CreatedAt pod) PendingThreshold.

Definition pod_step (distress : option FailureClassification) (pod : PodInfo)
    : FailureClassification + option FailureClassification :=
  match scan (container_step pod) distress (Containers pod) with
  | inl fc => inl fc
  | inr distress =>
      if stuck_pending pod then
        inl (infra "pod-startup" CodePodStartup
          ["pod " +:+ p_Name pod +:+ " stuck in Pending for " +:+
             seconds_String (now - default 0%Z (p_CreatedAt pod))] ConfidenceHigh)
      else inr distress
  end.

(** The pair [(specific, distress)]. *)
Definition classifyFromPods (report : Report) : option FailureClassification * option FailureClassification :=
  match scan (scan pod_step) None (Data (Pods report)) with
  | inl specific => (Some specific, None)
  | inr distress => (None, distress)
  end.

(** *** Events, quotas, nodes *)

Definition event_evidence (e : EventInfo) : string :=
  "event " +:+ e_Kind e +:+ "/" +:+ e_Name e +:+ ": " +:+ Reason e +:+ " - " +:+ Message e.

Definition classify_event (e : EventInfo) : option FailureClassification :=
  let found sub code := Some (infra sub code [event_evidence e] ConfidenceMedium) in
  if older_than (LastTime e) EventAgeThreshold then None
  else if containsImagePullEventPattern (Message e) then found "image-pull" CodeImagePull
  else if has_reason networkEventReasons (Reason e) || containsNetworkPattern (Message e)
  then found "network" CodeNetwork
  else if has_reason storageEventReasons (Reason e) || containsStoragePattern (Message e)
  then found "storage" CodeStorage
  else if has_reason probeEventReasons (Reason e) || containsProbePattern (Message e)
  then found "probe-failure" CodeProbeFailure
  else if containsRBACPattern (Message e) then found "rbac" CodeRBAC
  else if containsDNSPattern (Message e) then found "dns" CodeDNS
  else if containsTimeoutPattern (Message e) then found "timeout" CodeTimeout
  else None.

Definition classifyFromEvents (report : Report) : option FailureClassification :=
  first_some classify_event (Data (Events report)).

Definition classify_quota (q : ResourceQuotaInfo) : option FailureClassification :=
  match Exceeded q with
  | [] => None
  | exceeded => Some (infra "quota-oom" CodeQuotaOOM
      ["quota " +:+ q_Namespace q +:+ "/" +:+ q_Name q +:+ " exceeded: " +:+ slice_String exceeded] ConfidenceHigh)
  end.

Definition classifyFromQuotas (report : Report) : option FailureClassification :=
  first_some (first_some classify_quota) (Data (Quotas report)).

Definition classify_node (n : NodeInfo) : option FailureClassification :=
  if nonempty_str (UnhealthyReason n)
  then Some (infra "node-pressure" CodeNodePressure ["node " +:+ n_Name n +:+ ": " +:+ UnhealthyReason n]
               ConfidenceHigh)
  else None.

Definition classifyFromNodes (report : Report) : option FailureClassification :=
  first_some classify_node (Data (Nodes report)).

(** *** The operator *)

Definition operator_found (evidence : string) : FailureClassification :=
  infra "operator" CodeOperator [evidence] ConfidenceHigh.

Definition classify_operator_deployment (d : DeploymentInfo) : option FailureClassification :=
  if (d_Replicas d =? 0)%Z then
    Some (operator_found ("operator deployment " +:+ d_Name d +:+ " scaled to 0 replicas"))
  else if (d_Ready d <? d_Replicas d)%Z then
    Some (operator_found ("operator deployment " +:+ d_Name d +:+ " not ready: " +:+ itoa (d_Ready d) +:+ "/" +:+
      itoa (d_Replicas d) +:+ " replicas"))
  else None.

Definition operator_container_step (pod : PodInfo) (distress : option FailureClassification) (c : ContainerInfo)
    : FailureClassification + option FailureClassification :=
  let evidence what text := "operator " +:+ container_evidence pod what c text in
  if matchesPattern (Waiting c) waitingPatterns then inl (operator_found (evidence "waiting" (Waiting c)))
  else if matchesPattern (Terminated c) terminatedPatterns
  then inl (operator_found (evidence "terminated" (Terminated c)))
  else
    let distress := if nonempty_str (Waiting c)
      then add_distress "operator" CodeOperator distress (evidence "in unrecognized waiting state" (Waiting c))
      else distress in
    let distress := if nonempty_str (Terminated c) && negb (isSuccessfulTermination (Terminated c))
      then add_distress "operator" CodeOperator distress (evidence "terminated" (Terminated c))
      else distress in
    inr distress.

Definition operator_pod_step (distress : option FailureClassification) (pod : PodInfo)
    : FailureClassification + option FailureClassification :=
  if negb (String.eqb (Phase pod) "Running") && negb (String.eqb (Phase pod) "Succeeded")
  then inl (operator_found ("operator pod " +:+ p_Name pod +:+ " in phase " +:+ Phase pod))
  else scan (operator_container_step pod) distress (Containers pod).

Definition classifyFromOperator (report : Report)
    : option FailureClassification * option FailureClassification :=
  let op := Data (Operator report) in
  match match o_Deployment op with Some d => classify_operator_deployment d | None => None end with
  | Some fc => (Some fc, None)
  | None =>
      match scan operator_pod_step None (o_Pods op) with
      | inl specific => (Some specific, None)
      | inr distress => (None, distress)
      end
  end.

(** *** Custom resources and the catch-all *)

Definition classifyFromCRConditions (name : string) (section : SectionResult CRConditionsSection) (code : Z)
    : option FailureClassification :=
  if String.eqb (Error section) "" || String.eqb (cr_Name (Data section)) "" then None
  else Some (infra (to_lower name +:+ "-unhealthy") code
         [name +:+ " " +:+ cr_Name (Data section) +:+ " unhealthy: " +:+ Error section] ConfidenceMedium).

Definition classifyFromDSCI (report : Report) := classifyFromCRConditions "DSCI" (DSCI report) CodeDSCI.
Definition classifyFromDSC (report : Report) := classifyFromCRConditions "DSC" (DSC report) CodeDSC.

Definition classify_deployment (d : DeploymentInfo) : option FailureClassification :=
  if (d_Ready d <? d_Replicas d)%Z then
    if younger_than (d_CreatedAt d) PendingThreshold then None
    else Some (infra "cluster-distress" CodeInfraUnknown
      ["deployment " +:+ d_Namespace d +:+ "/" +:+ d_Name d +:+ " not ready: " +:+ itoa (d_Ready d) +:+ "/" +:+
         itoa (d_Replicas d) +:+ " replicas"] ConfidenceLow)
  else None.

Definition classifyClusterDistress (report : Report) (podDistress operatorDistress : option FailureClassification)
    : option FailureClassification :=
  match podDistress with
  | Some fc => Some fc
  | None =>
      match operatorDistress with
      | Some fc => Some fc
      | None => first_some (first_some classify_deployment) (Data (Deployments report))
      end
  end.

(** *** The entry point *)

Definition no_signal : FailureClassification :=
  MkFC CategoryUnknown "no-signal" CodeNoSignal ["all sections collected; no infrastructure pattern matched"]
    ConfidenceLow.

Definition Classify (report : option Report) : FailureClassification :=
  match report with
  | None => unknown
  | Some report =>
      let '(specific, podDistress) := classifyFromPods report in
      match specific with
      | Some fc => fc
      | None =>
          match first_some (λ fn, fn report) [classifyFromEvents; classifyFromQuotas; classifyFromNodes] with
          | Some fc => fc
          | None =>
              let '(specificOperator, operatorDistress) := classifyFromOperator report in
              match specificOperator with
              | Some fc => fc
              | None =>
                  match first_some (λ fn, fn report) [classifyFromDSCI; classifyFromDSC] with
                  | Some fc => fc
                  | None =>
                      match classifyClusterDistress report podDistress operatorDistress with
                      | Some fc => fc
                      | None => if Healthy report then no_signal else unknown
                      end
                  end
              end
          end
      end
  end.

End classify.

(** ** What counts as a signal *)

Definition matches (text : string) (patterns : list classificationPattern) : Prop :=
  text ≠ "" ∧ ∃ p, p ∈ patterns ∧ contains (to_lower text) (to_lower (pattern p)) = true.

(** A container in a known failure state; terminations of a drain (reason Completed) never
    count. *)
Definition known_failure (c : ContainerInfo) : Prop :=
  matches (Waiting c) waitingPatterns ∨
  (isGracefulTermination (Terminated c) = false ∧ matches (Terminated c) terminatedPatterns).

(** A container in an unrecognized waiting or failure state. *)
Definition in_distress (c : ContainerInfo) : Prop :=
  Waiting c ≠ "" ∨ (Terminated c ≠ "" ∧ isSuccessfulTermination (Terminated c) = false ∧
                     isGracefulTermination (Terminated c) = false).

Definition all_reasons : list string := networkEventReasons ++ storageEventReasons ++ probeEventReasons.
Definition all_message_patterns : list string :=
  imagePullEventPatterns ++ networkMessagePatterns ++ storageMessagePatterns ++ probeMessagePatterns ++
  rbacMessagePatterns ++ dnsMessagePatterns ++ timeoutMessagePatterns.

Section signals.
Variable now : Z.

Definition pod_specific (pod : PodInfo) : Prop :=
  (∃ c, c ∈ Containers pod ∧ known_failure c) ∨ stuck_pending now pod = true.
Definition pod_distress (pod : PodInfo) : Prop := ∃ c, c ∈ Containers pod ∧ in_distress c.

Definition event_signal (e : EventInfo) : Prop :=
  older_than now (LastTime e) EventAgeThreshold = false ∧
  (Reason e ∈ all_reasons ∨
   (Message e ≠ "" ∧ ∃ p, p ∈ all_message_patterns ∧ contains (to_lower (Message e)) p = true)).

Definition operator_deployment_down (d : DeploymentInfo) : Prop :=
  d_Replicas d = 0%Z ∨ (d_Ready d < d_Replicas d)%Z.

Definition operator_container_known (c : ContainerInfo) : Prop :=
  matches (Waiting c) waitingPatterns ∨ matches (Terminated c) terminatedPatterns.
Definition operator_container_distress (c : ContainerInfo) : Prop :=
  Waiting c ≠ "" ∨ (Terminated c ≠ "" ∧ isSuccessfulTermination (Terminated c) = false).

Definition operator_pod_specific (pod : PodInfo) : Prop :=
  (Phase pod ≠ "Running" ∧ Phase pod ≠ "Succeeded") ∨ ∃ c, c ∈ Containers pod ∧ operator_container_known c.

Definition cr_unhealthy (section : SectionResult CRConditionsSection) : Prop :=
  Error section ≠ "" ∧ cr_Name (Data section) ≠ "".

Definition deployment_unready (d : DeploymentInfo) : Prop :=
  (d_Ready d < d_Replicas d)%Z ∧ younger_than now (d_CreatedAt d) PendingThreshold = false.

(** Something specific is wrong somewhere. *)
Definition specific_signal (r : Report) : Prop :=
  (∃ pods pod, pods ∈ Data (Pods r) ∧ pod ∈ pods ∧ pod_specific pod) ∨
  (∃ e, e ∈ Data (Events r) ∧ event_signal e) ∨
  (∃ quotas q, quotas ∈ Data (Quotas r) ∧ q ∈ quotas ∧ Exceeded q ≠ []) ∨
  (∃ n, n ∈ Data (Nodes r) ∧ UnhealthyReason n ≠ "") ∨
  (∃ d, o_Deployment (Data (Operator r)) = Some d ∧ operator_deployment_down d) ∨
  (∃ pod, pod ∈ o_Pods (Data (Operator r)) ∧ operator_pod_specific pod) ∨
  cr_unhealthy (DSCI r) ∨ cr_unhealthy (DSC r).

(** Something is wrong, though nothing specific may be known about it. *)
Definition distress_signal (r : Report) : Prop :=
  (∃ pods pod, pods ∈ Data (Pods r) ∧ pod ∈ pods ∧ pod_distress pod) ∨
  (∃ pod c, pod ∈ o_Pods (Data (Operator r)) ∧ c ∈ Containers pod ∧ operator_container_distress c) ∨
  (∃ deploys d, deploys ∈ Data (Deployments r) ∧ d ∈ deploys ∧ deployment_unready d).

End signals.

(** ** Loops *)

Lemma first_some_None {A B} (f : A → option B) l : first_some f l = None ↔ ∀ x, x ∈ l → f x = None.
Proof.
  induction l as [|x l IH]; simpl; [split; [by intros _ ? ?%elem_of_nil|done]|].
  setoid_rewrite elem_of_cons. destruct (f x) as [y|] eqn:Hf.
  - split; [done|]. intros Hall. rewrite <-Hf. by apply Hall; left.
  - rewrite IH. split; [intros Hall x' [->|?]; auto|auto].
Qed.

Lemma first_some_elem {A B} (f : A → option B) l y : first_some f l = Some y → ∃ x, x ∈ l ∧ f x = Some y.
Proof.
  induction l as [|x l IH]; simpl; [done|]. destruct (f x) as [y'|] eqn:Hf.
  - intros [= ->]. exists x. split; [by left|done].
  - intros (x' & ? & ?)%IH. exists x'. split; [by right|done].
Qed.

Lemma exists_cons {A} (P : A → Prop) x l : (∃ y, y ∈ x :: l ∧ P y) ↔ P x ∨ ∃ y, y ∈ l ∧ P y.
Proof.
  setoid_rewrite elem_of_cons. split; [intros (y & [->|?] & ?); eauto|intros [?|(y & ? & ?)]; eauto].
Qed.

(** [o] answers exactly on [P]. *)
Definition decides {B} (o : option B) (P : Prop) : Prop :=
  match o with Some _ => P | None => ¬ P end.

#[export] Instance decides_proper {B} (o : option B) : Proper (iff ==> iff) (decides o).
Proof. intros P Q HPQ. destruct o; simpl; by rewrite HPQ. Qed.

Lemma decides_is_Some {B} (o : option B) (P : Prop) : decides o P → is_Some o ↔ P.
Proof. destruct o; simpl; intros HP; [by split|]. split; [by intros [? [=]]|done]. Qed.

Lemma first_some_decides {A B} (f : A → option B) (P : A → Prop) l :
  (∀ x, decides (f x) (P x)) → decides (first_some f l) (∃ x, x ∈ l ∧ P x).
Proof.
  intros Hf. induction l as [|x l IH]; simpl; [by intros (? & ?%elem_of_nil & _)|].
  specialize (Hf x). destruct (f x) as [y|]; [exists x; split; [by left|done]|].
  destruct (first_some f l) as [y|]; simpl in *; rewrite exists_cons; [by right|]. by intros [?|?].
Qed.

Lemma first_some_nested {A B} (f : A → option B) (P : A → Prop) (ls : list (list A)) :
  (∀ x, decides (f x) (P x)) →
  decides (first_some (first_some f) ls) (∃ l x, l ∈ ls ∧ x ∈ l ∧ P x).
Proof.
  intros Hf. pose proof (first_some_decides (first_some f) _ ls (λ l, first_some_decides f P l Hf)) as Hd.
  destruct (first_some (first_some f) ls); simpl in *; naive_solver.
Qed.

Section scan_lemmas.
Context {A S R : Type} (f : option S → A → R + option S) (P Q : A → Prop).

(** [f] returns exactly on [P]; otherwise its variable is set exactly by [Q]. *)
Definition step_signals : Prop := ∀ s x,
  match f s x with
  | inl _ => P x
  | inr s' => ¬ P x ∧ decides s' (is_Some s ∨ Q x)
  end.

Lemma scan_signals s l : step_signals →
  match scan f s l with
  | inl _ => ∃ x, x ∈ l ∧ P x
  | inr s' => (¬ ∃ x, x ∈ l ∧ P x) ∧ decides s' (is_Some s ∨ ∃ x, x ∈ l ∧ Q x)
  end.
Proof.
  intros Hf. revert s. induction l as [|x l IH]; intros s; simpl.
  - split; [by intros (? & ?%elem_of_nil & _)|].
    destruct s; simpl; [by left|]. by intros [[? [=]]|(? & ?%elem_of_nil & _)].
  - specialize (Hf s x). destruct (f s x) as [r|s1]; [exists x; split; [by left|done]|].
    destruct Hf as [HP HQ]. specialize (IH s1).
    destruct (scan f s1 l) as [r|s2]; rewrite !exists_cons; [by right|]. destruct IH as [IHP IHQ].
    split; [naive_solver|]. rewrite (decides_is_Some _ _ HQ) in IHQ. by rewrite (assoc (∨)).
Qed.

(** What every step establishes of a returned value and keeps of its variable. *)
Lemma scan_keeps (G : R → Prop) (K : option S → Prop) s l :
  (∀ s x, K s → match f s x with inl r => G r | inr s' => K s' end) → K s →
  match scan f s l with inl r => G r | inr s' => K s' end.
Proof.
  intros Hf. revert s. induction l as [|x l IH]; intros s Hs; simpl; [done|].
  specialize (Hf s x Hs). destruct (f s x) as [r|s1]; [done|by apply IH].
Qed.
End scan_lemmas.

Lemma scan_step_signals {A S R} (f : option S → A → R + option S) (P Q : A → Prop) :
  step_signals f P Q →
  step_signals (scan f) (λ l, ∃ x, x ∈ l ∧ P x) (λ l, ∃ x, x ∈ l ∧ Q x).
Proof. intros Hf s l. by apply scan_signals. Qed.

(** ** Each classifier sees exactly its signals *)

Lemma nonempty_str_true s : nonempty_str s = true ↔ s ≠ "".
Proof. unfold nonempty_str. destruct (String.eqb_spec s ""); naive_solver. Qed.

Lemma nonempty_str_false s : nonempty_str s = false ↔ s = "".
Proof. unfold nonempty_str. destruct (String.eqb_spec s ""); naive_solver. Qed.

Lemma matchesPattern_decides text patterns : decides (matchesPattern text patterns) (matches text patterns).
Proof.
  unfold matchesPattern, matches. destruct (String.eqb_spec text "") as [->|Hne]; [by intros [? _]|].
  pose proof (first_some_decides (λ p, if contains (to_lower text) (to_lower (pattern p)) then Some p else None)
    (λ p, contains (to_lower text) (to_lower (pattern p)) = true) patterns) as Hd.
  destruct (first_some _ patterns); (split; [done|apply Hd]) || (intros [_ ?]; apply Hd; [|done]);
    intros p; by destruct (contains _ _).
Qed.

Lemma matchesPattern_None text patterns : matchesPattern text patterns = None → ¬ matches text patterns.
Proof. intros Hm. pose proof (matchesPattern_decides text patterns) as Hd. by rewrite Hm in Hd. Qed.

Lemma matchesPattern_Some text patterns m : matchesPattern text patterns = Some m → matches text patterns ∧ m ∈ patterns.
Proof.
  intros Hm. split.
  - pose proof (matchesPattern_decides text patterns) as Hd. by rewrite Hm in Hd.
  - unfold matchesPattern in Hm. destruct (String.eqb text ""); [done|].
    apply first_some_elem in Hm as (p & Hp & Hc). destruct (contains _ _); [by injection Hc as <-|done].
Qed.

Lemma containsAnyPattern_iff text patterns :
  containsAnyPattern text patterns = true ↔ text ≠ "" ∧ ∃ p, p ∈ patterns ∧ contains (to_lower text) p = true.
Proof.
  unfold containsAnyPattern. destruct (String.eqb_spec text "") as [->|Hne]; [naive_solver|].
  rewrite existsb_exists. setoid_rewrite list_elem_of_In. naive_solver.
Qed.

Lemma add_distress_Some sub code distress evidence : add_distress sub code distress evidence ≠ None.
Proof. by destruct distress. Qed.

Lemma distress_evidence_iff pod c : nonempty_str (distress_evidence pod c) = true ↔ in_distress c.
Proof.
  unfold distress_evidence, in_distress.
  rewrite <-(nonempty_str_true (Waiting c)), <-(nonempty_str_true (Terminated c)).
  destruct (nonempty_str (Waiting c)); [simpl; naive_solver|].
  destruct (nonempty_str (Terminated c)), (isSuccessfulTermination (Terminated c)),
    (isGracefulTermination (Terminated c)); simpl; naive_solver.
Qed.

(** Adding evidence under a condition. *)
Lemma add_distress_if sub code (b : bool) distress evidence (Q : Prop) :
  (b = true ↔ Q) →
  decides (if b then add_distress sub code distress evidence else distress) (is_Some distress ∨ Q).
Proof.
  intros <-. destruct b, distress; simpl; [by left|by right|by left|]. by intros [[? [=]]|[=]].
Qed.

Lemma container_step_signals pod : step_signals (container_step pod) known_failure in_distress.
Proof.
  intros distress c. unfold container_step, known_failure.
  destruct (matchesPattern (Waiting c) waitingPatterns) as [m|] eqn:Hw;
    [left; by apply matchesPattern_Some in Hw as [? _]|]. apply matchesPattern_None in Hw.
  destruct (isGracefulTermination (Terminated c)) eqn:Hg.
  - split; [by intros [?|[? _]]|]. apply add_distress_if, distress_evidence_iff.
  - destruct (matchesPattern (Terminated c) terminatedPatterns) as [m|] eqn:Ht.
    + right. split; [done|]. by apply matchesPattern_Some in Ht as [? _].
    + apply matchesPattern_None in Ht. split; [by intros [?|[_ ?]]|].
      apply add_distress_if, distress_evidence_iff.
Qed.

Lemma pod_step_signals now : step_signals (pod_step now) (pod_specific now) pod_distress.
Proof.
  intros distress pod. unfold pod_step, pod_specific, pod_distress.
  pose proof (scan_signals _ _ _ distress (Containers pod) (container_step_signals pod)) as Hscan.
  destruct (scan (container_step pod) distress (Containers pod)) as [fc|distress']; [by left|].
  destruct Hscan as [Hno Hd]. destruct (stuck_pending now pod); [by right|].
  split; [by intros [?|?]|done].
Qed.

Lemma operator_container_step_signals pod :
  step_signals (operator_container_step pod) operator_container_known operator_container_distress.
Proof.
  intros distress c. unfold operator_container_step, operator_container_known, operator_container_distress.
  destruct (matchesPattern (Waiting c) waitingPatterns) as [m|] eqn:Hw;
    [left; by apply matchesPattern_Some in Hw as [? _]|]. apply matchesPattern_None in Hw.
  destruct (matchesPattern (Terminated c) terminatedPatterns) as [m|] eqn:Ht;
    [right; by apply matchesPattern_Some in Ht as [? _]|]. apply matchesPattern_None in Ht.
  split; [by intros [?|?]|].
  rewrite (assoc (∨)), <-(decides_is_Some _ _ (add_distress_if "operator" CodeOperator _ distress
    ("operator " +:+ container_evidence pod "in unrecognized waiting state" c (Waiting c)) _ (nonempty_str_true (Waiting c)))).
  apply add_distress_if. by rewrite andb_true_iff, nonempty_str_true, negb_true_iff.
Qed.

Lemma operator_pod_step_signals :
  step_signals operator_pod_step operator_pod_specific
    (λ pod, ∃ c, c ∈ Containers pod ∧ operator_container_distress c).
Proof.
  intros distress pod. unfold operator_pod_step, operator_pod_specific.
  destruct (String.eqb_spec (Phase pod) "Running") as [Hr|Hr], (String.eqb_spec (Phase pod) "Succeeded") as [Hs|Hs];
    cbn [negb andb]; [| | |by left].
  all: pose proof (scan_signals _ _ _ distress (Containers pod) (operator_container_step_signals pod)) as Hscan;
    destruct (scan (operator_container_step pod) distress (Containers pod)) as [fc|distress']; [by right|];
    destruct Hscan as [Hno Hd]; split; [by intros [[? ?]|?]|done].
Qed.

Lemma nested_signal {A} (P : A → Prop) (ls : list (list A)) :
  (∃ l, l ∈ ls ∧ ∃ x, x ∈ l ∧ P x) ↔ ∃ l x, l ∈ ls ∧ x ∈ l ∧ P x.
Proof. naive_solver. Qed.

Lemma classifyFromPods_signals now r :
  let specific := ∃ pods pod, pods ∈ Data (Pods r) ∧ pod ∈ pods ∧ pod_specific now pod in
  match (classifyFromPods now r).1 with
  | Some _ => specific
  | None => ¬ specific ∧
      decides (classifyFromPods now r).2 (∃ pods pod, pods ∈ Data (Pods r) ∧ pod ∈ pods ∧ pod_distress pod)
  end.
Proof.
  unfold classifyFromPods.
  pose proof (scan_signals _ _ _ None (Data (Pods r)) (scan_step_signals _ _ _ (pod_step_signals now))) as Hscan.
  destruct (scan (scan (pod_step now)) None (Data (Pods r))) as [fc|distress]; simpl.
  - by apply nested_signal.
  - destruct Hscan as [Hno Hd]. rewrite <-!nested_signal. split; [done|].
    eapply decides_proper; [|exact Hd]. split; [by right|]. by intros [[? [=]]|?].
Qed.

(** The tests of an event in the order of the code, and grouped as in [event_signal]. *)
Definition event_tests (e : EventInfo) : bool :=
  containsImagePullEventPattern (Message e) ||
  ((has_reason networkEventReasons (Reason e) || containsNetworkPattern (Message e)) ||
  ((has_reason storageEventReasons (Reason e) || containsStoragePattern (Message e)) ||
  ((has_reason probeEventReasons (Reason e) || containsProbePattern (Message e)) ||
  (containsRBACPattern (Message e) || (containsDNSPattern (Message e) || containsTimeoutPattern (Message e)))))).

Lemma containsAnyPattern_app text ps qs :
  containsAnyPattern text (ps ++ qs) = containsAnyPattern text ps || containsAnyPattern text qs.
Proof. unfold containsAnyPattern. destruct (String.eqb text ""); [done|]. apply existsb_app. Qed.

Lemma has_reason_app rs qs reason : has_reason (rs ++ qs) reason = has_reason rs reason || has_reason qs reason.
Proof. unfold has_reason. by rewrite <-bool_decide_or, (bool_decide_ext _ _ (elem_of_app rs qs reason)). Qed.

Lemma event_tests_grouped e :
  event_tests e = has_reason all_reasons (Reason e) || containsAnyPattern (Message e) all_message_patterns.
Proof.
  unfold event_tests, all_reasons, all_message_patterns. rewrite !has_reason_app, !containsAnyPattern_app.
  unfold containsImagePullEventPattern, containsNetworkPattern, containsStoragePattern, containsProbePattern,
    containsRBACPattern, containsDNSPattern, containsTimeoutPattern. btauto.
Qed.

Lemma event_signal_tests now e :
  event_signal now e ↔ older_than now (LastTime e) EventAgeThreshold = false ∧ event_tests e = true.
Proof.
  rewrite event_tests_grouped, orb_true_iff, containsAnyPattern_iff. unfold event_signal, has_reason.
  by rewrite bool_decide_eq_true.
Qed.

Lemma classify_event_decides now e : decides (classify_event now e) (event_signal now e).
Proof.
  pose proof (event_signal_tests now e) as Hsig. unfold classify_event, event_tests in *.
  destruct (older_than now (LastTime e) EventAgeThreshold); [by intros [? _]%Hsig|].
  repeat match goal with |- context [if ?b then Some _ else _] => destruct b; [by apply Hsig|] end.
  by intros [_ ?]%Hsig.
Qed.

Lemma classifyFromEvents_decides now r :
  decides (classifyFromEvents now r) (∃ e, e ∈ Data (Events r) ∧ event_signal now e).
Proof. apply first_some_decides, classify_event_decides. Qed.

Lemma classifyFromQuotas_decides r :
  decides (classifyFromQuotas r) (∃ quotas q, quotas ∈ Data (Quotas r) ∧ q ∈ quotas ∧ Exceeded q ≠ []).
Proof.
  apply (first_some_nested classify_quota (λ q, Exceeded q ≠ [])). intros q. unfold classify_quota.
  destruct (Exceeded q); simpl; naive_solver.
Qed.

Lemma classifyFromNodes_decides r :
  decides (classifyFromNodes r) (∃ n, n ∈ Data (Nodes r) ∧ UnhealthyReason n ≠ "").
Proof.
  apply (first_some_decides classify_node (λ n, UnhealthyReason n ≠ "")). intros n. unfold classify_node.
  rewrite <-nonempty_str_true. destruct (nonempty_str (UnhealthyReason n)); simpl; naive_solver.
Qed.

Lemma classifyFromOperator_signals r :
  let specific := (∃ d, o_Deployment (Data (Operator r)) = Some d ∧ operator_deployment_down d) ∨
    (∃ pod, pod ∈ o_Pods (Data (Operator r)) ∧ operator_pod_specific pod) in
  match (classifyFromOperator r).1 with
  | Some _ => specific
  | None => ¬ specific ∧ decides (classifyFromOperator r).2
      (∃ pod c, pod ∈ o_Pods (Data (Operator r)) ∧ c ∈ Containers pod ∧ operator_container_distress c)
  end.
Proof.
  unfold classifyFromOperator. set (op := Data (Operator r)).
  assert (match match o_Deployment op with Some d => classify_operator_deployment d | None => None end with
    | Some _ => ∃ d, o_Deployment op = Some d ∧ operator_deployment_down d
    | None => ¬ ∃ d, o_Deployment op = Some d ∧ operator_deployment_down d end) as Hd.
  { destruct (o_Deployment op) as [d|]; [|naive_solver]. unfold classify_operator_deployment, operator_deployment_down.
    destruct (Z.eqb_spec (d_Replicas d) 0); [naive_solver|].
    destruct (Z.ltb_spec (d_Ready d) (d_Replicas d)); [naive_solver|]. intros (d' & [= <-] & [?|?]); [done|lia]. }
  destruct (match o_Deployment op with Some d => classify_operator_deployment d | None => None end); [by left|].
  pose proof (scan_signals _ _ _ None (o_Pods op) operator_pod_step_signals) as Hscan.
  destruct (scan operator_pod_step None (o_Pods op)) as [fc|distress]; simpl; [by right|].
  destruct Hscan as [Hno Hdis]. split; [by intros [?|?]|]. eapply decides_proper; [|exact Hdis].
  split; [intros (pod & c & ? & ? & ?); right; eauto|]. intros [[? [=]]|(pod & ? & c & ? & ?)]. eauto.
Qed.

Lemma classifyFromCRConditions_decides name section code :
  decides (classifyFromCRConditions name section code) (cr_unhealthy section).
Proof.
  unfold classifyFromCRConditions, cr_unhealthy.
  destruct (String.eqb_spec (Error section) ""), (String.eqb_spec (cr_Name (Data section)) ""); simpl; naive_solver.
Qed.

Lemma classify_deployments_decides now r :
  decides (first_some (first_some (classify_deployment now)) (Data (Deployments r)))
    (∃ deploys d, deploys ∈ Data (Deployments r) ∧ d ∈ deploys ∧ deployment_unready now d).
Proof.
  apply (first_some_nested (classify_deployment now) (deployment_unready now)). intros d.
  unfold classify_deployment, deployment_unready. destruct (Z.ltb_spec (d_Ready d) (d_Replicas d)).
  - destruct (younger_than now (d_CreatedAt d) PendingThreshold); simpl; naive_solver.
  - intros [? _]. lia.
Qed.

(** ** Well-formed classifications *)

Definition infra_code (code : Z) : Prop := (1000 <= code <= 1999)%Z.

Definition good (low : bool) (fc : FailureClassification) : Prop :=
  Category fc = CategoryInfrastructure ∧ infra_code (ErrorCode fc) ∧ Evidence fc ≠ [] ∧
  if low then Confidence fc = ConfidenceLow else Confidence fc = ConfidenceMedium ∨ Confidence fc = ConfidenceHigh.

Definition good_option (low : bool) (o : option FailureClassification) : Prop :=
  match o with Some fc => good low fc | None => True end.

Lemma good_infra sub code evidence (high : bool) :
  infra_code code → good false (infra sub code [evidence] (if high then ConfidenceHigh else ConfidenceMedium)).
Proof. intros Hc. split; [done|]. split; [done|]. split; [done|]. destruct high; [by right|by left]. Qed.

Lemma good_add_distress sub code distress evidence :
  infra_code code → good_option true distress → good_option true (add_distress sub code distress evidence).
Proof.
  intros Hc Hd. destruct distress as [fc|]; [|done]. destruct Hd as (? & ? & ? & ?). split; [done|].
  split; [done|]. split; [|done]. simpl. by destruct (Evidence fc).
Qed.

Lemma pattern_codes m : m ∈ waitingPatterns ∨ m ∈ terminatedPatterns → infra_code (errorCode m).
Proof.
  assert (Forall (λ m, infra_code (errorCode m)) (waitingPatterns ++ terminatedPatterns)) as Hall;
    [by repeat constructor|]. rewrite Forall_forall in Hall. intros Hm. apply Hall, elem_of_app, Hm.
Qed.

Lemma container_step_good pod d c : good_option true d →
  match container_step pod d c with inl fc => good false fc | inr d => good_option true d end.
Proof.
  intros Hd. unfold container_step. destruct (matchesPattern (Waiting c) waitingPatterns) as [m|] eqn:Hw.
  - apply matchesPattern_Some in Hw as [_ Hin]. apply (good_infra _ _ _ false), pattern_codes. auto.
  - assert (match (if isGracefulTermination (Terminated c) then None
              else matchesPattern (Terminated c) terminatedPatterns) with
            | Some m => infra_code (errorCode m) | None => True end) as Hm.
    { destruct (isGracefulTermination (Terminated c)); [done|].
      destruct (matchesPattern (Terminated c) terminatedPatterns) as [m|] eqn:Ht; [|done].
      apply matchesPattern_Some in Ht as [_ Hin]. apply pattern_codes. auto. }
    destruct (if isGracefulTermination (Terminated c) then None else _) as [m|]; [by apply (good_infra _ _ _ false)|].
    cbn zeta. destruct (nonempty_str (distress_evidence pod c)); [by apply good_add_distress|done].
Qed.

Lemma pod_step_good now d pod : good_option true d →
  match pod_step now d pod with inl fc => good false fc | inr d => good_option true d end.
Proof.
  intros Hd. unfold pod_step.
  pose proof (scan_keeps _ (good false) (good_option true) d (Containers pod) (container_step_good pod) Hd) as Hscan.
  destruct (scan (container_step pod) d (Containers pod)) as [fc|d']; [done|].
  destruct (stuck_pending now pod); [by apply (good_infra _ _ _ true)|done].
Qed.

Lemma classifyFromPods_good now r :
  good_option false (classifyFromPods now r).1 ∧ good_option true (classifyFromPods now r).2.
Proof.
  unfold classifyFromPods.
  pose proof (scan_keeps _ (good false) (good_option true) None (Data (Pods r))
    (λ d pods, scan_keeps _ (good false) (good_option true) d pods (pod_step_good now)) I) as Hscan.
  by destruct (scan (scan (pod_step now)) None (Data (Pods r))) as [fc|d].
Qed.

Lemma operator_container_step_good pod d c : good_option true d →
  match operator_container_step pod d c with inl fc => good false fc | inr d => good_option true d end.
Proof.
  intros Hd. unfold operator_container_step.
  destruct (matchesPattern (Waiting c) waitingPatterns); [by apply (good_infra _ _ _ true)|].
  destruct (matchesPattern (Terminated c) terminatedPatterns); [by apply (good_infra _ _ _ true)|]. cbn zeta.
  destruct (nonempty_str (Waiting c)), (nonempty_str (Terminated c) && _); repeat (apply good_add_distress; [done|]);
    done.
Qed.

Lemma classifyFromOperator_good r :
  good_option false (classifyFromOperator r).1 ∧ good_option true (classifyFromOperator r).2.
Proof.
  unfold classifyFromOperator. set (op := Data (Operator r)).
  assert (good_option false (match o_Deployment op with Some d => classify_operator_deployment d | None => None end)) as Hd.
  { destruct (o_Deployment op) as [d|]; [|done]. unfold classify_operator_deployment.
    destruct (d_Replicas d =? 0)%Z; [by apply (good_infra _ _ _ true)|].
    destruct (d_Ready d <? d_Replicas d)%Z; [by apply (good_infra _ _ _ true)|done]. }
  destruct (match o_Deployment op with Some d => classify_operator_deployment d | None => None end); [done|].
  assert (∀ d pod, good_option true d → match operator_pod_step d pod with
    | inl fc => good false fc | inr d => good_option true d end) as Hstep.
  { intros d pod Hd'. unfold operator_pod_step. destruct (_ && _); [by apply (good_infra _ _ _ true)|].
    by apply scan_keeps; [apply operator_container_step_good|]. }
  pose proof (scan_keeps _ (good false) (good_option true) None (o_Pods op) Hstep I) as Hscan.
  by destruct (scan operator_pod_step None (o_Pods op)) as [fc|d].
Qed.

Lemma first_some_good {A} (f : A → option FailureClassification) low l :
  (∀ x, good_option low (f x)) → good_option low (first_some f l).
Proof.
  intros Hf. destruct (first_some f l) as [fc|] eqn:Hl; [|done].
  apply first_some_elem in Hl as (x & _ & Hx). specialize (Hf x). by rewrite Hx in Hf.
Qed.

Lemma classifiers_good now r fn :
  fn ∈ [classifyFromEvents now; classifyFromQuotas; classifyFromNodes; classifyFromDSCI; classifyFromDSC] →
  good_option false (fn r).
Proof.
  rewrite !elem_of_cons, elem_of_nil. intros [->|[->|[->|[->|[->|[]]]]]].
  - apply first_some_good. intros e. unfold classify_event. destruct (older_than _ _ _); [done|].
    repeat match goal with
    | |- good_option _ (if ?b then _ else _) => destruct b; [by apply (good_infra _ _ _ false)|]
    end. done.
  - apply first_some_good. intros qs. apply first_some_good. intros q. unfold classify_quota.
    destruct (Exceeded q); [done|by apply (good_infra _ _ _ true)].
  - apply first_some_good. intros n. unfold classify_node.
    destruct (nonempty_str _); [by apply (good_infra _ _ _ true)|done].
  - unfold classifyFromDSCI, classifyFromCRConditions. destruct (_ || _); [done|by apply (good_infra _ _ _ false)].
  - unfold classifyFromDSC, classifyFromCRConditions. destruct (_ || _); [done|by apply (good_infra _ _ _ false)].
Qed.

Definition pod_codes : list Z :=
  [CodeImagePull; CodePodStartup; CodeContainerOOM; CodeInvalidFlags; CodeContainerExit].

Lemma pattern_pod_codes m : m ∈ waitingPatterns ∨ m ∈ terminatedPatterns → errorCode m ∈ pod_codes.
Proof.
  assert (Forall (λ m, bool_decide (errorCode m ∈ pod_codes) = true) (waitingPatterns ++ terminatedPatterns)) as Hall;
    [by repeat constructor|]. rewrite Forall_forall in Hall. intros Hm.
  by eapply bool_decide_eq_true, Hall, elem_of_app.
Qed.

Lemma classifyFromPods_codes now r :
  match (classifyFromPods now r).1 with Some fc => ErrorCode fc ∈ pod_codes | None => True end.
Proof.
  unfold classifyFromPods.
  pose (G := λ fc, ErrorCode fc ∈ pod_codes). pose (K := λ _ : option FailureClassification, True).
  assert (∀ pod d c, K d → match container_step pod d c with inl fc => G fc | inr d => K d end) as Hc.
  { intros pod d c _. unfold container_step. destruct (matchesPattern (Waiting c) waitingPatterns) as [m|] eqn:Hw.
    - apply matchesPattern_Some in Hw as [_ Hin]. apply pattern_pod_codes. auto.
    - destruct (isGracefulTermination (Terminated c)); [done|].
      destruct (matchesPattern (Terminated c) terminatedPatterns) as [m|] eqn:Ht; [|done].
      apply matchesPattern_Some in Ht as [_ Hin]. apply pattern_pod_codes. auto. }
  assert (∀ d pod, K d → match pod_step now d pod with inl fc => G fc | inr d => K d end) as Hp.
  { intros d pod _. unfold pod_step. pose proof (scan_keeps _ G K d (Containers pod) (Hc pod) I) as Hscan.
    destruct (scan (container_step pod) d (Containers pod)); [done|]. destruct (stuck_pending now pod); [|done].
    by apply (bool_decide_unpack _). }
  pose proof (scan_keeps _ G K None (Data (Pods r)) (λ d pods, scan_keeps _ G K d pods Hp) I) as Hscan.
  by destruct (scan (scan (pod_step now)) None (Data (Pods r))).
Qed.

(** The three ways a classification of a report comes about. *)
Lemma classify_cases now r :
  let fc := Classify now (Some r) in
  (specific_signal now r ∧ good false fc) ∨
  (¬ specific_signal now r ∧ distress_signal now r ∧ good true fc) ∨
  (¬ specific_signal now r ∧ ¬ distress_signal now r ∧ fc = if Healthy r then no_signal else unknown).
Proof.
  intros fc. unfold fc, Classify, specific_signal, distress_signal, classifyFromDSCI, classifyFromDSC. cbn [first_some].
  pose proof (classifyFromPods_signals now r) as Hpods. destruct (classifyFromPods_good now r) as [Hp1 Hp2].
  destruct (classifyFromPods now r) as [[sp|] pd]; cbn [fst snd] in *; [left; auto|]. destruct Hpods as [Hpods Hpd].
  pose proof (classifiers_good now r) as Hgood.
  pose proof (classifyFromEvents_decides now r) as Hev. pose proof (Hgood (classifyFromEvents now)) as Gev.
  destruct (classifyFromEvents now r) as [ev|]; [left; split; [auto|by apply Gev; left]|].
  pose proof (classifyFromQuotas_decides r) as Hq. pose proof (Hgood classifyFromQuotas) as Gq.
  destruct (classifyFromQuotas r) as [q|]; [left; split; [auto|by apply Gq; right; left]|].
  pose proof (classifyFromNodes_decides r) as Hn. pose proof (Hgood classifyFromNodes) as Gn.
  destruct (classifyFromNodes r) as [n|]; [left; split; [auto|by apply Gn; do 2 right; left]|].
  pose proof (classifyFromOperator_signals r) as Hop. destruct (classifyFromOperator_good r) as [Ho1 Ho2].
  destruct (classifyFromOperator r) as [[so|] od]; cbn [fst snd] in *.
  { left. split; [|done]. destruct Hop; auto 10. }
  destruct Hop as [Hop Hod].
  pose proof (classifyFromCRConditions_decides "DSCI" (DSCI r) CodeDSCI) as Hi. pose proof (Hgood classifyFromDSCI) as Gi.
  unfold classifyFromDSCI in Gi.
  destruct (classifyFromCRConditions "DSCI" (DSCI r) CodeDSCI) as [i|]; [left; split; [auto 10|by apply Gi; do 3 right; left]|].
  pose proof (classifyFromCRConditions_decides "DSC" (DSC r) CodeDSC) as Hc. pose proof (Hgood classifyFromDSC) as Gc.
  unfold classifyFromDSC in Gc.
  destruct (classifyFromCRConditions "DSC" (DSC r) CodeDSC) as [c|]; [left; split; [auto 10|by apply Gc; do 4 right; left]|].
  right. simpl in Hev, Hq, Hn, Hi, Hc. clear Gev Gq Gn Gi Gc Hgood Hp1 Ho1.
  match goal with |- (¬ ?S ∧ _) ∨ _ => assert (¬ S) as Hno by tauto end.
  pose proof (classify_deployments_decides now r) as Hdep.
  assert (good_option true (first_some (first_some (classify_deployment now)) (Data (Deployments r)))) as Gdep.
  { apply first_some_good. intros ds. apply first_some_good. intros d. unfold classify_deployment.
    by destruct (_ <? _)%Z; [destruct (younger_than _ _ _)|]. }
  unfold classifyClusterDistress. destruct pd as [pd|]; [left; auto|]. destruct od as [od|]; [left; auto|].
  destruct (first_some (first_some (classify_deployment now)) (Data (Deployments r))); [left; auto|].
  right. split; [done|]. split; [|done]. simpl in *. tauto.
Qed.

(** ** Theorems *)

(** A failure is called unknown exactly when the report shows nothing wrong: no container
    in a failure state, no pod stuck in Pending, no recent failure event, exceeded quota,
    unhealthy node, operator problem, unhealthy DSCI or DSC, and no deployment that stays
    unready. Then the error code says whether all sections were collected; otherwise the
    category is infrastructure, never test. *)
Theorem Classify_unknown_iff now r :
  (Category (Classify now (Some r)) = CategoryUnknown ↔ ¬ specific_signal now r ∧ ¬ distress_signal now r) ∧
  (Category (Classify now (Some r)) = CategoryInfrastructure ↔ specific_signal now r ∨ distress_signal now r) ∧
  (Category (Classify now (Some r)) = CategoryUnknown →
     ErrorCode (Classify now (Some r)) = if Healthy r then CodeNoSignal else CodeUnclassifiable).
Proof.
  destruct (classify_cases now r) as [[Hs (-> & _)]|[(Hns & Hd & (-> & _))|(Hns & Hnd & ->)]].
  - split; [|split; [|done]]; split; try done; [by intros [? _]|by left].
  - split; [|split; [|done]]; split; try done; [by intros [_ ?]|by right].
  - by destruct (Healthy r); (split; [|split; [|done]]); split; try done; intros [?|?].
Qed.

(** A low-confidence answer never masks a specific one: the confidence is low exactly
    when no specific signal exists anywhere in the report, whatever is merely in distress. *)
Theorem Classify_low_iff now r :
  Confidence (Classify now (Some r)) = ConfidenceLow ↔ ¬ specific_signal now r.
Proof.
  destruct (classify_cases now r) as [[Hs (_ & _ & _ & [-> | ->])]|[(Hns & Hd & (_ & _ & _ & ->))|(Hns & Hnd & ->)]].
  - by split.
  - by split.
  - by split.
  - by destruct (Healthy r); split.
Qed.

(** The shape of every answer, for a missing report too: there is evidence, and the error
    code lies in the range of the category: 1000 to 1999 for infrastructure, 3000 and 3001
    for unknown, which is always low confidence. *)
Theorem Classify_ranges now report :
  let fc := Classify now report in
  Evidence fc ≠ [] ∧
  ((Category fc = CategoryInfrastructure ∧ (1000 <= ErrorCode fc <= 1999)%Z ∧
      Confidence fc ∈ [ConfidenceHigh; ConfidenceMedium; ConfidenceLow]) ∨
   (Category fc = CategoryUnknown ∧ (3000 <= ErrorCode fc <= 3001)%Z ∧ Confidence fc = ConfidenceLow)).
Proof.
  destruct report as [r|]; [|by split; [|right]].
  destruct (classify_cases now r) as [[Hs (Hc & Hr & He & Hf)]|[(Hns & Hd & (Hc & Hr & He & Hf))|(Hns & Hnd & ->)]].
  - split; [done|]. left. split; [done|]. split; [done|]. rewrite !elem_of_cons. destruct Hf; auto.
  - split; [done|]. left. split; [done|]. split; [done|]. rewrite !elem_of_cons. auto.
  - by destruct (Healthy r); (split; [done|]); right.
Qed.

(** A pod failure that is known decides alone: when some pod has a container in a known
    failure state or is stuck in Pending, the answer depends on the pods section only and is
    about a pod: image pull, start-up, out of memory, flags or exit code. *)
Theorem Classify_pods_first now r r' :
  (∃ pods pod, pods ∈ Data (Pods r) ∧ pod ∈ pods ∧ pod_specific now pod) → Pods r' = Pods r →
  Classify now (Some r') = Classify now (Some r) ∧
  ErrorCode (Classify now (Some r)) ∈
    [CodeImagePull; CodePodStartup; CodeContainerOOM; CodeInvalidFlags; CodeContainerExit].
Proof.
  intros Hspec Hpods. unfold Classify.
  assert (classifyFromPods now r' = classifyFromPods now r) as ->; [by unfold classifyFromPods; rewrite Hpods|].
  pose proof (classifyFromPods_signals now r) as Hsig. pose proof (classifyFromPods_codes now r) as Hcodes.
  destruct (classifyFromPods now r) as [[fc|] d]; [by split|]. destruct Hsig as [Hno _]. by destruct Hno.
Qed.

(** The same report whose maps are iterated in another order. *)
Definition same_up_to_order (r r' : Report) : Prop :=
  Data (Pods r) ≡ₚ Data (Pods r') ∧ Data (Quotas r) ≡ₚ Data (Quotas r') ∧
  Data (Deployments r) ≡ₚ Data (Deployments r') ∧
  r' = MkReport (Nodes r) (MkSection (Error (Deployments r)) (Data (Deployments r')))
         (MkSection (Error (Pods r)) (Data (Pods r'))) (Events r)
         (MkSection (Error (Quotas r)) (Data (Quotas r'))) (Operator r) (DSCI r) (DSC r).

Lemma signals_up_to_order now r r' : same_up_to_order r r' →
  (specific_signal now r ↔ specific_signal now r') ∧ (distress_signal now r ↔ distress_signal now r') ∧
  Healthy r = Healthy r'.
Proof.
  intros (Hp & Hq & Hd & ->). unfold specific_signal, distress_signal, Healthy. simpl in *.
  setoid_rewrite Hp. setoid_rewrite Hq. setoid_rewrite Hd. done.
Qed.

(** The random order in which Go iterates over the namespaces does not change the
    category, whether the confidence is low, nor the code of an unknown failure. *)
Theorem Classify_order_independent now r r' : same_up_to_order r r' →
  Category (Classify now (Some r)) = Category (Classify now (Some r')) ∧
  (Confidence (Classify now (Some r)) = ConfidenceLow ↔ Confidence (Classify now (Some r')) = ConfidenceLow) ∧
  (Category (Classify now (Some r)) = CategoryUnknown → Classify now (Some r) = Classify now (Some r')).
Proof.
  intros (Hs & Hd & Hh)%(signals_up_to_order now).
  destruct (classify_cases now r) as [[S1 (C1 & _ & _ & L1)]|[(S1 & D1 & (C1 & _ & _ & L1))|(S1 & D1 & E1)]],
    (classify_cases now r') as [[S2 (C2 & _ & _ & L2)]|[(S2 & D2 & (C2 & _ & _ & L2))|(S2 & D2 & E2)]]; try tauto.
  - rewrite C1, C2. split; [done|]. split; [|done]. by destruct L1 as [-> | ->], L2 as [-> | ->].
  - by rewrite C1, C2, L1, L2.
  - rewrite E1, E2, Hh. done.
Qed.

Definition empty_section {T} (data : T) : SectionResult T := MkSection "" data.

(** A report whose only content is the given pods. *)
Definition pods_report (pods : list (list PodInfo)) : Report :=
  MkReport (empty_section []) (empty_section []) (empty_section pods) (empty_section []) (empty_section [])
    (empty_section (MkOperator None [])) (empty_section (MkCRSection "")) (empty_section (MkCRSection "")).

Definition pod_with (name waiting terminated : string) : PodInfo :=
  MkPod name "Running" (Some 0%Z) [MkContainer "main" waiting terminated].

Lemma Classify_pods_first_witness :
  let r := pods_report [[pod_with "a" "" "Error (exit 137)"]] in
  let fc := infra "container-exit" CodeContainerExit ["container a/main terminated: Error (exit 137)"] ConfidenceMedium in
  Classify 0 (Some r) = fc ∧ Classify 0 (Some r) = Classify 0 (Some r) ∧ ErrorCode fc ∈ pod_codes.
Proof.
  intros r fc. split; [reflexivity|]. apply (Classify_pods_first 0 r r); [|done].
  eexists _, _. split; [by left|]. split; [by left|]. left. eexists. split; [by left|].
  right. split; [reflexivity|]. split; [done|]. eexists. split; [right; right; by left|]. reflexivity.
Defined.

Lemma Classify_order_independent_witness :
  let r := pods_report [[pod_with "a" "" "OOMKilled (exit 137)"]; [pod_with "b" "ErrImagePull" ""]] in
  let r' := pods_report [[pod_with "b" "ErrImagePull" ""]; [pod_with "a" "" "OOMKilled (exit 137)"]] in
  ErrorCode (Classify 0 (Some r)) = CodeContainerOOM ∧ ErrorCode (Classify 0 (Some r')) = CodeImagePull ∧
  Category (Classify 0 (Some r)) = Category (Classify 0 (Some r')).
Proof.
  intros r r'. split; [reflexivity|]. split; [reflexivity|].
  apply (Classify_order_independent 0 r r'). split; [|done]. apply Permutation_swap.
Defined.

(** A drained container is no failure, an unknown exit code is only distress. *)
Example graceful_and_distress :
  Classify 0 (Some (pods_report [[pod_with "a" "" "Completed (exit 143)"]])) = no_signal ∧
  Classify 0 (Some (pods_report [[pod_with "a" "" "Error (exit 1)"; pod_with "b" "ContainerCreating" ""]])) =
    infra "cluster-distress" CodeInfraUnknown
      ["container a/main terminated: Error (exit 1)";
       "container b/main in unrecognized waiting state: ContainerCreating"] ConfidenceLow.
Proof. by split; vm_compute. Qed.

(** A pod stuck in Pending: 62 seconds and a fraction after its creation. *)
Example pending_text :
  Evidence (Classify (62 * second + 7) (Some (pods_report [[MkPod "a" "Pending" (Some 0%Z) []]]))) =
    ["pod a stuck in Pending for 1m2s"].
Proof. by vm_compute. Qed.
