(* ===== verification/ClusterHealth.v ===== *)
(** * ClusterHealth: collecting a health report

    [pkg/clusterhealth]: the sections of a report ([types.go], [sections.go], [config.go],
    [run.go]) and how each is collected ([nodes.go], [deployments.go], [pods.go], [events.go],
    [quotas.go], [operator.go], [cr_conditions.go], [cr_helpers.go], [component_status.go]).

    Objects have the fields that the package reads. Times are nanoseconds, [None] is the zero
    time. Ranging over a map is the parameter [range_map], any order of its pairs. Sorting
    events by time is the parameter [sort_recent], because [sort.Slice] is not stable. *)

From S2P Require Import Prelude Effects Unstructured SharedPlatform.

(** ** Reports *)

Record SectionResult (T : Type) := MkSection { Error : string; Data : T }.
Arguments MkSection {T} _ _.
Arguments Error {T} _.
Arguments Data {T} _.

Record ConditionSummary := MkSummary { cs_Type : string; cs_Status : string; cs_Message : string }.

(** [Q] is [resource.Quantity]; a [corev1.ResourceList] maps names to quantities. *)
Record HNode (Q : Type) := MkHNode {
  hn_Name : string;
  hn_Labels : gmap string string;
  hn_Conditions : list ConditionSummary;
  hn_Allocatable : gmap string Q;
  hn_Capacity : gmap string Q;
}.
Arguments MkHNode {Q} _ _ _ _ _.
Arguments hn_Name {Q} _.
Arguments hn_Labels {Q} _.
Arguments hn_Conditions {Q} _.
Arguments hn_Allocatable {Q} _.
Arguments hn_Capacity {Q} _.

Record NodeInfo := MkNodeInfo {
  ni_Name : string;
  ni_Role : string;
  ni_Conditions : list ConditionSummary;
  ni_Allocatable : string;
  ni_Capacity : string;
  ni_UnhealthyReason : string;
  ni_UsageCPUMillicores : option Z;
  ni_UsageMemoryBytes : option Z;
}.

Record NodesSection (Q : Type) := MkNodes { ns_Nodes : list NodeInfo; ns_Data : list (HNode Q) }.
Arguments MkNodes {Q} _ _.
Arguments ns_Nodes {Q} _.
Arguments ns_Data {Q} _.

Record HDeployment := MkHDeployment {
  hd_Namespace : string;
  hd_Name : string;
  hd_ReadyReplicas : Z;
  hd_Replicas : option Z;
  hd_CreatedAt : option Z;
  hd_Conditions : list ConditionSummary;
  hd_MatchLabels : gmap string string;
  hd_Images : list string;
}.

Record DeploymentInfo := MkDeploymentInfo {
  di_Namespace : string;
  di_Name : string;
  di_Ready : Z;
  di_Replicas : Z;
  di_CreatedAt : option Z;
  di_Conditions : list ConditionSummary;
}.

Record DeploymentsSection := MkDeployments {
  ds_ByNamespace : gmap string (list DeploymentInfo);
  ds_Data : list HDeployment;
}.

Record HContainer (Q : Type) := MkHContainer { hc_Name : string; hc_Requests : gmap string Q; hc_Limits : gmap string Q }.
Arguments MkHContainer {Q} _ _ _.
Arguments hc_Name {Q} _.
Arguments hc_Requests {Q} _.
Arguments hc_Limits {Q} _.

Record StateWaiting := MkWaiting { wt_Reason : string; wt_Message : string }.
Record StateTerminated := MkTerminated { tm_Reason : string; tm_ExitCode : Z; tm_Message : string }.
Record HContainerStatus := MkHStatus {
  hcs_Name : string;
  hcs_Ready : bool;
  hcs_RestartCount : Z;
  hcs_Waiting : option StateWaiting;
  hcs_Terminated : option StateTerminated;
}.

Record HPod (Q : Type) := MkHPod {
  hp_Namespace : string;
  hp_Name : string;
  hp_Phase : string;
  hp_NodeName : string;
  hp_CreatedAt : option Z;
  hp_Containers : list (HContainer Q);
  hp_InitContainers : list (HContainer Q);
  hp_ContainerStatuses : list HContainerStatus;
  hp_InitContainerStatuses : list HContainerStatus;
}.
Arguments MkHPod {Q} _ _ _ _ _ _ _ _ _.
Arguments hp_Namespace {Q} _.
Arguments hp_Name {Q} _.
Arguments hp_Phase {Q} _.
Arguments hp_NodeName {Q} _.
Arguments hp_CreatedAt {Q} _.
Arguments hp_Containers {Q} _.
Arguments hp_InitContainers {Q} _.
Arguments hp_ContainerStatuses {Q} _.
Arguments hp_InitContainerStatuses {Q} _.

Record ContainerInfo := MkContainerInfo {
  ci_Name : string;
  ci_Ready : bool;
  ci_IsInit : bool;
  ci_RestartCount : Z;
  ci_Waiting : string;
  ci_Terminated : string;
  ci_RequestsCPU : option Z;
  ci_RequestsMemory : option Z;
  ci_LimitsCPU : option Z;
  ci_LimitsMemory : option Z;
}.

Record PodInfo := MkPodInfo {
  pi_Namespace : string;
  pi_Name : string;
  pi_Phase : string;
  pi_NodeName : string;
  pi_CreatedAt : option Z;
  pi_Containers : list ContainerInfo;
}.

Record PodsSection (Q : Type) := MkPods { ps_ByNamespace : gmap string (list PodInfo); ps_Data : list (HPod Q) }.
Arguments MkPods {Q} _ _.
Arguments ps_ByNamespace {Q} _.
Arguments ps_Data {Q} _.

Record HEvent := MkHEvent {
  he_Namespace : string;
  he_Kind : string;
  he_Name : string;
  he_Type : string;
  he_Reason : string;
  he_Message : string;
  he_LastTimestamp : option Z;
  he_EventTime : option Z;
  he_Count : Z;
}.

Record EventInfo := MkEventInfo {
  ei_Namespace : string;
  ei_Kind : string;
  ei_Name : string;
  ei_Type : string;
  ei_Reason : string;
  ei_Message : string;
  ei_LastTime : option Z;
  ei_Count : Z;
}.

Record EventsSection := MkEvents { es_Events : list EventInfo; es_Data : list HEvent }.

Record HQuota (Q : Type) := MkHQuota {
  hq_Namespace : string;
  hq_Name : string;
  hq_Used : gmap string Q;
  hq_Hard : gmap string Q;
}.
Arguments MkHQuota {Q} _ _ _ _.
Arguments hq_Namespace {Q} _.
Arguments hq_Name {Q} _.
Arguments hq_Used {Q} _.
Arguments hq_Hard {Q} _.

Record ResourceQuotaInfo := MkQuotaInfo {
  qi_Namespace : string;
  qi_Name : string;
  qi_Used : gmap string string;
  qi_Hard : gmap string string;
  qi_Exceeded : list string;
}.

Record QuotasSection (Q : Type) := MkQuotas {
  qs_ByNamespace : gmap string (list ResourceQuotaInfo);
  qs_Data : list (HQuota Q);
}.
Arguments MkQuotas {Q} _ _.
Arguments qs_ByNamespace {Q} _.
Arguments qs_Data {Q} _.

Record DependentOperatorResult := MkDependent {
  do_Name : string;
  do_Installed : bool;
  do_ImageRef : string;
  do_Deployment : option DeploymentInfo;
  do_Pods : list PodInfo;
  do_Error : string;
}.

Record OperatorSectionData (Q : Type) := MkOperatorData { od_Deployment : HDeployment; od_Pods : list (HPod Q) }.
Arguments MkOperatorData {Q} _ _.
Arguments od_Deployment {Q} _.
Arguments od_Pods {Q} _.

Record OperatorSection (Q : Type) := MkOperator {
  os_Deployment : option DeploymentInfo;
  os_Pods : list PodInfo;
  os_DependentOperators : list DependentOperatorResult;
  os_Data : option (OperatorSectionData Q);
}.
Arguments MkOperator {Q} _ _ _ _.
Arguments os_Deployment {Q} _.
Arguments os_Pods {Q} _.
Arguments os_DependentOperators {Q} _.
Arguments os_Data {Q} _.

Record CRConditionsSection := MkCRSection {
  crs_Name : string;
  crs_Conditions : list ConditionSummary;
  crs_Data : option Unstructured;
}.

Record Report (Q : Type) := MkReport {
  CollectedAt : Z;
  SectionsRun : list string;
  Nodes : SectionResult (NodesSection Q);
  Deployments : SectionResult DeploymentsSection;
  Pods : SectionResult (PodsSection Q);
  Events : SectionResult EventsSection;
  Quotas : SectionResult (QuotasSection Q);
  Operator : SectionResult (OperatorSection Q);
  DSCI : SectionResult CRConditionsSection;
  DSC : SectionResult CRConditionsSection;
}.
Arguments MkReport {Q} _ _ _ _ _ _ _ _ _ _.
Arguments CollectedAt {Q} _.
Arguments SectionsRun {Q} _.
Arguments Nodes {Q} _.
Arguments Deployments {Q} _.
Arguments Pods {Q} _.
Arguments Events {Q} _.
Arguments Quotas {Q} _.
Arguments Operator {Q} _.
Arguments DSCI {Q} _.
Arguments DSC {Q} _.

Definition Healthy {Q} (r : Report Q) : bool :=
  String.eqb (Error (Nodes r)) "" && String.eqb (Error (Deployments r)) "" &&
  String.eqb (Error (Pods r)) "" && String.eqb (Error (Events r)) "" &&
  String.eqb (Error (Quotas r)) "" && String.eqb (Error (Operator r)) "" &&
  String.eqb (Error (DSCI r)) "" && String.eqb (Error (DSC r)) "".

(** ** Configuration and sections *)

Record OperatorConfig := MkOperatorConfig { oc_Namespace : string; oc_Name : string }.
Record NamespaceConfig := MkNamespaceConfig { nc_Apps : string; nc_Monitoring : string; nc_Extra : list string }.
Record NamespacedName := MkNamespacedName { nn_Namespace : string; nn_Name : string }.

(** [cfg_Client]: a client was given. *)
Record Config := MkConfig {
  cfg_Client : bool;
  cfg_Operator : OperatorConfig;
  cfg_Namespaces : NamespaceConfig;
  cfg_DSCI : NamespacedName;
  cfg_DSC : NamespacedName;
  cfg_OnlySections : list string;
  cfg_Layers : list string;
}.

(** [add] of [NamespaceConfig.List]; what was seen are the elements of the output. *)
Definition add_namespace (out : list string) (ns : string) : list string :=
  let ns := TrimSpace ns in
  if nonempty_str ns && negb (bool_decide (ns ∈ out)) then out ++ [ns] else out.

Definition List (n : NamespaceConfig) : list string :=
  foldl add_namespace [] (nc_Apps n :: nc_Monitoring n :: nc_Extra n).

Definition SectionNodes : string := "nodes".
Definition SectionDeployments : string := "deployments".
Definition SectionPods : string := "pods".
Definition SectionEvents : string := "events".
Definition SectionQuotas : string := "quotas".
Definition SectionOperator : string := "operator".
Definition SectionDSCI : string := "dsci".
Definition SectionDSC : string := "dsc".

Definition LayerInfrastructure : string := "infrastructure".
Definition LayerWorkload : string := "workload".
Definition LayerOperator : string := "operator".

Definition layerSections : gmap string (list string) := list_to_map
  [(LayerInfrastructure, [SectionNodes; SectionQuotas]);
   (LayerWorkload, [SectionDeployments; SectionPods; SectionEvents; SectionOperator; SectionDSCI; SectionDSC]);
   (LayerOperator, [SectionOperator; SectionDSCI; SectionDSC])].

Definition sectionOrder : list string :=
  [SectionNodes; SectionDeployments; SectionPods; SectionEvents; SectionQuotas; SectionOperator; SectionDSCI; SectionDSC].

Definition expandSectionList (names : list string) : list string :=
  concat ((λ name, match layerSections !! name with Some sections => sections | None => [name] end) <$> names).

Definition sliceToSet (ss : list string) : gset string := list_to_set ss.

Definition add_layer (out : list string) (layer : string) : list string :=
  foldl (λ out s, if bool_decide (s ∈ out) then out else out ++ [s]) out (default [] (layerSections !! layer)).

Definition sectionsToRun (c : Config) : gset string :=
  match cfg_OnlySections c, cfg_Layers c with
  | _ :: _, _ => sliceToSet (expandSectionList (cfg_OnlySections c))
  | [], _ :: _ => sliceToSet (foldl add_layer [] (cfg_Layers c))
  | [], [] => sliceToSet sectionOrder
  end.

(** ** Calls and libraries *)

Inductive HealthE (Q : Type) : Type → Type :=
| HNow : HealthE Q Z
| ListHNodes : HealthE Q (result (list (HNode Q)))
| ListNodeMetrics : HealthE Q (result (list (string * value_map)))
| GetHDeployment (namespace name : string) : HealthE Q (result HDeployment)
| ListHDeployments (namespace : string) (labels : gmap string string) : HealthE Q (result (list HDeployment))
| ListHPods (namespace : string) (labels : gmap string string) : HealthE Q (result (list (HPod Q)))
| ListHEvents (namespace continue : string) : HealthE Q (result (list HEvent * string))
| ListHQuotas (namespace : string) : HealthE Q (result (list (HQuota Q)))
| GetHObject (g : GroupVersionKind) (namespace name : string) : HealthE Q (result Unstructured)
| ListHObjects (g : GroupVersionKind) : HealthE Q (result (list Unstructured)).
Arguments HNow {Q}.
Arguments ListHNodes {Q}.
Arguments ListNodeMetrics {Q}.
Arguments GetHDeployment {Q} _ _.
Arguments ListHDeployments {Q} _ _.
Arguments ListHPods {Q} _ _.
Arguments ListHEvents {Q} _ _.
Arguments ListHQuotas {Q} _.
Arguments GetHObject {Q} _ _ _.
Arguments ListHObjects {Q} _.

(** [resource.Quantity]. *)
Class HQuantity (Q : Type) := {
  hq_zero : Q;
  hq_IsZero : Q → bool;
  hq_MilliValue : Q → Z;
  hq_Value : Q → Z;
  hq_String : Q → string;
  hq_Cmp : Q → Q → Z;
  hq_Parse : string → result Q;
}.

Class HealthLib := {
  range_map : ∀ {A}, gmap string A → list (string * A);
  sort_recent : list EventInfo → list EventInfo;
}.

(** [t.Before(u)] and [t.After(u)] where the zero time is before every other. *)
Definition before (t u : option Z) : bool :=
  match t, u with
  | None, None => false
  | None, Some _ => true
  | Some _, None => false
  | Some t, Some u => (t <? u)%Z
  end.

Class HealthLibLaws `{HealthLib} := {
  range_map_perm {A} (m : gmap string A) : range_map m ≡ₚ map_to_list m;
  sort_recent_perm l : sort_recent l ≡ₚ l;
  sort_recent_sorted l : StronglySorted (λ e e', before (ei_LastTime e) (ei_LastTime e') = false) (sort_recent l);
}.

Definition ConditionTrueStatus : string := "True".
Definition PodRunning : string := "Running".
Definition PodSucceeded : string := "Succeeded".

(** [strings.EqualFold] on ASCII texts. *)
Definition equal_fold (a b : string) : bool := String.eqb (to_lower a) (to_lower b).
