(* ===== verification/HealthSections.v ===== *)
(** * HealthSections: how each section of a health report is collected

    One part per file of [pkg/clusterhealth]. A section never fails: what goes wrong is a text
    in its [Error], next to whatever could be collected. The loop over the pages of events
    has fuel, the number of pages to read at most; [None] means that the server had not
    finished by then. The dependent operators are checked concurrently, each writing its own
    slot of the result; the model checks them in order. *)

From S2P Require Import Prelude Effects Unstructured SharedPlatform Conversion Admission Workload ClusterHealth.

(** Errors so far, infos by namespace, raw objects. *)
Record Collected (I R : Type) := MkCollected {
  col_Errors : list string;
  col_ByNamespace : gmap string (list I);
  col_Raw : list R;
}.
Arguments MkCollected {I R} _ _ _.
Arguments col_Errors {I R} _.
Arguments col_ByNamespace {I R} _.
Arguments col_Raw {I R} _.

(** What [f] finds wrong with the infos of each namespace. *)
Definition problems {I} (f : string → I → option string) (byNamespace : list (string * list I)) : list string :=
  concat (map (λ kv, omap (f kv.1) kv.2) byNamespace).

Section sections.
Context `{Nested, NestedWrite, NestedMaps, HQuantity Q, HealthLib}.

(** ** Nodes ([nodes.go]) *)

Definition rolePrefix : string := "node-role.kubernetes.io/".

(** [strings.CutPrefix]. *)
Definition cut_prefix (s prefix : string) : option string :=
  if has_prefix s prefix
  then Some (String.substring (String.length prefix) (String.length s - String.length prefix) s) else None.

(** [rl[name]]: the zero quantity when absent. *)
Definition rl_get (rl : gmap string Q) (name : string) : Q := default hq_zero (rl !! name).

Definition formatResourceList (rl : gmap string Q) : string :=
  let cpu := rl_get rl "cpu" in
  let mem := rl_get rl "memory" in
  join ", "
    ((if negb (hq_IsZero cpu) then [itoa (hq_MilliValue cpu) +:+ "m CPU"] else []) ++
     (if negb (hq_IsZero mem) then [hq_String mem +:+ " memory"] else [])).

Definition pressure_types : list string := ["MemoryPressure"; "DiskPressure"; "PIDPressure"].

Definition pressure_reasons (conditions : list ConditionSummary) : list string :=
  omap (λ c, if bool_decide (cs_Type c ∈ pressure_types) && String.eqb (cs_Status c) "True"
             then Some (cs_Type c) else None) conditions.

(** The last one counts. *)
Definition not_ready_step (notReady : string) (c : ConditionSummary) : string :=
  if String.eqb (cs_Type c) "Ready" && (String.eqb (cs_Status c) "False" || String.eqb (cs_Status c) "Unknown")
  then "Ready=" +:+ cs_Status c else notReady.

Definition other_reasons (conditions : list ConditionSummary) : list string :=
  omap (λ c, if String.eqb (cs_Type c) "NetworkUnavailable" && String.eqb (cs_Status c) "True"
             then Some "network unavailable" else None) conditions.

Definition unhealthy_reason (conditions : list ConditionSummary) : string :=
  let pressureReasons := pressure_reasons conditions in
  let notReady := foldl not_ready_step "" conditions in
  let otherReasons := other_reasons conditions in
  join "; "
    ((match pressureReasons with [] => [] | _ => ["resource pressure: " +:+ join ", " pressureReasons] end) ++
     (if nonempty_str notReady then [notReady] else []) ++
     (match otherReasons with [] => [] | _ => [join ", " otherReasons] end)).

Definition nodeToNodeInfo (node : HNode Q) : NodeInfo :=
  let roles := omap (λ key, cut_prefix key rolePrefix) (map_to_list (hn_Labels node)).*1 in
  MkNodeInfo (hn_Name node) (join "," (sort_strings roles)) (hn_Conditions node)
    (formatResourceList (hn_Allocatable node)) (formatResourceList (hn_Capacity node))
    (unhealthy_reason (hn_Conditions node)) None None.

Definition parsed_quantity (usageMap : gmap string string) (key : string) (rl : gmap string Q) : gmap string Q :=
  match usageMap !! key with
  | None => rl
  | Some s => match hq_Parse s with Ok q => <[key := q]> rl | Err _ => rl end
  end.

Definition add_usage (m : gmap string (gmap string Q)) (item : string * value_map) : gmap string (gmap string Q) :=
  match NestedStringMap item.2 ["usage"] with
  | Ok (Some usageMap) => <[item.1 := parsed_quantity usageMap "memory" (parsed_quantity usageMap "cpu" ∅)]> m
  | _ => m
  end.

Definition fetchNodeMetrics : prog (HealthE Q) (gmap string (gmap string Q)) :=
  listed ← trigger ListNodeMetrics;
  mret (match listed with Err _ => ∅ | Ok found => foldl add_usage ∅ found end).

Definition with_usage (usageByNode : gmap string (gmap string Q)) (node : HNode Q) : NodeInfo :=
  let info := nodeToNodeInfo node in
  match usageByNode !! hn_Name node with
  | None => info
  | Some usage =>
      MkNodeInfo (ni_Name info) (ni_Role info) (ni_Conditions info) (ni_Allocatable info) (ni_Capacity info)
        (ni_UnhealthyReason info) (hq_MilliValue <$> usage !! "cpu") (hq_Value <$> usage !! "memory")
  end.

Definition runNodesSection : prog (HealthE Q) (SectionResult (NodesSection Q)) :=
  listed ← trigger ListHNodes;
  match listed with
  | Err err => mret (MkSection ("failed to list nodes: " +:+ err_text err) (MkNodes [] []))
  | Ok [] => mret (MkSection "" (MkNodes [] []))
  | Ok nodes =>
      usageByNode ← fetchNodeMetrics;
      let infos := with_usage usageByNode <$> nodes in
      let unhealthy :=
        omap (λ info, if nonempty_str (ni_UnhealthyReason info)
                      then Some (ni_Name info +:+ " (" +:+ ni_UnhealthyReason info +:+ ")") else None) infos in
      mret (MkSection (match unhealthy with [] => "" | _ => "unhealthy nodes: " +:+ join "; " unhealthy end)
              (MkNodes infos nodes))
  end.

(** ** Loops over namespaces *)

(** The shape that the deployments, pods and quotas sections share. *)
Definition collect_one {I R} (what : string → prog (HealthE Q) (result (list R))) (to_info : R → I)
    (c : Collected I R) (namespace : string) : prog (HealthE Q) (Collected I R) :=
  listed ← what namespace;
  mret (match listed with
        | Err err => MkCollected (col_Errors c ++ [namespace +:+ ": " +:+ err_text err]) (col_ByNamespace c) (col_Raw c)
        | Ok objs => MkCollected (col_Errors c) (<[namespace := to_info <$> objs]> (col_ByNamespace c))
                       (col_Raw c ++ objs)
        end).

Definition collect {I R} (what : string → prog (HealthE Q) (result (list R))) (to_info : R → I)
    (namespaces : list string) : prog (HealthE Q) (Collected I R) :=
  prog_foldl (collect_one what to_info) (MkCollected [] ∅ []) namespaces.

(** ** Deployments ([deployments.go]) *)

Definition desiredReplicas (d : HDeployment) : Z := default 1%Z (hd_Replicas d).

Definition deploymentToInfo (d : HDeployment) : DeploymentInfo :=
  MkDeploymentInfo (hd_Namespace d) (hd_Name d) (hd_ReadyReplicas d) (desiredReplicas d) (hd_CreatedAt d)
    (filter (λ c, cs_Status c ≠ ConditionTrueStatus) (hd_Conditions d)).

Definition deployment_not_ready (nsName : string) (info : DeploymentInfo) : option string :=
  if (di_Replicas info >? 0)%Z && negb (di_Ready info =? di_Replicas info)%Z
  then Some (nsName +:+ "/" +:+ di_Name info +:+ " (" +:+ itoa (di_Ready info) +:+ "/" +:+ itoa (di_Replicas info) +:+ ")")
  else None.

Definition runDeploymentsSection (ns : NamespaceConfig) : prog (HealthE Q) (SectionResult DeploymentsSection) :=
  match List ns with
  | [] => mret (MkSection "" (MkDeployments ∅ []))
  | namespaces =>
      c ← collect (λ namespace, trigger (ListHDeployments namespace ∅)) deploymentToInfo namespaces;
      let notReady := problems deployment_not_ready (range_map (col_ByNamespace c)) in
      let errs := col_Errors c ++
        match notReady with [] => [] | _ => ["deployments not ready: " +:+ join ", " notReady] end in
      mret (MkSection (join "; " errs) (MkDeployments (col_ByNamespace c) (col_Raw c)))
  end.

(** ** Pods ([pods.go]) *)

Definition containerStatusToInfo (cs : HContainerStatus) : ContainerInfo :=
  MkContainerInfo (hcs_Name cs) (hcs_Ready cs) false (hcs_RestartCount cs)
    (match hcs_Waiting cs with None => "" | Some w => TrimSpace (wt_Reason w +:+ " " +:+ wt_Message w) end)
    (match hcs_Terminated cs with
     | None => ""
     | Some t => (tm_Reason t +:+ " (exit " +:+ itoa (tm_ExitCode t) +:+ ")") +:+
                 (if nonempty_str (tm_Message t) then ": " +:+ tm_Message t else "")
     end) None None None None.

Definition enrichWithResources (info : ContainerInfo) (spec : HContainer Q) : ContainerInfo :=
  MkContainerInfo (ci_Name info) (ci_Ready info) (ci_IsInit info) (ci_RestartCount info) (ci_Waiting info)
    (ci_Terminated info)
    (hq_MilliValue <$> hc_Requests spec !! "cpu") (hq_Value <$> hc_Requests spec !! "memory")
    (hq_MilliValue <$> hc_Limits spec !! "cpu") (hq_Value <$> hc_Limits spec !! "memory").

Definition as_init (info : ContainerInfo) : ContainerInfo :=
  MkContainerInfo (ci_Name info) (ci_Ready info) true (ci_RestartCount info) (ci_Waiting info) (ci_Terminated info)
    (ci_RequestsCPU info) (ci_RequestsMemory info) (ci_LimitsCPU info) (ci_LimitsMemory info).

Definition container_info (containerSpecs : gmap string (HContainer Q)) (init : bool) (cs : HContainerStatus)
    : ContainerInfo :=
  let cinfo := containerStatusToInfo cs in
  let cinfo := if init then as_init cinfo else cinfo in
  match containerSpecs !! hcs_Name cs with Some spec => enrichWithResources cinfo spec | None => cinfo end.

Definition container_specs (pod : HPod Q) : gmap string (HContainer Q) :=
  foldl (λ m c, <[hc_Name c := c]> m) ∅ (hp_Containers pod ++ hp_InitContainers pod).

Definition podToInfo (pod : HPod Q) : PodInfo :=
  let containerSpecs := container_specs pod in
  MkPodInfo (hp_Namespace pod) (hp_Name pod) (hp_Phase pod) (hp_NodeName pod) (hp_CreatedAt pod)
    ((container_info containerSpecs false <$> hp_ContainerStatuses pod) ++
     (container_info containerSpecs true <$> hp_InitContainerStatuses pod)).

(** The first container that is not clean. *)
Fixpoint container_reason (containers : list ContainerInfo) : string :=
  match containers with
  | [] => ""
  | c :: containers =>
      if negb (ci_Ready c) then "container " +:+ ci_Name c +:+ " not ready"
      else if (ci_RestartCount c >? 0)%Z then "container " +:+ ci_Name c +:+ " restarts=" +:+ itoa (ci_RestartCount c)
      else if nonempty_str (ci_Waiting c) then "container " +:+ ci_Name c +:+ " waiting: " +:+ ci_Waiting c
      else if nonempty_str (ci_Terminated c) then "container " +:+ ci_Name c +:+ " " +:+ ci_Terminated c
      else container_reason containers
  end.

Definition podUnhealthyReason (info : PodInfo) : string :=
  if negb (String.eqb (pi_Phase info) PodRunning) && negb (String.eqb (pi_Phase info) PodSucceeded)
  then "phase=" +:+ pi_Phase info
  else if negb (String.eqb (pi_Phase info) PodRunning) then ""
  else container_reason (pi_Containers info).

Definition pod_error (info : PodInfo) : option string :=
  let reason := podUnhealthyReason info in
  if nonempty_str reason then Some (pi_Namespace info +:+ "/" +:+ pi_Name info +:+ ": " +:+ reason) else None.

Definition pods_listed (pods : list (HPod Q)) : list PodInfo * list (HPod Q) := (podToInfo <$> pods, pods).

Definition listPodsInNamespace (namespace : string) (selector : gmap string string)
    : prog (HealthE Q) (result (list PodInfo * list (HPod Q))) :=
  listed ← trigger (ListHPods namespace selector);
  mret (match listed with Err err => Err err | Ok pods => Ok (pods_listed pods) end).

Definition runPodsSection (ns : NamespaceConfig) : prog (HealthE Q) (SectionResult (PodsSection Q)) :=
  match List ns with
  | [] => mret (MkSection "" (MkPods ∅ []))
  | namespaces =>
      c ← collect (λ namespace, trigger (ListHPods namespace ∅)) podToInfo namespaces;
      let errs := col_Errors c ++ problems (λ _, pod_error) (range_map (col_ByNamespace c)) in
      mret (MkSection (join "; " errs) (MkPods (col_ByNamespace c) (col_Raw c)))
  end.

(** ** Quotas ([quotas.go]) *)

Definition quantityExceedsOrEqual (used hard : Q) : bool := (hq_Cmp used hard >=? 0)%Z.

Definition exceeded_resource (hard : gmap string Q) (kv : string * Q) : option string :=
  match hard !! kv.1 with
  | None => None
  | Some hardQty => if quantityExceedsOrEqual kv.2 hardQty then Some kv.1 else None
  end.

Definition resourceQuotaToInfo (q : HQuota Q) : ResourceQuotaInfo :=
  MkQuotaInfo (hq_Namespace q) (hq_Name q) (hq_String <$> hq_Used q) (hq_String <$> hq_Hard q)
    (omap (exceeded_resource (hq_Hard q)) (range_map (hq_Used q))).

Definition quota_error (info : ResourceQuotaInfo) : option string :=
  match qi_Exceeded info with
  | [] => None
  | exceeded => Some (qi_Namespace info +:+ "/" +:+ qi_Name info +:+ " exceeded: " +:+ join ", " exceeded)
  end.

Definition runQuotasSection (ns : NamespaceConfig) : prog (HealthE Q) (SectionResult (QuotasSection Q)) :=
  match List ns with
  | [] => mret (MkSection "" (MkQuotas ∅ []))
  | namespaces =>
      c ← collect (λ namespace, trigger (ListHQuotas namespace)) resourceQuotaToInfo namespaces;
      let errs := col_Errors c ++ problems (λ _, quota_error) (range_map (col_ByNamespace c)) in
      mret (MkSection (join "; " errs) (MkQuotas (col_ByNamespace c) (col_Raw c)))
  end.

(** ** Events ([events.go]) *)

Definition Minute : Z := 60 * 1000000000.
Definition DefaultEventsWindow : Z := 5 * Minute.

Definition eventLastTime (e : HEvent) : option Z :=
  match he_LastTimestamp e with None => he_EventTime e | Some t => Some t end.

Definition eventToInfo (e : HEvent) : EventInfo :=
  MkEventInfo (he_Namespace e) (he_Kind e) (he_Name e) (he_Type e) (he_Reason e) (he_Message e)
    (eventLastTime e) (he_Count e).

Definition recent (cutoff : Z) (e : HEvent) : bool := negb (before (eventLastTime e) (Some cutoff)).

(** One page after the other until the server gives no token; [raw] are the events kept so
    far, from which the infos are made. *)
Fixpoint list_event_pages (fuel : nat) (namespace continue : string) (cutoff : Z) (raw : list HEvent)
    : prog (HealthE Q) (option (result (list HEvent))) :=
  match fuel with
  | O => mret None
  | S fuel =>
      listed ← trigger (ListHEvents namespace continue);
      match listed with
      | Err err => mret (Some (Err err))
      | Ok (page, continue') =>
          let raw := raw ++ filter (λ e, recent cutoff e = true) page in
          if String.eqb continue' "" then mret (Some (Ok raw))
          else list_event_pages fuel namespace continue' cutoff raw
      end
  end.

Definition listRecentEventsInNamespace (fuel : nat) (namespace : string) (cutoff : Z)
    : prog (HealthE Q) (option (result (list HEvent))) :=
  list_event_pages fuel namespace "" cutoff [].

(** The events kept and the errors by namespace. *)
Fixpoint collect_events (fuel : nat) (namespaces : list string) (cutoff : Z) (raw : list HEvent)
    (errs : gmap string goerr) : prog (HealthE Q) (option (list HEvent * gmap string goerr)) :=
  match namespaces with
  | [] => mret (Some (raw, errs))
  | namespace :: namespaces =>
      listed ← listRecentEventsInNamespace fuel namespace cutoff;
      match listed with
      | None => mret None
      | Some (Err err) => collect_events fuel namespaces cutoff raw (<[namespace := err]> errs)
      | Some (Ok events) => collect_events fuel namespaces cutoff (raw ++ events) errs
      end
  end.

Record EventsCollected := MkEventsCollected {
  ec_Events : list EventInfo;
  ec_Raw : list HEvent;
  ec_Errors : gmap string goerr;
}.

Definition collectEvents (fuel : nat) (namespaces : list string) (cutoff : Z)
    : prog (HealthE Q) (option EventsCollected) :=
  collected ← collect_events fuel namespaces cutoff [] ∅;
  mret (match collected with
        | None => None
        | Some (raw, errs) => Some (MkEventsCollected (sort_recent (map eventToInfo raw)) raw errs)
        end).

Definition namespace_error (kv : string * goerr) : string := kv.1 +:+ ": " +:+ err_text kv.2.

Definition runEventsSection (fuel : nat) (ns : NamespaceConfig) (since : Z)
    : prog (HealthE Q) (option (SectionResult EventsSection)) :=
  let cutoff := (since - DefaultEventsWindow)%Z in
  match List ns with
  | [] => mret (Some (MkSection "" (MkEvents [] [])))
  | namespaces =>
      collected ← collectEvents fuel namespaces cutoff;
      mret (match collected with
            | None => None
            | Some c =>
                Some (MkSection (join "; " (map namespace_error (range_map (ec_Errors c))))
                        (MkEvents (ec_Events c) (ec_Raw c)))
            end)
  end.

Record RecentEventsConfig := MkRecentEvents {
  re_Client : bool;
  re_Namespaces : list string;
  re_Since : Z;
  re_EventType : string;
}.

Definition recent_error (kv : string * goerr) : string :=
  kv.1 +:+ (if err_is TagNotFound kv.2 then ": namespace not found"
            else if err_is TagForbidden kv.2 then ": forbidden (missing RBAC permissions)"
            else ": " +:+ err_text kv.2).

(** The events and the error. *)
Definition RunRecentEvents (fuel : nat) (cfg : RecentEventsConfig)
    : prog (HealthE Q) (option (list EventInfo * option goerr)) :=
  if negb (re_Client cfg) then mret (Some ([], Some (errorf "clusterhealth: client is required")))
  else
    match re_Namespaces cfg with
    | [] => mret (Some ([], None))
    | namespaces =>
        if (re_Since cfg <? 0)%Z then mret (Some ([], Some (errorf "clusterhealth: since must be non-negative")))
        else
          let window := if (re_Since cfg =? 0)%Z then DefaultEventsWindow else re_Since cfg in
          now ← trigger HNow;
          collected ← collectEvents fuel namespaces (now - window)%Z;
          mret (match collected with
                | None => None
                | Some c =>
                    let all :=
                      if nonempty_str (re_EventType cfg)
                      then filter (λ e, equal_fold (ei_Type e) (re_EventType cfg) = true) (ec_Events c)
                      else ec_Events c in
                    Some (all, match range_map (ec_Errors c) with
                               | [] => None
                               | errs => Some (errorf (join "; " (map recent_error errs)))
                               end)
                end)
    end.

(** ** The operator ([operator.go]) *)

Definition dependentOperatorNamespaces : list (string * string) :=
  [("opentelemetry", "openshift-opentelemetry-operator"); ("tempo", "openshift-tempo-operator");
   ("cluster-observability", "openshift-cluster-observability-operator"); ("kueue", "openshift-kueue-operator");
   ("jobset", "openshift-jobset-operator"); ("leader-worker-set", "openshift-lws-operator");
   ("cert-manager", "cert-manager-operator"); ("kuadrant", "kuadrant-system")].

Definition DependentOperatorCount : Z := Z.of_nat (length dependentOperatorNamespaces).

(** [strings.LastIndex] and the two slices: what is before and after the last [c], the at sign
    (64) or the colon (58). *)
Fixpoint cut_last (c : Ascii.ascii) (s : string) : option (string * string) :=
  match s with
  | EmptyString => None
  | String a s' =>
      match cut_last c s' with
      | Some (l, r) => Some (String a l, r)
      | None => if Ascii.eqb a c then Some (EmptyString, s') else None
      end
  end.

Definition imageVersion (image : string) : string :=
  let '(image, digest) :=
    match cut_last (Ascii.ascii_of_nat 64) image with Some (l, r) => (l, r) | None => (image, "") end in
  match cut_last (Ascii.ascii_of_nat 58) image with Some (_, tag) => tag | None => digest end.

(** The names in a namespace are distinct, so the sorted list is unique. *)
Definition FindOperatorDeploymentInNamespace (namespace : string) : prog (HealthE Q) (result (option HDeployment)) :=
  listed ← trigger (ListHDeployments namespace ∅);
  mret (match listed with
        | Err err => Err err
        | Ok [] => Ok None
        | Ok found =>
            let items := sort_by hd_Name found in
            match filter (λ d, contains (hd_Name d) "operator" = true) items with
            | d :: _ => Ok (Some d)
            | [] => Ok (head items)
            end
        end).

Definition ready_of (d : HDeployment) : string := itoa (hd_ReadyReplicas d) +:+ "/" +:+ itoa (desiredReplicas d) +:+ " ready".

(** [out.Error += ...], with a separator when there is an error already. *)
Definition add_pod_error (err : string) (p : PodInfo) : string :=
  if negb (String.eqb (pi_Phase p) PodRunning)
  then (if nonempty_str err then err +:+ "; " else err) +:+ "pod " +:+ pi_Name p +:+ ": " +:+ pi_Phase p
  else err.

Definition runDependentOperatorCheck (name namespace : string) : prog (HealthE Q) DependentOperatorResult :=
  found ← FindOperatorDeploymentInNamespace namespace;
  match found with
  | Err err =>
      mret (MkDependent name false "" None []
              (if err_is TagForbidden err then "list deployments: permission denied"
               else "list deployments: " +:+ err_text err))
  | Ok None => mret (MkDependent name false "" None [] "")
  | Ok (Some deploy) =>
      let image := match hd_Images deploy with image :: _ => imageVersion image | [] => "" end in
      let depInfo := Some (deploymentToInfo deploy) in
      if bool_decide (hd_MatchLabels deploy = ∅) then mret (MkDependent name true image depInfo [] "")
      else
        listed ← listPodsInNamespace namespace (hd_MatchLabels deploy);
        match listed with
        | Err err => mret (MkDependent name true image depInfo [] ("list pods: " +:+ err_text err))
        | Ok (pods, _) =>
            let err :=
              if (desiredReplicas deploy >? 0)%Z && (hd_ReadyReplicas deploy <? desiredReplicas deploy)%Z
              then "deployment " +:+ ready_of deploy else "" in
            mret (MkDependent name true image depInfo pods (foldl add_pod_error err pods))
        end
  end.

Fixpoint check_dependents (l : list (string * string)) : prog (HealthE Q) (list DependentOperatorResult) :=
  match l with
  | [] => mret []
  | (name, namespace) :: l =>
      dep ← runDependentOperatorCheck name namespace;
      deps ← check_dependents l;
      mret (dep :: deps)
  end.

Definition operator_errors (name : string) (deploy : HDeployment) (pods : list PodInfo) : list string :=
  let desired := desiredReplicas deploy in
  (if (desired =? 0)%Z then ["operator deployment " +:+ name +:+ ": scaled to 0 replicas"]
   else if (hd_ReadyReplicas deploy <? desired)%Z then ["operator deployment " +:+ name +:+ ": " +:+ ready_of deploy]
   else []) ++
  omap (λ p, if negb (String.eqb (pi_Phase p) PodRunning)
             then Some ("operator pod " +:+ pi_Name p +:+ ": " +:+ pi_Phase p) else None) pods.

Definition dependent_error (dep : DependentOperatorResult) : option string :=
  if nonempty_str (do_Error dep) then Some ("dependent " +:+ do_Name dep +:+ ": " +:+ do_Error dep) else None.

Definition runOperatorSection (op : OperatorConfig) : prog (HealthE Q) (SectionResult (OperatorSection Q)) :=
  if String.eqb (oc_Namespace op) "" || String.eqb (oc_Name op) ""
  then mret (MkSection "operator config missing namespace or name" (MkOperator None [] [] None))
  else
    fetched ← trigger (GetHDeployment (oc_Namespace op) (oc_Name op));
    match fetched with
    | Err err => mret (MkSection ("operator deployment not found: " +:+ err_text err) (MkOperator None [] [] None))
    | Ok deploy =>
        let depInfo := Some (deploymentToInfo deploy) in
        if bool_decide (hd_MatchLabels deploy = ∅)
        then mret (MkSection "operator deployment has no selector"
                     (MkOperator depInfo [] [] (Some (MkOperatorData deploy []))))
        else
          listed ← listPodsInNamespace (oc_Namespace op) (hd_MatchLabels deploy);
          match listed with
          | Err err => mret (MkSection ("list operator pods: " +:+ err_text err)
                               (MkOperator depInfo [] [] (Some (MkOperatorData deploy []))))
          | Ok (pods, rawPods) =>
              depResults ← check_dependents dependentOperatorNamespaces;
              let errs := operator_errors (oc_Name op) deploy pods ++ omap dependent_error depResults in
              mret (MkSection (join "; " errs)
                      (MkOperator depInfo pods depResults (Some (MkOperatorData deploy rawPods))))
          end
    end.
End sections.
