(* ===== verification/HealthReport.v ===== *)
(** * HealthReport: conditions of custom resources, components, and the whole report

    [cr_conditions.go], [cr_helpers.go], [component_status.go] and [run.go] of
    [pkg/clusterhealth]. *)

From S2P Require Import Prelude Effects Unstructured SharedPlatform Conversion Admission Workload ClusterHealth HealthSections.

Definition DSCInitializationGVK : GroupVersionKind :=
  MkGVK "dscinitialization.opendatahub.io" "v2" "DSCInitialization".
Definition DataScienceClusterGVK : GroupVersionKind :=
  MkGVK "datasciencecluster.opendatahub.io" "v2" "DataScienceCluster".

(** ** Which conditions are unhealthy ([cr_helpers.go]) *)

Definition conditionStatusIsTrue (status : string) : bool := equal_fold (TrimSpace status) "True".

(** [fmt.Sprintf("%s=%s", cond.Type, cond.Status)]. *)
Definition condition_text (cond : ConditionSummary) : string := cs_Type cond +:+ "=" +:+ cs_Status cond.

Definition conditionMessageIndicatesRemoved (message : string) : bool :=
  let s := to_lower (TrimSpace message) in
  contains s "managementstate is set to removed" || contains s "is not managed".

(** [s[:len(s)-len(suffix)]] when [strings.HasSuffix(s, suffix)]. *)
Definition cut_suffix (s suffix : string) : option string :=
  let n := (String.length s - String.length suffix)%nat in
  if (String.length suffix <=? String.length s)%nat && String.eqb (String.substring n (String.length suffix) s) suffix
  then Some (String.substring 0 n s) else None.

Definition conditionTypeToDSCComponentKeys (conditionType : string) : list string :=
  let s := TrimSpace conditionType in
  if String.eqb s "Ready" || String.eqb s "ComponentsReady" then []
  else
    match cut_suffix s "Ready" with
    | None => []
    | Some base =>
        let base := to_lower base in
        if String.eqb base "datasciencepipelines" || String.eqb base "aipipelines"
        then ["datasciencepipelines"; "aipipelines"] else [base]
    end.

Section conditions.
Context `{Nested, NestedWrite, NestedMaps}.

Definition component_state (comp : value_map) : string :=
  let ms := nested_string comp ["managementState"] in
  if String.eqb ms "" then nested_string comp ["managementSpec"; "managementState"] else ms.

Definition add_removed (removed : gset string) (kv : string * value) : gset string :=
  match as_map kv.2 with
  | None => removed
  | Some comp =>
      if equal_fold (TrimSpace (component_state comp)) "Removed"
      then {[to_lower (TrimSpace kv.1)]} ∪ removed else removed
  end.

Definition removed_at (obj : value_map) (removed : gset string) (path : list string) : gset string :=
  match NestedMap obj path with
  | Ok (Some components) => foldl add_removed removed components
  | _ => removed
  end.

Definition dscRemovedComponentNames (obj : value_map) : gset string :=
  foldl (removed_at obj) ∅ [["spec"; "components"]; ["status"; "components"]].

Definition dscUnhealthyConditions (obj : value_map) (conditions : list ConditionSummary) : list string :=
  let removed := dscRemovedComponentNames obj in
  omap (λ cond,
    if conditionStatusIsTrue (cs_Status cond) then None
    else if conditionMessageIndicatesRemoved (cs_Message cond) then None
    else if existsb (λ key, bool_decide (key ∈ removed)) (conditionTypeToDSCComponentKeys (cs_Type cond)) then None
    else Some (condition_text cond)) conditions.

Definition dsciUnhealthyConditions (conditions : list ConditionSummary) : list string :=
  omap (λ cond,
    let ty := TrimSpace (cs_Type cond) in
    if String.eqb ty "Progressing" || String.eqb ty "Upgradeable" then None
    else if String.eqb ty "Degraded" then
      if conditionStatusIsTrue (cs_Status cond) then Some (condition_text cond) else None
    else if negb (conditionStatusIsTrue (cs_Status cond)) then Some (condition_text cond) else None) conditions.

Definition defaultUnhealthyConditions (conditions : list ConditionSummary) : list string :=
  omap (λ cond, if negb (conditionStatusIsTrue (cs_Status cond)) then Some (condition_text cond) else None) conditions.

Definition UnhealthyChecker : Type := value_map → list ConditionSummary → list string.

Definition dsciUnhealthyConditionsWithObj : UnhealthyChecker := λ _ conditions, dsciUnhealthyConditions conditions.

(** [None]: the default. *)
Definition getUnhealthyChecker (kind : string) : option UnhealthyChecker :=
  if String.eqb kind "DataScienceCluster" then Some dscUnhealthyConditions
  else if String.eqb kind "DSCInitialization" then Some dsciUnhealthyConditionsWithObj
  else None.

(** ** The conditions of a resource ([cr_conditions.go]) *)

(** [v, _ := m[k].(string)]. *)
Definition string_or_empty (v : value) : string := default "" (as_string v).

Definition parse_condition (raw : value) : option ConditionSummary :=
  match as_map raw with
  | None => None
  | Some m =>
      Some (MkSummary (string_or_empty (map_get m "type")) (string_or_empty (map_get m "status"))
              (string_or_empty (map_get m "message")))
  end.

(** A [nil] slice is the empty one: the callers do not tell them apart. *)
Definition parseConditionsFromUnstructured (obj : value_map) : result (list ConditionSummary) :=
  match NestedSlice obj ["status"; "conditions"] with
  | Err err => Err err
  | Ok None => Ok []
  | Ok (Some conditions) => Ok (omap parse_condition conditions)
  end.

Context {Q : Type}.

Definition getCRByGVK (objGVK : GroupVersionKind) (nn : NamespacedName)
    : prog (HealthE Q) (result (option Unstructured)) :=
  if nonempty_str (nn_Name nn) then
    fetched ← trigger (GetHObject objGVK (nn_Namespace nn) (nn_Name nn));
    mret (match fetched with
          | Ok obj => Ok (Some obj)
          | Err err =>
              if err_is TagNotFound err || err_is TagNoMatch err then
                Err (errorf ("CR " +:+ nn_Name nn +:+ " not found" +:+
                       (if nonempty_str (nn_Namespace nn) then " in namespace " +:+ nn_Namespace nn else "")))
              else Err (wrapf "failed to get CR" err)
          end)
  else
    listed ← trigger (ListHObjects (MkGVK (gvk_Group objGVK) (gvk_Version objGVK) (gvk_Kind objGVK +:+ "List")));
    mret (match listed with
          | Err err =>
              if err_is TagNoMatch err then Ok None else Err (wrapf ("failed to list " +:+ gvk_Kind objGVK) err)
          | Ok found => Ok (head found)
          end).

Definition unhealthy_messages (kind : string) (obj : value_map) (conditions : list ConditionSummary) : list string :=
  match getUnhealthyChecker kind with
  | Some checker => checker obj conditions
  | None => defaultUnhealthyConditions conditions
  end.

Definition runCRConditionsSection (objGVK : GroupVersionKind) (nn : NamespacedName)
    : prog (HealthE Q) (SectionResult CRConditionsSection) :=
  fetched ← getCRByGVK objGVK nn;
  mret (match fetched with
        | Err err => MkSection (err_text err) (MkCRSection "" [] None)
        | Ok None => MkSection ("no " +:+ gvk_Kind objGVK +:+ " found on cluster") (MkCRSection "" [] None)
        | Ok (Some obj) =>
            match parseConditionsFromUnstructured (u_object obj) with
            | Err err =>
                MkSection ("failed to parse " +:+ u_name obj +:+ " status.conditions: " +:+ err_text err)
                  (MkCRSection (u_name obj) [] None)
            | Ok conditions =>
                let unhealthyMsgs := unhealthy_messages (gvk_Kind objGVK) (u_object obj) conditions in
                MkSection (match unhealthyMsgs with
                           | [] => ""
                           | _ => u_name obj +:+ " unhealthy conditions: " +:+ join "; " unhealthyMsgs
                           end) (MkCRSection (u_name obj) conditions (Some obj))
            end
        end).
End conditions.

(** ** Components ([component_status.go]) *)

Definition KnownComponents : gmap string string := list_to_map
  [("dashboard", "Dashboard"); ("workbenches", "Workbenches"); ("kserve", "Kserve"); ("ray", "Ray");
   ("kueue", "Kueue"); ("modelregistry", "AIHub"); ("trustyai", "TrustyAI");
   ("datasciencepipelines", "DataSciencePipelines"); ("feastoperator", "FeastOperator"); ("ogx", "OGX");
   ("modelmeshserving", "ModelMeshServing"); ("mlflowoperator", "MLflowOperator");
   ("sparkoperator", "SparkOperator"); ("modelcontroller", "ModelController");
   ("modelsasservice", "ModelsAsService"); ("trainer", "Trainer")].

Record ComponentStatusResult := MkComponentStatus {
  cst_Component : string;
  cst_CRFound : bool;
  cst_Conditions : list ConditionSummary;
  cst_Deployments : list DeploymentInfo;
  cst_Pods : list PodInfo;
  cst_Errors : list string;
}.

Section report.
Context `{Nested, NestedWrite, NestedMaps, HQuantity Q, HealthLib}.

(** Whether the component's CR was found, its conditions and the errors. *)
Definition lookup_cr (kind : string) : prog (HealthE Q) (bool * list ConditionSummary * list string) :=
  listed ← trigger (ListHObjects (MkGVK "components.platform.opendatahub.io" "v1alpha1" (kind +:+ "List")));
  mret (match listed with
        | Err err => (false, [], ["CR lookup: " +:+ err_text err])
        | Ok [] => (false, [], [])
        | Ok (cr :: _) =>
            match parseConditionsFromUnstructured (u_object cr) with
            | Ok conditions => (true, conditions, [])
            | Err parseErr => (true, [], ["condition parse: " +:+ err_text parseErr])
            end
        end).

Definition GetComponentStatus (name appsNS : string) : prog (HealthE Q) (result ComponentStatusResult) :=
  match KnownComponents !! name with
  | None =>
      mret (Err (errorf ("unknown component " +:+ quote name +:+ "; valid: " +:+
                   join ", " (sort_strings (map_to_list KnownComponents).*1))))
  | Some kind =>
      cr ← lookup_cr kind;
      let '(found, conditions, errs) := cr in
      let label : gmap string string := {["app.opendatahub.io/" +:+ name := "true"]} in
      deps ← trigger (ListHDeployments appsNS label);
      match deps with
      | Err err => mret (Err (wrapf ("listing deployments for component " +:+ quote name) err))
      | Ok deps =>
          pods ← trigger (ListHPods appsNS label);
          mret (match pods with
                | Err err => Err (wrapf ("listing pods for component " +:+ quote name) err)
                | Ok pods =>
                    Ok (MkComponentStatus name found conditions (map deploymentToInfo deps) (map podToInfo pods) errs)
                end)
      end
  end.

(** ** The report ([run.go]) *)

(** [if run[name] { report.X = ... }]: a section that is not run keeps its zero value. *)
Definition selected {T} (run : gset string) (name : string) (zero : T)
    (p : prog (HealthE Q) (SectionResult T)) : prog (HealthE Q) (SectionResult T) :=
  if bool_decide (name ∈ run) then p else mret (MkSection "" zero).

Definition selected_events (run : gset string) (p : prog (HealthE Q) (option (SectionResult EventsSection)))
    : prog (HealthE Q) (option (SectionResult EventsSection)) :=
  if bool_decide (SectionEvents ∈ run) then p else mret (Some (MkSection "" (MkEvents [] []))).

Definition no_cr : CRConditionsSection := MkCRSection "" [] None.

(** [None]: the events did not end within [fuel] pages. *)
Definition Run (fuel : nat) (cfg : Config) : prog (HealthE Q) (option (result (Report Q))) :=
  if negb (cfg_Client cfg) then mret (Some (Err (errorf "clusterhealth: client is required")))
  else
    collectedAt ← trigger HNow;
    let run := sectionsToRun cfg in
    let ns := cfg_Namespaces cfg in
    nodes ← selected run SectionNodes (MkNodes [] []) runNodesSection;
    deployments ← selected run SectionDeployments (MkDeployments ∅ []) (runDeploymentsSection ns);
    pods ← selected run SectionPods (MkPods ∅ []) (runPodsSection ns);
    events ← selected_events run (runEventsSection fuel ns collectedAt);
    match events with
    | None => mret None
    | Some events =>
        quotas ← selected run SectionQuotas (MkQuotas ∅ []) (runQuotasSection ns);
        operator ← selected run SectionOperator (MkOperator None [] [] None) (runOperatorSection (cfg_Operator cfg));
        dsci ← selected run SectionDSCI no_cr (runCRConditionsSection DSCInitializationGVK (cfg_DSCI cfg));
        dsc ← selected run SectionDSC no_cr (runCRConditionsSection DataScienceClusterGVK (cfg_DSC cfg));
        mret (Some (Ok (MkReport collectedAt (filter (λ name, name ∈ run) sectionOrder)
          nodes deployments pods events quotas operator dsci dsc)))
    end.
End report.
