(* ===== verification/HealthTheorems.v ===== *)
(** * Health reports: properties

    Reading events ends exactly when the server's pages do; every object that the cluster
    reported is reflected in the report; and a report that the failure classifier cannot
    explain was collected from a cluster that showed nothing wrong. *)

From S2P Require Import Prelude Effects Unstructured SharedPlatform Conversion Admission Workload FailureClassifier.
From S2P Require Import ClusterHealth HealthSections HealthReport.

(** ** Namespaces *)

Lemma add_namespace_NoDup out ns : NoDup out → NoDup (add_namespace out ns).
Proof.
  intros Hnd. unfold add_namespace. destruct (_ && _) eqn:Hc; [|done].
  apply andb_true_iff in Hc as [_ Hc%negb_true_iff%bool_decide_eq_false].
  apply NoDup_app. split_and!; [done| |apply NoDup_singleton]. by intros x Hx ->%list_elem_of_singleton.
Qed.

Lemma List_NoDup n : NoDup (List n).
Proof.
  unfold List. assert (∀ l out, NoDup out → NoDup (foldl add_namespace out l)) as Hgen.
  { induction l as [|ns l IH]; intros out Hout; [done|]. by apply IH, add_namespace_NoDup. }
  apply Hgen. constructor.
Qed.

(** ** Pages of events *)

Section pages.
Context {Q : Type} (answers : string → result (list HEvent * string)).

(** The pages that the tokens of the server lead through, and how the chain ends. *)
Inductive chain : string → list (list HEvent) → option goerr → Prop :=
| chain_last token page : answers token = Ok (page, "") → chain token [page] None
| chain_error token err : answers token = Err err → chain token [] (Some err)
| chain_next token page token' pages end_ :
    answers token = Ok (page, token') → token' ≠ "" → chain token' pages end_ →
    chain token (page :: pages) end_.

(** The calls that the chain takes: one per page, and the one that failed. *)
Definition chain_calls (pages : list (list HEvent)) (end_ : option goerr) : nat :=
  length pages + match end_ with None => 0 | Some _ => 1 end.

Definition kept (cutoff : Z) (pages : list (list HEvent)) : list HEvent :=
  filter (λ e, recent cutoff e = true) (concat pages).

Lemma kept_cons cutoff page pages :
  kept cutoff (page :: pages) = filter (λ e, recent cutoff e = true) page ++ kept cutoff pages.
Proof. unfold kept. by rewrite concat_cons, filter_app. Qed.

Context (namespace : string) {W : Type} (h : ∀ X, HealthE Q X → W → X * W).
Hypothesis h_pages : ∀ token w, h _ (ListHEvents namespace token) w = (answers token, w).

Lemma pages_result (fuel : nat) token cutoff raw w tr :
  (∀ pages end_, chain token pages end_ → chain_calls pages end_ ≤ fuel →
     (run h (list_event_pages fuel namespace token cutoff raw) w tr).1.1 =
       Some (match end_ with None => Ok (raw ++ kept cutoff pages) | Some err => Err err end)) ∧
  ((run h (list_event_pages fuel namespace token cutoff raw) w tr).1.1 ≠ None →
     ∃ pages end_, chain token pages end_ ∧ chain_calls pages end_ ≤ fuel).
Proof.
  revert token raw tr. induction fuel as [|fuel IH]; intros token raw tr.
  { split; [|done]. intros pages end_ Hc Hle. unfold chain_calls in Hle. inversion Hc; subst; simpl in *; lia. }
  cbn. rewrite h_pages. cbn. destruct (answers token) as [[page token']|err] eqn:Ha; cbn.
  2: { split.
    - intros pages end_ Hc _. inversion Hc; congruence.
    - intros _. exists [], (Some err). split; [by constructor|]. unfold chain_calls. simpl. lia. }
  destruct (String.eqb_spec token' "") as [->|Hne]; cbn.
  - split.
    + intros pages end_ Hc _. inversion Hc as [? page' Hp|? err Hp|? page' ? ? ? Hp]; rewrite Ha in Hp; simplify_eq.
      rewrite kept_cons. change (kept cutoff []) with (@nil HEvent). by rewrite app_nil_r.
    + intros _. exists [page], None. split; [by constructor|]. unfold chain_calls. simpl. lia.
  - destruct (IH token' (raw ++ filter (λ e, recent cutoff e = true) page)
                (tr ++ [Call (ListHEvents namespace token) (Ok (page, token'))])) as [IH1 IH2]. split.
    + intros pages end_ Hc Hle. inversion Hc as [? page' Hp|? err Hp|? page' ? pages0 ? Hp]; rewrite Ha in Hp; simplify_eq.
      rewrite (IH1 pages0 end_); [|done|unfold chain_calls in *; simpl in *; lia].
      destruct end_; [done|]. by rewrite kept_cons, app_assoc.
    + intros (pages & end_ & Hc & Hle)%IH2. exists (page :: pages), end_.
      split; [by apply (chain_next _ _ token')|]. unfold chain_calls in *. simpl. lia.
Qed.

(** C35: the loop over the pages of a namespace's events ends exactly when the server's chain of
    tokens ends: some number of steps is enough if and only if the chain is finite, and then
    the number of its pages (and the failed call) suffices. The result is the error of the chain, or all
    recent events of all pages, in order and each once. *)
Theorem listRecentEvents_terminates (cutoff : Z) (w : W) :
  ((∃ fuel, (run h (listRecentEventsInNamespace fuel namespace cutoff) w []).1.1 ≠ None) ↔
   ∃ pages end_, chain "" pages end_) ∧
  (∀ pages end_ fuel, chain "" pages end_ → chain_calls pages end_ ≤ fuel →
     (run h (listRecentEventsInNamespace fuel namespace cutoff) w []).1.1 =
       Some (match end_ with None => Ok (kept cutoff pages) | Some err => Err err end)).
Proof.
  unfold listRecentEventsInNamespace. split; [split|].
  - intros [fuel Hf]. destruct (pages_result fuel "" cutoff [] w []) as [_ H2].
    destruct (H2 Hf) as (pages & end_ & Hc & _). eauto.
  - intros (pages & end_ & Hc). exists (chain_calls pages end_).
    destruct (pages_result (chain_calls pages end_) "" cutoff [] w []) as [H1 _]. by rewrite (H1 _ _ Hc).
  - intros pages end_ fuel Hc Hle. destruct (pages_result fuel "" cutoff [] w []) as [H1 _]. by apply H1.
Qed.
End pages.

(** ** What the cluster reported is in the report *)

Section reflects.
Context `{Nested, NestedWrite, NestedMaps, HQuantity Q, HealthLib, !HealthLibLaws}.
Implicit Types (tr : list (call (HealthE Q))) (r : ClusterHealth.Report Q).

(** Objects the API server returned. *)
Inductive obs :=
| ONode (n : HNode Q)
| OPod (p : HPod Q)
| OQuota (q : HQuota Q)
| OEvent (e : HEvent)
| OOperator (d : HDeployment)
| OOperatorPod (p : HPod Q)
| ODeployment (d : HDeployment).

(** The namespaces of other operators. What is listed there is left out, since the classifier
    does not look at dependent operators. *)
Definition dependent_namespaces : list string := dependentOperatorNamespaces.*2.

(** Pods listed with a selector belong to the operator. *)
Definition observe (c : call (HealthE Q)) : list obs :=
  match c with
  | Call e x =>
      match e in HealthE _ X return X → list obs with
      | ListHNodes => λ res, match res with Ok l => ONode <$> l | Err _ => [] end
      | ListHPods ns labels => λ res,
          match res with
          | Ok l => if bool_decide (labels = ∅) then OPod <$> l
                    else if bool_decide (ns ∈ dependent_namespaces) then [] else OOperatorPod <$> l
          | Err _ => []
          end
      | ListHDeployments ns _ => λ res,
          match res with
          | Ok l => if bool_decide (ns ∈ dependent_namespaces) then [] else ODeployment <$> l
          | Err _ => []
          end
      | ListHQuotas _ => λ res, match res with Ok l => OQuota <$> l | Err _ => [] end
      | ListHEvents _ _ => λ res, match res with Ok (l, _) => OEvent <$> l | Err _ => [] end
      | GetHDeployment _ _ => λ res, match res with Ok d => [OOperator d] | Err _ => [] end
      | _ => λ _, []
      end x
  end.

Definition observed tr : list obs := concat (observe <$> tr).

Lemma observed_app tr tr' : observed (tr ++ tr') = observed tr ++ observed tr'.
Proof. unfold observed. by rewrite fmap_app, concat_app. Qed.

Lemma observed_snoc tr c : observed (tr ++ [c]) = observed tr ++ observe c.
Proof. rewrite observed_app. unfold observed at 2. cbn. by rewrite app_nil_r. Qed.

(** A program whose new observations satisfy [P] of its result. *)
Definition sees {A} (p : prog (HealthE Q) A) (P : A → obs → Prop) : Prop :=
  ∀ tr, wp p tr (λ tr' a, ∃ new, tr' = tr ++ new ∧ ∀ o, o ∈ observed new → P a o).

Lemma sees_ret {A} (a : A) P : sees (Ret a) P.
Proof. intros tr. exists []. rewrite app_nil_r. split; [done|]. by intros o ?%elem_of_nil. Qed.

Lemma sees_bind {A B} (p : prog (HealthE Q) A) (f : A → prog (HealthE Q) B) (P : A → obs → Prop) (R : B → obs → Prop) :
  sees p P → (∀ a, sees (f a) (λ b o, R b o)) →
  (∀ a tr, wp (f a) tr (λ _ b, ∀ o, P a o → R b o)) → sees (p ≫= f) R.
Proof.
  intros Hp Hf Hk tr. apply wp_bind. eapply wp_mono; [|apply Hp]. intros tr1 a (new & -> & HP).
  eapply wp_mono; [|apply wp_and; [apply Hf|apply Hk]]. intros tr2 b [(new' & -> & HR) HPR].
  exists (new ++ new'). rewrite app_assoc. split; [done|]. intros o. rewrite observed_app, elem_of_app.
  intros [?|?]; [by apply HPR, HP|by apply HR].
Qed.

(** Nothing is observed. *)
Definition blind {A} (p : prog (HealthE Q) A) : Prop := sees p (λ _ _, False).

Lemma blind_sees {A} (p : prog (HealthE Q) A) P : blind p → sees p P.
Proof.
  intros Hp tr. eapply wp_mono; [|apply Hp]. intros tr' a (new & -> & Hnew). exists new. split; [done|].
  by intros o ?%Hnew.
Qed.

Lemma blind_bind {A B} (p : prog (HealthE Q) A) (f : A → prog (HealthE Q) B) :
  blind p → (∀ a, blind (f a)) → blind (p ≫= f).
Proof.
  intros Hp Hf. eapply sees_bind; [exact Hp|exact Hf|]. intros a tr.
  eapply wp_mono; [|apply wp_prefix]. by intros ? ? _ o.
Qed.

Lemma sees_call {X} (e : HealthE Q X) (P : X → obs → Prop) :
  (∀ x o, o ∈ observe (Call e x) → P x o) → sees (trigger e) P.
Proof.
  intros HP tr. apply wp_call. intros x. exists [Call e x]. split; [done|].
  intros o. unfold observed. cbn [fmap list_fmap concat]. rewrite app_nil_r. apply HP.
Qed.

(** A last step that only computes. *)
Lemma sees_finish {A B} (p : prog (HealthE Q) A) (f : A → B) P (R : B → obs → Prop) :
  sees p P → (∀ a o, P a o → R (f a) o) → sees (p ≫= λ a, mret (f a)) R.
Proof.
  intros Hp HR. eapply sees_bind; [exact Hp|intros a; apply sees_ret|].
  intros a tr o Ho. by apply HR.
Qed.

(** *** The sections over namespaces *)

Lemma collect_sees {I R} (what : string → prog (HealthE Q) (result (list R))) (to_info : R → I) (ob : R → obs) namespaces :
  NoDup namespaces →
  (∀ ns, sees (what ns) (λ res o, ∃ objs x, res = Ok objs ∧ o = ob x ∧ x ∈ objs)) →
  sees (collect what to_info namespaces) (λ c o,
    ∃ x ns infos, o = ob x ∧ col_ByNamespace c !! ns = Some infos ∧ to_info x ∈ infos).
Proof.
  intros Hnd Hwhat tr. unfold collect.
  eapply wp_mono; [|apply (wp_foldl _ namespaces _ _ (λ done tr' c, ∃ new, tr' = tr ++ new ∧
    (∀ ns, is_Some (col_ByNamespace c !! ns) → ns ∈ done) ∧
    ∀ o, o ∈ observed new → ∃ x ns infos, o = ob x ∧ col_ByNamespace c !! ns = Some infos ∧ to_info x ∈ infos))].
  - intros tr' c (new & -> & _ & Ho). eauto.
  - exists []. rewrite app_nil_r. split_and!; [done|by intros ns [? ?]|by intros o ?%elem_of_nil].
  - intros done ns todo tr' c -> (new & -> & Hdone & Ho). unfold collect_one. apply wp_bind.
    eapply wp_mono; [|apply Hwhat]. intros tr'' res (new' & -> & Hnew').
    apply NoDup_app in Hnd as (_ & Hdisj & _).
    destruct res as [objs|err]; apply wp_ret; exists (new ++ new'); (split; [by rewrite app_assoc|]); cbn; split.
    + intros ns'. destruct (decide (ns = ns')) as [->|Hne]; [intros _; apply elem_of_app; right; by left|].
      rewrite lookup_insert_ne by done. intros ?%Hdone. apply elem_of_app. by left.
    + intros o. rewrite observed_app, elem_of_app. intros [Hin|Hin].
      * destruct (Ho o Hin) as (x & ns' & infos & -> & Hl & Hx). exists x, ns', infos.
        split; [done|]. split; [|done]. rewrite lookup_insert_ne; [done|]. intros <-.
        apply (Hdisj ns); [apply Hdone; eauto|by left].
      * destruct (Hnew' o Hin) as (objs' & x & [= <-] & -> & Hx). exists x, ns, (to_info <$> objs).
        split; [done|]. rewrite lookup_insert_eq. split; [done|]. by apply list_elem_of_fmap_2.
    + intros ns' ?%Hdone. apply elem_of_app. by left.
    + intros o. rewrite observed_app, elem_of_app. intros [Hin|Hin]; [by apply Ho|].
      destruct (Hnew' o Hin) as (objs' & x & [=] & _).
Qed.

Definition in_section {I} (byNamespace : gmap string (list I)) (info : I) : Prop :=
  ∃ ns infos, byNamespace !! ns = Some infos ∧ info ∈ infos.

(** The shape of the three sections: a bind whose first part collects. *)
Lemma section_sees {I R T} (what : string → prog (HealthE Q) (result (list R))) (to_info : R → I) (ob : R → obs)
    namespaces (f : Collected I R → SectionResult T) (P : SectionResult T → obs → Prop) :
  NoDup namespaces →
  (∀ ns, sees (what ns) (λ res o, ∃ objs x, res = Ok objs ∧ o = ob x ∧ x ∈ objs)) →
  (∀ c x, in_section (col_ByNamespace c) (to_info x) → P (f c) (ob x)) →
  sees (collect what to_info namespaces ≫= λ c, mret (f c)) P.
Proof.
  intros Hnd Hwhat HP. eapply sees_finish; [by apply collect_sees|].
  intros c o (x & ns & infos & -> & Hl & Hx). apply HP. by exists ns, infos.
Qed.

Lemma pods_see ns : sees (runPodsSection ns) (λ res o, ∃ p, o = OPod p ∧ in_section (ps_ByNamespace (Data res)) (podToInfo p)).
Proof.
  unfold runPodsSection. pose proof (List_NoDup ns) as Hnd. destruct (List ns) as [|n l]; [apply sees_ret|].
  eapply (section_sees _ _ OPod); [done| |].
  - intros ns'. apply sees_call. cbn. intros [pods|err] o; [|by intros ?%elem_of_nil].
    rewrite bool_decide_true by done. intros (p & -> & Hp)%list_elem_of_fmap. eauto.
  - intros c p Hp. exists p. split; [done|exact Hp].
Qed.

Lemma quotas_see ns : sees (runQuotasSection ns) (λ res o, ∃ q, o = OQuota q ∧ in_section (qs_ByNamespace (Data res)) (resourceQuotaToInfo q)).
Proof.
  unfold runQuotasSection. pose proof (List_NoDup ns) as Hnd. destruct (List ns) as [|n l]; [apply sees_ret|].
  eapply (section_sees _ _ OQuota); [done| |].
  - intros ns'. apply sees_call. cbn. intros [quotas|err] o; [|by intros ?%elem_of_nil].
    intros (q & -> & Hq)%list_elem_of_fmap. eauto.
  - intros c q Hq. exists q. split; [done|exact Hq].
Qed.

Lemma blind_call {X} (e : HealthE Q X) : (∀ x, observe (Call e x) = []) → blind (trigger e).
Proof. intros He. apply sees_call. intros x o. rewrite He. by intros ?%elem_of_nil. Qed.

Lemma blind_ret {A} (a : A) : blind (Ret a).
Proof. apply sees_ret. Qed.

Lemma deployments_see ns : sees (runDeploymentsSection ns) (λ res o, ∃ d, o = ODeployment d ∧
  in_section (ds_ByNamespace (Data res)) (deploymentToInfo d)).
Proof.
  unfold runDeploymentsSection. pose proof (List_NoDup ns) as Hnd. destruct (List ns) as [|n l]; [apply sees_ret|].
  eapply (section_sees _ _ ODeployment); [done| |].
  - intros ns'. apply sees_call. cbn. intros [deploys|err] o; [|by intros ?%elem_of_nil].
    case_bool_decide; [by intros ?%elem_of_nil|]. intros (d & -> & Hd)%list_elem_of_fmap. eauto.
  - intros c d Hd. exists d. split; [done|exact Hd].
Qed.

(** Of the operator's namespace, the pods that the selector finds; of others, nothing. *)
Lemma selected_pods_see namespace selector : selector ≠ ∅ → sees (listPodsInNamespace namespace selector)
  (λ res o, ∃ p pods raw, o = OOperatorPod p ∧ res = Ok (pods, raw) ∧ podToInfo p ∈ pods).
Proof.
  intros Hs. unfold listPodsInNamespace. eapply sees_finish.
  - apply (sees_call _ (λ res o, ∃ p l, o = OOperatorPod p ∧ res = Ok l ∧ p ∈ l)). cbn. intros [l|err] o; [|by intros ?%elem_of_nil].
    rewrite bool_decide_false by done. case_bool_decide; [by intros ?%elem_of_nil|].
    intros (p & -> & Hp)%list_elem_of_fmap. eauto.
  - intros res o (p & l & -> & -> & Hp). exists p, (podToInfo <$> l), l. split; [done|]. split; [done|]. by apply list_elem_of_fmap_2.
Qed.

Lemma dependent_pods_blind namespace selector : selector ≠ ∅ → namespace ∈ dependent_namespaces →
  blind (listPodsInNamespace namespace selector).
Proof.
  intros Hs Hns. apply blind_bind; [|intros; apply blind_ret]. apply blind_call. intros [l|e]; cbn; [|done].
  by rewrite bool_decide_false, bool_decide_true.
Qed.

Lemma dependents_blind l : (∀ ns, ns ∈ l.*2 → ns ∈ dependent_namespaces) → blind (check_dependents l).
Proof.
  induction l as [|[name namespace] l IH]; intros Hl; [apply blind_ret|]. cbn [check_dependents].
  assert (namespace ∈ dependent_namespaces) as Hns by (apply Hl; by left).
  apply blind_bind; [|intros; apply blind_bind; [apply IH; intros ns Hin; apply Hl; by right|intros; apply blind_ret]].
  unfold runDependentOperatorCheck. apply blind_bind.
  { apply blind_bind; [|intros; apply blind_ret]. apply blind_call. intros [x|]; cbn; [|done]. by rewrite bool_decide_true. }
  intros [[deploy|]|err]; try apply blind_ret. case_bool_decide; [apply blind_ret|].
  apply blind_bind; [by apply dependent_pods_blind|]. intros [[pods raw]|err]; apply blind_ret.
Qed.

Lemma cr_blind g nn : blind (runCRConditionsSection g nn).
Proof.
  apply blind_bind; [|intros; apply blind_ret]. unfold getCRByGVK. destruct (nonempty_str _);
    (apply blind_bind; [by apply blind_call|intros; apply blind_ret]).
Qed.

Lemma nodes_see : sees runNodesSection (λ res o, ∃ n info, o = ONode n ∧ info ∈ ns_Nodes (Data res) ∧
  ni_Name info = hn_Name n ∧ ni_UnhealthyReason info = unhealthy_reason (hn_Conditions n)).
Proof.
  intros tr. unfold runNodesSection. apply wp_bind, wp_call. intros [[|n nodes]|err]; try apply wp_ret.
  1,3: eexists; split; [done|]; cbn; by intros o ?%elem_of_nil.
  apply wp_bind. eapply wp_mono; [|apply (blind_bind (trigger ListNodeMetrics)); [by apply blind_call|intros; apply blind_ret]].
  intros tr' usage (new & -> & Hnew). apply wp_ret. eexists. rewrite <-app_assoc. split; [done|].
  intros o. rewrite observed_app, elem_of_app. intros [Ho|[]%Hnew].
  change (observed [Call ListHNodes (Ok (n :: nodes))]) with ((ONode <$> n :: nodes) ++ []) in Ho. rewrite app_nil_r in Ho.
  apply list_elem_of_fmap in Ho as (node & -> & Hin). exists node, (with_usage usage node). split; [done|].
  split; [cbn [Data ns_Nodes]; by apply list_elem_of_fmap_2|]. unfold with_usage. by destruct (usage !! _).
Qed.

Lemma operator_sees op : sees (runOperatorSection op) (λ res o,
  (∃ d, o = OOperator d ∧ os_Deployment (Data res) = Some (deploymentToInfo d)) ∨
  (∃ p, o = OOperatorPod p ∧ podToInfo p ∈ os_Pods (Data res))).
Proof.
  intros tr. unfold runOperatorSection. destruct (_ || _); [apply sees_ret|]. apply wp_bind, wp_call.
  intros [deploy|err]; [|eexists; split; [done|]; cbn; by intros o ?%elem_of_nil].
  assert (∀ res, os_Deployment (Data res) = Some (deploymentToInfo deploy) →
    ∀ o, o ∈ observed [Call (GetHDeployment (oc_Namespace op) (oc_Name op)) (Ok deploy)] →
    (∃ d, o = OOperator d ∧ os_Deployment (Data (T := OperatorSection Q) res) = Some (deploymentToInfo d)) ∨
    (∃ p, o = OOperatorPod p ∧ podToInfo p ∈ os_Pods (Data res))) as Hob.
  { intros res Hres o [->|[]%elem_of_nil]%elem_of_cons. left. eauto. }
  case_bool_decide as Hlabels; [eexists; split; [done|]; by apply Hob|].
  apply wp_bind. eapply wp_mono; [|by apply selected_pods_see]. intros tr1 res1 (new1 & -> & Hnew1).
  destruct res1 as [[pods raw]|err].
  2: { eexists. rewrite <-app_assoc. split; [done|]. intros o. rewrite observed_app, elem_of_app.
       intros [Ho|(? & ? & ? & _ & ? & _)%Hnew1]; [by apply Hob|done]. }
  apply wp_bind. eapply wp_mono; [|by apply dependents_blind]. intros tr2 deps (new2 & -> & Hnew2). apply wp_ret.
  eexists. rewrite <-!app_assoc. split; [done|]. intros o. rewrite !observed_app, !elem_of_app.
  intros [Ho|[(p & pods' & raw' & -> & [= <- <-] & Hp)%Hnew1|[]%Hnew2]]; [by apply Hob|]. right. eauto.
Qed.

(** *** Events *)

Lemma join_nonempty sep l : l ≠ [] → (∀ s, s ∈ l → s ≠ "") → join sep l ≠ "".
Proof.
  destruct l as [|x l]; [done|]. intros _ Hl. assert (x ≠ "") as Hx by (apply Hl; by left).
  destruct x as [|a x]; [done|]. unfold join. destruct l; done.
Qed.

Lemma pages_see fuel namespace token cutoff raw tr :
  wp (list_event_pages fuel namespace token cutoff raw) tr (λ tr' res, ∃ new, tr' = tr ++ new ∧
    (∀ events e, res = Some (Ok events) → e ∈ raw → e ∈ events) ∧
    ∀ o, o ∈ observed new → ∃ e, o = OEvent e ∧ ∀ events, res = Some (Ok events) → recent cutoff e = true → e ∈ events).
Proof.
  revert token raw tr. induction fuel as [|fuel IH]; intros token raw tr; cbn [list_event_pages].
  { apply wp_ret. exists []. rewrite app_nil_r. split_and!; [done..|]. by intros o ?%elem_of_nil. }
  apply wp_bind, wp_call. intros [[page token']|err].
  2: { apply wp_ret. eexists. split_and!; [done..|]. by intros o ?%elem_of_nil. }
  assert (∀ raw' : list HEvent, (∀ e, e ∈ page → recent cutoff e = true → e ∈ raw') →
    ∀ o, o ∈ observed [Call (ListHEvents namespace token) (Ok (page, token'))] →
    ∃ e, o = OEvent e ∧ (recent cutoff e = true → e ∈ raw')) as Hpage.
  { intros raw' Hraw' o Ho. unfold observed in Ho. cbn in Ho. rewrite app_nil_r in Ho.
    apply list_elem_of_fmap in Ho as (e & -> & He). eauto. }
  assert (∀ e, e ∈ page → recent cutoff e = true → e ∈ raw ++ filter (λ e, recent cutoff e = true) page) as Hin.
  { intros e He Hr. apply elem_of_app. right. by apply list_elem_of_filter. }
  destruct (String.eqb token' "").
  - apply wp_ret. eexists. split_and!; [done| |].
    + intros events e [= <-] He. apply elem_of_app. by left.
    + intros o Ho. destruct (Hpage _ Hin o Ho) as (e & -> & He). exists e. split; [done|].
      intros events [= <-]. exact He.
  - eapply wp_mono; [|apply IH]. intros tr' res (new & -> & Hraw & Hnew). eexists. rewrite <-app_assoc.
    split_and!; [done| |].
    + intros events e Hres He. apply (Hraw events); [done|]. apply elem_of_app. by left.
    + intros o. rewrite observed_app, elem_of_app. intros [Ho|Ho]; [|by apply Hnew].
      destruct (Hpage _ Hin o Ho) as (e & -> & He). exists e. split; [done|]. intros events Hres Hr.
      by apply (Hraw events), He.
Qed.

Lemma collect_events_see fuel namespaces cutoff raw errs tr :
  wp (collect_events fuel namespaces cutoff raw errs) tr (λ tr' res, ∃ new, tr' = tr ++ new ∧
    (∀ raw' errs', res = Some (raw', errs') → (∀ e, e ∈ raw → e ∈ raw') ∧ (errs ≠ ∅ → errs' ≠ ∅)) ∧
    ∀ o, o ∈ observed new → ∃ e, o = OEvent e ∧ ∀ raw' errs', res = Some (raw', errs') →
      recent cutoff e = true → e ∈ raw' ∨ errs' ≠ ∅).
Proof.
  revert raw errs tr. induction namespaces as [|ns namespaces IH]; intros raw errs tr; cbn [collect_events].
  { apply wp_ret. exists []. rewrite app_nil_r. split_and!; [done|by intros ? ? [= <- <-]|]. by intros o ?%elem_of_nil. }
  apply wp_bind. eapply wp_mono; [|apply pages_see]. intros tr1 res1 (new1 & -> & _ & Hnew1).
  destruct res1 as [[events|err]|].
  - eapply wp_mono; [|apply IH]. intros tr2 res2 (new2 & -> & Hkeep & Hnew2). exists (new1 ++ new2).
    rewrite app_assoc. split_and!; [done| |].
    + intros raw' errs' Hres. destruct (Hkeep _ _ Hres) as [Hk He]. split; [|done]. intros e Hin.
      apply Hk, elem_of_app. by left.
    + intros o. rewrite observed_app, elem_of_app. intros [(e & -> & He)%Hnew1|Ho]; [|by apply Hnew2].
      exists e. split; [done|]. intros raw' errs' Hres Hr. left. destruct (Hkeep _ _ Hres) as [Hk _].
      apply Hk, elem_of_app. right. by apply (He events).
  - eapply wp_mono; [|apply IH]. intros tr2 res2 (new2 & -> & Hkeep & Hnew2). exists (new1 ++ new2).
    rewrite app_assoc. split_and!; [done| |].
    + intros raw' errs' Hres. destruct (Hkeep _ _ Hres) as [Hk He]. split; [done|]. intros _. apply He, insert_non_empty.
    + intros o. rewrite observed_app, elem_of_app. intros [(e & -> & _)%Hnew1|Ho]; [|by apply Hnew2].
      exists e. split; [done|]. intros raw' errs' Hres Hr. right. destruct (Hkeep _ _ Hres) as [_ He].
      apply He, insert_non_empty.
  - apply wp_ret. exists new1. split_and!; [done..|]. intros o (e & -> & _)%Hnew1. by exists e.
Qed.

Lemma range_map_nil {A} (m : gmap string A) : range_map m = [] → m = ∅.
Proof.
  intros Hm. apply map_to_list_empty_iff, Permutation_nil_r. by rewrite <-range_map_perm, Hm.
Qed.

Lemma events_see fuel ns since :
  sees (runEventsSection fuel ns since) (λ res o, ∃ e, o = OEvent e ∧ ∀ s, res = Some s →
    recent (since - DefaultEventsWindow) e = true → eventToInfo e ∈ es_Events (Data s) ∨ ClusterHealth.Error s ≠ "").
Proof.
  intros tr. unfold runEventsSection. destruct (List ns) as [|n l]; [apply sees_ret|].
  unfold collectEvents. apply wp_bind, wp_bind. eapply wp_mono; [|apply collect_events_see].
  intros tr' res (new & -> & _ & Hnew). do 2 apply wp_ret. exists new. split; [done|].
  intros o (e & -> & He)%Hnew. exists e. split; [done|]. destruct res as [[raw errs]|]; [|done].
  intros s [= <-] Hr. cbn. destruct (He raw errs eq_refl Hr) as [Hin|Herr].
  - left. rewrite sort_recent_perm. apply list_elem_of_In, in_map, list_elem_of_In, Hin.
  - right. apply join_nonempty; [by intros Hm%map_eq_nil%range_map_nil|].
    intros x Hx%list_elem_of_In%in_map_iff. destruct Hx as ([k err] & <- & _). unfold namespace_error. cbn.
    by destruct k.
Qed.

(** *** The whole report *)

(** What the report has of an object that the server returned. *)
Definition reflected r (o : obs) : Prop :=
  match o with
  | ONode n => ∃ info, info ∈ ns_Nodes (Data (Nodes r)) ∧ ni_UnhealthyReason info = unhealthy_reason (hn_Conditions n)
  | OPod p => in_section (ps_ByNamespace (Data (Pods r))) (podToInfo p)
  | OQuota q => in_section (qs_ByNamespace (Data (Quotas r))) (resourceQuotaToInfo q)
  | OEvent e => recent (CollectedAt r - DefaultEventsWindow) e = true →
      eventToInfo e ∈ es_Events (Data (Events r)) ∨ ClusterHealth.Error (Events r) ≠ ""
  | OOperator d => os_Deployment (Data (Operator r)) = Some (deploymentToInfo d)
  | OOperatorPod p => podToInfo p ∈ os_Pods (Data (Operator r))
  | ODeployment d => in_section (ds_ByNamespace (Data (Deployments r))) (deploymentToInfo d)
  end.

Lemma wp_sees {A B} (p : prog (HealthE Q) A) (f : A → prog (HealthE Q) B) P tr Φ :
  sees p P → (∀ a new, (∀ o, o ∈ observed new → P a o) → wp (f a) (tr ++ new) Φ) → wp (p ≫= f) tr Φ.
Proof.
  intros Hp Hf. apply wp_bind. eapply wp_mono; [|apply Hp]. intros tr' a (new & -> & Hnew). by apply Hf.
Qed.

Lemma selected_sees {T} run_ name (zero : T) p P :
  sees p P → sees (selected run_ name zero p) P.
Proof. intros Hp. unfold selected. case_bool_decide; [done|apply sees_ret]. Qed.

Lemma selected_events_sees run_ p P : sees p P → sees (selected_events run_ p) P.
Proof. intros Hp. unfold selected_events. case_bool_decide; [done|apply sees_ret]. Qed.

Lemma Run_reflects fuel cfg : wp (Run fuel cfg) [] (λ tr res,
  ∀ r, res = Some (Ok r) → ∀ o, o ∈ observed tr → reflected r o).
Proof.
  unfold Run. destruct (negb _); [by apply wp_ret|]. apply wp_bind, wp_call. intros at_.
  eapply wp_sees; [apply selected_sees, nodes_see|intros nodes n1 H1'].
  eapply wp_sees; [apply selected_sees, deployments_see|intros deployments n2 H2'].
  eapply wp_sees; [apply selected_sees, pods_see|intros pods n3 H3'].
  eapply wp_sees; [apply selected_events_sees, events_see|intros [events|] n4 H4'; [|by apply wp_ret]].
  eapply wp_sees; [apply selected_sees, quotas_see|intros quotas n5 H5'].
  eapply wp_sees; [apply selected_sees, operator_sees|intros operator n6 H6'].
  eapply wp_sees; [apply selected_sees, cr_blind|intros dsci n7 H7'].
  eapply wp_sees; [apply selected_sees, cr_blind|intros dsc n8 H8'].
  apply wp_ret. intros r [= <-] o. rewrite !observed_app, !elem_of_app.
  intros [[[[[[[[[Ho|Ho]|Ho]|Ho]|Ho]|Ho]|Ho]|Ho]|Ho]|Ho].
  - by apply elem_of_nil in Ho.
  - by apply elem_of_nil in Ho.
  - apply H1' in Ho as (n & info & -> & Hin & _ & Hu). by exists info.
  - by apply H2' in Ho as (d & -> & Hd).
  - by apply H3' in Ho as (p & -> & Hp).
  - apply H4' in Ho as (e & -> & He). intros Hr. by apply He.
  - by apply H5' in Ho as (q & -> & Hq).
  - by apply H6' in Ho as [(d & -> & Hd)|(p & -> & Hp)].
  - by apply H7' in Ho.
  - by apply H8' in Ho.
Qed.

(** ** The report as the classifier reads it *)

(** The classifier reads a part of each section; it ranges over the namespaces in any order. *)
Definition in_order {A B} (f : A → B) (byNamespace : gmap string (list A)) : list (list B) :=
  map (λ kv, map f kv.2) (range_map byNamespace).

Definition view_container (c : ContainerInfo) : FailureClassifier.ContainerInfo :=
  FailureClassifier.MkContainer (ci_Name c) (ci_Waiting c) (ci_Terminated c).
Definition view_pod (p : PodInfo) : FailureClassifier.PodInfo :=
  FailureClassifier.MkPod (pi_Name p) (pi_Phase p) (pi_CreatedAt p) (map view_container (pi_Containers p)).
Definition view_deployment (d : DeploymentInfo) : FailureClassifier.DeploymentInfo :=
  FailureClassifier.MkDeployment (di_Namespace d) (di_Name d) (di_Ready d) (di_Replicas d) (di_CreatedAt d).
Definition view_event (e : EventInfo) : FailureClassifier.EventInfo :=
  FailureClassifier.MkEvent (ei_Kind e) (ei_Name e) (ei_Reason e) (ei_Message e) (ei_LastTime e).
Definition view_quota (q : ResourceQuotaInfo) : FailureClassifier.ResourceQuotaInfo :=
  FailureClassifier.MkQuota (qi_Namespace q) (qi_Name q) (qi_Exceeded q).
Definition view_node (n : NodeInfo) : FailureClassifier.NodeInfo :=
  FailureClassifier.MkNode (ni_Name n) (ni_UnhealthyReason n).
Definition view_operator (o : OperatorSection Q) : FailureClassifier.OperatorSection :=
  FailureClassifier.MkOperator (view_deployment <$> os_Deployment o) (map view_pod (os_Pods o)).
Definition view_section {A B} (f : A → B) (s : SectionResult A) : FailureClassifier.SectionResult B :=
  FailureClassifier.MkSection (ClusterHealth.Error s) (f (Data s)).
Definition view_cr (c : CRConditionsSection) : FailureClassifier.CRConditionsSection :=
  FailureClassifier.MkCRSection (crs_Name c).

Definition view r : FailureClassifier.Report :=
  FailureClassifier.MkReport
    (view_section (λ s, map view_node (ns_Nodes s)) (Nodes r))
    (view_section (λ s, in_order view_deployment (ds_ByNamespace s)) (Deployments r))
    (view_section (λ s, in_order view_pod (ps_ByNamespace s)) (Pods r))
    (view_section (λ s, map view_event (es_Events s)) (Events r))
    (view_section (λ s, in_order view_quota (qs_ByNamespace s)) (Quotas r))
    (view_section view_operator (Operator r))
    (view_section view_cr (DSCI r)) (view_section view_cr (DSC r)).

(** *** Trouble, in terms of the objects of the cluster *)

Definition node_trouble (c : ConditionSummary) : Prop :=
  (cs_Type c ∈ pressure_types ∧ cs_Status c = "True") ∨
  (cs_Type c = "Ready" ∧ (cs_Status c = "False" ∨ cs_Status c = "Unknown")) ∨
  (cs_Type c = "NetworkUnavailable" ∧ cs_Status c = "True").

(** What a container waits for, and how it ended. *)
Definition waiting_text (cs : HContainerStatus) : string := ci_Waiting (containerStatusToInfo cs).
Definition terminated_text (cs : HContainerStatus) : string := ci_Terminated (containerStatusToInfo cs).

(** It waits for something or ended with a failure; [drained]: the end of a drain counts too. *)
Definition container_trouble (drained : bool) (cs : HContainerStatus) : Prop :=
  waiting_text cs ≠ "" ∨
  (terminated_text cs ≠ "" ∧ contains (terminated_text cs) "(exit 0)" = false ∧
   (drained = false → has_prefix (terminated_text cs) "Completed " = false)).

Definition all_statuses (p : HPod Q) : list HContainerStatus := hp_ContainerStatuses p ++ hp_InitContainerStatuses p.

Definition trouble (now : Z) (o : obs) : Prop :=
  match o with
  | ONode n => ∃ c, c ∈ hn_Conditions n ∧ node_trouble c
  | OPod p =>
      (∃ cs, cs ∈ all_statuses p ∧ container_trouble false cs) ∨
      (hp_Phase p = "Pending" ∧ ∃ t, hp_CreatedAt p = Some t ∧ (now - t > PendingThreshold)%Z)
  | OQuota q => ∃ k used hard, hq_Used q !! k = Some used ∧ hq_Hard q !! k = Some hard ∧ (hq_Cmp used hard >= 0)%Z
  | OEvent e => is_Some (eventLastTime e) ∧ event_signal now (view_event (eventToInfo e))
  | OOperator d => desiredReplicas d = 0%Z ∨ (hd_ReadyReplicas d < desiredReplicas d)%Z
  | OOperatorPod p =>
      (hp_Phase p ≠ "Running" ∧ hp_Phase p ≠ "Succeeded") ∨ ∃ cs, cs ∈ all_statuses p ∧ container_trouble true cs
  | ODeployment d =>
      (hd_ReadyReplicas d < desiredReplicas d)%Z ∧ ∀ t, hd_CreatedAt d = Some t → (now - t >= PendingThreshold)%Z
  end.

Lemma join_empty sep l : join sep l = "" → (∀ s, s ∈ l → s ≠ "") → l = [].
Proof. intros Hj Hl. destruct l as [|x l]; [done|]. exfalso. by eapply join_nonempty, Hj. Qed.

Lemma not_ready_keeps conditions reason : reason ≠ "" → foldl not_ready_step reason conditions ≠ "".
Proof.
  revert reason. induction conditions as [|c conditions IH]; intros reason Hr; [done|]. cbn. apply IH.
  unfold not_ready_step. by destruct (_ && _).
Qed.

Lemma not_ready_found conditions c reason : c ∈ conditions →
  cs_Type c = "Ready" → cs_Status c = "False" ∨ cs_Status c = "Unknown" → foldl not_ready_step reason conditions ≠ "".
Proof.
  intros Hin Ht Hs. revert reason. induction Hin as [c conditions|c c' conditions Hin IH]; intros reason; cbn.
  - apply not_ready_keeps. unfold not_ready_step. rewrite Ht. by destruct Hs as [-> | ->].
  - by apply IH.
Qed.

(** The reason of a node is not empty when one of its conditions is bad. *)
Lemma unhealthy_reason_trouble conditions c : c ∈ conditions → node_trouble c → unhealthy_reason conditions ≠ "".
Proof.
  intros Hin Hc. unfold unhealthy_reason. set (P := pressure_reasons conditions). set (R := foldl _ _ _).
  set (O := other_reasons conditions). apply join_nonempty.
  - destruct Hc as [[Ht Hs]|[[Ht Hs]|[Ht Hs]]].
    + assert (cs_Type c ∈ P) as HP.
      { apply list_elem_of_omap. exists c. split; [done|]. by rewrite bool_decide_true, Hs. }
      destruct P; [by apply elem_of_nil in HP|done].
    + assert (R ≠ "") as HR%nonempty_str_true by (by eapply not_ready_found). rewrite HR. by destruct P.
    + assert ("network unavailable" ∈ O) as HO.
      { apply list_elem_of_omap. exists c. split; [done|]. by rewrite Ht, Hs. }
      destruct O; [by apply elem_of_nil in HO|]. by destruct P, (nonempty_str R).
  - intros s. rewrite !elem_of_app. intros [Hs|[Hs|Hs]].
    + destruct P; [by apply elem_of_nil in Hs|]. by apply list_elem_of_singleton in Hs as ->.
    + destruct (nonempty_str R) eqn:HR; [|by apply elem_of_nil in Hs].
      apply list_elem_of_singleton in Hs as ->. by apply nonempty_str_true.
    + destruct O as [|o O'] eqn:HO; [by apply elem_of_nil in Hs|]. apply list_elem_of_singleton in Hs as ->.
      apply join_nonempty; [done|]. intros s. rewrite <-HO. unfold O, other_reasons.
      intros (c' & _ & Hc')%list_elem_of_omap. destruct (_ && _); simplify_eq. done.
Qed.

Lemma in_order_elem {A B} (f : A → B) byNamespace a :
  in_section byNamespace a → ∃ l, l ∈ in_order f byNamespace ∧ f a ∈ l.
Proof.
  intros (ns & infos & Hns & Ha). exists (map f infos). unfold in_order. split.
  - apply list_elem_of_In, in_map_iff. exists (ns, infos). split; [done|]. apply list_elem_of_In.
    by rewrite range_map_perm, elem_of_map_to_list.
  - by apply list_elem_of_In, in_map, list_elem_of_In.
Qed.

Lemma container_info_texts specs init cs :
  ci_Waiting (container_info specs init cs) = waiting_text cs ∧ ci_Terminated (container_info specs init cs) = terminated_text cs.
Proof. unfold container_info. by destruct init, (specs !! _). Qed.

Lemma podToInfo_container p cs : cs ∈ all_statuses p →
  ∃ c, c ∈ map view_container (pi_Containers (podToInfo p)) ∧ Waiting c = waiting_text cs ∧ Terminated c = terminated_text cs.
Proof.
  assert (∀ init, container_info (container_specs p) init cs ∈ pi_Containers (podToInfo p) →
    ∃ c, c ∈ map view_container (pi_Containers (podToInfo p)) ∧ Waiting c = waiting_text cs ∧ Terminated c = terminated_text cs) as Hinfo.
  { intros init Hin. destruct (container_info_texts (container_specs p) init cs) as [Hw Ht].
    eexists. split; [by apply list_elem_of_fmap_2|by split]. }
  unfold all_statuses. rewrite elem_of_app. intros [Hin|Hin]; [apply (Hinfo false)|apply (Hinfo true)];
    apply elem_of_app; [left|right]; by apply list_elem_of_fmap_2.
Qed.

(** An event the classifier takes into account is in the window of the report. *)
Lemma event_in_window now at_ e : (at_ <= now)%Z → is_Some (eventLastTime e) →
  older_than now (eventLastTime e) EventAgeThreshold = false → recent (at_ - DefaultEventsWindow) e = true.
Proof.
  intros Hnow [t Ht]. unfold recent. rewrite Ht. cbn. unfold EventAgeThreshold, DefaultEventsWindow, Minute, second.
  intros Hold. rewrite Z.gtb_ltb in Hold. apply Z.ltb_ge in Hold.
  apply negb_true_iff, Z.ltb_ge. lia.
Qed.

(** Trouble that the report reflects is a signal to the classifier. *)
Lemma trouble_signals now r o : (CollectedAt r <= now)%Z → reflected r o → trouble now o →
  specific_signal now (view r) ∨ distress_signal now (view r) ∨ ∃ e, o = OEvent e ∧ ClusterHealth.Error (Events r) ≠ "".
Proof.
  intros Hnow. destruct o as [n|p|q|e|d|p|d]; cbn [reflected trouble].
  - intros (info & Hin & Hu) (c & Hc & Ht). left. do 3 right. left. exists (view_node info).
    split; [by apply list_elem_of_fmap_2|]. cbn. rewrite Hu. by eapply unhealthy_reason_trouble.
  - intros (l & Hl & Hp)%(in_order_elem view_pod) [(cs & Hcs & Ht)|(Hphase & t & Hcr & Ht)].
    + right. left. left. exists l, (view_pod (podToInfo p)). do 2 (split; [done|]).
      destruct (podToInfo_container p cs Hcs) as (c & Hin & Hw & Hterm). exists c. split; [exact Hin|].
      red. rewrite Hw, Hterm. destruct Ht as [?|(? & ? & Hg)]; [by left|right]. split_and!; [done..|by apply Hg].
    + left. left. exists l, (view_pod (podToInfo p)). do 2 (split; [done|]). right.
      unfold stuck_pending. cbn. rewrite Hphase, Hcr. cbn. by apply Z.gtb_lt, Z.gt_lt.
  - intros (l & Hl & Hq)%(in_order_elem view_quota) (k & used & hard & Hu & Hh & Hle). left. do 2 right. left.
    exists l, (view_quota (resourceQuotaToInfo q)). do 2 (split; [done|]). cbn. intros Hnil.
    assert (k ∈ omap (exceeded_resource (hq_Hard q)) (range_map (hq_Used q))) as Hk; [|by rewrite Hnil in Hk; apply elem_of_nil in Hk].
    apply list_elem_of_omap. exists (k, used). rewrite range_map_perm, elem_of_map_to_list. split; [done|].
    unfold exceeded_resource, quantityExceedsOrEqual. cbn. rewrite Hh. by rewrite (proj2 (Z.geb_le _ _)) by lia.
  - intros Hin [Hsome Hsig]. pose proof Hsig as [Hold _].
    destruct Hin as [Hin|Herr]; [by eapply event_in_window|left; right; left|by eauto 6].
    exists (view_event (eventToInfo e)). split; [by apply list_elem_of_fmap_2|done].
  - intros Hd Ht. left. do 4 right. left. exists (view_deployment (deploymentToInfo d)). cbn. by rewrite Hd.
  - intros Hp [Hphase|(cs & Hcs & Ht)].
    + left. do 5 right. left. exists (view_pod (podToInfo p)). split; [by apply list_elem_of_fmap_2|by left].
    + right. left. right. left. destruct (podToInfo_container p cs Hcs) as (c & Hin & Hw & Hterm).
      exists (view_pod (podToInfo p)), c. split; [by apply list_elem_of_fmap_2|]. split; [exact Hin|].
      red. rewrite Hw, Hterm. destruct Ht as [?|(? & ? & _)]; [by left|by right].
  - intros (l & Hl & Hd)%(in_order_elem view_deployment) [Hready Hage]. right. left. do 2 right.
    exists l, (view_deployment (deploymentToInfo d)). do 2 (split; [done|]). split; [done|]. cbn. unfold younger_than.
    destruct (hd_CreatedAt d) as [t|]; [|done]. apply Z.ltb_ge, Z.ge_le, Hage. done.
Qed.

(** C2: collection and classification compose. Whatever the API server answers, in whatever
    order the maps are ranged over, if the classifier calls the report of a run unknown, then
    none of these objects that the server returned during that run shows trouble: a node under
    pressure, not ready or without network; a pod of the sections with a container that waits
    or ended with a failure, or stuck in Pending; a deployment of the sections or the operator's
    with replicas missing; a pod of the operator in a bad phase or with such a container; a
    used-up quota; a recent event with a known reason or message. Events are excepted when the
    events section reports an error; if the code is that of no signal, nothing is. Objects of
    dependent operators are no part of this: the classifier does not read them. *)
Theorem diagnosis_complete {W} (h : ∀ X, HealthE Q X → W → X * W) fuel cfg w w' tr r now :
  run h (Run fuel cfg) w [] = (Some (Ok r), w', tr) → (CollectedAt r <= now)%Z →
  (Category (Classify now (Some (view r))) = CategoryUnknown →
     ∀ o, o ∈ observed tr → trouble now o → ∃ e, o = OEvent e ∧ ClusterHealth.Error (Events r) ≠ "") ∧
  (ErrorCode (Classify now (Some (view r))) = CodeNoSignal →
     ∀ o, o ∈ observed tr → ¬ trouble now o).
Proof.
  intros Hrun Hnow. pose proof (run_wp h _ w _ _ (Run_reflects fuel cfg)) as Hall. rewrite Hrun in Hall.
  specialize (Hall r eq_refl).
  assert (∀ o, o ∈ observed tr → trouble now o → ¬ specific_signal now (view r) → ¬ distress_signal now (view r) →
    ∃ e, o = OEvent e ∧ ClusterHealth.Error (Events r) ≠ "") as Hkey.
  { intros o Ho Ht Hns Hnd. by destruct (trouble_signals now r o Hnow (Hall o Ho) Ht) as [?|[?|?]]. }
  destruct (classify_cases now (view r)) as [[Hs (Hc & Hr & _)]|[(Hns & Hd & (Hc & Hr & _))|(Hns & Hnd & Heq)]].
  - rewrite Hc. split; [done|]. intros Hcode. rewrite Hcode in Hr. unfold infra_code, CodeNoSignal in Hr. lia.
  - rewrite Hc. split; [done|]. intros Hcode. rewrite Hcode in Hr. unfold infra_code, CodeNoSignal in Hr. lia.
  - split; [by eauto|]. rewrite Heq. destruct (FailureClassifier.Healthy (view r)) eqn:Hh; [|done].
    intros _ o Ho Ht. destruct (Hkey o Ho Ht Hns Hnd) as (e & _ & Herr). apply Herr.
    unfold FailureClassifier.Healthy in Hh. rewrite !andb_true_iff in Hh. by apply String.eqb_eq; destruct_and!.
Qed.
End reflects.

(** ** Two surprising readings *)

(** A container status with nothing to complain about. *)
Definition clean (cs : HContainerStatus) : Prop :=
  hcs_Ready cs = true ∧ hcs_RestartCount cs = 0%Z ∧ hcs_Waiting cs = None ∧ hcs_Terminated cs = None.

(** A running pod whose containers are all clean, and whose first init container ended as
    it should, with exit code zero, is reported as unhealthy: the termination of an init container counts
    like that of any container. *)
Theorem completed_init_reported `{HQuantity Q} (p : HPod Q) cs cs' t :
  hp_Phase p = PodRunning → (∀ c, c ∈ hp_ContainerStatuses p → clean c) →
  hp_InitContainerStatuses p = cs :: cs' → hcs_Ready cs = true → hcs_RestartCount cs = 0%Z →
  hcs_Waiting cs = None → hcs_Terminated cs = Some t → tm_ExitCode t = 0%Z → tm_Message t = "" →
  podUnhealthyReason (podToInfo p) =
    "container " +:+ hcs_Name cs +:+ " " +:+ tm_Reason t +:+ " (exit 0)".
Proof.
  intros Hph Hclean Hinit Hr Hc Hw Ht He Hm. unfold podUnhealthyReason. cbn [pi_Phase podToInfo]. rewrite Hph. cbn [negb andb].
  replace (String.eqb PodRunning PodRunning) with true by reflexivity. cbn [negb andb pi_Containers podToInfo].
  rewrite Hinit. generalize (container_specs p). intros specs.
  assert (∀ info rest, ci_Ready info = true → ci_RestartCount info = 0%Z → ci_Waiting info = "" →
    container_reason (info :: rest) = if nonempty_str (ci_Terminated info)
      then "container " +:+ ci_Name info +:+ " " +:+ ci_Terminated info else container_reason rest) as Hone.
  { intros info rest H1 H2 H3. cbn [container_reason]. by rewrite H1, H2, H3. }
  induction (hp_ContainerStatuses p) as [|c l IH]; cbn [fmap list_fmap app].
  - assert (ci_Terminated (container_info specs true cs) = tm_Reason t +:+ " (exit 0)") as Hterm.
    { unfold container_info. destruct (specs !! hcs_Name cs); cbn; rewrite Ht, He, Hm; by rewrite String_append_empty_r. }
    rewrite Hone by (unfold container_info; destruct (specs !! hcs_Name cs); cbn; by rewrite ?Hw).
    rewrite Hterm. replace (ci_Name (container_info specs true cs)) with (hcs_Name cs)
      by (unfold container_info; by destruct (specs !! hcs_Name cs)).
    by destruct (tm_Reason t).
  - destruct (Hclean c) as (H1 & H2 & H3 & H4); [by left|].
    rewrite Hone by (unfold container_info; destruct (specs !! hcs_Name c); cbn; by rewrite ?H3).
    replace (ci_Terminated (container_info specs false c)) with ""
      by (unfold container_info; destruct (specs !! hcs_Name c); cbn; by rewrite H4).
    apply IH. intros c' Hc'. apply Hclean. by right.
Qed.

(** An image reference by digest whose registry has a port: the port is taken for a tag. *)
Example image_version_port :
  imageVersion "registry:5000/team/app@sha256:0123" = "5000/team/app" ∧
  imageVersion "registry/team/app@sha256:0123" = "sha256:0123" ∧
  imageVersion "registry:5000/team/app:v1@sha256:0123" = "v1".
Proof. done. Qed.

(** ** Concrete runs *)

(** Quantities as integers, maps in the order of their keys' encoding, events by merge sort. *)
Definition health_quantity : HQuantity Z := {|
  hq_zero := 0%Z;
  hq_IsZero := λ q, (q =? 0)%Z;
  hq_MilliValue := λ q, (q * 1000)%Z;
  hq_Value := λ q, q;
  hq_String := itoa;
  hq_Cmp := λ x y, (x - y)%Z;
  hq_Parse := λ s, Err (errorf s);
|}.

Definition later_first (e e' : EventInfo) : Prop := before (ei_LastTime e) (ei_LastTime e') = false.

#[export] Instance later_first_dec e e' : Decision (later_first e e') := bool_eq_dec _ _.

#[export] Instance later_first_total : Total later_first.
Proof.
  intros e e'. unfold later_first, before. destruct (ei_LastTime e) as [t|], (ei_LastTime e') as [u|]; auto.
  rewrite !Z.ltb_ge. lia.
Qed.

#[export] Instance later_first_transitive : Transitive later_first.
Proof.
  intros e1 e2 e3. unfold later_first, before.
  destruct (ei_LastTime e1) as [t|], (ei_LastTime e2) as [u|], (ei_LastTime e3) as [v|]; try done.
  rewrite !Z.ltb_ge. lia.
Qed.

Definition health_lib : HealthLib := {|
  range_map := λ A m, map_to_list m;
  sort_recent := merge_sort later_first;
|}.

#[export] Instance health_lib_laws : @HealthLibLaws health_lib.
Proof.
  split.
  - done.
  - intros l. apply merge_sort_Permutation.
  - intros l. apply (StronglySorted_merge_sort later_first).
Qed.

(** A server with two pages of events. *)
Definition event_at (name : string) (t : Z) : HEvent := MkHEvent "apps" "Pod" name "Warning" "BackOff" "" (Some t) None 1.

Definition two_pages (token : string) : result (list HEvent * string) :=
  if String.eqb token "" then Ok ([event_at "a" 5; event_at "b" 50], "next")
  else Ok ([event_at "c" 60; event_at "d" 7], "").

Definition two_pages_server : ∀ X, HealthE Z X → unit → X * unit := λ X e w,
  (match e in HealthE _ X return X with
   | HNow => 60%Z
   | ListHNodes => Ok []
   | ListNodeMetrics => Ok []
   | GetHDeployment _ _ => Err (errorf "none")
   | ListHDeployments _ _ => Ok []
   | ListHPods _ _ => Ok []
   | ListHEvents _ token => two_pages token
   | ListHQuotas _ => Ok []
   | GetHObject _ _ _ => Err (errorf "none")
   | ListHObjects _ => Ok []
   end, w).

Lemma listRecentEvents_terminates_witness :
  (run two_pages_server (@listRecentEventsInNamespace Z 2 "apps" 10) tt []).1.1 =
    Some (Ok [event_at "b" 50; event_at "c" 60]) ∧
  (run two_pages_server (@listRecentEventsInNamespace Z 1 "apps" 10) tt []).1.1 = None.
Proof.
  split; [|reflexivity].
  exact (proj2 (@listRecentEvents_terminates Z two_pages "apps" unit two_pages_server
    (λ token w, eq_refl) 10%Z tt) [[event_at "a" 5; event_at "b" 50]; [event_at "c" 60; event_at "d" 7]] None 2
    (chain_next _ "" _ "next" _ _ eq_refl ltac:(discriminate) (chain_last _ "next" _ eq_refl)) ltac:(cbv; lia)).
Defined.

(** A cluster of one node and one pod. *)
Definition one_node (memory_pressure : string) : HNode Z :=
  MkHNode "n1" {["node-role.kubernetes.io/worker" := ""]} [MkSummary "MemoryPressure" memory_pressure "";
    MkSummary "Ready" "True" ""] ∅ ∅.

Definition status_of (name : string) (ready : bool) (waiting : option StateWaiting) (terminated : option StateTerminated) :=
  MkHStatus name ready 0 waiting terminated.

Definition one_pod (statuses inits : list HContainerStatus) : HPod Z :=
  MkHPod "apps" "web" PodRunning "n1" (Some 0%Z) [] [] statuses inits.

Definition small_cluster (node : HNode Z) (pod : HPod Z) : ∀ X, HealthE Z X → unit → X * unit := λ X e w,
  (match e in HealthE _ X return X with
   | HNow => 60%Z
   | ListHNodes => Ok [node]
   | ListNodeMetrics => Err (errorf "no metrics")
   | GetHDeployment _ _ => Err (errorf "none")
   | ListHDeployments _ _ => Ok []
   | ListHPods _ _ => Ok [pod]
   | ListHEvents _ _ => Ok ([], "")
   | ListHQuotas _ => Ok [MkHQuota "apps" "q" {["cpu" := 1%Z]} {["cpu" := 2%Z]}]
   | GetHObject _ _ _ => Err (errorf "none")
   | ListHObjects _ => Ok []
   end, w).

Definition small_config : Config :=
  MkConfig true (MkOperatorConfig "" "") (MkNamespaceConfig "apps" " apps " []) (MkNamespacedName "" "")
    (MkNamespacedName "" "") [LayerInfrastructure; SectionPods; SectionEvents] [].

Definition small_run (node : HNode Z) (pod : HPod Z) :=
  run (small_cluster node pod)
    (@Run nested_documented nested_write_documented nested_maps_documented Z health_quantity health_lib 1 small_config) tt [].

Definition report_of (node : HNode Z) (pod : HPod Z) : option (ClusterHealth.Report Z) :=
  match (small_run node pod).1.1 with Some (Ok r) => Some r | _ => None end.

Definition ready_pod : HPod Z := one_pod [status_of "main" true None None] [].

Lemma diagnosis_complete_witness : ∃ r tr,
  small_run (one_node "False") ready_pod = (Some (Ok r), tt, tr) ∧
  ErrorCode (Classify 70 (Some (@view Z health_lib r))) = CodeNoSignal ∧
  length (observed tr) = 3 ∧
  ∀ o, o ∈ observed tr → ¬ @trouble Z health_quantity 70 o.
Proof.
  eexists _, _. split; [reflexivity|]. split; [vm_compute; reflexivity|]. split; [vm_compute; reflexivity|].
  refine (proj2 (@diagnosis_complete nested_documented nested_write_documented nested_maps_documented Z health_quantity
    health_lib health_lib_laws unit (small_cluster (one_node "False") ready_pod) 1 small_config tt tt _ _ 70%Z eq_refl
    ltac:(vm_compute; discriminate)) ltac:(vm_compute; reflexivity)).
Defined.

(** A node under memory pressure is found, through the report. *)
Example pressure_diagnosed :
  (λ r, Classify 70 (Some (@view Z health_lib r))) <$> report_of (one_node "True") ready_pod =
    Some (infra "node-pressure" CodeNodePressure ["node n1: resource pressure: MemoryPressure"] ConfidenceHigh).
Proof. vm_compute. reflexivity. Qed.
