(* ===== verification/HealthFormat.v ===== *)
(** * HealthFormat: a health report as text

    [metrics_export.go] and [format.go] of [pkg/clusterhealth]: the report in the Prometheus
    exposition format and as a table.

    A [float64] is a [spec_float] of 53 bits. What strconv prints for [%g], the conversion of
    a float outside of the range of [int64], which Go leaves to the implementation, and the
    approximation of a quantity are parameters. *)

From Stdlib Require Import SpecFloat.
From S2P Require Import Prelude Effects Unstructured SharedPlatform Conversion Admission Workload ClusterHealth HealthSections HealthReport.

(** ** Text *)

(** [strings.Repeat] of one character. *)
Fixpoint repeat_char (c : Ascii.ascii) (n : nat) : string :=
  match n with O => "" | S n => String c (repeat_char c n) end.

Definition NL : Ascii.ascii := Ascii.ascii_of_nat 10.
Definition CR : Ascii.ascii := Ascii.ascii_of_nat 13.
Definition QUOTE : Ascii.ascii := Ascii.ascii_of_nat 34.
Definition BACKSLASH : Ascii.ascii := Ascii.ascii_of_nat 92.

Definition newline : string := String NL EmptyString.

(** The four replacements, in the order of the code. *)
Definition escapePromLabelValue (s : string) : string :=
  let s := replace_char BACKSLASH (backslash +:+ backslash) s in
  let s := replace_char QUOTE (backslash +:+ dquote) s in
  let s := replace_char NL (backslash +:+ "n") s in
  replace_char CR (backslash +:+ "r") s.

(** [fmt.Sprintf] of a key, an equals sign and the escaped value in double quotes. *)
Definition prom_label (k v : string) : string := k +:+ "=" +:+ dquote +:+ escapePromLabelValue v +:+ dquote.

Notation promLabels := (gmap string string).

Definition sortedMapKeys {V} (m : gmap string V) : list string := sort_strings (map_to_list m).*1.

Definition formatPromLabels (labels : promLabels) : string :=
  if bool_decide (labels = ∅) then ""
  else "{" +:+ join "," (map (λ k, prom_label k (default "" (labels !! k))) (sortedMapKeys labels)) +:+ "}".

Definition mergeLabels (base extra : promLabels) : promLabels := extra ∪ base.

(** ** Numbers *)

Class PromLib (Q : Type) := {
  format_g : spec_float → string;
  int64_unspecified : spec_float → Z;
  hq_AsApproximateFloat64 : Q → spec_float;
}.

Definition float64 (z : Z) : spec_float := binary_normalize 53%Z 1024%Z z 0%Z false.

(** [float64(x) / 1000.0]. *)
Definition thousandth (z : Z) : spec_float := SFdiv 53%Z 1024%Z (float64 z) (float64 1000).

(** The integral part of a float, towards zero, when it is a number. *)
Definition truncated (v : spec_float) : option Z :=
  match v with
  | S754_zero _ => Some 0%Z
  | S754_finite s m e =>
      let n := if (e <? 0)%Z then Z.shiftr (Zpos m) (- e) else Z.shiftl (Zpos m) e in
      Some (if s then - n else n)%Z
  | _ => None
  end.

Section export.
Context `{HQuantity Q, PromLib Q}.

Definition int64_of_float (v : spec_float) : Z :=
  match truncated v with
  | Some n => if ((- 2 ^ 63 <=? n) && (n <? 2 ^ 63))%Z then n else int64_unspecified v
  | None => int64_unspecified v
  end.

Definition formatFloat (v : spec_float) : string :=
  if SFeqb v (float64 (int64_of_float v)) then itoa (int64_of_float v) else format_g v.

Definition quantityToFloat (q : Q) : spec_float := hq_AsApproximateFloat64 q.

Definition promLine (name : string) (labels : promLabels) (value : spec_float) (ts : Z) : string :=
  name +:+ formatPromLabels labels +:+ " " +:+ formatFloat value +:+ " " +:+ itoa ts.

Definition sortedResourceNames (rl : gmap string Q) : list string := sort_strings (map_to_list rl).*1.

(** ** The lines of a report *)

Definition one : spec_float := float64 1.
Definition zero : spec_float := float64 0.
Definition bit (b : bool) : spec_float := if b then one else zero.

(** One line unless the quantity is zero. *)
Definition unless_zero (q : Q) (lines : list string) : list string := if hq_IsZero q then [] else lines.

Definition core_labels (name : string) : promLabels := {["node" := name; "resource" := "cpu"; "unit" := "core"]}.
Definition byte_labels (name : string) : promLabels := {["node" := name; "resource" := "memory"; "unit" := "byte"]}.

Definition node_resources (name : string) (labels : promLabels) (node : HNode Q) (ts : Z) : list string :=
  let cpu rl := rl_get rl "cpu" in
  let mem rl := rl_get rl "memory" in
  let alloc := hn_Allocatable node in
  let cap := hn_Capacity node in
  unless_zero (cpu alloc)
    [promLine "kube_node_status_allocatable" (core_labels name) (thousandth (hq_MilliValue (cpu alloc))) ts] ++
  unless_zero (mem alloc)
    [promLine "kube_node_status_allocatable" (byte_labels name) (float64 (hq_Value (mem alloc))) ts] ++
  unless_zero (cpu cap)
    [promLine "kube_node_status_capacity" (core_labels name) (thousandth (hq_MilliValue (cpu cap))) ts;
     promLine "machine_cpu_cores" labels (thousandth (hq_MilliValue (cpu cap))) ts] ++
  unless_zero (mem cap)
    [promLine "kube_node_status_capacity" (byte_labels name) (float64 (hq_Value (mem cap))) ts;
     promLine "node_memory_MemTotal_bytes" labels (float64 (hq_Value (mem cap))) ts].

Definition node_condition_line (name : string) (ts : Z) (cond : ConditionSummary) : string :=
  promLine "kube_node_status_condition"
    {["node" := name; "condition" := cs_Type cond; "status" := to_lower (cs_Status cond)]}
    (bit (String.eqb (cs_Status cond) "True")) ts.

Definition node_lines (rawByName : gmap string (HNode Q)) (ts : Z) (name : string) (info : NodeInfo) : list string :=
  let labels : promLabels := {["node" := name]} in
  (if nonempty_str (ni_Role info)
   then [promLine "kube_node_role" {["node" := name; "role" := ni_Role info]} one ts] else []) ++
  (match rawByName !! name with Some node => node_resources name labels node ts | None => [] end) ++
  (match ni_UsageCPUMillicores info with
   | Some u => [promLine "node_cpu_usage_cores" labels (thousandth u) ts] | None => [] end) ++
  (match ni_UsageMemoryBytes info with
   | Some u => [promLine "container_memory_working_set_bytes" {["node" := name; "id" := "/"]} (float64 u) ts]
   | None => [] end) ++
  map (node_condition_line name ts) (ni_Conditions info).

(** A name that occurs twice stands twice in the list, with the last node of that name. *)
Definition exportNodes (r : Report Q) (ts : Z) : list string :=
  let rawByName := foldl (λ m node, <[hn_Name node := node]> m) ∅ (ns_Data (Data (Nodes r))) in
  let infoByName := foldl (λ m info, <[ni_Name info := info]> m) (∅ : gmap string NodeInfo) (ns_Nodes (Data (Nodes r))) in
  let names := sort_strings (map ni_Name (ns_Nodes (Data (Nodes r)))) in
  concat (map (λ name, match infoByName !! name with
                       | Some info => node_lines rawByName ts name info | None => [] end) names).

(** The nested loop over the sorted namespaces. *)
Definition by_namespace {A} (byNamespace : gmap string (list A)) (lines : A → list string) : list string :=
  concat (map (λ ns, concat (map lines (default [] (byNamespace !! ns)))) (sortedMapKeys byNamespace)).

Definition deployment_lines (ts : Z) (d : DeploymentInfo) : list string :=
  let labels : promLabels := {["namespace" := di_Namespace d; "deployment" := di_Name d]} in
  [promLine "kube_deployment_status_replicas" labels (float64 (di_Replicas d)) ts;
   promLine "kube_deployment_status_replicas_ready" labels (float64 (di_Ready d)) ts].

Definition exportDeployments (r : Report Q) (ts : Z) : list string :=
  by_namespace (ds_ByNamespace (Data (Deployments r))) (deployment_lines ts).

Definition podPhases : list string := ["Pending"; "Running"; "Succeeded"; "Failed"; "Unknown"].

Definition phase_line (ts : Z) (pod : PodInfo) (phase : string) : string :=
  promLine "kube_pod_status_phase" {["namespace" := pi_Namespace pod; "pod" := pi_Name pod; "phase" := phase]}
    (bit (String.eqb (pi_Phase pod) phase)) ts.

Definition resource_line (metric : string) (labels : promLabels) (val : Z → spec_float) (ts : Z) (v : option Z)
    : list string :=
  match v with Some v => [promLine metric labels (val v) ts] | None => [] end.

Definition container_lines (ts : Z) (pod : PodInfo) (c : ContainerInfo) : list string :=
  let labels : promLabels :=
    {["namespace" := pi_Namespace pod; "pod" := pi_Name pod; "container" := ci_Name c]} in
  let resLabels := if nonempty_str (pi_NodeName pod) then <["node" := pi_NodeName pod]> labels else labels in
  let cpuLabels := mergeLabels resLabels {["resource" := "cpu"; "unit" := "core"]} in
  let memLabels := mergeLabels resLabels {["resource" := "memory"; "unit" := "byte"]} in
  [promLine "kube_pod_container_status_restarts_total" labels (float64 (ci_RestartCount c)) ts;
   promLine "kube_pod_container_status_ready" labels (bit (ci_Ready c)) ts] ++
  resource_line "kube_pod_container_resource_requests" cpuLabels thousandth ts (ci_RequestsCPU c) ++
  resource_line "kube_pod_container_resource_requests" memLabels float64 ts (ci_RequestsMemory c) ++
  resource_line "kube_pod_container_resource_limits" cpuLabels thousandth ts (ci_LimitsCPU c) ++
  resource_line "kube_pod_container_resource_limits" memLabels float64 ts (ci_LimitsMemory c).

Definition pod_lines (ts : Z) (pod : PodInfo) : list string :=
  map (phase_line ts pod) podPhases ++ concat (map (container_lines ts pod) (pi_Containers pod)).

Definition exportPods (r : Report Q) (ts : Z) : list string :=
  by_namespace (ps_ByNamespace (Data (Pods r))) (pod_lines ts).

Definition quota_lines (ts : Z) (quota : HQuota Q) (ty : string) (rl : gmap string Q) : list string :=
  map (λ res, promLine "kube_resourcequota"
    {["namespace" := hq_Namespace quota; "quota" := hq_Name quota; "resource" := res; "type" := ty]}
    (quantityToFloat (rl_get rl res)) ts) (sortedResourceNames rl).

Definition exportQuotas (r : Report Q) (ts : Z) : list string :=
  concat (map (λ quota, quota_lines ts quota "hard" (hq_Hard quota) ++ quota_lines ts quota "used" (hq_Used quota))
    (qs_Data (Data (Quotas r)))).

(** The error of each section by its key. *)
Definition sectionErrors (r : Report Q) : gmap string string := list_to_map
  [(SectionNodes, Error (Nodes r)); (SectionDeployments, Error (Deployments r)); (SectionPods, Error (Pods r));
   (SectionEvents, Error (Events r)); (SectionQuotas, Error (Quotas r)); (SectionOperator, Error (Operator r));
   (SectionDSCI, Error (DSCI r)); (SectionDSC, Error (DSC r))].

Definition exportHealth (r : Report Q) (ts : Z) : list string :=
  promLine "cluster_healthy" ∅ (bit (Healthy r)) ts ::
  map (λ section, promLine "section_healthy" {["section" := section]}
    (bit (String.eqb (default "" (sectionErrors r !! section)) "")) ts) (sortedMapKeys (sectionErrors r)).

(** [r.CollectedAt.UnixMilli()]. *)
Definition unix_milli (t : Z) : Z := (t / 1000000)%Z.

Definition PrometheusExport (r : Report Q) : list string :=
  let ts := unix_milli (CollectedAt r) in
  exportNodes r ts ++ exportDeployments r ts ++ exportPods r ts ++ exportQuotas r ts ++ exportHealth r ts.
End export.

(** ** The table ([format.go]) *)

Definition statusOK : string := "OK".
Definition statusFAIL : string := "FAIL".

Record sectionRow := MkRow { row_Section : string; row_Status : string; row_Summary : string }.

Definition sectionDisplayOrder : list (string * string) :=
  [(SectionNodes, "Nodes"); (SectionDeployments, "Deployments"); (SectionPods, "Pods"); (SectionEvents, "Events");
   (SectionQuotas, "Quotas"); (SectionOperator, "Operator"); (SectionDSCI, "DSCI"); (SectionDSC, "DSC")].

Definition sectionStatus (err : string) : string := if String.eqb err "" then statusOK else statusFAIL.

(** [s[:maxLen-3] + "..."] for a [maxLen] of at least three; a text is cut between bytes. *)
Definition truncate (s : string) (maxLen : nat) : string :=
  let s := TrimSpace s in
  if (String.length s <=? maxLen)%nat then s else String.substring 0 (maxLen - 3) s +:+ "...".

Definition pad (s : string) (n : nat) : string :=
  if (n <=? String.length s)%nat then s else s +:+ repeat_char (Ascii.ascii_of_nat 32) (n - String.length s).

Definition dash : Ascii.ascii := Ascii.ascii_of_nat 45.

Definition format_row (row : sectionRow) : string :=
  pad (row_Section row) 12 +:+ "  " +:+ pad (row_Status row) 6 +:+ "  " +:+ row_Summary row +:+ newline.

Definition formatTable (rows : list sectionRow) : string :=
  pad "SECTION" 12 +:+ "  " +:+ pad "STATUS" 6 +:+ "  SUMMARY" +:+ newline +:+
  repeat_char dash 12 +:+ "  " +:+ repeat_char dash 6 +:+ "  " +:+ "-------" +:+ newline +:+
  String.concat "" (map format_row rows).

Definition count {A} (P : A → bool) (l : list A) : Z := Z.of_nat (length (filter (λ x, P x = true) l)).
Definition len {A} (l : list A) : Z := Z.of_nat (length l).

(** The counts of the loops over a [ByNamespace] map, whose order does not matter. *)
Definition all_infos {A} (byNs : gmap string (list A)) : list A := concat (map_to_list byNs).*2.
Definition namespacesWithItems {A} (byNs : gmap string (list A)) : Z :=
  count (λ infos, negb (bool_decide (length infos = 0%nat))) (map_to_list byNs).*2.

Definition summary_counts {A} (byNs : gmap string (list A)) (bad : A → bool) (what badness : string) : string :=
  let base := itoa (len (all_infos byNs)) +:+ " " +:+ what +:+ " in " +:+ itoa (namespacesWithItems byNs) +:+ " namespaces" in
  let n := count bad (all_infos byNs) in
  if (n =? 0)%Z then base else base +:+ ", " +:+ itoa n +:+ " " +:+ badness.

Section format.
Context `{HQuantity Q, HealthLib}.

Definition summaryNodes (r : Report Q) : string :=
  if nonempty_str (Error (Nodes r)) then truncate (Error (Nodes r)) 60
  else
    let nodes := ns_Nodes (Data (Nodes r)) in
    if (len nodes =? 0)%Z then "no nodes"
    else
      let unhealthy := count (λ node, nonempty_str (ni_UnhealthyReason node)) nodes in
      if (unhealthy =? 0)%Z then itoa (len nodes) +:+ " nodes"
      else itoa (len nodes) +:+ " nodes, " +:+ itoa unhealthy +:+ " unhealthy".

Definition summaryDeployments (r : Report Q) : string :=
  if nonempty_str (Error (Deployments r)) then truncate (Error (Deployments r)) 60
  else
    let byNs := ds_ByNamespace (Data (Deployments r)) in
    if bool_decide (byNs = ∅) then "no deployments"
    else summary_counts byNs (λ d, (di_Replicas d >? 0)%Z && negb (di_Ready d =? di_Replicas d)%Z) "deployments" "not ready".

Definition summaryPods (r : Report Q) : string :=
  if nonempty_str (Error (Pods r)) then truncate (Error (Pods r)) 60
  else
    let byNs := ps_ByNamespace (Data (Pods r)) in
    if bool_decide (byNs = ∅) then "no pods"
    else summary_counts byNs (λ p, negb (String.eqb (pi_Phase p) "Running")) "pods" "not Running".

Definition summaryEvents (r : Report Q) : string :=
  if nonempty_str (Error (Events r)) then truncate (Error (Events r)) 60
  else
    let n := len (es_Events (Data (Events r))) in
    if (n =? 0)%Z then "no events" else itoa n +:+ " events".

Definition summaryQuotas (r : Report Q) : string :=
  if nonempty_str (Error (Quotas r)) then truncate (Error (Quotas r)) 60
  else
    let byNs := qs_ByNamespace (Data (Quotas r)) in
    if bool_decide (byNs = ∅) then "no quotas"
    else summary_counts byNs (λ q, negb (bool_decide (qi_Exceeded q = []))) "quotas" "exceeded".

Definition ready_text (d : DeploymentInfo) : string :=
  di_Name d +:+ " " +:+ itoa (di_Ready d) +:+ "/" +:+ itoa (di_Replicas d) +:+ " ready".

Definition summaryOperator (r : Report Q) : string :=
  if nonempty_str (Error (Operator r)) then truncate (Error (Operator r)) 60
  else
    match os_Deployment (Data (Operator r)) with
    | None => "no operator deployment"
    | Some d =>
        let depLine := ready_text d in
        let deps := os_DependentOperators (Data (Operator r)) in
        if (len deps =? 0)%Z then depLine
        else
          let notInstalled := count (λ dep, negb (do_Installed dep)) deps in
          if (notInstalled =? 0)%Z then depLine +:+ ", " +:+ itoa (len deps) +:+ " dependents"
          else depLine +:+ ", " +:+ itoa (len deps) +:+ " dependents (" +:+ itoa notInstalled +:+ " not installed)"
    end.

(** [summaryDSCI] and [summaryDSC], which differ in a bound and a word. *)
Definition summary_cr (maxLen : nat) (none : string) (s : SectionResult CRConditionsSection) : string :=
  if nonempty_str (Error s) then truncate (Error s) maxLen
  else if String.eqb (crs_Name (Data s)) "" then none
  else
    let n := len (crs_Conditions (Data s)) in
    if (n =? 0)%Z then crs_Name (Data s) else crs_Name (Data s) +:+ ", " +:+ itoa n +:+ " conditions".

Definition summaryDSCI (r : Report Q) : string := summary_cr 60 "no DSCI" (DSCI r).
Definition summaryDSC (r : Report Q) : string := summary_cr 80 "no DSC" (DSC r).

Definition sectionStatusForKey (r : Report Q) (key : string) : string :=
  if String.eqb key SectionNodes then sectionStatus (Error (Nodes r))
  else if String.eqb key SectionDeployments then sectionStatus (Error (Deployments r))
  else if String.eqb key SectionPods then sectionStatus (Error (Pods r))
  else if String.eqb key SectionEvents then sectionStatus (Error (Events r))
  else if String.eqb key SectionQuotas then sectionStatus (Error (Quotas r))
  else if String.eqb key SectionOperator then sectionStatus (Error (Operator r))
  else if String.eqb key SectionDSCI then sectionStatus (Error (DSCI r))
  else if String.eqb key SectionDSC then sectionStatus (Error (DSC r))
  else statusOK.

Definition sectionSummaryForKey (r : Report Q) (key : string) : string :=
  if String.eqb key SectionNodes then summaryNodes r
  else if String.eqb key SectionDeployments then summaryDeployments r
  else if String.eqb key SectionPods then summaryPods r
  else if String.eqb key SectionEvents then summaryEvents r
  else if String.eqb key SectionQuotas then summaryQuotas r
  else if String.eqb key SectionOperator then summaryOperator r
  else if String.eqb key SectionDSCI then summaryDSCI r
  else if String.eqb key SectionDSC then summaryDSC r
  else "".

(** The sections to show: those that were run, or all when none is named. *)
Definition shown (r : Report Q) : list (string * string) :=
  filter (λ s, (bool_decide (SectionsRun r = []) || bool_decide (s.1 ∈ SectionsRun r)) = true) sectionDisplayOrder.

Definition sectionRows (r : Report Q) : list sectionRow :=
  map (λ s, MkRow s.2 (sectionStatusForKey r s.1) (sectionSummaryForKey r s.1)) (shown r).

(** ** The details *)

Definition lines (l : list string) : string := String.concat "" (map (λ s, "  " +:+ s +:+ newline) l).

Definition details {T} (s : SectionResult T) (l : T → list string) : string :=
  if nonempty_str (Error s) then "  " +:+ Error s +:+ newline else lines (l (Data s)).

Definition longDetailsNodes (r : Report Q) : string :=
  details (Nodes r) (λ d, map (λ n, ni_Name n +:+ ": " +:+
    (if nonempty_str (ni_UnhealthyReason n) then ni_UnhealthyReason n else "OK")) (ns_Nodes d)).

(** Ranging over the namespaces. *)
Definition per_namespace {A} (byNs : gmap string (list A)) (f : string → A → string) : list string :=
  concat (map (λ kv, map (f kv.1) kv.2) (range_map byNs)).

Definition longDetailsDeployments (r : Report Q) : string :=
  details (Deployments r) (λ d, per_namespace (ds_ByNamespace d) (λ ns d, ns +:+ "/" +:+ ready_text d)).

Definition longDetailsPods (r : Report Q) : string :=
  details (Pods r) (λ d, per_namespace (ps_ByNamespace d) (λ ns p, ns +:+ "/" +:+ pi_Name p +:+ " " +:+ pi_Phase p)).

Definition longDetailsEvents (r : Report Q) : string :=
  details (Events r) (λ d, map (λ e, ei_Namespace e +:+ "/" +:+ ei_Name e +:+ " " +:+ ei_Reason e +:+ ": " +:+
    truncate (ei_Message e) 60) (es_Events d)).

Definition longDetailsQuotas (r : Report Q) : string :=
  details (Quotas r) (λ d, per_namespace (qs_ByNamespace d) (λ ns q, ns +:+ "/" +:+ qi_Name q +:+
    match qi_Exceeded q with [] => "" | exceeded => " exceeded: " +:+ join ", " exceeded end)).

Definition dependent_line (dep : DependentOperatorResult) : string :=
  "dependent: " +:+ do_Name dep +:+
  (if negb (do_Installed dep) then " not installed"
   else if nonempty_str (do_Error dep) then " error: " +:+ do_Error dep
   else match do_Deployment dep with
        | Some d => " " +:+ itoa (di_Ready d) +:+ "/" +:+ itoa (di_Replicas d) +:+ " ready"
        | None => ""
        end).

Definition longDetailsOperator (r : Report Q) : string :=
  details (Operator r) (λ o,
    match os_Deployment o with Some d => [ready_text d] | None => [] end ++ map dependent_line (os_DependentOperators o)).

Definition longDetailsCRConditions (name : string) (conditions : list ConditionSummary) : string :=
  if String.eqb name "" then ""
  else lines (map (λ c, cs_Type c +:+ ": " +:+ cs_Status c +:+
    (if nonempty_str (cs_Message c) then " (" +:+ truncate (cs_Message c) 50 +:+ ")" else "")) conditions).

Definition longDetailsForSection (r : Report Q) (key : string) : string :=
  if String.eqb key SectionNodes then longDetailsNodes r
  else if String.eqb key SectionDeployments then longDetailsDeployments r
  else if String.eqb key SectionPods then longDetailsPods r
  else if String.eqb key SectionEvents then longDetailsEvents r
  else if String.eqb key SectionQuotas then longDetailsQuotas r
  else if String.eqb key SectionOperator then longDetailsOperator r
  else if String.eqb key SectionDSCI then longDetailsCRConditions (crs_Name (Data (DSCI r))) (crs_Conditions (Data (DSCI r)))
  else if String.eqb key SectionDSC then longDetailsCRConditions (crs_Name (Data (DSC r))) (crs_Conditions (Data (DSC r)))
  else "".

Definition details_block (r : Report Q) (s : string * string) : string :=
  let block := longDetailsForSection r s.1 in
  if nonempty_str block then s.2 +:+ ":" +:+ newline +:+ block +:+ newline else "".

Definition longDetails (r : Report Q) : string :=
  "--- Details (-l) ---" +:+ newline +:+ String.concat "" (map (details_block r) (shown r)).

Definition PrettyPrint (r : Report Q) (long : bool) : string :=
  formatTable (sectionRows r) +:+ (if long then newline +:+ longDetails r else "").
End format.
