(* ===== verification/HealthFormatTheorems.v ===== *)
(** * Health reports as text: properties

    Label values survive the exposition format whatever they contain, an exported line is one
    line, and the table shows what the report says. *)

From Stdlib Require Import SpecFloat.
From S2P Require Import Prelude Effects Unstructured SharedPlatform Conversion Admission Workload.
From S2P Require Import FailureClassifier HealthTheorems ClusterHealth HealthSections HealthReport HealthFormat.

(** ** Characters of a string *)

Definition chars (s : string) : list Ascii.ascii := String.list_ascii_of_string s.

Lemma append_String a s t : String a s +:+ t = String a (s +:+ t).
Proof. done. Qed.

Lemma append_Empty t : "" +:+ t = t.
Proof. done. Qed.

Lemma chars_app s t : chars (s +:+ t) = chars s ++ chars t.
Proof. induction s as [|a s IH]; [done|]. exact (f_equal (cons a) IH). Qed.

Lemma chars_length s : length (chars s) = String.length s.
Proof. induction s as [|a s IH]; [done|]. exact (f_equal S IH). Qed.

(** No line break. *)
Definition one_line (s : string) : Prop := Forall (λ a, a ≠ NL ∧ a ≠ CR) (chars s).

#[export] Instance one_line_dec s : Decision (one_line s) := Forall_dec _ _.

Lemma one_line_app s t : one_line (s +:+ t) ↔ one_line s ∧ one_line t.
Proof. unfold one_line. by rewrite chars_app, Forall_app. Qed.

Lemma one_line_join sep l : one_line sep → Forall one_line l → one_line (join sep l).
Proof.
  intros Hsep Hl. unfold join. induction Hl as [|x l Hx Hl IH]; [by constructor|].
  destruct l as [|y l]; [done|]. change (String.concat sep (x :: y :: l)) with (x +:+ (sep +:+ String.concat sep (y :: l))).
  by rewrite !one_line_app.
Qed.

(** ** Escaping *)

(** What becomes of one character. *)
Definition escape_char (a : Ascii.ascii) : string :=
  if Ascii.eqb a BACKSLASH then backslash +:+ backslash
  else if Ascii.eqb a QUOTE then backslash +:+ dquote
  else if Ascii.eqb a NL then backslash +:+ "n"
  else if Ascii.eqb a CR then backslash +:+ "r"
  else String a EmptyString.

Fixpoint escape_once (s : string) : string :=
  match s with EmptyString => "" | String a s => escape_char a +:+ escape_once s end.

Lemma replace_char_app c by_ s t : replace_char c by_ (s +:+ t) = replace_char c by_ s +:+ replace_char c by_ t.
Proof.
  induction s as [|a s IH]; [done|]. rewrite append_String. cbn [replace_char]. by rewrite IH, append_assoc.
Qed.

Lemma escape_app s t : escapePromLabelValue (s +:+ t) = escapePromLabelValue s +:+ escapePromLabelValue t.
Proof. unfold escapePromLabelValue. by rewrite !replace_char_app. Qed.

Lemma escape_single a : escapePromLabelValue (String a "") = escape_char a.
Proof. unfold escape_char. destruct a as [[] [] [] [] [] [] [] []]; reflexivity. Qed.

(** The four replacements of the whole text, one after the other, are the same as one pass
    that escapes each character by itself; so no replacement touches what an earlier one
    wrote, and the order of the code, with the backslash first, is right. *)
Theorem escape_single_pass s : escapePromLabelValue s = escape_once s.
Proof.
  induction s as [|a s IH]; [done|]. change (String a s) with (String a "" +:+ s).
  by rewrite escape_app, escape_single, IH.
Qed.

Lemma escape_cons a s : escapePromLabelValue (String a s) = escape_char a +:+ escapePromLabelValue s.
Proof. change (String a s) with (String a "" +:+ s). by rewrite escape_app, escape_single. Qed.

Lemma escape_one_line s : one_line (escapePromLabelValue s).
Proof.
  induction s as [|a s IH]; [by constructor|]. rewrite escape_cons, one_line_app. split; [|done]. unfold escape_char.
  repeat (case (Ascii.eqb_spec a _); intros ?; [by apply (bool_decide_unpack _)|]).
  constructor; [done|constructor].
Qed.

(** *** A reader of the exposition format *)

Definition unescape (a : Ascii.ascii) : option Ascii.ascii :=
  if Ascii.eqb a BACKSLASH then Some BACKSLASH
  else if Ascii.eqb a QUOTE then Some QUOTE
  else if Ascii.eqb a (Ascii.ascii_of_nat 110) then Some NL
  else if Ascii.eqb a (Ascii.ascii_of_nat 114) then Some CR
  else None.

(** The value up to the closing quote, and what follows. *)
Fixpoint read_value (s : string) : option (string * string) :=
  match s with
  | EmptyString => None
  | String a s =>
      if Ascii.eqb a QUOTE then Some (EmptyString, s)
      else if Ascii.eqb a BACKSLASH then
        match s with
        | EmptyString => None
        | String b s' => c ← unescape b; vr ← read_value s'; Some (String c vr.1, vr.2)
        end
      else vr ← read_value s; Some (String a vr.1, vr.2)
  end.

Definition EQUALS : Ascii.ascii := Ascii.ascii_of_nat 61.

Fixpoint read_key (s : string) : option (string * string) :=
  match s with
  | EmptyString => None
  | String a s => if Ascii.eqb a EQUALS then Some (EmptyString, s) else kr ← read_key s; Some (String a kr.1, kr.2)
  end.

Definition skip (a : Ascii.ascii) (s : string) : option string :=
  match s with String b s => if Ascii.eqb b a then Some s else None | EmptyString => None end.

(** Labels up to the closing brace, at most [n]. *)
Fixpoint read_labels (n : nat) (s : string) : option (list (string * string) * string) :=
  match n with
  | O => None
  | S n =>
      kr ← read_key s;
      s1 ← skip QUOTE kr.2;
      vr ← read_value s1;
      match vr.2 with
      | String b rest =>
          if Ascii.eqb b (Ascii.ascii_of_nat 125) then Some ([(kr.1, vr.1)], rest)
          else if Ascii.eqb b (Ascii.ascii_of_nat 44) then
            lr ← read_labels n rest; Some ((kr.1, vr.1) :: lr.1, lr.2)
          else None
      | EmptyString => None
      end
  end.

Lemma read_value_escaped v rest : read_value (escapePromLabelValue v +:+ (dquote +:+ rest)) = Some (v, rest).
Proof.
  induction v as [|a v IH]; [done|]. rewrite escape_cons, append_assoc. revert IH.
  generalize (escapePromLabelValue v +:+ (dquote +:+ rest)). intros s IH. unfold escape_char.
  repeat (case (Ascii.eqb_spec a _); intros ?;
    [transitivity (vr ← read_value s; Some (String a vr.1, vr.2)); [by subst a|by rewrite IH]|]).
  change (String a "" +:+ ?s) with (String a s). cbn [read_value].
  case (Ascii.eqb_spec a _); [done|intros _]. case (Ascii.eqb_spec a _); [done|intros _]. by rewrite IH.
Qed.

Definition no_equals (k : string) : Prop := EQUALS ∉ chars k.

#[export] Instance no_equals_dec k : Decision (no_equals k) := not_dec _.

Lemma read_key_eq k rest : no_equals k → read_key (k +:+ ("=" +:+ rest)) = Some (k, rest).
Proof.
  unfold no_equals. induction k as [|a k IH]; [done|]. intros [Ha Hk]%not_elem_of_cons.
  change (String a k +:+ ?s) with (String a (k +:+ s)). cbn [read_key].
  case (Ascii.eqb_spec a _); [by intros ->|intros _]. by rewrite IH.
Qed.

Lemma read_labels_join (labels : promLabels) ks rest : ks ≠ [] → (∀ k, k ∈ ks → no_equals k) →
  read_labels (length ks) (join "," (map (λ k, prom_label k (default "" (labels !! k))) ks) +:+ ("}" +:+ rest)) =
    Some (map (λ k, (k, default "" (labels !! k))) ks, rest).
Proof.
  induction ks as [|k ks IH]; [done|]. intros _ Hks.
  assert (no_equals k) as Hk by (apply Hks; by left).
  assert (∀ v s, (x ← read_key (prom_label k v +:+ s); s1 ← skip QUOTE x.2; vr ← read_value s1; Some (x.1, vr.1, vr.2)) =
    Some (k, v, s)) as Hone.
  { intros v s. unfold prom_label. rewrite !append_assoc, read_key_eq by done. cbn -[read_value escapePromLabelValue].
    transitivity (vr ← read_value (escapePromLabelValue v +:+ (dquote +:+ s)); Some (k, vr.1, vr.2)); [reflexivity|].
    by rewrite read_value_escaped. }
  assert (∀ s s2 v n b, s = prom_label k v +:+ String b s2 →
    read_labels (S n) s = if Ascii.eqb b (Ascii.ascii_of_nat 125) then Some ([(k, v)], s2)
      else if Ascii.eqb b (Ascii.ascii_of_nat 44) then lr ← read_labels n s2; Some ((k, v) :: lr.1, lr.2) else None) as Hstep.
  { intros s s2 v n b ->. specialize (Hone v (String b s2)). cbn [read_labels].
    destruct (read_key _) as [[k' r]|]; [|done]. cbn in *. destruct (skip QUOTE r) as [s1|]; [|done]. cbn in *.
    destruct (read_value s1) as [[v' r']|]; [|done]. cbn in *. by simplify_eq. }
  destruct ks as [|k2 ks].
  - cbn [length]. erewrite Hstep; [|reflexivity]. done.
  - set (item := λ k, prom_label k (default "" (labels !! k))) in *.
    set (tail := join "," (map item (k2 :: ks)) +:+ ("}" +:+ rest)) in *.
    assert (join "," (map item (k :: k2 :: ks)) +:+ ("}" +:+ rest) = item k +:+ String (Ascii.ascii_of_nat 44) tail) as Heq.
    { change (join "," (map item (k :: k2 :: ks))) with (item k +:+ ("," +:+ join "," (map item (k2 :: ks)))).
      by rewrite !append_assoc. }
    rewrite Heq. change (length (k :: k2 :: ks)) with (S (length (k2 :: ks))). 
    rewrite (Hstep (item k +:+ String (Ascii.ascii_of_nat 44) tail) tail (default "" (labels !! k)) _ _ eq_refl).
    transitivity (lr ← read_labels (length (k2 :: ks)) tail; Some ((k, default "" (labels !! k)) :: lr.1, lr.2)); [reflexivity|].
    rewrite IH; [done|done|]. intros k' Hk'. apply Hks. by right.
Qed.

Lemma sortedMapKeys_elem {V} (m : gmap string V) k : k ∈ sortedMapKeys m ↔ is_Some (m !! k).
Proof.
  unfold sortedMapKeys. rewrite sort_strings_perm, list_elem_of_fmap. split.
  - intros ([k' v] & -> & Hkv%elem_of_map_to_list). eauto.
  - intros [v Hv]. exists (k, v). split; [done|]. by apply elem_of_map_to_list.
Qed.

Lemma sortedMapKeys_NoDup {V} (m : gmap string V) : NoDup (sortedMapKeys m).
Proof. unfold sortedMapKeys. rewrite sort_strings_perm. apply NoDup_fst_map_to_list. Qed.

Lemma sorted_pairs (labels : promLabels) :
  list_to_map (map (λ k, (k, default "" (labels !! k))) (sortedMapKeys labels)) = labels.
Proof.
  apply map_eq. intros k. destruct (labels !! k) as [v|] eqn:Hk.
  - apply elem_of_list_to_map_1.
    + replace ((map _ _).*1) with (sortedMapKeys labels); [apply sortedMapKeys_NoDup|].
      induction (sortedMapKeys labels) as [|k' ks IH]; [done|]. cbn. by rewrite <-IH.
    + apply list_elem_of_In, in_map_iff. exists k. rewrite Hk. split; [done|].
      apply list_elem_of_In, sortedMapKeys_elem. by rewrite Hk.
  - apply not_elem_of_list_to_map_1. intros ([k' v] & -> & Hin)%list_elem_of_fmap.
    apply list_elem_of_In, in_map_iff in Hin as (k2 & [= <- _] & Hin). cbn in Hk.
    apply list_elem_of_In, sortedMapKeys_elem in Hin as [v' Hv']. congruence.
Qed.

(** What is written is read back: whatever texts the labels of a line have (quotes,
    backslashes, line breaks, braces, commas), a reader of the format that undoes the four
    escapes gets exactly the labels and stops at the closing brace; so no text of the cluster can
    forge another label or the end of the labels. *)
Theorem formatPromLabels_roundtrip (labels : promLabels) rest :
  labels ≠ ∅ → (∀ k, is_Some (labels !! k) → no_equals k) →
  ∃ s l, formatPromLabels labels +:+ rest = "{" +:+ s ∧
    read_labels (length (sortedMapKeys labels)) s = Some (l, rest) ∧ list_to_map l = labels.
Proof.
  intros Hne Hkeys. unfold formatPromLabels. rewrite bool_decide_false by done. eexists _, _. split; [by rewrite append_assoc|].
  rewrite append_assoc. rewrite read_labels_join; [split; [done|apply sorted_pairs]| |].
  - intros Hnil. apply Hne, map_empty. intros k. destruct (labels !! k) eqn:Hk; [|done]. exfalso.
    assert (k ∈ sortedMapKeys labels) as Hin by (apply sortedMapKeys_elem; by rewrite Hk).
    rewrite Hnil in Hin. by apply elem_of_nil in Hin.
  - intros k Hk. by apply Hkeys, sortedMapKeys_elem.
Qed.

Definition odd_labels : promLabels := {["node" := "n" +:+ dquote; "condition" := "a,b}"]}.

Lemma formatPromLabels_roundtrip_witness :
  ∃ s l, formatPromLabels odd_labels +:+ " 1 2" = "{" +:+ s ∧
    read_labels (length (sortedMapKeys odd_labels)) s = Some (l, " 1 2") ∧ list_to_map l = odd_labels.
Proof.
  apply (formatPromLabels_roundtrip odd_labels " 1 2"); [vm_compute; discriminate|].
  intros k Hk. unfold odd_labels in Hk. apply lookup_insert_is_Some in Hk as [<-|[_ Hk]]; [by apply (bool_decide_unpack _)|].
  apply lookup_singleton_is_Some in Hk as <-. by apply (bool_decide_unpack _).
Defined.

(** ** Exported lines are lines *)

Lemma pretty_go_one_line x s : one_line s → one_line (pretty_N_go x s).
Proof.
  revert s. induction (N.lt_wf_0 x) as [x _ IH]; intros s Hs.
  assert (x = 0 ∨ 0 < x)%N as [->|?] by lia; [by rewrite pretty_N_go_0|].
  rewrite pretty_N_go_step by done. apply IH; [by apply N.div_lt|]. constructor; [|done].
  unfold pretty_N_char. by repeat case_match.
Qed.

Lemma pretty_N_one_line (x : N) : one_line (pretty x).
Proof. unfold pretty, pretty_N. case_decide; [by apply (bool_decide_unpack _)|]. apply pretty_go_one_line. constructor. Qed.

Lemma itoa_one_line z : one_line (itoa z).
Proof.
  unfold itoa, pretty, pretty_Z. destruct z as [|p|p].
  - by apply (bool_decide_unpack _).
  - apply pretty_N_one_line.
  - apply one_line_app. split; [by apply (bool_decide_unpack _)|apply pretty_N_one_line].
Qed.

Definition one_line_keys (labels : promLabels) : Prop := ∀ k, is_Some (labels !! k) → one_line k.

Lemma one_line_keys_empty : one_line_keys ∅.
Proof. by intros k [? ?]. Qed.

Lemma one_line_keys_insert k v labels : one_line k → one_line_keys labels → one_line_keys (<[k := v]> labels).
Proof. intros Hk Hl k' [<-|[_ Hk']]%lookup_insert_is_Some; [done|by apply Hl]. Qed.

Lemma one_line_keys_singleton k v : one_line k → one_line_keys {[k := v]}.
Proof. by intros Hk k' <-%lookup_singleton_is_Some. Qed.

Lemma one_line_keys_merge base extra : one_line_keys base → one_line_keys extra → one_line_keys (mergeLabels base extra).
Proof. intros Hb He k [Hk|Hk]%lookup_union_is_Some; [by apply He|by apply Hb]. Qed.

Create HintDb prom.
#[local] Hint Resolve one_line_keys_empty one_line_keys_insert one_line_keys_singleton one_line_keys_merge : prom.
#[local] Hint Extern 1 (one_line _) => (by apply (bool_decide_unpack _)) : prom.

Lemma formatPromLabels_one_line labels : one_line_keys labels → one_line (formatPromLabels labels).
Proof.
  intros Hkeys. unfold formatPromLabels. case_bool_decide; [constructor|]. rewrite !one_line_app.
  split; [by apply (bool_decide_unpack _)|]. split; [|by apply (bool_decide_unpack _)].
  apply one_line_join; [by apply (bool_decide_unpack _)|]. apply Forall_map, Forall_forall. intros k Hk.
  unfold prom_label. rewrite !one_line_app. split_and!; try by apply (bool_decide_unpack _).
  - by apply Hkeys, sortedMapKeys_elem.
  - apply escape_one_line.
Qed.

Section lines.
Context `{HQuantity Q, PromLib Q}.
(** What [%g] prints of a float has no line break. *)
Hypothesis format_g_one_line : ∀ v : spec_float, one_line (format_g (Q := Q) v).

Lemma promLine_one_line name labels v ts : one_line name → one_line_keys labels →
  one_line (promLine (Q := Q) name labels v ts).
Proof.
  intros Hn Hl. unfold promLine. rewrite !one_line_app. split_and!; try done.
  - by apply formatPromLabels_one_line.
  - by apply (bool_decide_unpack _).
  - unfold formatFloat. destruct (SFeqb _ _); [apply itoa_one_line|apply format_g_one_line].
  - by apply (bool_decide_unpack _).
  - apply itoa_one_line.
Qed.

(** Lines whose names and keys are literals. *)
Ltac literal_lines :=
  repeat match goal with
  | |- Forall one_line (_ :: _) => apply Forall_cons; split
  | |- Forall one_line [] => apply Forall_nil_2
  | |- one_line _ => apply promLine_one_line; [solve [assumption|by apply (bool_decide_unpack _)]|auto 6 with prom]
  end.

Lemma unless_zero_lines q l : Forall one_line l → Forall one_line (unless_zero q l).
Proof. unfold unless_zero. by destruct (hq_IsZero q). Qed.

Lemma resource_line_lines metric labels val ts v : one_line metric → one_line_keys labels →
  Forall one_line (resource_line (Q := Q) metric labels val ts v).
Proof. intros ? ?. destruct v; cbn; [literal_lines|constructor]. Qed.

Lemma node_resources_lines name labels (node : HNode Q) ts : one_line_keys labels →
  Forall one_line (node_resources name labels node ts).
Proof.
  intros Hl. unfold node_resources. rewrite !Forall_app.
  assert (one_line_keys (core_labels name)) by (unfold core_labels; auto 6 with prom).
  assert (one_line_keys (byte_labels name)) by (unfold byte_labels; auto 6 with prom).
  split_and!; apply unless_zero_lines; literal_lines.
Qed.

Lemma node_lines_lines raw ts name info : Forall one_line (node_lines (Q := Q) raw ts name info).
Proof.
  unfold node_lines. rewrite !Forall_app. split_and!.
  - destruct (nonempty_str _); [literal_lines|constructor].
  - destruct (raw !! name); [|constructor]. apply node_resources_lines. auto with prom.
  - destruct (ni_UsageCPUMillicores info); [literal_lines|constructor].
  - destruct (ni_UsageMemoryBytes info); [literal_lines|constructor].
  - apply Forall_map, Forall_forall. intros c _. apply promLine_one_line; auto 6 with prom.
Qed.

Lemma container_lines_lines ts pod c : Forall one_line (container_lines (Q := Q) ts pod c).
Proof.
  unfold container_lines. set (labels := {["namespace" := _; "pod" := _; "container" := _]}).
  assert (one_line_keys labels) by (unfold labels; auto 7 with prom).
  assert (one_line_keys (if nonempty_str (pi_NodeName pod) then <["node" := pi_NodeName pod]> labels else labels))
    by (destruct (nonempty_str _); auto with prom).
  rewrite !Forall_app. split_and!; [literal_lines|apply resource_line_lines; auto 6 with prom..].
Qed.

Lemma concat_lines {A} (f : A → list string) l : (∀ x, Forall one_line (f x)) → Forall one_line (concat (map f l)).
Proof. intros Hf. apply Forall_concat, Forall_map, Forall_forall. intros x _. apply Hf. Qed.

(** Every line of the export is one line: no text that comes from the cluster (names,
    condition types, roles, resource names) can break a line in two and so
    inject a metric of its own; line breaks and carriage returns occur only escaped. *)
Theorem PrometheusExport_lines (r : Report Q) : Forall one_line (PrometheusExport r).
Proof.
  unfold PrometheusExport. rewrite !Forall_app. split_and!.
  - unfold exportNodes. apply concat_lines. intros name. destruct (_ !! name); [apply node_lines_lines|constructor].
  - unfold exportDeployments, by_namespace. do 2 (apply concat_lines; intros ?). unfold deployment_lines. literal_lines.
  - unfold exportPods, by_namespace. do 2 (apply concat_lines; intros ?). unfold pod_lines. rewrite Forall_app. split.
    + apply Forall_map, Forall_forall. intros ph _. apply promLine_one_line; auto 6 with prom.
    + apply concat_lines, container_lines_lines.
  - unfold exportQuotas. apply concat_lines. intros q. unfold quota_lines.
    rewrite Forall_app. split; apply Forall_map, Forall_forall; intros; apply promLine_one_line; auto 6 with prom.
  - unfold exportHealth. constructor; [apply promLine_one_line; auto with prom|].
    apply Forall_map, Forall_forall. intros. apply promLine_one_line; auto with prom.
Qed.
End lines.

(** ** The table *)

(** A truncated text is at most as long as asked. *)
Theorem truncate_length s n : (3 <= n)%nat → (String.length (truncate s n) <= n)%nat.
Proof.
  intros Hn. unfold truncate. destruct (String.length (TrimSpace s) <=? n)%nat eqn:Hl; [by apply Nat.leb_le|].
  apply Nat.leb_gt in Hl.
  rewrite <-chars_length.
  rewrite chars_app, length_app. cbn [chars String.list_ascii_of_string length].
  assert (∀ m t, (length (chars (String.substring 0 m t)) <= m)%nat) as Hsub.
  { intros m t. revert m. induction t as [|a t IH]; intros [|m]; cbn; try lia. specialize (IH m). unfold chars in IH. lia. }
  specialize (Hsub (n - 3) (TrimSpace s)). lia.
Qed.

Lemma truncate_length_witness : (3 <= 8)%nat ∧ (String.length (truncate " a long message " 8) <= 8)%nat.
Proof. split; [lia|]. apply (truncate_length " a long message " 8). lia. Defined.

Section table.
Context `{Nested, NestedWrite, NestedMaps, HQuantity Q, HealthLib}.

(** The error of the section that a key names. *)
Definition section_error (r : Report Q) (key : string) : string := default "" (sectionErrors r !! key).

Lemma healthy_iff (r : Report Q) : Healthy r = true ↔ ∀ key, key ∈ sectionOrder → section_error r key = "".
Proof.
  unfold Healthy. rewrite !andb_true_iff, !String.eqb_eq. split.
  - intros [[[[[[[H1' H2'] H3'] H4'] H5'] H6'] H7'] H8'] key. unfold sectionOrder.
    rewrite !elem_of_cons. intros [-> |[-> |[-> |[-> |[-> |[-> |[-> |[-> |Hnil]]]]]]]]; [done..|by apply elem_of_nil in Hnil].
  - intros Hall. split_and!; [apply (Hall SectionNodes)|apply (Hall SectionDeployments)|apply (Hall SectionPods)|
      apply (Hall SectionEvents)|apply (Hall SectionQuotas)|apply (Hall SectionOperator)|apply (Hall SectionDSCI)|
      apply (Hall SectionDSC)]; by apply (bool_decide_unpack _).
Qed.

Lemma status_ok_iff err : sectionStatus err = statusOK ↔ err = "".
Proof. unfold sectionStatus. by destruct (String.eqb_spec err ""). Qed.

Lemma status_of_key (r : Report Q) key : key ∈ sectionOrder →
  sectionStatusForKey r key = sectionStatus (section_error r key).
Proof.
  unfold sectionOrder. rewrite !elem_of_cons.
  intros [-> |[-> |[-> |[-> |[-> |[-> |[-> |[-> |Hnil]]]]]]]]; [done..|by apply elem_of_nil in Hnil].
Qed.

Definition rows_ok (r : Report Q) : Prop := ∀ row, row ∈ sectionRows r → row_Status row = statusOK.

Lemma rows_ok_iff (r : Report Q) : rows_ok r ↔
  ∀ key, key ∈ sectionOrder → SectionsRun r = [] ∨ key ∈ SectionsRun r → section_error r key = "".
Proof.
  assert (sectionOrder = sectionDisplayOrder.*1) as Horder by done. unfold rows_ok, sectionRows, shown. split.
  - intros Hall key Hkey Hrun. apply status_ok_iff. rewrite <-status_of_key by done. rewrite Horder in Hkey.
    apply list_elem_of_fmap in Hkey as (s & -> & Hs). apply (Hall (MkRow s.2 (sectionStatusForKey r s.1) (sectionSummaryForKey r s.1))).
    apply list_elem_of_In, in_map_iff. exists s. split; [done|]. apply list_elem_of_In, list_elem_of_filter.
    split; [|done]. by rewrite orb_true_iff, !bool_decide_eq_true.
  - intros Hall row (s & <- & [Hs Hin]%list_elem_of_In%list_elem_of_filter)%list_elem_of_In%in_map_iff. cbn.
    assert (s.1 ∈ sectionOrder) as Hkey by (rewrite Horder; by apply list_elem_of_fmap_2).
    rewrite status_of_key by done. apply status_ok_iff, Hall; [done|].
    by rewrite orb_true_iff, !bool_decide_eq_true in Hs.
Qed.

Lemma selected_error {T} run_ name (zero : T) (p : prog (HealthE Q) (SectionResult T)) tr :
  wp (selected run_ name zero p) tr (λ _ s, name ∉ run_ → Error s = "").
Proof.
  unfold selected. case_bool_decide; [|by apply wp_ret]. eapply wp_mono; [|apply wp_prefix]. by intros.
Qed.

Lemma Run_unselected fuel cfg : wp (Run (Q := Q) fuel cfg) [] (λ _ res, ∀ r, res = Some (Ok r) →
  SectionsRun r = filter (λ name, name ∈ sectionsToRun cfg) sectionOrder ∧
  ∀ key, key ∈ sectionOrder → key ∉ sectionsToRun cfg → section_error r key = "").
Proof.
  unfold Run. destruct (negb _); [by apply wp_ret|]. apply wp_bind, wp_call. intros at_.
  do 3 (apply wp_bind; eapply wp_mono; [|apply selected_error]; intros ? ? ?).
  apply wp_bind. eapply (wp_mono _ _ (λ _ s, ∀ s', s = Some s' → SectionEvents ∉ sectionsToRun cfg → Error s' = "")).
  2: { unfold selected_events. case_bool_decide; [|apply wp_ret; by intros ? [= <-]].
    eapply wp_mono; [|apply wp_prefix]. by intros. }
  intros ? [events|] Hev; [|by apply wp_ret]. specialize (Hev events eq_refl).
  do 4 (apply wp_bind; eapply wp_mono; [|apply selected_error]; intros ? ? ?).
  apply wp_ret. intros r [= <-]. split; [done|]. intros key.
  unfold sectionOrder. rewrite !elem_of_cons.
  intros [-> |[-> |[-> |[-> |[-> |[-> |[-> |[-> |Hnil]]]]]]]]; [assumption..|by apply elem_of_nil in Hnil].
Qed.

(** C36: the table never contradicts the verdict: in a report of a run, whatever sections were chosen
    and whatever the API server answered, every row that is shown says OK if and only if the report is healthy;
    a failed section is always among the rows. *)
Theorem table_agrees_with_verdict {W} (h : ∀ X, HealthE Q X → W → X * W) fuel cfg w w' tr r :
  run h (Run fuel cfg) w [] = (Some (Ok r), w', tr) → rows_ok r ↔ Healthy r = true.
Proof.
  intros Hrun. pose proof (run_wp h _ w _ _ (Run_unselected fuel cfg)) as Hun. rewrite Hrun in Hun.
  destruct (Hun r eq_refl) as [Hrunset Hzero]. rewrite healthy_iff, rows_ok_iff. split; [|by auto].
  intros Hall key Hkey. destruct (decide (key ∈ sectionsToRun cfg)) as [Hin|]; [|by apply Hzero].
  apply Hall; [done|]. right. rewrite Hrunset. by apply list_elem_of_filter.
Qed.

(** When no name in the list of sections is a section or a layer, nothing is collected at all, and the
    report is healthy with eight rows, all OK. *)
Theorem unknown_sections_healthy fuel cfg :
  cfg_Client cfg = true → cfg_OnlySections cfg ≠ [] →
  (∀ name, name ∈ cfg_OnlySections cfg → name ∉ sectionOrder ∧ layerSections !! name = None) →
  wp (Run (Q := Q) fuel cfg) [] (λ tr res, ∃ at_ r, tr = [Call HNow at_] ∧ res = Some (Ok r) ∧
    Healthy r = true ∧ length (sectionRows r) = 8%nat ∧ rows_ok r).
Proof.
  intros Hc Hne Hnames.
  assert (∀ name, name ∈ sectionOrder → name ∉ sectionsToRun cfg) as Hnone.
  { intros name Hname. unfold sectionsToRun. destruct (cfg_OnlySections cfg) as [|n l]; [done|].
    unfold sliceToSet. rewrite elem_of_list_to_set. unfold expandSectionList.
    intros (s & Hs & Hin)%elem_of_concat. apply list_elem_of_fmap in Hin as (n' & -> & Hn').
    destruct (Hnames n' Hn') as [Hnot Hl]. rewrite Hl in Hs. by apply list_elem_of_singleton in Hs as ->. }
  assert (∀ name, name ∈ sectionOrder → bool_decide (name ∈ sectionsToRun cfg) = false) as Hfalse
    by (intros; apply bool_decide_false; auto).
  unfold Run. rewrite Hc. cbn [negb]. apply wp_bind, wp_call. intros at_.
  unfold selected, selected_events. rewrite !Hfalse by (by apply (bool_decide_unpack _)).
  match goal with |- wp ?p ?tr ?Φ => change (Φ tr (Some (Ok (MkReport at_
    (filter (λ name, name ∈ sectionsToRun cfg) sectionOrder) (MkSection "" (MkNodes [] [])) (MkSection "" (MkDeployments ∅ []))
    (MkSection "" (MkPods ∅ [])) (MkSection "" (MkEvents [] [])) (MkSection "" (MkQuotas ∅ []))
    (MkSection "" (MkOperator None [] [] None)) (MkSection "" no_cr) (MkSection "" no_cr))))) end.
  cbv beta.
  assert (filter (λ name, name ∈ sectionsToRun cfg) sectionOrder = []) as ->.
  { generalize sectionOrder Hnone. intros order. induction order as [|n order IH]; intros Hn; [done|].
    rewrite filter_cons_False by (apply Hn; by left). apply IH. intros ? ?. apply Hn. by right. }
  eexists at_, _. split_and!; [done..|]. apply rows_ok_iff. intros key Hkey _.
  revert key Hkey. by apply healthy_iff.
Qed.
End table.

(** ** Concrete reports *)

Definition prom_lib : PromLib Z := {|
  format_g := λ _, "0.5";
  int64_unspecified := λ _, 0%Z;
  hq_AsApproximateFloat64 := float64;
|}.

Definition nasty_node : HNode Z :=
  MkHNode ("n" +:+ newline +:+ "up 0") ∅ [MkSummary "Ready" "True" ""] {["cpu" := 2%Z]} ∅.

Definition nasty_report : Report Z :=
  MkReport 1700000000123456789 [SectionNodes]
    (MkSection "" (MkNodes [MkNodeInfo (hn_Name nasty_node) "" (hn_Conditions nasty_node) "" "" "" (Some 1500%Z) None] [nasty_node]))
    (MkSection "" (MkDeployments ∅ [])) (MkSection "" (MkPods ∅ [])) (MkSection "" (MkEvents [] []))
    (MkSection "" (MkQuotas ∅ [])) (MkSection "" (MkOperator None [] [] None))
    (MkSection "" no_cr) (MkSection "" no_cr).

Lemma PrometheusExport_lines_witness :
  (∀ v, one_line (format_g (PromLib := prom_lib) v)) ∧
  Forall one_line (@PrometheusExport Z health_quantity prom_lib nasty_report) ∧
  length (@PrometheusExport Z health_quantity prom_lib nasty_report) = 12%nat.
Proof.
  assert (∀ v, one_line (format_g (PromLib := prom_lib) v)) as Hg by (intros; by apply (bool_decide_unpack _)).
  split; [exact Hg|]. split; [exact (@PrometheusExport_lines Z health_quantity prom_lib Hg nasty_report)|by vm_compute].
Defined.

(** The time stamp of a line is in milliseconds; 1500 millicores are not an integral number of cores. *)
Example exported_lines :
  take 2 (@PrometheusExport Z health_quantity prom_lib nasty_report) =
    ["kube_node_status_allocatable{node=" +:+ dquote +:+ "n" +:+ backslash +:+ "nup 0" +:+ dquote +:+ ",resource=" +:+
       dquote +:+ "cpu" +:+ dquote +:+ ",unit=" +:+ dquote +:+ "core" +:+ dquote +:+ "} 2 1700000000123";
     "node_cpu_usage_cores{node=" +:+ dquote +:+ "n" +:+ backslash +:+ "nup 0" +:+ dquote +:+ "} 0.5 1700000000123"].
Proof. by vm_compute. Qed.

Lemma table_agrees_with_verdict_witness : ∃ r tr,
  small_run (one_node "True") ready_pod = (Some (Ok r), tt, tr) ∧ Healthy r = false ∧
  (rows_ok r ↔ Healthy r = true).
Proof.
  eexists _, _. split; [reflexivity|]. split; [vm_compute; reflexivity|].
  exact (@table_agrees_with_verdict nested_documented nested_write_documented nested_maps_documented Z health_quantity
    health_lib unit (small_cluster (one_node "True") ready_pod) 1 small_config tt tt _ _ eq_refl).
Defined.
