(* ===== verification/Params.v ===== *)
(** * Params: the params.env file of a component's manifests

    Models [pkg/deploy/envParams.go]. The file is read and replaced through [FileE]; a range
    over a Go map visits the entries in the order [range_map], of which only the law
    [range_map_perm] is known; [os.Getenv] is the parameter [Getenv]. *)

From S2P Require Import Prelude Effects ModuleBase.

(** ** Definitions *)

Definition NL : Ascii.ascii := Ascii.ascii_of_nat 10.
Definition CR : Ascii.ascii := Ascii.ascii_of_nat 13.
Definition EQ : Ascii.ascii := Ascii.ascii_of_nat 61.

(** [strings.Cut(s, sep)] for a separator of one byte. *)
Fixpoint cut (sep : Ascii.ascii) (s : string) : option (string * string) :=
  match s with
  | EmptyString => None
  | String a s =>
      if Ascii.eqb a sep then Some ("", s)
      else match cut sep s with
           | Some (before, after) => Some (String a before, after)
           | None => None
           end
  end.

(** The lines of a text without their newlines; the last one may lack it. *)
Fixpoint raw_lines (s : string) : list string :=
  match s with
  | EmptyString => []
  | String a s =>
      if Ascii.eqb a NL then "" :: raw_lines s
      else match raw_lines s with
           | [] => [String a ""]
           | line :: rest => String a line :: rest
           end
  end.

(** What [bufio.ScanLines] drops at the end of a line. *)
Fixpoint dropCR (s : string) : string :=
  match s with
  | EmptyString => ""
  | String a EmptyString => if Ascii.eqb a CR then "" else s
  | String a s => String a (dropCR s)
  end.

(** [bufio.MaxScanTokenSize]. *)
Definition MaxScanTokenSize : Z := 65536.

Definition ErrTooLong : goerr := errorf "bufio.Scanner: token too long".

(** The tokens of a [bufio.Scanner], unless a line does not fit its buffer. *)
Definition scan_lines (s : string) : result (list string) :=
  let lines := raw_lines s in
  if existsb (λ l, MaxScanTokenSize <=? Z.of_nat (String.length l))%Z lines then Err ErrTooLong
  else Ok (dropCR <$> lines).

Definition parse_line (params : gmap string string) (line : string) : gmap string string :=
  match cut EQ line with
  | Some (key, val) => <[key := val]> params
  | None => params
  end.

Inductive FileE : Type → Type :=
| ReadFile (name : string) : FileE (result string)
| CreateTemp (dir pattern : string) : FileE (result string)
(** [inr]: the error came from the last flush, [inl]: from an earlier write. *)
| WriteTemp (name content : string) : FileE (option (goerr + goerr))
| RenameFile (old new : string) : FileE (option goerr)
| RemoveFile (name : string) : FileE (option goerr).

(** The loop over the tokens. *)
Definition parse_content (content : string) : result (gmap string string) :=
  match scan_lines content with
  | Err err => Err err
  | Ok lines => Ok (foldl parse_line ∅ lines)
  end.

Definition parseParams (fileName : string) : prog FileE (result (gmap string string)) :=
  paramsEnv ← trigger (ReadFile fileName);
  match paramsEnv with
  | Err err => mret (Err err)
  | Ok content =>
      mret (parse_content content)
  end.

(** The map and the number of updates. *)
Definition updateMap (m : gmap string string) (key val : string) : gmap string string * bool :=
  let old := default "" (m !! key) in
  if String.eqb old val then (m, false) else (<[key := val]> m, true).

(** [updated |= updateMap(...)]. *)
Definition update_entry (acc : gmap string string * bool) (key val : string) : gmap string string * bool :=
  let '(m, changed) := updateMap acc.1 key val in (m, acc.2 || changed).

Section params.
Variable range_map : gmap string string → list (string * string).
Variable Getenv : string → string.

Definition param_line (kv : string * string) : string := kv.1 +:+ "=" +:+ kv.2 +:+ String NL "".

(** The bytes that are written. *)
Definition params_text (params : gmap string string) : string := String.concat "" (param_line <$> range_map params).

Definition writeParamsToTmp (params : gmap string string) (tmpDir : string) : prog FileE (result string) :=
  tmp ← trigger (CreateTemp tmpDir "params.env-");
  match tmp with
  | Err err => mret (Err err)
  | Ok name =>
      err ← trigger (WriteTemp name (params_text params));
      mret (match err with
            | None => Ok name
            | Some (inl err) => Err err
            | Some (inr err) => Err (wrapf "failed to write to file" err)
            end)
  end.

(** One key of the file: its image, when the environment has one. *)
Definition update_image (imageParamsMap : gmap string string) (acc : gmap string string * bool) (key : string)
    : gmap string string * bool :=
  let relatedImageValue := Getenv (default "" (imageParamsMap !! key)) in
  if String.eqb relatedImageValue "" then acc else update_entry acc key relatedImageValue.

Definition update_extra (acc : gmap string string * bool) (extraParamsMap : gmap string string)
    : gmap string string * bool :=
  foldl (λ acc kv, update_entry acc kv.1 kv.2) acc (range_map extraParamsMap).

(** [paramsEnvMap] and whether it changed. *)
Definition updated_params (imageParamsMap : gmap string string) (extraParamsMaps : list (gmap string string))
    (params : gmap string string) : gmap string string * bool :=
  foldl update_extra (foldl (update_image imageParamsMap) (params, false) (range_map params).*1) extraParamsMaps.

Definition ApplyParams (componentPath file : string) (imageParamsMap : gmap string string)
    (extraParamsMaps : list (gmap string string)) : prog FileE (option goerr) :=
  let paramsFile := filepath_Join [componentPath; file] in
  paramsEnvMap ← parseParams paramsFile;
  match paramsEnvMap with
  | Err err => if err_is TagNotExist err then mret None else mret (Some err)
  | Ok paramsEnvMap =>
      let '(paramsEnvMap, updated) := updated_params imageParamsMap extraParamsMaps paramsEnvMap in
      if negb updated then mret None
      else
        tmp ← writeParamsToTmp paramsEnvMap componentPath;
        match tmp with
        | Err err => mret (Some err)
        | Ok tmp =>
            err ← trigger (RenameFile tmp paramsFile);
            match err with
            | None => mret None
            | Some err =>
                trigger (RemoveFile tmp) ;;
                mret (Some (wrapf ("failed rename " +:+ tmp +:+ " to " +:+ paramsFile) err))
            end
        end
  end.
End params.

(** ** The text of a map *)

Fixpoint has_byte (b : Ascii.ascii) (s : string) : bool :=
  match s with
  | EmptyString => false
  | String a s => Ascii.eqb a b || has_byte b s
  end.

Fixpoint ends_with (b : Ascii.ascii) (s : string) : bool :=
  match s with
  | EmptyString => false
  | String a EmptyString => Ascii.eqb a b
  | String _ s => ends_with b s
  end.

(** An entry that the format can carry. *)
Definition entry_ok (kv : string * string) : Prop :=
  has_byte NL kv.1 = false ∧ has_byte EQ kv.1 = false ∧ has_byte NL kv.2 = false ∧
  ends_with CR kv.2 = false ∧ (Z.of_nat (String.length kv.1 + String.length kv.2) < MaxScanTokenSize - 1)%Z.

#[export] Instance entry_ok_dec kv : Decision (entry_ok kv).
Proof. unfold entry_ok. apply _. Defined.

(** The line without its newline. *)
Definition entry_text (kv : string * string) : string := kv.1 +:+ String EQ kv.2.

Lemma raw_lines_app line rest :
  has_byte NL line = false → raw_lines ((line +:+ String NL "") +:+ rest) = line :: raw_lines rest.
Proof.
  induction line as [|a line IH]; [done|]. simpl. intros [Ha Hl]%orb_false_elim. by rewrite Ha, IH.
Qed.

Lemma cut_app key val : has_byte EQ key = false → cut EQ (key +:+ String EQ val) = Some (key, val).
Proof.
  induction key as [|a key IH]; [done|]. simpl. intros [Ha Hk]%orb_false_elim. by rewrite Ha, IH.
Qed.

Lemma parse_entry (m : gmap string string) kv : entry_ok kv → parse_line m (entry_text kv) = <[kv.1 := kv.2]> m.
Proof. intros (_ & Heq & _). unfold parse_line, entry_text. by rewrite cut_app. Qed.

Lemma has_byte_app b s1 s2 : has_byte b (s1 +:+ s2) = has_byte b s1 || has_byte b s2.
Proof. induction s1 as [|a s1 IH]; [done|]. simpl. by rewrite IH, orb_assoc. Qed.

Lemma dropCR_id s : ends_with CR s = false → dropCR s = s.
Proof.
  induction s as [|a s IH]; [done|]. destruct s as [|b s]; cbn in *; [by intros ->|].
  intros Hs. f_equal. by apply IH.
Qed.

Lemma ends_with_app b s1 s2 : s2 ≠ "" → ends_with b (s1 +:+ s2) = ends_with b s2.
Proof.
  intros Hs2. induction s1 as [|a s1 IH]; [done|]. simpl.
  destruct (s1 +:+ s2) as [|c s] eqn:Hs; [by destruct s1, s2|]. exact IH.
Qed.

Lemma entry_text_ends kv : entry_ok kv → ends_with CR (entry_text kv) = false.
Proof.
  intros (_ & _ & _ & Hcr & _). unfold entry_text. rewrite ends_with_app by done.
  destruct (kv.2) as [|a s]; [done|exact Hcr].
Qed.

Lemma entry_text_lines kv : entry_ok kv → has_byte NL (entry_text kv) = false.
Proof. intros (Hk & _ & Hv & _). unfold entry_text. rewrite has_byte_app, Hk. exact Hv. Qed.

Lemma entry_text_length kv : String.length (entry_text kv) = (String.length kv.1 + S (String.length kv.2))%nat.
Proof. unfold entry_text. by rewrite length_append. Qed.

Lemma param_line_text kv : param_line kv = entry_text kv +:+ String NL "".
Proof. unfold param_line, entry_text. by rewrite !append_assoc. Qed.

Lemma concat_cons s l : String.concat "" (s :: l) = s +:+ String.concat "" l.
Proof. destruct l; cbn; [by rewrite String_append_empty_r|done]. Qed.

Lemma raw_lines_text (l : list (string * string)) :
  Forall entry_ok l → raw_lines (String.concat "" (param_line <$> l)) = entry_text <$> l.
Proof.
  induction 1 as [|kv l Hkv _ IH]; [done|]. cbn [fmap list_fmap].
  rewrite concat_cons, param_line_text, raw_lines_app by (by apply entry_text_lines).
  by rewrite IH.
Qed.

Lemma scan_text (l : list (string * string)) :
  Forall entry_ok l → scan_lines (String.concat "" (param_line <$> l)) = Ok (entry_text <$> l).
Proof.
  intros Hl. unfold scan_lines. rewrite raw_lines_text by done.
  assert (existsb (λ s, MaxScanTokenSize <=? Z.of_nat (String.length s))%Z (entry_text <$> l) = false) as ->.
  { induction Hl as [|kv l (_ & _ & _ & _ & Hlen) _ IH]; [done|]. cbn. rewrite IH, entry_text_length.
    rewrite (proj2 (Z.leb_gt _ _)) by lia. done. }
  f_equal. induction Hl as [|kv l Hkv _ IH]; [done|]. cbn. rewrite IH. f_equal.
  by apply dropCR_id, entry_text_ends.
Qed.

Lemma parse_entries (l : list (string * string)) m :
  Forall entry_ok l → foldl parse_line m (entry_text <$> l) = foldl (λ m kv, <[kv.1 := kv.2]> m) m l.
Proof.
  intros Hl. revert m. induction Hl as [|kv l Hkv _ IH]; intros m; [done|]. simpl.
  by rewrite parse_entry, IH.
Qed.

Section range.
Context (range_map : gmap string string → list (string * string)).
Context (range_map_perm : ∀ m, range_map m ≡ₚ map_to_list m).

Lemma range_map_NoDup m : NoDup (range_map m).*1.
Proof. rewrite range_map_perm. apply NoDup_fst_map_to_list. Qed.

Lemma elem_of_range_map m k v : (k, v) ∈ range_map m ↔ m !! k = Some v.
Proof. by rewrite range_map_perm, elem_of_map_to_list. Qed.

(** Inserting entries with distinct keys, in any order. *)
Lemma foldl_insert (l : list (string * string)) (m : gmap string string) :
  NoDup l.*1 → foldl (λ m kv, <[kv.1 := kv.2]> m) m l = list_to_map (M := gmap string string) l ∪ m.
Proof.
  revert m. induction l as [|[k v] l IH]; intros m Hnd; cbn; [by rewrite (left_id_L ∅ (∪))|].
  apply NoDup_cons in Hnd as [Hk Hnd]. rewrite IH by done.
  rewrite <-insert_union_l, <-insert_union_r; [done|]. by apply not_elem_of_list_to_map_1.
Qed.

(** What is written is read back: parsing the text of a map gives the map, in whatever
    order it is written, as long as no key holds a newline or an equals sign, no value holds
    a newline or ends with a carriage return, and every line fits the scanner's buffer. *)
Theorem params_text_roundtrip (m : gmap string string)
    (Hok : map_Forall (λ k v, entry_ok (k, v)) m) :
  parse_content (params_text range_map m) = Ok m.
Proof using range_map_perm.
  unfold parse_content, params_text.
  assert (Forall entry_ok (range_map m)) as Hl.
  { apply Forall_forall. intros [k v] Hkv%elem_of_range_map. by apply Hok. }
  rewrite scan_text, parse_entries, foldl_insert by (done || apply range_map_NoDup). f_equal.
  rewrite (right_id_L ∅ (∪)). rewrite (list_to_map_proper (M := gmap string) _ (map_to_list m)); [|apply range_map_NoDup|apply range_map_perm].
  apply list_to_map_to_list.
Qed.
End range.

(** ** What [ApplyParams] does to the file *)

(** A missing key reads as the empty string. *)
Definition param_get (m : gmap string string) (k : string) : string := default "" (m !! k).

Section apply.
Context (range_map : gmap string string → list (string * string)).
Context (range_map_perm : ∀ m, range_map m ≡ₚ map_to_list m).
Context (Getenv : string → string).
Implicit Types (acc : gmap string string * bool) (extras : list (gmap string string)).

(** The value a key is to have: of the last extra map that has it, else of the environment's
    image for a key of the file, else of the file. *)
Definition wanted (imageParamsMap : gmap string string) extras (params : gmap string string) (k : string) : string :=
  let image := Getenv (param_get imageParamsMap k) in
  let base := if bool_decide (is_Some (params !! k)) && nonempty_str image then image else param_get params k in
  foldl (λ v extra, default v (extra !! k)) base extras.

Lemma update_entry_get acc key val k :
  param_get (update_entry acc key val).1 k = if decide (k = key) then val else param_get acc.1 k.
Proof.
  unfold update_entry, updateMap, param_get. case_decide as Hk; subst.
  - destruct (String.eqb_spec (default "" (acc.1 !! key)) val); simpl; [done|by rewrite lookup_insert_eq].
  - destruct (String.eqb _ val); simpl; [done|by rewrite lookup_insert_ne].
Qed.

Lemma update_entry_dom acc key val k : is_Some (acc.1 !! k) → is_Some ((update_entry acc key val).1 !! k).
Proof.
  unfold update_entry, updateMap. destruct (String.eqb _ val); simpl; [done|].
  destruct (decide (k = key)) as [->|Hk]; [by rewrite lookup_insert_eq|by rewrite lookup_insert_ne].
Qed.

(** Without a change the map is the same. *)
Definition unchanged acc acc' : Prop := acc'.2 = false → acc.2 = false ∧ acc'.1 = acc.1.

Lemma update_entry_unchanged acc key val : unchanged acc (update_entry acc key val).
Proof.
  unfold unchanged, update_entry, updateMap. destruct (String.eqb _ val); simpl; [by rewrite orb_false_r|].
  by rewrite orb_true_r.
Qed.

(** A loop of updates: what it keeps, and the values it leaves. *)
Definition grows acc acc' : Prop := unchanged acc acc' ∧ ∀ k, is_Some (acc.1 !! k) → is_Some (acc'.1 !! k).

Lemma foldl_grows {B} (f : gmap string string * bool → B → gmap string string * bool) (l : list B) acc :
  (∀ acc b, grows acc (f acc b)) → grows acc (foldl f acc l).
Proof.
  intros Hf. revert acc. induction l as [|b l IH]; intros acc; simpl; [split; [|done]; by intros ?|].
  destruct (Hf acc b) as [Hu Hd], (IH (f acc b)) as [Hu' Hd']. split; [|auto].
  intros [Hc ->]%Hu'. by apply Hu.
Qed.

Lemma update_entry_grows acc key val : grows acc (update_entry acc key val).
Proof. split; [apply update_entry_unchanged|]. intros k. apply update_entry_dom. Qed.

Lemma update_image_grows images acc key : grows acc (update_image Getenv images acc key).
Proof.
  unfold update_image. destruct (String.eqb _ ""); [|apply update_entry_grows].
  split; [by intros ?|done].
Qed.

Lemma update_extra_grows acc extra : grows acc (update_extra range_map acc extra).
Proof. apply foldl_grows. intros acc' [k v]. apply update_entry_grows. Qed.

Lemma foldl_images_get images (l : list string) acc k :
  param_get (foldl (update_image Getenv images) acc l).1 k =
  if bool_decide (k ∈ l) && nonempty_str (Getenv (param_get images k))
  then Getenv (param_get images k) else param_get acc.1 k.
Proof.
  revert acc. induction l as [|key l IH]; intros acc; simpl; [done|]. rewrite IH.
  unfold update_image, nonempty_str. change (default "" (images !! key)) with (param_get images key).
  destruct (decide (k = key)) as [->|Hk].
  - rewrite (bool_decide_eq_true_2 (key ∈ key :: l)) by left.
    destruct (String.eqb _ "") eqn:He; simpl; [by rewrite andb_false_r|].
    rewrite andb_true_r. case_bool_decide; [done|]. rewrite update_entry_get. by rewrite decide_True.
  - rewrite (bool_decide_ext (k ∈ key :: l) (k ∈ l)) by (rewrite elem_of_cons; naive_solver).
    destruct (bool_decide (k ∈ l) && _); [done|]. destruct (String.eqb _ ""); [done|].
    rewrite update_entry_get. by rewrite decide_False.
Qed.

Lemma foldl_entries_get (l : list (string * string)) acc k :
  NoDup l.*1 →
  param_get (foldl (λ acc kv, update_entry acc kv.1 kv.2) acc l).1 k =
  default (param_get acc.1 k) (list_to_map (M := gmap string string) l !! k).
Proof.
  revert acc. induction l as [|[key v] l IH]; intros acc; [done|].
  intros [Hkey Hnd]%NoDup_cons. cbn. rewrite IH by done. rewrite update_entry_get.
  destruct (decide (k = key)) as [->|Hk].
  - rewrite lookup_insert_eq. simpl in Hkey. by rewrite (not_elem_of_list_to_map_1 l key Hkey).
  - by rewrite lookup_insert_ne.
Qed.

Lemma update_extra_get acc extra k :
  param_get (update_extra range_map acc extra).1 k = default (param_get acc.1 k) (extra !! k).
Proof using range_map_perm.
  unfold update_extra. rewrite foldl_entries_get by (by apply range_map_NoDup).
  rewrite (list_to_map_proper (M := gmap string) _ (map_to_list extra));
    [|by apply range_map_NoDup|apply range_map_perm].
  by rewrite list_to_map_to_list.
Qed.

Lemma updated_params_get images extras params k :
  param_get (updated_params range_map Getenv images extras params).1 k = wanted images extras params k.
Proof using range_map_perm.
  unfold updated_params, wanted.
  assert (∀ acc, param_get (foldl (update_extra range_map) acc extras).1 k =
            foldl (λ v extra, default v (extra !! k)) (param_get acc.1 k) extras) as ->.
  { induction extras as [|extra extras IH]; intros acc; simpl; [done|]. by rewrite IH, update_extra_get. }
  f_equal. rewrite foldl_images_get. rewrite (bool_decide_ext _ (is_Some (params !! k))); [done|].
  rewrite list_elem_of_fmap. split.
  - intros ([k' v] & -> & Hin). apply elem_of_range_map in Hin; [|done]. eauto.
  - intros [v Hv]. exists (k, v). by rewrite elem_of_range_map.
Qed.

Lemma updated_params_grows images extras params :
  grows (params, false) (updated_params range_map Getenv images extras params).
Proof.
  unfold updated_params. pose proof (foldl_grows (update_image Getenv images) (range_map params).*1 (params, false)
    (update_image_grows images)) as [Hu Hd].
  match goal with |- grows _ (foldl _ ?acc _) => destruct (foldl_grows (update_extra range_map) extras acc update_extra_grows) as [Hu' Hd'] end.
  split; [|auto]. intros [Hc ->]%Hu'. by apply Hu.
Qed.

(** The call that puts the new file in place. *)
Definition replaces (f : string) (c : call FileE) : bool :=
  match c with
  | @Call _ X e x =>
      match e in FileE X return X → bool with
      | RenameFile _ new => λ err, String.eqb new f && negb (bool_decide (is_Some err))
      | _ => λ _, false
      end x
  end.

(** The runs: nothing is done, or the whole file is replaced by a renaming, or an error is
    returned and the file was not replaced. *)
Inductive applied (dir f : string) (images : gmap string string) extras : list (call FileE) → option goerr → Prop :=
| applied_missing err :
    err_is TagNotExist err = true → applied dir f images extras [Call (ReadFile f) (Err err)] None
| applied_current content params :
    parse_content content = Ok params → (∀ k, wanted images extras params k = param_get params k) →
    applied dir f images extras [Call (ReadFile f) (Ok content)] None
| applied_replaced content params params' tmp :
    parse_content content = Ok params →
    (∀ k, param_get params' k = wanted images extras params k) →
    (∀ k, is_Some (params !! k) → is_Some (params' !! k)) →
    applied dir f images extras
      [Call (ReadFile f) (Ok content); Call (CreateTemp dir "params.env-") (Ok tmp);
       Call (WriteTemp tmp (params_text range_map params')) None; Call (RenameFile tmp f) None] None
| applied_failed trace err :
    existsb (replaces f) trace = false → applied dir f images extras trace (Some err).

Lemma parse_content_err content err : parse_content content = Err err → err = ErrTooLong.
Proof. unfold parse_content, scan_lines. destruct (existsb _ _); congruence. Qed.

(** Applying parameters leaves the file in a state that holds, for every key, the value
    the last extra map gives, or else the image the environment names for a key of the file,
    or else the value that was there, and it does so only by renaming a completely written
    temporary file over it: an error means the file was not replaced, a missing file is left
    missing, and keys are never lost. *)
Theorem ApplyParams_effect componentPath file images extras :
  wp (ApplyParams range_map Getenv componentPath file images extras) []
    (applied componentPath (filepath_Join [componentPath; file]) images extras).
Proof using range_map_perm.
  unfold ApplyParams, parseParams. set (f := filepath_Join [componentPath; file]).
  apply wp_bind, wp_bind, wp_call. intros [content|err]; apply wp_ret.
  2:{ destruct (err_is TagNotExist err) eqn:He; apply wp_ret; [by apply applied_missing|by apply applied_failed]. }
  destruct (parse_content content) as [params|err] eqn:Hparse.
  2:{ apply parse_content_err in Hparse as ->. apply wp_ret. by apply applied_failed. }
  pose proof (updated_params_get images extras params) as Hget.
  destruct (updated_params_grows images extras params) as [Hsame Hdom].
  destruct (updated_params range_map Getenv images extras params) as [params' updated]. simpl in *.
  destruct updated; simpl.
  2:{ apply (applied_current _ _ _ _ _ params); [done|]. intros k. rewrite <-Hget.
      destruct Hsame as [_ Heq]; [done|]. cbn in Heq. by rewrite Heq. }
  intros [tmp|err]; [|by apply applied_failed]. intros [[err|err]|]; [by apply applied_failed..|].
  intros [err|]; [intros removed|by apply (applied_replaced _ _ _ _ _ params params')].
  apply applied_failed. simpl. by rewrite andb_false_r.
Qed.
End apply.

Definition sample_params : gmap string string :=
  {["odh-controller-image" := "quay.io/opendatahub/controller:v1"; "namespace" := "opendatahub"; "args" := "--a=b"]}.

(** Both maps are written and read; a value may hold an equals sign. *)
Lemma params_text_roundtrip_witness :
  parse_content (params_text map_to_list sample_params) = Ok sample_params.
Proof.
  apply (params_text_roundtrip map_to_list); [done|].
  apply (bool_decide_eq_true_1 (map_Forall (λ k v, entry_ok (k, v)) sample_params)). vm_compute. reflexivity.
Defined.

Lemma ApplyParams_effect_witness :
  wp (ApplyParams map_to_list (λ _, "quay.io/new") "/manifests" "params.env" {["odh-controller-image" := "RELATED"]} []) []
    (applied map_to_list (λ _, "quay.io/new") "/manifests" (filepath_Join ["/manifests"; "params.env"])
      {["odh-controller-image" := "RELATED"]} []).
Proof. apply (ApplyParams_effect map_to_list). done. Defined.
