(* ===== verification/Deploy.v ===== *)
(** * Deploy: manifests rendered with kustomize and applied

    Models [pkg/deploy/deploy.go] and [utils.go], with the plugins they configure
    ([pkg/plugins]) and [ResourceToUnstructured] of [pkg/conversion].

    Kustomize, the YAML library and the API server are outside: rendering, the transformations
    and the client's calls are events of [DeployE]; the pure library functions are the fields
    of [DeployLib]. A resource of the resource map is its kind, its names and its content. *)

From S2P Require Import Prelude Effects Unstructured SharedPlatform ModuleBase.

(** ** Data *)

Definition ODHAppPrefix : string := "app.opendatahub.io".
Definition K8SPartOf : string := "app.kubernetes.io/part-of".
Definition ManagedByODHOperator : string := "opendatahub.io/managed".

(** [labels.ODH.Component]. *)
Definition ODHComponent (name : string) : string := ODHAppPrefix +:+ "/" +:+ name.

(** A resource that kustomize rendered; [kr_Object] is the YAML node. *)
Record KResource := MkKResource {
  kr_Gvk : GroupVersionKind;
  kr_Name : string;
  kr_Namespace : string;
  kr_Object : value_map;
}.

(** An object that was read from the cluster. *)
Record Live := MkLive {
  lv_Gvk : GroupVersionKind;
  lv_Name : string;
  lv_Labels : gmap string string;
  lv_Annotations : gmap string string;
  lv_OwnerReferences : list OwnerReference;
}.

(** A field specification of a kustomize transformer: the kind it applies to (empty: any),
    the path, and whether it is created. *)
Record FieldSpec := MkFieldSpec {
  fs_Group : string;
  fs_Kind : string;
  fs_Path : string;
  fs_CreateIfNotPresent : bool;
}.

Record NamespaceTransformerPlugin := MkNamespacePlugin {
  np_Name : string;
  np_Namespace : string;
  np_FieldSpecs : list FieldSpec;
  np_UnsetOnly : bool;
  np_SetRoleBindingSubjects : string;
}.

Record LabelTransformerPlugin := MkLabelPlugin {
  lp_Labels : gmap string string;
  lp_FieldSpecs : list FieldSpec;
}.

Record AnnotationsTransformerPlugin := MkAnnotationsPlugin {
  ap_Annotations : gmap string string;
  ap_FieldSpecs : list FieldSpec;
}.

Definition CreateSetLabelsPlugin (labels : gmap string string) : LabelTransformerPlugin :=
  MkLabelPlugin labels
    [MkFieldSpec "" "Deployment" "spec/template/metadata/labels" true;
     MkFieldSpec "" "Deployment" "spec/selector/matchLabels" true;
     MkFieldSpec "" "" "metadata/labels" true].

Definition CreateAddLabelsPlugin (componentName : string) : LabelTransformerPlugin :=
  CreateSetLabelsPlugin {[ODHComponent componentName := "true"; K8SPartOf := componentName]}.

Definition CreateAddAnnotationsPlugin (annotations : gmap string string) : AnnotationsTransformerPlugin :=
  MkAnnotationsPlugin annotations [MkFieldSpec "" "" "metadata/annotations" true].

Inductive DeployE : Type → Type :=
| StatFile (path : string) : DeployE (option goerr)
| RunKustomize (path : string) : DeployE (result (list KResource))
| TransformNamespace (plugin : NamespaceTransformerPlugin) (resMap : list KResource) : DeployE (result (list KResource))
| TransformLabels (plugin : LabelTransformerPlugin) (resMap : list KResource) : DeployE (result (list KResource))
| GetLive (gvk : GroupVersionKind) (name namespace : string) : DeployE (result Live)
| CreateLive (obj : value_map) : DeployE (option goerr)
| DeleteLive (found : Live) : DeployE (option goerr)
| PatchLive (found : Live) (data fieldOwner : string) : DeployE (option goerr).

(** The library values the code uses: [kyaml.PathMatcher] with [FieldClearer] at each match, [RNode.GetMeta] (the apiVersion and
    the kind), the conversion of a node through YAML text, the metadata accessors,
    [ctrl.SetControllerReference] for the owner, [json.Marshal], the text of [NewNotFound] and
    the mode of the namespace transformer. *)
Class DeployLib := {
  ClearMatching : list string → string → value_map → result value_map;
  GetMeta : value_map → result (string * string);
  yaml_Convert : value_map → result value_map;
  obj_Labels : value_map → gmap string string;
  obj_SetLabels : gmap string string → value_map → value_map;
  SetControllerReference : string → value_map → result value_map;
  json_Marshal : value_map → result string;
  NotFoundText : string → string → string;
  AllServiceAccountSubjects : string;
}.

Definition CreateNamespaceApplierPlugin `{DeployLib} (targetNamespace : string) : NamespaceTransformerPlugin :=
  MkNamespacePlugin "odh-namespace-plugin" targetNamespace
    [MkFieldSpec "" "" "metadata/namespace" true;
     MkFieldSpec "rbac.authorization.k8s.io" "ClusterRoleBinding" "subjects/namespace" true;
     MkFieldSpec "rbac.authorization.k8s.io" "RoleBinding" "subjects/namespace" true;
     MkFieldSpec "admissionregistration.k8s.io" "ValidatingWebhookConfiguration" "webhooks/clientConfig/service/namespace" false;
     MkFieldSpec "admissionregistration.k8s.io" "MutatingWebhookConfiguration" "webhooks/clientConfig/service/namespace" false;
     MkFieldSpec "apiextensions.k8s.io" "CustomResourceDefinition" "spec/conversion/webhook/clientConfig/service/namespace" false]
    false AllServiceAccountSubjects.

(** ** Removing fields *)

Record RemoverPlugin := MkRemover { rm_Gvk : GroupVersionKind; rm_Path : list string }.

Definition DeploymentGVK : GroupVersionKind := MkGVK "apps" "v1" "Deployment".

Definition AllowListedFields : list RemoverPlugin :=
  [MkRemover DeploymentGVK ["spec"; "template"; "spec"; "containers"; "*"; "resources"];
   MkRemover DeploymentGVK ["spec"; "replicas"]].

(** [gvk.GroupVersion().String()]. *)
Definition GroupVersionText (gvk : GroupVersionKind) : string :=
  if String.eqb (gvk_Group gvk) "" then gvk_Version gvk else gvk_Group gvk +:+ "/" +:+ gvk_Version gvk.

Section deploy.
Context `{DeployLib}.

(** [path[:len-1]] and [path[len-1]] of a path that is not empty. *)
Definition path_init (path : list string) : list string := take (pred (length path)) path.
Definition path_last (path : list string) : string := default "" (last path).

Definition ClearField (node : value_map) (fieldPath : list string) : result value_map :=
  match fieldPath with
  | [] => Ok node
  | _ => ClearMatching (path_init fieldPath) (path_last fieldPath) node
  end.

Definition ClearFieldFor (node : value_map) (gvk : GroupVersionKind) (fieldPath : list string) : result value_map :=
  match fieldPath with
  | [] => Ok node
  | _ =>
      meta ← GetMeta node;
      if negb (bool_decide (meta = (GroupVersionText gvk, gvk_Kind gvk))) then Ok node
      else ClearMatching (path_init fieldPath) (path_last fieldPath) node
  end.

Definition remover_run (f : RemoverPlugin) (node : value_map) : result value_map :=
  match rm_Path f with
  | [] => Err (errorf "no field set to remove, path to the field cannot be empty")
  | _ => ClearFieldFor node (rm_Gvk f) (rm_Path f)
  end.

Definition TransformResource (p : RemoverPlugin) (r : KResource) : result KResource :=
  node ← remover_run p (kr_Object r);
  Ok (MkKResource (kr_Gvk r) (kr_Name r) (kr_Namespace r) node).

Fixpoint skip_fields (plugins : list RemoverPlugin) (res : KResource) : result KResource :=
  match plugins with
  | [] => Ok res
  | rmPlugin :: plugins => res ← TransformResource rmPlugin res; skip_fields plugins res
  end.

Definition skipUpdateOnAllowlistedFields (res : KResource) : result KResource := skip_fields AllowListedFields res.

(** ** One resource *)

Definition ResourceToUnstructured (res : KResource) : result value_map := yaml_Convert (kr_Object res).

Definition isSharedResource (componentCounter : list string) (componentName : string) : bool :=
  match componentCounter with
  | [] => false
  | [comp] => negb (String.eqb comp componentName)
  | _ => true
  end.

Definition isOwnedByODHCRD (ownerReferences : list OwnerReference) : bool :=
  existsb (λ owner, String.eqb (or_Kind owner) "DataScienceCluster" || String.eqb (or_Kind owner) "DSCInitialization")
    ownerReferences.

(** The loop over the labels; [None] is the panic of the index [1]. The order of the range
    decides the order of the names only. *)
Fixpoint component_counter (labels : list string) : option (list string) :=
  match labels with
  | [] => Some []
  | label :: labels =>
      if contains label ODHAppPrefix then
        compFound ← split_slash label "" !! 1;
        rest ← component_counter labels;
        Some (compFound :: rest)
      else component_counter labels
  end.

Definition getComponentCounter (foundLabels : gmap string string) : option (list string) :=
  component_counter (map_to_list foundLabels).*1.

(** How a call ends. *)
Inductive ended := Ended (err : option goerr) | Panicked.

Definition deleteResource (found : Live) (componentName : string) : prog DeployE ended :=
  let selector := ODHComponent componentName in
  if isOwnedByODHCRD (lv_OwnerReferences found) || String.eqb (default "" (lv_Labels found !! selector)) "true"
  then err ← trigger (DeleteLive found); mret (Ended err)
  else mret (Ended None).

Definition handleDisabledComponent (found : Live) (componentName : string) : prog DeployE ended :=
  match getComponentCounter (lv_Labels found) with
  | None => mret Panicked
  | Some componentCounter =>
      if isSharedResource componentCounter componentName || String.eqb (gvk_Kind (lv_Gvk found)) "CustomResourceDefinition"
      then mret (Ended None) else deleteResource found componentName
  end.

Definition getResource (obj : KResource) : prog DeployE (result Live) :=
  let gvk := kr_Gvk obj in
  found ← trigger (GetLive gvk (kr_Name obj) (kr_Namespace obj));
  match found with
  | Err err =>
      if err_is TagNoMatch err
      then mret (Err (Goerr (NotFoundText (gvk_Group gvk) (kr_Name obj)) [TagNotFound]))
      else mret (Err err)
  | Ok found => mret (Ok found)
  end.

Definition createResource (res : KResource) (owner : string) : prog DeployE (option goerr) :=
  match ResourceToUnstructured res with
  | Err err => mret (Some err)
  | Ok obj =>
      match SetControllerReference owner obj with
      | Err err => mret (Some err)
      | Ok obj => trigger (CreateLive obj)
      end
  end.

(** The labels of the platform that the object has are kept. *)
Definition updateLabels (found : Live) (obj : value_map) : value_map :=
  let foundLabels := filter (λ kv, contains kv.1 ODHAppPrefix = true) (lv_Labels found) in
  obj_SetLabels (obj_Labels obj ∪ foundLabels) obj.

(** [owner] is the name of the owner. *)
Definition performPatch (obj : value_map) (found : Live) (owner : string) : prog DeployE (option goerr) :=
  match json_Marshal obj with
  | Err err => mret (Some err)
  | Ok data => trigger (PatchLive found data owner)
  end.

(** The resource without the fields that are only reconciled when it is managed. *)
Definition reconciled_resource (res : KResource) (found : Live) : result KResource :=
  if String.eqb (default "" (lv_Annotations found !! ManagedByODHOperator)) "true" then Ok res
  else skipUpdateOnAllowlistedFields res.

Definition updateResource (res : KResource) (found : Live) (owner : string) : prog DeployE (option goerr) :=
  match reconciled_resource res found with
  | Err err => mret (Some err)
  | Ok res =>
      match ResourceToUnstructured res with
      | Err err => mret (Some err)
      | Ok obj => performPatch (updateLabels found obj) found owner
      end
  end.

Definition manageResource (res : KResource) (owner applicationNamespace componentName : string) (enabled : bool)
    : prog DeployE ended :=
  if String.eqb (gvk_Kind (kr_Gvk res)) "Namespace" && String.eqb (kr_Name res) applicationNamespace
  then mret (Ended None)
  else
    found ← getResource res;
    match found with
    | Ok found =>
        if enabled then err ← updateResource res found owner; mret (Ended err)
        else handleDisabledComponent found componentName
    | Err err =>
        if negb (err_is TagNotFound err) then mret (Ended (Some err))
        else if enabled then err ← createResource res owner; mret (Ended err)
        else mret (Ended None)
    end.

(** ** A directory of manifests *)

Fixpoint manage_resources (resMap : list KResource) (owner namespace componentName : string) (enabled : bool)
    : prog DeployE ended :=
  match resMap with
  | [] => mret (Ended None)
  | res :: resMap =>
      err ← manageResource res owner namespace componentName enabled;
      match err with
      | Ended None => manage_resources resMap owner namespace componentName enabled
      | _ => mret err
      end
  end.

(** [fmt.Errorf("prefix%w", err)]. *)
Definition prefixed (prefix : string) (err : goerr) : goerr := Goerr (prefix +:+ err_text err) (err_tags err).

(** Default labels win over additional ones. *)
Definition resource_labels (componentName : string) (additionalLabels : gmap string string) : gmap string string :=
  ({[ODHComponent componentName := "true"; K8SPartOf := componentName]} : gmap string string) ∪ additionalLabels.

(** The directory that is rendered. *)
Definition kustomize_dir (manifestPath : string) : prog DeployE (result string) :=
  err ← trigger (StatFile (filepath_Join [manifestPath; "kustomization.yaml"]));
  match err with
  | None => mret (Ok manifestPath)
  | Some err =>
      if negb (err_is TagNotExist err) then mret (Err err)
      else mret (Ok (filepath_Join [manifestPath; "default"]))
  end.

Definition render_dir (manifestPath namespace componentName : string) (additionalLabels : gmap string string)
    : prog DeployE (result (list KResource)) :=
  resMap ← trigger (RunKustomize manifestPath);
  match resMap with
  | Err err => mret (Err err)
  | Ok resMap =>
      resMap ← trigger (TransformNamespace (CreateNamespaceApplierPlugin namespace) resMap);
      match resMap with
      | Err err => mret (Err (prefixed "failed applying namespace plugin when preparing Kustomize resources. " err))
      | Ok resMap =>
          resMap ← trigger (TransformLabels (CreateSetLabelsPlugin (resource_labels componentName additionalLabels)) resMap);
          mret (match resMap with
                | Err err => Err (prefixed "failed applying labels plugin when preparing Kustomize resources. " err)
                | Ok resMap => Ok resMap
                end)
      end
  end.

Definition render_manifests (manifestPath namespace componentName : string) (additionalLabels : gmap string string)
    : prog DeployE (result (list KResource)) :=
  dir ← kustomize_dir manifestPath;
  match dir with
  | Err err => mret (Err err)
  | Ok manifestPath => render_dir manifestPath namespace componentName additionalLabels
  end.

Definition DeployManifestsFromPathWithLabels (owner manifestPath namespace componentName : string)
    (componentEnabled : bool) (additionalLabels : gmap string string) : prog DeployE ended :=
  resMap ← render_manifests manifestPath namespace componentName additionalLabels;
  match resMap with
  | Err err => mret (Ended (Some err))
  | Ok resMap => manage_resources resMap owner namespace componentName componentEnabled
  end.

Definition DeployManifestsFromPath (owner manifestPath namespace componentName : string) (componentEnabled : bool)
    : prog DeployE ended :=
  DeployManifestsFromPathWithLabels owner manifestPath namespace componentName componentEnabled ∅.
End deploy.

(** ** Theorems *)

Inductive deploy_event :=
| EvRendered (resMap : list KResource)
| EvGetLive (gvk : GroupVersionKind) (name namespace : string) (found : result Live)
| EvCreateLive (obj : value_map) (err : option goerr)
| EvDeleteLive (found : Live) (err : option goerr)
| EvPatchLive (found : Live) (data owner : string) (err : option goerr)
| EvDeployOther.

Definition deploy_event_of (c : call DeployE) : deploy_event :=
  match c with
  | @Call _ X e x =>
      match e in DeployE X return X → deploy_event with
      | GetLive g n ns => EvGetLive g n ns
      | CreateLive obj => EvCreateLive obj
      | DeleteLive found => EvDeleteLive found
      | PatchLive found data owner => EvPatchLive found data owner
      | TransformLabels _ _ => λ r, match r with Ok resMap => EvRendered resMap | Err _ => EvDeployOther end
      | _ => λ _, EvDeployOther
      end x
  end.

Notation deploy_events := (events deploy_event_of).

Section deploy_theorems.
Context `{DeployLib}.
Variables owner namespace componentName : string.
Variable enabled : bool.
Implicit Types (res : KResource) (evs : list deploy_event).

(** The resource that is never touched. *)
Definition is_app_namespace res : Prop := gvk_Kind (kr_Gvk res) = "Namespace" ∧ kr_Name res = namespace.

(** The resource is one of those that the manifests were rendered to. *)
Definition rendered evs res : Prop := ∃ resMap, EvRendered resMap ∈ evs ∧ res ∈ resMap.

(** The last call read the object of the rendered resource [res]. *)
Definition just_read evs res (found : result Live) : Prop :=
  rendered evs res ∧ ∃ evs', evs = evs' ++ [EvGetLive (kr_Gvk res) (kr_Name res) (kr_Namespace res) found].

(** Every component label of the object names this component. *)
Definition only_component (found : Live) : Prop :=
  ∀ label, is_Some (lv_Labels found !! label) → contains label ODHAppPrefix = true →
    split_slash label "" !! 1 = Some componentName.

(** The object that is created for a resource, and the text that it is patched with. *)
Definition created_from res (obj : value_map) : Prop :=
  ∃ obj', ResourceToUnstructured res = Ok obj' ∧ SetControllerReference owner obj' = Ok obj.

Definition patched_from res (found : Live) (data : string) : Prop :=
  ∃ res' obj, reconciled_resource res found = Ok res' ∧ ResourceToUnstructured res' = Ok obj ∧
    json_Marshal (updateLabels found obj) = Ok data.

(** The deployment may delete the object. *)
Definition deletable (found : Live) : Prop :=
  gvk_Kind (lv_Gvk found) ≠ "CustomResourceDefinition" ∧ only_component found ∧
  (isOwnedByODHCRD (lv_OwnerReferences found) = true ∨ lv_Labels found !! ODHComponent componentName = Some "true").

(** What a write may be, after the calls [evs]. *)
Definition deploy_write evs (ev : deploy_event) : Prop :=
  match ev with
  | EvCreateLive obj _ => enabled = true ∧ ∃ res err, ¬ is_app_namespace res ∧ just_read evs res (Err err) ∧
      (err_is TagNotFound err = true ∨ err_is TagNoMatch err = true) ∧ created_from res obj
  | EvPatchLive found data o _ => enabled = true ∧ o = owner ∧
      ∃ res, ¬ is_app_namespace res ∧ just_read evs res (Ok found) ∧ patched_from res found data
  | EvDeleteLive found _ => enabled = false ∧
      (∃ res, ¬ is_app_namespace res ∧ just_read evs res (Ok found)) ∧ deletable found
  | _ => True
  end.

Definition was_read evs res (found : result Live) : Prop :=
  EvGetLive (kr_Gvk res) (kr_Name res) (kr_Namespace res) found ∈ evs.

(** A resource that a run without error has dealt with. *)
Definition deployed evs res : Prop :=
  (∃ obj, created_from res obj ∧ EvCreateLive obj None ∈ evs) ∨
  (∃ found data, was_read evs res (Ok found) ∧ patched_from res found data ∧ EvPatchLive found data owner None ∈ evs).

Definition withdrawn evs res : Prop :=
  (∃ err, was_read evs res (Err err) ∧ (err_is TagNotFound err = true ∨ err_is TagNoMatch err = true)) ∨
  (∃ found, was_read evs res (Ok found) ∧ (EvDeleteLive found None ∈ evs ∨ ¬ deletable found ∨
    ∃ names, getComponentCounter (lv_Labels found) = Some names ∧ isSharedResource names componentName = true)).

Definition settled evs res : Prop :=
  is_app_namespace res ∨ if enabled then deployed evs res else withdrawn evs res.

Lemma resource_settled_mono evs evs' res : (∀ ev, ev ∈ evs → ev ∈ evs') → settled evs res → settled evs' res.
Proof.
  unfold settled, deployed, withdrawn, was_read. intros Hsub [?|Hs]; [by left|right].
  destruct enabled; destruct Hs as [Hs|Hs]; [left|right|left|right].
  - destruct Hs as (obj & ? & ?). eauto.
  - destruct Hs as (found & data & ? & ? & ?). exists found, data. auto.
  - destruct Hs as (err & ? & ?). eauto.
  - destruct Hs as (found & ? & [?|?]); exists found; auto.
Qed.

Lemma rendered_mono evs evs' res : (∀ ev, ev ∈ evs → ev ∈ evs') → rendered evs res → rendered evs' res.
Proof. intros Hsub (resMap & ? & ?). exists resMap. auto. Qed.

Lemma component_counter_spec labels names :
  component_counter labels = Some names →
  (∀ label, label ∈ labels → contains label ODHAppPrefix = true → ∃ name, split_slash label "" !! 1 = Some name ∧ name ∈ names).
Proof.
  revert names. induction labels as [|l labels IH]; intros names; simpl; [by intros _ ? ?%elem_of_nil|].
  destruct (contains l ODHAppPrefix) eqn:Hl.
  - destruct (split_slash l "" !! 1) as [name|] eqn:Hname; [simpl|done].
    destruct (component_counter labels) as [rest|]; [simpl|done]. intros [= <-] label [->|Hin]%elem_of_cons Hc.
    + exists name. split; [done|]. by left.
    + destruct (IH rest eq_refl label Hin Hc) as (n & ? & ?). exists n. split; [done|]. by right.
  - intros Hnames label [->|Hin]%elem_of_cons Hc; [congruence|]. by apply (IH names).
Qed.

Lemma not_shared_only found names :
  getComponentCounter (lv_Labels found) = Some names → isSharedResource names componentName = false →
  only_component found.
Proof.
  intros Hnames Hshared label [v Hv] Hc.
  destruct (component_counter_spec _ _ Hnames label) as (name & Hname & Hin); [|done|].
  { apply list_elem_of_fmap. exists (label, v). by rewrite elem_of_map_to_list. }
  rewrite Hname. f_equal. destruct names as [|n [|n' names]]; simpl in Hshared; [by apply elem_of_nil in Hin| |done].
  apply list_elem_of_singleton in Hin as ->. apply negb_false_iff in Hshared. by apply String.eqb_eq in Hshared.
Qed.

Lemma is_app_namespace_test res :
  String.eqb (gvk_Kind (kr_Gvk res)) "Namespace" && String.eqb (kr_Name res) namespace = true ↔ is_app_namespace res.
Proof. unfold is_app_namespace. by rewrite andb_true_iff, !String.eqb_eq. Qed.

Lemma deletable_owned found :
  deletable found → isOwnedByODHCRD (lv_OwnerReferences found) ||
    String.eqb (default "" (lv_Labels found !! ODHComponent componentName)) "true" = true.
Proof. intros (_ & _ & [->| ->]); [done|]. by rewrite orb_true_r. Qed.

Notation extends := (leads deploy_event_of deploy_write).

Lemma wp_createResource res err tr :
  enabled = true → ¬ is_app_namespace res → just_read (deploy_events tr) res (Err err) →
  err_is TagNotFound err = true ∨ err_is TagNoMatch err = true → lawful deploy_event_of deploy_write tr →
  wp (createResource res owner) tr (λ tr' err, extends tr tr' ∧
    (err = None → ∃ obj, created_from res obj ∧ EvCreateLive obj None ∈ deploy_events tr')).
Proof.
  intros Hen Hns Hread Htag Htr. unfold createResource.
  destruct (ResourceToUnstructured res) as [obj'|e] eqn:Hobj'; [|apply wp_ret; split; [by apply leads_refl|done]].
  destruct (SetControllerReference owner obj') as [obj|e] eqn:Hobj; [|apply wp_ret; split; [by apply leads_refl|done]].
  assert (created_from res obj) as Hfrom by (by exists obj').
  apply wp_call. intros answer. split; [apply leads_snoc; [done|]; split; eauto 10|].
  intros ->. exists obj. split; [done|]. apply (last_event deploy_event_of tr (Call (CreateLive obj) None)).
Qed.

Lemma wp_updateResource res found tr :
  enabled = true → ¬ is_app_namespace res → just_read (deploy_events tr) res (Ok found) →
  lawful deploy_event_of deploy_write tr →
  wp (updateResource res found owner) tr (λ tr' err, extends tr tr' ∧
    (err = None → ∃ data, patched_from res found data ∧ EvPatchLive found data owner None ∈ deploy_events tr')).
Proof.
  intros Hen Hns Hread Htr. unfold updateResource.
  destruct (reconciled_resource res found) as [res'|e] eqn:Hres; [|apply wp_ret; split; [by apply leads_refl|done]].
  destruct (ResourceToUnstructured res') as [obj|e] eqn:Hobj; [|apply wp_ret; split; [by apply leads_refl|done]].
  unfold performPatch.
  destruct (json_Marshal _) as [data|e] eqn:Hdata; [|apply wp_ret; split; [by apply leads_refl|done]].
  assert (patched_from res found data) as Hfrom by (by exists res', obj).
  apply wp_call. intros answer. split; [apply leads_snoc; [done|]; split; eauto 10|].
  intros ->. exists data. split; [done|]. apply (last_event deploy_event_of tr (Call (PatchLive found data owner) None)).
Qed.

Lemma wp_handleDisabled res found tr :
  enabled = false → ¬ is_app_namespace res → just_read (deploy_events tr) res (Ok found) →
  lawful deploy_event_of deploy_write tr →
  wp (handleDisabledComponent found componentName) tr (λ tr' e, extends tr tr' ∧
    (e = Ended None → EvDeleteLive found None ∈ deploy_events tr' ∨ ¬ deletable found ∨
      ∃ names, getComponentCounter (lv_Labels found) = Some names ∧ isSharedResource names componentName = true)).
Proof.
  intros Hen Hns Hread Htr. unfold handleDisabledComponent.
  destruct (getComponentCounter (lv_Labels found)) as [names|] eqn:Hnames;
    [|apply wp_ret; split; [by apply leads_refl|done]].
  destruct (isSharedResource names componentName) eqn:Hshared; simpl.
  { split; [by apply leads_refl|]. intros _. right. right. eauto. }
  destruct (String.eqb_spec (gvk_Kind (lv_Gvk found)) "CustomResourceDefinition") as [Hcrd|Hcrd]; simpl.
  { split; [by apply leads_refl|]. intros _. right. left. by intros [? _]. }
  unfold deleteResource.
  destruct (isOwnedByODHCRD _ || _) eqn:Howned; simpl.
  2:{ split; [by apply leads_refl|]. intros _. right. left. intros Hd%deletable_owned. congruence. }
  assert (deletable found) as Hdel.
  { split; [done|]. split; [by apply (not_shared_only found names)|]. apply orb_true_iff in Howned as [->|Hl]; [by left|].
    right. apply String.eqb_eq in Hl. by destruct (lv_Labels found !! _) as [v|]; simpl in Hl; subst. }
  intros answer. split; [apply leads_snoc; [done|]; split; eauto|].
  intros [= ->]. left. apply (last_event deploy_event_of tr (Call (DeleteLive found) None)).
Qed.

Lemma settled_intro tr res found :
  just_read (deploy_events tr) res found → ∀ new, was_read (deploy_events (tr ++ new)) res found.
Proof.
  intros [_ [evs Hevs]] new. unfold was_read. rewrite events_app, Hevs, !elem_of_app. left. right. by left.
Qed.

Lemma wp_manageResource res tr :
  rendered (deploy_events tr) res → lawful deploy_event_of deploy_write tr →
  wp (manageResource res owner namespace componentName enabled) tr (λ tr' e,
    extends tr tr' ∧ (e = Ended None → settled (deploy_events tr') res)).
Proof.
  intros Hrendered Htr. unfold manageResource.
  destruct (String.eqb (gvk_Kind (kr_Gvk res)) "Namespace" && String.eqb (kr_Name res) namespace) eqn:Hns.
  { apply wp_ret. split; [by apply leads_refl|]. intros _. left. by apply is_app_namespace_test. }
  assert (¬ is_app_namespace res) as Hnot by (intros Hn%is_app_namespace_test; congruence).
  unfold getResource. apply wp_bind, wp_bind, wp_call. intros found.
  set (c := Call (GetLive (kr_Gvk res) (kr_Name res) (kr_Namespace res)) found).
  assert (extends tr (tr ++ [c])) as Hget by (by apply leads_snoc).
  assert (just_read (deploy_events (tr ++ [c])) res found) as Hread
    by (split; [eapply rendered_mono, Hrendered|exists (deploy_events tr)]; rewrite events_snoc; [set_solver|done]).
  pose proof (settled_intro _ _ _ Hread) as Hwas. clearbody c.
  destruct Hget as [Htr' Hgrow]. destruct found as [found|err]; simpl.
  - destruct enabled eqn:Hen.
    + apply wp_bind. eapply wp_mono; [|by apply (wp_updateResource res)].
      intros tr' err [Hext Hpatch]. apply wp_ret. split; [by eapply leads_trans|]. intros [= ->]. right. rewrite Hen.
      destruct Hext as [_ [new ->]]. right. destruct (Hpatch eq_refl) as (data & ? & ?). exists found, data. auto.
    + eapply wp_mono; [|by apply (wp_handleDisabled res)].
      intros tr' e [Hext Hdel]. split; [by eapply leads_trans|]. intros ->. right. rewrite Hen.
      destruct Hext as [_ [new ->]]. right. exists found. auto.
  - assert (∀ e : goerr, (err_is TagNotFound e = true → err_is TagNotFound err = true ∨ err_is TagNoMatch err = true) →
      wp (if negb (err_is TagNotFound e) then mret (Ended (Some e))
          else if enabled then err ← createResource res owner; mret (Ended err) else mret (Ended None)) (tr ++ [c])
        (λ tr' e, extends tr tr' ∧ (e = Ended None → settled (deploy_events tr') res))) as Htail.
    { intros e Htag. destruct (err_is TagNotFound e); simpl; [specialize (Htag eq_refl)|by split].
      destruct enabled eqn:Hen.
      - apply wp_bind. eapply wp_mono; [|by apply (wp_createResource res err)].
        intros tr' err' [Hext Hcreate]. apply wp_ret. split; [by eapply leads_trans|].
        intros [= ->]. right. rewrite Hen. left. by apply Hcreate.
      - apply wp_ret. split; [done|]. intros _. right. rewrite Hen. left. exists err. split; [|by apply Htag].
        specialize (Hwas []). by rewrite app_nil_r in Hwas. }
    destruct (err_is TagNoMatch err) eqn:Hnm; apply wp_ret, Htail; auto.
Qed.

Lemma wp_manage_resources resMap tr :
  (∀ res, res ∈ resMap → rendered (deploy_events tr) res) → lawful deploy_event_of deploy_write tr →
  wp (manage_resources resMap owner namespace componentName enabled) tr (λ tr' e,
    extends tr tr' ∧ (e = Ended None → Forall (settled (deploy_events tr')) resMap)).
Proof.
  revert tr. induction resMap as [|res resMap IH]; intros tr Hrendered Htr; simpl.
  { split; [by apply leads_refl|by constructor]. }
  apply wp_bind. eapply wp_mono; [|apply (wp_manageResource res); [apply Hrendered; by left|done]].
  intros tr' e [Hext Hres]. destruct e as [[err|]|]; [by apply wp_ret| |by apply wp_ret].
  destruct (Hext) as [Htr' [new Hnew]].
  eapply wp_mono; [|apply IH; [|done]].
  2:{ intros res' Hin. eapply rendered_mono, Hrendered; [|by right]. subst tr'. rewrite events_app. set_solver. }
  clear new Hnew. intros tr'' e [Hext' Hall].
  split; [by eapply leads_trans|]. intros ->. constructor; [|by apply Hall].
  destruct Hext' as [_ [new ->]]. eapply resource_settled_mono; [|by apply Hres]. intros ev Hev. rewrite events_app, elem_of_app. by left.
Qed.

(** The rendering only reads; its result is the event of the last transformation. *)
Definition rendering tr tr' (r : result (list KResource)) : Prop :=
  extends tr tr' ∧ ∀ resMap, r = Ok resMap → EvRendered resMap ∈ deploy_events tr'.

Lemma wp_render_dir dir additionalLabels tr tr' :
  extends tr tr' → wp (render_dir dir namespace componentName additionalLabels) tr' (rendering tr).
Proof.
  intros Hext. apply wp_bind, wp_call. intros [l|e]; [|by split; [apply leads_step|]].
  apply wp_bind, wp_call. intros [l'|e]; [|split; [by repeat apply leads_step|done]].
  apply wp_bind, wp_call. intros [l''|e]; (split; [by repeat apply leads_step|done || intros resMap [= ->]]).
  apply (last_event deploy_event_of _ (Call (TransformLabels _ _) (Ok resMap))).
Qed.

Lemma wp_render_manifests manifestPath additionalLabels tr :
  lawful deploy_event_of deploy_write tr →
  wp (render_manifests manifestPath namespace componentName additionalLabels) tr (rendering tr).
Proof.
  intros Hext%leads_refl. apply wp_bind, wp_bind, wp_call. intros [e|]; simpl.
  - destruct (err_is TagNotExist e); simpl; [by apply wp_render_dir, leads_step|by split; [apply leads_step|]].
  - by apply wp_render_dir, leads_step.
Qed.
Lemma wp_DeployManifests manifestPath additionalLabels :
  wp (DeployManifestsFromPathWithLabels owner manifestPath namespace componentName enabled additionalLabels) []
    (λ tr e, lawful deploy_event_of deploy_write tr ∧
      (e = Ended None → ∃ resMap, EvRendered resMap ∈ deploy_events tr ∧ Forall (settled (deploy_events tr)) resMap)).
Proof.
  unfold DeployManifestsFromPathWithLabels. apply wp_bind.
  eapply wp_mono; [|apply wp_render_manifests; apply lawful_nil].
  intros tr r [[Htr _] Hr]. destruct r as [resMap|err]; [|by apply wp_ret].
  eapply wp_mono; [|apply wp_manage_resources; [|done]].
  2:{ intros res Hres. exists resMap. split; [by apply Hr|done]. }
  intros tr' e [[Htr' [new ->]] Hall]. split; [done|].
  intros He. exists resMap. split; [|by apply Hall].
  rewrite events_app, elem_of_app. left. by apply Hr.
Qed.
End deploy_theorems.

(** C20: every write of a deployment is accounted for, whatever the cluster answers. The object
    that is created, patched or deleted is that of one of the resources that the manifests were
    rendered to in this run, never the application namespace, and the call before it read this
    object. It is created only if it was not found, from that resource with the owner's
    reference; patched only with what that resource and the object found give, with the owner's
    name as field owner; both only for an enabled component. It is deleted only for a disabled
    component, and only if it is no CustomResourceDefinition, its component labels all name
    this component, and the platform owns it or the component labels it. When the run ends
    without an error, every rendered resource but that namespace was created or patched, or,
    for a disabled component, was not found, was deleted, or was left as one of those that may
    not be deleted or as shared by its labels. *)
Theorem DeployManifests_accounted `{DeployLib} owner manifestPath namespace componentName enabled additionalLabels :
  wp (DeployManifestsFromPathWithLabels owner manifestPath namespace componentName enabled additionalLabels) []
    (λ tr e, each_after (deploy_write owner namespace componentName enabled) (deploy_events tr) ∧
      (e = Ended None → ∃ resMap, EvRendered resMap ∈ deploy_events tr ∧
        Forall (settled owner namespace componentName enabled (deploy_events tr)) resMap)).
Proof. apply wp_DeployManifests. Qed.

(** ** What a patch leaves to the user *)

(** The values that a path of keys and stars reaches. *)
Fixpoint reached (path : list string) (v : value) : list value :=
  match path with
  | [] => [v]
  | k :: path =>
      match v with
      | VMap m => if map_has m k then reached path (map_get m k) else []
      | VSlice l => if String.eqb k "*" then l ≫= reached path else []
      | _ => []
      end
  end.

(** What the code relies on: a cleared path reaches nothing, clearing brings nothing back, and
    the kind survives when another field is cleared. *)
Class DeployLibLaws `{DeployLib} := {
  clear_gone path name m m' : ClearMatching path name m = Ok m' → name ≠ "*" → reached (path ++ [name]) (VMap m') = [];
  clear_keeps_gone path name m m' path' : ClearMatching path name m = Ok m' → reached path' (VMap m) = [] →
    reached path' (VMap m') = [];
  clear_meta k path name m m' : ClearMatching (k :: path) name m = Ok m' → k ≠ "apiVersion" → k ≠ "kind" → k ≠ "metadata" →
    GetMeta m' = GetMeta m;
  labels_set l m : obj_Labels (obj_SetLabels l m) = l;
}.

Section allowlist.
Context `{DeployLibLaws}.

Lemma TransformResource_cleared p res res' :
  GetMeta (kr_Object res) = Ok (GroupVersionText (rm_Gvk p), gvk_Kind (rm_Gvk p)) →
  TransformResource p res = Ok res' → rm_Path p ≠ [] →
  ClearMatching (path_init (rm_Path p)) (path_last (rm_Path p)) (kr_Object res) = Ok (kr_Object res').
Proof.
  unfold TransformResource, remover_run, ClearFieldFor. intros Hmeta. destruct (rm_Path p) as [|k path]; [done|].
  rewrite Hmeta. cbn [mbind result_bind]. rewrite bool_decide_eq_true_2 by done. cbn [negb].
  destruct (ClearMatching _ _ _) as [node|]; [|done]. by intros [= <-].
Qed.

(** Fields that users tune survive an update: when a deployed Deployment is not annotated
    as managed by the operator, the resource its patch is made from has neither a number of
    replicas nor the resources of any container. *)
Theorem unmanaged_update_keeps_tuning res found res'
    (Hmeta : GetMeta (kr_Object res) = Ok ("apps/v1", "Deployment"))
    (Hmanaged : lv_Annotations found !! ManagedByODHOperator ≠ Some "true")
    (Hres : reconciled_resource res found = Ok res') :
  reached ["spec"; "replicas"] (VMap (kr_Object res')) = [] ∧
  reached ["spec"; "template"; "spec"; "containers"; "*"; "resources"] (VMap (kr_Object res')) = [].
Proof.
  unfold reconciled_resource in Hres.
  destruct (String.eqb_spec (default "" (lv_Annotations found !! ManagedByODHOperator)) "true") as [Ht|_].
  { by destruct (lv_Annotations found !! _) as [v|]; simpl in *; subst. }
  unfold skipUpdateOnAllowlistedFields, AllowListedFields, skip_fields in Hres.
  destruct (TransformResource _ res) as [r1|] eqn:H1; [cbn [mbind result_bind] in Hres|done].
  destruct (TransformResource _ r1) as [r2|] eqn:H2; [|done]. injection Hres as <-.
  apply TransformResource_cleared in H1; [|done..]. cbn in H1.
  pose proof (clear_meta "spec" _ _ _ _ H1 ltac:(done) ltac:(done) ltac:(done)) as Hm1. rewrite Hmeta in Hm1.
  apply TransformResource_cleared in H2; [|done..]. cbn in H2.
  split; [by apply (clear_gone ["spec"] "replicas" (kr_Object r1))|].
  eapply clear_keeps_gone; [exact H2|]. exact (clear_gone _ _ _ _ H1 ltac:(done)).
Qed.

(** The labels of a patched object: the manifest's, and the platform's labels found on it. *)
Lemma updateLabels_lookup found obj k :
  obj_Labels (updateLabels found obj) !! k =
  match obj_Labels obj !! k with
  | Some v => Some v
  | None => if contains k ODHAppPrefix then lv_Labels found !! k else None
  end.
Proof.
  unfold updateLabels. rewrite labels_set. destruct (obj_Labels obj !! k) as [v|] eqn:Hk.
  - by apply lookup_union_Some_l.
  - rewrite lookup_union_r by done. destruct (contains k ODHAppPrefix) eqn:Hc.
    + destruct (lv_Labels found !! k) as [v|] eqn:Hf.
      * by apply map_lookup_filter_Some_2.
      * apply map_lookup_filter_None_2. by left.
    + apply map_lookup_filter_None_2. right. intros v _ Hv. simpl in Hv. congruence.
Qed.
End allowlist.

(** ** A documented library *)

Fixpoint clear (path : list string) (name : string) (v : value) : value :=
  match path with
  | [] => match v with VMap m => VMap (map_delete m name) | _ => v end
  | k :: path =>
      match v with
      | VMap m => if map_has m k then VMap (map_set m k (clear path name (map_get m k))) else v
      | VSlice l => if String.eqb k "*" then VSlice (clear path name <$> l) else v
      | _ => v
      end
  end.

Definition deploy_lib_documented : DeployLib := {|
  ClearMatching path name m := match clear path name (VMap m) with VMap m => Ok m | _ => Ok m end;
  GetMeta m := match map_get m "apiVersion", map_get m "kind" with
               | VString v, VString k => Ok (v, k) | _, _ => Err (errorf "missing Resource metadata") end;
  yaml_Convert m := Ok m;
  obj_Labels m := match map_get m "labels" with VMap l => default ∅ (string_map_of (VMap l)) | _ => ∅ end;
  obj_SetLabels l m := map_set m "labels" (VMap (prod_map id VString <$> map_to_list l));
  SetControllerReference owner m := Ok (map_set m "owner" (VString owner));
  json_Marshal m := Ok "{}";
  NotFoundText group name := name +:+ " not found";
  AllServiceAccountSubjects := "allServiceAccounts";
|}.

Lemma map_has_delete_ne m k k' : k ≠ k' → map_has (map_delete m k) k' = map_has m k'.
Proof.
  intros Hk. unfold map_has, map_delete. induction m as [|[j w] m IH]; [done|].
  rewrite filter_cons. case_decide as Hj; cbn in *; [by rewrite IH|].
  subst j. by rewrite IH, (proj2 (String.eqb_neq k k') Hk).
Qed.

Lemma reached_map k path m :
  reached (k :: path) (VMap m) = if map_has m k then reached path (map_get m k) else [].
Proof. done. Qed.

Lemma clear_map k path name m :
  clear (k :: path) name (VMap m) = if map_has m k then VMap (map_set m k (clear path name (map_get m k))) else VMap m.
Proof. done. Qed.

Lemma clear_reaches_nothing path name v : name ≠ "*" → reached (path ++ [name]) (clear path name v) = [].
Proof.
  intros Hname. revert v. induction path as [|k path IH]; intros v; simpl app.
  - destruct v as [| | | | |l|m]; try done; simpl; [by rewrite (proj2 (String.eqb_neq name "*"))|by rewrite map_has_delete].
  - destruct v as [| | | | |l|m]; try done.
    + simpl. destruct (String.eqb k "*") eqn:Hk; simpl; rewrite ?Hk; [|done].
      induction l as [|v l IHl]; [done|]. simpl. by rewrite IH.
    + rewrite clear_map. destruct (map_has m k) eqn:Hm; rewrite reached_map; [|by rewrite Hm].
      rewrite map_has_set, map_get_set, String.eqb_refl. apply IH.
Qed.

Lemma clear_reaches_less path name path' v : reached path' v = [] → reached path' (clear path name v) = [].
Proof.
  revert path' v. induction path as [|k path IH]; intros [|k' path'] v; try done.
  - destruct v as [| | | | | |m]; try done. simpl clear. rewrite !reached_map.
    destruct (decide (name = k')) as [->|Hk]; [by rewrite map_has_delete|].
    by rewrite map_has_delete_ne, map_get_delete.
  - destruct v as [| | | | |l|m]; try done.
    + simpl. destruct (String.eqb k "*"); [|done]. destruct (String.eqb k' "*"); [|done].
      induction l as [|v l IHl]; [done|]. simpl. intros [H1 H2]%app_eq_nil. rewrite IH by done. by apply IHl.
    + rewrite clear_map. destruct (map_has m k) eqn:Hm; [|done]. rewrite !reached_map, map_has_set, map_get_set.
      destruct (String.eqb_spec k k') as [->|Hk]; [|done]. rewrite Hm. simpl. apply IH.
Qed.

Lemma clear_is_map path name m : ∃ m', clear path name (VMap m) = VMap m'.
Proof. destruct path as [|k path]; [by eexists|]. rewrite clear_map. destruct (map_has m k); eauto. Qed.

Lemma deploy_lib_documented_laws : DeployLibLaws (H := deploy_lib_documented).
Proof.
  split; cbn.
  - intros path name m m'. destruct (clear_is_map path name m) as [m2 Hm2]. rewrite Hm2. intros [= <-] Hname.
    rewrite <-Hm2. by apply clear_reaches_nothing.
  - intros path name m m' path'. destruct (clear_is_map path name m) as [m2 Hm2]. rewrite Hm2. intros [= <-] Hr.
    rewrite <-Hm2. by apply clear_reaches_less.
  - intros k path name m m' Hm' Hv Hk _. change (match clear (k :: path) name (VMap m) with VMap m => Ok m | _ => Ok m end = Ok m') in Hm'.
    rewrite clear_map in Hm'. destruct (map_has m k); injection Hm' as <-; [|done].
    by rewrite !map_get_set, !(proj2 (String.eqb_neq k _)).
  - intros l m. rewrite map_get_set, String.eqb_refl. change (default ∅ (string_map_of (VMap (prod_map id VString <$> map_to_list l))) = l). by rewrite string_map_of_strings.
Qed.

Definition sample_deployment : KResource :=
  MkKResource DeploymentGVK "dashboard" "opendatahub"
    [("apiVersion", VString "apps/v1"); ("kind", VString "Deployment");
     ("spec", VMap [("replicas", VInt 2); ("paused", VBool false)])].

Lemma unmanaged_update_keeps_tuning_witness :
  ∃ res', @reconciled_resource deploy_lib_documented sample_deployment (MkLive DeploymentGVK "dashboard" ∅ ∅ []) = Ok res' ∧
    reached ["spec"; "replicas"] (VMap (kr_Object res')) = [].
Proof.
  eexists. split; [vm_compute; reflexivity|].
  refine (proj1 (@unmanaged_update_keeps_tuning deploy_lib_documented deploy_lib_documented_laws
    sample_deployment (MkLive DeploymentGVK "dashboard" ∅ ∅ []) _ _ _ _)); [vm_compute; reflexivity|done|vm_compute; reflexivity].
Defined.

(** A label that is just the prefix makes the count of the components panic. *)
Lemma bare_prefix_label_panics : getComponentCounter {[ODHAppPrefix := "true"]} = None.
Proof. vm_compute. reflexivity. Qed.
