(* ===== verification/Logger.v ===== *)
(** * Logger: the operator's log level

    Models [pkg/logger/logger.go]. The level that the logger reads is a cell of the zap
    library: storing and loading it are events. Zap's levels are numbers: more verbose ones
    are smaller. *)

From S2P Require Import Prelude Effects Unstructured CloudManager.

Definition DebugLevel : Z := -1.
Definition InfoLevel : Z := 0.
Definition WarnLevel : Z := 1.
Definition ErrorLevel : Z := 2.

Definition levelStrings : gmap string Z :=
  {["debug" := DebugLevel; "info" := InfoLevel; "error" := ErrorLevel]}.

(** [strconv.ParseInt(s, 10, 8)]. *)
Definition ParseInt8 (s : string) : option Z :=
  n ← ParseInt64 s;
  if (- 2 ^ 7 <=? n)%Z && (n <? 2 ^ 7)%Z then Some n else None.

(** [int8(n)], which wraps around. *)
Definition int8 (n : Z) : Z := ((n + 2 ^ 7) mod 2 ^ 8 - 2 ^ 7)%Z.

Definition invalid_level (flagValue : string) : goerr :=
  errorf ("invalid log level " +:+ dquote +:+ flagValue +:+ dquote).

Definition stringToLevel (flagValue : string) : result Z :=
  match levelStrings !! to_lower flagValue with
  | Some level => Ok level
  | None =>
      match ParseInt8 flagValue with
      | None => Err (invalid_level flagValue)
      | Some logLevel =>
          if (0 <? logLevel)%Z then Ok (int8 (-1 * int8 logLevel)) else Err (invalid_level flagValue)
      end
  end.

(** What is stored: a level that can be set, or nothing of that type. *)
Inductive LogE : Type → Type :=
| LoadLevel : LogE bool
| StoreLevel (level : Z) : LogE unit.

Definition SetLevel (levelStr : string) : prog LogE (option goerr) :=
  if String.eqb levelStr "" then mret None
  else
    match stringToLevel levelStr with
    | Err err => mret (Some err)
    | Ok levelNum =>
        ok ← trigger LoadLevel;
        if negb ok then mret (Some (errorf "stored loglevel is not of type *zap.AtomicLevel"))
        else trigger (StoreLevel levelNum) ;; mret None
    end.

(** ** Options *)

Inductive time_encoder := TimeEncoderDefault | ISO8601TimeEncoder.

(** [ctrlzap.Options] as the code fills them; an option is [None] when it is [nil]. *)
Record Options := MkOptions {
  o_Development : bool;
  o_StacktraceLevel : option Z;
  o_Level : option Z;
  o_DestWriter : option string;
  o_EncoderConfigOptions : option time_encoder;
}.

Definition newBaseOptionsFromMode (mode : string) : Options :=
  if String.eqb mode "devel" || String.eqb mode "development" then
    MkOptions true (Some WarnLevel) None (Some "stdout") None
  else if String.eqb mode "prod" || String.eqb mode "production" then
    MkOptions false (Some ErrorLevel) None (Some "stdout") (Some ISO8601TimeEncoder)
  else MkOptions false (Some ErrorLevel) None (Some "stdout") None.

(** [option_or a b]: [b] unless it is [nil]. *)
Definition override_with {A} (orig override : option A) : option A :=
  match override with Some _ => override | None => orig end.

(** [isDevelopmentSet]: the flag zap-devel was given. *)
Definition overrideOptions (isDevelopmentSet : bool) (orig override : Options) : Options :=
  MkOptions
    (if isDevelopmentSet then o_Development override else o_Development orig)
    (override_with (o_StacktraceLevel orig) (o_StacktraceLevel override))
    (override_with (o_Level orig) (o_Level override))
    (override_with (o_DestWriter orig) (o_DestWriter override))
    (override_with (o_EncoderConfigOptions orig) (o_EncoderConfigOptions override)).

(** ** Theorems *)

Lemma ParseInt8_range s n : ParseInt8 s = Some n → (- 2 ^ 7 <= n < 2 ^ 7)%Z.
Proof.
  unfold ParseInt8. destruct (ParseInt64 s) as [m|]; [cbn [mbind option_bind]|done].
  destruct (_ && _) eqn:Hm; [|done]. intros [= <-]. lia.
Qed.

Lemma int8_id n : (- 2 ^ 7 <= n < 2 ^ 7)%Z → int8 n = n.
Proof. intros Hn. unfold int8. rewrite Z.mod_small by lia. lia. Qed.

(** A level is a name or a positive number: the negation of the number never wraps around,
    so the level that is set lies between -127 and 2, and it is the number's negation. *)
Theorem stringToLevel_bounds flagValue level (Hlevel : stringToLevel flagValue = Ok level) :
  (- 127 <= level <= 2)%Z ∧
  (levelStrings !! to_lower flagValue = Some level ∨
   ∃ n, ParseInt8 flagValue = Some n ∧ (0 < n)%Z ∧ level = (- n)%Z).
Proof.
  unfold stringToLevel in Hlevel. destruct (levelStrings !! to_lower flagValue) as [l|] eqn:Hl.
  - injection Hlevel as ->. split; [|by left].
    assert (map_Forall (λ _ l, - 127 <= l <= 2)%Z levelStrings) as Hall; [|exact (Hall _ _ Hl)].
    apply (bool_decide_eq_true_1 (map_Forall (λ _ l, - 127 <= l <= 2)%Z levelStrings)). vm_compute. reflexivity.
  - destruct (ParseInt8 flagValue) as [n|] eqn:Hn; [|done]. pose proof (ParseInt8_range _ _ Hn) as Hr.
    destruct (Z.ltb_spec 0 n) as [Hpos|]; [|done]. injection Hlevel as <-.
    rewrite (int8_id n) by done. rewrite int8_id by lia. split; [lia|]. right. exists n. split; [done|]. lia.
Qed.

Lemma stringToLevel_bounds_witness : stringToLevel "127" = Ok (-127)%Z ∧ (- 127 <= -127 <= 2)%Z.
Proof.
  split; [vm_compute; reflexivity|].
  exact (proj1 (stringToLevel_bounds "127" (-127) ltac:(vm_compute; reflexivity))).
Defined.
