(* ===== verification/Dsci.v ===== *)
(** * Dsci: the DSCInitialization, its conditions and what its controller sets up

    Models the conditions of [internal/controller/status/status.go], the status update of
    [reporter.go], and of [internal/controller/dscinitialization]: [utils.go] (the namespaces,
    the network policy, the segment configuration), [auth.go] and [hardwareprofile.go]. The
    reconciler itself is in [DsciController].

    The API server is the signature [DsciE]; manifests are deployed by [Deploy], whose calls
    are among the events. [CreateOrUpdate] of controller-runtime is one event with the
    function that changes the object. *)

From S2P Require Import Prelude Effects Conditions Unstructured SharedPlatform Secrets Gateway GatewayStatus GatewayAuth Logger ModuleBase Deploy.

(** ** Data *)

Record Release := MkRel { rel_Name : string; rel_Version : string }.

(** [None]: the slice of conditions is [nil]. *)
Record DsciStatus := MkDsciStatus {
  ds_Phase : string;
  ds_Release : Release;
  ds_Conditions : option (list Condition);
}.

(** [di_DevFlags]: the log level, unless the developer flags are [nil]. *)
Record Dsci := MkDsciCR {
  di_Name : string;
  di_UID : string;
  di_Deleting : bool;
  di_Finalizers : list string;
  di_DevFlags : option string;
  di_ApplicationsNamespace : string;
  di_MonitoringState : string;
  di_MonitoringNamespace : string;
  di_Status : DsciStatus;
}.

Definition with_finalizers (d : Dsci) (fs : list string) : Dsci :=
  MkDsciCR (di_Name d) (di_UID d) (di_Deleting d) fs (di_DevFlags d) (di_ApplicationsNamespace d)
    (di_MonitoringState d) (di_MonitoringNamespace d) (di_Status d).

Definition with_status (d : Dsci) (st : DsciStatus) : Dsci :=
  MkDsciCR (di_Name d) (di_UID d) (di_Deleting d) (di_Finalizers d) (di_DevFlags d) (di_ApplicationsNamespace d)
    (di_MonitoringState d) (di_MonitoringNamespace d) st.

(** The assignments to fields of the status. *)
Definition set_Phase (phase : string) (d : Dsci) : Dsci :=
  with_status d (MkDsciStatus phase (ds_Release (di_Status d)) (ds_Conditions (di_Status d))).
Definition set_Release (r : Release) (d : Dsci) : Dsci :=
  with_status d (MkDsciStatus (ds_Phase (di_Status d)) r (ds_Conditions (di_Status d))).
Definition set_Conditions (cs : option (list Condition)) (d : Dsci) : Dsci :=
  with_status d (MkDsciStatus (ds_Phase (di_Status d)) (ds_Release (di_Status d)) cs).

Record NamespaceMeta := MkNsMeta { nm_Labels : gmap string string; nm_Annotations : gmap string string }.

Record AuthCR := MkAuthCR { au_Name : string; au_AdminGroups : list string; au_AllowedGroups : list string }.

(** A peer that selects the namespaces with a label. *)
Record NetworkPolicyPeer := MkPeer { peer_NamespaceLabels : gmap string string }.

(** The policy: the pods are those whose label [npo_Key] is not among [npo_NotIn]. *)
Record NetworkPolicy := MkNetworkPolicy {
  npo_Name : string;
  npo_Namespace : string;
  npo_Key : string;
  npo_NotIn : list string;
  npo_Ingress : list (list NetworkPolicyPeer);
  npo_PolicyTypes : list string;
  npo_Owners : list OwnerReference;
}.

(** The default GatewayConfig; durations are nanoseconds. *)
Record DefaultGateway := MkDefaultGateway {
  dg_Name : string;
  dg_CertType : string;
  dg_SecretName : string;
  dg_CookieExpire : Z;
  dg_CookieRefresh : Z;
  dg_AuthProxyTimeout : Z;
  dg_Owners : list OwnerReference;
}.

Inductive DsciE : Type → Type :=
| DsciPlatform {X : Type} (e : PlatformE X) : DsciE X
| DsciDeploy {X : Type} (e : DeployE X) : DsciE X
| DsciLog {X : Type} (e : LogE X) : DsciE X
| ListDscis : DsciE (result (list Dsci))
| GetDsci (name : string) : DsciE (result Dsci)
| UpdateDsci (d : Dsci) : DsciE (option goerr)
| UpdateDsciStatus (d : Dsci) : DsciE (option goerr)
| RecordWarning (name note : string) : DsciE unit
| HasMonitoringCRD : DsciE (result bool)
| WatchMonitoring : DsciE (option goerr)
| ListAppNamespaces : DsciE (result (list string))
| GetNamespace (name : string) : DsciE (option goerr)
| CreateOrUpdateNamespace (name : string) (mutate : NamespaceMeta → NamespaceMeta) : DsciE (option goerr)
| ApplyNetworkPolicy (np : NetworkPolicy) : DsciE (option goerr)
| GetConfigMap (namespace name : string) : DsciE (option goerr)
| GetAuth (name : string) : DsciE (option goerr)
| CreateAuthCR (auth : AuthCR) : DsciE (option goerr)
| GetGateway (name : string) : DsciE (option goerr)
| CreateGateway (gateway : DefaultGateway) : DsciE (option goerr)
| GetHardwareProfile (name namespace : string) : DsciE (option goerr)
| ApplyPlatformCR (platform : Platform) : DsciE (result PlatformModules)
| DeleteModule (module : string) : DsciE (option goerr)
| BuildModule (module : string) : DsciE (option Unstructured * option goerr)
| ApplyModule (obj : Unstructured) : DsciE (option goerr)
| GetMonitoring (name : string) : DsciE (result value_map)
| ListAuths : DsciE (result nat)
| ListGateways : DsciE (result nat).

(** What the libraries provide: [SetLabels] of the framework, [SetControllerReference] (the
    references of the object after it, or the object), [EnsureGroupVersionKind] for a kind and
    the equality of two versions. *)
Class DsciLib := {
  SetLabels : gmap string string → gmap string string → gmap string string;
  controller_refs : Dsci → list OwnerReference → result (list OwnerReference);
  set_controller : Dsci → Unstructured → result Unstructured;
  EnsureGroupVersionKind : string → option goerr;
  version_Equals : string → string → bool;
}.

(** [retry.OnError(backoff, retriable, fn)] for a function that keeps a state between its
    attempts. *)
Class Retries := OnError : ∀ S : Type, (goerr → bool) → (S → prog DsciE (S * option goerr)) → S → prog DsciE (S * option goerr).

(** ** Constants *)

Definition ConditionTypeAvailable : string := "Available".
Definition ConditionTypeProgressing : string := "Progressing".
Definition ConditionTypeUpgradeable : string := "Upgradeable".
Definition ConditionTypeReconcileComplete : string := "ReconcileComplete".

Definition PhaseNotReady : string := "Not Ready".
Definition PhaseProgressing : string := "Progressing".
Definition PhaseError : string := "Error".
Definition PhaseReady : string := "Ready".

Definition ReconcileFailed : string := "ReconcileFailed".
Definition ReconcileInit : string := "ReconcileInit".
Definition ReconcileCompleted : string := "ReconcileCompleted".
Definition ReconcileCompletedMessage : string := "Reconcile completed successfully".

Definition SecurityEnforce : string := "pod-security.kubernetes.io/enforce".
Definition ClusterMonitoring : string := "openshift.io/cluster-monitoring".
Definition CustomizedAppNamespace : string := "opendatahub.io/application-namespace".
Definition OwnedNamespace : string := "opendatahub.io/generated-namespace".
Definition PSAElevatedBy : string := "opendatahub.io/psa-elevated-by".

(** ** Conditions *)

Section status.
Context `{StatusConditions}.
Implicit Types (cs : option (list Condition)).

(** [cond.SetStatusCondition] on the slice. *)
Definition set_status cs (c : Condition) : option (list Condition) := Some (SetStatusCondition (default [] cs) c).

Definition setConditions cs (conditions : list Condition) : option (list Condition) := foldl set_status cs conditions.

Definition SetProgressingCondition cs (reason message : string) : option (list Condition) :=
  setConditions cs
    [condition ConditionTypeReconcileComplete ConditionUnknown reason message;
     condition ConditionTypeAvailable ConditionFalse reason message;
     condition ConditionTypeProgressing ConditionTrue reason message;
     condition ConditionTypeDegraded ConditionFalse reason message;
     condition ConditionTypeUpgradeable ConditionUnknown reason message].

Definition SetErrorCondition cs (reason message : string) : option (list Condition) :=
  setConditions cs
    [condition ConditionTypeReconcileComplete ConditionFalse reason message;
     condition ConditionTypeAvailable ConditionFalse reason message;
     condition ConditionTypeProgressing ConditionFalse reason message;
     condition ConditionTypeDegraded ConditionTrue reason message;
     condition ConditionTypeUpgradeable ConditionFalse reason message].

Definition SetCompleteCondition cs (reason message : string) : option (list Condition) :=
  setConditions cs
    [condition ConditionTypeReconcileComplete ConditionTrue reason message;
     condition ConditionTypeAvailable ConditionTrue reason message;
     condition ConditionTypeProgressing ConditionFalse reason message;
     condition ConditionTypeDegraded ConditionFalse reason message;
     condition ConditionTypeUpgradeable ConditionTrue reason message].

Definition SetCondition cs (conditionType reason message st : string) : option (list Condition) :=
  set_status cs (condition conditionType st reason message).
End status.

(** ** Status updates *)

Definition retryOnNotFoundOrConflict (err : goerr) : bool := err_is TagConflict err || err_is TagNotFound err.

(** One attempt: the object is read again into [saved], changed and written. *)
Definition update_attempt (name : string) (update : Dsci → Dsci) (saved : Dsci) : prog DsciE (Dsci * option goerr) :=
  got ← trigger (GetDsci name);
  match got with
  | Err err => mret (saved, Some err)
  | Ok fresh =>
      let saved := update fresh in
      err ← trigger (UpdateDsciStatus saved);
      mret (saved, err)
  end.

Definition UpdateWithRetry `{Retries} (original : Dsci) (update : Dsci → Dsci) : prog DsciE (Dsci * option goerr) :=
  OnError Dsci retryOnNotFoundOrConflict (update_attempt (di_Name original) update) original.

(** A [Reporter] of an object: the update depends on the error it is given. *)
Definition ReportCondition `{Retries} (object : Dsci) (determineCondition : option goerr → Dsci → Dsci)
    (optionalErr : option goerr) : prog DsciE (Dsci * option goerr) :=
  UpdateWithRetry object (determineCondition optionalErr).

(** ** Namespaces and the network policy *)

(** How a call of [Deploy] ends for its caller: the controller reports a panic as an error. *)
Definition deploy_error (e : ended) : option goerr :=
  match e with
  | Ended err => err
  | Panicked => Some (errorf "panic: runtime error: index out of range [recovered]")
  end.

Section setup.
Context `{DsciLib, DeployLib}.
(** [r.OperatorSettings.ManifestsBasePath]. *)
Variable ManifestsBasePath : string.

Definition deploy_manifests (instance : Dsci) (path componentName : string) : prog DsciE (option goerr) :=
  e ← lift (@DsciDeploy) (DeployManifestsFromPath (di_Name instance) path (di_ApplicationsNamespace instance) componentName true);
  mret (deploy_error e).

Definition app_namespace_labels (platform : string) (extraLabel : list (gmap string string)) : gmap string string :=
  let labelList := {[SecurityEnforce := "baseline"]} in
  let labelList := if String.eqb platform ManagedRhoai || String.eqb platform SelfManagedRhoai
                   then <[ClusterMonitoring := "true"]> labelList else labelList in
  foldl (λ labelList l, l ∪ labelList) labelList extraLabel.

(** The function that [CreateOrUpdate] runs on the namespace. *)
Definition mutate_app_namespace (labelList : gmap string string) (ns : NamespaceMeta) : NamespaceMeta :=
  let labelList :=
    if String.eqb (default "" (nm_Labels ns !! SecurityEnforce)) "privileged" &&
       negb (String.eqb (default "" (nm_Annotations ns !! PSAElevatedBy)) "")
    then delete SecurityEnforce labelList else labelList in
  MkNsMeta (SetLabels (nm_Labels ns) labelList) (nm_Annotations ns).

Definition createAppNamespace (nsName platform : string) (extraLabel : list (gmap string string)) : prog DsciE (option goerr) :=
  trigger (CreateOrUpdateNamespace nsName (mutate_app_namespace (app_namespace_labels platform extraLabel))).

Definition appNamespaceHandler (dscInit : Dsci) (platform : string) : prog DsciE (option goerr) :=
  let dsciNsName := di_ApplicationsNamespace dscInit in
  nsList ← trigger ListAppNamespaces;
  match nsList with
  | Err err => mret (Some err)
  | Ok [] =>
      err ← trigger (GetNamespace dsciNsName);
      match err with
      | Some err =>
          if negb (err_is TagNotFound err) then mret (Some err)
          else createAppNamespace dsciNsName platform [{[OwnedNamespace := "true"]}]
      | None => createAppNamespace dsciNsName platform [{[OwnedNamespace := "true"]}]
      end
  | Ok [name] =>
      if negb (String.eqb name dsciNsName) then
        mret (Some (errorf "DSCI must used the same namespace which has opendatahub.io/application-namespace=true label"))
      else createAppNamespace dsciNsName platform []
  | Ok _ => mret (Some (errorf "only support max. one namespace with label: opendatahub.io/application-namespace=true"))
  end.

Definition monitoring_labels : gmap string string := {[OwnedNamespace := "true"; SecurityEnforce := "baseline"]}.

Definition PatchMonitoringNS (dscInit : Dsci) : prog DsciE (option goerr) :=
  let monitoringName := di_MonitoringNamespace dscInit in
  if String.eqb (di_ApplicationsNamespace dscInit) monitoringName then mret None
  else trigger (CreateOrUpdateNamespace monitoringName (λ ns, MkNsMeta (SetLabels (nm_Labels ns) monitoring_labels) (nm_Annotations ns))).

Definition createNetworkPolicyPeer (key value : string) : list NetworkPolicyPeer := [MkPeer {[key := value]}].

Definition default_network_policy (namespace : string) (owners : list OwnerReference) : NetworkPolicy :=
  MkNetworkPolicy namespace namespace "app" [DashboardRedirectName]
    [createNetworkPolicyPeer OwnedNamespace "true";
     createNetworkPolicyPeer CustomizedAppNamespace "true";
     createNetworkPolicyPeer "network.openshift.io/policy-group" "ingress";
     createNetworkPolicyPeer "kubernetes.io/metadata.name" "openshift-host-network";
     createNetworkPolicyPeer "kubernetes.io/metadata.name" "openshift-monitoring";
     createNetworkPolicyPeer "kubernetes.io/metadata.name" "openshift-cluster-observability-operator"]
    ["Ingress"] owners.

Definition ReconcileDefaultNetworkPolicy (dscInit : Dsci) : prog DsciE (option goerr) :=
  match EnsureGroupVersionKind "NetworkPolicy" with
  | Some err => mret (Some (wrapf "unable to set GVK to NetworkPolicy" err))
  | None =>
      match controller_refs dscInit [] with
      | Err err => mret (Some (wrapf "unable to add OwnerReference to the Network policy" err))
      | Ok owners => trigger (ApplyNetworkPolicy (default_network_policy (di_ApplicationsNamespace dscInit) owners))
      end
  end.

Definition createOperatorResource (dscInit : Dsci) (platform : string) : prog DsciE (option goerr) :=
  err ← appNamespaceHandler dscInit platform;
  match err with
  | Some err => mret (Some err)
  | None =>
      err ← (if String.eqb (di_MonitoringState dscInit) Managed then PatchMonitoringNS dscInit else mret None);
      match err with
      | Some err => mret (Some err)
      | None => ReconcileDefaultNetworkPolicy dscInit
      end
  end.

Definition configureSegmentIO (dsciInit : Dsci) : prog DsciE (option goerr) :=
  err ← trigger (GetConfigMap (di_ApplicationsNamespace dsciInit) "odh-segment-key-config");
  match err with
  | None => mret None
  | Some err =>
      if negb (err_is TagNotFound err) then mret (Some err)
      else
        err ← deploy_manifests dsciInit (filepath_Join [ManifestsBasePath; "segment"]) "segment-io";
        match err with
        | Some err => mret (Some err)
        | None => mret None
        end
  end.

(** ** Auth *)

Definition AuthInstanceName : string := "auth".

Definition adminGroups : gmap string string :=
  {[SelfManagedRhoai := "rhods-admins"; ManagedRhoai := "dedicated-admins"; OpenDataHub := "odh-admins"]}.

Definition BuildDefaultAuth (platform : string) : AuthCR :=
  let adminGroup := default "" (adminGroups !! platform) in
  let adminGroup := if String.eqb adminGroup "" then default "" (adminGroups !! OpenDataHub) else adminGroup in
  MkAuthCR AuthInstanceName [adminGroup] ["system:authenticated"].

Definition CreateAuth (platform : string) : prog DsciE (option goerr) :=
  err ← trigger (GetAuth AuthInstanceName);
  match err with
  | None => mret None
  | Some err =>
      if negb (err_is TagNotFound err) then mret (Some err)
      else
        err ← trigger (CreateAuthCR (BuildDefaultAuth platform));
        match err with
        | Some err => if negb (err_is TagAlreadyExists err) then mret (Some err) else mret None
        | None => mret None
        end
  end.

(** ** Hardware profile *)

Definition ManageDefaultAndCustomHWProfileCR (dscInit : Dsci) (platform : string) : prog DsciE (option goerr) :=
  if String.eqb platform "" then mret None
  else
    defaultProfileError ← trigger (GetHardwareProfile "default-profile" (di_ApplicationsNamespace dscInit));
    match defaultProfileError with
    | None => mret None
    | Some err =>
        if negb (err_is TagNotFound err) then
          mret (Some (Goerr ("failed to check HardwareProfile CR: default-profile " +:+ err_text err) (err_tags err)))
        else
          let defaultProfilePath := filepath_Join [ManifestsBasePath; "hardwareprofiles"] in
          err ← deploy_manifests dscInit defaultProfilePath "hardwareprofile";
          match err with
          | Some err => mret (Some (wrapf ("failed to deploy default-profile HardwareProfile CR from path " +:+ defaultProfilePath) err))
          | None => mret None
          end
    end.
End setup.
