(* ===== verification/DsciController.v ===== *)
(** * DsciController: the reconciler of the DSCInitialization

    Models [internal/controller/dscinitialization/dscinitialization_controller.go]: the
    reconciliation, the watch on the Monitoring CR that is added once its CRD exists, the
    conditions mirrored from the Monitoring CR, the default GatewayConfig, the modules that the
    DSCInitialization configures and the functions that map events to requests.

    The watch state is threaded; everything else the reconciler keeps is in the cluster. *)

From S2P Require Import Prelude Effects Conditions Unstructured SharedPlatform Secrets Gateway GatewayStatus GatewayAuth Logger ModuleBase ModuleRegistry ModuleActions DscController Deploy Dsci.

(** ** Constants *)

Definition finalizerName : string := "dscinitialization.opendatahub.io/finalizer".
Definition fieldManager : string := "dscinitialization.opendatahub.io".

Definition ConditionTypeProvisioningSucceeded : string := "ProvisioningSucceeded".
Definition ConditionMonitoringReady : string := "MonitoringReady".
Definition ConditionMonitoringDependenciesReady : string := "MonitoringDependenciesReady".
Definition ConditionMonitoringStackAvailable : string := "MonitoringStackAvailable".
Definition ConditionThanosQuerierAvailable : string := "ThanosQuerierAvailable".
Definition ConditionOpenTelemetryCollectorAvailable : string := "OpenTelemetryCollectorAvailable".
Definition ConditionTempoAvailable : string := "TempoAvailable".
Definition ConditionPersesAvailable : string := "PersesAvailable".
Definition ConditionAlertingAvailable : string := "AlertingAvailable".
Definition ConditionNodeMetricsEndpointAvailable : string := "NodeMetricsEndpointAvailable".
Definition ConditionLokiStackAvailable : string := "LokiStackAvailable".
Definition ConditionClusterLogForwarderAvailable : string := "ClusterLogForwarderAvailable".
Definition ConditionUsageLogsCollectorAvailable : string := "UsageLogsCollectorAvailable".
Definition ReadyReason : string := "Ready".
Definition MonitoringInstanceName : string := "default-monitoring".
Definition DefaultGatewayTLSSecretName : string := "data-science-gatewayconfig-tls".
Definition ClusterTypeKubernetes : string := "Kubernetes".

Definition DSCInitializationGVK : GroupVersionKind :=
  MkGVK "dscinitialization.opendatahub.io" "v2" "DSCInitialization".

(** ** The watch on the Monitoring CR *)

(** [ws_ready]: the controller and the manager are set. *)
Record WatchState := MkWatch { ws_ready : bool; ws_added : bool }.

Definition ensureMonitoringWatch (ws : WatchState) : prog DsciE WatchState :=
  if negb (ws_ready ws) then mret ws
  else if ws_added ws then mret ws
  else
    hasCRD ← trigger HasMonitoringCRD;
    match hasCRD with
    | Ok true =>
        err ← trigger WatchMonitoring;
        match err with
        | Some _ => mret ws
        | None => mret (MkWatch (ws_ready ws) true)
        end
    | _ => mret ws
    end.

(** ** Mapping events to requests: the names that are reconciled *)

Definition watchAuthResource : prog DsciE (list string) :=
  instanceList ← trigger ListAuths;
  mret (match instanceList with Ok 0%nat => ["auth"] | _ => [] end).

Definition watchGatewayConfigResource : prog DsciE (list string) :=
  instanceList ← trigger ListGateways;
  mret (match instanceList with Ok 0%nat => [GatewayConfigName] | _ => [] end).

Section controller.
Context `{StatusConditions, Retries, DsciLib, DeployLib, Nested}.
Variable multierror_error : list goerr → goerr.
Variable gvk_String : GroupVersionKind → string.
Variable NotFound_text : string → string → string → string.
Variable parse_RFC3339 : string → option Z.
(** [client-go]'s retry for the owner of the Platform CR and the owner that is merged. *)
Variable RetryOnConflict : prog PlatformE (option goerr) → prog PlatformE (option goerr).
Variable SetOwnerReference : Dsci → list OwnerReference → result (list OwnerReference).
Variables (ManifestsBasePath clusterType : string).
(** [cluster.GetRelease()]. *)
Variable currentOperatorRelease : Release.
Variable moduleReg : ModuleRegistry.t (DSCContext unit Dsci).

(** [cluster.GetDSCI]. *)
Definition GetInstance : prog DsciE (result Dsci) :=
  listed ← trigger ListDscis;
  match listed with
  | Err err => mret (Err (wrapf ("failed to list resources of type " +:+ gvk_String DSCInitializationGVK) err))
  | Ok [dsci] => mret (Ok dsci)
  | Ok [] => mret (Err (Goerr (NotFound_text (gvk_Group DSCInitializationGVK) "dscinitializations" "") [TagNotFound]))
  | Ok items =>
      mret (Err (errorf ("failed to get a valid " +:+ gvk_String DSCInitializationGVK +:+
        " instance, expected to find 1 instance, found " +:+ itoa (Z.of_nat (length items)))))
  end.

Definition watchMonitoringResource : prog DsciE (list string) :=
  dsci ← GetInstance;
  mret (match dsci with Err _ => ["default-dsci"] | Ok dsci => [di_Name dsci] end).

Definition reconcileOnCRDChange : prog DsciE (list string) :=
  dsci ← GetInstance;
  mret (match dsci with Err _ => ["default-dsci"] | Ok dsci => [di_Name dsci] end).

(** ** Conditions mirrored from the Monitoring CR *)

Record DSCInitializationCondition := MkDsciCondition {
  dc_Type : string;
  dc_ReadyReason : string;
  dc_ReadyMessage : string;
  dc_ReadyStatus : string;
}.

(** The cases of the switch. *)
Definition mirrored_types : list string :=
  [ConditionTypeReady; ConditionTypeProvisioningSucceeded; ConditionMonitoringDependenciesReady;
   ConditionMonitoringStackAvailable; ConditionThanosQuerierAvailable; ConditionOpenTelemetryCollectorAvailable;
   ConditionTempoAvailable; ConditionPersesAvailable; ConditionAlertingAvailable; ConditionNodeMetricsEndpointAvailable;
   ConditionLokiStackAvailable; ConditionClusterLogForwarderAvailable; ConditionUsageLogsCollectorAvailable].

Definition mirror_conditions (monitoringConditions : list Condition) : list DSCInitializationCondition :=
  (λ c, MkDsciCondition (c_type c) (c_reason c) (c_message c) (c_status c)) <$>
  filter (λ c, c_type c ∈ mirrored_types) monitoringConditions.

Definition monitoring_ready (got : result value_map) : list DSCInitializationCondition :=
  match got with
  | Err err =>
      if err_is TagNotFound err || err_is TagNoMatch err
      then [MkDsciCondition ConditionMonitoringReady RemovedReason "Monitoring is not enabled" ConditionFalse]
      else [MkDsciCondition ConditionMonitoringReady NotReadyReason
              ("Failed to retrieve Monitoring CR status: " +:+ err_text err) ConditionUnknown]
  | Ok monitoring =>
      match ParseConditions parse_RFC3339 monitoring with
      | Err err => [MkDsciCondition ConditionMonitoringReady NotReadyReason
                      ("Failed to parse Monitoring CR status: " +:+ err_text err) ConditionUnknown]
      | Ok monitoringConditions =>
          match mirror_conditions monitoringConditions with
          | [] => [MkDsciCondition ConditionMonitoringReady NotReadyReason "Monitoring stack is initializing" ConditionUnknown]
          | conditions =>
              conditions ++ [MkDsciCondition ConditionMonitoringReady ReadyReason "Monitoring stack is initialized" ConditionTrue]
          end
      end
  end.

Definition GetMonitoringReadyCondition : prog DsciE (list DSCInitializationCondition) :=
  got ← trigger (GetMonitoring MonitoringInstanceName);
  mret (monitoring_ready got).

(** ** The default GatewayConfig *)

Definition hours (n : Z) : Z := (n * 3600 * 1000000000)%Z.
Definition seconds (n : Z) : Z := (n * 1000000000)%Z.

Definition default_gateway (owners : list OwnerReference) : DefaultGateway :=
  let certType := if String.eqb clusterType ClusterTypeKubernetes then SelfSigned else OpenshiftDefaultIngress in
  MkDefaultGateway GatewayConfigName certType DefaultGatewayTLSSecretName (hours 24) (hours 1) (seconds 5) owners.

Definition CreateGatewayConfig (instance : Dsci) : prog DsciE (option goerr) :=
  err ← trigger (GetGateway GatewayConfigName);
  match err with
  | None => mret None
  | Some err =>
      if negb (err_is TagNotFound err) then mret (Some err)
      else
        match controller_refs instance [] with
        | Err err => mret (Some err)
        | Ok owners =>
            err ← trigger (CreateGateway (default_gateway owners));
            match err with
            | Some err => if negb (err_is TagAlreadyExists err) then mret (Some err) else mret None
            | None => mret None
            end
        end
  end.

(** ** Modules *)

(** The callback of the iteration. *)
Definition reconcile_module (instance : Dsci) (modules : PlatformModules)
    (handler : ModuleHandler (DSCContext unit Dsci)) : prog DsciE (option goerr) :=
  if negb (h_IsEnabled handler modules) then trigger (DeleteModule (h_GetName handler))
  else
    built ← trigger (BuildModule (h_GetName handler));
    match built.2 with
    | Some err => mret (Some (wrapf ("BuildModuleCR failed for module " +:+ h_GetName handler) err))
    | None =>
        match built.1 with
        | None => mret None
        | Some moduleCR =>
            match set_controller instance moduleCR with
            | Err err => mret (Some (wrapf ("failed to set owner reference for module " +:+ h_GetName handler) err))
            | Ok moduleCR =>
                err ← trigger (ApplyModule moduleCR);
                match err with
                | Some err =>
                    if err_is TagNoMatch err || err_is TagNotFound err then mret None
                    else mret (Some (wrapf ("failed to apply module CR " +:+ h_GetName handler) err))
                | None => mret None
                end
            end
        end
    end.

(** The Platform CR after the apply is what the modules are read from. *)
Definition reconcileDSCIModules (instance : Dsci) : prog DsciE (option goerr) :=
  let dscCtx := MkDSCContext None (Some instance) in
  let platform := platform_object (NewPlatformCR multierror_error moduleReg dscCtx ConfigFromDSCI) in
  applied ← trigger (ApplyPlatformCR platform);
  match applied with
  | Err err => mret (Some (wrapf "failed to apply Platform CR" err))
  | Ok modules =>
      err ← lift (@DsciPlatform) (EnsurePlatformOwnerReference (SetOwnerReference instance) RetryOnConflict);
      match err with
      | Some err => mret (Some (wrapf "failed to update Platform owner reference" err))
      | None =>
          res ← ModuleRegistry.ForConfigSource multierror_error moduleReg ConfigFromDSCI
                  (λ (_ : unit) handler _, err ← reconcile_module instance modules handler; mret (tt, err)) tt;
          mret res.2
      end
  end.

(** ** Reconcile *)

Definition isUninstallInProgress (conditions : option (list Condition)) : bool :=
  existsb (λ c, String.eqb (c_type c) ConditionTypeReady && String.eqb (c_status c) ConditionFalse &&
                String.eqb (c_reason c) UninstallInProgressReason) (default [] conditions).

Definition warn (name note : string) : prog DsciE unit := trigger (RecordWarning name note).

(** The function of [retry.RetryOnConflict]. *)
Definition release_attempt (name : string) (_ : unit) : prog DsciE (unit * option goerr) :=
  got ← trigger (GetDsci name);
  match got with
  | Err err => mret (tt, Some err)
  | Ok newInstance =>
      if bool_decide (finalizerName ∈ di_Finalizers newInstance) then
        err ← trigger (UpdateDsci (with_finalizers newInstance (filter (λ f, f ≠ finalizerName) (di_Finalizers newInstance))));
        mret (tt, err)
      else mret (tt, None)
  end.

Definition release (instance : Dsci) : prog DsciE (option goerr) :=
  res ← OnError unit (err_is TagConflict) (release_attempt (di_Name instance)) tt;
  mret res.2.

(** The instance in memory with the finalizer, or the error of its update. *)
Definition add_finalizer (instance : Dsci) : prog DsciE (result Dsci) :=
  if bool_decide (finalizerName ∈ di_Finalizers instance) then mret (Ok instance)
  else
    let instance := with_finalizers instance (di_Finalizers instance ++ [finalizerName]) in
    err ← trigger (UpdateDsci instance);
    mret (match err with Some err => Err err | None => Ok instance end).

(** A status update whose failure ends the reconciliation with [message]. *)
Definition update_or_fail (instance : Dsci) (message : string) (update : Dsci → Dsci) : prog DsciE (option goerr) :=
  res ← UpdateWithRetry instance update;
  match res.2 with
  | None => mret None
  | Some err =>
      warn (di_Name res.1) (message +:+ " for instance " +:+ di_Name res.1 +:+ ": " +:+ err_text err) ;;
      mret (Some err)
  end.

Definition init_status (instance : Dsci) : prog DsciE (option goerr) :=
  match ds_Conditions (di_Status instance) with
  | Some _ => mret None
  | None =>
      let message := "Initializing DSCInitialization resource" in
      update_or_fail instance message (λ saved,
        set_Release currentOperatorRelease (set_Phase PhaseProgressing
          (set_Conditions (SetProgressingCondition (ds_Conditions (di_Status saved)) ReconcileInit message) saved)))
  end.

Definition update_release (instance : Dsci) : prog DsciE (option goerr) :=
  if version_Equals (rel_Version (ds_Release (di_Status instance))) (rel_Version currentOperatorRelease) then mret None
  else update_or_fail instance "Updating DSCInitialization status" (set_Release currentOperatorRelease).

(** The operator's resources; an error is also reported in the status. *)
Definition operator_resources (instance : Dsci) (platform : string) : prog DsciE (option goerr) :=
  err ← createOperatorResource instance platform;
  match err with
  | None => mret None
  | Some err =>
      res ← UpdateWithRetry instance (λ saved,
              set_Phase PhaseError (set_Conditions
                (SetProgressingCondition (ds_Conditions (di_Status saved)) ReconcileFailed (err_text err)) saved));
      (match res.2 with
       | Some err => warn (di_Name instance) (err_text err +:+ " for instance " +:+ di_Name instance)
       | None => mret tt
       end) ;;
      warn (di_Name instance) ("failed to create operator resources for instance " +:+ di_Name instance +:+ ": " +:+ err_text err) ;;
      mret (Some err)
  end.

Definition osd_configs (instance : Dsci) (platform : string) : prog DsciE (option goerr) :=
  if String.eqb platform ManagedRhoai then
    let osdConfigsPath := filepath_Join [ManifestsBasePath; "osd-configs"] in
    err ← deploy_manifests instance osdConfigsPath "osd";
    match err with
    | Some err =>
        warn (di_Name instance) ("Failed to apply " +:+ osdConfigsPath +:+ ": " +:+ err_text err) ;;
        mret (Some err)
    | None => mret None
    end
  else mret None.

Definition segment_io (instance : Dsci) (platform : string) : prog DsciE (option goerr) :=
  if String.eqb platform SelfManagedRhoai then configureSegmentIO ManifestsBasePath instance else mret None.

(** The conditions of a finished reconciliation. *)
Definition complete_status (monitoringConditions : list DSCInitializationCondition) (saved : Dsci) : Dsci :=
  let cs := SetCompleteCondition (ds_Conditions (di_Status saved)) ReconcileCompleted ReconcileCompletedMessage in
  let cs := foldl (λ cs c, SetCondition cs (dc_Type c) (dc_ReadyReason c) (dc_ReadyMessage c) (dc_ReadyStatus c))
              cs monitoringConditions in
  set_Phase PhaseReady (set_Conditions cs saved).

(** The last step: an error of the update is only recorded. *)
Definition finish (instance : Dsci) : prog DsciE (option goerr) :=
  monitoringConditions ← GetMonitoringReadyCondition;
  res ← UpdateWithRetry instance (complete_status monitoringConditions);
  (match res.2 with
   | Some err => warn (di_Name instance) ("Failed to update DSCInitialization status: " +:+ err_text err)
   | None => mret tt
   end) ;;
  mret None.

(** Run the steps in order until one fails. *)
Fixpoint steps (l : list (prog DsciE (option goerr))) : prog DsciE (option goerr) :=
  match l with
  | [] => mret None
  | p :: l =>
      err ← p;
      match err with
      | Some err => mret (Some err)
      | None => steps l
      end
  end.

(** The body, for an instance that stays. *)
Definition provision (instance : Dsci) (platform : string) : list (prog DsciE (option goerr)) :=
  [init_status instance; update_release instance; operator_resources instance platform;
   osd_configs instance platform; segment_io instance platform; CreateAuth platform; CreateGatewayConfig instance;
   ManageDefaultAndCustomHWProfileCR ManifestsBasePath instance platform; reconcileDSCIModules instance; finish instance].

(** The rest of the reconciliation once the instance was found. *)
Definition reconcile_instance (instance : Dsci) (platform : string) : prog DsciE (option goerr) :=
  if negb (di_Deleting instance) then
    instance ← add_finalizer instance;
    match instance with
    | Err err => mret (Some err)
    | Ok instance =>
        if isUninstallInProgress (ds_Conditions (di_Status instance)) then mret None
        else steps (provision instance platform)
    end
  else release instance.

(** The log level; an error is only logged. *)
Definition set_log_level (instance : Dsci) : prog DsciE unit :=
  match di_DevFlags instance with
  | Some level => lift (@DsciLog) (SetLevel level) ;; mret tt
  | None => mret tt
  end.

Definition Reconcile (ws : WatchState) (req : string) : prog DsciE (option goerr * WatchState) :=
  let platform := rel_Name currentOperatorRelease in
  instance ← GetInstance;
  match instance with
  | Err err =>
      if err_is TagNotFound err then mret (None, ws)
      else
        warn req ("Failed to retrieve DSCInitialization instance: " +:+ err_text err) ;;
        mret (Some err, ws)
  | Ok instance =>
      set_log_level instance ;;
      ws ← ensureMonitoringWatch ws;
      err ← reconcile_instance instance platform;
      mret (err, ws)
  end.
End controller.
