(* ===== verification/DsciTheorems.v ===== *)
(** * DsciTheorems: what the DSCInitialization controller guarantees

    When the status turns to Ready and what must have been set up before; what a deleting or
    uninstalling instance still causes; the labels of the application namespace; the
    conditions mirrored from Monitoring; the watch that is added once; the modules touched. *)

From S2P Require Import Prelude Effects Conditions Unstructured SharedPlatform Secrets Gateway GatewayStatus GatewayStatusTheorems GatewayAuth Logger ModuleBase ModuleRegistry ModuleActions DscController Deploy Dsci DsciController.

(** ** Events *)

Inductive dsci_event :=
| EvList (r : result (list Dsci))
| EvGetDsci (name : string) (r : result Dsci)
| EvUpdateDsci (d : Dsci) (err : option goerr)
| EvStatus (d : Dsci) (err : option goerr)
| EvCRD (r : result bool)
| EvWatch (err : option goerr)
| EvNamespace (name : string) (err : option goerr)
| EvNetworkPolicy (np : NetworkPolicy) (err : option goerr)
| EvGetConfigMap (namespace name : string) (err : option goerr)
| EvGetAuth (err : option goerr)
| EvCreateAuth (auth : AuthCR) (err : option goerr)
| EvGetGateway (err : option goerr)
| EvCreateGateway (gateway : DefaultGateway) (err : option goerr)
| EvGetProfile (err : option goerr)
| EvPlatformCR (platform : Platform) (r : result PlatformModules)
| EvDeleteModule (module : string) (err : option goerr)
| EvBuildModule (module : string) (r : option Unstructured * option goerr)
| EvApplyModule (obj : Unstructured) (err : option goerr)
| EvPlatformCall (ev : platform_event)
| EvDeployCall (ev : deploy_event)
| EvQuiet.

Definition dsci_event_of (c : call DsciE) : dsci_event :=
  match c with
  | @Call _ X e x =>
      match e in DsciE X return X → dsci_event with
      | DsciPlatform e => λ x, EvPlatformCall (platform_event_of (Call e x))
      | DsciDeploy e => λ x, EvDeployCall (deploy_event_of (Call e x))
      | ListDscis => EvList
      | GetDsci name => EvGetDsci name
      | UpdateDsci d => EvUpdateDsci d
      | UpdateDsciStatus d => EvStatus d
      | HasMonitoringCRD => EvCRD
      | WatchMonitoring => EvWatch
      | CreateOrUpdateNamespace name _ => EvNamespace name
      | ApplyNetworkPolicy np => EvNetworkPolicy np
      | GetConfigMap namespace name => EvGetConfigMap namespace name
      | GetAuth _ => EvGetAuth
      | CreateAuthCR auth => EvCreateAuth auth
      | GetGateway _ => EvGetGateway
      | CreateGateway gateway => EvCreateGateway gateway
      | GetHardwareProfile _ _ => EvGetProfile
      | ApplyPlatformCR platform => EvPlatformCR platform
      | DeleteModule module => EvDeleteModule module
      | BuildModule module => EvBuildModule module
      | ApplyModule obj => EvApplyModule obj
      | _ => λ _, EvQuiet
      end x
  end.

Notation dsci_events := (events dsci_event_of).

(** Nothing is claimed of a run that does not find one instance. *)
Lemma wp_not_listed {A} (p : prog DsciE A) listed (Φ : list (call DsciE) → A → Dsci → Prop) :
  (∀ instance, listed ≠ Ok [instance]) →
  wp p [Call ListDscis listed] (λ tr r, ∀ instance, head (dsci_events tr) = Some (EvList (Ok [instance])) → Φ tr r instance).
Proof.
  intros Hne. eapply wp_mono; [|apply wp_prefix]. intros tr r [new ->] instance [= Heq]. by destruct (Hne instance).
Qed.

(** What is known of the retries: the function runs at least once, what it keeps a retry
    keeps, and the result is that of its last run. *)
Class RetriesLaws `{Retries} : Prop :=
  OnError_rule (S : Type) retriable (fn : S → prog DsciE (S * option goerr)) s tr
      (I : list (call DsciE) → S → Prop) (J : list (call DsciE) → S → option goerr → Prop) :
    (∀ tr s, I tr s → wp (fn s) tr (λ tr' r, I tr' r.1 ∧ J tr' r.1 r.2)) → I tr s →
    wp (OnError S retriable fn s) tr (λ tr' r, I tr' r.1 ∧ J tr' r.1 r.2).

Lemma OnError_keeps `{RetriesLaws} (S : Type) retriable (fn : S → prog DsciE (S * option goerr)) s tr
    (I : list (call DsciE) → S → Prop) :
  (∀ tr s, I tr s → wp (fn s) tr (λ tr' r, I tr' r.1)) → I tr s →
  wp (OnError S retriable fn s) tr (λ tr' r, I tr' r.1).
Proof.
  intros Hfn Hs. eapply wp_mono; [|apply (OnError_rule S retriable fn s tr I (λ _ _ _, True)); [|exact Hs]].
  - by intros tr' r [? _].
  - intros tr' s' HI. eapply wp_mono; [|by apply Hfn]. by intros tr2 r ?.
Qed.

(** The documented behaviour: run again after a retriable error, while attempts are left. *)
Fixpoint retry_attempts (n : nat) (S : Type) (retriable : goerr → bool) (fn : S → prog DsciE (S * option goerr)) (s : S)
    : prog DsciE (S * option goerr) :=
  match n with
  | O => fn s
  | Datatypes.S n =>
      r ← fn s;
      match r.2 with
      | Some err => if retriable err then retry_attempts n S retriable fn r.1 else mret r
      | None => mret r
      end
  end.

Lemma retry_attempts_laws n : RetriesLaws (H := retry_attempts n).
Proof.
  intros S retriable fn s tr I J Hfn. revert s tr. unfold OnError.
  induction n as [|n IH]; intros s tr Hs; simpl; [by apply Hfn|].
  apply wp_bind. eapply wp_mono; [|by apply Hfn]. intros tr' [s' [err|]] HI; cbn [fst snd] in *; [|exact HI].
  destruct (retriable err); [apply IH, HI|exact HI].
Qed.

(** ** What has been set up *)

Definition deploys (evs : list dsci_event) : list deploy_event :=
  omap (λ ev, match ev with EvDeployCall e => Some e | _ => None end) evs.

Section ready.
Context `{StatusConditions, Retries, DsciLib, DeployLib, Nested} {retries_keep : RetriesLaws}.
Variable multierror_error : list goerr → goerr.
Variable gvk_String : GroupVersionKind → string.
Variable NotFound_text : string → string → string → string.
Variable parse_RFC3339 : string → option Z.
Variable RetryOnConflict : prog PlatformE (option goerr) → prog PlatformE (option goerr).
Variable SetOwnerReference : Dsci → list OwnerReference → result (list OwnerReference).
Variables (ManifestsBasePath clusterType : string).
Variable currentOperatorRelease : Release.
Variable moduleReg : ModuleRegistry.t (DSCContext unit Dsci).

Section instance.
Variable instance : Dsci.
Implicit Types (evs : list dsci_event) (tr : list (call DsciE)).

Notation appNS := (di_ApplicationsNamespace instance).
Notation platform := (rel_Name currentOperatorRelease).

(** The manifests were rendered and every resource of theirs was created or patched. *)
Definition manifests_deployed (componentName : string) evs : Prop :=
  ∃ resMap, EvRendered resMap ∈ deploys evs ∧
    Forall (settled (di_Name instance) appNS componentName true (deploys evs)) resMap.

Definition namespaces_ready evs : Prop :=
  EvNamespace appNS None ∈ evs ∧
  (di_MonitoringState instance = Managed → di_MonitoringNamespace instance ≠ appNS →
     EvNamespace (di_MonitoringNamespace instance) None ∈ evs) ∧
  ∃ owners, EvNetworkPolicy (default_network_policy appNS owners) None ∈ evs.

Definition osd_ready evs : Prop := platform = ManagedRhoai → manifests_deployed "osd" evs.

Definition segment_ready evs : Prop := platform = SelfManagedRhoai →
  EvGetConfigMap appNS "odh-segment-key-config" None ∈ evs ∨ manifests_deployed "segment-io" evs.

(** A creation that succeeded or found the object there. *)
Definition created (err : option goerr) : Prop :=
  match err with None => True | Some e => err_is TagAlreadyExists e = true end.

Definition auth_ready evs : Prop :=
  EvGetAuth None ∈ evs ∨ ∃ err, EvCreateAuth (BuildDefaultAuth platform) err ∈ evs ∧ created err.

Definition gateway_ready evs : Prop :=
  EvGetGateway None ∈ evs ∨
  ∃ owners err, EvCreateGateway (default_gateway clusterType owners) err ∈ evs ∧ created err.

Definition profile_ready evs : Prop := platform ≠ "" → EvGetProfile None ∈ evs ∨ manifests_deployed "hardwareprofile" evs.

Definition modules_ready evs : Prop :=
  ∃ modules, EvPlatformCR (platform_object (NewPlatformCR multierror_error moduleReg
    (MkDSCContext None (Some instance)) ConfigFromDSCI)) (Ok modules) ∈ evs.

(** What each step of the reconciliation leaves behind, in order. *)
Definition evidence : list (list dsci_event → Prop) :=
  [λ _, True; λ _, True; namespaces_ready; osd_ready; segment_ready; auth_ready; gateway_ready; profile_ready; modules_ready].

Definition provisioned evs : Prop := Forall (λ E, E evs) evidence.

(** A write of the status follows a read; it turns the phase to Ready only when everything
    has been set up. *)
Definition ready_write evs (ev : dsci_event) : Prop :=
  match ev with
  | EvStatus d _ => ∃ evs' name fresh, evs = evs' ++ [EvGetDsci name (Ok fresh)] ∧
      (ds_Phase (di_Status d) = PhaseReady → ds_Phase (di_Status fresh) = PhaseReady ∨ provisioned evs')
  | _ => True
  end.

Notation inv := (lawful dsci_event_of ready_write).
Notation grown := (leads dsci_event_of ready_write).
Notation quiet := (harmless dsci_event_of ready_write).
Notation wp_quiet := (wp_harmless dsci_event_of ready_write).

Lemma deploys_app evs evs' : deploys (evs ++ evs') = deploys evs ++ deploys evs'.
Proof. apply omap_app. Qed.

Lemma manifests_deployed_mono c : monotone (manifests_deployed c).
Proof.
  intros evs evs' (resMap & Hr & Hall). exists resMap. rewrite deploys_app. split; [apply elem_of_app; by left|].
  eapply Forall_impl; [exact Hall|]. intros res. apply resource_settled_mono. intros ev Hev. apply elem_of_app. by left.
Qed.

Lemma evidence_mono : Forall monotone evidence.
Proof.
  assert (∀ (ev : dsci_event) evs evs', ev ∈ evs → ev ∈ evs ++ evs') as Hin by (intros; apply elem_of_app; by left).
  pose proof manifests_deployed_mono as Hm. unfold monotone in Hm.
  unfold evidence. rewrite !Forall_cons, Forall_nil. unfold monotone. split_and!; try done; intros evs evs'.
  - intros (? & Hmon & owners & ?). split; [auto|]. split; [auto|]. exists owners. auto.
  - intros Ho Hp. apply Hm, Ho, Hp.
  - intros Hs Hp. destruct (Hs Hp); [left|right]; auto.
  - intros [?|(err & ? & ?)]; [left; auto|right; eauto].
  - intros [?|(owners & err & ? & ?)]; [left; auto|right; eauto].
  - intros Hs Hp. destruct (Hs Hp); [left|right]; auto.
  - intros (m & ?). exists m. auto.
Qed.

(** *** The steps *)

Notation step_ok := (step_ok dsci_event_of ready_write).

Lemma deploys_lifted (new : list (call DeployE)) :
  deploys (dsci_events ((λ c : call DeployE, match c with Call e x => Call (DsciDeploy e) x end) <$> new)) = deploy_events new.
Proof. induction new as [|[X e x] new IH]; [done|]. exact (f_equal (cons _) IH). Qed.

Lemma wp_deploy_manifests path componentName tr :
  wp (deploy_manifests instance path componentName) tr (λ tr' err,
    err = None → manifests_deployed componentName (dsci_events tr')).
Proof.
  unfold deploy_manifests, DeployManifestsFromPath. apply wp_bind.
  eapply wp_mono; [|apply wp_lift, wp_DeployManifests].
  intros tr' e (new & [_ Hdone] & ->). apply wp_ret. intros He.
  destruct e as [err|]; [|done]. simpl in He. subst err. destruct Hdone as (resMap & Hr & Hall); [done|].
  exists resMap. rewrite events_app, deploys_app, deploys_lifted. simpl in Hr, Hall.
  split; [apply elem_of_app; by right|]. eapply Forall_impl; [exact Hall|].
  intros res. apply resource_settled_mono. intros ev Hev. apply elem_of_app. by right.
Qed.

(** Discharge what only makes calls that do not write the status. *)
Ltac quiet_step :=
  match goal with
  | |- all_calls _ (Ret _) => exact I
  | |- all_calls _ (mret _) => exact I
  | |- all_calls _ (trigger _) => intros ?; split; [intros ?; exact I|exact I]
  | |- all_calls _ (warn _ _) => intros ?; split; [intros ?; exact I|exact I]
  | |- all_calls _ (mbind _ _) => apply all_calls_bind; [|intros ?]
  | |- all_calls _ (lift _ _) => apply all_calls_lift; intros ? ? ? ?; exact I
  | |- all_calls _ (match ?x with _ => _ end) => destruct x
  end.
Ltac quiet_calls := repeat quiet_step.

Lemma quiet_deploy path c : all_calls quiet (deploy_manifests instance path c).
Proof. unfold deploy_manifests. quiet_calls. Qed.

Lemma createAppNamespace_ok extra tr :
  wp (createAppNamespace appNS platform extra) tr (λ tr' err, err = None → EvNamespace appNS None ∈ dsci_events tr').
Proof. intros err ->. apply (last_event dsci_event_of tr (Call (CreateOrUpdateNamespace appNS _) None)). Qed.

Lemma appNamespaceHandler_ok tr :
  wp (appNamespaceHandler instance platform) tr (λ tr' err, err = None → EvNamespace appNS None ∈ dsci_events tr').
Proof.
  unfold appNamespaceHandler. apply wp_bind, wp_call. intros [[|name [|name' names]]|err]; [| |by apply wp_ret..].
  - apply wp_bind, wp_call. intros [err|]; [|apply createAppNamespace_ok].
    destruct (err_is TagNotFound err); simpl; [apply createAppNamespace_ok|done].
  - destruct (String.eqb name appNS); simpl; [apply createAppNamespace_ok|done].
Qed.

Lemma createOperatorResource_ok tr :
  wp (createOperatorResource instance platform) tr (λ tr' err, err = None → namespaces_ready (dsci_events tr')).
Proof.
  unfold createOperatorResource. apply wp_bind. eapply wp_mono; [|apply appNamespaceHandler_ok].
  intros tr1 [err|] Happ; [by apply wp_ret|]. specialize (Happ eq_refl).
  apply wp_bind. eapply (wp_mono _ _ (λ tr2 err, (err = None → di_MonitoringState instance = Managed →
      di_MonitoringNamespace instance ≠ appNS → EvNamespace (di_MonitoringNamespace instance) None ∈ dsci_events tr2) ∧
      ∃ new, tr2 = tr1 ++ new)).
  2:{ apply wp_grows. destruct (String.eqb_spec (di_MonitoringState instance) Managed) as [Hm|Hm]; [|by apply wp_ret].
      unfold PatchMonitoringNS. destruct (String.eqb_spec appNS (di_MonitoringNamespace instance)) as [Heq|Hne].
      - apply wp_ret. by intros _ _ [].
      - intros err -> _ _. apply (last_event dsci_event_of tr1 (Call (CreateOrUpdateNamespace _ _) None)). }
  intros tr2 [err|] [Hmon [new ->]]; [by apply wp_ret|]. specialize (Hmon eq_refl).
  unfold ReconcileDefaultNetworkPolicy. destruct (EnsureGroupVersionKind "NetworkPolicy"); [by apply wp_ret|].
  destruct (controller_refs instance []) as [owners|err]; [|by apply wp_ret]. intros err ->.
  split; [by apply later_event, later_event|]. split; [intros; by apply later_event, Hmon|].
  exists owners. apply (last_event dsci_event_of _ (Call (ApplyNetworkPolicy _) None)).
Qed.

(** A status update, allowed by what is known at its start. *)
Lemma wp_UpdateWithRetry original update tr E :
  inv tr → monotone E → E (dsci_events tr) →
  (∀ evs name fresh err, E evs → ready_write (evs ++ [EvGetDsci name (Ok fresh)]) (EvStatus (update fresh) err)) →
  wp (UpdateWithRetry original update) tr (λ tr' _, grown tr tr').
Proof using retries_keep.
  intros Htr Hmono HE Hup. unfold UpdateWithRetry.
  eapply wp_mono; [|apply (OnError_keeps Dsci _ _ original tr (λ tr' _, grown tr tr')); [|by apply leads_refl]].
  { intros tr' r Hg. exact Hg. }
  intros tr' s [Htr' [new Hnew]]. unfold update_attempt. apply wp_bind, wp_call. intros got.
  set (c := Call (GetDsci (di_Name original)) got).
  assert (grown tr (tr' ++ [c])) as Hget.
  { split; [by apply lawful_snoc|]. exists (new ++ [c]). by rewrite Hnew, app_assoc. }
  destruct got as [fresh|err]; [|by apply wp_ret]. apply wp_bind, wp_call. intros err. apply wp_ret.
  eapply leads_trans; [exact Hget|]. split; [|by eexists]. unfold inv. rewrite events_snoc. apply each_after_snoc; [apply Hget|].
  rewrite events_snoc. apply Hup. rewrite Hnew, events_app. by apply Hmono.
Qed.

(** An update that does not make the phase Ready. *)
Lemma wp_other_update original update tr :
  inv tr → (∀ d, ds_Phase (di_Status (update d)) = PhaseReady → ds_Phase (di_Status d) = PhaseReady) →
  wp (UpdateWithRetry original update) tr (λ tr' _, grown tr tr').
Proof using retries_keep.
  intros Htr Hup. apply (wp_UpdateWithRetry _ _ _ (λ _, True)); [done..|].
  intros evs name fresh err _. exists evs, name, fresh. split; [done|]. intros Hr. left. by apply Hup.
Qed.

Lemma update_or_fail_ok message update :
  (∀ d, ds_Phase (di_Status (update d)) = PhaseReady → ds_Phase (di_Status d) = PhaseReady) →
  step_ok (update_or_fail instance message update) (λ _, True).
Proof using retries_keep.
  intros Hup tr Htr. unfold update_or_fail. apply wp_bind.
  eapply wp_mono; [|by apply wp_other_update]. intros tr' [d [err|]] Hg; [|by apply wp_ret].
  cbn [fst snd]. apply wp_bind. eapply wp_mono; [|apply wp_quiet; [quiet_calls|apply Hg]].
  intros tr2 u Hg2. apply wp_ret. split; [by eapply leads_trans|done].
Qed.

Lemma init_status_ok : step_ok (init_status currentOperatorRelease instance) (λ _, True).
Proof using retries_keep.
  unfold init_status. destruct (ds_Conditions (di_Status instance)); [by apply step_none|]. by apply update_or_fail_ok.
Qed.

Lemma update_release_ok : step_ok (update_release currentOperatorRelease instance) (λ _, True).
Proof using retries_keep.
  unfold update_release. destruct (version_Equals _ _); [by apply step_none|]. by apply update_or_fail_ok.
Qed.

Lemma quiet_createOperatorResource : all_calls quiet (createOperatorResource instance platform).
Proof.
  unfold createOperatorResource, appNamespaceHandler, createAppNamespace, PatchMonitoringNS, ReconcileDefaultNetworkPolicy.
  quiet_calls.
Qed.

Lemma operator_resources_ok : step_ok (operator_resources instance platform) namespaces_ready.
Proof using retries_keep.
  intros tr Htr. unfold operator_resources. apply wp_bind.
  eapply wp_mono; [|apply wp_and; [apply wp_quiet; [apply quiet_createOperatorResource|done]|apply createOperatorResource_ok]].
  intros tr1 [err|] [Hg Hok]; [|by apply wp_ret; auto]. clear Hok.
  apply wp_bind. eapply wp_mono; [|apply wp_other_update; [apply Hg|done]]. intros tr2 [d err2] Hg2.
  cbn [fst snd]. apply (wp_mono _ _ (λ tr3 err3, grown tr2 tr3 ∧ err3 ≠ None)).
  { intros tr3 err3 [Hg3 Herr]. split; [|done]. eapply leads_trans; [exact Hg|]. by eapply leads_trans. }
  apply wp_and; [apply wp_quiet; [quiet_calls|apply Hg2]|].
  apply wp_bind. destruct err2; [intros ?|]; apply wp_ret, wp_bind; intros ?; by apply wp_ret.
Qed.

Lemma osd_configs_ok : step_ok (osd_configs ManifestsBasePath instance platform) osd_ready.
Proof.
  unfold osd_configs, osd_ready. destruct (String.eqb_spec platform ManagedRhoai) as [Hp|Hp]; [|by apply step_none].
  apply step_harmless.
  - apply all_calls_bind; [apply quiet_deploy|]. intros [err|]; quiet_calls.
  - intros tr. apply wp_bind. eapply wp_mono; [|apply wp_deploy_manifests].
    intros tr' [err|] Hd; [intros ?; by apply wp_ret|]. apply wp_ret. auto.
Qed.

Lemma segment_io_ok : step_ok (segment_io ManifestsBasePath instance platform) segment_ready.
Proof.
  unfold segment_io, segment_ready. destruct (String.eqb_spec platform SelfManagedRhoai) as [Hp|Hp]; [|by apply step_none].
  unfold configureSegmentIO. apply step_harmless.
  - apply all_calls_bind; [quiet_calls|]. intros [err|]; [|done]. destruct (err_is _ _); [cbn [negb]|done].
    apply all_calls_bind; [apply quiet_deploy|]. intros [?|]; quiet_calls.
  - intros tr. apply wp_bind, wp_call. intros [err|].
    + destruct (err_is TagNotFound err); [cbn [negb]|by apply wp_ret]. apply wp_bind. eapply wp_mono; [|apply wp_deploy_manifests].
      intros tr' [e|] Hd; apply wp_ret; [done|]. intros _ _. right. by apply Hd.
    + apply wp_ret. intros _ _. left. apply (last_event dsci_event_of tr (Call (GetConfigMap _ _) None)).
Qed.

Lemma CreateAuth_ok : step_ok (CreateAuth platform) auth_ready.
Proof.
  unfold CreateAuth. apply step_harmless; [quiet_calls|]. intros tr. apply wp_bind, wp_call. intros [err|].
  - destruct (err_is TagNotFound err); [cbn [negb]|by apply wp_ret]. apply wp_bind, wp_call. intros err2.
    assert (created err2 → auth_ready (dsci_events ((tr ++ [Call (GetAuth AuthInstanceName) (Some err)]) ++
              [Call (CreateAuthCR (BuildDefaultAuth platform)) err2]))) as Hc.
    { intros Hc. right. exists err2. split; [|done]. apply (last_event dsci_event_of _ (Call (CreateAuthCR _) err2)). }
    destruct err2 as [e|]; [destruct (err_is TagAlreadyExists e) eqn:He|]; apply wp_ret; [intros _; by apply Hc|done|intros _; by apply Hc].
  - apply wp_ret. intros _. left. apply (last_event dsci_event_of tr (Call (GetAuth _) None)).
Qed.

Lemma CreateGatewayConfig_ok : step_ok (CreateGatewayConfig clusterType instance) gateway_ready.
Proof.
  unfold CreateGatewayConfig. apply step_harmless; [quiet_calls|]. intros tr. apply wp_bind, wp_call. intros [err|].
  - destruct (err_is TagNotFound err); [cbn [negb]|by apply wp_ret].
    destruct (controller_refs instance []) as [owners|e]; [|by apply wp_ret]. apply wp_bind, wp_call. intros err2.
    assert (created err2 → gateway_ready (dsci_events ((tr ++ [Call (GetGateway GatewayConfigName) (Some err)]) ++
              [Call (CreateGateway (default_gateway clusterType owners)) err2]))) as Hc.
    { intros Hc. right. exists owners, err2. split; [|done]. apply (last_event dsci_event_of _ (Call (CreateGateway _) err2)). }
    destruct err2 as [e|]; [destruct (err_is TagAlreadyExists e) eqn:He|]; apply wp_ret; [intros _; by apply Hc|done|intros _; by apply Hc].
  - apply wp_ret. intros _. left. apply (last_event dsci_event_of tr (Call (GetGateway _) None)).
Qed.

Lemma profile_ok : step_ok (ManageDefaultAndCustomHWProfileCR ManifestsBasePath instance platform) profile_ready.
Proof.
  unfold ManageDefaultAndCustomHWProfileCR, profile_ready.
  destruct (String.eqb_spec platform "") as [Hp|Hp]; [by apply step_none|]. apply step_harmless.
  - apply all_calls_bind; [quiet_calls|]. intros [err|]; [|done]. destruct (err_is _ _); [cbn [negb]|done].
    apply all_calls_bind; [apply quiet_deploy|]. intros [?|]; quiet_calls.
  - intros tr. apply wp_bind, wp_call. intros [err|].
    + destruct (err_is TagNotFound err); [cbn [negb]|by apply wp_ret]. apply wp_bind. eapply wp_mono; [|apply wp_deploy_manifests].
      intros tr' [e|] Hd; apply wp_ret; [done|]. intros _ _. right. by apply Hd.
    + apply wp_ret. intros _ _. left. apply (last_event dsci_event_of tr (Call (GetHardwareProfile _ _) None)).
Qed.

Notation reconcileModules :=
  (reconcileDSCIModules multierror_error RetryOnConflict SetOwnerReference moduleReg instance).

Lemma quiet_reconcile_module modules h : all_calls quiet (reconcile_module instance modules h).
Proof. unfold reconcile_module. quiet_calls. Qed.

Lemma quiet_for_modules modules :
  all_calls quiet (ModuleRegistry.ForConfigSource multierror_error moduleReg ConfigFromDSCI
    (λ (_ : unit) handler _, err ← reconcile_module instance modules handler; mret (tt, err)) tt).
Proof.
  apply all_calls_bind; [|done]. apply all_calls_foldl. intros acc name.
  destruct (_ !! name) as [e|]; [|done]. destruct (bool_decide _); [|done].
  apply all_calls_bind; [|done]. apply all_calls_bind; [apply quiet_reconcile_module|done].
Qed.

Lemma modules_ok : step_ok reconcileModules modules_ready.
Proof.
  unfold reconcileDSCIModules. apply step_harmless.
  - apply all_calls_bind; [quiet_calls|]. intros [modules|err]; [|done].
    apply all_calls_bind; [quiet_calls|]. intros [err|]; [done|].
    apply all_calls_bind; [apply quiet_for_modules|done].
  - intros tr. apply wp_bind, wp_call. intros [modules|err]; [|by apply wp_ret].
    eapply wp_mono; [|apply wp_prefix]. intros tr' err [new ->] _. exists modules. apply later_event.
    apply (last_event dsci_event_of tr (Call (ApplyPlatformCR _) (Ok modules))).
Qed.

(** The last step, once everything else is there. *)
Lemma finish_ok tr :
  inv tr → provisioned (dsci_events tr) →
  wp (finish parse_RFC3339 instance) tr (λ tr' _, grown tr tr').
Proof using retries_keep.
  intros Htr Hp. unfold finish, GetMonitoringReadyCondition. apply wp_bind, wp_bind, wp_call. intros got. apply wp_ret.
  set (c := Call _ got). assert (grown tr (tr ++ [c])) as Hg by (split; [by apply lawful_snoc|by exists [c]]).
  assert (monotone provisioned) as Hmono.
  { intros evs evs' Hall. unfold provisioned in *. pose proof evidence_mono as Hm. rewrite Forall_forall in *.
    intros E HE. by apply Hm, Hall. }
  apply wp_bind. eapply wp_mono; [|apply (wp_UpdateWithRetry _ _ _ provisioned); [apply Hg|done|..]].
  - intros tr2 [d [err|]] Hg2; cbn [fst snd]; apply wp_bind.
    + intros u. apply wp_ret, wp_ret. eapply leads_trans; [exact Hg|]. eapply leads_trans; [exact Hg2|].
      split; [apply lawful_snoc; [apply Hg2|done]|by eexists].
    + apply wp_ret, wp_ret. by eapply leads_trans.
  - rewrite events_app. by apply Hmono.
  - intros evs name fresh err Hev. exists evs, name, fresh. split; [done|]. by right.
Qed.

(** *** The sequence *)

Lemma wp_steps ps Es tr :
  Forall2 step_ok ps Es → Forall monotone Es → inv tr →
  wp (steps ps) tr (λ tr' err, grown tr tr' ∧ (err = None → Forall (λ E, E (dsci_events tr')) Es)).
Proof.
  intros Hok Hmono. revert tr. induction Hok as [|p E ps Es Hp _ IH]; intros tr Htr; simpl.
  { split; [by apply leads_refl|]. intros _. constructor. }
  apply Forall_cons in Hmono as [HE Hmono]. apply wp_bind. eapply wp_mono; [|by apply Hp].
  intros tr1 [err|] [Hg HE1]; [by apply wp_ret|].
  eapply wp_mono; [|by apply IH; [|apply Hg]]. intros tr2 err [Hg2 HEs]. split; [by eapply leads_trans|].
  intros He. constructor; [|by apply HEs]. destruct Hg2 as [_ [new ->]]. rewrite events_app. by apply HE, HE1.
Qed.

Lemma steps_snoc ps p : ∀ tr Φ,
  wp (steps ps) tr (λ tr' err, match err with None => wp (steps [p]) tr' Φ | Some e => Φ tr' (Some e) end) →
  wp (steps (ps ++ [p])) tr Φ.
Proof.
  induction ps as [|q ps IH]; intros tr Φ; [done|]. cbn [app]. intros Hq.
  change (wp (err ← q; match err with Some err => mret (Some err) | None => steps ps end) tr
    (λ tr' err, match err with None => wp (steps [p]) tr' Φ | Some e => Φ tr' (Some e) end)) in Hq.
  change (wp (err ← q; match err with Some err => mret (Some err) | None => steps (ps ++ [p]) end) tr Φ).
  apply wp_bind_inv in Hq. apply wp_bind. eapply wp_mono; [|exact Hq]. intros tr' [err|] Hr; [exact Hr|]. by apply IH.
Qed.

Notation provision_steps := (provision multierror_error parse_RFC3339 RetryOnConflict SetOwnerReference ManifestsBasePath
  clusterType currentOperatorRelease moduleReg instance platform).

Lemma wp_provision tr :
  inv tr → wp (steps provision_steps) tr (λ tr' err, grown tr tr' ∧ (err = None → provisioned (dsci_events tr'))).
Proof using retries_keep.
  intros Htr. unfold provision.
  change [?a; ?b; ?c; ?d; ?e; ?f; ?g; ?h; ?i; ?j] with ([a; b; c; d; e; f; g; h; i] ++ [j]). apply steps_snoc.
  eapply wp_mono; [|apply (wp_steps _ evidence); [|apply evidence_mono|done]].
  - intros tr1 [err|] [Hg Hall]; [by split|]. specialize (Hall eq_refl). cbn [steps]. apply wp_bind.
    eapply wp_mono; [|apply wp_grows, finish_ok; [apply Hg|exact Hall]]. intros tr2 err [Hg2 [new Hnew]].
    assert (provisioned (dsci_events tr2)) as Hp2.
    { unfold provisioned. pose proof evidence_mono as Hm. rewrite Forall_forall in *. intros E HE.
      rewrite Hnew, events_app. by apply Hm, Hall. }
    destruct err; apply wp_ret; (split; [by eapply leads_trans|done]).
  - unfold evidence. repeat constructor; [apply init_status_ok|apply update_release_ok|apply operator_resources_ok|
      apply osd_configs_ok|apply segment_io_ok|apply CreateAuth_ok|apply CreateGatewayConfig_ok|apply profile_ok|apply modules_ok].
Qed.
End instance.

Notation inv d := (lawful dsci_event_of (ready_write d)).
Notation grown d := (leads dsci_event_of (ready_write d)).
Notation quiet d := (harmless dsci_event_of (ready_write d)).

Lemma wp_silent {A} i (p : prog DsciE A) tr : all_calls (quiet i) p → inv i tr → wp p tr (λ tr' _, grown i tr tr').
Proof. apply wp_harmless. Qed.

(** The instance as the rest of the reconciliation sees it. *)
Definition finalized (d : Dsci) : Dsci :=
  if bool_decide (finalizerName ∈ di_Finalizers d) then d else with_finalizers d (di_Finalizers d ++ [finalizerName]).

Lemma wp_ensureMonitoringWatch_quiet ws d tr :
  inv d tr → wp (ensureMonitoringWatch ws) tr (λ tr' _, grown d tr tr').
Proof.
  intros Htr. apply wp_silent; [|done]. unfold ensureMonitoringWatch.
  destruct (ws_ready ws); [|done]. destruct (ws_added ws); [done|]. cbn [negb]. intros r. split; [by intros ?|].
  destruct r as [[]|]; [|done..]. intros e. split; [by intros ?|]. by destruct e.
Qed.

Notation reconcile := (Reconcile multierror_error gvk_String NotFound_text parse_RFC3339 RetryOnConflict SetOwnerReference
  ManifestsBasePath clusterType currentOperatorRelease moduleReg).
Notation reconcile_one := (reconcile_instance multierror_error parse_RFC3339 RetryOnConflict SetOwnerReference
  ManifestsBasePath clusterType currentOperatorRelease moduleReg).

Lemma finalized_status d : di_Status (finalized d) = di_Status d.
Proof. unfold finalized. by case_bool_decide. Qed.

Lemma wp_add_finalizer d tr :
  wp (add_finalizer d) tr (λ _ r, ∀ d', r = Ok d' → d' = finalized d).
Proof.
  unfold add_finalizer, finalized. destruct (bool_decide _); [by intros ? [= ->]|].
  intros [err|]; [done|]. by intros ? [= <-].
Qed.

Lemma quiet_add_finalizer i d : all_calls (quiet i) (add_finalizer d).
Proof. unfold add_finalizer. destruct (bool_decide _); [done|]. intros err. split; [by intros ?|]. by destruct err. Qed.

Lemma quiet_release_attempt i name u : all_calls (quiet i) (release_attempt name u).
Proof.
  unfold release_attempt. apply all_calls_bind; [intros ?; split; [by intros ?|done]|]. intros [d|err]; [|done].
  destruct (bool_decide _); [|done]. apply all_calls_bind; [intros ?; split; [by intros ?|done]|done].
Qed.

Lemma wp_release i d tr : inv i tr → wp (release d) tr (λ tr' _, grown i tr tr').
Proof using retries_keep.
  intros Htr. unfold release. apply wp_bind.
  eapply wp_mono; [|apply (OnError_keeps unit _ _ tt tr (λ tr' _, grown i tr tr')); [|by apply leads_refl]].
  { intros tr' r Hg. by apply wp_ret. }
  intros tr' u Hg. eapply wp_mono; [|apply wp_silent; [apply quiet_release_attempt|apply Hg]].
  intros tr2 r Hg2. by eapply leads_trans.
Qed.

(** How the reconciliation of one instance may end without an error. *)
Definition settled_instance (d : Dsci) (evs : list dsci_event) : Prop :=
  di_Deleting d = true ∨ isUninstallInProgress (ds_Conditions (di_Status d)) = true ∨
  provisioned (finalized d) evs.

Lemma wp_reconcile_instance d tr :
  inv (finalized d) tr →
  wp (reconcile_one d (rel_Name currentOperatorRelease)) tr (λ tr' err,
    grown (finalized d) tr tr' ∧ (err = None → settled_instance d (dsci_events tr'))).
Proof using retries_keep.
  intros Htr. unfold reconcile_instance, settled_instance. destruct (di_Deleting d) eqn:Hdel; cbn [negb].
  - eapply wp_mono; [|apply wp_release, Htr]. intros tr' err Hg. auto.
  - apply wp_bind. eapply wp_mono; [|apply wp_and; [apply wp_silent; [apply quiet_add_finalizer|exact Htr]|apply wp_add_finalizer]].
    intros tr1 [d'|err] [Hg Hd]; [|by apply wp_ret]. rewrite (Hd d' eq_refl), finalized_status.
    destruct (isUninstallInProgress _); [apply wp_ret; auto|].
    eapply wp_mono; [|apply wp_provision, Hg]. intros tr2 err [Hg2 Hp].
    split; [by eapply leads_trans|]. auto.
Qed.

Lemma quiet_set_log_level i d : all_calls (quiet i) (set_log_level d).
Proof.
  unfold set_log_level. destruct (di_DevFlags d); [|done].
  apply all_calls_bind; [|done]. apply all_calls_lift. intros X e x evs. exact I.
Qed.

(** C4: the phase of the DSCInitialization turns to Ready only when everything is set up, and
    a reconciliation that returns no error has set everything up. Whatever the cluster
    answers and however often status updates are retried, a status write that makes the
    phase Ready comes after the namespaces and the network policy were applied, the
    manifests of the platform were deployed (each rendered resource created or patched), the
    Auth, the GatewayConfig and the default hardware profile exist and the Platform CR was
    applied with the modules of this instance. Otherwise the instance is being deleted or
    the operator uninstalled. *)
Theorem ready_only_when_provisioned ws req :
  wp (reconcile ws req) [] (λ tr r, ∀ instance, head (dsci_events tr) = Some (EvList (Ok [instance])) →
    each_after (ready_write (finalized instance)) (dsci_events tr) ∧
    (r.1 = None → settled_instance instance (dsci_events tr))).
Proof using retries_keep.
  unfold Reconcile, GetInstance. apply wp_bind, wp_bind, wp_call. intros listed.
  destruct listed as [[|d [|d' ds]]|err]; [by apply wp_ret, wp_not_listed| |by apply wp_ret, wp_not_listed..].
  apply wp_ret. set (tr0 := [] ++ [Call ListDscis (Ok [d])]).
  assert (inv (finalized d) tr0) as Htr0.
  { apply lawful_snoc; [apply each_after_nil|done]. }
  apply (wp_mono _ _ (λ tr r, (grown (finalized d) tr0 tr ∧
    (r.1 = None → settled_instance d (dsci_events tr))))).
  { intros tr r [[Hinv [new ->]] Hr] instance [= ->]. by split. }
  apply wp_bind. eapply wp_mono; [|apply wp_silent; [apply quiet_set_log_level|exact Htr0]].
  intros tr1 u Hg1. apply wp_bind. eapply wp_mono; [|apply (wp_ensureMonitoringWatch_quiet _ (finalized d)), Hg1].
  intros tr2 ws' Hg2. apply wp_bind. eapply wp_mono; [|apply wp_reconcile_instance, Hg2].
  intros tr3 err [Hg3 Hs]. apply wp_ret. split; [|done].
  eapply leads_trans; [exact Hg1|]. eapply leads_trans; [exact Hg2|exact Hg3].
Qed.
End ready.

(** ** An instance that goes away *)

Section quiescence.
Context `{StatusConditions, Retries, DsciLib, DeployLib, Nested} {retries_keep : RetriesLaws}.
Variable instance : Dsci.
Implicit Types (evs : list dsci_event) (tr : list (call DsciE)).

(** The only write is an update of the instance just read, which changes its finalizers:
    the controller's own is dropped from an instance that is being deleted, and added to one
    that stays. *)
Definition finalizer_write evs (ev : dsci_event) : Prop :=
  match ev with
  | EvUpdateDsci d _ =>
      if di_Deleting instance then ∃ evs' name fresh, evs = evs' ++ [EvGetDsci name (Ok fresh)] ∧
        d = with_finalizers fresh (filter (λ f, f ≠ finalizerName) (di_Finalizers fresh))
      else d = with_finalizers instance (di_Finalizers instance ++ [finalizerName])
  | EvStatus _ _ | EvNamespace _ _ | EvNetworkPolicy _ _ | EvCreateAuth _ _ | EvCreateGateway _ _
  | EvPlatformCR _ _ | EvDeleteModule _ _ | EvApplyModule _ _ | EvPlatformCall _ | EvDeployCall _ => False
  | _ => True
  end.

Notation kept := (lawful dsci_event_of finalizer_write).

Lemma wp_release_attempt u tr :
  di_Deleting instance = true → kept tr →
  wp (release_attempt (di_Name instance) u) tr (λ tr' _, kept tr').
Proof.
  intros Hdel Htr. unfold release_attempt. apply wp_bind, wp_call. intros got.
  set (c := Call _ got). assert (kept (tr ++ [c])) as Hget.
  { by apply lawful_snoc. }
  destruct got as [d|err]; [|by apply wp_ret]. destruct (bool_decide _); [|by apply wp_ret].
  apply wp_bind, wp_call. intros err. apply wp_ret, lawful_snoc; [done|].
  simpl. rewrite Hdel. exists (dsci_events tr), (di_Name instance), d.
  split; [exact (events_snoc dsci_event_of tr c)|done].
Qed.

Lemma wp_release_finalizer tr :
  di_Deleting instance = true → kept tr →
  wp (release instance) tr (λ tr' _, kept tr').
Proof using retries_keep.
  intros Hdel Htr. unfold release. apply wp_bind.
  eapply wp_mono; [|apply (OnError_keeps unit _ _ tt tr (λ tr' _, kept tr')); [|done]].
  { intros tr' r Hg. by apply wp_ret. }
  intros tr' u Hg. by apply wp_release_attempt.
Qed.

Lemma wp_add_finalizer_write tr :
  di_Deleting instance = false → kept tr →
  wp (add_finalizer instance) tr (λ tr' _, kept tr').
Proof.
  intros Hdel Htr. unfold add_finalizer. destruct (bool_decide _); [by apply wp_ret|].
  apply wp_bind, wp_call. intros err. apply wp_ret, lawful_snoc; [done|].
  simpl. by rewrite Hdel.
Qed.
End quiescence.

Section uninstalling.
Context `{StatusConditions, Retries, DsciLib, DeployLib, Nested} {retries_keep : RetriesLaws}.
Variable multierror_error : list goerr → goerr.
Variable gvk_String : GroupVersionKind → string.
Variable NotFound_text : string → string → string → string.
Variable parse_RFC3339 : string → option Z.
Variable RetryOnConflict : prog PlatformE (option goerr) → prog PlatformE (option goerr).
Variable SetOwnerReference : Dsci → list OwnerReference → result (list OwnerReference).
Variables (ManifestsBasePath clusterType : string).
Variable currentOperatorRelease : Release.
Variable moduleReg : ModuleRegistry.t (DSCContext unit Dsci).

(** C19: a DSCInitialization that is being deleted, or that carries the marker of a running
    uninstallation, is left alone: whatever the cluster answers, a reconciliation writes
    nothing but the controller's finalizer - it is dropped from an instance just read that is
    being deleted, leaving the others, and added to one that is not. Nothing is created,
    deployed, patched or deleted, and the status is not touched, so the marker stays. *)
Theorem leaving_instance_is_left_alone ws req :
  wp (Reconcile multierror_error gvk_String NotFound_text parse_RFC3339 RetryOnConflict SetOwnerReference
        ManifestsBasePath clusterType currentOperatorRelease moduleReg ws req) []
    (λ tr _, ∀ instance, head (dsci_events tr) = Some (EvList (Ok [instance])) →
      di_Deleting instance = true ∨ isUninstallInProgress (ds_Conditions (di_Status instance)) = true →
      each_after (finalizer_write instance) (dsci_events tr)).
Proof using retries_keep.
  unfold Reconcile, GetInstance. apply wp_bind, wp_bind, wp_call. intros listed.
  destruct listed as [[|d [|d' ds]]|err]; [by apply wp_ret, wp_not_listed| |by apply wp_ret, wp_not_listed..].
  apply wp_ret. set (tr0 := [] ++ [Call ListDscis (Ok [d])]).
  assert (lawful dsci_event_of (finalizer_write d) tr0) as Htr0.
  { apply lawful_snoc; [apply each_after_nil|done]. }
  eapply (wp_mono _ _ (λ tr _, (di_Deleting d = true ∨ isUninstallInProgress (ds_Conditions (di_Status d)) = true →
    each_after (finalizer_write d) (dsci_events tr)) ∧ ∃ new, tr = tr0 ++ new)).
  { intros tr r [Hr [new ->]] instance [= ->]. exact Hr. }
  apply wp_and; [|apply wp_prefix]. apply wp_bind.
  eapply wp_mono; [|apply (wp_harmless dsci_event_of (finalizer_write d) _ tr0); [|exact Htr0]].
  2:{ unfold set_log_level. destruct (di_DevFlags d); [|done].
      apply all_calls_bind; [|done]. apply all_calls_lift. intros X e x evs. exact I. }
  intros tr1 u [Htr1 _]. apply wp_bind. eapply wp_mono; [|apply (wp_harmless dsci_event_of (finalizer_write d) _ tr1); [|exact Htr1]].
  2:{ unfold ensureMonitoringWatch. destruct (ws_ready ws); [|done]. destruct (ws_added ws); [done|]. cbn [negb].
      intros r. split; [by intros ?|]. destruct r as [[]|]; [|done..]. intros e. split; [by intros ?|]. by destruct e. }
  intros tr2 ws' [Htr2 _]. apply wp_bind. unfold reconcile_instance. destruct (di_Deleting d) eqn:Hdel; cbn [negb].
  { eapply wp_mono; [|by apply (wp_release_finalizer d)]. intros tr3 err Htr3. apply wp_ret. by intros _. }
  apply wp_bind. eapply wp_mono; [|apply wp_and; [by apply (wp_add_finalizer_write d)|apply wp_add_finalizer]].
  intros tr3 [d'|err] [Htr3 Hd]; [|by apply wp_ret, wp_ret]. rewrite (Hd d' eq_refl), finalized_status.
  destruct (isUninstallInProgress _) eqn:Hun; [by apply wp_ret, wp_ret|].
  eapply wp_mono; [|apply wp_prefix]. intros tr4 err _. apply wp_ret. by intros [?|?].
Qed.
End uninstalling.

(** ** The application namespace *)

(** What the code relies on: the labels that are set win, the others are kept. *)
Class DsciLibLaws `{DsciLib} : Prop :=
  SetLabels_lookup old new k : SetLabels old new !! k = match new !! k with Some v => Some v | None => old !! k end.

(** Another component has raised the pod security level and said so. *)
Definition elevated (ns : NamespaceMeta) : bool :=
  String.eqb (default "" (nm_Labels ns !! SecurityEnforce)) "privileged" &&
  negb (String.eqb (default "" (nm_Annotations ns !! PSAElevatedBy)) "").

Definition owned_label (owned : bool) : list (gmap string string) :=
  if owned then [{[OwnedNamespace := "true"]}] else [].

Definition labelled_app_namespace `{DsciLib} platform (owned : bool) ns : NamespaceMeta :=
  mutate_app_namespace (app_namespace_labels platform (owned_label owned)) ns.

(** The labels of the application namespace after it was created or updated: the pod
    security level is baseline, unless another component raised it to privileged and says
    so in an annotation; monitoring is switched on for the two RHOAI platforms; the namespace
    is marked as generated exactly when it was not chosen by the user; every other label, and
    every annotation, is as it was. *)
Theorem app_namespace_labels_spec `{DsciLib} (Hlaws : DsciLibLaws) platform owned ns k :
  nm_Annotations (labelled_app_namespace platform owned ns) = nm_Annotations ns ∧
  nm_Labels (labelled_app_namespace platform owned ns) !! k =
    (if String.eqb k SecurityEnforce then Some (if elevated ns then "privileged" else "baseline")
     else if String.eqb k ClusterMonitoring && (String.eqb platform ManagedRhoai || String.eqb platform SelfManagedRhoai)
          then Some "true"
     else if String.eqb k OwnedNamespace && owned then Some "true"
     else nm_Labels ns !! k).
Proof.
  split; [done|]. unfold labelled_app_namespace, mutate_app_namespace. fold (elevated ns). cbn [nm_Labels]. rewrite SetLabels_lookup.
  assert (elevated ns = true → nm_Labels ns !! SecurityEnforce = Some "privileged") as Hpriv.
  { intros [Hl _]%andb_true_iff. apply String.eqb_eq in Hl.
    destruct (nm_Labels ns !! SecurityEnforce) as [v|]; simpl in Hl; [by subst|done]. }
  unfold app_namespace_labels. set (rhoai := String.eqb platform ManagedRhoai || String.eqb platform SelfManagedRhoai).
  assert (∀ l : gmap string string, (if elevated ns then delete SecurityEnforce l else l) !! k =
    if String.eqb k SecurityEnforce && elevated ns then None else l !! k) as ->.
  { intros l. destruct (elevated ns); [|by rewrite andb_false_r]. rewrite andb_true_r.
    destruct (String.eqb_spec k SecurityEnforce) as [->|Hk]; [apply lookup_delete_eq|by apply lookup_delete_ne]. }
  destruct (String.eqb_spec k SecurityEnforce) as [->|Hs].
  - destruct (elevated ns) eqn:He; [by apply Hpriv|]. by destruct rhoai, owned.
  - destruct (String.eqb_spec k ClusterMonitoring) as [->|Hm]; [by destruct rhoai, owned|].
    destruct (String.eqb_spec k OwnedNamespace) as [->|Ho]; [by destruct rhoai, owned|].
    destruct rhoai, owned; simpl; rewrite ?lookup_union, ?lookup_insert_ne, ?lookup_empty by done;
      rewrite ?(left_id_L None _), ?lookup_singleton_ne, ?lookup_insert_ne by done; done.
Qed.

(** ** Conditions mirrored from Monitoring *)

Section monitoring.
Context `{Nested}.
Variable parse_RFC3339 : string → option Z.

(** The conditions say that Monitoring is ready. *)
Definition says_ready (conditions : list DSCInitializationCondition) : Prop :=
  ∃ c, c ∈ conditions ∧ dc_Type c = ConditionMonitoringReady ∧ dc_ReadyStatus c = ConditionTrue.

(** A condition of the Monitoring CR, which could be read and parsed. *)
Definition monitoring_has (got : result value_map) (c : Condition) : Prop :=
  ∃ monitoring conditions, got = Ok monitoring ∧ ParseConditions parse_RFC3339 monitoring = Ok conditions ∧ c ∈ conditions.

(** A single condition that says no more than that Monitoring is not ready. *)
Lemma only_monitoring_ready r m st (P : Prop) (Q : DSCInitializationCondition → Prop) :
  st ≠ ConditionTrue → ¬ P →
  (says_ready [MkDsciCondition ConditionMonitoringReady r m st] ↔ P) ∧
  ∀ c, c ∈ [MkDsciCondition ConditionMonitoringReady r m st] → dc_Type c ≠ ConditionMonitoringReady → Q c.
Proof.
  intros Hst HP. split; [|by intros c ->%list_elem_of_singleton].
  split; [by intros (c & ->%list_elem_of_singleton & _ & ?)|done].
Qed.

(** The MonitoringReady condition of the DSCInitialization is True exactly when the
    Monitoring CR can be read and parsed and carries a condition of one of the known types,
    whatever that condition's status is; every other condition that is reported is one of the
    CR's, copied with its status, reason and message. *)
Theorem monitoring_ready_iff got :
  (says_ready (monitoring_ready parse_RFC3339 got) ↔ ∃ c, monitoring_has got c ∧ c_type c ∈ mirrored_types) ∧
  ∀ c, c ∈ monitoring_ready parse_RFC3339 got → dc_Type c ≠ ConditionMonitoringReady →
    ∃ c', monitoring_has got c' ∧ c = MkDsciCondition (c_type c') (c_reason c') (c_message c') (c_status c').
Proof.
  unfold monitoring_ready, monitoring_has. destruct got as [monitoring|err].
  2:{ destruct (_ || _); apply only_monitoring_ready; try done; by intros (? & (? & ? & ? & _) & _). }
  destruct (ParseConditions parse_RFC3339 monitoring) as [conditions|err] eqn:Hparse.
  2:{ apply only_monitoring_ready; [done|]. intros (? & (m & ? & [= <-] & ? & _) & _). congruence. }
  assert (∀ c, c ∈ mirror_conditions conditions ↔ ∃ c', c' ∈ conditions ∧ c_type c' ∈ mirrored_types ∧
            c = MkDsciCondition (c_type c') (c_reason c') (c_message c') (c_status c')) as Hin.
  { intros c. unfold mirror_conditions. rewrite list_elem_of_fmap. setoid_rewrite list_elem_of_filter. naive_solver. }
  destruct (mirror_conditions conditions) as [|c0 cs] eqn:Hm.
  - apply only_monitoring_ready; [done|].
    intros (c & (m & conds & [= <-] & Hm2 & Hc) & Ht). rewrite Hparse in Hm2. injection Hm2 as <-.
    eapply not_elem_of_nil. apply Hin. eauto.
  - rewrite <-Hm in *. split.
    + split; [|intros _; eexists; split; [apply elem_of_app; right; by left|done]].
      intros _. destruct (proj1 (Hin c0)) as (c & Hc & Ht & _); [rewrite Hm; by left|]. eauto 10.
    + intros c [(c' & Hc & Ht & ->)%Hin| ->%list_elem_of_singleton]%elem_of_app Hne; [eauto 10|done].
Qed.
End monitoring.

(** A Monitoring CR that reports itself not ready. *)
Definition unready_monitoring : value_map :=
  [("status", VMap [("conditions", VSlice [VMap [("type", VString "Ready"); ("status", VString "False"); ("reason", VString "Error")]])])].

Lemma monitoring_ready_when_not_ready :
  (dc_Type <$> @monitoring_ready nested_documented (λ _, None) (Ok unready_monitoring)) = ["Ready"; "MonitoringReady"] ∧
  (dc_ReadyStatus <$> @monitoring_ready nested_documented (λ _, None) (Ok unready_monitoring)) = ["False"; "True"].
Proof. split; vm_compute; reflexivity. Qed.

(** ** The watch on Monitoring *)

(** Reconciliations one after the other, as the mutex orders them. *)
Definition watch_runs (n : nat) (ws : WatchState) : prog DsciE WatchState :=
  prog_foldl (λ ws _, ensureMonitoringWatch ws) ws (replicate n tt).

(** The watch is added right after the CRD was found, and after that nothing is asked again. *)
Definition watch_call (evs : list dsci_event) (ev : dsci_event) : Prop :=
  EvWatch None ∉ evs ∧
  match ev with
  | EvWatch _ => ∃ evs', evs = evs' ++ [EvCRD (Ok true)]
  | EvCRD _ => True
  | _ => False
  end.

(** The watch on the Monitoring CR is added at most once, however many reconciliations
    run and whatever the cluster answers, and only right after its CRD was found; a failure
    to add it is tried again, and once it is added neither the CRD is looked up nor the watch
    added again. The flag says whether it was added. *)
Theorem monitoring_watch_added_once n ready :
  wp (watch_runs n (MkWatch ready false)) [] (λ tr ws,
    each_after watch_call (dsci_events tr) ∧ (ws_added ws = true ↔ EvWatch None ∈ dsci_events tr)).
Proof.
  unfold watch_runs. eapply wp_mono; [|apply (wp_foldl _ _ _ _ (λ _ tr ws, each_after watch_call (dsci_events tr) ∧
    (ws_added ws = true ↔ EvWatch None ∈ dsci_events tr)))].
  - by intros tr ws Hw.
  - split; [apply each_after_nil|]. split; [done|by intros ?%elem_of_nil].
  - intros pre b todo tr ws _ [Htr Hws]. unfold ensureMonitoringWatch.
    destruct (ws_ready ws); cbn [negb]; [|by apply wp_ret]. destruct (ws_added ws) eqn:Hadd; [by apply wp_ret; rewrite Hadd|].
    assert (EvWatch None ∉ dsci_events tr) as Hnot by (intros Hin%Hws; done).
    apply wp_bind, wp_call. intros r.
    assert (each_after watch_call (dsci_events (tr ++ [Call HasMonitoringCRD r]))) as Hcrd.
    { rewrite events_snoc. by apply each_after_snoc. }
    assert (EvWatch None ∉ dsci_events (tr ++ [Call HasMonitoringCRD r])) as Hnot'.
    { rewrite events_snoc, not_elem_of_app. split; [done|]. by intros [=]%list_elem_of_singleton. }
    destruct r as [[]|err]; [|apply wp_ret; split; [done|]; by rewrite Hadd..].
    apply wp_bind, wp_call. intros err.
    assert (each_after watch_call (dsci_events ((tr ++ [Call HasMonitoringCRD (Ok true)]) ++ [Call WatchMonitoring err]))) as Hw.
    { rewrite events_snoc. apply each_after_snoc; [done|]. split; [done|]. exists (dsci_events tr).
      exact (events_snoc dsci_event_of tr (Call HasMonitoringCRD (Ok true))). }
    destruct err as [err|]; apply wp_ret; (split; [done|]); rewrite ?Hadd, events_snoc, elem_of_app.
    + split; [done|]. intros [?|[=]%list_elem_of_singleton]; done.
    + split; [|done]. intros _. right. by left.
Qed.

(** ** Defaults *)

(** The default Auth passes the validation of its API on every platform: there is an admin
    group, and no admin group is empty or holds every user. *)
Lemma BuildDefaultAuth_valid platform :
  au_AdminGroups (BuildDefaultAuth platform) ≠ [] ∧
  Forall (λ g, g ≠ "" ∧ g ≠ "system:authenticated") (au_AdminGroups (BuildDefaultAuth platform)) ∧
  Forall (λ g, g ≠ "") (au_AllowedGroups (BuildDefaultAuth platform)).
Proof.
  unfold BuildDefaultAuth, adminGroups. cbn [au_AdminGroups au_AllowedGroups].
  split; [done|]. split; [|by repeat constructor]. apply Forall_singleton.
  destruct (decide (platform = SelfManagedRhoai)) as [->|]; [done|].
  destruct (decide (platform = ManagedRhoai)) as [->|]; [done|].
  destruct (decide (platform = OpenDataHub)) as [->|]; [done|].
  by rewrite !lookup_insert_ne, lookup_singleton_ne by done.
Qed.

(** Deploying an enabled component never panics. *)
Lemma deploy_enabled_no_panic `{DeployLib} owner path ns c labels tr :
  wp (DeployManifestsFromPathWithLabels owner path ns c true labels) tr (λ _ e, e ≠ Panicked).
Proof.
  assert (∀ res tr, wp (manageResource res owner ns c true) tr (λ _ e, e ≠ Panicked)) as Hone.
  { intros res tr'. unfold manageResource. destruct (_ && _); [done|]. apply wp_bind.
    eapply wp_mono; [|apply wp_prefix]. intros tr1 [found|err] _.
    - apply wp_bind. eapply wp_mono; [|apply wp_prefix]. done.
    - destruct (err_is _ _); [|done]. apply wp_bind. eapply wp_mono; [|apply wp_prefix]. done. }
  unfold DeployManifestsFromPathWithLabels. apply wp_bind. eapply wp_mono; [|apply wp_prefix].
  intros tr1 [resMap|err] _; [|done]. generalize tr1. induction resMap as [|res resMap IH]; intros tr2; [done|].
  apply wp_bind. eapply wp_mono; [|apply Hone]. intros tr3 [[err|]|] He; [done| |done]. apply IH.
Qed.

(** ** Modules *)

Section modules.
Context `{DsciLib}.
Variable multierror_error : list goerr → goerr.
Variable RetryOnConflict : prog PlatformE (option goerr) → prog PlatformE (option goerr).
Variable SetOwnerReference : Dsci → list OwnerReference → result (list OwnerReference).
Variable moduleReg : ModuleRegistry.t (DSCContext unit Dsci).
Variable instance : Dsci.
(** The modules of the Platform CR that the API server returned. *)
Variable modules : PlatformModules.
Implicit Types (evs : list dsci_event) (h : ModuleHandler (DSCContext unit Dsci)).

(** A module that the DSCInitialization configures. *)
Definition dsci_handler h : Prop :=
  ∃ k e, ModuleRegistry.entries moduleReg !! k = Some e ∧ ModuleRegistry.configSource e = ConfigFromDSCI ∧
    ModuleRegistry.handler e = h.

(** The calls about modules stay within those: disabled ones are deleted, enabled ones built,
    and what was just built is applied with the instance as controller. *)
Definition module_call evs (ev : dsci_event) : Prop :=
  match ev with
  | EvDeleteModule name _ => ∃ h, dsci_handler h ∧ h_GetName h = name ∧ h_IsEnabled h modules = false
  | EvBuildModule name _ => ∃ h, dsci_handler h ∧ h_GetName h = name ∧ h_IsEnabled h modules = true
  | EvApplyModule obj _ => ∃ evs' h u, evs = evs' ++ [EvBuildModule (h_GetName h) (Some u, None)] ∧
      dsci_handler h ∧ h_IsEnabled h modules = true ∧ set_controller instance u = Ok obj
  | _ => True
  end.

(** What was done about a module: an object that it builds was applied, or its CRD is not
    installed yet. *)
Definition applied evs (u : Unstructured) : Prop :=
  ∃ obj err, set_controller instance u = Ok obj ∧ EvApplyModule obj err ∈ evs ∧
    match err with None => True | Some e => err_is TagNoMatch e = true ∨ err_is TagNotFound e = true end.

Definition module_done evs h : Prop :=
  if h_IsEnabled h modules
  then ∃ built, EvBuildModule (h_GetName h) (built, None) ∈ evs ∧ ∀ u, built = Some u → applied evs u
  else EvDeleteModule (h_GetName h) None ∈ evs.

Lemma module_done_app evs evs' h : module_done evs h → module_done (evs ++ evs') h.
Proof.
  unfold module_done, applied. destruct (h_IsEnabled h modules).
  - intros (built & ? & Hu). exists built. split; [apply elem_of_app; by left|].
    intros u (obj & err & ? & ? & ?)%Hu. exists obj, err. rewrite elem_of_app. auto.
  - rewrite elem_of_app. by left.
Qed.

Lemma wp_reconcile_module h tr :
  dsci_handler h → each_after module_call (dsci_events tr) →
  wp (reconcile_module instance modules h) tr (λ tr' err,
    (each_after module_call (dsci_events tr') ∧ (err = None → module_done (dsci_events tr') h)) ∧ ∃ new, tr' = tr ++ new).
Proof.
  intros Hh Htr. apply wp_grows. unfold reconcile_module, module_done. destruct (h_IsEnabled h modules) eqn:Hen; cbn [negb].
  2:{ intros err. split.
      - rewrite events_snoc. apply each_after_snoc; [done|]. by exists h.
      - intros ->. apply (last_event dsci_event_of tr (Call (DeleteModule _) None)). }
  apply wp_bind, wp_call. intros [built err].
  cbn [fst snd]. set (c := Call (BuildModule (h_GetName h)) (built, err)).
  assert (each_after module_call (dsci_events (tr ++ [c]))) as Hb.
  { rewrite events_snoc. apply each_after_snoc; [done|]. by exists h. }
  destruct err as [err|]; [by apply wp_ret|]. pose proof (last_event dsci_event_of tr c) as Hlast. cbn in Hlast.
  destruct built as [u|]; [|apply wp_ret; split; [done|]; intros _; by exists None].
  destruct (set_controller instance u) as [obj|err] eqn:Hset; [|by apply wp_ret].
  apply wp_bind, wp_call. intros err.
  assert (each_after module_call (dsci_events ((tr ++ [c]) ++ [Call (ApplyModule obj) err]))) as Ha.
  { rewrite events_snoc. apply each_after_snoc; [done|]. exists (dsci_events tr), h, u.
    split; [exact (events_snoc dsci_event_of tr c)|done]. }
  assert (match err with None => True | Some e => err_is TagNoMatch e = true ∨ err_is TagNotFound e = true end →
    ∃ built, EvBuildModule (h_GetName h) (built, None) ∈ dsci_events ((tr ++ [c]) ++ [Call (ApplyModule obj) err]) ∧
      ∀ u, built = Some u → applied (dsci_events ((tr ++ [c]) ++ [Call (ApplyModule obj) err])) u) as Hdone.
  { intros He. exists (Some u). split; [by apply later_event|]. intros u' [= <-]. exists obj, err. split; [done|]. split; [|done].
    apply (last_event dsci_event_of _ (Call (ApplyModule obj) err)). }
  destruct err as [e|]; [|apply wp_ret; split; [done|]; intros _; by apply Hdone].
  destruct (err_is TagNoMatch e || err_is TagNotFound e) eqn:He; apply wp_ret; (split; [done|]); [|done].
  intros _. by apply Hdone, orb_true_iff.
Qed.

Lemma wp_reconcile_all tr :
  each_after module_call (dsci_events tr) →
  wp (ModuleRegistry.ForConfigSource multierror_error moduleReg ConfigFromDSCI
        (λ (_ : unit) handler _, err ← reconcile_module instance modules handler; mret (tt, err)) tt) tr
    (λ tr' res, each_after module_call (dsci_events tr') ∧ (res.2 = None → ∀ h, dsci_handler h → module_done (dsci_events tr') h)).
Proof.
  intros Htr. eapply wp_mono; [|apply (wp_for_entries _ _ _ _ _ _ (λ pre tr _ errs, each_after module_call (dsci_events tr) ∧
    (errs = [] → ∀ e, e ∈ pre → module_done (dsci_events tr) (ModuleRegistry.handler e))))].
  - intros tr' res (errs & [Hc Hall] & Hres). split; [done|]. intros Hnone h (k & e & He & Hsrc & <-).
    rewrite Hnone in Hres. apply Hall; [by destruct errs|].
    apply list_elem_of_filter. split; [by apply bool_decide_eq_true_2|]. apply elem_of_sorted_entries. by exists k.
  - split; [done|]. by intros _ e ?%elem_of_nil.
  - intros pre e todo tr' [] errs Heq [Hc Hall]. apply wp_bind.
    assert (dsci_handler (ModuleRegistry.handler e)) as Hh.
    { assert (e ∈ filter (λ e, bool_decide (ModuleRegistry.configSource e = ConfigFromDSCI) = true) (sorted_entries moduleReg))
        as [Hk%bool_decide_eq_true [k Hin]%elem_of_sorted_entries]%list_elem_of_filter; [|by exists k, e].
      rewrite Heq. apply elem_of_app. right. by left. }
    eapply wp_mono; [|by apply wp_reconcile_module]. intros tr2 err [[Hc2 Hdone] [new ->]]. apply wp_ret. split; [done|].
    cbn [snd]. intros Hnil e' [He'| ->%list_elem_of_singleton]%elem_of_app.
    + rewrite events_app. apply module_done_app, Hall; [|done]. by destruct err, errs.
    + apply Hdone. destruct err; [by destruct errs|done].
Qed.
End modules.

(** The DSCInitialization only touches its own modules, and all of them: after the
    Platform CR was applied, its controller deletes CRs only of modules that are registered
    as configured by the DSCInitialization and that the applied Platform CR disables, builds
    only those it enables, and applies only what was just built, with the instance as
    controller. Without an error every such module was deleted, or built and applied unless
    its CRD is missing. When the Platform CR cannot be applied, nothing else happens. *)
Theorem reconcileDSCIModules_scoped `{DsciLib} multierror_error RetryOnConflict SetOwnerReference moduleReg instance :
  wp (reconcileDSCIModules multierror_error RetryOnConflict SetOwnerReference moduleReg instance) [] (λ tr res,
    ∃ platform r, head (dsci_events tr) = Some (EvPlatformCR platform r) ∧
    match r with
    | Err _ => length tr = 1%nat ∧ res ≠ None
    | Ok modules => each_after (module_call moduleReg instance modules) (dsci_events tr) ∧
        (res = None → ∀ h, dsci_handler moduleReg h → module_done instance modules (dsci_events tr) h)
    end).
Proof.
  unfold reconcileDSCIModules. apply wp_bind, wp_call. intros [modules|err].
  2:{ apply wp_ret. eexists _, (Err err). done. }
  set (c := Call _ (Ok modules)).
  eapply (wp_mono _ _ (λ tr res, (each_after (module_call moduleReg instance modules) (dsci_events tr) ∧
    (res = None → ∀ h, dsci_handler moduleReg h → module_done instance modules (dsci_events tr) h)) ∧ ∃ new, tr = ([] ++ [c]) ++ new)).
  { intros tr res [Hr [new ->]]. by eexists _, (Ok modules). }
  apply wp_grows, wp_bind.
  assert (each_after (module_call moduleReg instance modules) (dsci_events ([] ++ [c]))) as Hc.
  { rewrite events_snoc. apply each_after_snoc; [apply each_after_nil|done]. }
  eapply wp_mono; [|apply (wp_all_calls (λ c, ∃ ev, dsci_event_of c = EvPlatformCall ev)); apply all_calls_lift; by eexists].
  intros tr err (new & -> & Hnew).
  assert (each_after (module_call moduleReg instance modules) (dsci_events (([] ++ [c]) ++ new))) as Hc2.
  { clear -Hc Hnew. revert Hc. generalize ([] ++ [c]). induction Hnew as [|c' new [ev Hev] _ IH]; intros tr Htr; [by rewrite app_nil_r|].
    change (c' :: new) with ([c'] ++ new). rewrite app_assoc. apply IH. rewrite events_snoc, Hev. by apply each_after_snoc. }
  destruct err as [err|]; [by apply wp_ret|]. apply wp_bind.
  eapply wp_mono; [|by apply wp_reconcile_all]. intros tr2 res Hr. by apply wp_ret.
Qed.

(** ** A cluster on which everything succeeds *)

Definition dsci_lib_documented : DsciLib := {|
  SetLabels old new := new ∪ old;
  controller_refs d refs := Ok (refs ++ [MkOwner "dscinitialization.opendatahub.io/v2" "DSCInitialization" (di_Name d) (di_UID d) (Some true) (Some true)]);
  set_controller d u := Ok u;
  EnsureGroupVersionKind _ := None;
  version_Equals := String.eqb;
|}.

Lemma dsci_lib_documented_laws : DsciLibLaws (H := dsci_lib_documented).
Proof. intros old new k. cbn. rewrite lookup_union. by destruct (new !! k), (old !! k). Qed.

Lemma app_namespace_labels_spec_witness :
  nm_Labels (labelled_app_namespace (H := dsci_lib_documented) ManagedRhoai true
    (MkNsMeta {[SecurityEnforce := "privileged"; "team" := "a"]} {[PSAElevatedBy := "workbench"]})) !! SecurityEnforce =
  Some "privileged".
Proof. exact (proj2 (app_namespace_labels_spec (H := dsci_lib_documented) dsci_lib_documented_laws _ _ _ _)). Defined.

Definition not_found : goerr := Goerr "not found" [TagNotFound].

Definition sample_dsci : Dsci :=
  MkDsciCR "default-dsci" "uid-1" false [] None "redhat-ods-applications" Managed "redhat-ods-monitoring"
    (MkDsciStatus "" (MkRel "" "") None).

Definition sample_platform : Platform := MkPlatformCR ∅ ∅ [] false ∅ "".

Definition sample_deploy {X} (e : DeployE X) : X :=
  match e with
  | RunKustomize _ => Ok [sample_deployment]
  | TransformNamespace _ resMap | TransformLabels _ resMap => Ok resMap
  | GetLive _ _ _ => Err not_found
  | StatFile _ | CreateLive _ | DeleteLive _ | PatchLive _ _ _ => None
  end.

Definition sample_platform_call {X} (e : PlatformE X) : X :=
  match e with GetPlatform => Ok sample_platform | UpdatePlatform _ => None end.

Definition sample_log {X} (e : LogE X) : X :=
  match e with LoadLevel => true | StoreLevel _ => tt end.

(** The state is the instance that the cluster stores. *)
Definition sample_cluster X (e : DsciE X) : Dsci → X * Dsci :=
  match e in DsciE X return Dsci → X * Dsci with
  | DsciPlatform e => λ d, (sample_platform_call e, d)
  | DsciDeploy e => λ d, (sample_deploy e, d)
  | DsciLog e => λ d, (sample_log e, d)
  | RecordWarning _ _ => λ d, (tt, d)
  | ListDscis => λ d, (Ok [d], d)
  | GetDsci _ => λ d, (Ok d, d)
  | UpdateDsci new | UpdateDsciStatus new => λ _, (None, new)
  | HasMonitoringCRD => λ d, (Ok true, d)
  | ListAppNamespaces => λ d, (Ok [], d)
  | GetNamespace _ | GetConfigMap _ _ | GetAuth _ | GetGateway _ | GetHardwareProfile _ _ => λ d, (Some not_found, d)
  | ApplyPlatformCR platform => λ d, (Ok (pl_Modules platform), d)
  | BuildModule _ => λ d, ((None, None), d)
  | GetMonitoring _ => λ d, (Ok unready_monitoring, d)
  | ListAuths | ListGateways => λ d, (Ok 0%nat, d)
  | WatchMonitoring | CreateOrUpdateNamespace _ _ | ApplyNetworkPolicy _ | CreateAuthCR _ | CreateGateway _
  | DeleteModule _ | ApplyModule _ => λ d, (None, d)
  end.

#[local] Existing Instances status_conditions_documented dsci_lib_documented deploy_lib_documented nested_documented.
#[local] Instance three_retries : Retries := retry_attempts 3.
#[local] Instance three_retries_laws : RetriesLaws := retry_attempts_laws 3.

Definition sample_program : prog DsciE (option goerr * WatchState) :=
  Reconcile (λ _, errorf "errors") (λ _, "gvk") (λ _ _ _, "not found") (λ _, None) id (λ _ refs, Ok refs)
    "/opt/manifests" "OpenShift" (MkRel SelfManagedRhoai "3.0.0") ModuleRegistry.empty (MkWatch true false) "default-dsci".

Definition sample_reconcile (d : Dsci) : (option goerr * WatchState) * Dsci * list (call DsciE) :=
  run sample_cluster sample_program d [].

Lemma ready_only_when_provisioned_witness :
  ds_Phase (di_Status (sample_reconcile sample_dsci).1.2) = PhaseReady ∧
  settled_instance (λ _, errorf "errors") "OpenShift" (MkRel SelfManagedRhoai "3.0.0") ModuleRegistry.empty sample_dsci
    (dsci_events (sample_reconcile sample_dsci).2).
Proof.
  split; [vm_compute; reflexivity|].
  refine (proj2 (run_wp sample_cluster sample_program sample_dsci [] _ (ready_only_when_provisioned
    (λ _, errorf "errors") (λ _, "gvk") (λ _ _ _, "not found") (λ _, None) id (λ _ refs, Ok refs)
    "/opt/manifests" "OpenShift" (MkRel SelfManagedRhoai "3.0.0") ModuleRegistry.empty (MkWatch true false) "default-dsci")
    sample_dsci _) _); vm_compute; reflexivity.
Defined.

(** The same instance with the marker of an uninstallation. *)
Definition uninstalling_dsci : Dsci :=
  with_status sample_dsci (MkDsciStatus PhaseReady (MkRel "" "") (Some
    [MkCondition ConditionTypeReady ConditionFalse UninstallInProgressReason "Uninstalling" SeverityUnset 0 0])).

Lemma leaving_instance_is_left_alone_witness :
  each_after (finalizer_write uninstalling_dsci) (dsci_events (sample_reconcile uninstalling_dsci).2) ∧
  di_Status (sample_reconcile uninstalling_dsci).1.2 = di_Status uninstalling_dsci.
Proof.
  split; [|vm_compute; reflexivity].
  refine (run_wp sample_cluster sample_program uninstalling_dsci [] _ (leaving_instance_is_left_alone
    (λ _, errorf "errors") (λ _, "gvk") (λ _ _ _, "not found") (λ _, None) id (λ _ refs, Ok refs)
    "/opt/manifests" "OpenShift" (MkRel SelfManagedRhoai "3.0.0") ModuleRegistry.empty (MkWatch true false) "default-dsci")
    uninstalling_dsci _ _); [vm_compute; reflexivity|right; vm_compute; reflexivity].
Defined.
