(* ===== verification/Uninstall.v ===== *)
(** * Uninstall: removing the operator

    Models [internal/controller/services/setup/setup_controller.go] (the controller that the
    delete ConfigMap triggers), [pkg/upgrade/uninstallation.go], and of [pkg/cluster]
    [DeleteExistingSubscription] and [GetClusterServiceVersion].

    The calls are events of [UninstallE]; those about DSCInitializations are events of
    [DsciE], since their status is updated the way the DSCInitialization controller does.
    [wait.ExponentialBackoffWithContext] is the parameter [Backoff]. *)

From S2P Require Import Prelude Effects Conditions Unstructured SharedPlatform Secrets Gateway GatewayStatus GatewayAuth Logger ModuleBase Deploy Dsci.

(** ** Data *)

Record DscObject := MkDscObject {
  do_Name : string;
  do_Phase : string;
  do_Conditions : option (list Condition);
}.

(** A namespace of the list: its name and its phase. *)
Record NamespaceItem := MkNsItem { ni_Name : string; ni_Phase : string }.

Definition NamespaceTerminating : string := "Terminating".
Definition NamespaceActive : string := "Active".

(** A ClusterServiceVersion: its name and the kinds it owns. *)
Record CSV := MkCSV { csv_Name : string; csv_OwnedKinds : list string }.

(** A ClusterExtension: its name and its content. *)
Record Extension := MkExtension { ext_Name : string; ext_Object : value_map }.

Definition DeleteConfigMapLabel : string := "api.openshift.com/addon-managed-odh-delete".
Definition odhOperatorPackage : string := "opendatahub-operator".
Definition rhoaiOperatorPackage : string := "rhods-operator".

Inductive UninstallE : Type → Type :=
| UDsci {X : Type} (e : DsciE X) : UninstallE X
| ListDeleteConfigMaps (namespace : string) : UninstallE (result nat)
| ListDscs : UninstallE (result (list DscObject))
| GetDscObject (name : string) : UninstallE (result DscObject)
| UpdateDscObjectStatus (d : DscObject) : UninstallE (option goerr)
| DeleteAllDSC : UninstallE (option goerr)
| DeleteAllDSCI : UninstallE (option goerr)
| ListGenerated : UninstallE (result (list NamespaceItem))
| DeleteNamespace (name : string) : UninstallE (option goerr)
| SleepFor (d : Z) : UninstallE unit
| GetSubscription (namespace name : string) : UninstallE (result string)
| DeleteSubscription (name : string) : UninstallE (option goerr)
| ListCSVs (namespace : string) : UninstallE (result (list CSV))
| DeleteCSV (name : string) : UninstallE (option goerr)
| ListExtensions : UninstallE (result (list Extension))
| DeleteExtension (name : string) : UninstallE (option goerr).

(** The retry of a status update of a DataScienceCluster. *)
Class UninstallRetries := OnErrorU :
  (goerr → bool) → (DscObject → prog UninstallE (DscObject * option goerr)) → DscObject → prog UninstallE (DscObject * option goerr).

(** [wait.ExponentialBackoffWithContext]: the condition keeps a state, and returns whether
    the waiting is over or an error. *)
Class Backoff := ExponentialBackoff :
  (list string → prog UninstallE (list string * result bool)) → list string → prog UninstallE (list string * option goerr).

(** [client.IgnoreNotFound]. *)
Definition IgnoreNotFound (err : option goerr) : option goerr :=
  match err with
  | Some e => if err_is TagNotFound e then None else Some e
  | None => None
  end.

(** ** The marker *)

Section marker.
Context `{StatusConditions}.

Definition mark_dsc (saved : DscObject) : DscObject :=
  MkDscObject (do_Name saved) PhaseNotReady
    (SetCondition (do_Conditions saved) ConditionTypeReady UninstallInProgressReason UninstallInProgressMessage ConditionFalse).

Definition mark_dsci (saved : Dsci) : Dsci :=
  let cs := SetProgressingCondition (ds_Conditions (di_Status saved)) UninstallInProgressReason UninstallInProgressMessage in
  let cs := SetCondition cs ConditionTypeReady UninstallInProgressReason UninstallInProgressMessage ConditionFalse in
  set_Phase PhaseNotReady (set_Conditions cs saved).

(** One attempt of [status.UpdateWithRetry] for a DataScienceCluster. *)
Definition dsc_update_attempt (name : string) (saved : DscObject) : prog UninstallE (DscObject * option goerr) :=
  got ← trigger (GetDscObject name);
  match got with
  | Err err => mret (saved, Some err)
  | Ok fresh =>
      let saved := mark_dsc fresh in
      err ← trigger (UpdateDscObjectStatus saved);
      mret (saved, err)
  end.

Section marking.
Context `{Retries, UninstallRetries}.

Fixpoint mark_dscs (items : list DscObject) : prog UninstallE (option goerr) :=
  match items with
  | [] => mret None
  | dsc :: items =>
      res ← OnErrorU retryOnNotFoundOrConflict (dsc_update_attempt (do_Name dsc)) dsc;
      match res.2 with
      | Some err => mret (Some (wrapf ("failed to update DataScienceCluster " +:+ quote (do_Name dsc) +:+ " status") err))
      | None => mark_dscs items
      end
  end.

Fixpoint mark_dscis (items : list Dsci) : prog UninstallE (option goerr) :=
  match items with
  | [] => mret None
  | dsci :: items =>
      res ← lift (@UDsci) (UpdateWithRetry dsci mark_dsci);
      match res.2 with
      | Some err => mret (Some (wrapf ("failed to update DSCInitialization " +:+ quote (di_Name dsci) +:+ " status") err))
      | None => mark_dscis items
      end
  end.

Definition markUninstallInProgress : prog UninstallE (option goerr) :=
  dscList ← trigger ListDscs;
  match dscList with
  | Err err => mret (Some (wrapf "failed to list DataScienceCluster resources" err))
  | Ok dscs =>
      err ← mark_dscs dscs;
      match err with
      | Some err => mret (Some err)
      | None =>
          dsciList ← trigger (UDsci ListDscis);
          match dsciList with
          | Err err => mret (Some (wrapf "failed to list DSCInitialization resources" err))
          | Ok dscis => mark_dscis dscis
          end
      end
  end.
End marking.
End marker.

(** ** The steps of the removal *)

Section removal.
Context `{Nested, Backoff}.
(** [cluster.GetOperatorNamespace()] and the text of [NewNotFound]. *)
Variable operatorNamespace : result string.
Variable NotFound_text : string → string → string → string.

(** [%v] of a list of names. *)
Definition names_text (names : list string) : string := "[" +:+ join " " names +:+ "]".

(** The condition that is waited for; the names that remain are kept for the error. *)
Definition dsc_gone (remainingNames : list string) : prog UninstallE (list string * result bool) :=
  dscList ← trigger ListDscs;
  match dscList with
  | Err err => mret (remainingNames, Err err)
  | Ok [] => mret (remainingNames, Ok true)
  | Ok items => mret (do_Name <$> items, Ok false)
  end.

Definition removeDSC : prog UninstallE (option goerr) :=
  err ← trigger DeleteAllDSC;
  match err with
  | Some err => mret (Some (wrapf "failure deleting DSC" err))
  | None =>
      res ← ExponentialBackoff dsc_gone [];
      match res.2 with
      | Some err => mret (Some (wrapf ("failure waiting for DSC deletion, remaining objects " +:+ names_text res.1) err))
      | None => mret None
      end
  end.

Definition removeDSCI : prog UninstallE (option goerr) :=
  err ← trigger DeleteAllDSCI;
  match err with
  | Some err => mret (Some (wrapf "failure deleting DSCI" err))
  | None => mret None
  end.

(** The first namespace that is going away. *)
Definition first_terminating (namespaces : list NamespaceItem) : option NamespaceItem :=
  List.find (λ n, String.eqb (ni_Phase n) NamespaceTerminating) namespaces.

Fixpoint delete_active (namespaces : list NamespaceItem) : prog UninstallE (option goerr) :=
  match namespaces with
  | [] => mret None
  | namespace :: namespaces =>
      if String.eqb (ni_Phase namespace) NamespaceActive then
        err ← trigger (DeleteNamespace (ni_Name namespace));
        match err with
        | Some err => mret (Some (wrapf ("error deleting namespace " +:+ ni_Name namespace) err))
        | None => delete_active namespaces
        end
      else delete_active namespaces
  end.

Definition remove_namespaces : prog UninstallE (option goerr) :=
  generatedNamespaces ← trigger ListGenerated;
  match generatedNamespaces with
  | Err err => mret (Some (wrapf "error getting generated namespaces " err))
  | Ok items =>
      match first_terminating items with
      | Some namespace => mret (Some (errorf ("waiting for namespace " +:+ ni_Name namespace +:+ " to be deleted")))
      | None => delete_active items
      end
  end.

Definition DeleteExistingSubscription (operatorNs subsName : string) : prog UninstallE (option goerr) :=
  sub ← trigger (GetSubscription operatorNs subsName);
  match sub with
  | Err err => mret (IgnoreNotFound (Some err))
  | Ok name =>
      err ← trigger (DeleteSubscription name);
      match IgnoreNotFound err with
      | Some err => mret (Some (wrapf ("error deleting subscription " +:+ name) err))
      | None => mret None
      end
  end.

Definition subscription_name (platform : string) : string :=
  if String.eqb platform SelfManagedRhoai then "rhods-operator" else "opendatahub-operator".

Definition remove_subscription (platform operatorNs : string) : prog UninstallE (option goerr) :=
  if negb (String.eqb platform ManagedRhoai) then DeleteExistingSubscription operatorNs (subscription_name platform)
  else mret None.

Definition csv_not_found : goerr :=
  Goerr (NotFound_text "operators.coreos.com" "" "ClusterServiceVersion") [TagNotFound].

Definition GetClusterServiceVersion (namespace : string) : prog UninstallE (result CSV) :=
  listed ← trigger (ListCSVs namespace);
  match listed with
  | Err err =>
      if err_is TagNoMatch err then mret (Err csv_not_found)
      else mret (Err (wrapf ("failed listing cluster service versions for " +:+ namespace) err))
  | Ok items =>
      mret (match List.find (λ csv, existsb (λ kind, String.eqb kind "DataScienceCluster") (csv_OwnedKinds csv)) items with
            | Some csv => Ok csv
            | None => Err csv_not_found
            end)
  end.

Definition removeCSV : prog UninstallE (option goerr) :=
  match operatorNamespace with
  | Err err => mret (Some err)
  | Ok operatorNamespace =>
      operatorCsv ← GetClusterServiceVersion operatorNamespace;
      match operatorCsv with
      | Err err => if err_is TagNotFound err then mret None else mret (Some err)
      | Ok operatorCsv =>
          err ← trigger (DeleteCSV (csv_Name operatorCsv));
          match err with
          | Some err => if err_is TagNotFound err then mret None
                        else mret (Some (wrapf "error deleting clusterserviceversion" err))
          | None => mret None
          end
      end
  end.

(** [v, found, err := NestedString(...)], [err != nil || !found || v != want]. *)
Definition nested_is (object : value_map) (path : list string) (want : string) : bool :=
  match NestedString object path with
  | Ok (Some v) => String.eqb v want
  | _ => false
  end.

Definition clusterExtensionMatchesPackage (ext : Extension) (packageName installNamespace : string) : bool :=
  (String.eqb installNamespace "" || nested_is (ext_Object ext) ["spec"; "namespace"] installNamespace) &&
  nested_is (ext_Object ext) ["spec"; "source"; "sourceType"] "Catalog" &&
  nested_is (ext_Object ext) ["spec"; "source"; "catalog"; "packageName"] packageName.

Fixpoint delete_extensions (items : list Extension) (packageName installNamespace : string) : prog UninstallE (option goerr) :=
  match items with
  | [] => mret None
  | ext :: items =>
      if negb (clusterExtensionMatchesPackage ext packageName installNamespace)
      then delete_extensions items packageName installNamespace
      else
        err ← trigger (DeleteExtension (ext_Name ext));
        match IgnoreNotFound err with
        | Some err => mret (Some (wrapf ("delete ClusterExtension " +:+ ext_Name ext) err))
        | None => delete_extensions items packageName installNamespace
        end
  end.

Definition package_name (platform : string) : string :=
  if String.eqb platform SelfManagedRhoai then rhoaiOperatorPackage else odhOperatorPackage.

Definition removeClusterExtension (platform installNamespace : string) : prog UninstallE (option goerr) :=
  if String.eqb platform "" || String.eqb platform ManagedRhoai then mret None
  else
    list ← trigger ListExtensions;
    match list with
    | Err err => if err_is TagNoMatch err || err_is TagNotFound err then mret None
                 else mret (Some (wrapf "list ClusterExtensions" err))
    | Ok items => delete_extensions items (package_name platform) installNamespace
    end.

(** Ten seconds, for the namespaces to go. *)
Definition uninstall_pause : Z := 10 * 1000000000.

(** What follows the namespaces. *)
Definition remove_operator (platform : string) : prog UninstallE (option goerr) :=
  trigger (SleepFor uninstall_pause) ;;
  match operatorNamespace with
  | Err err => mret (Some err)
  | Ok operatorNs =>
      err ← remove_subscription platform operatorNs;
      match err with
      | Some err => mret (Some err)
      | None =>
          err ← removeCSV;
          match err with
          | Some err => mret (Some err)
          | None => removeClusterExtension platform operatorNs
          end
      end
  end.

Definition OperatorUninstall (platform : string) : prog UninstallE (option goerr) :=
  err ← removeDSC;
  match err with
  | Some err => mret (Some err)
  | None =>
      err ← removeDSCI;
      match err with
      | Some err => mret (Some err)
      | None =>
          err ← remove_namespaces;
          match err with
          | Some err => mret (Some err)
          | None => remove_operator platform
          end
      end
  end.

(** ** The controller *)

Definition HasDeleteConfigMap : prog UninstallE bool :=
  match operatorNamespace with
  | Err _ => mret false
  | Ok operatorNamespace =>
      deleteConfigMapList ← trigger (ListDeleteConfigMaps operatorNamespace);
      mret (match deleteConfigMapList with Err _ => false | Ok n => negb (Nat.eqb n 0) end)
  end.

(** [platform] is the release's name. *)
Definition SetupReconcile `{StatusConditions, Retries, UninstallRetries} (platform : string) : prog UninstallE (option goerr) :=
  found ← HasDeleteConfigMap;
  if negb found then mret None
  else
    err ← markUninstallInProgress;
    match err with
    | Some err => mret (Some (wrapf "failed to report uninstall in progress" err))
    | None =>
        err ← OperatorUninstall platform;
        match err with
        | Some err => mret (Some (wrapf "operator uninstall failed " err))
        | None => mret None
        end
    end.
End removal.

(** An object of an event, as the filter reads it. *)
Record WatchedObject := MkWatched {
  wo_IsConfigMap : bool;
  wo_Namespace : string;
  wo_Labels : gmap string string;
}.

Inductive setup_event := SetupCreate (o : WatchedObject) | SetupUpdate (old new : WatchedObject) | SetupDelete (o : WatchedObject) | SetupGeneric (o : WatchedObject).

Definition is_delete_ConfigMap (operatorNs : string) (obj : WatchedObject) : bool :=
  if negb (wo_IsConfigMap obj) then false
  else if negb (String.eqb (wo_Namespace obj) operatorNs) then false
  else if negb (String.eqb (default "" (wo_Labels obj !! DeleteConfigMapLabel)) "true") then false
  else true.

Definition filterDeleteConfigMap (operatorNs : string) (e : setup_event) : bool :=
  match e with
  | SetupCreate o => is_delete_ConfigMap operatorNs o
  | SetupUpdate _ new => is_delete_ConfigMap operatorNs new
  | SetupDelete _ | SetupGeneric _ => false
  end.
