(* ===== verification/UninstallTheorems.v ===== *)
(** * UninstallTheorems: the operator is removed in order

    What must have happened before each deletion of an uninstallation, what is done when it
    succeeds, and that every instance carries the marker, which both controllers look for,
    before anything is deleted. *)

From S2P Require Import Prelude Effects Conditions Unstructured SharedPlatform Secrets Gateway GatewayStatus GatewayStatusTheorems GatewayAuth Logger ModuleBase Deploy Dsci DsciController DsciTheorems Uninstall.

(** ** Events *)

Inductive uninstall_event :=
| UeDsci (ev : dsci_event)
| UeConfigMaps (namespace : string) (r : result nat)
| UeListDscs (r : result (list DscObject))
| UeGetDsc (name : string) (r : result DscObject)
| UeDscStatus (d : DscObject) (err : option goerr)
| UeDeleteDSC (err : option goerr)
| UeDeleteDSCI (err : option goerr)
| UeGenerated (r : result (list NamespaceItem))
| UeDeleteNamespace (name : string) (err : option goerr)
| UeSleep (d : Z)
| UeSubscription (namespace name : string) (r : result string)
| UeDeleteSubscription (name : string) (err : option goerr)
| UeCSVs (namespace : string) (r : result (list CSV))
| UeDeleteCSV (name : string) (err : option goerr)
| UeExtensions (r : result (list Extension))
| UeDeleteExtension (name : string) (err : option goerr).

Definition uninstall_event_of (c : call UninstallE) : uninstall_event :=
  match c with
  | @Call _ X e x =>
      match e in UninstallE X return X → uninstall_event with
      | UDsci e => λ x, UeDsci (dsci_event_of (Call e x))
      | ListDeleteConfigMaps namespace => UeConfigMaps namespace
      | ListDscs => UeListDscs
      | GetDscObject name => UeGetDsc name
      | UpdateDscObjectStatus d => UeDscStatus d
      | DeleteAllDSC => UeDeleteDSC
      | DeleteAllDSCI => UeDeleteDSCI
      | ListGenerated => UeGenerated
      | DeleteNamespace name => UeDeleteNamespace name
      | SleepFor d => λ _, UeSleep d
      | GetSubscription namespace name => UeSubscription namespace name
      | DeleteSubscription name => UeDeleteSubscription name
      | ListCSVs namespace => UeCSVs namespace
      | DeleteCSV name => UeDeleteCSV name
      | ListExtensions => UeExtensions
      | DeleteExtension name => UeDeleteExtension name
      end x
  end.

Notation uninstall_events := (events uninstall_event_of).

(** ** What is known of the waiting *)

(** The condition runs in turns that keep what it keeps; without an error its last run said
    that the waiting is over. *)
Class BackoffLaws `{Backoff} : Prop :=
  ExponentialBackoff_rule cond names tr (I J : list (call UninstallE) → list string → Prop) :
    (∀ tr names, I tr names → wp (cond names) tr (λ tr' r, I tr' r.1 ∧ (r.2 = Ok true → J tr' r.1))) → I tr names →
    wp (ExponentialBackoff cond names) tr (λ tr' r, I tr' r.1 ∧ (r.2 = None → J tr' r.1)).

(** The documented behaviour for a number of steps: the condition runs until it says that
    the waiting is over, fails, or has run that often. *)
Fixpoint poll (steps : nat) (cond : list string → prog UninstallE (list string * result bool)) (names : list string)
    : prog UninstallE (list string * option goerr) :=
  match steps with
  | O => mret (names, Some (Goerr "timed out waiting for the condition" []))
  | S steps =>
      r ← cond names;
      match r.2 with
      | Err err => mret (r.1, Some err)
      | Ok true => mret (r.1, None)
      | Ok false => poll steps cond r.1
      end
  end.

Lemma poll_laws steps : BackoffLaws (H := poll steps).
Proof.
  intros cond names tr I J Hcond. unfold ExponentialBackoff. revert names tr.
  induction steps as [|steps IH]; intros names tr Hi; [by apply wp_ret|]. simpl. apply wp_bind.
  eapply wp_mono; [|by apply Hcond]. intros tr' [names' [[]|err]] [Hi' Hj]; cbn [fst snd] in *.
  - apply wp_ret. auto.
  - by apply IH.
  - by apply wp_ret.
Qed.

(** ** The order of the deletions *)

Section order.
Context `{Nested, Backoff} {backoff_ends : BackoffLaws}.
Variable operatorNamespace : result string.
Variable NotFound_text : string → string → string → string.
Variable platform : string.
Implicit Types (evs : list uninstall_event) (tr : list (call UninstallE)).

(** A deletion that returned this was accepted, or found nothing to delete. *)
Definition accepted (err : option goerr) : Prop := IgnoreNotFound err = None.

(** The deletion of the DSCs was requested, and afterwards none was listed. *)
Definition dsc_removed evs : Prop := then_after (UeDeleteDSC None) (UeListDscs (Ok [])) evs.

(** No generated namespace was going away, and the active ones were deleted. *)
Definition namespaces_deleted evs : Prop :=
  ∃ items, UeGenerated (Ok items) ∈ evs ∧
    Forall (λ n, ni_Phase n ≠ NamespaceTerminating ∧
                 (ni_Phase n = NamespaceActive → UeDeleteNamespace (ni_Name n) None ∈ evs)) items.

Definition subscription_settled ns evs : Prop :=
  platform = ManagedRhoai ∨
  (∃ err, UeSubscription ns (subscription_name platform) (Err err) ∈ evs ∧ accepted (Some err)) ∨
  (∃ name err, UeSubscription ns (subscription_name platform) (Ok name) ∈ evs ∧ UeDeleteSubscription name err ∈ evs ∧ accepted err).

(** A ClusterServiceVersion of the operator. *)
Definition operator_csv (csv : CSV) : Prop := "DataScienceCluster" ∈ csv_OwnedKinds csv.

Definition csv_settled ns evs : Prop :=
  (∃ err, UeCSVs ns (Err err) ∈ evs ∧ (err_is TagNoMatch err ∨ err_is TagNotFound err)) ∨
  ∃ items, UeCSVs ns (Ok items) ∈ evs ∧
    (Forall (λ csv, ¬ operator_csv csv) items ∨
     ∃ csv err, csv ∈ items ∧ operator_csv csv ∧ UeDeleteCSV (csv_Name csv) err ∈ evs ∧ accepted err).

Notation matches ns ext := (clusterExtensionMatchesPackage ext (package_name platform) ns = true).

Definition extensions_settled ns evs : Prop :=
  platform = "" ∨ platform = ManagedRhoai ∨
  (∃ err, UeExtensions (Err err) ∈ evs ∧ (err_is TagNoMatch err ∨ err_is TagNotFound err)) ∨
  ∃ items, UeExtensions (Ok items) ∈ evs ∧
    ∀ ext, ext ∈ items → matches ns ext → ∃ err, UeDeleteExtension (ext_Name ext) err ∈ evs ∧ accepted err.

(** What must have happened before a deletion, and what may be deleted. *)
Definition uninstall_call evs (ev : uninstall_event) : Prop :=
  match ev with
  | UeDeleteDSCI _ => dsc_removed evs
  | UeDeleteNamespace name _ =>
      UeDeleteDSCI None ∈ evs ∧
      ∃ items n, UeGenerated (Ok items) ∈ evs ∧ n ∈ items ∧ ni_Name n = name ∧ ni_Phase n = NamespaceActive ∧
        Forall (λ n, ni_Phase n ≠ NamespaceTerminating) items
  | UeDeleteSubscription name _ =>
      namespaces_deleted evs ∧ platform ≠ ManagedRhoai ∧
      ∃ ns, operatorNamespace = Ok ns ∧ UeSubscription ns (subscription_name platform) (Ok name) ∈ evs
  | UeDeleteCSV name _ =>
      namespaces_deleted evs ∧
      ∃ ns items csv, operatorNamespace = Ok ns ∧ subscription_settled ns evs ∧
        UeCSVs ns (Ok items) ∈ evs ∧ csv ∈ items ∧ csv_Name csv = name ∧ operator_csv csv
  | UeDeleteExtension name _ =>
      namespaces_deleted evs ∧ platform ≠ "" ∧ platform ≠ ManagedRhoai ∧
      ∃ ns items ext, operatorNamespace = Ok ns ∧ subscription_settled ns evs ∧ csv_settled ns evs ∧
        UeExtensions (Ok items) ∈ evs ∧ ext ∈ items ∧ ext_Name ext = name ∧ matches ns ext
  | UeDscStatus _ _ | UeDsci _ | UeConfigMaps _ _ => False
  | _ => True
  end.

Notation step := (step_from uninstall_event_of uninstall_call).

Lemma namespaces_deleted_mono : monotone namespaces_deleted.
Proof.
  intros evs evs' (items & Hg & Hall). exists items. split; [by apply elem_mono|].
  eapply Forall_impl; [exact Hall|]. cbn. intros n [? Hd]. split; [done|]. intros. by apply elem_mono, Hd.
Qed.

Lemma subscription_settled_mono ns : monotone (subscription_settled ns).
Proof.
  intros evs evs' [?|[(err & ? & ?)|(name & err & ? & ? & ?)]]; [by left|right; left|right; right].
  - exists err. split; [by apply elem_mono|done].
  - exists name, err. split; [by apply elem_mono|]. split; [by apply elem_mono|done].
Qed.

Lemma csv_settled_mono ns : monotone (csv_settled ns).
Proof.
  intros evs evs' [(err & ? & ?)|(items & ? & Hd)]; [left|right].
  - exists err. split; [by apply elem_mono|done].
  - exists items. split; [by apply elem_mono|]. destruct Hd as [?|(csv & err & ? & ? & ? & ?)]; [by left|right].
    exists csv, err. split; [done|]. split; [done|]. split; [by apply elem_mono|done].
Qed.

(** *** The DSCs and the DSCIs *)

Lemma removeDSC_step : step (λ _, True) removeDSC dsc_removed.
Proof using backoff_ends.
  unfold removeDSC. apply step_call; [done|]. intros [err|]; [apply step_fail|].
  intros tr Htr (evs' & Hev & _). apply wp_bind.
  set (I := λ tr' (_ : list string), leads uninstall_event_of uninstall_call tr tr').
  eapply wp_mono; [|apply (ExponentialBackoff_rule dsc_gone [] tr I (λ tr' _, dsc_removed (uninstall_events tr')))].
  - intros tr' [names [err|]] [Hl Hj]; apply wp_ret; [done|]. split; [done|]. intros _. by apply Hj.
  - intros tr' names [Htr' [new ->]]. unfold dsc_gone. apply wp_bind, wp_call. intros listed.
    set (c := Call ListDscs listed).
    assert (leads uninstall_event_of uninstall_call tr ((tr ++ new) ++ [c])) as Hl.
    { apply leads_step; [split; [done|by exists new]|done]. }
    destruct listed as [[|d ds]|err]; apply wp_ret; (split; [exact Hl|]); [|done..]. intros _.
    exists evs', (uninstall_events new), []. rewrite events_snoc, events_app, Hev, <-!app_assoc. done.
  - by apply leads_refl.
Qed.

Lemma removeDSCI_step : step dsc_removed removeDSCI (λ evs, UeDeleteDSCI None ∈ evs).
Proof.
  unfold removeDSCI. apply step_call; [done|]. intros [err|]; [apply step_fail|].
  apply step_done. intros evs (evs' & -> & _). apply elem_of_app. right. by left.
Qed.

(** *** The generated namespaces *)

Definition namespaces_listed items evs : Prop :=
  UeDeleteDSCI None ∈ evs ∧ UeGenerated (Ok items) ∈ evs ∧ Forall (λ n, ni_Phase n ≠ NamespaceTerminating) items.

Lemma namespaces_listed_mono items : monotone (namespaces_listed items).
Proof. intros evs evs' (? & ? & ?). split; [by apply elem_mono|]. split; [by apply elem_mono|done]. Qed.

Lemma first_terminating_None items :
  first_terminating items = None → Forall (λ n, ni_Phase n ≠ NamespaceTerminating) items.
Proof.
  intros Hf. apply Forall_forall. intros n Hn. pose proof (find_none _ _ Hf n (proj1 (list_elem_of_In _ _) Hn)) as Hp.
  by apply String.eqb_neq.
Qed.

Lemma delete_active_step items todo :
  (∀ n, n ∈ todo → n ∈ items) →
  step (λ evs, namespaces_listed items evs ∧
         ∀ n, n ∈ items → ni_Phase n = NamespaceActive → n ∈ todo ∨ UeDeleteNamespace (ni_Name n) None ∈ evs)
       (delete_active todo) namespaces_deleted.
Proof.
  induction todo as [|n todo IH]; intros Hin; simpl.
  - apply step_done. intros evs [(_ & Hg & Hnt) Hdel]. exists items. split; [done|].
    apply Forall_forall. intros n Hn. split; [by eapply (proj1 (Forall_forall _ _) Hnt)|]. intros Ha.
    destruct (Hdel n Hn Ha) as [[]%elem_of_nil|?]; done.
  - assert (∀ n, n ∈ todo → n ∈ items) as Hin' by (intros m Hm; apply Hin; by right).
    destruct (String.eqb_spec (ni_Phase n) NamespaceActive) as [Ha|Ha].
    + apply step_call.
      { intros evs err [(? & Hg & ?) _]. split; [done|]. exists items, n. split; [done|]. split; [apply Hin; by left|done]. }
      intros [err|]; [apply step_fail|]. eapply step_weaken; [| |by apply IH]; [|done].
      intros evs (evs' & -> & Hl & Hdel). split; [by apply namespaces_listed_mono|]. intros m Hm Hma.
      destruct (Hdel m Hm Hma) as [[->|?]%elem_of_cons|?]; [right; apply elem_of_app; right; by left|by left|right; by apply elem_mono].
    + eapply step_weaken; [| |by apply IH]; [|done]. intros evs [Hl Hdel]. split; [done|]. intros m Hm Hma.
      destruct (Hdel m Hm Hma) as [[->|?]%elem_of_cons|?]; [done|by left|by right].
Qed.

Lemma remove_namespaces_step : step (λ evs, UeDeleteDSCI None ∈ evs) remove_namespaces namespaces_deleted.
Proof.
  unfold remove_namespaces. apply step_call; [done|]. intros [items|err]; [|apply step_fail].
  destruct (first_terminating items) eqn:Hf; [apply step_fail|].
  eapply step_weaken; [| |apply (delete_active_step items items)]; [|done..].
  intros evs (evs' & -> & Hd). split; [|by left]. split; [by apply elem_mono|].
  split; [apply elem_of_app; right; by left|by apply first_terminating_None].
Qed.

(** *** The subscription, the CSV and the ClusterExtensions *)

Lemma not_found_accepted err : err_is TagNotFound err = true → accepted (Some err).
Proof. unfold accepted, IgnoreNotFound. by intros ->. Qed.

Lemma remove_subscription_step ns :
  operatorNamespace = Ok ns →
  step namespaces_deleted (remove_subscription platform ns) (λ evs, namespaces_deleted evs ∧ subscription_settled ns evs).
Proof.
  intros Hns. unfold remove_subscription. destruct (String.eqb_spec platform ManagedRhoai) as [Hp|Hp]; simpl.
  { apply step_done. intros evs ?. split; [done|by left]. }
  unfold DeleteExistingSubscription. apply step_call; [done|]. intros [name|err].
  - apply step_call.
    + intros evs err (evs' & -> & Hd). split; [by apply namespaces_deleted_mono|]. split; [done|].
      exists ns. split; [done|]. apply elem_of_app. right. by left.
    + intros err. destruct (IgnoreNotFound err) eqn:He; [apply step_fail|]. apply step_done.
      intros evs (evs' & -> & evs2 & -> & Hd). split; [by apply namespaces_deleted_mono, namespaces_deleted_mono|].
      right. right. exists name, err. split; [apply elem_mono, elem_of_app; right; by left|].
      split; [apply elem_of_app; right; by left|done].
  - intros tr Htr (evs' & Hev & Hd). apply wp_ret. split; [by apply leads_refl|]. intros Hg. rewrite Hev.
    split; [by apply namespaces_deleted_mono|]. right. left. exists err. split; [apply elem_of_app; right; by left|done].
Qed.

Notation ready_for_csv ns := (λ evs, namespaces_deleted evs ∧ subscription_settled ns evs).

Lemma find_operator_csv items csv :
  List.find (λ csv, existsb (λ kind, String.eqb kind "DataScienceCluster") (csv_OwnedKinds csv)) items = Some csv →
  csv ∈ items ∧ operator_csv csv.
Proof.
  intros [Hin Hex]%find_some. split; [by apply list_elem_of_In|]. apply existsb_exists in Hex as (kind & Hk & He).
  apply String.eqb_eq in He as ->. by apply list_elem_of_In.
Qed.

Lemma find_no_operator_csv items :
  List.find (λ csv, existsb (λ kind, String.eqb kind "DataScienceCluster") (csv_OwnedKinds csv)) items = None →
  Forall (λ csv, ¬ operator_csv csv) items.
Proof.
  intros Hf. apply Forall_forall. intros csv Hc Ho. pose proof (find_none _ _ Hf csv (proj1 (list_elem_of_In _ _) Hc)) as Hn.
  cbn in Hn. apply not_true_iff_false in Hn. apply Hn, existsb_exists. exists "DataScienceCluster".
  split; [by apply list_elem_of_In|apply String.eqb_refl].
Qed.

Lemma removeCSV_step ns :
  operatorNamespace = Ok ns →
  step (ready_for_csv ns) (removeCSV operatorNamespace NotFound_text)
    (λ evs, ready_for_csv ns evs ∧ csv_settled ns evs).
Proof.
  intros Hns tr Htr [Hn Hs]. unfold removeCSV. rewrite Hns. unfold GetClusterServiceVersion.
  apply wp_bind, wp_bind, wp_call. intros listed. set (c := Call (ListCSVs ns) listed).
  assert (leads uninstall_event_of uninstall_call tr (tr ++ [c])) as Hl by by apply leads_snoc.
  assert (ready_for_csv ns (uninstall_events (tr ++ [c])) ∧ UeCSVs ns listed ∈ uninstall_events (tr ++ [c])) as [[Hn' Hs'] Hlast].
  { split; [|apply (last_event uninstall_event_of tr c)]. rewrite events_snoc.
    split; [by apply namespaces_deleted_mono|by apply subscription_settled_mono]. }
  destruct listed as [items|err].
  - apply wp_ret. destruct (List.find _ items) as [csv|] eqn:Hf.
    2:{ cbn. apply wp_ret. split; [done|]. intros _. split; [done|]. right. exists items.
        split; [done|]. left. by apply find_no_operator_csv. }
    apply find_operator_csv in Hf as [Hin Ho]. apply wp_bind, wp_call. intros err.
    assert (leads uninstall_event_of uninstall_call tr ((tr ++ [c]) ++ [Call (DeleteCSV (csv_Name csv)) err])) as Hl2.
    { apply leads_step; [done|]. split; [done|]. by exists ns, items, csv. }
    assert (accepted err → csv_settled ns (uninstall_events ((tr ++ [c]) ++ [Call (DeleteCSV (csv_Name csv)) err]))) as Hg.
    { intros Hg. right. exists items. split; [by apply later_event|]. right. exists csv, err.
      split; [done|]. split; [done|]. split; [apply (last_event uninstall_event_of _ (Call (DeleteCSV _) err))|done]. }
    assert (ready_for_csv ns (uninstall_events ((tr ++ [c]) ++ [Call (DeleteCSV (csv_Name csv)) err]))) as Hr.
    { rewrite events_snoc. split; [by apply namespaces_deleted_mono|by apply subscription_settled_mono]. }
    destruct err as [err|]; [destruct (err_is TagNotFound err) eqn:He|]; apply wp_ret; (split; [done|]); [|done|]; intros _.
    + split; [done|]. by apply Hg, not_found_accepted.
    + split; [done|]. by apply Hg.
  - destruct (err_is TagNoMatch err) eqn:Hm.
    + cbn. apply wp_ret. split; [done|]. intros _. split; [done|]. left. exists err. split; [done|]. left. by rewrite Hm.
    + destruct (err_is TagNotFound err) eqn:He.
      * apply wp_ret. change (err_is TagNotFound (wrapf _ err)) with (err_is TagNotFound err). rewrite He.
        apply wp_ret. split; [done|]. intros _. split; [done|]. left. exists err. split; [done|]. right. by rewrite He.
      * apply wp_ret. change (err_is TagNotFound (wrapf _ err)) with (err_is TagNotFound err). rewrite He. by apply wp_ret.
Qed.

Notation ready_for_extensions ns := (λ evs, ready_for_csv ns evs ∧ csv_settled ns evs).

Lemma ready_for_extensions_mono ns : monotone (ready_for_extensions ns).
Proof.
  intros evs evs' [[? ?] ?]. split; [|by apply csv_settled_mono].
  split; [by apply namespaces_deleted_mono|by apply subscription_settled_mono].
Qed.

Definition extension_deleted ns evs ext : Prop :=
  matches ns ext → ∃ err, UeDeleteExtension (ext_Name ext) err ∈ evs ∧ accepted err.

Lemma delete_extensions_step ns items todo :
  operatorNamespace = Ok ns → platform ≠ "" → platform ≠ ManagedRhoai → (∀ ext, ext ∈ todo → ext ∈ items) →
  step (λ evs, (ready_for_extensions ns evs ∧ UeExtensions (Ok items) ∈ evs) ∧
          ∀ ext, ext ∈ items → ext ∈ todo ∨ extension_deleted ns evs ext)
       (delete_extensions todo (package_name platform) ns)
       (λ evs, (ready_for_extensions ns evs ∧ UeExtensions (Ok items) ∈ evs) ∧ ∀ ext, ext ∈ items → extension_deleted ns evs ext).
Proof.
  intros Hns Hp1 Hp2. induction todo as [|ext todo IH]; intros Hin; simpl.
  - apply step_done. intros evs [? Hdel]. split; [done|]. intros ext He. by destruct (Hdel ext He) as [[]%elem_of_nil|?].
  - assert (∀ e, e ∈ todo → e ∈ items) as Hin' by (intros e He; apply Hin; by right).
    destruct (clusterExtensionMatchesPackage ext (package_name platform) ns) eqn:Hm; simpl.
    + apply step_call.
      { intros evs err [[[[? ?] ?] ?] _]. split; [done|]. split; [done|]. split; [done|]. exists ns, items, ext.
        repeat (split; [done|]). split; [apply Hin; by left|done]. }
      intros err. destruct (IgnoreNotFound err) eqn:Hg; [apply step_fail|].
      eapply step_weaken; [| |by apply IH]; [|done]. intros evs (evs' & -> & [Hr He] & Hdel).
      split; [split; [by apply ready_for_extensions_mono|by apply elem_mono]|]. intros e Hi.
      destruct (Hdel e Hi) as [[->|?]%elem_of_cons|Hd]; [right|by left|right].
      * intros _. exists err. split; [|done]. apply elem_of_app. right. by left.
      * intros Hme. destruct (Hd Hme) as (err' & ? & ?). exists err'. split; [by apply elem_mono|done].
    + eapply step_weaken; [| |by apply IH]; [|done]. intros evs [? Hdel]. split; [done|]. intros e Hi.
      destruct (Hdel e Hi) as [[->|?]%elem_of_cons|?]; [|by left|by right]. right. intros Hme. by rewrite Hm in Hme.
Qed.

Lemma removeClusterExtension_step ns :
  operatorNamespace = Ok ns →
  step (ready_for_extensions ns) (removeClusterExtension platform ns)
    (λ evs, ready_for_extensions ns evs ∧ extensions_settled ns evs).
Proof.
  intros Hns. unfold removeClusterExtension.
  destruct (String.eqb_spec platform "") as [Hp1|Hp1]; simpl.
  { apply step_done. intros evs ?. split; [done|by left]. }
  destruct (String.eqb_spec platform ManagedRhoai) as [Hp2|Hp2]; simpl.
  { apply step_done. intros evs ?. split; [done|right; by left]. }
  apply step_call; [done|]. intros [items|err].
  - eapply step_weaken; [| |apply (delete_extensions_step ns items items)]; [| |done..].
    + intros evs (evs' & -> & Hr). split; [|by left]. split; [by apply ready_for_extensions_mono|].
      apply elem_of_app. right. by left.
    + intros evs [[Hr Hi] Hd]. split; [done|]. right. right. right. by exists items.
  - destruct (err_is TagNoMatch err || err_is TagNotFound err) eqn:He; [|apply step_fail].
    apply step_done. intros evs (evs' & -> & Hr). split; [by apply ready_for_extensions_mono|].
    right. right. left. exists err. split; [apply elem_of_app; right; by left|].
    apply orb_true_iff in He as [->| ->]; [by left|by right].
Qed.

(** Every removal was accepted, found nothing to remove or does not apply to the platform. *)
Definition uninstalled evs : Prop :=
  dsc_removed evs ∧ UeDeleteDSCI None ∈ evs ∧ namespaces_deleted evs ∧
  ∃ ns, operatorNamespace = Ok ns ∧ subscription_settled ns evs ∧ csv_settled ns evs ∧ extensions_settled ns evs.

Lemma remove_operator_step :
  step namespaces_deleted (remove_operator operatorNamespace NotFound_text platform)
    (λ evs, namespaces_deleted evs ∧
       ∃ ns, operatorNamespace = Ok ns ∧ subscription_settled ns evs ∧ csv_settled ns evs ∧ extensions_settled ns evs).
Proof.
  unfold remove_operator. apply step_call; [done|]. intros u.
  enough (∀ o, operatorNamespace = o → step (λ evs, ∃ evs', evs = evs' ++ [UeSleep uninstall_pause] ∧ namespaces_deleted evs')
    (match o with
     | Err err => mret (Some err)
     | Ok ns => err ← remove_subscription platform ns;
         match err with
         | Some err => mret (Some err)
         | None => err ← removeCSV operatorNamespace NotFound_text;
             match err with Some err => mret (Some err) | None => removeClusterExtension platform ns end
         end
     end)
    (λ evs, namespaces_deleted evs ∧
       ∃ ns, operatorNamespace = Ok ns ∧ subscription_settled ns evs ∧ csv_settled ns evs ∧ extensions_settled ns evs)) as Hk
    by exact (Hk _ eq_refl).
  intros [ns|err] Hns; [|apply step_fail].
  eapply step_weaken; [intros evs (evs' & -> & Hd); by apply namespaces_deleted_mono, Hd| |].
  2:{ eapply (step_seq _ _ id); [by apply remove_subscription_step|].
      eapply (step_seq _ _ id); [by apply removeCSV_step|by apply removeClusterExtension_step]. }
  intros evs [[[? ?] ?] ?]. split; [done|]. by exists ns.
Qed.

Lemma OperatorUninstall_step :
  step (λ _, True) (OperatorUninstall operatorNamespace NotFound_text platform) uninstalled.
Proof using backoff_ends.
  set (D := λ evs, dsc_removed evs ∧ UeDeleteDSCI None ∈ evs).
  assert (monotone D) as HD by (apply both_mono; [apply then_after_mono|apply elem_mono]).
  unfold OperatorUninstall. apply (step_seq _ _ id _ dsc_removed); [apply removeDSC_step|].
  apply (step_seq _ _ id _ D).
  { eapply step_weaken; [| |apply (step_frame _ _ dsc_removed), removeDSCI_step; apply then_after_mono]; by repeat intros ?. }
  apply (step_seq _ _ id _ (λ evs, D evs ∧ namespaces_deleted evs)).
  { eapply step_weaken; [| |apply (step_frame _ _ D), remove_namespaces_step; exact HD]; [|by intros evs ?].
    intros evs Hd. split; [done|apply Hd]. }
  eapply step_weaken; [| |apply (step_frame _ _ D), remove_operator_step; exact HD]; [by intros evs ?|].
  intros evs [[? ?] [? ?]]. by repeat (split; [done|]).
Qed.

(** C5: an uninstallation requests its deletions in one order. Whatever the cluster answers:
    the deletion of the DSCInitializations is only requested after that of the
    DataScienceClusters was accepted and a later list of them was empty; a namespace is only
    deleted after that of the DSCInitializations was accepted, if it was listed among the
    generated ones as active and none of those was terminating; the subscription only after
    the deletion of every active one was accepted, and never on the managed platform; a CSV,
    which owns the DataScienceCluster kind, only after the subscription was not found, its
    deletion was accepted or found nothing, or the platform is the managed one, where it is
    left; a ClusterExtension, which installs the operator's package from a catalog into its
    namespace, only after a CSV was dealt with in the same sense (deleted, or none of the
    operator listed, or the kind unknown), and never on the managed platform or an empty one.
    Without an error each of these steps was accepted, found nothing to do or was skipped for
    the platform. That a deletion was accepted does not say that the object is gone: only for
    the DataScienceClusters is that waited for. *)
Theorem uninstall_in_order :
  wp (OperatorUninstall operatorNamespace NotFound_text platform) [] (λ tr err,
    each_after uninstall_call (uninstall_events tr) ∧ (err = None → uninstalled (uninstall_events tr))).
Proof using backoff_ends.
  eapply wp_mono; [|apply OperatorUninstall_step; [apply each_after_nil|done]].
  intros tr err [[Htr _] Hu]. done.
Qed.

End order.

(** ** The marker comes first *)

(** What is known of the retries of a DataScienceCluster's status, as of a
    DSCInitialization's. *)
Class UninstallRetriesLaws `{UninstallRetries} : Prop :=
  OnErrorU_rule retriable (fn : DscObject → prog UninstallE (DscObject * option goerr)) s tr
      (I : list (call UninstallE) → Prop) (J : list (call UninstallE) → option goerr → Prop) :
    (∀ tr s, I tr → wp (fn s) tr (λ tr' r, I tr' ∧ J tr' r.2)) → I tr →
    wp (OnErrorU retriable fn s) tr (λ tr' r, I tr' ∧ J tr' r.2).

(** A condition that is set is in the list, and is found first under its type. *)
Class SetConditionLaws `{StatusConditions} : Prop :=
  set_condition_found l c : ∃ c', c' ∈ SetStatusCondition l c ∧ FindStatusCondition (SetStatusCondition l c) (c_type c) = Some c' ∧
    c_type c' = c_type c ∧ c_status c' = c_status c ∧ c_reason c' = c_reason c.

Section marking.
Context `{StatusConditions, Retries, UninstallRetries, Nested, Backoff}.
Context {set_found : SetConditionLaws} {retries_run : RetriesLaws} {u_retries_run : UninstallRetriesLaws} {backoff_ends : BackoffLaws}.
Variable operatorNamespace : result string.
Variable NotFound_text : string → string → string → string.
Variable platform : string.
Implicit Types (evs : list uninstall_event) (tr : list (call UninstallE)).

(** The condition that the DataScienceCluster controller looks for. *)
Definition dsc_marked (d : DscObject) : Prop :=
  ∃ c, FindStatusCondition (default [] (do_Conditions d)) ConditionTypeReady = Some c ∧
    c_status c = ConditionFalse ∧ c_reason c = UninstallInProgressReason.

Lemma mark_dsc_marked d : dsc_marked (mark_dsc d).
Proof using set_found.
  unfold dsc_marked, mark_dsc. cbn [do_Conditions].
  destruct (set_condition_found (default [] (do_Conditions d))
    (condition ConditionTypeReady ConditionFalse UninstallInProgressReason UninstallInProgressMessage)) as (c & _ & Hf & _ & ? & ?).
  by exists c.
Qed.

(** The marker is what the DSCInitialization controller looks for. *)
Lemma mark_dsci_marked d : isUninstallInProgress (ds_Conditions (di_Status (mark_dsci d))) = true.
Proof using set_found.
  unfold isUninstallInProgress, mark_dsci. cbn [ds_Conditions di_Status set_Phase set_Conditions with_status].
  set (cs := SetProgressingCondition _ _ _).
  destruct (set_condition_found (default [] cs)
    (condition ConditionTypeReady ConditionFalse UninstallInProgressReason UninstallInProgressMessage)) as (c & Hin & _ & Ht & Hs & Hr).
  apply existsb_exists. exists c. split; [by apply list_elem_of_In|]. by rewrite Ht, Hs, Hr.
Qed.

(** The stored object was read and written back with the marker. *)
Definition dsc_done evs (d : DscObject) : Prop :=
  ∃ fresh, UeGetDsc (do_Name d) (Ok fresh) ∈ evs ∧ UeDscStatus (mark_dsc fresh) None ∈ evs.
Definition dsci_done evs (d : Dsci) : Prop :=
  ∃ fresh, UeDsci (EvGetDsci (di_Name d) (Ok fresh)) ∈ evs ∧ UeDsci (EvStatus (mark_dsci fresh) None) ∈ evs.

(** Every instance that was listed carries the marker, and a delete ConfigMap was there. *)
Definition all_marked evs : Prop :=
  (∃ ns n, operatorNamespace = Ok ns ∧ UeConfigMaps ns (Ok n) ∈ evs ∧ n ≠ 0%nat) ∧
  (∃ dscs, UeListDscs (Ok dscs) ∈ evs ∧ Forall (dsc_done evs) dscs) ∧
  (∃ dscis, UeDsci (EvList (Ok dscis)) ∈ evs ∧ Forall (dsci_done evs) dscis).

(** What is written before, and what a deletion requires. *)
Definition setup_call evs (ev : uninstall_event) : Prop :=
  match ev with
  | UeDscStatus d _ => dsc_marked d
  | UeDsci (EvStatus d _) => isUninstallInProgress (ds_Conditions (di_Status d)) = true
  | UeDsci (EvList _) | UeDsci (EvGetDsci _ _) => True
  | UeDsci _ => False
  | UeDeleteDSC _ | UeDeleteDSCI _ | UeDeleteNamespace _ _ | UeDeleteSubscription _ _ | UeDeleteCSV _ _
  | UeDeleteExtension _ _ => all_marked evs
  | _ => True
  end.

Notation step := (step_from uninstall_event_of setup_call).

Lemma dsc_done_mono d : monotone (λ evs, dsc_done evs d).
Proof. intros evs evs' (fresh & ? & ?). exists fresh. split; by apply elem_mono. Qed.

Lemma dsci_done_mono d : monotone (λ evs, dsci_done evs d).
Proof. intros evs evs' (fresh & ? & ?). exists fresh. split; by apply elem_mono. Qed.

Lemma all_marked_mono : monotone all_marked.
Proof.
  intros evs evs' ((ns & n & ? & ? & ?) & (dscs & ? & Hd) & (dscis & ? & Hi)).
  split; [exists ns, n; split; [done|split; [by apply elem_mono|done]]|].
  split; [exists dscs|exists dscis]; (split; [by apply elem_mono|]); eapply Forall_impl; try done; intros d; cbn.
  - apply dsc_done_mono.
  - apply dsci_done_mono.
Qed.

Lemma mark_dsc_step d Pre : monotone Pre →
  ∀ tr, lawful uninstall_event_of setup_call tr → Pre (uninstall_events tr) →
  wp (OnErrorU retryOnNotFoundOrConflict (dsc_update_attempt (do_Name d)) d) tr (λ tr' r,
    leads uninstall_event_of setup_call tr tr' ∧ (r.2 = None → Pre (uninstall_events tr') ∧ dsc_done (uninstall_events tr') d)).
Proof using set_found u_retries_run.
  intros Hmono tr Htr Hpre.
  apply (wp_mono _ _ (λ tr' r, leads uninstall_event_of setup_call tr tr' ∧
    (r.2 = None → dsc_done (uninstall_events tr') d))).
  { intros tr' r [Hl Hd]. split; [done|]. intros He. split; [by eapply monotone_leads|by apply Hd]. }
  apply (OnErrorU_rule _ _ _ tr (leads uninstall_event_of setup_call tr)
    (λ tr' err, err = None → dsc_done (uninstall_events tr') d)); [|by apply leads_refl].
  intros tr' s Hl. unfold dsc_update_attempt. apply wp_bind, wp_call. intros got.
  set (c := Call (GetDscObject _) got).
  assert (leads uninstall_event_of setup_call tr (tr' ++ [c])) as Hl2 by by apply leads_step.
  destruct got as [fresh|err]; [|by apply wp_ret]. apply wp_bind, wp_call. intros err. apply wp_ret.
  split; [apply leads_step; [done|apply mark_dsc_marked]|]. cbn [snd]. intros ->. exists fresh. split.
  - apply later_event. apply (last_event uninstall_event_of tr' c).
  - apply (last_event uninstall_event_of _ (Call (UpdateDscObjectStatus _) None)).
Qed.

(** The calls of an update of a DSCInitialization. *)
Definition dsci_mark (ev : dsci_event) : Prop :=
  match ev with
  | EvGetDsci _ _ => True
  | EvStatus d _ => isUninstallInProgress (ds_Conditions (di_Status d)) = true
  | _ => False
  end.

Lemma mark_dsci_update d :
  wp (UpdateWithRetry d mark_dsci) [] (λ t r, Forall dsci_mark (dsci_events t) ∧
    (r.2 = None → ∃ fresh, EvGetDsci (di_Name d) (Ok fresh) ∈ dsci_events t ∧ EvStatus (mark_dsci fresh) None ∈ dsci_events t)).
Proof using set_found retries_run.
  unfold UpdateWithRetry.
  apply (OnError_rule Dsci _ _ d [] (λ t _, Forall dsci_mark (dsci_events t)) (λ t _ err, err = None →
    ∃ fresh, EvGetDsci (di_Name d) (Ok fresh) ∈ dsci_events t ∧ EvStatus (mark_dsci fresh) None ∈ dsci_events t)); [|constructor].
  intros t s Ht. unfold update_attempt. apply wp_bind, wp_call. intros got. set (c := Call (GetDsci _) got).
  assert (Forall dsci_mark (dsci_events (t ++ [c]))) as Hc by (rewrite events_snoc; apply Forall_app; by split; [|constructor]).
  destruct got as [fresh|err]; [|by apply wp_ret]. apply wp_bind, wp_call. intros err. apply wp_ret. split.
  { rewrite events_snoc. apply Forall_app. split; [done|]. apply Forall_singleton, mark_dsci_marked. }
  cbn [snd]. intros ->. exists fresh. split.
  - apply later_event. apply (last_event dsci_event_of t c).
  - apply (last_event dsci_event_of _ (Call (UpdateDsciStatus _) None)).
Qed.

(** The calls of a lifted program are its calls. *)
Lemma lifted_events (new : list (call DsciE)) :
  uninstall_events ((λ c : call DsciE, match c with Call e x => Call (UDsci e) x end) <$> new) = UeDsci <$> dsci_events new.
Proof. induction new as [|[X e x] new IH]; [done|]. cbn. f_equal. exact IH. Qed.

Lemma mark_dsci_step d Pre : monotone Pre →
  ∀ tr, lawful uninstall_event_of setup_call tr → Pre (uninstall_events tr) →
  wp (lift (@UDsci) (UpdateWithRetry d mark_dsci)) tr (λ tr' r,
    leads uninstall_event_of setup_call tr tr' ∧ (r.2 = None → Pre (uninstall_events tr') ∧ dsci_done (uninstall_events tr') d)).
Proof using set_found retries_run.
  intros Hmono tr Htr Hpre. eapply wp_mono; [|apply (wp_lift (@UDsci) _ [] tr), mark_dsci_update].
  intros tr' r (new & [Hall Hd] & ->). simpl in Hall, Hd. split.
  - split; [|by eexists]. apply lawful_app; [done|]. apply Forall_fmap. unfold events in Hall. rewrite Forall_fmap in Hall.
    eapply Forall_impl; [exact Hall|]. intros [X e x] He evs.
    change (setup_call evs (UeDsci (dsci_event_of (Call e x)))). unfold compose in He. by destruct (dsci_event_of (Call e x)).
  - intros Hr. rewrite events_app, lifted_events. split; [by apply Hmono|]. destruct (Hd Hr) as (fresh & Hg & Hs).
    exists fresh. split; apply elem_of_app; right; by apply list_elem_of_fmap_2.
Qed.

(** One object after another: what [mark] does for one is done for all. *)
Lemma mark_all {D Res} (mark : D → prog UninstallE (Res * option goerr)) (done_ : list uninstall_event → D → Prop)
    (text : D → goerr → goerr) (loop : list D → prog UninstallE (option goerr)) :
  (∀ d, monotone (λ evs, done_ evs d)) →
  (∀ d Pre, monotone Pre → ∀ tr, lawful uninstall_event_of setup_call tr → Pre (uninstall_events tr) →
    wp (mark d) tr (λ tr' r, leads uninstall_event_of setup_call tr tr' ∧
      (r.2 = None → Pre (uninstall_events tr') ∧ done_ (uninstall_events tr') d))) →
  loop [] = mret None →
  (∀ d items, loop (d :: items) = (res ← mark d; match res.2 with Some err => mret (Some (text d err)) | None => loop items end)) →
  ∀ items Pre, monotone Pre → step Pre (loop items) (λ evs, Pre evs ∧ Forall (done_ evs) items).
Proof.
  intros Hmono Hmark Hnil Hcons items. induction items as [|d items IH]; intros Pre HPre.
  - rewrite Hnil. apply step_done. intros evs Hev. by split; [|constructor].
  - intros tr Htr Hpre. rewrite Hcons. apply wp_bind. eapply wp_mono; [|by apply (Hmark d Pre)].
    intros tr1 [res [err|]] [Hl Hd]; [by apply wp_ret|]. cbn [snd] in *. specialize (Hd eq_refl).
    eapply wp_mono; [|apply (IH (λ evs, Pre evs ∧ done_ evs d)); [by apply both_mono|apply Hl|exact Hd]].
    intros tr2 err [Hl2 Hd2]. split; [by eapply leads_trans|]. intros He. destruct (Hd2 He) as [[? ?] ?].
    split; [done|]. by constructor.
Qed.

Lemma mark_dscs_step items Pre : monotone Pre → step Pre (mark_dscs items) (λ evs, Pre evs ∧ Forall (dsc_done evs) items).
Proof using set_found u_retries_run.
  apply (mark_all (λ d, OnErrorU retryOnNotFoundOrConflict (dsc_update_attempt (do_Name d)) d) dsc_done
    (λ d, wrapf ("failed to update DataScienceCluster " +:+ quote (do_Name d) +:+ " status")));
    [exact dsc_done_mono|exact mark_dsc_step|done..].
Qed.

Lemma mark_dscis_step items Pre : monotone Pre → step Pre (mark_dscis items) (λ evs, Pre evs ∧ Forall (dsci_done evs) items).
Proof using set_found retries_run.
  apply (mark_all (λ d, lift (@UDsci) (UpdateWithRetry d mark_dsci)) dsci_done
    (λ d, wrapf ("failed to update DSCInitialization " +:+ quote (di_Name d) +:+ " status")));
    [exact dsci_done_mono|exact mark_dsci_step|done..].
Qed.

Definition asked evs : Prop := ∃ ns n, operatorNamespace = Ok ns ∧ UeConfigMaps ns (Ok n) ∈ evs ∧ n ≠ 0%nat.

Lemma asked_mono : monotone asked.
Proof. intros evs evs' (ns & n & ? & ? & ?). exists ns, n. split; [done|]. split; [by apply elem_mono|done]. Qed.

Definition dscs_marked evs : Prop := ∃ dscs, UeListDscs (Ok dscs) ∈ evs ∧ Forall (dsc_done evs) dscs.

Lemma dscs_marked_mono : monotone dscs_marked.
Proof.
  intros evs evs' (dscs & ? & Hd). exists dscs. split; [by apply elem_mono|].
  eapply Forall_impl; [exact Hd|]. intros d. apply dsc_done_mono.
Qed.

Lemma markUninstallInProgress_step : step asked markUninstallInProgress all_marked.
Proof using set_found retries_run u_retries_run.
  unfold markUninstallInProgress. apply step_call; [done|]. intros [dscs|err]; [|apply step_fail].
  apply (step_seq _ _ id _ (λ evs, asked evs ∧ dscs_marked evs)).
  - eapply step_weaken; [| |apply (mark_dscs_step dscs (λ evs, asked evs ∧ UeListDscs (Ok dscs) ∈ evs))].
    + intros evs (evs' & -> & Ha). split; [by apply asked_mono|]. apply elem_of_app. right. by left.
    + intros evs [[? ?] ?]. split; [done|]. by exists dscs.
    + apply both_mono; [apply asked_mono|apply elem_mono].
  - apply step_call; [done|]. intros [dscis|err]; [|apply step_fail].
    eapply step_weaken; [| |apply (mark_dscis_step dscis
      (λ evs, (asked evs ∧ dscs_marked evs) ∧ UeDsci (EvList (Ok dscis)) ∈ evs))].
    + intros evs (evs' & -> & [Ha Hd]). split; [split; [by apply asked_mono|by apply dscs_marked_mono]|].
      apply elem_of_app. right. by left.
    + intros evs [[[? ?] ?] ?]. split; [done|]. split; [done|]. by exists dscis.
    + apply both_mono; [apply both_mono; [apply asked_mono|apply dscs_marked_mono]|apply elem_mono].
Qed.

Notation allowed := (λ c : call UninstallE, ∀ evs, all_marked evs → setup_call evs (uninstall_event_of c)).

Lemma allowed_foldl_active items : all_calls allowed (delete_active items).
Proof.
  induction items as [|n items IH]; simpl; [done|]. destruct (String.eqb _ _); [|done].
  intros err. split; [done|]. by destruct err.
Qed.

Lemma allowed_extensions items p ns : all_calls allowed (delete_extensions items p ns).
Proof.
  induction items as [|e items IH]; simpl; [done|]. destruct (clusterExtensionMatchesPackage _ _ _); simpl; [|done].
  intros err. split; [done|]. by destruct (IgnoreNotFound err).
Qed.

Ltac allowed_step :=
  lazymatch goal with
  | |- all_calls _ (mret _) => exact I
  | |- all_calls _ (delete_active _) => apply allowed_foldl_active
  | |- all_calls _ (delete_extensions _ _ _) => apply allowed_extensions
  | |- all_calls _ (mbind _ _) => apply all_calls_bind; [|intros ?]
  | |- all_calls _ (trigger _) => intros ?; split; [by intros ? ?|exact I]
  | |- all_calls _ (match ?x with _ => _ end) => destruct x
  end.

Lemma allowed_rest : all_calls allowed (
  err ← removeDSCI;
  match err with
  | Some err => mret (Some err)
  | None =>
      err ← remove_namespaces;
      match err with
      | Some err => mret (Some err)
      | None => remove_operator operatorNamespace NotFound_text platform
      end
  end).
Proof.
  unfold removeDSCI, remove_namespaces, remove_operator, remove_subscription, DeleteExistingSubscription, removeCSV,
    GetClusterServiceVersion, removeClusterExtension. repeat allowed_step.
Qed.

Lemma removeDSC_allowed tr :
  lawful uninstall_event_of setup_call tr → all_marked (uninstall_events tr) →
  wp removeDSC tr (λ tr' _, leads uninstall_event_of setup_call tr tr').
Proof using backoff_ends.
  intros Htr Hm. unfold removeDSC. apply wp_bind, wp_call. intros err. set (c := Call DeleteAllDSC err).
  assert (leads uninstall_event_of setup_call tr (tr ++ [c])) as Hl by by apply leads_snoc.
  destruct err as [err|]; [by apply wp_ret|]. apply wp_bind.
  eapply wp_mono; [|apply (ExponentialBackoff_rule dsc_gone [] _ (λ tr' _, leads uninstall_event_of setup_call tr tr') (λ _ _, True)); [|exact Hl]].
  - intros tr' [names [err|]] [Hl' _]; by apply wp_ret.
  - intros tr' names Hl'. unfold dsc_gone. apply wp_bind, wp_call. intros listed.
    assert (leads uninstall_event_of setup_call tr (tr' ++ [Call ListDscs listed])) by by apply leads_step.
    destruct listed as [[|d ds]|err]; by apply wp_ret.
Qed.

(** What follows the check for the ConfigMap. *)
Definition uninstall_marked : prog UninstallE (option goerr) :=
  err ← markUninstallInProgress;
  match err with
  | Some err => mret (Some (wrapf "failed to report uninstall in progress" err))
  | None =>
      err ← OperatorUninstall operatorNamespace NotFound_text platform;
      match err with
      | Some err => mret (Some (wrapf "operator uninstall failed " err))
      | None => mret None
      end
  end.

Lemma uninstall_marked_leads tr :
  lawful uninstall_event_of setup_call tr → asked (uninstall_events tr) →
  wp uninstall_marked tr (λ tr' _, leads uninstall_event_of setup_call tr tr').
Proof using set_found retries_run u_retries_run backoff_ends.
  intros Htr Ha. unfold uninstall_marked. apply wp_bind. eapply wp_mono; [|by apply markUninstallInProgress_step].
  intros tr1 [err|] [Hl Hm]; [by apply wp_ret|]. specialize (Hm eq_refl). apply wp_bind.
  apply (wp_mono _ _ (λ tr' _, leads uninstall_event_of setup_call tr tr')).
  { intros tr' [err|] Hl'; by apply wp_ret. }
  unfold OperatorUninstall. apply wp_bind. eapply wp_mono; [|by apply removeDSC_allowed; [apply Hl|]].
  intros tr2 [err|] Hl2; [apply wp_ret; by eapply leads_trans|].
  eapply wp_mono; [|apply (wp_harmless_after uninstall_event_of setup_call all_marked); [apply all_marked_mono|apply allowed_rest|apply Hl2|]].
  - intros tr3 err Hl3. eapply leads_trans; [exact Hl|]. by eapply leads_trans.
  - exact (monotone_leads uninstall_event_of setup_call all_marked tr1 tr2 all_marked_mono Hl2 Hm).
Qed.

(** C18: nothing is deleted before the uninstallation is announced. Whatever the cluster
    answers, a reconciliation of the setup controller that deletes anything has found a delete
    ConfigMap in the operator's namespace and has then written, for every DataScienceCluster
    and every DSCInitialization that it listed, the status it had just read with the marker:
    the Ready condition that each of the two controllers looks for before it leaves the
    instance alone. It writes no other status, and a reconciliation that finds no such
    ConfigMap changes nothing. *)
Theorem uninstall_marks_first :
  wp (SetupReconcile operatorNamespace NotFound_text platform) [] (λ tr _,
    each_after setup_call (uninstall_events tr) ∧ (¬ asked (uninstall_events tr) → (length tr ≤ 1)%nat)).
Proof using set_found retries_run u_retries_run backoff_ends.
  enough (∀ o, operatorNamespace = o → wp (
    found ← (match o with
             | Err _ => mret false
             | Ok ns => listed ← trigger (ListDeleteConfigMaps ns);
                 mret (match listed with Err _ => false | Ok n => negb (Nat.eqb n 0) end)
             end);
    if negb found then mret None else uninstall_marked) [] (λ tr _,
      each_after setup_call (uninstall_events tr) ∧ (¬ asked (uninstall_events tr) → (length tr ≤ 1)%nat))) as Hk
    by exact (Hk _ eq_refl).
  intros [ns|err] Hns; [|apply wp_ret; split; [apply each_after_nil|simpl; lia]].
  apply wp_bind, wp_bind, wp_call. intros listed. apply wp_ret.
  set (tr := [] ++ [Call (ListDeleteConfigMaps ns) listed]).
  assert (lawful uninstall_event_of setup_call tr) as Htr by (apply lawful_snoc; [apply each_after_nil|done]).
  destruct listed as [n|err]; [|by apply wp_ret; split; [|simpl; lia]].
  destruct (Nat.eqb_spec n 0) as [Hn|Hn]; [by apply wp_ret; split; [|simpl; lia]|].
  assert (asked (uninstall_events tr)) as Ha by (exists ns, n; split; [done|split; [by left|done]]).
  eapply wp_mono; [|by apply uninstall_marked_leads]. intros tr' err Hl. split; [apply Hl|].
  intros Hna. destruct Hna.
  exact (monotone_leads uninstall_event_of setup_call asked tr tr' asked_mono Hl Ha).
Qed.
End marking.

(** ** A cluster on which the uninstallation succeeds *)

Fixpoint retry_dsc (n : nat) (retriable : goerr → bool) (fn : DscObject → prog UninstallE (DscObject * option goerr)) (s : DscObject)
    : prog UninstallE (DscObject * option goerr) :=
  match n with
  | O => fn s
  | S n =>
      r ← fn s;
      match r.2 with
      | Some err => if retriable err then retry_dsc n retriable fn r.1 else mret r
      | None => mret r
      end
  end.

Lemma retry_dsc_laws n : UninstallRetriesLaws (H := retry_dsc n).
Proof.
  intros retriable fn s tr I J Hfn. revert s tr. unfold OnErrorU.
  induction n as [|n IH]; intros s tr Hs; simpl; [by apply Hfn|].
  apply wp_bind. eapply wp_mono; [|by apply Hfn]. intros tr' [s' [err|]] HI; cbn [fst snd] in *; [|exact HI].
  destruct (retriable err); [apply IH, HI|exact HI].
Qed.

Lemma set_condition_documented_laws : SetConditionLaws (H := status_conditions_documented).
Proof.
  intros l c. exists c. cbn. induction l as [|c' l IH]; simpl; [rewrite String.eqb_refl; by split; [left|]|].
  destruct (String.eqb (c_type c') (c_type c)) eqn:Heq; simpl; [rewrite String.eqb_refl; by split; [left|]|].
  rewrite Heq. destruct IH as [? ?]. split; [by right|done].
Qed.

Definition sample_extension : Extension :=
  MkExtension "rhods" [("spec", VMap [("namespace", VString "redhat-ods-operator");
    ("source", VMap [("sourceType", VString "Catalog"); ("catalog", VMap [("packageName", VString "rhods-operator")])])])].

(** The state says whether the DataScienceCluster is there; [sub] is what reading the
    subscription returns. *)
Definition sample_uninstall_cluster (sub : result string) X (e : UninstallE X) : bool → X * bool :=
  match e in UninstallE X return bool → X * bool with
  | UDsci e => λ b, ((sample_cluster _ e sample_dsci).1, b)
  | ListDeleteConfigMaps _ => λ b, (Ok 1%nat, b)
  | ListDscs => λ b, (Ok (if b then [MkDscObject "default-dsc" PhaseReady None] else []), b)
  | GetDscObject name => λ b, (Ok (MkDscObject name PhaseReady None), b)
  | DeleteAllDSC => λ _, (None, false)
  | ListGenerated => λ b, (Ok [MkNsItem "redhat-ods-applications" NamespaceActive], b)
  | SleepFor _ => λ b, (tt, b)
  | GetSubscription _ _ => λ b, (sub, b)
  | ListCSVs _ => λ b, (Ok [MkCSV "rhods-operator.3.0.0" ["DataScienceCluster"]], b)
  | ListExtensions => λ b, (Ok [sample_extension], b)
  | UpdateDscObjectStatus _ | DeleteAllDSCI | DeleteNamespace _ | DeleteSubscription _ | DeleteCSV _ | DeleteExtension _ =>
      λ b, (None, b)
  end.

#[local] Existing Instances status_conditions_documented nested_documented set_condition_documented_laws.
#[local] Instance three_dsci_retries : Retries := retry_attempts 3.
#[local] Instance three_dsci_retries_laws : RetriesLaws := retry_attempts_laws 3.
#[local] Instance three_dsc_retries : UninstallRetries := retry_dsc 3.
#[local] Instance three_dsc_retries_laws : UninstallRetriesLaws := retry_dsc_laws 3.
#[local] Instance seven_steps : Backoff := poll 7.
#[local] Instance seven_steps_laws : BackoffLaws := poll_laws 7.

Definition sample_namespace : result string := Ok "redhat-ods-operator".
Definition sample_text (a b c : string) : string := "not found".

Definition sample_uninstall (sub : result string) : option goerr * bool * list (call UninstallE) :=
  run (sample_uninstall_cluster sub) (OperatorUninstall sample_namespace sample_text SelfManagedRhoai) true [].

Lemma uninstall_in_order_witness :
  uninstalled sample_namespace SelfManagedRhoai (uninstall_events (sample_uninstall (Ok "rhods-operator")).2).
Proof.
  refine (proj2 (run_wp (sample_uninstall_cluster (Ok "rhods-operator")) _ true [] _
    (uninstall_in_order sample_namespace sample_text SelfManagedRhoai)) _). vm_compute. reflexivity.
Defined.

Definition sample_setup : option goerr * bool * list (call UninstallE) :=
  run (sample_uninstall_cluster (Ok "rhods-operator")) (SetupReconcile sample_namespace sample_text SelfManagedRhoai) true [].

Lemma uninstall_marks_first_witness :
  each_after (setup_call sample_namespace) (uninstall_events sample_setup.2) ∧ length sample_setup.2 = 19%nat.
Proof.
  split; [|vm_compute; reflexivity].
  exact (proj1 (run_wp (sample_uninstall_cluster (Ok "rhods-operator")) _ true [] _
    (uninstall_marks_first sample_namespace sample_text SelfManagedRhoai))).
Defined.

(** Where the kind of the subscription is not served, as with OLM v1 alone, the uninstallation
    fails after the namespaces and keeps the CSV and the ClusterExtension. *)
Definition no_subscription_kind : goerr := Goerr "no matches for kind Subscription" [TagNoMatch].

Lemma missing_subscription_kind_stops :
  (sample_uninstall (Err no_subscription_kind)).1.1 = Some no_subscription_kind ∧
  last (uninstall_events (sample_uninstall (Err no_subscription_kind)).2) =
    Some (UeSubscription "redhat-ods-operator" "rhods-operator" (Err no_subscription_kind)).
Proof. split; vm_compute; reflexivity. Qed.

(** The status of the end of a reconciliation copies the Ready condition of Monitoring: a
    marker that was written while the reconciliation ran is lost. *)
Definition ready_monitoring : list DSCInitializationCondition :=
  [MkDsciCondition ConditionTypeReady ReadyReason "" ConditionTrue].

Lemma completion_drops_marker :
  isUninstallInProgress (ds_Conditions (di_Status (mark_dsci sample_dsci))) = true ∧
  isUninstallInProgress (ds_Conditions (di_Status (complete_status ready_monitoring (mark_dsci sample_dsci)))) = false.
Proof. split; vm_compute; reflexivity. Qed.
