(* ===== verification/HwpMigration.v ===== *)
(** * HwpMigration: from accelerator profiles and container sizes to hardware profiles

    Models [pkg/upgrade/upgrade_utils.go] and of [pkg/upgrade/upgrade.go] the migration that
    runs at every start of the operator: hardware profiles for every AcceleratorProfile and
    every container size of the dashboard's configuration, and the annotations of Notebooks.
    [GetHardwareProfile] and [CreateHardwareProfile] are those of [pkg/cluster/resources.go].

    Quantities, YAML and multierror are parameters; the time stamps of an Event are left out. *)

From S2P Require Import Prelude Effects Unstructured Conversion Admission Workload HardwareProfile ModuleBase ModuleRegistry Kueue KueueController.

(** ** Constants *)

Definition defaultMinMemory : string := "1Mi".
Definition defaultMinCpu : string := "1".
Definition odhDashboardConfigPath : string := "/dashboard/rhoai/shared/odhdashboardconfig/odhdashboardconfig.yaml".
Definition odhDashboardConfigName : string := "odh-dashboard-config".
Definition serving : string := "serving".
Definition notebooks : string := "notebooks".
Definition customServing : string := "custom-serving".
Definition acceleratorNameAnnotation : string := "opendatahub.io/accelerator-name".
Definition acceleratorProfileNamespaceAnnotation : string := "opendatahub.io/accelerator-profile-namespace".
Definition lastSizeSelectionAnnotation : string := "notebooks.opendatahub.io/last-size-selection".
Definition hardwareProfileNameAnnotation : string := "opendatahub.io/hardware-profile-name".
Definition hardwareProfileNamespaceAnnotation : string := "opendatahub.io/hardware-profile-namespace".
Definition hardwareProfileManagedAnnotation : string := "opendatahub.io/managed".
Definition hardwareProfileVisibilityAnnotation : string := "opendatahub.io/dashboard-feature-visibility".
Definition hardwareProfileModifiedDateAnnotation : string := "opendatahub.io/modified-date".
Definition hardwareProfileDisplayNameAnnotation : string := "opendatahub.io/display-name".
Definition hardwareProfileDescriptionAnnotation : string := "opendatahub.io/description".
Definition hardwareProfileDisabledAnnotation : string := "opendatahub.io/disabled".
Definition featureVisibilityModelServing : string := "[" +:+ quote "model-serving" +:+ "]".
Definition featureVisibilityWorkbench : string := "[" +:+ quote "workbench" +:+ "]".
Definition containerSizeHWPPrefix : string := "containersize-".
Definition eventReasonHardwareProfileMigrationSkipped : string := "HardwareProfileMigrationSkipped".

Definition defaultResourceLimits : gmap string string :=
  {["maxMemory" := "120Gi"; "minMemory" := "8Gi"; "maxCpu" := "30"; "minCpu" := "1"]}.

(** ** Data *)

Record ContainerSize := MkContainerSize {
  cs_Name : string;
  cs_RequestsCpu : string;
  cs_RequestsMemory : string;
  cs_LimitsCpu : string;
  cs_LimitsMemory : string;
}.

(** An identifier with everything that is written. *)
Record ProfileIdentifier := MkProfileIdentifier {
  pi_Identifier : string;
  pi_ResourceType : string;
  pi_MinCount : IntOrString;
  pi_MaxCount : option IntOrString;
  pi_DefaultCount : IntOrString;
}.

(** A profile to create; [pf_Tolerations]: those of its node scheduling, if it has one. The
    display name of an identifier is the identifier. *)
Record NewProfile := MkNewProfile {
  pf_Name : string;
  pf_Namespace : string;
  pf_Annotations : gmap string string;
  pf_Identifiers : list ProfileIdentifier;
  pf_Tolerations : option (list Toleration);
}.

(** Objects of the dashboard and Notebooks are workloads: metadata and content. *)
Inductive HwpMigrationE : Type → Type :=
| Now : HwpMigrationE string
| ListAcceleratorProfiles : HwpMigrationE (result (list Workload))
| GetDashboardConfig (name namespace : string) : HwpMigrationE (result value_map)
| StatManifest (path : string) : HwpMigrationE (option goerr)
| ReadManifest (path : string) : HwpMigrationE (result string)
| ListNotebooks : HwpMigrationE (result (list Workload))
| GetNamespaceLabels (name : string) : HwpMigrationE (result (gmap string string))
| GetProfile (name namespace : string) : HwpMigrationE (option goerr)
| CreateProfile (hwp : NewProfile) : HwpMigrationE (option goerr)
| UpdateNotebook (notebook : Workload) : HwpMigrationE (option goerr)
| CreateUpgradeEvent (involved : Workload) (reason message : string) : HwpMigrationE (option goerr).

(** [resource.Quantity]: parsing, the zero value, comparison and printing; [q_Must] is
    [MustParse]. *)
Class MigQuantity (Q : Type) := {
  mq_Parse : string → result Q;
  mq_Zero : Q;
  mq_IsZero : Q → bool;
  mq_Cmp : Q → Q → Z;
  mq_String : Q → string;
  mq_Must : string → Q;
}.

(** ** Reading content *)

(** [v, _ := m[key].(string)] and the same for maps. *)
Definition text_at (m : value_map) (key : string) : string := default "" (as_string (map_get m key)).
Definition map_at (m : value_map) (key : string) : value_map := default [] (as_map (map_get m key)).

(** Names that the CRD accepts: lower case, dashes for spaces. *)
Definition dashed (name : string) : string := replace_char (Ascii.ascii_of_nat 32) "-" (to_lower name).

Section migration.
Context {Q : Type} `{MigQuantity Q, Nested, NestedScalars, NestedMaps}.
Variable multierror_error : list goerr → goerr.
Variable yaml_Unmarshal : string → result value_map.

(** *** Container sizes *)

(** A size of the list; what is no map is left out, what is no text is empty. *)
Definition container_size (size : value) : option ContainerSize :=
  match size with
  | VMap sizeMap =>
      let requests := map_at (map_at sizeMap "resources") "requests" in
      let limits := map_at (map_at sizeMap "resources") "limits" in
      Some (MkContainerSize (text_at sizeMap "name") (text_at requests "cpu") (text_at requests "memory")
              (text_at limits "cpu") (text_at limits "memory"))
  | _ => None
  end.

Definition getContainerSizes (odhConfig : value_map) (sizeType : string) : result (list ContainerSize) :=
  match NestedMap odhConfig ["spec"] with
  | Ok (Some spec) =>
      match NestedSlice spec [sizeType] with
      | Err err => Err err
      | Ok None => Ok []
      | Ok (Some sizes) => Ok (omap container_size sizes)
      end
  | _ => Err (errorf "failed to get spec from OdhDashboardConfig")
  end.

Definition containerSizeExists (sizes : list ContainerSize) (name : string) : bool :=
  existsb (λ size, String.eqb (cs_Name size) name) sizes.

(** The four quantities of a size, and what could not be parsed. *)
Record SizeQuantities := MkSizeQuantities { sq_ReqMem : Q; sq_ReqCpu : Q; sq_LimitMem : Q; sq_LimitCpu : Q }.

Definition parsed_or (prefix text : string) : Q * list goerr :=
  match mq_Parse text with
  | Ok q => (q, [])
  | Err err => (mq_Zero, [wrapf prefix err])
  end.

Definition parseCpuMemoryResourceQuantity (size : ContainerSize) : SizeQuantities * list goerr :=
  let ReqCpu := parsed_or "failed to parse CPU request" (cs_RequestsCpu size) in
  let ReqMem := parsed_or "failed to parse Memory request" (cs_RequestsMemory size) in
  let LimitCpu := parsed_or "failed to parse CPU limit" (cs_LimitsCpu size) in
  let LimitMem := parsed_or "failed to parse Memory limit" (cs_LimitsMemory size) in
  (MkSizeQuantities ReqMem.1 ReqCpu.1 LimitMem.1 LimitCpu.1, ReqCpu.2 ++ ReqMem.2 ++ LimitCpu.2 ++ LimitMem.2).

(** The smallest requests and the largest limits so far. *)
Record Extremes := MkExtremes { ex_minMemory : Q; ex_minCpu : Q; ex_maxMemory : Q; ex_maxCpu : Q }.

Definition track_min (current candidate : Q) : Q :=
  if mq_IsZero current || (mq_Cmp candidate current <? 0)%Z then candidate else current.
Definition track_max (current candidate : Q) : Q :=
  if negb (mq_IsZero candidate) && (0 <? mq_Cmp candidate current)%Z then candidate else current.

Definition track (ex : Extremes) (q : SizeQuantities) : Extremes :=
  MkExtremes (track_min (ex_minMemory ex) (sq_ReqMem q)) (track_min (ex_minCpu ex) (sq_ReqCpu q))
    (track_max (ex_maxMemory ex) (sq_LimitMem q)) (track_max (ex_maxCpu ex) (sq_LimitCpu q)).

Definition track_size (acc : Extremes * list goerr) (size : ContainerSize) : Extremes * list goerr :=
  match parseCpuMemoryResourceQuantity size with
  | (q, []) => (track acc.1 q, acc.2)
  | (_, errs) => (acc.1, acc.2 ++ [wrapf ("failed to parse resource for containerSize " +:+ cs_Name size) (multierror_error errs)])
  end.

Definition no_extremes : Extremes := MkExtremes mq_Zero mq_Zero mq_Zero mq_Zero.

(** The result; the maxima are left out when there are none. *)
Definition counts (ex : Extremes) : gmap string string :=
  let minMemory := if mq_IsZero (ex_minMemory ex) then mq_Must defaultMinMemory else ex_minMemory ex in
  let minCpu := if mq_IsZero (ex_minCpu ex) then mq_Must defaultMinCpu else ex_minCpu ex in
  let result : gmap string string := {["minMemory" := mq_String minMemory; "minCpu" := mq_String minCpu]} in
  let result := if mq_IsZero (ex_maxMemory ex) then result else <["maxMemory" := mq_String (ex_maxMemory ex)]> result in
  if mq_IsZero (ex_maxCpu ex) then result else <["maxCpu" := mq_String (ex_maxCpu ex)]> result.

Definition FindCpuMemoryMinMaxCountFromContainerSizes (containerSizes : list ContainerSize) : result (gmap string string) :=
  match foldl track_size (no_extremes, []) containerSizes with
  | (ex, []) => Ok (counts ex)
  | (_, errs) => Err (multierror_error errs)
  end.

Definition FindContainerCpuMemoryMinMaxCount (odhConfig : value_map) (sizeType : string) : result (gmap string string) :=
  match getContainerSizes odhConfig sizeType with
  | Err err => Err (wrapf ("failed to get container sizes for " +:+ sizeType) err)
  | Ok [] => Ok defaultResourceLimits
  | Ok containerSizes =>
      match FindCpuMemoryMinMaxCountFromContainerSizes containerSizes with
      | Err err => Err (wrapf "failed to calculate resource limits from container sizes" err)
      | Ok limits => Ok limits
      end
  end.

(** *** The toleration of notebooks *)

Definition toleration_of (key value operator effect : string) : Toleration := MkToleration key operator value effect None.

(** A value that is looked up: go on with it, or end with no toleration or the error. *)
Definition found_or_none {A} (r : result (option A)) (k : A → result (list Toleration)) : result (list Toleration) :=
  match r with
  | Err err => Err err
  | Ok None => Ok []
  | Ok (Some a) => k a
  end.

Definition getNotebooksOnlyToleration (odhConfig : value_map) : result (list Toleration) :=
  found_or_none (NestedMap odhConfig ["spec"]) (λ spec,
  found_or_none (NestedMap spec ["notebookController"]) (λ notebookController,
  found_or_none (NestedBool notebookController ["enabled"]) (λ enabled : bool,
  if negb enabled then Ok []
  else
    found_or_none (NestedMap notebookController ["notebookTolerationSettings"]) (λ tolerationSettings,
    found_or_none (NestedBool tolerationSettings ["enabled"]) (λ tolerationEnabled : bool,
    if negb tolerationEnabled then Ok []
    else
      found_or_none (NestedString tolerationSettings ["key"]) (λ key,
      if String.eqb key "" then Ok []
      else Ok [toleration_of key (nested_string tolerationSettings ["value"])
                 (nested_string tolerationSettings ["operator"]) (nested_string tolerationSettings ["effect"])])))))).

(** *** New profiles *)

Definition getFeatureVisibility (profileType : string) : string :=
  if String.eqb profileType serving then featureVisibilityModelServing else featureVisibilityWorkbench.

Definition FormatBool (b : bool) : string := if b then "true" else "false".

Definition createHardwareProfileAnnotations (profileType displayName description : string) (disabled : bool)
    : prog HwpMigrationE (gmap string string) :=
  now ← trigger Now;
  mret {[hardwareProfileVisibilityAnnotation := getFeatureVisibility profileType;
         hardwareProfileModifiedDateAnnotation := now;
         hardwareProfileDisplayNameAnnotation := displayName;
         hardwareProfileDescriptionAnnotation := description;
         hardwareProfileDisabledAnnotation := FormatBool disabled]}.

(** [cluster.GetHardwareProfile]: whether the profile is there, or the error. *)
Definition GetHardwareProfile (name namespace : string) : prog HwpMigrationE (option goerr) := trigger (GetProfile name namespace).

(** [cluster.CreateHardwareProfile]. *)
Definition CreateHardwareProfile (hwp : NewProfile) : prog HwpMigrationE (option goerr) :=
  err ← trigger (CreateProfile hwp);
  match err with
  | Some err =>
      if negb (err_is TagAlreadyExists err)
      then mret (Some (wrapf ("failed to create HardwareProfile '" +:+ pf_Namespace hwp +:+ "/" +:+ pf_Name hwp +:+ "'") err))
      else mret None
  | None => mret None
  end.

(** A toleration of an AcceleratorProfile. *)
Definition ap_toleration (tol : value) : option Toleration :=
  match tol with
  | VMap m => Some (toleration_of (text_at m "key") (text_at m "value") (text_at m "operator") (text_at m "effect"))
  | _ => None
  end.

Definition ap_tolerations (spec : value_map) : list Toleration :=
  match NestedSlice spec ["tolerations"] with
  | Ok (Some tols) => omap ap_toleration tols
  | _ => []
  end.

(** The maximum of a resource, if there is one. *)
Definition max_count (counts : gmap string string) (key : string) : option IntOrString :=
  match counts !! key with
  | Some v => if String.eqb v "" then None else Some (StrVal v)
  | None => None
  end.

Definition count_text (counts : gmap string string) (key : string) : IntOrString := StrVal (default "" (counts !! key)).

Definition ap_identifiers (identifier profileType : string) (containerCounts : gmap string string) : list ProfileIdentifier :=
  let max key := if String.eqb profileType notebooks then max_count containerCounts key else None in
  [MkProfileIdentifier identifier "Accelerator" (IntVal 1) None (IntVal 1);
   MkProfileIdentifier "cpu" "CPU" (count_text containerCounts "minCpu") (max "maxCpu") (count_text containerCounts "minCpu");
   MkProfileIdentifier "memory" "Memory" (count_text containerCounts "minMemory") (max "maxMemory")
     (count_text containerCounts "minMemory")].

(** A slice that is only used when it is not empty. *)
Definition scheduled (tolerations : list Toleration) : option (list Toleration) :=
  match tolerations with [] => None | _ => Some tolerations end.

Definition generateHardwareProfileFromAcceleratorProfile (ap : Workload) (profileType : string)
    (containerCounts : gmap string string) (notebooksOnlyToleration : list Toleration)
    : prog HwpMigrationE (result NewProfile) :=
  match NestedMap (w_Object ap) ["spec"] with
  | Ok (Some spec) =>
      let enabled := match map_get spec "enabled" with VBool b => b | _ => false end in
      annotations ← createHardwareProfileAnnotations profileType (text_at spec "displayName") (text_at spec "description") (negb enabled);
      let tolerations := ap_tolerations spec ++ (if String.eqb profileType notebooks then notebooksOnlyToleration else []) in
      mret (Ok (MkNewProfile (w_Name ap +:+ "-" +:+ profileType) (w_Namespace ap) (w_Annotations ap ∪ annotations)
                  (ap_identifiers (text_at spec "identifier") profileType containerCounts) (scheduled tolerations)))
  | _ => mret (Err (errorf "failed to get spec from AcceleratorProfile"))
  end.

Definition generateHardwareProfileFromContainerSize (size : ContainerSize) (profileType : string)
    (notebooksOnlyToleration : list Toleration) (namespace : string) : prog HwpMigrationE NewProfile :=
  annotations ← createHardwareProfileAnnotations profileType (cs_Name size) "" false;
  mret (MkNewProfile (containerSizeHWPPrefix +:+ dashed (cs_Name size) +:+ "-" +:+ profileType) namespace annotations
    [MkProfileIdentifier "cpu" "CPU" (StrVal (cs_RequestsCpu size)) (Some (StrVal (cs_LimitsCpu size))) (StrVal (cs_RequestsCpu size));
     MkProfileIdentifier "memory" "Memory" (StrVal (cs_RequestsMemory size)) (Some (StrVal (cs_LimitsMemory size)))
       (StrVal (cs_RequestsMemory size))]
    (scheduled notebooksOnlyToleration)).

Definition createHardwareProfileFromAcceleratorProfile (ap : Workload) (profileType : string)
    (containerCounts : gmap string string) (toleration : list Toleration) : prog HwpMigrationE (option goerr) :=
  let suffix := " (profileType: " +:+ profileType +:+ ")" in
  generated ← generateHardwareProfileFromAcceleratorProfile ap profileType containerCounts toleration;
  match generated with
  | Err err =>
      mret (Some (wrapf ("failed to generate " +:+ profileType +:+ " HardwareProfile for AcceleratorProfile '" +:+
        w_Name ap +:+ "'" +:+ suffix) err))
  | Ok hwp =>
      err ← CreateHardwareProfile hwp;
      match err with
      | Some err =>
          mret (Some (wrapf ("failed to create " +:+ profileType +:+ " HardwareProfile '" +:+ pf_Name hwp +:+
            "' for AcceleratorProfile '" +:+ w_Name ap +:+ "'" +:+ suffix) err))
      | None => mret None
      end
  end.

Definition createHardwareProfileFromContainerSize (size : ContainerSize) (sizeType : string)
    (notebooksOnlyToleration : list Toleration) (applicationNS : string) : prog HwpMigrationE (option goerr) :=
  hwp ← generateHardwareProfileFromContainerSize size sizeType notebooksOnlyToleration applicationNS;
  err ← CreateHardwareProfile hwp;
  match err with
  | Some err =>
      mret (Some (wrapf ("failed to create HardwareProfile resource '" +:+ pf_Name hwp +:+ "' for container size '" +:+
        cs_Name size +:+ "' (profileType: " +:+ sizeType +:+ ", namespace: " +:+ applicationNS +:+ ")") err))
  | None => mret None
  end.

Definition custom_serving_identifiers : list ProfileIdentifier :=
  [MkProfileIdentifier "cpu" "CPU" (IntVal 1) None (IntVal 1);
   MkProfileIdentifier "memory" "Memory" (StrVal "1Gi") None (StrVal "1Gi")].

Definition createCustomServingHardwareProfile (namespace : string) : prog HwpMigrationE (option goerr) :=
  customServingError ← GetHardwareProfile customServing namespace;
  match customServingError with
  | None => mret None
  | Some err =>
      if negb (err_is TagNotFound err)
      then mret (Some (Goerr ("failed to check HardwareProfile CR: " +:+ customServing +:+ " " +:+ err_text err) (err_tags err)))
      else
        annotations ← createHardwareProfileAnnotations serving customServing "" false;
        CreateHardwareProfile (MkNewProfile customServing namespace (<[hardwareProfileManagedAnnotation := "false"]> annotations)
          custom_serving_identifiers None)
  end.

(** *** The dashboard's configuration *)

Definition loadOdhDashboardConfigFromManifests (basePath : string) : prog HwpMigrationE (result (option value_map)) :=
  let manifestPath := filepath_Join [basePath; odhDashboardConfigPath] in
  err ← trigger (StatManifest manifestPath);
  match err with
  | Some err => mret (Err err)
  | None =>
      content ← trigger (ReadManifest manifestPath);
      match content with
      | Err err => mret (Err err)
      | Ok content =>
          mret (match yaml_Unmarshal content with
                | Err err => Err err
                | Ok obj => if String.eqb (nested_string obj ["kind"]) "OdhDashboardConfig" then Ok (Some obj) else Ok None
                end)
      end
  end.

Definition GetOdhDashboardConfig (applicationNS basePath : string) : prog HwpMigrationE (result (option value_map)) :=
  got ← trigger (GetDashboardConfig odhDashboardConfigName applicationNS);
  match got with
  | Ok odhConfig => mret (Ok (Some odhConfig))
  | Err err =>
      if negb (err_is TagNotFound err) && negb (err_is TagNoMatch err)
      then mret (Err (wrapf "failed to get OdhDashboardConfig from cluster" err))
      else
        loaded ← loadOdhDashboardConfigFromManifests basePath;
        mret (match loaded with
              | Err err => Err (wrapf "failed to load OdhDashboardConfig from manifests" err)
              | Ok manifestConfig => Ok manifestConfig
              end)
  end.


(** *** Creating the profiles

    The result of a step is the list of errors that [multierror.Append] takes from it: a
    multierror adds its errors, another error itself, [nil] nothing. *)

Definition appended (err : option goerr) : list goerr :=
  match err with Some err => [err] | None => [] end.

Definition getAcceleratorProfiles : prog HwpMigrationE (result (list Workload)) :=
  listed ← trigger ListAcceleratorProfiles;
  mret (match listed with
        | Err err => if err_is TagNoMatch err then Ok [] else Err (wrapf "failed to get AcceleratorProfile list" err)
        | Ok items => Ok items
        end).

Definition servingContainerCounts : gmap string string := {["minMemory" := "1Gi"; "minCpu" := "1"]}.

(** The two profiles of an AcceleratorProfile; the second only after the first. *)
Definition migrate_accelerator (counts : gmap string string) (toleration : list Toleration) (errs : list goerr) (ap : Workload)
    : prog HwpMigrationE (list goerr) :=
  err ← createHardwareProfileFromAcceleratorProfile ap notebooks counts toleration;
  match err with
  | Some err => mret (errs ++ [wrapf ("failed to create notebooks HardwareProfile for AP " +:+ w_Name ap) err])
  | None =>
      err ← createHardwareProfileFromAcceleratorProfile ap serving servingContainerCounts [];
      match err with
      | Some err => mret (errs ++ [wrapf ("failed to create serving HardwareProfile for AP " +:+ w_Name ap) err])
      | None => mret errs
      end
  end.

Definition MigrateAcceleratorProfilesToHardwareProfiles (odhConfig : value_map) : prog HwpMigrationE (list goerr) :=
  apList ← getAcceleratorProfiles;
  match apList with
  | Err err => mret [wrapf "failed to get AcceleratorProfile list" err]
  | Ok [] => mret []
  | Ok apList =>
      match getNotebooksOnlyToleration odhConfig with
      | Err err => mret [wrapf "failed to get notebooks-only toleration" err]
      | Ok notebooksOnlyToleration =>
          match FindContainerCpuMemoryMinMaxCount odhConfig "notebookSizes" with
          | Err err => mret [wrapf "failed to calculate notebook container limits" err]
          | Ok notebookContainerCounts =>
              prog_foldl (migrate_accelerator notebookContainerCounts notebooksOnlyToleration) [] apList
          end
      end
  end.

Definition migrate_size (what sizeType : string) (toleration : list Toleration) (applicationNS : string) (errs : list goerr)
    (size : ContainerSize) : prog HwpMigrationE (list goerr) :=
  err ← createHardwareProfileFromContainerSize size sizeType toleration applicationNS;
  match err with
  | Some err => mret (errs ++ [wrapf ("failed to create HardwareProfile for " +:+ what +:+ " size " +:+ cs_Name size) err])
  | None => mret errs
  end.

(** The sizes of one kind; the errors so far are kept. *)
Definition migrate_sizes (what sizeType : string) (toleration : list Toleration) (applicationNS : string)
    (sizes : result (list ContainerSize)) (errs : list goerr) : prog HwpMigrationE (list goerr) :=
  match sizes with
  | Err err => mret (errs ++ [wrapf ("failed to get " +:+ what +:+ " sizes") err])
  | Ok sizes => prog_foldl (migrate_size what sizeType toleration applicationNS) errs sizes
  end.

Definition MigrateContainerSizesToHardwareProfiles (applicationNS : string) (odhConfig : value_map)
    : prog HwpMigrationE (list goerr) :=
  match getNotebooksOnlyToleration odhConfig with
  | Err err => mret [wrapf "failed to get notebooks-only toleration" err]
  | Ok notebooksOnlyToleration =>
      errs ← migrate_sizes "notebook" notebooks notebooksOnlyToleration applicationNS
               (getContainerSizes odhConfig "notebookSizes") [];
      migrate_sizes "model server" serving [] applicationNS (getContainerSizes odhConfig "modelServerSizes") errs
  end.

(** *** Notebooks *)

Definition isNamespaceManagedByKueue (namespaceName : string) : prog HwpMigrationE (result bool) :=
  if String.eqb namespaceName "" then mret (Ok false)
  else
    labels ← trigger (GetNamespaceLabels namespaceName);
    mret (match labels with
          | Err err => Err err
          | Ok labels =>
              Ok (String.eqb (default "" (labels !! KueueManagedLabelKey)) "true" ||
                  String.eqb (default "" (labels !! KueueLegacyManagedLabelKey)) "true")
          end).

Definition getNotebooks : prog HwpMigrationE (result (list Workload)) :=
  listed ← trigger ListNotebooks;
  mret (match listed with
        | Err err => if err_is TagNoMatch err then Ok [] else Err err
        | Ok items => Ok items
        end).

Definition recordUpgradeErrorEvent (obj : Workload) (reason message : string) : prog HwpMigrationE (option goerr) :=
  trigger (CreateUpgradeEvent obj reason message).

(** Where a profile is looked for, in this order. *)
Definition namespacesToCheck (apNamespace objNamespace applicationNS : string) : list string :=
  (if String.eqb apNamespace "" then [] else [apNamespace]) ++
  (if String.eqb objNamespace "" || String.eqb objNamespace apNamespace then [] else [objNamespace]) ++
  (if String.eqb applicationNS apNamespace || String.eqb applicationNS objNamespace then [] else [applicationNS]).

(** The first namespace that has it. *)
Fixpoint find_profile (hwpName : string) (namespaces : list string) : prog HwpMigrationE (result (option string)) :=
  match namespaces with
  | [] => mret (Ok None)
  | ns :: namespaces =>
      err ← GetHardwareProfile hwpName ns;
      match err with
      | None => mret (Ok (Some ns))
      | Some err =>
          if negb (err_is TagNotFound err)
          then mret (Err (wrapf ("error checking HardwareProfile in namespace " +:+ ns) err))
          else find_profile hwpName namespaces
      end
  end.

(** [GetAnnotations] of dynamic content is a copy: without a profile the object is written as
    it was. *)
Definition setHardwareProfileAnnotation (obj : Workload) (hwpName apNamespace applicationNS : string)
    : prog HwpMigrationE (option goerr) :=
  found ← find_profile hwpName (namespacesToCheck apNamespace (w_Namespace obj) applicationNS);
  match found with
  | Err err => mret (Some err)
  | Ok (Some hwpNamespace) =>
      trigger (UpdateNotebook (with_annotations obj
        (<[hardwareProfileNamespaceAnnotation := hwpNamespace]> (<[hardwareProfileNameAnnotation := hwpName]> (w_Annotations obj)))))
  | Ok None =>
      err ← recordUpgradeErrorEvent obj eventReasonHardwareProfileMigrationSkipped
              "Skipping HardwareProfile annotation as it could not be located";
      match err with
      | Some err => mret (Some err)
      | None => trigger (UpdateNotebook obj)
      end
  end.

(** The profile that a Notebook is to use, and a namespace to look in first. *)
Definition migration_target (containerSizes : list ContainerSize) (notebook : Workload) : option (string * string) :=
  let apName := GetAnnotation notebook acceleratorNameAnnotation in
  let sizeSelection := GetAnnotation notebook lastSizeSelectionAnnotation in
  if nonempty_str apName
  then Some (dashed apName +:+ "-notebooks", GetAnnotation notebook acceleratorProfileNamespaceAnnotation)
  else if nonempty_str sizeSelection && containerSizeExists containerSizes sizeSelection
  then Some (containerSizeHWPPrefix +:+ dashed sizeSelection +:+ "-notebooks", "")
  else None.

(** What the Kueue webhook answers. *)
Definition rejected_by_kueue (errStr : string) : bool :=
  contains errStr "Kueue label validation failed" || (contains errStr "missing required label" && contains errStr "kueue").

Definition kueue_skip_message (notebook : Workload) : string :=
  "Skipping HardwareProfile migration for Notebook " +:+ w_Name notebook +:+
  ": namespace is Kueue-managed but missing required label " +:+ quote KueueQueueNameLabel +:+
  " (add the label to the Workbench to fix; see RHOAIENG-50667)".

(** An event whose failure is only logged. *)
Definition note_skipped (notebook : Workload) (message : string) : prog HwpMigrationE unit :=
  recordUpgradeErrorEvent notebook eventReasonHardwareProfileMigrationSkipped message ;; mret tt.

Definition attach (applicationNS : string) (errs : list goerr) (notebook : Workload) (target : string * string)
    : prog HwpMigrationE (list goerr) :=
  err ← setHardwareProfileAnnotation notebook target.1 target.2 applicationNS;
  match err with
  | None => mret errs
  | Some err =>
      if rejected_by_kueue (err_text err) then
        note_skipped notebook ("Skipping HardwareProfile migration for Notebook " +:+ w_Name notebook +:+ ": " +:+ err_text err) ;;
        mret errs
      else
        mret (errs ++ [wrapf ("failed to set HardwareProfile annotation for notebook " +:+ w_Name notebook) err])
  end.

Definition attach_notebook (applicationNS : string) (containerSizes : list ContainerSize) (errs : list goerr) (notebook : Workload)
    : prog HwpMigrationE (list goerr) :=
  if nonempty_str (GetAnnotation notebook hardwareProfileNameAnnotation) then mret errs
  else
    match migration_target containerSizes notebook with
    | None => mret errs
    | Some target =>
        kueueManagedNS ← isNamespaceManagedByKueue (w_Namespace notebook);
        match kueueManagedNS with
        | Ok true =>
            if String.eqb (GetLabel notebook KueueQueueNameLabel) ""
            then note_skipped notebook (kueue_skip_message notebook) ;; mret errs
            else attach applicationNS errs notebook target
        | _ => attach applicationNS errs notebook target
        end
    end.

Definition AttachHardwareProfileToNotebooks (applicationNS : string) (odhConfig : value_map) : prog HwpMigrationE (list goerr) :=
  got ← getNotebooks;
  match got with
  | Err err => mret [wrapf "failed to get notebooks" err]
  | Ok [] => mret []
  | Ok notebooks =>
      match getContainerSizes odhConfig "notebookSizes" with
      | Err err => mret [wrapf "failed to get container sizes" err]
      | Ok containerSizes => prog_foldl (attach_notebook applicationNS containerSizes) [] notebooks
      end
  end.

(** *** The migration *)

Definition MigrateToInfraHardwareProfiles (applicationNS basePath : string) : prog HwpMigrationE (list goerr) :=
  if String.eqb applicationNS "" then mret []
  else
    odhConfig ← GetOdhDashboardConfig applicationNS basePath;
    match odhConfig with
    | Err err => mret [wrapf "failed to get OdhDashboardConfig" err]
    | Ok None => mret []
    | Ok (Some odhConfig) =>
        errs1 ← MigrateAcceleratorProfilesToHardwareProfiles odhConfig;
        errs2 ← MigrateContainerSizesToHardwareProfiles applicationNS odhConfig;
        errs3 ← AttachHardwareProfileToNotebooks applicationNS odhConfig;
        err4 ← createCustomServingHardwareProfile applicationNS;
        mret (errs1 ++ errs2 ++ errs3 ++ appended err4)
    end.
End migration.
