(* ===== verification/HwpMigrationTheorems.v ===== *)
(** * HwpMigrationTheorems: the migration only adds

    Profiles are only created, for AcceleratorProfiles and container sizes that were read;
    Notebooks are only given the two annotations that name a profile that was just found. The
    counts of a profile bound those of all container sizes. *)

From S2P Require Import Prelude Effects Unstructured Conversion Admission Workload HardwareProfile ModuleBase ModuleRegistry Kueue KueueController HwpMigration.

(** ** Events *)

Inductive migration_event :=
| MeNow (now : string)
| MeProfiles (r : result (list Workload))
| MeConfig (name namespace : string) (r : result value_map)
| MeStat (path : string) (err : option goerr)
| MeManifest (path : string) (r : result string)
| MeNotebooks (r : result (list Workload))
| MeLabels (namespace : string) (r : result (gmap string string))
| MeGetProfile (name namespace : string) (err : option goerr)
| MeCreate (hwp : NewProfile) (err : option goerr)
| MeUpdate (notebook : Workload) (err : option goerr)
| MeEvent (involved : Workload) (reason message : string) (err : option goerr).

Definition migration_event_of (c : call HwpMigrationE) : migration_event :=
  match c with
  | @Call _ X e x =>
      match e in HwpMigrationE X return X → migration_event with
      | Now => MeNow
      | ListAcceleratorProfiles => MeProfiles
      | GetDashboardConfig name namespace => MeConfig name namespace
      | StatManifest path => MeStat path
      | ReadManifest path => MeManifest path
      | ListNotebooks => MeNotebooks
      | GetNamespaceLabels name => MeLabels name
      | GetProfile name namespace => MeGetProfile name namespace
      | CreateProfile hwp => MeCreate hwp
      | UpdateNotebook notebook => MeUpdate notebook
      | CreateUpgradeEvent involved reason message => MeEvent involved reason message
      end x
  end.

Notation migration_events := (events migration_event_of).

Section migration.
Context {Q : Type} `{MigQuantity Q, Nested, NestedScalars, NestedMaps}.
Variable multierror_error : list goerr → goerr.
Variable yaml_Unmarshal : string → result value_map.
Variables applicationNS basePath : string.
Implicit Types (evs : list migration_event) (tr : list (call HwpMigrationE)).

(** ** What may be created and written *)

(** The dashboard's configuration that was read. *)
Definition config_read evs (odhConfig : value_map) : Prop :=
  MeConfig odhDashboardConfigName applicationNS (Ok odhConfig) ∈ evs ∨
  ∃ path content, MeManifest path (Ok content) ∈ evs ∧ yaml_Unmarshal content = Ok odhConfig.

Definition listed_size evs (sizeType : string) (size : ContainerSize) : Prop :=
  ∃ odhConfig sizes, config_read evs odhConfig ∧ getContainerSizes odhConfig sizeType = Ok sizes ∧ size ∈ sizes.

(** A profile is one of a listed AcceleratorProfile, of a container size, or the one for
    serving after it was seen missing. *)
Definition may_create evs (hwp : NewProfile) : Prop :=
  (∃ items ap profileType, MeProfiles (Ok items) ∈ evs ∧ ap ∈ items ∧
     pf_Name hwp = w_Name ap +:+ "-" +:+ profileType ∧ pf_Namespace hwp = w_Namespace ap) ∨
  (∃ sizeType profileType size, listed_size evs sizeType size ∧
     pf_Name hwp = containerSizeHWPPrefix +:+ dashed (cs_Name size) +:+ "-" +:+ profileType ∧ pf_Namespace hwp = applicationNS) ∨
  (pf_Name hwp = customServing ∧ pf_Namespace hwp = applicationNS ∧
   ∃ err, MeGetProfile customServing applicationNS (Some err) ∈ evs ∧ err_is TagNotFound err).

(** The namespaces before the one that has the profile do not. *)
Definition found_first evs (hwpName hwpNamespace : string) (namespaces : list string) : Prop :=
  ∃ before after, namespaces = before ++ hwpNamespace :: after ∧
    MeGetProfile hwpName hwpNamespace None ∈ evs ∧
    Forall (λ ns, ∃ err, MeGetProfile hwpName ns (Some err) ∈ evs ∧ err_is TagNotFound err) before.

Definition found_nowhere evs (hwpName : string) (namespaces : list string) : Prop :=
  Forall (λ ns, ∃ err, MeGetProfile hwpName ns (Some err) ∈ evs ∧ err_is TagNotFound err) namespaces.

Definition with_profile (notebook : Workload) (hwpName hwpNamespace : string) : Workload :=
  with_annotations notebook (<[hardwareProfileNamespaceAnnotation := hwpNamespace]>
    (<[hardwareProfileNameAnnotation := hwpName]> (w_Annotations notebook))).

(** How a listed Notebook is written. *)
Definition written_as evs (target : string * string) (notebook written : Workload) : Prop :=
  let namespaces := namespacesToCheck target.2 (w_Namespace notebook) applicationNS in
  (∃ hwpNamespace, written = with_profile notebook target.1 hwpNamespace ∧ found_first evs target.1 hwpNamespace namespaces) ∨
  (written = notebook ∧ found_nowhere evs target.1 namespaces ∧
   ∃ message, MeEvent notebook eventReasonHardwareProfileMigrationSkipped message None ∈ evs).

(** A listed Notebook that has no profile yet and names one. *)
Definition to_migrate evs (notebook : Workload) (target : string * string) : Prop :=
  GetAnnotation notebook hardwareProfileNameAnnotation = "" ∧
  ∃ items odhConfig sizes, MeNotebooks (Ok items) ∈ evs ∧ notebook ∈ items ∧ config_read evs odhConfig ∧
    getContainerSizes odhConfig "notebookSizes" = Ok sizes ∧ migration_target sizes notebook = Some target.

Definition may_update evs (written : Workload) : Prop :=
  ∃ notebook target, to_migrate evs notebook target ∧ written_as evs target notebook written ∧
    (GetLabel notebook KueueQueueNameLabel = "" →
     w_Namespace notebook = "" ∨
     (∃ err, MeLabels (w_Namespace notebook) (Err err) ∈ evs) ∨
     ∃ labels, MeLabels (w_Namespace notebook) (Ok labels) ∈ evs ∧
       labels !! KueueManagedLabelKey ≠ Some "true" ∧ labels !! KueueLegacyManagedLabelKey ≠ Some "true").

Definition migration_call evs (ev : migration_event) : Prop :=
  match ev with
  | MeCreate hwp _ => may_create evs hwp
  | MeUpdate written _ => may_update evs written
  | MeEvent involved reason _ _ =>
      reason = eventReasonHardwareProfileMigrationSkipped ∧ ∃ target, to_migrate evs involved target
  | _ => True
  end.

(** What is asked of a call is only that something has happened. *)
Lemma migration_call_later pre evs ev : migration_call evs ev → migration_call (pre ++ evs) ev.
Proof.
  assert (∀ x : migration_event, x ∈ evs → x ∈ pre ++ evs) as Hin by (intros x ?; apply elem_of_app; by right).
  assert (∀ c, config_read evs c → config_read (pre ++ evs) c) as Hc.
  { intros c [?|(path & content & ? & ?)]; [left; by apply Hin|right]. exists path, content. split; [by apply Hin|done]. }
  assert (∀ notebook target, to_migrate evs notebook target → to_migrate (pre ++ evs) notebook target) as Hm.
  { intros notebook target (? & items & c & sizes & ? & ? & ? & ? & ?). split; [done|]. exists items, c, sizes. eauto 10. }
  assert (∀ name l, found_nowhere evs name l → found_nowhere (pre ++ evs) name l) as Hn.
  { intros name l Hall. eapply Forall_impl; [exact Hall|]. intros ns (err & ? & ?). exists err. auto. }
  destruct ev as [| | | | | | | |hwp err0|nb0 err0|inv reason msg err0]; simpl; try done.
  - intros [(items & ap & ty & ? & ?)|[(ty & pty & size & (c & sizes & ? & ? & ?) & ?)|(? & ? & err & ? & ?)]].
    + left. exists items, ap, ty. auto.
    + right; left. exists ty, pty, size. split; [|done]. exists c, sizes. auto.
    + right; right. split; [done|]. split; [done|]. exists err. auto.
  - intros (nb & target & ? & Hw & Hk). exists nb, target. split; [auto|]. split.
    + destruct Hw as [(ns & ? & before & after & ? & ? & ?)|(? & ? & message & ?)].
      * left. exists ns. split; [done|]. exists before, after. split; [done|]. split; [by apply Hin|by apply Hn].
      * right. split; [done|]. split; [by apply Hn|]. exists message. by apply Hin.
    + intros Hq. destruct (Hk Hq) as [?|[(err & ?)|(labels & ? & ?)]]; [by left|right; left|right; right].
      * exists err. by apply Hin.
      * exists labels. split; [by apply Hin|done].
  - intros (? & target & ?). split; [done|]. exists target. auto.
Qed.

Notation hoare := (triple migration_event_of migration_call).

(** ** The facts stay true *)

Lemma config_read_mono odhConfig : monotone (λ evs, config_read evs odhConfig).
Proof.
  intros evs evs' [?|(path & content & ? & ?)]; [left; by apply elem_mono|right].
  exists path, content. split; [by apply elem_mono|done].
Qed.

Lemma to_migrate_mono notebook target : monotone (λ evs, to_migrate evs notebook target).
Proof.
  intros evs evs' (? & items & c & sizes & ? & ? & ? & ?). split; [done|]. exists items, c, sizes.
  split; [by apply elem_mono|]. split; [done|]. split; [by apply config_read_mono|done].
Qed.

Lemma found_nowhere_mono name l : monotone (λ evs, found_nowhere evs name l).
Proof.
  intros evs evs' Hall. eapply Forall_impl; [exact Hall|]. intros ns (err & ? & ?). exists err. split; [by apply elem_mono|done].
Qed.

Lemma found_first_mono name ns l : monotone (λ evs, found_first evs name ns l).
Proof.
  intros evs evs' (before & after & -> & ? & Hall). exists before, after. split; [done|]. split; [by apply elem_mono|].
  by apply (found_nowhere_mono name before evs evs').
Qed.

(** ** Notebooks *)

Lemma find_profile_finds F hwpName namespaces : monotone F →
  hoare F (find_profile hwpName namespaces) (λ r evs, F evs ∧
    match r with
    | Ok (Some ns) => found_first evs hwpName ns namespaces
    | Ok None => found_nowhere evs hwpName namespaces
    | Err _ => True
    end).
Proof.
  intros HF. revert F HF. induction namespaces as [|ns namespaces IH]; intros F HF; cbn [find_profile].
  - apply triple_ret. intros evs ?. split; [done|constructor].
  - apply (triple_bind _ _ _ _ _ (λ err evs, F evs ∧ MeGetProfile hwpName ns err ∈ evs)); [by apply triple_call|].
    intros [err|].
    + destruct (err_is TagNotFound err) eqn:Ht; simpl; [|by apply triple_ret; intros evs [? ?]].
      assert (err_is TagNotFound err) as Hn by (by rewrite Ht).
      eapply triple_weaken; [intros evs Hpre; exact Hpre| |by apply IH, both_mono, elem_mono].
      intros r evs [[? Hget] Hr]. split; [done|]. destruct r as [[ns'|]|]; [|constructor; eauto|done].
      destruct Hr as (before & after & -> & ? & Hall). exists (ns :: before), after. repeat split; [done|].
      constructor; eauto.
    + apply triple_ret. intros evs [? ?]. split; [done|]. exists [], namespaces. repeat split; [done|constructor].
Qed.

(** The Kueue check of the namespace, as far as it is needed. *)
Definition checked evs (notebook : Workload) : Prop :=
  GetLabel notebook KueueQueueNameLabel = "" →
  w_Namespace notebook = "" ∨
  (∃ err, MeLabels (w_Namespace notebook) (Err err) ∈ evs) ∨
  ∃ labels, MeLabels (w_Namespace notebook) (Ok labels) ∈ evs ∧
    labels !! KueueManagedLabelKey ≠ Some "true" ∧ labels !! KueueLegacyManagedLabelKey ≠ Some "true".

Lemma checked_mono notebook : monotone (λ evs, checked evs notebook).
Proof.
  intros evs evs' Hc Hl. destruct (Hc Hl) as [?|[(err & ?)|(labels & ? & ?)]]; [by left|right; left|right; right].
  - exists err. by apply elem_mono.
  - exists labels. split; [by apply elem_mono|done].
Qed.

Definition ready evs notebook target : Prop := to_migrate evs notebook target ∧ checked evs notebook.

Lemma ready_mono notebook target : monotone (λ evs, ready evs notebook target).
Proof. apply both_mono; [apply to_migrate_mono|apply checked_mono]. Qed.

Definition ready_for notebook target : list migration_event → Prop := λ evs, ready evs notebook target.

Lemma record_event F notebook target message :
  monotone F → (∀ evs, F evs → to_migrate evs notebook target) →
  hoare F (recordUpgradeErrorEvent notebook eventReasonHardwareProfileMigrationSkipped message)
    (λ err evs, F evs ∧ MeEvent notebook eventReasonHardwareProfileMigrationSkipped message err ∈ evs).
Proof.
  intros HF Hr. unfold recordUpgradeErrorEvent. apply triple_call; [done| |done].
  intros evs err Hf. split; [done|exists target; by apply Hr].
Qed.

Lemma skipped_keeps F notebook target message :
  monotone F → (∀ evs, F evs → to_migrate evs notebook target) → hoare F (note_skipped notebook message) (λ _, F).
Proof.
  intros HF Hr. unfold note_skipped. eapply triple_bind; [by apply (record_event F notebook target)|].
  intros x. apply triple_ret. by intros evs [? _].
Qed.

Lemma setHardwareProfileAnnotation_keeps notebook target :
  hoare (ready_for notebook target) (setHardwareProfileAnnotation notebook target.1 target.2 applicationNS)
    (λ _, ready_for notebook target).
Proof.
  unfold setHardwareProfileAnnotation.
  eapply triple_bind; [apply find_profile_finds, ready_mono|]. intros [[ns|]|err].
  - apply triple_call; [apply both_mono; [apply ready_mono|apply found_first_mono]| |by intros ? evs [? _]].
    intros evs x [[? ?] Hf]. exists notebook, target. split; [done|]. split; [left; by exists ns|done].
  - eapply triple_bind; [apply (record_event _ notebook target); [|by intros evs [[? _] _]]|].
    { apply both_mono; [apply ready_mono|apply found_nowhere_mono]. }
    intros [err|]; [by apply triple_ret; intros evs [[? _] _]|].
    apply triple_call; [| |by intros ? evs [[? _] _]].
    { apply both_mono; [apply both_mono; [apply ready_mono|apply found_nowhere_mono]|apply elem_mono]. }
    intros evs x [[[? ?] Hn] ?]. exists notebook, target. split; [done|]. split; [right; eauto|done].
  - by apply triple_ret; intros evs [? _].
Qed.

Lemma attach_keeps errs notebook target :
  hoare (ready_for notebook target) (attach applicationNS errs notebook target) (λ _, ready_for notebook target).
Proof.
  unfold attach. eapply triple_bind; [apply setHardwareProfileAnnotation_keeps|]. intros [err|]; [|by apply triple_ret].
  destruct (rejected_by_kueue (err_text err)); [|by apply triple_ret].
  apply (triple_bind _ _ _ _ _ (λ _, ready_for notebook target)).
  - apply (skipped_keeps _ _ target); [apply ready_mono|by intros evs [? _]].
  - intros _. by apply triple_ret.
Qed.

(** What the fold over the Notebooks knows. *)
Definition notebooks_known (items : list Workload) (odhConfig : value_map) evs : Prop :=
  MeNotebooks (Ok items) ∈ evs ∧ config_read evs odhConfig.

Lemma notebooks_known_mono items odhConfig : monotone (notebooks_known items odhConfig).
Proof. apply both_mono; [apply elem_mono|apply config_read_mono]. Qed.

Lemma namespace_check K notebook : monotone K →
  hoare K (isNamespaceManagedByKueue (w_Namespace notebook)) (λ r evs, K evs ∧ (r = Ok true ∨ checked evs notebook)).
Proof.
  intros HK. unfold isNamespaceManagedByKueue. destruct (String.eqb_spec (w_Namespace notebook) "") as [He|].
  - apply triple_ret. intros evs ?. split; [done|]. right. by left.
  - apply (triple_bind _ _ _ _ _ (λ r evs, K evs ∧ MeLabels (w_Namespace notebook) r ∈ evs)); [by apply triple_call|].
    intros [labels|err]; apply triple_ret; intros evs [? Hev]; (split; [done|]).
    + destruct (String.eqb_spec (default "" (labels !! KueueManagedLabelKey)) "true") as [|Hk1]; [by left|].
      destruct (String.eqb_spec (default "" (labels !! KueueLegacyManagedLabelKey)) "true") as [|Hk2]; [by left|].
      right. intros _. right; right. exists labels. split; [done|].
      split; intros Hl; [apply Hk1|apply Hk2]; by rewrite Hl.
    + right. intros _. right; left. by exists err.
Qed.

Lemma attach_known K errs notebook target : monotone K → (∀ evs, K evs → to_migrate evs notebook target) →
  hoare (λ evs, K evs ∧ checked evs notebook) (attach applicationNS errs notebook target) (λ _, K).
Proof.
  intros HK Hto. eapply triple_weaken; [| |apply (triple_frame _ _ K); [exact HK|apply (attach_keeps errs notebook target)]].
  - intros evs [? ?]. split; [done|]. split; [by apply Hto|done].
  - by intros ? evs [? _].
Qed.

Lemma attach_notebook_keeps errs items odhConfig sizes notebook :
  notebook ∈ items → getContainerSizes odhConfig "notebookSizes" = Ok sizes →
  hoare (notebooks_known items odhConfig) (attach_notebook applicationNS sizes errs notebook)
    (λ _, notebooks_known items odhConfig).
Proof.
  intros Hin Hsizes. unfold attach_notebook.
  destruct (nonempty_str _) eqn:Hann; [by apply triple_ret|].
  destruct (migration_target sizes notebook) as [target|] eqn:Htarget; [|by apply triple_ret].
  set (K := notebooks_known items odhConfig).
  assert (monotone K) as HK by apply notebooks_known_mono.
  assert (∀ evs, K evs → to_migrate evs notebook target) as Hto.
  { intros evs [? ?]. split; [|by exists items, odhConfig, sizes].
    unfold nonempty_str in Hann. by destruct (String.eqb_spec (GetAnnotation notebook hardwareProfileNameAnnotation) ""). }
  eapply triple_bind; [by apply (namespace_check K)|]. intros [[]|err]; cbn beta match.
  - destruct (String.eqb_spec (GetLabel notebook KueueQueueNameLabel) "") as [|Hq].
    + apply (triple_weaken _ _ _ K _ (λ _, K)); [by intros evs [? _]|done|].
      apply (triple_bind _ _ _ _ _ (λ _, K)); [by apply (skipped_keeps _ _ target)|]. intros _. by apply triple_ret.
    + eapply triple_weaken; [|intros ? evs Hpost; exact Hpost|by apply attach_known].
      intros evs [? _]. split; [done|]. by intros ?.
  - eapply triple_weaken; [|intros ? evs Hpost; exact Hpost|by apply attach_known].
    intros evs [? [?|?]]; by split.
  - eapply triple_weaken; [|intros ? evs Hpost; exact Hpost|by apply attach_known].
    intros evs [? [?|?]]; by split.
Qed.

Lemma AttachHardwareProfileToNotebooks_keeps F odhConfig : monotone F → (∀ evs, F evs → config_read evs odhConfig) →
  hoare F (AttachHardwareProfileToNotebooks applicationNS odhConfig) (λ _, F).
Proof.
  intros HF Hc. unfold AttachHardwareProfileToNotebooks, getNotebooks.
  eapply triple_bind; [apply (triple_bind _ _ _ _ _ (λ r evs, F evs ∧ MeNotebooks r ∈ evs)); [by apply triple_call|]|].
  { intros r. apply (triple_ret _ _ _ _ (λ r' evs, F evs ∧ (r' ≠ Ok [] → ∀ items, r' = Ok items → MeNotebooks (Ok items) ∈ evs))).
    intros evs [? Hr]. split; [done|]. intros Hn items Heq. destruct r as [l|err]; [by injection Heq as ->|].
    destruct (err_is TagNoMatch err); [done|discriminate]. }
  intros [[|nb nbs]|err]; try (by apply triple_ret; intros evs [? _]).
  destruct (getContainerSizes odhConfig "notebookSizes") as [sizes|err] eqn:Hsizes; [|by apply triple_ret; intros evs [? _]].
  set (items := nb :: nbs) in *.
  apply (triple_weaken _ _ _ (λ evs, F evs ∧ notebooks_known items odhConfig evs) _ (λ _ evs, F evs ∧ notebooks_known items odhConfig evs)).
  - intros evs [? Hr]. split; [done|]. split; [by apply Hr|by apply Hc].
  - by intros ? evs [? _].
  - apply triple_foldl. intros errs notebook Hin. apply triple_frame; [done|]. by apply attach_notebook_keeps.
Qed.

(** ** Profiles *)

Lemma CreateHardwareProfile_keeps F hwp : monotone F → (∀ evs, F evs → may_create evs hwp) →
  hoare F (CreateHardwareProfile hwp) (λ _, F).
Proof.
  intros HF Hm. unfold CreateHardwareProfile. apply (triple_bind _ _ _ _ _ (λ _, F)); [apply triple_call; [done|by intros evs x ?; apply Hm|done]|].
  intros [err|]; [|by apply triple_ret]. destruct (negb _); by apply triple_ret.
Qed.

Lemma annotations_keep F profileType displayName description disabled : monotone F →
  hoare F (createHardwareProfileAnnotations profileType displayName description disabled) (λ _, F).
Proof.
  intros HF. unfold createHardwareProfileAnnotations. apply (triple_bind _ _ _ _ _ (λ _, F)); [by apply triple_call|].
  intros now. by apply triple_ret.
Qed.

Lemma accelerator_profile_keeps F ap profileType counts toleration : monotone F →
  (∀ evs hwp, F evs → pf_Name hwp = w_Name ap +:+ "-" +:+ profileType → pf_Namespace hwp = w_Namespace ap → may_create evs hwp) →
  hoare F (createHardwareProfileFromAcceleratorProfile ap profileType counts toleration) (λ _, F).
Proof.
  intros HF Hm. unfold createHardwareProfileFromAcceleratorProfile.
  apply (triple_bind _ _ _ _ _ (λ r evs, F evs ∧ ∀ hwp, r = Ok hwp →
    pf_Name hwp = w_Name ap +:+ "-" +:+ profileType ∧ pf_Namespace hwp = w_Namespace ap)).
  - unfold generateHardwareProfileFromAcceleratorProfile.
    destruct (NestedMap _ _) as [[spec|]|err]; try (by apply triple_ret; intros evs ?; split; [|discriminate]).
    apply (triple_bind _ _ _ _ _ (λ _, F)); [by apply annotations_keep|].
    intros ann. apply triple_ret. intros evs ?. split; [done|]. by intros hwp [= <-].
  - intros [hwp|err]; [|by apply triple_ret; intros evs [? _]].
    apply (triple_bind _ _ _ _ _ (λ _, F)); [|intros [err|]; by apply triple_ret].
    apply (triple_weaken _ _ _ (λ evs, (pf_Name hwp = w_Name ap +:+ "-" +:+ profileType ∧ pf_Namespace hwp = w_Namespace ap) ∧ F evs) _
      (λ _, F)); [|done|].
    { intros evs [? Hh]. split; [by apply Hh|done]. }
    apply triple_pure. intros [? ?]. apply CreateHardwareProfile_keeps; [done|]. intros evs ?. by apply Hm.
Qed.

Lemma MigrateAcceleratorProfiles_keeps F odhConfig : monotone F →
  hoare F (MigrateAcceleratorProfilesToHardwareProfiles multierror_error odhConfig) (λ _, F).
Proof.
  intros HF. unfold MigrateAcceleratorProfilesToHardwareProfiles, getAcceleratorProfiles.
  eapply triple_bind; [apply (triple_bind _ _ _ _ _ (λ r evs, F evs ∧ MeProfiles r ∈ evs)); [by apply triple_call|]|].
  { intros r. apply (triple_ret _ _ _ _ (λ r' evs, F evs ∧ (r' ≠ Ok [] → ∀ items, r' = Ok items → MeProfiles (Ok items) ∈ evs))).
    intros evs [? Hr]. split; [done|]. intros Hn items Heq. destruct r as [l|err]; [by injection Heq as ->|].
    destruct (err_is TagNoMatch err); [done|discriminate]. }
  intros [[|ap aps]|err]; try (by apply triple_ret; intros evs [? _]).
  destruct (getNotebooksOnlyToleration odhConfig) as [toleration|err]; [|by apply triple_ret; intros evs [? _]].
  destruct (FindContainerCpuMemoryMinMaxCount _ _ _) as [counts|err]; [|by apply triple_ret; intros evs [? _]].
  set (items := ap :: aps) in *. set (K := λ evs, F evs ∧ MeProfiles (Ok items) ∈ evs).
  apply (triple_weaken _ _ _ K _ (λ _, K)); [|by intros ? evs [? _]|].
  { intros evs [? Hr]. split; [done|by apply Hr]. }
  assert (monotone K) as HK by (apply both_mono; [done|apply elem_mono]).
  apply triple_foldl. intros errs ap' Hin. unfold migrate_accelerator.
  assert (∀ profileType evs hwp, K evs → pf_Name hwp = w_Name ap' +:+ "-" +:+ profileType → pf_Namespace hwp = w_Namespace ap' →
    may_create evs hwp) as Hm.
  { intros profileType evs hwp [_ ?] ? ?. left. by exists items, ap', profileType. }
  apply (triple_bind _ _ _ _ _ (λ _, K)); [by apply accelerator_profile_keeps; [|apply Hm]|].
  intros [err|]; [by apply triple_ret|].
  apply (triple_bind _ _ _ _ _ (λ _, K)); [by apply accelerator_profile_keeps; [|apply Hm]|].
  intros [err|]; by apply triple_ret.
Qed.

Lemma migrate_sizes_keeps F odhConfig what key sizeType toleration errs : monotone F →
  (∀ evs, F evs → config_read evs odhConfig) →
  hoare F (migrate_sizes what sizeType toleration applicationNS (getContainerSizes odhConfig key) errs) (λ _, F).
Proof.
  intros HF Hc. unfold migrate_sizes. destruct (getContainerSizes odhConfig key) as [sizes|err] eqn:Hsizes; [|by apply triple_ret].
  apply triple_foldl. intros errs' size Hin. unfold migrate_size, createHardwareProfileFromContainerSize, generateHardwareProfileFromContainerSize.
  apply (triple_bind _ _ _ _ _ (λ _, F)); [|intros [err|]; by apply triple_ret].
  apply (triple_bind _ _ _ _ _ (λ hwp evs,
    (pf_Name hwp = containerSizeHWPPrefix +:+ dashed (cs_Name size) +:+ "-" +:+ sizeType ∧ pf_Namespace hwp = applicationNS) ∧ F evs)).
  { apply (triple_bind _ _ _ _ _ (λ _, F)); [by apply annotations_keep|]. intros ann. by apply triple_ret. }
  intros hwp. apply triple_pure. intros [? ?].
  apply (triple_bind _ _ _ _ _ (λ _, F)); [|intros [err|]; by apply triple_ret].
  apply CreateHardwareProfile_keeps; [done|]. intros evs ?. right; left. exists key, sizeType, size.
  split; [exists odhConfig, sizes; split; [by apply Hc|done]|done].
Qed.

Lemma createCustomServing_keeps F : monotone F →
  hoare F (createCustomServingHardwareProfile applicationNS) (λ _, F).
Proof.
  intros HF. unfold createCustomServingHardwareProfile, GetHardwareProfile.
  apply (triple_bind _ _ _ _ _ (λ err evs, F evs ∧ MeGetProfile customServing applicationNS err ∈ evs)); [by apply triple_call|].
  intros [err|]; [|by apply triple_ret; intros evs [? _]].
  destruct (err_is TagNotFound err) eqn:Ht; cbn [negb]; [|by apply triple_ret; intros evs [? _]].
  set (K := λ evs, F evs ∧ MeGetProfile customServing applicationNS (Some err) ∈ evs).
  assert (monotone K) as HK by (apply both_mono; [done|apply elem_mono]).
  apply (triple_bind _ _ _ _ _ (λ _, K)); [by apply annotations_keep|]. intros ann.
  apply (triple_weaken _ _ _ K _ (λ _, K)); [done|by intros ? evs [? _]|].
  apply CreateHardwareProfile_keeps; [done|]. intros evs [_ ?]. right; right. repeat split; [].
  exists err. split; [done|by rewrite Ht].
Qed.

(** The configuration that is used was read. *)
Lemma GetOdhDashboardConfig_reads :
  hoare (λ _, True) (GetOdhDashboardConfig yaml_Unmarshal applicationNS basePath)
    (λ r evs, ∀ odhConfig, r = Ok (Some odhConfig) → config_read evs odhConfig).
Proof.
  assert (monotone (λ _ : list migration_event, True)) as HT by done.
  unfold GetOdhDashboardConfig.
  apply (triple_bind _ _ _ _ _ (λ r evs, True ∧ MeConfig odhDashboardConfigName applicationNS r ∈ evs)); [by apply triple_call|].
  intros [c|err]; [apply triple_ret; intros evs [_ ?] ? [= <-]; by left|].
  destruct (_ && _); [by apply triple_ret|].
  apply (triple_weaken _ _ _ (λ _, True) _ (λ r evs, ∀ c, r = Ok (Some c) → config_read evs c)); [done|done|].
  apply (triple_bind _ _ _ _ _ (λ r evs, ∀ c, r = Ok (Some c) → config_read evs c)).
  - unfold loadOdhDashboardConfigFromManifests.
    apply (triple_bind _ _ _ _ _ (λ _ _, True)); [by apply triple_call|]. intros [err'|]; [by apply triple_ret|].
    apply (triple_bind _ _ _ _ _ (λ r evs, ∃ path, MeManifest path r ∈ evs)).
    { apply triple_call; [done|done|]. intros x evs _ Hx. eexists. exact Hx. }
    intros [content|err']; [|by apply triple_ret]. apply triple_ret. intros evs [path Hr] c Hc. right.
    destruct (yaml_Unmarshal content) as [obj|] eqn:Hy; [|done]. destruct (String.eqb _ _); [|done]. injection Hc as <-. eauto.
  - intros [[c|]|err']; apply triple_ret; intros evs Hr c' Hc; [|done..]. injection Hc as <-. by apply Hr.
Qed.

Lemma MigrateToInfraHardwareProfiles_lawful :
  hoare (λ _, True) (MigrateToInfraHardwareProfiles multierror_error yaml_Unmarshal applicationNS basePath) (λ _ _, True).
Proof.
  unfold MigrateToInfraHardwareProfiles. destruct (String.eqb applicationNS ""); [by apply triple_ret|].
  eapply triple_bind; [apply GetOdhDashboardConfig_reads|]. intros [[odhConfig|]|err]; [|by apply triple_ret..].
  set (F := λ evs, config_read evs odhConfig). assert (monotone F) as HF by apply config_read_mono.
  apply (triple_weaken _ _ _ F _ (λ _, F)); [intros evs Hr; by apply Hr|done|].
  apply (triple_bind _ _ _ _ _ (λ _, F)); [by apply MigrateAcceleratorProfiles_keeps|]. intros errs1.
  apply (triple_bind _ _ _ _ _ (λ _, F)).
  { unfold MigrateContainerSizesToHardwareProfiles.
    destruct (getNotebooksOnlyToleration odhConfig) as [toleration|err]; [|by apply triple_ret].
    apply (triple_bind _ _ _ _ _ (λ _, F)); [by apply (migrate_sizes_keeps F odhConfig)|].
    intros errs. by apply (migrate_sizes_keeps F odhConfig). }
  intros errs2. apply (triple_bind _ _ _ _ _ (λ _, F)); [by apply AttachHardwareProfileToNotebooks_keeps|]. intros errs3.
  apply (triple_bind _ _ _ _ _ (λ _, F)); [by apply createCustomServing_keeps|]. intros err4. by apply triple_ret.
Qed.

(** C22: whatever the API server answers, the migration creates only profiles of what it read, never
    changes a profile, and writes only Notebooks that had no profile, each with exactly
    the two annotations that name a profile just found in the first namespace that has it, or
    unchanged after an event when none has it. *)
Theorem migration_only_adds :
  wp (MigrateToInfraHardwareProfiles multierror_error yaml_Unmarshal applicationNS basePath) []
    (λ tr _, each_after migration_call (migration_events tr)).
Proof.
  eapply wp_mono; [|apply (triple_run _ _ _ _ _ MigrateToInfraHardwareProfiles_lawful); done]. by intros tr a [? _].
Qed.
End migration.

(** ** The counts *)

(** What the code relies on: quantities are totally ordered, and zero is the zero value. *)
Class MigQuantityLaws (Q : Type) `{MigQuantity Q} : Prop := {
  mq_sign a b : Z.sgn (mq_Cmp b a) = (- Z.sgn (mq_Cmp a b))%Z;
  mq_trans a b c : (mq_Cmp a b <= 0)%Z → (mq_Cmp b c <= 0)%Z → (mq_Cmp a c <= 0)%Z;
  mq_zero a : mq_IsZero a = true ↔ mq_Cmp a mq_Zero = 0%Z;
}.

Section counts.
Context {Q : Type} `{MigQuantityLaws Q}.
Variable multierror_error : list goerr → goerr.

Definition qle (a b : Q) : Prop := (mq_Cmp a b <= 0)%Z.

Lemma qle_refl a : qle a a.
Proof. unfold qle. pose proof (mq_sign a a). lia. Qed.

Lemma qle_total a b : qle a b ∨ (mq_Cmp b a < 0)%Z.
Proof. unfold qle. pose proof (mq_sign a b). lia. Qed.

Lemma qle_of_lt a b : (mq_Cmp b a < 0)%Z → qle b a.
Proof. unfold qle. lia. Qed.

Lemma zero_qle a b : mq_IsZero a = true → qle mq_Zero b → qle a b.
Proof. intros Ha%mq_zero Hb. apply (mq_trans a mq_Zero b); [lia|done]. Qed.

Lemma track_min_le current candidate : qle (track_min current candidate) candidate.
Proof.
  unfold track_min. destruct (mq_IsZero current); [apply qle_refl|]. destruct (Z.ltb_spec (mq_Cmp candidate current) 0); simpl.
  - apply qle_refl.
  - destruct (qle_total current candidate); [done|lia].
Qed.

Lemma track_min_keeps current candidate x : mq_IsZero current = false → qle current x → qle (track_min current candidate) x.
Proof.
  unfold track_min. intros -> Hx. simpl. destruct (Z.ltb_spec (mq_Cmp candidate current) 0); [|done].
  apply (mq_trans _ current); [by apply qle_of_lt|done].
Qed.

Lemma track_min_nonzero current candidate : mq_IsZero candidate = false → mq_IsZero (track_min current candidate) = false.
Proof. unfold track_min. destruct (mq_IsZero current) eqn:?; [done|]. by destruct (_ <? 0)%Z. Qed.

Lemma track_max_grows current candidate x : qle x current → qle x (track_max current candidate).
Proof.
  unfold track_max. intros Hx. destruct (_ && _) eqn:Hc; [|done]. apply andb_true_iff in Hc as [_ Hc%Z.ltb_lt].
  apply (mq_trans x current); [done|]. pose proof (mq_sign candidate current). lia.
Qed.

Lemma track_max_ge current candidate : qle mq_Zero current → qle candidate (track_max current candidate).
Proof.
  unfold track_max. intros Hz. destruct (mq_IsZero candidate) eqn:Hc; simpl; [by apply zero_qle|].
  destruct (Z.ltb_spec 0 (mq_Cmp candidate current)); [apply qle_refl|done].
Qed.

(** A size all of whose quantities can be parsed, and one that requests something. *)
Definition parsed (size : ContainerSize) (q : SizeQuantities (Q:=Q)) : Prop := parseCpuMemoryResourceQuantity size = (q, []).

Definition requests_something (q : SizeQuantities (Q:=Q)) : Prop :=
  mq_IsZero (sq_ReqMem q) = false ∧ mq_IsZero (sq_ReqCpu q) = false.

Definition within (ex : Extremes) (q : SizeQuantities (Q:=Q)) : Prop :=
  qle (ex_minMemory ex) (sq_ReqMem q) ∧ qle (ex_minCpu ex) (sq_ReqCpu q) ∧
  qle (sq_LimitMem q) (ex_maxMemory ex) ∧ qle (sq_LimitCpu q) (ex_maxCpu ex).

(** The extremes after some sizes with these quantities. *)
Record tracked (ex : Extremes (Q:=Q)) (qs : list SizeQuantities) : Prop := {
  tr_nonzero : qs ≠ [] → mq_IsZero (ex_minMemory ex) = false ∧ mq_IsZero (ex_minCpu ex) = false;
  tr_max : qle mq_Zero (ex_maxMemory ex) ∧ qle mq_Zero (ex_maxCpu ex);
  tr_within : Forall (within ex) qs;
}.

Lemma track_tracked ex qs q : tracked ex qs → requests_something q → tracked (track ex q) (qs ++ [q]).
Proof.
  intros [Hnz [Hm1 Hm2] Hin] [Hr1 Hr2]. split; simpl.
  - intros _. split; by apply track_min_nonzero.
  - split; by apply track_max_grows.
  - apply Forall_app. split.
    + destruct qs as [|q' qs]; [done|]. destruct Hnz as [Hn1 Hn2]; [done|].
      eapply Forall_impl; [exact Hin|]. intros x (? & ? & ? & ?).
      repeat split; simpl; [by apply track_min_keeps..|by apply track_max_grows|by apply track_max_grows].
    + constructor; [|done]. repeat split; simpl; [apply track_min_le..|by apply track_max_ge|by apply track_max_ge].
Qed.

Lemma tracked_nil : tracked no_extremes [].
Proof. split; [done|split; apply qle_refl|done]. Qed.

(** The fold: no error exactly when every size parses, and then the extremes are those. *)
Definition parses (size : ContainerSize) : Prop := (parseCpuMemoryResourceQuantity (Q:=Q) size).2 = [].

Lemma track_sizes sizes acc ex errs : foldl (track_size multierror_error) acc sizes = (ex, errs) →
  (errs = [] ↔ acc.2 = [] ∧ Forall parses sizes) ∧
  (errs = [] → ∃ qs, Forall2 parsed sizes qs ∧ ex = foldl track acc.1 qs).
Proof.
  revert acc. induction sizes as [|size sizes IH]; intros acc; simpl.
  - intros ->. simpl. split; [by split; [intros ->|intros [-> _]]|]. intros _. by exists [].
  - intros Hf%IH. unfold track_size in Hf. destruct (parseCpuMemoryResourceQuantity size) as [q [|e es]] eqn:Hp; simpl in Hf.
    + destruct Hf as [Hiff Hqs]. split.
      * rewrite Hiff, Forall_cons. unfold parses at 2. rewrite Hp. simpl. intuition.
      * intros (qs & ? & ->)%Hqs. exists (q :: qs). split; [by constructor|done].
    + destruct Hf as [Hiff _]. assert (errs ≠ []) as Hne by (intros [? _]%Hiff; by destruct acc.2).
      split; [|done]. split; [done|]. intros [_ [Hq' _]%Forall_cons]. unfold parses in Hq'. rewrite Hp in Hq'. discriminate.
Qed.

Lemma fold_tracked ex qs0 qs : tracked ex qs0 → Forall requests_something qs → tracked (foldl track ex qs) (qs0 ++ qs).
Proof.
  revert ex qs0. induction qs as [|q qs IH]; intros ex qs0 Ht Hr; simpl; [by rewrite app_nil_r|].
  apply Forall_cons in Hr as [? ?]. replace (qs0 ++ q :: qs) with ((qs0 ++ [q]) ++ qs) by (by rewrite <-app_assoc).
  apply IH; [by apply track_tracked|done].
Qed.

Lemma counts_lookup (ex : Extremes (Q:=Q)) :
  counts ex !! "maxMemory" = (if mq_IsZero (ex_maxMemory ex) then None else Some (mq_String (ex_maxMemory ex))) ∧
  counts ex !! "maxCpu" = (if mq_IsZero (ex_maxCpu ex) then None else Some (mq_String (ex_maxCpu ex))) ∧
  (mq_IsZero (ex_minMemory ex) = false → counts ex !! "minMemory" = Some (mq_String (ex_minMemory ex))) ∧
  (mq_IsZero (ex_minCpu ex) = false → counts ex !! "minCpu" = Some (mq_String (ex_minCpu ex))).
Proof.
  unfold counts. destruct (mq_IsZero (ex_maxMemory ex)), (mq_IsZero (ex_maxCpu ex)); repeat split; try intros ->;
    by simplify_map_eq.
Qed.

(** The counts are computed exactly when every size parses. They are those of extremes that
    bound every size, if all sizes request something. *)
Theorem counts_bound sizes :
  match FindCpuMemoryMinMaxCountFromContainerSizes multierror_error sizes with
  | Ok m => ∃ ex qs, Forall2 parsed sizes qs ∧ m = counts ex ∧
      (m !! "maxMemory" = if mq_IsZero (ex_maxMemory ex) then None else Some (mq_String (ex_maxMemory ex))) ∧
      (m !! "maxCpu" = if mq_IsZero (ex_maxCpu ex) then None else Some (mq_String (ex_maxCpu ex))) ∧
      (Forall requests_something qs → Forall (within ex) qs ∧
         (sizes ≠ [] → m !! "minMemory" = Some (mq_String (ex_minMemory ex)) ∧ m !! "minCpu" = Some (mq_String (ex_minCpu ex))))
  | Err _ => Exists (λ size, ¬ parses size) sizes
  end.
Proof.
  unfold FindCpuMemoryMinMaxCountFromContainerSizes.
  destruct (foldl _ _ _) as [ex errs] eqn:Hf. apply track_sizes in Hf as [Hiff Hqs].
  destruct errs as [|e es].
  - destruct Hqs as (qs & Hqs & Hex); [done|]. exists ex, qs. split; [done|]. split; [done|].
    destruct (counts_lookup ex) as (? & ? & Hmm & Hmc). split; [done|]. split; [done|]. intros Hreq.
    pose proof (fold_tracked no_extremes [] qs tracked_nil Hreq) as Ht. simpl in Ht, Hex. rewrite <-Hex in Ht.
    split; [apply Ht|]. intros Hne. assert (qs ≠ []) as Hq by (by intros ->; inversion Hqs).
    destruct (tr_nonzero _ _ Ht Hq) as [? ?]. split; [by apply Hmm|by apply Hmc].
  - apply not_Forall_Exists; [intros size; unfold parses; apply _|]. intros Hall. assert (e :: es = []) by (by apply Hiff). done.
Qed.
End counts.

(** Quantities written in unary. *)
Definition sample_quantity : MigQuantity Z := {|
  mq_Parse s := if String.eqb s "" then Err (errorf "quantities must match the regular expression")
                else if String.eqb s "0" then Ok 0%Z else Ok (Z.of_nat (String.length s));
  mq_Zero := 0%Z;
  mq_IsZero z := (z =? 0)%Z;
  mq_Cmp a b := (a - b)%Z;
  mq_String := itoa;
  mq_Must s := 1%Z;
|}.

Lemma sample_quantity_laws : @MigQuantityLaws Z sample_quantity.
Proof.
  split; simpl; [intros a b; replace (b - a)%Z with (- (a - b))%Z by lia; apply Z.sgn_opp|lia|].
  intros a. rewrite Z.eqb_eq. lia.
Qed.

(** A size with these requests of CPU and memory. *)
Definition sample_size (cpu memory limit : string) : ContainerSize := MkContainerSize "size" cpu memory limit limit.

Definition first_error (errs : list goerr) : goerr := hd (errorf "") errs.

(** A request of zero is taken for no minimum: it hides the smaller requests before it. *)
Example zero_request_hides_minimum :
  (counts_of ← @FindCpuMemoryMinMaxCountFromContainerSizes Z sample_quantity first_error
     [sample_size "1111" "1" "1"; sample_size "0" "1" "1"; sample_size "11111111" "1" "1"];
   Ok (counts_of !! "minCpu")) = Ok (Some "8").
Proof. vm_compute. reflexivity. Qed.

(** A size without a limit stops the migration of all AcceleratorProfiles. *)
Example missing_limit_stops :
  @FindCpuMemoryMinMaxCountFromContainerSizes Z sample_quantity first_error
    [sample_size "11" "1" "111"; sample_size "1" "1" ""] =
  Err (wrapf "failed to parse resource for containerSize size"
    (wrapf "failed to parse CPU limit" (errorf "quantities must match the regular expression"))).
Proof. vm_compute. reflexivity. Qed.

Definition sample_counts : result (gmap string string) :=
  @FindCpuMemoryMinMaxCountFromContainerSizes Z sample_quantity first_error [sample_size "1111" "1" "1"; sample_size "11" "11" "111"].

Lemma counts_bound_witness :
  match sample_counts with
  | Ok m => ∃ ex qs, Forall2 (parsed (H:=sample_quantity)) [sample_size "1111" "1" "1"; sample_size "11" "11" "111"] qs ∧
      m = counts (H:=sample_quantity) ex ∧ m !! "minCpu" = Some "2" ∧ m !! "maxCpu" = Some "3"
  | Err _ => False
  end.
Proof.
  pose proof (@counts_bound Z sample_quantity sample_quantity_laws first_error
    [sample_size "1111" "1" "1"; sample_size "11" "11" "111"]) as Hb.
  destruct sample_counts as [m|err] eqn:Hs; [|vm_compute in Hs; discriminate].
  unfold sample_counts in Hs. rewrite Hs in Hb. destruct Hb as (ex & qs & ? & ? & _). exists ex, qs.
  split; [done|]. split; [done|]. vm_compute in Hs. injection Hs as <-. by split.
Defined.

(** A cluster without a configuration whose manifests have none either: the message that
    nothing was found is never reached, the migration fails instead. *)
Definition no_config {X} (e : HwpMigrationE X) (w : unit) : X * unit :=
  (match e in HwpMigrationE Y return Y with
   | GetDashboardConfig _ _ => Err (Goerr "not found" [TagNotFound])
   | StatManifest _ => Some (Goerr "no such file or directory" [TagNotExist])
   | ListAcceleratorProfiles | ListNotebooks => Ok []
   | GetNamespaceLabels _ => Ok ∅
   | ReadManifest _ => Err (errorf "")
   | Now => ""
   | GetProfile _ _ | CreateProfile _ | UpdateNotebook _ | CreateUpgradeEvent _ _ _ => None
   end, w).

Example missing_manifest_stops :
  (run (@no_config) (@MigrateToInfraHardwareProfiles Z sample_quantity nested_documented nested_scalars_documented
     nested_maps_documented first_error (λ _, Ok []) "apps" "/manifests") tt []).1.1 =
  [wrapf "failed to get OdhDashboardConfig"
     (wrapf "failed to load OdhDashboardConfig from manifests" (Goerr "no such file or directory" [TagNotExist]))].
Proof. vm_compute. reflexivity. Qed.
