(* ===== verification/Upgrade.v ===== *)
(** * Upgrade: what runs when the operator becomes the leader

    Models [pkg/upgrade/upgrade.go] (cleanup of what earlier versions left, the mode of the
    gateway), [pkg/upgrade/upgrade_rstudio.go], [pkg/bootstrap/leader_election_init.go] and
    [pkg/initialinstall/creation.go] with [CreateWithRetry] of [pkg/cluster/resources.go].

    Reading a URL, retries and multierror are parameters. *)

From S2P Require Import Prelude Effects Conditions Unstructured Namespaces SharedPlatform GatewayAuth Conversion Admission Workload Gateway GatewayAuth ModuleBase Deploy Dsci Uninstall Kueue HwpMigration.

(** ** Data *)

(** A tag of an ImageStream: its name and its annotations, which may be nil. *)
Record ImageTag := MkImageTag { it_Name : string; it_Annotations : annotations }.

Record ImageStream := MkImageStream { is_Name : string; is_Namespace : string; is_Tags : list ImageTag }.

(** The part of a URL that is looked at. *)
Record ParsedURL := MkURL { url_Scheme : string; url_Path : string }.

(** The default DSCI: its monitoring is Managed, with metrics, and so is its CA bundle. *)
Record DefaultDsci := MkDefaultDsci {
  dd_Name : string;
  dd_MonitoringState : string;
  dd_MonitoringNamespace : string;
  dd_CABundleState : string;
}.

Inductive DefaultObject :=
| NewDsci (d : DefaultDsci)
| NewDsc (name : string) (components : V3.Components).

Inductive UpgradeE : Type → Type :=
| UpCluster {X : Type} (e : ClusterE X) : UpgradeE X
| UpMigrate {X : Type} (e : HwpMigrationE X) : UpgradeE X
| ListRoleBindings (namespace : string) : UpgradeE (result (list string))
| DeleteRoleBinding (namespace name : string) : UpgradeE (option goerr)
| GetDeploymentLabels (namespace name : string) : UpgradeE (result (gmap string string))
| DeleteDeploymentForeground (namespace name : string) : UpgradeE (option goerr)
| DeletePolicyBinding (name : string) : UpgradeE (option goerr)
| GetOAuthClient (name : string) : UpgradeE (result (list string))
| DeleteOAuthClient (name : string) : UpgradeE (option goerr)
| DeleteBuildConfig (namespace name : string) : UpgradeE (option goerr)
| DeleteImageStream (namespace name : string) : UpgradeE (option goerr)
| GetImageStream (namespace name : string) : UpgradeE (result ImageStream)
| UpdateImageStream (stream : ImageStream) : UpgradeE (option goerr)
| HasCRDOf (kind : GroupVersionKind) : UpgradeE (result bool)
| GetGatewayContent (name : string) : UpgradeE (result value_map)
| GetGatewayServiceType (namespace name : string) : UpgradeE (result string)
| PatchGatewayContent (old new : value_map) : UpgradeE (option goerr)
| ListDsciCount : UpgradeE (result nat)
| CreateDefault (obj : DefaultObject) : UpgradeE (option goerr)
| GetDefault (obj : DefaultObject) : UpgradeE (option goerr).

(** [url.Parse]; [retry.RetryOnConflict(retry.DefaultRetry, fn)];
    [wait.ExponentialBackoffWithContext] for a condition without a state. *)
Class UrlParser := url_Parse : string → result ParsedURL.
Class ConflictRetries := RetryOnConflict : prog UpgradeE (option goerr) → prog UpgradeE (option goerr).
Class CreateBackoff := CreateExponentialBackoff : prog UpgradeE (result bool) → prog UpgradeE (option goerr).

(** ** Constants *)

Definition InfraHardwareProfileGVK : GroupVersionKind := MkGVK "infrastructure.opendatahub.io" "v1" "HardwareProfile".
Definition DashboardAcceleratorProfileGVK : GroupVersionKind := MkGVK "dashboard.opendatahub.io" "v1" "AcceleratorProfile".

Definition LegacyAuthClientID : string := "odh".
Definition legacy_model_controller : string := "odh-model-controller".
Definition deprecated_policy_binding : string := "kueue-validating-admission-policy-binding".

Definition imageTagOutdatedAnnotation : string := "opendatahub.io/image-tag-outdated".
Definition workbenchImageRecommendedAnnotation : string := "opendatahub.io/workbench-image-recommended".
Definition deprecatedRStudioBuildConfigs : list string := ["rstudio-server-rhel9"; "cuda-rstudio-server-rhel9"].
Definition deprecatedRStudioBuildImageStreams : list string := ["rstudio-rhel9"; "cuda-rstudio-rhel9"].
Definition deprecatedRStudioNotebookImageStreams : list string := ["rstudio-notebook"; "rstudio-gpu-notebook"].

(** ** What earlier versions left *)

Definition delete_deprecated (namespace : string) (resourceList : list string) (errs : list goerr) (item : string)
    : prog UpgradeE (list goerr) :=
  prog_foldl (λ errs name,
    if String.eqb name item then
      err ← trigger (DeleteRoleBinding namespace item);
      mret (match err with
            | Some err => if err_is TagNotFound err then errs else errs ++ [err]
            | None => errs
            end)
    else mret errs) errs resourceList.

(** The items of a list that could not be read are none. *)
Definition deleteDeprecatedResources (namespace : string) (resourceList : list string) : prog UpgradeE (list goerr) :=
  listed ← trigger (ListRoleBindings namespace);
  match listed with
  | Err err => mret [err]
  | Ok items => prog_foldl (delete_deprecated namespace resourceList) [] items
  end.

Definition cleanupModelControllerLegacyDeployment (applicationNS : string) : prog UpgradeE (option goerr) :=
  let what := legacy_model_controller +:+ " deployment in namespace " +:+ applicationNS in
  got ← trigger (GetDeploymentLabels applicationNS legacy_model_controller);
  match got with
  | Err err => mret (if err_is TagNotFound err then None else Some (wrapf ("failure getting " +:+ what) err))
  | Ok labels =>
      if String.eqb (default "" (labels !! PlatformPartOf)) "modelcontroller" then mret None
      else
        err ← trigger (DeleteDeploymentForeground applicationNS legacy_model_controller);
        match err with
        | Some err => mret (if err_is TagNotFound err then None else Some (wrapf ("failure deleting " +:+ what) err))
        | None => mret None
        end
  end.

Definition cleanupDeprecatedKueueVAPB : prog UpgradeE (option goerr) :=
  err ← trigger (DeletePolicyBinding deprecated_policy_binding);
  mret (match IgnoreNotFound err with
        | Some err =>
            if negb (err_is TagNoMatch err)
            then Some (wrapf "failed to delete deprecated ValidatingAdmissionPolicyBinding" err) else None
        | None => None
        end).

Definition gateway_redirect `{UrlParser} (uri : string) : bool :=
  match url_Parse uri with
  | Ok u => String.eqb (url_Scheme u) "https" && String.eqb (url_Path u) OAuthCallbackPath
  | Err _ => false
  end.

Definition cleanupLegacyOAuthClient `{UrlParser} : prog UpgradeE (option goerr) :=
  got ← trigger (GetOAuthClient LegacyAuthClientID);
  match got with
  | Err err =>
      if err_is TagNotFound err || err_is TagNoMatch err then mret None
      else mret (Some (wrapf ("failed to check for legacy OAuthClient " +:+ quote LegacyAuthClientID) err))
  | Ok redirectURIs =>
      if negb (existsb gateway_redirect redirectURIs) then mret None
      else
        err ← trigger (DeleteOAuthClient LegacyAuthClientID);
        mret (match IgnoreNotFound err with
              | Some err => Some (wrapf ("failed to delete legacy OAuthClient " +:+ quote LegacyAuthClientID) err)
              | None => None
              end)
  end.

(** *** RStudio *)

Definition containsNoKindRegistered (err : goerr) : bool := contains (err_text err) "no kind is registered".

Definition isIgnorableClusterResourceError (err : goerr) : bool :=
  err_is TagNotFound err || err_is TagNoMatch err || containsNoKindRegistered err.

(** The error of a deletion. *)
Definition unless_ignorable (err : option goerr) (message : string) : option goerr :=
  match err with
  | Some err => if isIgnorableClusterResourceError err then None else Some (wrapf message err)
  | None => None
  end.

Definition deleteRStudioBuildConfig (namespace name : string) : prog UpgradeE (option goerr) :=
  err ← trigger (DeleteBuildConfig namespace name);
  mret (unless_ignorable err ("failed to delete BuildConfig " +:+ name)).

Definition deleteRStudioImageStream (namespace name : string) : prog UpgradeE (option goerr) :=
  err ← trigger (DeleteImageStream namespace name);
  mret (unless_ignorable err ("failed to delete ImageStream " +:+ name)).

(** The annotations of one tag, and whether they changed. *)
Definition mark_annotation (key val : string) (acc : gmap string string * bool) : gmap string string * bool :=
  if String.eqb (default "" (acc.1 !! key)) val then acc else (<[key := val]> acc.1, true).

Definition mark_tag (tag : ImageTag) : ImageTag * bool :=
  let marked :=
    mark_annotation workbenchImageRecommendedAnnotation "false"
      (mark_annotation imageTagOutdatedAnnotation "true" (default ∅ (it_Annotations tag), false)) in
  (MkImageTag (it_Name tag) (Some marked.1), marked.2).

Definition mark_stream (stream : ImageStream) : ImageStream * bool :=
  let tags := mark_tag <$> is_Tags stream in
  (MkImageStream (is_Name stream) (is_Namespace stream) (tags.*1), existsb snd tags).

(** The function of [retry.RetryOnConflict]. *)
Definition deprecate_attempt (namespace name : string) : prog UpgradeE (option goerr) :=
  got ← trigger (GetImageStream namespace name);
  match got with
  | Err err => mret (if isIgnorableClusterResourceError err then None else Some err)
  | Ok stream =>
      let (stream, changed) := mark_stream stream in
      if negb changed then mret None else trigger (UpdateImageStream stream)
  end.

Definition deprecateRStudioImageStream `{ConflictRetries} (namespace name : string) : prog UpgradeE (option goerr) :=
  err ← RetryOnConflict (deprecate_attempt namespace name);
  mret (match err with
        | Some err => Some (wrapf ("failed to deprecate ImageStream " +:+ name) err)
        | None => None
        end).

(** A step for every name, whose errors are collected. *)
Definition each_name (f : string → prog UpgradeE (option goerr)) (errs : list goerr) (names : list string)
    : prog UpgradeE (list goerr) :=
  prog_foldl (λ errs name, err ← f name; mret (errs ++ appended err)) errs names.

Definition cleanupDeprecatedRStudioResources `{ConflictRetries} (applicationNS : string) : prog UpgradeE (list goerr) :=
  errs ← each_name (deleteRStudioBuildConfig applicationNS) [] deprecatedRStudioBuildConfigs;
  errs ← each_name (deleteRStudioImageStream applicationNS) errs deprecatedRStudioBuildImageStreams;
  each_name (deprecateRStudioImageStream applicationNS) errs deprecatedRStudioNotebookImageStreams.

(** ** The mode of the gateway *)

Section upgrade.
Context `{Nested, NestedScalars, NestedMaps}.
Variable kubernetes : bool.

Definition MigrateGatewayConfigIngressMode : prog UpgradeE (option goerr) :=
  got ← trigger (GetGatewayContent "default-gateway");
  match got with
  | Err err => mret (if err_is TagNotFound err then None else Some (wrapf "failed to get GatewayConfig" err))
  | Ok gatewayConfig =>
      if nonempty_str (nested_string gatewayConfig ["spec"; "ingressMode"]) then mret None
      else
        service ← trigger (GetGatewayServiceType (GetGatewayNamespace kubernetes) (GetDefaultGatewayServiceFullName kubernetes));
        match service with
        | Err err => mret (if err_is TagNotFound err then None else Some (wrapf "failed to get Gateway service" err))
        | Ok type =>
            if negb (String.eqb type "LoadBalancer") then mret None
            else
              match SetNestedString gatewayConfig "LoadBalancer" ["spec"; "ingressMode"] with
              | Err err => mret (Some (wrapf "failed to set ingressMode field" err))
              | Ok migrated =>
                  err ← trigger (PatchGatewayContent gatewayConfig migrated);
                  mret (match err with Some err => Some (wrapf "failed to patch GatewayConfig" err) | None => None end)
              end
        end
  end.

(** ** All of it *)

Context {Q : Type} `{MigQuantity Q, UrlParser, ConflictRetries, CreateBackoff}.
Variable multierror_error : list goerr → goerr.
Variable yaml_Unmarshal : string → result value_map.
Variable gvk_String : GroupVersionKind → string.
Variable NotFound_text : string → string → string → string.
Variable configuredAppNS : string.

(** A migration that runs when a kind is there. *)
Definition when_CRD (kind : GroupVersionKind) (what : string) (p : prog UpgradeE (list goerr)) : prog UpgradeE (list goerr) :=
  found ← trigger (HasCRDOf kind);
  match found with
  | Err err => mret [wrapf ("failed to check " +:+ what +:+ " CRD") err]
  | Ok true => p
  | Ok false => mret []
  end.

Definition ErrorOrNil (errs : list goerr) : option goerr :=
  match errs with [] => None | _ => Some (multierror_error errs) end.

Definition CleanupExistingResource (basePath : string) : prog UpgradeE (option goerr) :=
  applicationNS ← lift (@UpCluster) (ApplicationNamespace gvk_String NotFound_text configuredAppNS);
  match applicationNS with
  | Err err => mret (if err_is TagNotFound err then None else Some err)
  | Ok applicationNS =>
      errs1 ← deleteDeprecatedResources applicationNS [applicationNS];
      err2 ← cleanupModelControllerLegacyDeployment applicationNS;
      err3 ← cleanupDeprecatedKueueVAPB;
      err4 ← cleanupLegacyOAuthClient;
      errs5 ← cleanupDeprecatedRStudioResources applicationNS;
      errs6 ← when_CRD InfraHardwareProfileGVK "HardwareProfile"
                (when_CRD DashboardAcceleratorProfileGVK "AcceleratorProfile"
                   (lift (@UpMigrate) (MigrateToInfraHardwareProfiles multierror_error yaml_Unmarshal applicationNS basePath)));
      errs7 ← when_CRD GatewayConfigGVK "GatewayConfig" (err ← MigrateGatewayConfigIngressMode; mret (appended err));
      mret (ErrorOrNil (errs1 ++ appended err2 ++ appended err3 ++ appended err4 ++ errs5 ++ errs6 ++ errs7))
  end.

(** ** The default instances *)

(** The condition of the backoff: created, already there, to be tried again, or the error. *)
Definition create_attempt (obj : DefaultObject) : prog UpgradeE (result bool) :=
  errCreate ← trigger (CreateDefault obj);
  match errCreate with
  | None => mret (Ok true)
  | Some errCreate =>
      errGet ← trigger (GetDefault obj);
      match errGet with
      | None => mret (Ok true)
      | Some _ => if err_is TagInternal errCreate then mret (Ok false) else mret (Err errCreate)
      end
  end.

Definition CreateWithRetry (obj : DefaultObject) : prog UpgradeE (option goerr) :=
  CreateExponentialBackoff (create_attempt obj).

(** A component that is only managed or removed. *)
Definition state_only (s : string) : value := VMap [("managementState", VString s)].
Definition no_spec : value := VMap [].

Definition default_kserve : V3.DSCKserve :=
  V3.MkKserve Managed "" VNull None (MkNim Managed false) "" None "" None VNull.

Definition default_components : V3.Components :=
  V3.MkComponents (MkDashboard Managed "")
    (VMap [("managementState", VString Managed); ("workbenchesV2", state_only Removed)])
    (state_only Managed) default_kserve (MkKueue Removed no_spec) (state_only Managed) (state_only Managed)
    (MkAIHub Managed "") (MkData Managed VNull) (state_only Managed) (state_only Managed) (state_only Managed)
    (state_only Removed) (MkAIGateway Removed "" (state_only Removed) VNull) (state_only Managed) no_spec.

Definition buildDefaultDSC : DefaultObject := NewDsc "default-dsc" default_components.

Definition CreateDefaultDSC : prog UpgradeE (option goerr) :=
  err ← CreateWithRetry buildDefaultDSC;
  mret (match err with
        | Some err => Some (wrapf "failed to create DataScienceCluster custom resource" err)
        | None => None
        end).

Definition defaultDsci (monNamespace : string) : DefaultObject :=
  NewDsci (MkDefaultDsci "default-dsci" Managed monNamespace "Managed").

Definition CreateDefaultDSCI (monNamespace : string) : prog UpgradeE (option goerr) :=
  instances ← trigger ListDsciCount;
  match instances with
  | Err err => mret (Some err)
  | Ok n =>
      if (1 <? n)%nat then mret None
      else if (n =? 1)%nat then mret None
      else CreateWithRetry (defaultDsci monNamespace)
  end.

(** ** The start of the leader *)

Record LeaderElectionInitConfig := MkInitConfig {
  le_Platform : string;
  le_ManifestsBasePath : string;
  le_MonitoringNamespace : string;
  le_DSCIEnabled : bool;
  le_DSCEnabled : bool;
  le_CreateDefaultDSCIDisabled : bool;
}.

(** [nil] hooks are absent. *)
Record LeaderElectionInitHooks := MkHooks {
  hk_Cleanup : option (string → prog UpgradeE (option goerr));
  hk_CreateDefaultDSCI : option (string → string → prog UpgradeE (option goerr));
  hk_CreateDefaultDSC : option (prog UpgradeE (option goerr));
}.

Definition DefaultLeaderElectionInitHooks : LeaderElectionInitHooks :=
  MkHooks (Some CleanupExistingResource) (Some (λ _, CreateDefaultDSCI)) (Some CreateDefaultDSC).

Definition hook_nil (name : string) : goerr := errorf ("LeaderElectionInitHooks." +:+ name +:+ " is nil").

Definition validateLeaderElectionInitHooks (hooks : LeaderElectionInitHooks) : option goerr :=
  match hk_Cleanup hooks, hk_CreateDefaultDSCI hooks, hk_CreateDefaultDSC hooks with
  | None, _, _ => Some (hook_nil "CleanupExistingResource")
  | _, None, _ => Some (hook_nil "CreateDefaultDSCI")
  | _, _, None => Some (hook_nil "CreateDefaultDSC")
  | _, _, _ => None
  end.

(** A hook that the validation found. *)
Definition call_hook {A} (hook : option A) (k : A → prog UpgradeE (option goerr)) : prog UpgradeE (option goerr) :=
  match hook with Some f => k f | None => mret None end.

Definition RunLeaderElectionInit (cfg : LeaderElectionInitConfig) (hooks : LeaderElectionInitHooks)
    : prog UpgradeE (option goerr) :=
  match validateLeaderElectionInitHooks hooks with
  | Some err => mret (Some err)
  | None =>
      _ ← call_hook (hk_Cleanup hooks) (λ cleanup, cleanup (le_ManifestsBasePath cfg));
      err ← (if negb (le_DSCIEnabled cfg) then mret None
             else if le_CreateDefaultDSCIDisabled cfg then mret None
             else call_hook (hk_CreateDefaultDSCI hooks) (λ create, create (le_Platform cfg) (le_MonitoringNamespace cfg)));
      match err with
      | Some err => mret (Some (wrapf "create default DSCI" err))
      | None =>
          if String.eqb (le_Platform cfg) ManagedRhoai && le_DSCEnabled cfg then
            err ← call_hook (hk_CreateDefaultDSC hooks) id;
            match err with
            | Some err => mret (Some (wrapf "create default DSC" err))
            | None => mret None
            end
          else mret None
      end
  end.
End upgrade.
