(* ===== verification/UpgradeTheorems.v ===== *)
(** * UpgradeTheorems: the start of the leader is careful and complete

    What the tasks of a new leader delete, change and create, on what evidence; that a failing
    task stops no other, and what no error means. *)

From S2P Require Import Prelude Effects Conditions Unstructured Namespaces SharedPlatform GatewayAuth Conversion Admission Workload Gateway ModuleBase Deploy Dsci Uninstall Kueue HwpMigration HwpMigrationTheorems Upgrade.

(** ** Events *)

Inductive upgrade_event :=
| UpvCluster {X : Type} (e : ClusterE X) (x : X)
| UpvMigrate {X : Type} (e : HwpMigrationE X) (x : X)
| UpvRoleBindings (namespace : string) (r : result (list string))
| UpvDeleteRoleBinding (namespace name : string) (err : option goerr)
| UpvDeployment (namespace name : string) (r : result (gmap string string))
| UpvDeleteDeployment (namespace name : string) (err : option goerr)
| UpvDeletePolicyBinding (name : string) (err : option goerr)
| UpvOAuthClient (name : string) (r : result (list string))
| UpvDeleteOAuthClient (name : string) (err : option goerr)
| UpvDeleteBuildConfig (namespace name : string) (err : option goerr)
| UpvDeleteImageStream (namespace name : string) (err : option goerr)
| UpvImageStream (namespace name : string) (r : result ImageStream)
| UpvUpdateImageStream (stream : ImageStream) (err : option goerr)
| UpvHasCRD (kind : GroupVersionKind) (r : result bool)
| UpvGateway (name : string) (r : result value_map)
| UpvServiceType (namespace name : string) (r : result string)
| UpvPatchGateway (old new : value_map) (err : option goerr)
| UpvDscis (r : result nat)
| UpvCreate (obj : DefaultObject) (err : option goerr)
| UpvGetDefault (obj : DefaultObject) (err : option goerr).

Definition upgrade_event_of (c : call UpgradeE) : upgrade_event :=
  match c with
  | @Call _ X e x =>
      match e in UpgradeE X return X → upgrade_event with
      | UpCluster e => UpvCluster e
      | UpMigrate e => UpvMigrate e
      | ListRoleBindings namespace => UpvRoleBindings namespace
      | DeleteRoleBinding namespace name => UpvDeleteRoleBinding namespace name
      | GetDeploymentLabels namespace name => UpvDeployment namespace name
      | DeleteDeploymentForeground namespace name => UpvDeleteDeployment namespace name
      | DeletePolicyBinding name => UpvDeletePolicyBinding name
      | GetOAuthClient name => UpvOAuthClient name
      | DeleteOAuthClient name => UpvDeleteOAuthClient name
      | DeleteBuildConfig namespace name => UpvDeleteBuildConfig namespace name
      | DeleteImageStream namespace name => UpvDeleteImageStream namespace name
      | GetImageStream namespace name => UpvImageStream namespace name
      | UpdateImageStream stream => UpvUpdateImageStream stream
      | HasCRDOf kind => UpvHasCRD kind
      | GetGatewayContent name => UpvGateway name
      | GetGatewayServiceType namespace name => UpvServiceType namespace name
      | PatchGatewayContent old new => UpvPatchGateway old new
      | ListDsciCount => UpvDscis
      | CreateDefault obj => UpvCreate obj
      | GetDefault obj => UpvGetDefault obj
      end x
  end.

Notation upgrade_events := (events upgrade_event_of).

(** ** What is known of the retries *)

(** Attempts keep what each of them keeps; the result is that of the last one. *)
Class ConflictRetriesLaws `{ConflictRetries} : Prop :=
  RetryOnConflict_rule p tr (I : list (call UpgradeE) → Prop) (J : list (call UpgradeE) → option goerr → Prop) :
    (∀ tr, I tr → wp p tr (λ tr' err, I tr' ∧ J tr' err)) → I tr →
    wp (RetryOnConflict p) tr (λ tr' err, I tr' ∧ J tr' err).

(** The same, and no error means that the last attempt was done. *)
Class CreateBackoffLaws `{CreateBackoff} : Prop :=
  CreateExponentialBackoff_rule cond tr (I J : list (call UpgradeE) → Prop) :
    (∀ tr, I tr → wp cond tr (λ tr' r, I tr' ∧ (r = Ok true → J tr'))) → I tr →
    wp (CreateExponentialBackoff cond) tr (λ tr' err, I tr' ∧ (err = None → J tr')).

(** The documented behaviours for a number of steps. *)
Fixpoint retry_conflicts (steps : nat) (p : prog UpgradeE (option goerr)) : prog UpgradeE (option goerr) :=
  err ← p;
  match err, steps with
  | Some e, S steps => if err_is TagConflict e then retry_conflicts steps p else mret err
  | _, _ => mret err
  end.

Fixpoint poll_create (steps : nat) (cond : prog UpgradeE (result bool)) : prog UpgradeE (option goerr) :=
  match steps with
  | O => mret (Some (Goerr "timed out waiting for the condition" []))
  | S steps =>
      r ← cond;
      match r with
      | Err err => mret (Some err)
      | Ok true => mret None
      | Ok false => poll_create steps cond
      end
  end.

Lemma retry_conflicts_laws steps : ConflictRetriesLaws (H := retry_conflicts steps).
Proof.
  intros p tr I J Hp. unfold RetryOnConflict. revert tr.
  induction steps as [|steps IH]; intros tr Hi; simpl; apply wp_bind; (eapply wp_mono; [|by apply Hp]);
    intros tr' [err|] [Hi' Hj]; try (by apply wp_ret).
  destruct (err_is TagConflict err); [by apply IH|by apply wp_ret].
Qed.

Lemma poll_create_laws steps : CreateBackoffLaws (H := poll_create steps).
Proof.
  intros cond tr I J Hcond. unfold CreateExponentialBackoff. revert tr.
  induction steps as [|steps IH]; intros tr Hi; [by apply wp_ret|]. simpl. apply wp_bind.
  eapply wp_mono; [|by apply Hcond]. intros tr' [[]|err] [Hi' Hj]; [|by apply IH|by apply wp_ret].
  apply wp_ret. auto.
Qed.

(** ** What may be done *)

Section leader.
Context `{Nested, NestedScalars, NestedMaps, UrlParser, ConflictRetries, CreateBackoff}.
Context {retries : ConflictRetriesLaws} {backoff : CreateBackoffLaws}.
Context {Q : Type} `{MigQuantity Q}.
Variable kubernetes : bool.
Variable multierror_error : list goerr → goerr.
Variable yaml_Unmarshal : string → result value_map.
Variable gvk_String : GroupVersionKind → string.
Variable NotFound_text : string → string → string → string.
Variable configuredAppNS : string.
Variable cfg : LeaderElectionInitConfig.
Implicit Types (evs : list upgrade_event) (tr : list (call UpgradeE)).

Definition wants_dsci : bool := le_DSCIEnabled cfg && negb (le_CreateDefaultDSCIDisabled cfg).
Definition wants_dsc : bool := String.eqb (le_Platform cfg) ManagedRhoai && le_DSCEnabled cfg.

Definition there evs (obj : DefaultObject) : Prop := UpvCreate obj None ∈ evs ∨ UpvGetDefault obj None ∈ evs.

(** The DSCI exists: it was listed, created or found. *)
Definition dsci_there evs : Prop :=
  (∃ n, UpvDscis (Ok n) ∈ evs ∧ n ≠ 0%nat) ∨ there evs (defaultDsci (le_MonitoringNamespace cfg)).

(** How the namespace was determined; without it nothing is cleaned up. *)
Definition resolved (namespace : string) evs : Prop :=
  (configuredAppNS = namespace ∧ namespace ≠ "") ∨
  ∃ dsci, UpvCluster ListDSCI (Ok [dsci]) ∈ evs ∧ namespace = dsci_ApplicationsNamespace dsci.

Lemma resolved_mono namespace : monotone (resolved namespace).
Proof. intros evs evs' [?|(dsci & ? & ?)]; [by left|right]. exists dsci. split; [by apply elem_mono|done]. Qed.

(** The calls of the migration of hardware profiles. *)
Definition migrations evs : list migration_event :=
  evs ≫= λ ev, match ev with UpvMigrate e x => [migration_event_of (Call e x)] | _ => [] end.

Definition upgrade_call evs (ev : upgrade_event) : Prop :=
  match ev with
  | UpvMigrate e x =>
      UpvHasCRD InfraHardwareProfileGVK (Ok true) ∈ evs ∧ UpvHasCRD DashboardAcceleratorProfileGVK (Ok true) ∈ evs ∧
      ∃ namespace, resolved namespace evs ∧
        migration_call yaml_Unmarshal namespace (migrations evs) (migration_event_of (Call e x))
  | UpvDeleteRoleBinding namespace name _ =>
      resolved namespace evs ∧ name = namespace ∧ ∃ items, UpvRoleBindings namespace (Ok items) ∈ evs ∧ name ∈ items
  | UpvDeleteDeployment namespace name _ =>
      resolved namespace evs ∧ name = legacy_model_controller ∧
      ∃ labels, UpvDeployment namespace name (Ok labels) ∈ evs ∧ labels !! PlatformPartOf ≠ Some "modelcontroller"
  | UpvDeletePolicyBinding name _ => name = deprecated_policy_binding
  | UpvDeleteOAuthClient name _ =>
      name = LegacyAuthClientID ∧
      ∃ uris uri, UpvOAuthClient name (Ok uris) ∈ evs ∧ uri ∈ uris ∧ gateway_redirect uri = true
  | UpvDeleteBuildConfig namespace name _ => resolved namespace evs ∧ name ∈ deprecatedRStudioBuildConfigs
  | UpvDeleteImageStream namespace name _ => resolved namespace evs ∧ name ∈ deprecatedRStudioBuildImageStreams
  | UpvUpdateImageStream updated _ =>
      ∃ namespace name stream, resolved namespace evs ∧ name ∈ deprecatedRStudioNotebookImageStreams ∧
        UpvImageStream namespace name (Ok stream) ∈ evs ∧ mark_stream stream = (updated, true)
  | UpvPatchGateway old new _ =>
      UpvGateway "default-gateway" (Ok old) ∈ evs ∧ nested_string old ["spec"; "ingressMode"] = "" ∧
      UpvServiceType (GetGatewayNamespace kubernetes) (GetDefaultGatewayServiceFullName kubernetes) (Ok "LoadBalancer") ∈ evs ∧
      SetNestedString old "LoadBalancer" ["spec"; "ingressMode"] = Ok new
  | UpvCreate (NewDsci _ as obj) _ =>
      wants_dsci ∧ obj = defaultDsci (le_MonitoringNamespace cfg) ∧ UpvDscis (Ok 0%nat) ∈ evs
  | UpvCreate (NewDsc _ _ as obj) _ => wants_dsc ∧ obj = buildDefaultDSC ∧ (wants_dsci → dsci_there evs)
  | _ => True
  end.

Notation hoare := (triple upgrade_event_of upgrade_call).

(** ** What is tried

    A task makes a request and, depending on the answer, another one. A fact says that this
    happened; if the task is [ok], that is, reports no error, each answer was fine. *)

Notation fact := (Prop → list upgrade_event → Prop).

Definition nothing : fact := λ _ _, True.

Definition then_try {R} (ev : R → upgrade_event) (fine : R → Prop) (next : R → fact) : fact :=
  λ ok evs, ∃ r, ev r ∈ evs ∧ (ok → fine r) ∧ next r ok evs.

Definition attempt {R} (ev : R → upgrade_event) (fine : R → Prop) : fact := then_try ev fine (λ _, nothing).

Definition each_task (task : string → fact) (names : list string) : fact := λ ok evs, Forall (λ name, task name ok evs) names.

Definition readable {A} (r : result A) : Prop := match r with Ok _ => True | Err _ => False end.
Definition readable_or (tags : list err_tag) {A} (r : result A) : Prop :=
  match r with Ok _ => True | Err err => ∃ t, t ∈ tags ∧ err_is t err end.
Definition readable_or_ignorable {A} (r : result A) : Prop :=
  match r with Ok _ => True | Err err => isIgnorableClusterResourceError err end.
Definition ignorable (err : option goerr) : Prop :=
  match err with Some err => isIgnorableClusterResourceError err | None => True end.
Definition gone_or_unknown (err : option goerr) : Prop :=
  match err with Some err => err_is TagNotFound err ∨ err_is TagNoMatch err | None => True end.
Definition deleted (err : option goerr) : Prop := match err with Some err => err_is TagNotFound err | None => True end.
Definition written (err : option goerr) : Prop := err = None.

Definition role_binding_task namespace : fact :=
  then_try (UpvRoleBindings namespace) readable (λ r,
    match r with
    | Ok items =>
        if bool_decide (namespace ∈ items) then attempt (UpvDeleteRoleBinding namespace namespace) deleted else nothing
    | Err _ => nothing
    end).

Definition deployment_task namespace : fact :=
  then_try (UpvDeployment namespace legacy_model_controller) (readable_or [TagNotFound]) (λ r,
    match r with
    | Ok labels =>
        if bool_decide (labels !! PlatformPartOf = Some "modelcontroller") then nothing
        else attempt (UpvDeleteDeployment namespace legacy_model_controller) deleted
    | Err _ => nothing
    end).

Definition policy_task : fact := attempt (UpvDeletePolicyBinding deprecated_policy_binding) gone_or_unknown.

Definition oauth_task : fact :=
  then_try (UpvOAuthClient LegacyAuthClientID) (readable_or [TagNotFound; TagNoMatch]) (λ r,
    match r with
    | Ok uris => if existsb gateway_redirect uris then attempt (UpvDeleteOAuthClient LegacyAuthClientID) deleted else nothing
    | Err _ => nothing
    end).

Definition build_config_task namespace name : fact := attempt (UpvDeleteBuildConfig namespace name) ignorable.
Definition image_stream_task namespace name : fact := attempt (UpvDeleteImageStream namespace name) ignorable.

(** An ImageStream is marked as outdated, unless all its tags are. *)
Definition deprecation_task namespace name : fact :=
  then_try (UpvImageStream namespace name) readable_or_ignorable (λ r,
    match r with
    | Ok stream =>
        if (mark_stream stream).2 then attempt (UpvUpdateImageStream (mark_stream stream).1) written else nothing
    | Err _ => nothing
    end).

(** The migration of hardware profiles ran to its end, and had no error if [ok]. *)
Definition migration_run namespace basePath : fact := λ ok evs,
  ∃ calls errs before after,
    exec (MigrateToInfraHardwareProfiles multierror_error yaml_Unmarshal namespace basePath) calls errs ∧
    evs = before ++ upgrade_events (lift_calls (@UpMigrate) calls) ++ after ∧ (ok → errs = []).

Definition where_there kind (task : fact) : fact :=
  then_try (UpvHasCRD kind) readable (λ r, match r with Ok true => task | _ => nothing end).

Definition profiles_task namespace basePath : fact :=
  where_there InfraHardwareProfileGVK (where_there DashboardAcceleratorProfileGVK (migration_run namespace basePath)).

(** The mode is written where none is set and the gateway's service is a LoadBalancer. *)
Definition mode_task : fact :=
  then_try (UpvGateway "default-gateway") (readable_or [TagNotFound]) (λ r,
    match r with
    | Ok old =>
        if nonempty_str (nested_string old ["spec"; "ingressMode"]) then nothing
        else then_try (UpvServiceType (GetGatewayNamespace kubernetes) (GetDefaultGatewayServiceFullName kubernetes))
               (readable_or [TagNotFound]) (λ r,
          match r with
          | Ok type =>
              if negb (String.eqb type "LoadBalancer") then nothing
              else match SetNestedString old "LoadBalancer" ["spec"; "ingressMode"] with
                   | Ok new => attempt (UpvPatchGateway old new) written
                   | Err _ => λ ok _, ¬ ok
                   end
          | Err _ => nothing
          end)
    | Err _ => nothing
    end).

(** Every task of the cleanup was tried; [ok]: the cleanup reported no error. *)
Definition tried_all (namespace basePath : string) (ok : Prop) evs : Prop :=
  role_binding_task namespace ok evs ∧ deployment_task namespace ok evs ∧ policy_task ok evs ∧ oauth_task ok evs ∧
  each_task (build_config_task namespace) deprecatedRStudioBuildConfigs ok evs ∧
  each_task (image_stream_task namespace) deprecatedRStudioBuildImageStreams ok evs ∧
  each_task (deprecation_task namespace) deprecatedRStudioNotebookImageStreams ok evs ∧
  profiles_task namespace basePath ok evs ∧ where_there GatewayConfigGVK mode_task ok evs.

(** Facts stay true, and hold of a part if they hold of the whole. *)
Class Fact (T : fact) : Prop := {
  fact_mono ok : monotone (T ok);
  fact_weaken (ok ok' : Prop) evs : (ok' → ok) → T ok evs → T ok' evs;
}.

#[local] Instance nothing_fact : Fact nothing.
Proof. by split. Qed.

#[local] Instance never_fact : Fact (λ ok _, ¬ ok).
Proof. split; [by intros ok evs evs'|]. intros ok ok' evs Ho Hn Hok. by apply Hn, Ho. Qed.

#[local] Instance then_try_fact {R} (ev : R → upgrade_event) fine next `{∀ r, Fact (next r)} : Fact (then_try ev fine next).
Proof.
  split.
  - intros ok evs evs' (r & ? & ? & ?). exists r. split; [by apply elem_mono|]. split; [done|by apply fact_mono].
  - intros ok ok' evs Ho (r & ? & ? & Hn). exists r. split; [done|]. split; [auto|]. by eapply fact_weaken.
Qed.

#[local] Instance attempt_fact {R} (ev : R → upgrade_event) fine : Fact (attempt ev fine).
Proof. apply then_try_fact. intros r. apply _. Qed.

#[local] Instance each_task_fact task `{∀ name, Fact (task name)} names : Fact (each_task task names).
Proof.
  split.
  - intros ok evs evs' Hall. eapply Forall_impl; [exact Hall|]. intros name. apply fact_mono.
  - intros ok ok' evs Ho Hall. eapply Forall_impl; [exact Hall|]. intros name. by apply fact_weaken.
Qed.

#[local] Instance migration_run_fact namespace basePath : Fact (migration_run namespace basePath).
Proof.
  split.
  - intros ok evs evs' (calls & errs & before & after & ? & -> & ?). exists calls, errs, before, (after ++ evs').
    split; [done|]. split; [by rewrite <-!app_assoc|done].
  - intros ok ok' evs Ho (calls & errs & before & after & ? & ? & ?). exists calls, errs, before, after. auto.
Qed.

(** The requests of a task are matched on. *)
Ltac solve_fact :=
  repeat first [apply _ | apply then_try_fact; intros | match goal with |- Fact (match ?x with _ => _ end) => destruct x end].

#[local] Instance role_binding_fact namespace : Fact (role_binding_task namespace).
Proof. unfold role_binding_task. solve_fact. Qed.
#[local] Instance deployment_fact namespace : Fact (deployment_task namespace).
Proof. unfold deployment_task. solve_fact. Qed.
#[local] Instance policy_fact : Fact policy_task.
Proof. apply _. Qed.
#[local] Instance oauth_fact : Fact oauth_task.
Proof. unfold oauth_task. solve_fact. Qed.
#[local] Instance build_config_fact namespace name : Fact (build_config_task namespace name).
Proof. apply _. Qed.
#[local] Instance image_stream_fact namespace name : Fact (image_stream_task namespace name).
Proof. apply _. Qed.
#[local] Instance deprecation_fact namespace name : Fact (deprecation_task namespace name).
Proof. unfold deprecation_task. solve_fact. Qed.
#[local] Instance where_there_fact kind task `{!Fact task} : Fact (where_there kind task).
Proof. unfold where_there. solve_fact. Qed.
#[local] Instance profiles_fact namespace basePath : Fact (profiles_task namespace basePath).
Proof. apply _. Qed.
#[local] Instance mode_fact : Fact mode_task.
Proof. unfold mode_task. solve_fact. Qed.

(** Errors are only added: what holds without errors so far holds without errors in the end. *)
Lemma fact_of_prefix (T : fact) `{!Fact T} (errs more : list goerr) evs : T (errs = []) evs → T (errs ++ more = []) evs.
Proof. apply fact_weaken. by intros [? _]%app_eq_nil. Qed.

(** The rules: a request that something follows, a request, a task for every name. *)
Lemma then_try_spec {R A} F (e : UpgradeE R) (k : R → prog UpgradeE A) (fine : R → Prop) (next : R → fact) (good : A → Prop) :
  monotone F → (∀ evs x, F evs → upgrade_call evs (upgrade_event_of (Call e x))) →
  (∀ x, hoare (λ evs, upgrade_event_of (Call e x) ∈ evs ∧ F evs) (k x)
     (λ a evs, F evs ∧ (good a → fine x) ∧ next x (good a) evs)) →
  hoare F (x ← trigger e; k x) (λ a evs, F evs ∧ then_try (λ x, upgrade_event_of (Call e x)) fine next (good a) evs).
Proof.
  intros HF He Hk. apply (triple_bind _ _ _ _ _ (λ x evs, upgrade_event_of (Call e x) ∈ evs ∧ F evs)).
  { by apply triple_call. }
  intros x. eapply triple_weaken; [| |apply (triple_frame _ _ (λ evs, upgrade_event_of (Call e x) ∈ evs)), Hk; apply elem_mono].
  - by intros evs [? ?].
  - intros a evs (? & ? & ? & ?). split; [done|]. by exists x.
Qed.

Lemma attempt_spec {R A} F (e : UpgradeE R) (f : R → A) (fine : R → Prop) (good : A → Prop) :
  monotone F → (∀ evs x, F evs → upgrade_call evs (upgrade_event_of (Call e x))) → (∀ x, good (f x) → fine x) →
  hoare F (x ← trigger e; mret (f x)) (λ a evs, F evs ∧ attempt (λ x, upgrade_event_of (Call e x)) fine (good a) evs).
Proof.
  intros HF He Hg. apply (then_try_spec F e (λ x, mret (f x)) fine (λ _, nothing) good); [done|done|].
  intros x. apply triple_ret. intros evs [_ ?]. split; [done|]. split; [apply Hg|done].
Qed.

(** Nothing more is to be done. *)
Lemma nothing_spec {A} (a : A) (F Pre : list upgrade_event → Prop) (good : A → Prop) (fine : Prop) :
  (∀ evs, Pre evs → F evs) → (good a → fine) →
  hoare Pre (mret a) (λ a evs, F evs ∧ (good a → fine) ∧ nothing (good a) evs).
Proof. intros HF Hg. apply triple_ret. intros evs ?. split; [by apply HF|done]. Qed.

(** What follows decides. *)
Lemma next_spec {A} (p : prog UpgradeE A) (F Pre : list upgrade_event → Prop) (good : A → Prop) (fine : Prop) (T : fact) :
  (∀ evs, Pre evs → F evs) → fine → hoare Pre p (λ a evs, Pre evs ∧ T (good a) evs) →
  hoare Pre p (λ a evs, F evs ∧ (good a → fine) ∧ T (good a) evs).
Proof. intros HF Hf. apply triple_weaken; [done|]. intros a evs [? ?]. split; [by apply HF|done]. Qed.

(** A read that failed, where NotFound is fine. *)
Lemma read_error_spec {A} err message (F Pre : list upgrade_event → Prop) : (∀ evs, Pre evs → F evs) →
  hoare Pre (mret (if err_is TagNotFound err then None else Some (wrapf message err)))
    (λ res evs, F evs ∧ (res = None → readable_or [TagNotFound] (Err (A := A) err)) ∧ nothing (res = None) evs).
Proof.
  intros HF. apply (nothing_spec _ F Pre (λ res, res = None)); [done|]. simpl. destruct (err_is TagNotFound err) eqn:Ht; [|done].
  intros _. exists TagNotFound. split; [by left|by rewrite Ht].
Qed.

Lemma each_name_spec F f (T : string → fact) `{∀ name, Fact (T name)} errs names : monotone F →
  (∀ G name, monotone G → (∀ evs, G evs → F evs) → name ∈ names →
     hoare G (f name) (λ err evs, G evs ∧ T name (err = None) evs)) →
  hoare F (each_name f errs names)
    (λ errs' evs, F evs ∧ (∃ more, errs' = errs ++ more) ∧ each_task T names (errs' = []) evs).
Proof.
  unfold each_name, each_task. revert F errs. induction names as [|name names IH]; intros F errs HF Hf; simpl.
  - apply triple_ret. intros evs ?. split; [done|]. split; [by exists []; rewrite app_nil_r|done].
  - apply (triple_bind _ _ _ _ _ (λ errs1 evs, F evs ∧ T name (errs1 = []) evs ∧ ∃ err, errs1 = errs ++ appended err)).
    + eapply triple_bind; [apply Hf; [exact HF|done|by left]|]. intros err. apply triple_ret. intros evs [? Ht].
      split; [done|]. split; [|by exists err]. eapply fact_weaken; [|exact Ht]. intros [_ Hn]%app_eq_nil. by destruct err.
    + intros errs1. set (K := λ evs, F evs ∧ T name (errs1 = []) evs ∧ ∃ err, errs1 = errs ++ appended err).
      eapply triple_weaken; [intros evs Hpre; exact Hpre| |apply (IH K errs1)].
      * intros errs' evs ((? & Ht & err & ->) & (more & ->) & Hall). split; [done|].
        split; [exists (appended err ++ more); by rewrite app_assoc|]. constructor; [|done].
        eapply fact_weaken; [|exact Ht]. by intros [? _]%app_eq_nil.
      * apply both_mono; [done|apply both_mono; [apply fact_mono|by intros ? ? ?]].
      * intros G name' HG Hk Hin. apply Hf; [done|by intros evs [? _]%Hk|by right].
Qed.

(** ** The tasks *)

Lemma delete_other namespace item errs :
  namespace ≠ item → delete_deprecated namespace [namespace] errs item = Ret errs.
Proof. intros Hne. unfold delete_deprecated. simpl. by rewrite (proj2 (String.eqb_neq _ _) Hne). Qed.

Lemma delete_role_binding_spec F namespace items all errs : monotone F →
  (∀ evs, F evs → resolved namespace evs ∧ UpvRoleBindings namespace (Ok all) ∈ evs) → (∀ i, i ∈ items → i ∈ all) →
  hoare F (prog_foldl (delete_deprecated namespace [namespace]) errs items)
    (λ errs' evs, F evs ∧ (∃ more, errs' = errs ++ more) ∧
       (namespace ∈ items → attempt (UpvDeleteRoleBinding namespace namespace) deleted (errs' = []) evs)).
Proof.
  intros HF Hev. revert F HF Hev errs. induction items as [|item items IH]; intros F HF Hev errs Hin; cbn [prog_foldl].
  { apply triple_ret. intros evs ?. split; [done|]. split; [by exists []; rewrite app_nil_r|by intros ?%not_elem_of_nil]. }
  destruct (decide (namespace = item)) as [<-|Hne].
  2:{ rewrite delete_other, bind_ret_l by done. eapply triple_weaken; [done| |apply IH; [done..|by intros i ?; apply Hin; right]].
      intros errs' evs (? & ? & Hd). split; [done|]. split; [done|]. by intros [?|?]%elem_of_cons; [|auto]. }
  set (T := attempt (UpvDeleteRoleBinding namespace namespace) deleted).
  set (K := λ errs1 evs, F evs ∧ T (errs1 = []) evs ∧ ∃ more, errs1 = errs ++ more).
  apply (triple_bind _ _ _ _ _ K).
  { unfold delete_deprecated. cbn [prog_foldl]. rewrite String.eqb_refl.
    apply (triple_bind _ _ _ _ _ K); [|intros errs1; by apply triple_ret].
    apply (triple_bind _ _ _ _ _ (λ err evs, F evs ∧ UpvDeleteRoleBinding namespace namespace err ∈ evs)).
    { apply triple_call; [done| |done]. intros evs x [? ?]%Hev. split; [done|]. split; [done|]. exists all. split; [done|by apply Hin; left]. }
    intros err. apply triple_ret. intros evs [? ?]. split; [done|]. split.
    - exists err. split; [done|]. split; [|done]. destruct err as [err|]; [|done]. simpl.
      destruct (err_is TagNotFound err); [done|]. by intros [_ ?]%app_eq_nil.
    - destruct err as [err|]; [destruct (err_is TagNotFound err)|]; [exists []; by rewrite app_nil_r|by exists [err]|exists []; by rewrite app_nil_r]. }
  intros errs1. eapply triple_weaken; [intros evs Hk; exact Hk| |apply (IH (K errs1))].
  - intros errs' evs ((? & Ht & more & ->) & (more' & ->) & _). split; [done|].
    split; [exists (more ++ more'); by rewrite app_assoc|]. intros _. by apply fact_of_prefix; [apply _|].
  - apply both_mono; [done|apply both_mono; [apply fact_mono|by intros ? ? ?]].
  - intros evs (? & _). by apply Hev.
  - intros i ?. apply Hin. by right.
Qed.

Lemma deleteDeprecatedResources_spec F namespace : monotone F → (∀ evs, F evs → resolved namespace evs) →
  hoare F (deleteDeprecatedResources namespace [namespace])
    (λ errs evs, F evs ∧ role_binding_task namespace (errs = []) evs).
Proof.
  intros HF Hns. unfold deleteDeprecatedResources.
  apply (then_try_spec F (ListRoleBindings namespace) _ readable _ (λ errs, errs = [])); [done|done|].
  intros [items|err]; [|by apply nothing_spec; [intros ? [_ ?]|]].
  eapply triple_weaken; [intros evs Hpre; exact Hpre| |apply (delete_role_binding_spec _ namespace items items)].
  - intros errs evs ([_ ?] & _ & Hd). split; [done|]. split; [done|]. case_bool_decide; [by apply Hd|done].
  - by apply both_mono; [apply elem_mono|].
  - intros evs [? ?]. split; [by apply Hns|done].
  - done.
Qed.

Lemma cleanupModelController_spec F namespace : monotone F → (∀ evs, F evs → resolved namespace evs) →
  hoare F (cleanupModelControllerLegacyDeployment namespace)
    (λ err evs, F evs ∧ deployment_task namespace (err = None) evs).
Proof.
  intros HF Hns. unfold cleanupModelControllerLegacyDeployment.
  apply (then_try_spec F (GetDeploymentLabels namespace legacy_model_controller) _ _ _ (λ err, err = None)); [done|done|].
  intros [labels|err].
  - destruct (String.eqb_spec (default "" (labels !! PlatformPartOf)) "modelcontroller") as [Hl|Hl].
    + apply triple_ret. intros evs [_ ?]. split; [done|]. split; [done|].
      destruct (labels !! PlatformPartOf) as [v|] eqn:Hv; simpl in Hl; [|done]. subst v. by rewrite bool_decide_true.
    + rewrite bool_decide_false by (intros He; by rewrite He in Hl).
      apply (triple_bind _ _ _ _ _ (λ err evs, (UpvDeployment namespace legacy_model_controller (Ok labels) ∈ evs ∧ F evs) ∧
        UpvDeleteDeployment namespace legacy_model_controller err ∈ evs)).
      * apply triple_call; [by apply both_mono; [apply elem_mono|]| |done]. intros evs x [? ?].
        split; [by apply Hns|]. split; [done|]. exists labels. split; [done|]. intros He. by rewrite He in Hl.
      * intros [err|]; apply triple_ret; intros evs [[_ ?] ?]; (split; [done|]); (split; [done|]); [exists (Some err)|by exists None].
        split; [done|]. split; [|done]. simpl. by destruct (err_is TagNotFound err).
  - apply read_error_spec. by intros evs [_ ?].
Qed.

Lemma cleanupVAPB_spec F : monotone F → hoare F cleanupDeprecatedKueueVAPB (λ err evs, F evs ∧ policy_task (err = None) evs).
Proof.
  intros HF. unfold cleanupDeprecatedKueueVAPB.
  apply (attempt_spec F (DeletePolicyBinding deprecated_policy_binding) _ _ (λ err, err = None)); [done|done|].
  intros [err|]; [|done]. simpl. destruct (err_is TagNotFound err); [by left|]. destruct (err_is TagNoMatch err); [by right|done].
Qed.

Lemma cleanupOAuth_spec F : monotone F → hoare F cleanupLegacyOAuthClient (λ err evs, F evs ∧ oauth_task (err = None) evs).
Proof.
  intros HF. unfold cleanupLegacyOAuthClient.
  apply (then_try_spec F (GetOAuthClient LegacyAuthClientID) _ _ _ (λ err, err = None)); [done|done|].
  intros [uris|err].
  - destruct (existsb gateway_redirect uris) eqn:Hex; [|by apply nothing_spec; [intros evs [_ ?]|]].
    eapply triple_weaken; [intros evs Hpre; exact Hpre| |apply (attempt_spec _ (DeleteOAuthClient LegacyAuthClientID) _ deleted (λ err, err = None))].
    + intros err evs ([_ ?] & ?). by split.
    + by apply both_mono; [apply elem_mono|].
    + intros evs x [? _]. split; [done|]. apply existsb_exists in Hex as (uri & Hin & ?). exists uris, uri.
      split; [done|]. split; [by apply list_elem_of_In|done].
    + intros [err|]; [|done]. simpl. by destruct (err_is TagNotFound err).
  - destruct (_ || _) eqn:Ht; apply nothing_spec; [by intros evs [_ ?]| |by intros evs [_ ?]|done].
    intros _. simpl. apply orb_true_iff in Ht as [Ht|Ht]; [exists TagNotFound|exists TagNoMatch]; rewrite Ht; (split; [set_solver|done]).
Qed.

Lemma unless_ignorable_fine err message : unless_ignorable err message = None → ignorable err.
Proof. destruct err as [err|]; [|done]. simpl. by destruct (isIgnorableClusterResourceError err). Qed.

Lemma deprecate_spec G namespace name : monotone G → (∀ evs, G evs → resolved namespace evs) →
  name ∈ deprecatedRStudioNotebookImageStreams →
  hoare G (deprecateRStudioImageStream namespace name) (λ err evs, G evs ∧ deprecation_task namespace name (err = None) evs).
Proof using retries.
  intros HG Hns Hin. unfold deprecateRStudioImageStream.
  apply (triple_bind _ _ _ _ _ (λ err evs, G evs ∧ deprecation_task namespace name (err = None) evs)).
  2:{ intros [err|]; apply triple_ret; intros evs [? Ht]; (split; [done|]); (eapply fact_weaken; [|exact Ht]); done. }
  apply (triple_last _ _ (deprecate_attempt namespace name)).
  { intros tr I J Hi Htr. by apply RetryOnConflict_rule. }
  unfold deprecate_attempt.
  apply (then_try_spec G (GetImageStream namespace name) _ _ _ (λ err, err = None)); [done|done|].
  intros [stream|err].
  - destruct (mark_stream stream) as [updated changed] eqn:Hm. simpl. destruct changed; simpl;
      [|by apply nothing_spec; [intros evs [_ ?]|]].
    apply triple_call; [by apply both_mono; [apply elem_mono|]| |].
    + intros evs x [? ?]. exists namespace, name, stream. split; [by apply Hns|done].
    + intros x evs [_ ?] ?. split; [done|]. split; [done|]. by exists x.
  - apply nothing_spec; [by intros evs [_ ?]|]. simpl. by destruct (isIgnorableClusterResourceError err).
Qed.

Lemma deletion_spec (e : UpgradeE (option goerr)) (message : string) G : monotone G →
  (∀ evs x, G evs → upgrade_call evs (upgrade_event_of (Call e x))) →
  hoare G (err ← trigger e; mret (unless_ignorable err message))
    (λ err evs, G evs ∧ attempt (λ x, upgrade_event_of (Call e x)) ignorable (err = None) evs).
Proof. intros HG Hc. apply (attempt_spec G e _ _ (λ err, err = None)); [done|done|]. intros err. apply unless_ignorable_fine. Qed.

Definition rstudio_tasks namespace (ok : Prop) evs : Prop :=
  each_task (build_config_task namespace) deprecatedRStudioBuildConfigs ok evs ∧
  each_task (image_stream_task namespace) deprecatedRStudioBuildImageStreams ok evs ∧
  each_task (deprecation_task namespace) deprecatedRStudioNotebookImageStreams ok evs.

Lemma cleanupRStudio_spec F namespace : monotone F → (∀ evs, F evs → resolved namespace evs) →
  hoare F (cleanupDeprecatedRStudioResources namespace) (λ errs evs, F evs ∧ rstudio_tasks namespace (errs = []) evs).
Proof using retries.
  intros HF Hns. unfold cleanupDeprecatedRStudioResources.
  set (K1 := λ (errs : list goerr) evs, F evs ∧ each_task (build_config_task namespace) deprecatedRStudioBuildConfigs (errs = []) evs).
  set (K2 := λ (errs : list goerr) evs, K1 errs evs ∧
    each_task (image_stream_task namespace) deprecatedRStudioBuildImageStreams (errs = []) evs).
  assert (∀ errs, monotone (K1 errs)) as HK1 by (intros errs; apply both_mono; [done|apply fact_mono]).
  assert (∀ errs, monotone (K2 errs)) as HK2 by (intros errs; apply both_mono; [done|apply fact_mono]).
  apply (triple_bind _ _ _ _ _ K1); [|intros errs1; apply (triple_bind _ _ _ _ _ K2); [|intros errs2]].
  - eapply triple_weaken; [intros evs Hpre; exact Hpre| |apply (each_name_spec F _ (build_config_task namespace)); [done|]].
    + intros errs evs (? & _ & ?). by split.
    + intros G name HG Hg Hin. apply (deletion_spec (DeleteBuildConfig namespace name)); [done|]. intros evs x ?%Hg. split; [by apply Hns|done].
  - eapply triple_weaken; [intros evs Hpre; exact Hpre| |apply (each_name_spec (K1 errs1) _ (image_stream_task namespace)); [done|]].
    + intros errs evs ([? ?] & [more ->] & ?). split; [split; [done|by apply fact_of_prefix; [apply _|]]|done].
    + intros G name HG Hg Hin. apply (deletion_spec (DeleteImageStream namespace name)); [done|]. intros evs x [? _]%Hg. split; [by apply Hns|done].
  - eapply triple_weaken; [intros evs Hpre; exact Hpre| |apply (each_name_spec (K2 errs2) _ (deprecation_task namespace)); [done|]].
    + intros errs evs ([[? ?] ?] & [more ->] & ?). split; [done|]. split; [|split]; [apply fact_of_prefix; done || apply _..|done].
    + intros G name HG Hg Hin. apply deprecate_spec; [done| |done]. intros evs [[? _] _]%Hg. by apply Hns.
Qed.

(** ** The gateway's mode and the migrations *)

Lemma MigrateGateway_spec F : monotone F →
  hoare F (MigrateGatewayConfigIngressMode kubernetes) (λ err evs, F evs ∧ mode_task (err = None) evs).
Proof.
  intros HF. unfold MigrateGatewayConfigIngressMode.
  apply (then_try_spec F (GetGatewayContent "default-gateway") _ _ _ (λ err, err = None)); [done|done|].
  intros [old|err]; [|apply read_error_spec; by intros evs [_ ?]].
  unfold nonempty_str. destruct (String.eqb_spec (nested_string old ["spec"; "ingressMode"]) "") as [He|]; cbn [negb];
    [|by apply nothing_spec; [intros evs [_ ?]|]].
  set (K := λ evs, UpvGateway "default-gateway" (Ok old) ∈ evs ∧ F evs).
  assert (monotone K) as HK by (by apply both_mono; [apply elem_mono|]).
  apply (next_spec _ F K (λ err, err = None)); [by intros evs [_ ?]|done|].
  apply (then_try_spec K (GetGatewayServiceType (GetGatewayNamespace kubernetes) (GetDefaultGatewayServiceFullName kubernetes))
    _ _ _ (λ err, err = None)); [done|done|].
  intros [type|err]; [|apply read_error_spec; by intros evs [_ ?]].
  destruct (String.eqb_spec type "LoadBalancer") as [->|]; cbn [negb]; [|by apply nothing_spec; [intros evs [_ ?]|]].
  destruct (SetNestedString old "LoadBalancer" _) as [new|err] eqn:Hset.
  - apply (next_spec _ K _ (λ err, err = None)); [by intros evs [_ ?]|done|].
    apply (attempt_spec _ (PatchGatewayContent old new) _ written (λ err, err = None)).
    + by apply both_mono; [apply elem_mono|].
    + intros evs x (? & ? & _). done.
    + by intros [err|].
  - apply triple_ret. intros evs [_ ?]. by split.
Qed.

Lemma when_CRD_spec F kind what p (T : fact) : monotone F →
  (∀ G, monotone G → (∀ evs, G evs → UpvHasCRD kind (Ok true) ∈ evs ∧ F evs) →
     hoare G p (λ errs evs, G evs ∧ T (errs = []) evs)) →
  hoare F (when_CRD kind what p) (λ errs evs, F evs ∧ where_there kind T (errs = []) evs).
Proof.
  intros HF Hp. unfold when_CRD.
  apply (then_try_spec F (HasCRDOf kind) _ _ _ (λ errs, errs = [])); [done|done|].
  intros [[]|err]; [|by apply nothing_spec; [intros evs [_ ?]|]..].
  eapply triple_weaken; [intros evs Hpre; exact Hpre| |apply Hp].
  - intros errs evs ([_ ?] & ?). by split.
  - by apply both_mono; [apply elem_mono|].
  - done.
Qed.

(** Every call of the migration has an answer. *)
Definition answer_migration X (e : HwpMigrationE X) : X :=
  match e in HwpMigrationE X return X with
  | Now => ""
  | ListAcceleratorProfiles | ListNotebooks => Ok []
  | GetDashboardConfig _ _ => Ok []
  | StatManifest _ => None
  | ReadManifest _ => Ok ""
  | GetNamespaceLabels _ => Ok ∅
  | GetProfile _ _ => None
  | CreateProfile _ | UpdateNotebook _ | CreateUpgradeEvent _ _ _ => None
  end.

Lemma migrations_snoc evs {X} (e : HwpMigrationE X) x : migrations (evs ++ [UpvMigrate e x]) = migrations evs ++ [migration_event_of (Call e x)].
Proof. unfold migrations. by rewrite bind_app. Qed.

Lemma migrations_spec F namespace basePath : monotone F →
  (∀ evs, F evs → UpvHasCRD InfraHardwareProfileGVK (Ok true) ∈ evs ∧ resolved namespace evs) →
  hoare F (when_CRD DashboardAcceleratorProfileGVK "AcceleratorProfile"
    (lift (@UpMigrate) (MigrateToInfraHardwareProfiles multierror_error yaml_Unmarshal namespace basePath)))
    (λ errs evs, F evs ∧ where_there DashboardAcceleratorProfileGVK (migration_run namespace basePath) (errs = []) evs).
Proof.
  intros HF Hev. apply when_CRD_spec; [done|]. intros G HG Hg.
  eapply triple_weaken; [intros evs Hpre; exact Hpre| |
    apply (triple_lift _ _ (@UpMigrate) migration_event_of (migration_call yaml_Unmarshal namespace) migrations G answer_migration)].
  - intros errs evs (? & calls & before & ? & ->). split; [done|]. exists calls, errs, before, []. by rewrite app_nil_r.
  - intros X e x evs. apply migrations_snoc.
  - intros pre evs ev. apply migration_call_later.
  - done.
  - intros X e x evs [? [? ?]%Hev]%Hg Hm. split; [done|]. split; [done|]. by exists namespace.
  - eapply wp_mono; [|apply (triple_run migration_event_of (migration_call yaml_Unmarshal namespace) _ _ _
      (MigrateToInfraHardwareProfiles_lawful multierror_error yaml_Unmarshal namespace basePath)); done].
    by intros tr a [? _].
Qed.

(** ** The cleanup *)

(** The namespace could not be determined; [ok]: because there is no DSCI. *)
Definition unresolved (ok : Prop) evs : Prop :=
  configuredAppNS = "" ∧
  ∃ r, UpvCluster ListDSCI r ∈ evs ∧ (∀ dsci, r ≠ Ok [dsci]) ∧ (ok → r = Ok [] ∨ ∃ e, r = Err e ∧ err_is TagNotFound e).

Definition cleanup_outcome basePath (ok : Prop) evs : Prop :=
  (∃ namespace, resolved namespace evs ∧ tried_all namespace basePath ok evs) ∨ unresolved ok evs.

Lemma resolve_spec :
  hoare (λ _, True) (lift (@UpCluster) (ApplicationNamespace gvk_String NotFound_text configuredAppNS))
    (λ r evs, match r with
              | Ok namespace => resolved namespace evs
              | Err err => unresolved (err_is TagNotFound err) evs
              end).
Proof.
  apply triple_intro. intros tr Htr _. unfold ApplicationNamespace, nonempty_str.
  destruct (String.eqb_spec configuredAppNS "") as [He|Hne]; simpl.
  - intros r. set (c := Call (UpCluster ListDSCI) r).
    assert (leads upgrade_event_of upgrade_call tr (tr ++ [c])) as Hl by (by apply leads_snoc).
    assert (UpvCluster ListDSCI r ∈ upgrade_events (tr ++ [c])) as Hev by (apply (last_event upgrade_event_of tr c)).
    destruct r as [[|dsci [|d2 ds]]|err]; simpl; (split; [exact Hl|]).
    + split; [done|]. exists (Ok []). split; [exact Hev|]. split; [done|]. intros _. by left.
    + right. by exists dsci.
    + split; [done|]. exists (Ok (dsci :: d2 :: ds)). by split.
    + split; [done|]. exists (Err err). split; [exact Hev|]. split; [done|]. intros Hn. right. by exists err.
  - split; [by apply leads_refl|]. by left.
Qed.

Lemma tried_all_weaken namespace basePath (ok ok' : Prop) evs :
  (ok' → ok) → tried_all namespace basePath ok evs → tried_all namespace basePath ok' evs.
Proof.
  intros Ho (? & ? & ? & ? & ? & ? & ? & ? & ?).
  refine (conj _ (conj _ (conj _ (conj _ (conj _ (conj _ (conj _ (conj _ _)))))))); by eapply fact_weaken.
Qed.

Ltac solve_mono := repeat first [assumption | apply both_mono | apply fact_mono | apply resolved_mono | apply elem_mono].

Lemma CleanupExistingResource_spec basePath :
  hoare (λ _, True)
    (CleanupExistingResource kubernetes multierror_error yaml_Unmarshal gvk_String NotFound_text configuredAppNS basePath)
    (λ err, cleanup_outcome basePath (err = None)).
Proof using retries backoff.
  unfold CleanupExistingResource. eapply triple_bind; [apply resolve_spec|]. intros [namespace|err].
  2: { apply triple_ret. intros evs (? & r & ? & ? & Hn). right. split; [done|]. exists r. split; [done|]. split; [done|].
       destruct (err_is TagNotFound err); [by intros _; apply Hn|done]. }
  assert (∀ F : list upgrade_event → Prop, (∀ evs, (resolved namespace evs ∧ F evs) → resolved namespace evs)) as Hres by tauto.
  eapply triple_bind; [apply (deleteDeprecatedResources_spec (resolved namespace)); [solve_mono|done]|]. intros errs1.
  eapply triple_bind; [apply cleanupModelController_spec; [solve_mono|tauto]|]. intros err2.
  eapply triple_bind; [apply cleanupVAPB_spec; solve_mono|]. intros err3.
  eapply triple_bind; [apply cleanupOAuth_spec; solve_mono|]. intros err4.
  eapply triple_bind; [apply cleanupRStudio_spec; [solve_mono|tauto]|]. intros errs5.
  eapply triple_bind.
  { apply (when_CRD_spec _ _ _ _ (where_there DashboardAcceleratorProfileGVK (migration_run namespace basePath)));
      [unfold rstudio_tasks; solve_mono|]. intros G HG Hg. apply migrations_spec; [done|]. intros evs ?%Hg. tauto. }
  intros errs6. eapply triple_bind.
  { apply (when_CRD_spec _ _ _ _ mode_task); [unfold rstudio_tasks; solve_mono|]. intros G HG _.
    eapply triple_bind; [apply (MigrateGateway_spec G), HG|]. intros err. apply triple_ret. intros evs [? Ht].
    split; [done|]. eapply fact_weaken; [|exact Ht]. by destruct err. }
  intros errs7. apply triple_ret. intros evs (((((((? & ?) & ?) & ?) & ?) & ? & ? & ?) & ?) & ?).
  left. exists namespace. split; [done|].
  assert (ErrorOrNil multierror_error
    (errs1 ++ appended err2 ++ appended err3 ++ appended err4 ++ errs5 ++ errs6 ++ errs7) = None →
    errs1 = [] ∧ err2 = None ∧ err3 = None ∧ err4 = None ∧ errs5 = [] ∧ errs6 = [] ∧ errs7 = []) as Hnil.
  { by destruct errs1, err2, err3, err4, errs5, errs6, errs7. }
  refine (conj _ (conj _ (conj _ (conj _ (conj _ (conj _ (conj _ (conj _ _))))))));
    (eapply fact_weaken; [|eassumption]); by intros (? & ? & ? & ? & ? & ? & ?)%Hnil.
Qed.

(** ** The default instances *)

Lemma CreateWithRetry_spec F obj : monotone F → (∀ evs x, F evs → upgrade_call evs (UpvCreate obj x)) →
  hoare F (CreateWithRetry obj) (λ err evs, F evs ∧ (err = None → there evs obj)).
Proof using backoff.
  intros HF Hc. unfold CreateWithRetry.
  apply (triple_repeat _ _ (create_attempt obj) _ (λ r, r = Ok true)).
  { intros tr I J Hi Htr. by apply CreateExponentialBackoff_rule. }
  unfold create_attempt.
  apply (triple_bind _ _ _ _ _ (λ err evs, F evs ∧ UpvCreate obj err ∈ evs)); [apply triple_call; [done|by apply Hc|done]|].
  intros [errCreate|]; [|apply triple_ret; intros evs [? ?]; split; [done|by left]].
  apply (triple_bind _ _ _ _ _ (λ err evs, F evs ∧ UpvGetDefault obj err ∈ evs)).
  { apply triple_call; [by apply both_mono; [|apply elem_mono]|done|by intros x evs [? _]]. }
  intros [errGet|]; [|apply triple_ret; intros evs [? ?]; split; [done|by right]].
  destruct (err_is TagInternal errCreate); by apply triple_ret; intros evs [? _].
Qed.

Lemma there_mono obj : monotone (λ evs, there evs obj).
Proof. intros evs evs' [?|?]; [left|right]; by apply elem_mono. Qed.

Lemma dsci_there_mono : monotone dsci_there.
Proof. intros evs evs' [(n & ? & ?)|?]; [left; exists n; split; [by apply elem_mono|done]|right; by apply there_mono]. Qed.

Lemma CreateDefaultDSCI_spec F : monotone F → wants_dsci →
  hoare F (CreateDefaultDSCI (le_MonitoringNamespace cfg)) (λ err evs, F evs ∧ (err = None → dsci_there evs)).
Proof using backoff.
  intros HF Hw. unfold CreateDefaultDSCI.
  apply (triple_bind _ _ _ _ _ (λ r evs, F evs ∧ UpvDscis r ∈ evs)); [by apply triple_call|].
  intros [n|err]; [|by apply triple_ret; intros evs [? _]].
  destruct n as [|[|n]]; simpl.
  - eapply triple_weaken; [intros evs Hpre; exact Hpre| |apply CreateWithRetry_spec].
    + intros err evs [[? _] Hr]. split; [done|]. intros He. right. by apply Hr.
    + by apply both_mono; [|apply elem_mono].
    + intros evs x [_ ?]. done.
  - apply triple_ret. intros evs [? ?]. split; [done|]. intros _. left. by exists 1%nat.
  - apply triple_ret. intros evs [? ?]. split; [done|]. intros _. left. by exists (S (S n)).
Qed.

Lemma cleanup_outcome_mono basePath ok : monotone (cleanup_outcome basePath ok).
Proof.
  intros evs evs' [(ns & ? & Ht)|(? & r & ? & Hr)]; [left; exists ns|right].
  - split; [by apply resolved_mono|]. assert (monotone (tried_all ns basePath ok)) as Hm by (unfold tried_all; solve_mono). by apply Hm.
  - split; [done|]. exists r. split; [by apply elem_mono|done].
Qed.

(** ** The start of the leader *)

Notation start := (RunLeaderElectionInit cfg (DefaultLeaderElectionInitHooks kubernetes multierror_error yaml_Unmarshal
  gvk_String NotFound_text configuredAppNS)).

(** The cleanup was done as far as possible; its error is only logged. *)
Definition started (err : option goerr) evs : Prop :=
  cleanup_outcome (le_ManifestsBasePath cfg) False evs ∧
  (err = None → (wants_dsci → dsci_there evs) ∧ (wants_dsc → there evs buildDefaultDSC)).

Lemma RunLeaderElectionInit_spec : hoare (λ _, True) start started.
Proof using retries backoff.
  unfold RunLeaderElectionInit. simpl validateLeaderElectionInitHooks. cbn beta match.
  set (C := cleanup_outcome (le_ManifestsBasePath cfg) False).
  assert (monotone C) as HC by apply cleanup_outcome_mono.
  apply (triple_bind _ _ _ _ _ (λ _, C)).
  { eapply triple_weaken; [intros evs Hpre; exact Hpre| |apply CleanupExistingResource_spec].
    intros err evs [(ns & ? & Ht)|(? & r & ? & ? & _)]; [left; exists ns|right].
    - split; [done|]. eapply tried_all_weaken; [|exact Ht]. done.
    - split; [done|]. by exists r. }
  intros _. apply (triple_bind _ _ _ _ _ (λ err evs, C evs ∧ (err = None → wants_dsci → dsci_there evs))).
  { unfold wants_dsci. destruct (le_DSCIEnabled cfg) eqn:He, (le_CreateDefaultDSCIDisabled cfg) eqn:Hd; cbn [negb andb];
      try (by apply triple_ret).
    eapply triple_weaken; [intros evs Hpre; exact Hpre| |apply (CreateDefaultDSCI_spec C); [done|]].
    - intros err evs [? Hr]. split; [done|]. intros ? _. by apply Hr.
    - unfold wants_dsci. by rewrite He, Hd. }
  intros [err|]; [by apply triple_ret; intros evs [? _]|].
  destruct (String.eqb (le_Platform cfg) ManagedRhoai && le_DSCEnabled cfg) eqn:Hw.
  - set (K := λ evs, C evs ∧ (wants_dsci → dsci_there evs)).
    assert (monotone K) as HK.
    { apply both_mono; [done|]. intros evs evs' Hs Hd. by apply dsci_there_mono, Hs. }
    apply (triple_bind _ _ _ _ _ (λ err evs, K evs ∧ (err = None → there evs buildDefaultDSC))).
    + apply (triple_weaken _ _ _ K _ (λ err evs, K evs ∧ (err = None → there evs buildDefaultDSC))); [|done|].
      { intros evs [? Hs]. split; [done|by apply Hs]. }
      unfold call_hook, id. simpl. unfold CreateDefaultDSC.
      eapply triple_bind; [apply (CreateWithRetry_spec K); [done|]|].
      * intros evs x [_ Hs]. split; [unfold wants_dsc; by rewrite Hw|]. done.
      * intros [err|]; apply triple_ret; intros evs [? Hr]; split; done || auto.
    + intros [err|]; apply triple_ret; intros evs [[? Hs] Hr]; (split; [done|]); [done|]. intros _. split; [done|]. intros _. by apply Hr.
  - apply triple_ret. intros evs [? Hs]. split; [done|]. intros _. split; [by apply Hs|]. unfold wants_dsc. by rewrite Hw.
Qed.

(** C21: what a new leader deletes, changes and creates, whatever the API server answers. In the
    application namespace - the configured one or that of the only DSCI listed - it deletes
    role bindings that were listed and are named as the namespace, the deployment of the model
    controller if it was read without its new part-of label, and, by their fixed names and
    without a look at them, the BuildConfigs and ImageStreams of RStudio; in the cluster, by its
    fixed name, the deprecated policy binding, and an OAuthClient of the legacy name that was
    read and redirects to the gateway. It writes an ImageStream only as marking the one it read
    makes it, and only if this changes it; the migration of hardware profiles makes only calls
    that [migration_call] allows, and only when both kinds were seen to exist; it patches a
    GatewayConfig that was read without a mode while its service is a LoadBalancer, with this
    mode only. It creates the default DSCI only where one is wanted and none was listed, and the
    default DSC only where it is wanted, and, if a DSCI is wanted too, after that is there. *)
Theorem leader_start_careful : wp start [] (λ tr _, each_after upgrade_call (upgrade_events tr)).
Proof using retries backoff.
  eapply wp_mono; [|apply (triple_run _ _ _ _ _ RunLeaderElectionInit_spec); done]. by intros tr a [? _].
Qed.

(** C37: every task of the cleanup is tried, whatever happens to the others: the deletion of role
    bindings, of the old deployment, the policy binding, the OAuthClient and the BuildConfigs
    and ImageStreams of RStudio, the marking of its other ImageStreams, the migration of
    hardware profiles, which runs to its end where both kinds exist, and the mode of the
    gateway; each also makes the requests that its answers call for - unless the application
    namespace could not be determined, as the listed DSCIs show. If the cleanup reports no error,
    each of these answers was fine or said that there was nothing to do, and the migration had
    no error. At the start of the leader
    the tasks are tried as well; the error of the cleanup is only logged there, and no error of
    the start means that every default instance that is wanted is there. *)
Theorem leader_start_complete :
  (∀ basePath, wp (CleanupExistingResource kubernetes multierror_error yaml_Unmarshal gvk_String NotFound_text configuredAppNS basePath) []
     (λ tr err, cleanup_outcome basePath (err = None) (upgrade_events tr))) ∧
  wp start [] (λ tr err, started err (upgrade_events tr)).
Proof using retries backoff.
  split.
  - intros basePath. eapply wp_mono; [|apply (triple_run _ _ _ _ _ (CleanupExistingResource_spec basePath)); done]. by intros tr a [_ ?].
  - eapply wp_mono; [|apply (triple_run _ _ _ _ _ RunLeaderElectionInit_spec); done]. by intros tr a [_ ?].
Qed.
End leader.

(** ** Marking ImageStreams *)

Lemma mark_annotation_spec key val acc :
  (mark_annotation key val acc).1 !! key = Some val ∨ (val = "" ∧ acc.1 !! key = None).
Proof.
  unfold mark_annotation. destruct (String.eqb_spec (default "" (acc.1 !! key)) val) as [He|]; [|left; by simplify_map_eq].
  destruct (acc.1 !! key) as [x|] eqn:Hl; [left; by rewrite <-He|right]. by rewrite <-He.
Qed.

(** The annotations of a marked tag. *)
Definition marked (tag : ImageTag) : Prop :=
  ∃ m, it_Annotations tag = Some m ∧ m !! imageTagOutdatedAnnotation = Some "true" ∧
    m !! workbenchImageRecommendedAnnotation = Some "false".

Lemma mark_annotation_done key val m b : m !! key = Some val → mark_annotation key val (m, b) = (m, b).
Proof. intros Hm. unfold mark_annotation. simpl. rewrite Hm. simpl. by rewrite String.eqb_refl. Qed.

Lemma mark_annotation_changed key val m b : val ≠ "" → b = true ∨ m !! key ≠ Some val → (mark_annotation key val (m, b)).2 = true.
Proof.
  intros Hv Hb. unfold mark_annotation. simpl. destruct (String.eqb_spec (default "" (m !! key)) val) as [He|]; [|done].
  destruct Hb as [->|Hb]; [done|]. destruct (m !! key) eqn:Hl; [|by subst]. simpl in He. subst. done.
Qed.

Lemma marked_mark_tag tag : marked tag → mark_tag tag = (tag, false).
Proof.
  intros (m & Ha & H1 & H2). unfold mark_tag. rewrite Ha. simpl. rewrite !mark_annotation_done by done. simpl.
  destruct tag. simpl in *. by subst.
Qed.

Lemma mark_tag_marked tag : marked (mark_tag tag).1.
Proof.
  unfold mark_tag. eexists. split; [reflexivity|].
  set (m0 := default ∅ (it_Annotations tag)).
  destruct (mark_annotation_spec imageTagOutdatedAnnotation "true" (m0, false)) as [H1|[? _]]; [|done].
  destruct (mark_annotation imageTagOutdatedAnnotation "true" (m0, false)) as [m1 b1]. simpl in H1.
  destruct (mark_annotation_spec workbenchImageRecommendedAnnotation "false" (m1, b1)) as [H2|[? _]]; [|done].
  split; [|exact H2]. unfold mark_annotation in *. simpl in *. destruct (String.eqb _ _); [done|].
  simpl. by rewrite lookup_insert_ne.
Qed.

Lemma mark_tag_unchanged tag : (mark_tag tag).2 = false → marked tag.
Proof.
  unfold mark_tag. set (m0 := default ∅ (it_Annotations tag)). simpl. intros Hf.
  destruct (decide (m0 !! imageTagOutdatedAnnotation = Some "true")) as [H1|H1].
  - rewrite mark_annotation_done in Hf by done.
    destruct (decide (m0 !! workbenchImageRecommendedAnnotation = Some "false")) as [H2|H2].
    + unfold marked, m0 in *. destruct (it_Annotations tag) as [m|]; simpl in *; [by exists m|done].
    + rewrite mark_annotation_changed in Hf; [done|done|by right].
  - destruct (mark_annotation imageTagOutdatedAnnotation "true" (m0, false)) as [m1 b1] eqn:He.
    assert (b1 = true) as -> by (change b1 with (m1, b1).2; rewrite <-He; apply mark_annotation_changed; [done|by right]).
    rewrite mark_annotation_changed in Hf; [done|done|by left].
Qed.

(** Marking an ImageStream marks every tag; it reports no change exactly when all tags were
    marked already, which leaves the stream as it is: a second run never writes. *)
Theorem mark_stream_settles stream :
  Forall marked (is_Tags (mark_stream stream).1) ∧
  ((mark_stream stream).2 = false ↔ Forall marked (is_Tags stream)) ∧
  ((mark_stream stream).2 = false → (mark_stream stream).1 = stream) ∧
  mark_stream (mark_stream stream).1 = ((mark_stream stream).1, false).
Proof.
  assert (∀ s, Forall marked (is_Tags s) → mark_stream s = (s, false)) as Hdone.
  { intros [n ns tags] Hall. unfold mark_stream. cbn [is_Name is_Namespace is_Tags] in *.
    rewrite (Forall_fmap_ext_1 mark_tag (λ tag, (tag, false)) tags);
      [|eapply Forall_impl; [exact Hall|exact marked_mark_tag]].
    f_equal; [f_equal; rewrite <-list_fmap_compose; apply list_fmap_id|]. clear. by induction tags. }
  assert (Forall marked (is_Tags (mark_stream stream).1)) as Hall.
  { unfold mark_stream. simpl. apply Forall_fmap, Forall_fmap, Forall_true. intros tag. apply mark_tag_marked. }
  assert ((mark_stream stream).2 = false ↔ Forall marked (is_Tags stream)) as Hiff.
  { split; [|intros Hm; by rewrite Hdone]. unfold mark_stream. simpl. intros Hex.
    induction (is_Tags stream) as [|tag tags IH]; [constructor|]. simpl in Hex. apply orb_false_iff in Hex as [Ht Hex].
    constructor; [by apply mark_tag_unchanged|by apply IH]. }
  split; [done|]. split; [done|]. split; [|by apply Hdone]. intros Hn%Hiff. by rewrite Hdone.
Qed.

(** ** The default DataScienceCluster passes the webhooks *)

Theorem default_dsc_admitted meta status namespace :
  wp (DscV3.Handle (MkRequest DscV3.GVK Create "" false
        (Ok (DscV3.applyDefaults namespace (V3.MkDSC meta default_components status))) None)) []
    (λ tr r, ∃ listed, tr = [Call (ListObjects DscV3.GVK) listed] ∧ (Allowed r = true ↔ listed = Ok [])).
Proof.
  simpl. intros [[|o os]|err]; (eexists; split; [reflexivity|]); simpl; [done| |done].
  by split.
Qed.

(** ** A start that cleans up *)

#[local] Existing Instances nested_documented nested_maps_documented.
#[local] Instance sample_scalars : NestedScalars := nested_scalars_documented.
#[local] Instance three_conflicts : ConflictRetries := retry_conflicts 3.
#[local] Instance three_conflicts_laws : ConflictRetriesLaws := retry_conflicts_laws 3.
#[local] Instance five_steps : CreateBackoff := poll_create 5.
#[local] Instance five_steps_laws : CreateBackoffLaws := poll_create_laws 5.
#[local] Existing Instance sample_quantity.

(** Addresses of one host. *)
#[local] Instance sample_urls : UrlParser := λ uri,
  if String.prefix "https://host" uri then Ok (MkURL "https" (String.substring 12 (String.length uri) uri))
  else Err (errorf "not a URL of the host").

Definition sample_missing : goerr := Goerr "not found" [TagNotFound].

(** The migration runs on a cluster without AcceleratorProfiles; one policy binding cannot be
    deleted when [broken]. *)
Definition sample_upgrade_cluster (broken : bool) {X} (e : UpgradeE X) : bool → X * bool :=
  match e in UpgradeE X return bool → X * bool with
  | UpCluster e => λ b,
      (match e in ClusterE Y return Y with
       | ListDSCI => Ok [MkDSCI "apps" "monitoring"]
       | ListWebhookConfigurations => Ok []
       end, b)
  | UpMigrate e => λ b,
      (match e in HwpMigrationE Y return Y with
       | Now => "now"
       | ListAcceleratorProfiles | ListNotebooks => Ok []
       | GetDashboardConfig _ _ => Err sample_missing
       | StatManifest _ => Some (Goerr "no such file or directory" [TagNotExist])
       | ReadManifest _ => Err sample_missing
       | GetNamespaceLabels _ => Ok ∅
       | GetProfile _ _ => Some sample_missing
       | CreateProfile _ | UpdateNotebook _ | CreateUpgradeEvent _ _ _ => None
       end, b)
  | ListRoleBindings _ => λ b, (Ok ["apps"; "admins"], b)
  | GetDeploymentLabels _ _ => λ b, (Ok ∅, b)
  | DeletePolicyBinding _ => λ b, (if broken then Some (Goerr "forbidden" [TagForbidden]) else None, b)
  | GetOAuthClient _ => λ b, (Ok ["https://host/oauth2/callback"], b)
  | GetImageStream ns name => λ b, (Ok (MkImageStream name ns [MkImageTag "v1" None]), b)
  | HasCRDOf kind => λ b, (Ok (String.eqb (gvk_Kind kind) "GatewayConfig"), b)
  | GetGatewayContent _ => λ b, (Ok [("spec", VMap [])], b)
  | GetGatewayServiceType _ _ => λ b, (Ok "LoadBalancer", b)
  | ListDsciCount => λ b, (Ok 0%nat, b)
  | CreateDefault _ => λ b, (if b then None else Some (Goerr "no endpoints available for service" [TagInternal]), true)
  | GetDefault _ => λ b, (Some sample_missing, b)
  | DeleteRoleBinding _ _ | DeleteDeploymentForeground _ _ | DeleteOAuthClient _ | DeleteBuildConfig _ _
  | DeleteImageStream _ _ | UpdateImageStream _ | PatchGatewayContent _ _ => λ b, (None, b)
  end.

Definition sample_config : LeaderElectionInitConfig := MkInitConfig ManagedRhoai "/manifests" "monitoring" true true false.
Definition sample_no_yaml (_ : string) : result value_map := Err (errorf "no YAML").
Definition sample_kind_text (_ : GroupVersionKind) : string := "kind".
Definition sample_missing_text (_ _ _ : string) : string := "not found".

Definition sample_start (broken : bool) : option goerr * bool * list (call UpgradeE) :=
  run (@sample_upgrade_cluster broken)
    (RunLeaderElectionInit sample_config
       (DefaultLeaderElectionInitHooks false first_error sample_no_yaml sample_kind_text sample_missing_text "")) false [].

Lemma leader_start_careful_witness :
  each_after (upgrade_call false sample_no_yaml "" sample_config) (upgrade_events (sample_start false).2) ∧ length (sample_start false).2 = 26%nat.
Proof.
  split; [|vm_compute; reflexivity].
  exact (run_wp (@sample_upgrade_cluster false) _ false [] _
    (leader_start_careful false first_error sample_no_yaml sample_kind_text sample_missing_text "" sample_config)).
Defined.

(** The cleanup reports an error only on a broken cluster, and the instances are created. *)
Definition sample_cleanup (broken : bool) : option goerr * bool * list (call UpgradeE) :=
  run (@sample_upgrade_cluster broken)
    (CleanupExistingResource false first_error sample_no_yaml sample_kind_text sample_missing_text "" "/manifests") false [].

Lemma leader_start_complete_witness :
  (sample_start true).1.1 = None ∧
  started false first_error sample_no_yaml "" sample_config None (upgrade_events (sample_start true).2) ∧
  (sample_cleanup false).1.1 = None ∧
  cleanup_outcome false first_error sample_no_yaml "" "/manifests" ((sample_cleanup false).1.1 = None) (upgrade_events (sample_cleanup false).2).
Proof.
  split; [vm_compute; reflexivity|]. split; [|split; [vm_compute; reflexivity|]].
  - exact (run_wp (@sample_upgrade_cluster true) _ false [] _ (proj2
      (leader_start_complete false first_error sample_no_yaml sample_kind_text sample_missing_text "" sample_config))).
  - exact (run_wp (@sample_upgrade_cluster false) _ false [] _ (proj1
      (leader_start_complete false first_error sample_no_yaml sample_kind_text sample_missing_text "" sample_config) "/manifests")).
Defined.
